(* ===== verification/_CoqProject ===== *)
-Q . S2P
Prelude.v
Histogram.v
Ledger.v
PyDecimal.v
RateLimit.v
Retry.v
Health.v
StateStore.v
Assignment.v
Domain.v
RestModels.v
IntervalObs.v
Interval.v
Budgets.v
RestScheduler.v
RestSubmit.v
RestSelect.v
RestRuns.v
StorageModels.v
Ingress.v
IngressRuns.v
SelectionModels.v
Selector.v
SelectorFacts.v
Selection.v
Fixed.v
Capacity.v
Admission.v
Sharing.v
PyText.v
PyTime.v
CatalogJson.v
CatalogRows.v
CatalogListing.v
CatalogFacts.v
ListingFacts.v
CatalogStore.v
CatalogTables.v
CatalogApply.v
Concrete.v
CatalogRuns.v
CatalogSelections.v
PartPath.v
EnvelopeJson.v
StreamFile.v
Durability.v
DurabilityFacts.v
DurabilityRuns.v
DurabilitySteps.v
DurabilityBatches.v
DurabilityProgress.v
DurabilitySamples.v
Manifest.v
FrameScan.v
ScanFacts.v
RecoveryScan.v
CrashRecovery.v
RecoveryPlan.v
PathFacts.v
RowFacts.v
PlanFacts.v
RecoveryPlans.v
ActivePart.v
ActivePartRuns.v
ActivePartSteps.v
ActivePartInv.v
ActivePartFreeze.v
ActiveParts.v
ActivePartSamples.v
PartSet.v
PartSetRuns.v
PartSetSteps.v
PartSetOps.v
PartSetRotations.v
PartSetAppend.v
PartSetInv.v
PartSetClaims.v
PartSetSamples.v
IntervalIngress.v
