(* ===== verification/Prelude.v ===== *)
(** * The crypto collector, verified

    The collector records market data of five exchanges.  This library models the
    parts of [src/src/crypto_collector/] that decide: which instruments are recorded,
    what their catalog looks like after each snapshot, which of them fit on the
    connections, who may send which request when, over which
    egress, how long to back off, what a restriction means across restarts, which
    record is accepted into which shard in which order, which file it is written to, what
    the manifest of the file states and what recovery makes of it, and what is measured
    about durability.  It is a shallow embedding: a
    method is a function from the state of its object to the new state and a
    [result], a raised exception is a value of [exn], and a method that raises after
    it changed the object returns the object as the exception leaves it ([M]).

    ** The files

    - [Prelude]: exceptions, the error and state monads and their notations, Python's
      stable [sorted], order classes, integer lemmas, tactics ([inv_ok], [bool_prop])
      and the hint database [py].
    - [Histogram], [Ledger]: [storage/stats.py].  The bucket schema, the cumulative
      histogram and the rolling one of sixty reused slots; the durability ledger with
      its stage counters and its lazily cleaned heap.
    - [PyDecimal]: [decimal.Decimal], as far as it is used.
    - [RateLimit]: [network/rate_limit.py].  Token buckets and [BudgetRegistry]
      ([Registry]; facts about it in [RegistryFacts]).
    - [Retry]: [network/retry.py] and the retry limits of [config/models.py].
      Classification, [Retry-After], backoff, decision, effect on a quota group.
      The random generator ([Random]) and the store ([QuotaRestrictionStore]) are
      interfaces.
    - [Health], [StateStore]: [network/health.py], [network/state_store.py].
      Restrictions and failures as rows of two tables, and the minted admissions that
      alone may lift them.  The store implements [Retry]'s interface.
    - [Assignment]: [network/assignment.py].  Keys, rendezvous hashing, assignment
      within capacities, packing into connection shards.
    - [Domain]: [domain/].  Payloads, sources, envelopes, path encoding.
    - [RestModels]: [scheduler/models.py].  Cadence, jobs, routes, dispatches.
    - [IntervalObs], [Interval]: [scheduler/interval_observability.py] and the first
      half of [scheduler/rest.py].  The interval solver, the controller that lets an
      interval recover, and the publication of a change; the sinks are an interface
      ([IntervalSinks]).
    - [Budgets]: what the scheduler asks of its budgets, a type class [Budgets] with
      the laws [BudgetLaws], and the registry of [RateLimit] as an instance of both.
    - [RestScheduler], [RestSubmit], [RestSelect], [RestRuns]: the second half of
      [scheduler/rest.py].  The first has the state, every operation and the invariant
      [sched_ok]; the others prove what a submission does, what [next_ready] selects
      and how long it sleeps, and what holds after any run.  They are proved for any
      budgets that keep the laws, so they hold for the registry.
    - [StorageModels]: [storage/models.py] and [storage/serialize.py].  Accepted
      records, control requests and their JSON form, the encoding of envelopes over the
      two JSON encoders ([Encoders]).
    - [Ingress], [IngressRuns]: [storage/ingress.py].  The resident budget, the shards'
      queues and every operation of [RawIngress]; then its invariant and what holds
      after any run.
    - [SelectionModels]: [selection/models.py].  Instruments, announcements, snapshots,
      deltas and the catalog view, with every check of their constructors.
    - [Selector], [SelectorFacts], [Selection]: [selection/selector.py].  The first has
      the policy, the states and [select]; the second the lemmas on its stages; the
      third the specification of a selection and the theorems.
    - [Fixed]: [selection/fixed.py].  Resolution of the requests for fixed pairs.
    - [Capacity], [Admission], [Sharing]: [selection/capacity.py].  The first has the
      operations; the others prove who is admitted to a number of slots, and how the
      connections of an exchange are shared by its markets.
    - [PyText]: [str(int)], [int(str)], [str(Decimal)] and [Decimal(str)], with their
      round trips.
    - [CatalogJson], [CatalogRows], [CatalogListing], [CatalogStore]:
      [selection/catalog_store.py].  What is stored as JSON; the six tables, their CHECK
      constraints and the conversion of rows; what a snapshot makes of one instrument;
      every operation of [CatalogStore] as a transaction on the tables.  The JSON codec is
      an interface ([JsonCodec], with the law [JsonCodecLaws]).
    - [CatalogFacts], [ListingFacts], [CatalogTables], [CatalogApply], [CatalogRuns],
      [CatalogSelections]: what the constructors check, the listing state machine, the
      correspondence of rows and instruments, the invariant [Inv] of the tables and the
      loading of the view, the writing of a snapshot, and the theorems on
      whole operations, commits and runs.
    - [PyTime]: the calendar of [datetime], as far as the paths use it.
    - [PartPath]: [storage/layout.py] and the path functions of [storage/manifest.py] and
      [storage/recovery.py].
    - [EnvelopeJson]: the envelope as a JSON line, read and written.
    - [StreamFile]: [storage/stream_file.py].  Rows, frames, the file and the cache of durable
      directory entries; the compressor is an interface ([Compressor]).
    - [FrameScan], [ScanFacts], [RecoveryScan], [CrashRecovery]: the first part of
      [storage/recovery.py].  Both scans of a part over an interface of the decompressor
      ([Zstd], with the laws [ZstdLaws]); how they read; what they find; and the writer's
      file after a crash as recovery reads it.
    - [Manifest]: [RawManifestV1] of [storage/manifest.py] with every check of its
      constructor, and its bytes.
    - [RecoveryPlan], [PathFacts], [RowFacts], [PlanFacts], [RecoveryPlans]: the middle of
      [storage/recovery.py].  Both planners, with the intent that starts a recovery
      transaction; what follows from a path that recovery accepts; what the facts about the
      rows of a part are; that manifests and intents pass their own checks; the theorems.
    - [Durability], [DurabilityFacts], [DurabilityRuns], [DurabilitySteps], [DurabilityBatches],
      [DurabilityProgress], [DurabilitySamples]: [storage/durability.py].  The first has the
      messages of the coordinator, the thread that writes one file and the code of one batch;
      the second what the thread does; the third the system of overlapping batches as a step
      relation, in which any call may fail or be cancelled, with its invariant; then that
      every step keeps it, what the results of batches are, that batches end, and a run of a
      batch of two files.
    - [ActivePart]: the middle of [storage/raw_writer.py].  The accumulator of what the manifest
      will state and the part that is being written, with every operation on them.
      [ActivePartRuns], [ActivePartSteps], [ActivePartInv], [ActivePartFreeze]: what the
      accumulator mirrors, and the life of a part as a step relation between its operations,
      the thread and the settlements, with the invariant; that each step keeps it; what a
      frozen part states.  [ActiveParts], [ActivePartSamples]: where a part is and its
      manifest, the theorems, a run of two records.
    - [PartSet]: the set of active parts of [storage/raw_writer.py], with its heap of part
      objects, and [_ensure_part] of [storage/service.py].  [PartSetRuns]: worlds, that is the
      set with what its callers hold, as a step relation between the operations of the set
      and of its parts, with the invariant.  [PartSetSteps], [PartSetOps],
      [PartSetRotations], [PartSetAppend]: what an operation may change, and each operation.
      [PartSetInv], [PartSetClaims], [PartSetSamples]: the invariant of worlds, the theorems,
      a world of one part.
    - [IntervalIngress]: the publisher of [IntervalObs] with the ingress as its sink.
    - [Concrete]: a codec that keeps the law and a digest function, with which the
      examples are evaluated.

    A definition bears the name of the function, method or class it translates.
    Where a body is split, its parts follow the code from top to bottom; where a
    record holds an object's attributes, its fields have their names.

    ** What the theorems show

    - Scheduling: [next_ready_exact] (the right job is dispatched: due, on a budget
      that can pay, and past no due job of higher precedence that shares the budget),
      [no_lost_wakeup] (the sleep of [next_ready] ends in time), [submit_exact] (every
      outcome of a submission), [scheduler_invariant] (bounds and accounting over all
      runs).
    - Selection: [select_exact] (entries, next state and deltas are those of a
      specification by reasons, for every input), [grace_bounded] (over all runs),
      [fixed_requests_exact], [admit_exact], [exchange_capacity_exact] (how connections are
      shared, and that nothing else is an error).
    - Catalog: [reachable_catalog_loads] (after any run of snapshots whose records have JSON
      objects as lifecycles the catalog of every scope can be loaded), [catalog_snapshot_exact]
      (every outcome of a snapshot, with the exact changes of the outbox),
      [listing_step_exact] (the listing state machine), [catalog_snapshot_idempotent],
      [typed_json_roundtrip]; [selected_commits] (what was selected is committed, unless
      the outbox already holds one of its events),
      [selection_commit_exact], [selection_no_lost_update].
    - Parts: [crash_keeps_written_frames] (the composition of writer and recovery, as long as
      earlier writes returned), [scan_recovery_sound] (the frames found are frames of the part,
      and no frame of the part follows), [chunked_scan_exact], [recovery_plan_total] (every scanned part
      has a valid plan that keeps every byte), [streaming_plan_exact] (planning from chunks
      is planning from the bytes), [part_path_roundtrip], [envelope_line_roundtrip],
      [directory_proofs_sound].
    - The writer: [records_accounted] (the records a part accepted are settled, in flight or
      waiting, each once), [freeze_exact] (when a part can be frozen, and what its summary
      states), [parts_accounted] (no part of the set is lost, in any interleaving),
      [ensure_part_exact] (where a record goes, and what a failure leaves),
      [finished_parts_recover] (the manifest of a part that is finished states what recovery
      reads from its file, for records scoped as their streams demand).  The set is used by its
      protocol: a part is installed once, for a reservation or a plan that the set gave.
    - Durability: [batch_result_exact] (each file of a batch is settled once, and the result
      is a function of the outcomes, the last clock and the cancellation),
      [claims_protect_files], [batches_end] (every run of batches ends, and without failures
      with success), [sink_told_once].
    - Ingress: [ingress_fifo], [try_accept_exact], [ingress_bounded],
      [control_request_roundtrip].
    - Budgets: [rate_limit_holds] (what a bucket grants in any run), [refill_exact],
      [ready_at_is_first_instant], [try_acquire_one_first].
    - Restrictions: a probe lifts only what it was admitted for
      ([quota_probe_lifts_admitted_restriction],
      [transport_probe_lifts_admitted_failure]), recovery is possible
      ([admitted_probe_recovers]), snapshots are exact ([admit_health_exact]).
    - Backoff: [decide_within_deadline], [ban_outlasts_retry_after],
      [exponential_limit_exact], [retry_after_date_exact]; the last states an exception
      the code lets escape.
    - Placement: [assigned_instruments_can_be_packed], [pack_correct],
      [rendezvous_minimal_disruption], [key_roundtrip].
    - Intervals: [solve_interval_optimal], [activate_atomic], [recovery_converges] (with a
      publisher that may refuse; the real one always does, [interval_control_refused]),
      [proposal_applies_to_its_state], [publish_protocol], [cadence_grid],
      [request_metadata_intervals], [dispatch_source_accepted], [interval_control_refused].
    - Data: [trusted_envelope_iff], [json_validation_exact],
      [instrument_key_path_roundtrip].
    - Durability measurement: [rolling_snapshot_is_window] and
      [cumulative_snapshot_correct] refine the histograms to plain lists of samples,
      [bucket_index_scan], [ledger_accounting], [classify_critical_age_exact].

    ** Representation

    - [int] is [Z].  [str] is the [string] of its UTF-8 bytes, whose order is that of
      code points.  [dict] and tables are [gmap]; where the order of a [dict] is
      observable it is a list.  [Decimal] is a coefficient and an exponent, and the
      rounding of the context is that of the code; its exponent limits are not
      modelled.
    - A heap of [heapq] is the sorted list of its entries: the entries are totally
      ordered, so that is all a client can observe of it.
    - The arguments have the annotated types, so the [type(x) is not T] checks that
      only guard against other types are left out; every other check is there.
    - A clock reading is an argument of the call that makes it.  Nothing is assumed of
      successive readings but what the code enforces.
    - Objects are compared by an identity that is a number where the code uses [is] or
      [id]; those that are never equal unless they are the same, like reservations, are
      compared by value.
    - A file is the string of its bytes; a call that may not return ends with [Dies], and the
      answers of the operating system are arguments.
    - SHA-256, case folding, the JSON encoders, the zstd library, the parser of e-mail dates,
      the random generator and the sinks are parameters or type classes with the documented facts the proofs use as laws.

    ** Fuel

    [bucket_search] gets the number of buckets, [promote_loop] and [select_loop] the
    length of the heap they consume, [ndigits_loop] the binary length of the number,
    [strip_zeros] the number of digits it may drop, [lstrip] and [rstrip] the length of
    the string, [allocate] the number of connections left, which is the loop's own
    counter, [scan_loop] and [pending_loop] one more than the bytes they read, of which each
    turn but the last consumes one.  Each is enough: [bucket_index_scan], [next_ready_exact]
    and [chunked_scan_exact] state results for every input, and the lemmas on digits are
    equations.  Every other recursion is structural.

    ** Not modelled

    The benchmark harness, configuration files, the command line and the network
    clients are I/O or glue around libraries.  Of [raw_writer.py] the publication of files, the removal
    of an empty part and the final barrier with its tasks are not modelled, of [service.py]
    only [_ensure_part] is, with no other operation of the set during its await, and of [durability.py] the event loop and the sleeper are left out.
    The reader of manifests, and what recovery does after its plan (the later facts of a
    transaction and their execution) are not modelled.  Of
    [stream_file.py] and [layout.py], opening files and directories and resolving symbolic
    links are left out.  Of [catalog_store.py], opening the file, creating
    and checking the schema, lock retries and closing are left out; a transaction is
    atomic, as SQLite documents.  Of [storage/models.py] the
    snapshots of metrics and of the writer's status are left out, of [ingress.py] the
    snapshot for tests.  Of [state_store.py], opening, schema checks and lock
    retries are left out, and so is an overflow of the 64-bit revision counter; of
    [rest.py], the wait of the event loop itself. *)
From stdpp Require Export base tactics numbers list option strings gmap.
From Stdlib Require Export ZArith Lia Sorting.Sorted.

Declare Scope py_scope.
Delimit Scope py_scope with py.

(** ** Exceptions and results

    A Python call either returns a value or raises.  The constructors are the
    exception classes the modelled code raises; the message is kept where the
    code writes one. *)
Inductive exn : Type :=
| ValueError (msg : string)
| TypeError (msg : string)
| KeyError (msg : string)
| RuntimeError (msg : string)
| AssertionError (msg : string)
| OverflowError (msg : string)
| CapacityError (msg : string)
| SchedulerClosed (msg : string)
| NoAvailableEgressError (msg : string)
| StaleProbeError (msg : string)
| AdmissionContractError (msg : string)
| StorageScopeError (msg : string)
| SourceContextError (msg : string)
| QueueFull (msg : string)
| FixedPairResolutionError (request reason : string) (candidate_keys : list string)
| ScopedCapacityError (exchange market msg : string)
| StaleCatalogSnapshotError (msg : string)
| CatalogSnapshotConflictError (msg : string)
| StaleTurnoverSnapshotError (msg : string)
| TurnoverSnapshotConflictError (msg : string)
| CatalogRevisionConflictError (msg : string)
| SelectionStateConflictError (msg : string)
| AnnouncementHintConflictError (msg : string)
| IntegrityError (msg : string)
| InvalidOperation (msg : string)
| OSError (msg : string)
| DuplicateFileGeneration (generation_id : string)
| FrameSealRequired (current_plain_bytes incoming_plain_bytes max_plain_frame_bytes : Z)
| RecoveryBlocked (msg : string)
| IntervalPublicationError (msg : string)
| asyncio_CancelledError.

#[export] Instance exn_eq_dec : EqDecision exn.
Proof. solve_decision. Defined.

Inductive result (A : Type) : Type :=
| Ok (value : A)
| Err (error : exn).
Arguments Ok {A} value.
Arguments Err {A} error.

#[export] Instance result_eq_dec {A} `{EqDecision A} : EqDecision (result A).
Proof. solve_decision. Defined.

Definition rbind {A B} (m : result A) (k : A -> result B) : result B :=
  match m with Ok a => k a | Err e => Err e end.

Definition is_ok {A} (m : result A) : bool :=
  match m with Ok _ => true | Err _ => false end.

(** [raise_if c e k] is [if c: raise e] followed by the rest of the body. *)
Definition raise_if {A} (c : bool) (e : exn) (k : result A) : result A :=
  if c then Err e else k.

Notation "'let!' x ':=' m 'in' k" := (rbind m (fun x => k))
  (at level 10, x name, m at level 100, k at level 200) : py_scope.
Notation "'let!' ' p ':=' m 'in' k" := (rbind m (fun p => k))
  (at level 10, p strict pattern, m at level 100, k at level 200) : py_scope.
Notation "'raise' e 'when' c ';;' k" := (raise_if c e k)
  (at level 10, e at level 99, c at level 99, k at level 200) : py_scope.
Open Scope py_scope.

Lemma rbind_ok {A B} (m : result A) (k : A -> result B) b :
  rbind m k = Ok b <-> exists a, m = Ok a /\ k a = Ok b.
Proof. destruct m; simpl; naive_solver. Qed.

Lemma raise_if_ok {A} c e (k : result A) a :
  raise_if c e k = Ok a <-> c = false /\ k = Ok a.
Proof. destruct c; simpl; split; intuition congruence. Qed.

(** ** State-passing methods

    A method that may raise after it has already changed the object returns
    the object as the exception leaves it. *)
Definition M (S A : Type) : Type := S -> S * result A.
Definition mret {S A} (a : A) : M S A := fun s => (s, Ok a).
Definition mraise {S A} (e : exn) : M S A := fun s => (s, Err e).
Definition mget {S} : M S S := fun s => (s, Ok s).
Definition mput {S} (s : S) : M S unit := fun _ => (s, Ok tt).
Definition mlift {S A} (r : result A) : M S A := fun s => (s, r).
Definition mbind {S A B} (m : M S A) (k : A -> M S B) : M S B :=
  fun s => match m s with (s', Ok a) => k a s' | (s', Err e) => (s', Err e) end.

Notation "'do!' x ':=' m 'in' k" := (mbind m (fun x => k))
  (at level 10, x name, m at level 100, k at level 200) : py_scope.
Notation "'do!' ' p ':=' m 'in' k" := (mbind m (fun p => k))
  (at level 10, p strict pattern, m at level 100, k at level 200) : py_scope.

Lemma mbind_ok {S A B} (m : M S A) (k : A -> M S B) s s' b :
  mbind m k s = (s', Ok b) <-> exists s1 a, m s = (s1, Ok a) /\ k a s1 = (s', Ok b).
Proof.
  unfold mbind. destruct (m s) as [s1 [a|e]]; split; naive_solver.
Qed.

(** ** Automation *)
Create HintDb py discriminated.
#[export] Hint Constants Opaque : py.

(** Splits a hypothesis [body = Ok v] along the binds and guards of the body. *)
Ltac inv_ok :=
  repeat match goal with
  | H : rbind _ _ = Ok _ |- _ => apply rbind_ok in H as (? & ? & H)
  | H : raise_if _ _ _ = Ok _ |- _ => apply raise_if_ok in H as (? & H)
  | H : Ok _ = Ok _ |- _ => injection H as H; try subst
  | H : Err _ = Ok _ |- _ => discriminate H
  | H : Ok _ = Err _ |- _ => discriminate H
  | H : Err _ = Err _ |- _ => injection H as H; try subst
  | H : (_, _) = (_, _) |- _ => injection H as H; try subst
  end.

(** Turns boolean tests on integers into propositions. *)
Ltac bool_prop :=
  repeat match goal with
  | H : _ && _ = true |- _ => apply andb_true_iff in H as [? ?]
  | H : _ || _ = false |- _ => apply orb_false_iff in H as [? ?]
  | H : negb _ = true |- _ => apply negb_true_iff in H
  | H : negb _ = false |- _ => apply negb_false_iff in H
  | H : (_ <? _)%Z = true |- _ => apply Z.ltb_lt in H
  | H : (_ <? _)%Z = false |- _ => apply Z.ltb_ge in H
  | H : (_ <=? _)%Z = true |- _ => apply Z.leb_le in H
  | H : (_ <=? _)%Z = false |- _ => apply Z.leb_gt in H
  | H : (_ =? _)%Z = true |- _ => apply Z.eqb_eq in H
  | H : (_ =? _)%Z = false |- _ => apply Z.eqb_neq in H
  | H : bool_decide _ = true |- _ => apply bool_decide_eq_true in H
  | H : bool_decide _ = false |- _ => apply bool_decide_eq_false in H
  end.

(** Case analysis on the boolean tests of the goal or of a hypothesis. *)
Ltac case_bool :=
  match goal with
  | |- context [if ?b then _ else _] => let E := fresh "E" in destruct b eqn:E
  | H : context [if ?b then _ else _] |- _ => let E := fresh "E" in destruct b eqn:E
  end.

(** ** Integers *)
Open Scope Z_scope.

Definition MAX_INT64 : Z := 2 ^ 63 - 1.

Definition zsum : list Z -> Z := foldr Z.add 0.

Lemma zsum_cons x l : zsum (x :: l) = x + zsum l.
Proof. done. Qed.

Lemma zsum_app l1 l2 : zsum (l1 ++ l2) = zsum l1 + zsum l2.
Proof. induction l1 as [|x l IH]; simpl; [done|rewrite IH; lia]. Qed.

Lemma zsum_nonneg l : Forall (fun x => 0 <= x) l -> 0 <= zsum l.
Proof. induction 1; simpl; lia. Qed.

Lemma zsum_elem_le x l : Forall (fun y => 0 <= y) l -> x ∈ l -> x <= zsum l.
Proof.
  intros Hl Hx. induction Hl as [|y l Hy Hl IH]; [by apply elem_of_nil in Hx|]. pose proof (zsum_nonneg l Hl).
  rewrite zsum_cons. apply elem_of_cons in Hx as [->|Hx]; [|apply IH in Hx]; lia.
Qed.

Lemma zsum_perm l1 l2 : l1 ≡ₚ l2 -> zsum l1 = zsum l2.
Proof. induction 1; simpl; lia. Qed.

#[export] Instance zsum_proper : Proper ((≡ₚ) ==> (=)) zsum.
Proof. intros l1 l2. apply zsum_perm. Qed.

(** [(n + d - 1) // d], the rounding-up division the code writes out. *)
Definition ceil_div (n d : Z) : Z := (n + d - 1) / d.

Lemma ceil_div_le n d k : 0 < d -> (ceil_div n d <= k <-> n <= k * d).
Proof.
  intros Hd. unfold ceil_div. split; intros H.
  - pose proof (Z.mul_succ_div_gt (n + d - 1) d Hd). nia.
  - apply Z.lt_succ_r, Z.div_lt_upper_bound; nia.
Qed.

Lemma ceil_div_nonneg n d : 0 < d -> 0 <= n -> 0 <= ceil_div n d.
Proof. intros. unfold ceil_div. apply Z.div_pos; lia. Qed.

(** ** [sorted]

    Python's [sorted] is stable: equal elements keep their order.  Insertion
    sort from the right has the same result. *)
Section Sort.
Context {A : Type} (leb : A -> A -> bool).

Fixpoint insert_sorted (x : A) (l : list A) : list A :=
  match l with
  | [] => [x]
  | y :: l' => if leb x y then x :: l else y :: insert_sorted x l'
  end.

Fixpoint py_sorted (l : list A) : list A :=
  match l with
  | [] => []
  | x :: l' => insert_sorted x (py_sorted l')
  end.

Lemma insert_sorted_perm x l : insert_sorted x l ≡ₚ x :: l.
Proof.
  induction l as [|y l IH]; simpl; [done|].
  destruct (leb x y); [done|]. rewrite IH. constructor.
Qed.

Lemma py_sorted_perm l : py_sorted l ≡ₚ l.
Proof.
  induction l as [|x l IH]; simpl; [done|]. by rewrite insert_sorted_perm, IH.
Qed.

Lemma py_sorted_length l : length (py_sorted l) = length l.
Proof. by rewrite py_sorted_perm. Qed.

Lemma elem_of_py_sorted x l : x ∈ py_sorted l <-> x ∈ l.
Proof. by rewrite py_sorted_perm. Qed.

Lemma NoDup_py_sorted l : NoDup (py_sorted l) <-> NoDup l.
Proof. by rewrite py_sorted_perm. Qed.

Lemma py_sorted_head_insert x y l :
  head (insert_sorted x l) = Some y -> y = x \/ head l = Some y.
Proof. destruct l as [|z l]; simpl; [|destruct (leb x z)]; naive_solver. Qed.

(** The order: total and transitive on the elements that are compared. *)
Class LebOrder : Prop := {
  leb_total : forall x y, leb x y = true \/ leb y x = true;
  leb_trans : forall x y z, leb x y = true -> leb y z = true -> leb x z = true
}.

Context `{!LebOrder}.
Local Abbreviation R := (fun x y => leb x y = true).

Lemma insert_sorted_sorted x l :
  StronglySorted R l -> StronglySorted R (insert_sorted x l).
Proof.
  induction 1 as [|y l Hl IH Hy]; simpl; [repeat constructor|].
  destruct (leb x y) eqn:E.
  - repeat constructor; [done|done|done|].
    eapply Forall_impl; [exact Hy|]. intros z Hz. by eapply leb_trans.
  - constructor; [done|]. rewrite insert_sorted_perm. constructor; [|done].
    destruct (leb_total x y); congruence.
Qed.

Lemma py_sorted_sorted l : StronglySorted R (py_sorted l).
Proof. induction l; simpl; [constructor|by apply insert_sorted_sorted]. Qed.

(** Two sorted permutations of one list agree when ties are equal. *)
Lemma sorted_unique l1 l2 :
  (forall x y, x ∈ l1 -> y ∈ l1 -> leb x y = true -> leb y x = true -> x = y) ->
  StronglySorted R l1 -> StronglySorted R l2 -> l1 ≡ₚ l2 -> l1 = l2.
Proof.
  intros Hanti Hs1. revert l2.
  induction Hs1 as [|x l1 Hs1 IH Hx]; intros l2 Hs2 HP.
  { by apply Permutation_nil_l in HP. }
  destruct Hs2 as [|y l2 Hs2 Hy].
  { by apply Permutation_nil_r in HP. }
  assert (x = y) as ->.
  { assert (Hin : y ∈ x :: l1) by (rewrite HP; left).
    assert (Hin' : x ∈ y :: l2) by (rewrite <- HP; left).
    apply elem_of_cons in Hin as [->|Hin]; [done|].
    apply elem_of_cons in Hin' as [->|Hin']; [done|].
    apply Hanti; [left|by right| |].
    - by apply (proj1 (Forall_forall _ _) Hx).
    - by apply (proj1 (Forall_forall _ _) Hy). }
  f_equal. apply Permutation_cons_inv in HP. apply IH; [|done|done].
  intros. apply Hanti; by try right.
Qed.

Lemma py_sorted_perm_eq l1 l2 :
  (forall x y, x ∈ l1 -> y ∈ l1 -> leb x y = true -> leb y x = true -> x = y) ->
  l1 ≡ₚ l2 -> py_sorted l1 = py_sorted l2.
Proof.
  intros Hanti HP. apply sorted_unique.
  - intros x y Hx Hy. rewrite elem_of_py_sorted in Hx, Hy. by apply Hanti.
  - apply py_sorted_sorted.
  - apply py_sorted_sorted.
  - by rewrite !py_sorted_perm.
Qed.

Lemma sorted_id l : StronglySorted R l -> py_sorted l = l.
Proof.
  induction 1 as [|x l Hl IH Hx]; simpl; [done|]. rewrite IH.
  destruct Hx as [|y l Hxy _]; simpl; [done|]. by rewrite Hxy.
Qed.

(** The head of a sorted list is a least element. *)
Lemma py_sorted_head l x :
  head (py_sorted l) = Some x -> x ∈ l /\ forall y, y ∈ l -> leb x y = true.
Proof.
  pose proof (py_sorted_sorted l) as Hs. pose proof (fun y => elem_of_py_sorted y l) as He.
  destruct (py_sorted l) as [|z l']; [done|]. intros [= ->].
  apply StronglySorted_inv in Hs as [_ Hz]. split; [apply He; left|].
  intros y Hy. apply He in Hy. apply elem_of_cons in Hy as [->|Hy].
  - destruct (leb_total x x); done.
  - by apply (proj1 (Forall_forall _ _) Hz).
Qed.

Lemma py_sorted_head_eq l x :
  (forall y, y ∈ l -> leb x y = true -> leb y x = true -> x = y) ->
  x ∈ l -> (forall y, y ∈ l -> leb x y = true) -> head (py_sorted l) = Some x.
Proof.
  intros Hanti Hx Hmin. destruct (py_sorted l) as [|z l'] eqn:E.
  - apply elem_of_py_sorted in Hx. rewrite E in Hx. by apply not_elem_of_nil in Hx.
  - assert (Hz : head (py_sorted l) = Some z) by (by rewrite E).
    apply py_sorted_head in Hz as [Hz Hle]. simpl. f_equal. symmetry. apply Hanti; auto.
Qed.
End Sort.
Arguments LebOrder {A} leb.

#[export] Instance flip_order {A} (leb : A -> A -> bool) :
  LebOrder leb -> LebOrder (fun x y => leb y x).
Proof. intros [t tr]. split; [intros; apply t|intros x y z H1 H2; by eapply tr]. Qed.

Lemma StronglySorted_filter' {A} (R : A -> A -> Prop) (P : A -> Prop)
    `{forall x, Decision (P x)} l :
  StronglySorted R l -> StronglySorted R (filter P l).
Proof.
  induction 1 as [|x l Hl IH Hx]; [constructor|].
  rewrite filter_cons. case_decide; [|done]. constructor; [done|].
  apply Forall_forall. intros y Hy. apply list_elem_of_filter in Hy as [_ Hy].
  by apply (proj1 (Forall_forall _ _) Hx).
Qed.

Lemma list_filter_iff' {A} (P Q : A -> Prop) `{forall x, Decision (P x)}
    `{forall x, Decision (Q x)} (l : list A) :
  (forall x, x ∈ l -> (P x <-> Q x)) -> filter P l = filter Q l.
Proof.
  intros Hiff. induction l as [|x l IH]; [done|].
  rewrite !filter_cons. rewrite IH by (intros; apply Hiff; by right).
  pose proof (Hiff x ltac:(left)). do 2 case_decide; tauto.
Qed.

Lemma elem_of_concat {A} (ls : list (list A)) x : x ∈ concat ls <-> exists l, x ∈ l /\ l ∈ ls.
Proof.
  rewrite list_elem_of_In, in_concat. setoid_rewrite list_elem_of_In. naive_solver.
Qed.

Lemma filter_all {A} (P : A -> Prop) `{forall x, Decision (P x)} (l : list A) :
  (forall x, x ∈ l -> P x) -> filter P l = l.
Proof.
  induction l as [|x l IH]; intros Hl; [done|]. rewrite filter_cons, decide_True by (apply Hl; left).
  rewrite IH; [done|]. intros. apply Hl. by right.
Qed.

Lemma filter_none {A} (P : A -> Prop) `{forall x, Decision (P x)} (l : list A) :
  (forall x, x ∈ l -> ~ P x) -> filter P l = [].
Proof.
  induction l as [|x l IH]; intros Hl; [done|]. rewrite filter_cons, decide_False by (apply Hl; left).
  apply IH. intros. apply Hl. by right.
Qed.

(** ** Orders

    A [str] is represented by its UTF-8 bytes.  UTF-8 keeps the order of code
    points, so Python's comparison of strings is the bytewise one. *)
Definition string_leb : string -> string -> bool := String.leb.

Lemma string_leb_antisym x y : string_leb x y = true -> string_leb y x = true -> x = y.
Proof. apply String.leb_antisym. Qed.

Lemma string_compare_trans x y z :
  String.compare x y <> Gt -> String.compare y z <> Gt -> String.compare x z <> Gt.
Proof.
  revert y z. induction x as [|a x IH]; intros [|b y] [|c z]; simpl; try done.
  unfold Ascii.compare.
  destruct (N.compare_spec (Ascii.N_of_ascii a) (Ascii.N_of_ascii b)) as [E|E|E];
  destruct (N.compare_spec (Ascii.N_of_ascii b) (Ascii.N_of_ascii c)) as [F|F|F];
  destruct (N.compare_spec (Ascii.N_of_ascii a) (Ascii.N_of_ascii c)) as [G|G|G];
  try done; try lia. by apply IH.
Qed.

#[export] Instance string_leb_order : LebOrder string_leb.
Proof.
  split; [apply String.leb_total|].
  unfold string_leb, String.leb. intros x y z.
  pose proof (string_compare_trans x y z).
  destruct (String.compare x y), (String.compare y z), (String.compare x z); naive_solver.
Qed.

#[export] Instance Zleb_order : LebOrder Z.leb.
Proof. split; intros; lia. Qed.

(** Lexicographic order of Python tuples; equality is that of the first order. *)
Definition lex_leb {A B} (eqA leA : A -> A -> bool) (leB : B -> B -> bool)
    (p q : A * B) : bool :=
  if eqA p.1 q.1 then leB p.2 q.2 else leA p.1 q.1.

Lemma lex_leb_order {A B} (eqA leA : A -> A -> bool) (leB : B -> B -> bool) :
  (forall x y, eqA x y = true <-> x = y) ->
  (forall x y, leA x y = true -> leA y x = true -> x = y) ->
  LebOrder leA -> LebOrder leB -> LebOrder (lex_leb eqA leA leB).
Proof.
  intros Heq Hanti [tA trA] [tB trB]. split.
  - intros [a b] [a' b']. unfold lex_leb; simpl.
    destruct (eqA a a') eqn:E; [apply Heq in E; subst a'|].
    { rewrite (proj2 (Heq a a) eq_refl). apply tB. }
    destruct (eqA a' a) eqn:E'; [|apply tA].
    apply Heq in E'; subst a'. by rewrite (proj2 (Heq a a) eq_refl) in E.
  - intros [a b] [a' b'] [a'' b'']. unfold lex_leb; simpl. intros H1 H2.
    destruct (eqA a a') eqn:E; [apply Heq in E; subst a'|].
    { destruct (eqA a a''); [by eapply trB|done]. }
    destruct (eqA a' a'') eqn:E'; [apply Heq in E'; subst a''; by rewrite E|].
    destruct (eqA a a'') eqn:E''; [|by eapply trA].
    apply Heq in E''; subst a''. assert (a = a') by by apply Hanti.
    subst a'. by rewrite (proj2 (Heq a a) eq_refl) in E.
Qed.

(** Sorting by a key, [sorted(l, key=f)]. *)
Definition on_key {A K} (f : A -> K) (leb : K -> K -> bool) (x y : A) : bool :=
  leb (f x) (f y).

#[export] Instance on_key_order {A K} (f : A -> K) leb :
  LebOrder leb -> LebOrder (on_key f leb).
Proof.
  intros [t tr]. split; unfold on_key; intros; [apply t|by eapply tr].
Qed.

(** Lexicographic order of sequences; a prefix comes first. *)
Fixpoint list_lex {A} (eqA leA : A -> A -> bool) (a b : list A) : bool :=
  match a, b with
  | [], _ => true
  | _ :: _, [] => false
  | x :: a, y :: b => if eqA x y then list_lex eqA leA a b else leA x y
  end.

(** ** Sums over a table *)
Section Sums.
Context {K : Type} `{Countable K} {A : Type}.

Definition msum (f : A -> Z) (m : gmap K A) : Z := zsum ((fun kc => f kc.2) <$> map_to_list m).

Lemma msum_empty f : msum f ∅ = 0.
Proof. unfold msum. by rewrite map_to_list_empty. Qed.

Lemma msum_insert f m k a : m !! k = None -> msum f (<[k := a]> m) = f a + msum f m.
Proof. intros Hk. unfold msum. by rewrite map_to_list_insert. Qed.

Lemma msum_delete f m k a : m !! k = Some a -> msum f (delete k m) = msum f m - f a.
Proof.
  intros Hk. rewrite <- (insert_delete_id m k a) at 2 by done.
  rewrite msum_insert by apply lookup_delete_eq. lia.
Qed.

Lemma msum_nonneg f m : (forall k a, m !! k = Some a -> 0 <= f a) -> 0 <= msum f m.
Proof.
  intros Hf. apply zsum_nonneg, Forall_forall. intros x Hx.
  apply list_elem_of_fmap in Hx as ([k a] & -> & Hin). apply elem_of_map_to_list in Hin. by eapply Hf.
Qed.

Lemma msum_add f g h m : (forall a, f a + g a = h a) -> msum f m + msum g m = msum h m.
Proof.
  intros Hfg. unfold msum. induction (map_to_list m) as [|[k a] l IH]; [done|].
  rewrite !fmap_cons, !zsum_cons. cbn [snd]. rewrite <- Hfg. lia.
Qed.

Lemma msum_one m : msum (fun _ => 1) m = Z.of_nat (size m).
Proof.
  rewrite <- length_map_to_list. unfold msum. induction (map_to_list m) as [|[k a] l IH]; [done|].
  rewrite fmap_cons, zsum_cons. cbn [length]. lia.
Qed.

Lemma msum_update f m k a b : m !! k = Some a -> msum f (<[k := b]> m) = msum f m - f a + f b.
Proof.
  intros Hk. rewrite <- insert_delete_eq, msum_insert by apply lookup_delete_eq.
  rewrite (msum_delete f m k a Hk). lia.
Qed.
End Sums.

(** [{key(x): val(x) for x in l}] over distinct keys. *)
Lemma foldl_insert_lookup {A V} `{Countable K} (key : A -> K) (val : A -> V) l : NoDup (key <$> l) ->
  forall (m : gmap K V) k v, foldl (fun m x => <[key x := val x]> m) m l !! k = Some v <->
    (exists x, x ∈ l /\ key x = k /\ val x = v) \/ (k ∉ key <$> l /\ m !! k = Some v).
Proof.
  induction l as [|x l IH]; intros Hl m k v; cbn [foldl].
  - split; [intros Hk; right; split; [apply not_elem_of_nil|done]|].
    intros [(x & Hx & _)|[_ Hk]]; [by apply elem_of_nil in Hx|done].
  - rewrite fmap_cons in Hl |- *. apply NoDup_cons in Hl as [Hx Hl]. rewrite IH, lookup_insert_Some by done.
    setoid_rewrite elem_of_cons. split.
    + intros [(y & Hy & Hk)|[Hk [[<- <-]|[Hne Hm]]]]; [left; exists y; by split; [right|]|left; exists x; by split; [left|]|].
      right. split; [|done]. by intros [->|?].
    + intros [(y & [->|Hy] & Hk & Hv)|[Hk Hm]]; [right; subst; by split; [|left]|left; by exists y|].
      right. split; [by intros ?; apply Hk; right|]. right. split; [|done]. intros Heq. apply Hk. by left.
Qed.

(** ** Hints *)
#[export] Hint Resolve zsum_nonneg ceil_div_nonneg insert_sorted_perm py_sorted_perm
  string_leb_antisym StronglySorted_filter' : py.
#[export] Hint Rewrite @elem_of_py_sorted @NoDup_py_sorted @py_sorted_length zsum_cons zsum_app : py.
#[export] Hint Extern 5 (_ <= _)%Z => lia : py.
#[export] Hint Extern 5 (_ < _)%Z => lia : py.
