(* ===== verification/Histogram.v ===== *)
(** The durability histograms of [storage/stats.py]: the bucket schema, the
    nearest-rank quantiles, the validated snapshot, the cumulative histogram and
    the rolling histogram of the last sixty seconds.  The specification is the
    plain list of the samples: [represents] says which histogram a list has, and
    the theorems show that the two classes keep exactly that histogram. *)
From S2P Require Import Prelude.

(** ** Schema *)
Definition DURABILITY_BUCKET_UPPER_BOUNDS_NS : list Z :=
  [0; 100000; 250000; 500000; 1000000; 2500000; 5000000; 10000000; 25000000;
   50000000; 100000000; 250000000; 500000000; 750000000; 1000000000; 1500000000;
   2000000000; 3000000000; 5000000000; 10000000000; 60000000000; 2 ^ 63 - 1].
Definition _ROLLING_SLOT_COUNT : Z := 60.
Definition _NS_PER_SECOND : Z := 1000000000.
Local Abbreviation BOUNDS := DURABILITY_BUCKET_UPPER_BOUNDS_NS.

Definition _integer (minimum : Z) (field_name : string) (value : Z) : result Z :=
  raise ValueError (field_name +:+ " must be " +:+
                    (if minimum =? 1 then "positive" else "non-negative"))
    when value <? minimum;;
  raise ValueError (field_name +:+ " must fit a signed 64-bit integer")
    when MAX_INT64 <? value;;
  Ok value.

(** The bisection of [_bucket_index]; [fuel] bounds the number of rounds. *)
Fixpoint bucket_search (fuel low high : nat) (lag_ns : Z) : option nat :=
  if (low <? high)%nat then
    match fuel with
    | O => None
    | S fuel =>
        let middle := Nat.div (low + high) 2 in
        match BOUNDS !! middle with
        | None => None
        | Some bound =>
            if bound <? lag_ns then bucket_search fuel (S middle) high lag_ns
            else bucket_search fuel low middle lag_ns
        end
    end
  else Some low.

Definition _bucket_index (lag_ns : Z) : result nat :=
  match bucket_search (length BOUNDS) 0 (length BOUNDS) lag_ns with
  | None => Err (RuntimeError "bisection does not end")
  | Some low =>
      raise ValueError "lag_ns exceeds the histogram schema"
        when (low =? length BOUNDS)%nat;;
      Ok low
  end.

(** The loop of [_nearest_rank] over [zip(bounds, counts, strict=True)]. *)
Fixpoint nearest_rank_loop (bounds counts : list Z) (cumulative rank : Z) : result Z :=
  match bounds, counts with
  | upper_bound :: bounds, count :: counts =>
      let cumulative := cumulative + count in
      if rank <=? cumulative then Ok upper_bound
      else nearest_rank_loop bounds counts cumulative rank
  | [], [] =>
      Err (AssertionError "histogram sample count does not match its buckets")
  | _, _ => Err (ValueError "zip() arguments have different lengths")
  end.

Definition _nearest_rank (bucket_counts : list Z) (sample_count numerator : Z)
    : result (option Z) :=
  if sample_count =? 0 then Ok None else
  let rank := Z.max 1 ((numerator * sample_count + 99) / 100) in
  let! bound := nearest_rank_loop BOUNDS bucket_counts 0 rank in
  Ok (Some bound).

(** ** [DurabilityHistogramSnapshot] *)
Record DurabilityHistogramSnapshot : Type := {
  bucket_counts : list Z;
  sample_count : Z;
  lag_total_ns : Z;
  lag_p50_ns : option Z;
  lag_p95_ns : option Z;
  lag_p99_ns : option Z;
  lag_max_ns : option Z
}.

(** [max(index for index, count in enumerate(counts) if count)] *)
Definition highest_nonempty (counts : list Z) : option nat :=
  foldl (fun best '(index, count) => if count =? 0 then best else Some index)
    None (imap pair counts).

Definition snapshot_post_init (s : DurabilityHistogramSnapshot) : result unit :=
  raise ValueError "bucket_counts must match the durability histogram schema"
    when negb (length (bucket_counts s) =? length BOUNDS)%nat;;
  raise TypeError "bucket_counts must contain non-negative integers"
    when existsb (fun count => count <? 0) (bucket_counts s);;
  let! n := _integer 0 "sample_count" (sample_count s) in
  raise ValueError "sample_count must equal the disjoint bucket sum"
    when negb (zsum (bucket_counts s) =? n);;
  raise TypeError "lag_total_ns must be a non-negative integer"
    when lag_total_ns s <? 0;;
  let! p50 := _nearest_rank (bucket_counts s) n 50 in
  let! p95 := _nearest_rank (bucket_counts s) n 95 in
  let! p99 := _nearest_rank (bucket_counts s) n 99 in
  raise ValueError "durability quantiles must match nearest-rank buckets"
    when negb (bool_decide ((lag_p50_ns s, lag_p95_ns s, lag_p99_ns s) = (p50, p95, p99)));;
  match lag_max_ns s with
  | None =>
      raise ValueError "a nonempty histogram requires lag_max_ns" when negb (n =? 0);;
      raise ValueError "an empty histogram must have zero lag_total_ns"
        when negb (lag_total_ns s =? 0);;
      Ok tt
  | Some m =>
      let! maximum := _integer 0 "lag_max_ns" m in
      raise ValueError "an empty histogram cannot have lag_max_ns" when n =? 0;;
      match highest_nonempty (bucket_counts s) with
      | None => Err (ValueError "max() iterable argument is empty")
      | Some highest =>
          let! index := _bucket_index maximum in
          raise ValueError "lag maximum must fall in the highest nonempty bucket"
            when negb (index =? highest)%nat;;
          raise ValueError "lag_total_ns cannot be smaller than lag_max_ns"
            when lag_total_ns s <? maximum;;
          Ok tt
      end
  end.

Definition _snapshot (counts : list Z) (n total : Z) (maximum : option Z)
    : result DurabilityHistogramSnapshot :=
  let! p50 := _nearest_rank counts n 50 in
  let! p95 := _nearest_rank counts n 95 in
  let! p99 := _nearest_rank counts n 99 in
  let s := {| bucket_counts := counts; sample_count := n; lag_total_ns := total;
              lag_p50_ns := p50; lag_p95_ns := p95; lag_p99_ns := p99;
              lag_max_ns := maximum |} in
  let! _ := snapshot_post_init s in
  Ok s.

(** ** The accumulating cell

    [CumulativeDurabilityHistogram] and [_RollingSlot] keep the same four
    fields and add a sample to them in the same way. *)
Record cell : Type := {
  c_bucket_counts : list Z;
  c_sample_count : Z;
  c_lag_total_ns : Z;
  c_lag_max_ns : option Z
}.
#[export] Instance cell_eq_dec : EqDecision cell.
Proof. solve_decision. Defined.

Definition empty_cell : cell :=
  {| c_bucket_counts := replicate (length BOUNDS) 0; c_sample_count := 0;
     c_lag_total_ns := 0; c_lag_max_ns := None |}.

Definition max_opt (m : option Z) (x : Z) : option Z :=
  Some (match m with None => x | Some y => Z.max y x end).

Definition cell_add (c : cell) (lag : Z) : result cell :=
  let! index := _bucket_index lag in
  Ok {| c_bucket_counts := alter Z.succ index (c_bucket_counts c);
        c_sample_count := c_sample_count c + 1;
        c_lag_total_ns := c_lag_total_ns c + lag;
        c_lag_max_ns := max_opt (c_lag_max_ns c) lag |}.

(** ** [CumulativeDurabilityHistogram] *)
Module Cumulative.
Definition new : cell := empty_cell.

Definition add (self : cell) (lag_ns : Z) : result cell :=
  let! lag := _integer 0 "lag_ns" lag_ns in
  cell_add self lag.

Definition snapshot (self : cell) : result DurabilityHistogramSnapshot :=
  _snapshot (c_bucket_counts self) (c_sample_count self) (c_lag_total_ns self)
    (c_lag_max_ns self).

(** A run of [add] calls. *)
Fixpoint add_all (self : cell) (lags : list Z) : result cell :=
  match lags with
  | [] => Ok self
  | lag :: lags => let! self := add self lag in add_all self lags
  end.
End Cumulative.

(** ** [RollingDurabilityHistogram] *)
Record _RollingSlot : Type := { slot_second : option Z; slot_cell : cell }.

Definition slot_clear (slot : _RollingSlot) : _RollingSlot :=
  {| slot_second := None;
     slot_cell := {| c_bucket_counts := (fun _ => 0) <$> c_bucket_counts (slot_cell slot);
                     c_sample_count := 0; c_lag_total_ns := 0; c_lag_max_ns := None |} |}.

Definition slot_reset (slot : _RollingSlot) (second : Z) : _RollingSlot :=
  {| slot_second := Some second; slot_cell := slot_cell (slot_clear slot) |}.

Definition slot_add (slot : _RollingSlot) (lag : Z) : result _RollingSlot :=
  let! c := cell_add (slot_cell slot) lag in
  Ok {| slot_second := slot_second slot; slot_cell := c |}.

Module Rolling.
Record RollingDurabilityHistogram : Type := {
  _slots : list _RollingSlot;
  _latest_second : option Z
}.

Definition new : RollingDurabilityHistogram :=
  {| _slots := replicate (Z.to_nat _ROLLING_SLOT_COUNT)
                 {| slot_second := None; slot_cell := empty_cell |};
     _latest_second := None |}.

Definition in_window (current_second : Z) (slot : _RollingSlot) : bool :=
  match slot_second slot with
  | None => false
  | Some s => (current_second - (_ROLLING_SLOT_COUNT - 1) <=? s) && (s <=? current_second)
  end.

Definition _advance (self : RollingDurabilityHistogram) (current_second : Z)
    : result RollingDurabilityHistogram :=
  raise ValueError "rolling histogram time must not move backward"
    when match _latest_second self with
         | Some latest => current_second <? latest | None => false end;;
  Ok {| _latest_second := Some current_second;
        _slots := (fun slot =>
          match slot_second slot with
          | Some _ => if in_window current_second slot then slot else slot_clear slot
          | None => slot
          end) <$> _slots self |}.

Definition add (self : RollingDurabilityHistogram) (lag_ns sync_completed_monotonic_ns : Z)
    : result RollingDurabilityHistogram :=
  let! lag := _integer 0 "lag_ns" lag_ns in
  let! completed := _integer 0 "sync_completed_monotonic_ns" sync_completed_monotonic_ns in
  let second := completed / _NS_PER_SECOND in
  let latest := _latest_second self in
  if match latest with Some l => second <? l - 59 | None => false end then Ok self else
  let! self :=
    (if match latest with None => true | Some l => l <? second end
     then _advance self second else Ok self) in
  let index := Z.to_nat (second mod _ROLLING_SLOT_COUNT) in
  match _slots self !! index with
  | None => Err (RuntimeError "tuple index out of range")
  | Some slot =>
      let slot := if bool_decide (slot_second slot = Some second) then slot
                  else slot_reset slot second in
      let! slot := slot_add slot lag in
      Ok {| _slots := <[index := slot]> (_slots self);
            _latest_second := _latest_second self |}
  end.

(** One round of the summation loop of [snapshot]. *)
Definition merge_slot (current_second : Z) (acc : cell) (slot : _RollingSlot) : cell :=
  if in_window current_second slot then
    {| c_bucket_counts :=
         zip_with Z.add (c_bucket_counts acc) (c_bucket_counts (slot_cell slot));
       c_sample_count := c_sample_count acc + c_sample_count (slot_cell slot);
       c_lag_total_ns := c_lag_total_ns acc + c_lag_total_ns (slot_cell slot);
       c_lag_max_ns :=
         match c_lag_max_ns (slot_cell slot) with
         | None => c_lag_max_ns acc
         | Some m => max_opt (c_lag_max_ns acc) m
         end |}
  else acc.

Definition snapshot (self : RollingDurabilityHistogram) (now_monotonic_ns : Z)
    : result (RollingDurabilityHistogram * DurabilityHistogramSnapshot) :=
  let! now := _integer 0 "now_monotonic_ns" now_monotonic_ns in
  let current_second := now / _NS_PER_SECOND in
  let! self :=
    match _latest_second self with
    | None => _advance self current_second
    | Some latest =>
        if latest <? current_second then _advance self current_second
        else raise ValueError "rolling histogram time must not move backward"
               when current_second <? latest;; Ok self
    end in
  let total := foldl (merge_slot current_second) empty_cell (_slots self) in
  let! s := _snapshot (c_bucket_counts total) (c_sample_count total)
              (c_lag_total_ns total) (c_lag_max_ns total) in
  Ok (self, s).

(** A run of the public operations: samples and snapshots interleaved. *)
Inductive op : Type :=
| Add (lag_ns sync_completed_monotonic_ns : Z)
| Snapshot (now_monotonic_ns : Z).

Definition step (self : RollingDurabilityHistogram) (o : op)
    : result RollingDurabilityHistogram :=
  match o with
  | Add lag completed => add self lag completed
  | Snapshot now => let! r := snapshot self now in Ok r.1
  end.

Fixpoint run (self : RollingDurabilityHistogram) (ops : list op)
    : result RollingDurabilityHistogram :=
  match ops with
  | [] => Ok self
  | o :: ops => let! self := step self o in run self ops
  end.
End Rolling.

(** ** Specification: the list of the samples *)
Fixpoint zcount (P : Z -> bool) (l : list Z) : Z :=
  match l with [] => 0 | x :: l => (if P x then 1 else 0) + zcount P l end.

(** Bucket [j] holds the samples above the previous bound and up to its own. *)
Fixpoint counts_from (previous : Z) (bounds l : list Z) : list Z :=
  match bounds with
  | [] => []
  | b :: bounds =>
      zcount (fun y => (previous <? y) && (y <=? b)) l :: counts_from b bounds l
  end.

(** The linear scan that [_bucket_index] replaces. *)
Fixpoint bucket_scan (bounds : list Z) (x : Z) : nat :=
  match bounds with
  | [] => O
  | b :: bounds => if x <=? b then O else S (bucket_scan bounds x)
  end.

Definition zmax (l : list Z) : option Z := foldr (fun x m => max_opt m x) None l.

Definition cell_of (l : list Z) : cell :=
  {| c_bucket_counts := counts_from (-1) BOUNDS l;
     c_sample_count := Z.of_nat (length l);
     c_lag_total_ns := zsum l;
     c_lag_max_ns := zmax l |}.

(** The nearest-rank quantile of the samples themselves, rounded up to the
    bound of its bucket. *)
Definition rank_of (n numerator : Z) : Z := ceil_div (numerator * n) 100.
Definition round_up (x : Z) : option Z := BOUNDS !! bucket_scan BOUNDS x.
Definition quantile (numerator : Z) (l : list Z) : option Z :=
  match py_sorted Z.leb l !! Z.to_nat (rank_of (Z.of_nat (length l)) numerator - 1) with
  | None => None
  | Some v => round_up v
  end.

Definition snapshot_of (l : list Z) : DurabilityHistogramSnapshot :=
  {| bucket_counts := counts_from (-1) BOUNDS l;
     sample_count := Z.of_nat (length l);
     lag_total_ns := zsum l;
     lag_p50_ns := quantile 50 l;
     lag_p95_ns := quantile 95 l;
     lag_p99_ns := quantile 99 l;
     lag_max_ns := zmax l |}.

Definition valid_lag (x : Z) : Prop := 0 <= x <= MAX_INT64.

(** ** Counting lemmas *)
Lemma zcount_nonneg P l : 0 <= zcount P l.
Proof. induction l as [|x l IH]; simpl; [lia|destruct (P x); lia]. Qed.

Lemma zcount_le_length P l : zcount P l <= Z.of_nat (length l).
Proof. induction l as [|x l IH]; simpl; [lia|destruct (P x); lia]. Qed.

Lemma zcount_app P l1 l2 : zcount P (l1 ++ l2) = zcount P l1 + zcount P l2.
Proof. induction l1 as [|x l IH]; simpl; [done|lia]. Qed.

Lemma zcount_perm P l1 l2 : l1 ≡ₚ l2 -> zcount P l1 = zcount P l2.
Proof. induction 1; simpl; lia. Qed.

Lemma zcount_ext P Q l : (forall x, x ∈ l -> P x = Q x) -> zcount P l = zcount Q l.
Proof.
  intros H. induction l as [|x l IH]; simpl; [done|].
  rewrite H by left. rewrite IH; [done|]. intros. apply H. by right.
Qed.

Lemma zcount_split prev b l :
  prev <= b ->
  zcount (fun y => y <=? b) l
  = zcount (fun y => y <=? prev) l + zcount (fun y => (prev <? y) && (y <=? b)) l.
Proof.
  intros Hb. induction l as [|x l IH]; simpl; [done|]. rewrite IH.
  destruct (Z.leb_spec x b), (Z.leb_spec x prev), (Z.ltb_spec prev x); simpl; lia.
Qed.

Lemma zcount_all P l : (forall x, x ∈ l -> P x = true) -> zcount P l = Z.of_nat (length l).
Proof.
  intros H. induction l as [|x l IH]; simpl; [done|]. rewrite H by left.
  rewrite IH; [lia|]. intros. apply H. by right.
Qed.

Lemma zcount_none P l : (forall x, x ∈ l -> P x = false) -> zcount P l = 0.
Proof.
  intros H. induction l as [|x l IH]; simpl; [done|]. rewrite H by left.
  rewrite IH; [lia|]. intros. apply H. by right.
Qed.

Lemma counts_from_length prev bs l : length (counts_from prev bs l) = length bs.
Proof. revert prev. induction bs; intros; simpl; auto. Qed.

Lemma counts_from_nonneg prev bs l : Forall (fun c => 0 <= c) (counts_from prev bs l).
Proof. revert prev. induction bs; intros; simpl; constructor; auto using zcount_nonneg. Qed.

Lemma counts_from_perm prev bs l1 l2 :
  l1 ≡ₚ l2 -> counts_from prev bs l1 = counts_from prev bs l2.
Proof.
  intros H. revert prev. induction bs; intros; simpl; [done|].
  f_equal; [by apply zcount_perm|auto].
Qed.

Lemma counts_from_app prev bs l1 l2 :
  counts_from prev bs (l1 ++ l2) = zip_with Z.add (counts_from prev bs l1) (counts_from prev bs l2).
Proof.
  revert prev. induction bs; intros; simpl; [done|]. f_equal; [apply zcount_app|auto].
Qed.

(** [ascending prev bs]: the bounds increase strictly from [prev]. *)
Fixpoint ascending (prev : Z) (bs : list Z) : Prop :=
  match bs with [] => True | b :: bs => prev < b /\ ascending b bs end.

Definition last_bound (prev : Z) (bs : list Z) : Z := List.last bs prev.
#[local] Arguments last_bound : simpl never.

Lemma last_bound_cons prev b bs : last_bound prev (b :: bs) = last_bound b bs.
Proof. revert prev b. induction bs as [|c bs IH]; intros; [done|].
  exact (eq_trans (IH prev c) (eq_sym (IH b c))).
Qed.

Lemma bounds_ascending : ascending (-1) BOUNDS.
Proof. unfold BOUNDS. simpl. lia. Qed.

Lemma bounds_last prev : last_bound prev BOUNDS = MAX_INT64.
Proof. reflexivity. Qed.

Lemma last_bound_ge prev bs : ascending prev bs -> prev <= last_bound prev bs.
Proof.
  revert prev. induction bs as [|b bs IH]; intros prev H; [unfold last_bound; simpl; lia|].
  destruct H as [H1 H2]. rewrite last_bound_cons. specialize (IH b H2). lia.
Qed.

Lemma zcount_out prev bs x l :
  ascending prev bs -> x <= prev -> counts_from prev bs (x :: l) = counts_from prev bs l.
Proof.
  revert prev. induction bs as [|b bs IH]; intros prev H Hx; simpl; [done|].
  destruct H as [H1 H2]. destruct (Z.ltb_spec prev x); [lia|]. simpl.
  rewrite IH by (done || lia). done.
Qed.

Lemma counts_from_cons prev bs x l :
  ascending prev bs -> prev < x -> x <= last_bound prev bs ->
  counts_from prev bs (x :: l) = alter Z.succ (bucket_scan bs x) (counts_from prev bs l).
Proof.
  revert prev. induction bs as [|b bs IH]; intros prev H Hp Hl.
  { unfold last_bound in Hl. simpl in Hl. lia. }
  destruct H as [H1 H2]. rewrite last_bound_cons in Hl. simpl.
  destruct (Z.leb_spec x b) as [Hx|Hx].
  - destruct (Z.ltb_spec prev x); [|lia]. simpl.
    rewrite zcount_out by (done || lia). f_equal. lia.
  - destruct (Z.ltb_spec prev x); [|lia]. simpl. f_equal. apply IH; [done|lia|done].
Qed.

Lemma zsum_counts prev bs l :
  ascending prev bs ->
  zsum (counts_from prev bs l)
  = zcount (fun y => y <=? last_bound prev bs) l - zcount (fun y => y <=? prev) l.
Proof.
  revert prev. induction bs as [|b bs IH]; intros prev H; simpl.
  { unfold last_bound. simpl. lia. }
  destruct H as [H1 H2]. rewrite IH by done. rewrite last_bound_cons.
  rewrite (zcount_split prev b) by lia. lia.
Qed.

Lemma zsum_counts_valid l :
  Forall valid_lag l -> zsum (counts_from (-1) BOUNDS l) = Z.of_nat (length l).
Proof.
  intros H. rewrite zsum_counts by apply bounds_ascending. rewrite bounds_last.
  rewrite Forall_forall in H. unfold valid_lag in H.
  rewrite zcount_all, zcount_none; [lia| |];
    intros x Hx; specialize (H x Hx); lia.
Qed.

(** ** The bisection *)
Lemma bounds_sorted (i j : nat) (a b : Z) :
  BOUNDS !! i = Some a -> BOUNDS !! j = Some b -> (i < j)%nat -> a < b.
Proof.
  intros Ha Hb Hij.
  assert (G : forall prev bs i j a b, ascending prev bs ->
    bs !! i = Some a -> bs !! j = Some b -> (i < j)%nat -> a < b).
  { clear. intros prev bs. revert prev.
    assert (Hin : forall prev bs j b, ascending prev bs -> bs !! j = Some b -> prev < b).
    { intros prev bs'. revert prev. induction bs' as [|c bs' IH]; intros prev j b Hs Hj;
        [done|]. destruct Hs as [H1 H2]. destruct j; simplify_eq/=; [done|]. specialize (IH c j b H2 Hj). lia. }
    induction bs as [|c bs IH]; intros prev i j a b Hs Ha Hb Hij; [done|].
    destruct Hs as [H1 H2].
    destruct j as [|j]; [lia|]. destruct i as [|i]; simplify_eq/=.
    - eapply Hin; eauto.
    - eapply IH; eauto with lia. }
  eapply G; eauto using bounds_ascending.
Qed.

Lemma bucket_scan_spec bs x i :
  (i <= bucket_scan bs x)%nat ->
  (forall j b, (j < i)%nat -> bs !! j = Some b -> b < x).
Proof.
  revert i. induction bs as [|c bs IH]; intros i Hi j b Hj Hb; [done|].
  simpl in Hi. destruct (Z.leb_spec x c); [lia|].
  destruct j as [|j]; simplify_eq/=; [done|].
  apply (IH (pred i)) with (j := j); [lia|lia|done].
Qed.

Lemma bucket_scan_at bs x b : bs !! bucket_scan bs x = Some b -> x <= b.
Proof.
  induction bs as [|c bs IH]; simpl; [done|].
  destruct (Z.leb_spec x c); simpl; [|done]. intros [= <-]. done.
Qed.

Lemma bucket_scan_le bs x : (bucket_scan bs x <= length bs)%nat.
Proof. induction bs as [|c bs IH]; simpl; [lia|]. destruct (x <=? c); lia. Qed.

Lemma bucket_scan_lt prev bs x : x <= last_bound prev bs -> prev < x -> (bucket_scan bs x < length bs)%nat.
Proof.
  revert prev. induction bs as [|c bs IH]; intros prev Hl Hp; simpl.
  - unfold last_bound in Hl. simpl in Hl. lia.
  - rewrite last_bound_cons in Hl. destruct (Z.leb_spec x c); [lia|].
    specialize (IH c Hl). lia.
Qed.

Lemma bucket_scan_unique x (i : nat) b :
  BOUNDS !! i = Some b -> (x <= b <-> (bucket_scan BOUNDS x <= i)%nat).
Proof.
  intros Hi. split; intros H.
  - destruct (Nat.le_gt_cases (bucket_scan BOUNDS x) i) as [|Hgt]; [done|].
    pose proof (bucket_scan_spec BOUNDS x (S i) ltac:(lia) i b ltac:(lia) Hi). lia.
  - destruct (BOUNDS !! bucket_scan BOUNDS x) as [c|] eqn:E.
    + pose proof (bucket_scan_at _ _ _ E).
      destruct (decide (bucket_scan BOUNDS x = i)) as [<-|]; [congruence|].
      pose proof (bounds_sorted _ _ _ _ E Hi ltac:(lia)). lia.
    + apply lookup_ge_None in E. apply lookup_lt_Some in Hi. lia.
Qed.

Lemma bucket_search_spec fuel low high x :
  (low <= bucket_scan BOUNDS x <= high)%nat -> (high <= length BOUNDS)%nat ->
  (high - low <= fuel)%nat ->
  bucket_search fuel low high x = Some (bucket_scan BOUNDS x).
Proof.
  revert low high. induction fuel as [|fuel IH]; intros low high Hb Hh Hf;
    unfold bucket_search; fold bucket_search;
    destruct (Nat.ltb_spec low high) as [Hlt|Hge];
    [lia|f_equal; lia| |f_equal; lia].
  set (middle := Nat.div (low + high) 2).
  assert (Hm : (low <= middle < high)%nat).
  { unfold middle. split; [apply Nat.div_le_lower_bound; lia|
      apply Nat.Div0.div_lt_upper_bound; lia]. }
  destruct (lookup_lt_is_Some_2 BOUNDS middle ltac:(lia)) as [b Eb]. rewrite Eb.
  pose proof (bucket_scan_unique x middle b Eb) as Hu.
  destruct (Z.ltb_spec b x); apply IH; lia.
Qed.

Lemma bucket_index_ok x : valid_lag x -> _bucket_index x = Ok (bucket_scan BOUNDS x).
Proof.
  intros [H0 H1]. pose proof (bucket_scan_le BOUNDS x).
  pose proof (bucket_scan_lt (-1) BOUNDS x H1 ltac:(lia)) as Hlt.
  unfold _bucket_index. rewrite bucket_search_spec by lia.
  unfold raise_if. by destruct (Nat.eqb_spec (bucket_scan BOUNDS x) (length BOUNDS)); [lia|].
Qed.

(** For every lag a histogram can hold, the bisection of [_bucket_index]
    ends and finds the bucket a linear scan of the bounds finds: the first one
    whose upper bound is not below the lag. *)
Theorem bucket_index_scan (lag_ns : Z) :
  valid_lag lag_ns ->
  _bucket_index lag_ns = Ok (bucket_scan BOUNDS lag_ns) /\
  exists b, BOUNDS !! bucket_scan BOUNDS lag_ns = Some b /\ lag_ns <= b /\
    forall j c, (j < bucket_scan BOUNDS lag_ns)%nat -> BOUNDS !! j = Some c -> c < lag_ns.
Proof.
  intros Hv. split; [by apply bucket_index_ok|].
  destruct Hv as [H0 H1].
  pose proof (bucket_scan_lt (-1) BOUNDS lag_ns H1 ltac:(lia)) as Hlt.
  destruct (lookup_lt_is_Some_2 BOUNDS _ Hlt) as [b Eb]. exists b.
  split; [done|]. split; [by apply bucket_scan_at in Eb|].
  intros j c Hj Hc. by apply (bucket_scan_spec BOUNDS lag_ns (bucket_scan BOUNDS lag_ns) ltac:(lia) j c Hj).
Qed.

Lemma bucket_index_scan_witness :
  valid_lag 300000 /\ _bucket_index 300000 = Ok 3%nat.
Proof.
  split; [unfold valid_lag, MAX_INT64; lia|].
  apply (bucket_index_scan 300000). unfold valid_lag, MAX_INT64; lia.
Defined.

(** ** Nearest rank *)
Lemma sorted_lookup_count s k v :
  StronglySorted (fun x y => (x <=? y) = true) s -> s !! k = Some v ->
  forall y, v <= y <-> Z.of_nat k < zcount (fun x => x <=? y) s.
Proof.
  intros Hs. revert k v. induction Hs as [|x s Hs IH Hx]; intros k v Hk y; [done|].
  destruct k as [|k]; simplify_eq/=.
  - pose proof (zcount_nonneg (fun x => x <=? y) s).
    destruct (Z.leb_spec v y); [lia|].
    rewrite zcount_none; [lia|]. intros z Hz.
    pose proof (proj1 (Forall_forall _ _) Hx z Hz) as Hvz. simpl in Hvz. lia.
  - rewrite (IH k v Hk y). destruct (Z.leb_spec x y) as [Hxy|Hxy]; [lia|].
    rewrite zcount_none; [lia|]. intros z Hz.
    pose proof (proj1 (Forall_forall _ _) Hx z Hz) as Hvz. simpl in Hvz. lia.
Qed.

Lemma nearest_rank_loop_spec l v rank b prev bs :
  (forall y, v <= y <-> rank <= zcount (fun x => x <=? y) l) ->
  ascending prev bs -> prev < v -> bs !! bucket_scan bs v = Some b ->
  nearest_rank_loop bs (counts_from prev bs l) (zcount (fun x => x <=? prev) l) rank = Ok b.
Proof.
  intros Hv. revert prev. induction bs as [|c bs IH]; intros prev Ha Hp Hb; [done|].
  destruct Ha as [H1 H2]. simpl in *.
  rewrite <- zcount_split by lia.
  destruct (Z.leb_spec v c) as [Hvc|Hvc]; simplify_eq/=.
  - apply Hv in Hvc. by rewrite (proj2 (Z.leb_le _ _) Hvc).
  - destruct (Z.leb_spec rank (zcount (fun x => x <=? c) l)) as [Hr|Hr].
    + apply Hv in Hr. lia.
    + by apply IH.
Qed.

Lemma quantile_defined l numerator :
  0 < numerator <= 100 -> l <> [] -> Forall valid_lag l ->
  exists v b, py_sorted Z.leb l !! Z.to_nat (rank_of (Z.of_nat (length l)) numerator - 1) = Some v
    /\ BOUNDS !! bucket_scan BOUNDS v = Some b /\ v ∈ l.
Proof.
  intros Hn Hl HF.
  assert (Hlen : (0 < length l)%nat) by (destruct l; simpl; [done|lia]).
  assert (Hr : 1 <= rank_of (Z.of_nat (length l)) numerator <= Z.of_nat (length l)).
  { unfold rank_of. pose proof (ceil_div_le (numerator * Z.of_nat (length l)) 100) as C.
    split; [|apply C; nia].
    destruct (Z.le_gt_cases 1 (ceil_div (numerator * Z.of_nat (length l)) 100)) as [|Hlt]; [done|].
    assert (G : ceil_div (numerator * Z.of_nat (length l)) 100 <= 0) by lia.
    apply C in G; nia. }
  destruct (lookup_lt_is_Some_2 (py_sorted Z.leb l)
    (Z.to_nat (rank_of (Z.of_nat (length l)) numerator - 1))) as [v Hv].
  { rewrite py_sorted_length. lia. }
  exists v. assert (v ∈ l) as Hin.
  { apply (elem_of_py_sorted Z.leb), list_elem_of_lookup. eauto. }
  destruct (proj1 (Forall_forall _ _) HF v Hin) as [H0 H1].
  destruct (lookup_lt_is_Some_2 BOUNDS (bucket_scan BOUNDS v)) as [b Hb].
  { apply (bucket_scan_lt (-1)); [exact H1|lia]. }
  eauto.
Qed.

Lemma nearest_rank_quantile l numerator :
  0 < numerator <= 100 -> Forall valid_lag l ->
  _nearest_rank (counts_from (-1) BOUNDS l) (Z.of_nat (length l)) numerator
  = Ok (quantile numerator l).
Proof.
  intros Hn HF. unfold _nearest_rank.
  destruct (Z.eqb_spec (Z.of_nat (length l)) 0) as [E|E].
  { destruct l; [done|simpl in E; lia]. }
  destruct (quantile_defined l numerator Hn) as (v & b & Hv & Hb & Hin); [by intros ->|done|].
  unfold quantile, round_up. rewrite Hv, Hb.
  destruct (proj1 (Forall_forall _ _) HF v Hin) as [H0 H1].
  replace 0 with (zcount (fun x => x <=? -1) l) at 1.
  2:{ apply zcount_none. intros x Hx. pose proof (proj1 (Forall_forall _ _) HF x Hx) as [? ?]. lia. }
  set (rank := Z.max 1 _).
  assert (Hrank : rank = rank_of (Z.of_nat (length l)) numerator).
  { unfold rank, rank_of, ceil_div.
    replace (numerator * Z.of_nat (length l) + 100 - 1)
      with (numerator * Z.of_nat (length l) + 99) by lia.
    apply Z.max_r. apply Z.div_le_lower_bound; nia. }
  assert (Hpos : 1 <= rank) by (unfold rank; lia).
  rewrite (nearest_rank_loop_spec l v rank b (-1) BOUNDS);
    [done| |apply bounds_ascending|lia|done].
  intros y. rewrite (sorted_lookup_count _ _ v (py_sorted_sorted Z.leb l) Hv y).
  rewrite (zcount_perm _ _ _ (py_sorted_perm Z.leb l)). rewrite <- Hrank.
  rewrite Z2Nat.id by lia. lia.
Qed.

(** ** The maximum *)
Lemma max_opt_comm m x y : max_opt (max_opt m x) y = max_opt (max_opt m y) x.
Proof. destruct m; unfold max_opt; f_equal; lia. Qed.

Lemma zmax_perm l1 l2 : l1 ≡ₚ l2 -> zmax l1 = zmax l2.
Proof.
  induction 1; simpl; [done|congruence|apply max_opt_comm|congruence].
Qed.

Lemma zmax_spec l m : zmax l = Some m -> m ∈ l /\ forall x, x ∈ l -> x <= m.
Proof.
  revert m. induction l as [|x l IH]; intros m; simpl; [done|].
  destruct (zmax l) as [m'|] eqn:E; simpl; intros [= <-].
  - destruct (IH m' eq_refl) as [Hin Hle]. split.
    + destruct (Z.max_spec m' x) as [[_ ->]|[_ ->]]; [left|by right].
    + intros y Hy. apply elem_of_cons in Hy as [->|Hy]; [lia|]. specialize (Hle y Hy). lia.
  - destruct l as [|y l]; simpl in E; [|by destruct (zmax l)].
    split; [left|]. intros y Hy. apply list_elem_of_singleton in Hy. lia.
Qed.

Lemma zmax_none l : zmax l = None -> l = [].
Proof. destruct l; simpl; [done|]. by destruct (zmax l). Qed.

Lemma zmax_app l1 l2 :
  zmax (l1 ++ l2) = match zmax l2 with None => zmax l1 | Some m => max_opt (zmax l1) m end.
Proof.
  induction l1 as [|x l1 IH]; simpl.
  - destruct (zmax l2); done.
  - rewrite IH. destruct (zmax l2) as [m|]; [|done]. apply max_opt_comm.
Qed.

Lemma zmax_le_zsum l m : Forall valid_lag l -> zmax l = Some m -> m <= zsum l.
Proof.
  intros HF Hm. apply zmax_spec in Hm as [Hin _].
  induction HF as [|x l Hx HF IH]; [by apply not_elem_of_nil in Hin|].
  assert (0 <= zsum l).
  { apply zsum_nonneg. eapply Forall_impl; [exact HF|]. intros ? [? ?]. done. }
  simpl. destruct Hx. apply elem_of_cons in Hin as [->|Hin]; [lia|]. specialize (IH Hin). lia.
Qed.

(** The bucket of the maximum is the highest nonempty one. *)
Definition scan_highest (k : nat) (best : option nat) (counts : list Z) : option nat :=
  foldl (fun best '(index, count) => if count =? 0 then best else Some index)
    best (imap (fun i c => ((k + i)%nat, c)) counts).

Lemma scan_highest_cons k best c counts :
  scan_highest k best (c :: counts)
  = scan_highest (S k) (if c =? 0 then best else Some k) counts.
Proof.
  unfold scan_highest. simpl. rewrite Nat.add_0_r. f_equal.
  apply imap_ext. intros i x _. simpl. f_equal. lia.
Qed.

Lemma scan_highest_counts k best prev bs l m :
  ascending prev bs -> (forall x, x ∈ l -> x <= m) -> m ∈ l -> m <= last_bound prev bs ->
  scan_highest k best (counts_from prev bs l)
  = if prev <? m then Some (k + bucket_scan bs m)%nat else best.
Proof.
  intros Ha Hle Hin. revert k best prev Ha.
  induction bs as [|b bs IH]; intros k best prev Ha Hl.
  { unfold last_bound in Hl. simpl in Hl. simpl. destruct (Z.ltb_spec prev m); [lia|done]. }
  destruct Ha as [H1 H2]. rewrite last_bound_cons in Hl.
  simpl counts_from. rewrite scan_highest_cons, IH by done. simpl.
  destruct (Z.ltb_spec b m) as [Hbm|Hbm].
  - destruct (Z.ltb_spec prev m); [|lia]. destruct (Z.leb_spec m b); [lia|]. f_equal. lia.
  - destruct (Z.leb_spec m b); [|lia]. rewrite Nat.add_0_r.
    destruct (Z.ltb_spec prev m) as [Hpm|Hpm].
    + assert (zcount (fun y => (prev <? y) && (y <=? b)) l <> 0) as Hne.
      { clear -Hin Hpm Hbm. intros E.
        induction l as [|x l IHl]; [by apply not_elem_of_nil in Hin|]. simpl in E.
        pose proof (zcount_nonneg (fun y => (prev <? y) && (y <=? b)) l).
        apply elem_of_cons in Hin as [<-|Hin].
        - rewrite (proj2 (Z.ltb_lt _ _) Hpm), (proj2 (Z.leb_le _ _) Hbm) in E. simpl in E. lia.
        - apply IHl; [done|]. destruct ((prev <? x) && (x <=? b)); lia. }
      by rewrite (proj2 (Z.eqb_neq _ _) Hne).
    + rewrite zcount_none; [done|]. intros x Hx. specialize (Hle x Hx).
      destruct (Z.ltb_spec prev x); [lia|done].
Qed.

Lemma highest_nonempty_max l m :
  Forall valid_lag l -> zmax l = Some m ->
  highest_nonempty (counts_from (-1) BOUNDS l) = Some (bucket_scan BOUNDS m).
Proof.
  intros HF Hm. apply zmax_spec in Hm as [Hin Hle].
  destruct (proj1 (Forall_forall _ _) HF m Hin) as [H0 H1].
  change (highest_nonempty (counts_from (-1) BOUNDS l))
    with (scan_highest 0 None (counts_from (-1) BOUNDS l)).
  rewrite (scan_highest_counts _ _ _ _ _ m); [|apply bounds_ascending|done|done|exact H1].
  destruct (Z.ltb_spec (-1) m); [done|lia].
Qed.

(** ** Snapshots of valid samples never raise *)
Lemma integer_ok minimum field x : minimum <= x <= MAX_INT64 -> _integer minimum field x = Ok x.
Proof.
  intros [H1 H2]. unfold _integer, raise_if.
  destruct (Z.ltb_spec x minimum); [lia|]. destruct (Z.ltb_spec MAX_INT64 x); [lia|done].
Qed.

Lemma snapshot_of_valid l :
  Forall valid_lag l -> Z.of_nat (length l) <= MAX_INT64 ->
  snapshot_post_init (snapshot_of l) = Ok tt.
Proof.
  intros HF Hlen. unfold snapshot_post_init, snapshot_of; cbn [bucket_counts sample_count
    lag_total_ns lag_p50_ns lag_p95_ns lag_p99_ns lag_max_ns].
  rewrite counts_from_length, Nat.eqb_refl. cbn [negb raise_if].
  replace (existsb _ _) with false.
  2:{ symmetry. apply Bool.not_true_is_false. intros E. apply existsb_exists in E as (c & Hc & E).
      apply list_elem_of_In in Hc.
      pose proof (proj1 (Forall_forall _ _) (counts_from_nonneg (-1) BOUNDS l) c Hc).
      apply Z.ltb_lt in E. simpl in *. lia. }
  cbn [raise_if]. rewrite integer_ok by lia. cbn [rbind].
  rewrite zsum_counts_valid by done. rewrite Z.eqb_refl. cbn [negb raise_if].
  assert (Hsum : 0 <= zsum l).
  { apply zsum_nonneg. eapply Forall_impl; [exact HF|]. by intros ? []. }
  destruct (Z.ltb_spec (zsum l) 0); [lia|]. cbn [raise_if].
  rewrite !nearest_rank_quantile by (done || lia). cbn [rbind].
  rewrite bool_decide_true by done. cbn [negb raise_if].
  destruct (zmax l) as [m|] eqn:Em.
  - pose proof (zmax_le_zsum l m HF Em).
    destruct (zmax_spec l m Em) as [Hin _].
    pose proof (proj1 (Forall_forall _ _) HF m Hin) as Hm.
    rewrite integer_ok by (destruct Hm; lia). cbn [rbind].
    destruct (Z.eqb_spec (Z.of_nat (length l)) 0); [destruct l; [done|simpl in *; lia]|].
    cbn [raise_if]. rewrite (highest_nonempty_max l m) by done.
    rewrite bucket_index_ok by done. cbn [rbind]. rewrite Nat.eqb_refl. cbn [negb raise_if].
    by destruct (Z.ltb_spec (zsum l) m); [lia|].
  - apply zmax_none in Em as ->. done.
Qed.

Lemma snapshot_cell_of l :
  Forall valid_lag l -> Z.of_nat (length l) <= MAX_INT64 ->
  _snapshot (c_bucket_counts (cell_of l)) (c_sample_count (cell_of l))
    (c_lag_total_ns (cell_of l)) (c_lag_max_ns (cell_of l)) = Ok (snapshot_of l).
Proof.
  intros HF Hlen. unfold _snapshot, cell_of.
  cbn [c_bucket_counts c_sample_count c_lag_total_ns c_lag_max_ns].
  rewrite !nearest_rank_quantile by (done || lia). cbn [rbind].
  fold (snapshot_of l). by rewrite (snapshot_of_valid l HF Hlen).
Qed.

(** ** Cells represent lists of samples *)
Lemma cell_of_nil : cell_of [] = empty_cell.
Proof. reflexivity. Qed.

Lemma cell_of_perm l1 l2 : l1 ≡ₚ l2 -> cell_of l1 = cell_of l2.
Proof.
  intros H. unfold cell_of. f_equal.
  - by apply counts_from_perm.
  - by rewrite H.
  - by apply zsum_perm.
  - by apply zmax_perm.
Qed.

Lemma cell_add_cell_of l x : valid_lag x -> cell_add (cell_of l) x = Ok (cell_of (x :: l)).
Proof.
  intros Hx. unfold cell_add. rewrite bucket_index_ok by done. cbn [rbind]. f_equal.
  unfold cell_of. destruct Hx as [H0 H1]. f_equal.
  - rewrite (counts_from_cons (-1) BOUNDS x l bounds_ascending); [done|lia|exact H1].
  - simpl. lia.
  - simpl. lia.
Qed.

Lemma add_all_cell_of l lags :
  Forall valid_lag lags -> Cumulative.add_all (cell_of l) lags = Ok (cell_of (rev lags ++ l)).
Proof.
  intros HF. revert l. induction HF as [|x lags Hx HF IH]; intros l; [done|].
  cbn [Cumulative.add_all]. unfold Cumulative.add.
  rewrite integer_ok by (destruct Hx; lia). cbn [rbind].
  rewrite cell_add_cell_of by done. cbn [rbind]. rewrite IH. simpl. by rewrite <- app_assoc.
Qed.

Lemma quantile_perm numerator l1 l2 : l1 ≡ₚ l2 -> quantile numerator l1 = quantile numerator l2.
Proof.
  intros H. unfold quantile. rewrite (py_sorted_perm_eq Z.leb l1 l2), H; [done| |done].
  intros. lia.
Qed.

Lemma snapshot_of_perm l1 l2 : l1 ≡ₚ l2 -> snapshot_of l1 = snapshot_of l2.
Proof.
  intros H. unfold snapshot_of.
  rewrite (counts_from_perm _ _ l1 l2 H), (zsum_perm _ _ H), (zmax_perm _ _ H).
  rewrite !(quantile_perm _ _ _ H). by rewrite H.
Qed.

(** Whatever lags a cumulative histogram is given, its snapshot passes every
    check of [DurabilityHistogramSnapshot] and is the one of the plain list of
    lags: the exact count, sum and maximum, and p50, p95 and p99 equal to the
    nearest-rank quantiles of the sorted list, each rounded up to the bound of
    its bucket. *)
Theorem cumulative_snapshot_correct (lags : list Z) :
  Forall valid_lag lags -> Z.of_nat (length lags) <= MAX_INT64 ->
  exists h, Cumulative.add_all Cumulative.new lags = Ok h /\
    Cumulative.snapshot h = Ok (snapshot_of lags).
Proof.
  intros HF Hlen. exists (cell_of (rev lags)). split.
  - unfold Cumulative.new. rewrite <- cell_of_nil, add_all_cell_of by done. by rewrite app_nil_r.
  - unfold Cumulative.snapshot. rewrite (cell_of_perm (rev lags) lags).
    + by apply snapshot_cell_of.
    + symmetry. apply Permutation_rev.
Qed.

Lemma cumulative_snapshot_correct_witness :
  exists h, Cumulative.add_all Cumulative.new [120000; 0; 7; 99000000] = Ok h /\
    Cumulative.snapshot h = Ok (snapshot_of [120000; 0; 7; 99000000]).
Proof.
  apply (cumulative_snapshot_correct [120000; 0; 7; 99000000]).
  - repeat constructor; unfold valid_lag, MAX_INT64; lia.
  - unfold MAX_INT64; simpl; lia.
Defined.

Example snapshot_of_p95 : lag_p95_ns (snapshot_of [120000; 0; 7; 99000000]) = Some 100000000.
Proof. vm_compute. reflexivity. Qed.

(** ** The rolling window *)
Definition at_second (s : Z) (samples : list (Z * Z)) : list Z :=
  (filter (fun p => p.2 = s) samples).*1.
Definition window (current : Z) (samples : list (Z * Z)) : list Z :=
  (filter (fun p => current - 59 <= p.2 <= current) samples).*1.

Definition slot_ok (samples : list (Z * Z)) (latest : option Z) (i : nat) (slot : _RollingSlot) : Prop :=
  match slot_second slot with
  | None => slot_cell slot = empty_cell
  | Some s => s mod 60 = Z.of_nat i /\
      (exists L, latest = Some L /\ L - 59 <= s <= L) /\
      slot_cell slot = cell_of (at_second s samples)
  end.

Record rolling_inv (self : Rolling.RollingDurabilityHistogram) (samples : list (Z * Z)) : Prop := {
  ri_length : length (Rolling._slots self) = 60%nat;
  ri_slots : forall i slot, Rolling._slots self !! i = Some slot ->
    slot_ok samples (Rolling._latest_second self) i slot;
  ri_samples : forall x s, (x, s) ∈ samples ->
    exists L, Rolling._latest_second self = Some L /\ s <= L /\
      (L - 59 <= s -> exists slot, Rolling._slots self !! Z.to_nat (s mod 60) = Some slot /\
                       slot_second slot = Some s)
}.

Lemma at_second_cons_eq x s samples : at_second s ((x, s) :: samples) = x :: at_second s samples.
Proof. unfold at_second. rewrite filter_cons_True by done. done. Qed.

Lemma at_second_cons_ne x s s' samples :
  s' <> s -> at_second s ((x, s') :: samples) = at_second s samples.
Proof. intros H. unfold at_second. by rewrite filter_cons_False. Qed.

Lemma at_second_nil s samples : (forall x, (x, s) ∉ samples) -> at_second s samples = [].
Proof.
  intros H. induction samples as [|[x s'] samples IH]; [done|].
  rewrite at_second_cons_ne.
  - apply IH. intros y Hy. apply (H y). by right.
  - intros ->. apply (H x). left.
Qed.

Lemma slot_clear_empty slot l : slot_cell slot = cell_of l -> slot_cell (slot_clear slot) = empty_cell.
Proof.
  intros H. unfold slot_clear, empty_cell. by rewrite H.
Qed.

Lemma slot_reset_empty samples latest i slot s :
  slot_ok samples latest i slot -> slot_cell (slot_reset slot s) = empty_cell.
Proof.
  unfold slot_ok, slot_reset. cbn [slot_cell]. destruct (slot_second slot).
  - intros (_ & _ & H). by eapply slot_clear_empty.
  - intros H. by eapply (slot_clear_empty slot []).
Qed.

Lemma rolling_new_inv : rolling_inv Rolling.new [].
Proof.
  split; [done| |].
  - intros i slot Hi. unfold Rolling.new in Hi. cbn [Rolling._slots] in Hi.
    apply lookup_replicate in Hi as [-> _]. done.
  - intros x s H. by apply not_elem_of_nil in H.
Qed.

Lemma rolling_advance_inv self samples current self' :
  rolling_inv self samples -> Rolling._advance self current = Ok self' ->
  rolling_inv self' samples /\ Rolling._latest_second self' = Some current.
Proof.
  intros [Hlen Hslots Hsam] H. unfold Rolling._advance in H.
  apply raise_if_ok in H as [Hback [= <-]]. split; [|done]. split; cbn [Rolling._slots Rolling._latest_second].
  - by rewrite length_fmap.
  - intros i slot Hi. rewrite list_lookup_fmap in Hi.
    destruct (Rolling._slots self !! i) as [slot0|] eqn:Ei; [|done]. simplify_eq/=.
    specialize (Hslots i slot0 Ei). unfold slot_ok in Hslots |- *.
    destruct (slot_second slot0) as [s|] eqn:Es; [|by rewrite Es].
    destruct Hslots as (Hmod & (L & HL & Hs) & Hcell). rewrite HL in Hback. bool_prop.
    destruct (Rolling.in_window current slot0) eqn:Ew.
    + rewrite Es. split; [done|]. split; [|done]. exists current. split; [done|].
      unfold Rolling.in_window, _ROLLING_SLOT_COUNT in Ew. rewrite Es in Ew. lia.
    + cbn [slot_second slot_clear]. by eapply slot_clear_empty.
  - intros x s Hin. destruct (Hsam x s Hin) as (L & HL & Hs & Hslot).
    rewrite HL in Hback. bool_prop. exists current. split; [done|]. split; [lia|].
    intros Hw. destruct Hslot as (slot & Hl & Hsec); [lia|]. exists slot. split; [|done].
    rewrite list_lookup_fmap, Hl. simpl. rewrite Hsec. f_equal.
    unfold Rolling.in_window, _ROLLING_SLOT_COUNT. rewrite Hsec.
    by rewrite !(proj2 (Z.leb_le _ _)) by lia.
Qed.

Lemma mod_60_window s s' L :
  L - 59 <= s <= L -> L - 59 <= s' <= L -> s mod 60 = s' mod 60 -> s = s'.
Proof.
  intros H1 H2 H3.
  pose proof (Z.div_mod s 60 ltac:(lia)). pose proof (Z.div_mod s' 60 ltac:(lia)). lia.
Qed.

(** Filing a sample of the current window into its slot. *)
Lemma rolling_store_inv self samples L lag s :
  rolling_inv self samples -> Rolling._latest_second self = Some L ->
  L - 59 <= s <= L -> valid_lag lag ->
  exists slot slot', Rolling._slots self !! Z.to_nat (s mod 60) = Some slot /\
    slot_add (if bool_decide (slot_second slot = Some s) then slot else slot_reset slot s) lag
      = Ok slot' /\
    rolling_inv {| Rolling._slots := <[Z.to_nat (s mod 60) := slot']> (Rolling._slots self);
                   Rolling._latest_second := Rolling._latest_second self |}
      ((lag, s) :: samples).
Proof.
  intros [Hlen Hslots Hsam] HL Hs Hlag.
  pose proof (Z.mod_pos_bound s 60 ltac:(lia)) as Hmod.
  set (i := Z.to_nat (s mod 60)) in *.
  destruct (lookup_lt_is_Some_2 (Rolling._slots self) i) as [slot Hslot]; [lia|].
  set (slot' := {| slot_second := Some s; slot_cell := cell_of (at_second s ((lag, s) :: samples)) |}).
  exists slot, slot'. split; [done|]. split.
  - assert (E : exists c, (if bool_decide (slot_second slot = Some s) then slot else slot_reset slot s)
       = {| slot_second := Some s; slot_cell := c |} /\ c = cell_of (at_second s samples)).
    { case_bool_decide as Hd.
      - pose proof (Hslots i slot Hslot) as Hok. unfold slot_ok in Hok. rewrite Hd in Hok.
        exists (slot_cell slot). split; [destruct slot; simpl in *; by subst|by apply Hok].
      - exists empty_cell. split.
        + rewrite <- (slot_reset_empty _ _ _ _ s (Hslots i slot Hslot)). done.
        + rewrite at_second_nil; [done|]. intros x Hin.
          destruct (Hsam x s Hin) as (L' & HL' & _ & Hex). simplify_eq.
          destruct Hex as (slot2 & H2 & Hsec); [lia|]. fold i in H2. simplify_eq. }
    destruct E as (c & -> & ->). unfold slot_add. cbn [slot_cell slot_second].
    rewrite cell_add_cell_of by done. cbn [rbind]. by rewrite <- at_second_cons_eq.
  - split; cbn [Rolling._slots Rolling._latest_second].
    + by rewrite length_insert.
    + intros j slot2 Hj. apply list_lookup_insert_Some in Hj as [(<- & <- & _)|[Hne Hj]].
      * unfold slot_ok. cbn [slot_second slot']. split; [lia|]. split; [|done]. eauto.
      * specialize (Hslots j slot2 Hj). unfold slot_ok in Hslots |- *.
        destruct (slot_second slot2) as [s2|] eqn:E2; [|done].
        destruct Hslots as (Hm & Hw & Hc). split; [done|]. split; [done|].
        rewrite at_second_cons_ne; [done|]. intros ->. lia.
    + intros x s2 Hin. apply elem_of_cons in Hin as [[= -> ->]|Hin].
      * exists L. split; [done|]. split; [lia|]. intros _. exists slot'. split; [|done].
        apply list_lookup_insert_eq. lia.
      * destruct (Hsam x s2 Hin) as (L' & HL' & Hle & Hex).
        assert (L' = L) as -> by congruence. exists L. split; [done|]. split; [done|]. intros Hw. destruct (Hex Hw) as (slot2 & H2 & Hsec).
        destruct (decide (i = Z.to_nat (s2 mod 60))) as [E|E].
        -- exists slot'. rewrite <- E, list_lookup_insert_eq by lia. split; [done|].
           cbn. f_equal. apply (mod_60_window s s2 L); [lia|lia|].
           pose proof (Z.mod_pos_bound s2 60 ltac:(lia)). lia.
        -- exists slot2. by rewrite list_lookup_insert_ne.
Qed.

Lemma rolling_add_inv self samples lag completed :
  rolling_inv self samples -> valid_lag lag -> valid_lag completed ->
  exists self', Rolling.add self lag completed = Ok self' /\
    rolling_inv self' ((lag, completed / _NS_PER_SECOND) :: samples).
Proof.
  intros Hinv Hlag Hc. unfold Rolling.add.
  rewrite !integer_ok by (unfold valid_lag in *; lia). cbn [rbind].
  set (s := completed / _NS_PER_SECOND).
  destruct (match Rolling._latest_second self with
            | Some l => s <? l - 59 | None => false end) eqn:Edrop.
  { (* the sample is older than the window *)
    exists self. split; [done|]. destruct (Rolling._latest_second self) as [L|] eqn:EL; [|done].
    bool_prop. destruct Hinv as [Hlen Hslots Hsam]. split; [done| |].
    - intros i slot Hi. specialize (Hslots i slot Hi). unfold slot_ok in *.
      destruct (slot_second slot) as [s2|]; [|done].
      destruct Hslots as (? & (L' & HL' & ?) & ?). simplify_eq.
      split; [done|]. split; [eauto|]. rewrite at_second_cons_ne; [done|lia].
    - intros x s2 Hin. apply elem_of_cons in Hin as [[= -> ->]|Hin]; [|by eauto].
      exists L. split; [done|]. split; [lia|]. lia. }
  destruct (match Rolling._latest_second self with None => true | Some l => l <? s end) eqn:Eadv.
  - destruct (Rolling._advance self s) as [self1|e] eqn:E1.
    + destruct (rolling_advance_inv _ _ _ _ Hinv E1) as [Hinv1 HL1]. cbn [rbind].
      destruct (rolling_store_inv self1 samples s lag s Hinv1 HL1 ltac:(lia) Hlag)
        as (slot & slot' & Hslot & Hadd & Hinv2).
      unfold _ROLLING_SLOT_COUNT. rewrite Hslot, Hadd. cbn [rbind]. eauto.
    + unfold Rolling._advance, raise_if in E1.
      destruct (Rolling._latest_second self) as [L|]; [|done].
      bool_prop. destruct (Z.ltb_spec s L); [lia|done].
  - destruct (Rolling._latest_second self) as [L|] eqn:EL; [|done]. bool_prop. cbn [rbind].
    destruct (rolling_store_inv self samples L lag s Hinv EL ltac:(lia) Hlag)
      as (slot & slot' & Hslot & Hadd & Hinv2).
    unfold _ROLLING_SLOT_COUNT. rewrite Hslot, Hadd. cbn [rbind]. rewrite EL in *. eauto.
Qed.

(** ** The snapshot of the window *)
Definition slot_samples (samples : list (Z * Z)) (slot : _RollingSlot) : list (Z * Z) :=
  match slot_second slot with None => [] | Some s => filter (fun p => p.2 = s) samples end.

Lemma merge_slots_cell samples current slots l :
  (forall i slot, slots !! i = Some slot ->
     slot_ok samples (Some current) i slot \/ exists k, slot_ok samples (Some current) k slot) ->
  foldl (Rolling.merge_slot current) (cell_of l) slots
  = cell_of (l ++ (mjoin (slot_samples samples <$> slots)).*1).
Proof.
  revert l. induction slots as [|slot slots IH]; intros l Hok.
  { simpl. by rewrite app_nil_r. }
  assert (Hslot : exists k, slot_ok samples (Some current) k slot).
  { destruct (Hok 0%nat slot eq_refl); eauto. }
  destruct Hslot as [k Hslot]. cbn [foldl fmap list_fmap mjoin list_join].
  rewrite fmap_app, app_assoc.
  assert (E : Rolling.merge_slot current (cell_of l) slot
              = cell_of (l ++ (slot_samples samples slot).*1)).
  { unfold Rolling.merge_slot, Rolling.in_window, _ROLLING_SLOT_COUNT, slot_samples, slot_ok in *.
    destruct (slot_second slot) as [s|].
    - destruct Hslot as (_ & (L & [= <-] & Hs) & ->).
      rewrite !(proj2 (Z.leb_le _ _)) by lia. cbn [andb]. unfold cell_of.
      cbn [c_bucket_counts c_sample_count c_lag_total_ns c_lag_max_ns].
      fold (at_second s samples). f_equal.
      + symmetry. apply counts_from_app.
      + rewrite length_app. lia.
      + by rewrite zsum_app.
      + by rewrite zmax_app.
    - simpl. by rewrite app_nil_r. }
  rewrite E. apply IH. intros i slot' Hi. right.
  destruct (Hok (S i) slot' Hi) as [|]; eauto.
Qed.

(** Distinct slots hold distinct seconds, so the slots split the window. *)
Definition distinct_seconds (slots : list _RollingSlot) : Prop :=
  forall i j x y s, slots !! i = Some x -> slots !! j = Some y ->
    slot_second x = Some s -> slot_second y = Some s -> i = j.

Lemma slots_partition samples slots :
  distinct_seconds slots ->
  mjoin (slot_samples samples <$> slots)
  ≡ₚ filter (fun p => Exists (fun slot => slot_second slot = Some p.2) slots) samples.
Proof.
  intros Hd. induction slots as [|slot slots IH].
  { simpl. clear. induction samples as [|p samples IH]; [done|].
    rewrite filter_cons_False; [done|]. by intros ?%Exists_nil. }
  cbn [fmap list_fmap mjoin list_join]. rewrite IH.
  2:{ intros i j x y s Hi Hj Hx Hy. specialize (Hd (S i) (S j) x y s Hi Hj Hx Hy). lia. }
  assert (Hfresh : forall s, slot_second slot = Some s ->
    ~ Exists (fun slot => slot_second slot = Some s) slots).
  { intros s Hs (slot' & Hin & Hs')%Exists_exists.
    apply list_elem_of_lookup in Hin as [j Hj].
    specialize (Hd 0%nat (S j) slot slot' s eq_refl Hj Hs Hs'). lia. }
  unfold slot_samples. clear IH Hd.
  induction samples as [|p samples IH].
  { by destruct (slot_second slot). }
  destruct (slot_second slot) as [s|] eqn:Es.
  - destruct (decide (p.2 = s)) as [<-|Hne].
    + rewrite (filter_cons_True (fun q => q.2 = p.2)) by done.
      rewrite filter_cons_False by (by apply Hfresh).
      rewrite filter_cons_True by (by left). simpl. by rewrite IH.
    + rewrite (filter_cons_False (fun q => q.2 = s)) by done.
      destruct (decide (Exists (fun slot => slot_second slot = Some p.2) slots)) as [He|He].
      * rewrite filter_cons_True by done. rewrite filter_cons_True by (by right).
        rewrite <- Permutation_middle. by rewrite IH.
      * rewrite filter_cons_False by done. rewrite filter_cons_False; [done|].
        intros [|]%Exists_cons; [congruence|done].
  - simpl. simpl in IH.
    destruct (decide (Exists (fun slot => slot_second slot = Some p.2) slots)) as [He|He].
    + rewrite filter_cons_True by done. rewrite filter_cons_True by (by right). by rewrite IH.
    + rewrite filter_cons_False by done. rewrite filter_cons_False; [done|].
      intros [|]%Exists_cons; [congruence|done].
Qed.

Lemma rolling_total self samples current :
  rolling_inv self samples -> Rolling._latest_second self = Some current ->
  foldl (Rolling.merge_slot current) empty_cell (Rolling._slots self)
  = cell_of (window current samples).
Proof.
  intros [Hlen Hslots Hsam] HL. rewrite HL in *. rewrite <- cell_of_nil.
  rewrite (merge_slots_cell samples) by (intros i slot Hi; left; by apply Hslots).
  simpl. apply cell_of_perm. unfold window. apply fmap_Permutation.
  rewrite slots_partition.
  2:{ intros i j x y s Hi Hj Hx Hy.
      pose proof (Hslots i x Hi) as H1. pose proof (Hslots j y Hj) as H2.
      unfold slot_ok in *. rewrite Hx in H1. rewrite Hy in H2. lia. }
  rewrite (list_filter_iff' _ (fun p => current - 59 <= p.2 <= current)); [done|].
  intros [x s] Hin. cbn [snd]. split.
  - intros (slot & Hi & Hs)%Exists_exists. apply list_elem_of_lookup in Hi as [i Hi].
    pose proof (Hslots i slot Hi) as H1. unfold slot_ok in H1. rewrite Hs in H1.
    destruct H1 as (_ & (L & [= <-] & H1) & _). lia.
  - intros Hw. destruct (Hsam x s Hin) as (L & [= <-] & _ & Hex).
    destruct Hex as (slot & Hi & Hs); [lia|]. apply Exists_exists. exists slot.
    split; [|done]. apply list_elem_of_lookup. eauto.
Qed.

(** ** What the rolling histogram promises *)
Definition valid_op (o : Rolling.op) : Prop :=
  match o with
  | Rolling.Add lag completed => valid_lag lag /\ valid_lag completed
  | Rolling.Snapshot now => valid_lag now
  end.

(** The samples of a run, latest first, each with the second it completed in. *)
Fixpoint samples_of (acc : list (Z * Z)) (ops : list Rolling.op) : list (Z * Z) :=
  match ops with
  | [] => acc
  | Rolling.Add lag completed :: ops => samples_of ((lag, completed / _NS_PER_SECOND) :: acc) ops
  | Rolling.Snapshot _ :: ops => samples_of acc ops
  end.

Lemma window_valid current samples :
  Forall (fun p => valid_lag p.1) samples -> Forall valid_lag (window current samples).
Proof.
  intros H. unfold window. apply Forall_fmap, Forall_forall.
  intros p Hp. apply list_elem_of_filter in Hp as [_ Hp].
  exact (proj1 (Forall_forall _ _) H p Hp).
Qed.

Lemma window_length current samples : (length (window current samples) <= length samples)%nat.
Proof. unfold window. rewrite length_fmap. apply length_filter. Qed.

Definition valid_samples (samples : list (Z * Z)) : Prop :=
  Forall (fun p => valid_lag p.1) samples /\ Z.of_nat (length samples) <= MAX_INT64.

Lemma rolling_snapshot_inv self samples now :
  rolling_inv self samples -> valid_samples samples -> valid_lag now ->
  match Rolling._latest_second self with
  | Some latest => latest <= now / _NS_PER_SECOND | None => True end ->
  exists self', Rolling.snapshot self now
      = Ok (self', snapshot_of (window (now / _NS_PER_SECOND) samples)) /\
    rolling_inv self' samples /\ Rolling._latest_second self' = Some (now / _NS_PER_SECOND).
Proof.
  intros Hinv [HF Hlen] Hnow Hlate. unfold Rolling.snapshot.
  rewrite integer_ok by (destruct Hnow; lia). cbn [rbind].
  set (current := now / _NS_PER_SECOND) in *.
  assert (E : exists self', rolling_inv self' samples /\ Rolling._latest_second self' = Some current /\
    match Rolling._latest_second self with
    | None => Rolling._advance self current
    | Some latest => if latest <? current then Rolling._advance self current
        else raise ValueError "rolling histogram time must not move backward"
               when current <? latest;; Ok self
    end = Ok self').
  { assert (G : exists self1, Rolling._advance self current = Ok self1).
    { unfold Rolling._advance, raise_if. destruct (Rolling._latest_second self) as [L|]; [|eauto].
      destruct (Z.ltb_spec current L); [lia|eauto]. }
    destruct G as [self1 G]. destruct (rolling_advance_inv _ _ _ _ Hinv G) as [Hinv1 HL1].
    destruct (Rolling._latest_second self) as [L|] eqn:EL; [|by exists self1].
    destruct (Z.ltb_spec L current); [by exists self1|].
    assert (L = current) as -> by lia. exists self. rewrite Z.ltb_irrefl. done. }
  destruct E as (self' & Hinv' & HL' & ->). cbn [rbind].
  rewrite (rolling_total self' samples current) by done.
  rewrite snapshot_cell_of.
  - cbn [rbind]. eauto.
  - by apply window_valid.
  - pose proof (window_length current samples). lia.
Qed.

Lemma rolling_run_inv self samples ops self' :
  rolling_inv self samples -> Forall valid_op ops ->
  valid_samples (samples_of samples ops) ->
  Rolling.run self ops = Ok self' -> rolling_inv self' (samples_of samples ops).
Proof.
  intros Hinv HF. revert self samples Hinv. induction HF as [|o ops Ho HF IH];
    intros self samples Hinv Hs H; cbn [Rolling.run samples_of] in *; [by inv_ok|].
  apply rbind_ok in H as (self1 & H1 & H). destruct o as [lag completed|now];
    cbn [Rolling.step samples_of valid_op] in *.
  - destruct Ho as [Hlag Hc]. destruct (rolling_add_inv self samples lag completed)
      as (self2 & H2 & Hinv2); [done|done|done|]. rewrite H1 in H2. injection H2 as <-.
    exact (IH _ _ Hinv2 Hs H).
  - assert (Hvs : valid_samples samples).
    { clear -Hs. destruct Hs as [HF Hlen].
      assert (G : exists pre, samples_of samples ops = pre ++ samples).
      { clear. revert samples. induction ops as [|[lag c|n] ops IH]; intros samples; simpl.
        - by exists [].
        - destruct (IH ((lag, c / _NS_PER_SECOND) :: samples)) as [pre ->].
          exists (pre ++ [(lag, c / _NS_PER_SECOND)]). by rewrite <- app_assoc.
        - apply IH. }
      destruct G as [pre E]. rewrite E in HF, Hlen.
      apply Forall_app in HF as [_ HF]. rewrite length_app in Hlen. split; [done|lia]. }
    apply rbind_ok in H1 as ([self2 s] & H1 & [= <-]). simpl in H.
    destruct (match Rolling._latest_second self with
              | Some latest => latest <=? now / _NS_PER_SECOND | None => true end) eqn:El.
    + destruct (rolling_snapshot_inv self samples now) as (self3 & H3 & Hinv3 & _);
        [done|done|done|by destruct (Rolling._latest_second self); [apply Z.leb_le|]|].
      rewrite H1 in H3. injection H3 as <- _.
      exact (IH _ _ Hinv3 Hs H).
    + exfalso. unfold Rolling.snapshot in H1. rewrite integer_ok in H1 by (destruct Ho; lia).
      cbn [rbind] in H1. destruct (Rolling._latest_second self) as [L|]; [|done]. bool_prop.
      rewrite (proj2 (Z.ltb_ge _ _)) in H1 by lia. unfold raise_if in H1.
      by rewrite (proj2 (Z.ltb_lt _ _)) in H1 by lia.
Qed.

(** C32: after any run of [add] and [snapshot] calls, in whatever order the
    completion times come, a snapshot taken at a time that does not go back is
    exactly the histogram of the samples that completed in the last sixty
    seconds; the sixty reused slots lose none of them and keep no older one. *)
Theorem rolling_snapshot_is_window (ops : list Rolling.op) (self : Rolling.RollingDurabilityHistogram)
    (now : Z) :
  Forall valid_op ops -> valid_samples (samples_of [] ops) ->
  Rolling.run Rolling.new ops = Ok self -> valid_lag now ->
  match Rolling._latest_second self with
  | Some latest => latest <= now / _NS_PER_SECOND | None => True end ->
  exists self', Rolling.snapshot self now
    = Ok (self', snapshot_of (window (now / _NS_PER_SECOND) (samples_of [] ops))).
Proof.
  intros HF Hs Hrun Hnow Hlate.
  pose proof (rolling_run_inv _ _ _ _ rolling_new_inv HF Hs Hrun) as Hinv.
  destruct (rolling_snapshot_inv self (samples_of [] ops) now) as (self' & H & _); eauto.
Qed.

Lemma rolling_snapshot_is_window_witness :
  exists self', Rolling.snapshot
    (match Rolling.run Rolling.new [Rolling.Add 5 1000000000; Rolling.Add 300000 62000000000]
     with Ok r => r | Err _ => Rolling.new end) 63000000000
    = Ok (self', snapshot_of [300000]).
Proof.
  apply (rolling_snapshot_is_window [Rolling.Add 5 1000000000; Rolling.Add 300000 62000000000]).
  - repeat constructor; unfold valid_lag, MAX_INT64; lia.
  - split; [repeat constructor; unfold valid_lag, MAX_INT64; simpl; lia|unfold MAX_INT64; simpl; lia].
  - vm_compute. reflexivity.
  - unfold valid_lag, MAX_INT64; lia.
  - vm_compute. discriminate.
Defined.
