(* ===== verification/Ledger.v ===== *)
(** The durability ledger of [storage/stats.py]: every accepted record moves
    through the stages queued, buffered, in flight and then durable or uncertain,
    and a lazily cleaned heap finds the oldest record that is not yet persisted.
    The heap is modelled by what [heapq] promises of it, a list in increasing
    order whose head is the smallest entry; tokens are unique, so the comparison
    never reaches the record id. *)
From S2P Require Import Prelude Histogram.

Inductive DurabilityStage : Type :=
| QUEUED | BUFFERED | IN_FLIGHT | DURABLE | UNCERTAIN.
#[export] Instance DurabilityStage_eq_dec : EqDecision DurabilityStage.
Proof. solve_decision. Defined.

Definition stage_value (s : DurabilityStage) : string :=
  match s with
  | QUEUED => "queued" | BUFFERED => "buffered" | IN_FLIGHT => "in_flight"
  | DURABLE => "durable" | UNCERTAIN => "uncertain"
  end.

(** [_nonterminal_stage_counts], a dict with the three nonterminal stages as keys. *)
Record stage_counts : Type := { n_queued : Z; n_buffered : Z; n_in_flight : Z }.

Definition counts_get (c : stage_counts) (s : DurabilityStage) : option Z :=
  match s with
  | QUEUED => Some (n_queued c) | BUFFERED => Some (n_buffered c)
  | IN_FLIGHT => Some (n_in_flight c) | DURABLE | UNCERTAIN => None
  end.

Definition counts_add (c : stage_counts) (s : DurabilityStage) (d : Z) : result stage_counts :=
  match s with
  | QUEUED => Ok {| n_queued := n_queued c + d; n_buffered := n_buffered c; n_in_flight := n_in_flight c |}
  | BUFFERED => Ok {| n_queued := n_queued c; n_buffered := n_buffered c + d; n_in_flight := n_in_flight c |}
  | IN_FLIGHT => Ok {| n_queued := n_queued c; n_buffered := n_buffered c; n_in_flight := n_in_flight c + d |}
  | DURABLE | UNCERTAIN => Err (KeyError (stage_value s))
  end.

Section Ledger.
Context {K : Type} `{Countable K}.

Record _LedgerEntry : Type := {
  record_id : K;
  accepted_monotonic_ns : Z;
  stage : DurabilityStage;
  token : Z
}.

(** An entry of the heap: [(accepted, token, record_id)]. *)
Definition heap_entry : Type := (Z * Z) * K.
Definition heap_leb : heap_entry -> heap_entry -> bool :=
  on_key fst (lex_leb Z.eqb Z.leb Z.leb).
Definition heap_of (e : _LedgerEntry) : heap_entry :=
  ((accepted_monotonic_ns e, token e), record_id e).

Record DurabilityLedger : Type := {
  _entries : gmap K _LedgerEntry;
  _oldest_heap : list heap_entry;
  _next_token : Z;
  _accepted_count : Z;
  _durable_count : Z;
  _uncertain_count : Z;
  _nonterminal_stage_counts : stage_counts;
  _last_observed_monotonic_ns : Z
}.

Record DurabilityAgeCritical : Type := {
  critical_record_id : K;
  critical_record_stage : DurabilityStage;
  critical_accepted_monotonic_ns : Z;
  critical_observed_monotonic_ns : Z;
  critical_age_ns : Z
}.

Definition new : DurabilityLedger :=
  {| _entries := ∅; _oldest_heap := []; _next_token := 0; _accepted_count := 0;
     _durable_count := 0; _uncertain_count := 0;
     _nonterminal_stage_counts := {| n_queued := 0; n_buffered := 0; n_in_flight := 0 |};
     _last_observed_monotonic_ns := 0 |}.

Definition unpersisted_count (self : DurabilityLedger) : Z := Z.of_nat (size (_entries self)).
Definition heap_entry_count (self : DurabilityLedger) : Z := Z.of_nat (length (_oldest_heap self)).

Definition stage_count (self : DurabilityLedger) (s : DurabilityStage) : result Z :=
  match s with
  | DURABLE => Ok (_durable_count self)
  | UNCERTAIN => Ok (_uncertain_count self)
  | _ => match counts_get (_nonterminal_stage_counts self) s with
         | Some n => Ok n | None => Err (KeyError (stage_value s)) end
  end.

Definition register_accepted (self : DurabilityLedger) (rid : K) (accepted_ns : Z)
    : result DurabilityLedger :=
  raise ValueError "duplicate durability record_id"
    when bool_decide (is_Some (_entries self !! rid));;
  let! accepted := _integer 0 "accepted_monotonic_ns" accepted_ns in
  let tok := _next_token self in
  let entry := {| record_id := rid; accepted_monotonic_ns := accepted;
                  stage := QUEUED; token := tok |} in
  let! counts := counts_add (_nonterminal_stage_counts self) QUEUED 1 in
  Ok {| _entries := <[rid := entry]> (_entries self);
        _oldest_heap := insert_sorted heap_leb ((accepted, tok), rid) (_oldest_heap self);
        _next_token := tok + 1;
        _accepted_count := _accepted_count self + 1;
        _durable_count := _durable_count self;
        _uncertain_count := _uncertain_count self;
        _nonterminal_stage_counts := counts;
        _last_observed_monotonic_ns := _last_observed_monotonic_ns self |}.

Definition allowed (from target : DurabilityStage) : bool :=
  match from, target with
  | QUEUED, BUFFERED | BUFFERED, IN_FLIGHT | IN_FLIGHT, DURABLE => true
  | (QUEUED | BUFFERED | IN_FLIGHT), UNCERTAIN => true
  | _, _ => false
  end.

(** [_compact_oldest_heap_if_needed]: [heapify] of the live entries. *)
Definition _compact_oldest_heap_if_needed (entries : gmap K _LedgerEntry)
    (heap : list heap_entry) : list heap_entry :=
  if Z.of_nat (length heap) <=? Z.max 64 (2 * Z.of_nat (size entries)) then heap
  else py_sorted heap_leb ((fun p => heap_of p.2) <$> map_to_list entries).

Definition _transition (self : DurabilityLedger) (rid : K) (target : DurabilityStage)
    : result DurabilityLedger :=
  match _entries self !! rid with
  | None => Err (KeyError "unknown durability record_id")
  | Some entry =>
      raise ValueError ("invalid durability transition " +:+ stage_value (stage entry)
                        +:+ " -> " +:+ stage_value target)
        when negb (allowed (stage entry) target);;
      let! counts := counts_add (_nonterminal_stage_counts self) (stage entry) (-1) in
      if bool_decide (target = DURABLE) || bool_decide (target = UNCERTAIN) then
        let entries := delete rid (_entries self) in
        Ok {| _entries := entries;
              _oldest_heap := _compact_oldest_heap_if_needed entries (_oldest_heap self);
              _next_token := _next_token self;
              _accepted_count := _accepted_count self;
              _durable_count := _durable_count self + (if bool_decide (target = DURABLE) then 1 else 0);
              _uncertain_count := _uncertain_count self + (if bool_decide (target = DURABLE) then 0 else 1);
              _nonterminal_stage_counts := counts;
              _last_observed_monotonic_ns := _last_observed_monotonic_ns self |}
      else
        let! counts := counts_add counts target 1 in
        Ok {| _entries := <[rid := {| record_id := record_id entry;
                                      accepted_monotonic_ns := accepted_monotonic_ns entry;
                                      stage := target; token := token entry |}]> (_entries self);
              _oldest_heap := _oldest_heap self;
              _next_token := _next_token self;
              _accepted_count := _accepted_count self;
              _durable_count := _durable_count self;
              _uncertain_count := _uncertain_count self;
              _nonterminal_stage_counts := counts;
              _last_observed_monotonic_ns := _last_observed_monotonic_ns self |}
  end.

Definition mark_buffered self rid := _transition self rid BUFFERED.
Definition mark_in_flight self rid := _transition self rid IN_FLIGHT.
Definition mark_durable self rid := _transition self rid DURABLE.
Definition mark_uncertain self rid := _transition self rid UNCERTAIN.

(** The loop of [_oldest_entry]: pops entries that are no longer live. *)
Fixpoint drop_stale (entries : gmap K _LedgerEntry) (heap : list heap_entry)
    : option _LedgerEntry * list heap_entry :=
  match heap with
  | [] => (None, [])
  | ((_, tok), rid) :: rest =>
      match entries !! rid with
      | Some current =>
          if token current =? tok then (Some current, heap) else drop_stale entries rest
      | None => drop_stale entries rest
      end
  end.

Definition set_heap (self : DurabilityLedger) (heap : list heap_entry) : DurabilityLedger :=
  {| _entries := _entries self; _oldest_heap := heap; _next_token := _next_token self;
     _accepted_count := _accepted_count self; _durable_count := _durable_count self;
     _uncertain_count := _uncertain_count self;
     _nonterminal_stage_counts := _nonterminal_stage_counts self;
     _last_observed_monotonic_ns := _last_observed_monotonic_ns self |}.
Definition set_last_observed (self : DurabilityLedger) (ns : Z) : DurabilityLedger :=
  {| _entries := _entries self; _oldest_heap := _oldest_heap self;
     _next_token := _next_token self; _accepted_count := _accepted_count self;
     _durable_count := _durable_count self; _uncertain_count := _uncertain_count self;
     _nonterminal_stage_counts := _nonterminal_stage_counts self;
     _last_observed_monotonic_ns := ns |}.

Definition _oldest_entry : M DurabilityLedger (option _LedgerEntry) :=
  fun self => let '(oldest, heap) := drop_stale (_entries self) (_oldest_heap self) in
              (set_heap self heap, Ok oldest).

(** [clock_ns] is what the injected clock returns when it is read. *)
Definition _observe_monotonic_ns (clock_ns : Z) : M DurabilityLedger Z := fun self =>
  match _integer 0 "clock.monotonic_ns()" clock_ns with
  | Err e => (self, Err e)
  | Ok sampled =>
      let observed := Z.max sampled (_last_observed_monotonic_ns self) in
      (set_last_observed self observed, Ok observed)
  end.

Definition oldest_unpersisted_age_ns (clock_ns : Z) : M DurabilityLedger (option Z) :=
  do! oldest := _oldest_entry in
  match oldest with
  | None => mret None
  | Some entry =>
      do! observed := _observe_monotonic_ns clock_ns in
      mret (Some (Z.max 0 (observed - accepted_monotonic_ns entry)))
  end.

Definition classify_critical_age (clock_ns durability_critical_ns : Z)
    : M DurabilityLedger (option DurabilityAgeCritical) :=
  do! threshold := mlift (_integer 0 "durability_critical_ns" durability_critical_ns) in
  do! oldest := _oldest_entry in
  match oldest with
  | None => mret None
  | Some entry =>
      do! observed := _observe_monotonic_ns clock_ns in
      let age := Z.max 0 (observed - accepted_monotonic_ns entry) in
      if age <=? threshold then mret None
      else mret (Some {| critical_record_id := record_id entry;
                         critical_record_stage := stage entry;
                         critical_accepted_monotonic_ns := accepted_monotonic_ns entry;
                         critical_observed_monotonic_ns := observed;
                         critical_age_ns := age |})
  end.

(** One call of the ledger's interface; a call that raises leaves the object
    as the exception finds it. *)
Inductive op : Type :=
| Register (rid : K) (accepted_ns : Z)
| Mark (rid : K) (target : DurabilityStage)
| OldestAge (clock_ns : Z)
| Classify (clock_ns durability_critical_ns : Z).

Definition keep (self : DurabilityLedger) (r : result DurabilityLedger) : DurabilityLedger :=
  match r with Ok self' => self' | Err _ => self end.

Definition step (self : DurabilityLedger) (o : op) : DurabilityLedger :=
  match o with
  | Register rid accepted_ns => keep self (register_accepted self rid accepted_ns)
  | Mark rid target => keep self (_transition self rid target)
  | OldestAge clock_ns => (oldest_unpersisted_age_ns clock_ns self).1
  | Classify clock_ns threshold => (classify_critical_age clock_ns threshold self).1
  end.
End Ledger.
Arguments DurabilityLedger K {_ _}.
Arguments _LedgerEntry K : clear implicits.
Arguments DurabilityAgeCritical K : clear implicits.
Arguments op K : clear implicits.

(** ** Invariant *)
Section LedgerInvariant.
Context {K : Type} `{Countable K}.
Implicit Types (self : DurabilityLedger K) (m : gmap K (_LedgerEntry K)) (e : _LedgerEntry K).

#[local] Instance heap_leb_order : LebOrder (@heap_leb K).
Proof.
  apply on_key_order, lex_leb_order; [intros; apply Z.eqb_eq|intros; lia|apply _|apply _].
Qed.

Definition stage_size m (s : DurabilityStage) : Z :=
  Z.of_nat (size (filter (fun p => stage p.2 = s) m)).

Lemma stage_size_insert m rid e s :
  m !! rid = None ->
  stage_size (<[rid := e]> m) s = stage_size m s + (if decide (stage e = s) then 1 else 0).
Proof.
  intros Hm. unfold stage_size. case_decide as Hs.
  - rewrite map_filter_insert_True by done.
    rewrite map_size_insert_None; [lia|]. apply map_lookup_filter_None. by left.
  - rewrite map_filter_insert_False by done. rewrite delete_id by done. lia.
Qed.

Lemma stage_size_delete m rid e s :
  m !! rid = Some e ->
  stage_size (delete rid m) s = stage_size m s - (if decide (stage e = s) then 1 else 0).
Proof.
  intros Hm. rewrite <- (insert_delete_id m rid e Hm) at 2.
  rewrite stage_size_insert by apply lookup_delete_eq. lia.
Qed.

Lemma stage_size_update m rid e e' s :
  m !! rid = Some e ->
  stage_size (<[rid := e']> m) s
  = stage_size m s - (if decide (stage e = s) then 1 else 0)
    + (if decide (stage e' = s) then 1 else 0).
Proof.
  intros Hm. rewrite <- (insert_delete_eq m rid e').
  rewrite stage_size_insert by apply lookup_delete_eq. by erewrite stage_size_delete.
Qed.

Definition nonterminal (s : DurabilityStage) : Prop := s <> DURABLE /\ s <> UNCERTAIN.

Record ledger_inv self : Prop := {
  li_entry : forall rid e, _entries self !! rid = Some e ->
    record_id e = rid /\ nonterminal (stage e) /\ token e < _next_token self /\
    heap_of e ∈ _oldest_heap self;
  li_sorted : StronglySorted (fun x y => heap_leb x y = true) (_oldest_heap self);
  li_heap : forall h, h ∈ _oldest_heap self -> h.1.2 < _next_token self /\
    forall e, _entries self !! h.2 = Some e -> token e = h.1.2 -> heap_of e = h;
  li_accounting : _accepted_count self
    = _durable_count self + _uncertain_count self + unpersisted_count self;
  li_stages : forall s n, counts_get (_nonterminal_stage_counts self) s = Some n ->
    n = stage_size (_entries self) s;
  li_heap_bound : heap_entry_count self <= 64 + 2 * unpersisted_count self
}.

Lemma new_inv : ledger_inv new.
Proof.
  split; simpl; try done.
  - constructor.
  - intros h Hh. by apply not_elem_of_nil in Hh.
  - by intros [] n [= <-].
Qed.

Lemma counts_add_get c s d c' :
  counts_add c s d = Ok c' ->
  forall s' n, counts_get c' s' = Some n ->
  exists n0, counts_get c s' = Some n0 /\ n = n0 + (if decide (s = s') then d else 0).
Proof.
  intros Hc s' n Hn. destruct s; simpl in Hc; inv_ok; destruct s'; simplify_eq/=;
    eexists; (split; [done|]); lia.
Qed.

Lemma register_inv self rid accepted_ns self' :
  ledger_inv self -> register_accepted self rid accepted_ns = Ok self' -> ledger_inv self'.
Proof.
  intros [Hent Hsort Hheap Hacc Hst Hb] Hreg. unfold register_accepted in Hreg.
  apply raise_if_ok in Hreg as [Hfresh Hreg]. bool_prop.
  apply eq_None_not_Some in Hfresh.
  apply rbind_ok in Hreg as (accepted & _ & Hreg).
  apply rbind_ok in Hreg as (counts & Hc & [= <-]).
  split; cbn [_entries _oldest_heap _next_token _accepted_count _durable_count
    _uncertain_count _nonterminal_stage_counts].
  - intros rid' e [[<- <-]|[Hne He]]%lookup_insert_Some.
    + cbn. split; [done|]. split; [done|]. split; [lia|].
      rewrite (insert_sorted_perm heap_leb). left.
    + destruct (Hent rid' e He) as (H1 & H2 & H3 & H4).
      split; [done|]. split; [done|]. split; [lia|].
      rewrite (insert_sorted_perm heap_leb). by right.
  - apply insert_sorted_sorted; [apply _|done].
  - intros h. rewrite (insert_sorted_perm heap_leb). intros [->|Hh]%elem_of_cons; cbn [fst snd].
    + split; [lia|]. intros e. rewrite lookup_insert_eq. intros [= <-] _. done.
    + destruct (Hheap h Hh) as [H1 H2]. split; [lia|]. intros e.
      destruct (decide (rid = h.2)) as [<-|Hne].
      * rewrite lookup_insert_eq. intros [= <-]. cbn. lia.
      * rewrite lookup_insert_ne by done. apply H2.
  - unfold unpersisted_count in *. cbn [_entries]. rewrite map_size_insert_None by done. lia.
  - intros s n Hn. destruct (counts_add_get _ _ _ _ Hc s n Hn) as (n0 & Hn0 & ->).
    rewrite stage_size_insert by done. cbn [stage]. by rewrite (Hst s n0 Hn0).
  - unfold heap_entry_count, unpersisted_count in *. cbn [_oldest_heap _entries].
    rewrite map_size_insert_None by done. rewrite (insert_sorted_perm heap_leb).
    simpl. lia.
Qed.

Lemma compact_spec m heap h :
  h ∈ _compact_oldest_heap_if_needed m heap ->
  h ∈ heap \/ exists rid e, m !! rid = Some e /\ h = heap_of e.
Proof.
  unfold _compact_oldest_heap_if_needed. case_bool; [by left|].
  rewrite elem_of_py_sorted. intros ([rid e] & -> & Hin)%list_elem_of_fmap.
  right. exists rid, e. by rewrite <- elem_of_map_to_list.
Qed.

Lemma compact_live m heap rid e :
  m !! rid = Some e -> heap_of e ∈ heap -> heap_of e ∈ _compact_oldest_heap_if_needed m heap.
Proof.
  intros Hm Hin. unfold _compact_oldest_heap_if_needed. case_bool; [done|].
  rewrite elem_of_py_sorted. apply list_elem_of_fmap. exists (rid, e).
  by rewrite elem_of_map_to_list.
Qed.

Lemma compact_sorted m heap :
  StronglySorted (fun x y => heap_leb x y = true) heap ->
  StronglySorted (fun x y => heap_leb x y = true) (_compact_oldest_heap_if_needed m heap).
Proof.
  intros Hs. unfold _compact_oldest_heap_if_needed. case_bool; [done|].
  apply py_sorted_sorted, _.
Qed.

Lemma compact_bound m heap :
  Z.of_nat (length (_compact_oldest_heap_if_needed m heap)) <= 64 + 2 * Z.of_nat (size m).
Proof.
  unfold _compact_oldest_heap_if_needed. case_bool; bool_prop; [lia|].
  rewrite py_sorted_length, length_fmap, length_map_to_list. lia.
Qed.

Lemma transition_inv self rid target self' :
  ledger_inv self -> _transition self rid target = Ok self' -> ledger_inv self'.
Proof.
  intros [Hent Hsort Hheap Hacc Hst Hb] Htr. unfold _transition in Htr.
  destruct (_entries self !! rid) as [entry|] eqn:He; [|done].
  destruct (Hent rid entry He) as (Hid & Hnt & Htok & Hin).
  apply raise_if_ok in Htr as [Hal Htr]. bool_prop.
  apply rbind_ok in Htr as (counts & Hc & Htr).
  assert (Hc' : forall s n, counts_get counts s = Some n ->
    n = stage_size (_entries self) s - (if decide (stage entry = s) then 1 else 0)).
  { intros s n Hn. destruct (counts_add_get _ _ _ _ Hc s n Hn) as (n0 & Hn0 & ->).
    rewrite (Hst s n0 Hn0). case_decide; lia. }
  destruct (bool_decide (target = DURABLE) || bool_decide (target = UNCERTAIN)) eqn:Et.
  - injection Htr as <-.
    assert (Hsz : size (delete rid (_entries self)) = pred (size (_entries self)))
      by (apply map_size_delete_Some; by eexists).
    assert (size (_entries self) <> 0%nat).
    { intros E%map_size_empty_inv. by rewrite E, lookup_empty in He. }
    split; cbn [_entries _oldest_heap _next_token _accepted_count _durable_count
      _uncertain_count _nonterminal_stage_counts].
    + intros rid' e [Hne He']%lookup_delete_Some.
      destruct (Hent rid' e He') as (H1 & H2 & H3 & H4).
      do 3 (split; [done|]). eapply compact_live; [|done].
      by rewrite lookup_delete_ne.
    + by apply compact_sorted.
    + intros h Hh. destruct (compact_spec _ _ _ Hh) as [Hold|(rid' & e & He' & ->)].
      * destruct (Hheap h Hold) as [H1 H2]. split; [done|].
        intros e [_ He']%lookup_delete_Some. by apply H2.
      * apply lookup_delete_Some in He' as [Hne He'].
        destruct (Hent rid' e He') as (H1 & _ & H3 & _). split; [done|].
        cbn. intros e2 [_ He2]%lookup_delete_Some _. rewrite H1, He' in He2. by simplify_eq.
    + unfold unpersisted_count in *. cbn [_entries]. rewrite Hsz.
      destruct (bool_decide (target = DURABLE)); lia.
    + intros s n Hn. rewrite (Hc' s n Hn). by erewrite stage_size_delete.
    + apply compact_bound.
  - apply rbind_ok in Htr as (counts2 & Hc2 & [= <-]).
    apply orb_false_iff in Et as [Et1 Et2]. bool_prop.
    split; cbn [_entries _oldest_heap _next_token _accepted_count _durable_count
      _uncertain_count _nonterminal_stage_counts].
    + intros rid' e [[<- <-]|[Hne He']]%lookup_insert_Some; [|by apply Hent].
      cbn. done.
    + done.
    + intros h Hh. destruct (Hheap h Hh) as [H1 H2]. split; [done|]. intros e.
      destruct (decide (rid = h.2)) as [E|Hne].
      * rewrite <- E, lookup_insert_eq. intros [= <-]. cbn. rewrite E in He.
        apply (H2 entry He).
      * rewrite lookup_insert_ne by done. apply H2.
    + unfold unpersisted_count in *. cbn [_entries].
      by rewrite map_size_insert_Some by (by eexists).
    + intros s n Hn. destruct (counts_add_get _ _ _ _ Hc2 s n Hn) as (n0 & Hn0 & ->).
      rewrite (Hc' s n0 Hn0). by erewrite stage_size_update.
    + unfold heap_entry_count, unpersisted_count in *. cbn [_oldest_heap _entries].
      by rewrite map_size_insert_Some by (by eexists).
Qed.

Lemma drop_stale_spec m heap o heap' :
  drop_stale m heap = (o, heap') ->
  (exists dropped, heap = dropped ++ heap' /\
     forall h, h ∈ dropped -> forall e, m !! h.2 = Some e -> token e <> h.1.2) /\
  match o with
  | None => heap' = []
  | Some e => exists a rid rest, heap' = ((a, token e), rid) :: rest /\ m !! rid = Some e
  end.
Proof.
  revert o heap'. induction heap as [|[[a tok] rid] heap IH]; intros o heap' Hd; simpl in Hd.
  { inv_ok. split; [|done]. exists []. split; [done|]. intros h Hh. by apply not_elem_of_nil in Hh. }
  assert (Hskip : (forall e, m !! rid = Some e -> token e <> tok) ->
    drop_stale m heap = (o, heap') ->
    exists dropped, ((a, tok), rid) :: heap = dropped ++ heap' /\
     forall h, h ∈ dropped -> forall e, m !! h.2 = Some e -> token e <> h.1.2).
  { intros Hst Hd'. destruct (IH o heap' Hd') as [(dropped & -> & Hdr) _].
    exists (((a, tok), rid) :: dropped). split; [done|].
    intros h [->|Hh]%elem_of_cons; [done|by apply Hdr]. }
  destruct (m !! rid) as [current|] eqn:Em.
  - destruct (Z.eqb_spec (token current) tok) as [<-|Hne].
    + inv_ok. split.
      * exists []. split; [done|]. intros h Hh. by apply not_elem_of_nil in Hh.
      * eauto.
    + split; [apply Hskip; [by intros ? [= <-]|done]|by apply (IH o heap')].
  - split; [by apply Hskip|by apply (IH o heap')].
Qed.

(** After [_oldest_entry] the head of the heap is the oldest live record. *)
Lemma oldest_entry_spec self self' r :
  ledger_inv self -> _oldest_entry self = (self', r) ->
  ledger_inv self' /\ _entries self' = _entries self /\
  _last_observed_monotonic_ns self' = _last_observed_monotonic_ns self /\
  exists o, r = Ok o /\
  match o with
  | None => _entries self = ∅
  | Some e => _entries self !! record_id e = Some e /\
      forall rid' e', _entries self !! rid' = Some e' ->
        accepted_monotonic_ns e < accepted_monotonic_ns e' \/
        (accepted_monotonic_ns e = accepted_monotonic_ns e' /\ token e <= token e')
  end.
Proof.
  intros [Hent Hsort Hheap Hacc Hst Hb] Ho. unfold _oldest_entry in Ho.
  destruct (drop_stale (_entries self) (_oldest_heap self)) as [o heap'] eqn:Ed.
  injection Ho as <- <-.
  destruct (drop_stale_spec _ _ _ _ Ed) as [(dropped & Hheap' & Hdr) Hhead].
  assert (Hlive : forall rid e, _entries self !! rid = Some e -> heap_of e ∈ heap').
  { intros rid e He. destruct (Hent rid e He) as (Hid & _ & _ & Hin).
    rewrite Hheap' in Hin. apply elem_of_app in Hin as [Hin|Hin]; [|done].
    exfalso. apply (Hdr (heap_of e) Hin e); cbn; [by rewrite Hid|done]. }
  assert (Hsort' : StronglySorted (fun x y => heap_leb x y = true) heap').
  { rewrite Hheap' in Hsort. clear -Hsort. induction dropped as [|d dropped IH]; [done|].
    apply IH. by inversion Hsort. }
  split; [|split; [done|split; [done|]]].
  { split; cbn [set_heap _entries _oldest_heap _next_token _accepted_count _durable_count
      _uncertain_count _nonterminal_stage_counts]; try done.
    - intros rid e He. destruct (Hent rid e He) as (H1 & H2 & H3 & _). eauto 6.
    - intros h Hh. apply Hheap. rewrite Hheap'. apply elem_of_app. by right.
    - unfold heap_entry_count, unpersisted_count in *. cbn [set_heap _oldest_heap _entries].
      rewrite Hheap', length_app in Hb. lia. }
  exists o. split; [done|]. destruct o as [e|].
  - destruct Hhead as (a & rid & rest & -> & He).
    assert (Hin : ((a, token e), rid) ∈ _oldest_heap self).
    { rewrite Hheap'. apply elem_of_app. right. left. }
    destruct (Hheap _ Hin) as [_ Heq]. specialize (Heq e He eq_refl).
    unfold heap_of in Heq. injection Heq as <- Hrid. rewrite Hrid. split; [done|].
    intros rid' e' He'. specialize (Hlive rid' e' He').
    apply StronglySorted_inv in Hsort' as [_ Hall].
    apply elem_of_cons in Hlive as [Heq|Hlive].
    + unfold heap_of in Heq. injection Heq as -> -> _. lia.
    + pose proof (proj1 (Forall_forall _ _) Hall _ Hlive) as Hle.
      unfold heap_leb, on_key, lex_leb, heap_of in Hle. cbn in Hle.
      destruct (Z.eqb_spec (accepted_monotonic_ns e) (accepted_monotonic_ns e')); lia.
  - subst heap'. apply map_empty. intros rid.
    destruct (_entries self !! rid) as [e|] eqn:He; [|done].
    exfalso. apply (not_elem_of_nil (heap_of e)). by eapply Hlive.
Qed.

Lemma set_last_observed_inv self ns : ledger_inv self -> ledger_inv (set_last_observed self ns).
Proof. by intros [? ? ? ? ? ?]. Qed.

Lemma observe_inv clock_ns self self' r :
  ledger_inv self -> _observe_monotonic_ns clock_ns self = (self', r) ->
  ledger_inv self' /\ _entries self' = _entries self.
Proof.
  intros Hinv Ho. unfold _observe_monotonic_ns in Ho.
  destruct (_integer 0 _ clock_ns); inv_ok; split; try done. by apply set_last_observed_inv.
Qed.

Lemma step_inv self o : ledger_inv self -> ledger_inv (step self o).
Proof.
  intros Hinv. destruct o as [rid a|rid target|clock|clock threshold]; cbn [step].
  - destruct (register_accepted self rid a) eqn:E; [by eapply register_inv|done].
  - destruct (_transition self rid target) eqn:E; [by eapply transition_inv|done].
  - unfold oldest_unpersisted_age_ns, mbind.
    destruct (_oldest_entry self) as [self1 r] eqn:E1.
    destruct (oldest_entry_spec _ _ _ Hinv E1) as (Hinv1 & _ & _ & o & -> & _).
    destruct o as [e|]; [|done]. destruct (_observe_monotonic_ns clock self1) as [self2 r2] eqn:E2.
    destruct (observe_inv _ _ _ _ Hinv1 E2) as [Hinv2 _]. by destruct r2.
  - unfold classify_critical_age, mbind, mlift.
    destruct (_integer 0 _ threshold); [|done].
    destruct (_oldest_entry self) as [self1 r] eqn:E1.
    destruct (oldest_entry_spec _ _ _ Hinv E1) as (Hinv1 & _ & _ & o & -> & _).
    destruct o as [e|]; [|done]. destruct (_observe_monotonic_ns clock self1) as [self2 r2] eqn:E2.
    destruct (observe_inv _ _ _ _ Hinv1 E2) as [Hinv2 _]. destruct r2; [|done]. by case_bool.
Qed.

Definition reachable self : Prop := exists ops, self = fold_left step ops new.

Lemma reachable_inv self : reachable self -> ledger_inv self.
Proof.
  intros [ops ->]. assert (G : forall self0, ledger_inv self0 -> ledger_inv (fold_left step ops self0)).
  { induction ops as [|o ops IH]; intros self0 H0; [done|]. apply IH, step_inv, H0. }
  apply G, new_inv.
Qed.

(** C33: after any sequence of calls, also ones that raise, every accepted
    record is counted exactly once as durable, uncertain or still unpersisted,
    the counter of each nonterminal stage is the number of records in it, and
    the lazily cleaned heap holds at most 64 entries more than twice the
    records that are live. *)
Theorem ledger_accounting (ops : list (op K)) :
  let self := fold_left step ops new in
  _accepted_count self = _durable_count self + _uncertain_count self + unpersisted_count self /\
  (forall s, nonterminal s -> stage_count self s = Ok (stage_size (_entries self) s)) /\
  heap_entry_count self <= 64 + 2 * unpersisted_count self.
Proof.
  intros self. destruct (reachable_inv self) as [_ _ _ Hacc Hst Hb]; [by exists ops|].
  split; [done|]. split; [|done].
  intros s [H1 H2]. specialize (Hst s). destruct s; try done; cbn in *; f_equal; eauto.
Qed.

(** In every reachable state [classify_critical_age] raises nothing for a
    valid clock, never changes which records are unpersisted, and reports a
    record exactly when one of them is older than the threshold; the record it
    reports is the oldest one, with its true stage and age. *)
Theorem classify_critical_age_exact (self : DurabilityLedger K) (clock_ns threshold : Z) :
  reachable self -> 0 <= clock_ns <= MAX_INT64 -> 0 <= threshold <= MAX_INT64 ->
  let observed := Z.max clock_ns (_last_observed_monotonic_ns self) in
  exists self' r, classify_critical_age clock_ns threshold self = (self', Ok r) /\
    _entries self' = _entries self /\
    match r with
    | None => forall rid e, _entries self !! rid = Some e ->
                observed - accepted_monotonic_ns e <= threshold
    | Some c => exists e, _entries self !! critical_record_id c = Some e /\
        critical_record_stage c = stage e /\
        critical_accepted_monotonic_ns c = accepted_monotonic_ns e /\
        critical_observed_monotonic_ns c = observed /\
        critical_age_ns c = observed - accepted_monotonic_ns e /\
        critical_age_ns c > threshold /\
        forall rid' e', _entries self !! rid' = Some e' ->
          accepted_monotonic_ns e <= accepted_monotonic_ns e'
    end.
Proof.
  intros Hr Hclock Hth observed. apply reachable_inv in Hr.
  unfold classify_critical_age, mbind, mlift. rewrite integer_ok by done.
  destruct (_oldest_entry self) as [self1 r] eqn:E1.
  destruct (oldest_entry_spec _ _ _ Hr E1) as (Hinv1 & Hent & Hlast & o & -> & Ho).
  destruct o as [e|].
  - destruct Ho as [He Hmin]. unfold _observe_monotonic_ns. rewrite integer_ok by done.
    rewrite Hlast. fold observed. case_bool; bool_prop; (do 2 eexists; split; [done|]);
      (split; [done|]).
    + intros rid' e' He'. specialize (Hmin rid' e' He'). lia.
    + exists e. cbn. repeat (split; [done|]). split; [lia|]. split; [lia|].
      intros rid' e' He'. specialize (Hmin rid' e' He'). lia.
  - do 2 eexists. split; [done|]. split; [done|]. intros rid e He.
    by rewrite Ho, lookup_empty in He.
Qed.
End LedgerInvariant.

Lemma classify_critical_age_exact_witness :
  let self := fold_left step [Register 7 100; Register 9 50; Mark 7 BUFFERED] (new (K := Z)) in
  exists self' r, classify_critical_age 1000 500 self = (self', Ok r) /\
    _entries self' = _entries self.
Proof.
  intros self.
  destruct (classify_critical_age_exact self 1000 500) as (self' & r & H1 & H2 & _).
  - by exists [Register 7 100; Register 9 50; Mark 7 BUFFERED].
  - unfold MAX_INT64. lia.
  - unfold MAX_INT64. lia.
  - by exists self', r.
Defined.
