(* ===== verification/PyDecimal.v ===== *)
(** Python's [decimal.Decimal], as far as the program uses it: finite numbers
    [coef * 10^expo], exact comparison, arithmetic rounded half-even to the
    precision of the context, [as_integer_ratio].  Negative zero is identified
    with zero (no modelled operation tells them apart) and the exponent limits
    of the context (plus or minus 999999) are not modelled.  The lemmas give the
    conditions under which a rounded operation is exact; [dval] is the rational
    number a decimal denotes. *)
From S2P Require Import Prelude.
From Stdlib Require Export QArith Qpower Qminmax.
Open Scope Z_scope.

Record dec : Type := Dec { coef : Z; expo : Z }.
#[export] Instance dec_eq_dec : EqDecision dec.
Proof. solve_decision. Defined.

(** [NonFinite] stands for the infinities and the NaNs. *)
Inductive decimal : Type := Finite (d : dec) | NonFinite.

(** [DecimalInput = int | Decimal] *)
Inductive DecimalInput : Type := DInt (n : Z) | DDec (d : decimal).

Definition dec_of_int (n : Z) : dec := Dec n 0.

(** ** Digits *)
Fixpoint ndigits_loop (fuel : nat) (n : Z) : Z :=
  match fuel with
  | O => 1
  | S fuel => if n <? 10 then 1 else 1 + ndigits_loop fuel (n / 10)
  end.

(** [len(str(n))] for a natural number: the number of decimal digits. *)
Definition ndigits (n : Z) : Z := ndigits_loop (S (Z.to_nat (Z.log2 (Z.abs n)))) (Z.abs n).

Lemma ndigits_loop_spec fuel n :
  0 <= n < 2 ^ Z.of_nat fuel \/ (0 <= n < 10) ->
  n < 10 ^ ndigits_loop fuel n /\ 1 <= ndigits_loop fuel n /\
  (n <> 0 -> 10 ^ (ndigits_loop fuel n - 1) <= n).
Proof.
  revert n. induction fuel as [|fuel IH]; intros n Hn; simpl ndigits_loop.
  { simpl in Hn. split; [lia|]. split; [lia|]. intros. simpl. lia. }
  destruct (Z.ltb_spec n 10) as [Hlt|Hge].
  { split; [lia|]. split; [lia|]. intros. simpl. lia. }
  destruct Hn as [Hn|]; [|lia].
  rewrite Nat2Z.inj_succ, Z.pow_succ_r in Hn by lia.
  destruct (IH (n / 10)) as (H1 & H2 & H3).
  { left. split; [apply Z.div_pos; lia|]. apply Z.div_lt_upper_bound; lia. }
  set (k := ndigits_loop fuel (n / 10)) in *.
  split; [|split; [lia|]].
  - rewrite Z.pow_add_r by lia. change (10 ^ 1) with 10.
    pose proof (Z.mul_succ_div_gt n 10 ltac:(lia)). lia.
  - intros _. replace (1 + k - 1) with (1 + (k - 1)) by lia.
    rewrite Z.pow_add_r by lia. change (10 ^ 1) with 10.
    assert (n / 10 <> 0).
    { intros E. apply Z.div_small_iff in E; lia. }
    specialize (H3 H). pose proof (Z.mul_div_le n 10 ltac:(lia)). lia.
Qed.

Lemma ndigits_spec n :
  Z.abs n < 10 ^ ndigits n /\ 1 <= ndigits n /\ (n <> 0 -> 10 ^ (ndigits n - 1) <= Z.abs n).
Proof.
  unfold ndigits. destruct (Z.eq_dec n 0) as [->|Hn]; [simpl; lia|].
  destruct (ndigits_loop_spec (S (Z.to_nat (Z.log2 (Z.abs n)))) (Z.abs n)) as (H1 & H2 & H3).
  - left. split; [lia|]. rewrite Nat2Z.inj_succ, Z2Nat.id by apply Z.log2_nonneg.
    apply Z.log2_spec. lia.
  - split; [done|]. split; [done|]. intros _. apply H3. lia.
Qed.

Lemma ndigits_pos n : 1 <= ndigits n.
Proof. apply ndigits_spec. Qed.

Lemma abs_lt_pow_ndigits n k : ndigits n <= k -> Z.abs n < 10 ^ k.
Proof.
  intros H. destruct (ndigits_spec n) as (H1 & H2 & _).
  eapply Z.lt_le_trans; [exact H1|]. apply Z.pow_le_mono_r; lia.
Qed.

(** ** Rounding to the context *)
Definition round_half_even (n pow : Z) : Z :=
  let q := n / pow in
  let r := n mod pow in
  if 2 * r <? pow then q
  else if pow <? 2 * r then q + 1
  else if Z.even q then q else q + 1.

(** [Decimal._fix]: at most [prec] digits, rounded half-even. *)
Definition fix_prec (prec : Z) (d : dec) : dec :=
  if Z.abs (coef d) <? 10 ^ prec then d
  else
    let drop := ndigits (coef d) - prec in
    let c := round_half_even (Z.abs (coef d)) (10 ^ drop) in
    if c <? 10 ^ prec then Dec (Z.sgn (coef d) * c) (expo d + drop)
    else Dec (Z.sgn (coef d) * (c / 10)) (expo d + drop + 1).

(** ** Arithmetic under a context of precision [prec] *)
Definition scaled (d : dec) (e : Z) : Z := coef d * 10 ^ (expo d - e).

Definition dadd (prec : Z) (a b : dec) : dec :=
  let e := Z.min (expo a) (expo b) in
  fix_prec prec (Dec (scaled a e + scaled b e) e).

Definition dsub (prec : Z) (a b : dec) : dec :=
  let e := Z.min (expo a) (expo b) in
  fix_prec prec (Dec (scaled a e - scaled b e) e).

Definition dmul (prec : Z) (a b : dec) : dec :=
  fix_prec prec (Dec (coef a * coef b) (expo a + expo b)).

(** The end of an exact division: drop zeros towards the ideal exponent. *)
Fixpoint strip_zeros (fuel : nat) (c e ideal : Z) : dec :=
  match fuel with
  | O => Dec c e
  | S fuel =>
      if (e <? ideal) && (c mod 10 =? 0) then strip_zeros fuel (c / 10) (e + 1) ideal
      else Dec c e
  end.

(** [Decimal.__truediv__] for a positive divisor and a non-negative dividend. *)
Definition ddiv (prec : Z) (a b : dec) : dec :=
  let ideal := expo a - expo b in
  if coef a =? 0 then fix_prec prec (Dec 0 ideal)
  else
    let shift := ndigits (coef b) - ndigits (coef a) + prec + 1 in
    let e := ideal - shift in
    let n := if 0 <=? shift then coef a * 10 ^ shift else coef a in
    let d := if 0 <=? shift then coef b else coef b * 10 ^ (- shift) in
    let q := n / d in
    if n mod d =? 0 then fix_prec prec (strip_zeros (Z.to_nat (ideal - e)) q e ideal)
    else fix_prec prec (Dec (if q mod 5 =? 0 then q + 1 else q) e).

(** ** Exact comparison *)
Definition dleb (a b : dec) : bool :=
  let e := Z.min (expo a) (expo b) in scaled a e <=? scaled b e.
Definition dltb (a b : dec) : bool := negb (dleb b a).
Definition deqb (a b : dec) : bool := dleb a b && dleb b a.
Definition dzero : dec := Dec 0 0.
Definition done_ : dec := Dec 1 0.

(** The builtins: [min] and [max] keep the first of equal arguments. *)
Definition dmin (a b : dec) : dec := if dltb b a then b else a.
Definition dmax (a b : dec) : dec := if dltb a b then b else a.

(** [Decimal.as_integer_ratio]: numerator and denominator in lowest terms. *)
Definition as_integer_ratio (d : dec) : Z * Z :=
  if 0 <=? expo d then (coef d * 10 ^ expo d, 1)
  else
    let den := 10 ^ (- expo d) in
    let g := Z.gcd (coef d) den in
    (coef d / g, den / g).

(** ** The rational denoted *)
Definition dval (d : dec) : Q := (inject_Z (coef d) * Qpower 10 (expo d))%Q.

Lemma ten_nonzero : ~ (10 == 0)%Q.
Proof. discriminate. Qed.

Lemma Qpower_10_pos e : (0 < Qpower 10 e)%Q.
Proof. by apply Qpower_0_lt. Qed.

Lemma Qpower_10_Z k : 0 <= k -> (Qpower 10 k == inject_Z (10 ^ k))%Q.
Proof. intros Hk. change 10%Q with (inject_Z 10). by rewrite <- Zpower_Qpower. Qed.

Lemma scaled_val d e : e <= expo d -> (dval d == inject_Z (scaled d e) * Qpower 10 e)%Q.
Proof.
  intros He. unfold dval, scaled. rewrite inject_Z_mult, <- Qpower_10_Z by lia.
  rewrite <- Qmult_assoc, <- Qpower_plus by apply ten_nonzero.
  by replace (expo d - e + e) with (expo d) by lia.
Qed.

Lemma dleb_spec a b : dleb a b = true <-> (dval a <= dval b)%Q.
Proof.
  unfold dleb. set (e := Z.min _ _).
  rewrite (scaled_val a e), (scaled_val b e) by lia.
  rewrite Qmult_le_r by apply Qpower_10_pos. rewrite <- Zle_Qle. apply Z.leb_le.
Qed.

Lemma dltb_spec a b : dltb a b = true <-> (dval a < dval b)%Q.
Proof.
  unfold dltb. rewrite negb_true_iff. split; intros H.
  - apply Qnot_le_lt. rewrite <- dleb_spec. congruence.
  - apply not_true_is_false. rewrite dleb_spec. by apply Qlt_not_le.
Qed.

Lemma dltb_false a b : dltb a b = false <-> (dval b <= dval a)%Q.
Proof. unfold dltb. rewrite negb_false_iff. apply dleb_spec. Qed.

Lemma dval_int n : (dval (dec_of_int n) == inject_Z n)%Q.
Proof. unfold dval. simpl. ring. Qed.

(** ** Exact operations

    [width] is what [_calculation_precision] charges a decimal for: its digits
    plus the size of its exponent. *)
Definition width (d : dec) : Z := ndigits (coef d) + Z.abs (expo d).

Lemma width_pos d : 1 <= width d.
Proof. unfold width. pose proof (ndigits_pos (coef d)). lia. Qed.

Lemma fix_prec_exact prec d : Z.abs (coef d) < 10 ^ prec -> fix_prec prec d = d.
Proof. intros H. unfold fix_prec. by rewrite (proj2 (Z.ltb_lt _ _) H). Qed.

Lemma abs_mul_lt a b m n : Z.abs a < m -> Z.abs b < n -> Z.abs (a * b) < m * n.
Proof. intros. rewrite Z.abs_mul. nia. Qed.

Lemma scaled_bound d e k :
  e <= expo d -> ndigits (coef d) + (expo d - e) <= k -> Z.abs (scaled d e) < 10 ^ k.
Proof.
  intros He Hk. unfold scaled. rewrite Z.abs_mul.
  rewrite (Z.abs_eq (10 ^ _)) by (apply Z.pow_nonneg; lia).
  pose proof (abs_lt_pow_ndigits (coef d) _ (Z.le_refl _)).
  pose proof (ndigits_pos (coef d)).
  eapply Z.lt_le_trans; [apply Z.mul_lt_mono_pos_r; [|eassumption]|].
  - apply Z.pow_pos_nonneg; lia.
  - rewrite <- Z.pow_add_r by lia. apply Z.pow_le_mono_r; lia.
Qed.

Lemma pow10_double k : 0 <= k -> 2 * 10 ^ k <= 10 ^ (k + 1).
Proof.
  intros. rewrite Z.pow_add_r by lia. change (10 ^ 1) with 10.
  pose proof (Z.pow_pos_nonneg 10 k ltac:(lia)). lia.
Qed.

(** The aligned coefficients of two decimals fit [width a + width b - 1] digits. *)
Lemma scaled_sum_bound a b prec s t :
  width a + width b <= prec -> Z.abs s <= 1 -> Z.abs t <= 1 ->
  let e := Z.min (expo a) (expo b) in
  Z.abs (s * scaled a e + t * scaled b e) < 10 ^ prec.
Proof.
  intros Hw Hs Ht e. unfold width in Hw.
  pose proof (ndigits_pos (coef a)). pose proof (ndigits_pos (coef b)).
  pose proof (scaled_bound a e (prec - 1) ltac:(lia) ltac:(lia)) as Ha.
  pose proof (scaled_bound b e (prec - 1) ltac:(lia) ltac:(lia)) as Hb.
  pose proof (pow10_double (prec - 1) ltac:(lia)) as Hd.
  replace (prec - 1 + 1) with prec in Hd by lia.
  assert (forall u x, Z.abs u <= 1 -> Z.abs (u * x) <= Z.abs x) as G
    by (intros; rewrite Z.abs_mul; nia).
  pose proof (G s (scaled a e) Hs). pose proof (G t (scaled b e) Ht). lia.
Qed.

Lemma dadd_exact prec a b :
  width a + width b <= prec -> (dval (dadd prec a b) == dval a + dval b)%Q.
Proof.
  intros H. pose proof (scaled_sum_bound a b prec 1 1 H ltac:(lia) ltac:(lia)) as Hb.
  unfold dadd. cbv zeta in *. rewrite !Z.mul_1_l in Hb.
  rewrite fix_prec_exact by done. set (e := Z.min _ _) in *.
  rewrite (scaled_val a e), (scaled_val b e) by lia. unfold dval. cbn [coef expo].
  rewrite inject_Z_plus. ring.
Qed.

Lemma dsub_exact prec a b :
  width a + width b <= prec -> (dval (dsub prec a b) == dval a - dval b)%Q.
Proof.
  intros H. pose proof (scaled_sum_bound a b prec 1 (-1) H ltac:(lia) ltac:(lia)) as Hb.
  unfold dsub. cbv zeta in *. rewrite !Z.mul_1_l in Hb.
  replace (scaled a (Z.min (expo a) (expo b)) + -1 * scaled b (Z.min (expo a) (expo b)))
    with (scaled a (Z.min (expo a) (expo b)) - scaled b (Z.min (expo a) (expo b))) in Hb by lia.
  rewrite fix_prec_exact by done. set (e := Z.min _ _) in *.
  rewrite (scaled_val a e), (scaled_val b e) by lia. unfold dval. cbn [coef expo].
  unfold Qminus. rewrite <- Z.add_opp_r, inject_Z_plus, inject_Z_opp. ring.
Qed.

Lemma dmul_coef_bound prec a b :
  ndigits (coef a) + ndigits (coef b) <= prec -> Z.abs (coef a * coef b) < 10 ^ prec.
Proof.
  intros H. pose proof (ndigits_pos (coef a)). pose proof (ndigits_pos (coef b)).
  eapply Z.lt_le_trans.
  - apply abs_mul_lt; apply abs_lt_pow_ndigits, Z.le_refl.
  - rewrite <- Z.pow_add_r by lia. apply Z.pow_le_mono_r; lia.
Qed.

Lemma dmul_repr prec a b :
  ndigits (coef a) + ndigits (coef b) <= prec ->
  dmul prec a b = Dec (coef a * coef b) (expo a + expo b).
Proof. intros H. apply fix_prec_exact. cbn [coef]. by apply dmul_coef_bound. Qed.

Lemma dmul_exact prec a b :
  ndigits (coef a) + ndigits (coef b) <= prec -> (dval (dmul prec a b) == dval a * dval b)%Q.
Proof.
  intros H. rewrite dmul_repr by done. unfold dval. cbn [coef expo].
  rewrite inject_Z_mult, Qpower_plus by apply ten_nonzero. ring.
Qed.

(** Dropping the zeros of an exact quotient keeps its value and ends at or
    above the exponent [low] below which the coefficient is still divisible. *)
Lemma strip_zeros_spec fuel c e ideal p low :
  0 < p -> low <= ideal -> ideal - e <= Z.of_nat fuel -> e <= ideal ->
  (e <= low -> c = p * 10 ^ (low - e)) -> (low <= e -> c * 10 ^ (e - low) = p) ->
  let d := strip_zeros fuel c e ideal in
  low <= expo d <= ideal /\ coef d * 10 ^ (expo d - low) = p.
Proof.
  intros Hp Hlow. revert c e. induction fuel as [|fuel IH]; intros c e Hf He H1 H2; simpl.
  { split; [simpl; lia|]. apply H2. lia. }
  destruct (Z.ltb_spec e ideal) as [Hlt|Hge]; cbn [andb].
  2:{ split; [simpl; lia|]. apply H2. simpl. lia. }
  destruct (Z.eqb_spec (c mod 10) 0) as [Hm|Hm].
  - assert (Hc : c = 10 * (c / 10)) by (pose proof (Z.div_mod c 10 ltac:(lia)); lia).
    apply IH; [lia|lia| |].
    + intros Hle. specialize (H1 ltac:(lia)).
      replace (low - e) with (1 + (low - (e + 1))) in H1 by lia.
      rewrite Z.pow_add_r in H1 by lia. change (10 ^ 1) with 10 in H1. lia.
    + intros Hle. destruct (Z.le_gt_cases low e) as [Hle'|Hgt].
      * specialize (H2 Hle'). replace (e + 1 - low) with (1 + (e - low)) by lia.
        rewrite Z.pow_add_r by lia. change (10 ^ 1) with 10. lia.
      * assert (e = low - 1) as -> by lia. specialize (H1 ltac:(lia)).
        replace (low - (low - 1)) with 1 in H1 by lia. change (10 ^ 1) with 10 in H1.
        replace (low - 1 + 1 - low) with 0 by lia. change (10 ^ 0) with 1. lia.
  - cbn [coef expo]. destruct (Z.le_gt_cases low e) as [Hle|Hgt]; [split; [lia|by apply H2]|].
    exfalso. apply Hm. rewrite H1 by lia.
    replace (low - e) with (1 + (low - e - 1)) by lia.
    rewrite Z.pow_add_r by lia. change (10 ^ 1) with 10.
    replace (p * (10 * 10 ^ (low - e - 1))) with (p * 10 ^ (low - e - 1) * 10) by lia.
    apply Z_mod_mult.
Qed.

(** Dividing by [10^9] is exact when the dividend fits the precision. *)
Lemma ddiv_billion prec a :
  0 <= coef a -> ndigits (coef a) <= prec ->
  let d := ddiv prec a (dec_of_int 1000000000) in
  (dval d == dval a / inject_Z 1000000000)%Q /\
  expo a - 9 <= expo d <= expo a /\ 0 <= coef d <= coef a.
Proof.
  intros Ha Hp. pose proof (ndigits_pos (coef a)) as Hn. unfold ddiv.
  cbn [coef expo dec_of_int]. rewrite Z.sub_0_r.
  destruct (Z.eqb_spec (coef a) 0) as [E|E].
  { rewrite fix_prec_exact by (cbn; apply Z.pow_pos_nonneg; lia). cbn zeta. cbn [coef expo].
    split; [|lia]. unfold dval. cbn [coef expo]. rewrite E. by rewrite !Qmult_0_l. }
  change (ndigits 1000000000) with 10.
  set (shift := 10 - ndigits (coef a) + prec + 1).
  assert (Hshift : 11 <= shift) by lia.
  rewrite (proj2 (Z.leb_le 0 shift)) by lia. cbv zeta.
  assert (Hdiv : coef a * 10 ^ shift = coef a * 10 ^ (shift - 9) * 1000000000).
  { replace shift with (shift - 9 + 9) at 1 by lia.
    rewrite Z.pow_add_r by lia. change (10 ^ 9) with 1000000000. lia. }
  rewrite Hdiv, Z_mod_mult, Z.eqb_refl, Z.div_mul by lia.
  destruct (strip_zeros_spec (Z.to_nat (expo a - (expo a - shift))) (coef a * 10 ^ (shift - 9))
    (expo a - shift) (expo a) (coef a) (expo a - 9)) as [He Hc]; try lia.
  { intros _. do 2 f_equal. lia. }
  set (d := strip_zeros _ _ _ _) in *.
  assert (Hd : 0 <= coef d <= coef a).
  { pose proof (Z.pow_pos_nonneg 10 (expo d - (expo a - 9)) ltac:(lia) ltac:(lia)). nia. }
  rewrite fix_prec_exact.
  2:{ pose proof (abs_lt_pow_ndigits (coef a) prec Hp). lia. }
  split; [|lia]. unfold dval at 2. rewrite <- Hc, inject_Z_mult, <- Qpower_10_Z by lia.
  unfold dval. transitivity (inject_Z (coef d) * (Qpower 10 (expo d - (expo a - 9)) *
    Qpower 10 (expo a)) / inject_Z 1000000000)%Q; [|field; discriminate].
  rewrite <- Qpower_plus by apply ten_nonzero.
  replace (expo d - (expo a - 9) + expo a) with (expo d + 9) by lia.
  rewrite Qpower_plus by apply ten_nonzero. rewrite (Qpower_10_Z 9) by lia.
  change (inject_Z (10 ^ 9)) with (inject_Z 1000000000). field.
Qed.
