(* ===== verification/RateLimit.v ===== *)
(** The token buckets of [network/rate_limit.py] and the registry that keys them
    by exchange, quota group and endpoint.  A bucket keeps exact decimals; the
    clock is what the injected clock returns, passed to each call that reads it. *)
From S2P Require Import Prelude PyDecimal.

Definition BudgetKey : Type := (string * string) * string.
Definition _NANOSECONDS_PER_SECOND : dec := dec_of_int 1000000000.

(** ** Input checks *)
Definition _decimal_input (field : string) (allow_zero : bool) (value : DecimalInput)
    : result dec :=
  let normalized := match value with DInt n => Finite (dec_of_int n) | DDec d => d end in
  match normalized with
  | NonFinite => Err (ValueError (field +:+ " must be finite and non-negative"))
  | Finite d =>
      raise ValueError (field +:+ " must be finite and non-negative") when dltb d dzero;;
      raise ValueError (field +:+ " must be positive")
        when negb allow_zero && deqb d dzero;;
      Ok d
  end.

Definition _nonnegative_nanoseconds (field : string) (value : Z) : result Z :=
  raise ValueError (field +:+ " must be a non-negative integer") when value <? 0;;
  Ok value.

Definition _calculation_precision (values : list dec) (integer_digits : Z) : Z :=
  let decimal_digits := zsum ((fun v => ndigits (coef v) + Z.abs (expo v)) <$> values) in
  Z.max 64 (decimal_digits + integer_digits + 16).

Definition nonempty_part (s : string) : bool := negb (String.eqb s "").

Definition _validate_key (key : BudgetKey) : result BudgetKey :=
  let '((exchange, quota_group), endpoint) := key in
  raise ValueError "budget key must contain non-empty exchange, quota group, and endpoint"
    when negb (nonempty_part exchange && nonempty_part quota_group && nonempty_part endpoint);;
  Ok key.

(** ** [TokenBucket] *)
Record TokenBucket : Type := {
  _hard_capacity : dec;
  _capacity : dec;
  _hard_refill_per_second : dec;
  _refill_per_second : dec;
  _tokens : dec;
  _last_refill_ns : Z
}.
#[export] Instance TokenBucket_eq_dec : EqDecision TokenBucket.
Proof. solve_decision. Defined.

Definition bucket_new (capacity refill_per_second : DecimalInput) (clock_ns : Z)
    : result TokenBucket :=
  let! hard_capacity := _decimal_input "capacity" false capacity in
  let! hard_refill := _decimal_input "refill_per_second" false refill_per_second in
  let! now := _nonnegative_nanoseconds "clock.monotonic_ns()" clock_ns in
  Ok {| _hard_capacity := hard_capacity; _capacity := hard_capacity;
        _hard_refill_per_second := hard_refill; _refill_per_second := hard_refill;
        _tokens := hard_capacity; _last_refill_ns := now |}.

Definition set_tokens (self : TokenBucket) (tokens : dec) (last : Z) : TokenBucket :=
  {| _hard_capacity := _hard_capacity self; _capacity := _capacity self;
     _hard_refill_per_second := _hard_refill_per_second self;
     _refill_per_second := _refill_per_second self;
     _tokens := tokens; _last_refill_ns := last |}.

Definition set_refill (self : TokenBucket) (refill : dec) : TokenBucket :=
  {| _hard_capacity := _hard_capacity self; _capacity := _capacity self;
     _hard_refill_per_second := _hard_refill_per_second self;
     _refill_per_second := refill;
     _tokens := _tokens self; _last_refill_ns := _last_refill_ns self |}.

(** The instant a call works with: its [now_ns] argument, or else the clock. *)
Definition call_time (now_ns : option Z) (clock_ns : Z) : result Z :=
  match now_ns with
  | None => _nonnegative_nanoseconds "clock.monotonic_ns()" clock_ns
  | Some n => _nonnegative_nanoseconds "now_ns" n
  end.

Definition refill_to (self : TokenBucket) (now : Z) : TokenBucket :=
  if now <=? _last_refill_ns self then self
  else
    let elapsed_ns := now - _last_refill_ns self in
    let precision := _calculation_precision
      [_tokens self; _capacity self; _refill_per_second self] (ndigits elapsed_ns) in
    let replenished := ddiv precision
      (dmul precision (_refill_per_second self) (dec_of_int elapsed_ns))
      _NANOSECONDS_PER_SECOND in
    set_tokens self (dmin (_capacity self) (dadd precision (_tokens self) replenished)) now.

Definition _refill (self : TokenBucket) (now_ns : option Z) (clock_ns : Z) : result TokenBucket :=
  let! now := call_time now_ns clock_ns in
  Ok (refill_to self now).

Definition tokens (self : TokenBucket) (clock_ns : Z) : result (TokenBucket * dec) :=
  let! self := _refill self None clock_ns in
  Ok (self, _tokens self).

(** The cost checks [try_acquire] and [ready_at_ns] share. *)
Definition cost_input (self : TokenBucket) (cost : DecimalInput) : result dec :=
  let! normalized_cost := _decimal_input "cost" false cost in
  raise ValueError "cost cannot exceed the bucket hard capacity"
    when dltb (_hard_capacity self) normalized_cost;;
  Ok normalized_cost.

Definition try_acquire (self : TokenBucket) (cost : DecimalInput) (now_ns : option Z) (clock_ns : Z)
    : result (TokenBucket * bool) :=
  let! normalized_cost := cost_input self cost in
  let! self := _refill self now_ns clock_ns in
  if dltb (_tokens self) normalized_cost then Ok (self, false)
  else
    let precision := _calculation_precision [_tokens self; normalized_cost] 1 in
    Ok (set_tokens self (dsub precision (_tokens self) normalized_cost) (_last_refill_ns self), true).

Definition ready_at_ns (self : TokenBucket) (cost : DecimalInput) (now_ns : option Z) (clock_ns : Z)
    : result (TokenBucket * option Z) :=
  let! normalized_cost := cost_input self cost in
  let! self := _refill self now_ns clock_ns in
  if dleb normalized_cost (_tokens self) then Ok (self, Some (_last_refill_ns self))
  else if deqb (_refill_per_second self) dzero then Ok (self, None)
  else
    let '(cost_numerator, cost_denominator) := as_integer_ratio normalized_cost in
    let '(token_numerator, token_denominator) := as_integer_ratio (_tokens self) in
    let missing_numerator :=
      cost_numerator * token_denominator - token_numerator * cost_denominator in
    let missing_denominator := cost_denominator * token_denominator in
    let '(rate_numerator, rate_denominator) := as_integer_ratio (_refill_per_second self) in
    let wait_numerator := missing_numerator * rate_denominator * 1000000000 in
    let wait_denominator := missing_denominator * rate_numerator in
    let wait_ns := ceil_div wait_numerator wait_denominator in
    Ok (self, Some (_last_refill_ns self + wait_ns)).

(** *** [observe_available]: the grammar [[0-9]+(\.[0-9]+)?] *)
Definition is_digit (c : Ascii.ascii) : bool := (48 <=? Ascii.nat_of_ascii c)%nat && (Ascii.nat_of_ascii c <=? 57)%nat.
Definition digit_value (c : Ascii.ascii) : Z := Z.of_nat (Ascii.nat_of_ascii c) - 48.
Definition parse_digits (cs : list Ascii.ascii) : Z :=
  foldl (fun acc c => 10 * acc + digit_value c) 0 cs.

Fixpoint split_at_dot (cs : list Ascii.ascii) : list Ascii.ascii * option (list Ascii.ascii) :=
  match cs with
  | [] => ([], None)
  | c :: cs =>
      if Ascii.eqb c (Ascii.ascii_of_nat 46) then ([], Some cs)
      else let '(whole, fraction) := split_at_dot cs in (c :: whole, fraction)
  end.

Definition digits_run (cs : list Ascii.ascii) : bool :=
  negb (bool_decide (cs = [])) && forallb is_digit cs.

(** [Decimal(raw)] for a text the grammar accepts, [None] otherwise. *)
Definition parse_nonnegative_decimal (raw : string) : option dec :=
  match split_at_dot (String.list_ascii_of_string raw) with
  | (whole, None) => if digits_run whole then Some (Dec (parse_digits whole) 0) else None
  | (whole, Some fraction) =>
      if digits_run whole && digits_run fraction
      then Some (Dec (parse_digits (whole ++ fraction)) (- Z.of_nat (length fraction)))
      else None
  end.

Definition observe_available (self : TokenBucket) (raw_available : string) (clock_ns : Z)
    : result (TokenBucket * bool) :=
  match parse_nonnegative_decimal raw_available with
  | None => Ok (self, false)
  | Some observed =>
      if dltb observed dzero then Ok (self, false)
      else
        let! self := _refill self None clock_ns in
        Ok (set_tokens self (dmin (dmin (_tokens self) (_capacity self)) observed)
              (_last_refill_ns self), true)
  end.

(** The input checks [shrink] and [set_refill_multiplier] share. *)
Definition multiplier_input (self : TokenBucket) (multiplier floor : DecimalInput)
    : result (dec * dec) :=
  let! normalized_multiplier := _decimal_input "multiplier" false multiplier in
  let! normalized_floor := _decimal_input "floor" true floor in
  raise ValueError "multiplier must be in the interval (0, 1]"
    when dltb done_ normalized_multiplier;;
  raise ValueError "floor cannot exceed the hard refill rate"
    when dltb (_hard_refill_per_second self) normalized_floor;;
  Ok (normalized_multiplier, normalized_floor).

Definition shrink (self : TokenBucket) (multiplier floor : DecimalInput) (clock_ns : Z)
    : result TokenBucket :=
  let! '(normalized_multiplier, normalized_floor) := multiplier_input self multiplier floor in
  let! self := _refill self None clock_ns in
  let precision := _calculation_precision
    [_refill_per_second self; normalized_multiplier; normalized_floor] 1 in
  let reduced := dmul precision (_refill_per_second self) normalized_multiplier in
  Ok (set_refill self (dmin (_refill_per_second self) (dmax normalized_floor reduced))).

Definition set_refill_multiplier (self : TokenBucket) (multiplier floor : DecimalInput) (clock_ns : Z)
    : result TokenBucket :=
  let! '(normalized_multiplier, normalized_floor) := multiplier_input self multiplier floor in
  let! self := _refill self None clock_ns in
  let precision := _calculation_precision
    [_hard_refill_per_second self; normalized_multiplier; normalized_floor] 1 in
  Ok (set_refill self (dmax normalized_floor
        (dmul precision (_hard_refill_per_second self) normalized_multiplier))).

(** ** [BudgetRegistry] *)
Module Registry.
Definition t : Type := gmap BudgetKey TokenBucket.

Definition add (key : BudgetKey) (capacity refill_per_second : DecimalInput) (clock_ns : Z)
    : M t TokenBucket := fun self =>
  match _validate_key key with
  | Err e => (self, Err e)
  | Ok key =>
      match (self : gmap BudgetKey TokenBucket) !! key with
      | Some _ => (self, Err (ValueError "budget key already exists"))
      | None =>
          match bucket_new capacity refill_per_second clock_ns with
          | Err e => (self, Err e)
          | Ok bucket => (<[key := bucket]> (self : gmap BudgetKey TokenBucket), Ok bucket)
          end
      end
  end.

Definition bucket (self : t) (key : BudgetKey) : result TokenBucket :=
  let! key := _validate_key key in
  match (self : gmap BudgetKey TokenBucket) !! key with
  | None => Err (KeyError "unknown budget key")
  | Some b => Ok b
  end.

(** Runs a bucket method on the stored (shared) bucket object. *)
Definition on_bucket {A} (key : BudgetKey) (f : TokenBucket -> result (TokenBucket * A))
    : M t A := fun self =>
  match bucket self key with
  | Err e => (self, Err e)
  | Ok b =>
      match f b with
      | Err e => (self, Err e)
      | Ok (b, a) => (<[key := b]> (self : gmap BudgetKey TokenBucket), Ok a)
      end
  end.

Definition try_acquire (key : BudgetKey) (cost : DecimalInput)
    (default_capacity default_refill_per_second : option DecimalInput)
    (now_ns : option Z) (clock_ns : Z) : M t bool := fun self =>
  match _validate_key key with
  | Err e => (self, Err e)
  | Ok key =>
      match (self : gmap BudgetKey TokenBucket) !! key with
      | Some _ => on_bucket key (fun b => RateLimit.try_acquire b cost now_ns clock_ns) self
      | None =>
          match default_capacity with
          | None => (self, Err (KeyError "unknown budget key"))
          | Some capacity =>
              (do! _ := add key capacity
                 (match default_refill_per_second with None => capacity | Some r => r end)
                 clock_ns in
               on_bucket key (fun b => RateLimit.try_acquire b cost now_ns clock_ns)) self
          end
      end
  end.

Definition ready_at_ns (key : BudgetKey) (cost : DecimalInput) (now_ns : option Z) (clock_ns : Z)
    : M t (option Z) :=
  on_bucket key (fun b => RateLimit.ready_at_ns b cost now_ns clock_ns).

(** The loop of [try_acquire_one]. *)
Fixpoint try_keys (keys : list BudgetKey) (seen : list BudgetKey) (cost : DecimalInput)
    (now_ns : option Z) (clock_ns : Z) : M t (option BudgetKey) :=
  match keys with
  | [] => mret None
  | key :: keys =>
      do! validated := mlift (_validate_key key) in
      if bool_decide (validated ∈ seen) then try_keys keys seen cost now_ns clock_ns
      else
        do! acquired := on_bucket validated (fun b => RateLimit.try_acquire b cost now_ns clock_ns) in
        if (acquired : bool) then mret (Some validated)
        else try_keys keys (validated :: seen) cost now_ns clock_ns
  end.

Definition try_acquire_one (keys : list BudgetKey) (cost : DecimalInput)
    (now_ns : option Z) (clock_ns : Z) : M t (option BudgetKey) :=
  match keys with
  | [] => mraise (ValueError "keys must be a non-empty tuple of budget keys")
  | _ => try_keys keys [] cost now_ns clock_ns
  end.

Definition observe_available (key : BudgetKey) (raw_available : string) (clock_ns : Z) : M t bool :=
  on_bucket key (fun b => RateLimit.observe_available b raw_available clock_ns).

Definition shrink (key : BudgetKey) (multiplier floor : DecimalInput) (clock_ns : Z) : M t unit :=
  on_bucket key (fun b => let! b := RateLimit.shrink b multiplier floor clock_ns in Ok (b, tt)).

Definition set_refill_multiplier (key : BudgetKey) (multiplier floor : DecimalInput) (clock_ns : Z)
    : M t unit :=
  on_bucket key (fun b =>
    let! b := RateLimit.set_refill_multiplier b multiplier floor clock_ns in Ok (b, tt)).
End Registry.

(** ** Exactness of the refill *)
From Stdlib Require Import Lqa.

(** The tokens a bucket has at instant [t], as a rational. *)
Definition available (b : TokenBucket) (t : Z) : Q :=
  Qmin (dval (_capacity b))
    (dval (_tokens b)
     + dval (_refill_per_second b) * inject_Z (Z.max 0 (t - _last_refill_ns b))
       / inject_Z 1000000000)%Q.

Record bucket_ok (b : TokenBucket) : Prop := {
  bo_capacity : _capacity b = _hard_capacity b;
  bo_capacity_pos : (0 < dval (_hard_capacity b))%Q;
  bo_refill : (0 <= dval (_refill_per_second b))%Q;
  bo_refill_hard : (dval (_refill_per_second b) <= dval (_hard_refill_per_second b))%Q;
  bo_hard_pos : (0 < dval (_hard_refill_per_second b))%Q;
  bo_tokens : (0 <= dval (_tokens b))%Q;
  bo_tokens_capacity : (dval (_tokens b) <= dval (_capacity b))%Q;
  bo_last : 0 <= _last_refill_ns b
}.

Lemma dval_nonneg d : (0 <= dval d)%Q <-> 0 <= coef d.
Proof.
  unfold dval. split; intros H.
  - rewrite Zle_Qle. apply (Qmult_le_r _ _ (Qpower 10 (expo d))); [apply Qpower_10_pos|].
    by rewrite Qmult_0_l.
  - apply Qmult_le_0_compat; [by rewrite <- (Zle_Qle 0)|apply Qlt_le_weak, Qpower_10_pos].
Qed.

Lemma dval_dzero : (dval dzero == 0)%Q.
Proof. unfold dval. simpl. ring. Qed.

Lemma dmin_spec a b : (dval (dmin a b) == Qmin (dval a) (dval b))%Q.
Proof.
  unfold dmin. destruct (dltb b a) eqn:E.
  - apply dltb_spec in E. symmetry. apply Q.min_r. by apply Qlt_le_weak.
  - apply dltb_false in E. symmetry. by apply Q.min_l.
Qed.

Lemma dmax_spec a b : (dval (dmax a b) == Qmax (dval a) (dval b))%Q.
Proof.
  unfold dmax. destruct (dltb a b) eqn:E.
  - apply dltb_spec in E. symmetry. apply Q.max_r. by apply Qlt_le_weak.
  - apply dltb_false in E. symmetry. by apply Q.max_l.
Qed.

Lemma ndigits_le n k : 1 <= k -> Z.abs n < 10 ^ k -> ndigits n <= k.
Proof.
  intros Hk Hn. destruct (ndigits_spec n) as (_ & H1 & H2).
  destruct (Z.eq_dec n 0) as [->|E]; [done|]. specialize (H2 E).
  assert (10 ^ (ndigits n - 1) < 10 ^ k) by lia.
  apply Z.pow_lt_mono_r_iff in H; lia.
Qed.

Lemma precision_ge values n d :
  d ∈ values -> 0 <= n -> width d + n + 16 <= _calculation_precision values n.
Proof.
  intros Hd Hn. unfold _calculation_precision.
  assert (width d <= zsum ((fun v => ndigits (coef v) + Z.abs (expo v)) <$> values)); [|lia].
  induction values as [|v values IH]; [by apply not_elem_of_nil in Hd|].
  cbn [fmap list_fmap zsum foldr]. fold zsum.
  assert (0 <= zsum ((fun v => ndigits (coef v) + Z.abs (expo v)) <$> values)).
  { apply zsum_nonneg, Forall_fmap, Forall_true. intros w. simpl.
    pose proof (ndigits_pos (coef w)). lia. }
  pose proof (width_pos v). unfold width in *.
  apply elem_of_cons in Hd as [->|Hd]; [lia|]. specialize (IH Hd). lia.
Qed.

Lemma replenished_spec precision rate elapsed :
  0 <= coef rate -> 0 < elapsed -> width rate + ndigits elapsed <= precision ->
  let r := ddiv precision (dmul precision rate (dec_of_int elapsed)) _NANOSECONDS_PER_SECOND in
  (dval r == dval rate * inject_Z elapsed / inject_Z 1000000000)%Q /\
  width r <= width rate + ndigits elapsed + 9.
Proof.
  intros Hr He Hp r. unfold width in Hp. pose proof (ndigits_pos (coef rate)).
  pose proof (ndigits_pos elapsed).
  assert (Hm : dmul precision rate (dec_of_int elapsed) = Dec (coef rate * elapsed) (expo rate)).
  { rewrite dmul_repr by (cbn [coef dec_of_int]; lia). cbn. by rewrite Z.add_0_r. }
  assert (Hlt : Z.abs (coef rate * elapsed) < 10 ^ (ndigits (coef rate) + ndigits elapsed)).
  { apply (dmul_coef_bound _ rate (dec_of_int elapsed)). cbn. lia. }
  destruct (ddiv_billion precision (Dec (coef rate * elapsed) (expo rate))) as (Hv & He' & Hc).
  { cbn. lia. }
  { cbn [coef]. etransitivity; [apply ndigits_le; [|exact Hlt]; lia|lia]. }
  unfold r, _NANOSECONDS_PER_SECOND. rewrite Hm. split.
  - rewrite Hv. unfold dval. cbn [coef expo]. rewrite inject_Z_mult. field.
  - cbn [coef expo] in *. unfold width.
    assert (ndigits (coef (ddiv precision (Dec (coef rate * elapsed) (expo rate))
      (dec_of_int 1000000000))) <= ndigits (coef rate) + ndigits elapsed); [|lia].
    apply ndigits_le; lia.
Qed.

Lemma refill_tokens b now :
  bucket_ok b -> (dval (_tokens (refill_to b now)) == available b now)%Q.
Proof.
  intros [Hcap Hcp Hr Hrh Hh Ht Htc Hl]. unfold refill_to, available.
  destruct (Z.leb_spec now (_last_refill_ns b)) as [Hle|Hlt].
  { rewrite Z.max_l by lia. change (inject_Z 0) with 0%Q.
    assert (E : (dval (_tokens b) + dval (_refill_per_second b) * 0 / inject_Z 1000000000
                 == dval (_tokens b))%Q) by field.
    rewrite E. symmetry. by apply Q.min_r. }
  rewrite Z.max_r by lia. cbn [set_tokens _tokens].
  set (elapsed := now - _last_refill_ns b).
  set (precision := _calculation_precision _ _). cbv zeta.
  pose proof (ndigits_pos elapsed) as Hn.
  assert (Hp : width (_tokens b) + width (_capacity b) + width (_refill_per_second b)
               + ndigits elapsed + 16 <= precision).
  { unfold precision, _calculation_precision, width. simpl. lia. }
  pose proof (width_pos (_tokens b)). pose proof (width_pos (_capacity b)).
  destruct (replenished_spec precision (_refill_per_second b) elapsed) as [Hv Hw].
  { by apply dval_nonneg. } { lia. } { lia. }
  rewrite dmin_spec, dadd_exact by lia. by rewrite Hv.
Qed.

Lemma refill_to_fields b now :
  _capacity (refill_to b now) = _capacity b /\ _hard_capacity (refill_to b now) = _hard_capacity b /\
  _refill_per_second (refill_to b now) = _refill_per_second b /\
  _hard_refill_per_second (refill_to b now) = _hard_refill_per_second b /\
  _last_refill_ns (refill_to b now) = Z.max (_last_refill_ns b) now.
Proof. unfold refill_to. case_bool; bool_prop; cbn; repeat (split; [done|]); lia. Qed.

Lemma rate_nonneg b t :
  bucket_ok b -> (0 <= dval (_refill_per_second b) * inject_Z (Z.max 0 t) / inject_Z 1000000000)%Q.
Proof.
  intros [_ _ Hr _ _ _ _ _]. apply Qle_shift_div_l; [done|]. rewrite Qmult_0_l.
  apply Qmult_le_0_compat; [done|]. rewrite <- (Zle_Qle 0). lia.
Qed.

Lemma available_bounds b t : bucket_ok b -> (0 <= available b t <= dval (_capacity b))%Q.
Proof.
  intros Hb. pose proof (rate_nonneg b (t - _last_refill_ns b) Hb) as Hr.
  destruct Hb as [Hcap Hcp _ _ _ Ht Htc _]. unfold available. split.
  - apply Q.min_glb; [rewrite Hcap; lra|lra].
  - apply Q.le_min_l.
Qed.

Lemma refill_ok b now : bucket_ok b -> bucket_ok (refill_to b now).
Proof.
  intros Hb. pose proof (available_bounds b now Hb) as Ha.
  pose proof (refill_tokens b now Hb) as Ht.
  destruct (refill_to_fields b now) as (H1 & H2 & H3 & H4 & H5).
  destruct Hb as [Hcap Hcp Hr Hrh Hh Hto Htc Hl].
  split; rewrite ?H1, ?H2, ?H3, ?H4, ?Ht; try done; [apply Ha|apply Ha|lia].
Qed.

(** ** Inputs *)
Lemma decimal_input_ok field allow_zero value d :
  _decimal_input field allow_zero value = Ok d ->
  (0 <= dval d)%Q /\ (allow_zero = false -> (0 < dval d)%Q).
Proof.
  unfold _decimal_input. intros H.
  destruct (match value with DInt n => Finite (dec_of_int n) | DDec d => d end) as [d'|]; [|done].
  apply raise_if_ok in H as [H1 H]. apply raise_if_ok in H as [H2 [= <-]].
  apply dltb_false in H1. rewrite dval_dzero in H1. split; [done|].
  intros ->. simpl in H2. unfold deqb in H2. apply andb_false_iff in H2 as [H2|H2].
  - apply not_true_iff_false in H2. rewrite dleb_spec, dval_dzero in H2. lra.
  - apply not_true_iff_false in H2. rewrite dleb_spec, dval_dzero in H2. lra.
Qed.

Lemma cost_input_ok b cost c :
  cost_input b cost = Ok c -> (0 < dval c)%Q /\ (dval c <= dval (_hard_capacity b))%Q.
Proof.
  unfold cost_input. intros H. apply rbind_ok in H as (d & Hd & H).
  apply raise_if_ok in H as [H [= <-]]. apply dltb_false in H.
  apply decimal_input_ok in Hd as [_ Hd]. auto.
Qed.

Lemma refill_some b now clock : 0 <= now -> _refill b (Some now) clock = Ok (refill_to b now).
Proof.
  intros. unfold _refill, call_time, _nonnegative_nanoseconds, raise_if.
  by rewrite (proj2 (Z.ltb_ge now 0)) by lia.
Qed.

Lemma try_acquire_some b cost c now clock :
  bucket_ok b -> cost_input b cost = Ok c -> 0 <= now ->
  (exists b', try_acquire b cost (Some now) clock = Ok (b', true)) <->
  (dval c <= available b now)%Q.
Proof.
  intros Hb Hc Hnow. unfold try_acquire. rewrite Hc, refill_some by done. cbn [rbind].
  rewrite <- (refill_tokens b now Hb). destruct (dltb _ c) eqn:E.
  - apply dltb_spec in E. split; [by intros [b' ?]|intros H; lra].
  - apply dltb_false in E. split; [done|eauto].
Qed.

(** ** The first ready instant *)
Lemma as_integer_ratio_spec d n k :
  as_integer_ratio d = (n, k) -> 0 < k /\ (dval d == inject_Z n / inject_Z k)%Q.
Proof.
  unfold as_integer_ratio, dval. destruct (Z.leb_spec 0 (expo d)) as [He|He].
  - intros [= <- <-]. split; [lia|]. rewrite inject_Z_mult, Qpower_10_Z by done.
    change (inject_Z 1) with 1%Q. field.
  - intros [= <- <-]. set (den := 10 ^ (- expo d)).
    assert (Hden : 0 < den) by (apply Z.pow_pos_nonneg; lia).
    set (g := Z.gcd (coef d) den).
    assert (Hg : 0 < g).
    { pose proof (Z.gcd_nonneg (coef d) den). destruct (Z.eq_dec g 0) as [E|]; [|lia].
      apply Z.gcd_eq_0_r in E. lia. }
    destruct (Z.gcd_divide_l (coef d) den) as [u Hu]. fold g in Hu.
    destruct (Z.gcd_divide_r (coef d) den) as [v Hv]. fold g in Hv.
    assert (Hv0 : 0 < v) by nia.
    replace (den / g) with v by (rewrite Hv, Z.div_mul; lia).
    replace (coef d / g) with u by (rewrite Hu, Z.div_mul; lia).
    split; [done|].
    assert (E : (Qpower 10 (expo d) == / inject_Z den)%Q).
    { unfold den. rewrite <- Qpower_10_Z by lia. rewrite <- Qpower_opp. by rewrite Z.opp_involutive. }
    rewrite E. rewrite Hu, Hv at 1. rewrite !inject_Z_mult.
    assert (~ (inject_Z v == 0)%Q) by (intros E'; apply (inject_Z_injective v 0) in E'; lia).
    assert (~ (inject_Z g == 0)%Q) by (intros E'; apply (inject_Z_injective g 0) in E'; lia).
    field. done.
Qed.

Lemma inject_Z_pos_ne z : 0 < z -> ~ (inject_Z z == 0)%Q.
Proof. intros Hz E. apply (inject_Z_injective z 0) in E. lia. Qed.

Lemma Q_ratio_le x y z w : 0 < y -> 0 < w ->
  (inject_Z x / inject_Z y <= inject_Z z / inject_Z w)%Q <-> x * w <= z * y.
Proof.
  intros Hy Hw. assert (Hy' : (0 < inject_Z y)%Q) by (by rewrite <- (Zlt_Qlt 0)).
  assert (Hw' : (0 < inject_Z w)%Q) by (by rewrite <- (Zlt_Qlt 0)).
  rewrite Zle_Qle, !inject_Z_mult. split; intros H.
  - apply (Qmult_le_r _ _ (inject_Z y * inject_Z w)) in H; [|by apply Qmult_lt_0_compat].
    setoid_rewrite (Qmult_comm (inject_Z z)). setoid_rewrite (Qmult_comm (inject_Z x)).
    assert (E1 : (inject_Z x / inject_Z y * (inject_Z y * inject_Z w) == inject_Z w * inject_Z x)%Q)
      by (field; by apply inject_Z_pos_ne).
    assert (E2 : (inject_Z z / inject_Z w * (inject_Z y * inject_Z w) == inject_Z y * inject_Z z)%Q)
      by (field; by apply inject_Z_pos_ne).
    by rewrite E1, E2 in H.
  - apply Qle_shift_div_r; [done|].
    assert (E : (inject_Z z / inject_Z w * inject_Z y == inject_Z z * inject_Z y / inject_Z w)%Q)
      by (field; by apply inject_Z_pos_ne).
    rewrite E. by apply Qle_shift_div_l.
Qed.

(** The integer division of [ready_at_ns] is the least wait. *)
Lemma wait_ns_least (cn cd tn td rn rd delta : Z) :
  0 < cd -> 0 < td -> 0 < rd -> 0 < rn -> 0 <= delta ->
  (inject_Z cn / inject_Z cd
   <= inject_Z tn / inject_Z td + (inject_Z rn / inject_Z rd) * inject_Z delta / inject_Z 1000000000)%Q
  <-> ceil_div ((cn * td - tn * cd) * rd * 1000000000) (cd * td * rn) <= delta.
Proof.
  intros Hcd Htd Hrd Hrn Hd. rewrite ceil_div_le by nia.
  assert (E : (inject_Z tn / inject_Z td
      + (inject_Z rn / inject_Z rd) * inject_Z delta / inject_Z 1000000000
    == inject_Z (tn * (rd * 1000000000) + rn * delta * td) / inject_Z (td * (rd * 1000000000)))%Q).
  { rewrite inject_Z_plus, !inject_Z_mult. field.
    split; [by apply inject_Z_pos_ne|by apply inject_Z_pos_ne]. }
  rewrite E, Q_ratio_le by nia. nia.
Qed.

(** The refill is exact.  Whatever digits the capacity, the rate and the
    level have, the precision the code chooses loses nothing: after a refill to
    [now] the tokens are exactly the smaller of the capacity and the old tokens
    plus rate times elapsed nanoseconds over a billion. *)
Theorem refill_exact (b : TokenBucket) (now clock_ns : Z) :
  bucket_ok b -> 0 <= now ->
  exists b', _refill b (Some now) clock_ns = Ok b' /\ bucket_ok b' /\
    _last_refill_ns b' = Z.max (_last_refill_ns b) now /\
    (dval (_tokens b') ==
      Qmin (dval (_capacity b))
        (dval (_tokens b) + dval (_refill_per_second b)
           * inject_Z (Z.max 0 (now - _last_refill_ns b)) / inject_Z 1000000000))%Q.
Proof.
  intros Hb Hnow. exists (refill_to b now). split; [by apply refill_some|].
  split; [by apply refill_ok|]. split; [apply refill_to_fields|by apply refill_tokens].
Qed.

(** What [ready_at_ns] answers, about the refilled bucket. *)
Lemma ready_at_spec (b : TokenBucket) (cost : DecimalInput) (c : dec) (now clock_ns : Z) :
  bucket_ok b -> cost_input b cost = Ok c -> 0 <= now ->
  exists r, ready_at_ns b cost (Some now) clock_ns = Ok (refill_to b now, r) /\
    forall t, _last_refill_ns (refill_to b now) <= t ->
      ((exists b'', try_acquire (refill_to b now) cost (Some t) clock_ns = Ok (b'', true)) <->
       match r with None => False | Some ready => ready <= t end).
Proof.
  intros Hb Hc Hnow. unfold ready_at_ns. rewrite Hc, refill_some by done. cbn [rbind].
  pose proof (refill_ok b now Hb) as Hb'.
  destruct (refill_to_fields b now) as (F1 & F2 & F3 & F4 & F5).
  set (b' := refill_to b now) in *. destruct (cost_input_ok _ _ _ Hc) as [Hc0 Hch].
  assert (Hc' : cost_input b' cost = Ok c) by (unfold cost_input in *; by rewrite F2).
  assert (Hcap : (dval c <= dval (_capacity b'))%Q) by (by rewrite (bo_capacity _ Hb'), F2).
  pose proof (bo_last _ Hb') as Hlast.
  assert (Havail : forall t, (dval c <= available b' t <->
    dval c <= dval (_tokens b') + dval (_refill_per_second b')
      * inject_Z (Z.max 0 (t - _last_refill_ns b')) / inject_Z 1000000000)%Q).
  { intros t. unfold available. rewrite Q.min_glb_iff. tauto. }
  destruct (dleb c (_tokens b')) eqn:E1.
  { exists (Some (_last_refill_ns b')). split; [done|]. intros t Ht.
    rewrite try_acquire_some by (done || lia). rewrite Havail. apply dleb_spec in E1.
    pose proof (rate_nonneg b' (t - _last_refill_ns b') Hb').
    split; [done|intros _]. lra. }
  apply not_true_iff_false in E1. rewrite dleb_spec in E1.
  destruct (deqb (_refill_per_second b') dzero) eqn:E2.
  { exists None. split; [done|]. intros t Ht.
    rewrite try_acquire_some by (done || lia). rewrite Havail.
    apply andb_true_iff in E2 as [E2 _]. rewrite dleb_spec, dval_dzero in E2.
    pose proof (bo_refill _ Hb') as Hr.
    assert (Hr0 : (dval (_refill_per_second b') == 0)%Q) by lra.
    rewrite Hr0. split; [|done]. intros H. apply E1.
    assert (E : (dval (_tokens b') + 0 * inject_Z (Z.max 0 (t - _last_refill_ns b')) / inject_Z 1000000000
      == dval (_tokens b'))%Q) by field. by rewrite E in H. }
  destruct (as_integer_ratio c) as [cn cd] eqn:Ec.
  destruct (as_integer_ratio (_tokens b')) as [tn td] eqn:Et.
  destruct (as_integer_ratio (_refill_per_second b')) as [rn rd] eqn:Er.
  apply as_integer_ratio_spec in Ec as [Hcd Ecv]. apply as_integer_ratio_spec in Et as [Htd Etv].
  apply as_integer_ratio_spec in Er as [Hrd Erv].
  assert (Hrn : 0 < rn).
  { apply not_true_iff_false in E2. unfold deqb in E2. rewrite andb_true_iff, !dleb_spec, dval_dzero in E2.
    pose proof (bo_refill _ Hb') as Hr.
    assert (Hr0 : (0 < dval (_refill_per_second b'))%Q).
    { apply Qnot_le_lt. intros H. apply E2. split; [done|lra]. }
    rewrite Erv in Hr0. rewrite Zlt_Qlt.
    assert (Hrd' : (0 < inject_Z rd)%Q) by (by rewrite <- (Zlt_Qlt 0)).
    apply (Qmult_lt_r _ _ (/ inject_Z rd)); [by apply Qinv_lt_0_compat|].
    rewrite Qmult_0_l. exact Hr0. }
  exists (Some (_last_refill_ns b' + ceil_div ((cn * td - tn * cd) * rd * 1000000000) (cd * td * rn))).
  split; [done|]. intros t Ht. rewrite try_acquire_some by (done || lia). rewrite Havail.
  rewrite Z.max_r by lia. rewrite Ecv, Etv, Erv, wait_ns_least by (done || lia). lia.
Qed.

(** [ready_at_ns] is the first instant at which [try_acquire] grants the
    cost: it grants it at exactly the instants from there on, and at no instant
    when it returns [None]. *)
Theorem ready_at_is_first_instant (b : TokenBucket) (cost : DecimalInput) (c : dec)
    (now clock_ns : Z) :
  bucket_ok b -> cost_input b cost = Ok c -> 0 <= now ->
  exists b' r, ready_at_ns b cost (Some now) clock_ns = Ok (b', r) /\
    forall t, _last_refill_ns b' <= t ->
      ((exists b'', try_acquire b' cost (Some t) clock_ns = Ok (b'', true)) <->
       match r with None => False | Some ready => ready <= t end).
Proof.
  intros Hb Hc Hnow. destruct (ready_at_spec b cost c now clock_ns Hb Hc Hnow) as (r & H1 & H2).
  by exists (refill_to b now), r.
Qed.

(** ** Runs of a bucket *)
Inductive op : Type :=
| Tokens (clock_ns : Z)
| Acquire (cost : DecimalInput) (now_ns : option Z) (clock_ns : Z)
| ReadyAt (cost : DecimalInput) (now_ns : option Z) (clock_ns : Z)
| Observe (raw_available : string) (clock_ns : Z)
| Shrink (multiplier floor : DecimalInput) (clock_ns : Z)
| SetMultiplier (multiplier floor : DecimalInput) (clock_ns : Z).

(** The cost of a call that was granted, as a rational. *)
Definition granted (b : TokenBucket) (cost : DecimalInput) : Q :=
  match cost_input b cost with Ok c => dval c | Err _ => 0%Q end.

(** A call: the bucket it leaves and what it granted; a call that raises leaves
    the bucket as it was. *)
Definition step (b : TokenBucket) (o : op) : TokenBucket * Q :=
  match o with
  | Tokens clock => (match tokens b clock with Ok (b', _) => b' | Err _ => b end, 0%Q)
  | Acquire cost now clock =>
      match try_acquire b cost now clock with
      | Ok (b', true) => (b', granted b cost)
      | Ok (b', false) => (b', 0%Q)
      | Err _ => (b, 0%Q)
      end
  | ReadyAt cost now clock => (match ready_at_ns b cost now clock with Ok (b', _) => b' | Err _ => b end, 0%Q)
  | Observe raw clock => (match observe_available b raw clock with Ok (b', _) => b' | Err _ => b end, 0%Q)
  | Shrink m f clock => (match shrink b m f clock with Ok b' => b' | Err _ => b end, 0%Q)
  | SetMultiplier m f clock => (match set_refill_multiplier b m f clock with Ok b' => b' | Err _ => b end, 0%Q)
  end.

Fixpoint run (b : TokenBucket) (ops : list op) : TokenBucket * Q :=
  match ops with
  | [] => (b, 0%Q)
  | o :: ops => let '(b1, g1) := step b o in let '(b2, g2) := run b1 ops in (b2, (g1 + g2)%Q)
  end.

(** What the bucket could have refilled between two of its states. *)
Definition earned (b b' : TokenBucket) : Q :=
  (dval (_hard_refill_per_second b) * inject_Z (_last_refill_ns b' - _last_refill_ns b)
   / inject_Z 1000000000)%Q.

(** The step relation of the rate limit: the invariant holds, time does not go
    back, the hard limits stay, and tokens are never created beyond the refill. *)
Definition bounded_step (b b' : TokenBucket) (g : Q) : Prop :=
  bucket_ok b' /\ _last_refill_ns b <= _last_refill_ns b' /\
  _hard_capacity b' = _hard_capacity b /\
  _hard_refill_per_second b' = _hard_refill_per_second b /\ (0 <= g)%Q /\
  (g + dval (_tokens b') <= dval (_tokens b) + earned b b')%Q.

Lemma earned_refl b : (earned b b == 0)%Q.
Proof. unfold earned. rewrite Z.sub_diag. change (inject_Z 0) with 0%Q. field. Qed.

Lemma earned_trans b1 b2 b3 :
  _hard_refill_per_second b2 = _hard_refill_per_second b1 ->
  (earned b1 b3 == earned b1 b2 + earned b2 b3)%Q.
Proof.
  intros H. unfold earned. rewrite H.
  replace (_last_refill_ns b3 - _last_refill_ns b1)
    with (_last_refill_ns b2 - _last_refill_ns b1 + (_last_refill_ns b3 - _last_refill_ns b2)) by lia.
  rewrite inject_Z_plus. field.
Qed.

Lemma bounded_refl b : bucket_ok b -> bounded_step b b 0.
Proof.
  intros Hb. split; [done|]. split; [lia|]. do 2 (split; [done|]). split; [lra|].
  rewrite earned_refl. lra.
Qed.

Lemma bounded_trans b1 b2 b3 g1 g2 :
  bounded_step b1 b2 g1 -> bounded_step b2 b3 g2 -> bounded_step b1 b3 (g1 + g2).
Proof.
  intros (A1 & A2 & A3 & A4 & A5 & A6) (B1 & B2 & B3 & B4 & B5 & B6).
  split; [done|]. split; [lia|]. do 2 (split; [congruence|]). split; [lra|].
  rewrite (earned_trans b1 b2 b3 A4). lra.
Qed.

Lemma bounded_weaken b b' g g' : bounded_step b b' g -> (0 <= g' <= g)%Q -> bounded_step b b' g'.
Proof.
  intros (A1 & A2 & A3 & A4 & A5 & A6) Hg. do 4 (split; [done|]). split; [lra|lra].
Qed.

Lemma refill_bounded b now : bucket_ok b -> bounded_step b (refill_to b now) 0.
Proof.
  intros Hb. destruct (refill_to_fields b now) as (F1 & F2 & F3 & F4 & F5).
  split; [by apply refill_ok|]. split; [lia|]. do 2 (split; [done|]). split; [lra|].
  rewrite refill_tokens by done. unfold available, earned. rewrite F5.
  replace (Z.max (_last_refill_ns b) now - _last_refill_ns b)
    with (Z.max 0 (now - _last_refill_ns b)) by lia.
  rewrite Qplus_0_l. eapply Qle_trans; [apply Q.le_min_r|]. apply Qplus_le_r.
  unfold Qdiv. apply Qmult_le_compat_r; [|done].
  apply Qmult_le_compat_r; [apply Hb|]. rewrite <- (Zle_Qle 0). lia.
Qed.

Lemma refill_call b now clock b1 :
  bucket_ok b -> _refill b now clock = Ok b1 -> bounded_step b b1 0.
Proof.
  intros Hb H. unfold _refill in H. apply rbind_ok in H as (t & _ & [= <-]).
  by apply refill_bounded.
Qed.

(** Lowering the level keeps the invariant and pays for what was granted. *)
Lemma lower_tokens b d g :
  bucket_ok b -> (0 <= dval d)%Q -> (0 <= g)%Q -> (g + dval d <= dval (_tokens b))%Q ->
  bounded_step b (set_tokens b d (_last_refill_ns b)) g.
Proof.
  intros Hb Hd Hg Hle. destruct Hb as [Hcap Hcp Hr Hrh Hh Ht Htc Hl].
  split; [split; cbn; try done; lra|]. split; [cbn; lia|]. do 2 (split; [done|]). split; [done|].
  unfold earned. cbn. rewrite Z.sub_diag. change (inject_Z 0) with 0%Q.
  assert (E : (dval (_hard_refill_per_second b) * 0 / inject_Z 1000000000 == 0)%Q) by field.
  rewrite E. lra.
Qed.

Lemma set_refill_bounded b r :
  bucket_ok b -> (0 <= dval r)%Q -> (dval r <= dval (_hard_refill_per_second b))%Q ->
  bounded_step b (set_refill b r) 0.
Proof.
  intros Hb Hr1 Hr2. pose proof (bounded_refl b Hb) as (A1 & A2 & A3 & A4 & A5 & A6).
  destruct A1 as [Hcap Hcp Hr Hrh Hh Ht Htc Hl].
  split; [split; cbn; done|]. done.
Qed.

Lemma multiplier_input_ok b m f m' f' :
  multiplier_input b m f = Ok (m', f') ->
  (0 < dval m' <= 1)%Q /\ (0 <= dval f' <= dval (_hard_refill_per_second b))%Q.
Proof.
  unfold multiplier_input. intros H. apply rbind_ok in H as (m1 & Hm & H).
  apply rbind_ok in H as (f1 & Hf & H). apply raise_if_ok in H as [H1 H].
  apply raise_if_ok in H as [H2 [= <- <-]]. apply dltb_false in H1, H2.
  apply decimal_input_ok in Hm as [_ Hm]. apply decimal_input_ok in Hf as [Hf _].
  assert (E : (dval done_ == 1)%Q) by reflexivity. rewrite E in H1. auto.
Qed.

(** The products of [shrink] and [set_refill_multiplier] are exact. *)
Lemma scaled_rate_exact r m f :
  (dval (dmul (_calculation_precision [r; m; f] 1) r m) == dval r * dval m)%Q.
Proof.
  apply dmul_exact. unfold _calculation_precision. simpl.
  pose proof (ndigits_pos (coef f)). lia.
Qed.

Lemma scaled_rate_le r m f :
  (0 <= dval r)%Q -> (0 < dval m <= 1)%Q ->
  (0 <= dval (dmul (_calculation_precision [r; m; f] 1) r m) <= dval r)%Q.
Proof. intros Hr Hm. rewrite scaled_rate_exact. split; nra. Qed.

Lemma parse_digits_nonneg cs acc :
  forallb is_digit cs = true -> 0 <= acc ->
  0 <= foldl (fun acc c => 10 * acc + digit_value c) acc cs.
Proof.
  revert acc. induction cs as [|c cs IH]; intros acc Hd Ha; [done|]. simpl in *.
  apply andb_true_iff in Hd as [Hc Hd]. apply IH; [done|].
  unfold is_digit in Hc. apply andb_true_iff in Hc as [Hc _]. apply Nat.leb_le in Hc.
  unfold digit_value. lia.
Qed.

Lemma acquire_bounded b cost now clock b' r :
  bucket_ok b -> try_acquire b cost now clock = Ok (b', r) ->
  bounded_step b b' (if r then granted b cost else 0%Q).
Proof.
  intros Hb H. unfold granted. unfold try_acquire in H.
  destruct (cost_input b cost) as [c|] eqn:Ec; [|done]. cbn [rbind] in H.
  apply rbind_ok in H as (b1 & E1 & H). pose proof (refill_call _ _ _ _ Hb E1) as S1.
  destruct (dltb (_tokens b1) c) eqn:E2; injection H as <- <-; [done|].
  apply dltb_false in E2. apply cost_input_ok in Ec as [Hc _].
  assert (E : (dval (dsub (_calculation_precision [_tokens b1; c] 1) (_tokens b1) c)
               == dval (_tokens b1) - dval c)%Q).
  { apply dsub_exact. unfold _calculation_precision, width. simpl. lia. }
  eapply bounded_weaken; [eapply (bounded_trans _ _ _ 0 (dval c) S1)|split; [lra|lra]].
  apply lower_tokens; [apply S1|rewrite E; lra|lra|rewrite E; lra].
Qed.

Lemma ready_bounded b cost now clock b' r :
  bucket_ok b -> ready_at_ns b cost now clock = Ok (b', r) -> bounded_step b b' 0.
Proof.
  intros Hb H. unfold ready_at_ns in H. apply rbind_ok in H as (c & _ & H).
  apply rbind_ok in H as (b1 & E1 & H). pose proof (refill_call _ _ _ _ Hb E1) as S1.
  destruct (dleb c (_tokens b1)); [by injection H as <- _|].
  destruct (deqb (_refill_per_second b1) dzero); [by injection H as <- _|].
  destruct (as_integer_ratio c), (as_integer_ratio (_tokens b1)),
    (as_integer_ratio (_refill_per_second b1)). by injection H as <- _.
Qed.

Lemma observe_bounded b raw clock b' r :
  bucket_ok b -> observe_available b raw clock = Ok (b', r) -> bounded_step b b' 0.
Proof.
  intros Hb H. unfold observe_available in H.
  destruct (parse_nonnegative_decimal raw) as [d|]; [|injection H as <- _; by apply bounded_refl].
  destruct (dltb d dzero) eqn:Ed; [injection H as <- _; by apply bounded_refl|].
  apply dltb_false in Ed. rewrite dval_dzero in Ed.
  apply rbind_ok in H as (b1 & E1 & [= <- _]). pose proof (refill_call _ _ _ _ Hb E1) as S1.
  eapply bounded_weaken; [eapply (bounded_trans _ _ _ 0 0 S1)|split; lra].
  destruct S1 as (Hb1 & _). pose proof (bo_tokens _ Hb1). pose proof (bo_tokens_capacity _ Hb1).
  apply lower_tokens; [done| |lra|]; rewrite !dmin_spec.
  - apply Q.min_glb; [apply Q.min_glb; lra|lra].
  - rewrite Qplus_0_l. eapply Qle_trans; [apply Q.le_min_l|apply Q.le_min_l].
Qed.

Lemma shrink_bounded b m f clock b' :
  bucket_ok b -> shrink b m f clock = Ok b' ->
  bounded_step b b' 0 /\ (dval (_refill_per_second b') <= dval (_refill_per_second b))%Q.
Proof.
  intros Hb H. apply rbind_ok in H as ([m' f'] & Em & H). apply rbind_ok in H as (b1 & E1 & [= <-]).
  apply multiplier_input_ok in Em as [Hm Hf]. pose proof (refill_call _ _ _ _ Hb E1) as S1.
  assert (Er : _refill_per_second b1 = _refill_per_second b).
  { unfold _refill in E1. apply rbind_ok in E1 as (t & _ & [= <-]). apply refill_to_fields. }
  split.
  - eapply bounded_weaken; [eapply (bounded_trans _ _ _ 0 0 S1)|split; lra].
    destruct S1 as (Hb1 & _). pose proof (bo_refill _ Hb1). pose proof (bo_refill_hard _ Hb1).
    apply set_refill_bounded; [done| |]; rewrite dmin_spec, dmax_spec.
    + apply Q.min_glb; [done|]. eapply Qle_trans; [|apply Q.le_max_l]. lra.
    + eapply Qle_trans; [apply Q.le_min_l|done].
  - cbn. rewrite dmin_spec, Er. apply Q.le_min_l.
Qed.

Lemma set_multiplier_bounded b m f clock b' :
  bucket_ok b -> set_refill_multiplier b m f clock = Ok b' -> bounded_step b b' 0.
Proof.
  intros Hb H. apply rbind_ok in H as ([m' f'] & Em & H). apply rbind_ok in H as (b1 & E1 & [= <-]).
  apply multiplier_input_ok in Em as [Hm Hf]. pose proof (refill_call _ _ _ _ Hb E1) as S1.
  eapply bounded_weaken; [eapply (bounded_trans _ _ _ 0 0 S1)|split; lra].
  destruct S1 as (Hb1 & _ & _ & Eh & _). pose proof (bo_hard_pos _ Hb1).
  pose proof (scaled_rate_le (_hard_refill_per_second b1) m' f' ltac:(lra) Hm).
  apply set_refill_bounded; [done| |]; rewrite dmax_spec.
  - eapply Qle_trans; [|apply Q.le_max_l]. lra.
  - apply Q.max_lub; [rewrite Eh; lra|lra].
Qed.

Lemma step_bounded b o b' g : bucket_ok b -> step b o = (b', g) -> bounded_step b b' g.
Proof.
  intros Hb H. pose proof (bounded_refl b Hb) as R.
  destruct o as [clock|cost now clock|cost now clock|raw clock|m f clock|m f clock]; simpl in H.
  - destruct (tokens b clock) as [[b1 d]|] eqn:E; injection H as <- <-; [|done].
    apply rbind_ok in E as (b2 & E & [= <- _]). by eapply refill_call.
  - destruct (try_acquire b cost now clock) as [[b1 []]|] eqn:E; injection H as <- <-;
      [exact (acquire_bounded _ _ _ _ _ _ Hb E)|exact (acquire_bounded _ _ _ _ _ _ Hb E)|done].
  - destruct (ready_at_ns b cost now clock) as [[b1 r]|] eqn:E; injection H as <- <-; [|done].
    by eapply ready_bounded.
  - destruct (observe_available b raw clock) as [[b1 r]|] eqn:E; injection H as <- <-; [|done].
    by eapply observe_bounded.
  - destruct (shrink b m f clock) as [b1|] eqn:E; injection H as <- <-; [|done].
    by eapply shrink_bounded.
  - destruct (set_refill_multiplier b m f clock) as [b1|] eqn:E; injection H as <- <-; [|done].
    by eapply set_multiplier_bounded.
Qed.

Lemma run_bounded b ops b' g : bucket_ok b -> run b ops = (b', g) -> bounded_step b b' g.
Proof.
  revert b b' g. induction ops as [|o ops IH]; intros b b' g Hb H; simpl in H.
  { injection H as <- <-. by apply bounded_refl. }
  destruct (step b o) as [b1 g1] eqn:E1. destruct (run b1 ops) as [b2 g2] eqn:E2.
  injection H as <- <-. pose proof (step_bounded _ _ _ _ Hb E1) as S1.
  eapply bounded_trans; [exact S1|]. apply IH; [apply S1|done].
Qed.

Lemma bucket_new_ok capacity refill clock b : bucket_new capacity refill clock = Ok b -> bucket_ok b.
Proof.
  intros H. unfold bucket_new in H. apply rbind_ok in H as (c & Hc & H).
  apply rbind_ok in H as (r & Hr & H). apply rbind_ok in H as (t & Ht & [= <-]).
  apply decimal_input_ok in Hc as [_ Hc]. apply decimal_input_ok in Hr as [_ Hr].
  specialize (Hc eq_refl). specialize (Hr eq_refl). apply raise_if_ok in Ht as [Ht [= <-]].
  bool_prop. split; cbn; try done; lra.
Qed.

(** C34: the rate limit holds.  Over any run of calls on a bucket, in any order
    and with any clock, also one that goes back, the sum of the granted costs is
    at most the capacity plus the hard refill rate times the time that passed;
    shrinking, restoring and observing never create tokens.  The level stays
    between zero and the capacity and the rate between zero and the hard rate. *)
Theorem rate_limit_holds (capacity refill_per_second : DecimalInput) (clock_ns : Z)
    (b : TokenBucket) (ops : list op) :
  bucket_new capacity refill_per_second clock_ns = Ok b ->
  let '(b', granted_sum) := run b ops in
  (granted_sum <= dval (_hard_capacity b) + dval (_hard_refill_per_second b)
     * inject_Z (_last_refill_ns b' - _last_refill_ns b) / inject_Z 1000000000)%Q /\
  (0 <= dval (_tokens b') <= dval (_hard_capacity b))%Q /\
  (0 <= dval (_refill_per_second b') <= dval (_hard_refill_per_second b))%Q.
Proof.
  intros Hnew. pose proof (bucket_new_ok _ _ _ _ Hnew) as Hb.
  destruct (run b ops) as [b' g] eqn:E.
  destruct (run_bounded b ops b' g Hb E) as (Hb' & _ & Ec & Eh & Hg & Hle).
  destruct Hb as [Hcap _ _ _ _ Ht Htc _]. destruct Hb' as [Hcap' _ Hr' Hrh' _ Ht' Htc' _].
  unfold earned in Hle. rewrite Hcap in Htc. rewrite Hcap', Ec in Htc'. rewrite Eh in Hrh'.
  split; [lra|]. split; [lra|lra].
Qed.

Definition sample_bucket : TokenBucket :=
  {| _hard_capacity := Dec 10 0; _capacity := Dec 10 0; _hard_refill_per_second := Dec 25 (-1);
     _refill_per_second := Dec 25 (-1); _tokens := Dec 10 0; _last_refill_ns := 0 |}.

Lemma sample_bucket_ok : bucket_ok sample_bucket.
Proof. by apply (bucket_new_ok (DInt 10) (DDec (Finite (Dec 25 (-1)))) 0). Qed.

Lemma refill_exact_witness :
  exists b', _refill sample_bucket (Some 7) 0 = Ok b' /\ bucket_ok b'.
Proof.
  destruct (refill_exact sample_bucket 7 0 sample_bucket_ok) as (b' & H1 & H2 & _); [lia|].
  by exists b'.
Defined.

Lemma ready_at_is_first_instant_witness :
  exists b' r, ready_at_ns (set_tokens sample_bucket (Dec 1 0) 0) (DInt 2) (Some 5) 0 = Ok (b', r) /\
    forall t, _last_refill_ns b' <= t ->
      ((exists b'', try_acquire b' (DInt 2) (Some t) 0 = Ok (b'', true)) <->
       match r with None => False | Some ready => ready <= t end).
Proof.
  apply (ready_at_is_first_instant (set_tokens sample_bucket (Dec 1 0) 0) (DInt 2) (Dec 2 0) 5 0).
  - split; vm_compute; done || discriminate.
  - vm_compute. reflexivity.
  - lia.
Defined.

Lemma rate_limit_holds_witness :
  let '(b', g) := run sample_bucket [Acquire (DInt 4) (Some 5) 0; Shrink (DDec (Finite (Dec 5 (-1)))) (DInt 0) 9] in
  (g <= dval (Dec 10 0) + dval (Dec 25 (-1)) * inject_Z (_last_refill_ns b' - 0) / inject_Z 1000000000)%Q /\
  (0 <= dval (_tokens b') <= dval (Dec 10 0))%Q /\
  (0 <= dval (_refill_per_second b') <= dval (Dec 25 (-1)))%Q.
Proof.
  exact (rate_limit_holds (DInt 10) (DDec (Finite (Dec 25 (-1)))) 0 sample_bucket
    [Acquire (DInt 4) (Some 5) 0; Shrink (DDec (Finite (Dec 5 (-1)))) (DInt 0) 9] eq_refl).
Defined.

Example ready_at_example :
  ready_at_ns (set_tokens sample_bucket (Dec 1 0) 0) (DInt 2) (Some 5) 0
  = Ok (set_tokens sample_bucket (Dec 10000000125 (-10)) 5, Some 400000000).
Proof. vm_compute. reflexivity. Qed.

(** ** [try_acquire_one] *)
Module RegistryFacts.
Import Registry.

(** Whether the bucket of [key] can pay [cost] at [now]. *)
Definition affordable (self : t) (cost : DecimalInput) (now : Z) (key : BudgetKey) : bool :=
  match (self : gmap BudgetKey TokenBucket) !! key with
  | None => false
  | Some b => match cost_input b cost with
              | Ok c => negb (dltb (_tokens (refill_to b now)) c)
              | Err _ => false
              end
  end.

(** Every key of the call is well formed, registered and able to hold the cost. *)
Definition callable (self : t) (cost : DecimalInput) (keys : list BudgetKey) : Prop :=
  Forall (fun key => _validate_key key = Ok key /\
    exists b c, (self : gmap BudgetKey TokenBucket) !! key = Some b /\ cost_input b cost = Ok c) keys.

(** The store once the buckets of [seen] were refilled and nothing was granted. *)
Definition refilled (self s : t) (now : Z) (seen : list BudgetKey) : Prop :=
  forall k, (s : gmap BudgetKey TokenBucket) !! k =
    if bool_decide (k ∈ seen) then (fun b => refill_to b now) <$> (self : gmap BudgetKey TokenBucket) !! k
    else (self : gmap BudgetKey TokenBucket) !! k.

(** The store after the call: [paid] was charged, every other bucket at most refilled. *)
Definition charged (self s : t) (cost : DecimalInput) (now : Z) (paid : option BudgetKey) : Prop :=
  forall k b, (self : gmap BudgetKey TokenBucket) !! k = Some b ->
    exists b', (s : gmap BudgetKey TokenBucket) !! k = Some b' /\
      if bool_decide (paid = Some k)
      then exists c, cost_input b cost = Ok c /\ (dval (_tokens b') == available b now - dval c)%Q
      else b' = b \/ b' = refill_to b now.

Lemma try_acquire_denied b cost c now clock :
  cost_input b cost = Ok c -> 0 <= now -> dltb (_tokens (refill_to b now)) c = true ->
  RateLimit.try_acquire b cost (Some now) clock = Ok (refill_to b now, false).
Proof.
  intros Hc Hn E. unfold RateLimit.try_acquire. rewrite Hc, refill_some by done. cbn [rbind].
  by rewrite E.
Qed.

Lemma try_acquire_granted b cost c now clock :
  bucket_ok b -> cost_input b cost = Ok c -> 0 <= now -> dltb (_tokens (refill_to b now)) c = false ->
  exists b', RateLimit.try_acquire b cost (Some now) clock = Ok (b', true) /\
    (dval (_tokens b') == available b now - dval c)%Q.
Proof.
  intros Hb Hc Hn E. unfold RateLimit.try_acquire. rewrite Hc, refill_some by done. cbn [rbind].
  rewrite E. eexists. split; [done|]. cbn. rewrite dsub_exact; [by rewrite refill_tokens|].
  unfold _calculation_precision, width. simpl. lia.
Qed.

Lemma on_bucket_ok {A} (s : t) key b (f : TokenBucket -> result (TokenBucket * A)) b' a :
  _validate_key key = Ok key -> (s : gmap BudgetKey TokenBucket) !! key = Some b -> f b = Ok (b', a) ->
  on_bucket key f s = (<[key := b']> (s : gmap BudgetKey TokenBucket), Ok a).
Proof. intros Hv Hs Hf. unfold on_bucket, bucket. rewrite Hv. cbn [rbind]. by rewrite Hs, Hf. Qed.

Lemma try_keys_spec keys : forall (self s : t) seen cost now clock,
  map_Forall (fun _ => bucket_ok) (self : gmap BudgetKey TokenBucket) -> 0 <= now ->
  callable self cost keys -> refilled self s now seen ->
  Forall (fun k => affordable self cost now k = false) seen ->
  exists s', try_keys keys seen cost (Some now) clock s
      = (s', Ok (find (affordable self cost now) keys)) /\
    charged self s' cost now (find (affordable self cost now) keys).
Proof.
  induction keys as [|key keys IH]; intros self s seen cost now clock Hok Hnow Hcall Href Hseen.
  { exists s. split; [done|]. intros k b Hk. specialize (Href k). rewrite Hk in Href.
    rewrite bool_decide_eq_false_2 by done. case_bool_decide; cbn in Href; eauto. }
  apply Forall_cons in Hcall as [(Hv & b & c & Hb & Hc) Hcall].
  cbn [try_keys find]. unfold mbind at 1, mlift. rewrite Hv.
  case_bool_decide as Hin.
  { rewrite (proj1 (Forall_forall _ _) Hseen key Hin). by apply IH. }
  assert (Hs : (s : gmap BudgetKey TokenBucket) !! key = Some b).
  { rewrite Href, bool_decide_eq_false_2 by done. done. }
  pose proof (map_Forall_lookup_1 _ _ _ _ Hok Hb) as Hbok. simpl in Hbok.
  assert (Haff : affordable self cost now key = negb (dltb (_tokens (refill_to b now)) c)).
  { unfold affordable. by rewrite Hb, Hc. }
  rewrite Haff. unfold mbind. destruct (dltb (_tokens (refill_to b now)) c) eqn:E; cbn [negb].
  - erewrite on_bucket_ok; [|done|exact Hs|by eapply try_acquire_denied].
    apply IH; [done|done|done| |constructor; [by rewrite Haff|done]].
    intros k. destruct (decide (k = key)) as [->|Hne].
    + rewrite lookup_insert_eq, bool_decide_eq_true_2 by left. by rewrite Hb.
    + rewrite lookup_insert_ne by done. rewrite Href.
      assert (bool_decide (k ∈ key :: seen) = bool_decide (k ∈ seen)) as ->; [|done].
      apply bool_decide_ext. rewrite elem_of_cons. tauto.
  - destruct (try_acquire_granted b cost c now clock Hbok Hc Hnow E) as (b' & Hacq & Hval).
    erewrite on_bucket_ok; [|done|exact Hs|exact Hacq].
    eexists. split; [done|]. intros k b0 Hk. destruct (decide (k = key)) as [->|Hne].
    + rewrite Hb in Hk. injection Hk as <-. eexists. split; [by rewrite lookup_insert_eq|].
      rewrite bool_decide_eq_true_2 by done. by exists c.
    + rewrite lookup_insert_ne by done. specialize (Href k). rewrite Hk in Href.
      rewrite bool_decide_eq_false_2 by congruence. case_bool_decide; cbn in Href; eauto.
Qed.

(** A call that may draw on several budgets draws on exactly one: the first
    key of the list that can pay, and [None] when no key can.  That bucket loses
    exactly the cost, and every other bucket is at most refilled. *)
Theorem try_acquire_one_first (self : t) (keys : list BudgetKey) (cost : DecimalInput)
    (now clock_ns : Z) :
  map_Forall (fun _ => bucket_ok) (self : gmap BudgetKey TokenBucket) -> 0 <= now ->
  keys <> [] -> callable self cost keys ->
  exists self', try_acquire_one keys cost (Some now) clock_ns self
      = (self', Ok (find (affordable self cost now) keys)) /\
    charged self self' cost now (find (affordable self cost now) keys).
Proof.
  intros Hok Hnow Hne Hcall. destruct keys as [|key keys]; [done|].
  apply try_keys_spec; [done|done|done| |constructor].
  intros k. by rewrite bool_decide_eq_false_2 by apply not_elem_of_nil.
Qed.

Definition sample_registry : t :=
  {[ ("x", "q", "a") := set_tokens sample_bucket (Dec 1 0) 0; ("x", "q", "b") := sample_bucket ]}.

Lemma try_acquire_one_first_witness :
  exists self', try_acquire_one [("x", "q", "a"); ("x", "q", "a"); ("x", "q", "b")] (DInt 5) (Some 0) 0
      sample_registry = (self', Ok (Some ("x", "q", "b"))).
Proof.
  destruct (try_acquire_one_first sample_registry
    [("x", "q", "a"); ("x", "q", "a"); ("x", "q", "b")] (DInt 5) 0 0) as (s & H & _).
  - apply map_Forall_insert; [done|]. split; [split; vm_compute; done || discriminate|].
    apply map_Forall_singleton, sample_bucket_ok.
  - lia.
  - done.
  - unfold callable. rewrite !Forall_cons, Forall_nil.
    repeat split; try reflexivity; eexists _, _; split; reflexivity.
  - exists s. rewrite H. vm_compute. reflexivity.
Defined.
End RegistryFacts.
