(* ===== verification/Retry.v ===== *)
(** [network/retry.py]: classification of HTTP failures, the [Retry-After]
    header, full-jitter exponential backoff, the retry decision and what a
    decision does to the quota state.  The random generator and the store of
    quota restrictions are interfaces (type classes); the date parser of the
    [email] package is a parameter. *)
From stdpp Require Import pretty.
From S2P Require Import Prelude PyDecimal RateLimit.

Definition _NANOSECONDS_PER_SECOND : Z := 1000000000.
Definition _MAX_DELAY_SECONDS_DIGITS : nat := 20.
Definition _RETRYABLE_HTTP_STATUSES : list Z := [408; 425; 500; 502; 503; 504].

Definition _nonnegative_integer (value : Z) (field : string) : result Z :=
  raise ValueError (field +:+ " must be a non-negative integer") when value <? 0;;
  Ok value.

Definition _positive_integer (value : Z) (field : string) : result Z :=
  let! value := _nonnegative_integer value field in
  raise ValueError (field +:+ " must be positive") when value =? 0;;
  Ok value.

(** ** Classification *)
Inductive RetryAction : Type := DO_NOT_RETRY | BACKOFF | THROTTLE | BAN.
#[export] Instance RetryAction_eq_dec : EqDecision RetryAction.
Proof. solve_decision. Defined.

Record RetryClassification : Type := {
  action : RetryAction; retry_after : option string; reason : string
}.
#[export] Instance RetryClassification_eq_dec : EqDecision RetryClassification.
Proof. solve_decision. Defined.

Definition classification_init (action : RetryAction) (retry_after : option string)
    (reason : string) : result RetryClassification :=
  raise ValueError "reason must be a non-empty string" when String.eqb reason "";;
  Ok {| action := action; retry_after := retry_after; reason := reason |}.

Definition classify_http (status : Z) (retry_after : option string) (explicit_ban : bool)
    : result RetryClassification :=
  raise ValueError "status must be an HTTP status integer"
    when negb ((100 <=? status) && (status <=? 599));;
  if explicit_ban then classification_init BAN retry_after "exchange_ban"
  else if status =? 418 then classification_init BAN retry_after "http_418"
  else if status =? 429 then classification_init THROTTLE retry_after "http_429"
  else if bool_decide (status ∈ _RETRYABLE_HTTP_STATUSES)
  then classification_init BACKOFF retry_after ("http_" +:+ pretty status)
  else classification_init DO_NOT_RETRY retry_after ("http_" +:+ pretty status).

Record RetryDecision : Type := {
  retry : bool; delay_ns : Z; decided : RetryAction; cause : string; decision_reason : string
}.
#[export] Instance RetryDecision_eq_dec : EqDecision RetryDecision.
Proof. solve_decision. Defined.

Definition decision_init (retry : bool) (delay_ns : Z) (action : RetryAction)
    (cause reason : string) : result RetryDecision :=
  let! delay_ns := _nonnegative_integer delay_ns "delay_ns" in
  raise ValueError "cause must be a non-empty string" when String.eqb cause "";;
  raise ValueError "reason must be a non-empty string" when String.eqb reason "";;
  Ok {| retry := retry; delay_ns := delay_ns; decided := action; cause := cause;
        decision_reason := reason |}.

(** ** The [Retry-After] header *)

(** A [datetime]: its local reading in microseconds after 1970-01-01 00:00, and
    the offset of its time zone, absent for a naive one. *)
Record datetime : Type := { local_us : Z; utcoffset_us : option Z }.

(** [datetime.min] and [datetime.max]: the years 1 to 9999. *)
Definition DATETIME_MIN_US : Z := - 719162 * 86400000000.
Definition DATETIME_MAX_US : Z := 2932897 * 86400000000 - 1.

(** [value.astimezone(UTC)]: overflows when the year leaves 1..9999. *)
Definition astimezone_utc (local offset : Z) : result Z :=
  let utc := local - offset in
  raise OverflowError "date value out of range"
    when negb ((DATETIME_MIN_US <=? utc) && (utc <=? DATETIME_MAX_US));;
  Ok utc.

Definition _datetime_to_unix_ns (local offset : Z) : result Z :=
  let! delta := astimezone_utc local offset in
  let days := delta / 86400000000 in
  let seconds := delta mod 86400000000 / 1000000 in
  let microseconds := delta mod 86400000000 mod 1000000 in
  Ok ((days * 86400 + seconds) * _NANOSECONDS_PER_SECOND + microseconds * 1000).

Definition delay_seconds_match (value : string) : bool :=
  digits_run (String.list_ascii_of_string value).

(** The exceptions the handler around the date parser catches. *)
Definition caught_date_error (e : exn) : bool :=
  match e with TypeError _ | ValueError _ | OverflowError _ => true | _ => false end.

Section Date.
Context (parsedate_to_datetime : string -> result datetime).

Definition parse_retry_after_ns (value : option string) (now_unix_ns : Z) : result (option Z) :=
  match value with
  | None => Ok None
  | Some value =>
      if String.eqb value "" then Ok None
      else if delay_seconds_match value then
        if (_MAX_DELAY_SECONDS_DIGITS <? String.length value)%nat then Ok None
        else Ok (Some (parse_digits (String.list_ascii_of_string value) * _NANOSECONDS_PER_SECOND))
      else
        let! now_unix_ns := _nonnegative_integer now_unix_ns "now_unix_ns" in
        match parsedate_to_datetime value with
        | Err e => if caught_date_error e then Ok None else Err e
        | Ok parsed =>
            match utcoffset_us parsed with
            | None => Ok None
            | Some offset =>
                let! target_unix_ns := _datetime_to_unix_ns (local_us parsed) offset in
                Ok (Some (Z.max 0 (target_unix_ns - now_unix_ns)))
            end
        end
  end.

(** ** Backoff *)

(** [int.bit_length] of a non-negative integer. *)
Definition bit_length (n : Z) : Z := if n =? 0 then 0 else Z.log2 n + 1.

Definition _exponential_limit (attempt base_ns cap_ns : Z) : Z :=
  if (cap_ns <=? base_ns) || (bit_length cap_ns <? attempt) then cap_ns
  else Z.min cap_ns (base_ns * Z.shiftl 1 attempt).

(** [random.Random]: [randrange(n)] draws from [0 <= r < n]. *)
Class Random (R : Type) : Type := {
  randrange : R -> Z -> R * Z;
  randrange_bounds : forall rng n, 0 < n -> 0 <= snd (randrange rng n) < n
}.

Context {R : Type} `{Random R}.

Definition full_jitter_ns (attempt base_ns cap_ns : Z) (rng : R) : R * result Z :=
  match (let! attempt := _nonnegative_integer attempt "attempt" in
         let! base_ns := _positive_integer base_ns "base_ns" in
         let! cap_ns := _positive_integer cap_ns "cap_ns" in
         Ok (_exponential_limit attempt base_ns cap_ns)) with
  | Err e => (rng, Err e)
  | Ok upper => let '(rng, r) := randrange rng (upper + 1) in (rng, Ok r)
  end.

(** ** [RetryPolicy] *)
Record RetryPolicy : Type := {
  _rng : R; _max_attempts : Z; _base_ns : Z; _cap_ns : Z
}.

Definition policy_new (rng : R) (max_attempts base_ns cap_ns : Z) : result RetryPolicy :=
  let! max_attempts := _positive_integer max_attempts "max_attempts" in
  let! base_ns := _positive_integer base_ns "base_ns" in
  let! cap_ns := _positive_integer cap_ns "cap_ns" in
  Ok {| _rng := rng; _max_attempts := max_attempts; _base_ns := base_ns; _cap_ns := cap_ns |}.

Definition set_rng (self : RetryPolicy) (rng : R) : RetryPolicy :=
  {| _rng := rng; _max_attempts := _max_attempts self; _base_ns := _base_ns self;
     _cap_ns := _cap_ns self |}.

(** The argument checks of [decide] and the classification it works with. *)
Definition decide_input (attempt now_ns deadline_ns : Z) (retry_after : option string)
    (classification : option RetryClassification) : result RetryClassification :=
  let! attempt := _nonnegative_integer attempt "attempt" in
  let! now_ns := _nonnegative_integer now_ns "now_ns" in
  let! deadline_ns := _nonnegative_integer deadline_ns "deadline_ns" in
  raise ValueError "deadline_ns cannot precede now_ns" when deadline_ns <? now_ns;;
  match classification with
  | Some c =>
      raise ValueError "retry_after is already carried by classification"
        when bool_decide (retry_after <> None);;
      Ok c
  | None => classification_init BACKOFF retry_after "transient_failure"
  end.

(** The wall clock is read only for a header that is not a number of seconds. *)
Definition header_delay (selected : RetryClassification) (clock_time_ns : Z) : result (option Z) :=
  match retry_after selected with
  | None => Ok None
  | Some value =>
      let! wall := (if delay_seconds_match value then Ok 0
                    else _nonnegative_integer clock_time_ns "clock.time_ns()") in
      parse_retry_after_ns (Some value) wall
  end.

(** The decision once the header delay and the jitter are known. *)
Definition conclude (self : RetryPolicy) (attempt remaining_ns : Z)
    (selected : RetryClassification) (parsed : option Z) (jitter_ns : Z) : result RetryDecision :=
  let delay_ns := Z.max (default 0 parsed) jitter_ns in
  if _max_attempts self <=? attempt then
    decision_init false delay_ns (action selected) (reason selected) "attempt_limit"
  else if (match parsed with Some d => remaining_ns <? d | None => false end) then
    decision_init false delay_ns (action selected) (reason selected) "retry_after_exceeds_deadline"
  else if remaining_ns <? delay_ns then
    decision_init false delay_ns (action selected) (reason selected) "backoff_exceeds_deadline"
  else decision_init true delay_ns (action selected) (reason selected) (reason selected).

Definition decide (attempt now_ns deadline_ns : Z) (retry_after : option string)
    (classification : option RetryClassification) (clock_time_ns : Z)
    : M RetryPolicy RetryDecision := fun self =>
  match decide_input attempt now_ns deadline_ns retry_after classification with
  | Err e => (self, Err e)
  | Ok selected =>
      if bool_decide (action selected = DO_NOT_RETRY) then
        (self, decision_init false 0 (action selected) (reason selected) (reason selected))
      else
        match header_delay selected clock_time_ns with
        | Err e => (self, Err e)
        | Ok parsed =>
            let '(rng, jitter) := full_jitter_ns attempt (_base_ns self) (_cap_ns self) (_rng self) in
            (set_rng self rng,
             let! jitter_ns := jitter in
             conclude self attempt (deadline_ns - now_ns) selected parsed jitter_ns)
        end
  end.
End Date.
Arguments RetryPolicy R : clear implicits.

(** ** What a decision does to the quota *)

(** What the retry code relies on: a ban that was recorded lasts at least until
    the instant it was given, and recording never shortens another ban. *)
Class QuotaRestrictionStore (S : Type) : Type := {
  record_ban : string -> string -> Z -> string -> M S unit;
  banned_until : S -> string -> string -> Z;
  record_ban_holds : forall exchange quota_group until reason s s',
    record_ban exchange quota_group until reason s = (s', Ok tt) ->
    until <= banned_until s' exchange quota_group;
  record_ban_monotone : forall exchange quota_group until reason s s' r e q,
    record_ban exchange quota_group until reason s = (s', r) ->
    banned_until s e q <= banned_until s' e q
}.

Definition apply_quota_retry_effect {S} `{QuotaRestrictionStore S} (decision : RetryDecision)
    (exchange quota_group : string) (now_unix_ns : Z)
    (throttle_multiplier minimum_refill_per_second : DecimalInput) (budget_clock_ns : Z)
    : M (S * TokenBucket) unit := fun '(state_store, budget) =>
  match decided decision with
  | BAN =>
      match _nonnegative_integer now_unix_ns "now_unix_ns" with
      | Err e => ((state_store, budget), Err e)
      | Ok now_unix_ns =>
          let '(state_store, r) :=
            record_ban exchange quota_group (now_unix_ns + delay_ns decision) (cause decision)
              state_store in
          ((state_store, budget), r)
      end
  | THROTTLE =>
      match shrink budget throttle_multiplier minimum_refill_per_second budget_clock_ns with
      | Err e => ((state_store, budget), Err e)
      | Ok budget => ((state_store, budget), Ok tt)
      end
  | _ => ((state_store, budget), Ok tt)
  end.

(** ** Facts *)
Lemma nonnegative_integer_ok v field : 0 <= v -> _nonnegative_integer v field = Ok v.
Proof. intros. unfold _nonnegative_integer, raise_if. by rewrite (proj2 (Z.ltb_ge v 0)) by lia. Qed.

Lemma nonnegative_integer_inv v field v' : _nonnegative_integer v field = Ok v' -> v' = v /\ 0 <= v.
Proof. unfold _nonnegative_integer. intros H. inv_ok. bool_prop. by subst. Qed.

Lemma positive_integer_ok v field : 0 < v -> _positive_integer v field = Ok v.
Proof.
  intros. unfold _positive_integer, raise_if. rewrite nonnegative_integer_ok by lia. cbn.
  by rewrite (proj2 (Z.eqb_neq v 0)) by lia.
Qed.

Lemma positive_integer_inv v field v' : _positive_integer v field = Ok v' -> v' = v /\ 0 < v.
Proof.
  unfold _positive_integer. intros H. apply rbind_ok in H as (w & Hw & H).
  apply nonnegative_integer_inv in Hw as [-> Hw]. inv_ok. bool_prop. lia.
Qed.

Lemma bit_length_spec n k : 0 < n -> bit_length n < k -> n < 2 ^ k.
Proof.
  intros Hn. unfold bit_length. rewrite (proj2 (Z.eqb_neq n 0)) by lia. intros Hk.
  apply Z.log2_lt_pow2; lia.
Qed.

Lemma exponential_limit_min attempt base cap :
  0 <= attempt -> 0 < base -> 0 < cap ->
  _exponential_limit attempt base cap = Z.min cap (base * 2 ^ attempt).
Proof.
  intros Ha Hb Hc. unfold _exponential_limit. rewrite Z.shiftl_1_l.
  assert (1 <= 2 ^ attempt) by (pose proof (Z.pow_pos_nonneg 2 attempt); lia).
  destruct (Z.leb_spec cap base); [simpl; nia|].
  destruct (Z.ltb_spec (bit_length cap) attempt) as [Hl|]; simpl; [|done].
  pose proof (bit_length_spec cap attempt Hc Hl). nia.
Qed.

Lemma datetime_ns local offset :
  DATETIME_MIN_US <= local - offset <= DATETIME_MAX_US ->
  _datetime_to_unix_ns local offset = Ok ((local - offset) * 1000).
Proof.
  intros Hr. unfold _datetime_to_unix_ns, astimezone_utc.
  rewrite (proj2 (Z.leb_le _ _)) by apply Hr. rewrite (proj2 (Z.leb_le _ _)) by apply Hr.
  cbn [andb negb raise_if rbind]. f_equal. unfold _NANOSECONDS_PER_SECOND.
  set (u := local - offset). pose proof (Z.div_mod u 86400000000).
  pose proof (Z.div_mod (u mod 86400000000) 1000000). lia.
Qed.

Lemma datetime_ns_overflow local offset :
  ~ DATETIME_MIN_US <= local - offset <= DATETIME_MAX_US ->
  _datetime_to_unix_ns local offset = Err (OverflowError "date value out of range").
Proof.
  intros Hr. unfold _datetime_to_unix_ns, astimezone_utc.
  destruct (Z.leb_spec DATETIME_MIN_US (local - offset));
    destruct (Z.leb_spec (local - offset) DATETIME_MAX_US); simpl; done || (exfalso; lia).
Qed.

Section Facts.
Context (parsedate_to_datetime : string -> result datetime).
Context {R : Type} `{Random R}.

Lemma full_jitter_ok attempt base cap (rng : R) :
  0 <= attempt -> 0 < base -> 0 < cap ->
  exists rng' j, full_jitter_ns attempt base cap rng = (rng', Ok j) /\
    0 <= j <= Z.min cap (base * 2 ^ attempt).
Proof.
  intros Ha Hb Hc. unfold full_jitter_ns.
  rewrite nonnegative_integer_ok, !positive_integer_ok by done. cbn [rbind].
  rewrite exponential_limit_min by done.
  set (upper := Z.min cap (base * 2 ^ attempt)).
  assert (0 <= upper) by (unfold upper; pose proof (Z.pow_nonneg 2 attempt); nia).
  pose proof (randrange_bounds rng (upper + 1) ltac:(lia)) as Hr.
  destruct (randrange rng (upper + 1)) as [rng' j]. exists rng', j. split; [done|].
  simpl in Hr. lia.
Qed.

Definition policy_ok (self : RetryPolicy R) : Prop :=
  0 < _max_attempts self /\ 0 < _base_ns self /\ 0 < _cap_ns self.

Lemma policy_new_ok rng max_attempts base cap self :
  policy_new rng max_attempts base cap = Ok self -> policy_ok self.
Proof.
  unfold policy_new. intros H'. inv_ok. repeat match goal with
  | E : _positive_integer _ _ = Ok _ |- _ => apply positive_integer_inv in E as [-> E]
  end. by repeat split.
Qed.

Lemma decision_init_ok r d a c q :
  0 <= d -> c <> "" -> q <> "" ->
  decision_init r d a c q
  = Ok {| retry := r; delay_ns := d; decided := a; cause := c; decision_reason := q |}.
Proof.
  intros Hd Hc Hq. unfold decision_init. rewrite nonnegative_integer_ok by done. cbn [rbind].
  apply String.eqb_neq in Hc, Hq. by rewrite Hc, Hq.
Qed.

(** What [conclude] returns, whatever branch it takes. *)
Lemma conclude_spec (self : RetryPolicy R) attempt remaining selected parsed jitter :
  reason selected <> "" -> 0 <= jitter ->
  exists d, conclude self attempt remaining selected parsed jitter = Ok d /\
    decided d = action selected /\ cause d = reason selected /\
    delay_ns d = Z.max (default 0 parsed) jitter /\
    (retry d = true <-> attempt < _max_attempts self /\ delay_ns d <= remaining).
Proof.
  intros Hr Hj. unfold conclude.
  destruct (Z.leb_spec (_max_attempts self) attempt).
  { rewrite decision_init_ok by (done || lia). eexists; split; [done|]; cbn. naive_solver lia. }
  destruct (match parsed with Some d => remaining <? d | None => false end) eqn:E.
  { rewrite decision_init_ok by (done || lia). eexists; split; [done|]; cbn.
    destruct parsed as [p|]; [|done]. bool_prop. cbn. naive_solver lia. }
  destruct (Z.ltb_spec remaining (Z.max (default 0 parsed) jitter)).
  { rewrite decision_init_ok by (done || lia). eexists; split; [done|]; cbn. naive_solver lia. }
  rewrite decision_init_ok by (done || lia). eexists; split; [done|]; cbn. naive_solver lia.
Qed.

Lemma decide_retryable (self : RetryPolicy R) attempt now deadline ra cl clock selected parsed :
  policy_ok self -> decide_input attempt now deadline ra cl = Ok selected ->
  reason selected <> "" -> action selected <> DO_NOT_RETRY ->
  header_delay parsedate_to_datetime selected clock = Ok parsed ->
  exists self' d jitter,
    decide parsedate_to_datetime attempt now deadline ra cl clock self = (self', Ok d) /\
    policy_ok self' /\ 0 <= jitter <= Z.min (_cap_ns self) (_base_ns self * 2 ^ attempt) /\
    decided d = action selected /\ cause d = reason selected /\
    delay_ns d = Z.max (default 0 parsed) jitter /\
    (retry d = true <-> attempt < _max_attempts self /\ now + delay_ns d <= deadline).
Proof.
  intros (Hm & Hb & Hc) Hin Hr Ha Hh. unfold decide. rewrite Hin, Hh.
  rewrite bool_decide_eq_false_2 by done.
  assert (Hat : 0 <= attempt).
  { unfold decide_input in Hin. apply rbind_ok in Hin as (? & E & _).
    by apply nonnegative_integer_inv in E as [_ E]. }
  destruct (full_jitter_ok attempt (_base_ns self) (_cap_ns self) (_rng self) Hat Hb Hc)
    as (rng & j & E & Hj). rewrite E. cbn [rbind].
  destruct (conclude_spec self attempt (deadline - now) selected parsed j) as (d & -> & H1 & H2 & H3 & H4);
    [done|lia|].
  exists (set_rng self rng), d, j. do 2 (split; [done|]). do 4 (split; [done|]).
  rewrite H4. intuition lia.
Qed.

(** The retry decision is made for every valid call and is right: the delay
    is the larger of the server's [Retry-After] and a jitter of at most
    [min(cap, base * 2^attempt)], and the request is retried exactly when the
    attempt limit is not reached and the delay ends before the deadline. *)
Theorem decide_within_deadline (self : RetryPolicy R) (attempt now_ns deadline_ns clock_ns : Z)
    (ra : option string) (classification : option RetryClassification)
    (selected : RetryClassification) (parsed : option Z) :
  policy_ok self ->
  decide_input attempt now_ns deadline_ns ra classification = Ok selected ->
  reason selected <> "" -> action selected <> DO_NOT_RETRY ->
  header_delay parsedate_to_datetime selected clock_ns = Ok parsed ->
  exists self' d jitter,
    decide parsedate_to_datetime attempt now_ns deadline_ns ra classification clock_ns self
      = (self', Ok d) /\
    policy_ok self' /\ 0 <= jitter <= Z.min (_cap_ns self) (_base_ns self * 2 ^ attempt) /\
    decided d = action selected /\ cause d = reason selected /\
    delay_ns d = Z.max (default 0 parsed) jitter /\
    (retry d = true <-> attempt < _max_attempts self /\ now_ns + delay_ns d <= deadline_ns).
Proof. apply decide_retryable. Qed.

(** C36: a [Retry-After] date is turned into the exact number of nanoseconds left,
    zero when it passed; a date whose UTC year leaves 1..9999 escapes as an
    [OverflowError]. *)
Theorem retry_after_date_exact (value : string) (local offset now_unix_ns : Z) :
  value <> "" -> delay_seconds_match value = false -> 0 <= now_unix_ns ->
  parsedate_to_datetime value = Ok {| local_us := local; utcoffset_us := Some offset |} ->
  parse_retry_after_ns parsedate_to_datetime (Some value) now_unix_ns =
    if decide_rel Z.le DATETIME_MIN_US (local - offset)
    then if decide_rel Z.le (local - offset) DATETIME_MAX_US
         then Ok (Some (Z.max 0 ((local - offset) * 1000 - now_unix_ns)))
         else Err (OverflowError "date value out of range")
    else Err (OverflowError "date value out of range").
Proof.
  intros Hv Hm Hn Hp. unfold parse_retry_after_ns. apply String.eqb_neq in Hv. rewrite Hv, Hm.
  rewrite nonnegative_integer_ok by done. cbn [rbind]. rewrite Hp. cbn [utcoffset_us local_us].
  destruct (decide_rel _ _ _); [|by rewrite datetime_ns_overflow by lia].
  destruct (decide_rel _ _ _); [by rewrite datetime_ns by lia|by rewrite datetime_ns_overflow by lia].
Qed.

(** A ban outlasts the server's [Retry-After].  When the decision taken on a
    ban is applied to a store of quota restrictions, whatever its
    implementation, the quota group is banned until at least the wall-clock time
    of the call plus the delay the header asks for. *)
Theorem ban_outlasts_retry_after {S} `{QuotaRestrictionStore S} (self self' : RetryPolicy R)
    (selected : RetryClassification) (attempt now_ns deadline_ns clock_ns delay wall_ns budget_clock : Z)
    (d : RetryDecision) (store store' : S) (budget budget' : TokenBucket)
    (exchange quota_group : string) (multiplier floor : DecimalInput) :
  policy_ok self -> action selected = BAN -> reason selected <> "" ->
  header_delay parsedate_to_datetime selected clock_ns = Ok (Some delay) ->
  decide parsedate_to_datetime attempt now_ns deadline_ns None (Some selected) clock_ns self
    = (self', Ok d) ->
  apply_quota_retry_effect d exchange quota_group wall_ns multiplier floor budget_clock
    (store, budget) = ((store', budget'), Ok tt) ->
  wall_ns + delay <= banned_until store' exchange quota_group.
Proof.
  intros Hp Ha Hr Hh Hd Hap.
  assert (Hin : decide_input attempt now_ns deadline_ns None (Some selected) = Ok selected).
  { unfold decide in Hd. destruct (decide_input _ _ _ _ _) eqn:E; [|done]. f_equal.
    unfold decide_input in E. by inv_ok. }
  destruct (decide_retryable self attempt now_ns deadline_ns None (Some selected) clock_ns
    selected (Some delay)) as (s1 & d1 & j & E & _ & Hj & E1 & _ & E3 & _);
    [done|done|done|by rewrite Ha|done|].
  rewrite Hd in E. injection E as <- <-. unfold apply_quota_retry_effect in Hap.
  rewrite E1, Ha in Hap. destruct (_nonnegative_integer _ _) eqn:En; [|done].
  apply nonnegative_integer_inv in En as [-> _].
  destruct (record_ban _ _ _ _ _) as [s r] eqn:Eb. injection Hap as -> -> ->.
  apply record_ban_holds in Eb. cbn in E3. lia.
Qed.
End Facts.

(** The overflow guard of [_exponential_limit] changes nothing: the limit is
    exactly [min(cap, base * 2^attempt)] for every attempt. *)
Theorem exponential_limit_exact (attempt base_ns cap_ns : Z) :
  0 <= attempt -> 0 < base_ns -> 0 < cap_ns ->
  _exponential_limit attempt base_ns cap_ns = Z.min cap_ns (base_ns * 2 ^ attempt).
Proof. apply exponential_limit_min. Qed.

Lemma exponential_limit_exact_witness :
  _exponential_limit 3 250 30000 = Z.min 30000 (250 * 2 ^ 3).
Proof. apply (exponential_limit_exact 3 250 30000); lia. Defined.

(** ** Concrete parameters *)
Module Samples.
(** A generator that always draws the largest value. *)
Definition top : Type := unit.

#[export] Instance top_random : Random top.
Proof. refine {| randrange := fun rng n => (rng, n - 1) |}. intros rng n Hn. simpl. lia. Defined.

Definition policy : RetryPolicy top :=
  {| _rng := tt; _max_attempts := 5; _base_ns := 250; _cap_ns := 30000 |}.

Definition banned : RetryClassification :=
  {| action := BAN; retry_after := Some "7"; reason := "http_418" |}.

(** A date parser that knows one date. *)
Definition parsedate (value : string) : result datetime :=
  if String.eqb value "Thu, 01 Jan 1970 00:00:10 GMT"
  then Ok {| local_us := 10000000; utcoffset_us := Some 0 |}
  else Err (ValueError "invalid date value or format").

(** A store with one ban per quota group. *)
Abbreviation bans := (gmap (string * string) Z).
#[export] Instance bans_store : QuotaRestrictionStore bans.
Proof.
  refine {| record_ban := fun e q until _ (s : bans) =>
      (<[(e, q) := Z.max until (default 0 (s !! (e, q)))]> s, Ok tt);
    banned_until := fun (s : bans) e q => default 0 (s !! (e, q)) |}.
  - intros e q until _ s s' [= <-]. cbn. rewrite lookup_insert_eq. simpl. lia.
  - intros e q until _ s s' r e' q' [= <- _]. cbn. destruct (base.decide ((e, q) = (e', q'))) as [<-|Hne].
    + rewrite lookup_insert_eq. simpl. lia.
    + by rewrite lookup_insert_ne.
Defined.
End Samples.
Import Samples.

Lemma decide_within_deadline_witness :
  exists self' d jitter,
    Retry.decide parsedate 2 0 7000000000 None (Some banned) 0 policy = (self', Ok d) /\
    policy_ok self' /\ 0 <= jitter <= Z.min 30000 (250 * 2 ^ 2) /\
    decided d = BAN /\ cause d = "http_418" /\
    delay_ns d = Z.max 7000000000 jitter /\
    (retry d = true <-> 2 < 5 /\ 0 + delay_ns d <= 7000000000).
Proof.
  apply (decide_within_deadline parsedate policy 2 0 7000000000 0 None (Some banned) banned
    (Some 7000000000)); [by repeat split|reflexivity|done|done|reflexivity].
Defined.

Lemma retry_after_date_exact_witness :
  parse_retry_after_ns parsedate (Some "Thu, 01 Jan 1970 00:00:10 GMT") 4000000000
  = Ok (Some 6000000000).
Proof.
  exact (retry_after_date_exact parsedate "Thu, 01 Jan 1970 00:00:10 GMT" 10000000 0 4000000000
    ltac:(done) eq_refl ltac:(lia) eq_refl).
Defined.

Lemma ban_outlasts_retry_after_witness :
  0 + 7000000000 <= banned_until ({[ ("x", "q") := 7000000000 ]} : bans) "x" "q".
Proof.
  apply (ban_outlasts_retry_after parsedate policy policy banned 0 0 1 0 7000000000 0 0
    {| retry := false; delay_ns := 7000000000; decided := BAN; cause := "http_418";
       decision_reason := "retry_after_exceeds_deadline" |} (∅ : bans)
    ({[ ("x", "q") := 7000000000 ]} : bans) sample_bucket sample_bucket "x" "q" (DInt 1) (DInt 0));
    [by repeat split|done|done|reflexivity|reflexivity|reflexivity].
Defined.

Example decide_jitter_example :
  Retry.decide parsedate 10 0 40000 None None 0 policy
  = (policy, Ok {| retry := false; delay_ns := 30000; decided := BACKOFF;
       cause := "transient_failure"; decision_reason := "attempt_limit" |}).
Proof. vm_compute. reflexivity. Qed.
