(* ===== verification/Health.v ===== *)
(** [network/health.py]: minted admissions, health snapshots and the quota and
    transport states, with the egress description they are keyed by.

    Object identity is a number: every admission and every mint carries the one it
    was created with, and [is] compares them.  Admissions arrive from callers, so
    the definitions take any record, also a tampered or forged one. *)
From S2P Require Import Prelude PyDecimal.

(** ** Egresses ([config/models.py], as far as the network code reads them) *)
Record Egress : Type := {
  id : string; quota_group : string; max_http_concurrency : Z; max_ws_connections : Z
}.
#[export] Instance Egress_eq_dec : EqDecision Egress.
Proof. solve_decision. Defined.

Definition EgressHealthKey : Type := string * string.

(** ** Claims *)
Inductive claim : Type :=
| CStr (s : string)
| CInt (z : Z)
| CTuple (items : list claim)
| CRef (identity : Z).

Fixpoint _claim_values_match (left right : claim) : bool :=
  match left, right with
  | CStr s, CStr s' => String.eqb s s'
  | CInt z, CInt z' => z =? z'
  | CTuple xs, CTuple ys =>
      (fix all xs ys :=
         match xs, ys with
         | [], [] => true
         | x :: xs, y :: ys => _claim_values_match x y && all xs ys
         | _, _ => false
         end) xs ys
  | CRef i, CRef i' => i =? i'
  | _, _ => false
  end.

Record _AdmissionMint : Type := {
  mint_identity : Z; _store_identity : Z; _claims : claim
}.

Definition belongs_to (self : _AdmissionMint) (store_identity : Z) : bool :=
  _store_identity self =? store_identity.

Definition matches (self : _AdmissionMint) (claims : claim) : bool :=
  _claim_values_match (_claims self) claims.

Definition _quota_probe_claims (exchange quota_group : string) (revision after : Z) : claim :=
  CTuple [CStr "quota"; CStr exchange; CStr quota_group; CInt revision; CInt after].

Definition _transport_probe_claims (exchange egress_id : string) (revision after : Z) : claim :=
  CTuple [CStr "transport"; CStr exchange; CStr egress_id; CInt revision; CInt after].

Definition _nonnegative (value : Z) (field_name : string) : result Z :=
  raise ValueError (field_name +:+ " must be a non-negative integer") when value <? 0;;
  Ok value.

(** ** [HealthSnapshot] *)
Record HealthSnapshot : Type := {
  unavailable : gset EgressHealthKey; probe_eligible : gset EgressHealthKey
}.
Definition empty_snapshot : HealthSnapshot := {| unavailable := ∅; probe_eligible := ∅ |}.

Definition snapshot_init (unavailable probe_eligible : gset EgressHealthKey) : result HealthSnapshot :=
  raise ValueError "probe-eligible egresses must also be unavailable"
    when negb (bool_decide (probe_eligible ⊆ unavailable));;
  Ok {| unavailable := unavailable; probe_eligible := probe_eligible |}.

Definition is_available (self : HealthSnapshot) (exchange egress_id : string) : bool :=
  negb (bool_decide ((exchange, egress_id) ∈ unavailable self)).

Definition may_probe (self : HealthSnapshot) (exchange egress_id : string) : bool :=
  bool_decide ((exchange, egress_id) ∈ probe_eligible self).

(** ** Probe admissions *)
Record QuotaProbeAdmission : Type := {
  q_identity : Z; q_exchange : string; q_quota_group : string;
  q_restriction_revision : Z; q_probe_after : Z; q_mint : _AdmissionMint
}.

Record TransportProbeAdmission : Type := {
  t_identity : Z; t_exchange : string; t_egress_id : string;
  t_restriction_revision : Z; t_probe_after : Z; t_mint : _AdmissionMint
}.

Definition quota_claims (self : QuotaProbeAdmission) : claim :=
  _quota_probe_claims (q_exchange self) (q_quota_group self)
    (q_restriction_revision self) (q_probe_after self).

Definition transport_claims (self : TransportProbeAdmission) : claim :=
  _transport_probe_claims (t_exchange self) (t_egress_id self)
    (t_restriction_revision self) (t_probe_after self).

Definition quota_post_init (self : QuotaProbeAdmission) : result QuotaProbeAdmission :=
  raise ValueError "quota probe admission keys must be non-empty strings"
    when String.eqb (q_exchange self) "" || String.eqb (q_quota_group self) "";;
  let! _ := _nonnegative (q_restriction_revision self) "restriction_revision" in
  let! _ := _nonnegative (q_probe_after self) "probe monotonic deadline" in
  raise ValueError "quota probe admission does not match minted claims"
    when negb (matches (q_mint self) (quota_claims self));;
  Ok self.

Definition transport_post_init (self : TransportProbeAdmission) : result TransportProbeAdmission :=
  raise ValueError "transport probe admission keys must be non-empty strings"
    when String.eqb (t_exchange self) "" || String.eqb (t_egress_id self) "";;
  let! _ := _nonnegative (t_restriction_revision self) "restriction_revision" in
  let! _ := _nonnegative (t_probe_after self) "probe monotonic deadline" in
  raise ValueError "transport probe admission does not match minted claims"
    when negb (matches (t_mint self) (transport_claims self));;
  Ok self.

Definition quota_belongs_to (self : QuotaProbeAdmission) (store_identity : Z) : bool :=
  matches (q_mint self) (quota_claims self) && belongs_to (q_mint self) store_identity.

Definition transport_belongs_to (self : TransportProbeAdmission) (store_identity : Z) : bool :=
  matches (t_mint self) (transport_claims self) && belongs_to (t_mint self) store_identity.

(** [_minted]: [oid] is the identity of the new object, [oid + 1] of its mint. *)
Definition quota_minted (oid : Z) (exchange quota_group : string)
    (revision after store_identity : Z) : result QuotaProbeAdmission :=
  quota_post_init
    {| q_identity := oid; q_exchange := exchange; q_quota_group := quota_group;
       q_restriction_revision := revision; q_probe_after := after;
       q_mint := {| mint_identity := oid + 1; _store_identity := store_identity;
         _claims := _quota_probe_claims exchange quota_group revision after |} |}.

Definition transport_minted (oid : Z) (exchange egress_id : string)
    (revision after store_identity : Z) : result TransportProbeAdmission :=
  transport_post_init
    {| t_identity := oid; t_exchange := exchange; t_egress_id := egress_id;
       t_restriction_revision := revision; t_probe_after := after;
       t_mint := {| mint_identity := oid + 1; _store_identity := store_identity;
         _claims := _transport_probe_claims exchange egress_id revision after |} |}.

(** ** [AdmittedHealth] *)
Record AdmittedHealth : Type := {
  probe_after_monotonic_ns : list (EgressHealthKey * Z);
  quota_probe_admissions : list QuotaProbeAdmission;
  transport_probe_admissions : list TransportProbeAdmission;
  health_mint : option _AdmissionMint
}.

Definition _admitted_health_claims (probe_after : list (EgressHealthKey * Z))
    (quota : list QuotaProbeAdmission) (transport : list TransportProbeAdmission) : claim :=
  CTuple [CStr "health";
    CTuple ((fun '((e, i), deadline) => CTuple [CTuple [CStr e; CStr i]; CInt deadline]) <$> probe_after);
    CTuple ((fun a => CTuple [CRef (q_identity a); CRef (mint_identity (q_mint a)); quota_claims a]) <$> quota);
    CTuple ((fun a => CTuple [CRef (t_identity a); CRef (mint_identity (t_mint a)); transport_claims a])
              <$> transport)].

Fixpoint check_probe_keys (keys : list EgressHealthKey) (l : list (EgressHealthKey * Z)) : result () :=
  match l with
  | [] => Ok tt
  | (key, deadline) :: l =>
      raise ValueError "admitted health keys must be non-empty strings"
        when String.eqb key.1 "" || String.eqb key.2 "";;
      raise ValueError "admitted health keys must be unique" when bool_decide (key ∈ keys);;
      let! _ := _nonnegative deadline "probe monotonic deadline" in
      check_probe_keys (key :: keys) l
  end.

Definition admitted_post_init (self : AdmittedHealth) : result AdmittedHealth :=
  let! _ := check_probe_keys [] (probe_after_monotonic_ns self) in
  raise ValueError "quota probe admission keys must be unique"
    when negb (bool_decide (NoDup ((fun a => (q_exchange a, q_quota_group a))
                                     <$> quota_probe_admissions self)));;
  raise ValueError "transport probe admission keys must be unique"
    when negb (bool_decide (NoDup ((fun a => (t_exchange a, t_egress_id a))
                                     <$> transport_probe_admissions self)));;
  let claims := _admitted_health_claims (probe_after_monotonic_ns self)
    (quota_probe_admissions self) (transport_probe_admissions self) in
  match health_mint self with
  | None =>
      raise ValueError "non-empty admitted health requires minted claims"
        when negb (match probe_after_monotonic_ns self, quota_probe_admissions self,
                         transport_probe_admissions self with
                   | [], [], [] => true | _, _, _ => false end);;
      Ok self
  | Some mint =>
      raise ValueError "admitted health does not match minted claims"
        when negb (matches mint claims);;
      Ok self
  end.

Definition admitted_minted (oid : Z) (probe_after : list (EgressHealthKey * Z))
    (quota : list QuotaProbeAdmission) (transport : list TransportProbeAdmission)
    (store_identity : Z) : result AdmittedHealth :=
  admitted_post_init
    {| probe_after_monotonic_ns := probe_after; quota_probe_admissions := quota;
       transport_probe_admissions := transport;
       health_mint := Some {| mint_identity := oid; _store_identity := store_identity;
         _claims := _admitted_health_claims probe_after quota transport |} |}.

Definition snapshot (self : AdmittedHealth) (now_monotonic_ns : Z) : result HealthSnapshot :=
  let! now := _nonnegative now_monotonic_ns "now_monotonic_ns" in
  snapshot_init
    (list_to_set (fst <$> probe_after_monotonic_ns self))
    (list_to_set (fst <$> filter (fun kd => snd kd <= now) (probe_after_monotonic_ns self))).

Definition quota_probe (self : AdmittedHealth) (exchange quota_group : string)
    : option QuotaProbeAdmission :=
  find (fun a => String.eqb (q_exchange a) exchange && String.eqb (q_quota_group a) quota_group)
    (quota_probe_admissions self).

Definition transport_probe (self : AdmittedHealth) (exchange egress_id : string)
    : option TransportProbeAdmission :=
  find (fun a => String.eqb (t_exchange a) exchange && String.eqb (t_egress_id a) egress_id)
    (transport_probe_admissions self).

(** ** Stored states *)
Record QuotaState : Type := {
  qs_exchange : string; qs_quota_group : string;
  ban_until_unix_ns : Z; cooldown_until_unix_ns : Z; current_rate_multiplier : dec;
  last_reason : option string; restriction_revision : Z
}.

Definition restriction_until_unix_ns (self : QuotaState) : Z :=
  Z.max (ban_until_unix_ns self) (cooldown_until_unix_ns self).
Definition quota_requires_probe (self : QuotaState) : bool := bool_decide (last_reason self <> None).

Record EgressHealthState : Type := {
  es_exchange : string; es_egress_id : string; consecutive_transport_failures : Z;
  transport_cooldown_until_unix_ns : Z; last_success_unix_ns : option Z;
  last_latency_ns : option Z; transport_last_reason : option string;
  transport_restriction_revision : Z
}.

Definition egress_requires_probe (self : EgressHealthState) : bool :=
  0 <? consecutive_transport_failures self.

(** ** Facts *)
Lemma nonnegative_ok v f : 0 <= v -> _nonnegative v f = Ok v.
Proof. intros. unfold _nonnegative, raise_if. by rewrite (proj2 (Z.ltb_ge v 0)) by lia. Qed.

Lemma nonnegative_inv v f w : _nonnegative v f = Ok w -> w = v /\ 0 <= v.
Proof. unfold _nonnegative. intros H. inv_ok. bool_prop. by subst. Qed.

Fixpoint claim_size (c : claim) : nat :=
  match c with CTuple l => S (foldr (fun c n => claim_size c + n) 0 l) | _ => 1 end%nat.

Lemma claim_match_spec left right : _claim_values_match left right = true <-> left = right.
Proof.
  remember (claim_size left) as n eqn:Hn. assert (Hle : (claim_size left <= n)%nat) by lia.
  clear Hn. revert left right Hle.
  induction n as [|n IH]; intros left right Hle; [destruct left; simpl in Hle; lia|].
  destruct left as [s|z|xs|i], right as [s'|z'|ys|i']; try (simpl; by split).
  - simpl. rewrite String.eqb_eq. naive_solver.
  - simpl. rewrite Z.eqb_eq. naive_solver.
  - simpl in Hle. assert (Hxs : (foldr (fun c n => claim_size c + n) 0 xs <= n)%nat) by lia. clear Hle.
    cut (_claim_values_match (CTuple xs) (CTuple ys) = true <-> xs = ys); [naive_solver|].
    revert ys. induction xs as [|x xs IHxs]; intros [|y ys]; try (simpl; by split).
    simpl in Hxs. change (_claim_values_match x y && _claim_values_match (CTuple xs) (CTuple ys) = true
      <-> x :: xs = y :: ys). rewrite andb_true_iff, IHxs, IH by lia. naive_solver.
  - simpl. rewrite Z.eqb_eq. naive_solver.
Qed.

Lemma claim_match_refl c : _claim_values_match c c = true.
Proof. by apply claim_match_spec. Qed.

Lemma quota_claims_inj a b : quota_claims a = quota_claims b ->
  q_exchange a = q_exchange b /\ q_quota_group a = q_quota_group b /\
  q_restriction_revision a = q_restriction_revision b /\ q_probe_after a = q_probe_after b.
Proof. unfold quota_claims, _quota_probe_claims. by intros [= -> -> -> ->]. Qed.

Lemma transport_claims_inj a b : transport_claims a = transport_claims b ->
  t_exchange a = t_exchange b /\ t_egress_id a = t_egress_id b /\
  t_restriction_revision a = t_restriction_revision b /\ t_probe_after a = t_probe_after b.
Proof. unfold transport_claims, _transport_probe_claims. by intros [= -> -> -> ->]. Qed.

Lemma quota_transport_claims a b : quota_claims a <> transport_claims b.
Proof. done. Qed.

Lemma eqb_empty_false s : s <> "" -> String.eqb s "" = false.
Proof. apply String.eqb_neq. Qed.

Lemma quota_minted_ok oid e g rev after store :
  e <> "" -> g <> "" -> 0 <= rev -> 0 <= after ->
  exists a, quota_minted oid e g rev after store = Ok a /\ q_identity a = oid /\
    quota_claims a = _quota_probe_claims e g rev after /\ quota_belongs_to a store = true.
Proof.
  intros He Hg Hr Ha. unfold quota_minted, quota_post_init, matches. cbn [q_exchange q_quota_group
    q_restriction_revision q_probe_after q_mint _claims].
  rewrite !eqb_empty_false, !nonnegative_ok by done. cbn [orb raise_if rbind].
  unfold quota_claims at 1. cbn [q_exchange q_quota_group q_restriction_revision q_probe_after].
  rewrite claim_match_refl. cbn [negb raise_if]. eexists. do 3 (split; [done|]).
  unfold quota_belongs_to, matches, belongs_to, quota_claims. cbn -[_claim_values_match].
  by rewrite claim_match_refl, Z.eqb_refl.
Qed.

Lemma transport_minted_ok oid e i rev after store :
  e <> "" -> i <> "" -> 0 <= rev -> 0 <= after ->
  exists a, transport_minted oid e i rev after store = Ok a /\ t_identity a = oid /\
    transport_claims a = _transport_probe_claims e i rev after /\ transport_belongs_to a store = true.
Proof.
  intros He Hg Hr Ha. unfold transport_minted, transport_post_init, matches. cbn [t_exchange t_egress_id
    t_restriction_revision t_probe_after t_mint _claims].
  rewrite !eqb_empty_false, !nonnegative_ok by done. cbn [orb raise_if rbind].
  unfold transport_claims at 1. cbn [t_exchange t_egress_id t_restriction_revision t_probe_after].
  rewrite claim_match_refl. cbn [negb raise_if]. eexists. do 3 (split; [done|]).
  unfold transport_belongs_to, matches, belongs_to, transport_claims. cbn -[_claim_values_match].
  by rewrite claim_match_refl, Z.eqb_refl.
Qed.

Lemma check_probe_keys_ok keys l :
  Forall (fun kd : EgressHealthKey * Z => kd.1.1 <> "" /\ kd.1.2 <> "" /\ 0 <= kd.2) l ->
  NoDup l.*1 -> (forall k, k ∈ l.*1 -> k ∉ keys) -> check_probe_keys keys l = Ok tt.
Proof.
  intros Hl. revert keys. induction Hl as [|[[e i] d] l (He & Hi & Hd) Hl IH]; intros keys HND Hdis; [done|].
  simpl in HND. apply NoDup_cons in HND as [Hni HND]. simpl in *.
  rewrite !eqb_empty_false by done. cbn [orb raise_if].
  rewrite bool_decide_eq_false_2 by (apply Hdis; left). cbn [raise_if].
  rewrite nonnegative_ok by done. cbn [rbind]. apply IH; [done|].
  intros k Hk. apply not_elem_of_cons. split; [by intros ->|apply Hdis; by right].
Qed.

Lemma admitted_minted_ok oid l quota transport store :
  Forall (fun kd : EgressHealthKey * Z => kd.1.1 <> "" /\ kd.1.2 <> "" /\ 0 <= kd.2) l ->
  NoDup l.*1 -> NoDup ((fun a => (q_exchange a, q_quota_group a)) <$> quota) ->
  NoDup ((fun a => (t_exchange a, t_egress_id a)) <$> transport) ->
  exists h, admitted_minted oid l quota transport store = Ok h /\
    probe_after_monotonic_ns h = l /\ quota_probe_admissions h = quota /\
    transport_probe_admissions h = transport.
Proof.
  intros Hl HND Hq Ht. unfold admitted_minted, admitted_post_init.
  cbn [probe_after_monotonic_ns quota_probe_admissions transport_probe_admissions health_mint].
  rewrite check_probe_keys_ok; [|done|done|intros; apply not_elem_of_nil]. cbn [rbind].
  rewrite !bool_decide_eq_true_2 by done. cbn [negb raise_if]. unfold matches.
  cbn [_claims]. rewrite claim_match_refl. cbn [negb raise_if]. by eexists.
Qed.

(** What a snapshot says of an egress. *)
Lemma snapshot_ok h now : 0 <= now ->
  exists s, snapshot h now = Ok s /\
    (forall e i, is_available s e i = true <-> (e, i) ∉ (probe_after_monotonic_ns h).*1) /\
    (forall e i, may_probe s e i = true <->
       exists d, ((e, i), d) ∈ probe_after_monotonic_ns h /\ d <= now).
Proof.
  intros Hn. unfold snapshot. rewrite nonnegative_ok by done. cbn [rbind]. unfold snapshot_init.
  rewrite bool_decide_eq_true_2.
  - cbn [negb raise_if]. eexists. split; [done|]. unfold is_available, may_probe. cbn.
    split; intros e i.
    + rewrite negb_true_iff, bool_decide_eq_false. by rewrite elem_of_list_to_set.
    + rewrite bool_decide_eq_true, elem_of_list_to_set, list_elem_of_fmap. split.
      * intros ([k d] & E & Hk). simpl in E. subst k. apply list_elem_of_filter in Hk as [Hd Hk].
        by exists d.
      * intros (d & Hk & Hd). exists ((e, i), d). split; [done|]. by apply list_elem_of_filter.
  - intros k. rewrite !elem_of_list_to_set, !list_elem_of_fmap. intros (x & -> & Hx).
    apply list_elem_of_filter in Hx as [_ Hx]. by exists x.
Qed.
