(* ===== verification/StateStore.v ===== *)
(** [network/state_store.py]: the SQLite store of quota bans, cooldowns, rate
    multipliers and transport failures, and the probe admissions that lift them.

    The two tables are finite maps from their primary keys to rows; an upsert or
    an update has SQL's meaning on them.  Opening the file, the schema checks and
    closing are not modelled.  Identities of Python objects come from a counter
    and are never reused: the code drops an entry of the issue table when its
    object dies, which is what makes [id] safe there. *)
From S2P Require Import Prelude PyDecimal RateLimit Retry Health.

Record QuotaRow : Type := {
  ban_until_ns : Z; cooldown_until_ns : Z; rate_multiplier : dec;
  quota_reason : option string; quota_revision : Z
}.

Record EgressRow : Type := {
  failures : Z; transport_cooldown_until_ns : Z; last_success_ns : option Z;
  latency_ns : option Z; egress_reason : option string; egress_revision : Z
}.

Abbreviation QuotaTable := (gmap (string * string) QuotaRow).
Abbreviation EgressTable := (gmap (string * string) EgressRow).

Record Store : Type := {
  admission_identity : Z;
  next_identity : Z;
  issued : gmap Z claim;
  quota_state : QuotaTable;
  egress_state : EgressTable
}.

Definition new_store (identity : Z) : Store :=
  {| admission_identity := identity; next_identity := identity + 1; issued := ∅;
     quota_state := ∅; egress_state := ∅ |}.

Definition set_quota (self : Store) (t : QuotaTable) : Store :=
  {| admission_identity := admission_identity self; next_identity := next_identity self;
     issued := issued self; quota_state := t; egress_state := egress_state self |}.
Definition set_egress (self : Store) (t : EgressTable) : Store :=
  {| admission_identity := admission_identity self; next_identity := next_identity self;
     issued := issued self; quota_state := quota_state self; egress_state := t |}.
Definition set_issued (self : Store) (next : Z) (i : gmap Z claim) : Store :=
  {| admission_identity := admission_identity self; next_identity := next;
     issued := i; quota_state := quota_state self; egress_state := egress_state self |}.

Definition _nonempty (value field : string) : result string :=
  raise ValueError (field +:+ " must be a non-empty string") when String.eqb value "";;
  Ok value.

(** Binding a Python integer to an SQLite parameter. *)
Definition sqlite_int (value : Z) : result Z :=
  raise OverflowError "Python int too large to convert to SQLite INTEGER"
    when negb ((- 2 ^ 63 <=? value) && (value <=? MAX_INT64));;
  Ok value.

(** ** Reading *)
Definition quota_row_state (exchange quota_group : string) (row : option QuotaRow) : QuotaState :=
  match row with
  | None =>
      {| qs_exchange := exchange; qs_quota_group := quota_group; ban_until_unix_ns := 0;
         cooldown_until_unix_ns := 0; current_rate_multiplier := Dec 1 0; last_reason := None;
         restriction_revision := 0 |}
  | Some r =>
      {| qs_exchange := exchange; qs_quota_group := quota_group;
         ban_until_unix_ns := ban_until_ns r; cooldown_until_unix_ns := cooldown_until_ns r;
         current_rate_multiplier := rate_multiplier r; last_reason := quota_reason r;
         restriction_revision := quota_revision r |}
  end.

Definition load_quota (self : Store) (exchange quota_group : string) : result QuotaState :=
  let! exchange := _nonempty exchange "exchange" in
  let! quota_group := _nonempty quota_group "quota_group" in
  Ok (quota_row_state exchange quota_group (quota_state self !! (exchange, quota_group))).

Definition egress_row_state (exchange egress_id : string) (row : option EgressRow) : EgressHealthState :=
  match row with
  | None =>
      {| es_exchange := exchange; es_egress_id := egress_id; consecutive_transport_failures := 0;
         transport_cooldown_until_unix_ns := 0; last_success_unix_ns := None;
         Health.last_latency_ns := None; transport_last_reason := None;
         transport_restriction_revision := 0 |}
  | Some r =>
      {| es_exchange := exchange; es_egress_id := egress_id;
         consecutive_transport_failures := failures r;
         transport_cooldown_until_unix_ns := transport_cooldown_until_ns r;
         last_success_unix_ns := last_success_ns r; Health.last_latency_ns := latency_ns r;
         transport_last_reason := egress_reason r;
         transport_restriction_revision := egress_revision r |}
  end.

Definition load_egress (self : Store) (exchange egress_id : string) : result EgressHealthState :=
  let! exchange := _nonempty exchange "exchange" in
  let! egress_id := _nonempty egress_id "egress_id" in
  Ok (egress_row_state exchange egress_id (egress_state self !! (exchange, egress_id))).

(** ** Restrictions *)

(** The upsert of [_record_quota_restriction]. *)
Definition upsert_restriction (ban_column : bool) (until : Z) (reason : string)
    (row : option QuotaRow) : QuotaRow :=
  match row with
  | None =>
      {| ban_until_ns := if ban_column then until else 0;
         cooldown_until_ns := if ban_column then 0 else until;
         rate_multiplier := Dec 1 0; quota_reason := Some reason; quota_revision := 1 |}
  | Some r =>
      {| ban_until_ns := if ban_column then Z.max (ban_until_ns r) until else ban_until_ns r;
         cooldown_until_ns :=
           if ban_column then cooldown_until_ns r else Z.max (cooldown_until_ns r) until;
         rate_multiplier := rate_multiplier r; quota_reason := Some reason;
         quota_revision := quota_revision r + 1 |}
  end.

Definition _record_quota_restriction (exchange quota_group column : string) (until_unix_ns : Z)
    (reason : string) : M Store unit := fun self =>
  let checked :=
    let! exchange := _nonempty exchange "exchange" in
    let! quota_group := _nonempty quota_group "quota_group" in
    let! until := _nonnegative until_unix_ns "until_unix_ns" in
    let! reason := _nonempty reason "reason" in
    raise ValueError "invalid quota restriction column"
      when negb (String.eqb column "ban_until_ns" || String.eqb column "cooldown_until_ns");;
    sqlite_int until in
  match checked with
  | Err e => (self, Err e)
  | Ok until =>
      let key := (exchange, quota_group) in
      (set_quota self (<[key :=
         upsert_restriction (String.eqb column "ban_until_ns") until reason (quota_state self !! key)]>
         (quota_state self)), Ok tt)
  end.

Definition record_ban (exchange quota_group : string) (until_unix_ns : Z) (reason : string)
    : M Store unit :=
  _record_quota_restriction exchange quota_group "ban_until_ns" until_unix_ns reason.

Definition record_cooldown (exchange quota_group : string) (until_unix_ns : Z) (reason : string)
    : M Store unit :=
  _record_quota_restriction exchange quota_group "cooldown_until_ns" until_unix_ns reason.

Definition set_rate_multiplier (exchange quota_group : string) (multiplier : decimal)
    : M Store unit := fun self =>
  let checked :=
    let! exchange := _nonempty exchange "exchange" in
    let! quota_group := _nonempty quota_group "quota_group" in
    match multiplier with
    | NonFinite => Err (ValueError "multiplier must be finite and in the interval (0, 1]")
    | Finite d =>
        raise ValueError "multiplier must be finite and in the interval (0, 1]"
          when negb (dltb dzero d && dleb d (Dec 1 0));;
        Ok d
    end in
  match checked with
  | Err e => (self, Err e)
  | Ok encoded =>
      let key := (exchange, quota_group) in
      let row := match quota_state self !! key with
        | None => {| ban_until_ns := 0; cooldown_until_ns := 0; rate_multiplier := encoded;
                     quota_reason := None; quota_revision := 0 |}
        | Some r => {| ban_until_ns := ban_until_ns r; cooldown_until_ns := cooldown_until_ns r;
                       rate_multiplier := encoded; quota_reason := quota_reason r;
                       quota_revision := quota_revision r |}
        end in
      (set_quota self (<[key := row]> (quota_state self)), Ok tt)
  end.

Definition upsert_failure (reason : string) (cooldown : Z) (row : option EgressRow) : EgressRow :=
  match row with
  | None =>
      {| failures := 1; transport_cooldown_until_ns := cooldown; last_success_ns := None;
         latency_ns := None; egress_reason := Some reason; egress_revision := 1 |}
  | Some r =>
      {| failures := failures r + 1;
         transport_cooldown_until_ns := Z.max (transport_cooldown_until_ns r) cooldown;
         last_success_ns := last_success_ns r; latency_ns := latency_ns r;
         egress_reason := Some reason; egress_revision := egress_revision r + 1 |}
  end.

Definition record_transport_failure (exchange egress_id reason : string)
    (cooldown_until_unix_ns : Z) : M Store unit := fun self =>
  let checked :=
    let! exchange := _nonempty exchange "exchange" in
    let! egress_id := _nonempty egress_id "egress_id" in
    let! reason := _nonempty reason "reason" in
    let! cooldown := _nonnegative cooldown_until_unix_ns "cooldown_until_unix_ns" in
    sqlite_int cooldown in
  match checked with
  | Err e => (self, Err e)
  | Ok cooldown =>
      let key := (exchange, egress_id) in
      (set_egress self (<[key := upsert_failure reason cooldown (egress_state self !! key)]>
         (egress_state self)), Ok tt)
  end.

(** ** Probe successes *)

(** The entry of the issue table is that of this object and has its claims. *)
Definition __is_issued_probe_admission (self : Store) (oid : Z) (claims : claim) : bool :=
  match issued self !! oid with
  | Some recorded => _claim_values_match recorded claims
  | None => false
  end.

Definition clear_quota (r : QuotaRow) : QuotaRow :=
  {| ban_until_ns := 0; cooldown_until_ns := 0; rate_multiplier := rate_multiplier r;
     quota_reason := None; quota_revision := quota_revision r + 1 |}.

(** The [WHERE] of the quota update. *)
Definition quota_pending (revision : Z) (r : QuotaRow) : bool :=
  (quota_revision r =? revision) && bool_decide (quota_reason r <> None).

Definition record_quota_probe_success (admission : QuotaProbeAdmission) (observed_monotonic_ns : Z)
    : M Store unit := fun self =>
  let checked :=
    raise ValueError "quota probe admission belongs to a different store"
      when negb (quota_belongs_to admission (admission_identity self));;
    raise ValueError "quota probe admission was not issued by admit_health"
      when negb (__is_issued_probe_admission self (q_identity admission) (quota_claims admission));;
    let! observed := _nonnegative observed_monotonic_ns "observed_monotonic_ns" in
    raise ValueError "quota probe cannot recover an active restriction"
      when observed <? q_probe_after admission;;
    sqlite_int (q_restriction_revision admission) in
  match checked with
  | Err e => (self, Err e)
  | Ok revision =>
      let key := (q_exchange admission, q_quota_group admission) in
      let updated := match quota_state self !! key with
        | Some r => if quota_pending revision r then Some (clear_quota r) else None
        | None => None
        end in
      match updated with
      | Some r => (set_quota self (<[key := r]> (quota_state self)), Ok tt)
      | None =>
          (self,
           let! state := load_quota self (q_exchange admission) (q_quota_group admission) in
           raise StaleProbeError "quota probe observed a stale restriction revision"
             when negb (restriction_revision state =? revision);;
           Err (StaleProbeError "quota probe has no matching pending restriction"))
      end
  end.

Definition clear_egress (success latency : Z) (r : EgressRow) : EgressRow :=
  {| failures := 0; transport_cooldown_until_ns := 0; last_success_ns := Some success;
     latency_ns := Some latency; egress_reason := None; egress_revision := egress_revision r + 1 |}.

Definition egress_pending (revision : Z) (r : EgressRow) : bool :=
  (egress_revision r =? revision) && (0 <? failures r).

Definition record_transport_probe_success (admission : TransportProbeAdmission)
    (observed_monotonic_ns observed_unix_ns latency : Z) : M Store unit := fun self =>
  let checked :=
    raise ValueError "transport probe admission belongs to a different store"
      when negb (transport_belongs_to admission (admission_identity self));;
    raise ValueError "transport probe admission was not issued by admit_health"
      when negb (__is_issued_probe_admission self (t_identity admission) (transport_claims admission));;
    let! observed := _nonnegative observed_monotonic_ns "observed_monotonic_ns" in
    let! observed_unix := _nonnegative observed_unix_ns "observed_unix_ns" in
    let! latency := _nonnegative latency "latency_ns" in
    raise ValueError "probe cannot recover an active transport cooldown"
      when observed <? t_probe_after admission;;
    let! success := sqlite_int observed_unix in
    let! latency := sqlite_int latency in
    let! revision := sqlite_int (t_restriction_revision admission) in
    Ok ((success, latency), revision) in
  match checked with
  | Err e => (self, Err e)
  | Ok ((success, latency), revision) =>
      let key := (t_exchange admission, t_egress_id admission) in
      let updated := match egress_state self !! key with
        | Some r => if egress_pending revision r then Some (clear_egress success latency r) else None
        | None => None
        end in
      match updated with
      | Some r => (set_egress self (<[key := r]> (egress_state self)), Ok tt)
      | None =>
          (self,
           let! state := load_egress self (t_exchange admission) (t_egress_id admission) in
           raise StaleProbeError "transport probe observed a stale restriction revision"
             when negb (transport_restriction_revision state =? revision);;
           Err (StaleProbeError "transport probe has no matching pending restriction"))
      end
  end.

(** ** [admit_health] *)

(** [dict.setdefault] and [d[k] = v] on an insertion-ordered dict. *)
Definition dict_setdefault {A} (key : string * string) (v : A) (d : list ((string * string) * A)) :=
  if bool_decide (key ∈ d.*1) then d else d ++ [(key, v)].
Fixpoint dict_set {A} (key : string * string) (v : A) (d : list ((string * string) * A)) :=
  match d with
  | [] => [(key, v)]
  | (k, w) :: d => if bool_decide (k = key) then (key, v) :: d else (k, w) :: dict_set key v d
  end.

Record Admitting : Type := {
  a_next : Z;
  a_admitted : list (EgressHealthKey * Z);
  a_quota : list ((string * string) * QuotaProbeAdmission);
  a_transport : list ((string * string) * TransportProbeAdmission)
}.

(** One pass of the loop, quota part then transport part: each admission takes two
    identities, its own and its mint's, whether the dict keeps it or not. *)
Definition admit_quota (self : Store) (exchange : string) (now_unix_ns now_monotonic_ns : Z)
    (acc : Admitting) (candidate : Egress) (quota : QuotaState) : result (Admitting * list Z) :=
  if quota_requires_probe quota then
    let deadline := now_monotonic_ns + Z.max 0 (restriction_until_unix_ns quota - now_unix_ns) in
    let! admission := quota_minted (a_next acc) exchange (Health.quota_group candidate)
      (restriction_revision quota) deadline (admission_identity self) in
    Ok ({| a_next := a_next acc + 2; a_admitted := a_admitted acc;
           a_quota := dict_setdefault (exchange, Health.quota_group candidate) admission (a_quota acc);
           a_transport := a_transport acc |}, [deadline])
  else Ok (acc, []).

Definition admit_transport (self : Store) (exchange : string) (now_unix_ns now_monotonic_ns : Z)
    (acc : Admitting) (candidate : Egress) (transport : EgressHealthState) : result (Admitting * list Z) :=
  if egress_requires_probe transport then
    let deadline :=
      now_monotonic_ns + Z.max 0 (transport_cooldown_until_unix_ns transport - now_unix_ns) in
    let! admission := transport_minted (a_next acc) exchange (Health.id candidate)
      (transport_restriction_revision transport) deadline (admission_identity self) in
    Ok ({| a_next := a_next acc + 2; a_admitted := a_admitted acc; a_quota := a_quota acc;
           a_transport := dict_set (exchange, Health.id candidate) admission (a_transport acc) |},
        [deadline])
  else Ok (acc, []).

Definition admit_candidate (self : Store) (exchange : string) (now_unix_ns now_monotonic_ns : Z)
    (acc : Admitting) (candidate : Egress) : result Admitting :=
  let! quota := load_quota self exchange (Health.quota_group candidate) in
  let! transport := load_egress self exchange (Health.id candidate) in
  let! '(acc, quota_deadlines) :=
    admit_quota self exchange now_unix_ns now_monotonic_ns acc candidate quota in
  let! '(acc, transport_deadlines) :=
    admit_transport self exchange now_unix_ns now_monotonic_ns acc candidate transport in
  Ok {| a_next := a_next acc;
        a_admitted := match quota_deadlines ++ transport_deadlines with
          | [] => a_admitted acc
          | d :: ds => a_admitted acc ++ [((exchange, Health.id candidate), foldl Z.max d ds)]
          end;
        a_quota := a_quota acc; a_transport := a_transport acc |}.

Fixpoint admit_candidates (self : Store) (exchange : string) (now_unix_ns now_monotonic_ns : Z)
    (acc : Admitting) (candidates : list Egress) : result Admitting :=
  match candidates with
  | [] => Ok acc
  | c :: candidates =>
      let! acc := admit_candidate self exchange now_unix_ns now_monotonic_ns acc c in
      admit_candidates self exchange now_unix_ns now_monotonic_ns acc candidates
  end.

Definition _admit_health_in_transaction (self : Store) (exchange : string)
    (candidates : list Egress) (now_unix_ns now_monotonic_ns : Z) : result (Z * AdmittedHealth) :=
  let! acc := admit_candidates self exchange now_unix_ns now_monotonic_ns
    {| a_next := next_identity self; a_admitted := []; a_quota := []; a_transport := [] |} candidates in
  let! health := admitted_minted (a_next acc) (a_admitted acc) (a_quota acc).*2 (a_transport acc).*2
    (admission_identity self) in
  Ok (a_next acc + 2, health).

(** [__remember_probe_admission] over the admissions of a health. *)
Definition remember (health : AdmittedHealth) (table : gmap Z claim) : gmap Z claim :=
  foldl (fun t a => <[t_identity a := transport_claims a]> t)
    (foldl (fun t a => <[q_identity a := quota_claims a]> t) table (quota_probe_admissions health))
    (transport_probe_admissions health).

Definition admit_health (exchange : string) (egresses : list Egress)
    (now_unix_ns now_monotonic_ns : Z) : M Store AdmittedHealth := fun self =>
  let checked :=
    let! exchange := _nonempty exchange "exchange" in
    let! now_unix := _nonnegative now_unix_ns "now_unix_ns" in
    let! now_monotonic := _nonnegative now_monotonic_ns "now_monotonic_ns" in
    raise ValueError "duplicate egress id"
      when negb (bool_decide (NoDup (Health.id <$> egresses)));;
    _admit_health_in_transaction self exchange egresses now_unix now_monotonic in
  match checked with
  | Err e => (self, Err e)
  | Ok (next, health) => (set_issued self next (remember health (issued self)), Ok health)
  end.

(** ** Well-formed rows *)
Definition quota_row_ok (r : QuotaRow) : Prop :=
  0 <= ban_until_ns r /\ 0 <= cooldown_until_ns r /\ 0 <= quota_revision r /\
  (quota_reason r = None -> ban_until_ns r = 0 /\ cooldown_until_ns r = 0).

Definition egress_row_ok (r : EgressRow) : Prop :=
  0 <= failures r /\ 0 <= transport_cooldown_until_ns r /\ 0 <= egress_revision r /\
  (failures r = 0 <-> egress_reason r = None) /\
  (failures r = 0 -> transport_cooldown_until_ns r = 0).

(** What holds of every store a program reaches. *)
Record store_ok (s : Store) : Prop := {
  so_quota : map_Forall (fun _ => quota_row_ok) (quota_state s);
  so_egress : map_Forall (fun _ => egress_row_ok) (egress_state s);
  so_issued : map_Forall (fun oid _ => oid < next_identity s) (issued s)
}.

Lemma new_store_ok i : store_ok (new_store i).
Proof. split; intros k x; cbn; by rewrite lookup_empty. Qed.

Lemma nonempty_ok v f : v <> "" -> _nonempty v f = Ok v.
Proof. intros H. unfold _nonempty. by rewrite eqb_empty_false. Qed.

Lemma nonempty_inv v f w : _nonempty v f = Ok w -> w = v /\ v <> "".
Proof. unfold _nonempty. intros H. inv_ok. split; [done|]. by apply String.eqb_neq. Qed.

Lemma sqlite_int_inv v w : sqlite_int v = Ok w -> w = v.
Proof. unfold sqlite_int. intros H. by inv_ok. Qed.

Lemma sqlite_int_ok v : 0 <= v <= MAX_INT64 -> sqlite_int v = Ok v.
Proof.
  intros [H1 H2]. unfold sqlite_int. rewrite (proj2 (Z.leb_le _ _)) by lia.
  by rewrite (proj2 (Z.leb_le v MAX_INT64)).
Qed.

Ltac inv_checks :=
  inv_ok; repeat match goal with
  | E : _nonempty _ _ = Ok _ |- _ => apply nonempty_inv in E as [-> E]
  | E : _nonnegative _ _ = Ok _ |- _ => apply nonnegative_inv in E as [-> E]
  | E : sqlite_int _ = Ok _ |- _ => apply sqlite_int_inv in E
  end; bool_prop.

(** ** How an operation changes the tables *)

(** A row keeps its restriction, or its revision grows. *)
Definition quota_later (r r' : QuotaRow) : Prop :=
  quota_revision r < quota_revision r' \/
  (quota_revision r = quota_revision r' /\ ban_until_ns r = ban_until_ns r' /\
   cooldown_until_ns r = cooldown_until_ns r' /\ quota_reason r = quota_reason r').

Definition egress_later (r r' : EgressRow) : Prop :=
  egress_revision r < egress_revision r' \/
  (egress_revision r = egress_revision r' /\ failures r = failures r' /\
   transport_cooldown_until_ns r = transport_cooldown_until_ns r' /\
   egress_reason r = egress_reason r').

#[export] Instance quota_later_preorder : PreOrder quota_later.
Proof.
  split; [intros r; by right|]. unfold quota_later. intros r1 r2 r3. intuition (lia || congruence).
Qed.
#[export] Instance egress_later_preorder : PreOrder egress_later.
Proof.
  split; [intros r; by right|]. unfold egress_later. intros r1 r2 r3. intuition (lia || congruence).
Qed.

(** Every row stays and only moves forward. *)
Definition forward (s s' : Store) : Prop :=
  admission_identity s' = admission_identity s /\ next_identity s <= next_identity s' /\
  (forall k r, quota_state s !! k = Some r ->
     exists r', quota_state s' !! k = Some r' /\ quota_later r r') /\
  (forall k r, egress_state s !! k = Some r ->
     exists r', egress_state s' !! k = Some r' /\ egress_later r r').

#[export] Instance forward_preorder : PreOrder forward.
Proof.
  split.
  - intros s. do 2 (split; [done|]). split; intros k r Hk; exists r; by split.
  - intros s1 s2 s3 (A1 & A2 & A3 & A4) (B1 & B2 & B3 & B4).
    split; [congruence|]. split; [lia|]. split; intros k r Hk.
    + apply A3 in Hk as (r2 & Hk & L1). apply B3 in Hk as (r3 & Hk & L2).
      exists r3. split; [done|by etransitivity].
    + apply A4 in Hk as (r2 & Hk & L1). apply B4 in Hk as (r3 & Hk & L2).
      exists r3. split; [done|by etransitivity].
Qed.

(** Replacing one row by a later one. *)
Lemma set_quota_forward s k r' :
  store_ok s -> quota_row_ok r' ->
  (forall r, quota_state s !! k = Some r -> quota_later r r') ->
  store_ok (set_quota s (<[k := r']> (quota_state s))) /\
  forward s (set_quota s (<[k := r']> (quota_state s))).
Proof.
  intros [Hq He Hi] Hr Hl. split.
  - split; cbn; [|done..]. by apply map_Forall_insert_2.
  - do 2 (split; [done|]). split; cbn; intros k0 r0 Hk; [|by exists r0].
    destruct (base.decide (k0 = k)) as [->|Hne].
    + exists r'. rewrite lookup_insert_eq. auto.
    + exists r0. by rewrite lookup_insert_ne.
Qed.

Lemma set_egress_forward s k r' :
  store_ok s -> egress_row_ok r' ->
  (forall r, egress_state s !! k = Some r -> egress_later r r') ->
  store_ok (set_egress s (<[k := r']> (egress_state s))) /\
  forward s (set_egress s (<[k := r']> (egress_state s))).
Proof.
  intros [Hq He Hi] Hr Hl. split.
  - split; cbn; [done| |done]. by apply map_Forall_insert_2.
  - do 2 (split; [done|]). split; cbn; intros k0 r0 Hk; [by exists r0|].
    destruct (base.decide (k0 = k)) as [->|Hne].
    + exists r'. rewrite lookup_insert_eq. auto.
    + exists r0. by rewrite lookup_insert_ne.
Qed.

Lemma upsert_restriction_ok (t : QuotaTable) k (ban : bool) until reason :
  map_Forall (fun _ => quota_row_ok) t -> 0 <= until ->
  quota_row_ok (upsert_restriction ban until reason (t !! k)).
Proof.
  intros Ht Hu. destruct (t !! k) as [r|] eqn:E; cbn.
  - apply Ht in E as (A & B & C & D). split; [destruct ban; cbn; lia|].
    split; [destruct ban; cbn; lia|]. cbn. split; [lia|done].
  - destruct ban; repeat split; cbn; lia || done.
Qed.

Lemma restriction_forward e g column until reason s s' r :
  store_ok s -> _record_quota_restriction e g column until reason s = (s', r) ->
  store_ok s' /\ forward s s'.
Proof.
  intros Hs H. unfold _record_quota_restriction in H.
  destruct (let! exchange := _nonempty e "exchange" in _) as [u|] eqn:E; [|by injection H as <- _].
  injection H as <- _. inv_checks. subst u. apply set_quota_forward; [done| |].
  - apply upsert_restriction_ok; [apply Hs|done].
  - intros r0 ->. left. cbn. lia.
Qed.

Lemma multiplier_forward e g m s s' r :
  store_ok s -> set_rate_multiplier e g m s = (s', r) -> store_ok s' /\ forward s s'.
Proof.
  intros Hs H. unfold set_rate_multiplier in H.
  destruct (let! exchange := _nonempty e "exchange" in _) as [d|] eqn:E; [|by injection H as <- _].
  injection H as <- _. apply set_quota_forward; [done| |].
  - destruct (quota_state s !! (e, g)) as [r0|] eqn:E0; [|by repeat split].
    by apply (so_quota _ Hs) in E0.
  - intros r0 ->. by right.
Qed.

Lemma failure_forward e i reason cooldown s s' r :
  store_ok s -> record_transport_failure e i reason cooldown s = (s', r) ->
  store_ok s' /\ forward s s'.
Proof.
  intros Hs H. unfold record_transport_failure in H.
  destruct (let! exchange := _nonempty e "exchange" in _) as [u|] eqn:E; [|by injection H as <- _].
  injection H as <- _. inv_checks. subst u. apply set_egress_forward; [done| |].
  - destruct (egress_state s !! (e, i)) as [r0|] eqn:E0; cbn.
    + apply (so_egress _ Hs) in E0 as (A & B & C & _). repeat split; cbn; lia || done.
    + repeat split; cbn; lia || done.
  - intros r0 ->. left. cbn. lia.
Qed.

(** A quota probe success is all or nothing, and this is exactly when it is accepted. *)
Lemma quota_success_spec s a t s' r :
  record_quota_probe_success a t s = (s', r) ->
  match r with
  | Ok _ => exists row, quota_state s !! (q_exchange a, q_quota_group a) = Some row /\
      quota_belongs_to a (admission_identity s) = true /\
      issued s !! q_identity a = Some (quota_claims a) /\ q_probe_after a <= t /\
      quota_revision row = q_restriction_revision a /\ quota_reason row <> None /\
      s' = set_quota s (<[(q_exchange a, q_quota_group a) := clear_quota row]> (quota_state s))
  | Err _ => s' = s
  end.
Proof.
  unfold record_quota_probe_success. intros H.
  destruct (raise_if (negb (quota_belongs_to a _)) _ _) as [rev|] eqn:E; [|by injection H as <- <-].
  inv_checks. subst rev.
  destruct (quota_state s !! (q_exchange a, q_quota_group a)) as [row|] eqn:Erow.
  - destruct (quota_pending _ row) eqn:Ep; injection H as <- <-.
    + apply andb_true_iff in Ep as [Ep1 Ep2]. bool_prop. exists row.
      unfold __is_issued_probe_admission in *. destruct (issued s !! q_identity a); [|done].
      repeat split; try done. f_equal. by apply claim_match_spec.
    + destruct (load_quota _ _ _); cbn; [|done]. by destruct (negb _).
  - injection H as <- <-. destruct (load_quota _ _ _); cbn; [|done]. by destruct (negb _).
Qed.

Lemma transport_success_spec s a t u l s' r :
  record_transport_probe_success a t u l s = (s', r) ->
  match r with
  | Ok _ => exists row, egress_state s !! (t_exchange a, t_egress_id a) = Some row /\
      transport_belongs_to a (admission_identity s) = true /\
      issued s !! t_identity a = Some (transport_claims a) /\ t_probe_after a <= t /\
      egress_revision row = t_restriction_revision a /\ 0 < failures row /\
      s' = set_egress s (<[(t_exchange a, t_egress_id a) := clear_egress u l row]> (egress_state s))
  | Err _ => s' = s
  end.
Proof.
  unfold record_transport_probe_success. intros H.
  destruct (raise_if (negb (transport_belongs_to a _)) _ _) as [[[u' l'] rev]|] eqn:E;
    [|by injection H as <- <-].
  inv_checks. subst.
  destruct (egress_state s !! (t_exchange a, t_egress_id a)) as [row|] eqn:Erow.
  - destruct (egress_pending _ row) eqn:Ep; injection H as <- <-.
    + apply andb_true_iff in Ep as [Ep1 Ep2]. bool_prop. exists row.
      unfold __is_issued_probe_admission in *. destruct (issued s !! t_identity a); [|done].
      repeat split; try done. f_equal. by apply claim_match_spec.
    + destruct (load_egress _ _ _); cbn; [|done]. by destruct (negb _).
  - injection H as <- <-. destruct (load_egress _ _ _); cbn; [|done]. by destruct (negb _).
Qed.

Lemma quota_success_forward s a t s' r :
  store_ok s -> record_quota_probe_success a t s = (s', r) -> store_ok s' /\ forward s s'.
Proof.
  intros Hs H. apply quota_success_spec in H. destruct r as [[]|e]; [|by subst].
  destruct H as (row & Erow & _ & _ & _ & _ & _ & ->).
  pose proof (so_quota _ Hs _ _ Erow) as (_ & _ & Hr & _). apply set_quota_forward; [done| |].
  - repeat split; cbn; lia.
  - intros r0 E0. rewrite E0 in Erow. injection Erow as ->. left. cbn. lia.
Qed.

Lemma transport_success_forward s a t u l s' r :
  store_ok s -> record_transport_probe_success a t u l s = (s', r) -> store_ok s' /\ forward s s'.
Proof.
  intros Hs H. apply transport_success_spec in H. destruct r as [[]|e]; [|by subst].
  destruct H as (row & Erow & _ & _ & _ & _ & _ & ->).
  pose proof (so_egress _ Hs _ _ Erow) as (_ & _ & Hr & _). apply set_egress_forward; [done| |].
  - repeat split; cbn; lia || done.
  - intros r0 E0. rewrite E0 in Erow. injection Erow as ->. left. cbn. lia.
Qed.

(** ** What [admit_health] admits *)

(** The admission was minted by [s] for the pending restriction of its row. *)
Definition quota_grant (s : Store) (now_unix now_mono : Z) (a : QuotaProbeAdmission) : Prop :=
  exists row, quota_state s !! (q_exchange a, q_quota_group a) = Some row /\
    quota_reason row <> None /\ q_restriction_revision a = quota_revision row /\
    q_probe_after a = now_mono + Z.max 0 (Z.max (ban_until_ns row) (cooldown_until_ns row) - now_unix) /\
    quota_belongs_to a (admission_identity s) = true.

Definition transport_grant (s : Store) (now_unix now_mono : Z) (a : TransportProbeAdmission) : Prop :=
  exists row, egress_state s !! (t_exchange a, t_egress_id a) = Some row /\
    0 < failures row /\ t_restriction_revision a = egress_revision row /\
    t_probe_after a = now_mono + Z.max 0 (transport_cooldown_until_ns row - now_unix) /\
    transport_belongs_to a (admission_identity s) = true.

(** The deadlines of a candidate, from the rows. *)
Definition quota_deadline (s : Store) (exchange : string) (now_unix now_mono : Z) (c : Egress) : option Z :=
  let q := quota_row_state exchange (Health.quota_group c)
    (quota_state s !! (exchange, Health.quota_group c)) in
  if quota_requires_probe q
  then Some (now_mono + Z.max 0 (restriction_until_unix_ns q - now_unix)) else None.

Definition transport_deadline (s : Store) (exchange : string) (now_unix now_mono : Z) (c : Egress) : option Z :=
  let e := egress_row_state exchange (Health.id c) (egress_state s !! (exchange, Health.id c)) in
  if egress_requires_probe e
  then Some (now_mono + Z.max 0 (transport_cooldown_until_unix_ns e - now_unix)) else None.

(** An egress may be probed once all its deadlines have passed. *)
Definition probe_deadline (s : Store) (exchange : string) (now_unix now_mono : Z) (c : Egress) : option Z :=
  match quota_deadline s exchange now_unix now_mono c, transport_deadline s exchange now_unix now_mono c with
  | Some d, Some d' => Some (Z.max d d')
  | Some d, None | None, Some d => Some d
  | None, None => None
  end.

Section Admit.
Context (s : Store) (exchange : string) (now_unix now_mono : Z).
Context (Hs : store_ok s) (Hexchange : exchange <> "") (Hmono : 0 <= now_mono).

(** The loop invariant of [admit_candidates]. *)
Record admitting_ok (lo : Z) (acc : Admitting) : Prop := {
  ao_next : lo <= a_next acc;
  ao_quota : Forall (fun kq => kq.1 = (q_exchange kq.2, q_quota_group kq.2) /\
    q_exchange kq.2 = exchange /\ lo <= q_identity kq.2 < a_next acc /\
    quota_grant s now_unix now_mono kq.2) (a_quota acc);
  ao_transport : Forall (fun kt => kt.1 = (t_exchange kt.2, t_egress_id kt.2) /\
    t_exchange kt.2 = exchange /\ lo <= t_identity kt.2 < a_next acc /\
    transport_grant s now_unix now_mono kt.2) (a_transport acc);
  ao_quota_keys : NoDup (a_quota acc).*1;
  ao_oids : NoDup ((q_identity <$> (a_quota acc).*2) ++ (t_identity <$> (a_transport acc).*2))
}.

Lemma load_quota_ok g : g <> "" ->
  load_quota s exchange g = Ok (quota_row_state exchange g (quota_state s !! (exchange, g))).
Proof. intros. unfold load_quota. by rewrite !nonempty_ok. Qed.

Lemma load_egress_ok i : i <> "" ->
  load_egress s exchange i = Ok (egress_row_state exchange i (egress_state s !! (exchange, i))).
Proof. intros. unfold load_egress. by rewrite !nonempty_ok. Qed.

Lemma quota_minted_grant g oid :
  let q := quota_row_state exchange g (quota_state s !! (exchange, g)) in
  g <> "" -> quota_requires_probe q = true ->
  exists a, quota_minted oid exchange g (restriction_revision q)
      (now_mono + Z.max 0 (restriction_until_unix_ns q - now_unix)) (admission_identity s) = Ok a /\
    q_identity a = oid /\ q_exchange a = exchange /\ q_quota_group a = g /\
    quota_grant s now_unix now_mono a.
Proof.
  intros q Hg Hp. destruct (quota_state s !! (exchange, g)) as [row|] eqn:E; [|done].
  pose proof (so_quota _ Hs _ _ E) as (_ & _ & Hrev & _).
  destruct (quota_minted_ok oid exchange g (restriction_revision q)
    (now_mono + Z.max 0 (restriction_until_unix_ns q - now_unix)) (admission_identity s))
    as (a & H1 & H2 & H3 & H4); [done|done|done|lia|].
  exists a. split; [done|]. split; [done|]. unfold quota_claims in H3.
  injection H3 as E1 E2 H5 H6. do 2 (split; [done|]). exists row. rewrite E1, E2. split; [done|].
  unfold quota_requires_probe in Hp. bool_prop. by repeat split.
Qed.

Lemma transport_minted_grant i oid :
  let e := egress_row_state exchange i (egress_state s !! (exchange, i)) in
  i <> "" -> egress_requires_probe e = true ->
  exists a, transport_minted oid exchange i (transport_restriction_revision e)
      (now_mono + Z.max 0 (transport_cooldown_until_unix_ns e - now_unix)) (admission_identity s) = Ok a /\
    t_identity a = oid /\ t_exchange a = exchange /\ t_egress_id a = i /\
    transport_grant s now_unix now_mono a.
Proof.
  intros e Hi Hp. destruct (egress_state s !! (exchange, i)) as [row|] eqn:E; [|done].
  pose proof (so_egress _ Hs _ _ E) as (_ & _ & Hrev & _).
  destruct (transport_minted_ok oid exchange i (transport_restriction_revision e)
    (now_mono + Z.max 0 (transport_cooldown_until_unix_ns e - now_unix)) (admission_identity s))
    as (a & H1 & H2 & H3 & H4); [done|done|done|lia|].
  exists a. split; [done|]. split; [done|]. unfold transport_claims in H3.
  injection H3 as E1 E2 H5 H6. do 2 (split; [done|]). exists row. rewrite E1, E2. split; [done|].
  unfold egress_requires_probe in Hp. bool_prop. by repeat split.
Qed.

Lemma dict_set_fresh {A} key (v : A) d : key ∉ d.*1 -> dict_set key v d = d ++ [(key, v)].
Proof.
  induction d as [|[k w] d IH]; intros Hk; [done|]. simpl in *.
  apply not_elem_of_cons in Hk as [Hne Hk]. rewrite bool_decide_eq_false_2 by done. by rewrite IH.
Qed.

Lemma fresh_notin {A} (f : A -> Z) (P : A -> Prop) (l : list ((string * string) * A)) n :
  Forall (fun ka => P ka.2 /\ f ka.2 < n) l -> n ∉ f <$> l.*2.
Proof.
  intros Hl Hn. apply list_elem_of_fmap in Hn as (a & -> & Ha).
  apply list_elem_of_fmap in Ha as ([k a'] & -> & Ha).
  apply (proj1 (Forall_forall _ _) Hl) in Ha as [_ Ha]. simpl in Ha. lia.
Qed.

(** Raising the identity counter keeps the invariant. *)
Lemma admitting_next lo acc next :
  admitting_ok lo acc -> a_next acc <= next ->
  admitting_ok lo {| a_next := next; a_admitted := a_admitted acc; a_quota := a_quota acc;
                     a_transport := a_transport acc |}.
Proof.
  intros [H1 H2 H3 H4 H5] Hn. split; cbn; [lia| | |done|done].
  - eapply Forall_impl; [exact H2|]. intros kq. cbn. intuition lia.
  - eapply Forall_impl; [exact H3|]. intros kq. cbn. intuition lia.
Qed.

Lemma oids_fresh lo acc :
  admitting_ok lo acc ->
  a_next acc ∉ q_identity <$> (a_quota acc).*2 /\ a_next acc ∉ t_identity <$> (a_transport acc).*2.
Proof.
  intros [_ H2 H3 _ _]. split.
  - apply (fresh_notin q_identity (fun _ => True)). eapply Forall_impl; [exact H2|]. cbn. tauto.
  - apply (fresh_notin t_identity (fun _ => True)). eapply Forall_impl; [exact H3|]. cbn. tauto.
Qed.

Lemma admitting_add_quota lo acc a :
  admitting_ok lo acc -> q_identity a = a_next acc -> q_exchange a = exchange ->
  quota_grant s now_unix now_mono a -> (exchange, q_quota_group a) ∉ (a_quota acc).*1 ->
  admitting_ok lo {| a_next := a_next acc + 2; a_admitted := a_admitted acc;
    a_quota := a_quota acc ++ [((exchange, q_quota_group a), a)]; a_transport := a_transport acc |}.
Proof.
  intros Hok Ho He Hg Hk. destruct (oids_fresh _ _ Hok) as [Fq Ft]. pose proof (ao_next _ _ Hok).
  destruct (admitting_next _ _ (a_next acc + 2) Hok ltac:(lia)) as [H1 H2 H3 H4 H5].
  cbn in *. split; cbn; [lia| |done| |].
  - apply Forall_app. split; [done|]. apply Forall_singleton. cbn. rewrite He.
    repeat split; [lia|lia|done].
  - rewrite fmap_app. apply NoDup_app. split; [done|]. cbn. split; [|apply NoDup_singleton].
    intros x Hx ->%list_elem_of_singleton. done.
  - rewrite !fmap_app. cbn. rewrite Ho, <- (assoc_L _), NoDup_app.
    apply NoDup_app in H5 as (N1 & N2 & N3). split; [done|]. split.
    + intros x Hx. cbn. apply not_elem_of_cons. split; [by intros ->|by apply N2].
    + by apply NoDup_cons.
Qed.

Lemma admitting_add_transport lo acc a :
  admitting_ok lo acc -> t_identity a = a_next acc -> t_exchange a = exchange ->
  transport_grant s now_unix now_mono a ->
  admitting_ok lo {| a_next := a_next acc + 2; a_admitted := a_admitted acc;
    a_quota := a_quota acc; a_transport := a_transport acc ++ [((exchange, t_egress_id a), a)] |}.
Proof.
  intros Hok Ho He Hg. destruct (oids_fresh _ _ Hok) as [Fq Ft]. pose proof (ao_next _ _ Hok).
  destruct (admitting_next _ _ (a_next acc + 2) Hok ltac:(lia)) as [H1 H2 H3 H4 H5].
  cbn in *. split; cbn; [lia|done| |done|].
  - apply Forall_app. split; [done|]. apply Forall_singleton. cbn. rewrite He.
    repeat split; [lia|lia|done].
  - rewrite !fmap_app. cbn. rewrite Ho, (assoc_L _), NoDup_app. split; [done|].
    split; [|apply NoDup_singleton]. intros x Hx ->%list_elem_of_singleton.
    apply elem_of_app in Hx as [Hx|Hx]; done.
Qed.

(** The quota half and the transport half of one pass. *)
Lemma quota_half lo acc c :
  admitting_ok lo acc -> Health.quota_group c <> "" ->
  exists acc',
    admit_quota s exchange now_unix now_mono acc c
      (quota_row_state exchange (Health.quota_group c) (quota_state s !! (exchange, Health.quota_group c)))
    = Ok (acc', option_list (quota_deadline s exchange now_unix now_mono c)) /\
    admitting_ok lo acc' /\ a_admitted acc' = a_admitted acc /\ a_transport acc' = a_transport acc /\
    (forall k, k ∈ (a_quota acc').*1 <-> k ∈ (a_quota acc).*1 \/
       (k = (exchange, Health.quota_group c) /\ quota_deadline s exchange now_unix now_mono c <> None)).
Proof.
  intros Hok Hg. unfold admit_quota, quota_deadline.
  destruct (quota_requires_probe _) eqn:Ep.
  - destruct (quota_minted_grant (Health.quota_group c) (a_next acc) Hg Ep) as (a & E & Ho & He & Eg & G).
    cbv zeta. rewrite E. cbn [rbind option_list]. eexists. split; [done|].
    unfold dict_setdefault. cbn [a_admitted a_transport a_quota]. case_bool_decide as Hin.
    + split; [apply admitting_next; [done|lia]|]. do 2 (split; [done|]). intros k. split; [by left|].
      intros [Hk|[-> _]]; done.
    + split; [rewrite <- Eg; apply admitting_add_quota; try done; by rewrite Eg|].
      do 2 (split; [done|]). intros k. rewrite fmap_app, elem_of_app. cbn. rewrite list_elem_of_singleton.
      split; [intros [?|?]; [by left|by right]|intros [?|[? _]]; [by left|by right]].
  - exists acc. do 4 (split; [done|]). intros k. split; [by left|intros [?|[_ ?]]; done].
Qed.

Lemma transport_half lo acc c :
  admitting_ok lo acc -> Health.id c <> "" -> (exchange, Health.id c) ∉ (a_transport acc).*1 ->
  exists acc',
    admit_transport s exchange now_unix now_mono acc c
      (egress_row_state exchange (Health.id c) (egress_state s !! (exchange, Health.id c)))
    = Ok (acc', option_list (transport_deadline s exchange now_unix now_mono c)) /\
    admitting_ok lo acc' /\ a_admitted acc' = a_admitted acc /\ a_quota acc' = a_quota acc /\
    (a_transport acc').*1 = (a_transport acc).*1 ++
      (match transport_deadline s exchange now_unix now_mono c with
       | Some _ => [(exchange, Health.id c)] | None => [] end).
Proof.
  intros Hok Hi Hfresh. unfold admit_transport, transport_deadline.
  destruct (egress_requires_probe _) eqn:Ep.
  - destruct (transport_minted_grant (Health.id c) (a_next acc) Hi Ep) as (a & E & Ho & He & Eg & G).
    cbv zeta. rewrite E. cbn [rbind option_list]. eexists. split; [done|].
    cbn [a_admitted a_transport a_quota]. rewrite dict_set_fresh by done.
    split; [rewrite <- Eg; by apply admitting_add_transport|]. do 2 (split; [done|]).
    by rewrite fmap_app.
  - exists acc. rewrite app_nil_r. by do 4 (split; [done|]).
Qed.

Lemma admit_candidate_ok lo acc c :
  admitting_ok lo acc -> Health.quota_group c <> "" -> Health.id c <> "" ->
  (exchange, Health.id c) ∉ (a_transport acc).*1 ->
  exists acc', admit_candidate s exchange now_unix now_mono acc c = Ok acc' /\ admitting_ok lo acc' /\
    a_admitted acc' = a_admitted acc ++ (match probe_deadline s exchange now_unix now_mono c with
      | Some d => [((exchange, Health.id c), d)] | None => [] end) /\
    (forall k, k ∈ (a_quota acc').*1 <-> k ∈ (a_quota acc).*1 \/
       (k = (exchange, Health.quota_group c) /\ quota_deadline s exchange now_unix now_mono c <> None)) /\
    (a_transport acc').*1 = (a_transport acc).*1 ++
      (match transport_deadline s exchange now_unix now_mono c with
       | Some _ => [(exchange, Health.id c)] | None => [] end).
Proof.
  intros Hok Hg Hi Hfresh. unfold admit_candidate.
  rewrite load_quota_ok, load_egress_ok by done. cbn [rbind].
  destruct (quota_half lo acc c Hok Hg) as (acc1 & -> & Hok1 & A1 & T1 & K1). cbn [rbind].
  rewrite <- T1 in Hfresh.
  destruct (transport_half lo acc1 c Hok1 Hi Hfresh) as (acc2 & -> & Hok2 & A2 & Q2 & K2). cbn [rbind].
  eexists. split; [done|]. split; [by destruct Hok2|]. cbn [a_admitted a_quota a_transport].
  rewrite A2, A1, Q2, K2, T1. split; [|done].
  unfold probe_deadline. destruct (quota_deadline _ _ _ _ c), (transport_deadline _ _ _ _ c);
    simpl; by rewrite ?app_nil_r.
Qed.

(** The list of admitted deadlines is a comprehension over the candidates. *)
Definition admitted_list (candidates : list Egress) : list (EgressHealthKey * Z) :=
  omap (fun c => (fun d => ((exchange, Health.id c), d)) <$> probe_deadline s exchange now_unix now_mono c)
    candidates.

Lemma admit_candidates_ok lo candidates : forall acc,
  admitting_ok lo acc -> Forall (fun c => Health.quota_group c <> "" /\ Health.id c <> "") candidates ->
  NoDup (Health.id <$> candidates) ->
  (forall c, c ∈ candidates -> (exchange, Health.id c) ∉ (a_transport acc).*1) ->
  exists acc', admit_candidates s exchange now_unix now_mono acc candidates = Ok acc' /\
    admitting_ok lo acc' /\ a_admitted acc' = a_admitted acc ++ admitted_list candidates /\
    (forall k, k ∈ (a_quota acc').*1 <-> k ∈ (a_quota acc).*1 \/
       exists c, c ∈ candidates /\ k = (exchange, Health.quota_group c) /\
         quota_deadline s exchange now_unix now_mono c <> None) /\
    (a_transport acc').*1 = (a_transport acc).*1 ++
      omap (fun c => (fun _ => (exchange, Health.id c)) <$> transport_deadline s exchange now_unix now_mono c)
        candidates.
Proof.
  induction candidates as [|c cs IH]; intros acc Hok Hne HND Hfresh.
  { exists acc. do 2 (split; [done|]). unfold admitted_list. cbn. rewrite !app_nil_r.
    split; [done|]. split; [|done]. intros k. split; [by left|]. intros [?|(c & Hc & _)]; [done|].
    by apply not_elem_of_nil in Hc. }
  apply Forall_cons in Hne as [[Hg Hi] Hne]. rewrite fmap_cons in HND. apply NoDup_cons in HND as [Hni HND].
  destruct (admit_candidate_ok lo acc c Hok Hg Hi) as (acc1 & E1 & Hok1 & A1 & Q1 & T1);
    [apply Hfresh; left|].
  destruct (IH acc1 Hok1 Hne HND) as (acc2 & E2 & Hok2 & A2 & Q2 & T2).
  { intros c' Hc'. rewrite T1. apply not_elem_of_app. split; [apply Hfresh; by right|].
    destruct (transport_deadline _ _ _ _ c); [|apply not_elem_of_nil].
    intros [= E]%list_elem_of_singleton. apply Hni. rewrite <- E. by apply list_elem_of_fmap_2. }
  exists acc2. cbn [admit_candidates]. rewrite E1. cbn [rbind]. split; [done|]. split; [done|].
  split; [|split].
  - rewrite A2, A1, <- (assoc_L _). f_equal. unfold admitted_list. cbn.
    by destruct (probe_deadline _ _ _ _ c).
  - intros k. rewrite Q2, Q1. setoid_rewrite elem_of_cons. naive_solver.
  - rewrite T2, T1, <- (assoc_L _). f_equal. cbn. by destruct (transport_deadline _ _ _ _ c).
Qed.
End Admit.

Lemma admit_candidates_nonempty s e nu nm cs : forall acc acc',
  admit_candidates s e nu nm acc cs = Ok acc' ->
  Forall (fun c => Health.quota_group c <> "" /\ Health.id c <> "") cs.
Proof.
  induction cs as [|c cs IH]; intros acc acc' H; [constructor|]. cbn [admit_candidates] in H.
  apply rbind_ok in H as (acc1 & H1 & H). constructor; [|by eapply IH].
  unfold admit_candidate in H1. apply rbind_ok in H1 as (q & Hq & H1).
  apply rbind_ok in H1 as (t & Ht & _). unfold load_quota in Hq. unfold load_egress in Ht.
  split; [clear Ht|clear Hq]; inv_checks; done.
Qed.

(** ** The issue table *)
Section Foldl.
Context {A : Type} (f : A -> Z) (g : A -> claim).
Local Abbreviation ins := (foldl (fun (t : gmap Z claim) a => <[f a := g a]> t)).

Lemma insert_all_sound l : forall t k v, ins t l !! k = Some v ->
  t !! k = Some v \/ exists a, a ∈ l /\ f a = k /\ g a = v.
Proof.
  induction l as [|a l IH]; intros t k v H; [by left|]. simpl in H.
  apply IH in H as [H|(b & Hb & H)]; [|right; exists b; split; [by right|done]].
  destruct (base.decide (f a = k)) as [<-|Hne].
  - rewrite lookup_insert_eq in H. injection H as <-. right. exists a. split; [left|done].
  - rewrite lookup_insert_ne in H by done. by left.
Qed.

Lemma insert_all_other l : forall t k, k ∉ f <$> l -> ins t l !! k = t !! k.
Proof.
  induction l as [|a l IH]; intros t k Hk; [done|]. rewrite fmap_cons in Hk.
  apply not_elem_of_cons in Hk as [Hne Hk]. simpl. rewrite IH by done. by rewrite lookup_insert_ne.
Qed.

Lemma insert_all_complete l a : forall t, NoDup (f <$> l) -> a ∈ l -> ins t l !! f a = Some (g a).
Proof.
  induction l as [|b l IH]; intros t HND Ha; [by apply not_elem_of_nil in Ha|].
  rewrite fmap_cons in HND. apply NoDup_cons in HND as [Hn HND]. simpl.
  apply elem_of_cons in Ha as [->|Ha]; [|by apply IH].
  rewrite insert_all_other by done. by rewrite lookup_insert_eq.
Qed.
End Foldl.

Lemma remember_sound h t k v : remember h t !! k = Some v ->
  t !! k = Some v \/ (exists a, a ∈ quota_probe_admissions h /\ q_identity a = k /\ quota_claims a = v)
  \/ (exists a, a ∈ transport_probe_admissions h /\ t_identity a = k /\ transport_claims a = v).
Proof.
  unfold remember. intros H. apply insert_all_sound in H as [H|H]; [|by auto].
  apply insert_all_sound in H as [H|H]; auto.
Qed.

Lemma remember_quota h t a :
  NoDup ((q_identity <$> quota_probe_admissions h) ++ (t_identity <$> transport_probe_admissions h)) ->
  a ∈ quota_probe_admissions h -> remember h t !! q_identity a = Some (quota_claims a).
Proof.
  intros (N1 & N2 & N3)%NoDup_app Ha. unfold remember. rewrite insert_all_other.
  - by apply insert_all_complete.
  - apply N2. by apply list_elem_of_fmap_2.
Qed.

Lemma remember_transport h t a :
  NoDup ((q_identity <$> quota_probe_admissions h) ++ (t_identity <$> transport_probe_admissions h)) ->
  a ∈ transport_probe_admissions h -> remember h t !! t_identity a = Some (transport_claims a).
Proof. intros (N1 & N2 & N3)%NoDup_app Ha. unfold remember. by apply insert_all_complete. Qed.

(** ** One call of [admit_health] *)

(** What a health admitted by [s] holds. *)
Record admitted_by (s : Store) (exchange : string) (egresses : list Egress)
    (now_unix now_mono : Z) (s' : Store) (h : AdmittedHealth) : Prop := {
  ab_quota_table : quota_state s' = quota_state s;
  ab_egress_table : egress_state s' = egress_state s;
  ab_identity : admission_identity s' = admission_identity s;
  ab_deadlines : probe_after_monotonic_ns h = admitted_list s exchange now_unix now_mono egresses;
  ab_quota_grants : Forall (quota_grant s now_unix now_mono) (quota_probe_admissions h);
  ab_transport_grants : Forall (transport_grant s now_unix now_mono) (transport_probe_admissions h);
  ab_quota_all : forall c, c ∈ egresses -> quota_deadline s exchange now_unix now_mono c <> None ->
    exists a, a ∈ quota_probe_admissions h /\ q_exchange a = exchange /\
      q_quota_group a = Health.quota_group c;
  ab_transport_all : forall c, c ∈ egresses -> transport_deadline s exchange now_unix now_mono c <> None ->
    exists a, a ∈ transport_probe_admissions h /\ t_exchange a = exchange /\ t_egress_id a = Health.id c;
  ab_issued : issued s' = remember h (issued s);
  ab_oids : NoDup ((q_identity <$> quota_probe_admissions h) ++ (t_identity <$> transport_probe_admissions h));
  ab_fresh : Forall (fun o => next_identity s <= o < next_identity s')
    ((q_identity <$> quota_probe_admissions h) ++ (t_identity <$> transport_probe_admissions h))
}.

Lemma probe_deadline_nonneg s e nu nm c d :
  0 <= nm -> probe_deadline s e nu nm c = Some d -> nm <= d.
Proof.
  intros Hn. unfold probe_deadline, quota_deadline, transport_deadline.
  repeat case_match; intros; simplify_eq; lia.
Qed.

Lemma admitted_list_fst s e nu nm cs :
  (admitted_list s e nu nm cs).*1
  = (fun c => (e, Health.id c)) <$> filter (fun c => is_Some (probe_deadline s e nu nm c)) cs.
Proof.
  unfold admitted_list. induction cs as [|c cs IH]; [done|]. rewrite filter_cons. cbn.
  destruct (probe_deadline s e nu nm c); cbn.
  - rewrite decide_True by done. cbn. by rewrite IH.
  - rewrite decide_False by (by intros [? ?]). done.
Qed.

Lemma NoDup_pair_ids (e : string) (cs : list Egress) (P : Egress -> Prop) `{forall c, Decision (P c)} :
  NoDup (Health.id <$> cs) -> NoDup ((fun c => (e, Health.id c)) <$> filter P cs).
Proof.
  intros HND. induction cs as [|c cs IH]; [constructor|].
  rewrite fmap_cons in HND. apply NoDup_cons in HND as [Hn HND]. rewrite filter_cons.
  case_decide; [|by apply IH]. rewrite fmap_cons. constructor; [|by apply IH].
  intros Hin. apply Hn. apply list_elem_of_fmap in Hin as (c' & [= ->] & Hc').
  apply list_elem_of_filter in Hc' as [_ Hc']. by apply list_elem_of_fmap_2.
Qed.

Lemma admitted_values s e nu nm cs :
  e <> "" -> 0 <= nm -> Forall (fun c => Health.quota_group c <> "" /\ Health.id c <> "") cs ->
  Forall (fun kd : EgressHealthKey * Z => kd.1.1 <> "" /\ kd.1.2 <> "" /\ 0 <= kd.2)
    (admitted_list s e nu nm cs).
Proof.
  intros He Hn Hcs. apply Forall_forall. intros [[e' i] d] Hin. unfold admitted_list in Hin.
  apply list_elem_of_omap in Hin as (c & Hc & E). apply (proj1 (Forall_forall _ _) Hcs) in Hc as [_ Hi].
  destruct (probe_deadline s e nu nm c) eqn:Ed; [|done]. injection E as <- <- <-.
  apply probe_deadline_nonneg in Ed; [|done]. cbn. repeat split; [done|done|lia].
Qed.

Lemma fmap_keys {A} (f : A -> string * string) (l : list ((string * string) * A)) :
  Forall (fun ka => ka.1 = f ka.2) l -> f <$> l.*2 = l.*1.
Proof. induction 1 as [|[k a] l Hk Hl IH]; [done|]. cbn in *. by rewrite IH, Hk. Qed.

(** The transaction from a well-formed store and a valid call. *)
Lemma in_transaction_ok s e nu nm cs :
  store_ok s -> e <> "" -> 0 <= nm ->
  Forall (fun c => Health.quota_group c <> "" /\ Health.id c <> "") cs -> NoDup (Health.id <$> cs) ->
  exists next h, _admit_health_in_transaction s e cs nu nm = Ok (next, h) /\
    next_identity s <= next /\
    admitted_by s e cs nu nm (set_issued s next (remember h (issued s))) h.
Proof.
  intros Hs He Hn Hcs HND. unfold _admit_health_in_transaction.
  destruct (admit_candidates_ok s e nu nm Hs He Hn (next_identity s) cs
    {| a_next := next_identity s; a_admitted := []; a_quota := []; a_transport := [] |})
    as (acc & -> & [H1 H2 H3 H4 H5] & A & Q & T); try done.
  { split; cbn; try constructor; lia. } { intros; apply not_elem_of_nil. }
  cbn [rbind]. cbn [a_admitted a_quota a_transport app fmap list_fmap] in A, Q, T.
  assert (Kq : (fun a => (q_exchange a, q_quota_group a)) <$> (a_quota acc).*2 = (a_quota acc).*1).
  { apply fmap_keys. eapply Forall_impl; [exact H2|]. cbn. tauto. }
  assert (Kt : (fun a => (t_exchange a, t_egress_id a)) <$> (a_transport acc).*2 = (a_transport acc).*1).
  { apply fmap_keys. eapply Forall_impl; [exact H3|]. cbn. tauto. }
  assert (NT : NoDup (a_transport acc).*1).
  { rewrite T. clear -HND. induction cs as [|c cs IH]; [constructor|].
    rewrite fmap_cons in HND. apply NoDup_cons in HND as [Hni HND]. cbn.
    destruct (transport_deadline s e nu nm c); cbn; [|by apply IH]. constructor; [|by apply IH].
    intros Hin. apply list_elem_of_omap in Hin as (c' & Hc' & E).
    destruct (transport_deadline s e nu nm c'); [|done]. injection E as E. apply Hni.
    rewrite <- E. by apply list_elem_of_fmap_2. }
  destruct (admitted_minted_ok (a_next acc) (a_admitted acc) (a_quota acc).*2 (a_transport acc).*2
    (admission_identity s)) as (h & -> & P1 & P2 & P3).
  - rewrite A. by apply admitted_values.
  - rewrite A, admitted_list_fst. by apply NoDup_pair_ids.
  - by rewrite Kq.
  - by rewrite Kt.
  - cbn [rbind]. exists (a_next acc + 2), h. split; [done|]. split; [lia|].
    split; cbn; rewrite ?P1, ?P2, ?P3; try done.
    + apply Forall_fmap. eapply Forall_impl; [exact H2|]. cbn. tauto.
    + apply Forall_fmap. eapply Forall_impl; [exact H3|]. cbn. tauto.
    + intros c Hc Hd. assert (Hk : (e, Health.quota_group c) ∈ (a_quota acc).*1).
      { apply Q. right. by exists c. }
      rewrite <- Kq in Hk. apply list_elem_of_fmap in Hk as (a & [= E1 E2] & Ha). by exists a.
    + intros c Hc Hd. assert (Hk : (e, Health.id c) ∈ (a_transport acc).*1).
      { rewrite T. apply list_elem_of_omap. exists c. split; [done|].
        by destruct (transport_deadline s e nu nm c). }
      rewrite <- Kt in Hk. apply list_elem_of_fmap in Hk as (a & [= E1 E2] & Ha). by exists a.
    + apply Forall_app. rewrite !Forall_fmap. split.
      * eapply Forall_impl; [exact H2|]. cbn. intros; lia.
      * eapply Forall_impl; [exact H3|]. cbn. intros; lia.
Qed.

Lemma admit_health_ok s e cs nu nm :
  store_ok s -> e <> "" -> 0 <= nu -> 0 <= nm ->
  Forall (fun c => Health.quota_group c <> "" /\ Health.id c <> "") cs -> NoDup (Health.id <$> cs) ->
  exists s' h, admit_health e cs nu nm s = (s', Ok h) /\ admitted_by s e cs nu nm s' h.
Proof.
  intros Hs He Hu Hm Hcs HND. unfold admit_health.
  rewrite nonempty_ok, !nonnegative_ok by done. cbn [rbind].
  rewrite bool_decide_eq_true_2 by done. cbn [negb raise_if].
  destruct (in_transaction_ok s e nu nm cs) as (next & h & -> & _ & H); [done..|].
  by eexists _, h.
Qed.

Lemma admitted_store s e cs nu nm s' h :
  store_ok s -> admitted_by s e cs nu nm s' h -> next_identity s <= next_identity s' ->
  store_ok s' /\ forward s s'.
Proof.
  intros [S1 S2 S3] H Hn. split.
  - split; [by rewrite (ab_quota_table _ _ _ _ _ _ _ H)|by rewrite (ab_egress_table _ _ _ _ _ _ _ H)|].
    rewrite (ab_issued _ _ _ _ _ _ _ H). intros k v Hk.
    pose proof (ab_fresh _ _ _ _ _ _ _ H) as F. rewrite Forall_forall in F.
    apply remember_sound in Hk as [Hk|[(a & Ha & <- & _)|(a & Ha & <- & _)]].
    + apply S3 in Hk. lia.
    + apply F. apply elem_of_app. left. by apply list_elem_of_fmap_2.
    + apply F. apply elem_of_app. right. by apply list_elem_of_fmap_2.
  - split; [apply H|]. split; [done|].
    rewrite (ab_quota_table _ _ _ _ _ _ _ H), (ab_egress_table _ _ _ _ _ _ _ H).
    split; intros k r Hk; exists r; by split.
Qed.

(** Whatever a call of [admit_health] is given. *)
Lemma admit_health_any s e cs nu nm s' r :
  store_ok s -> admit_health e cs nu nm s = (s', r) ->
  store_ok s' /\ forward s s' /\
  match r with Ok h => admitted_by s e cs nu nm s' h | Err _ => s' = s end.
Proof.
  intros Hs H. unfold admit_health in H.
  destruct (let! exchange := _nonempty e "exchange" in _) as [[next h]|] eqn:E;
    injection H as <- <-; [|done]. inv_checks.
  match goal with E : _admit_health_in_transaction _ _ _ _ _ = _ |- _ => rename E into Et end.
  assert (Hcs : Forall (fun c => Health.quota_group c <> "" /\ Health.id c <> "") cs).
  { unfold _admit_health_in_transaction in Et. apply rbind_ok in Et as (acc & Ha & _).
    by eapply admit_candidates_nonempty. }
  destruct (in_transaction_ok s e nu nm cs) as (next' & h' & E2 & Hn & Hab); [done..|].
  rewrite Et in E2. injection E2 as <- <-.
  destruct (admitted_store _ _ _ _ _ _ _ Hs Hab Hn). auto.
Qed.

(** ** Runs *)
Inductive op : Type :=
| Ban (exchange quota_group : string) (until_unix_ns : Z) (reason : string)
| Cooldown (exchange quota_group : string) (until_unix_ns : Z) (reason : string)
| Multiplier (exchange quota_group : string) (multiplier : decimal)
| QuotaProbed (admission : QuotaProbeAdmission) (observed_monotonic_ns : Z)
| Failure (exchange egress_id reason : string) (cooldown_until_unix_ns : Z)
| TransportProbed (admission : TransportProbeAdmission) (observed_monotonic_ns observed_unix_ns latency : Z)
| Admit (exchange : string) (egresses : list Egress) (now_unix_ns now_monotonic_ns : Z).

(** The admissions a call of [admit_health] hands out, with the store it read. *)
Record Grant : Type := {
  g_store : Store; g_unix : Z; g_mono : Z; g_health : AdmittedHealth
}.

Definition step (s : Store) (o : op) : Store * list Grant :=
  match o with
  | Ban e g u r => ((record_ban e g u r s).1, [])
  | Cooldown e g u r => ((record_cooldown e g u r s).1, [])
  | Multiplier e g m => ((set_rate_multiplier e g m s).1, [])
  | QuotaProbed a t => ((record_quota_probe_success a t s).1, [])
  | Failure e i r c => ((record_transport_failure e i r c s).1, [])
  | TransportProbed a t u l => ((record_transport_probe_success a t u l s).1, [])
  | Admit e cs nu nm =>
      match admit_health e cs nu nm s with
      | (s', Ok h) => (s', [{| g_store := s; g_unix := nu; g_mono := nm; g_health := h |}])
      | (s', Err _) => (s', [])
      end
  end.

Fixpoint run (s : Store) (ops : list op) : Store * list Grant :=
  match ops with
  | [] => (s, [])
  | o :: ops =>
      let '(s1, l1) := step s o in let '(s2, l2) := run s1 ops in (s2, l1 ++ l2)
  end.

(** Every entry of the issue table stands for an admission that was handed out,
    and the store only moved forward since. *)
Definition granted (log : list Grant) (s : Store) : Prop :=
  Forall (fun g => forward (g_store g) s /\
    Forall (quota_grant (g_store g) (g_unix g) (g_mono g)) (quota_probe_admissions (g_health g)) /\
    Forall (transport_grant (g_store g) (g_unix g) (g_mono g)) (transport_probe_admissions (g_health g))) log /\
  map_Forall (fun oid cl => exists g, g ∈ log /\
    ((exists a, a ∈ quota_probe_admissions (g_health g) /\ q_identity a = oid /\ quota_claims a = cl) \/
     (exists a, a ∈ transport_probe_admissions (g_health g) /\ t_identity a = oid /\ transport_claims a = cl)))
    (issued s).

Lemma granted_forward log s s' :
  granted log s -> forward s s' -> issued s' = issued s -> granted log s'.
Proof.
  intros [H1 H2] Hf Hi. split; [|by rewrite Hi].
  eapply Forall_impl; [exact H1|]. intros g (A & B & C). split; [by etransitivity|done].
Qed.

Lemma issued_kept s o s' :
  (forall e cs nu nm, o <> Admit e cs nu nm) -> (step s o).1 = s' -> issued s' = issued s.
Proof.
  intros Ho <-. destruct o as [e g u r|e g u r|e g m|a t|e i r c|a t u l|e cs nu nm]; cbn.
  1-2: unfold record_ban, record_cooldown, _record_quota_restriction.
  3: unfold set_rate_multiplier. 4: unfold record_quota_probe_success.
  5: unfold record_transport_failure. 6: unfold record_transport_probe_success.
  7: by destruct (Ho e cs nu nm).
  all: repeat case_match; done.
Qed.

Lemma step_granted s o s' new log :
  store_ok s -> granted log s -> step s o = (s', new) ->
  store_ok s' /\ forward s s' /\ granted (log ++ new) s'.
Proof.
  intros Hs Hg H.
  assert (Hcommon : store_ok s' /\ forward s s' ->
    (forall e cs nu nm, o <> Admit e cs nu nm) -> new = [] ->
    store_ok s' /\ forward s s' /\ granted (log ++ new) s').
  { intros [A B] Ho ->. do 2 (split; [done|]). rewrite app_nil_r. eapply granted_forward; [done..|].
    eapply issued_kept; [done|]. by rewrite H. }
  destruct o as [e g u r|e g u r|e g m|a t|e i r c|a t u l|e cs nu nm]; cbn in H.
  1-6: injection H as H <-; apply Hcommon; [|done|done];
    match type of H with (?m).1 = _ => destruct m as [s1 r1] eqn:E end; cbn in H; subst s1.
  - by eapply restriction_forward.
  - by eapply restriction_forward.
  - by eapply multiplier_forward.
  - by eapply quota_success_forward.
  - by eapply failure_forward.
  - by eapply transport_success_forward.
  - destruct (admit_health e cs nu nm s) as [s1 [h|]] eqn:E; injection H as <- <-;
      apply admit_health_any in E as (A & B & C); try done.
    2:{ subst s1. by rewrite app_nil_r. }
    do 2 (split; [done|]). destruct Hg as [G1 G2]. split.
    + apply Forall_app. split; [|apply Forall_singleton; cbn; split; [done|split; apply C]].
      eapply Forall_impl; [exact G1|]. intros g (X & Y). split; [by etransitivity|done].
    + rewrite (ab_issued _ _ _ _ _ _ _ C). intros k v Hk.
      apply remember_sound in Hk as [Hk|Hk].
      * apply G2 in Hk as (g & Hg & Hc). exists g. split; [apply elem_of_app; by left|done].
      * eexists. split; [apply elem_of_app; right; by left|]. cbn. done.
Qed.

Lemma run_granted ops : forall s s' new log,
  store_ok s -> granted log s -> run s ops = (s', new) ->
  store_ok s' /\ granted (log ++ new) s'.
Proof.
  induction ops as [|o ops IH]; intros s s' new log Hs Hg H; cbn in H.
  { injection H as <- <-. by rewrite app_nil_r. }
  destruct (step s o) as [s1 l1] eqn:E1. destruct (run s1 ops) as [s2 l2] eqn:E2.
  injection H as <- <-. apply (step_granted _ _ _ _ log) in E1 as (A & _ & B); [|done..].
  rewrite (assoc_L _). by eapply IH.
Qed.

Lemma new_granted i : granted [] (new_store i).
Proof. split; [constructor|]. apply map_Forall_empty. Qed.

(** ** The store keeps its promise to the retry code *)
Definition stored_ban (s : Store) (exchange quota_group : string) : Z :=
  match quota_state s !! (exchange, quota_group) with Some r => ban_until_ns r | None => 0 end.

Lemma record_ban_effect e g u reason s s' r e' g' :
  record_ban e g u reason s = (s', r) ->
  stored_ban s e' g' <= stored_ban s' e' g' /\ (r = Ok tt -> u <= stored_ban s' e g).
Proof.
  unfold record_ban, _record_quota_restriction. intros H.
  destruct (let! exchange := _nonempty e "exchange" in _) as [u'|] eqn:E; injection H as <- <-;
    [|split; [lia|done]]. inv_checks. subst u'. unfold stored_ban. cbn [quota_state set_quota].
  split.
  - destruct (base.decide ((e, g) = (e', g'))) as [[= <- <-]|Hne].
    + rewrite lookup_insert_eq. destruct (quota_state s !! (e, g)); cbn; lia.
    + rewrite lookup_insert_ne by done. lia.
  - intros _. rewrite lookup_insert_eq. destruct (quota_state s !! (e, g)); cbn; lia.
Qed.

#[export] Instance store_restrictions : QuotaRestrictionStore Store.
Proof.
  refine {| Retry.record_ban := record_ban; banned_until := stored_ban |}.
  - intros e g u reason s s' H. by apply (record_ban_effect _ _ _ _ _ _ _ e g) in H as [_ H]; auto.
  - intros e g u reason s s' r e' g' H. by apply (record_ban_effect _ _ _ _ _ _ _ e' g') in H as [H _].
Defined.

(** ** Properties *)

(** C35: a quota restriction is lifted only by a probe of that restriction.  In any
    run of the store, when a quota probe success is accepted, whatever record the
    caller passed, its claims are those of an admission this store handed out
    earlier in the run; the quota row still has the ban, the cooldown, the reason
    and the revision it had then, so nothing was recorded in between; and the
    restriction's remaining time, measured on the monotonic clock from the
    admission, has passed.  The row is cleared and no other row changes. *)
Theorem quota_probe_lifts_admitted_restriction (identity : Z) (ops : list op) (s s' : Store)
    (log : list Grant) (a : QuotaProbeAdmission) (t : Z) :
  run (new_store identity) ops = (s, log) ->
  record_quota_probe_success a t s = (s', Ok tt) ->
  exists g a0 row0 row, g ∈ log /\ a0 ∈ quota_probe_admissions (g_health g) /\
    q_identity a0 = q_identity a /\ quota_claims a0 = quota_claims a /\
    quota_state (g_store g) !! (q_exchange a, q_quota_group a) = Some row0 /\
    quota_state s !! (q_exchange a, q_quota_group a) = Some row /\
    ban_until_ns row = ban_until_ns row0 /\ cooldown_until_ns row = cooldown_until_ns row0 /\
    quota_reason row = quota_reason row0 /\ quota_revision row = quota_revision row0 /\
    g_mono g + Z.max 0 (Z.max (ban_until_ns row) (cooldown_until_ns row) - g_unix g) <= t /\
    s' = set_quota s (<[(q_exchange a, q_quota_group a) := clear_quota row]> (quota_state s)).
Proof.
  intros Hrun H. destruct (run_granted _ _ _ _ [] (new_store_ok identity) (new_granted identity) Hrun)
    as [_ [G1 G2]].
  apply quota_success_spec in H as (row & Erow & _ & Hi & Ht & Hrev & _ & ->).
  apply G2 in Hi as (g & Hg & [(a0 & Ha0 & Hoid & Hcl)|(b & _ & _ & Hcl)]);
    [|by apply eq_sym, quota_transport_claims in Hcl].
  pose proof (proj1 (Forall_forall _ _) G1 g Hg) as ((_ & _ & Hf & _) & Hq & _).
  pose proof (proj1 (Forall_forall _ _) Hq a0 Ha0) as (row0 & E0 & _ & R0 & T0 & _).
  destruct (quota_claims_inj _ _ Hcl) as (C1 & C2 & C3 & C4). rewrite C1, C2 in E0.
  destruct (Hf _ _ E0) as (row1 & E1 & Hl). rewrite Erow in E1. injection E1 as <-.
  destruct Hl as [Hl|(L1 & L2 & L3 & L4)]; [lia|].
  exists g, a0, row0, row. repeat (split; [done|]). rewrite L2, L3 in T0.
  repeat (split; [congruence || lia|]). done.
Qed.

(** The same for transport cooldowns: an egress recovers only through a probe
    admitted for exactly the failures it still has. *)
Theorem transport_probe_lifts_admitted_failure (identity : Z) (ops : list op) (s s' : Store)
    (log : list Grant) (a : TransportProbeAdmission) (t unix_ns latency : Z) :
  run (new_store identity) ops = (s, log) ->
  record_transport_probe_success a t unix_ns latency s = (s', Ok tt) ->
  exists g a0 row0 row, g ∈ log /\ a0 ∈ transport_probe_admissions (g_health g) /\
    t_identity a0 = t_identity a /\ transport_claims a0 = transport_claims a /\
    egress_state (g_store g) !! (t_exchange a, t_egress_id a) = Some row0 /\
    egress_state s !! (t_exchange a, t_egress_id a) = Some row /\
    failures row = failures row0 /\ 0 < failures row /\ egress_revision row = egress_revision row0 /\
    g_mono g + Z.max 0 (transport_cooldown_until_ns row - g_unix g) <= t /\
    s' = set_egress s (<[(t_exchange a, t_egress_id a) := clear_egress unix_ns latency row]>
           (egress_state s)).
Proof.
  intros Hrun H. destruct (run_granted _ _ _ _ [] (new_store_ok identity) (new_granted identity) Hrun)
    as [_ [G1 G2]].
  apply transport_success_spec in H as (row & Erow & _ & Hi & Ht & Hrev & Hp & ->).
  apply G2 in Hi as (g & Hg & [(b & _ & _ & Hcl)|(a0 & Ha0 & Hoid & Hcl)]);
    [by apply quota_transport_claims in Hcl|].
  pose proof (proj1 (Forall_forall _ _) G1 g Hg) as ((_ & _ & _ & Hf) & _ & Hq).
  pose proof (proj1 (Forall_forall _ _) Hq a0 Ha0) as (row0 & E0 & _ & R0 & T0 & _).
  destruct (transport_claims_inj _ _ Hcl) as (C1 & C2 & C3 & C4). rewrite C1, C2 in E0.
  destruct (Hf _ _ E0) as (row1 & E1 & Hl). rewrite Erow in E1. injection E1 as <-.
  destruct Hl as [Hl|(L1 & L2 & L3 & L4)]; [lia|].
  exists g, a0, row0, row. repeat (split; [done|]). rewrite L3 in T0.
  repeat (split; [congruence || lia|]). done.
Qed.

Lemma admitted_list_spec s e nu nm cs c d :
  NoDup (Health.id <$> cs) -> c ∈ cs ->
  ((e, Health.id c), d) ∈ admitted_list s e nu nm cs <-> probe_deadline s e nu nm c = Some d.
Proof.
  intros HND Hc. unfold admitted_list. rewrite list_elem_of_omap. split.
  - intros (c' & Hc' & E). destruct (probe_deadline s e nu nm c') eqn:Ed; [|done].
    injection E as Ei ->. assert (c' = c) as <-; [|done].
    apply list_elem_of_lookup in Hc as [i Hi], Hc' as [j Hj].
    assert (i = j) as <-; [|congruence].
    eapply NoDup_lookup; [exact HND| |]; rewrite list_lookup_fmap; [by rewrite Hi|rewrite Hj; cbn; by rewrite Ei].
  - intros Hd. exists c. split; [done|]. by rewrite Hd.
Qed.

(** Admission reads the health right.  For a valid call [admit_health]
    succeeds and leaves both tables alone; its snapshot reports an egress as
    available exactly when neither its quota group nor its transport has a pending
    restriction, and lets it be probed exactly from the instant both remaining
    times have passed. *)
Theorem admit_health_exact (s : Store) (exchange : string) (egresses : list Egress)
    (now_unix_ns now_monotonic_ns t : Z) :
  store_ok s -> exchange <> "" -> 0 <= now_unix_ns -> 0 <= now_monotonic_ns -> 0 <= t ->
  Forall (fun c => Health.quota_group c <> "" /\ Health.id c <> "") egresses ->
  NoDup (Health.id <$> egresses) ->
  exists s' h snap, admit_health exchange egresses now_unix_ns now_monotonic_ns s = (s', Ok h) /\
    quota_state s' = quota_state s /\ egress_state s' = egress_state s /\ snapshot h t = Ok snap /\
    forall c, c ∈ egresses ->
      let q := quota_row_state exchange (Health.quota_group c)
        (quota_state s !! (exchange, Health.quota_group c)) in
      let e := egress_row_state exchange (Health.id c) (egress_state s !! (exchange, Health.id c)) in
      (is_available snap exchange (Health.id c) = true <->
         quota_requires_probe q = false /\ egress_requires_probe e = false) /\
      (may_probe snap exchange (Health.id c) = true <->
         (quota_requires_probe q = true \/ egress_requires_probe e = true) /\
         (quota_requires_probe q = true ->
            now_monotonic_ns + Z.max 0 (restriction_until_unix_ns q - now_unix_ns) <= t) /\
         (egress_requires_probe e = true ->
            now_monotonic_ns + Z.max 0 (transport_cooldown_until_unix_ns e - now_unix_ns) <= t)).
Proof.
  intros Hs He Hu Hm Ht Hcs HND.
  destruct (admit_health_ok s exchange egresses now_unix_ns now_monotonic_ns) as (s' & h & E & A); [done..|].
  destruct (snapshot_ok h t Ht) as (snap & Es & Hav & Hpr). exists s', h, snap.
  do 2 (split; [done || apply A|]). split; [apply A|]. split; [done|].
  intros c Hc q e. rewrite Hav, Hpr, (ab_deadlines _ _ _ _ _ _ _ A).
  assert (Hin : (exchange, Health.id c) ∈
    (admitted_list s exchange now_unix_ns now_monotonic_ns egresses).*1 <->
    probe_deadline s exchange now_unix_ns now_monotonic_ns c <> None).
  { rewrite list_elem_of_fmap. split.
    - intros ([k d] & E1 & Hk). cbn in E1. subst k. apply admitted_list_spec in Hk; [|done..]. congruence.
    - destruct (probe_deadline _ _ _ _ c) as [d|] eqn:Ed; [|done]. intros _.
      exists ((exchange, Health.id c), d). split; [done|]. by apply admitted_list_spec. }
  rewrite Hin. setoid_rewrite admitted_list_spec; [|done..].
  unfold probe_deadline, quota_deadline, transport_deadline. fold q e.
  destruct (quota_requires_probe q), (egress_requires_probe e); split; split; naive_solver lia.
Qed.

(** An admitted probe works.  In any run, after [admit_health] every egress
    whose quota group is restricted has an admission for that group, and reporting
    its success once its deadline has passed is accepted and leaves the group
    unrestricted. *)
Theorem admitted_probe_recovers (identity : Z) (ops : list op) (s s1 : Store) (log : list Grant)
    (exchange : string) (egresses : list Egress) (now_unix_ns now_monotonic_ns : Z)
    (h : AdmittedHealth) (c : Egress) (row : QuotaRow) :
  run (new_store identity) ops = (s, log) ->
  admit_health exchange egresses now_unix_ns now_monotonic_ns s = (s1, Ok h) ->
  c ∈ egresses -> quota_state s !! (exchange, Health.quota_group c) = Some row ->
  quota_reason row <> None -> quota_revision row <= MAX_INT64 ->
  exists a, quota_probe h exchange (Health.quota_group c) = Some a /\
    forall t, 0 <= t -> q_probe_after a <= t ->
      exists s2, record_quota_probe_success a t s1 = (s2, Ok tt) /\
        quota_state s2 !! (exchange, Health.quota_group c) = Some (clear_quota row).
Proof.
  intros Hrun Had Hc Erow Hreason Hrev.
  destruct (run_granted _ _ _ _ [] (new_store_ok identity) (new_granted identity) Hrun) as [Hs _].
  apply admit_health_any in Had as (Hs1 & _ & A); [|done].
  destruct (ab_quota_all _ _ _ _ _ _ _ A c Hc) as (a1 & Ha1 & E1 & E2).
  { unfold quota_deadline. rewrite Erow. unfold quota_requires_probe. cbn.
    by rewrite bool_decide_eq_true_2. }
  destruct (quota_probe h exchange (Health.quota_group c)) as [a|] eqn:Ea.
  2:{ unfold quota_probe in Ea. apply list_elem_of_In in Ha1.
      pose proof (find_none _ _ Ea _ Ha1) as Hf. cbn in Hf.
      by rewrite E1, E2, !String.eqb_refl in Hf. }
  exists a. split; [done|]. unfold quota_probe in Ea. apply find_some in Ea as [Ha Em].
  apply list_elem_of_In in Ha. apply andb_true_iff in Em as [M1 M2].
  apply String.eqb_eq in M1, M2.
  pose proof (proj1 (Forall_forall _ _) (ab_quota_grants _ _ _ _ _ _ _ A) a Ha)
    as (row' & E' & _ & R' & _ & B').
  rewrite M1, M2, Erow in E'. injection E' as <-. intros t Ht0 Ht.
  pose proof (so_quota _ Hs _ _ Erow) as (_ & _ & Hr0 & _).
  unfold record_quota_probe_success. rewrite (ab_identity _ _ _ _ _ _ _ A), B'. cbn [negb raise_if].
  unfold __is_issued_probe_admission. rewrite (ab_issued _ _ _ _ _ _ _ A).
  rewrite remember_quota by (apply A || done). rewrite claim_match_refl. cbn [negb raise_if].
  rewrite nonnegative_ok by done. cbn [rbind]. rewrite (proj2 (Z.ltb_ge _ _)) by lia. cbn [raise_if].
  rewrite sqlite_int_ok by lia. rewrite (ab_quota_table _ _ _ _ _ _ _ A), M1, M2, Erow.
  unfold quota_pending. rewrite R', Z.eqb_refl, bool_decide_eq_true_2 by done. cbn [andb].
  eexists. split; [done|]. cbn. by rewrite lookup_insert_eq.
Qed.

(** ** A concrete run *)
Module Samples.
Definition direct : Egress :=
  {| Health.id := "a"; Health.quota_group := "q"; max_http_concurrency := 8; max_ws_connections := 20 |}.
Definition ops : list op :=
  [Ban "x" "q" 50 "http_418"; Failure "x" "a" "timeout" 30; Admit "x" [direct] 10 1000].
Definition reached : Store := (run (new_store 0) ops).1.
Definition log : list Grant := (run (new_store 0) ops).2.
Definition health : AdmittedHealth :=
  match log with g :: _ => g_health g | [] => {| probe_after_monotonic_ns := [];
    quota_probe_admissions := []; transport_probe_admissions := []; health_mint := None |} end.
Definition quota_admission : QuotaProbeAdmission :=
  {| q_identity := 1; q_exchange := "x"; q_quota_group := "q"; q_restriction_revision := 1;
     q_probe_after := 1040; q_mint := {| mint_identity := 2; _store_identity := 0;
       _claims := _quota_probe_claims "x" "q" 1 1040 |} |}.
Definition transport_admission : TransportProbeAdmission :=
  {| t_identity := 3; t_exchange := "x"; t_egress_id := "a"; t_restriction_revision := 1;
     t_probe_after := 1020; t_mint := {| mint_identity := 4; _store_identity := 0;
       _claims := _transport_probe_claims "x" "a" 1 1020 |} |}.
Definition before : Store := (run (new_store 0) (take 2 ops)).1.
End Samples.

Example admissions_example :
  quota_probe_admissions Samples.health = [Samples.quota_admission] /\
  transport_probe_admissions Samples.health = [Samples.transport_admission].
Proof. vm_compute. split; reflexivity. Qed.

Lemma quota_probe_lifts_admitted_restriction_witness :
  exists g a0 row0 row, g ∈ Samples.log /\ a0 ∈ quota_probe_admissions (g_health g) /\
    q_identity a0 = 1 /\ quota_claims a0 = quota_claims Samples.quota_admission /\
    quota_state (g_store g) !! ("x", "q") = Some row0 /\
    quota_state Samples.reached !! ("x", "q") = Some row /\
    ban_until_ns row = ban_until_ns row0.
Proof.
  destruct (quota_probe_lifts_admitted_restriction 0 Samples.ops Samples.reached
    (record_quota_probe_success Samples.quota_admission 1040 Samples.reached).1 Samples.log
    Samples.quota_admission 1040) as (g & a0 & row0 & row & H1 & H2 & H3 & H4 & H5 & H6 & H7 & _).
  - vm_compute. reflexivity.
  - vm_compute. reflexivity.
  - exists g, a0, row0, row. repeat (split; [assumption|]). assumption.
Defined.

Lemma transport_probe_lifts_admitted_failure_witness :
  exists g a0 row0 row, g ∈ Samples.log /\ a0 ∈ transport_probe_admissions (g_health g) /\
    t_identity a0 = 3 /\ transport_claims a0 = transport_claims Samples.transport_admission /\
    egress_state (g_store g) !! ("x", "a") = Some row0 /\
    egress_state Samples.reached !! ("x", "a") = Some row /\ failures row = failures row0.
Proof.
  destruct (transport_probe_lifts_admitted_failure 0 Samples.ops Samples.reached
    (record_transport_probe_success Samples.transport_admission 1020 5 6 Samples.reached).1 Samples.log
    Samples.transport_admission 1020 5 6)
    as (g & a0 & row0 & row & H1 & H2 & H3 & H4 & H5 & H6 & H7 & _).
  - vm_compute. reflexivity.
  - vm_compute. reflexivity.
  - exists g, a0, row0, row. repeat (split; [assumption|]). assumption.
Defined.

Lemma admit_health_exact_witness :
  exists s' h snap, admit_health "x" [Samples.direct] 10 1000 (new_store 0) = (s', Ok h) /\
    snapshot h 1040 = Ok snap /\ is_available snap "x" "a" = true.
Proof.
  destruct (admit_health_exact (new_store 0) "x" [Samples.direct] 10 1000 1040)
    as (s' & h & snap & H1 & _ & _ & H2 & H3); [apply new_store_ok|done|lia|lia|lia| | |].
  - repeat constructor; done.
  - repeat constructor. apply not_elem_of_nil.
  - exists s', h, snap. split; [done|]. split; [done|].
    apply (H3 Samples.direct); [left|]. split; vm_compute; reflexivity.
Defined.

Lemma admitted_probe_recovers_witness :
  exists a, quota_probe Samples.health "x" "q" = Some a /\
    forall t, 0 <= t -> q_probe_after a <= t ->
      exists s2, record_quota_probe_success a t Samples.reached = (s2, Ok tt).
Proof.
  destruct (admitted_probe_recovers 0 (take 2 Samples.ops) Samples.before Samples.reached
    (run (new_store 0) (take 2 Samples.ops)).2 "x" [Samples.direct] 10 1000 Samples.health
    Samples.direct {| ban_until_ns := 50; cooldown_until_ns := 0; rate_multiplier := Dec 1 0;
      quota_reason := Some "http_418"; quota_revision := 1 |}) as (a & H1 & H2);
    [vm_compute; reflexivity|vm_compute; reflexivity|left|vm_compute; reflexivity|done|done|].
  exists a. split; [done|]. intros t Ht Ha. destruct (H2 t Ht Ha) as (s2 & H & _). by exists s2.
Defined.
