(* ===== verification/Assignment.v ===== *)
(** [network/assignment.py]: canonical assignment keys, rendezvous hashing of
    keys onto healthy egresses, capacity-bounded assignment of instruments and
    packing of the assignments into connection shards.  The SHA-256 digest is a
    parameter: nothing here depends on which function it is. *)
From S2P Require Import Prelude Health.

Definition slash : Ascii.ascii := Ascii.ascii_of_nat 47.

Definition _nonnegative_integer (value : Z) (field : string) : result Z :=
  raise ValueError (field +:+ " must be a non-negative integer") when value <? 0;;
  Ok value.

Definition _positive_integer (value : Z) (field : string) : result Z :=
  raise ValueError (field +:+ " must be a positive integer") when value <=? 0;;
  Ok value.

(** ** Keys *)

(** ["/" in s] *)
Fixpoint has_slash (s : string) : bool :=
  match s with EmptyString => false | String c s => Ascii.eqb c slash || has_slash s end.

(** [s.split("/", 1)] and [s.rsplit("/", 1)], when there is a slash. *)
Fixpoint cut (s : string) : option (string * string) :=
  match s with
  | EmptyString => None
  | String c s =>
      if Ascii.eqb c slash then Some (EmptyString, s)
      else match cut s with Some (a, b) => Some (String c a, b) | None => None end
  end.

Fixpoint rcut (s : string) : option (string * string) :=
  match s with
  | EmptyString => None
  | String c s =>
      match rcut s with
      | Some (a, b) => Some (String c a, b)
      | None => if Ascii.eqb c slash then Some (EmptyString, s) else None
      end
  end.

Definition empty (s : string) : bool := String.eqb s "".

Definition _validate_fixed_key_components (exchange market channel : string) : result () :=
  raise ValueError "assignment key components are invalid"
    when empty exchange || has_slash exchange || empty market || has_slash market
         || empty channel || has_slash channel;;
  Ok tt.

Record _AssignmentKey : Type := {
  k_exchange : string; k_market : string; k_instrument_key : string; k_channel : string
}.
#[export] Instance key_eq_dec : EqDecision _AssignmentKey.
Proof. solve_decision. Defined.

Definition key_error : exn :=
  ValueError "assignment key must be exchange/market/instrument/channel".

Definition parse (value : string) : result _AssignmentKey :=
  match cut value with
  | None => Err key_error
  | Some (exchange, rest) =>
      match cut rest with
      | None => Err key_error
      | Some (market, remainder) =>
          match rcut remainder with
          | None => Err key_error
          | Some (instrument_key, channel) =>
              raise key_error
                when empty exchange || empty market || empty instrument_key || empty channel;;
              Ok {| k_exchange := exchange; k_market := market;
                    k_instrument_key := instrument_key; k_channel := channel |}
          end
      end
  end.

Definition from_parts (exchange market instrument_key channel : string) : result _AssignmentKey :=
  let! _ := _validate_fixed_key_components exchange market channel in
  raise ValueError "assignment key components are invalid" when empty instrument_key;;
  Ok {| k_exchange := exchange; k_market := market; k_instrument_key := instrument_key;
        k_channel := channel |}.

Definition canonical (self : _AssignmentKey) : string :=
  k_exchange self +:+ "/" +:+ k_market self +:+ "/" +:+ k_instrument_key self +:+ "/"
    +:+ k_channel self.

(** ** Assignments and shards *)
Record StickyAssignment : Type := {
  key : string; exchange : string; market : string; instrument_key : string; channel : string;
  egress_id : string; assigned_quota_group : string; generation : Z
}.
#[export] Instance sticky_eq_dec : EqDecision StickyAssignment.
Proof. solve_decision. Defined.

Definition sticky_post_init (self : StickyAssignment) : result StickyAssignment :=
  let! parsed := parse (key self) in
  raise ValueError "sticky assignment fields must match its canonical key"
    when negb (String.eqb (k_exchange parsed) (exchange self)
               && String.eqb (k_market parsed) (market self)
               && String.eqb (k_instrument_key parsed) (instrument_key self)
               && String.eqb (k_channel parsed) (channel self));;
  raise ValueError "sticky assignment egress fields must be non-empty"
    when empty (egress_id self) || empty (assigned_quota_group self);;
  let! _ := _nonnegative_integer (generation self) "generation" in
  Ok self.

Definition create (key : string) (egress : Egress) (generation : Z) : result StickyAssignment :=
  let! parsed := parse key in
  let! generation := _nonnegative_integer generation "generation" in
  sticky_post_init
    {| Assignment.key := canonical parsed; exchange := k_exchange parsed; market := k_market parsed;
       instrument_key := k_instrument_key parsed; channel := k_channel parsed;
       egress_id := id egress; assigned_quota_group := quota_group egress;
       Assignment.generation := generation |}.

Record EgressShard : Type := {
  shard_egress_id : string; index : Z; assignments : list StickyAssignment
}.

Definition instrument_keys (self : EgressShard) : list string := instrument_key <$> assignments self.

(** ** Ranking *)
Definition _validated_egresses (egresses : list Egress) : result (list Egress) :=
  raise NoAvailableEgressError "no egresses are configured" when bool_decide (egresses = []);;
  raise ValueError "duplicate egress id" when negb (bool_decide (NoDup (id <$> egresses)));;
  Ok (py_sorted (on_key id string_leb) egresses).

(** [int.from_bytes(digest, "big")] *)
Definition from_bytes_big (digest : list Z) : Z := foldl (fun acc b => 256 * acc + b) 0 digest.

Section Rendezvous.
Context (sha256 : string -> list Z).

Definition _score (key egress_id : string) : Z :=
  from_bytes_big (sha256 (key +:+ String Ascii.zero egress_id)).

Definition rank (key : string) (candidate : Egress) : Z * string :=
  (_score key (id candidate), id candidate).
Definition rank_leb : Z * string -> Z * string -> bool := lex_leb Z.eqb Z.leb string_leb.

(** [sorted(..., reverse=True)]: stable, greatest first. *)
Definition reverse_leb {A} (leb : A -> A -> bool) (x y : A) : bool := leb y x.

Definition _ranked_healthy_egresses (key : _AssignmentKey) (egresses : list Egress)
    (health : HealthSnapshot) : result (list Egress) :=
  let! candidates := _validated_egresses egresses in
  let healthy := filter (fun c => is_available health (k_exchange key) (id c) = true) candidates in
  Ok (py_sorted (reverse_leb (on_key (rank (canonical key)) rank_leb)) healthy).

Definition choose_egress (key : string) (egresses : list Egress) (health : option HealthSnapshot)
    : result Egress :=
  let! parsed := parse key in
  let! ranked := _ranked_healthy_egresses parsed egresses (default empty_snapshot health) in
  match ranked with
  | [] => Err (NoAvailableEgressError "no healthy egress is available for exchange")
  | e :: _ => Ok e
  end.

(** ** Assigning instruments *)

(** The dict [capacity] and the defaultdict [used]. *)
Definition capacities (candidates : list Egress) (exchange : string) (snapshot : HealthSnapshot)
    (subscriptions_per_connection : Z) : list (string * Z) :=
  (fun c => (id c, max_ws_connections c * subscriptions_per_connection)) <$>
    filter (fun c => is_available snapshot exchange (id c) = true) candidates.

Definition capacity_of (capacity : list (string * Z)) (egress_id : string) : result Z :=
  match find (fun kv => String.eqb kv.1 egress_id) capacity with
  | Some kv => Ok kv.2
  | None => Err (KeyError egress_id)
  end.

Definition used_of (used : gmap string Z) (egress_id : string) : Z := default 0 (used !! egress_id).

(** [next((c for c in ranked if used[c.id] < capacity[c.id]), None)] *)
Fixpoint next_free (ranked : list Egress) (used : gmap string Z) (capacity : list (string * Z))
    : result (option Egress) :=
  match ranked with
  | [] => Ok None
  | c :: ranked =>
      let! cap := capacity_of capacity (id c) in
      if used_of used (id c) <? cap then Ok (Some c) else next_free ranked used capacity
  end.

Definition exceeded : exn :=
  NoAvailableEgressError "instrument demand exceeds total healthy egress capacity".

(** The loop over the sorted instruments. *)
Fixpoint assign_loop (instruments : list string) (exchange market channel : string)
    (candidates : list Egress) (snapshot : HealthSnapshot) (capacity : list (string * Z))
    (generation : Z) (used : gmap string Z) : result (list StickyAssignment) :=
  match instruments with
  | [] => Ok []
  | instrument :: instruments =>
      let! key := from_parts exchange market instrument channel in
      let! ranked := _ranked_healthy_egresses key candidates snapshot in
      let! selected := next_free ranked used capacity in
      match selected with
      | None => Err exceeded
      | Some selected =>
          let used := <[id selected := used_of used (id selected) + 1]> used in
          let! assignment := create (canonical key) selected generation in
          let! rest := assign_loop instruments exchange market channel candidates snapshot
                         capacity generation used in
          Ok (assignment :: rest)
      end
  end.

Definition assign_instruments (instruments : list string) (exchange market channel : string)
    (egresses : list Egress) (subscriptions_per_connection : Z) (health : option HealthSnapshot)
    (generation : Z) : result (list StickyAssignment) :=
  let! _ := _validate_fixed_key_components exchange market channel in
  let! subscriptions := _positive_integer subscriptions_per_connection "subscriptions_per_connection" in
  let! generation := _nonnegative_integer generation "generation" in
  raise ValueError "instrument keys must be non-empty" when existsb empty instruments;;
  raise ValueError "instrument keys must be unique" when negb (bool_decide (NoDup instruments));;
  let! candidates := _validated_egresses egresses in
  let snapshot := default empty_snapshot health in
  let capacity := capacities candidates exchange snapshot subscriptions in
  raise exceeded when zsum capacity.*2 <? Z.of_nat (length instruments);;
  assign_loop (py_sorted string_leb instruments) exchange market channel candidates snapshot
    capacity generation ∅.

End Rendezvous.

(** ** Packing shards *)

(** [[l[o : o + n] for o in range(0, len(l), n)]] *)
Definition chunks {A} (n : Z) (l : list A) : list (list A) :=
  (fun i => take (Z.to_nat n) (drop (i * Z.to_nat n) l)) <$>
    seq 0 (Z.to_nat (ceil_div (Z.of_nat (length l)) n)).

Definition cohort (a : StickyAssignment) : ((string * string) * string) * Z :=
  (((exchange a, market a), channel a), generation a).

Definition by_id (candidates : list Egress) (egress_id : string) : option Egress :=
  find (fun c => String.eqb (id c) egress_id) candidates.

(** The validating loop that fills [grouped]. *)
Fixpoint group_loop (l : list StickyAssignment) (candidates : list Egress) (seen_keys : list string)
    (grouped : gmap string (list StickyAssignment)) : result (gmap string (list StickyAssignment)) :=
  match l with
  | [] => Ok grouped
  | a :: l =>
      raise ValueError "assignment keys must be unique" when bool_decide (key a ∈ seen_keys);;
      match by_id candidates (egress_id a) with
      | None => Err (ValueError "assignment references unknown egress")
      | Some egress =>
          raise ValueError "assignment quota group does not match current egress"
            when negb (String.eqb (assigned_quota_group a) (quota_group egress));;
          group_loop l candidates (key a :: seen_keys)
            (<[egress_id a := default [] (grouped !! egress_id a) ++ [a]]> grouped)
      end
  end.

(** The loop over the sorted egress ids. *)
Fixpoint shard_loop (ids : list string) (candidates : list Egress)
    (grouped : gmap string (list StickyAssignment)) (n : Z) : result (list EgressShard) :=
  match ids with
  | [] => Ok []
  | egress_id :: ids =>
      let items := py_sorted (on_key key string_leb) (default [] (grouped !! egress_id)) in
      let cs := chunks n items in
      match by_id candidates egress_id with
      | None => Err (KeyError egress_id)
      | Some egress =>
          raise NoAvailableEgressError "assignments exceed egress shard capacity"
            when max_ws_connections egress <? Z.of_nat (length cs);;
          let! rest := shard_loop ids candidates grouped n in
          Ok (imap (fun i c => {| shard_egress_id := egress_id; index := Z.of_nat i; assignments := c |}) cs
                ++ rest)
      end
  end.

Definition pack_egress_shards (materialized : list StickyAssignment) (egresses : list Egress)
    (subscriptions_per_connection : Z) : result (list EgressShard) :=
  let! subscriptions := _positive_integer subscriptions_per_connection "subscriptions_per_connection" in
  let! candidates := _validated_egresses egresses in
  raise ValueError "sharding requires one assignment cohort"
    when (1 <? length (remove_dups (cohort <$> materialized)))%nat;;
  let! grouped := group_loop materialized candidates [] ∅ in
  shard_loop (py_sorted string_leb (map_to_list grouped).*1) candidates grouped subscriptions.

(** ** Keys: parsing and printing *)
Lemma has_slash_app a b : has_slash (a +:+ b) = has_slash a || has_slash b.
Proof. induction a as [|c a IH]; simpl; [done|]. by rewrite IH, orb_assoc. Qed.

Lemma cut_app a b : has_slash a = false -> cut (a +:+ String slash b) = Some (a, b).
Proof.
  induction a as [|c a IH]; simpl; [done|]. intros H. apply orb_false_iff in H as [Hc Ha].
  by rewrite Hc, IH.
Qed.

Lemma cut_inv s a b : cut s = Some (a, b) -> s = a +:+ String slash b /\ has_slash a = false.
Proof.
  revert a b. induction s as [|c s IH]; intros a b; simpl; [done|].
  destruct (Ascii.eqb_spec c slash) as [->|Hc].
  - intros [= <- <-]. by split.
  - destruct (cut s) as [[a' b']|]; [|done]. intros [= <- <-].
    destruct (IH a' b' eq_refl) as [-> Ha]. split; [done|]. simpl. rewrite Ha.
    by destruct (Ascii.eqb_spec c slash).
Qed.

Lemma rcut_none s : has_slash s = false -> rcut s = None.
Proof.
  induction s as [|c s IH]; simpl; [done|]. intros H. apply orb_false_iff in H as [Hc Hs].
  by rewrite IH, Hc.
Qed.

Lemma rcut_app a b : has_slash b = false -> rcut (a +:+ String slash b) = Some (a, b).
Proof.
  intros Hb. induction a as [|c a IH].
  - simpl. rewrite rcut_none by done. reflexivity.
  - simpl. by rewrite IH.
Qed.

Lemma rcut_inv s a b : rcut s = Some (a, b) -> s = a +:+ String slash b /\ has_slash b = false.
Proof.
  revert a b. induction s as [|c s IH]; intros a b; simpl; [done|].
  destruct (rcut s) as [[a' b']|] eqn:E.
  - intros [= <- <-]. by destruct (IH a' b' eq_refl) as [-> Hb].
  - destruct (Ascii.eqb_spec c slash) as [->|Hc]; [|done]. intros [= <- <-]. split; [done|].
    clear IH. induction s as [|d s IH]; [done|]. simpl in *.
    destruct (rcut s) as [[? ?]|]; [done|]. destruct (Ascii.eqb d slash); [done|]. by apply IH.
Qed.

(** The keys the program uses. *)
Definition key_ok (k : _AssignmentKey) : Prop :=
  k_exchange k <> "" /\ k_market k <> "" /\ k_instrument_key k <> "" /\ k_channel k <> "" /\
  has_slash (k_exchange k) = false /\ has_slash (k_market k) = false /\
  has_slash (k_channel k) = false.

Lemma empty_false s : s <> "" -> empty s = false.
Proof. apply String.eqb_neq. Qed.

Lemma empty_inv s : empty s = false -> s <> "".
Proof. apply String.eqb_neq. Qed.

Lemma parse_canonical k : key_ok k -> parse (canonical k) = Ok k.
Proof.
  destruct k as [e m i c]. intros (He & Hm & Hi & Hc & Se & Sm & Sc). simpl in *.
  assert (E : canonical {| k_exchange := e; k_market := m; k_instrument_key := i; k_channel := c |}
    = e +:+ String slash (m +:+ String slash (i +:+ String slash c))) by reflexivity.
  unfold parse. rewrite E, (cut_app e) by done. cbv iota beta. rewrite (cut_app m) by done.
  cbv iota beta. rewrite (rcut_app i) by done. cbv iota beta.
  by rewrite !empty_false by done.
Qed.

Lemma parse_inv v k : parse v = Ok k -> key_ok k /\ canonical k = v.
Proof.
  unfold parse. intros H. destruct (cut v) as [[e rest]|] eqn:E1; [|done].
  destruct (cut rest) as [[m rest']|] eqn:E2; [|done].
  destruct (rcut rest') as [[i c]|] eqn:E3; [|done].
  apply cut_inv in E1 as [-> Se]. apply cut_inv in E2 as [-> Sm]. apply rcut_inv in E3 as [-> Sc].
  apply raise_if_ok in H as [H [= <-]]. bool_prop. split; [|done].
  repeat split; try done; by apply empty_inv.
Qed.

(** Parsing and printing assignment keys are inverse: a text parses to a key
    exactly when it is the canonical text of that key and the key's exchange,
    market and channel are non-empty without a slash and its instrument, which may
    hold slashes, is non-empty. *)
Theorem key_roundtrip (value : string) (k : _AssignmentKey) :
  parse value = Ok k <-> key_ok k /\ canonical k = value.
Proof. split; [apply parse_inv|]. intros [H <-]. by apply parse_canonical. Qed.

(** ** Ranking *)
#[export] Instance rank_order : LebOrder rank_leb.
Proof.
  apply lex_leb_order; [apply Z.eqb_eq|intros; lia|apply Zleb_order|apply string_leb_order].
Qed.

Section RendezvousFacts.
Context (sha256 : string -> list Z).
Local Abbreviation ranking k := (reverse_leb (on_key (rank sha256 k) rank_leb)).
Local Abbreviation healthy health e l :=
  (filter (fun c : Egress => is_available health e (id c) = true) l).

#[export] Instance ranking_order k : LebOrder (ranking k).
Proof. unfold reverse_leb. apply flip_order, on_key_order, rank_order. Qed.

Lemma ranking_antisym k x y : ranking k x y = true -> ranking k y x = true -> id x = id y.
Proof.
  unfold reverse_leb, on_key, rank, rank_leb, lex_leb. simpl.
  destruct (Z.eqb_spec (_score sha256 k (id x)) (_score sha256 k (id y))) as [E|E];
    destruct (Z.eqb_spec (_score sha256 k (id y)) (_score sha256 k (id x))); try lia.
  intros. by apply string_leb_antisym.
Qed.

Lemma validated_ok egs : egs <> [] -> NoDup (id <$> egs) ->
  _validated_egresses egs = Ok (py_sorted (on_key id string_leb) egs).
Proof.
  intros H1 H2. unfold _validated_egresses.
  rewrite bool_decide_eq_false_2, bool_decide_eq_true_2 by done. done.
Qed.

Lemma validated_inv egs l : _validated_egresses egs = Ok l ->
  egs <> [] /\ NoDup (id <$> egs) /\ l = py_sorted (on_key id string_leb) egs.
Proof. unfold _validated_egresses. intros H. inv_ok. by bool_prop. Qed.

Lemma ids_inj egs x y : NoDup (id <$> egs) -> x ∈ egs -> y ∈ egs -> id x = id y -> x = y.
Proof.
  intros HND Hx Hy E. apply list_elem_of_lookup in Hx as [i Hi], Hy as [j Hj].
  assert (i = j) as <-; [|congruence].
  eapply NoDup_lookup; [exact HND| |]; rewrite list_lookup_fmap; [by rewrite Hi|].
  rewrite Hj. cbn. by rewrite E.
Qed.

Lemma choose_inv key egs health e :
  choose_egress sha256 key egs health = Ok e ->
  exists k, parse key = Ok k /\ NoDup (id <$> egs) /\
    e ∈ egs /\ is_available (default empty_snapshot health) (k_exchange k) (id e) = true /\
    forall c, c ∈ egs -> is_available (default empty_snapshot health) (k_exchange k) (id c) = true ->
      ranking (canonical k) e c = true.
Proof.
  unfold choose_egress, _ranked_healthy_egresses. intros H.
  apply rbind_ok in H as (k & Hk & H). apply rbind_ok in H as (r & Hr & H).
  apply rbind_ok in Hr as (cs & Hv & [= <-]). apply validated_inv in Hv as (_ & HND & ->).
  exists k. split; [done|]. split; [done|].
  set (l := healthy _ _ _) in H.
  assert (Hh : head (py_sorted (ranking (canonical k)) l) = Some e).
  { destruct (py_sorted _ l); [done|]. by injection H as ->. }
  apply py_sorted_head in Hh as [He Hmin]; [|apply _].
  unfold l in He, Hmin. rewrite list_elem_of_filter, elem_of_py_sorted in He. destruct He as [Ha He].
  split; [done|]. split; [done|]. intros c Hc Hca. apply Hmin.
  by rewrite list_elem_of_filter, elem_of_py_sorted.
Qed.

Lemma choose_ok key k egs health e :
  parse key = Ok k -> NoDup (id <$> egs) ->
  e ∈ egs -> is_available (default empty_snapshot health) (k_exchange k) (id e) = true ->
  (forall c, c ∈ egs -> is_available (default empty_snapshot health) (k_exchange k) (id c) = true ->
     ranking (canonical k) e c = true) ->
  choose_egress sha256 key egs health = Ok e.
Proof.
  intros Hk HND He Ha Hmin. unfold choose_egress, _ranked_healthy_egresses. rewrite Hk. cbn [rbind].
  rewrite validated_ok; [|by intros ->; apply not_elem_of_nil in He|done]. cbn [rbind].
  set (l := healthy _ _ _).
  assert (Hl : forall c, c ∈ l <-> c ∈ egs /\
    is_available (default empty_snapshot health) (k_exchange k) (id c) = true).
  { intros c. unfold l. rewrite list_elem_of_filter, elem_of_py_sorted. tauto. }
  assert (Hh : head (py_sorted (ranking (canonical k)) l) = Some e).
  { apply py_sorted_head_eq; [apply _| |by apply Hl|].
    - intros y Hy H1 H2. apply Hl in Hy as [Hy _]. eapply ids_inj; [done..|].
      by eapply ranking_antisym.
    - intros y Hy. apply Hl in Hy as [Hy Hya]. by apply Hmin. }
  destruct (py_sorted _ l); [done|]. by injection Hh as ->.
Qed.

(** Rendezvous hashing disrupts as little as possible.  An egress that was
    chosen for a key stays chosen whatever happens to the others: reordered,
    removed or unhealthy, as long as no new healthy egress appears and the chosen
    one is still there and healthy.  In particular the choice depends on the set
    of healthy egresses only. *)
Theorem rendezvous_minimal_disruption (key : string) (egresses egresses' : list Egress)
    (health health' : option HealthSnapshot) (k : _AssignmentKey) (e : Egress) :
  choose_egress sha256 key egresses health = Ok e -> parse key = Ok k ->
  NoDup (id <$> egresses') -> e ∈ egresses' ->
  is_available (default empty_snapshot health') (k_exchange k) (id e) = true ->
  (forall c, c ∈ egresses' -> is_available (default empty_snapshot health') (k_exchange k) (id c) = true ->
     c ∈ egresses /\ is_available (default empty_snapshot health) (k_exchange k) (id c) = true) ->
  choose_egress sha256 key egresses' health' = Ok e.
Proof.
  intros Hc Hk HND He Ha Hsub. apply choose_inv in Hc as (k' & Hk' & _ & _ & _ & Hmin).
  rewrite Hk in Hk'. injection Hk' as <-. eapply choose_ok; [done..|].
  intros c Hc Hca. destruct (Hsub c Hc Hca). by apply Hmin.
Qed.
End RendezvousFacts.

(** ** Assigning: every instrument finds a place *)
Section AssignFacts.
Context (sha256 : string -> list Z).
Context (exchange market channel : string) (snapshot : HealthSnapshot) (n generation : Z).
Context (egresses : list Egress).
Context (Hids : NoDup (id <$> egresses)).
Context (Hegress : Forall (fun c => id c <> "" /\ quota_group c <> "" /\ 0 <= max_ws_connections c) egresses).
Context (Hn : 0 < n) (Hgen : 0 <= generation).
Context (Hkey : exchange <> "" /\ market <> "" /\ channel <> "" /\
  has_slash exchange = false /\ has_slash market = false /\ has_slash channel = false).

Definition healthy : list Egress :=
  filter (fun c => is_available snapshot exchange (id c) = true) egresses.
Definition cap (c : Egress) : Z := max_ws_connections c * n.
Definition keyed (instrument : string) : _AssignmentKey :=
  {| k_exchange := exchange; k_market := market; k_instrument_key := instrument; k_channel := channel |}.
(** How many of [l] were assigned to an egress. *)
Definition count (l : list StickyAssignment) (c : Egress) : Z :=
  Z.of_nat (length (filter (fun a => egress_id a = id c) l)).
Definition free (used : gmap string Z) (l : list Egress) : Z :=
  zsum ((fun c => cap c - used_of used (id c)) <$> l).

Lemma keyed_ok instrument : instrument <> "" -> key_ok (keyed instrument).
Proof. intros. unfold key_ok, keyed. cbn. tauto. Qed.

Lemma from_parts_ok instrument :
  instrument <> "" -> from_parts exchange market instrument channel = Ok (keyed instrument).
Proof.
  intros Hi. destruct Hkey as (H1 & H2 & H3 & H4 & H5 & H6).
  unfold from_parts, _validate_fixed_key_components.
  by rewrite !empty_false, H4, H5, H6 by done.
Qed.

Lemma validated_sorted : egresses <> [] ->
  NoDup (id <$> py_sorted (on_key id string_leb) egresses) /\
  py_sorted (on_key id string_leb) egresses <> [].
Proof.
  intros Hne. pose proof (py_sorted_perm (on_key id string_leb) egresses) as HP. split.
  - by rewrite HP.
  - intros E. rewrite E in HP. by apply Permutation_nil_l in HP.
Qed.

Lemma healthy_NoDup : NoDup (id <$> healthy).
Proof.
  unfold healthy. clear -Hids. induction egresses as [|c l IH]; [constructor|].
  rewrite fmap_cons in Hids. apply NoDup_cons in Hids as [Hn HND]. rewrite filter_cons.
  case_decide; [|by apply IH]. rewrite fmap_cons. constructor; [|by apply IH].
  intros Hin. apply Hn. apply list_elem_of_fmap in Hin as (c' & E & Hc').
  apply list_elem_of_filter in Hc' as [_ Hc']. rewrite E. by apply list_elem_of_fmap_2.
Qed.

Lemma ranked_ok k : egresses <> [] -> k_exchange k = exchange ->
  exists r, _ranked_healthy_egresses sha256 k (py_sorted (on_key id string_leb) egresses) snapshot = Ok r /\
    r ≡ₚ healthy.
Proof.
  intros Hne Hk. destruct (validated_sorted Hne) as [H1 H2]. unfold _ranked_healthy_egresses.
  rewrite validated_ok by done. cbn [rbind]. eexists. split; [done|].
  rewrite py_sorted_perm, Hk. unfold healthy. by rewrite !py_sorted_perm.
Qed.

(** The capacity dict. *)
Definition capacity : list (string * Z) :=
  capacities (py_sorted (on_key id string_leb) egresses) exchange snapshot n.

Lemma capacity_perm : capacity ≡ₚ (fun c => (id c, cap c)) <$> healthy.
Proof. unfold capacity, capacities, healthy. by rewrite py_sorted_perm. Qed.

Lemma capacity_of_ok c : c ∈ healthy -> capacity_of capacity (id c) = Ok (cap c).
Proof.
  intros Hc. unfold capacity_of. pose proof capacity_perm as HP.
  assert (Hin : (id c, cap c) ∈ capacity) by (rewrite HP; by apply (list_elem_of_fmap_2 (fun c => (id c, cap c)))).
  destruct (find _ capacity) as [[i v]|] eqn:E.
  - apply find_some in E as [E1 E2]. simpl in E2. apply String.eqb_eq in E2. subst i. f_equal. simpl.
    apply list_elem_of_In in E1. rewrite HP in E1. apply list_elem_of_fmap in E1 as (c' & [= E1 ->] & Hc').
    f_equal. symmetry. eapply ids_inj; [apply healthy_NoDup|done..].
  - apply list_elem_of_In in Hin. pose proof (find_none _ _ E _ Hin) as Hf. simpl in Hf.
    by rewrite String.eqb_refl in Hf.
Qed.

Lemma next_free_find ranked used : Forall (fun c => c ∈ healthy) ranked ->
  next_free ranked used capacity = Ok (find (fun c => used_of used (id c) <? cap c) ranked).
Proof.
  induction 1 as [|c r Hc Hr IH]; [done|]. cbn [next_free find].
  rewrite capacity_of_ok by done. cbn [rbind]. by case_match.
Qed.

Lemma free_pos used l : 0 < free used l -> exists c, c ∈ l /\ used_of used (id c) < cap c.
Proof.
  induction l as [|c l IH]; unfold free; [simpl; lia|]. rewrite fmap_cons, zsum_cons. intros H.
  destruct (Z.lt_ge_cases (used_of used (id c)) (cap c)); [exists c; split; [left|done]|].
  destruct IH as (c' & Hc' & H'); [unfold free; lia|]. exists c'. split; [by right|done].
Qed.

Lemma free_insert used c l : NoDup (id <$> l) -> c ∈ l ->
  free (<[id c := used_of used (id c) + 1]> used) l = free used l - 1.
Proof.
  intros HND Hc. unfold free. induction l as [|d l IH]; [by apply not_elem_of_nil in Hc|].
  rewrite fmap_cons in HND. apply NoDup_cons in HND as [Hd HND].
  assert (Hsame : forall e, id e <> id c ->
    used_of (<[id c := used_of used (id c) + 1]> used) (id e) = used_of used (id e)).
  { intros e He. unfold used_of. by rewrite lookup_insert_ne. }
  rewrite !fmap_cons, !zsum_cons. destruct (decide (id d = id c)) as [E|E].
  - assert (Hother : (fun c0 => cap c0 - used_of (<[id c := used_of used (id c) + 1]> used) (id c0)) <$> l
      = (fun c0 => cap c0 - used_of used (id c0)) <$> l).
    { apply list_fmap_ext. intros i e He. rewrite Hsame; [done|]. intros E'. apply Hd. rewrite E, <- E'.
      apply list_elem_of_fmap_2. by eapply list_elem_of_lookup_2. }
    rewrite Hother. assert (used_of (<[id c := used_of used (id c) + 1]> used) (id d)
      = used_of used (id d) + 1); [|lia]. unfold used_of. rewrite E, lookup_insert_eq. done.
  - rewrite Hsame by done. apply elem_of_cons in Hc as [->|Hc]; [done|]. rewrite IH by done. lia.
Qed.

Lemma create_ok c instrument : c ∈ egresses -> instrument <> "" ->
  create (canonical (keyed instrument)) c generation
  = Ok {| key := canonical (keyed instrument); Assignment.exchange := exchange;
          Assignment.market := market; instrument_key := instrument; Assignment.channel := channel;
          egress_id := id c; assigned_quota_group := quota_group c;
          Assignment.generation := generation |}.
Proof.
  intros Hc Hi. pose proof (proj1 (Forall_forall _ _) Hegress c Hc) as (He & Hq & _).
  unfold create. rewrite parse_canonical by by apply keyed_ok. cbn [rbind].
  assert (Hg : _nonnegative_integer generation "generation" = Ok generation).
  { unfold _nonnegative_integer, raise_if. by rewrite (proj2 (Z.ltb_ge generation 0)) by lia. }
  rewrite Hg. cbn [rbind]. unfold sticky_post_init. cbn [key Assignment.exchange Assignment.market
    instrument_key Assignment.channel egress_id assigned_quota_group Assignment.generation
    k_exchange k_market k_instrument_key k_channel keyed].
  change (parse (canonical _)) with (parse (canonical (keyed instrument))).
  rewrite parse_canonical by by apply keyed_ok. cbn [rbind k_exchange k_market k_instrument_key k_channel keyed].
  rewrite !String.eqb_refl, !empty_false by done. cbn [andb negb orb raise_if]. by rewrite Hg.
Qed.

(** What an assignment made by the loop looks like. *)
Definition placed (a : StickyAssignment) : Prop :=
  exists c, c ∈ healthy /\ instrument_key a <> "" /\
    a = {| key := canonical (keyed (instrument_key a)); Assignment.exchange := exchange;
           Assignment.market := market; instrument_key := instrument_key a;
           Assignment.channel := channel; egress_id := id c; assigned_quota_group := quota_group c;
           Assignment.generation := generation |}.

Lemma healthy_in c : c ∈ healthy -> c ∈ egresses.
Proof. unfold healthy. rewrite list_elem_of_filter. tauto. Qed.

Lemma count_cons a l c :
  count (a :: l) c = (if decide (egress_id a = id c) then 1 else 0) + count l c.
Proof. unfold count. rewrite filter_cons. case_decide; simpl; lia. Qed.

Lemma find_ranked used r : 0 < free used healthy -> r ≡ₚ healthy ->
  exists c, find (fun c => used_of used (id c) <? cap c) r = Some c /\ c ∈ healthy /\
    used_of used (id c) < cap c.
Proof.
  intros Hf HP. apply free_pos in Hf as (c & Hc & Hlt).
  destruct (find (fun c => used_of used (id c) <? cap c) r) as [c'|] eqn:E.
  - exists c'. apply find_some in E as [E1 E2]. apply list_elem_of_In in E1. rewrite HP in E1.
    bool_prop. by split_and!.
  - rewrite <- HP in Hc. apply list_elem_of_In in Hc. pose proof (find_none _ _ E _ Hc) as Hn'.
    simpl in Hn'. bool_prop. lia.
Qed.

Lemma assign_loop_ok instruments : forall used, egresses <> [] ->
  Forall (fun i => i <> "") instruments -> Z.of_nat (length instruments) <= free used healthy ->
  (forall c, c ∈ healthy -> used_of used (id c) <= cap c) ->
  exists l, assign_loop sha256 instruments exchange market channel
      (py_sorted (on_key id string_leb) egresses) snapshot capacity generation used = Ok l /\
    instrument_key <$> l = instruments /\ Forall placed l /\
    forall c, c ∈ healthy -> used_of used (id c) + count l c <= cap c.
Proof.
  induction instruments as [|i rest IH]; intros used Hne Hi Hfree Hused.
  { exists []. do 3 (split; [done || constructor|]). intros c Hc. unfold count. simpl.
    specialize (Hused c Hc). lia. }
  apply Forall_cons in Hi as [Hi Hrest]. cbn [assign_loop].
  rewrite from_parts_ok by done. cbn [rbind].
  destruct (ranked_ok (keyed i) Hne eq_refl) as (r & Er & HP). rewrite Er. cbn [rbind].
  rewrite next_free_find by (apply Forall_forall; intros c Hc; by rewrite HP in Hc). cbn [rbind].
  cbn [length] in Hfree. destruct (find_ranked used r) as (c & Ec & Hc & Hlt); [lia|done|].
  rewrite Ec, create_ok by (by apply healthy_in || done). cbn [rbind].
  destruct (IH (<[id c := used_of used (id c) + 1]> used)) as (l & El & Hk & Hpl & Hcnt); [done|done| | |].
  { rewrite free_insert by (done || apply healthy_NoDup). lia. }
  { intros d Hd. destruct (decide (id d = id c)) as [E|E]; unfold used_of.
    - assert (d = c) as -> by (eapply ids_inj; [apply healthy_NoDup|done..]).
      rewrite lookup_insert_eq. simpl. unfold used_of in Hlt. lia.
    - rewrite lookup_insert_ne by done. by apply Hused. }
  rewrite El. cbn [rbind]. eexists. split; [done|]. rewrite fmap_cons, Hk. split; [done|]. split.
  - constructor; [|done]. exists c. by split_and!.
  - intros d Hd. rewrite count_cons. cbn [egress_id]. specialize (Hcnt d Hd).
    destruct (decide (id c = id d)) as [E|E]; unfold used_of in Hcnt |- *.
    + rewrite E, lookup_insert_eq in Hcnt. unfold used_of in Hcnt. simpl in Hcnt. lia.
    + rewrite lookup_insert_ne in Hcnt by done. lia.
Qed.

Lemma zsum_perm_fmap (l1 l2 : list (string * Z)) : l1 ≡ₚ l2 -> zsum l1.*2 = zsum l2.*2.
Proof. intros HP. apply zsum_perm. by rewrite HP. Qed.

Lemma free_empty : free ∅ healthy = zsum (cap <$> healthy).
Proof.
  unfold free. f_equal. apply list_fmap_ext. intros i c _. unfold used_of. rewrite lookup_empty. simpl. lia.
Qed.

Lemma assign_ok instruments (health : option HealthSnapshot) :
  default empty_snapshot health = snapshot -> egresses <> [] ->
  NoDup instruments -> Forall (fun i => i <> "") instruments ->
  if zsum (cap <$> healthy) <? Z.of_nat (length instruments)
  then assign_instruments sha256 instruments exchange market channel egresses n health generation
       = Err exceeded
  else exists l,
    assign_instruments sha256 instruments exchange market channel egresses n health generation = Ok l /\
    instrument_key <$> l = py_sorted string_leb instruments /\ Forall placed l /\
    forall c, c ∈ healthy -> count l c <= cap c.
Proof.
  intros Hh Hne HND Hi. unfold assign_instruments, _validate_fixed_key_components.
  destruct Hkey as (H1 & H2 & H3 & H4 & H5 & H6). rewrite !empty_false, H4, H5, H6 by done.
  cbn [orb raise_if rbind]. unfold _positive_integer, _nonnegative_integer.
  rewrite (proj2 (Z.leb_gt n 0)), (proj2 (Z.ltb_ge generation 0)) by lia. cbn [raise_if rbind].
  replace (existsb empty instruments) with false.
  2:{ symmetry. apply not_true_iff_false. rewrite existsb_exists. intros (x & Hx & Hxe).
      apply list_elem_of_In in Hx. apply (proj1 (Forall_forall _ _) Hi) in Hx.
      by apply empty_false in Hx; rewrite Hx in Hxe. }
  rewrite bool_decide_eq_true_2 by done. cbn [negb raise_if]. rewrite validated_ok by done. cbn [rbind].
  rewrite Hh. fold capacity.
  assert (Hsum : zsum capacity.*2 = zsum (cap <$> healthy)).
  { rewrite (zsum_perm_fmap _ _ capacity_perm). f_equal. by rewrite <- list_fmap_compose. }
  rewrite Hsum. destruct (Z.ltb_spec (zsum (cap <$> healthy)) (Z.of_nat (length instruments))); [done|].
  cbn [raise_if].
  destruct (assign_loop_ok (py_sorted string_leb instruments) ∅) as (l & El & Hk & Hpl & Hc).
  - done.
  - by rewrite py_sorted_perm.
  - rewrite py_sorted_length, free_empty. lia.
  - intros c Hc. unfold used_of. rewrite lookup_empty. simpl. apply healthy_in in Hc.
    apply (proj1 (Forall_forall _ _) Hegress) in Hc as (_ & _ & Hc). unfold cap. nia.
  - exists l. do 3 (split; [done|]). intros c Hc'. specialize (Hc c Hc'). unfold used_of in Hc.
    rewrite lookup_empty in Hc. simpl in Hc. lia.
Qed.
End AssignFacts.

(** ** Packing *)
Section Chunks.
Context {A : Type} (n : Z) (l : list A).
Context (Hn : 0 < n).
Local Abbreviation m := (Z.to_nat n).

Lemma chunks_prefix k :
  concat ((fun i => take m (drop (i * m) l)) <$> seq 0 k) = take (k * m) l.
Proof.
  induction k as [|k IH]; [done|]. rewrite seq_S, fmap_app, concat_app, IH. cbn [fmap list_fmap concat].
  rewrite app_nil_r. replace (S k * m)%nat with (k * m + m)%nat by lia.
  rewrite <- (take_drop (k * m) (take (k * m + m) l)). rewrite take_take, Nat.min_l by lia.
  by rewrite skipn_firstn_comm, (Nat.add_comm (k * m) m), Nat.add_sub.
Qed.

Lemma chunks_concat : concat (chunks n l) = l.
Proof.
  unfold chunks. rewrite chunks_prefix, take_ge; [done|].
  pose proof (proj1 (ceil_div_le (Z.of_nat (length l)) n _ Hn) (Z.le_refl _)).
  pose proof (ceil_div_nonneg (Z.of_nat (length l)) n Hn ltac:(lia)). nia.
Qed.

Lemma chunks_length : Z.of_nat (length (chunks n l)) = ceil_div (Z.of_nat (length l)) n.
Proof.
  unfold chunks. rewrite length_fmap, length_seq.
  pose proof (ceil_div_nonneg (Z.of_nat (length l)) n Hn ltac:(lia)). lia.
Qed.

Lemma chunks_sizes : Forall (fun c => 1 <= Z.of_nat (length c) <= n) (chunks n l).
Proof.
  unfold chunks. apply Forall_fmap, Forall_forall. intros i Hi. apply elem_of_seq in Hi as [_ Hi].
  simpl. rewrite length_take, length_drop.
  assert (Z.of_nat (i * m) < Z.of_nat (length l)); [|lia].
  assert (~ ceil_div (Z.of_nat (length l)) n <= Z.of_nat i) as Hc by lia.
  rewrite ceil_div_le in Hc by done. nia.
Qed.
End Chunks.

(** The pure content of the two loops. *)
Definition add_group (g : gmap string (list StickyAssignment)) (a : StickyAssignment) :=
  <[egress_id a := default [] (g !! egress_id a) ++ [a]]> g.

Definition known (candidates : list Egress) (a : StickyAssignment) : Prop :=
  exists e, by_id candidates (egress_id a) = Some e /\ assigned_quota_group a = quota_group e.

Definition shards_for (n : Z) (g : gmap string (list StickyAssignment)) (i : string) : list EgressShard :=
  imap (fun k c => {| shard_egress_id := i; index := Z.of_nat k; assignments := c |})
    (chunks n (py_sorted (on_key key string_leb) (default [] (g !! i)))).

Lemma group_loop_iff l candidates : forall seen g g',
  group_loop l candidates seen g = Ok g' <->
  NoDup (key <$> l) /\ (forall a, a ∈ l -> key a ∉ seen) /\ Forall (known candidates) l /\
  g' = foldl add_group g l.
Proof.
  induction l as [|a l IH]; intros seen g g'; cbn [group_loop].
  { simpl. split; [intros [= <-]|intros (_ & _ & _ & ->); done].
    repeat split; try constructor. intros a Ha. by apply not_elem_of_nil in Ha. }
  rewrite raise_if_ok, bool_decide_eq_false. rewrite fmap_cons, NoDup_cons, Forall_cons.
  simpl foldl. fold (add_group g a).
  destruct (by_id candidates (egress_id a)) as [e|] eqn:Ee.
  - rewrite raise_if_ok, negb_false_iff, String.eqb_eq, IH.
    split.
    + intros (H1 & H2 & H3 & H4 & H5 & ->). repeat split; try done.
      * intros Hin. apply list_elem_of_fmap in Hin as (b & E & Hb).
        apply H4, not_elem_of_cons in Hb as [Hb _]. congruence.
      * intros b [->|Hb]%elem_of_cons; [done|]. by apply H4, not_elem_of_cons in Hb as [_ Hb].
      * by exists e.
    + intros ((H1 & H2) & H3 & ((e' & E1 & E2) & H4) & ->). rewrite Ee in E1. injection E1 as <-.
      split; [apply H3; by left|]. split; [done|]. split; [done|]. split; [|done].
      intros b Hb. apply not_elem_of_cons. split; [|apply H3; by right]. intros E. apply H1.
      rewrite <- E. by apply list_elem_of_fmap_2.
  - split; [intros [_ H]; done|]. intros (_ & _ & ((e' & E1 & _) & _) & _). congruence.
Qed.

Lemma add_group_lookup l i : forall g,
  default [] (foldl add_group g l !! i)
  = default [] (g !! i) ++ filter (fun a => egress_id a = i) l.
Proof.
  induction l as [|a l IH]; intros g; [simpl; by rewrite app_nil_r|].
  cbn [foldl]. rewrite IH, filter_cons. unfold add_group. case_decide as E.
  - rewrite E, lookup_insert_eq. simpl. by rewrite <- (assoc_L (++)).
  - by rewrite lookup_insert_ne.
Qed.

Lemma add_group_dom l i : forall g,
  is_Some (foldl add_group g l !! i) <-> is_Some (g !! i) \/ i ∈ egress_id <$> l.
Proof.
  induction l as [|a l IH]; intros g; cbn [foldl].
  - split; [by left|intros [?|H]; [done|by apply not_elem_of_nil in H]].
  - rewrite IH, fmap_cons, elem_of_cons. unfold add_group.
    destruct (decide (egress_id a = i)) as [<-|Hne].
    + rewrite lookup_insert_eq. split; [|intros _; left; done]. intros _. by right; left.
    + rewrite lookup_insert_ne by done. split; [intros [?|?]; auto|].
      intros [?|[->|?]]; [by left|done|by right].
Qed.

Lemma shard_loop_iff ids candidates g n : forall shards,
  shard_loop ids candidates g n = Ok shards <->
  shards = concat (shards_for n g <$> ids) /\
  Forall (fun i => exists e, by_id candidates i = Some e /\
    Z.of_nat (length (shards_for n g i)) <= max_ws_connections e) ids.
Proof.
  induction ids as [|i ids IH]; intros shards; cbn [shard_loop].
  { split; [intros [= <-]|intros [-> _]; done]. by split. }
  rewrite fmap_cons, Forall_cons. cbn [concat].
  assert (Hlen : length (shards_for n g i)
    = length (chunks n (py_sorted (on_key key string_leb) (default [] (g !! i))))).
  { unfold shards_for. by rewrite length_imap. }
  rewrite Hlen. destruct (by_id candidates i) as [e|]; [|split; [done|intros (_ & (e & E & _) & _); done]].
  rewrite raise_if_ok, rbind_ok, Z.ltb_ge. setoid_rewrite IH. split.
  - intros (H & rest & (-> & HF) & [= <-]). split; [done|]. split; [by exists e|done].
  - intros (-> & (e' & [= <-] & H) & HF). split; [done|]. by eexists; split.
Qed.

Lemma concat_perm {A B} (f f' : A -> list B) l :
  (forall x, x ∈ l -> f x ≡ₚ f' x) -> concat (f <$> l) ≡ₚ concat (f' <$> l).
Proof.
  induction l as [|x l IH]; intros H; [done|]. cbn.
  rewrite (H x) by left. rewrite IH; [done|]. intros. apply H. by right.
Qed.

(** Splitting a list by a key and putting the pieces together. *)
Lemma split_by_key {A} (f : A -> string) (ids : list string) (l : list A) :
  NoDup ids -> (forall a, a ∈ l -> f a ∈ ids) ->
  concat ((fun i => filter (fun a => f a = i) l) <$> ids) ≡ₚ l.
Proof.
  intros HND. revert l. induction HND as [|i ids Hi HND IH]; intros l Hcov.
  - destruct l as [|a l]; [done|]. specialize (Hcov a ltac:(left)). by apply not_elem_of_nil in Hcov.
  - cbn [fmap list_fmap concat].
    rewrite (concat_perm _ (fun j => filter (fun a => f a = j) (filter (fun a => f a <> i) l))).
    + rewrite IH.
      * clear. induction l as [|a l IH]; [done|]. rewrite !filter_cons.
        destruct (decide (f a = i)) as [E|E].
        -- rewrite (decide_False (P := f a <> i)) by tauto. cbn. by rewrite IH.
        -- rewrite (decide_True (P := f a <> i)) by done. rewrite <- Permutation_middle. by rewrite IH.
      * intros a Ha. apply list_elem_of_filter in Ha as [Hne Ha]. apply Hcov in Ha.
        apply elem_of_cons in Ha as [E|Ha]; [by destruct Hne|done].
    + intros j Hj. rewrite list_filter_filter_l; [done|]. intros a Ej Ei. apply Hi. by rewrite <- Ei, Ej.
Qed.

(** Every shard of an egress holds its own items, a bounded number of them. *)
Lemma shards_for_spec n g i : 0 < n ->
  concat (assignments <$> shards_for n g i) ≡ₚ default [] (g !! i) /\
  Forall (fun s => shard_egress_id s = i /\ 1 <= Z.of_nat (length (assignments s)) <= n) (shards_for n g i) /\
  index <$> shards_for n g i = seqZ 0 (Z.of_nat (length (shards_for n g i))).
Proof.
  intros Hn. unfold shards_for. set (l := py_sorted _ _). split; [|split].
  - assert (E : assignments <$> imap (fun k c => {| shard_egress_id := i; index := Z.of_nat k;
      assignments := c |}) (chunks n l) = chunks n l).
    { rewrite fmap_imap. etransitivity; [apply (imap_const (fun c => c))|apply list_fmap_id]. }
    rewrite E, chunks_concat by done. apply py_sorted_perm.
  - apply Forall_lookup. intros k s Hk. rewrite list_lookup_imap in Hk.
    destruct (chunks n l !! k) as [c|] eqn:Ec; [|done]. injection Hk as <-. split; [done|].
    apply (proj1 (Forall_lookup _ _) (chunks_sizes n l Hn) k c Ec).
  - rewrite length_imap. apply list_eq. intros k. rewrite list_lookup_fmap, list_lookup_imap.
    destruct (chunks n l !! k) as [c|] eqn:Ec; simpl; symmetry.
    + apply lookup_lt_Some in Ec. by rewrite lookup_seqZ_lt by lia.
    + apply lookup_ge_None in Ec. by rewrite lookup_seqZ_ge by lia.
Qed.

(** What [pack_egress_shards] accepts. *)
Definition packable (l : list StickyAssignment) (egresses : list Egress) (n : Z) : Prop :=
  NoDup (key <$> l) /\ (length (remove_dups (cohort <$> l)) <= 1)%nat /\
  Forall (fun a => exists e, e ∈ egresses /\ id e = egress_id a /\
    assigned_quota_group a = quota_group e) l /\
  forall e, e ∈ egresses -> Z.of_nat (length (filter (fun a => egress_id a = id e) l))
    <= max_ws_connections e * n.

(** What its result is. *)
Definition packing (l : list StickyAssignment) (egresses : list Egress) (n : Z)
    (shards : list EgressShard) : Prop :=
  concat (assignments <$> shards) ≡ₚ l /\
  Forall (fun s => 1 <= Z.of_nat (length (assignments s)) <= n /\
    Forall (fun a => egress_id a = shard_egress_id s) (assignments s)) shards /\
  forall e, e ∈ egresses ->
    let own := filter (fun s => shard_egress_id s = id e) shards in
    index <$> own = seqZ 0 (Z.of_nat (length own)) /\ Z.of_nat (length own) <= max_ws_connections e.

Lemma by_id_iff egs i e : NoDup (id <$> egs) ->
  by_id (py_sorted (on_key id string_leb) egs) i = Some e <-> e ∈ egs /\ id e = i.
Proof.
  intros HND. unfold by_id. split.
  - intros H. apply find_some in H as [H1 H2]. apply list_elem_of_In in H1.
    rewrite elem_of_py_sorted in H1. apply String.eqb_eq in H2. done.
  - intros [He Hi]. destruct (find _ _) as [e'|] eqn:E.
    + apply find_some in E as [E1 E2]. apply list_elem_of_In in E1. rewrite elem_of_py_sorted in E1.
      apply String.eqb_eq in E2. f_equal. eapply ids_inj; [done..|congruence].
    + assert (Hin : e ∈ py_sorted (on_key id string_leb) egs) by by rewrite elem_of_py_sorted.
      apply list_elem_of_In in Hin. pose proof (find_none _ _ E _ Hin) as Hf. simpl in Hf.
      by rewrite Hi, String.eqb_refl in Hf.
Qed.

Lemma filter_concat {A} (P : A -> Prop) `{forall x, Decision (P x)} (ls : list (list A)) :
  filter P (concat ls) = concat ((fun l => filter P l) <$> ls).
Proof. induction ls as [|l ls IH]; [done|]. cbn. by rewrite filter_app, IH. Qed.

(** The shards of one egress are those its group was cut into. *)
Lemma own_shards n g ids i : 0 < n -> NoDup ids -> i ∈ ids ->
  filter (fun s => shard_egress_id s = i) (concat (shards_for n g <$> ids)) = shards_for n g i.
Proof.
  intros Hn HND. rewrite filter_concat. induction HND as [|j ids Hj HND IH]; intros Hi;
    [by apply not_elem_of_nil in Hi|]. cbn [fmap list_fmap concat].
  assert (Hsame : forall k, Forall (fun s => shard_egress_id s = k) (shards_for n g k)).
  { intros k. eapply Forall_impl; [apply (shards_for_spec n g k Hn)|]. by intros s []. }
  assert (Hother : forall l : list string, i ∉ l ->
    concat ((fun l => filter (fun s => shard_egress_id s = i) l) <$> (shards_for n g <$> l)) = []).
  { induction l as [|k l IHl]; intros Hl; [done|]. apply not_elem_of_cons in Hl as [Hne Hl]. cbn.
    rewrite IHl, app_nil_r by done. apply filter_none. intros s Hs. apply (proj1 (Forall_forall _ _) (Hsame k)) in Hs. congruence. }
  apply elem_of_cons in Hi as [->|Hi].
  - rewrite Hother, app_nil_r by done. apply filter_all. by apply Forall_forall.
  - rewrite IH by done. assert (E : filter (fun s => shard_egress_id s = i) (shards_for n g j) = []).
    { apply filter_none. intros s Hs. apply (proj1 (Forall_forall _ _) (Hsame j)) in Hs.
      rewrite Hs. intros ->. done. }
    by rewrite E.
Qed.

Lemma pack_unfold l egs n shards : 0 < n -> egs <> [] -> NoDup (id <$> egs) ->
  pack_egress_shards l egs n = Ok shards <->
  (length (remove_dups (cohort <$> l)) <= 1)%nat /\
  exists g, group_loop l (py_sorted (on_key id string_leb) egs) [] ∅ = Ok g /\
    shard_loop (py_sorted string_leb (map_to_list g).*1) (py_sorted (on_key id string_leb) egs) g n
    = Ok shards.
Proof.
  intros Hn Hne HND. unfold pack_egress_shards, _positive_integer.
  rewrite (proj2 (Z.leb_gt n 0)) by done. cbn [raise_if rbind]. rewrite validated_ok by done.
  cbn [rbind]. rewrite raise_if_ok, Nat.ltb_ge, rbind_ok. done.
Qed.

Section Pack.
Context (l : list StickyAssignment) (egs : list Egress) (n : Z).
Context (Hn : 0 < n) (HND : NoDup (id <$> egs)).
Local Abbreviation g := (foldl add_group ∅ l).
Local Abbreviation ids := (py_sorted string_leb (map_to_list g).*1).

Lemma group_of i : default [] (g !! i) = filter (fun a => egress_id a = i) l.
Proof. by rewrite add_group_lookup, lookup_empty. Qed.

Lemma ids_spec i : i ∈ ids <-> i ∈ egress_id <$> l.
Proof.
  rewrite elem_of_py_sorted. transitivity (is_Some (g !! i)).
  - rewrite list_elem_of_fmap. split.
    + intros ([j x] & -> & Hx). apply elem_of_map_to_list in Hx. by exists x.
    + intros [x Hx]. exists (i, x). split; [done|]. by apply elem_of_map_to_list.
  - rewrite add_group_dom, lookup_empty. split; [intros [[? ?]|?]; done|by right].
Qed.

Lemma ids_NoDup : NoDup ids.
Proof. apply NoDup_py_sorted. apply NoDup_fst_map_to_list. Qed.

Lemma concat_shards (is' : list string) :
  concat (assignments <$> concat (shards_for n g <$> is'))
  ≡ₚ concat ((fun i => filter (fun a => egress_id a = i) l) <$> is').
Proof.
  induction is' as [|i is' IH]; [done|]. cbn [fmap list_fmap concat].
  rewrite fmap_app, concat_app, IH. apply Permutation_app_tail.
  rewrite <- group_of. apply (shards_for_spec n g i Hn).
Qed.

Lemma shards_packing shards :
  shards = concat (shards_for n g <$> ids) ->
  Forall (known (py_sorted (on_key id string_leb) egs)) l ->
  (forall e, e ∈ egs -> id e ∈ ids -> Z.of_nat (length (shards_for n g (id e))) <= max_ws_connections e) ->
  Forall (fun e => 0 <= max_ws_connections e) egs ->
  packing l egs n shards.
Proof.
  intros -> Hk Hcap Hws. split; [|split].
  - assert (E : concat (assignments <$> concat (shards_for n g <$> ids))
      ≡ₚ concat ((fun i => filter (fun a => egress_id a = i) l) <$> ids)).
    { apply concat_shards. }
    rewrite E. apply split_by_key; [apply ids_NoDup|].
    intros a Ha. apply ids_spec. by apply list_elem_of_fmap_2.
  - apply Forall_concat, Forall_fmap, Forall_forall. intros i _. simpl.
    destruct (shards_for_spec n g i Hn) as (HP & HF & _). apply Forall_forall. intros s Hs.
    pose proof (proj1 (Forall_forall _ _) HF s Hs) as [Hi Hlen]. split; [done|].
    apply Forall_forall. intros a Ha. rewrite Hi.
    assert (Hin : a ∈ concat (assignments <$> shards_for n g i)).
    { apply elem_of_concat. exists (assignments s). split; [done|]. by apply list_elem_of_fmap_2. }
    rewrite HP, group_of in Hin. by apply list_elem_of_filter in Hin as [? _].
  - intros e He. destruct (decide (id e ∈ ids)) as [Hin|Hin].
    + cbn zeta. rewrite own_shards by (done || apply ids_NoDup). split; [|by apply Hcap].
      apply (shards_for_spec n g (id e) Hn).
    + cbn zeta. rewrite filter_none.
      * split; [done|]. by apply (proj1 (Forall_forall _ _) Hws) in He.
      * intros s Hs E. apply elem_of_concat in Hs as (x & Hs & Hx).
        apply list_elem_of_fmap in Hx as (i & -> & Hi). destruct (shards_for_spec n g i Hn) as (_ & HF & _).
        apply (proj1 (Forall_forall _ _) HF) in Hs as [Hs _]. congruence.
Qed.

Lemma shards_count i : Z.of_nat (length (shards_for n g i))
  = ceil_div (Z.of_nat (length (filter (fun a => egress_id a = i) l))) n.
Proof.
  unfold shards_for. rewrite length_imap, chunks_length, py_sorted_length by done. by rewrite group_of.
Qed.

Lemma pack_ok : egs <> [] -> Forall (fun e => 0 <= max_ws_connections e) egs ->
  packable l egs n -> exists shards, pack_egress_shards l egs n = Ok shards /\ packing l egs n shards.
Proof.
  intros Hne Hws (HND' & Hco & Hkn & Hcap).
  assert (Hknown : Forall (known (py_sorted (on_key id string_leb) egs)) l).
  { eapply Forall_impl; [exact Hkn|]. intros a (e & He & Hi & Hq). exists e. split; [|done].
    by apply by_id_iff. }
  exists (concat (shards_for n g <$> ids)). split.
  - apply pack_unfold; [done..|]. split; [done|]. exists g. split.
    + apply group_loop_iff. split; [done|]. split; [|done]. intros a _. apply not_elem_of_nil.
    + apply shard_loop_iff. split; [done|]. apply Forall_forall. intros i Hi. apply ids_spec in Hi.
      apply list_elem_of_fmap in Hi as (a & -> & Ha).
      apply (proj1 (Forall_forall _ _) Hkn) in Ha as (e & He & Hid & _). exists e.
      rewrite <- Hid. split; [by apply by_id_iff|]. rewrite shards_count, ceil_div_le by done. by apply Hcap.
  - apply shards_packing; [done|done| |done]. intros e He _. rewrite shards_count, ceil_div_le by done.
    by apply Hcap.
Qed.
End Pack.

(** Packing loses nothing and respects the connections.  Whenever
    [pack_egress_shards] returns, the shards hold exactly the given assignments,
    each shard belongs to one egress and holds between one and
    [subscriptions_per_connection] of its assignments, and the shards of an egress
    are numbered from zero and are no more than its connections. *)
Theorem pack_correct (l : list StickyAssignment) (egresses : list Egress) (n : Z)
    (shards : list EgressShard) :
  Forall (fun e => 0 <= max_ws_connections e) egresses ->
  pack_egress_shards l egresses n = Ok shards -> packing l egresses n shards.
Proof.
  intros Hws H. assert (Hv : 0 < n /\ egresses <> [] /\ NoDup (id <$> egresses)).
  { unfold pack_egress_shards in H. apply rbind_ok in H as (m & Hm & H).
    apply rbind_ok in H as (cs & Hc & _). apply validated_inv in Hc as (H1 & H2 & _).
    unfold _positive_integer in Hm. apply raise_if_ok in Hm as [Hm _]. bool_prop. done. }
  destruct Hv as (Hn & Hne & HND). apply pack_unfold in H as (_ & g & Hg & Hs); [|done..].
  apply group_loop_iff in Hg as (_ & _ & Hk & ->). apply shard_loop_iff in Hs as [-> HF].
  apply shards_packing; try done.
  intros e He Hi. apply (proj1 (Forall_forall _ _) HF) in Hi as (e' & He' & Hle).
  apply by_id_iff in He' as [He' E]; [|done].
  assert (e' = e) as -> by (by eapply ids_inj). done.
Qed.

Lemma placed_facts exchange market channel snapshot generation egs a :
  placed exchange market channel snapshot generation egs a ->
  cohort a = (((exchange, market), channel), generation) /\
  key a = canonical {| k_exchange := exchange; k_market := market;
    k_instrument_key := instrument_key a; k_channel := channel |} /\ instrument_key a <> "" /\
  exists e, e ∈ egs /\ id e = egress_id a /\ assigned_quota_group a = quota_group e /\
    is_available snapshot exchange (id e) = true.
Proof.
  intros (c & Hc & Hi & E). unfold healthy in Hc. apply list_elem_of_filter in Hc as [Ha Hc].
  rewrite E. cbn. repeat (split; [done|]). by exists c.
Qed.

Lemma assigned_keys_NoDup exchange market channel (l : list StickyAssignment) :
  exchange <> "" /\ market <> "" /\ channel <> "" /\
    has_slash exchange = false /\ has_slash market = false /\ has_slash channel = false ->
  Forall (fun a => key a = canonical {| k_exchange := exchange; k_market := market;
    k_instrument_key := instrument_key a; k_channel := channel |} /\ instrument_key a <> "") l ->
  NoDup (instrument_key <$> l) -> NoDup (key <$> l).
Proof.
  intros Hk. induction 1 as [|a l [E Hi] Hl IH]; [done|]. rewrite !fmap_cons.
  intros [Hn HND]%NoDup_cons. constructor; [|by apply IH].
  intros Hin. apply list_elem_of_fmap in Hin as (b & Eb & Hb).
  pose proof (proj1 (Forall_forall _ _) Hl b Hb) as [Ekb Hib]. apply Hn.
  assert (Hsame : instrument_key a = instrument_key b); [|rewrite Hsame; by apply list_elem_of_fmap_2].
  assert (Hok : forall i, i <> "" -> key_ok {| k_exchange := exchange; k_market := market;
    k_instrument_key := i; k_channel := channel |}).
  { intros i Hne. unfold key_ok. cbn. tauto. }
  pose proof (parse_canonical _ (Hok _ Hi)) as P1. pose proof (parse_canonical _ (Hok _ Hib)) as P2.
  rewrite <- E, Eb, Ekb in P1. rewrite P1 in P2. by injection P2.
Qed.

Lemma one_cohort c (l : list StickyAssignment) :
  Forall (fun a => cohort a = c) l -> (length (remove_dups (cohort <$> l)) <= 1)%nat.
Proof.
  intros H. assert (Hsub : remove_dups (cohort <$> l) ⊆ [c]).
  { intros x Hx. apply elem_of_remove_dups, list_elem_of_fmap in Hx as (a & -> & Ha).
    apply (proj1 (Forall_forall _ _) H) in Ha. rewrite Ha. left. }
  change 1%nat with (length [c]). apply submseteq_length, NoDup_submseteq; [apply NoDup_remove_dups|done].
Qed.

(** C37: an assignment can always be connected.  For a valid request, the demand is
    refused exactly when it exceeds the connections of the healthy egresses; else
    every instrument is assigned, in sorted order and each once, to a healthy
    egress of the request, and packing the result into shards with the same
    egresses and the same number of subscriptions succeeds.  The branch of
    [assign_instruments] that finds no free egress is never taken. *)
Theorem assigned_instruments_can_be_packed (sha256 : string -> list Z) (instruments : list string)
    (exchange market channel : string) (egresses : list Egress) (n generation : Z)
    (health : option HealthSnapshot) :
  NoDup (id <$> egresses) -> egresses <> [] ->
  Forall (fun c => id c <> "" /\ quota_group c <> "" /\ 0 <= max_ws_connections c) egresses ->
  0 < n -> 0 <= generation -> NoDup instruments -> Forall (fun i => i <> "") instruments ->
  _validate_fixed_key_components exchange market channel = Ok tt ->
  let able := filter (fun c => is_available (default empty_snapshot health) exchange (id c) = true) egresses in
  let result := assign_instruments sha256 instruments exchange market channel egresses n health generation in
  if zsum ((fun c => max_ws_connections c * n) <$> able) <? Z.of_nat (length instruments)
  then result = Err exceeded
  else exists l shards, result = Ok l /\ instrument_key <$> l = py_sorted string_leb instruments /\
    Forall (fun a => exists e, e ∈ able /\ id e = egress_id a /\ quota_group e = assigned_quota_group a) l /\
    pack_egress_shards l egresses n = Ok shards /\ packing l egresses n shards.
Proof.
  intros HND Hne Heg Hn Hgen HNDi Hi Hkey able result.
  assert (Hk : exchange <> "" /\ market <> "" /\ channel <> "" /\
    has_slash exchange = false /\ has_slash market = false /\ has_slash channel = false).
  { unfold _validate_fixed_key_components in Hkey. apply raise_if_ok in Hkey as [Hkey _]. bool_prop.
    repeat split; try done; by apply empty_inv. }
  pose proof (assign_ok sha256 exchange market channel (default empty_snapshot health) n generation egresses
    HND Heg Hn Hgen Hk instruments health eq_refl Hne HNDi Hi) as H.
  fold result in H. change (zsum (cap n <$> healthy exchange (default empty_snapshot health) egresses))
    with (zsum ((fun c => max_ws_connections c * n) <$> able)) in H.
  destruct (zsum _ <? _); [done|]. destruct H as (l & Hr & Hik & Hpl & Hcnt).
  assert (Hfacts := fun a Ha => placed_facts _ _ _ _ _ _ a (proj1 (Forall_forall _ _) Hpl a Ha)).
  destruct (pack_ok l egresses n Hn HND Hne) as (shards & Hp & Hpk).
  - eapply Forall_impl; [exact Heg|]. tauto.
  - split; [|split; [|split]].
    + apply (assigned_keys_NoDup exchange market channel l Hk); [|by rewrite Hik, NoDup_py_sorted].
      apply Forall_forall. intros a Ha. destruct (Hfacts a Ha) as (_ & E & Hia & _). done.
    + apply (one_cohort (((exchange, market), channel), generation)). apply Forall_forall.
      intros a Ha. by destruct (Hfacts a Ha).
    + apply Forall_forall. intros a Ha. destruct (Hfacts a Ha) as (_ & _ & _ & e & He & E1 & E2 & _).
      by exists e.
    + intros e He. destruct (decide (e ∈ able)) as [Hin|Hin]; [by apply Hcnt|].
      rewrite filter_none; [simpl|].
      * apply (proj1 (Forall_forall _ _) Heg) in He as (_ & _ & He). nia.
      * intros a Ha E. destruct (Hfacts a Ha) as (_ & _ & _ & e' & He' & E1 & _ & Hav). apply Hin.
        assert (e' = e) as <- by (eapply ids_inj; [done..|congruence]).
        by apply list_elem_of_filter.
  - exists l, shards. split; [done|]. split; [done|]. split; [|done].
    apply Forall_forall. intros a Ha. destruct (Hfacts a Ha) as (_ & _ & _ & e & He & E1 & E2 & Hav).
    exists e. split; [by apply list_elem_of_filter|done].
Qed.

(** ** Concrete egresses *)
Module Samples.
(** A digest that adds up the bytes of its input. *)
Definition digest (s : string) : list Z :=
  [foldl (fun acc c => acc + Z.of_nat (Ascii.nat_of_ascii c)) 0 (String.list_ascii_of_string s)].
Definition egress (i : string) (ws : Z) : Egress :=
  {| id := i; quota_group := "q"; max_http_concurrency := 8; max_ws_connections := ws |}.
Definition egresses : list Egress := [egress "b" 1; egress "a" 1].
End Samples.

Lemma rendezvous_minimal_disruption_witness :
  choose_egress Samples.digest "x/spot/BTC/trade" [Samples.egress "b" 9] None = Ok (Samples.egress "b" 9).
Proof.
  apply (rendezvous_minimal_disruption Samples.digest "x/spot/BTC/trade"
    [Samples.egress "a" 1; Samples.egress "b" 9] [Samples.egress "b" 9] None None
    {| k_exchange := "x"; k_market := "spot"; k_instrument_key := "BTC"; k_channel := "trade" |}
    (Samples.egress "b" 9)).
  - vm_compute. reflexivity.
  - vm_compute. reflexivity.
  - repeat constructor. apply not_elem_of_nil.
  - left.
  - vm_compute. reflexivity.
  - intros c ->%list_elem_of_singleton _. split; [right; left|vm_compute; reflexivity].
Defined.

Lemma assigned_instruments_can_be_packed_witness :
  exists l shards,
    assign_instruments Samples.digest ["Z"; "A"; "M"] "x" "spot" "trade" Samples.egresses 2 None 0 = Ok l /\
    instrument_key <$> l = ["A"; "M"; "Z"] /\ pack_egress_shards l Samples.egresses 2 = Ok shards.
Proof.
  destruct (assigned_instruments_can_be_packed Samples.digest ["Z"; "A"; "M"] "x" "spot" "trade"
    Samples.egresses 2 0 None) as (l & shards & H1 & H2 & _ & H3 & _).
  - repeat constructor; set_solver.
  - done.
  - repeat constructor; done.
  - lia.
  - lia.
  - repeat constructor; set_solver.
  - repeat constructor; done.
  - vm_compute. reflexivity.
  - exists l, shards. split; [exact H1|]. split; [rewrite H2; vm_compute; reflexivity|exact H3].
Defined.

Definition sample_sticky : StickyAssignment :=
  {| key := "x/spot/BTC/trade"; exchange := "x"; market := "spot"; instrument_key := "BTC";
     channel := "trade"; egress_id := "a"; assigned_quota_group := "q"; generation := 0 |}.

Lemma pack_correct_witness :
  packing [sample_sticky] Samples.egresses 2
    [{| shard_egress_id := "a"; index := 0; assignments := [sample_sticky] |}].
Proof.
  apply (pack_correct [sample_sticky] Samples.egresses 2).
  - repeat constructor; done.
  - vm_compute. reflexivity.
Defined.
