(* ===== verification/Domain.v ===== *)
(** [domain/]: the enumerations, JSON payloads, source contexts, event drafts and
    raw envelopes every other part exchanges, and the path encoding of instrument
    keys.  A pydantic model is a record with the check its validation runs; a
    check that fails is the [ValueError] pydantic derives its errors from. *)
From S2P Require Import Prelude PyDecimal.

(** ** [domain/types.py] *)
Inductive Exchange : Type := BINANCE | OKX | BYBIT | BITGET | KRAKEN.
Inductive Market : Type := SPOT | PERPETUAL.
Inductive Transport : Type := REST | WEBSOCKET | INTERNAL.
Inductive IntegrityMode : Type :=
| SEQUENCE_VERIFIED | CHECKSUM_VERIFIED | SNAPSHOT_CHAIN | BEST_EFFORT | INVALID.
Inductive CoverageMode : Type := COMPLETE | LOSSY_WINDOW | UNKNOWN.
Inductive CloseReason : Type :=
| ROTATE_TIME | ROTATE_SIZE | CONFIG_RELOAD | SHUTDOWN | RECOVERY | RECOVERY_CONTROL.
#[export] Instance Exchange_eq_dec : EqDecision Exchange.
Proof. solve_decision. Defined.
#[export] Instance Market_eq_dec : EqDecision Market.
Proof. solve_decision. Defined.
#[export] Instance Transport_eq_dec : EqDecision Transport.
Proof. solve_decision. Defined.
#[export] Instance IntegrityMode_eq_dec : EqDecision IntegrityMode.
Proof. solve_decision. Defined.
#[export] Instance CoverageMode_eq_dec : EqDecision CoverageMode.
Proof. solve_decision. Defined.

Definition exchange_value (e : Exchange) : string :=
  match e with
  | BINANCE => "binance" | OKX => "okx" | BYBIT => "bybit" | BITGET => "bitget" | KRAKEN => "kraken"
  end.
Definition is_research_valid (m : IntegrityMode) : bool :=
  match m with INVALID => false | _ => true end.

(** ** [domain/json_codec.py] *)

(** What a caller may hand in; a mapping key that is not a [str] is [None]. *)
Inductive Value : Type :=
| VNone
| VBool (b : bool)
| VInt (z : Z)
| VStr (s : string)
| VDecimal (d : decimal)
| VList (items : list Value)
| VDict (items : list (option string * Value))
| VOther.

Inductive Json : Type :=
| JNull
| JBool (b : bool)
| JInt (z : Z)
| JDecimal (d : dec)
| JStr (s : string)
| JList (items : list Json)
| JDict (items : list (string * Json)).

Definition json_error : exn := ValueError "JSON value is not supported".

Fixpoint validate_json_payload (value : Value) : result Json :=
  match value with
  | VNone => Ok JNull
  | VBool b => Ok (JBool b)
  | VInt z => Ok (JInt z)
  | VStr s => Ok (JStr s)
  | VDecimal (Finite d) => Ok (JDecimal d)
  | VDecimal NonFinite => Err json_error
  | VList items =>
      let! items := (fix all items :=
         match items with
         | [] => Ok []
         | x :: items =>
             let! x := validate_json_payload x in
             let! items := all items in
             Ok (x :: items)
         end) items in
      Ok (JList items)
  | VDict items =>
      let! items := (fix all items :=
         match items with
         | [] => Ok []
         | (None, _) :: _ => Err json_error
         | (Some k, x) :: items =>
             let! x := validate_json_payload x in
             let! items := all items in
             Ok ((k, x) :: items)
         end) items in
      Ok (JDict items)
  | VOther => Err json_error
  end.

(** ** Field constraints of [domain/envelope.py] *)
Definition nonempty (s : string) : bool := negb (String.eqb s "").
Definition opt_ok {A} (p : A -> bool) (o : option A) : bool :=
  match o with Some x => p x | None => true end.
Definition nonneg (z : Z) : bool := 0 <=? z.
Definition positive (z : Z) : bool := 0 <? z.
Definition present {A} (o : option A) : bool := match o with Some _ => true | None => false end.

Definition lower_hex (c : Ascii.ascii) : bool :=
  let n := Ascii.nat_of_ascii c in
  ((48 <=? n) && (n <=? 57) || (97 <=? n) && (n <=? 102))%nat.
(** [^[0-9a-f]{64}$] *)
Definition config_sha256_ok (s : string) : bool :=
  (String.length s =? 64)%nat && forallb lower_hex (String.list_ascii_of_string s).

Definition MARKET_SCOPED_STREAMS : list string := ["instrument"; "status"; "insurance_fund"].
Definition BOOK_STREAMS : list string := ["book_deep_snapshot"; "book_live"; "book_live_bootstrap"].

(** ** [RestMetadata] *)
Record RestMetadata : Type := {
  request_started_at_ns : Z; request_ended_at_ns : Z; method : string; path : string;
  params : list (string * Json); status : Z; attempt : Z; rate_limit_headers : list (string * string);
  requested_interval_ns : option Z; effective_interval_ns : option Z
}.

Definition metadata_validate (self : RestMetadata) : result RestMetadata :=
  raise ValueError "invalid REST metadata field"
    when negb (nonneg (request_started_at_ns self) && nonneg (request_ended_at_ns self)
      && nonempty (method self) && nonempty (path self)
      && (nonneg (status self) && (status self <=? 599)) && positive (attempt self)
      && opt_ok positive (requested_interval_ns self) && opt_ok positive (effective_interval_ns self));;
  raise ValueError "request_ended_at_ns must not precede request_started_at_ns"
    when request_ended_at_ns self <? request_started_at_ns self;;
  match requested_interval_ns self, effective_interval_ns self with
  | Some requested, Some effective =>
      raise ValueError "effective interval metadata must not be below requested interval"
        when effective <? requested;;
      Ok self
  | None, None => Ok self
  | _, _ => Err (ValueError "requested and effective interval metadata must be paired")
  end.

(** ** [SourceContext] *)
Record SourceContext : Type := {
  connection_id : option string; connection_generation : option Z; egress_id : option string
}.
#[export] Instance SourceContext_eq_dec : EqDecision SourceContext.
Proof. solve_decision. Defined.

Definition source_validate (self : SourceContext) : result SourceContext :=
  raise ValueError "invalid source context field"
    when negb (opt_ok nonempty (connection_id self) && opt_ok nonneg (connection_generation self)
      && opt_ok nonempty (egress_id self));;
  raise ValueError "source context connection_id and connection_generation must be paired"
    when negb (eqb (present (connection_id self)) (present (connection_generation self)));;
  Ok self.

Definition internal : SourceContext :=
  {| connection_id := None; connection_generation := None; egress_id := None |}.

Definition validate_for (self : SourceContext) (transport : Transport) (logical_stream : string)
    : result () :=
  let has_connection := present (connection_id self) in
  if bool_decide (transport = INTERNAL) then
    raise ValueError "internal source context must be entirely null"
      when has_connection || present (egress_id self);;
    Ok tt
  else if bool_decide (transport = WEBSOCKET) || String.eqb logical_stream "book_live_bootstrap" then
    raise ValueError "WebSocket/bootstrap source context requires connection and egress"
      when negb has_connection || negb (present (egress_id self));;
    Ok tt
  else
    raise ValueError "routine REST source context requires only a non-null egress_id"
      when has_connection || negb (present (egress_id self));;
    Ok tt.

(** ** [NativeEventDraft] and [RawEnvelope] *)
Record NativeEventDraft : Type := {
  exchange : Exchange; market : option Market; instrument_key : option string;
  wire_symbol : option string; logical_stream : string; native_channel : option string;
  transport : Transport; event_time_ns : option Z; event_time_source : option string;
  integrity_mode : option IntegrityMode; coverage : option CoverageMode;
  rest_metadata : option RestMetadata; payload : Json
}.

Definition draft_validate (self : NativeEventDraft) : result NativeEventDraft :=
  raise ValueError "invalid draft field"
    when negb (opt_ok nonempty (instrument_key self) && opt_ok nonempty (wire_symbol self)
      && nonempty (logical_stream self) && opt_ok nonempty (native_channel self)
      && opt_ok nonneg (event_time_ns self) && opt_ok nonempty (event_time_source self));;
  let is_control := String.eqb (logical_stream self) "_control" in
  raise ValueError "market may be null only for exchange _control records"
    when negb (present (market self)) && negb is_control;;
  raise ValueError "instrument_key and wire_symbol must be present together"
    when negb (eqb (present (instrument_key self)) (present (wire_symbol self)));;
  raise ValueError "instrument_key and wire_symbol are required"
    when negb is_control && negb (bool_decide (logical_stream self ∈ MARKET_SCOPED_STREAMS))
         && negb (present (instrument_key self));;
  raise ValueError "native_channel may be null only for _control records"
    when negb (present (native_channel self)) && negb is_control;;
  raise ValueError "event_time_ns and event_time_source must be present together"
    when negb (eqb (present (event_time_ns self)) (present (event_time_source self)));;
  raise ValueError "REST records require rest_metadata"
    when bool_decide (transport self = REST) && negb (present (rest_metadata self));;
  raise ValueError "rest_metadata is valid only for REST records"
    when negb (bool_decide (transport self = REST)) && present (rest_metadata self);;
  raise ValueError "internal transport is reserved for _control records"
    when bool_decide (transport self = INTERNAL) && negb is_control;;
  raise ValueError "book_live_bootstrap must use REST transport"
    when String.eqb (logical_stream self) "book_live_bootstrap"
         && negb (bool_decide (transport self = REST));;
  raise ValueError "integrity_mode is valid only for book records"
    when present (integrity_mode self) && negb (bool_decide (logical_stream self ∈ BOOK_STREAMS));;
  Ok self.

Definition validate_source (self : NativeEventDraft) (source : SourceContext) : result () :=
  validate_for source (transport self) (logical_stream self).

Record RawEnvelope : Type := {
  base : NativeEventDraft; schema_version : Z; received_at_ns : Z; monotonic_ns : Z;
  worker_instance_id : string; env_connection_id : option string;
  env_connection_generation : option Z; writer_sequence : Z; env_egress_id : option string;
  config_sha256 : string
}.

Definition validate_source_fields (self : RawEnvelope) : result () :=
  let! source := source_validate
    {| connection_id := env_connection_id self;
       connection_generation := env_connection_generation self;
       egress_id := env_egress_id self |} in
  validate_source (base self) source.

Definition envelope_validate (self : RawEnvelope) : result RawEnvelope :=
  raise ValueError "invalid envelope field"
    when negb ((schema_version self =? 1) && nonneg (received_at_ns self)
      && nonneg (monotonic_ns self) && nonempty (worker_instance_id self)
      && opt_ok nonempty (env_connection_id self) && opt_ok nonneg (env_connection_generation self)
      && nonneg (writer_sequence self) && opt_ok nonempty (env_egress_id self)
      && config_sha256_ok (config_sha256 self));;
  let! _ := draft_validate (base self) in
  let! _ := validate_source_fields self in
  Ok self.

Definition _construct_envelope_from_validated_parts (draft : NativeEventDraft)
    (received_at_ns monotonic_ns : Z) (worker_instance_id : string) (source : SourceContext)
    (writer_sequence : Z) (config_sha256 : string) : RawEnvelope :=
  {| base := draft; schema_version := 1; Domain.received_at_ns := received_at_ns;
     Domain.monotonic_ns := monotonic_ns; Domain.worker_instance_id := worker_instance_id;
     env_connection_id := connection_id source;
     env_connection_generation := connection_generation source;
     Domain.writer_sequence := writer_sequence; env_egress_id := egress_id source;
     Domain.config_sha256 := config_sha256 |}.

(** ** [domain/paths.py] *)

(** The bytes of [_SAFE]: ASCII letters and digits, [-], [.] and [~]. *)
Definition is_safe (c : Ascii.ascii) : bool :=
  let n := Ascii.nat_of_ascii c in
  ((48 <=? n) && (n <=? 57) || (65 <=? n) && (n <=? 90) || (97 <=? n) && (n <=? 122)
   || (n =? 45) || (n =? 46) || (n =? 126))%nat.

Definition hex_digit (n : nat) : Ascii.ascii :=
  Ascii.ascii_of_nat (if (n <? 10)%nat then 48 + n else 55 + n).
Definition percent : Ascii.ascii := Ascii.ascii_of_nat 37.

Fixpoint has_nul (s : string) : bool :=
  match s with EmptyString => false | String c s => Ascii.eqb c Ascii.zero || has_nul s end.

Fixpoint encode_bytes (s : string) : string :=
  match s with
  | EmptyString => EmptyString
  | String c s =>
      if is_safe c then String c (encode_bytes s)
      else let n := Ascii.nat_of_ascii c in
           String percent (String (hex_digit (n / 16)) (String (hex_digit (n mod 16)) (encode_bytes s)))
  end.

Definition encode_instrument_key (instrument_key : string) : result string :=
  raise ValueError "instrument key is not path-safe"
    when String.eqb instrument_key "" || bool_decide (instrument_key ∈ ["."; ".."])
         || has_nul instrument_key;;
  Ok (encode_bytes instrument_key).

Definition hex_value (c : Ascii.ascii) : option nat :=
  let n := Ascii.nat_of_ascii c in
  if ((48 <=? n) && (n <=? 57))%nat then Some (n - 48)%nat
  else if ((65 <=? n) && (n <=? 70))%nat then Some (n - 55)%nat
  else if ((97 <=? n) && (n <=? 102))%nat then Some (n - 87)%nat
  else None.

(** [unquote] on the bytes of an ASCII text: a percent sign that two hexadecimal
    digits do not follow stays as it is. *)
Fixpoint unquote (s : string) : string :=
  match s with
  | String c (String h (String l rest) as tail1) =>
      if Ascii.eqb c percent then
        match hex_value h, hex_value l with
        | Some a, Some b => String (Ascii.ascii_of_nat (16 * a + b)) (unquote rest)
        | _, _ => String c (unquote tail1)
        end
      else String c (unquote tail1)
  | String c tail => String c (unquote tail)
  | EmptyString => EmptyString
  end.

Definition decode_instrument_key (encoded : string) : string := unquote encoded.

(** ** Facts *)
Lemma hex_roundtrip n : (n < 16)%nat -> hex_value (hex_digit n) = Some n.
Proof. intros Hn. do 16 (destruct n as [|n]; [reflexivity|]). lia. Qed.

Lemma unquote_plain c s : c <> percent -> unquote (String c s) = String c (unquote s).
Proof.
  intros Hc. destruct s as [|h [|l s]]; [done|done|]. cbn [unquote].
  by rewrite (proj2 (Ascii.eqb_neq c percent) Hc).
Qed.

Lemma unquote_hex a b s : (a < 16)%nat -> (b < 16)%nat ->
  unquote (String percent (String (hex_digit a) (String (hex_digit b) s)))
  = String (Ascii.ascii_of_nat (16 * a + b)) (unquote s).
Proof.
  intros Ha Hb. cbn [unquote]. rewrite Ascii.eqb_refl, !hex_roundtrip by done. done.
Qed.

Lemma unquote_encode s : unquote (encode_bytes s) = s.
Proof.
  induction s as [|c s IH]; [done|]. cbn [encode_bytes]. destruct (is_safe c) eqn:E.
  - rewrite unquote_plain, IH; [done|]. intros ->. discriminate E.
  - cbv zeta. pose proof (Ascii.nat_ascii_bounded c) as Hb.
    rewrite unquote_hex, IH; [|apply Nat.Div0.div_lt_upper_bound; lia|apply Nat.mod_upper_bound; lia].
    rewrite <- Nat.div_mod_eq. by rewrite Ascii.ascii_nat_embedding.
Qed.

(** The characters an encoded key may hold. *)
Definition path_char (c : Ascii.ascii) : bool := is_safe c || Ascii.eqb c percent.

Lemma hex_digit_safe n : (n < 16)%nat -> is_safe (hex_digit n) = true.
Proof. intros Hn. do 16 (destruct n as [|n]; [reflexivity|]). lia. Qed.

Lemma encode_chars s : forallb path_char (String.list_ascii_of_string (encode_bytes s)) = true.
Proof.
  induction s as [|c s IH]; [done|]. cbn [encode_bytes]. unfold path_char.
  pose proof (Ascii.nat_ascii_bounded c) as Hb. destruct (is_safe c) eqn:E.
  - cbn [String.list_ascii_of_string forallb]. rewrite E. exact IH.
  - cbv zeta. cbn [String.list_ascii_of_string forallb].
    rewrite !hex_digit_safe; [|apply Nat.mod_upper_bound; lia|apply Nat.Div0.div_lt_upper_bound; lia].
    rewrite Ascii.eqb_refl, orb_true_r. exact IH.
Qed.

(** Instrument keys survive the path encoding.  Every key that is accepted is
    encoded into a file name that decodes back to it, is neither empty nor a dot
    name and holds only letters, digits, [-], [.], [~] and [%], so neither a slash
    nor a NUL. *)
Theorem instrument_key_path_roundtrip (key encoded : string) :
  encode_instrument_key key = Ok encoded ->
  decode_instrument_key encoded = key /\ encoded <> "" /\ encoded <> "." /\ encoded <> ".." /\
  forallb path_char (String.list_ascii_of_string encoded) = true.
Proof.
  unfold encode_instrument_key, decode_instrument_key. intros H.
  apply raise_if_ok in H as [H [= <-]]. bool_prop.
  pose proof (unquote_encode key) as E. split; [done|].
  assert (Hne : forall t, unquote t = t -> encode_bytes key = t -> key = t).
  { intros t Ht Ek. by rewrite <- E, Ek, Ht. }
  split; [|split; [|split; [|apply encode_chars]]].
  - intros Ek. apply Hne in Ek; [|done]. by subst.
  - intros Ek. apply Hne in Ek; [|done]. set_solver.
  - intros Ek. apply Hne in Ek; [|done]. set_solver.
Qed.

Lemma instrument_key_path_roundtrip_witness :
  decode_instrument_key "BTC%2FUSDT%5F1" = "BTC/USDT_1" /\ "BTC%2FUSDT%5F1" <> "".
Proof.
  destruct (instrument_key_path_roundtrip "BTC/USDT_1" "BTC%2FUSDT%5F1") as (H1 & H2 & _);
    [vm_compute; reflexivity|]. by split.
Defined.

(** The trusted construction is safe.  An envelope built field by field from
    parts that were validated one by one passes the full validation, and it passes
    only if each of its parts does: skipping pydantic changes nothing. *)
Theorem trusted_envelope_iff (draft : NativeEventDraft) (received_at_ns monotonic_ns : Z)
    (worker_instance_id : string) (source : SourceContext) (writer_sequence : Z) (sha : string) :
  let envelope := _construct_envelope_from_validated_parts draft received_at_ns monotonic_ns
    worker_instance_id source writer_sequence sha in
  envelope_validate envelope = Ok envelope <->
  draft_validate draft = Ok draft /\ source_validate source = Ok source /\
  validate_source draft source = Ok tt /\ 0 <= received_at_ns /\ 0 <= monotonic_ns /\
  0 <= writer_sequence /\ worker_instance_id <> "" /\ config_sha256_ok sha = true.
Proof.
  cbv zeta. unfold envelope_validate, _construct_envelope_from_validated_parts, validate_source_fields.
  cbn [base schema_version Domain.received_at_ns Domain.monotonic_ns Domain.worker_instance_id
    env_connection_id env_connection_generation Domain.writer_sequence env_egress_id Domain.config_sha256].
  assert (Esource : {| connection_id := connection_id source;
    connection_generation := connection_generation source; egress_id := egress_id source |} = source)
    by by destruct source.
  rewrite Esource, raise_if_ok, negb_false_iff, !andb_true_iff. unfold nonneg, nonempty.
  rewrite !Z.leb_le, negb_true_iff, String.eqb_neq, rbind_ok.
  assert (Hd : forall d, draft_validate draft = Ok d -> d = draft).
  { unfold draft_validate. intros d H. inv_ok. done. }
  assert (Hs : forall d, source_validate source = Ok d -> d = source /\
    opt_ok nonempty (connection_id source) = true /\ opt_ok nonneg (connection_generation source) = true /\
    opt_ok nonempty (egress_id source) = true).
  { unfold source_validate. intros d H. inv_ok. bool_prop. done. }
  split.
  - intros (((((((((_ & H1) & H2) & H3) & _) & _) & H4) & _) & H5) & d & Ed & Hrest).
    pose proof (Hd d Ed) as ->. apply rbind_ok in Hrest as ([] & Hv & _).
    apply rbind_ok in Hv as (src & Es & Hv). destruct (Hs src Es) as (-> & _). done.
  - intros (Ed & Es & Hv & H1 & H2 & H4 & H3 & H5). destruct (Hs source Es) as (_ & S1 & S2 & S3).
    unfold nonempty in S1, S3. unfold nonneg in S2. split; [by rewrite S1, S2, S3|]. exists draft. split; [done|]. rewrite Es. cbn [rbind].
    by rewrite Hv.
Qed.

(** A caller's value is accepted exactly when it is the value of a JSON payload. *)
Fixpoint embed (j : Json) : Value :=
  match j with
  | JNull => VNone
  | JBool b => VBool b
  | JInt z => VInt z
  | JDecimal d => VDecimal (Finite d)
  | JStr s => VStr s
  | JList items => VList (embed <$> items)
  | JDict items => VDict ((fun '(k, x) => (Some k, embed x)) <$> items)
  end.

Fixpoint value_size (v : Value) : nat :=
  match v with
  | VList items => S (foldr (fun x n => value_size x + n) 0 items)
  | VDict items => S (foldr (fun kx n => value_size kx.2 + n) 0 items)
  | _ => 1
  end%nat.

Lemma validate_list_inv items : forall js,
  validate_json_payload (VList items) = Ok (JList js) <->
  Forall2 (fun x j => validate_json_payload x = Ok j) items js.
Proof.
  induction items as [|x items IH]; intros js.
  - split; [intros [= <-]; constructor|]. intros H. by inversion H.
  - transitivity (exists j js', js = j :: js' /\ validate_json_payload x = Ok j /\
      validate_json_payload (VList items) = Ok (JList js')).
    + cbn [validate_json_payload]. destruct (validate_json_payload x) as [j|]; cbn [rbind]; [|naive_solver].
      match goal with |- context [rbind (rbind ?a _) _] => destruct a as [js'|] end; cbn [rbind]; naive_solver.
    + split.
      * intros (j & js' & -> & Hx & Hr). constructor; [done|by apply IH].
      * intros H. inversion H; subst. eexists _, _. split; [done|]. split; [done|by apply IH].
Qed.

Lemma validate_dict_inv items : forall js,
  validate_json_payload (VDict items) = Ok (JDict js) <->
  Forall2 (fun kx kj => kx.1 = Some kj.1 /\ validate_json_payload kx.2 = Ok kj.2) items js.
Proof.
  induction items as [|[k x] items IH]; intros js.
  - split; [intros [= <-]; constructor|]. intros H. by inversion H.
  - transitivity (exists k' j js', k = Some k' /\ js = (k', j) :: js' /\ validate_json_payload x = Ok j /\
      validate_json_payload (VDict items) = Ok (JDict js')).
    + cbn [validate_json_payload]. destruct k as [k|]; [|naive_solver].
      destruct (validate_json_payload x) as [j|]; cbn [rbind]; [|naive_solver].
      match goal with |- context [rbind (rbind ?a _) _] => destruct a as [js'|] end; cbn [rbind]; naive_solver.
    + split.
      * intros (k' & j & js' & -> & -> & Hx & Hr). constructor; [done|by apply IH].
      * intros H. inversion H as [|? [k' j] ? js' [Hk Hx] Hr]; subst. cbn in *. subst.
        eexists _, _, _. split; [done|]. split; [done|]. split; [done|by apply IH].
Qed.

Lemma validate_json_inv v : forall j, validate_json_payload v = Ok j -> v = embed j.
Proof.
  remember (value_size v) as n eqn:Hn. assert (Hle : (value_size v <= n)%nat) by lia. clear Hn.
  revert v Hle. induction n as [|n IH]; intros v Hle j H; [destruct v; simpl in Hle; lia|].
  destruct v as [|b|z|s|[d|]|items|items|]; try (by injection H as <-); try done.
  - assert (exists js, j = JList js) as [js ->].
    { cbn [validate_json_payload] in H. apply rbind_ok in H as (js & _ & [= <-]). by exists js. }
    apply validate_list_inv in H. cbn [embed]. f_equal. simpl in Hle.
    assert (Hs : (foldr (fun x n => value_size x + n) 0 items <= n)%nat) by lia. clear Hle.
    induction H as [|x j items js Hx Hr IHr]; [done|]. simpl in Hs. rewrite fmap_cons. f_equal.
    + apply IH; [lia|done].
    + apply IHr. lia.
  - assert (exists js, j = JDict js) as [js ->].
    { cbn [validate_json_payload] in H. apply rbind_ok in H as (js & _ & [= <-]). by exists js. }
    apply validate_dict_inv in H. cbn [embed]. f_equal. simpl in Hle.
    assert (Hs : (foldr (fun kx n => value_size kx.2 + n) 0 items <= n)%nat) by lia. clear Hle.
    induction H as [|[k x] [k' j] items js [Hk Hx] Hr IHr]; [done|]. simpl in *. subst k. f_equal.
    + f_equal. apply IH; [lia|done].
    + apply IHr. lia.
Qed.

Fixpoint json_size (v : Json) : nat :=
  match v with
  | JList items => S (foldr (fun x n => json_size x + n) 0 items)
  | JDict items => S (foldr (fun kx n => json_size kx.2 + n) 0 items)
  | _ => 1
  end%nat.

Lemma validate_json_embed j : validate_json_payload (embed j) = Ok j.
Proof.
  remember (json_size j) as n eqn:Hn. assert (Hle : (json_size j <= n)%nat) by lia. clear Hn.
  revert j Hle. induction n as [|n IH]; intros j Hle; [destruct j; simpl in Hle; lia|].
  destruct j as [|b|z|d|s|items|items]; try done.
  - apply validate_list_inv. simpl in Hle.
    assert (Hs : (foldr (fun x n => json_size x + n) 0 items <= n)%nat) by lia. clear Hle.
    induction items as [|x items IHi]; [constructor|]. simpl in Hs. constructor; [apply IH; lia|apply IHi; lia].
  - apply validate_dict_inv. simpl in Hle.
    assert (Hs : (foldr (fun kx n => json_size kx.2 + n) 0 items <= n)%nat) by lia. clear Hle.
    induction items as [|[k x] items IHi]; [constructor|]. simpl in Hs.
    constructor; [split; [done|apply IH; simpl; lia]|apply IHi; lia].
Qed.

(** Payload validation accepts exactly the JSON values, at every depth, and
    returns them unchanged: a non-finite decimal, a key that is not a string or any
    other object anywhere inside is refused. *)
Theorem json_validation_exact (v : Value) (j : Json) :
  validate_json_payload v = Ok j <-> v = embed j.
Proof. split; [apply validate_json_inv|]. intros ->. apply validate_json_embed. Qed.
