(* ===== verification/RestModels.v ===== *)
(** [scheduler/models.py]: the stable cadence of periodic requests, budget routes,
    interval contexts, REST jobs and dispatches.  SHA-256 is a parameter of which
    only the documented digest (32 bytes) is used. *)
From S2P Require Import Prelude PyDecimal RateLimit Domain.

Definition _nonempty_string (value field : string) : result string :=
  raise ValueError (field +:+ " must be a non-empty string") when String.eqb value "";;
  Ok value.

Definition _nonnegative_int (value : Z) (field : string) : result Z :=
  raise ValueError (field +:+ " must be a non-negative integer") when value <? 0;;
  Ok value.

Definition _positive_int (value : Z) (field : string) : result Z :=
  let! normalized := _nonnegative_int value field in
  raise ValueError (field +:+ " must be positive") when normalized =? 0;;
  Ok normalized.

Definition _positive_decimal (value : DecimalInput) (field : string) : result dec :=
  match (match value with DInt n => Finite (dec_of_int n) | DDec d => d end) with
  | NonFinite => Err (ValueError (field +:+ " must be finite and positive"))
  | Finite d =>
      raise ValueError (field +:+ " must be finite and positive") when dleb d dzero;;
      Ok d
  end.

Definition _budget_key (value : BudgetKey) : result BudgetKey :=
  let '((exchange, quota_group), endpoint) := value in
  raise ValueError "budget_key must contain non-empty exchange, quota group, and endpoint"
    when negb (nonempty exchange && nonempty quota_group && nonempty endpoint);;
  Ok value.

(** [tuple(dict.fromkeys(l))]: the first occurrence of each element. *)
Fixpoint fromkeys {A} `{EqDecision A} (seen l : list A) : list A :=
  match l with
  | [] => []
  | x :: l =>
      if bool_decide (x ∈ seen) then fromkeys seen l else x :: fromkeys (x :: seen) l
  end.

Inductive RestPriority : Type :=
| LIVE_BOOTSTRAP | CATALOG_STATUS_TIME | CORE_DERIVATIVE | DEEP_SNAPSHOT | REFERENCE_DATA.
#[export] Instance RestPriority_eq_dec : EqDecision RestPriority.
Proof. solve_decision. Defined.
Definition priority_value (p : RestPriority) : Z :=
  match p with
  | LIVE_BOOTSTRAP => 0 | CATALOG_STATUS_TIME => 1 | CORE_DERIVATIVE => 2
  | DEEP_SNAPSHOT => 3 | REFERENCE_DATA => 4
  end.

(** ** [StableCadence] *)
Record StableCadence : Type := {
  anchor_monotonic_ns : Z; interval_ns : Z; phase_key : string
}.

Definition cadence_init (anchor interval : Z) (key : string) : result StableCadence :=
  let! anchor := _nonnegative_int anchor "anchor_monotonic_ns" in
  let! interval := _positive_int interval "interval_ns" in
  let! key := _nonempty_string key "phase_key" in
  Ok {| anchor_monotonic_ns := anchor; interval_ns := interval; phase_key := key |}.

(** [int.from_bytes(bytes, "big")] *)
Definition from_bytes_big (bytes : list Z) : Z := foldl (fun acc b => 256 * acc + b) 0 bytes.

(** A digest function: 32 bytes for every text. *)
Class Digest : Type := {
  sha256 : string -> list Z;
  sha256_bytes : forall s, length (sha256 s) = 32%nat /\ Forall (fun b => 0 <= b < 256) (sha256 s)
}.

Section Cadence.
Context `{Digest}.

Definition phase_ns (self : StableCadence) : Z :=
  let digest := sha256 (phase_key self) in
  let fraction := from_bytes_big (take 16 digest) in
  fraction * interval_ns self / 2 ^ 128.

Definition first_due (self : StableCadence) : Z := anchor_monotonic_ns self + phase_ns self.

Definition latest_due_ns (self : StableCadence) (now_ns : Z) : result (option Z) :=
  let! now := _nonnegative_int now_ns "now_ns" in
  let first := first_due self in
  if now <? first then Ok None
  else Ok (Some (first + (now - first) / interval_ns self * interval_ns self)).

Definition next_due_ns (self : StableCadence) (now_ns : Z) : result Z :=
  let! now := _nonnegative_int now_ns "now_ns" in
  let first := first_due self in
  if now <? first then Ok first
  else Ok (first + ((now - first) / interval_ns self + 1) * interval_ns self).
End Cadence.

(** ** Routes and interval contexts *)
Record RestBudgetRoute : Type := { route_egress_id : string; budget_key : BudgetKey }.
#[export] Instance route_eq_dec : EqDecision RestBudgetRoute.
Proof. solve_decision. Defined.

Definition route_init (egress_id : string) (key : BudgetKey) : result RestBudgetRoute :=
  let! egress_id := _nonempty_string egress_id "egress_id" in
  let! key := _budget_key key in
  Ok {| route_egress_id := egress_id; budget_key := key |}.

Record RestIntervalContext : Type := {
  requested_ns : Z; effective_ns : Z; change_event_id : option string
}.
#[export] Instance interval_context_eq_dec : EqDecision RestIntervalContext.
Proof. solve_decision. Defined.

Definition interval_context_init (requested effective : Z) (event_id : option string)
    : result RestIntervalContext :=
  let! requested := _positive_int requested "requested_interval_ns" in
  let! effective := _positive_int effective "effective_interval_ns" in
  raise ValueError "effective_interval_ns must not be below requested_interval_ns"
    when effective <? requested;;
  let! event_id := (match event_id with
    | None => Ok None
    | Some e => let! e := _nonempty_string e "change_event_id" in Ok (Some e)
    end) in
  Ok {| requested_ns := requested; effective_ns := effective; change_event_id := event_id |}.

Definition with_interval (metadata : RestMetadata) (requested effective : Z) : RestMetadata :=
  {| request_started_at_ns := request_started_at_ns metadata;
     request_ended_at_ns := request_ended_at_ns metadata; method := method metadata;
     path := path metadata; params := params metadata; status := status metadata;
     attempt := Domain.attempt metadata; rate_limit_headers := rate_limit_headers metadata;
     requested_interval_ns := Some requested; effective_interval_ns := Some effective |}.

Definition attach (self : RestIntervalContext) (metadata : RestMetadata) : result RestMetadata :=
  let existing := (requested_interval_ns metadata, effective_interval_ns metadata) in
  let intended := (Some (requested_ns self), Some (effective_ns self)) in
  if negb (bool_decide (existing = (None, None))) then
    raise ValueError "REST metadata contains conflicting interval values"
      when negb (bool_decide (existing = intended));;
    Ok metadata
  else metadata_validate (with_interval metadata (requested_ns self) (effective_ns self)).

(** ** [RestJob] *)
Record RestJob : Type := {
  job_id : string; priority : RestPriority; routes : list RestBudgetRoute; endpoint_cost : dec;
  ready_monotonic_ns : Z; deadline_ns : option Z; interval : option RestIntervalContext;
  generation_source : option SourceContext; job_attempt : Z; logical_key : option (list string);
  replaceable : bool; scheduled_ns : Z; control_context : list (string * Json)
}.

Definition _string_tuple (value : list string) (field : string) (allow_empty unique : bool)
    : result (list string) :=
  raise ValueError (field +:+ " must not be empty") when negb allow_empty && bool_decide (value = []);;
  raise ValueError (field +:+ " must contain non-empty strings")
    when negb (forallb nonempty value);;
  raise ValueError (field +:+ " must not contain duplicates")
    when unique && negb (bool_decide (NoDup value));;
  Ok value.

(** The scopes [(exchange, endpoint)] the routes must share. *)
Definition route_scope (r : RestBudgetRoute) : string * string :=
  ((budget_key r).1.1, (budget_key r).2).

(** The checks on [generation_source]. *)
Definition check_source (job_priority : RestPriority) (source : option SourceContext)
    (egress_ids : list string) : result () :=
  let! _ := (match source with
    | None => Ok tt
    | Some s =>
        raise ValueError "generation_source must identify a connection generation"
          when negb (present (connection_id s));;
        raise ValueError "generation_source egress must be present in routes"
          when negb (match egress_id s with
                     | Some e => bool_decide (e ∈ egress_ids) | None => false end);;
        Ok tt
    end) in
  raise ValueError "LIVE_BOOTSTRAP requires an exact generation_source"
    when bool_decide (job_priority = LIVE_BOOTSTRAP) && negb (present source);;
  Ok tt.

(** The checks on [replaceable]. *)
Definition check_replaceable (job_priority : RestPriority) (replaceable : bool)
    (logical_key : option (list string)) : result () :=
  if replaceable then
    raise ValueError "replaceable jobs require a logical_key" when negb (present logical_key);;
    raise ValueError "only deep snapshot and reference jobs may be replaceable"
      when negb (bool_decide (job_priority ∈ [DEEP_SNAPSHOT; REFERENCE_DATA]));;
    Ok tt
  else Ok tt.

Definition job_init (id : string) (job_priority : RestPriority) (routes : list RestBudgetRoute)
    (cost : DecimalInput) (ready : Z) (deadline : option Z) (interval : option RestIntervalContext)
    (source : option SourceContext) (attempt : Z) (logical : option (list string))
    (replaceable : bool) (scheduled : Z) (context : list (option string * Value)) : result RestJob :=
  let! id := _nonempty_string id "id" in
  raise ValueError "routes must be a non-empty tuple" when bool_decide (routes = []);;
  let egress_ids := route_egress_id <$> routes in
  raise ValueError "routes must not repeat an egress_id" when negb (bool_decide (NoDup egress_ids));;
  raise ValueError "all routes must use one exchange and logical endpoint"
    when negb (length (remove_dups (route_scope <$> routes)) =? 1)%nat;;
  let! cost := _positive_decimal cost "endpoint_cost" in
  let! ready := _nonnegative_int ready "ready_monotonic_ns" in
  let! deadline := (match deadline with
    | None => Ok None
    | Some d => let! d := _nonnegative_int d "deadline_ns" in Ok (Some d)
    end) in
  let! _ := check_source job_priority source egress_ids in
  let! attempt := _positive_int attempt "attempt" in
  let! logical := (match logical with
    | None => Ok None
    | Some k => let! k := _string_tuple k "logical_key" false false in Ok (Some k)
    end) in
  let! _ := check_replaceable job_priority replaceable logical in
  let! scheduled := _nonnegative_int scheduled "scheduled_ns" in
  let! context := validate_json_payload (VDict context) in
  match context with
  | JDict context =>
      Ok {| job_id := id; priority := job_priority; RestModels.routes := routes; endpoint_cost := cost;
            ready_monotonic_ns := ready; deadline_ns := deadline; RestModels.interval := interval;
            generation_source := source; job_attempt := attempt; logical_key := logical;
            RestModels.replaceable := replaceable; scheduled_ns := scheduled;
            control_context := context |}
  | _ => Err (TypeError "control_context must be a JSON object")
  end.

Definition eligible_egress_ids (self : RestJob) : list string := route_egress_id <$> routes self.
Definition budget_keys (self : RestJob) : list BudgetKey := fromkeys [] (budget_key <$> routes self).

(** Python's [==] of frozen payloads: numbers compare by value, mappings as maps. *)
Definition number (j : Json) : option dec :=
  match j with
  | JBool b => Some (dec_of_int (if b then 1 else 0))
  | JInt z => Some (dec_of_int z)
  | JDecimal d => Some d
  | _ => None
  end.

Fixpoint json_eqb (a b : Json) : bool :=
  match a, b with
  | JNull, JNull => true
  | JStr s, JStr s' => String.eqb s s'
  | JList xs, JList ys =>
      (fix all xs ys :=
         match xs, ys with
         | [], [] => true
         | x :: xs, y :: ys => json_eqb x y && all xs ys
         | _, _ => false
         end) xs ys
  | JDict xs, JDict ys =>
      (length xs =? length ys)%nat &&
      (fix all xs :=
         match xs with
         | [] => true
         | (k, x) :: xs =>
             match find (fun ky => String.eqb ky.1 k) ys with
             | Some ky => json_eqb x ky.2
             | None => false
             end && all xs
         end) xs
  | _, _ => match number a, number b with Some x, Some y => deqb x y | _, _ => false end
  end.

Definition job_eqb (a b : RestJob) : bool :=
  String.eqb (job_id a) (job_id b) && bool_decide (priority a = priority b)
  && bool_decide (routes a = routes b) && deqb (endpoint_cost a) (endpoint_cost b)
  && (ready_monotonic_ns a =? ready_monotonic_ns b) && bool_decide (deadline_ns a = deadline_ns b)
  && bool_decide (interval a = interval b) && bool_decide (generation_source a = generation_source b)
  && (job_attempt a =? job_attempt b) && bool_decide (logical_key a = logical_key b)
  && eqb (replaceable a) (replaceable b) && (scheduled_ns a =? scheduled_ns b)
  && json_eqb (JDict (control_context a)) (JDict (control_context b)).

(** ** [RestDispatch] *)
Record RestDispatch : Type := {
  job : RestJob; route : RestBudgetRoute; dispatched_monotonic_ns : Z
}.

Definition dispatch_init (job : RestJob) (route : RestBudgetRoute) (now : Z) : result RestDispatch :=
  raise ValueError "route must be one of the job routes" when negb (bool_decide (route ∈ routes job));;
  let! now := _nonnegative_int now "dispatched_monotonic_ns" in
  raise ValueError "generation-sticky dispatch must use its exact egress"
    when match generation_source job with
         | Some s => negb (bool_decide (egress_id s = Some (route_egress_id route)))
         | None => false
         end;;
  Ok {| RestModels.job := job; RestModels.route := route; dispatched_monotonic_ns := now |}.

Definition source_context (self : RestDispatch) : result SourceContext :=
  match generation_source (job self) with
  | Some s => Ok s
  | None => source_validate {| connection_id := None; connection_generation := None;
                               egress_id := Some (route_egress_id (route self)) |}
  end.

Definition build_rest_metadata (self : RestDispatch) (started ended : Z) (method path : string)
    (params : list (string * Json)) (status : Z) (headers : list (string * string))
    : result RestMetadata :=
  let! metadata := metadata_validate
    {| request_started_at_ns := started; request_ended_at_ns := ended; Domain.method := method;
       Domain.path := path; Domain.params := params; Domain.status := status;
       Domain.attempt := job_attempt (job self); rate_limit_headers := headers;
       requested_interval_ns := None; effective_interval_ns := None |} in
  match interval (job self) with
  | None => Ok metadata
  | Some i => attach i metadata
  end.

(** ** Cadence facts *)
Lemma nonnegative_int_ok v f : 0 <= v -> _nonnegative_int v f = Ok v.
Proof. intros. unfold _nonnegative_int, raise_if. by rewrite (proj2 (Z.ltb_ge v 0)) by lia. Qed.

Lemma nonnegative_int_inv v f w : _nonnegative_int v f = Ok w -> w = v /\ 0 <= v.
Proof. unfold _nonnegative_int. intros H. inv_ok. bool_prop. by subst. Qed.

Lemma positive_int_ok v f : 0 < v -> _positive_int v f = Ok v.
Proof.
  intros. unfold _positive_int. rewrite nonnegative_int_ok by lia. cbn [rbind].
  unfold raise_if. by rewrite (proj2 (Z.eqb_neq v 0)) by lia.
Qed.

Lemma positive_int_inv v f w : _positive_int v f = Ok w -> w = v /\ 0 < v.
Proof.
  unfold _positive_int. intros H. apply rbind_ok in H as (x & Hx & H).
  apply nonnegative_int_inv in Hx as [-> Hx]. inv_ok. bool_prop. lia.
Qed.

Lemma nonempty_string_inv v f w : _nonempty_string v f = Ok w -> w = v /\ v <> "".
Proof. unfold _nonempty_string. intros H. inv_ok. split; [done|]. by apply String.eqb_neq. Qed.

Lemma from_bytes_bound bytes acc k :
  Forall (fun b => 0 <= b < 256) bytes -> 0 <= acc < 256 ^ k -> 0 <= k ->
  0 <= foldl (fun acc b => 256 * acc + b) acc bytes < 256 ^ (k + Z.of_nat (length bytes)).
Proof.
  intros Hb. revert acc k. induction Hb as [|b bytes Hb Hbs IH]; intros acc k Ha Hk.
  - simpl. by rewrite Z.add_0_r.
  - cbn [foldl length]. replace (k + Z.of_nat (S (length bytes))) with (k + 1 + Z.of_nat (length bytes)) by lia.
    apply IH; [|lia]. rewrite Z.pow_add_r, Z.pow_1_r by lia. lia.
Qed.

Definition cadence_ok (c : StableCadence) : Prop :=
  0 <= anchor_monotonic_ns c /\ 0 < interval_ns c /\ phase_key c <> "".

Section CadenceFacts.
Context `{Digest}.

Lemma phase_bounds c : 0 < interval_ns c -> 0 <= phase_ns c < interval_ns c.
Proof.
  intros Hi. unfold phase_ns. destruct (sha256_bytes (phase_key c)) as [Hlen Hb].
  set (bytes := take 16 (sha256 (phase_key c))).
  assert (Hb' : Forall (fun b => 0 <= b < 256) bytes) by by apply Forall_take.
  assert (Hl : length bytes = 16%nat) by (unfold bytes; rewrite length_take; lia).
  pose proof (from_bytes_bound bytes 0 0 Hb' ltac:(lia) ltac:(lia)) as Hf. rewrite Hl in Hf.
  change (256 ^ (0 + Z.of_nat 16)) with (2 ^ 128) in Hf. unfold from_bytes_big.
  set (fraction := foldl _ 0 bytes) in *. split.
  - apply Z.div_pos; [nia|done].
  - apply Z.div_lt_upper_bound; [done|]. nia.
Qed.

(** The instants a cadence is due at. *)
Definition due_at (c : StableCadence) (d : Z) : Prop :=
  exists k, 0 <= k /\ d = first_due c + k * interval_ns c.

(** A cadence is a grid.  It starts within one interval of its anchor, at an
    offset fixed by its key; [next_due_ns] is the first due instant after [now],
    [latest_due_ns] the last one up to [now], none before the first, and the two
    are one interval apart. *)
Theorem cadence_grid (c : StableCadence) (now : Z) :
  cadence_ok c -> 0 <= now ->
  anchor_monotonic_ns c <= first_due c < anchor_monotonic_ns c + interval_ns c /\
  exists next latest, next_due_ns c now = Ok next /\ latest_due_ns c now = Ok latest /\
    due_at c next /\ now < next /\ (forall d, due_at c d -> now < d -> next <= d) /\
    match latest with
    | None => forall d, due_at c d -> now < d
    | Some l => due_at c l /\ l <= now /\ (forall d, due_at c d -> d <= now -> d <= l) /\
                next = l + interval_ns c
    end.
Proof.
  intros (Ha & Hi & _) Hnow. pose proof (phase_bounds c Hi) as Hp.
  split; [unfold first_due; lia|]. unfold next_due_ns, latest_due_ns.
  rewrite !nonnegative_int_ok by done. cbn [rbind].
  set (first := first_due c). set (i := interval_ns c) in *.
  destruct (Z.ltb_spec now first) as [Hlt|Hge].
  - exists first, None. do 2 (split; [done|]). split; [exists 0; unfold first; lia|].
    split; [done|]. split; [|].
    + intros d (k & Hk & ->) _. fold first i. nia.
    + intros d (k & Hk & ->). fold first i. nia.
  - set (q := (now - first) / i).
    assert (Hq : 0 <= q) by (apply Z.div_pos; lia).
    pose proof (Z.mul_div_le (now - first) i Hi) as Hlo. pose proof (Z.mul_succ_div_gt (now - first) i Hi) as Hhi.
    fold q in Hlo, Hhi. exists (first + (q + 1) * i), (Some (first + q * i)).
    do 2 (split; [done|]). split; [exists (q + 1); split; [lia|done]|]. split; [nia|].
    split; [|split; [exists q; split; [lia|done]|split; [nia|split; [|lia]]]].
    + intros d (k & Hk & ->) Hd. fold first i in Hd |- *.
      pose proof (Z.mul_le_mono_nonneg_r k q i). pose proof (Z.mul_le_mono_nonneg_r (q + 1) k i). lia.
    + intros d (k & Hk & ->) Hd. fold first i in Hd |- *.
      pose proof (Z.mul_le_mono_nonneg_r k q i). pose proof (Z.mul_le_mono_nonneg_r (q + 1) k i). lia.
Qed.
End CadenceFacts.

(** ** Dispatch facts *)
Lemma job_init_source id p rs c r d i s a l rep sch ctx j :
  job_init id p rs c r d i s a l rep sch ctx = Ok j ->
  routes j = rs /\ priority j = p /\ generation_source j = s /\ interval j = i /\ job_attempt j = a /\
  0 < a /\ NoDup (route_egress_id <$> rs) /\
  match s with
  | Some s => present (connection_id s) = true /\
      exists e, egress_id s = Some e /\ e ∈ route_egress_id <$> rs
  | None => p <> LIVE_BOOTSTRAP
  end.
Proof.
  intros H. unfold job_init in H. inv_ok.
  match goal with E : (match ?x with JDict _ => _ | _ => _ end) = Ok _ |- _ =>
    destruct x; try discriminate E; injection E as <- end.
  repeat match goal with
  | E : _positive_int _ _ = Ok _ |- _ => apply positive_int_inv in E as [-> E]
  end.
  cbn. bool_prop. do 4 (split; [done|]). split; [done|]. split; [done|]. split; [done|].
  match goal with E : check_source _ _ _ = Ok _ |- _ => unfold check_source in E; inv_ok end.
  bool_prop. destruct s as [s|].
  - match goal with E : raise_if _ _ (raise_if _ _ _) = Ok _ |- _ => inv_ok end. bool_prop.
    split; [done|]. destruct (egress_id s) as [e|]; [|done]. bool_prop. by exists e.
  - match goal with E : bool_decide _ && _ = false |- _ => rewrite andb_true_r in E end. by bool_prop.
Qed.

(** A route and a source as their constructors leave them. *)
Definition route_ok (r : RestBudgetRoute) : Prop := route_egress_id r <> "".
Definition source_ok (s : option SourceContext) : Prop :=
  match s with Some s => source_validate s = Ok s | None => True end.

(** What a job is after its checks. *)
Definition job_ok (j : RestJob) : Prop :=
  0 < job_attempt j /\ NoDup (route_egress_id <$> routes j) /\ Forall route_ok (routes j) /\
  source_ok (generation_source j) /\
  match generation_source j with
  | Some s => present (connection_id s) = true /\
      exists e, egress_id s = Some e /\ e ∈ route_egress_id <$> routes j
  | None => priority j <> LIVE_BOOTSTRAP
  end.

Lemma job_init_ok id p rs c r d i s a l rep sch ctx j :
  job_init id p rs c r d i s a l rep sch ctx = Ok j -> Forall route_ok rs -> source_ok s -> job_ok j.
Proof.
  intros H Hr Hs. destruct (job_init_source _ _ _ _ _ _ _ _ _ _ _ _ _ _ H)
    as (E1 & E2 & E3 & _ & E5 & Ha & HND & Hg).
  unfold job_ok. rewrite E1, E2, E3, E5. by split_and!.
Qed.

Lemma source_context_ok j r now d :
  job_ok j -> dispatch_init j r now = Ok d ->
  exists s, source_context d = Ok s /\ source_validate s = Ok s /\
    egress_id s = Some (route_egress_id r) /\
    present (connection_id s) = present (generation_source j).
Proof.
  intros (_ & _ & Hr & Hs & Hg) Hd. unfold dispatch_init in Hd. inv_ok. bool_prop.
  unfold source_context. cbn [job route].
  match goal with E : r ∈ routes j |- _ => pose proof (proj1 (Forall_forall _ _) Hr r E) as Hrne end.
  destruct (generation_source j) as [s|].
  - exists s. bool_prop. destruct Hg as [Hc _]. by split_and!.
  - exists {| connection_id := None; connection_generation := None;
              egress_id := Some (route_egress_id r) |}.
    split; [|split; [|done]]; unfold source_validate; cbn; unfold nonempty;
      by rewrite (proj2 (String.eqb_neq _ _) Hrne).
Qed.

(** A dispatched request is recorded under a source the envelope accepts.  For
    every job and route the dispatch constructor lets through, the source context
    is valid and names the egress of the route; a routine job's source is accepted
    for any routine REST stream, and the source of a job tied to a connection
    generation is accepted for a live-book bootstrap. *)
Theorem dispatch_source_accepted (j : RestJob) (r : RestBudgetRoute) (now : Z) (d : RestDispatch) :
  job_ok j -> dispatch_init j r now = Ok d ->
  exists s, source_context d = Ok s /\ source_validate s = Ok s /\
    egress_id s = Some (route_egress_id r) /\
    (generation_source j = None -> forall stream, stream <> "book_live_bootstrap" ->
       validate_for s REST stream = Ok tt) /\
    (generation_source j <> None -> validate_for s REST "book_live_bootstrap" = Ok tt).
Proof.
  intros Hj Hd. destruct (source_context_ok j r now d Hj Hd) as (s & H1 & H2 & H3 & H4).
  exists s. do 3 (split; [done|]). unfold validate_for. rewrite H3, H4. cbn. split.
  - intros -> stream Hne. by rewrite (proj2 (String.eqb_neq _ _) Hne).
  - by destruct (generation_source j).
Qed.

(** The interval metadata of a request is that of its job.  Whatever is sent,
    metadata that is built is valid, carries the job's attempt and exactly the
    interval pair of the job's context, and attaching the context again changes
    nothing. *)
Theorem request_metadata_intervals (d : RestDispatch) (started ended : Z) (method path : string)
    (params : list (string * Json)) (status : Z) (headers : list (string * string)) (m : RestMetadata) :
  build_rest_metadata d started ended method path params status headers = Ok m ->
  metadata_validate m = Ok m /\ Domain.attempt m = job_attempt (job d) /\
  match interval (job d) with
  | None => requested_interval_ns m = None /\ effective_interval_ns m = None
  | Some i => requested_interval_ns m = Some (requested_ns i) /\
      effective_interval_ns m = Some (effective_ns i) /\ attach i m = Ok m
  end.
Proof.
  assert (Hv : forall a b, metadata_validate a = Ok b -> a = b).
  { intros a b. unfold metadata_validate. intros H. inv_ok.
    destruct (requested_interval_ns a), (effective_interval_ns a); inv_ok; done. }
  unfold build_rest_metadata. intros H. apply rbind_ok in H as (m0 & H0 & H).
  pose proof (Hv _ _ H0) as <-. destruct (interval (job d)) as [i|].
  - unfold attach in H. cbn [requested_interval_ns effective_interval_ns] in H.
    rewrite bool_decide_eq_true_2 in H by done. cbn [negb] in H. pose proof (Hv _ _ H) as <-.
    split; [done|]. split; [done|]. split; [done|]. split; [done|].
    unfold attach. cbn [requested_interval_ns effective_interval_ns with_interval].
    rewrite bool_decide_eq_false_2 by done. cbn [negb]. by rewrite bool_decide_eq_true_2.
  - injection H as <-. done.
Qed.

(** ** Concrete values *)
Module Samples.
(** A digest of 32 bytes, all equal to the length of the text. *)
#[export] Instance digest : Digest.
Proof.
  refine {| sha256 := fun s => replicate 32 (Z.of_nat (String.length s) mod 256) |}.
  intros s. split; [done|]. apply Forall_replicate. apply Z.mod_pos_bound. lia.
Defined.
Definition cadence : StableCadence :=
  {| anchor_monotonic_ns := 5; interval_ns := 1000; phase_key := "x/depth" |}.
Definition key : BudgetKey := (("x", "q"), "depth").
Definition route : RestBudgetRoute := {| route_egress_id := "a"; budget_key := key |}.
Definition job : RestJob :=
  {| job_id := "j"; priority := DEEP_SNAPSHOT; routes := [route]; endpoint_cost := Dec 1 0;
     ready_monotonic_ns := 0; deadline_ns := Some 100;
     interval := Some {| requested_ns := 10; effective_ns := 20; change_event_id := None |};
     generation_source := None; job_attempt := 1; logical_key := None; replaceable := false;
     scheduled_ns := 0; control_context := [] |}.
Definition dispatch : RestDispatch :=
  {| RestModels.job := job; RestModels.route := route; dispatched_monotonic_ns := 3 |}.
End Samples.
#[local] Existing Instance Samples.digest.

Lemma cadence_grid_witness :
  exists next latest, next_due_ns Samples.cadence 2500 = Ok next /\
    latest_due_ns Samples.cadence 2500 = Ok latest /\ 2500 < next.
Proof.
  destruct (cadence_grid Samples.cadence 2500) as (_ & next & latest & H1 & H2 & _ & H3 & _);
    [repeat split; done|lia|]. by exists next, latest.
Defined.

Lemma dispatch_source_accepted_witness :
  exists s, source_context Samples.dispatch = Ok s /\ egress_id s = Some "a".
Proof.
  destruct (dispatch_source_accepted Samples.job Samples.route 3 Samples.dispatch) as (s & H1 & _ & H2 & _).
  - split; [done|]. split; [repeat constructor; set_solver|]. split; [repeat constructor; done|].
    split; [done|done].
  - vm_compute. reflexivity.
  - by exists s.
Defined.

Lemma request_metadata_intervals_witness :
  exists m, build_rest_metadata Samples.dispatch 1 2 "GET" "/depth" [] 200 [] = Ok m /\
    requested_interval_ns m = Some 10 /\ effective_interval_ns m = Some 20.
Proof.
  eexists. split; [vm_compute; reflexivity|].
  destruct (request_metadata_intervals Samples.dispatch 1 2 "GET" "/depth" [] 200 [] _ eq_refl)
    as (_ & _ & H1 & H2 & _). split; [exact H1|exact H2].
Defined.
