(* ===== verification/IntervalObs.v ===== *)
(** [scheduler/interval_observability.py]: the record of a changed request interval
    and its publication.  The four sinks are injected; they are an interface whose
    operations may change the world they live in and may raise. *)
From S2P Require Import Prelude Domain RestModels.

Definition _positive_int (value : Z) (field : string) : result Z :=
  raise ValueError (field +:+ " must be a positive integer") when value <=? 0;;
  Ok value.

Definition _nonnegative_int (value : Z) (field : string) : result Z :=
  raise ValueError (field +:+ " must be a non-negative integer") when value <? 0;;
  Ok value.

(** [[a-z][a-z0-9_-]{0,63}\Z] *)
Definition is_lower (c : Ascii.ascii) : bool :=
  let n := Ascii.nat_of_ascii c in ((97 <=? n) && (n <=? 122))%nat.
Definition endpoint_char (c : Ascii.ascii) : bool :=
  let n := Ascii.nat_of_ascii c in
  (is_lower c || (48 <=? n) && (n <=? 57) || (n =? 95) || (n =? 45))%nat.
Definition endpoint_id_match (s : string) : bool :=
  match String.list_ascii_of_string s with
  | [] => false
  | c :: cs => is_lower c && forallb endpoint_char cs && (length cs <=? 63)%nat
  end.

Inductive IntervalDirection : Type := stretch | recover.
#[export] Instance direction_eq_dec : EqDecision IntervalDirection.
Proof. solve_decision. Defined.
Definition direction_value (d : IntervalDirection) : string :=
  match d with stretch => "stretch" | recover => "recover" end.

(** ** [IntervalChange] *)
Record IntervalChange : Type := {
  event_id : string; exchange : Exchange; endpoint : string; requested_ns : Z;
  previous_effective_ns : Z; effective_ns : Z; healthy_egress_count : Z;
  affected_instrument_keys : list string; config_sha256 : string; cause : string;
  direction : IntervalDirection
}.

Definition change_init (self : IntervalChange) : result IntervalChange :=
  let! _ := _nonempty_string (event_id self) "event_id" in
  let! _ := _nonempty_string (endpoint self) "endpoint" in
  raise ValueError "endpoint must be a bounded registry identifier"
    when negb (endpoint_id_match (endpoint self));;
  let! requested := _positive_int (requested_ns self) "requested_ns" in
  let! previous := _positive_int (previous_effective_ns self) "previous_effective_ns" in
  let! effective := _positive_int (effective_ns self) "effective_ns" in
  raise ValueError "previous effective interval must not be below requested interval"
    when previous <? requested;;
  raise ValueError "effective interval must not be below requested interval"
    when effective <? requested;;
  raise ValueError "unchanged intervals must not be published" when effective =? previous;;
  let! _ := _nonnegative_int (healthy_egress_count self) "healthy_egress_count" in
  raise ValueError "affected_instrument_keys must contain non-empty strings"
    when bool_decide (affected_instrument_keys self = [])
         || negb (forallb nonempty (affected_instrument_keys self));;
  raise ValueError "affected_instrument_keys must be sorted and unique"
    when negb (bool_decide (py_sorted string_leb (remove_dups (affected_instrument_keys self))
                            = affected_instrument_keys self));;
  raise ValueError "config_sha256 must be lowercase SHA-256 hex"
    when negb (config_sha256_ok (config_sha256 self));;
  let! _ := _nonempty_string (cause self) "cause" in
  raise ValueError "stretch changes must increase the effective interval"
    when bool_decide (direction self = stretch) && (effective <=? previous);;
  raise ValueError "recover changes must decrease the effective interval"
    when bool_decide (direction self = recover) && (previous <=? effective);;
  Ok self.

Definition context (self : IntervalChange) : list (string * Json) :=
  [("event_id", JStr (event_id self));
   ("requested_interval_ns", JInt (requested_ns self));
   ("previous_effective_interval_ns", JInt (previous_effective_ns self));
   ("effective_interval_ns", JInt (effective_ns self));
   ("endpoint", JStr (endpoint self));
   ("healthy_egress_count", JInt (healthy_egress_count self));
   ("affected_instrument_keys", JList (JStr <$> affected_instrument_keys self));
   ("config_sha256", JStr (config_sha256 self));
   ("cause", JStr (cause self));
   ("direction", JStr (direction_value (direction self)))].

Definition new_interval_change (exchange : Exchange) (endpoint : string)
    (requested_ns previous_effective_ns effective_ns healthy_egress_count : Z)
    (affected_instrument_keys : list string) (config_sha256 cause : string)
    (direction : IntervalDirection) (new_event_id : string) : result IntervalChange :=
  change_init
    {| event_id := new_event_id; IntervalObs.exchange := exchange; IntervalObs.endpoint := endpoint;
       IntervalObs.requested_ns := requested_ns;
       IntervalObs.previous_effective_ns := previous_effective_ns;
       IntervalObs.effective_ns := effective_ns;
       IntervalObs.healthy_egress_count := healthy_egress_count;
       IntervalObs.affected_instrument_keys := affected_instrument_keys;
       IntervalObs.config_sha256 := config_sha256; IntervalObs.cause := cause;
       IntervalObs.direction := direction |}.

(** ** Sinks *)
Inductive ControlEnqueueResult : Type :=
| ACCEPTED | ACCEPTED_HIGH_WATER | CONTROL_OVERFLOW | NOT_ACCEPTING.
#[export] Instance enqueue_eq_dec : EqDecision ControlEnqueueResult.
Proof. solve_decision. Defined.

(** What the control sink may return: the enumeration, an object with a [status]
    and an [accepted] attribute, or something whose attributes cannot be read.  The
    status is [None] when it is not a [StrEnum] with a [str] value, and so is
    [accepted] when it is not a [bool]. *)
Inductive EnqueueOutcome : Type :=
| Direct (r : ControlEnqueueResult)
| Like (status : option string) (accepted : option bool)
| Unreadable.

Definition _control_result_accepted (value : EnqueueOutcome) : bool :=
  match value with
  | Direct r => bool_decide (r ∈ [ACCEPTED; ACCEPTED_HIGH_WATER])
  | Like status accepted =>
      match accepted, status with
      | Some true, Some s => bool_decide (s ∈ ["accepted"; "accepted_high_water"])
      | _, _ => false
      end
  | Unreadable => false
  end.

Class IntervalSinks (W : Type) : Type := {
  logs_emit : list (string * Json) -> M W unit;
  controls_try_emit : NativeEventDraft -> SourceContext -> string -> M W EnqueueOutcome;
  metrics_observe : IntervalChange -> M W unit;
  critical_enter : string -> string -> M W unit
}.

Record PublishedIntervalChange : Type := {
  published_event_id : string; rest_intervals : RestIntervalContext;
  control : NativeEventDraft; degraded_sinks : list string
}.

Definition MetricSeries : Type := Exchange * string.

Definition _metric_series_allowlist (value : list MetricSeries) : result (list MetricSeries) :=
  raise ValueError "allowed_metric_series must be a non-empty frozenset" when bool_decide (value = []);;
  raise ValueError "allowed_metric_series contains an invalid series"
    when negb (forallb (fun s => endpoint_id_match s.2) value);;
  Ok value.

(** ** [IntervalChangePublisher] *)
Definition _control_record (change : IntervalChange) : result NativeEventDraft :=
  draft_validate
    {| Domain.exchange := exchange change; market := None; instrument_key := None;
       wire_symbol := None; logical_stream := "_control"; native_channel := None;
       transport := INTERNAL; event_time_ns := None; event_time_source := None;
       integrity_mode := None; coverage := None; rest_metadata := None;
       payload := JDict (context change ++
         [("type", JStr "effective_interval_changed");
          ("exchange", JStr (exchange_value (exchange change)))]) |}.

Section Publisher.
Context {W : Type} `{IntervalSinks W}.
Context (allowed_metric_series : list MetricSeries).

Definition _enter_critical (reason event_id : string) (w : W) : W * bool :=
  match critical_enter reason event_id w with
  | (w, Err _) => (w, false)
  | (w, Ok _) => (w, true)
  end.

Definition enqueue_failed : string := "interval_control_enqueue_failed".

(** The isolated log and metric sinks, and the sinks that raised. *)
Definition degraded_emits (change : IntervalChange) (w : W) : W * list string :=
  let log_record := context change ++
    [("event", JStr "effective_interval_changed");
     ("exchange", JStr (exchange_value (exchange change)))] in
  let '(w, r1) := logs_emit log_record w in
  let '(w, r2) := metrics_observe change w in
  (w, (if is_ok r1 then [] else ["logs"]) ++ (if is_ok r2 then [] else ["metrics"])).

Definition publish (change : IntervalChange) : M W PublishedIntervalChange := fun w =>
  if negb (bool_decide ((exchange change, endpoint change) ∈ allowed_metric_series))
  then (w, Err (ValueError "interval metric series is not registered"))
  else
    match _control_record change with
    | Err e => (w, Err e)
    | Ok control =>
        match controls_try_emit control internal "_control" w with
        | (w, Err _) =>
            ((_enter_critical enqueue_failed (event_id change) w).1,
             Err (IntervalPublicationError "interval control enqueue failed"))
        | (w, Ok accepted) =>
            if negb (_control_result_accepted accepted) then
              ((_enter_critical enqueue_failed (event_id change) w).1,
               Err (IntervalPublicationError "interval control enqueue was rejected"))
            else
              let '(w, degraded) := degraded_emits change w in
              let '(w, degraded) :=
                (if bool_decide (degraded = []) then (w, degraded)
                 else let '(w, recorded) :=
                        _enter_critical "interval_observability_publish_failed" (event_id change) w in
                      (w, degraded ++ (if (recorded : bool) then [] else ["critical"]))) in
              (w, let! intervals := interval_context_init (requested_ns change) (effective_ns change)
                    (Some (event_id change)) in
                  Ok {| published_event_id := event_id change; rest_intervals := intervals;
                        IntervalObs.control := control; degraded_sinks := degraded |})
        end
    end.
End Publisher.

(** ** Facts *)
Lemma change_init_inv c c' : change_init c = Ok c' ->
  c' = c /\ 0 < requested_ns c /\ 0 < previous_effective_ns c /\ 0 < effective_ns c /\
  requested_ns c <= effective_ns c /\ requested_ns c <= previous_effective_ns c /\
  event_id c <> "" /\
  (direction c = stretch -> previous_effective_ns c < effective_ns c) /\
  (direction c = recover -> effective_ns c < previous_effective_ns c).
Proof.
  unfold change_init. intros H.
  repeat match goal with
  | H : rbind _ _ = Ok _ |- _ => apply rbind_ok in H as (? & ? & H)
  | H : raise_if _ _ _ = Ok _ |- _ => apply raise_if_ok in H as (? & H)
  end. injection H as <-.
  repeat match goal with
  | E : RestModels._nonempty_string _ _ = Ok _ |- _ => apply nonempty_string_inv in E as [-> E]
  | E : _positive_int _ _ = Ok _ |- _ => unfold _positive_int in E; apply raise_if_ok in E as [? [= <-]]
  | E : _nonnegative_int _ _ = Ok _ |- _ => clear E
  end. bool_prop.
  repeat match goal with
  | E : bool_decide (direction c = _) && _ = false |- _ => apply andb_false_iff in E
  end.
  repeat split; try done; try lia; intros Hd.
  - match goal with E : bool_decide (direction c = stretch) = false \/ _ |- _ => destruct E as [E|E] end;
      bool_prop; [done|lia].
  - match goal with E : bool_decide (direction c = recover) = false \/ _ |- _ => destruct E as [E|E] end;
      bool_prop; [done|lia].
Qed.

(** The control record of a change passes the draft's own checks and is accepted
    with the internal source. *)
Lemma control_record_ok c : exists d, _control_record c = Ok d /\ validate_source d internal = Ok tt /\
  logical_stream d = "_control" /\ Domain.exchange d = exchange c.
Proof. unfold _control_record. eexists. split; [reflexivity|]. by split. Qed.

Lemma interval_context_ok c : change_init c = Ok c ->
  interval_context_init (requested_ns c) (effective_ns c) (Some (event_id c))
  = Ok {| RestModels.requested_ns := requested_ns c; RestModels.effective_ns := effective_ns c;
          change_event_id := Some (event_id c) |}.
Proof.
  intros H. apply change_init_inv in H as (_ & H1 & _ & H2 & H3 & _ & H4 & _).
  unfold interval_context_init. rewrite !positive_int_ok by done. cbn [rbind].
  rewrite (proj2 (Z.ltb_ge _ _)) by done. cbn [raise_if]. unfold _nonempty_string.
  by rewrite (proj2 (String.eqb_neq _ _) H4).
Qed.

(** *** A world that records the calls, with any fixed responses *)
Inductive call : Type :=
| Log (record : list (string * Json))
| Control (draft : NativeEventDraft) (source : SourceContext) (shard : string)
| Metric (change : IntervalChange)
| Critical (reason event_id : string).

Definition recorder (log_r metric_r critical_r : result unit) (control_r : result EnqueueOutcome)
    : IntervalSinks (list call) :=
  {| logs_emit := fun r w => (w ++ [Log r], log_r);
     controls_try_emit := fun d s shard w => (w ++ [Control d s shard], control_r);
     metrics_observe := fun c w => (w ++ [Metric c], metric_r);
     critical_enter := fun reason e w => (w ++ [Critical reason e], critical_r) |}.

(** Publication keeps its order and isolates its sinks.  For a valid change of
    an allowed series, with sinks that may fail in any combination: the control
    record is offered first; unless it is accepted nothing else is published, the
    writer is put into the critical state and [IntervalPublicationError] is raised;
    once it is accepted the log and the metric are each tried, no failure of theirs
    escapes, the failed sinks are reported exactly, and the critical state is
    entered exactly when there is one. *)
Theorem publish_protocol (log_r metric_r critical_r : result unit) (control_r : result EnqueueOutcome)
    (allowed : list MetricSeries) (c : IntervalChange) (w : list call) :
  change_init c = Ok c -> (exchange c, endpoint c) ∈ allowed ->
  exists draft, _control_record c = Ok draft /\ validate_source draft internal = Ok tt /\
  let H := recorder log_r metric_r critical_r control_r in
  let offered := w ++ [Control draft internal "_control"] in
  let failed := (if is_ok log_r then [] else ["logs"]) ++ (if is_ok metric_r then [] else ["metrics"]) in
  let accepted := match control_r with Ok o => _control_result_accepted o | Err _ => false end in
  if accepted then
    exists r published, publish allowed c w = (offered ++ r, Ok published) /\
      (exists record, r = [Log record; Metric c] ++
         (if bool_decide (failed = []) then []
          else [Critical "interval_observability_publish_failed" (event_id c)])) /\
      degraded_sinks published = failed ++
        (if bool_decide (failed = []) || is_ok critical_r then [] else ["critical"]) /\
      RestModels.effective_ns (rest_intervals published) = effective_ns c /\
      RestModels.requested_ns (rest_intervals published) = requested_ns c
  else exists msg, publish allowed c w
    = (offered ++ [Critical "interval_control_enqueue_failed" (event_id c)],
       Err (IntervalPublicationError msg)).
Proof.
  intros Hc Hin. destruct (control_record_ok c) as (draft & Hd & Hv & _).
  exists draft. split; [done|]. split; [done|]. cbv zeta.
  set (H := recorder log_r metric_r critical_r control_r).
  unfold publish. rewrite (bool_decide_eq_true_2 _ Hin). cbn [negb]. rewrite Hd. cbn -[degraded_emits _enter_critical].
  assert (Hcrit : forall (x : list call) reason e,
    _enter_critical (W := list call) reason e x = (x ++ [Critical reason e], is_ok critical_r)).
  { intros x reason e. unfold _enter_critical. cbn. by destruct critical_r. }
  destruct control_r as [o|e]; [|eexists; by rewrite Hcrit].
  destruct (_control_result_accepted o) eqn:Eo; cbn [negb]; [|eexists; by rewrite Hcrit].
  unfold degraded_emits. cbn -[_enter_critical]. rewrite interval_context_ok by done. cbn [rbind].
  case_bool_decide as Ef; rewrite ?Hcrit.
  - eexists _, _. split; [by rewrite <- !(assoc_L (++))|]. split; [by eexists|].
    cbn. by rewrite app_nil_r.
  - eexists _, _. split; [by rewrite <- !(assoc_L (++))|]. split; [by eexists|]. cbn. by rewrite (assoc_L (++)).
Qed.

Module Samples.
Definition change : IntervalChange :=
  {| event_id := "e"; exchange := KRAKEN; endpoint := "depth"; requested_ns := 10;
     previous_effective_ns := 10; effective_ns := 30; healthy_egress_count := 1;
     affected_instrument_keys := ["BTC"]; cause := "overload"; direction := stretch;
     config_sha256 := "0123456789abcdef0123456789abcdef0123456789abcdef0123456789abcdef" |}.
End Samples.

Lemma publish_protocol_witness :
  exists draft, _control_record Samples.change = Ok draft /\
  let H := recorder (Err (ValueError "disk")) (Ok tt) (Ok tt) (Ok (Direct ACCEPTED)) in
  exists r published,
    publish [(KRAKEN, "depth")] Samples.change [] = ([] ++ [Control draft internal "_control"] ++ r, Ok published)
    /\ degraded_sinks published = ["logs"].
Proof.
  destruct (publish_protocol (Err (ValueError "disk")) (Ok tt) (Ok tt) (Ok (Direct ACCEPTED))
    [(KRAKEN, "depth")] Samples.change []) as (draft & H1 & _ & H2).
  - vm_compute. reflexivity.
  - left.
  - exists draft. split; [exact H1|]. cbv zeta in H2 |- *. cbn -[publish] in H2.
    destruct H2 as (r & published & H2 & _ & H3 & _). exists r, published. split; [exact H2|exact H3].
Defined.
