(* ===== verification/Interval.v ===== *)
(** [scheduler/rest.py], first half: the smallest interval a token rate sustains and
    the controller that moves the active interval.  Activation publishes through a
    computation on the controller and the world of the sinks, so that a sink which
    calls back into the controller is part of the model. *)
From S2P Require Import Prelude PyDecimal RateLimit Domain RestModels IntervalObs.

Definition _NANOSECONDS_PER_SECOND : Z := 1000000000.
Definition _DEFAULT_MAX_EFFECTIVE_NS : Z := 15 * 60 * _NANOSECONDS_PER_SECOND.

Definition _positive_int (value : Z) (field : string) : result Z :=
  raise ValueError (field +:+ " must be a positive integer") when value <=? 0;;
  Ok value.

Definition _nonnegative_int (value : Z) (field : string) : result Z :=
  raise ValueError (field +:+ " must be a non-negative integer") when value <? 0;;
  Ok value.

Definition _nonnegative_decimal (value : DecimalInput) (field : string) : result dec :=
  match (match value with DInt n => Finite (dec_of_int n) | DDec d => d end) with
  | NonFinite => Err (ValueError (field +:+ " must be finite and non-negative"))
  | Finite d =>
      raise ValueError (field +:+ " must be finite and non-negative") when dltb d dzero;;
      Ok d
  end.

Definition _positive_decimal (value : DecimalInput) (field : string) : result dec :=
  let! normalized := _nonnegative_decimal value field in
  raise ValueError (field +:+ " must be positive") when deqb normalized dzero;;
  Ok normalized.

Definition _ceil_ratio (numerator denominator : Z) : Z := (numerator + denominator - 1) / denominator.

(** ** [solve_interval] *)
Inductive OverloadPolicy : Type := stretch_with_warning | fail.
#[export] Instance policy_eq_dec : EqDecision OverloadPolicy.
Proof. solve_decision. Defined.

Record IntervalWarning : Type := {
  warning_requested_ns : Z; warning_effective_ns : Z; affected_symbols : Z
}.
Record IntervalPlan : Type := {
  plan_requested_ns : Z; plan_effective_ns : Z; warning : option IntervalWarning
}.

Definition solve_interval (requested_ns jobs : Z) (cost available_tokens_per_second : DecimalInput)
    (policy : OverloadPolicy) (max_effective_ns : Z) : result IntervalPlan :=
  let! requested := _positive_int requested_ns "requested_ns" in
  let! job_count := _nonnegative_int jobs "jobs" in
  let! normalized_cost := _positive_decimal cost "cost" in
  let! available := _nonnegative_decimal available_tokens_per_second "available_tokens_per_second" in
  let! maximum := _positive_int max_effective_ns "max_effective_ns" in
  raise CapacityError "requested interval exceeds max effective interval" when maximum <? requested;;
  let as_requested :=
    {| plan_requested_ns := requested; plan_effective_ns := requested; warning := None |} in
  if job_count =? 0 then Ok as_requested
  else
    raise CapacityError "available token rate is zero for non-empty work" when deqb available dzero;;
    let '(cost_numerator, cost_denominator) := as_integer_ratio normalized_cost in
    let '(rate_numerator, rate_denominator) := as_integer_ratio available in
    let required_ns := _ceil_ratio
      (job_count * cost_numerator * rate_denominator * _NANOSECONDS_PER_SECOND)
      (cost_denominator * rate_numerator) in
    let effective := Z.max requested required_ns in
    raise CapacityError "required interval exceeds max effective interval" when maximum <? effective;;
    if effective =? requested then Ok as_requested
    else
      raise CapacityError "capacity cannot satisfy the requested interval"
        when bool_decide (policy = fail);;
      Ok {| plan_requested_ns := requested; plan_effective_ns := effective;
            warning := Some {| warning_requested_ns := requested; warning_effective_ns := effective;
                               affected_symbols := job_count |} |}.

(** ** [IntervalController] *)
Record IntervalController : Type := {
  _current_ns : Z; _recovery_step : dec; _healthy_refreshes_required : Z;
  _healthy_refreshes : Z; _last_refresh_id : option Z; _revision : Z;
  _activation_in_progress : bool
}.
#[export] Instance controller_eq_dec : EqDecision IntervalController.
Proof. solve_decision. Defined.

(** A [float] step reaches the controller as [Decimal(str(value))]. *)
Definition _step_decimal (value : decimal) : result dec :=
  match value with
  | NonFinite => Err (ValueError "recovery_step must be in the interval (0, 1]")
  | Finite d =>
      raise ValueError "recovery_step must be in the interval (0, 1]"
        when dleb d dzero || dltb (dec_of_int 1) d;;
      Ok d
  end.

Definition controller_new (current_ns : Z) (recovery_step : decimal) (healthy_refreshes_required : Z)
    : result IntervalController :=
  let! current := _positive_int current_ns "current_ns" in
  let! step := _step_decimal recovery_step in
  let! required := _positive_int healthy_refreshes_required "healthy_refreshes_required" in
  Ok {| _current_ns := current; _recovery_step := step; _healthy_refreshes_required := required;
        _healthy_refreshes := 0; _last_refresh_id := None; _revision := 0;
        _activation_in_progress := false |}.

Record IntervalProposal : Type := {
  controller_revision : Z; proposal_previous_ns : Z; proposal_effective_ns : Z;
  healthy_refreshes : Z; refresh_id : option Z; recovery_target_ns : option Z
}.
#[export] Instance proposal_eq_dec : EqDecision IntervalProposal.
Proof. solve_decision. Defined.

Definition proposal_init (self : IntervalProposal) : result IntervalProposal :=
  let! _ := _nonnegative_int (controller_revision self) "controller_revision" in
  let! _ := _positive_int (proposal_previous_ns self) "previous_effective_ns" in
  let! _ := _positive_int (proposal_effective_ns self) "effective_ns" in
  let! _ := _nonnegative_int (healthy_refreshes self) "healthy_refreshes" in
  let! _ := (match refresh_id self with
             | None => Ok 0 | Some r => _nonnegative_int r "refresh_id" end) in
  let! _ := (match recovery_target_ns self with
             | None => Ok 0 | Some t => _positive_int t "recovery_target_ns" end) in
  Ok self.

Definition set_progress (self : IntervalController) (b : bool) : IntervalController :=
  {| _current_ns := _current_ns self; _recovery_step := _recovery_step self;
     _healthy_refreshes_required := _healthy_refreshes_required self;
     _healthy_refreshes := _healthy_refreshes self; _last_refresh_id := _last_refresh_id self;
     _revision := _revision self; _activation_in_progress := b |}.

Definition _require_not_activating (self : IntervalController) : result () :=
  raise RuntimeError "interval activation is already in progress" when _activation_in_progress self;;
  Ok tt.

Definition mark_unhealthy : M IntervalController unit := fun self =>
  match _require_not_activating self with
  | Err e => (self, Err e)
  | Ok _ =>
      ({| _current_ns := _current_ns self; _recovery_step := _recovery_step self;
          _healthy_refreshes_required := _healthy_refreshes_required self;
          _healthy_refreshes := 0; _last_refresh_id := _last_refresh_id self;
          _revision := _revision self + 1;
          _activation_in_progress := _activation_in_progress self |}, Ok tt)
  end.

Definition propose_interval (self : IntervalController) (effective_ns : Z) : result IntervalProposal :=
  let! effective := _positive_int effective_ns "effective_ns" in
  raise ValueError "interval recovery must use propose_toward" when effective <? _current_ns self;;
  proposal_init
    {| controller_revision := _revision self; proposal_previous_ns := _current_ns self;
       proposal_effective_ns := effective; healthy_refreshes := 0; refresh_id := None;
       recovery_target_ns := None |}.

Definition _recovery_transition (self : IntervalController) (target_ns : Z) : Z * Z :=
  if _current_ns self <=? target_ns then (_current_ns self, 0)
  else
    let healthy_refreshes :=
      Z.min (_healthy_refreshes self + 1) (_healthy_refreshes_required self) in
    if healthy_refreshes <? _healthy_refreshes_required self
    then (_current_ns self, healthy_refreshes)
    else
      let '(step_numerator, step_denominator) := as_integer_ratio (_recovery_step self) in
      let keep_numerator := step_denominator - step_numerator in
      let rounded_step := _ceil_ratio (_current_ns self * keep_numerator) step_denominator in
      (Z.max target_ns (Z.min (_current_ns self - 1) rounded_step), healthy_refreshes).

(** [refresh] is not after the last committed refresh. *)
Definition refresh_seen (self : IntervalController) (refresh : Z) : bool :=
  match _last_refresh_id self with Some last => refresh <=? last | None => false end.

Definition propose_toward (self : IntervalController) (target_ns refresh_id : Z)
    : result IntervalProposal :=
  let! target := _positive_int target_ns "target_ns" in
  let! refresh := _nonnegative_int refresh_id "refresh_id" in
  raise ValueError "refresh_id must increase after every committed refresh"
    when refresh_seen self refresh;;
  let '(candidate, healthy_refreshes) := _recovery_transition self target in
  proposal_init
    {| controller_revision := _revision self; proposal_previous_ns := _current_ns self;
       proposal_effective_ns := candidate; Interval.healthy_refreshes := healthy_refreshes;
       Interval.refresh_id := Some refresh; recovery_target_ns := Some target |}.

Definition _validate_proposal (self : IntervalController) (p : IntervalProposal) : result () :=
  raise ValueError "interval proposal is stale"
    when negb ((controller_revision p =? _revision self)
               && (proposal_previous_ns p =? _current_ns self));;
  raise ValueError "interval proposal has an invalid healthy refresh count"
    when _healthy_refreshes_required self <? healthy_refreshes p;;
  raise ValueError "interval refresh proposal is stale"
    when match refresh_id p with Some r => refresh_seen self r | None => false end;;
  match recovery_target_ns p with
  | None =>
      raise ValueError "interval proposal is not a legal direct transition"
        when bool_decide (refresh_id p <> None) || negb (healthy_refreshes p =? 0)
             || (proposal_effective_ns p <? _current_ns self);;
      Ok tt
  | Some target =>
      raise ValueError "interval proposal is missing its refresh identity"
        when bool_decide (refresh_id p = None);;
      let '(expected_effective, expected_refreshes) := _recovery_transition self target in
      raise ValueError "interval proposal is not a legal recovery transition"
        when negb (proposal_effective_ns p =? expected_effective)
             || negb (healthy_refreshes p =? expected_refreshes);;
      Ok tt
  end.

Definition _apply_proposal (self : IntervalController) (p : IntervalProposal)
    : result IntervalController :=
  let! current := _positive_int (proposal_effective_ns p) "current_ns" in
  Ok {| _current_ns := current; _recovery_step := _recovery_step self;
        _healthy_refreshes_required := _healthy_refreshes_required self;
        _healthy_refreshes := healthy_refreshes p;
        _last_refresh_id := match refresh_id p with
          | Some r => Some r | None => _last_refresh_id self end;
        _revision := _revision self + 1;
        _activation_in_progress := _activation_in_progress self |}.

Definition commit (p : IntervalProposal) : M IntervalController unit := fun self =>
  match (let! _ := _require_not_activating self in
         raise ValueError "changed interval proposals require publication"
           when negb (proposal_effective_ns p =? proposal_previous_ns p);;
         let! _ := _validate_proposal self p in
         _apply_proposal self p) with
  | Err e => (self, Err e)
  | Ok self => (self, Ok tt)
  end.

(** The checks of [activate] before anything happens. *)
Definition activate_checks (self : IntervalController) (p : IntervalProposal) (change : IntervalChange)
    : result () :=
  raise ValueError "interval change does not match its proposal"
    when negb ((previous_effective_ns change =? proposal_previous_ns p)
               && (effective_ns change =? proposal_effective_ns p));;
  raise ValueError "unchanged proposals do not require publication"
    when effective_ns change =? previous_effective_ns change;;
  let! _ := _require_not_activating self in
  _validate_proposal self p.

(** [finally: self._activation_in_progress = False] *)
Definition release {W} (s : IntervalController * W) : IntervalController * W :=
  (set_progress s.1 false, s.2).

Definition activate {W} (p : IntervalProposal) (change : IntervalChange)
    (publish : IntervalChange -> M (IntervalController * W) PublishedIntervalChange)
    : M (IntervalController * W) PublishedIntervalChange := fun '(self, w) =>
  match activate_checks self p change with
  | Err e => ((self, w), Err e)
  | Ok _ =>
      match publish change (set_progress self true, w) with
      | (s, Err e) => (release s, Err e)
      | ((self, w), Ok published) =>
          match _apply_proposal self p with
          | Err e => (release (self, w), Err e)
          | Ok self => (release (self, w), Ok published)
          end
      end
  end.

(** ** The solver returns the least sustainable interval *)
From Stdlib Require Import QArith Qround Qminmax Lqa.
Open Scope Z_scope.

(** [jobs] requests of [cost] every [e] nanoseconds fit a rate of [rate] tokens a second. *)
Definition sustainable (jobs : Z) (cost rate : dec) (e : Z) : Prop :=
  (inject_Z jobs * dval cost <= dval rate * inject_Z e / inject_Z 1000000000)%Q.

Lemma ctl_positive_ok v f : 0 < v -> _positive_int v f = Ok v.
Proof. intros. unfold _positive_int, raise_if. by rewrite (proj2 (Z.leb_gt v 0)). Qed.

Lemma ctl_positive_inv v f w : _positive_int v f = Ok w -> w = v /\ 0 < v.
Proof. unfold _positive_int. intros H. inv_ok. bool_prop. by subst. Qed.

Lemma ctl_nonnegative_ok v f : 0 <= v -> _nonnegative_int v f = Ok v.
Proof. intros. unfold _nonnegative_int, raise_if. by rewrite (proj2 (Z.ltb_ge v 0)) by lia. Qed.

Lemma ctl_nonnegative_inv v f w : _nonnegative_int v f = Ok w -> w = v /\ 0 <= v.
Proof. unfold _nonnegative_int. intros H. inv_ok. bool_prop. by subst. Qed.

Lemma nonnegative_decimal_inv v f d : _nonnegative_decimal v f = Ok d -> (0 <= dval d)%Q.
Proof.
  unfold _nonnegative_decimal. intros H. destruct (match v with DInt n => _ | DDec d => _ end); [|done].
  apply raise_if_ok in H as [H [= <-]]. apply dltb_false in H. by rewrite dval_dzero in H.
Qed.

Lemma positive_decimal_inv v f d : _positive_decimal v f = Ok d -> (0 < dval d)%Q.
Proof.
  unfold _positive_decimal. intros H. apply rbind_ok in H as (d' & Hd & H).
  apply raise_if_ok in H as [H [= <-]]. apply nonnegative_decimal_inv in Hd.
  unfold deqb in H. apply andb_false_iff in H as [H|H]; apply not_true_iff_false in H;
    rewrite dleb_spec, dval_dzero in H; lra.
Qed.

Lemma ratio_positive n k d : as_integer_ratio d = (n, k) -> (0 < dval d)%Q -> 0 < n /\ 0 < k.
Proof.
  intros H Hd. apply as_integer_ratio_spec in H as [Hk E]. split; [|done]. rewrite E in Hd.
  rewrite Zlt_Qlt. apply (Qmult_lt_r _ _ (/ inject_Z k)).
  - apply Qinv_lt_0_compat. by rewrite <- (Zlt_Qlt 0).
  - rewrite Qmult_0_l. exact Hd.
Qed.

Lemma sustainable_iff jobs cost rate e cn cd rn rd :
  as_integer_ratio cost = (cn, cd) -> as_integer_ratio rate = (rn, rd) -> (0 < dval rate)%Q ->
  sustainable jobs cost rate e <->
  _ceil_ratio (jobs * cn * rd * _NANOSECONDS_PER_SECOND) (cd * rn) <= e.
Proof.
  intros Hc Hr Hpos. destruct (ratio_positive _ _ _ Hr Hpos) as [Hrn Hrd].
  apply as_integer_ratio_spec in Hc as [Hcd Ec]. apply as_integer_ratio_spec in Hr as [_ Er].
  change (_ceil_ratio ?a ?b) with (ceil_div a b). rewrite ceil_div_le by nia.
  unfold sustainable, _NANOSECONDS_PER_SECOND. rewrite Ec, Er.
  assert (E1 : (inject_Z jobs * (inject_Z cn / inject_Z cd) == inject_Z (jobs * cn) / inject_Z cd)%Q).
  { rewrite inject_Z_mult. field. by apply inject_Z_pos_ne. }
  assert (E2 : (inject_Z rn / inject_Z rd * inject_Z e / inject_Z 1000000000
    == inject_Z (rn * e) / inject_Z (rd * 1000000000))%Q).
  { rewrite !inject_Z_mult. field. by apply inject_Z_pos_ne. }
  rewrite E1, E2, Q_ratio_le by lia. nia.
Qed.

Lemma sustainable_none cost rate : (0 <= dval rate)%Q -> forall e, 0 <= e -> sustainable 0 cost rate e.
Proof.
  intros Hr e He. unfold sustainable. change (inject_Z 0) with 0%Q. rewrite Qmult_0_l.
  apply Qle_shift_div_l; [done|]. rewrite Qmult_0_l. apply Qmult_le_0_compat; [done|].
  by rewrite <- (Zle_Qle 0).
Qed.

Lemma unsustainable_zero jobs cost rate e :
  0 < jobs -> (0 < dval cost)%Q -> (dval rate == 0)%Q -> ~ sustainable jobs cost rate e.
Proof.
  intros Hj Hc Hr H. unfold sustainable in H. rewrite Hr in H.
  assert (E : (0 * inject_Z e / inject_Z 1000000000 == 0)%Q) by field. rewrite E in H.
  assert (0 < inject_Z jobs * dval cost)%Q; [|lra].
  apply Qmult_lt_0_compat; [by rewrite <- (Zlt_Qlt 0)|done].
Qed.

(** C38: the solver is optimal.  For every valid request it either returns the least
    interval, not below the requested one, at which the jobs fit the token rate, or
    raises [CapacityError] because no interval up to the maximum does, or, under
    the policy [fail], because the requested interval does not.  A warning is given
    exactly when the interval was stretched. *)
Theorem solve_interval_optimal (requested jobs maximum : Z) (cost rate : DecimalInput)
    (policy : OverloadPolicy) (c r : dec) :
  0 < requested -> 0 <= jobs -> 0 < maximum ->
  _positive_decimal cost "cost" = Ok c ->
  _nonnegative_decimal rate "available_tokens_per_second" = Ok r ->
  match solve_interval requested jobs cost rate policy maximum with
  | Ok plan =>
      let e := plan_effective_ns plan in
      plan_requested_ns plan = requested /\ requested <= e <= maximum /\ sustainable jobs c r e /\
      (forall e', requested <= e' -> sustainable jobs c r e' -> e <= e') /\
      (policy = fail -> e = requested) /\ (warning plan = None <-> e = requested)
  | Err err =>
      (exists msg, err = CapacityError msg) /\
      forall e, requested <= e <= maximum -> sustainable jobs c r e -> policy = fail /\ e <> requested
  end.
Proof.
  intros Hq Hj Hm Hc Hr. unfold solve_interval.
  rewrite !ctl_positive_ok, ctl_nonnegative_ok by done. cbn [rbind]. rewrite Hc, Hr. cbn [rbind].
  apply positive_decimal_inv in Hc. apply nonnegative_decimal_inv in Hr.
  destruct (Z.ltb_spec maximum requested); cbn [raise_if].
  { split; [by eexists|]. intros; lia. }
  destruct (Z.eqb_spec jobs 0) as [->|Hj0].
  { cbn. split; [done|]. split; [lia|]. split; [apply sustainable_none; [done|lia]|].
    split; [intros; lia|]. split; [done|]. split; done. }
  destruct (deqb r dzero) eqn:E0; cbn [raise_if].
  { split; [by eexists|]. intros e He Hsu. exfalso.
    apply (unsustainable_zero jobs c r e); [lia|done| |exact Hsu].
    unfold deqb in E0. apply andb_true_iff in E0 as [A B]. rewrite dleb_spec, dval_dzero in A, B. lra. }
  assert (Hr0 : (0 < dval r)%Q).
  { unfold deqb in E0. apply andb_false_iff in E0 as [A|A]; apply not_true_iff_false in A;
      rewrite dleb_spec, dval_dzero in A; lra. }
  destruct (as_integer_ratio c) as [cn cd] eqn:Ec. destruct (as_integer_ratio r) as [rn rd] eqn:Er.
  pose proof (fun e => sustainable_iff jobs c r e _ _ _ _ Ec Er Hr0) as Hs.
  set (required := _ceil_ratio _ _) in *.
  destruct (Z.ltb_spec maximum (Z.max requested required)); cbn [raise_if].
  { split; [by eexists|]. intros e He Hse. apply Hs in Hse. lia. }
  destruct (Z.eqb_spec (Z.max requested required) requested) as [E|E].
  { cbn. split; [done|]. split; [lia|]. split; [apply Hs; lia|]. split; [intros; lia|]. by split. }
  destruct (bool_decide_reflect (policy = fail)) as [Hf|Hf]; cbn [raise_if].
  { split; [by eexists|]. intros e He Hse. apply Hs in Hse. split; [done|lia]. }
  cbn. split; [done|]. split; [lia|]. split; [apply Hs; lia|].
  split; [intros e' He' Hse; apply Hs in Hse; lia|]. split; [done|]. split; [done|lia].
Qed.

Lemma solve_interval_optimal_witness :
  let plan := {| plan_requested_ns := 1000; plan_effective_ns := 2000000000;
    warning := Some {| warning_requested_ns := 1000; warning_effective_ns := 2000000000;
                       affected_symbols := 4 |} |} in
  solve_interval 1000 4 (DInt 1) (DInt 2) stretch_with_warning 3000000000 = Ok plan /\
  sustainable 4 (dec_of_int 1) (dec_of_int 2) (plan_effective_ns plan).
Proof.
  pose proof (solve_interval_optimal 1000 4 3000000000 (DInt 1) (DInt 2) stretch_with_warning
    (dec_of_int 1) (dec_of_int 2) ltac:(lia) ltac:(lia) ltac:(lia) eq_refl eq_refl) as H.
  assert (E : solve_interval 1000 4 (DInt 1) (DInt 2) stretch_with_warning 3000000000
    = Ok {| plan_requested_ns := 1000; plan_effective_ns := 2000000000;
      warning := Some {| warning_requested_ns := 1000; warning_effective_ns := 2000000000;
                         affected_symbols := 4 |} |}) by (vm_compute; reflexivity).
  rewrite E in H. destruct H as (_ & _ & H & _). split; [exact E|exact H].
Defined.

(** ** The controller *)
Definition controller_ok (c : IntervalController) : Prop :=
  0 < _current_ns c /\ (0 < dval (_recovery_step c) <= 1)%Q /\ 0 < _healthy_refreshes_required c /\
  0 <= _healthy_refreshes c <= _healthy_refreshes_required c /\ 0 <= _revision c.

Lemma controller_new_ok current step required c :
  controller_new current step required = Ok c -> controller_ok c.
Proof.
  unfold controller_new. intros H. apply rbind_ok in H as (n & Hn & H).
  apply rbind_ok in H as (d & Hd & H). apply rbind_ok in H as (k & Hk & [= <-]).
  apply ctl_positive_inv in Hn as [-> Hn]. apply ctl_positive_inv in Hk as [-> Hk].
  unfold _step_decimal in Hd. destruct step as [s|]; [|done]. apply raise_if_ok in Hd as [Hd [= <-]].
  apply orb_false_iff in Hd as [H1 H2]. apply not_true_iff_false in H1. rewrite dleb_spec, dval_dzero in H1.
  apply dltb_false in H2. assert (E : (dval (dec_of_int 1) == 1)%Q) by reflexivity. rewrite E in H2.
  split; cbn; [done|]. split; [lra|]. split; [done|]. split; lia.
Qed.

(** What one healthy refresh toward a target does. *)
Lemma recovery_transition_spec c target :
  controller_ok c -> 0 < target ->
  let '(candidate, h) := _recovery_transition c target in
  0 < candidate <= _current_ns c /\ 0 <= h <= _healthy_refreshes_required c /\
  (_current_ns c <= target -> candidate = _current_ns c /\ h = 0) /\
  (target < _current_ns c ->
     target <= candidate /\ h = Z.min (_healthy_refreshes c + 1) (_healthy_refreshes_required c) /\
     (candidate < _current_ns c <-> h = _healthy_refreshes_required c)).
Proof.
  intros (Hc & Hs & Hr & Hh & _) Ht. unfold _recovery_transition.
  destruct (Z.leb_spec (_current_ns c) target); [lia|].
  destruct (Z.ltb_spec (Z.min (_healthy_refreshes c + 1) (_healthy_refreshes_required c))
    (_healthy_refreshes_required c)); [lia|].
  destruct (as_integer_ratio (_recovery_step c)) as [sn sd]. lia.
Qed.

Lemma proposal_init_ok p :
  0 <= controller_revision p -> 0 < proposal_previous_ns p -> 0 < proposal_effective_ns p ->
  0 <= healthy_refreshes p -> (match refresh_id p with Some r => 0 <= r | None => True end) ->
  (match recovery_target_ns p with Some t => 0 < t | None => True end) -> proposal_init p = Ok p.
Proof.
  intros H1 H2 H3 H4 H5 H6. unfold proposal_init.
  rewrite !ctl_nonnegative_ok, !ctl_positive_ok by done. cbn [rbind].
  destruct (refresh_id p); [rewrite ctl_nonnegative_ok by done|]; cbn [rbind];
    (destruct (recovery_target_ns p); [rewrite ctl_positive_ok by done|]); done.
Qed.

Lemma proposal_init_inv p q : proposal_init p = Ok q -> q = p /\ 0 < proposal_effective_ns p.
Proof.
  unfold proposal_init. intros H. apply rbind_ok in H as (? & _ & H). apply rbind_ok in H as (? & _ & H).
  apply rbind_ok in H as (? & He & H). apply ctl_positive_inv in He as [_ He].
  apply rbind_ok in H as (? & _ & H). apply rbind_ok in H as (? & _ & H).
  apply rbind_ok in H as (? & _ & [= <-]). done.
Qed.

(** A fresh recovery proposal is legal. *)
Lemma propose_toward_valid c target refresh :
  controller_ok c -> 0 < target -> 0 <= refresh -> refresh_seen c refresh = false ->
  exists p, propose_toward c target refresh = Ok p /\ _validate_proposal c p = Ok tt /\
    proposal_previous_ns p = _current_ns c /\ refresh_id p = Some refresh /\
    (proposal_effective_ns p, healthy_refreshes p) = _recovery_transition c target.
Proof.
  intros Hok Ht Hr Hseen. pose proof (recovery_transition_spec c target Hok Ht) as Hs.
  destruct (_recovery_transition c target) as [candidate h] eqn:E. destruct Hs as (H1 & H2 & _).
  destruct Hok as (Hc & _ & Hreq & _ & Hrev).
  unfold propose_toward. rewrite ctl_positive_ok, ctl_nonnegative_ok by done. cbn [rbind].
  rewrite Hseen. cbn [raise_if]. rewrite E, proposal_init_ok by (cbn; done || lia).
  eexists. split; [done|]. split; [|by split_and!].
  unfold _validate_proposal. cbn. rewrite !Z.eqb_refl. cbn [andb negb raise_if].
  rewrite (proj2 (Z.ltb_ge _ _)) by lia. cbn [raise_if]. rewrite Hseen. cbn [raise_if].
  rewrite E, !Z.eqb_refl. done.
Qed.

(** What a committed or activated proposal leaves. *)
Definition applied (c : IntervalController) (p : IntervalProposal) : IntervalController :=
  {| _current_ns := proposal_effective_ns p; _recovery_step := _recovery_step c;
     _healthy_refreshes_required := _healthy_refreshes_required c;
     _healthy_refreshes := healthy_refreshes p;
     _last_refresh_id := match refresh_id p with Some r => Some r | None => _last_refresh_id c end;
     _revision := _revision c + 1; _activation_in_progress := _activation_in_progress c |}.

Lemma apply_ok c p : 0 < proposal_effective_ns p -> _apply_proposal c p = Ok (applied c p).
Proof. intros. unfold _apply_proposal. by rewrite ctl_positive_ok. Qed.

Lemma validate_inv c p : _validate_proposal c p = Ok tt ->
  controller_revision p = _revision c /\ proposal_previous_ns p = _current_ns c /\
  healthy_refreshes p <= _healthy_refreshes_required c /\
  match recovery_target_ns p with
  | None => refresh_id p = None /\ healthy_refreshes p = 0 /\ _current_ns c <= proposal_effective_ns p
  | Some t => exists r, refresh_id p = Some r /\ refresh_seen c r = false /\
      (proposal_effective_ns p, healthy_refreshes p) = _recovery_transition c t
  end.
Proof.
  unfold _validate_proposal. intros H. apply raise_if_ok in H as [H1 H].
  apply raise_if_ok in H as [H2 H]. apply raise_if_ok in H as [H3 H]. bool_prop.
  do 3 (split; [done|]). destruct (recovery_target_ns p) as [t|].
  - apply raise_if_ok in H as [H4 H]. destruct (_recovery_transition c t) as [e h] eqn:E.
    apply raise_if_ok in H as [H5 _]. bool_prop. destruct (refresh_id p) as [r|]; [|done].
    exists r. split; [done|]. split; [done|]. congruence.
  - apply raise_if_ok in H as [H4 _]. bool_prop. split; [|done].
    destruct (refresh_id p); [|done]. exfalso. naive_solver.
Qed.

Lemma applied_ok c p :
  controller_ok c -> _validate_proposal c p = Ok tt -> 0 < proposal_effective_ns p ->
  0 <= healthy_refreshes p -> controller_ok (applied c p).
Proof.
  intros (H1 & H2 & H3 & H4 & H5) Hv He Hh. apply validate_inv in Hv as (_ & _ & Hle & _).
  split; cbn; [done|]. split; [done|]. split; [done|]. split; lia.
Qed.

(** ** Recovery converges *)
(** The interval and the count after a healthy refresh toward a lower target: as long as
    refreshes are missing, one less is missing; then the interval falls by the fraction [step],
    rounded up, by a nanosecond at least and not below the target. *)
Definition healthy_step (step : Q) (required target : Z) (state : Z * Z) : Z * Z :=
  let '(current, healthy) := state in
  if current <=? target then (current, 0)
  else if healthy + 1 <? required then (current, healthy + 1)
  else (Z.max target (Z.min (current - 1) (Qceiling ((1 - step) * inject_Z current))), required).

Lemma ceiling_le q n : (Qceiling q <= n)%Z <-> (q <= inject_Z n)%Q.
Proof.
  split; intros Hq.
  - eapply Qle_trans; [apply Qle_ceiling|]. by rewrite <- Zle_Qle.
  - assert (Qceiling q - 1 < n); [|lia]. rewrite Zlt_Qlt. eapply Qlt_le_trans; [apply Qceiling_lt|done].
Qed.
Lemma transition_is c target : controller_ok c -> _recovery_transition c target =
  healthy_step (dval (_recovery_step c)) (_healthy_refreshes_required c) target (_current_ns c, _healthy_refreshes c).
Proof.
  intros (Hc & Hs & Hr & Hh & _). unfold _recovery_transition, healthy_step. destruct (_current_ns c <=? target); [done|].
  assert (Hm : Z.min (_healthy_refreshes c + 1) (_healthy_refreshes_required c) =
    if _healthy_refreshes c + 1 <? _healthy_refreshes_required c then _healthy_refreshes c + 1 else _healthy_refreshes_required c).
  { destruct (Z.ltb_spec (_healthy_refreshes c + 1) (_healthy_refreshes_required c)); lia. }
  rewrite Hm. destruct (Z.ltb_spec (_healthy_refreshes c + 1) (_healthy_refreshes_required c)) as [Hlt|Hge].
  { by rewrite (proj2 (Z.ltb_lt _ _) Hlt). }
  rewrite Z.ltb_irrefl. destruct (as_integer_ratio (_recovery_step c)) as [sn sd] eqn:E. f_equal. do 2 f_equal.
  apply as_integer_ratio_spec in E as [Hsd Es]. change (_ceil_ratio ?a ?b) with (ceil_div a b).
  assert (Hsd' : (0 < inject_Z sd)%Q) by (by rewrite <- (Zlt_Qlt 0)).
  assert (E1 : ((1 - dval (_recovery_step c)) * inject_Z (_current_ns c) == inject_Z (_current_ns c * (sd - sn)) / inject_Z sd)%Q).
  { rewrite Es. unfold Z.sub. rewrite inject_Z_mult, inject_Z_plus, inject_Z_opp. field. by apply inject_Z_pos_ne. }
  assert (Hall : forall n, ceil_div (_current_ns c * (sd - sn)) sd <= n <-> Qceiling ((1 - dval (_recovery_step c)) * inject_Z (_current_ns c)) <= n).
  { intros n. rewrite ceiling_le, E1, ceil_div_le by done. split; intros Hn.
    - apply Qle_shift_div_r; [done|]. rewrite <- inject_Z_mult. by rewrite <- Zle_Qle.
    - rewrite Zle_Qle, (inject_Z_mult n sd). rewrite <- (Qmult_div_r (inject_Z (_current_ns c * (sd - sn))) (inject_Z sd)) by by apply inject_Z_pos_ne.
      rewrite (Qmult_comm (inject_Z sd)). apply Qmult_le_compat_r; [done|]. by apply Qlt_le_weak. }
  apply Z.le_antisymm; [by apply Hall|by apply Hall].
Qed.

(** The publisher touches the controller only through those operations. *)
Definition guarded {W} (publish : IntervalChange -> M (IntervalController * W) PublishedIntervalChange)
    : Prop :=
  forall ch c w, _activation_in_progress c = true -> (publish ch (c, w)).1.1 = c.

Section Recovery.
Context {W : Type} (publish : IntervalChange -> M (IntervalController * W) PublishedIntervalChange).
Context (change_of : IntervalProposal -> IntervalChange).

(** One healthy refresh as a caller drives the controller: it proposes, then commits an
    unchanged interval or activates a changed one, which publishes it. *)
Definition refresh (target id : Z) : M (IntervalController * W) unit := fun '(c, w) =>
  match propose_toward c target id with
  | Err e => ((c, w), Err e)
  | Ok p =>
      if proposal_effective_ns p =? proposal_previous_ns p then
        let '(c, r) := commit p c in ((c, w), r)
      else
        match activate p (change_of p) publish (c, w) with
        | (s, Ok _) => (s, Ok tt)
        | (s, Err e) => (s, Err e)
        end
  end.
(** Refreshes one after the other; an error does not stop the caller. *)
Fixpoint refreshes (target : Z) (ids : list Z) (s : IntervalController * W) : (IntervalController * W) * list (result unit) :=
  match ids with
  | [] => (s, [])
  | id :: ids =>
      let '(s, r) := refresh target id s in
      let '(s, rs) := refreshes target ids s in (s, r :: rs)
  end.
Definition succeeded (rs : list (result unit)) : nat := length (filter (fun r => is_ok r = true) rs).

(** The publisher may raise, but leaves the controller; the change describes its proposal. *)
Context (Hpublish : guarded publish).
Context (Hchange : forall p, previous_effective_ns (change_of p) = proposal_previous_ns p /\
  effective_ns (change_of p) = proposal_effective_ns p).

Definition step_from (c : IntervalController) (target : Z) : Z * Z -> Z * Z :=
  healthy_step (dval (_recovery_step c)) (_healthy_refreshes_required c) target.
Definition interval_of (c : IntervalController) : Z * Z := (_current_ns c, _healthy_refreshes c).

(** What a refresh leaves. *)
Record advanced (c : IntervalController) (target id : Z) (c' : IntervalController) : Prop := {
  ad_ok : controller_ok c';
  ad_idle : _activation_in_progress c' = false;
  ad_last : _last_refresh_id c' = Some id;
  ad_required : _healthy_refreshes_required c' = _healthy_refreshes_required c;
  ad_step : _recovery_step c' = _recovery_step c;
  ad_interval : interval_of c' = step_from c target (interval_of c)
}.

Lemma refresh_cases c w target id : controller_ok c -> _activation_in_progress c = false -> 0 < target -> 0 <= id ->
  refresh_seen c id = false ->
  let '((c', w'), r) := refresh target id (c, w) in
  match r with
  | Ok _ => advanced c target id c'
  | Err e => c' = c /\ exists ch s s', publish ch s = (s', Err e)
  end.
Proof.
  intros Hok Hidle Ht Hid Hseen.
  destruct (propose_toward_valid c target id Hok Ht Hid Hseen) as (p & Ep & Hv & Eprev & Eid & Etr).
  pose proof (recovery_transition_spec c target Hok Ht) as Hs. rewrite <- Etr in Hs. destruct Hs as (He & Hh & _).
  assert (Hres : advanced c target id (applied c p)).
  { split; [apply applied_ok; try done; lia|done|cbn; by rewrite Eid|done|done|]. unfold interval_of, step_from. rewrite <- transition_is by done.
    cbn. by rewrite <- Etr. }
  unfold refresh. rewrite Ep, Eprev. destruct (Z.eqb_spec (proposal_effective_ns p) (_current_ns c)) as [E|E].
  - unfold commit, _require_not_activating. rewrite Hidle. cbn [raise_if rbind].
    rewrite Eprev, E, Z.eqb_refl. cbn [negb raise_if]. rewrite Hv. cbn [rbind]. by rewrite apply_ok by lia.
  - destruct (Hchange p) as [C1 C2]. unfold activate, activate_checks.
    rewrite C1, C2, !Z.eqb_refl. cbn [andb negb raise_if]. rewrite Eprev.
    rewrite (proj2 (Z.eqb_neq _ _)) by done. cbn [raise_if]. unfold _require_not_activating.
    rewrite Hidle. cbn [raise_if rbind]. rewrite Hv.
    pose proof (Hpublish (change_of p) (set_progress c true) w eq_refl) as Hsame.
    destruct (publish (change_of p) (set_progress c true, w)) as [[c1 w1] [published|e]] eqn:Ep'; cbn in Hsame; subst c1.
    + rewrite apply_ok by lia. unfold release. cbn [fst snd].
      assert (set_progress (applied (set_progress c true) p) false = applied c p) as ->; [|done].
      unfold set_progress, applied. cbn. by rewrite Hidle.
    + unfold release. cbn [fst snd]. split; [|by eexists _, _, _]. unfold set_progress. destruct c. cbn in *. by rewrite Hidle.
Qed.

(** The distance left: missing healthy refreshes plus nanoseconds above the target. *)
Definition distance (c : IntervalController) (target : Z) : Z :=
  (_healthy_refreshes_required c - _healthy_refreshes c) + (_current_ns c - target).

(** A step goes down, not below the target, and shortens the distance. *)
Lemma advanced_bounds c target id c' : controller_ok c -> 0 < target -> target <= _current_ns c -> advanced c target id c' ->
  target <= _current_ns c' <= _current_ns c /\ (_current_ns c' = target \/ distance c' target + 1 <= distance c target).
Proof.
  intros Hok Ht Hle [_ _ _ Hreq _ Hi]. unfold step_from, interval_of in Hi. rewrite <- transition_is in Hi by done.
  pose proof (recovery_transition_spec c target Hok Ht) as Hs. rewrite <- Hi in Hs. destruct Hs as (H1 & H2 & H3 & H4).
  destruct (Z.eq_dec (_current_ns c) target) as [E|E]; [destruct H3; lia|]. destruct H4 as (Hge & Hh & Hiff); [lia|]. split; [lia|].
  destruct (Z.eq_dec (_current_ns c') target) as [|E']; [by left|right]. unfold distance. rewrite Hreq. destruct Hok as (_ & _ & _ & ? & _). lia.
Qed.
Lemma at_target_stays c target id c' : controller_ok c -> _current_ns c = target -> advanced c target id c' -> _current_ns c' = target.
Proof.
  intros Hok E [_ _ _ _ _ Hi]. unfold step_from, interval_of, healthy_step in Hi. rewrite (proj2 (Z.leb_le _ _)) in Hi by lia. congruence.
Qed.

(** C39: recovery converges and never overshoots, and a publication that fails only costs its
    refresh.  Drive the controller with healthy refreshes toward a lower target, with any
    publisher that does not touch the controller and may raise whenever it is called, as
    [IntervalChangePublisher] does for a series outside its allowlist or a refused control
    record.  A refresh fails only with the error of the publisher, and then the controller is
    what it was.  The interval is exactly what the refreshes that succeeded make of it: once
    enough are healthy each lowers it by the recovery step, rounded up, by a nanosecond at least
    and never below the target.  So it only goes down, and is at the target after at most as many
    successes as healthy refreshes are missing plus the nanoseconds of difference.  (With the
    raw ingress as control sink every publication raises, [interval_control_refused], and
    the interval stays.) *)
Theorem recovery_converges (c : IntervalController) (w : W) (target : Z) (ids : list Z) :
  controller_ok c -> _activation_in_progress c = false -> 0 < target -> target <= _current_ns c ->
  Forall (fun id => 0 <= id /\ refresh_seen c id = false) ids -> StronglySorted Z.lt ids ->
  let '((c', w'), rs) := refreshes target ids (c, w) in
  length rs = length ids /\ Forall (fun r => forall e, r = Err e -> exists ch s s', publish ch s = (s', Err e)) rs /\
  interval_of c' = Nat.iter (succeeded rs) (step_from c target) (interval_of c) /\
  target <= _current_ns c' <= _current_ns c /\
  (distance c target <= Z.of_nat (succeeded rs) -> _current_ns c' = target).
Proof.
  revert c w target. induction ids as [|id ids IH]; intros c w target Hok Hidle Ht Hle Hids Hsort.
  { cbn. split; [done|]. split; [constructor|]. split; [done|]. split; [lia|]. unfold distance. destruct Hok as (_ & _ & _ & ? & _). lia. }
  apply Forall_cons in Hids as [[Hid Hseen] Hids]. apply StronglySorted_inv in Hsort as [Hsort Hlt]. cbn [refreshes].
  pose proof (refresh_cases c w target id Hok Hidle Ht Hid Hseen) as Hcase. destruct (refresh target id (c, w)) as [[c1 w1] r].
  destruct r as [[]|e].
  - pose proof Hcase as [Hok1 Hidle1 Hlast Hreq Hstep Hi]. destruct (advanced_bounds _ _ _ _ Hok Ht Hle Hcase) as [Hcur Hdist].
    specialize (IH c1 w1 target Hok1 Hidle1 Ht ltac:(lia)). destruct (refreshes target ids (c1, w1)) as [[c' w'] rs].
    destruct IH as (H1 & H2 & H3 & H4 & H5); [|done|].
    { apply Forall_forall. intros i Hin. pose proof (proj1 (Forall_forall _ _) Hids i Hin) as [Hi0 _]. split; [done|]. unfold refresh_seen.
      rewrite Hlast. apply Z.leb_gt. by apply (proj1 (Forall_forall _ _) Hlt). }
    assert (Hs : succeeded (Ok tt :: rs) = S (succeeded rs)) by done. rewrite Hs. split; [cbn; lia|]. split; [by constructor|].
    split; [|split; [lia|]].
    + rewrite Nat.iter_succ_r, <- Hi. unfold step_from in H3 |- *. by rewrite <- Hreq, <- Hstep.
    + intros Hd. destruct Hdist as [E|Hdist]; [lia|]. apply H5. lia.
  - destruct Hcase as [-> Hpub]. specialize (IH c w1 target Hok Hidle Ht Hle Hids Hsort). destruct (refreshes target ids (c, w1)) as [[c' w'] rs].
    destruct IH as (H1 & H2 & H3 & H4 & H5). change (succeeded (Err e :: rs)) with (succeeded rs). split; [cbn; lia|].
    split; [constructor; [by intros e' [= <-]|done]|]. by split.
Qed.
End Recovery.

(** ** Activation is atomic *)

(** While an activation is in progress the operations a sink could call on the
    controller leave it as it is. *)
Lemma no_change_while_activating c :
  _activation_in_progress c = true ->
  (mark_unhealthy c).1 = c /\ (forall p, (commit p c).1 = c) /\
  (forall W p ch (f : IntervalChange -> M (IntervalController * W) PublishedIntervalChange) w,
     (activate p ch f (c, w)).1 = (c, w)).
Proof.
  intros Hc. unfold mark_unhealthy, commit, activate, activate_checks, _require_not_activating.
  rewrite Hc. cbn [raise_if rbind]. split; [done|]. split; [done|]. intros W p ch f w.
  destruct (negb _); [done|]. cbn [raise_if]. by destruct (effective_ns ch =? _).
Qed.

(** The interval changes exactly when the change was published.  With any
    publisher, also one whose sinks call back into the controller, [activate]
    either returns the published change, and then the publisher accepted this
    change, the interval is the proposed one and the revision moved on, or it
    raises and the controller is what it was; in both cases no activation stays in
    progress. *)
Theorem activate_atomic {W} (publish : IntervalChange -> M (IntervalController * W) PublishedIntervalChange)
    (p : IntervalProposal) (change : IntervalChange) (c : IntervalController) (w : W) :
  guarded publish -> controller_ok c -> _activation_in_progress c = false -> proposal_init p = Ok p ->
  let '((c', w'), r) := activate p change publish (c, w) in
  match r with
  | Ok published =>
      effective_ns change = proposal_effective_ns p /\ proposal_effective_ns p <> _current_ns c /\
      _validate_proposal c p = Ok tt /\ c' = applied c p /\ controller_ok c' /\
      publish change (set_progress c true, w) = ((set_progress c true, w'), Ok published)
  | Err e => c' = c /\ (w' = w \/ (publish change (set_progress c true, w)).2 = Err e)
  end /\ _activation_in_progress c' = false.
Proof.
  intros Hg Hok Hidle Hp. apply proposal_init_inv in Hp as Hpos. destruct Hpos as [_ Hpos].
  unfold activate. destruct (activate_checks c p change) as [[]|e] eqn:Ech; [|by auto].
  assert (Hback : set_progress (set_progress c true) false = c).
  { unfold set_progress. destruct c. cbn in *. by rewrite Hidle. }
  pose proof (Hg change (set_progress c true) w eq_refl) as Hsame.
  destruct (publish change (set_progress c true, w)) as [[c1 w1] [published|e]]; cbn in Hsame; subst c1.
  2:{ cbn. rewrite Hback. by auto. }
  unfold activate_checks in Ech. apply raise_if_ok in Ech as [H1 Ech].
  apply raise_if_ok in Ech as [H2 Ech]. apply rbind_ok in Ech as (? & _ & Hv). bool_prop.
  apply validate_inv in Hv as Hv'. destruct Hv' as (_ & Hprev & _ & Hrec).
  rewrite apply_ok by done. unfold release. cbn [fst snd].
  assert (Eapp : set_progress (applied (set_progress c true) p) false = applied c p).
  { unfold set_progress, applied. cbn. by rewrite Hidle. }
  rewrite Eapp. split; [|done]. split; [done|]. split; [congruence|]. split; [done|].
  split; [done|]. split; [|done]. apply applied_ok; [done|done|done|].
  destruct (recovery_target_ns p) as [t|]; [|lia]. clear -Hp Hok.
  unfold proposal_init in Hp. apply rbind_ok in Hp as (? & _ & Hp). apply rbind_ok in Hp as (? & _ & Hp).
  apply rbind_ok in Hp as (? & _ & Hp). apply rbind_ok in Hp as (? & Hh & _).
  by apply ctl_nonnegative_inv in Hh as [_ Hh].
Qed.

(** ** Proposals are single use *)
Inductive op : Type :=
| MarkUnhealthy
| Commit (p : IntervalProposal)
| Activate (p : IntervalProposal) (change : IntervalChange)
    (publish : IntervalChange -> M (IntervalController * unit) PublishedIntervalChange).

Definition op_ok (o : op) : Prop :=
  match o with
  | Activate p _ publish => guarded publish
  | _ => True
  end.

Definition step (c : IntervalController) (o : op) : IntervalController :=
  match o with
  | MarkUnhealthy => (mark_unhealthy c).1
  | Commit p => (commit p c).1
  | Activate p change publish => (activate p change publish (c, tt)).1.1
  end.

Lemma step_revision c o : op_ok o -> _activation_in_progress c = false ->
  _activation_in_progress (step c o) = false /\ (step c o = c \/ _revision c < _revision (step c o)).
Proof.
  intros Ho Hidle. destruct o as [|p|p change publish]; cbn [step].
  - unfold mark_unhealthy, _require_not_activating. rewrite Hidle. cbn. split; [done|]. right. lia.
  - unfold commit. destruct (let! _ := _require_not_activating c in _) as [c'|] eqn:E; [|by auto].
    cbn. apply rbind_ok in E as (? & _ & E). apply raise_if_ok in E as [_ E].
    apply rbind_ok in E as (? & _ & E). unfold _apply_proposal in E.
    apply rbind_ok in E as (? & _ & [= <-]). cbn. split; [done|]. right. lia.
  - unfold activate. destruct (activate_checks c p change); [|by auto].
    pose proof (Ho change (set_progress c true) tt eq_refl) as Hsame.
    assert (Hback : set_progress (set_progress c true) false = c).
    { unfold set_progress. destruct c. cbn in *. by rewrite Hidle. }
    destruct (publish change (set_progress c true, tt)) as [[c1 []] [published|e]]; cbn in Hsame; subst c1;
      [|cbn; rewrite Hback; by auto].
    destruct (_apply_proposal (set_progress c true) p) as [c2|e] eqn:E; [|cbn; rewrite Hback; by auto].
    unfold _apply_proposal in E. apply rbind_ok in E as (? & _ & [= <-]). cbn. split; [done|]. right. lia.
Qed.

Lemma steps_revision ops : forall c, Forall op_ok ops -> _activation_in_progress c = false ->
  _revision c <= _revision (foldl step c ops) /\
  (_revision (foldl step c ops) = _revision c -> foldl step c ops = c).
Proof.
  induction ops as [|o ops IH]; intros c Hops Hidle; [done|].
  apply Forall_cons in Hops as [Ho Hops]. cbn [foldl].
  destruct (step_revision c o Ho Hidle) as [Hidle' Hs]. destruct (IH (step c o) Hops Hidle') as [H1 H2].
  destruct Hs as [Hs|Hs].
  - by rewrite Hs in H1, H2 |- *.
  - split; [lia|]. intros E. lia.
Qed.

(** A proposal is only ever applied to the state it was made for.  After any
    sequence of operations, failed ones included, a proposal made earlier passes the
    controller's validation only if the controller is unchanged since; so no
    proposal is applied twice and none overwrites another change. *)
Theorem proposal_applies_to_its_state (c : IntervalController) (p : IntervalProposal) (ops : list op) :
  Forall op_ok ops -> _activation_in_progress c = false ->
  (exists effective, propose_interval c effective = Ok p) \/
  (exists target id, propose_toward c target id = Ok p) ->
  _validate_proposal (foldl step c ops) p = Ok tt -> foldl step c ops = c.
Proof.
  intros Hops Hidle Hp Hv. apply validate_inv in Hv as (Hrev & _).
  apply (steps_revision ops c Hops Hidle). rewrite <- Hrev.
  destruct Hp as [(e & H)|(t & i & H)].
  - unfold propose_interval in H. apply rbind_ok in H as (? & _ & H). apply raise_if_ok in H as [_ H].
    apply proposal_init_inv in H as [-> _]. done.
  - unfold propose_toward in H. apply rbind_ok in H as (? & _ & H). apply rbind_ok in H as (? & _ & H).
    apply raise_if_ok in H as [_ H]. destruct (_recovery_transition c _).
    apply proposal_init_inv in H as [-> _]. done.
Qed.

(** ** Concrete runs *)
Module Samples.
Definition controller : IntervalController :=
  {| _current_ns := 4; _recovery_step := Dec 1 (-3); _healthy_refreshes_required := 2;
     _healthy_refreshes := 0; _last_refresh_id := None; _revision := 0;
     _activation_in_progress := false |}.
Definition published : PublishedIntervalChange :=
  {| published_event_id := "e";
     rest_intervals := {| RestModels.requested_ns := 1; RestModels.effective_ns := 1; change_event_id := None |};
     control := {| Domain.exchange := KRAKEN; market := None; instrument_key := None; wire_symbol := None;
       logical_stream := "_control"; native_channel := None; transport := INTERNAL; event_time_ns := None;
       event_time_source := None; integrity_mode := None; coverage := None; rest_metadata := None;
       payload := JNull |};
     degraded_sinks := [] |}.
(** A publisher whose sinks call back into the controller, in vain. *)
Definition publish (ch : IntervalChange) : M (IntervalController * unit) PublishedIntervalChange :=
  fun '(c, w) => (((mark_unhealthy c).1, w), Ok published).
(** [IntervalChangePublisher] with sinks that accept; it does not know the controller. *)
Definition real_publish (allowed : list MetricSeries) (ch : IntervalChange) : M (IntervalController * list call) PublishedIntervalChange :=
  fun '(c, w) => let '(w, r) := IntervalObs.publish (H := recorder (Ok tt) (Ok tt) (Ok tt) (Ok (Direct ACCEPTED))) allowed ch w in ((c, w), r).
Definition change_of (p : IntervalProposal) : IntervalChange :=
  {| event_id := "e"; exchange := KRAKEN; endpoint := "depth"; IntervalObs.requested_ns := 1;
     previous_effective_ns := proposal_previous_ns p; effective_ns := proposal_effective_ns p;
     healthy_egress_count := 1; affected_instrument_keys := ["BTC"]; cause := "recovered";
     direction := recover; config_sha256 := "" |}.
Definition stretch_proposal : IntervalProposal :=
  {| controller_revision := 0; proposal_previous_ns := 4; proposal_effective_ns := 9;
     healthy_refreshes := 0; refresh_id := None; recovery_target_ns := None |}.
End Samples.

Lemma sample_controller_ok : controller_ok Samples.controller.
Proof. by apply (controller_new_ok 4 (Finite (Dec 1 (-3))) 2). Qed.

Lemma publish_guarded : guarded Samples.publish.
Proof. intros ch c w Hc. cbn. by apply no_change_while_activating. Qed.

Lemma real_guarded allowed : guarded (Samples.real_publish allowed).
Proof. intros ch c w _. unfold Samples.real_publish. by destruct (IntervalObs.publish _ _ _). Qed.
(** From 4 to 2 with two healthy refreshes required; the last refreshes change nothing. *)
Definition recovering : (IntervalController * list call) * list (result unit) :=
  refreshes (Samples.real_publish [(KRAKEN, "depth")]) Samples.change_of 2 [1; 2; 3; 7] (Samples.controller, []).
Lemma recovering_succeeds : succeeded recovering.2 = 4%nat.
Proof. vm_compute. reflexivity. Qed.
(** The publisher refuses a series it does not know: nothing changes. *)
Example unknown_series : refreshes (Samples.real_publish [(KRAKEN, "trades")]) Samples.change_of 2 [1; 2; 3] (Samples.controller, [])
  = (({| _current_ns := 4; _recovery_step := Dec 1 (-3); _healthy_refreshes_required := 2; _healthy_refreshes := 1;
         _last_refresh_id := Some 1; _revision := 1; _activation_in_progress := false |}, []),
     [Ok tt; Err (ValueError "interval metric series is not registered"); Err (ValueError "interval metric series is not registered")]).
Proof. vm_compute. reflexivity. Qed.
Lemma recovery_converges_witness : _current_ns recovering.1.1 = 2 /\
  interval_of recovering.1.1 = Nat.iter 4 (step_from Samples.controller 2) (4, 0).
Proof.
  assert (H1 : 0 < 2) by lia. assert (H2 : 2 <= _current_ns Samples.controller) by (vm_compute; discriminate).
  assert (H3 : Forall (fun id => 0 <= id /\ refresh_seen Samples.controller id = false) [1; 2; 3; 7]) by (repeat constructor; lia).
  assert (H4 : StronglySorted Z.lt [1; 2; 3; 7]) by (repeat constructor; lia).
  pose proof (recovery_converges (Samples.real_publish [(KRAKEN, "depth")]) Samples.change_of (real_guarded _)
    (fun p => conj eq_refl eq_refl) Samples.controller [] 2 [1; 2; 3; 7] sample_controller_ok eq_refl H1 H2 H3 H4) as H.
  fold recovering in H. pose proof recovering_succeeds as Es. destruct recovering as [[c' w'] rs]. cbn [fst snd] in *.
  rewrite Es in H. destruct H as (_ & _ & Hi & _ & Hd). split; [|exact Hi]. apply Hd. vm_compute. discriminate.
Defined.

Lemma activate_atomic_witness :
  let '((c', w'), r) := activate Samples.stretch_proposal (Samples.change_of Samples.stretch_proposal)
    Samples.publish (Samples.controller, ()) in
  r = Ok Samples.published /\ c' = applied Samples.controller Samples.stretch_proposal /\
  _activation_in_progress c' = false.
Proof.
  pose proof (activate_atomic Samples.publish Samples.stretch_proposal
    (Samples.change_of Samples.stretch_proposal) Samples.controller () publish_guarded sample_controller_ok
    eq_refl eq_refl) as H.
  assert (E : activate Samples.stretch_proposal (Samples.change_of Samples.stretch_proposal)
    Samples.publish (Samples.controller, ())
    = ((applied Samples.controller Samples.stretch_proposal, ()), Ok Samples.published))
    by (vm_compute; reflexivity).
  rewrite E in H |- *. destruct H as ((_ & _ & _ & H1 & _) & H2). split; [reflexivity|]. split; [exact H1|exact H2].
Defined.

Lemma proposal_applies_to_its_state_witness :
  foldl step Samples.controller [Commit Samples.stretch_proposal] = Samples.controller.
Proof.
  apply (proposal_applies_to_its_state Samples.controller Samples.stretch_proposal
    [Commit Samples.stretch_proposal]).
  - repeat constructor.
  - reflexivity.
  - left. exists 9. vm_compute. reflexivity.
  - vm_compute. reflexivity.
Defined.
