(* ===== verification/Budgets.v ===== *)
(** What the scheduler of [scheduler/rest.py] asks of its budgets, as an interface, and
    the registry of token buckets of [network/rate_limit.py] as an implementation. *)
From S2P Require Import Prelude PyDecimal RateLimit.
From Stdlib Require Import Lqa.

(** ** The interface *)

(** What the scheduler asks of its budgets.  [can_hold b key cost]: the budget of
    [key] exists and its hard capacity holds [cost]. *)
Class Budgets (B : Type) : Type := {
  hard_capacity : B -> BudgetKey -> result dec;
  try_acquire_one : list BudgetKey -> dec -> Z -> M B (option BudgetKey);
  ready_at_ns : BudgetKey -> dec -> Z -> M B (option Z)
}.

Definition can_hold {B} `{Budgets B} (b : B) (key : BudgetKey) (cost : dec) : Prop :=
  exists c, hard_capacity b key = Ok c /\ dltb c cost = false /\ dleb cost dzero = false.

(** What it relies on.  [affords b key cost t]: the budget of [key] can pay [cost] at
    [t].  Calls on budgets that can hold the cost do not raise; the call that may
    draw on several keys grants the first that can pay; [ready_at_ns] of a key that
    was refused is the first instant at which its budget can pay; hard capacities stay, and a call that
    grants nothing leaves what the budgets can pay from then on. *)
Class BudgetLaws (B : Type) `{Budgets B} : Type := {
  budget_wf : B -> Prop;
  affords : B -> BudgetKey -> dec -> Z -> bool;
  unspent : Z -> B -> B -> Prop := fun now b b' =>
    budget_wf b' /\ (forall k c, can_hold b k c -> can_hold b' k c) /\
    (forall k c t, can_hold b k c -> now <= t -> affords b' k c t = affords b k c t);
  acquire_law : forall b keys cost now, budget_wf b -> keys <> [] -> 0 <= now ->
    Forall (fun k => can_hold b k cost) keys ->
    exists b', try_acquire_one keys cost now b
        = (b', Ok (find (fun k => affords b k cost now) keys)) /\ budget_wf b' /\
      (forall k c, can_hold b k c -> can_hold b' k c) /\
      (find (fun k => affords b k cost now) keys = None -> unspent now b b');
  ready_law : forall b key cost now, budget_wf b -> 0 <= now -> can_hold b key cost ->
    affords b key cost now = false -> exists b' r, ready_at_ns key cost now b = (b', Ok r) /\ unspent now b b' /\
      forall t, now <= t -> affords b' key cost t
        = match r with Some ready => ready <=? t | None => false end
}.

Section Unspent.
Context {B : Type} `{BL : BudgetLaws B}.

Lemma unspent_trans now (b1 b2 b3 : B) : unspent now b1 b2 -> unspent now b2 b3 -> unspent now b1 b3.
Proof.
  intros (W1 & C1 & A1) (W2 & C2 & A2). split_and!; [done|by eauto|].
  intros k c t Hk Ht. rewrite <- A1 by done. by apply A2; [apply C1|].
Qed.

Lemma unspent_refl now (b : B) : budget_wf b -> unspent now b b.
Proof. by intros Hb; split_and!. Qed.
End Unspent.

(** ** The registry as budgets *)
Module RegistryBudgets.
Import Registry RegistryFacts.

(** The scheduler passes every call its own instant and a [Decimal] cost. *)
#[export] Instance registry_budgets : Budgets Registry.t := {
  hard_capacity b key := let! bucket := Registry.bucket b key in Ok (_hard_capacity bucket);
  try_acquire_one keys cost now :=
    Registry.try_acquire_one keys (DDec (Finite cost)) (Some now) 0;
  ready_at_ns key cost now := Registry.ready_at_ns key (DDec (Finite cost)) (Some now) 0
}.

Definition registry_ok (s : Registry.t) : Prop :=
  map_Forall (fun _ => bucket_ok) (s : gmap BudgetKey TokenBucket).

(** [f] keeps a bucket well formed and its hard capacity. *)
Definition keeps {A} (f : TokenBucket -> result (TokenBucket * A)) : Prop :=
  forall b b' a, bucket_ok b -> f b = Ok (b', a) -> bucket_ok b' /\ _hard_capacity b' = _hard_capacity b.

(** [s'] has the buckets of [s], well formed and with their hard capacities. *)
Definition kept (s s' : Registry.t) : Prop :=
  registry_ok s' /\ forall k b, (s : gmap BudgetKey TokenBucket) !! k = Some b ->
    exists b', (s' : gmap BudgetKey TokenBucket) !! k = Some b' /\ _hard_capacity b' = _hard_capacity b.

Lemma kept_refl s : registry_ok s -> kept s s.
Proof. intros Hs. split; [done|]. intros k b Hb. by exists b. Qed.

Lemma kept_trans s1 s2 s3 : kept s1 s2 -> kept s2 s3 -> kept s1 s3.
Proof.
  intros [_ H1] [W H2]. split; [done|]. intros k b Hb. destruct (H1 k b Hb) as (b2 & Hb2 & E2).
  destruct (H2 k b2 Hb2) as (b3 & Hb3 & E3). exists b3. split; [done|congruence].
Qed.

Lemma validate_key_inv k k' : _validate_key k = Ok k' -> k' = k.
Proof. unfold _validate_key. destruct k as [[a b] c]. intros H. by inv_ok. Qed.

Lemma on_bucket_kept {A} key (f : TokenBucket -> result (TokenBucket * A)) s s' r :
  keeps f -> registry_ok s -> on_bucket key f s = (s', r) -> kept s s'.
Proof.
  intros Hf Hs. unfold on_bucket. destruct (bucket s key) as [b|] eqn:Eb.
  2:{ intros [= <- _]. by apply kept_refl. }
  destruct (f b) as [[b' a]|] eqn:Ef; intros [= <- _]; [|by apply kept_refl].
  unfold bucket in Eb. inv_ok.
  match goal with H : _validate_key key = Ok _ |- _ => apply validate_key_inv in H as -> end.
  destruct ((s : gmap BudgetKey TokenBucket) !! key) as [b0|] eqn:E0; [|done]. injection Eb as <-.
  destruct (Hf b0 b' a) as [H1 H2]; [by apply (map_Forall_lookup_1 _ _ _ _ Hs E0)|done|].
  split.
  - by apply map_Forall_insert_2.
  - intros k b1 Hb1. destruct (base.decide (k = key)) as [->|Hne].
    + exists b'. rewrite lookup_insert_eq. split; [done|congruence].
    + exists b1. by rewrite lookup_insert_ne.
Qed.

Lemma acquire_keeps cost now clock : keeps (fun b => RateLimit.try_acquire b cost now clock).
Proof. intros b b' a Hb H. by destruct (acquire_bounded _ _ _ _ _ _ Hb H) as (H1 & _ & H2 & _). Qed.

Lemma ready_keeps cost now clock : keeps (fun b => RateLimit.ready_at_ns b cost now clock).
Proof. intros b b' a Hb H. by destruct (ready_bounded _ _ _ _ _ _ Hb H) as (H1 & _ & H2 & _). Qed.

Lemma try_keys_kept keys cost now clock : forall seen s s' r,
  registry_ok s -> try_keys keys seen cost now clock s = (s', r) -> kept s s'.
Proof.
  induction keys as [|key keys IH]; intros seen s s' r Hs H; cbn [try_keys] in H.
  { injection H as <- _. by apply kept_refl. }
  unfold mbind at 1, mlift in H. destruct (_validate_key key) as [k|].
  2:{ injection H as <- _. by apply kept_refl. }
  case_bool_decide; [by eapply IH|]. unfold mbind in H.
  destruct (on_bucket k _ s) as [s1 [[]|e]] eqn:E;
    pose proof (on_bucket_kept _ _ _ _ _ (acquire_keeps _ _ _) Hs E) as Hk.
  - by injection H as <- _.
  - eapply kept_trans; [done|]. by eapply IH; [apply Hk|].
  - by injection H as <- _.
Qed.

(** *** What a bucket can pay *)
Lemma available_refill b now t : bucket_ok b -> now <= t ->
  (available (refill_to b now) t == available b t)%Q.
Proof.
  intros Hb Ht. pose proof (refill_tokens b now Hb) as Htok.
  destruct (refill_to_fields b now) as (F1 & _ & F3 & _ & F5).
  unfold available at 1. rewrite F1, F3, F5, Htok. unfold available.
  pose proof (rate_nonneg b (now - _last_refill_ns b) Hb) as H1.
  pose proof (rate_nonneg b (t - Z.max (_last_refill_ns b) now) Hb) as H2.
  set (cap := dval (_capacity b)) in *. set (x := dval (_tokens b)) in *.
  set (r := dval (_refill_per_second b)) in *.
  assert (E : (r * inject_Z (Z.max 0 (t - _last_refill_ns b)) / inject_Z 1000000000 ==
    r * inject_Z (Z.max 0 (now - _last_refill_ns b)) / inject_Z 1000000000 +
    r * inject_Z (Z.max 0 (t - Z.max (_last_refill_ns b) now)) / inject_Z 1000000000)%Q).
  { replace (Z.max 0 (t - _last_refill_ns b)) with (Z.max 0 (now - _last_refill_ns b)
      + Z.max 0 (t - Z.max (_last_refill_ns b) now)) by lia.
    rewrite inject_Z_plus. field. }
  rewrite E. clear E Htok. revert H1 H2. generalize (r * inject_Z (Z.max 0 (now - _last_refill_ns b)) / inject_Z 1000000000)%Q.
  intros d1. generalize (r * inject_Z (Z.max 0 (t - Z.max (_last_refill_ns b) now)) / inject_Z 1000000000)%Q.
  intros d2 H1 H2. destruct (Qlt_le_dec cap (x + d1)) as [H|H].
  - rewrite (Q.min_l cap (x + d1)), !Q.min_l by lra. reflexivity.
  - rewrite (Q.min_r cap (x + d1)) by lra.
    assert (E : (x + d1 + d2 == x + (d1 + d2))%Q) by ring. by rewrite E.
Qed.

Definition pays (s : Registry.t) (k : BudgetKey) (c : dec) (t : Z) : bool :=
  affordable s (DDec (Finite c)) t k.

Lemma pays_spec s k c t b d : bucket_ok b -> (s : gmap BudgetKey TokenBucket) !! k = Some b ->
  cost_input b (DDec (Finite c)) = Ok d -> pays s k c t = true <-> (dval d <= available b t)%Q.
Proof.
  intros Hb Hk Hd. unfold pays, affordable. rewrite Hk, Hd, negb_true_iff, <- (refill_tokens b t Hb).
  split; [apply dltb_false|]. intros H. apply not_true_is_false. rewrite dltb_spec. lra.
Qed.

Lemma can_hold_inv (s : Registry.t) k c : can_hold s k c ->
  _validate_key k = Ok k /\ exists b, (s : gmap BudgetKey TokenBucket) !! k = Some b /\
    cost_input b (DDec (Finite c)) = Ok c.
Proof.
  intros (h & Hh & Hle & Hpos). cbn in Hh. apply rbind_ok in Hh as (b & Hb & [= <-]).
  unfold bucket in Hb. apply rbind_ok in Hb as (k' & Hv & Hb).
  apply validate_key_inv in Hv as Ek. subst k'. split; [done|].
  destruct ((s : gmap BudgetKey TokenBucket) !! k) as [b0|]; [|done]. injection Hb as ->.
  exists b. split; [done|]. unfold cost_input, _decimal_input, deqb, dltb. rewrite Hpos. cbn.
  unfold dltb in Hle. destruct (dleb dzero c) eqn:E; cbn; [by rewrite Hle|].
  exfalso. apply not_true_iff_false in E, Hpos. rewrite dleb_spec in E, Hpos. lra.
Qed.

Lemma can_hold_kept (s s' : Registry.t) k c : kept s s' -> can_hold s k c -> can_hold s' k c.
Proof.
  intros [_ Hk] Hc. pose proof Hc as (h & Hh & Hle & Hpos). pose proof (can_hold_inv _ _ _ Hc) as (Hv & b & Hb & _).
  destruct (Hk k b Hb) as (b' & Hb' & E). exists h. split; [|done]. cbn in *. unfold bucket in *.
  rewrite Hv in *. cbn in *. rewrite Hb in Hh. rewrite Hb'. cbn in *. congruence.
Qed.


(** A store whose buckets were at most refilled to [now] pays as before. *)
Lemma pays_refilled (s s' : Registry.t) now k c t : registry_ok s -> now <= t ->
  (forall k b, (s : gmap BudgetKey TokenBucket) !! k = Some b ->
     exists b', (s' : gmap BudgetKey TokenBucket) !! k = Some b' /\ (b' = b \/ b' = refill_to b now)) ->
  can_hold s k c -> pays s' k c t = pays s k c t.
Proof.
  intros Hs Ht Href Hc. apply can_hold_inv in Hc as (Hv & b & Hb & Hcost).
  pose proof (map_Forall_lookup_1 _ _ _ _ Hs Hb) as Hok. cbn in Hok.
  destruct (Href k b Hb) as (b' & Hb' & [->| ->]).
  - unfold pays, affordable. by rewrite Hb, Hb'.
  - assert (Hcost' : cost_input (refill_to b now) (DDec (Finite c)) = Ok c).
    { unfold cost_input in *. destruct (refill_to_fields b now) as (_ & -> & _). done. }
    apply eq_true_iff_eq.
    rewrite (pays_spec s k c t b c) by done.
    rewrite (pays_spec s' k c t (refill_to b now) c) by (done || by apply refill_ok).
    by rewrite available_refill.
Qed.

Lemma acquire_refilled (s s' : Registry.t) cost now k b : charged s s' cost now None ->
  (s : gmap BudgetKey TokenBucket) !! k = Some b ->
  exists b', (s' : gmap BudgetKey TokenBucket) !! k = Some b' /\ (b' = b \/ b' = refill_to b now).
Proof.
  intros Hch Hb. destruct (Hch k b Hb) as (b' & Hb' & Hor).
  rewrite bool_decide_eq_false_2 in Hor by done. by exists b'.
Qed.

Lemma registry_acquire (s : Registry.t) keys cost now : registry_ok s -> keys <> [] -> 0 <= now ->
  Forall (fun k => can_hold s k cost) keys ->
  exists s', Budgets.try_acquire_one keys cost now s
      = (s', Ok (find (fun k => pays s k cost now) keys)) /\ kept s s' /\
    (find (fun k => pays s k cost now) keys = None -> forall k c t, can_hold s k c -> now <= t ->
       pays s' k c t = pays s k c t).
Proof.
  intros Hs Hne Hnow Hh. destruct keys as [|key keys]; [done|].
  destruct (try_keys_spec (key :: keys) s s [] (DDec (Finite cost)) now 0) as (s' & E & Hch); [done|done| | |constructor|].
  - eapply Forall_impl; [exact Hh|]. intros k Hk. apply can_hold_inv in Hk as (Hv & b & Hb & Hc).
    split; [done|]. by exists b, cost.
  - intros k. by rewrite bool_decide_eq_false_2 by apply not_elem_of_nil.
  - exists s'. split; [exact E|]. split; [by eapply try_keys_kept|]. intros Hnone k c t Hc Ht.
    change (find (affordable s (DDec (Finite cost)) now) (key :: keys) = None) in Hnone.
    rewrite Hnone in Hch. apply (pays_refilled s s' now); [done..| |done]. intros k' b Hb. by eapply acquire_refilled.
Qed.

Lemma registry_ready (s : Registry.t) key cost now : registry_ok s -> 0 <= now ->
  can_hold s key cost -> pays s key cost now = false ->
  exists s' r, Budgets.ready_at_ns key cost now s = (s', Ok r) /\ kept s s' /\
    (forall k c t, can_hold s k c -> now <= t -> pays s' k c t = pays s k c t) /\
    forall t, now <= t -> pays s' key cost t = match r with Some ready => ready <=? t | None => false end.
Proof.
  intros Hs Hnow Hc Hno. pose proof (can_hold_inv _ _ _ Hc) as (Hv & b & Hb & Hcost).
  pose proof (map_Forall_lookup_1 _ _ _ _ Hs Hb) as Hok. cbn in Hok.
  destruct (ready_at_spec b (DDec (Finite cost)) cost now 0 Hok Hcost Hnow) as (r & E & Hr).
  set (b' := refill_to b now) in *.
  assert (Eon : Registry.ready_at_ns key (DDec (Finite cost)) (Some now) 0 s
    = (<[key := b']> (s : gmap BudgetKey TokenBucket), Ok r)) by by apply (on_bucket_ok s key b).
  eexists _, r. split; [exact Eon|]. split; [by eapply on_bucket_kept; [apply ready_keeps|..]|].
  assert (Hsame : forall k c t, can_hold s k c -> now <= t ->
    pays (<[key := b']> (s : gmap BudgetKey TokenBucket)) k c t = pays s k c t).
  { intros k c t Hk Ht. apply (pays_refilled s _ now); [done|done| |done]. intros k' b1 Hb1.
    destruct (base.decide (k' = key)) as [->|Hne].
    - exists b'. rewrite lookup_insert_eq. split; [done|]. right. unfold b'. congruence.
    - exists b1. rewrite lookup_insert_ne by done. split; [done|by left]. }
  split; [done|]. intros t Ht. rewrite Hsame by done.
  pose proof (refill_ok b now Hok) as Hok'. pose proof (refill_to_fields b now) as (_ & F2 & _ & _ & F5).
  assert (Hcost' : cost_input b' (DDec (Finite cost)) = Ok cost).
  { unfold cost_input in *. unfold b'. by rewrite F2. }
  assert (Hpay : forall u, now <= u -> pays s key cost u = true <-> (dval cost <= available b' u)%Q).
  { intros u Hu. rewrite (pays_spec s key cost u b cost) by done. unfold b'. by rewrite available_refill. }
  apply eq_true_iff_eq. rewrite Hpay by done.
  destruct (Z.le_gt_cases (_last_refill_ns b') t) as [Hl|Hl].
  - rewrite <- (try_acquire_some b' (DDec (Finite cost)) cost t 0) by (done || lia). rewrite Hr by done.
    destruct r; [by rewrite Z.leb_le|done].
  - assert (Hflat : forall u, u <= _last_refill_ns b' ->
      (available b' u == available b' (_last_refill_ns b'))%Q).
    { intros u Hu. unfold available. by rewrite !Z.max_l by lia. }
    assert (Hpoor : ~ (dval cost <= available b' (_last_refill_ns b'))%Q).
    { rewrite <- (Hflat now), <- Hpay by lia. by rewrite Hno. }
    rewrite Hflat by lia. split; [done|]. destruct r as [ready|]; [|done]. intros Hle%Z.leb_le.
    exfalso. apply Hpoor. pose proof (bo_last _ Hok').
    rewrite <- (try_acquire_some b' (DDec (Finite cost)) cost _ 0) by done. apply Hr; lia.
Qed.

#[export] Instance registry_laws : BudgetLaws Registry.t.
Proof.
  refine {| budget_wf := registry_ok; affords := pays |}.
  - intros b keys cost now Hb Hne Hnow Hh.
    destruct (registry_acquire b keys cost now Hb Hne Hnow Hh) as (b' & E & Hk & Ha).
    exists b'. split; [done|]. split; [apply Hk|]. split; [intros k c; by apply can_hold_kept|].
    intros Hnone. split; [apply Hk|]. split; [intros k c; by apply can_hold_kept|by apply Ha].
  - intros b key cost now Hb Hnow Hc Hno.
    destruct (registry_ready b key cost now Hb Hnow Hc Hno) as (b' & r & E & Hk & Ha & Hr).
    exists b', r. split; [done|]. split; [|done]. split; [apply Hk|].
    split; [intros k c; by apply can_hold_kept|done].
Defined.
End RegistryBudgets.
