(* ===== verification/RestScheduler.v ===== *)
(** [scheduler/rest.py], second half: the scheduler of REST jobs.  Its budgets are
    an interface, which the registry of token buckets implements.  A heap is the
    sorted list of its entries, which is all [heappush], [heappop] and [heapify]
    let a client see; the clock reading of a call is an argument of it.  The
    asynchronous waiting of [next_ready] is modelled up to the wait itself. *)
From S2P Require Import Prelude PyDecimal RateLimit Domain RestModels Budgets.

(** ** State *)
Inductive SubmitResult : Type :=
| ENQUEUED | REPLACED | STALE_IGNORED | IDEMPOTENT | EVICTED_AND_ENQUEUED | EXPIRED.

Record _Pending : Type := { p_job : RestJob; p_sequence : Z }.

(** Heap entries [(time or priority, sequence, id)]. *)
Definition entry : Type := (Z * Z) * string.
Definition entry_leb : entry -> entry -> bool :=
  lex_leb (fun a b => (a.1 =? b.1) && (a.2 =? b.2)) (lex_leb Z.eqb Z.leb Z.leb) string_leb.

Definition heappush (e : entry) (h : list entry) : list entry := insert_sorted entry_leb e h.
Definition heapify (h : list entry) : list entry := py_sorted entry_leb h.
Definition entry_id (e : entry) : string := e.2.

Record RestScheduler (B : Type) : Type := {
  budgets : B; max_pending : Z; history_limit : Z; last_now_ns : Z; sequence : Z;
  jobs : gmap string _Pending; logical_index : gmap (list string) string;
  future : list entry; ready : list entry; expired : list string; evicted : list string;
  next_budget_ready_ns : option Z; revision : Z; changed : bool; closed : bool
}.
Arguments budgets {B}. Arguments max_pending {B}. Arguments history_limit {B}.
Arguments last_now_ns {B}. Arguments sequence {B}. Arguments jobs {B}.
Arguments logical_index {B}. Arguments future {B}. Arguments ready {B}.
Arguments expired {B}. Arguments evicted {B}. Arguments next_budget_ready_ns {B}.
Arguments revision {B}. Arguments changed {B}. Arguments closed {B}.
Arguments Build_RestScheduler {B}.

Definition _MAX_SCHEDULER_COLLECTION_ITEMS : Z := 1000000.

Definition _bounded_collection_size (value : Z) (field : string) : result Z :=
  raise ValueError (field +:+ " must be a positive integer") when value <=? 0;;
  raise ValueError (field +:+ " must not exceed 1000000")
    when _MAX_SCHEDULER_COLLECTION_ITEMS <? value;;
  Ok value.

Definition scheduler_new {B} (budgets : B) (max_pending max_history clock_ns : Z)
    : result (RestScheduler B) :=
  let! max_pending := _bounded_collection_size max_pending "max_pending" in
  let! history := _bounded_collection_size max_history "max_history" in
  let! now := _nonnegative_int clock_ns "clock.monotonic_ns()" in
  Ok {| RestScheduler.budgets := budgets; RestScheduler.max_pending := max_pending;
        history_limit := history; last_now_ns := now; sequence := 0; jobs := ∅;
        logical_index := ∅; future := []; ready := []; expired := []; evicted := [];
        next_budget_ready_ns := None; revision := 0; changed := false; closed := false |}.

Section Scheduler.
Context {B : Type} `{Budgets B}.
Implicit Types s : RestScheduler B.

(** *** Assignments of one or several attributes *)
Definition set_budgets s (b : B) : RestScheduler B :=
  {| budgets := b; max_pending := max_pending s; history_limit := history_limit s;
     last_now_ns := last_now_ns s; sequence := sequence s; jobs := jobs s;
     logical_index := logical_index s; future := future s; ready := ready s;
     expired := expired s; evicted := evicted s; next_budget_ready_ns := next_budget_ready_ns s;
     revision := revision s; changed := changed s; closed := closed s |}.
Definition set_last_now s (now : Z) : RestScheduler B :=
  {| budgets := budgets s; max_pending := max_pending s; history_limit := history_limit s;
     last_now_ns := now; sequence := sequence s; jobs := jobs s;
     logical_index := logical_index s; future := future s; ready := ready s;
     expired := expired s; evicted := evicted s; next_budget_ready_ns := next_budget_ready_ns s;
     revision := revision s; changed := changed s; closed := closed s |}.
Definition set_tables s (j : gmap string _Pending) (l : gmap (list string) string)
    (f r : list entry) : RestScheduler B :=
  {| budgets := budgets s; max_pending := max_pending s; history_limit := history_limit s;
     last_now_ns := last_now_ns s; sequence := sequence s; jobs := j; logical_index := l;
     future := f; ready := r; expired := expired s; evicted := evicted s;
     next_budget_ready_ns := next_budget_ready_ns s; revision := revision s;
     changed := changed s; closed := closed s |}.
Definition set_heaps s (f r : list entry) : RestScheduler B :=
  set_tables s (jobs s) (logical_index s) f r.
Definition set_history s (ex ev : list string) : RestScheduler B :=
  {| budgets := budgets s; max_pending := max_pending s; history_limit := history_limit s;
     last_now_ns := last_now_ns s; sequence := sequence s; jobs := jobs s;
     logical_index := logical_index s; future := future s; ready := ready s;
     expired := ex; evicted := ev; next_budget_ready_ns := next_budget_ready_ns s;
     revision := revision s; changed := changed s; closed := closed s |}.
Definition set_sequence s (n : Z) : RestScheduler B :=
  {| budgets := budgets s; max_pending := max_pending s; history_limit := history_limit s;
     last_now_ns := last_now_ns s; sequence := n; jobs := jobs s;
     logical_index := logical_index s; future := future s; ready := ready s;
     expired := expired s; evicted := evicted s; next_budget_ready_ns := next_budget_ready_ns s;
     revision := revision s; changed := changed s; closed := closed s |}.
Definition set_next_budget s (n : option Z) : RestScheduler B :=
  {| budgets := budgets s; max_pending := max_pending s; history_limit := history_limit s;
     last_now_ns := last_now_ns s; sequence := sequence s; jobs := jobs s;
     logical_index := logical_index s; future := future s; ready := ready s;
     expired := expired s; evicted := evicted s; next_budget_ready_ns := n;
     revision := revision s; changed := changed s; closed := closed s |}.

(** [self._revision += 1; self._changed.set()] *)
Definition bump s : RestScheduler B :=
  {| budgets := budgets s; max_pending := max_pending s; history_limit := history_limit s;
     last_now_ns := last_now_ns s; sequence := sequence s; jobs := jobs s;
     logical_index := logical_index s; future := future s; ready := ready s;
     expired := expired s; evicted := evicted s; next_budget_ready_ns := next_budget_ready_ns s;
     revision := revision s + 1; changed := true; closed := closed s |}.
Definition close_now s : RestScheduler B :=
  {| budgets := budgets s; max_pending := max_pending s; history_limit := history_limit s;
     last_now_ns := last_now_ns s; sequence := sequence s; jobs := jobs s;
     logical_index := logical_index s; future := future s; ready := ready s;
     expired := expired s; evicted := evicted s; next_budget_ready_ns := next_budget_ready_ns s;
     revision := revision s + 1; changed := true; closed := true |}.

(** [deque.append] with a [maxlen]. *)
Definition deque_append (limit : Z) (l : list string) (x : string) : list string :=
  let l := l ++ [x] in drop (length l - Z.to_nat limit) l.
Definition record_expired s (id : string) : RestScheduler B :=
  set_history s (deque_append (history_limit s) (expired s) id) (evicted s).
Definition record_evicted s (id : string) : RestScheduler B :=
  set_history s (expired s) (deque_append (history_limit s) (evicted s) id).

(** *** Reading *)
Definition physical_heap_entries s : Z := Z.of_nat (length (future s) + length (ready s)).

(** [self._jobs.values()] in the order of submission. *)
Definition by_sequence (a b : _Pending) : bool := p_sequence a <=? p_sequence b.
Definition pending_values s : list _Pending := py_sorted by_sequence (map_to_list (jobs s)).*2.
Definition pending_ids s : list string := (fun p => job_id (p_job p)) <$> pending_values s.

Definition _now_ns (clock_ns : Z) : M (RestScheduler B) Z := fun s =>
  match _nonnegative_int clock_ns "clock.monotonic_ns()" with
  | Err e => (s, Err e)
  | Ok observed =>
      let now := Z.max (last_now_ns s) observed in (set_last_now s now, Ok now)
  end.

Definition close s : RestScheduler B := if closed s then s else close_now s.
Definition notify_resources_changed s : RestScheduler B := if closed s then s else bump s.

(** *** Removing jobs *)
Definition job_expired (now : Z) (j : RestJob) : bool :=
  match deadline_ns j with Some d => d <? now | None => false end.

(** [if logical_key is not None and index.get(logical_key) == id: del index[...]] *)
Definition unindex (l : gmap (list string) string) (p : _Pending) (id : string)
    : gmap (list string) string :=
  match logical_key (p_job p) with
  | Some k => if bool_decide (l !! k = Some id) then delete k l else l
  | None => l
  end.

Definition without (ids : list string) (h : list entry) : list entry :=
  filter (fun e => entry_id e ∉ ids) h.

Definition _remove_pending (id : string) : M (RestScheduler B) unit := fun s =>
  match jobs s !! id with
  | None => (s, Err (KeyError id))
  | Some p =>
      (set_tables s (delete id (jobs s)) (unindex (logical_index s) p id)
         (heapify (without [id] (future s))) (heapify (without [id] (ready s))), Ok tt)
  end.

Definition _complete_pending s (p : _Pending) : RestScheduler B :=
  let id := job_id (p_job p) in
  set_tables s (delete id (jobs s)) (unindex (logical_index s) p id) (future s) (ready s).

Definition _expire (p : _Pending) : M (RestScheduler B) unit :=
  do! _ := _remove_pending (job_id (p_job p)) in
  fun s => (record_expired s (job_id (p_job p)), Ok tt).

(** One pass of the loop of [_expire_all]. *)
Definition drop_expired s (p : _Pending) : RestScheduler B :=
  let id := job_id (p_job p) in
  record_expired (set_tables s (delete id (jobs s)) (unindex (logical_index s) p id)
                    (future s) (ready s)) id.

Definition expired_values s (now : Z) : list _Pending :=
  filter (fun p => job_expired now (p_job p) = true) (pending_values s).

Definition _expire_all s (now : Z) : RestScheduler B * Z :=
  let gone := expired_values s now in
  if bool_decide (gone = []) then (s, 0)
  else
    let ids := (fun p => job_id (p_job p)) <$> gone in
    let s := foldl drop_expired s gone in
    (set_heaps s (heapify (without ids (future s))) (heapify (without ids (ready s))),
     Z.of_nat (length gone)).

(** *** [submit_nowait] *)
Definition _eviction_candidate s (incoming : RestJob) : option string :=
  if replaceable incoming then None
  else
    let candidates := filter (fun p => replaceable (p_job p) = true /\
      priority_value (priority incoming) < priority_value (priority (p_job p))) (pending_values s) in
    let key_leb := fun p q => lex_leb Z.eqb Z.leb Z.leb
      (priority_value (priority (p_job p)), p_sequence p)
      (priority_value (priority (p_job q)), p_sequence q) in
    match py_sorted (fun p q => key_leb q p) candidates with
    | [] => None
    | p :: _ => Some (job_id (p_job p))
    end.

(** The budget checks of a submission. *)
Fixpoint check_budgets (b : B) (keys : list BudgetKey) (cost : dec) : result () :=
  match keys with
  | [] => Ok tt
  | key :: keys =>
      let! capacity := hard_capacity b key in
      raise CapacityError "job endpoint cost exceeds a route budget hard capacity"
        when dltb capacity cost;;
      check_budgets b keys cost
  end.

(** The pending job a replaceable one stands in for: [inl] decides the call. *)
Definition find_replaced s (j : RestJob) : result (SubmitResult + option string) :=
  if replaceable j then
    match logical_key j with
    | None => Err (ValueError "replaceable jobs require a logical key")
    | Some k =>
        match logical_index s !! k with
        | None => Ok (inr None)
        | Some replaced_id =>
            match jobs s !! replaced_id with
            | None => Err (KeyError replaced_id)
            | Some replaced =>
                if scheduled_ns j <? scheduled_ns (p_job replaced) then Ok (inl STALE_IGNORED)
                else
                  raise ValueError "conflicting jobs share one logical occurrence"
                    when scheduled_ns j =? scheduled_ns (p_job replaced);;
                  Ok (inr (Some replaced_id))
            end
        end
    end
  else Ok (inr None).

(** Makes room: evicts a job when the table is full, then drops the replaced one. *)
Definition make_room (j : RestJob) (replaced : option string) : M (RestScheduler B) SubmitResult :=
  fun s =>
  match replaced with
  | Some id => (do! _ := _remove_pending id in mret REPLACED) s
  | None =>
      if max_pending s <=? Z.of_nat (size (jobs s)) then
        match _eviction_candidate s j with
        | None => (s, Err (CapacityError "REST scheduler pending capacity is exhausted"))
        | Some id =>
            (do! _ := _remove_pending id in
             fun s => (record_evicted s id, Ok EVICTED_AND_ENQUEUED)) s
        end
      else (s, Ok ENQUEUED)
  end.

(** Enters the job under the next sequence number. *)
Definition enqueue s (j : RestJob) (now : Z) : RestScheduler B :=
  let s := set_sequence s (sequence s + 1) in
  let seq := sequence s in
  let table := <[job_id j := {| p_job := j; p_sequence := seq |}]> (jobs s) in
  let index := match logical_key j with
    | Some k => if replaceable j then <[k := job_id j]> (logical_index s) else logical_index s
    | None => logical_index s
    end in
  bump
    (if ready_monotonic_ns j <=? now then
       set_tables s table index (future s)
         (heappush ((priority_value (priority j), seq), job_id j) (ready s))
     else
       set_tables s table index
         (heappush ((ready_monotonic_ns j, seq), job_id j) (future s)) (ready s)).

(** What follows once the clock was read. *)
Definition admit_at (j : RestJob) (replaced : option string) (now : Z)
    : M (RestScheduler B) SubmitResult := fun s =>
  if job_expired now j then
    (do! _ := (match replaced with
               | Some id => do! _ := _remove_pending id in fun s => (bump s, Ok tt)
               | None => mret tt
               end) in
     fun s => (record_expired s (job_id j), Ok EXPIRED)) s
  else
    let '(s, expired_count) := _expire_all s now in
    let s := if 0 <? expired_count then bump s else s in
    let replaced := match replaced with
      | Some id => if bool_decide (jobs s !! id = None) then None else Some id
      | None => None
      end in
    (do! r := make_room j replaced in fun s => (enqueue s j now, Ok r)) s.

Definition submit_nowait (j : RestJob) (clock_ns : Z) : M (RestScheduler B) SubmitResult := fun s =>
  if closed s then (s, Err (SchedulerClosed "REST scheduler is closed"))
  else
    match jobs s !! job_id j with
    | Some existing =>
        if job_eqb (p_job existing) j then (s, Ok IDEMPOTENT)
        else (s, Err (ValueError "job id is already pending"))
    | None =>
        match check_budgets (budgets s) (budget_keys j) (endpoint_cost j) with
        | Err e => (s, Err e)
        | Ok _ =>
            match find_replaced s j with
            | Err e => (s, Err e)
            | Ok (inl r) => (s, Ok r)
            | Ok (inr replaced) =>
                (do! now := _now_ns clock_ns in admit_at j replaced now) s
            end
        end
    end.

(** *** [_next_ready] *)

(** The pending job of an entry, unless the entry is stale. *)
Definition live s (e : entry) : option _Pending :=
  match jobs s !! entry_id e with
  | Some p => if p_sequence p =? e.1.2 then Some p else None
  | None => None
  end.

(** The loop of [_promote_ready]; every pass takes one entry off [future]. *)
Fixpoint promote_loop (fuel : nat) (now : Z) : M (RestScheduler B) unit := fun s =>
  match fuel, future s with
  | S fuel, e :: rest =>
      if e.1.1 <=? now then
        let s := set_heaps s rest (ready s) in
        match live s e with
        | None => promote_loop fuel now s
        | Some p =>
            if job_expired now (p_job p) then
              (do! _ := _expire p in promote_loop fuel now) s
            else
              promote_loop fuel now
                (set_heaps s (future s)
                   (heappush ((priority_value (priority (p_job p)), e.1.2), entry_id e) (ready s)))
        end
      else (s, Ok tt)
  | _, _ => (s, Ok tt)
  end.

Definition _promote_ready (now : Z) : M (RestScheduler B) unit := fun s =>
  promote_loop (length (future s)) now s.

Definition _eligible_routes (j : RestJob) : list RestBudgetRoute :=
  match generation_source j with
  | None => routes j
  | Some source => filter (fun r => egress_id source = Some (route_egress_id r)) (routes j)
  end.

Definition min_opt (a : option Z) (b : Z) : Z := match a with None => b | Some a => Z.min a b end.

(** The [ready_at_ns] calls for the keys that were refused. *)
Fixpoint earliest_ready (keys : list BudgetKey) (cost : dec) (now : Z) (acc : option Z)
    : M (RestScheduler B) (option Z) := fun s =>
  match keys with
  | [] => (s, Ok acc)
  | key :: keys =>
      match ready_at_ns key cost now (budgets s) with
      | (b, Err e) => (set_budgets s b, Err e)
      | (b, Ok ready_at) =>
          earliest_ready keys cost now
            (match ready_at with Some r => Some (min_opt acc r) | None => acc end) (set_budgets s b)
      end
  end.

(** What the loop of [_next_ready] carries and where it ends. *)
Record Scan : Type := {
  blocked : list entry; blocked_budgets : list BudgetKey; scan_ready_ns : option Z
}.

(** The loop of [_next_ready]; every pass takes one entry off [ready]. *)
Fixpoint select_loop (fuel : nat) (now : Z) (scan : Scan)
    : M (RestScheduler B) (option RestDispatch * Scan) := fun s =>
  match fuel, ready s with
  | S fuel, e :: rest =>
      let s := set_heaps s (future s) rest in
      match live s e with
      | None => select_loop fuel now scan s
      | Some p =>
          let j := p_job p in
          if job_expired now j then (do! _ := _expire p in select_loop fuel now scan) s
          else
            let eligible := _eligible_routes j in
            let available_keys := filter (fun k => k ∉ blocked_budgets scan)
                                    (fromkeys [] (budget_key <$> eligible)) in
            let block (keys : list BudgetKey) (r : option Z) :=
              {| blocked := blocked scan ++ [e]; blocked_budgets := blocked_budgets scan ++ keys;
                 scan_ready_ns := r |} in
            match available_keys with
            | [] => select_loop fuel now (block [] (scan_ready_ns scan)) s
            | _ =>
                match try_acquire_one available_keys (endpoint_cost j) now (budgets s) with
                | (b, Err err) => (set_budgets s b, Err err)
                | (b, Ok None) =>
                    (do! r := earliest_ready available_keys (endpoint_cost j) now (scan_ready_ns scan) in
                     select_loop fuel now (block available_keys r)) (set_budgets s b)
                | (b, Ok (Some selected_key)) =>
                    let s := _complete_pending (set_budgets s b) p in
                    match find (fun r => bool_decide (budget_key r = selected_key)) eligible with
                    | None => (s, Err (RuntimeError "StopIteration"))
                    | Some route =>
                        (s, let! d := dispatch_init j route now in Ok (Some d, scan))
                    end
                end
            end
      end
  | _, _ => (s, Ok (None, scan))
  end.

Definition _next_ready (clock_ns : Z) : M (RestScheduler B) (option RestDispatch) := fun s =>
  if closed s then (s, Err (SchedulerClosed "REST scheduler is closed"))
  else
    (do! now := _now_ns clock_ns in
     fun s =>
     let '(s, _) := _expire_all s now in
     (do! _ := _promote_ready now in
      fun s =>
      (do! found := select_loop (length (ready s)) now
                      {| blocked := []; blocked_budgets := []; scan_ready_ns := None |} in
       fun s =>
       let '(selected, scan) := found in
       let s := set_heaps s (future s) (foldl (fun h e => heappush e h) (ready s) (blocked scan)) in
       (set_next_budget s (scan_ready_ns scan), Ok selected)) s) s) s.

Definition _next_wait_deadline_ns s (now : Z) : option Z :=
  let budget := match next_budget_ready_ns s with Some r => [Z.max now r] | None => [] end in
  let head := match future s with e :: _ => [Z.max now e.1.1] | [] => [] end in
  let wakes := omap (fun p => (fun d => d + 1) <$> deadline_ns (p_job p)) (pending_values s) in
  match budget ++ head ++ wakes with
  | [] => None
  | c :: cs => Some (foldl Z.min c cs)
  end.

(** One turn of the loop of [next_ready], up to the wait it ends in.  The two clock
    readings are those of the two calls of [_now_ns]. *)
Inductive Pass : Type :=
| Dispatched (d : RestDispatch)
| Again
| WaitUntil (deadline_ns : option Z) (now_ns : Z).

Definition clear_changed s : RestScheduler B :=
  {| budgets := budgets s; max_pending := max_pending s; history_limit := history_limit s;
     last_now_ns := last_now_ns s; sequence := sequence s; jobs := jobs s;
     logical_index := logical_index s; future := future s; ready := ready s;
     expired := expired s; evicted := evicted s; next_budget_ready_ns := next_budget_ready_ns s;
     revision := revision s; changed := false; closed := closed s |}.

Definition next_ready_pass (clock_ns clock_ns' : Z) : M (RestScheduler B) Pass := fun s =>
  if closed s then (s, Err (SchedulerClosed "REST scheduler is closed"))
  else
    (do! selected := _next_ready clock_ns in
     match selected with
     | Some d => mret (Dispatched d)
     | None =>
         do! now := _now_ns clock_ns' in
         fun s =>
         let deadline_ns := _next_wait_deadline_ns s now in
         let observed := revision s in
         let s := clear_changed s in
         if observed =? revision s then (s, Ok (WaitUntil deadline_ns now)) else (s, Ok Again)
     end) s.
End Scheduler.

(** ** The order of heap entries *)
#[export] Instance entry_order : LebOrder entry_leb.
Proof.
  apply lex_leb_order; [| |apply lex_leb_order|apply string_leb_order].
  - intros [a b] [c d]. cbn. rewrite andb_true_iff, !Z.eqb_eq. naive_solver.
  - intros [a b] [c d]. unfold lex_leb. cbn.
    destruct (Z.eqb_spec a c), (Z.eqb_spec c a); subst; try done; intros; f_equal; lia.
  - intros x y. apply Z.eqb_eq.
  - intros x y. lia.
  - apply Zleb_order.
  - apply Zleb_order.
Qed.

Lemma entry_antisym x y : entry_leb x y = true -> entry_leb y x = true -> x = y.
Proof.
  destruct x as [[a b] i], y as [[c d] k]. unfold entry_leb, lex_leb. cbn.
  destruct (Z.eqb_spec a c), (Z.eqb_spec c a), (Z.eqb_spec b d), (Z.eqb_spec d b); subst; cbn; try lia.
  intros H1 H2. f_equal. by apply string_leb_antisym.
Qed.

Lemma heappush_sorted e h :
  StronglySorted (fun x y => entry_leb x y = true) h ->
  StronglySorted (fun x y => entry_leb x y = true) (heappush e h).
Proof. apply insert_sorted_sorted. apply _. Qed.

Lemma heapify_without ids h :
  StronglySorted (fun x y => entry_leb x y = true) h -> heapify (without ids h) = without ids h.
Proof. intros Hs. apply sorted_id. by apply StronglySorted_filter'. Qed.

(** Pushing back what was popped in order restores the heap. *)
Lemma push_back bl : forall h,
  StronglySorted (fun x y => entry_leb x y = true) (bl ++ h) ->
  foldl (fun h e => heappush e h) h bl = bl ++ h.
Proof.
  intros h Hs. apply (sorted_unique entry_leb).
  - intros x y _ _. apply entry_antisym.
  - assert (Hh : StronglySorted (fun x y => entry_leb x y = true) h).
    { clear -Hs. induction bl as [|b bl IH]; [done|]. apply IH. by apply StronglySorted_inv in Hs as [Hs _]. }
    clear Hs. revert h Hh. induction bl as [|b bl IH]; intros h Hh; [done|]. apply IH. by apply heappush_sorted.
  - done.
  - clear Hs. revert h. induction bl as [|b bl IH]; intros h; [done|]. cbn [foldl].
    rewrite IH. unfold heappush. rewrite insert_sorted_perm. symmetry. apply Permutation_middle.
Qed.

(** ** The invariant *)

(** Every job is filed under its id, sequence numbers are distinct and used up, and
    the logical index holds exactly the replaceable jobs. *)
Record tables_ok (j : gmap string _Pending) (l : gmap (list string) string) (n : Z) : Prop := {
  t_id : forall i p, j !! i = Some p -> job_id (p_job p) = i;
  t_seq : forall i p, j !! i = Some p -> 0 < p_sequence p <= n;
  t_unique : forall i i' p p', j !! i = Some p -> j !! i' = Some p' ->
    p_sequence p = p_sequence p' -> i = i';
  t_index : forall k i, l !! k = Some i <->
    exists p, j !! i = Some p /\ replaceable (p_job p) = true /\ logical_key (p_job p) = Some k
}.

(** An entry of the future or of the ready heap stands for its job; that of the
    ready heap was due by the clock reading [n]. *)
Definition future_entry (j : gmap string _Pending) (e : entry) : Prop :=
  exists p, j !! entry_id e = Some p /\ e.1 = (ready_monotonic_ns (p_job p), p_sequence p).
Definition ready_entry (n : Z) (j : gmap string _Pending) (e : entry) : Prop :=
  exists p, j !! entry_id e = Some p /\
    e.1 = (priority_value (priority (p_job p)), p_sequence p) /\ ready_monotonic_ns (p_job p) <= n.

(** Every job is in exactly one of the heaps, once; both are heaps. *)
Record heaps_ok (n : Z) (j : gmap string _Pending) (f r : list entry) : Prop := {
  h_future : Forall (future_entry j) f;
  h_ready : Forall (ready_entry n j) r;
  h_nodup : NoDup (entry_id <$> f ++ r);
  h_all : forall i, is_Some (j !! i) -> i ∈ entry_id <$> f ++ r;
  h_fsorted : StronglySorted (fun x y => entry_leb x y = true) f;
  h_rsorted : StronglySorted (fun x y => entry_leb x y = true) r
}.

(** A job the budgets can serve. *)
Definition fits {B} `{Budgets B} (b : B) (j : RestJob) : Prop :=
  job_ok j /\ routes j <> [] /\
  Forall (fun k => can_hold b k (endpoint_cost j)) (budget_key <$> routes j).

Record sched_ok {B} `{BudgetLaws B} (s : RestScheduler B) : Prop := {
  s_tables : tables_ok (jobs s) (logical_index s) (sequence s);
  s_heaps : heaps_ok (last_now_ns s) (jobs s) (future s) (ready s);
  s_fits : forall i p, jobs s !! i = Some p -> fits (budgets s) (p_job p);
  s_size : Z.of_nat (size (jobs s)) <= max_pending s;
  s_max : 0 < max_pending s /\ 0 < history_limit s;
  s_history : Z.of_nat (length (expired s)) <= history_limit s /\
              Z.of_nat (length (evicted s)) <= history_limit s;
  s_budgets : budget_wf (budgets s);
  s_now : 0 <= last_now_ns s /\ 0 <= sequence s
}.

Lemma scheduler_new_ok {B} `{BudgetLaws B} (b : B) max hist clock s :
  budget_wf b -> scheduler_new b max hist clock = Ok s -> sched_ok s.
Proof.
  intros Hb Hs. unfold scheduler_new, _bounded_collection_size in Hs. inv_ok.
  match goal with E : _nonnegative_int _ _ = Ok _ |- _ => apply nonnegative_int_inv in E as [-> E] end.
  bool_prop. split; cbn; try done; try lia.
  - split; intros; try (by rewrite lookup_empty in *). rewrite lookup_empty.
    split; [done|]. intros (p & Hp & _). by rewrite lookup_empty in Hp.
  - split; try constructor. intros i [p Hp]. by rewrite lookup_empty in Hp.
  - rewrite map_size_empty. lia.
Qed.

(** ** Removing jobs *)
Lemma unindex_lookup l p i k i' :
  unindex l p i !! k = Some i' <->
  l !! k = Some i' /\ ~ (logical_key (p_job p) = Some k /\ i' = i).
Proof.
  unfold unindex. destruct (logical_key (p_job p)) as [k0|]; [|naive_solver].
  case_bool_decide as E; [|naive_solver].
  destruct (decide (k = k0)) as [->|Hne].
  - rewrite lookup_delete_eq. naive_solver.
  - rewrite lookup_delete_ne by done. naive_solver.
Qed.

Lemma tables_delete j l n i p :
  tables_ok j l n -> j !! i = Some p -> tables_ok (delete i j) (unindex l p i) n.
Proof.
  intros [T1 T2 T3 T4] Hp. split.
  - intros i' p' E. apply lookup_delete_Some in E as [_ E]. by eapply T1.
  - intros i' p' E. apply lookup_delete_Some in E as [_ E]. by eapply T2.
  - intros i1 i2 p1 p2 E1 E2. apply lookup_delete_Some in E1 as [_ E1].
    apply lookup_delete_Some in E2 as [_ E2]. by eapply T3.
  - intros k i'. rewrite unindex_lookup, T4. setoid_rewrite lookup_delete_Some. split.
    + intros ((p' & E & Hr & Hk) & Hn). exists p'. split; [|done]. split; [|done].
      intros <-. apply Hn. rewrite Hp in E. injection E as <-. by split.
    + intros (p' & (Hne & E) & Hr & Hk). split; [by exists p'|]. intros [_ ->]. done.
Qed.

(** [j'] is [j] without [ids]. *)
Definition minus (j j' : gmap string _Pending) (ids : list string) : Prop :=
  forall i, j' !! i = if decide (i ∈ ids) then None else j !! i.

Lemma minus_delete j i : minus j (delete i j) [i].
Proof.
  intros i'. destruct (decide (i' ∈ [i])) as [Hin|Hin].
  - apply list_elem_of_singleton in Hin as ->. by rewrite lookup_delete_eq.
  - rewrite lookup_delete_ne; [done|]. intros ->. apply Hin. left.
Qed.

Lemma without_ids ids h : entry_id <$> without ids h = filter (fun i => i ∉ ids) (entry_id <$> h).
Proof.
  unfold without. induction h as [|e h IH]; [done|]. rewrite filter_cons, fmap_cons, filter_cons.
  destruct (decide (entry_id e ∉ ids)); [rewrite fmap_cons; by rewrite IH|done].
Qed.

Lemma minus_entries (P : gmap string _Pending -> entry -> Prop) j j' ids h :
  (forall e, P j e -> j' !! entry_id e = j !! entry_id e -> P j' e) ->
  minus j j' ids -> Forall (P j) h -> Forall (P j') (without ids h).
Proof.
  intros HP Hm Hh. unfold without. apply Forall_forall. intros e He.
  apply list_elem_of_filter in He as [Hni He]. apply HP.
  - by apply (proj1 (Forall_forall _ _) Hh).
  - rewrite Hm. by rewrite decide_False.
Qed.

Lemma heaps_minus n j j' f r ids :
  heaps_ok n j f r -> minus j j' ids -> heaps_ok n j' (heapify (without ids f)) (heapify (without ids r)).
Proof.
  intros [H1 H2 H3 H4 H5 H6] Hm. rewrite !heapify_without by done. split.
  - eapply minus_entries; [|done|done]. intros e (p & E & Hp) Hs. exists p. by rewrite Hs.
  - eapply minus_entries; [|done|done]. intros e (p & E & Hp) Hs. exists p. by rewrite Hs.
  - rewrite fmap_app, !without_ids, <- filter_app, <- fmap_app. by apply NoDup_filter.
  - intros i [p Hp]. rewrite Hm in Hp. destruct (decide (i ∈ ids)) as [Hin|Hin]; [done|].
    rewrite fmap_app, !without_ids, <- filter_app, <- fmap_app. apply list_elem_of_filter.
    split; [done|]. apply H4. by exists p.
  - by apply StronglySorted_filter'.
  - by apply StronglySorted_filter'.
Qed.

Lemma heaps_later n n' j f r : n <= n' -> heaps_ok n j f r -> heaps_ok n' j f r.
Proof.
  intros Hn [H1 H2 H3 H4 H5 H6]. split; try done. eapply Forall_impl; [done|].
  intros e (p & E & Hp & Hr). exists p. split_and!; [done|done|lia].
Qed.

Lemma deque_append_length limit l x : 0 < limit -> Z.of_nat (length l) <= limit ->
  Z.of_nat (length (deque_append limit l x)) <= limit.
Proof. intros Hl Hx. unfold deque_append. rewrite length_drop, !length_app. cbn [length]. lia. Qed.

(** What the operations below leave alone. *)
Record frame {B} (s s' : RestScheduler B) : Prop := {
  f_max : max_pending s' = max_pending s; f_limit : history_limit s' = history_limit s;
  f_now : last_now_ns s' = last_now_ns s; f_seq : sequence s' = sequence s;
  f_closed : closed s' = closed s
}.

#[export] Instance frame_preorder {B} : PreOrder (@frame B).
Proof.
  split; [by intros s; split|]. intros s1 s2 s3 [] []. split; by etransitivity.
Qed.

Section Removal.
Context {B : Type} `{BL : BudgetLaws B}.
Implicit Types s : RestScheduler B.

Lemma size_delete_le (j : gmap string _Pending) i : (size (delete i j) <= size j)%nat.
Proof.
  destruct (j !! i) as [p|] eqn:E.
  - rewrite map_size_delete_Some by done. lia.
  - by rewrite delete_id.
Qed.

Lemma remove_pending_ok s id p : sched_ok s -> jobs s !! id = Some p ->
  exists s', _remove_pending id s = (s', Ok tt) /\ sched_ok s' /\ frame s s' /\
    jobs s' = delete id (jobs s) /\ logical_index s' = unindex (logical_index s) p id /\
    budgets s' = budgets s /\ expired s' = expired s /\ evicted s' = evicted s.
Proof.
  intros [S1 S2 S3 S4 S5 S6 S7 S8] Hp. unfold _remove_pending. rewrite Hp.
  eexists. split; [done|]. split; [|by split].
  split; cbn; try done.
  - by apply tables_delete.
  - eapply heaps_minus; [done|]. apply minus_delete.
  - intros i q Hq. apply lookup_delete_Some in Hq as [_ Hq]. by eapply S3.
  - pose proof (size_delete_le (jobs s) id). lia.
Qed.

Lemma drop_expired_fields s p : let s' := drop_expired s p in
  frame s s' /\ budgets s' = budgets s /\ future s' = future s /\ ready s' = ready s /\
  evicted s' = evicted s /\ jobs s' = delete (job_id (p_job p)) (jobs s) /\
  logical_index s' = unindex (logical_index s) p (job_id (p_job p)).
Proof. by split_and!. Qed.

(** The loop of [_expire_all]. *)
Lemma drop_all ps : forall s,
  (forall p, p ∈ ps -> jobs s !! job_id (p_job p) = Some p) ->
  NoDup ((fun p => job_id (p_job p)) <$> ps) ->
  tables_ok (jobs s) (logical_index s) (sequence s) ->
  0 < history_limit s -> Z.of_nat (length (expired s)) <= history_limit s ->
  let s' := foldl drop_expired s ps in
  frame s s' /\ budgets s' = budgets s /\ future s' = future s /\ ready s' = ready s /\
  evicted s' = evicted s /\ tables_ok (jobs s') (logical_index s') (sequence s) /\
  minus (jobs s) (jobs s') ((fun p => job_id (p_job p)) <$> ps) /\
  Z.of_nat (length (expired s')) <= history_limit s.
Proof.
  induction ps as [|p ps IH]; intros s Hin HND Ht Hl He; cbn [foldl].
  { split_and!; try done. }
  assert (Hp : jobs s !! job_id (p_job p) = Some p) by (apply Hin; left).
  rewrite fmap_cons in HND. apply NoDup_cons in HND as [Hnew HND].
  destruct (drop_expired_fields s p) as (F & E1 & E2 & E3 & E4 & E5 & E6).
  destruct (IH (drop_expired s p)) as (G & G1 & G2 & G3 & G4 & G5 & G6 & G7).
  - intros q Hq. rewrite E5. rewrite lookup_delete_ne; [by apply Hin; right|].
    intros E. apply Hnew. rewrite E. by apply (list_elem_of_fmap_2 (fun p => job_id (p_job p))).
  - done.
  - rewrite E5, E6, (f_seq _ _ F). by apply tables_delete.
  - by rewrite (f_limit _ _ F).
  - rewrite (f_limit _ _ F). cbn. by apply deque_append_length.
  - split_and!; try congruence.
    + by etransitivity.
    + by rewrite (f_seq _ _ F) in G5.
    + intros i. rewrite G6, E5, fmap_cons.
      destruct (base.decide (i ∈ (fun p => job_id (p_job p)) <$> ps)) as [Hi|Hi].
      * rewrite decide_True; [done|by right].
      * destruct (base.decide (i = job_id (p_job p))) as [->|Hne].
        -- rewrite lookup_delete_eq, decide_True; [done|left].
        -- rewrite lookup_delete_ne, decide_False; [done| |done]. rewrite elem_of_cons. naive_solver.
    + by rewrite (f_limit _ _ F) in G7.
Qed.

Lemma elem_of_pending_values s p :
  tables_ok (jobs s) (logical_index s) (sequence s) ->
  p ∈ pending_values s <-> jobs s !! job_id (p_job p) = Some p.
Proof.
  intros Ht. unfold pending_values. rewrite elem_of_py_sorted, list_elem_of_fmap. split.
  - intros ([i q] & -> & Hq). apply elem_of_map_to_list in Hq. cbn.
    by rewrite (t_id _ _ _ Ht _ _ Hq).
  - intros Hp. exists (job_id (p_job p), p). split; [done|]. by apply elem_of_map_to_list.
Qed.

Lemma NoDup_fmap_filter {A C} (f : A -> C) (P : A -> Prop) `{forall x, Decision (P x)} (l : list A) :
  NoDup (f <$> l) -> NoDup (f <$> filter P l).
Proof.
  induction l as [|x l IH]; [done|]. rewrite fmap_cons, NoDup_cons. intros [Hx HND].
  rewrite filter_cons. case_decide; [|by apply IH]. rewrite fmap_cons, NoDup_cons.
  split; [|by apply IH]. intros Hin. apply Hx. apply list_elem_of_fmap in Hin as (y & -> & Hy).
  apply list_elem_of_filter in Hy as [_ Hy]. by apply list_elem_of_fmap_2.
Qed.

Lemma pending_ids_keys s :
  tables_ok (jobs s) (logical_index s) (sequence s) -> pending_ids s ≡ₚ (map_to_list (jobs s)).*1.
Proof.
  intros Ht. unfold pending_ids, pending_values. rewrite py_sorted_perm, <- list_fmap_compose.
  rewrite (list_fmap_ext _ fst); [done|].
  intros k [i q] Hq. apply list_elem_of_lookup_2, elem_of_map_to_list in Hq.
  by apply (t_id _ _ _ Ht).
Qed.

Lemma NoDup_pending_ids s :
  tables_ok (jobs s) (logical_index s) (sequence s) -> NoDup (pending_ids s).
Proof. intros Ht. rewrite pending_ids_keys by done. apply NoDup_fst_map_to_list. Qed.

(** [_expire_all] drops the jobs whose deadline has passed, and nothing else. *)
Definition unexpired (now : Z) (j : gmap string _Pending) : gmap string _Pending :=
  filter (fun ip => job_expired now (p_job ip.2) = false) j.

Lemma unexpired_lookup now j i p :
  unexpired now j !! i = Some p <-> j !! i = Some p /\ job_expired now (p_job p) = false.
Proof. unfold unexpired. by rewrite map_lookup_filter_Some. Qed.

Lemma minus_unexpired s s' now :
  tables_ok (jobs s) (logical_index s) (sequence s) ->
  minus (jobs s) (jobs s') ((fun p => job_id (p_job p)) <$> expired_values s now) ->
  jobs s' = unexpired now (jobs s).
Proof.
  intros Ht Hm. apply map_eq. intros i. apply option_eq. intros p.
  rewrite Hm, unexpired_lookup. destruct (base.decide _) as [Hin|Hin].
  - split; [done|]. intros [Hp Hn]. apply list_elem_of_fmap in Hin as (q & -> & Hq).
    apply list_elem_of_filter in Hq as [He Hq]. apply elem_of_pending_values in Hq; [|done].
    rewrite Hp in Hq. injection Hq as ->. by rewrite He in Hn.
  - split; [|by intros []]. intros Hp. split; [done|]. apply not_true_is_false. intros He. apply Hin.
    pose proof (t_id _ _ _ Ht _ _ Hp) as <-.
    apply (list_elem_of_fmap_2 (fun p => job_id (p_job p))), list_elem_of_filter.
    split; [done|]. by apply elem_of_pending_values.
Qed.

Lemma size_minus (j j' : gmap string _Pending) ids : minus j j' ids -> (size j' <= size j)%nat.
Proof.
  intros Hm. apply map_subseteq_size. apply map_subseteq_spec. intros i p Hp.
  rewrite Hm in Hp. by destruct (base.decide _).
Qed.

Lemma minus_sub j j' ids i (p : _Pending) : minus j j' ids -> j' !! i = Some p -> j !! i = Some p.
Proof. intros Hm Hp. rewrite Hm in Hp. by destruct (base.decide _). Qed.

Lemma expire_all_ok s now s' n : sched_ok s -> _expire_all s now = (s', n) ->
  sched_ok s' /\ frame s s' /\ budgets s' = budgets s /\ evicted s' = evicted s /\
  jobs s' = unexpired now (jobs s).
Proof.
  intros Hs. pose proof Hs as [S1 S2 S3 S4 S5 S6 S7 S8]. unfold _expire_all. cbv zeta.
  case_bool_decide as Hg.
  - intros [= <- <-]. do 4 (split; [done|]). apply (minus_unexpired s); [done|]. rewrite Hg. by intros i.
  - destruct (drop_all (expired_values s now) s) as (F & E1 & E2 & E3 & E4 & E5 & E6 & E7); try done; try lia.
    + intros p Hp. apply list_elem_of_filter in Hp as [_ Hp]. by apply elem_of_pending_values.
    + apply NoDup_fmap_filter. by apply NoDup_pending_ids.
    + intros [= <- <-]. split; [|split; [|split_and!]].
      * split; cbn; rewrite ?(f_max _ _ F), ?(f_limit _ _ F), ?(f_now _ _ F), ?(f_seq _ _ F), ?E1, ?E4; try done.
        -- rewrite E2, E3. eapply heaps_minus; [done|done].
        -- intros i p Hp. eapply S3. by eapply minus_sub.
        -- pose proof (size_minus _ _ _ E6). lia.
        -- split; [|by apply S6]. done.
      * by destruct F; split.
      * done.
      * done.
      * by apply (minus_unexpired s).
Qed.

(** ** Assignments that keep the invariant *)
Lemma set_heaps_ok s f r :
  sched_ok s -> heaps_ok (last_now_ns s) (jobs s) f r -> sched_ok (set_heaps s f r).
Proof. intros [] Hh. by split. Qed.

Lemma set_now_ok s now : sched_ok s -> last_now_ns s <= now -> sched_ok (set_last_now s now).
Proof.
  intros [S1 S2 S3 S4 S5 S6 S7 S8] Hn. split; try done; cbn; [|lia]. by eapply heaps_later.
Qed.

Lemma set_budgets_ok s (b : B) : sched_ok s -> budget_wf b ->
  (forall k c, can_hold (budgets s) k c -> can_hold b k c) -> sched_ok (set_budgets s b).
Proof.
  intros [S1 S2 S3 S4 S5 S6 S7 S8] Hb Hk. split; try done. cbn. intros i p Hp.
  destruct (S3 i p Hp) as (H1 & H2 & H3). split_and!; [done|done|].
  eapply Forall_impl; [done|]. intros k. apply Hk.
Qed.

Lemma set_next_budget_ok s n : sched_ok s -> sched_ok (set_next_budget s n).
Proof. by intros []; split. Qed.

Lemma bump_ok s : sched_ok s -> sched_ok (bump s).
Proof. by intros []; split. Qed.

Lemma record_expired_ok s i : sched_ok s -> sched_ok (record_expired s i).
Proof.
  intros [S1 S2 S3 S4 S5 S6 S7 S8]. split; try done. cbn.
  split; [apply deque_append_length; [lia|apply S6]|apply S6].
Qed.

Lemma record_evicted_ok s i : sched_ok s -> sched_ok (record_evicted s i).
Proof.
  intros [S1 S2 S3 S4 S5 S6 S7 S8]. split; try done. cbn.
  split; [apply S6|apply deque_append_length; [lia|apply S6]].
Qed.

Lemma clear_changed_ok s : sched_ok s -> sched_ok (clear_changed s).
Proof. by intros []; split. Qed.

Lemma now_ns_ok s clock : 0 <= clock -> _now_ns clock s
  = (set_last_now s (Z.max (last_now_ns s) clock), Ok (Z.max (last_now_ns s) clock)).
Proof. intros Hc. unfold _now_ns. by rewrite nonnegative_int_ok. Qed.

(** Entering a job once there is room. *)
Definition same_limits s s' : Prop :=
  max_pending s' = max_pending s /\ history_limit s' = history_limit s.

Definition none_expired s (now : Z) : Prop :=
  forall i p, jobs s !! i = Some p -> job_expired now (p_job p) = false.

(** ** The selection loop *)
Lemma elem_of_fromkeys {A} `{EqDecision A} (l : list A) : forall seen x,
  x ∈ fromkeys seen l <-> x ∈ l /\ x ∉ seen.
Proof.
  induction l as [|y l IH]; intros seen x; cbn [fromkeys].
  { split; [by intros ?%not_elem_of_nil|]. by intros [?%not_elem_of_nil _]. }
  case_bool_decide as Hy; rewrite ?elem_of_cons, IH, ?elem_of_cons; [naive_solver|].
  destruct (base.decide (x = y)) as [->|]; naive_solver.
Qed.

(** ** The order of dispatch *)
(** The order of dispatch: by priority, then by submission. *)
Definition rank (p : _Pending) : Z * Z := (priority_value (priority (p_job p)), p_sequence p).
Definition at_or_before (p q : _Pending) : bool := lex_leb Z.eqb Z.leb Z.leb (rank p) (rank q).

#[export] Instance at_or_before_order : LebOrder at_or_before.
Proof.
  change (LebOrder (on_key rank (lex_leb Z.eqb Z.leb Z.leb))). apply on_key_order, lex_leb_order; [apply Z.eqb_eq|intros; lia|apply _|apply _].
Qed.
End Removal.

(** What keeps the invariant without conditions on the data. *)
#[export] Hint Resolve set_now_ok set_next_budget_ok bump_ok record_expired_ok record_evicted_ok
  clear_changed_ok : py.
#[export] Hint Resolve s_tables s_heaps s_budgets NoDup_pending_ids : py.
