(* ===== verification/RestSubmit.v ===== *)
(** [submit_nowait] of [scheduler/rest.py]: what every outcome of a submission does to
    the table, and that it keeps the invariant. *)
From S2P Require Import Prelude PyDecimal RateLimit Domain RestModels Budgets RestScheduler.

Section Submission.
Context {B : Type} `{BL : BudgetLaws B}.
Implicit Types s : RestScheduler B.

(** ** [submit_nowait] *)

(** What the constructor of a job guarantees. *)
Definition submittable (j : RestJob) : Prop :=
  job_ok j /\ routes j <> [] /\ dleb (endpoint_cost j) dzero = false /\
  (replaceable j = true -> is_Some (logical_key j)).

Lemma check_budgets_ok (b : B) keys cost :
  check_budgets b keys cost = Ok tt -> dleb cost dzero = false -> Forall (fun k => can_hold b k cost) keys.
Proof.
  intros H0 Hc. induction keys as [|k keys IH]; [constructor|]. cbn [check_budgets] in H0. inv_ok.
  constructor; [|by apply IH]. by eexists; split_and!.
Qed.

Lemma submit_fits (b : B) j :
  submittable j -> check_budgets b (budget_keys j) (endpoint_cost j) = Ok tt -> fits b j.
Proof.
  intros (Hj & Hr & Hc & _) Hk. apply check_budgets_ok in Hk; [|done]. split_and!; [done|done|].
  apply Forall_forall. intros k Hin. apply (proj1 (Forall_forall _ _) Hk).
  apply elem_of_fromkeys. split; [done|apply not_elem_of_nil].
Qed.

Lemma tables_insert j0 l n j : tables_ok j0 l n -> 0 <= n -> j0 !! job_id j = None ->
  (replaceable j = true -> exists k, logical_key j = Some k /\ l !! k = None) ->
  tables_ok (<[job_id j := {| p_job := j; p_sequence := n + 1 |}]> j0)
    (match logical_key j with
     | Some k => if replaceable j then <[k := job_id j]> l else l
     | None => l
     end) (n + 1).
Proof.
  intros [T1 T2 T3 T4] Hn Hnew Hidx. split.
  - intros i p [[<- <-]|[_ Hp]]%lookup_insert_Some; [done|by apply T1].
  - intros i p [[<- <-]|[_ Hp]]%lookup_insert_Some; [cbn; lia|]. apply T2 in Hp. lia.
  - intros i i' p p' [[<- <-]|[Hi Hp]]%lookup_insert_Some [[<- <-]|[Hi' Hp']]%lookup_insert_Some E;
      cbn in E; [done|apply T2 in Hp'; lia|apply T2 in Hp; lia|by eapply T3].
  - intros k i. assert (Hold : forall p, j0 !! i = Some p -> job_id j <> i) by (intros p Hp <-; congruence).
    setoid_rewrite lookup_insert_Some. destruct (replaceable j) eqn:Er.
    + destruct (Hidx eq_refl) as (k0 & Ek & Hk0). rewrite Ek, lookup_insert_Some, T4. split.
      * intros [[<- <-]|(Hne & p & Hp & Hrp & Hkp)]; [|exists p; naive_solver].
        eexists. split; [by left|]. done.
      * intros (p & [[<- <-]|[Hne Hp]] & Hrp & Hkp); cbn in *.
        -- left. split; [congruence|done].
        -- right. split; [|by exists p]. intros ->.
           assert (E : l !! k = Some i) by (apply T4; by exists p). congruence.
    + assert (match logical_key j with Some _ | _ => l end = l) as -> by (by destruct (logical_key j)).
      rewrite T4. split; [naive_solver|].
      intros (p & [[<- <-]|[Hne Hp]] & Hrp & Hkp); cbn in *; [congruence|by exists p].
Qed.

(** A new job [q] entered into one of the heaps. *)
Lemma heaps_insert n j f r f' r' e q : heaps_ok n j f r -> j !! entry_id e = None ->
  let j' := <[entry_id e := q]> j in
  (f' = heappush e f /\ r' = r /\ future_entry j' e) \/
  (f' = f /\ r' = heappush e r /\ ready_entry n j' e) ->
  heaps_ok n j' f' r'.
Proof.
  intros [H1 H2 H3 H4 H5 H6] Hnew j' Hcase.
  assert (Hmono : forall i p, j !! i = Some p -> j' !! i = Some p).
  { intros i p Hp. unfold j'. rewrite lookup_insert_ne; [done|congruence]. }
  assert (Hf : Forall (future_entry j') f).
  { eapply Forall_impl; [done|]. intros x (p & Hp & Hx). exists p. split; [by apply Hmono|done]. }
  assert (Hr : Forall (ready_entry n j') r).
  { eapply Forall_impl; [done|]. intros x (p & Hp & Hx). exists p. split; [by apply Hmono|done]. }
  assert (HP : entry_id <$> f' ++ r' ≡ₚ entry_id <$> e :: f ++ r).
  { destruct Hcase as [(-> & -> & _)|(-> & -> & _)]; unfold heappush; rewrite insert_sorted_perm; [done|].
    by rewrite <- Permutation_middle. }
  assert (Hni : entry_id e ∉ entry_id <$> f ++ r).
  { rewrite fmap_app, elem_of_app, !list_elem_of_fmap. intros [(x & Ex & Hx)|(x & Ex & Hx)].
    - destruct (proj1 (Forall_forall _ _) H1 x Hx) as (p & Hp & _). congruence.
    - destruct (proj1 (Forall_forall _ _) H2 x Hx) as (p & Hp & _). congruence. }
  split.
  - destruct Hcase as [(-> & -> & He)|(-> & -> & He)]; [|done]. unfold heappush.
    rewrite insert_sorted_perm. by constructor.
  - destruct Hcase as [(-> & -> & He)|(-> & -> & He)]; [done|]. unfold heappush.
    rewrite insert_sorted_perm. by constructor.
  - rewrite HP, fmap_cons. by constructor.
  - intros i [p Hp]. rewrite HP, fmap_cons, elem_of_cons. unfold j' in Hp.
    apply lookup_insert_Some in Hp as [[<- _]|[_ Hp]]; [by left|right]. apply H4. by exists p.
  - destruct Hcase as [(-> & -> & _)|(-> & -> & _)]; [by apply heappush_sorted|done].
  - destruct Hcase as [(-> & -> & _)|(-> & -> & _)]; [done|by apply heappush_sorted].
Qed.

Lemma enqueue_ok s j now : sched_ok s -> last_now_ns s = now -> jobs s !! job_id j = None ->
  fits (budgets s) j -> Z.of_nat (size (jobs s)) < max_pending s ->
  (replaceable j = true -> exists k, logical_key j = Some k /\ logical_index s !! k = None) ->
  sched_ok (enqueue s j now) /\
  jobs (enqueue s j now) = <[job_id j := {| p_job := j; p_sequence := sequence s + 1 |}]> (jobs s).
Proof.
  intros [S1 S2 S3 S4 S5 S6 S7 S8] Hn Hnew Hfit Hroom Hidx.
  set (q := {| p_job := j; p_sequence := sequence s + 1 |}).
  assert (Hq : <[job_id j := q]> (jobs s) !! job_id j = Some q) by apply lookup_insert_eq.
  assert (Hsize : Z.of_nat (size (<[job_id j := q]> (jobs s))) <= max_pending s).
  { rewrite map_size_insert_None by done. lia. }
  assert (Hfits : forall i p, <[job_id j := q]> (jobs s) !! i = Some p -> fits (budgets s) (p_job p)).
  { intros i p [[<- <-]|[_ Hp]]%lookup_insert_Some; [done|by eapply S3]. }
  pose proof (tables_insert _ _ _ _ S1 (proj2 S8) Hnew Hidx) as Ht.
  unfold enqueue. cbv zeta. destruct (Z.leb_spec (ready_monotonic_ns j) now) as [Hd|Hd].
  all: split; [split; cbn; try done; try lia|done].
  - eapply (heaps_insert _ _ _ _ _ _ ((priority_value (priority j), sequence s + 1), job_id j) q);
      [exact S2|done|right]. split_and!; [done|done|]. exists q. split_and!; [done|done|cbn; lia].
  - eapply (heaps_insert _ _ _ _ _ _ ((ready_monotonic_ns j, sequence s + 1), job_id j) q);
      [exact S2|done|left]. split_and!; [done|done|]. by exists q.
Qed.

(** A later occurrence of the same replaceable work. *)
Definition twin (j j' : RestJob) : Prop :=
  replaceable j = true /\ replaceable j' = true /\ logical_key j' = logical_key j.
Definition supersedes (j j' : RestJob) : Prop := twin j j' /\ scheduled_ns j' < scheduled_ns j.
Definition no_twin (m : gmap string _Pending) (j : RestJob) : Prop :=
  forall i p, m !! i = Some p -> ~ twin j (p_job p).

Lemma no_twin_index m l n j : tables_ok m l n -> submittable j -> no_twin m j ->
  replaceable j = true -> exists k, logical_key j = Some k /\ l !! k = None.
Proof.
  intros Ht (_ & _ & _ & Hk) Hno Hr. destruct (Hk Hr) as [k Ek]. exists k. split; [done|].
  apply eq_None_not_Some. intros [i Hi]. apply (t_index _ _ _ Ht) in Hi as (p & Hp & Hrp & Hkp).
  apply (Hno i p Hp). split_and!; [done|done|congruence].
Qed.

Lemma no_twin_delete m l n j i p : tables_ok m l n -> submittable j ->
  m !! i = Some p -> twin j (p_job p) -> no_twin (delete i m) j.
Proof.
  intros Ht (_ & _ & _ & Hk) Hp (Hr & Hrp & Hkp) i' q [Hne Hq]%lookup_delete_Some (_ & Hrq & Hkq).
  destruct (Hk Hr) as [k Ek]. apply Hne.
  assert (E1 : l !! k = Some i) by (apply (t_index _ _ _ Ht); exists p; split_and!; congruence).
  assert (E2 : l !! k = Some i') by (apply (t_index _ _ _ Ht); exists q; split_and!; congruence).
  congruence.
Qed.

Lemma find_replaced_ok s j : tables_ok (jobs s) (logical_index s) (sequence s) -> submittable j ->
  match find_replaced s j with
  | Ok (inl r) => r = STALE_IGNORED /\ exists i p, jobs s !! i = Some p /\ supersedes (p_job p) j
  | Ok (inr (Some i)) => exists p, jobs s !! i = Some p /\ supersedes j (p_job p)
  | Ok (inr None) => no_twin (jobs s) j
  | Err _ => True
  end.
Proof.
  intros Ht Hj. unfold find_replaced. destruct (replaceable j) eqn:Er.
  2:{ intros i p Hp (Hr & _). congruence. }
  destruct (logical_key j) as [k|] eqn:Ek; [|done].
  destruct (logical_index s !! k) as [i|] eqn:Ei.
  2:{ intros i p Hp (_ & Hrp & Hkp). assert (E : logical_index s !! k = Some i); [|congruence].
      apply (t_index _ _ _ Ht). exists p. split_and!; congruence. }
  apply (t_index _ _ _ Ht) in Ei as (p & Hp & Hrp & Hkp). rewrite Hp.
  destruct (Z.ltb_spec (scheduled_ns j) (scheduled_ns (p_job p))) as [Hlt|Hge].
  - split; [done|]. exists i, p. split; [done|]. split; [|done]. split_and!; congruence.
  - destruct (Z.eqb_spec (scheduled_ns j) (scheduled_ns (p_job p))); cbn; [done|].
    exists p. split; [done|]. split; [|lia]. split_and!; congruence.
Qed.

(** A pending job that may make room for [j]. *)
Definition evictable (j j' : RestJob) : Prop :=
  replaceable j = false /\ replaceable j' = true /\
  priority_value (priority j) < priority_value (priority j').

Lemma eviction_candidate_ok s j : tables_ok (jobs s) (logical_index s) (sequence s) ->
  match _eviction_candidate s j with
  | Some i => exists p, jobs s !! i = Some p /\ evictable j (p_job p) /\
      forall i' q, jobs s !! i' = Some q -> evictable j (p_job q) -> at_or_before q p = true
  | None => forall i p, jobs s !! i = Some p -> ~ evictable j (p_job p)
  end.
Proof.
  intros Ht. unfold _eviction_candidate. destruct (replaceable j) eqn:Er.
  { intros i p Hp (Hr & _). congruence. }
  cbv zeta. set (cands := filter _ (pending_values s)).
  assert (Hin : forall p, p ∈ cands <-> jobs s !! job_id (p_job p) = Some p /\ evictable j (p_job p)).
  { intros p. unfold cands, evictable. rewrite list_elem_of_filter, elem_of_pending_values by done.
    naive_solver. }
  change (py_sorted _ cands) with (py_sorted (fun p q => at_or_before q p) cands).
  pose proof (py_sorted_head (fun p q => at_or_before q p) cands) as Hh.
  pose proof (fun p => elem_of_py_sorted (fun p q => at_or_before q p) p cands) as He.
  destruct (py_sorted _ cands) as [|p ps].
  - intros i p Hp Hev. apply (not_elem_of_nil p), He, Hin.
    by rewrite (t_id _ _ _ Ht _ _ Hp).
  - destruct (Hh p eq_refl) as [Hp Hmax]. apply Hin in Hp as [Hp Hev]. exists p.
    split_and!; [done|done|]. intros i q Hq Hevq. apply Hmax, Hin.
    by rewrite (t_id _ _ _ Ht _ _ Hq).
Qed.

(** The table with [j] entered under the next sequence number. *)
Definition entered s (j : RestJob) (m : gmap string _Pending) : gmap string _Pending :=
  <[job_id j := {| p_job := j; p_sequence := sequence s + 1 |}]> m.

(** What a submission at [now] does, for every outcome. *)
Definition submit_post s (now : Z) (j : RestJob) s' (res : result SubmitResult) : Prop :=
  let m := unexpired now (jobs s) in
  match res with
  | Ok IDEMPOTENT => s' = s /\ exists p, jobs s !! job_id j = Some p /\ job_eqb (p_job p) j = true
  | Ok STALE_IGNORED => s' = s /\ exists i p, jobs s !! i = Some p /\ supersedes (p_job p) j
  | Ok EXPIRED => job_expired now j = true /\
      (jobs s' = jobs s \/
       exists i p, jobs s !! i = Some p /\ supersedes j (p_job p) /\ jobs s' = delete i (jobs s))
  | Ok ENQUEUED => job_expired now j = false /\ no_twin m j /\
      Z.of_nat (size m) < max_pending s /\ jobs s' = entered s j m
  | Ok REPLACED => job_expired now j = false /\ exists i p, m !! i = Some p /\
      supersedes j (p_job p) /\ jobs s' = entered s j (delete i m)
  | Ok EVICTED_AND_ENQUEUED => job_expired now j = false /\ max_pending s <= Z.of_nat (size m) /\
      exists i p, m !! i = Some p /\ evictable j (p_job p) /\
        (forall i' q, m !! i' = Some q -> evictable j (p_job q) -> at_or_before q p = true) /\
        jobs s' = entered s j (delete i m)
  | Err (CapacityError _) => jobs s' = jobs s \/
      (jobs s' = m /\ max_pending s <= Z.of_nat (size m) /\
       forall i p, m !! i = Some p -> ~ evictable j (p_job p))
  | Err _ => s' = s
  end.

Lemma enter_ok s0 s j now : sched_ok s -> frame (set_last_now s0 now) s -> submittable j ->
  jobs s !! job_id j = None -> fits (budgets s) j ->
  Z.of_nat (size (jobs s)) < max_pending s -> no_twin (jobs s) j ->
  sched_ok (enqueue s j now) /\ jobs (enqueue s j now) = entered s0 j (jobs s) /\
  same_limits s0 (enqueue s j now).
Proof.
  intros Hs Hf Hj Hnew Hfit Hroom Hno.
  destruct (enqueue_ok s j now) as [H1 H2]; try done; [by rewrite (f_now _ _ Hf)|intros Hr|].
  { by eapply no_twin_index; [apply (s_tables _ Hs)|..]. }
  split; [done|]. split; [rewrite H2; unfold entered; by rewrite (f_seq _ _ Hf)|].
  destruct Hf as [F1 F2 _ _ _]. unfold enqueue. cbv zeta. case_match; by split.
Qed.

Lemma size_delete_lt (m : gmap string _Pending) i p n :
  m !! i = Some p -> Z.of_nat (size m) <= n -> Z.of_nat (size (delete i m)) < n.
Proof.
  intros Hp Hn. rewrite map_size_delete_Some by done.
  assert (size m <> 0%nat); [|lia]. intros E. apply map_size_empty_inv in E. subst.
  by rewrite lookup_empty in Hp.
Qed.

(** Making room and entering, once the expired jobs are gone from [s]. *)
Lemma room_ok s0 s j now rep : sched_ok s -> frame (set_last_now s0 now) s -> submittable j ->
  jobs s = unexpired now (jobs s0) -> jobs s !! job_id j = None -> fits (budgets s) j ->
  job_expired now j = false ->
  match rep with
  | Some i => exists p, jobs s !! i = Some p /\ supersedes j (p_job p)
  | None => no_twin (jobs s) j
  end ->
  exists s' res, (do! r := make_room j rep in fun s => (enqueue s j now, Ok r)) s = (s', res) /\
    sched_ok s' /\ same_limits s0 s' /\ submit_post s0 now j s' res.
Proof.
  intros Hs Hf Hj Hm Hnew Hfit Hexp Hrep. pose proof (s_tables _ Hs) as Ht. unfold make_room.
  pose proof (f_max _ _ Hf) as Hmax. cbn in Hmax.
  destruct rep as [i|].
  - destruct Hrep as (p & Hp & Hsup).
    destruct (remove_pending_ok s i p Hs Hp) as (s1 & E & Hs1 & F1 & J1 & _ & B1 & _).
    destruct (enter_ok s0 s1 j now) as (H1 & H2 & H3); try done.
    + by etransitivity.
    + rewrite J1. apply lookup_delete_None. by right.
    + by rewrite B1.
    + rewrite J1, (f_max _ _ F1). by eapply size_delete_lt; [|apply Hs].
    + rewrite J1. eapply no_twin_delete; [done|done|done|apply Hsup].
    + unfold mbind. rewrite E. eexists _, _. split; [reflexivity|]. do 3 (split; [done|]). exists i, p. rewrite H2, J1, <- Hm. by split_and!.
  - unfold mbind at 1. destruct (Z.leb_spec (max_pending s) (Z.of_nat (size (jobs s)))) as [Hfull|Hroom].
    + pose proof (eviction_candidate_ok s j Ht) as Hev. destruct (_eviction_candidate s j) as [i|].
      2:{ eexists _, _. do 2 (split; [done|]). split; [by destruct Hf|]. right. rewrite <- Hm. split_and!; [done|lia|done]. }
      destruct Hev as (p & Hp & Hev & Hlast).
      destruct (remove_pending_ok s i p Hs Hp) as (s1 & E & Hs1 & F1 & J1 & _ & B1 & _).
      destruct (enter_ok s0 (record_evicted s1 i) j now) as (H1 & H2 & H3); try done.
      * by apply record_evicted_ok.
      * etransitivity; [done|]. by destruct F1; split.
      * cbn. rewrite J1. apply lookup_delete_None. by right.
      * cbn. by rewrite B1.
      * cbn. rewrite J1, (f_max _ _ F1). by eapply size_delete_lt; [|apply Hs].
      * cbn. rewrite J1. intros i' q [_ Hq]%lookup_delete_Some. by apply (Hrep i').
      * unfold mbind. rewrite E. eexists _, _. do 4 (split; [done|]). rewrite <- Hm. split; [lia|]. exists i, p. rewrite H2. cbn. rewrite J1.
        by split_and!.
    + destruct (enter_ok s0 s j now) as (H1 & H2 & H3); try done.
      eexists _, _. do 3 (split; [done|]). unfold submit_post. cbv zeta. rewrite <- Hm, H2. split_and!; [done|done|lia|done].
Qed.

Lemma admit_at_ok s0 j now rep : sched_ok s0 -> last_now_ns s0 <= now -> submittable j ->
  jobs s0 !! job_id j = None -> fits (budgets s0) j ->
  match rep with
  | Some i => exists p, jobs s0 !! i = Some p /\ supersedes j (p_job p)
  | None => no_twin (jobs s0) j
  end ->
  exists s' res, admit_at j rep now (set_last_now s0 now) = (s', res) /\
    sched_ok s' /\ same_limits s0 s' /\ submit_post s0 now j s' res.
Proof.
  intros Hs0 Hn Hj Hnew Hfit Hrep. pose proof (set_now_ok _ _ Hs0 Hn) as Hs. unfold admit_at.
  destruct (job_expired now j) eqn:Hexp.
  - unfold mbind at 1. destruct rep as [i|].
    + destruct Hrep as (p & Hp & Hsup).
      destruct (remove_pending_ok _ i p Hs Hp) as (s1 & E & Hs1 & F1 & J1 & _).
      unfold mbind. rewrite E. eexists _, _. split; [done|].
      split; [by apply record_expired_ok, bump_ok|]. split; [by destruct F1|]. cbn. split; [done|]. right. by exists i, p.
    + eexists _, _. split; [done|]. split; [by apply record_expired_ok|]. do 2 (split; [done|]). by left.
  - destruct (_expire_all (set_last_now s0 now) now) as [s1 n] eqn:E1.
    destruct (expire_all_ok _ _ _ _ Hs E1) as (Hs1 & F1 & B1 & _ & J1).
    assert (Hsub : forall i p, jobs s1 !! i = Some p -> jobs s0 !! i = Some p).
    { intros i p Hp. rewrite J1 in Hp. by apply unexpired_lookup in Hp as [Hp _]. }
    set (s2 := if 0 <? n then bump s1 else s1).
    assert (Hs2 : sched_ok s2) by (unfold s2; destruct (0 <? n); [by apply bump_ok|done]).
    assert (J2 : jobs s2 = jobs s1) by (unfold s2; by destruct (0 <? n)).
    assert (B2 : budgets s2 = budgets s1) by (unfold s2; by destruct (0 <? n)).
    assert (F2 : frame s1 s2) by (unfold s2; destruct (0 <? n); by split).
    apply room_ok; try done.
    + by etransitivity.
    + by rewrite J2.
    + rewrite J2. apply eq_None_not_Some. intros [p Hp]. apply Hsub in Hp. congruence.
    + by rewrite B2, B1.
    + rewrite J2. destruct rep as [i|].
      * destruct Hrep as (p & Hp & Hsup). case_bool_decide as Hi.
        -- intros i' q Hq Htw. assert (i' <> i) by congruence.
           refine (no_twin_delete _ _ _ _ _ _ (s_tables _ Hs0) Hj Hp (proj1 Hsup) i' q _ Htw).
           apply lookup_delete_Some. split; [done|]. by apply Hsub.
        -- apply not_eq_None_Some in Hi as [q Hq]. pose proof (Hsub _ _ Hq). exists q.
           split; [done|]. congruence.
      * intros i' q Hq. by apply (Hrep i'), Hsub.
Qed.

Lemma submit_ok s j clock_ns : sched_ok s -> submittable j -> 0 <= clock_ns -> closed s = false ->
  exists s' res, submit_nowait j clock_ns s = (s', res) /\ sched_ok s' /\ same_limits s s' /\
    submit_post s (Z.max (last_now_ns s) clock_ns) j s' res.
Proof.
  intros Hs Hj Hc Hcl. unfold submit_nowait. rewrite Hcl.
  assert (Hsame : forall e, exists s' res, (s, Err (A := SubmitResult) e) = (s', res) /\ sched_ok s' /\
    same_limits s s' /\ submit_post s (Z.max (last_now_ns s) clock_ns) j s' res).
  { intros e. exists s, (Err e). do 3 (split; [done|]). destruct e; try done. by left. }
  destruct (jobs s !! job_id j) as [p|] eqn:Hp.
  { destruct (job_eqb (p_job p) j) eqn:E; [|apply Hsame].
    eexists _, _. do 4 (split; [done|]). by exists p. }
  destruct (check_budgets (budgets s) (budget_keys j) (endpoint_cost j)) as [[]|e] eqn:Eb; [|apply Hsame].
  pose proof (submit_fits _ _ Hj Eb) as Hfit.
  pose proof (find_replaced_ok s j (s_tables _ Hs) Hj) as Hf.
  destruct (find_replaced s j) as [[r|rep]|e]; [|..|apply Hsame].
  - destruct Hf as [-> Hf]. eexists _, _. do 4 (split; [done|]). exact Hf.
  - unfold mbind. rewrite now_ns_ok by done. apply admit_at_ok; try done. lia.
Qed.

(** C3: every submission does what its result says.  With the table as it is once the
    jobs past their deadline are gone: [ENQUEUED] and [REPLACED] enter the job,
    without a job of the same occurrence pending or in its place, and only for a
    later one; [EVICTED_AND_ENQUEUED] happens in a full table and drops the last, in
    the order of dispatch, of the replaceable jobs of lower priority; [STALE_IGNORED],
    [IDEMPOTENT] and every error but a full table change nothing; a full table is
    reported when no job may be evicted; [EXPIRED] enters nothing and drops at most
    the older occurrence the job was to replace.  The scheduler stays consistent. *)
Theorem submit_exact s (j : RestJob) (clock_ns : Z) :
  sched_ok s -> submittable j -> 0 <= clock_ns -> closed s = false ->
  exists s' res, submit_nowait j clock_ns s = (s', res) /\ sched_ok s' /\
    submit_post s (Z.max (last_now_ns s) clock_ns) j s' res.
Proof.
  intros Hs Hj Hc Hcl. destruct (submit_ok s j clock_ns Hs Hj Hc Hcl) as (s' & res & E & H1 & _ & H2).
  by exists s', res.
Qed.
End Submission.

(** ** Concrete values *)
Module SchedulerSamples.
Export RegistryBudgets.

Definition sample_budgets : Registry.t := {[ Samples.key := sample_bucket ]}.

Lemma sample_budgets_ok : budget_wf sample_budgets.
Proof. change (registry_ok sample_budgets). apply map_Forall_singleton, sample_bucket_ok. Qed.

(** A core job and a replaceable snapshot that draw on one bucket of ten tokens. *)
Definition sample_job (id : string) (p : RestPriority) (rep : bool) (scheduled : Z) : RestJob :=
  {| job_id := id; priority := p; routes := [Samples.route]; endpoint_cost := Dec 8 0;
     ready_monotonic_ns := 0; deadline_ns := None; RestModels.interval := None;
     generation_source := None; job_attempt := 1; logical_key := Some ["x"; "depth"];
     replaceable := rep; scheduled_ns := scheduled; control_context := [] |}.

Lemma sample_submittable id p rep scheduled : p <> LIVE_BOOTSTRAP ->
  submittable (sample_job id p rep scheduled).
Proof.
  intros Hp. split; [|split; [done|split; [done|by eexists]]].
  split; [done|]. split; [repeat constructor; set_solver|]. split; [repeat constructor; done|].
  by split.
Qed.

Definition sample_new : result (RestScheduler Registry.t) := scheduler_new sample_budgets 2 8 0.
Definition sample_empty : RestScheduler Registry.t :=
  match sample_new with Ok s => s | Err _ => Build_RestScheduler sample_budgets 0 0 0 0 ∅ ∅ [] [] [] [] None 0 false true end.

Lemma sample_empty_ok : sched_ok sample_empty.
Proof. apply (scheduler_new_ok sample_budgets 2 8 0); [apply sample_budgets_ok|reflexivity]. Qed.


Definition sample_snap : RestJob := sample_job "snap" DEEP_SNAPSHOT true 5.
Definition sample_core : RestJob := sample_job "core" CORE_DERIVATIVE false 0.
Definition sample_two : RestScheduler Registry.t :=
  (submit_nowait sample_core 2 (submit_nowait sample_snap 1 sample_empty).1).1.

Lemma submit_state_ok (s : RestScheduler Registry.t) (j : RestJob) (clock_ns : Z) : sched_ok s -> submittable j ->
  0 <= clock_ns -> closed s = false -> sched_ok (submit_nowait j clock_ns s).1.
Proof.
  intros Hs Hj Hc Hcl. destruct (submit_ok s j clock_ns Hs Hj Hc Hcl) as (s' & res & E & H & _).
  by rewrite E.
Qed.

Lemma sample_two_ok : sched_ok sample_two.
Proof.
  apply submit_state_ok; [apply submit_state_ok| | |]; try by apply sample_submittable.
  all: try apply sample_empty_ok; try lia; vm_compute; reflexivity.
Qed.

Lemma submit_exact_witness :
  exists s', submit_nowait (sample_job "core2" CORE_DERIVATIVE false 0) 3 sample_two
      = (s', Ok EVICTED_AND_ENQUEUED) /\ sched_ok s' /\ evicted s' = ["snap"].
Proof.
  destruct (submit_exact sample_two (sample_job "core2" CORE_DERIVATIVE false 0) 3 sample_two_ok)
    as (s' & res & E & Hs & _); [by apply sample_submittable|lia|reflexivity|].
  assert (Er : (res, evicted s') = (Ok EVICTED_AND_ENQUEUED, ["snap"])).
  { change res with (snd (s', res)). change (evicted s') with (evicted (fst (s', res))).
    rewrite <- E. vm_compute. reflexivity. }
  injection Er as -> Ev. exists s'. split; [exact E|]. by split.
Defined.
End SchedulerSamples.
