(* ===== verification/RestSelect.v ===== *)
(** [_next_ready] and the loop of [next_ready] of [scheduler/rest.py]: promotion, the
    selection of a job, and the instant the loop sleeps until. *)
From S2P Require Import Prelude PyDecimal RateLimit Domain RestModels Budgets RestScheduler RestSubmit.

Section Selection.
Context {B : Type} `{BL : BudgetLaws B}.
Implicit Types s : RestScheduler B.

(** ** Promotion *)
Lemma entry_leb_time e e' : entry_leb e e' = true -> e.1.1 <= e'.1.1.
Proof.
  destruct e as [[a b] i], e' as [[c d] k]. unfold entry_leb, lex_leb. cbn.
  destruct (Z.eqb_spec a c), (Z.eqb_spec b d); cbn; lia.
Qed.

Lemma future_live s e f : tables_ok (jobs s) (logical_index s) (sequence s) ->
  Forall (future_entry (jobs s)) (e :: f) ->
  exists p, live s e = Some p /\ jobs s !! entry_id e = Some p /\
    e.1 = (ready_monotonic_ns (p_job p), p_sequence p).
Proof.
  intros Ht Hf. apply Forall_inv in Hf as (p & E & Hp). exists p.
  unfold live. rewrite E, Hp. cbn. by rewrite Z.eqb_refl.
Qed.

Lemma heaps_promote n j e f r p : heaps_ok n j (e :: f) r -> e.1.1 <= n -> j !! entry_id e = Some p ->
  heaps_ok n j f (heappush ((priority_value (priority (p_job p)), e.1.2), entry_id e) r).
Proof.
  intros [H1 H2 H3 H4 H5 H6] Hn Hp. apply Forall_cons in H1 as [(q & Eq & Hq) H1].
  rewrite Hp in Eq. injection Eq as <-. unfold heappush.
  assert (HP : entry_id <$> f ++ insert_sorted entry_leb
      ((priority_value (priority (p_job p)), e.1.2), entry_id e) r ≡ₚ entry_id <$> (e :: f) ++ r).
  { rewrite insert_sorted_perm, !fmap_app. cbn. symmetry. apply Permutation_middle. }
  split.
  - done.
  - rewrite insert_sorted_perm. constructor; [|done]. exists p. rewrite Hq in Hn |- *. by split_and!.
  - by rewrite HP.
  - intros i Hi. rewrite HP. by apply H4.
  - by apply StronglySorted_inv in H5 as [H5 _].
  - by apply heappush_sorted.
Qed.

Lemma promote_loop_ok fuel now : forall s,
  sched_ok s -> none_expired s now -> last_now_ns s = now -> (length (future s) <= fuel)%nat ->
  exists s', promote_loop fuel now s = (s', Ok tt) /\ sched_ok s' /\
    s' = set_heaps s (future s') (ready s') /\ Forall (fun e => now < e.1.1) (future s').
Proof.
  induction fuel as [|fuel IH]; intros s Hs Hne Hn Hl; cbn [promote_loop].
  { exists s. split_and!; [done|done|by destruct s|]. destruct (future s); [done|cbn in Hl; lia]. }
  destruct (future s) as [|e rest] eqn:Ef.
  { exists s. rewrite Ef. split_and!; [done|done|by rewrite <- Ef; destruct s|done]. }
  pose proof Hs as [S1 S2 S3 S4 S5 S6 S7 S8]. rewrite Ef in S2.
  destruct (Z.leb_spec e.1.1 now) as [Hle|Hgt].
  - destruct (future_live s e rest S1 (h_future _ _ _ _ S2)) as (p & Hlive & Hp & He).
    change (live (set_heaps s rest (ready s)) e) with (live s e). rewrite Hlive.
    rewrite (Hne _ _ Hp).
    destruct (IH (set_heaps s rest (heappush ((priority_value (priority (p_job p)), e.1.2), entry_id e) (ready s))))
      as (s' & R & Hs' & E & Hf); try done.
    + apply set_heaps_ok; [done|]. apply heaps_promote; [done|by rewrite Hn|done].
    + cbn in Hl |- *. lia.
    + by exists s'.
  - exists s. split_and!; [done|done|by destruct s|]. rewrite Ef. constructor; [done|].
    destruct S2 as [_ _ _ _ H5 _]. apply StronglySorted_inv in H5 as [_ H5].
    eapply Forall_impl; [done|]. intros e' He'. apply entry_leb_time in He'. lia.
Qed.

(** The budget keys a job may draw on. *)
Definition job_keys (j : RestJob) : list BudgetKey := budget_key <$> _eligible_routes j.

Lemma eligible_sub j r : r ∈ _eligible_routes j -> r ∈ routes j.
Proof.
  unfold _eligible_routes. destruct (generation_source j); [|done].
  by intros [_ Hr]%list_elem_of_filter.
Qed.

Lemma fits_keys (b : B) j : fits b j -> Forall (fun k => can_hold b k (endpoint_cost j)) (job_keys j).
Proof.
  intros (_ & _ & Hf). apply Forall_forall. intros k Hk. unfold job_keys in Hk.
  apply list_elem_of_fmap in Hk as (r & -> & Hr). apply (proj1 (Forall_forall _ _) Hf).
  by apply list_elem_of_fmap_2, eligible_sub.
Qed.

(** Before the instant [r], if there is one. *)
Definition until (r : option Z) (t : Z) : Prop :=
  match r with Some ready => t < ready | None => True end.

Lemma earliest_ready_ok keys cost now : forall s acc,
  budget_wf (budgets s) -> 0 <= now -> Forall (fun k => can_hold (budgets s) k cost) keys ->
  Forall (fun k => affords (budgets s) k cost now = false) keys ->
  exists b' r, earliest_ready keys cost now acc s = (set_budgets s b', Ok r) /\
    unspent now (budgets s) b' /\ (forall t, until r t -> until acc t) /\
    forall k t, k ∈ keys -> now <= t -> until r t -> affords (budgets s) k cost t = false.
Proof.
  induction keys as [|key keys IH]; intros s acc Hwf Hnow Hh Hf; cbn [earliest_ready].
  { exists (budgets s), acc. split; [by destruct s|]. split; [by apply unspent_refl|].
    split; [done|]. by intros k t ?%not_elem_of_nil. }
  apply Forall_cons in Hh as [Hk Hh]. apply Forall_cons in Hf as [Hfk Hf].
  destruct (ready_law _ _ _ _ Hwf Hnow Hk Hfk) as (b & r & -> & (Hwb & Hc & Ha) & Hr).
  edestruct (IH (set_budgets s b)) as (b' & r' & -> & Hu & Hacc & Hno); cbn; [done|done| | |].
  { eapply Forall_impl; [exact Hh|]. intros k. apply Hc. }
  { apply Forall_forall. intros k Hin. rewrite Ha; [|by apply (proj1 (Forall_forall _ _) Hh)|lia].
    by apply (proj1 (Forall_forall _ _) Hf). }
  exists b', r'. split; [done|]. split; [by eapply unspent_trans|]. split.
  - intros t Ht. apply Hacc in Ht. destruct r, acc; cbn in *; lia || done.
  - intros k t Hin Hnt Ht. apply elem_of_cons in Hin as [->|Hin].
    + rewrite <- Ha, Hr by done. apply Hacc in Ht. destruct r, acc; cbn in *; lia || done.
    + rewrite <- Ha by (done || by apply (proj1 (Forall_forall _ _) Hh)). by apply Hno.
Qed.

(** The budget [k] cannot pay for the job of [e], now and until [r]. *)
Definition refuses (b : B) (now : Z) (r : option Z) (j : gmap string _Pending) (e : entry)
    (k : BudgetKey) : Prop :=
  exists p, j !! entry_id e = Some p /\ k ∈ job_keys (p_job p) /\
    affords b k (endpoint_cost (p_job p)) now = false /\
    forall t, now <= t -> until r t -> affords b k (endpoint_cost (p_job p)) t = false.

(** The state of the loop; [b0] are the budgets it started with. *)
Record scan_ok (b0 : B) s (now : Z) (scan : Scan) : Prop := {
  sc_sched : sched_ok (set_heaps s (future s) (blocked scan ++ ready s));
  sc_live : none_expired s now;
  sc_now : last_now_ns s = now;
  sc_budgets : unspent now b0 (budgets s);
  sc_fits : forall i p, jobs s !! i = Some p -> fits b0 (p_job p);
  sc_blocked : forall e p k, e ∈ blocked scan -> jobs s !! entry_id e = Some p ->
    k ∈ job_keys (p_job p) -> k ∈ blocked_budgets scan /\
    exists e', e' ∈ blocked scan /\ entry_leb e' e = true /\
      refuses b0 now (scan_ready_ns scan) (jobs s) e' k;
  sc_keys : forall k, k ∈ blocked_budgets scan -> exists e', e' ∈ blocked scan /\
    refuses b0 now (scan_ready_ns scan) (jobs s) e' k
}.

Lemma StronglySorted_app_le {A} (R : A -> A -> Prop) l1 x l2 y :
  StronglySorted R (l1 ++ x :: l2) -> y ∈ l1 -> R y x.
Proof.
  induction l1 as [|z l1 IH]; [by intros _ ?%not_elem_of_nil|].
  cbn. intros [Hs Hz]%StronglySorted_inv Hy. apply elem_of_cons in Hy as [->|Hy]; [|by apply IH].
  apply Forall_app in Hz as [_ Hz]. by apply Forall_inv in Hz.
Qed.

Lemma StronglySorted_from (leb : entry -> entry -> bool) l1 x l2 y : LebOrder leb ->
  StronglySorted (fun x y => leb x y = true) (l1 ++ x :: l2) -> y ∈ x :: l2 -> leb x y = true.
Proof.
  intros HO Hs Hy. induction l1 as [|z l1 IH]; cbn in Hs; apply StronglySorted_inv in Hs as [Hs Hx].
  - apply elem_of_cons in Hy as [->|Hy]; [by destruct (leb_total leb x x)|].
    by apply (proj1 (Forall_forall _ _) Hx).
  - by apply IH.
Qed.

(** A pass that blocks the head of the ready heap. *)
Lemma scan_block b0 s now scan e rest p b' available r :
  scan_ok b0 s now scan -> ready s = e :: rest -> jobs s !! entry_id e = Some p ->
  unspent now (budgets s) b' -> (forall t, until r t -> until (scan_ready_ns scan) t) ->
  (forall k, k ∈ job_keys (p_job p) -> k ∈ blocked_budgets scan \/ k ∈ available) ->
  (forall k, k ∈ available -> refuses b0 now r (jobs s) e k) ->
  scan_ok b0 (set_budgets (set_heaps s (future s) rest) b') now
    {| blocked := blocked scan ++ [e]; blocked_budgets := blocked_budgets scan ++ available;
       scan_ready_ns := r |}.
Proof.
  intros [S1 S2 S3 S4 S5 S6 S7] Er Hp Hu Hun Hkeys Hself. rewrite Er in S1.
  assert (Href : forall e' k, refuses b0 now (scan_ready_ns scan) (jobs s) e' k ->
            refuses b0 now r (jobs s) e' k).
  { intros e' k (q & H1 & H2 & H3 & H4). exists q. split_and!; try done. intros t H5 H6. by apply H4, Hun. }
  split; cbn; try done.
  - assert (HS : sched_ok (set_heaps s (future s) ((blocked scan ++ [e]) ++ rest))).
    { by rewrite <- app_assoc. }
    apply (set_budgets_ok _ b') in HS; [done|apply Hu|apply Hu].
  - by eapply unspent_trans.
  - intros e1 q k He1 Hq Hk. apply elem_of_app in He1 as [He1|He1%list_elem_of_singleton].
    + destruct (S6 e1 q k He1 Hq Hk) as (Hb & e' & He' & Hle & Hr).
      split; [by apply elem_of_app; left|]. exists e'.
      split_and!; [by apply elem_of_app; left|done|by apply Href].
    + subst e1. rewrite Hp in Hq. injection Hq as <-.
      destruct (Hkeys k Hk) as [Hb|Hb].
      * split; [by apply elem_of_app; left|]. destruct (S7 k Hb) as (e' & He' & Hr).
        exists e'. split_and!; [by apply elem_of_app; left| |by apply Href].
        by eapply (StronglySorted_app_le _ _ _ _ _ (h_rsorted _ _ _ _ (s_heaps _ S1))).
      * split; [by apply elem_of_app; right|]. exists e. split_and!; [| |by apply Hself].
        -- apply elem_of_app. right. left.
        -- by destruct (leb_total entry_leb e e).
  - intros k [Hk|Hk]%elem_of_app.
    + destruct (S7 k Hk) as (e' & He' & Hr). exists e'. split; [by apply elem_of_app; left|by apply Href].
    + exists e. split; [apply elem_of_app; right; left|by apply Hself].
Qed.

(** Taking the entry of a completed job out of the ready heap. *)
Lemma heaps_take n j f bl e rest : heaps_ok n j f (bl ++ e :: rest) ->
  heaps_ok n (delete (entry_id e) j) f (bl ++ rest).
Proof.
  intros Hh. pose proof (h_nodup _ _ _ _ Hh) as HND.
  assert (Hout : forall x, x ∈ f ++ bl ++ rest -> entry_id x ∉ [entry_id e]).
  { rewrite <- Permutation_middle in HND. rewrite (Permutation_app_comm f) in HND.
    simpl app in HND. rewrite fmap_cons, NoDup_cons in HND. destruct HND as [Hni _].
    intros x Hx Hin%list_elem_of_singleton. apply Hni. rewrite <- Hin. apply list_elem_of_fmap_2.
    set_solver. }
  pose proof (heaps_minus _ _ _ _ _ _ Hh (minus_delete j (entry_id e))) as Hm.
  rewrite !heapify_without in Hm by apply Hh. unfold without in Hm.
  rewrite (filter_all _ f) in Hm by (intros; apply Hout; set_solver).
  rewrite filter_app, filter_cons, decide_False in Hm by (intros H'; apply H'; left).
  rewrite <- filter_app, filter_all in Hm; [done|]. intros; apply Hout; set_solver.
Qed.

Lemma complete_ok s b' p e bl rest :
  sched_ok (set_heaps s (future s) (bl ++ e :: rest)) -> jobs s !! entry_id e = Some p ->
  budget_wf b' -> (forall k c, can_hold (budgets s) k c -> can_hold b' k c) ->
  let s' := _complete_pending (set_budgets (set_heaps s (future s) rest) b') p in
  sched_ok (set_heaps s' (future s') (bl ++ ready s')) /\ jobs s' = delete (entry_id e) (jobs s).
Proof.
  intros Hs Hp Hw Hc. pose proof (set_budgets_ok _ b' Hs Hw Hc) as [S1 S2 S3 S4 S5 S6 S7 S8].
  pose proof (t_id _ _ _ S1 _ _ Hp) as Hid. cbn in *. unfold _complete_pending. rewrite Hid.
  split; [|done]. split; cbn; try done.
  - by apply tables_delete.
  - by apply heaps_take.
  - intros i q Hq. apply lookup_delete_Some in Hq as [_ Hq]. by eapply S3.
  - pose proof (size_delete_le (jobs s) (entry_id e)). lia.
Qed.

(** How the loop ends: the entries [bl] it blocked, and what it selected. *)
Record scan_end (b0 : B) s (now : Z) (es : list entry) s' (r : option RestDispatch)
    (wake : option Z) (bl : list entry) : Prop := {
  se_sched : sched_ok (set_heaps s' (future s') (bl ++ ready s'));
  se_frame : frame s s';
  se_future : future s' = future s;
  se_blocked : forall e p k, e ∈ bl -> jobs s !! entry_id e = Some p -> k ∈ job_keys (p_job p) ->
    exists e', e' ∈ bl /\ entry_leb e' e = true /\ refuses b0 now wake (jobs s) e' k;
  se_result : match r with
    | None => jobs s' = jobs s /\ bl = es /\ ready s' = [] /\ unspent now b0 (budgets s')
    | Some d => exists e p, es = bl ++ e :: ready s' /\ jobs s !! entry_id e = Some p /\
        jobs s' = delete (entry_id e) (jobs s) /\
        job d = p_job p /\ route d ∈ _eligible_routes (p_job p) /\ dispatched_monotonic_ns d = now /\
        affords b0 (budget_key (route d)) (endpoint_cost (p_job p)) now = true /\
        forall e' q, e' ∈ bl -> jobs s !! entry_id e' = Some q ->
          budget_key (route d) ∉ job_keys (p_job q)
    end
}.

Lemma ready_live b0 s now scan e rest : scan_ok b0 s now scan -> ready s = e :: rest ->
  exists p, live s e = Some p /\ jobs s !! entry_id e = Some p.
Proof.
  intros [S1 _ _ _ _ _ _] Er. pose proof (h_ready _ _ _ _ (s_heaps _ S1)) as Hr. cbn in Hr.
  rewrite Er in Hr. apply Forall_app in Hr as [_ Hr]. apply Forall_inv in Hr as (p & Hp & He & _).
  exists p. split; [|done]. unfold live. rewrite Hp, He. cbn. by rewrite Z.eqb_refl.
Qed.

Lemma available_spec keys bl k :
  k ∈ filter (fun k => k ∉ bl) (fromkeys [] keys) <-> k ∈ keys /\ (k ∉ (bl : list BudgetKey)).
Proof.
  rewrite list_elem_of_filter, elem_of_fromkeys. split; [naive_solver|].
  intros [H1 H2]. split_and!; [done|done|apply not_elem_of_nil].
Qed.

Lemma dispatch_ok j r now : 0 <= now -> r ∈ _eligible_routes j ->
  dispatch_init j r now = Ok {| RestModels.job := j; route := r; dispatched_monotonic_ns := now |}.
Proof.
  intros Hn Hr. pose proof (eligible_sub _ _ Hr) as Hin. unfold dispatch_init.
  rewrite bool_decide_eq_true_2 by done. cbn [negb raise_if]. rewrite nonnegative_int_ok by done.
  cbn [rbind]. unfold _eligible_routes in Hr. destruct (generation_source j) as [src|]; [|done].
  apply list_elem_of_filter in Hr as [He _]. by rewrite bool_decide_eq_true_2.
Qed.

Lemma find_eligible j k : k ∈ job_keys j ->
  exists r, find (fun r => bool_decide (budget_key r = k)) (_eligible_routes j) = Some r /\
    r ∈ _eligible_routes j /\ budget_key r = k.
Proof.
  intros Hk. destruct (find _ _) as [r|] eqn:E.
  - apply find_some in E as [E1 E2]. exists r. bool_prop. by rewrite list_elem_of_In.
  - unfold job_keys in Hk. apply list_elem_of_fmap in Hk as (r & -> & Hr).
    apply list_elem_of_In in Hr. pose proof (find_none _ _ E _ Hr) as Hf. cbn in Hf.
    by rewrite bool_decide_eq_true_2 in Hf.
Qed.

(** The pass that selects. *)
Lemma scan_select b0 s now scan e rest p b' r : scan_ok b0 s now scan -> 0 <= now ->
  ready s = e :: rest -> jobs s !! entry_id e = Some p ->
  budget_wf b' -> (forall k c, can_hold (budgets s) k c -> can_hold b' k c) ->
  r ∈ _eligible_routes (p_job p) -> budget_key r ∉ blocked_budgets scan ->
  affords b0 (budget_key r) (endpoint_cost (p_job p)) now = true ->
  scan_end b0 s now (blocked scan ++ e :: rest)
    (_complete_pending (set_budgets (set_heaps s (future s) rest) b') p)
    (Some {| RestModels.job := p_job p; route := r; dispatched_monotonic_ns := now |})
    (scan_ready_ns scan) (blocked scan).
Proof.
  intros [S1 S2 S3 S4 S5 S6 S7] Hnow Er Hp Hw Hc Hr Hk Ha. rewrite Er in S1.
  destruct (complete_ok s b' p e _ _ S1 Hp Hw Hc) as [Hs Hj]. split.
  - done.
  - by split.
  - done.
  - intros e1 q k H1 H2 H3. by apply (S6 e1 q k).
  - exists e, p. cbn. split_and!; try done. intros e' q He' Hq Hin. by apply Hk, (S6 e' q).
Qed.

Lemma scan_end_kept b0 s s1 now es s' r wake bl :
  scan_end b0 s1 now es s' r wake bl -> frame s s1 -> jobs s1 = jobs s ->
  future s1 = future s -> scan_end b0 s now es s' r wake bl.
Proof. intros [E1 E2 E5 E3 E4] Hf Hj Hfu. rewrite Hj in E3, E4. split; try done; by etransitivity. Qed.

(** The refused branch: [earliest_ready] asks the refused budgets. *)
Lemma refused_ok b0 s now scan e rest p b' keys :
  scan_ok b0 s now scan -> 0 <= now -> ready s = e :: rest -> jobs s !! entry_id e = Some p ->
  keys = filter (fun k => k ∉ blocked_budgets scan) (fromkeys [] (job_keys (p_job p))) ->
  (forall k, k ∈ keys -> affords b0 k (endpoint_cost (p_job p)) now = false) ->
  unspent now (budgets s) b' ->
  let s1 := set_budgets (set_heaps s (future s) rest) b' in
  exists b1 r, earliest_ready keys (endpoint_cost (p_job p)) now (scan_ready_ns scan) s1
      = (set_budgets s1 b1, Ok r) /\
    scan_ok b0 (set_budgets s1 b1) now
      {| blocked := blocked scan ++ [e]; blocked_budgets := blocked_budgets scan ++ keys;
         scan_ready_ns := r |}.
Proof.
  intros Hs Hnow Er Hp Hkeys Hno Hu s1.
  pose proof (fits_keys _ _ (s_fits _ (sc_sched _ _ _ _ Hs) _ _ Hp)) as Hfit. cbn in Hfit.
  assert (Hin : forall k, k ∈ keys <-> k ∈ job_keys (p_job p) /\ k ∉ blocked_budgets scan).
  { intros k. rewrite Hkeys. apply available_spec. }
  pose proof (fits_keys _ _ (sc_fits _ _ _ _ Hs _ _ Hp)) as Hfit0.
  pose proof (unspent_trans _ _ _ _ (sc_budgets _ _ _ _ Hs) Hu) as Hu0.
  rewrite Forall_forall in Hfit, Hfit0.
  destruct (earliest_ready_ok keys (endpoint_cost (p_job p)) now s1 (scan_ready_ns scan))
    as (b1 & r & E & Hu1 & Hun & Hwake); [apply Hu|done| | |].
  { apply Forall_forall. intros k [Hk _]%Hin. by apply Hu, Hfit. }
  { apply Forall_forall. intros k Hk. pose proof (proj1 (Hin k) Hk) as [Hk' _]. cbn.
    rewrite (proj2 (proj2 Hu0)) by (done || by apply Hfit0). by apply Hno. }
  exists b1, r. split; [done|].
  apply (scan_block b0 s now scan e rest p b1 keys r); try done.
  - by eapply unspent_trans.
  - intros k Hk. destruct (base.decide (k ∈ blocked_budgets scan)); [by left|right; by apply Hin].
  - intros k Hk. pose proof (proj1 (Hin k) Hk) as [Hk' _]. exists p.
    split_and!; [done|done|by apply Hno|]. intros t Ht Hr.
    rewrite <- (proj2 (proj2 Hu0)) by (done || by apply Hfit0). by apply Hwake.
Qed.

(** What [try_acquire_one] answers for the keys that are not blocked. *)
Lemma pick_ok b0 s now scan e rest p keys :
  scan_ok b0 s now scan -> 0 <= now -> ready s = e :: rest -> jobs s !! entry_id e = Some p ->
  keys = filter (fun k => k ∉ blocked_budgets scan) (fromkeys [] (job_keys (p_job p))) ->
  keys <> [] ->
  exists b' r, try_acquire_one keys (endpoint_cost (p_job p)) now (budgets s) = (b', Ok r) /\
    match r with
    | Some k => k ∈ job_keys (p_job p) /\ k ∉ blocked_budgets scan /\
        affords b0 k (endpoint_cost (p_job p)) now = true /\
        budget_wf b' /\ (forall k c, can_hold (budgets s) k c -> can_hold b' k c)
    | None => unspent now (budgets s) b' /\
        forall k, k ∈ keys -> affords b0 k (endpoint_cost (p_job p)) now = false
    end.
Proof.
  intros Hs Hnow Er Hp Hkeys Hne.
  pose proof (fits_keys _ _ (sc_fits _ _ _ _ Hs _ _ Hp)) as Hfit0.
  pose proof (fits_keys _ _ (s_fits _ (sc_sched _ _ _ _ Hs) _ _ Hp)) as Hfit. cbn in Hfit.
  assert (Hav : forall k, k ∈ keys <-> k ∈ job_keys (p_job p) /\ k ∉ blocked_budgets scan).
  { intros k. rewrite Hkeys. apply available_spec. }
  destruct (acquire_law (budgets s) keys (endpoint_cost (p_job p)) now) as (b' & Eacq & Hw & Hc & Ha).
  { apply (sc_budgets _ _ _ _ Hs). } { done. } { done. }
  { apply Forall_forall. intros k Hk. apply (proj1 (Forall_forall _ _) Hfit). by apply Hav. }
  assert (Haff : forall k, k ∈ keys -> affords (budgets s) k (endpoint_cost (p_job p)) now
            = affords b0 k (endpoint_cost (p_job p)) now).
  { intros k Hk. apply (sc_budgets _ _ _ _ Hs); [|done].
    apply (proj1 (Forall_forall _ _) Hfit0). by apply Hav. }
  eexists _, _. split; [done|]. destruct (find _ keys) as [k|] eqn:Ef.
  - apply find_some in Ef as [Hk Hok]. apply list_elem_of_In in Hk. rewrite Haff in Hok by done.
    apply Hav in Hk as [Hk Hnb]. by split_and!.
  - split; [by apply Ha|]. intros k Hk. rewrite <- Haff by done. apply list_elem_of_In in Hk.
    apply (find_none _ _ Ef _ Hk).
Qed.

Lemma select_loop_ok b0 fuel now : 0 <= now -> forall s scan,
  scan_ok b0 s now scan -> (length (ready s) <= fuel)%nat ->
  exists s' r scan', select_loop fuel now scan s = (s', Ok (r, scan')) /\
    scan_end b0 s now (blocked scan ++ ready s) s' r (scan_ready_ns scan') (blocked scan').
Proof.
  intros Hnow. induction fuel as [|fuel IH]; intros s scan Hs Hl; cbn [select_loop].
  all: destruct (ready s) as [|e rest] eqn:Er; [|try (cbn in Hl; lia)].
  1, 2: exists s, None, scan; split; [done|]; rewrite app_nil_r; split;
    [apply Hs|done|done| |split_and!; try done; apply Hs];
    intros e p k H1 H2 H3; by apply (sc_blocked _ _ _ _ Hs e p k).
  destruct (ready_live _ _ _ _ _ _ Hs Er) as (p & Hlive & Hp).
  change (live (set_heaps s (future s) rest) e) with (live s e). rewrite Hlive.
  cbv zeta. rewrite (sc_live _ _ _ _ Hs _ _ Hp).
  change (budget_key <$> _eligible_routes (p_job p)) with (job_keys (p_job p)).
  assert (Hnext : forall s1 scan1, scan_ok b0 s1 now scan1 -> ready s1 = rest -> frame s s1 ->
     jobs s1 = jobs s -> future s1 = future s -> blocked scan1 = blocked scan ++ [e] ->
     exists s' r scan', select_loop fuel now scan1 s1 = (s', Ok (r, scan')) /\
       scan_end b0 s now (blocked scan ++ e :: rest) s' r (scan_ready_ns scan') (blocked scan')).
  { intros s1 scan1 Hs1 Hr1 Hf Hj Hfu Hb. destruct (IH s1 scan1 Hs1) as (s' & r & scan' & E & He).
    { rewrite Hr1. cbn in Hl. lia. }
    exists s', r, scan'. rewrite Hb, Hr1, <- app_assoc in He. split; [done|]. by eapply scan_end_kept. }
  remember (filter _ (fromkeys [] (job_keys (p_job p)))) as keys eqn:Hkeys.
  destruct keys as [|k0 keys0] eqn:Ek.
  { apply Hnext; [|done|by split|done|done|done].
    apply (scan_block b0 s now scan e rest p (budgets s) [] _); try done.
    - apply unspent_refl, (s_budgets _ (sc_sched _ _ _ _ Hs)).
    - intros k Hk. left. destruct (base.decide (k ∈ blocked_budgets scan)); [done|].
      exfalso. apply (not_elem_of_nil k). rewrite Hkeys. by apply available_spec.
    - by intros k ?%not_elem_of_nil. }
  rewrite <- Ek in *.
  destruct (pick_ok b0 s now scan e rest p keys) as (b' & r & Eacq & Hr); try done; [by rewrite Ek|].
  cbn [budgets set_heaps set_tables]. rewrite Eacq. destruct r as [k|].
  - destruct Hr as (Hk & Hnb & Hok & Hw & Hc). destruct (find_eligible _ _ Hk) as (r & -> & Hr & <-).
    rewrite dispatch_ok by done. cbn [rbind]. eexists _, _, scan. split; [done|]. by eapply scan_select.
  - destruct Hr as [Hu Hno]. destruct (refused_ok b0 s now scan e rest p b' keys) as (b1 & r & E & Hs1); try done.
    unfold mbind. rewrite E. by apply Hnext.
Qed.

(** ** [_next_ready] *)
Definition due (now : Z) (p : _Pending) : Prop := ready_monotonic_ns (p_job p) <= now.

(** The budget [k] of the job [q] cannot pay for a due job that is [q] or goes
    before it, neither now nor at any instant before [wake]. *)
Definition held_up (b : B) (now : Z) (wake : option Z) (j : gmap string _Pending) (q : _Pending)
    (k : BudgetKey) : Prop :=
  exists i q', j !! i = Some q' /\ due now q' /\ at_or_before q' q = true /\
    k ∈ job_keys (p_job q') /\ affords b k (endpoint_cost (p_job q')) now = false /\
    forall t, now <= t -> until wake t -> affords b k (endpoint_cost (p_job q')) t = false.

Lemma entry_rank e e' : entry_leb e e' = true -> lex_leb Z.eqb Z.leb Z.leb e.1 e'.1 = true.
Proof.
  destruct e as [[a b] i], e' as [[c d] k]. unfold entry_leb, lex_leb. cbn.
  destruct (Z.eqb_spec a c), (Z.eqb_spec b d); cbn; lia.
Qed.

Lemma ready_rank n j f r e p : heaps_ok n j f r -> e ∈ r -> j !! entry_id e = Some p ->
  e.1 = rank p /\ due n p.
Proof.
  intros Hh He Hp. destruct (proj1 (Forall_forall _ _) (h_ready _ _ _ _ Hh) e He) as (q & Hq & E & Hd).
  rewrite Hp in Hq. injection Hq as <-. by split.
Qed.

Lemma due_in_ready n j f r i q : heaps_ok n j f r -> Forall (fun e => n < e.1.1) f ->
  j !! i = Some q -> due n q -> exists e, e ∈ r /\ entry_id e = i.
Proof.
  intros Hh Hf Hq Hd. pose proof (h_all _ _ _ _ Hh i ltac:(by exists q)) as Hi.
  apply list_elem_of_fmap in Hi as (e & -> & He). apply elem_of_app in He as [He|He]; [|by exists e].
  destruct (proj1 (Forall_forall _ _) (h_future _ _ _ _ Hh) e He) as (p & Hp & E).
  rewrite Hq in Hp. injection Hp as <-. pose proof (proj1 (Forall_forall _ _) Hf e He) as Hlt.
  cbn in Hlt. rewrite E in Hlt. unfold due in Hd. cbn in Hlt. lia.
Qed.

(** What a blocked entry is held up by. *)
Lemma blocked_held b0 now wake j f r (bl : list entry) e q k :
  heaps_ok now j f r -> (forall e, e ∈ bl -> e ∈ r) ->
  (forall e p k, e ∈ bl -> j !! entry_id e = Some p -> k ∈ job_keys (p_job p) ->
    exists e', e' ∈ bl /\ entry_leb e' e = true /\ refuses b0 now wake j e' k) ->
  e ∈ bl -> j !! entry_id e = Some q -> k ∈ job_keys (p_job q) -> held_up b0 now wake j q k.
Proof.
  intros Hh Hsub Hb He Hq Hk.
  destruct (Hb e q k He Hq Hk) as (e' & He' & Hle & q' & Hq' & Hk' & Ha & Hw).
  destruct (ready_rank _ _ _ _ _ _ Hh (Hsub _ He) Hq) as [E1 _].
  destruct (ready_rank _ _ _ _ _ _ Hh (Hsub _ He') Hq') as [E2 Hd].
  exists (entry_id e'), q'. do 2 (split; [done|]). split; [|done].
  unfold at_or_before. rewrite <- E1, <- E2. by apply entry_rank.
Qed.

Record next_ready_post s (now : Z) s' (r : option RestDispatch) : Prop := {
  np_sched : sched_ok s';
  np_frame : frame (set_last_now s now) s';
  np_result : let j := unexpired now (jobs s) in
    match r with
    | None => jobs s' = j /\ unspent now (budgets s) (budgets s') /\
        Forall (fun e => now < e.1.1) (future s') /\ forall i q k, j !! i = Some q -> due now q ->
        k ∈ job_keys (p_job q) -> held_up (budgets s) now (next_budget_ready_ns s') j q k
    | Some d => exists i p, j !! i = Some p /\ jobs s' = delete i j /\
        job d = p_job p /\ due now p /\ dispatched_monotonic_ns d = now /\
        route d ∈ _eligible_routes (p_job p) /\
        affords (budgets s) (budget_key (route d)) (endpoint_cost (p_job p)) now = true /\
        forall i' q, j !! i' = Some q -> due now q -> at_or_before p q = false ->
          budget_key (route d) ∉ job_keys (p_job q) /\
          forall k, k ∈ job_keys (p_job q) ->
            held_up (budgets s) now (next_budget_ready_ns s') j q k
    end
}.

(** The end of the loop, read as a statement on jobs. *)
Lemma scan_end_post s0 s now s' r wake bl :
  sched_ok s -> last_now_ns s = now -> Forall (fun e => now < e.1.1) (future s) ->
  jobs s = unexpired now (jobs s0) -> budgets s = budgets s0 ->
  frame (set_last_now s0 now) s ->
  scan_end (budgets s) s now (ready s) s' r wake bl ->
  next_ready_post s0 now (set_next_budget (set_heaps s' (future s') (bl ++ ready s')) wake) r.
Proof.
  intros Hs Hn Hf Hj Hb Hfr [E1 E2 E5 E3 E4]. pose proof (s_heaps _ Hs) as Hh. rewrite Hn in Hh.
  rewrite Hb in E3, E4. split.
  - by apply set_next_budget_ok.
  - etransitivity; [done|]. by destruct E2; split.
  - rewrite Hj in *. destruct r as [d|]; cbn.
    + destruct E4 as (e & p & Hes & Hp & Hjobs & Hd & Hr & Hdn & Haf & Hno).
      assert (He : e ∈ ready s) by (rewrite Hes; apply elem_of_app; right; left).
      destruct (ready_rank _ _ _ _ _ _ Hh He Hp) as [Er Hdue].
      exists (entry_id e), p. split_and!; try done. intros i q Hq Hqd Hlt.
      destruct (due_in_ready _ _ _ _ _ _ Hh Hf Hq Hqd) as (e' & He' & <-).
      assert (Hbl : e' ∈ bl).
      { rewrite Hes in He'. apply elem_of_app in He' as [He'|He']; [done|exfalso].
        assert (Hle : entry_leb e e' = true).
        { apply (StronglySorted_from _ bl e (ready s')); [apply _| |done]. rewrite <- Hes.
          apply (h_rsorted _ _ _ _ Hh). }
        apply entry_rank in Hle. unfold at_or_before in Hlt. rewrite Er in Hle.
        assert (He1 : e' ∈ ready s) by (rewrite Hes; apply elem_of_app; by right).
        destruct (ready_rank _ _ _ _ _ _ Hh He1 Hq) as [Eq _]. rewrite Eq in Hle. congruence. }
      split; [by apply (Hno e' q)|]. intros k Hk.
      eapply (blocked_held _ _ _ _ _ _ bl e'); try done.
      intros x Hx. rewrite Hes. apply elem_of_app. by left.
    + destruct E4 as (Hjobs & -> & _ & Hu). split; [done|]. split; [done|]. split; [by cbn; rewrite E5|]. intros i q k Hq Hqd Hk.
      destruct (due_in_ready _ _ _ _ _ _ Hh Hf Hq Hqd) as (e' & He' & <-).
      by eapply (blocked_held _ _ _ _ _ _ (ready s) e').
Qed.

Lemma next_ready_spec s clock_ns : sched_ok s -> closed s = false -> 0 <= clock_ns ->
  let now := Z.max (last_now_ns s) clock_ns in
  exists s' r, _next_ready clock_ns s = (s', Ok r) /\ next_ready_post s now s' r.
Proof.
  intros Hs Hc Hclock now. unfold _next_ready. rewrite Hc.
  unfold mbind at 1. rewrite now_ns_ok by done. fold now.
  assert (Hs1 : sched_ok (set_last_now s now)) by (apply set_now_ok; [done|lia]).
  destruct (_expire_all (set_last_now s now) now) as [s2 n2] eqn:E2.
  destruct (expire_all_ok _ _ _ _ Hs1 E2) as (Hs2 & F2 & B2 & _ & J2). cbn in B2, J2.
  assert (Hne : none_expired s2 now).
  { intros i p Hp. rewrite J2 in Hp. by apply unexpired_lookup in Hp as [_ Hp]. }
  assert (Hn2 : last_now_ns s2 = now) by (by rewrite (f_now _ _ F2)).
  destruct (promote_loop_ok (length (future s2)) now s2 Hs2 Hne Hn2 ltac:(lia)) as (s3 & E3 & Hs3 & J3 & Hf3).
  unfold mbind at 1, _promote_ready. rewrite E3.
  assert (Hj3 : jobs s3 = jobs s2) by (by rewrite J3).
  assert (Hb3 : budgets s3 = budgets s2) by (by rewrite J3).
  assert (F3 : frame s2 s3) by (by rewrite J3; split).
  assert (Hn3 : last_now_ns s3 = now) by (by rewrite (f_now _ _ F3)).
  destruct (select_loop_ok (budgets s3) (length (ready s3)) now ltac:(pose proof (s_now _ Hs); lia) s3
    {| blocked := []; blocked_budgets := []; scan_ready_ns := None |})
    as (s4 & r & scan & E4 & He).
  { split; cbn; try done.
    - by apply set_heaps_ok; [|apply Hs3].
    - intros i p Hp. rewrite Hj3 in Hp. by eapply Hne.
    - apply unspent_refl, Hs3.
    - apply Hs3.
    - by intros e p k ?%not_elem_of_nil.
    - by intros k ?%not_elem_of_nil. }
  { lia. }
  unfold mbind. rewrite E4. eexists _, r. split; [done|].
  rewrite push_back by apply (h_rsorted _ _ _ _ (s_heaps _ (se_sched _ _ _ _ _ _ _ _ He))).
  apply (scan_end_post s s3); try done; [by rewrite Hj3|by rewrite Hb3|by etransitivity].
Qed.

(** ** Waiting *)
Lemma foldl_min_le l : forall c, foldl Z.min c l <= c /\ Forall (fun x => foldl Z.min c l <= x) l.
Proof.
  induction l as [|x l IH]; intros c; cbn [foldl]; [split; [lia|done]|].
  destruct (IH (Z.min c x)) as [H1 H2]. split; [lia|]. constructor; [lia|done].
Qed.

(** Before the wake-up instant no refused budget can pay, no job becomes due and no
    deadline passes. *)
Lemma before_wakeup s now t : sched_ok s -> now <= t -> until (_next_wait_deadline_ns s now) t ->
  until (next_budget_ready_ns s) t /\ Forall (fun e => t < e.1.1) (future s) /\ none_expired s t.
Proof.
  intros Hs Hnt. unfold _next_wait_deadline_ns.
  set (budget := match next_budget_ready_ns s with Some _ => _ | None => [] end).
  set (hd := match future s with e :: _ => _ | [] => [] end).
  set (wakes := omap _ _). intros Hu.
  assert (Hall : forall x, x ∈ budget ++ hd ++ wakes -> t < x).
  { intros x Hx. destruct (budget ++ hd ++ wakes) as [|c cs]; [by apply not_elem_of_nil in Hx|].
    cbn in Hu. destruct (foldl_min_le cs c) as [H1 H2]. apply elem_of_cons in Hx as [->|Hx]; [lia|].
    pose proof (proj1 (Forall_forall _ _) H2 x Hx) as H3. cbn in H3. lia. }
  split; [|split].
  - unfold budget in Hall. destruct (next_budget_ready_ns s) as [r|]; [|done]. cbn.
    assert (t < Z.max now r) by (apply Hall; left). lia.
  - pose proof (h_fsorted _ _ _ _ (s_heaps _ Hs)) as Hf. unfold hd in Hall.
    destruct (future s) as [|e rest]; [done|].
    assert (He : t < Z.max now e.1.1) by (apply Hall, elem_of_app; right; left).
    apply StronglySorted_inv in Hf as [_ Hf]. constructor; [lia|].
    eapply Forall_impl; [done|]. intros e' Hle. apply entry_leb_time in Hle. lia.
  - intros i p Hp. unfold job_expired. destruct (deadline_ns (p_job p)) as [d|] eqn:Ed; [|done].
    assert (t < d + 1); [|lia]. apply Hall. rewrite !elem_of_app. right. right.
    apply list_elem_of_omap. exists p. rewrite Ed. split; [|done].
    apply elem_of_pending_values; [apply (s_tables _ Hs)|]. by rewrite (t_id _ _ _ (s_tables _ Hs) _ _ Hp).
Qed.

Lemma rank_unique s i i' p p' : sched_ok s -> jobs s !! i = Some p -> jobs s !! i' = Some p' ->
  at_or_before p p' = true -> at_or_before p' p = true -> i = i'.
Proof.
  intros Hs Hp Hp' H1 H2. apply (t_unique _ _ _ (s_tables _ Hs) _ _ _ _ Hp Hp').
  unfold at_or_before, lex_leb, rank in *. cbn in *.
  destruct (Z.eqb_spec (priority_value (priority (p_job p))) (priority_value (priority (p_job p'))));
    destruct (Z.eqb_spec (priority_value (priority (p_job p'))) (priority_value (priority (p_job p)))); lia.
Qed.

Lemma unexpired_all (m : gmap string _Pending) t :
  (forall i p, m !! i = Some p -> job_expired t (p_job p) = false) -> unexpired t m = m.
Proof.
  intros Hm. apply map_eq. intros i. apply option_eq. intros p. rewrite unexpired_lookup.
  split; [by intros []|]. intros Hp. split; [done|by eapply Hm].
Qed.

Lemma due_stays s now t i p : sched_ok s -> last_now_ns s = now ->
  Forall (fun e => t < e.1.1) (future s) -> jobs s !! i = Some p -> due t p -> due now p.
Proof.
  intros Hs <- Hf Hp Hd. pose proof (s_heaps _ Hs) as Hh.
  pose proof (h_all _ _ _ _ Hh i ltac:(by exists p)) as Hi.
  apply list_elem_of_fmap in Hi as (e & -> & He). apply elem_of_app in He as [He|He].
  - destruct (proj1 (Forall_forall _ _) (h_future _ _ _ _ Hh) e He) as (q & Hq & E).
    rewrite Hp in Hq. injection Hq as <-. pose proof (proj1 (Forall_forall _ _) Hf e He) as Hlt.
    cbn in Hlt. rewrite E in Hlt. unfold due in Hd. cbn in Hlt. lia.
  - by apply (ready_rank _ _ _ _ _ _ Hh He Hp).
Qed.

Definition fits_all (b : B) (m : gmap string _Pending) : Prop :=
  forall i p, m !! i = Some p -> fits b (p_job p).

(** While the wake-up instant has not come, another call selects nothing. *)
Lemma still_nothing s0 now1 s now t : fits_all (budgets s0) (jobs s) ->
  next_ready_post s0 now1 s None -> closed s = false ->
  now1 <= now -> now <= t -> 0 <= t -> until (next_budget_ready_ns s) t ->
  Forall (fun e => t < e.1.1) (future s) -> none_expired s t ->
  exists s', _next_ready t (clear_changed (set_last_now s now)) = (s', Ok None) /\ jobs s' = jobs s.
Proof.
  intros Hfit [Hs Hf (Hj & (_ & _ & Hu) & _ & Hheld)] Hcl Hn1 Hnt Ht Hwake Hfut Hne.
  pose proof (f_now _ _ Hf) as Hlast. cbn in Hlast.
  assert (Hs1 : sched_ok (clear_changed (set_last_now s now))).
  { apply clear_changed_ok, set_now_ok; [done|lia]. }
  destruct (next_ready_spec _ t Hs1 Hcl Ht) as (s' & r & E & [_ _ Hr]). cbn in Hr.
  rewrite Z.max_r in Hr by done. rewrite unexpired_all in Hr by apply Hne.
  exists s'. destruct r as [d|]; [exfalso|by destruct Hr as [Hr _]].
  destruct Hr as (i & p & Hp & _ & _ & Hd & _ & Hroute & Hpay & Hbefore).
  pose proof (due_stays _ _ _ _ _ Hs Hlast Hfut Hp Hd) as Hd1.
  assert (Hk : budget_key (route d) ∈ job_keys (p_job p)) by by apply list_elem_of_fmap_2.
  destruct (Hheld i p _ ltac:(by rewrite <- Hj) Hd1 Hk) as (i' & q & Hq & Hdq & Hle & Hkq & _ & Hno).
  rewrite <- Hj in Hq.
  assert (Hrefused : affords (budgets s) (budget_key (route d)) (endpoint_cost (p_job q)) t = false).
  { rewrite Hu; [apply Hno; [lia|done]| |lia]. pose proof (fits_keys _ _ (Hfit _ _ Hq)) as Hh.
    by apply (proj1 (Forall_forall _ _) Hh). }
  destruct (at_or_before p q) eqn:Epq.
  - assert (i = i') as <- by by eapply rank_unique. rewrite Hp in Hq. injection Hq as <-. congruence.
  - destruct (Hbefore i' q Hq) as [Hn _]; [unfold due in *; lia|done|done].
Qed.

(** C1: the scheduler dispatches the right job.  A call of [_next_ready] at [now] on
    a consistent, open scheduler does not raise and leaves it consistent.  First the
    jobs past their deadline go, and only these.  Then, if it returns a dispatch,
    that is of a pending job which is due, on one of its eligible routes, whose
    budget can pay; exactly this job leaves the table; and no due job that goes
    before it in the order of priority and submission could have used that budget:
    each of those is held up on every budget it may draw on, by itself or by a job
    before it whose cost the budget cannot pay.  If it returns none, every due job
    is held up like that. *)
Theorem next_ready_exact s (clock_ns : Z) :
  sched_ok s -> closed s = false -> 0 <= clock_ns ->
  let now := Z.max (last_now_ns s) clock_ns in
  let pending := unexpired now (jobs s) in
  exists s' r, _next_ready clock_ns s = (s', Ok r) /\ sched_ok s' /\
    match r with
    | Some d => exists i p, pending !! i = Some p /\ jobs s' = delete i pending /\
        job d = p_job p /\ due now p /\ dispatched_monotonic_ns d = now /\
        route d ∈ _eligible_routes (p_job p) /\
        affords (budgets s) (budget_key (route d)) (endpoint_cost (p_job p)) now = true /\
        forall i' q, pending !! i' = Some q -> due now q -> at_or_before p q = false ->
          budget_key (route d) ∉ job_keys (p_job q) /\
          forall k, k ∈ job_keys (p_job q) ->
            held_up (budgets s) now (next_budget_ready_ns s') pending q k
    | None => jobs s' = pending /\ forall i q k, pending !! i = Some q -> due now q ->
        k ∈ job_keys (p_job q) -> held_up (budgets s) now (next_budget_ready_ns s') pending q k
    end.
Proof.
  intros Hs Hc Hclock now pending.
  destruct (next_ready_spec s clock_ns Hs Hc Hclock) as (s' & r & E & [H1 _ H2]).
  exists s', r. split; [done|]. split; [done|]. destruct r as [d|]; [exact H2|].
  destruct H2 as (H2 & _ & _ & H3). by split.
Qed.

(** C2: no wake-up is lost.  One turn of the loop of [next_ready] dispatches a job or
    goes to sleep until an instant it computes; at any instant before that one, and
    as long as nothing else happens, [_next_ready] would again select nothing and
    no job would expire. *)
Theorem no_lost_wakeup s (clock_ns clock_ns' : Z) :
  sched_ok s -> closed s = false -> 0 <= clock_ns -> 0 <= clock_ns' ->
  exists s1 pass, next_ready_pass clock_ns clock_ns' s = (s1, Ok pass) /\ sched_ok s1 /\
    match pass with
    | Dispatched _ => True
    | Again => False
    | WaitUntil deadline now => now = last_now_ns s1 /\
        forall t, now <= t -> until deadline t ->
          exists s2, _next_ready t s1 = (s2, Ok None) /\ jobs s2 = jobs s1
    end.
Proof.
  intros Hs Hcl Hc Hc'. unfold next_ready_pass. rewrite Hcl.
  destruct (next_ready_spec s clock_ns Hs Hcl Hc) as (s1 & r & E & HP).
  pose proof HP as [Hs1 Hf Hr]. unfold mbind at 1. rewrite E. destruct r as [d|].
  { exists s1, (Dispatched d). by split_and!. }
  unfold mbind. rewrite now_ns_ok by done. cbv zeta. rewrite Z.eqb_refl.
  pose proof (f_now _ _ Hf) as Hlast. cbn in Hlast.
  set (now := Z.max (last_now_ns s1) clock_ns').
  assert (Hs2 : sched_ok (set_last_now s1 now)) by (subst now; auto with py).
  eexists _, _. split; [done|]. split; [by auto with py|]. split; [done|].
  intros t Ht Hu. destruct (before_wakeup _ now t Hs2 Ht Hu) as (H1 & H2 & H3).
  pose proof (s_now _ Hs1) as [Hpos _].
  apply (still_nothing s (Z.max (last_now_ns s) clock_ns) s1 now t);
    try done; [|by rewrite (f_closed _ _ Hf)|lia|lia].
  intros i p Hp. destruct Hr as (Hj & _). rewrite Hj in Hp. apply unexpired_lookup in Hp as [Hp _].
  by eapply s_fits.
Qed.
End Selection.

(** ** Concrete values *)
Module SelectionSamples.
Import SchedulerSamples.

(** The core job goes first; the bucket cannot pay for the snapshot before three
    fifths of it are refilled. *)
Definition sample_one : RestScheduler Registry.t := (_next_ready 10 sample_two).1.

Lemma sample_one_ok : sched_ok sample_one.
Proof.
  destruct (next_ready_spec sample_two 10 sample_two_ok) as (s' & r & E & [H _ _]); [reflexivity|lia|].
  unfold sample_one. by rewrite E.
Qed.

Example sample_dispatch :
  match (_next_ready 10 sample_two).2 with Ok (Some d) => job_id (job d) | _ => "" end = "core".
Proof. vm_compute. reflexivity. Qed.

Example sample_wait :
  (next_ready_pass 10 10 sample_one).2 = Ok (WaitUntil (Some 2400000010) 10).
Proof. vm_compute. reflexivity. Qed.

Lemma next_ready_exact_witness :
  exists s' d p, _next_ready 10 sample_two = (s', Ok (Some d)) /\ sched_ok s' /\
    job d = p_job p /\ due 10 p /\ dispatched_monotonic_ns d = 10.
Proof.
  destruct (next_ready_exact sample_two 10 sample_two_ok) as (s' & r & E & Hs & Hr); [reflexivity|lia|].
  assert (Hn : Z.max (last_now_ns sample_two) 10 = 10) by (vm_compute; reflexivity).
  rewrite Hn in Hr. destruct r as [d|].
  - exists s', d. destruct Hr as (i & p & _ & _ & Hj & Hd & Ht & _). exists p. by split_and!.
  - exfalso. assert (E' : (_next_ready 10 sample_two).2 = Ok None) by (rewrite E; reflexivity).
    revert E'. vm_compute. discriminate.
Defined.

Lemma no_lost_wakeup_witness :
  exists s1, next_ready_pass 10 10 sample_one = (s1, Ok (WaitUntil (Some 2400000010) 10)) /\
    exists s2, _next_ready 2400000009 s1 = (s2, Ok None) /\ jobs s2 = jobs s1.
Proof.
  destruct (no_lost_wakeup sample_one 10 10 sample_one_ok) as (s1 & pass & E & _ & Hp);
    [reflexivity|lia|lia|].
  assert (Ep : Ok pass = Ok (WaitUntil (Some 2400000010) 10)).
  { change (Ok pass) with (snd (s1, Ok pass)). rewrite <- E. vm_compute. reflexivity. }
  injection Ep as ->. exists s1. split; [exact E|]. apply Hp; [lia|cbn; lia].
Defined.
End SelectionSamples.
