(* ===== verification/RestRuns.v ===== *)
(** Runs of the scheduler of [scheduler/rest.py]: any sequence of submissions, calls of
    [_next_ready], closes and notifications. *)
From S2P Require Import Prelude PyDecimal RateLimit Domain RestModels Budgets RestScheduler RestSubmit RestSelect.

Section Runs.
Context {B : Type} `{BL : BudgetLaws B}.
Implicit Types s : RestScheduler B.

(** ** Runs *)
Inductive op : Type :=
| Submit (j : RestJob) (clock_ns : Z)
| NextReady (clock_ns : Z)
| Close
| Notify.

(** A caller submits jobs built by their constructor; the clock is not negative. *)
Definition op_ok (o : op) : Prop :=
  match o with
  | Submit j clock_ns => submittable j /\ 0 <= clock_ns
  | NextReady clock_ns => 0 <= clock_ns
  | Close | Notify => True
  end.

Definition step s (o : op) : RestScheduler B :=
  match o with
  | Submit j clock_ns => (submit_nowait j clock_ns s).1
  | NextReady clock_ns => (_next_ready clock_ns s).1
  | Close => close s
  | Notify => notify_resources_changed s
  end.

Definition run s (ops : list op) : RestScheduler B := foldl step s ops.

Lemma step_ok s o : sched_ok s -> op_ok o -> sched_ok (step s o) /\ same_limits s (step s o).
Proof.
  intros Hs Ho. destruct o as [j c|c| |]; cbn [step].
  - destruct Ho as [Hj Hc]. destruct (closed s) eqn:Ecl.
    + unfold submit_nowait. by rewrite Ecl.
    + destruct (submit_ok s j c Hs Hj Hc Ecl) as (s' & res & -> & H1 & H2 & _). by split.
  - destruct (closed s) eqn:Ecl.
    + unfold _next_ready. by rewrite Ecl.
    + destruct (next_ready_spec s c Hs Ecl Ho) as (s' & r & -> & [H1 H2 _]).
      split; [done|]. by destruct H2.
  - unfold close. destruct (closed s); [done|]. split; [by destruct Hs; split|done].
  - unfold notify_resources_changed. destruct (closed s); [done|]. split; [by apply bump_ok|done].
Qed.

Lemma run_ok ops : forall s, sched_ok s -> Forall op_ok ops ->
  sched_ok (run s ops) /\ same_limits s (run s ops).
Proof.
  induction ops as [|o ops IH]; intros s Hs Hops; [by split|].
  apply Forall_cons in Hops as [Ho Hops]. destruct (step_ok s o Hs Ho) as [H1 [H2 H3]].
  destruct (IH (step s o) H1 Hops) as [H4 [H5 H6]]. split; [done|].
  split; [exact (eq_trans H5 H2)|exact (eq_trans H6 H3)].
Qed.

(** The heaps hold exactly the pending jobs. *)
Lemma heap_ids s : sched_ok s -> entry_id <$> future s ++ ready s ≡ₚ (map_to_list (jobs s)).*1.
Proof.
  intros Hs. pose proof (s_heaps _ Hs) as [H1 H2 H3 H4 _ _]. apply NoDup_Permutation.
  - done.
  - apply NoDup_fst_map_to_list.
  - intros i. rewrite !list_elem_of_fmap. split.
    + intros (e & -> & [He|He]%elem_of_app).
      * destruct (proj1 (Forall_forall _ _) H1 e He) as (p & Hp & _). exists (entry_id e, p).
        split; [done|]. by apply elem_of_map_to_list.
      * destruct (proj1 (Forall_forall _ _) H2 e He) as (p & Hp & _). exists (entry_id e, p).
        split; [done|]. by apply elem_of_map_to_list.
    + intros ([i' p] & -> & Hp). apply elem_of_map_to_list in Hp.
      apply list_elem_of_fmap, H4. by exists p.
Qed.

Lemma heap_entries_size s : sched_ok s -> physical_heap_entries s = Z.of_nat (size (jobs s)).
Proof.
  intros Hs. pose proof (Permutation_length (heap_ids s Hs)) as HP.
  rewrite !length_fmap, length_app in HP. unfold physical_heap_entries. rewrite HP.
  by rewrite length_map_to_list.
Qed.

Lemma twins_equal s i i' p p' : sched_ok s -> jobs s !! i = Some p -> jobs s !! i' = Some p' ->
  twin (p_job p) (p_job p') -> is_Some (logical_key (p_job p)) -> i = i'.
Proof.
  intros Hs Hp Hp' (H1 & H2 & H3) [k Hk]. pose proof (t_index _ _ _ (s_tables _ Hs) k) as Ht.
  assert (E1 : logical_index s !! k = Some i) by (apply Ht; by exists p).
  assert (E2 : logical_index s !! k = Some i') by (apply Ht; exists p'; split_and!; [done|done|by rewrite H3]).
  congruence.
Qed.

(** C4: the scheduler is bounded and loses nothing.  After any run of submissions,
    calls of [_next_ready], closes and notifications, every pending job has exactly
    one entry in the two heaps, at most [max_pending] jobs are pending, each under
    its own id and each replaceable occurrence at most once, and the histories keep
    their bound. *)
Theorem scheduler_invariant (b : B) (max_pending max_history clock_ns : Z) s0 (ops : list op) :
  budget_wf b -> scheduler_new b max_pending max_history clock_ns = Ok s0 -> Forall op_ok ops ->
  let s := run s0 ops in
  physical_heap_entries s = Z.of_nat (size (jobs s)) /\
  Z.of_nat (size (jobs s)) <= max_pending /\
  entry_id <$> future s ++ ready s ≡ₚ pending_ids s /\ NoDup (pending_ids s) /\
  (forall i p, jobs s !! i = Some p -> job_id (p_job p) = i) /\
  (forall i i' p p', jobs s !! i = Some p -> jobs s !! i' = Some p' -> twin (p_job p) (p_job p') ->
     is_Some (logical_key (p_job p)) -> i = i') /\
  Z.of_nat (length (expired s)) <= max_history /\ Z.of_nat (length (evicted s)) <= max_history.
Proof.
  intros Hb Hnew Hops s. pose proof (scheduler_new_ok _ _ _ _ _ Hb Hnew) as Hs0.
  destruct (run_ok ops s0 Hs0 Hops) as [Hs [Hm Hh]]. fold s in Hs, Hm, Hh.
  assert (RestScheduler.max_pending s0 = max_pending /\ history_limit s0 = max_history) as [Em Eh].
  { unfold scheduler_new, _bounded_collection_size in Hnew. inv_ok. done. }
  rewrite Em in Hm. rewrite Eh in Hh.
  split; [by apply heap_entries_size|]. split; [rewrite <- Hm; apply (s_size _ Hs)|].
  split; [rewrite heap_ids, pending_ids_keys by apply Hs; done|].
  split; [by eauto with py|]. split; [apply (t_id _ _ _ (s_tables _ Hs))|].
  split; [intros; by eapply twins_equal|]. rewrite <- Hh. apply (s_history _ Hs).
Qed.
End Runs.

(** ** Concrete values *)
Module RunSamples.
Import SchedulerSamples.

Definition sample_ops : list op :=
  [Submit sample_snap 1; Submit sample_core 2; NextReady 10; Notify; Close].

Lemma sample_ops_ok : Forall op_ok sample_ops.
Proof.
  do 2 (constructor; [split; [by apply sample_submittable|lia]|]). do 3 (constructor; [done|]). constructor.
Qed.

Lemma scheduler_invariant_witness :
  Z.of_nat (size (jobs (run sample_empty sample_ops))) <= 2 /\
  NoDup (pending_ids (run sample_empty sample_ops)).
Proof.
  destruct (scheduler_invariant sample_budgets 2 8 0 sample_empty sample_ops sample_budgets_ok)
    as (_ & H1 & _ & H2 & _); [reflexivity|apply sample_ops_ok|]. split; [exact H1|exact H2].
Defined.
End RunSamples.
