(* ===== verification/StorageModels.v ===== *)
(** [storage/models.py], as far as the ingress uses it: accepted records and their
    identities, capacity classes, the requests and associations of control records,
    and the validation of a control draft; [storage/serialize.py].  The bytes two
    encoders of third-party libraries produce are parameters. *)
From S2P Require Import Prelude PyDecimal Domain.

(** ** Strings *)

(** The characters [str.strip] removes, as UTF-8. *)
Definition byte_str (l : list nat) : string := String.string_of_list_ascii (Ascii.ascii_of_nat <$> l).
Definition WHITESPACE : list string :=
  byte_str <$> ([[9]; [10]; [11]; [12]; [13]; [28]; [29]; [30]; [31]; [32]; [194; 133]; [194; 160];
    [225; 154; 128]; [226; 128; 168]; [226; 128; 169]; [226; 128; 175]; [226; 129; 159]; [227; 128; 128]]
    ++ ((fun n => [226; 128; n]) <$> seq 128 11))%nat.

Definition suffix (w s : string) : bool :=
  (String.length w <=? String.length s)%nat &&
  String.eqb (String.substring (String.length s - String.length w) (String.length w) s) w.

(** [value and value == value.strip()] *)
Definition normalized (value : string) : bool :=
  nonempty value && forallb (fun w => negb (String.prefix w value || suffix w value)) WHITESPACE.

(** [value.split(sep)] for a separator of one character. *)
Fixpoint split_on (sep : Ascii.ascii) (s : string) : list string :=
  match s with
  | EmptyString => [EmptyString]
  | String c s =>
      if Ascii.eqb c sep then EmptyString :: split_on sep s
      else match split_on sep s with
           | [] => [String c EmptyString]
           | part :: parts => String c part :: parts
           end
  end.

Definition slash : Ascii.ascii := Ascii.ascii_of_nat 47.
Definition backslash : Ascii.ascii := Ascii.ascii_of_nat 92.
Definition newline : string := byte_str [10%nat].
Definition has_char (c : Ascii.ascii) (s : string) : bool :=
  existsb (Ascii.eqb c) (String.list_ascii_of_string s).

Definition validate_normalized_data_relative_path (value : string) : result string :=
  raise ValueError "path must be normalized POSIX relative data path"
    when negb (nonempty value) || has_char Ascii.zero value || has_char backslash value
         || String.prefix (String slash "") value
         || existsb (fun part => bool_decide (part ∈ [""; "."; ".."])) (split_on slash value);;
  Ok value.

(** ** [domain/types.py] *)
Definition market_value (m : Market) : string :=
  match m with SPOT => "spot" | PERPETUAL => "perpetual" end.
Definition parse_market (j : Json) : option Market :=
  match j with
  | JStr s => find (fun m => String.eqb (market_value m) s) [SPOT; PERPETUAL]
  | _ => None
  end.

(** ** Encoders

    [orjson.dumps] fails with [TypeError] on a value it cannot write; [encode_json] is
    [simplejson.dumps] with the settings of [domain/json_codec.py]. *)
Class Encoders (A : Type) : Type := {
  orjson_dumps : RawEnvelope -> option string;
  encode_json_envelope : RawEnvelope -> result string;
  encode_json_association : A -> result string
}.

(** ** Accepted records *)
Record AcceptedRecord : Type := { envelope : RawEnvelope; encoded_jsonl : string }.

Definition record_init (envelope : RawEnvelope) (encoded_jsonl : string) : result AcceptedRecord :=
  raise ValueError "encoded_jsonl must be nonempty newline-terminated bytes"
    when negb (nonempty encoded_jsonl) || negb (suffix newline encoded_jsonl);;
  Ok {| StorageModels.envelope := envelope; StorageModels.encoded_jsonl := encoded_jsonl |}.

Inductive EnqueueStatus : Type :=
| ACCEPTED | ACCEPTED_HIGH_WATER | OVERFLOW | CONTROL_OVERFLOW | NOT_ACCEPTING.
#[export] Instance EnqueueStatus_eq_dec : EqDecision EnqueueStatus.
Proof. solve_decision. Defined.

Record AcceptedRecordIdentityV1 : Type := {
  i_exchange : Exchange; i_market : option Market; i_instrument_key : option string;
  i_logical_stream : string; i_worker_instance_id : string; i_writer_sequence : Z;
  acceptance_ordinal : Z; i_config_sha256 : string; i_config_generation : Z
}.
#[export] Instance identity_eq_dec : EqDecision AcceptedRecordIdentityV1.
Proof. solve_decision. Defined.

Definition _construct_accepted_identity_from_validated_parts (exchange : Exchange)
    (market : option Market) (instrument_key : option string)
    (logical_stream worker_instance_id : string) (writer_sequence acceptance_ordinal : Z)
    (config_sha256 : string) (config_generation : Z) : AcceptedRecordIdentityV1 :=
  {| i_exchange := exchange; i_market := market; i_instrument_key := instrument_key;
     i_logical_stream := logical_stream; i_worker_instance_id := worker_instance_id;
     i_writer_sequence := writer_sequence; StorageModels.acceptance_ordinal := acceptance_ordinal;
     i_config_sha256 := config_sha256; i_config_generation := config_generation |}.

Record EnqueueResult : Type := {
  r_status : EnqueueStatus; record : option AcceptedRecord;
  record_identity : option AcceptedRecordIdentityV1
}.

Definition is_accepted (status : EnqueueStatus) : bool :=
  bool_decide (status = ACCEPTED) || bool_decide (status = ACCEPTED_HIGH_WATER).

(** The identity names what its envelope does. *)
Definition identity_matches (e : RawEnvelope) (i : AcceptedRecordIdentityV1) : bool :=
  bool_decide (i_exchange i = exchange (base e)) && bool_decide (i_market i = market (base e))
  && bool_decide (i_instrument_key i = instrument_key (base e))
  && String.eqb (i_logical_stream i) (logical_stream (base e))
  && String.eqb (i_worker_instance_id i) (worker_instance_id e)
  && (i_writer_sequence i =? writer_sequence e) && String.eqb (i_config_sha256 i) (config_sha256 e).

Definition result_init (status : EnqueueStatus) (record : option AcceptedRecord)
    (identity : option AcceptedRecordIdentityV1) : result EnqueueResult :=
  raise ValueError "accepted status requires record and identity"
    when is_accepted status && (negb (present record) || negb (present identity));;
  raise ValueError "accepted status, record, and identity must agree"
    when negb (is_accepted status) && (present record || present identity);;
  raise ValueError "record identity must match its accepted envelope"
    when match record, identity with
         | Some r, Some i => negb (identity_matches (envelope r) i)
         | _, _ => false
         end;;
  Ok {| r_status := status; StorageModels.record := record; record_identity := identity |}.

Definition accepted (self : EnqueueResult) : bool := is_accepted (r_status self).

(** ** [storage/serialize.py] *)
Definition encode_envelope {A} `{Encoders A} (env : RawEnvelope) : result string :=
  raise ValueError "schema_version must be the integer 1; binary float and bool are invalid"
    when negb (schema_version env =? 1);;
  let! _ := envelope_validate env in
  let! encoded := encode_json_envelope env in
  Ok (encoded +:+ newline).

Definition _encode_trusted_envelope {A} `{Encoders A} (env : RawEnvelope) : result string :=
  match orjson_dumps env with
  | None => encode_envelope env
  | Some encoded => Ok (encoded +:+ newline)
  end.

(** ** Control targets, requests and associations *)
Inductive CapacityClass : Type := NORMAL | CONTROL.
#[export] Instance CapacityClass_eq_dec : EqDecision CapacityClass.
Proof. solve_decision. Defined.

Record StorageLogicalTargetV1 : Type := {
  t_market : option Market; t_instrument_key : option string; t_logical_stream : string
}.
#[export] Instance target_eq_dec : EqDecision StorageLogicalTargetV1.
Proof. solve_decision. Defined.

Definition target_validate (self : StorageLogicalTargetV1) : result StorageLogicalTargetV1 :=
  raise ValueError "invalid target field"
    when negb (opt_ok nonempty (t_instrument_key self) && nonempty (t_logical_stream self));;
  if String.eqb (t_logical_stream self) "_control" then
    raise ValueError "_control targets must be exchange scoped"
      when present (t_market self) || present (t_instrument_key self);;
    Ok self
  else
    raise ValueError "non-control targets require a market" when negb (present (t_market self));;
    if bool_decide (t_logical_stream self ∈ MARKET_SCOPED_STREAMS) then
      raise ValueError "market-scoped targets cannot name an instrument"
        when present (t_instrument_key self);;
      Ok self
    else
      raise ValueError "instrument-scoped targets require an instrument key"
        when negb (present (t_instrument_key self));;
      Ok self.

Record StorageControlRequestV1 : Type := {
  control_event_id : string; affected_markets : list Market;
  target_logical_identities : list StorageLogicalTargetV1
}.
#[export] Instance request_eq_dec : EqDecision StorageControlRequestV1.
Proof. solve_decision. Defined.

(** [l == tuple(sorted(l)) and len(l) == len(set(l))] *)
Definition sorted_unique_by {A} `{EqDecision A} (leb : A -> A -> bool) (l : list A) : bool :=
  bool_decide (l = py_sorted leb l) && bool_decide (NoDup l).

Definition target_key (t : StorageLogicalTargetV1) : (string * string) * string :=
  ((match t_market t with None => "" | Some m => market_value m end, default "" (t_instrument_key t)),
   t_logical_stream t).
Definition key_leb : (string * string) * string -> (string * string) * string -> bool :=
  lex_leb (fun a b => bool_decide (a = b)) (lex_leb String.eqb string_leb string_leb) string_leb.

Definition request_validate (self : StorageControlRequestV1) : result StorageControlRequestV1 :=
  raise ValueError "invalid request field" when negb (nonempty (control_event_id self));;
  raise ValueError "control request targets must be nonempty"
    when bool_decide (target_logical_identities self = []);;
  raise ValueError "affected markets must be sorted and unique"
    when negb (sorted_unique_by string_leb (market_value <$> affected_markets self));;
  raise ValueError "control request targets must be sorted and unique"
    when negb (sorted_unique_by key_leb (target_key <$> target_logical_identities self));;
  let named_markets := omap t_market (target_logical_identities self) in
  raise ValueError "target markets must appear in affected_markets"
    when negb (forallb (fun m => bool_decide (m ∈ affected_markets self)) named_markets);;
  raise ValueError "market-scoped targets require affected_markets"
    when bool_decide (affected_markets self = []) && negb (bool_decide (named_markets = []));;
  Ok self.

Record StorageControlTargetV1 : Type := { generation_id : string; data_relative_path : string }.
#[export] Instance control_target_eq_dec : EqDecision StorageControlTargetV1.
Proof. solve_decision. Defined.

Definition control_target_validate (self : StorageControlTargetV1) : result StorageControlTargetV1 :=
  raise ValueError "invalid target field" when negb (nonempty (generation_id self));;
  let! _ := validate_normalized_data_relative_path (data_relative_path self) in
  raise ValueError "data_relative_path must identify a final raw data path"
    when negb (String.prefix "raw/" (data_relative_path self))
         || negb (suffix ".jsonl.zst" (data_relative_path self));;
  Ok self.

Record StorageControlAssociationV1 : Type := {
  a_control_kind : string; a_control_event_id : string; a_targets : list StorageControlTargetV1;
  a_acceptance_ordinal : Z; a_config_generation : Z
}.

Definition association_validate (self : StorageControlAssociationV1)
    : result StorageControlAssociationV1 :=
  raise ValueError "invalid association field"
    when negb (nonempty (a_control_kind self) && nonempty (a_control_event_id self)
               && nonneg (a_acceptance_ordinal self) && nonneg (a_config_generation self));;
  raise ValueError "control association targets must be nonempty"
    when bool_decide (a_targets self = []);;
  let keys := (fun t => (generation_id t, data_relative_path t)) <$> a_targets self in
  raise ValueError "control association targets must be sorted"
    when negb (bool_decide (keys = py_sorted (lex_leb String.eqb string_leb string_leb) keys));;
  raise ValueError "control association targets must be unique"
    when negb (bool_decide (NoDup (generation_id <$> a_targets self)))
         || negb (bool_decide (NoDup (data_relative_path <$> a_targets self)));;
  Ok self.

Definition canonical_bytes `{Encoders StorageControlAssociationV1}
    (self : StorageControlAssociationV1) : result string :=
  let! encoded := encode_json_association self in
  Ok (encoded +:+ newline).

(** ** Control drafts *)
Record ValidatedControlDraft : Type := {
  draft : NativeEventDraft; control_kind : string;
  association_request : option StorageControlRequestV1
}.

(** [value[k]] of a JSON object. *)
Definition jget (k : string) (items : list (string * Json)) : option Json :=
  snd <$> find (fun kv => String.eqb kv.1 k) items.
(** [set(value) == {...}] *)
Definition has_exact_keys (required : list string) (items : list (string * Json)) : bool :=
  bool_decide ((list_to_set items.*1 : gset string) = list_to_set required).

Definition opt_string (j : option Json) : option (option string) :=
  match j with Some JNull => Some None | Some (JStr s) => Some (Some s) | _ => None end.

(** An item of [target_logical_identities]. *)
Definition parse_target (item : Json) : option StorageLogicalTargetV1 :=
  match item with
  | JDict fields =>
      if negb (has_exact_keys ["market"; "instrument_key"; "logical_stream"] fields) then None
      else
        match (match jget "market" fields with
               | Some JNull => Some None
               | Some j => Some <$> parse_market j
               | None => None
               end), opt_string (jget "instrument_key" fields), jget "logical_stream" fields with
        | Some m, Some i, Some (JStr stream) =>
            match target_validate {| t_market := m; t_instrument_key := i; t_logical_stream := stream |} with
            | Ok t => Some t
            | Err _ => None
            end
        | _, _, _ => None
        end
  | _ => None
  end.

Definition _parse_control_request (value : Json) : result StorageControlRequestV1 :=
  let invalid := StorageScopeError "invalid storage_association" in
  match value with
  | JDict fields =>
      raise StorageScopeError "storage_association has missing or extra fields"
        when negb (has_exact_keys
          ["schema_version"; "control_event_id"; "affected_markets"; "target_logical_identities"] fields);;
      match jget "affected_markets" fields, jget "target_logical_identities" fields with
      | Some (JList affected_raw), Some (JList targets_raw) =>
          match mapM parse_market affected_raw, mapM parse_target targets_raw,
                jget "schema_version" fields, jget "control_event_id" fields with
          | Some affected, Some targets, Some (JInt 1), Some (JStr event_id) =>
              match request_validate {| control_event_id := event_id; affected_markets := affected;
                                        target_logical_identities := targets |} with
              | Ok r => Ok r
              | Err _ => Err invalid
              end
          | _, _, _, _ => Err invalid
          end
      | _, _ => Err (StorageScopeError "storage_association arrays must be JSON arrays")
      end
  | _ => Err (StorageScopeError "storage_association must be an object")
  end.

Definition validate_control_draft (d : NativeEventDraft) : result ValidatedControlDraft :=
  raise StorageScopeError "control draft must use the _control stream"
    when negb (String.eqb (logical_stream d) "_control");;
  raise StorageScopeError "control draft must use exchange-only internal scope"
    when present (market d) || present (instrument_key d) || present (wire_symbol d)
         || present (native_channel d) || negb (bool_decide (transport d = INTERNAL));;
  match payload d with
  | JDict fields =>
      match jget "kind" fields with
      | Some (JStr kind) =>
          raise StorageScopeError "control payload requires a normalized kind"
            when negb (normalized kind);;
          match jget "storage_association" fields with
          | None => Ok {| draft := d; control_kind := kind; association_request := None |}
          | Some j =>
              let! request := _parse_control_request j in
              Ok {| draft := d; control_kind := kind; association_request := Some request |}
          end
      | _ => Err (StorageScopeError "control payload requires a normalized kind")
      end
  | _ => Err (StorageScopeError "control payload must be an object")
  end.

(** ** Requests as JSON *)
Definition opt_json {A} (f : A -> Json) (o : option A) : Json :=
  match o with None => JNull | Some a => f a end.
Definition market_json (m : Market) : Json := JStr (market_value m).
Definition target_json (t : StorageLogicalTargetV1) : Json :=
  JDict [("market", opt_json market_json (t_market t)); ("instrument_key", opt_json JStr (t_instrument_key t));
         ("logical_stream", JStr (t_logical_stream t))].
Definition request_json (r : StorageControlRequestV1) : Json :=
  JDict [("schema_version", JInt 1); ("control_event_id", JStr (control_event_id r));
         ("affected_markets", JList (market_json <$> affected_markets r));
         ("target_logical_identities", JList (target_json <$> target_logical_identities r))].

Lemma target_validate_inv t v : target_validate t = Ok v -> v = t.
Proof. unfold target_validate. intros H. inv_ok. repeat case_bool; inv_ok; done. Qed.
Lemma request_validate_inv r v : request_validate r = Ok v -> v = r.
Proof. unfold request_validate. intros H. inv_ok. done. Qed.

Lemma parse_market_json m : parse_market (market_json m) = Some m.
Proof. by destruct m. Qed.
Lemma opt_string_json o : opt_string (Some (opt_json JStr o)) = Some o.
Proof. by destruct o. Qed.

(** An item parses to a target exactly if the target is valid. *)
Lemma parse_target_json t :
  parse_target (target_json t) = if is_ok (target_validate t) then Some t else None.
Proof.
  unfold parse_target, target_json.
  replace (has_exact_keys _ _) with true by (symmetry; vm_compute; reflexivity). cbn [negb].
  change (jget "market" _) with (Some (opt_json market_json (t_market t))).
  change (jget "instrument_key" _) with (Some (opt_json JStr (t_instrument_key t))).
  change (jget "logical_stream" _) with (Some (JStr (t_logical_stream t))).
  rewrite opt_string_json. destruct t as [[[]|] i l]; cbn [t_market t_instrument_key t_logical_stream];
    cbn -[target_validate];
    destruct (target_validate _) as [v|] eqn:E; try done; by rewrite (target_validate_inv _ _ E).
Qed.

Lemma parse_target_valid j t : parse_target j = Some t -> target_validate t = Ok t.
Proof.
  unfold parse_target. destruct j; try done. case_bool; [done|].
  intros H. repeat match type of H with context [match ?x with _ => _ end] => destruct x eqn:? end; try done;
    injection H as <-; match goal with H : target_validate _ = Ok ?v |- _ =>
      pose proof (target_validate_inv _ _ H); congruence end.
Qed.

Definition target_ok (t : StorageLogicalTargetV1) : bool := is_ok (target_validate t).

Lemma mapM_parse_targets l : mapM parse_target (target_json <$> l) = if forallb target_ok l then Some l else None.
Proof.
  induction l as [|t l IH]; [done|]. rewrite fmap_cons. cbn [forallb]. unfold target_ok at 1.
  change (mapM parse_target (target_json t :: (target_json <$> l)))
    with (y ← parse_target (target_json t); k ← mapM parse_target (target_json <$> l); Some (y :: k)).
  rewrite parse_target_json, IH. destruct (target_validate t); [|done]. cbn. by destruct (forallb target_ok l).
Qed.

Lemma mapM_targets_valid js l : mapM parse_target js = Some l -> forallb target_ok l = true.
Proof.
  intros H%mapM_Some. apply forallb_forall. intros t Ht%list_elem_of_In.
  apply list_elem_of_lookup in Ht as [n Hn]. destruct (Forall2_lookup_r _ _ _ _ _ H Hn) as (j & _ & Hj).
  apply parse_target_valid in Hj. unfold target_ok. by rewrite Hj.
Qed.

Lemma mapM_parse_markets l : mapM parse_market (market_json <$> l) = Some l.
Proof. apply mapM_Some, Forall2_fmap_l, Forall_Forall2_diag, Forall_true. apply parse_market_json. Qed.

(** A request that the constructors of its targets and its own let through. *)
Definition request_ok (r : StorageControlRequestV1) : bool :=
  forallb target_ok (target_logical_identities r) && is_ok (request_validate r).

(** The wire form of a control request is exact.  A request survives being written
    as JSON and parsed again exactly if its own checks and those of its targets pass,
    every other request is refused; and whatever the parser lets through, from any
    JSON, is such a request, so that it reads back as itself. *)
Theorem control_request_roundtrip :
  (forall r, _parse_control_request (request_json r)
     = if request_ok r then Ok r else Err (StorageScopeError "invalid storage_association")) /\
  (forall j r, _parse_control_request j = Ok r ->
     request_ok r = true /\ _parse_control_request (request_json r) = Ok r).
Proof.
  assert (Heq : forall r, _parse_control_request (request_json r)
     = if request_ok r then Ok r else Err (StorageScopeError "invalid storage_association")).
  { intros r. unfold _parse_control_request, request_json.
    replace (has_exact_keys _ _) with true by (symmetry; vm_compute; reflexivity). cbn [negb raise_if].
    change (jget "affected_markets" _) with (Some (JList (market_json <$> affected_markets r))).
    change (jget "target_logical_identities" _)
      with (Some (JList (target_json <$> target_logical_identities r))).
    cbv beta iota. rewrite mapM_parse_markets, mapM_parse_targets. unfold request_ok.
    destruct (forallb _ _); [|done]. destruct r as [e a l]. cbn -[request_validate].
    destruct (request_validate _) as [v|] eqn:E; [|done]. by rewrite (request_validate_inv _ _ E). }
  split; [exact Heq|]. intros j r H. rewrite Heq.
  enough (request_ok r = true) as -> by done.
  unfold _parse_control_request in H. destruct j; try done. inv_ok.
  repeat match type of H with context [match ?x with _ => _ end] => destruct x eqn:? end; try done; inv_ok;
    unfold request_ok;
    match goal with E : request_validate _ = Ok _ |- _ => pose proof (request_validate_inv _ _ E) as ->; rewrite E end;
    match goal with E : mapM parse_target _ = Some _ |- _ => apply mapM_targets_valid in E; cbn; by rewrite E end.
Qed.

Definition sample_request_json : Json :=
  JDict [("target_logical_identities", JList [JDict [("logical_stream", JStr "trade");
            ("instrument_key", JStr "BTC"); ("market", JStr "spot")]]);
         ("control_event_id", JStr "e1"); ("schema_version", JInt 1); ("affected_markets", JList [JStr "spot"])].
Definition sample_request : StorageControlRequestV1 := {|
  control_event_id := "e1"; affected_markets := [SPOT];
  target_logical_identities := [{| t_market := Some SPOT; t_instrument_key := Some "BTC";
                                   t_logical_stream := "trade" |}]
|}.

Lemma control_request_roundtrip_witness :
  _parse_control_request sample_request_json = Ok sample_request /\
  _parse_control_request (request_json sample_request) = Ok sample_request.
Proof.
  assert (H : _parse_control_request sample_request_json = Ok sample_request) by (vm_compute; reflexivity).
  split; [exact H|]. exact (proj2 (proj2 control_request_roundtrip sample_request_json sample_request H)).
Defined.
