(* ===== verification/Ingress.v ===== *)
(** [storage/ingress.py]: the budget of resident bytes and the ingress that numbers the
    records of every stream, charges them to the budget and queues them by shard.
    An [asyncio.Queue] is the list of its items; the clock readings of a call and the
    association resolver, as it answers in that call, are arguments. *)
From S2P Require Import Prelude PyDecimal Domain StorageModels.

(** ** Input checks *)
Definition _integer (value : Z) (field_name : string) : result Z :=
  raise ValueError (field_name +:+ " must be non-negative") when value <? 0;;
  raise ValueError (field_name +:+ " must fit a signed 64-bit integer") when MAX_INT64 <? value;;
  Ok value.

Definition _nonempty (value field_name : string) : result string :=
  raise ValueError (field_name +:+ " must be a normalized nonempty string") when negb (normalized value);;
  Ok value.

Definition _sha256 (value : string) : result string :=
  raise ValueError "config_sha256 must be 64 lowercase hexadecimal characters"
    when negb (config_sha256_ok value);;
  Ok value.

(** ** [config.models.IngressConfig] *)

(** [high_water_ratio] is the decimal [Decimal(str(ratio))] of the configured float. *)
Record IngressConfig : Type := {
  shard_max_records : Z; shard_max_bytes : Z; cfg_worker_max_bytes : Z; high_water_ratio : dec;
  control_reserve_records : Z; cfg_control_reserve_bytes : Z
}.

Definition config_validate (self : IngressConfig) : result IngressConfig :=
  raise ValueError "invalid ingress field"
    when negb (positive (shard_max_records self) && positive (shard_max_bytes self)
      && positive (cfg_worker_max_bytes self) && positive (control_reserve_records self)
      && positive (cfg_control_reserve_bytes self)
      && dltb dzero (high_water_ratio self) && dltb (high_water_ratio self) (dec_of_int 1));;
  raise ValueError "worker ingress bytes must cover at least one shard"
    when cfg_worker_max_bytes self <? shard_max_bytes self;;
  raise ValueError "control reserve records exceed the control shard ceiling"
    when shard_max_records self <? control_reserve_records self;;
  raise ValueError "control reserve bytes exceed the control shard ceiling"
    when shard_max_bytes self <? cfg_control_reserve_bytes self;;
  raise ValueError "control reserve bytes must be smaller than the worker ingress limit"
    when cfg_worker_max_bytes self <=? cfg_control_reserve_bytes self;;
  Ok self.

(** ** [ResidentBudget] *)
Record _ResidentCharge : Type := { capacity_class : CapacityClass; charge : Z }.

Record ResidentBudget : Type := {
  _worker_max_bytes : Z; _control_reserve_bytes : Z; _charges : gmap (string * Z) _ResidentCharge;
  _normal_resident_records : Z; _normal_resident_bytes : Z;
  _control_resident_records : Z; _control_resident_bytes : Z
}.

Definition budget_new (worker_max_bytes control_reserve_bytes : Z) : result ResidentBudget :=
  let! maximum := _integer worker_max_bytes "worker_max_bytes" in
  let! reserve := _integer control_reserve_bytes "control_reserve_bytes" in
  raise ValueError "worker_max_bytes must be positive" when maximum =? 0;;
  raise ValueError "control_reserve_bytes must be positive and below worker_max_bytes"
    when (reserve =? 0) || (maximum <=? reserve);;
  Ok {| _worker_max_bytes := maximum; _control_reserve_bytes := reserve; _charges := ∅;
        _normal_resident_records := 0; _normal_resident_bytes := 0;
        _control_resident_records := 0; _control_resident_bytes := 0 |}.

Definition from_config (config : IngressConfig) : result ResidentBudget :=
  budget_new (cfg_worker_max_bytes config) (cfg_control_reserve_bytes config).

Definition normal_capacity_bytes (self : ResidentBudget) : Z :=
  _worker_max_bytes self - _control_reserve_bytes self.
Definition resident_record_count (self : ResidentBudget) : Z :=
  _normal_resident_records self + _control_resident_records self.
Definition resident_bytes (self : ResidentBudget) : Z :=
  _normal_resident_bytes self + _control_resident_bytes self.

Definition matches_config (self : ResidentBudget) (config : IngressConfig) : bool :=
  (_worker_max_bytes self =? cfg_worker_max_bytes config)
  && (_control_reserve_bytes self =? cfg_control_reserve_bytes config).

Definition fits (self : ResidentBudget) (cls : CapacityClass) (charge_bytes : Z) : result bool :=
  let! charge := _integer charge_bytes "charge_bytes" in
  raise ValueError "charge_bytes must be positive" when charge =? 0;;
  if _worker_max_bytes self <? resident_bytes self + charge then Ok false
  else match cls with
       | NORMAL => Ok (_normal_resident_bytes self + charge <=? normal_capacity_bytes self)
       | CONTROL => Ok true
       end.

Definition _charge_key (identity : AcceptedRecordIdentityV1) : string * Z :=
  (i_worker_instance_id identity, acceptance_ordinal identity).

(** The counters of [cls] moved by [records] and [bytes]. *)
Definition count_charge (self : ResidentBudget) (charges : gmap (string * Z) _ResidentCharge)
    (cls : CapacityClass) (records bytes : Z) : ResidentBudget :=
  let normal := match cls with NORMAL => 1 | CONTROL => 0 end in
  {| _worker_max_bytes := _worker_max_bytes self;
     _control_reserve_bytes := _control_reserve_bytes self; _charges := charges;
     _normal_resident_records := _normal_resident_records self + normal * records;
     _normal_resident_bytes := _normal_resident_bytes self + normal * bytes;
     _control_resident_records := _control_resident_records self + (1 - normal) * records;
     _control_resident_bytes := _control_resident_bytes self + (1 - normal) * bytes |}.

Definition reserve (identity : AcceptedRecordIdentityV1) (cls : CapacityClass) (charge_bytes : Z)
    : M ResidentBudget unit := fun self =>
  let key := _charge_key identity in
  let checked :=
    raise ValueError "duplicate resident charge identity" when present (_charges self !! key);;
    let! charge := _integer charge_bytes "charge_bytes" in
    let! fitting := fits self cls charge in
    raise ValueError "resident charge exceeds its capacity" when negb fitting;;
    Ok charge in
  match checked with
  | Err e => (self, Err e)
  | Ok charge =>
      (count_charge self (<[key := {| capacity_class := cls; Ingress.charge := charge |}]> (_charges self))
         cls 1 charge, Ok tt)
  end.

Definition charge_bytes (self : ResidentBudget) (identity : AcceptedRecordIdentityV1) : result Z :=
  match _charges self !! _charge_key identity with
  | None => Err (KeyError "unknown resident charge identity")
  | Some c => Ok (charge c)
  end.

Definition release (identity : AcceptedRecordIdentityV1) : M ResidentBudget unit := fun self =>
  let key := _charge_key identity in
  match _charges self !! key with
  | None => (self, Err (KeyError "unknown resident charge identity"))
  | Some c =>
      (count_charge self (delete key (_charges self)) (capacity_class c) (-1) (- charge c), Ok tt)
  end.

(** ** [RawIngress] *)
#[export] Instance Market_countable : Countable Market.
Proof.
  refine (inj_countable' (fun m => match m with SPOT => true | PERPETUAL => false end)
    (fun b : bool => if b then SPOT else PERPETUAL) _). by intros [].
Defined.
#[export] Instance Exchange_countable : Countable Exchange.
Proof.
  refine (inj_countable'
    (fun e => match e with BINANCE => 0 | OKX => 1 | BYBIT => 2 | BITGET => 3 | KRAKEN => 4 end)
    (fun z => if z =? 0 then BINANCE else if z =? 1 then OKX else if z =? 2 then BYBIT
              else if z =? 3 then BITGET else KRAKEN) _). by intros [].
Defined.
#[export] Instance identity_countable : Countable AcceptedRecordIdentityV1.
Proof.
  refine (inj_countable'
    (fun i => (i_exchange i, i_market i, i_instrument_key i, i_logical_stream i,
               i_worker_instance_id i, i_writer_sequence i, acceptance_ordinal i,
               i_config_sha256 i, i_config_generation i))
    (fun '(e, m, k, l, w, n, o, c, g) => Build_AcceptedRecordIdentityV1 e m k l w n o c g) _).
  by intros [].
Defined.

Definition _SequenceKey : Type := (option Market * option string) * string.
Definition ControlAssociationResolver : Type :=
  ValidatedControlDraft -> AcceptedRecordIdentityV1 -> result (option StorageControlAssociationV1).

Record RawIngress : Type := {
  _config : IngressConfig; _worker_instance_id : string; _config_sha256 : string;
  _config_generation : Z; _resident_budget : ResidentBudget;
  _queues : gmap string (list EnqueueResult); _queued_bytes : gmap string Z;
  _next_sequences : gmap _SequenceKey Z; _shard_by_sequence_key : gmap _SequenceKey string;
  _next_acceptance_ordinal : Z;
  _pending_control_associations : gmap AcceptedRecordIdentityV1 StorageControlAssociationV1;
  _accepted_count : Z; _enqueue_high_water_count : Z; _normal_overflow_count : Z;
  _control_overflow_count : Z; _superseded : bool; _high_water_bytes : Z
}.

(** [Decimal.to_integral_value] with [ROUND_CEILING]. *)
Definition dceil (d : dec) : Z :=
  if 0 <=? expo d then coef d * 10 ^ expo d else ceil_div (coef d) (10 ^ (- expo d)).

(** The precision of the default context. *)
Definition DEFAULT_PRECISION : Z := 28.

Definition ingress_new (config : IngressConfig) (worker_instance_id config_sha256 : string)
    (config_generation : Z) (resident_budget : ResidentBudget) : result RawIngress :=
  raise ValueError "resident budget must match ingress config"
    when negb (matches_config resident_budget config);;
  let! worker := _nonempty worker_instance_id "worker_instance_id" in
  let! sha := _sha256 config_sha256 in
  let! generation := _integer config_generation "config_generation" in
  Ok {| _config := config; _worker_instance_id := worker; _config_sha256 := sha;
        _config_generation := generation; _resident_budget := resident_budget; _queues := ∅;
        _queued_bytes := ∅; _next_sequences := ∅; _shard_by_sequence_key := ∅;
        _next_acceptance_ordinal := 0; _pending_control_associations := ∅; _accepted_count := 0;
        _enqueue_high_water_count := 0; _normal_overflow_count := 0; _control_overflow_count := 0;
        _superseded := false;
        _high_water_bytes := dceil (dmul DEFAULT_PRECISION (dec_of_int (cfg_worker_max_bytes config))
                                      (high_water_ratio config)) |}.

(** *** Assignments *)
Definition set_resident (s : RawIngress) (b : ResidentBudget) : RawIngress :=
  {| _config := _config s; _worker_instance_id := _worker_instance_id s;
     _config_sha256 := _config_sha256 s; _config_generation := _config_generation s;
     _resident_budget := b; _queues := _queues s; _queued_bytes := _queued_bytes s;
     _next_sequences := _next_sequences s; _shard_by_sequence_key := _shard_by_sequence_key s;
     _next_acceptance_ordinal := _next_acceptance_ordinal s;
     _pending_control_associations := _pending_control_associations s;
     _accepted_count := _accepted_count s; _enqueue_high_water_count := _enqueue_high_water_count s;
     _normal_overflow_count := _normal_overflow_count s;
     _control_overflow_count := _control_overflow_count s; _superseded := _superseded s;
     _high_water_bytes := _high_water_bytes s |}.
Definition set_queues (s : RawIngress) (q : gmap string (list EnqueueResult)) (n : gmap string Z)
    : RawIngress :=
  {| _config := _config s; _worker_instance_id := _worker_instance_id s;
     _config_sha256 := _config_sha256 s; _config_generation := _config_generation s;
     _resident_budget := _resident_budget s; _queues := q; _queued_bytes := n;
     _next_sequences := _next_sequences s; _shard_by_sequence_key := _shard_by_sequence_key s;
     _next_acceptance_ordinal := _next_acceptance_ordinal s;
     _pending_control_associations := _pending_control_associations s;
     _accepted_count := _accepted_count s; _enqueue_high_water_count := _enqueue_high_water_count s;
     _normal_overflow_count := _normal_overflow_count s;
     _control_overflow_count := _control_overflow_count s; _superseded := _superseded s;
     _high_water_bytes := _high_water_bytes s |}.
Definition set_associations (s : RawIngress)
    (a : gmap AcceptedRecordIdentityV1 StorageControlAssociationV1) : RawIngress :=
  {| _config := _config s; _worker_instance_id := _worker_instance_id s;
     _config_sha256 := _config_sha256 s; _config_generation := _config_generation s;
     _resident_budget := _resident_budget s; _queues := _queues s; _queued_bytes := _queued_bytes s;
     _next_sequences := _next_sequences s; _shard_by_sequence_key := _shard_by_sequence_key s;
     _next_acceptance_ordinal := _next_acceptance_ordinal s; _pending_control_associations := a;
     _accepted_count := _accepted_count s; _enqueue_high_water_count := _enqueue_high_water_count s;
     _normal_overflow_count := _normal_overflow_count s;
     _control_overflow_count := _control_overflow_count s; _superseded := _superseded s;
     _high_water_bytes := _high_water_bytes s |}.
Definition count_overflow (s : RawIngress) (cls : CapacityClass) : RawIngress :=
  {| _config := _config s; _worker_instance_id := _worker_instance_id s;
     _config_sha256 := _config_sha256 s; _config_generation := _config_generation s;
     _resident_budget := _resident_budget s; _queues := _queues s; _queued_bytes := _queued_bytes s;
     _next_sequences := _next_sequences s; _shard_by_sequence_key := _shard_by_sequence_key s;
     _next_acceptance_ordinal := _next_acceptance_ordinal s;
     _pending_control_associations := _pending_control_associations s;
     _accepted_count := _accepted_count s; _enqueue_high_water_count := _enqueue_high_water_count s;
     _normal_overflow_count :=
       _normal_overflow_count s + match cls with NORMAL => 1 | CONTROL => 0 end;
     _control_overflow_count :=
       _control_overflow_count s + match cls with NORMAL => 0 | CONTROL => 1 end;
     _superseded := _superseded s; _high_water_bytes := _high_water_bytes s |}.

(** The counters of an accepted record. *)
Definition count_accepted (s : RawIngress) (key : _SequenceKey) (shard : string)
    (writer_sequence ordinal : Z) (high_water : bool) : RawIngress :=
  {| _config := _config s; _worker_instance_id := _worker_instance_id s;
     _config_sha256 := _config_sha256 s; _config_generation := _config_generation s;
     _resident_budget := _resident_budget s; _queues := _queues s; _queued_bytes := _queued_bytes s;
     _next_sequences := <[key := writer_sequence + 1]> (_next_sequences s);
     _shard_by_sequence_key := match _shard_by_sequence_key s !! key with
       | Some _ => _shard_by_sequence_key s
       | None => <[key := shard]> (_shard_by_sequence_key s)
       end;
     _next_acceptance_ordinal := ordinal + 1;
     _pending_control_associations := _pending_control_associations s;
     _accepted_count := _accepted_count s + 1;
     _enqueue_high_water_count := _enqueue_high_water_count s + (if high_water then 1 else 0);
     _normal_overflow_count := _normal_overflow_count s;
     _control_overflow_count := _control_overflow_count s; _superseded := _superseded s;
     _high_water_bytes := _high_water_bytes s |}.

(** *** The checks of a submission *)
Definition _sequence_key (d : NativeEventDraft) : _SequenceKey :=
  ((market d, instrument_key d), logical_stream d).

Definition _classify (d : NativeEventDraft) : result (CapacityClass * option ValidatedControlDraft) :=
  if String.eqb (logical_stream d) "_control" then
    let! control := validate_control_draft d in Ok (CONTROL, Some control)
  else Ok (NORMAL, None).

Definition _validate_shard (shard : string) : result string := _nonempty shard "shard".

Definition _validate_class_shard (cls : CapacityClass) (shard : string) : result () :=
  match cls with
  | CONTROL =>
      raise AdmissionContractError "control capacity requires the _control shard"
        when negb (String.eqb shard "_control");;
      Ok tt
  | NORMAL =>
      raise AdmissionContractError "normal capacity cannot use the _control shard"
        when String.eqb shard "_control";;
      Ok tt
  end.

Definition _validate_source (d : NativeEventDraft) (source : SourceContext) : result () :=
  match validate_source d source with
  | Err (ValueError _) => Err (SourceContextError "draft and source context are incompatible")
  | r => r
  end.

(** *** Control associations *)
Definition list_leb : list string -> list string -> bool := list_lex String.eqb string_leb.

Definition _logical_target_path_prefix (exchange : string) (target : StorageLogicalTargetV1)
    : result (list string) :=
  if String.eqb (t_logical_stream target) "_control" then Ok ["raw"; exchange; "_control"]
  else
    match t_market target with
    | None => Err (AssertionError "market is not None")
    | Some market =>
        let! scope := match t_instrument_key target with
          | None => Ok "_market"
          | Some key => encode_instrument_key key
          end in
        Ok ["raw"; exchange; market_value market; scope; t_logical_stream target]
    end.

Definition _association_path_prefix (data_relative_path : string) : list string :=
  let parts := split_on slash data_relative_path in
  if bool_decide (parts !! 2%nat = Some "_control") then take 3 parts else take 5 parts.

Fixpoint prefixes_of (exchange : string) (targets : list StorageLogicalTargetV1)
    : result (list (list string)) :=
  match targets with
  | [] => Ok []
  | t :: targets =>
      let! p := _logical_target_path_prefix exchange t in
      let! ps := prefixes_of exchange targets in
      Ok (p :: ps)
  end.

Definition _resolve_control_association (resolver : option ControlAssociationResolver)
    (control : option ValidatedControlDraft) (identity : AcceptedRecordIdentityV1)
    : result (option StorageControlAssociationV1) :=
  match control with
  | None => Ok None
  | Some control =>
      let! association := match resolver with
        | None =>
            raise AdmissionContractError "storage association request requires an association resolver"
              when present (association_request control);;
            Ok None
        | Some resolve =>
            let! association := resolve control identity in
            raise AdmissionContractError "association resolver did not resolve every requested target"
              when negb (present association) && present (association_request control);;
            Ok association
        end in
      match association with
      | None => Ok None
      | Some a =>
          raise AdmissionContractError
              "resolved control association does not match its candidate identity"
            when negb (String.eqb (a_control_kind a) (control_kind control))
                 || negb (a_acceptance_ordinal a =? acceptance_ordinal identity)
                 || negb (a_config_generation a =? i_config_generation identity);;
          match association_request control with
          | None => Ok (Some a)
          | Some request =>
              raise AdmissionContractError
                  "resolved control association event ID does not match its request"
                when negb (String.eqb (a_control_event_id a) (control_event_id request));;
              raise AdmissionContractError
                  "resolved control association must cover every requested target"
                when negb (length (a_targets a) =? length (target_logical_identities request))%nat;;
              let! expected := prefixes_of (exchange_value (i_exchange identity))
                                 (target_logical_identities request) in
              raise AdmissionContractError
                  "resolved control association does not match requested logical targets"
                when negb (bool_decide
                  (py_sorted list_leb
                     ((fun t => _association_path_prefix (data_relative_path t)) <$> a_targets a)
                   = py_sorted list_leb expected));;
              Ok (Some a)
          end
      end
  end.

Section Ingress.
Context `{Enc : Encoders StorageControlAssociationV1}.

Definition _overflow (cls : CapacityClass) : M RawIngress EnqueueResult := fun s =>
  (count_overflow s cls,
   result_init (match cls with CONTROL => CONTROL_OVERFLOW | NORMAL => OVERFLOW end) None None).

Definition _build_candidate (s : RawIngress) (d : NativeEventDraft) (source : SourceContext)
    (writer_sequence ordinal clock_time_ns clock_monotonic_ns : Z)
    : result (AcceptedRecord * AcceptedRecordIdentityV1) :=
  let! received_at_ns := _integer clock_time_ns "clock.time_ns()" in
  let! monotonic_ns := _integer clock_monotonic_ns "clock.monotonic_ns()" in
  let envelope := _construct_envelope_from_validated_parts d received_at_ns monotonic_ns
                    (_worker_instance_id s) source writer_sequence (_config_sha256 s) in
  let! encoded := _encode_trusted_envelope envelope in
  let! record := record_init envelope encoded in
  let identity := _construct_accepted_identity_from_validated_parts
    (exchange (base envelope)) (market (base envelope)) (instrument_key (base envelope))
    (logical_stream (base envelope)) (worker_instance_id envelope)
    (Domain.writer_sequence envelope) ordinal (config_sha256 envelope) (_config_generation s) in
  Ok (record, identity).

(** What [try_accept] works out before it changes anything. *)
Record Candidate : Type := {
  c_shard : string; c_class : CapacityClass; c_key : _SequenceKey; c_sequence : Z;
  c_record : AcceptedRecord; c_identity : AcceptedRecordIdentityV1;
  c_association : option StorageControlAssociationV1; c_charge : Z
}.

Definition candidate (s : RawIngress) (resolver : option ControlAssociationResolver)
    (d : NativeEventDraft) (source : SourceContext) (shard : string)
    (clock_time_ns clock_monotonic_ns : Z) : result Candidate :=
  let! normalized_shard := _validate_shard shard in
  let! '(cls, control) := _classify d in
  let! _ := _validate_class_shard cls normalized_shard in
  let! _ := _validate_source d source in
  let key := _sequence_key d in
  raise AdmissionContractError "logical identity is already bound to a different shard"
    when match _shard_by_sequence_key s !! key with
         | Some bound => negb (String.eqb bound normalized_shard)
         | None => false
         end;;
  let writer_sequence := default 0 (_next_sequences s !! key) in
  let! '(record, identity) := _build_candidate s d source writer_sequence
    (_next_acceptance_ordinal s) clock_time_ns clock_monotonic_ns in
  let! association := _resolve_control_association resolver control identity in
  let! association_bytes := match association with None => Ok "" | Some a => canonical_bytes a end in
  Ok {| c_shard := normalized_shard; c_class := cls; c_key := key; c_sequence := writer_sequence;
        c_record := record; c_identity := identity; c_association := association;
        c_charge := Z.of_nat (String.length (encoded_jsonl record))
                    + Z.of_nat (String.length association_bytes) |}.

(** [Queue.put_nowait] *)
Definition put_nowait (maxsize : Z) (q : list EnqueueResult) (x : EnqueueResult)
    : result (list EnqueueResult) :=
  raise QueueFull "" when (0 <? maxsize) && (maxsize <=? Z.of_nat (length q));;
  Ok (q ++ [x]).

(** The body of the [try]: the result and the queue it was put into. *)
Definition enqueue_charged (s : RawIngress) (c : Candidate)
    : result (EnqueueResult * list EnqueueResult) :=
  let status := if _high_water_bytes s <=? resident_bytes (_resident_budget s)
                then ACCEPTED_HIGH_WATER else ACCEPTED in
  let! r := result_init status (Some (c_record c)) (Some (c_identity c)) in
  let! queue := put_nowait (shard_max_records (_config s)) (default [] (_queues s !! c_shard c)) r in
  Ok (r, queue).

(** Charging and queueing a candidate; a failed [try] gives the charge back. *)
Definition accept (c : Candidate) : M RawIngress EnqueueResult := fun s =>
  match reserve (c_identity c) (c_class c) (c_charge c) (_resident_budget s) with
  | (b, Err e) => (set_resident s b, Err e)
  | (b, Ok _) =>
      let s := set_resident s b in
      match enqueue_charged s c with
      | Err e =>
          match release (c_identity c) b with
          | (b, Err e) => (set_resident s b, Err e)
          | (b, Ok _) =>
              let s := set_resident s b in
              match e with
              | QueueFull _ => _overflow (c_class c) s
              | _ => (s, Err e)
              end
          end
      | Ok (r, queue) =>
          let s := match c_association c with
            | None => s
            | Some a => set_associations s (<[c_identity c := a]> (_pending_control_associations s))
            end in
          let queued := default 0 (_queued_bytes s !! c_shard c) in
          let s := set_queues s (<[c_shard c := queue]> (_queues s))
                     (<[c_shard c := queued + c_charge c]> (_queued_bytes s)) in
          (count_accepted s (c_key c) (c_shard c) (c_sequence c) (_next_acceptance_ordinal s)
             (bool_decide (r_status r = ACCEPTED_HIGH_WATER)), Ok r)
      end
  end.

(** Whether the limits of the shard or of the budget turn the candidate away. *)
Definition turned_away (s : RawIngress) (c : Candidate) : result bool :=
  if shard_max_records (_config s) <=? Z.of_nat (length (default [] (_queues s !! c_shard c))) then Ok true
  else if shard_max_bytes (_config s) <? default 0 (_queued_bytes s !! c_shard c) + c_charge c then Ok true
  else let! fitting := fits (_resident_budget s) (c_class c) (c_charge c) in Ok (negb fitting).

Definition try_accept (resolver : option ControlAssociationResolver) (d : NativeEventDraft)
    (source : SourceContext) (shard : string) (clock_time_ns clock_monotonic_ns : Z)
    : M RawIngress EnqueueResult := fun s =>
  if _superseded s then (s, result_init NOT_ACCEPTING None None)
  else
    match candidate s resolver d source shard clock_time_ns clock_monotonic_ns with
    | Err e => (s, Err e)
    | Ok c =>
        match turned_away s c with
        | Err e => (s, Err e)
        | Ok true => _overflow (c_class c) s
        | Ok false => accept c s
        end
    end.

(** *** The writer's side *)
Definition take_control_association (identity : AcceptedRecordIdentityV1)
    : M RawIngress (option StorageControlAssociationV1) := fun s =>
  (set_associations s (delete identity (_pending_control_associations s)),
   Ok (_pending_control_associations s !! identity)).

Definition drain_one (shard : string) : M RawIngress (option EnqueueResult) := fun s =>
  match _validate_shard shard with
  | Err e => (s, Err e)
  | Ok shard =>
      match _queues s !! shard with
      | None | Some [] => (s, Ok None)
      | Some (r :: queue) =>
          let s := set_queues s (<[shard := queue]> (_queues s)) (_queued_bytes s) in
          match record r, record_identity r with
          | Some _, Some identity =>
              match charge_bytes (_resident_budget s) identity with
              | Err e => (s, Err e)
              | Ok charge =>
                  match _queued_bytes s !! shard with
                  | None => (s, Err (KeyError shard))
                  | Some queued =>
                      let remaining := queued - charge in
                      if remaining <? 0
                      then (s, Err (AssertionError "ingress queued byte accounting underflow"))
                      else (set_queues s (_queues s) (<[shard := remaining]> (_queued_bytes s)),
                            Ok (Some r))
                  end
              end
          | _, _ => (s, Err (AssertionError "result.record is not None"))
          end
      end
  end.

(** The writer gives a record's bytes back through the budget it shares. *)
Definition release_resident (identity : AcceptedRecordIdentityV1) : M RawIngress unit := fun s =>
  let '(b, r) := release identity (_resident_budget s) in (set_resident s b, r).

Definition peek_one (s : RawIngress) (shard : string) : result (option EnqueueResult) :=
  let! shard := _validate_shard shard in Ok (head (default [] (_queues s !! shard))).
Definition acceptance_ordinal_high_water (s : RawIngress) : option Z :=
  if _next_acceptance_ordinal s =? 0 then None else Some (_next_acceptance_ordinal s - 1).
Definition queued_records (s : RawIngress) (shard : string) : result Z :=
  let! shard := _validate_shard shard in Ok (Z.of_nat (length (default [] (_queues s !! shard)))).
Definition queued_bytes (s : RawIngress) (shard : string) : result Z :=
  let! shard := _validate_shard shard in Ok (default 0 (_queued_bytes s !! shard)).
Definition nonempty_shards (s : RawIngress) : list string :=
  py_sorted string_leb (filter (fun kv => kv.2 <> []) (map_to_list (_queues s))).*1.

(** *** Replacing the configuration *)
Definition quiescent (s : RawIngress) : bool :=
  bool_decide (map_Forall (fun _ q => q = []) (_queues s))
  && bool_decide (map_Forall (fun _ n => n = 0) (_queued_bytes s))
  && (resident_record_count (_resident_budget s) =? 0)
  && bool_decide (_pending_control_associations s = ∅).

(** The ingress [self] is left superseded; the new one takes over its numbering. *)
Definition replacement_for_config (config_sha256 : string) (config_generation : Z)
    : M RawIngress RawIngress := fun s =>
  let checked :=
    let! next_sha256 := _sha256 config_sha256 in
    let! next_generation := _integer config_generation "config_generation" in
    raise ValueError "config_generation must be strictly greater"
      when next_generation <=? _config_generation s;;
    raise AdmissionContractError "ingress has already been superseded" when _superseded s;;
    raise AdmissionContractError "config replacement requires a quiescent ingress"
      when negb (quiescent s);;
    ingress_new (_config s) (_worker_instance_id s) next_sha256 next_generation (_resident_budget s) in
  match checked with
  | Err e => (s, Err e)
  | Ok r =>
      let carry (superseded : bool) (from : RawIngress) :=
        {| _config := _config from; _worker_instance_id := _worker_instance_id from;
           _config_sha256 := _config_sha256 from; _config_generation := _config_generation from;
           _resident_budget := _resident_budget from; _queues := _queues from;
           _queued_bytes := _queued_bytes from; _next_sequences := _next_sequences s;
           _shard_by_sequence_key := _shard_by_sequence_key s;
           _next_acceptance_ordinal := _next_acceptance_ordinal s;
           _pending_control_associations := _pending_control_associations from;
           _accepted_count := _accepted_count s;
           _enqueue_high_water_count := _enqueue_high_water_count s;
           _normal_overflow_count := _normal_overflow_count s;
           _control_overflow_count := _control_overflow_count s; _superseded := superseded;
           _high_water_bytes := _high_water_bytes from |} in
      (carry true s, Ok (carry false r))
  end.
End Ingress.

(** ** The budget *)
Definition of_class (cls : CapacityClass) (f : _ResidentCharge -> Z) (c : _ResidentCharge) : Z :=
  if bool_decide (capacity_class c = cls) then f c else 0.

Lemma of_class_add f c : of_class NORMAL f c + of_class CONTROL f c = f c.
Proof. unfold of_class. destruct (capacity_class c); do 2 case_bool_decide; (done || lia). Qed.

(** The counters are exact, every charge is positive and the limits are kept. *)
Record budget_ok (b : ResidentBudget) : Prop := {
  b_limits : 0 < _control_reserve_bytes b < _worker_max_bytes b /\ _worker_max_bytes b <= MAX_INT64;
  b_pos : forall k c, _charges b !! k = Some c -> 0 < charge c;
  b_nr : _normal_resident_records b = msum (of_class NORMAL (fun _ => 1)) (_charges b);
  b_nb : _normal_resident_bytes b = msum (of_class NORMAL charge) (_charges b);
  b_cr : _control_resident_records b = msum (of_class CONTROL (fun _ => 1)) (_charges b);
  b_cb : _control_resident_bytes b = msum (of_class CONTROL charge) (_charges b);
  b_total : resident_bytes b <= _worker_max_bytes b;
  b_normal : _normal_resident_bytes b <= normal_capacity_bytes b
}.

Lemma integer_inv v f w : _integer v f = Ok w -> w = v /\ 0 <= v <= MAX_INT64.
Proof. unfold _integer. intros H. inv_ok. by bool_prop. Qed.

Lemma size_ok v f : 0 <= v <= MAX_INT64 -> _integer v f = Ok v.
Proof.
  intros Hv. unfold _integer, raise_if. rewrite (proj2 (Z.ltb_ge v 0)) by lia.
  by rewrite (proj2 (Z.ltb_ge MAX_INT64 v)) by lia.
Qed.

Lemma budget_new_ok m r b : budget_new m r = Ok b -> budget_ok b.
Proof.
  unfold budget_new. intros Hb. inv_ok.
  repeat match goal with E : _integer _ _ = Ok _ |- _ => apply integer_inv in E as [-> E] end.
  bool_prop. split; cbn; rewrite ?msum_empty; try done; unfold resident_bytes, normal_capacity_bytes;
    cbn; lia.
Qed.

Lemma class_nonneg b cls : budget_ok b -> 0 <= msum (of_class cls charge) (_charges b).
Proof.
  intros Hb. apply msum_nonneg. intros k c Hc. apply (b_pos _ Hb) in Hc. unfold of_class.
  case_bool_decide; lia.
Qed.

(** [fits] answers for a positive charge, and a charge that fits may be reserved. *)
Lemma fits_ok b cls n : 0 < n <= MAX_INT64 ->
  fits b cls n = Ok ((resident_bytes b + n <=? _worker_max_bytes b)
    && match cls with
       | NORMAL => _normal_resident_bytes b + n <=? normal_capacity_bytes b
       | CONTROL => true
       end).
Proof.
  intros Hn. unfold fits. rewrite size_ok by lia. cbn [rbind]. unfold raise_if.
  rewrite (proj2 (Z.eqb_neq n 0)) by lia. destruct (Z.ltb_spec (_worker_max_bytes b) (resident_bytes b + n)),
    (Z.leb_spec (resident_bytes b + n) (_worker_max_bytes b)); try lia; [done|by destruct cls].
Qed.

Lemma fits_inv b cls n v : fits b cls n = Ok v -> 0 < n <= MAX_INT64.
Proof.
  unfold fits. intros Hf. inv_ok.
  match goal with E : _integer _ _ = Ok _ |- _ => apply integer_inv in E as [-> E] end.
  bool_prop. lia.
Qed.

(** Moving the counters along with the table of charges. *)
Lemma count_charge_ok b m cls r n : budget_ok b ->
  (forall k c, m !! k = Some c -> 0 < charge c) ->
  (forall cls', msum (of_class cls' (fun _ => 1)) m
     = msum (of_class cls' (fun _ => 1)) (_charges b) + if bool_decide (cls = cls') then r else 0) ->
  (forall cls', msum (of_class cls' charge) m
     = msum (of_class cls' charge) (_charges b) + if bool_decide (cls = cls') then n else 0) ->
  resident_bytes b + n <= _worker_max_bytes b ->
  (cls = NORMAL -> _normal_resident_bytes b + n <= normal_capacity_bytes b) ->
  budget_ok (count_charge b m cls r n).
Proof.
  intros [B1 B2 B3 B4 B5 B6 B7 B8] Hpos Hr Hn Htot Hnorm.
  split; unfold resident_bytes, normal_capacity_bytes in *; cbn; rewrite ?Hr, ?Hn; try done;
    destruct cls; repeat case_bool_decide; try done; try specialize (Hnorm eq_refl); lia.
Qed.

Lemma reserve_ok b i cls n : budget_ok b -> _charges b !! _charge_key i = None ->
  fits b cls n = Ok true ->
  let b' := count_charge b (<[_charge_key i := {| capacity_class := cls; charge := n |}]> (_charges b)) cls 1 n in
  reserve i cls n b = (b', Ok tt) /\ budget_ok b'.
Proof.
  intros Hb Hnew Hf. pose proof (fits_inv _ _ _ _ Hf) as Hn. cbv zeta. split.
  - unfold reserve. cbv zeta. rewrite Hnew. cbn [present raise_if]. rewrite size_ok by lia.
    cbn [rbind]. by rewrite Hf.
  - rewrite fits_ok in Hf by done. injection Hf as Hf. bool_prop. apply count_charge_ok; try done.
    + intros k c [[<- <-]|[_ Hc]]%lookup_insert_Some; [cbn; lia|by eapply b_pos].
    + intros cls'. rewrite msum_insert by done. unfold of_class. cbn. lia.
    + intros cls'. rewrite msum_insert by done. unfold of_class. cbn. lia.
    + intros ->. by bool_prop.
Qed.

Lemma release_ok b i c : budget_ok b -> _charges b !! _charge_key i = Some c ->
  exists b', release i b = (b', Ok tt) /\ budget_ok b' /\ _charges b' = delete (_charge_key i) (_charges b) /\
    _worker_max_bytes b' = _worker_max_bytes b /\ _control_reserve_bytes b' = _control_reserve_bytes b.
Proof.
  intros Hb Hc. unfold release. rewrite Hc. eexists. split; [done|]. split; [|done].
  pose proof (b_pos _ Hb _ _ Hc) as Hpos. pose proof (b_total _ Hb). pose proof (b_normal _ Hb).
  apply count_charge_ok; try done; try lia.
  - intros k c' [_ Hk]%lookup_delete_Some. by eapply b_pos.
  - intros cls'. rewrite (msum_delete _ _ _ _ Hc). unfold of_class. case_bool_decide; lia.
  - intros cls'. rewrite (msum_delete _ _ _ _ Hc). unfold of_class. case_bool_decide; lia.
Qed.
