(* ===== verification/IngressRuns.v ===== *)
(** Runs of the ingress of [storage/ingress.py]: the invariant, what one call of
    [try_accept] and of [drain_one] does, and the order in which records leave. *)
From S2P Require Import Prelude PyDecimal Domain StorageModels Ingress.

(** ** The invariant *)

(** The bytes a queued result holds in the budget. *)
Definition held (b : ResidentBudget) (r : EnqueueResult) : option Z :=
  match record r, record_identity r with
  | Some _, Some i => charge <$> _charges b !! _charge_key i
  | _, _ => None
  end.
Definition queue_of (s : RawIngress) (shard : string) : list EnqueueResult :=
  default [] (_queues s !! shard).
Definition bytes_of (s : RawIngress) (shard : string) : Z := default 0 (_queued_bytes s !! shard).

Record ingress_ok (s : RawIngress) : Prop := {
  g_config : config_validate (_config s) = Ok (_config s);
  g_matches : matches_config (_resident_budget s) (_config s) = true;
  g_budget : budget_ok (_resident_budget s);
  g_ordinal : 0 <= _next_acceptance_ordinal s;
  g_keys : forall k c, _charges (_resident_budget s) !! k = Some c ->
    k.1 = _worker_instance_id s /\ 0 <= k.2 < _next_acceptance_ordinal s;
  g_held : forall shard r, r ∈ queue_of s shard -> is_Some (held (_resident_budget s) r);
  g_bytes : forall shard,
    bytes_of s shard = zsum (default 0 ∘ held (_resident_budget s) <$> queue_of s shard);
  g_known : forall shard, is_Some (_queues s !! shard) -> is_Some (_queued_bytes s !! shard);
  g_records : forall shard, Z.of_nat (length (queue_of s shard)) <= shard_max_records (_config s);
  g_room : forall shard, bytes_of s shard <= shard_max_bytes (_config s)
}.

Lemma config_inv c : config_validate c = Ok c ->
  0 < shard_max_records c /\ 0 < shard_max_bytes c <= cfg_worker_max_bytes c /\
  0 < cfg_control_reserve_bytes c < cfg_worker_max_bytes c.
Proof.
  unfold config_validate. intros H. inv_ok. bool_prop. unfold positive in *. bool_prop. lia.
Qed.

Lemma matches_inv b c : matches_config b c = true ->
  _worker_max_bytes b = cfg_worker_max_bytes c /\ _control_reserve_bytes b = cfg_control_reserve_bytes c.
Proof. unfold matches_config. intros H. by bool_prop. Qed.

Lemma held_pos b r n : budget_ok b -> held b r = Some n -> 0 < n.
Proof.
  unfold held. intros Hb. destruct (record r), (record_identity r); try done.
  intros (c & Hc & ->)%fmap_Some. by eapply b_pos.
Qed.

Lemma held_nonneg b q : budget_ok b -> 0 <= zsum (default 0 ∘ held b <$> q).
Proof.
  intros Hb. apply zsum_nonneg, Forall_fmap, Forall_forall. intros r _. cbn.
  destruct (held b r) as [n|] eqn:E; cbn; [|lia]. pose proof (held_pos _ _ _ Hb E). lia.
Qed.

(** What a table keeps of the results of a queue. *)
Lemma held_eq b b' r : (forall i, record_identity r = Some i ->
    _charges b' !! _charge_key i = _charges b !! _charge_key i) -> held b' r = held b r.
Proof. unfold held. destruct (record r), (record_identity r); try done. intros H. by rewrite H. Qed.

Lemma zsum_fmap_snoc {A} (f : A -> Z) l x : zsum (f <$> l ++ [x]) = zsum (f <$> l) + f x.
Proof. rewrite fmap_app, zsum_app. cbn. lia. Qed.

Lemma held_sum_eq b b' q : (forall r, r ∈ q -> held b' r = held b r) ->
  zsum (default 0 ∘ held b' <$> q) = zsum (default 0 ∘ held b <$> q).
Proof.
  intros H. f_equal. apply list_fmap_ext. intros n r Hr. cbn. rewrite H; [done|].
  by eapply list_elem_of_lookup_2.
Qed.

Lemma ingress_new_ok config worker sha generation b s :
  config_validate config = Ok config -> from_config config = Ok b ->
  ingress_new config worker sha generation b = Ok s ->
  ingress_ok s /\ _queues s = ∅ /\ _next_sequences s = ∅ /\ _shard_by_sequence_key s = ∅ /\
  _next_acceptance_ordinal s = 0 /\ _accepted_count s = 0.
Proof.
  intros Hc Hb Hs. pose proof (config_inv _ Hc). pose proof (budget_new_ok _ _ _ Hb) as Hok.
  unfold from_config, budget_new in Hb. unfold ingress_new in Hs. inv_ok. cbn.
  bool_prop. split; [|done]. split; cbn; try done; unfold queue_of, bytes_of; cbn; try setoid_rewrite lookup_empty;
    cbn; try lia; try done.
  intros _ r Hr. by apply elem_of_nil in Hr.
Qed.

(** ** A submission *)
Section Ingress.
Context `{Enc : Encoders StorageControlAssociationV1}.

(** Whether shard and budget have room for a candidate. *)
Definition has_room (s : RawIngress) (c : Candidate) : bool :=
  (Z.of_nat (length (queue_of s (c_shard c))) <? shard_max_records (_config s))
  && (bytes_of s (c_shard c) + c_charge c <=? shard_max_bytes (_config s))
  && (resident_bytes (_resident_budget s) + c_charge c <=? _worker_max_bytes (_resident_budget s))
  && match c_class c with
     | NORMAL => _normal_resident_bytes (_resident_budget s) + c_charge c
                 <=? normal_capacity_bytes (_resident_budget s)
     | CONTROL => true
     end.

(** What a candidate is made of. *)
Record candidate_ok (s : RawIngress) (shard : string) (key : _SequenceKey) (c : Candidate) : Prop := {
  k_shard : c_shard c = shard; k_key : c_key c = key;
  k_bound : forall bound, _shard_by_sequence_key s !! key = Some bound -> bound = shard;
  k_sequence : c_sequence c = default 0 (_next_sequences s !! key);
  k_class : c_class c = CONTROL <-> shard = "_control";
  k_charge : 0 < c_charge c;
  k_stream : (i_market (c_identity c), i_instrument_key (c_identity c), i_logical_stream (c_identity c)) = key;
  k_worker : i_worker_instance_id (c_identity c) = _worker_instance_id s;
  k_number : i_writer_sequence (c_identity c) = c_sequence c;
  k_ordinal : acceptance_ordinal (c_identity c) = _next_acceptance_ordinal s;
  k_config : i_config_sha256 (c_identity c) = _config_sha256 s /\
             i_config_generation (c_identity c) = _config_generation s;
  k_matches : identity_matches (envelope (c_record c)) (c_identity c) = true
}.

Lemma record_init_inv env enc r : record_init env enc = Ok r ->
  envelope r = env /\ encoded_jsonl r = enc /\ 0 < Z.of_nat (String.length enc).
Proof.
  unfold record_init. intros H. inv_ok. split; [done|]. split; [done|].
  destruct enc; [by bool_prop|cbn; lia].
Qed.

Lemma build_candidate_inv s d source n o t m r i :
  _build_candidate s d source n o t m = Ok (r, i) ->
  identity_matches (envelope r) i = true /\ 0 < Z.of_nat (String.length (encoded_jsonl r)) /\
  i = {| i_exchange := exchange d; i_market := market d; i_instrument_key := instrument_key d;
         i_logical_stream := logical_stream d; i_worker_instance_id := _worker_instance_id s;
         i_writer_sequence := n; acceptance_ordinal := o; i_config_sha256 := _config_sha256 s;
         i_config_generation := _config_generation s |}.
Proof.
  unfold _build_candidate. intros H. inv_ok.
  match goal with E : record_init _ _ = Ok _ |- _ => apply record_init_inv in E as (-> & -> & E) end.
  split; [|done]. unfold identity_matches. cbn. by rewrite !bool_decide_eq_true_2, !String.eqb_refl, Z.eqb_refl.
Qed.

Lemma class_shard cls shard u : _validate_class_shard cls shard = Ok u ->
  (cls = CONTROL <-> shard = "_control").
Proof.
  destruct cls; cbn; intros H; inv_ok; bool_prop.
  - apply String.eqb_neq in H0. naive_solver.
  - apply String.eqb_eq in H0. naive_solver.
Qed.

Lemma candidate_inv s resolver d source shard t m c :
  candidate s resolver d source shard t m = Ok c -> candidate_ok s shard (_sequence_key d) c.
Proof.
  unfold candidate. intros H. inv_ok.
  match goal with E : _validate_shard _ = Ok _ |- _ => unfold _validate_shard, _nonempty in E; inv_ok end.
  destruct x0 as [cls control]. inv_ok. destruct x2 as [r i]. inv_ok.
  match goal with E : _build_candidate _ _ _ _ _ _ _ = Ok _ |- _ =>
    apply build_candidate_inv in E as (Hm & Hpos & ->) end.
  split; cbn; try done; try lia.
  - intros bound Hb. rewrite Hb in *. bool_prop. by apply String.eqb_eq.
  - by eapply class_shard.
Qed.

Lemma turned_away_eq s c : ingress_ok s -> 0 < c_charge c -> turned_away s c = Ok (negb (has_room s c)).
Proof.
  intros Hs Hc. pose proof (config_inv _ (g_config _ Hs)) as Hcfg.
  pose proof (matches_inv _ _ (g_matches _ Hs)) as [Hw _].
  pose proof (proj2 (b_limits _ (g_budget _ Hs))) as Hmax.
  pose proof (g_bytes _ Hs (c_shard c)) as Hb.
  pose proof (held_nonneg _ (queue_of s (c_shard c)) (g_budget _ Hs)) as Hh.
  unfold turned_away, has_room. fold (queue_of s (c_shard c)) (bytes_of s (c_shard c)).
  set (n := Z.of_nat (length (queue_of s (c_shard c)))).
  destruct (Z.leb_spec (shard_max_records (_config s)) n), (Z.ltb_spec n (shard_max_records (_config s)));
    try lia; [done|]. cbn [andb].
  destruct (Z.ltb_spec (shard_max_bytes (_config s)) (bytes_of s (c_shard c) + c_charge c)),
    (Z.leb_spec (bytes_of s (c_shard c) + c_charge c) (shard_max_bytes (_config s))); try lia; [done|].
  rewrite fits_ok by lia. done.
Qed.

Definition turned (status : EnqueueStatus) : EnqueueResult :=
  {| r_status := status; record := None; record_identity := None |}.
Definition result_of (s : RawIngress) (c : Candidate) : EnqueueResult :=
  {| r_status := if _high_water_bytes s <=? resident_bytes (_resident_budget s) + c_charge c
                 then ACCEPTED_HIGH_WATER else ACCEPTED;
     record := Some (c_record c); record_identity := Some (c_identity c) |}.

Definition charged (s : RawIngress) (c : Candidate) : ResidentBudget :=
  let b := _resident_budget s in
  count_charge b (<[_charge_key (c_identity c) := {| capacity_class := c_class c; charge := c_charge c |}]>
    (_charges b)) (c_class c) 1 (c_charge c).
Definition associations (s : RawIngress) (c : Candidate)
    : gmap AcceptedRecordIdentityV1 StorageControlAssociationV1 :=
  match c_association c with
  | None => _pending_control_associations s
  | Some a => <[c_identity c := a]> (_pending_control_associations s)
  end.
Definition accepted_state (s : RawIngress) (c : Candidate) : RawIngress :=
  count_accepted
    (set_queues (set_associations (set_resident s (charged s c)) (associations s c))
       (<[c_shard c := queue_of s (c_shard c) ++ [result_of s c]]> (_queues s))
       (<[c_shard c := bytes_of s (c_shard c) + c_charge c]> (_queued_bytes s)))
    (c_key c) (c_shard c) (c_sequence c) (_next_acceptance_ordinal s)
    (bool_decide (r_status (result_of s c) = ACCEPTED_HIGH_WATER)).

Lemma fresh_charge s shard key c : ingress_ok s -> candidate_ok s shard key c ->
  _charges (_resident_budget s) !! _charge_key (c_identity c) = None.
Proof.
  intros Hs Hc. apply eq_None_not_Some. intros [x Hx]. apply (g_keys _ Hs) in Hx as [_ Hx].
  cbn in Hx. rewrite (k_ordinal _ _ _ _ Hc) in Hx. lia.
Qed.

Lemma charged_bytes s c : resident_bytes (charged s c) = resident_bytes (_resident_budget s) + c_charge c.
Proof. unfold resident_bytes, charged. cbn. destruct (c_class c); lia. Qed.

Lemma has_room_fits s c : 0 < c_charge c -> ingress_ok s -> has_room s c = true ->
  fits (_resident_budget s) (c_class c) (c_charge c) = Ok true /\
  Z.of_nat (length (queue_of s (c_shard c))) < shard_max_records (_config s) /\
  bytes_of s (c_shard c) + c_charge c <= shard_max_bytes (_config s).
Proof.
  intros Hc Hs Hr. pose proof (turned_away_eq s c Hs Hc) as Ht. rewrite Hr in Ht.
  unfold has_room in Hr. bool_prop. split; [|lia]. unfold turned_away in Ht.
  fold (queue_of s (c_shard c)) (bytes_of s (c_shard c)) in Ht.
  rewrite (proj2 (Z.leb_gt _ _)), (proj2 (Z.ltb_ge _ _)) in Ht by lia.
  inv_ok. by bool_prop; subst.
Qed.

Lemma result_init_ok status r i : is_accepted status = true -> identity_matches (envelope r) i = true ->
  result_init status (Some r) (Some i)
  = Ok {| r_status := status; record := Some r; record_identity := Some i |}.
Proof. intros H1 H2. unfold result_init. by rewrite H1, H2. Qed.

Lemma accept_eq s shard key c : ingress_ok s -> candidate_ok s shard key c -> has_room s c = true ->
  accept c s = (accepted_state s c, Ok (result_of s c)) /\ budget_ok (charged s c).
Proof.
  intros Hs Hc Hr. destruct (has_room_fits s c (k_charge _ _ _ _ Hc) Hs Hr) as (Hf & Hn & _).
  destruct (reserve_ok _ (c_identity c) _ _ (g_budget _ Hs) (fresh_charge _ _ _ _ Hs Hc) Hf) as [He Hb].
  split; [|exact Hb]. unfold accept. rewrite He. fold (charged s c).
  assert (Hq : enqueue_charged (set_resident s (charged s c)) c
    = Ok (result_of s c, queue_of s (c_shard c) ++ [result_of s c])).
  { unfold enqueue_charged, put_nowait. cbn [_high_water_bytes _resident_budget set_resident _queues _config].
    rewrite charged_bytes. fold (queue_of s (c_shard c)). unfold result_of.
    rewrite result_init_ok; [|by destruct (_high_water_bytes s <=? _)|by apply (k_matches _ _ _ _ Hc)].
    cbn [rbind]. by rewrite (proj2 (Z.leb_gt _ _)), andb_false_r by lia. }
  cbv zeta. rewrite Hq. unfold accepted_state, associations. by destruct (c_association c).
Qed.

(** A queued result keeps its charge, the new one has its own. *)
Lemma held_charged s shard key c r : ingress_ok s -> candidate_ok s shard key c ->
  is_Some (held (_resident_budget s) r) -> held (charged s c) r = held (_resident_budget s) r.
Proof.
  intros Hs Hc Hr. apply held_eq. intros i Hi. cbn. apply lookup_insert_ne. intros Hk.
  pose proof (fresh_charge _ _ _ _ Hs Hc) as Hf. unfold held in Hr. rewrite Hi in Hr.
  rewrite Hk in Hf. destruct (record r); [|by destruct Hr]. rewrite Hf in Hr. by destruct Hr.
Qed.

Lemma held_new s c : held (charged s c) (result_of s c) = Some (c_charge c).
Proof. unfold held, charged. cbn. by rewrite lookup_insert_eq. Qed.

Lemma queue_of_insert s q n shard shard' :
  queue_of (set_queues s (<[shard := q]> (_queues s)) n) shard'
  = if base.decide (shard = shard') then q else queue_of s shard'.
Proof. unfold queue_of. cbn. rewrite lookup_insert. by destruct (base.decide _). Qed.

Lemma bytes_of_insert s q n shard shard' :
  bytes_of (set_queues s q (<[shard := n]> (_queued_bytes s))) shard'
  = if base.decide (shard = shard') then n else bytes_of s shard'.
Proof. unfold bytes_of. cbn. rewrite lookup_insert. by destruct (base.decide _). Qed.

Lemma accepted_queue s c shard : queue_of (accepted_state s c) shard
  = if base.decide (c_shard c = shard) then queue_of s (c_shard c) ++ [result_of s c] else queue_of s shard.
Proof. exact (queue_of_insert s _ (_queued_bytes s) _ shard). Qed.
Lemma accepted_bytes s c shard : bytes_of (accepted_state s c) shard
  = if base.decide (c_shard c = shard) then bytes_of s (c_shard c) + c_charge c else bytes_of s shard.
Proof. exact (bytes_of_insert s (_queues s) _ _ shard). Qed.

Lemma accepted_ok s shard key c : ingress_ok s -> candidate_ok s shard key c -> has_room s c = true ->
  ingress_ok (accepted_state s c).
Proof.
  intros Hs Hc Hr. destruct (accept_eq s shard key c Hs Hc Hr) as [_ Hb].
  destruct (has_room_fits s c (k_charge _ _ _ _ Hc) Hs Hr) as (_ & Hn & Hbytes).
  pose proof (held_charged s shard key c) as Hheld. split.
  - apply (g_config _ Hs).
  - apply (g_matches _ Hs).
  - exact Hb.
  - pose proof (g_ordinal _ Hs). cbn. lia.
  - cbn. pose proof (g_ordinal _ Hs). intros k x [[<- _]|[_ Hx]]%lookup_insert_Some.
    + cbn. rewrite (k_worker _ _ _ _ Hc), (k_ordinal _ _ _ _ Hc). split; [done|lia].
    + apply (g_keys _ Hs) in Hx as [? ?]. split; [done|lia].
  - intros sh r. cbn [_resident_budget accepted_state count_accepted set_queues set_associations set_resident].
    rewrite accepted_queue. destruct (base.decide _) as [<-|_].
    + intros [Hin| ->%list_elem_of_singleton]%elem_of_app; [|by rewrite held_new].
      rewrite Hheld by (done || by eapply g_held). by eapply g_held.
    + intros Hin. rewrite Hheld by (done || by eapply g_held). by eapply g_held.
  - intros sh. cbn [_resident_budget accepted_state count_accepted set_queues set_associations set_resident].
    rewrite accepted_queue, accepted_bytes.
    assert (Hsum : forall sh, zsum (default 0 ∘ held (charged s c) <$> queue_of s sh) = bytes_of s sh).
    { intros sh'. rewrite (g_bytes _ Hs). apply held_sum_eq. intros r Hin.
      apply Hheld; [done|done|by eapply g_held]. }
    destruct (base.decide _) as [<-|_]; [|by rewrite Hsum].
    rewrite zsum_fmap_snoc, Hsum. cbn [compose]. by rewrite held_new.
  - intros sh. cbn. rewrite !lookup_insert. destruct (base.decide _); [done|]. apply (g_known _ Hs).
  - intros sh. rewrite accepted_queue. cbn. destruct (base.decide _); [|apply (g_records _ Hs)].
    rewrite length_app. cbn. lia.
  - intros sh. rewrite accepted_bytes. cbn. destruct (base.decide _); [done|apply (g_room _ Hs)].
Qed.

(** Every outcome of a submission. *)
Lemma try_accept_eq s resolver d source shard t m : ingress_ok s ->
  try_accept resolver d source shard t m s
  = if _superseded s then (s, Ok (turned NOT_ACCEPTING))
    else match candidate s resolver d source shard t m with
         | Err e => (s, Err e)
         | Ok c =>
             if has_room s c then (accepted_state s c, Ok (result_of s c))
             else (count_overflow s (c_class c),
                   Ok (turned (match c_class c with CONTROL => CONTROL_OVERFLOW | NORMAL => OVERFLOW end)))
         end.
Proof.
  intros Hs. unfold try_accept. destruct (_superseded s); [done|].
  destruct (candidate s resolver d source shard t m) as [c|e] eqn:Ec; [|done].
  apply candidate_inv in Ec. rewrite turned_away_eq by (done || by eapply k_charge).
  destruct (has_room s c) eqn:Er; cbn [negb].
  - by eapply accept_eq.
  - unfold _overflow. by destruct (c_class c).
Qed.

(** ** Draining, releasing, replacing *)

(** The invariant is about these fields alone. *)
Lemma ingress_ok_same s s' : ingress_ok s -> _config s' = _config s ->
  _worker_instance_id s' = _worker_instance_id s -> _resident_budget s' = _resident_budget s ->
  _queues s' = _queues s -> _queued_bytes s' = _queued_bytes s ->
  _next_acceptance_ordinal s' = _next_acceptance_ordinal s -> ingress_ok s'.
Proof.
  intros [G1 G2 G3 G4 G5 G6 G7 G8 G9 G10] E1 E2 E3 E4 E5 E6. unfold queue_of, bytes_of in *.
  split; unfold queue_of, bytes_of; by rewrite ?E1, ?E2, ?E3, ?E4, ?E5, ?E6.
Qed.

Definition drained_state (s : RawIngress) (shard : string) (r : EnqueueResult) (q : list EnqueueResult)
    : RawIngress :=
  set_queues s (<[shard := q]> (_queues s))
    (<[shard := bytes_of s shard - default 0 (held (_resident_budget s) r)]> (_queued_bytes s)).

(** A drain of a valid shard never fails: it returns the head of the queue. *)
Lemma drain_one_eq s shard : ingress_ok s -> normalized shard = true ->
  drain_one shard s = match queue_of s shard with
                      | [] => (s, Ok None)
                      | r :: q => (drained_state s shard r q, Ok (Some r))
                      end.
Proof.
  intros Hs Hn. unfold drain_one, _validate_shard, _nonempty. rewrite Hn. cbn [negb raise_if].
  pose proof (g_held _ Hs shard) as Hheld. pose proof (g_bytes _ Hs shard) as Hbytes.
  pose proof (g_known _ Hs shard) as Hknown. unfold queue_of in *.
  destruct (_queues s !! shard) as [[|r q]|]; cbn [default id] in *; [done| |done].
  destruct (Hheld r ltac:(left)) as [n Hr]. destruct (Hknown ltac:(done)) as [queued Hq].
  rewrite fmap_cons, zsum_cons in Hbytes. cbn [compose] in Hbytes. rewrite Hr in Hbytes.
  pose proof (held_nonneg _ q (g_budget _ Hs)) as Hrest.
  unfold drained_state, bytes_of, charge_bytes. rewrite Hr. unfold bytes_of in Hbytes.
  rewrite Hq in Hbytes |- *. cbn [default id] in Hbytes |- *. unfold held in Hr. cbn -[Z.ltb Z.sub].
  destruct (record r), (record_identity r) as [i|]; try done.
  destruct (_charges (_resident_budget s) !! _charge_key i) as [c|]; [|done].
  cbn in Hr. injection Hr as <-. by rewrite Hq, (proj2 (Z.ltb_ge _ 0)) by lia.
Qed.

Lemma drained_ok s shard r q : ingress_ok s -> queue_of s shard = r :: q ->
  ingress_ok (drained_state s shard r q).
Proof.
  intros Hs Hq. pose proof (g_bytes _ Hs shard) as Hb. rewrite Hq in Hb. cbn in Hb.
  assert (Hn : 0 <= default 0 (held (_resident_budget s) r)).
  { destruct (held (_resident_budget s) r) eqn:E; [|done]. apply held_pos in E; [cbn; lia|apply Hs]. }
  assert (Hqueue : forall sh, queue_of (drained_state s shard r q) sh
    = if base.decide (shard = sh) then q else queue_of s sh) by (intros; apply queue_of_insert).
  assert (Hbytes : forall sh, bytes_of (drained_state s shard r q) sh
    = if base.decide (shard = sh) then bytes_of s shard - default 0 (held (_resident_budget s) r)
      else bytes_of s sh) by (intros; apply bytes_of_insert).
  split; try apply Hs.
  - intros sh x. rewrite Hqueue. destruct (base.decide _) as [<-|]; [|apply (g_held _ Hs)].
    intros Hx. apply (g_held _ Hs shard). rewrite Hq. by right.
  - intros sh. rewrite Hqueue, Hbytes. destruct (base.decide _) as [<-|]; [|apply (g_bytes _ Hs)].
    cbn [_resident_budget drained_state set_queues]. lia.
  - intros sh. cbn. rewrite !lookup_insert. destruct (base.decide _); [done|]. apply (g_known _ Hs).
  - intros sh. rewrite Hqueue. pose proof (g_records _ Hs sh). cbn.
    destruct (base.decide _) as [<-|]; [|done]. rewrite Hq in H. cbn in H. lia.
  - intros sh. rewrite Hbytes. pose proof (g_room _ Hs sh). cbn. destruct (base.decide _) as [<-|]; [|done]. lia.
Qed.

(** The writer releases what it has drained: no queue holds a record of the charge. *)
Definition not_queued (s : RawIngress) (identity : AcceptedRecordIdentityV1) : Prop :=
  forall shard r i, r ∈ queue_of s shard -> record_identity r = Some i -> _charge_key i <> _charge_key identity.

Lemma release_resident_ok s identity : ingress_ok s -> not_queued s identity ->
  ingress_ok (release_resident identity s).1 /\
  exists b, (release_resident identity s).1 = set_resident s b.
Proof.
  intros Hs Hnot. unfold release_resident.
  destruct (_charges (_resident_budget s) !! _charge_key identity) as [c|] eqn:Ec.
  2: { unfold release. rewrite Ec. cbn. split; [by eapply ingress_ok_same|by eexists]. }
  destruct (release_ok _ _ _ (g_budget _ Hs) Ec) as (b & -> & Hb & Hch & Hw & Hr). cbn.
  split; [|by eexists].
  assert (Hheld : forall sh r, r ∈ queue_of s sh -> held b r = held (_resident_budget s) r).
  { intros sh r Hin. apply held_eq. intros i Hi. rewrite Hch. apply lookup_delete_ne.
    intros Hk. by eapply Hnot. }
  split; cbn; try apply Hs.
  - unfold matches_config. rewrite Hw, Hr. apply Hs.
  - done.
  - rewrite Hch. intros k x [_ Hx]%lookup_delete_Some. by eapply g_keys.
  - intros sh r Hin. rewrite (Hheld _ _ Hin). by eapply g_held.
  - intros sh. unfold bytes_of. cbn. fold (bytes_of s sh). rewrite (g_bytes _ Hs). symmetry.
    apply held_sum_eq. intros r Hin. by eapply Hheld.
Qed.

Lemma quiescent_queue s shard : quiescent s = true -> queue_of s shard = [].
Proof.
  unfold quiescent, queue_of. intros H. bool_prop. destruct (_queues s !! shard) as [q|] eqn:E; [|done].
  match goal with H : map_Forall _ (_queues s) |- _ => by apply (H shard q) in E end.
Qed.

(** The replacement is sound and takes the numbering over. *)
Lemma replacement_ok sha generation s s' r : ingress_ok s ->
  replacement_for_config sha generation s = (s', Ok r) ->
  ingress_ok r /\ (forall shard, queue_of s shard = []) /\ (forall shard, queue_of r shard = []) /\
  _next_sequences r = _next_sequences s /\ _shard_by_sequence_key r = _shard_by_sequence_key s /\
  _next_acceptance_ordinal r = _next_acceptance_ordinal s /\ _accepted_count r = _accepted_count s.
Proof.
  intros Hs. unfold replacement_for_config, ingress_new.
  match goal with |- context [match ?x with Ok _ => _ | Err _ => _ end] => destruct x eqn:E end; [|done].
  intros H. inv_ok. bool_prop.
  match goal with H : quiescent s = true |- _ => pose proof (fun sh => quiescent_queue s sh H) as Hq end.
  repeat match goal with H : _nonempty _ _ = Ok _ |- _ => unfold _nonempty in H; inv_ok end.
  cbn. split; [|by split_and!].
  pose proof (config_inv _ (g_config _ Hs)).
  split; cbn; unfold queue_of, bytes_of; cbn; try apply Hs; try setoid_rewrite lookup_empty; cbn;
    try lia; try done.
  intros _ r Hr. by apply elem_of_nil in Hr.
Qed.

(** ** Runs *)
Inductive event : Type :=
| Accepted (shard : string) (r : EnqueueResult)
| Drained (shard : string) (r : EnqueueResult).

Definition accept_events (shard : string) (out : result EnqueueResult) : list event :=
  match out with Ok r => if accepted r then [Accepted shard r] else [] | Err _ => [] end.
Definition drain_events (shard : string) (out : result (option EnqueueResult)) : list event :=
  match out with Ok (Some r) => [Drained shard r] | _ => [] end.

(** A producer submits, the writer drains, takes associations and releases what it has
    drained, and the worker replaces the configuration. *)
Inductive step : RawIngress -> list event -> RawIngress -> Prop :=
| step_accept resolver d source shard t m s s' out :
    try_accept resolver d source shard t m s = (s', out) -> step s (accept_events shard out) s'
| step_drain shard s s' out : drain_one shard s = (s', out) -> step s (drain_events shard out) s'
| step_take identity s s' out : take_control_association identity s = (s', out) -> step s [] s'
| step_release identity s s' out :
    not_queued s identity -> release_resident identity s = (s', out) -> step s [] s'
| step_replace sha generation s s' out :
    replacement_for_config sha generation s = (s', out) ->
    step s [] (match out with Ok r => r | Err _ => s' end).

Inductive runs : list event -> RawIngress -> Prop :=
| runs_start config worker sha generation b s :
    config_validate config = Ok config -> from_config config = Ok b ->
    ingress_new config worker sha generation b = Ok s -> runs [] s
| runs_step tr s ev s' : runs tr s -> step s ev s' -> runs (tr ++ ev) s'.

(** ** The history of a run *)
Definition accepted_in (shard : string) (tr : list event) : list EnqueueResult :=
  omap (fun e => match e with
                 | Accepted sh r => if base.decide (sh = shard) then Some r else None
                 | Drained _ _ => None
                 end) tr.
Definition drained_in (shard : string) (tr : list event) : list EnqueueResult :=
  omap (fun e => match e with
                 | Drained sh r => if base.decide (sh = shard) then Some r else None
                 | Accepted _ _ => None
                 end) tr.
Definition identities (tr : list event) : list AcceptedRecordIdentityV1 :=
  omap (fun e => match e with Accepted _ r => record_identity r | Drained _ _ => None end) tr.
Definition stream (i : AcceptedRecordIdentityV1) : _SequenceKey :=
  ((i_market i, i_instrument_key i), i_logical_stream i).
(** The writer sequences of a stream, in the order of acceptance. *)
Definition sequences (key : _SequenceKey) (tr : list event) : list Z :=
  i_writer_sequence <$> filter (fun i => stream i = key) (identities tr).

(** [0, 1, ..., n - 1] *)
Definition count_to (n : Z) : list Z := Z.of_nat <$> seq 0 (Z.to_nat n).

Lemma count_to_snoc n : 0 <= n -> count_to (n + 1) = count_to n ++ [n].
Proof.
  intros Hn. unfold count_to. replace (Z.to_nat (n + 1)) with (S (Z.to_nat n)) by lia.
  rewrite seq_S, fmap_app. cbn. by rewrite Z2Nat.id.
Qed.

Record history_ok (tr : list event) (s : RawIngress) : Prop := {
  h_fifo : forall shard, accepted_in shard tr = drained_in shard tr ++ queue_of s shard;
  h_ordinals : acceptance_ordinal <$> identities tr = count_to (_next_acceptance_ordinal s);
  h_sequences : forall key, 0 <= default 0 (_next_sequences s !! key) /\
    sequences key tr = count_to (default 0 (_next_sequences s !! key));
  h_shard : forall shard r i, Accepted shard r ∈ tr -> record_identity r = Some i ->
    _shard_by_sequence_key s !! stream i = Some shard;
  h_count : _accepted_count s = Z.of_nat (length (identities tr))
}.

Lemma history_same tr s s' : history_ok tr s -> (forall shard, queue_of s' shard = queue_of s shard) ->
  _next_acceptance_ordinal s' = _next_acceptance_ordinal s -> _next_sequences s' = _next_sequences s ->
  _shard_by_sequence_key s' = _shard_by_sequence_key s -> _accepted_count s' = _accepted_count s ->
  history_ok tr s'.
Proof.
  intros [H1 H2 H3 H4 H5] E1 E2 E3 E4 E5. split; rewrite ?E2, ?E3, ?E4, ?E5; try done.
  intros shard. by rewrite E1.
Qed.

Lemma identities_snoc tr shard s c :
  identities (tr ++ [Accepted shard (result_of s c)]) = identities tr ++ [c_identity c].
Proof. unfold identities. by rewrite omap_app. Qed.

Lemma history_accepted tr s shard key c : history_ok tr s -> ingress_ok s -> candidate_ok s shard key c ->
  history_ok (tr ++ [Accepted shard (result_of s c)]) (accepted_state s c).
Proof.
  intros [H1 H2 H3 H4 H5] Hs Hc. split.
  - intros sh. rewrite accepted_queue. unfold accepted_in, drained_in in *. rewrite !omap_app, H1. cbn.
    rewrite (k_shard _ _ _ _ Hc). destruct (base.decide _) as [<-|]; by rewrite ?app_nil_r, ?app_assoc.
  - rewrite identities_snoc, fmap_app, H2. cbn.
    rewrite (k_ordinal _ _ _ _ Hc), count_to_snoc by apply Hs. done.
  - intros k. unfold sequences in *. rewrite identities_snoc, filter_app, fmap_app, filter_cons, filter_nil.
    destruct (H3 k) as [Hk ->]. cbn [_next_sequences accepted_state count_accepted].
    replace (stream (c_identity c)) with key by (symmetry; apply (k_stream _ _ _ _ Hc)).
    rewrite (k_key _ _ _ _ Hc), lookup_insert. destruct (base.decide _) as [->|]; cbn.
    + rewrite (k_number _ _ _ _ Hc), (k_sequence _ _ _ _ Hc). split; [lia|]. by rewrite count_to_snoc.
    + by rewrite app_nil_r.
  - intros sh r i [Hin|Hin%list_elem_of_singleton]%elem_of_app Hi; cbn; rewrite (k_key _ _ _ _ Hc).
    + specialize (H4 _ _ _ Hin Hi). destruct (_shard_by_sequence_key s !! key) eqn:E; [done|].
      rewrite lookup_insert_ne; [done|]. intros Hk. congruence.
    + injection Hin as -> ->. cbn in Hi. injection Hi as <-.
      replace (stream (c_identity c)) with key by (symmetry; apply (k_stream _ _ _ _ Hc)).
      rewrite (k_shard _ _ _ _ Hc). destruct (_shard_by_sequence_key s !! key) eqn:E.
      * rewrite E. f_equal. by apply (k_bound _ _ _ _ Hc).
      * apply lookup_insert_eq.
  - rewrite identities_snoc, length_app. cbn. lia.
Qed.

Lemma history_drained tr s shard r q : history_ok tr s -> queue_of s shard = r :: q ->
  history_ok (tr ++ [Drained shard r]) (drained_state s shard r q).
Proof.
  intros [H1 H2 H3 H4 H5] Hq.
  assert (Hid : identities (tr ++ [Drained shard r]) = identities tr).
  { unfold identities. by rewrite omap_app, app_nil_r. }
  split; unfold sequences; rewrite ?Hid; try done.
  - intros sh. unfold drained_state. rewrite queue_of_insert.
    unfold accepted_in, drained_in in *. rewrite !omap_app, H1. cbn.
    destruct (base.decide _) as [<-|]; [|by rewrite !app_nil_r].
    by rewrite Hq, app_nil_r, <- app_assoc.
  - intros sh r' i [Hin|Hin%list_elem_of_singleton]%elem_of_app; [by apply H4|done].
Qed.

Lemma history_nil tr s : history_ok tr s -> history_ok (tr ++ []) s.
Proof. by rewrite app_nil_r. Qed.

Lemma ingress_step_ok tr s ev s' : ingress_ok s -> history_ok tr s -> step s ev s' ->
  ingress_ok s' /\ history_ok (tr ++ ev) s'.
Proof.
  intros Hs Hh Hstep. destruct Hstep as [resolver d source shard t m s s' out H|shard s s' out H
    |identity s s' out H|identity s s' out Hn H|sha generation s s' out H].
  - rewrite try_accept_eq in H by done. destruct (_superseded s).
    { inv_ok. split; [done|by apply history_nil]. }
    destruct (candidate s resolver d source shard t m) as [c|e] eqn:Ec.
    2: { inv_ok. split; [done|by apply history_nil]. }
    apply candidate_inv in Ec. destruct (has_room s c) eqn:Er; inv_ok.
    + replace (accept_events shard (Ok (result_of s c))) with [Accepted shard (result_of s c)].
      * split; [by eapply accepted_ok|by eapply history_accepted].
      * cbn. unfold accepted. cbn. by destruct (_high_water_bytes s <=? _).
    + replace (accept_events shard _) with (@nil event) by by destruct (c_class c).
      split; [by eapply ingress_ok_same|]. apply history_nil. by eapply history_same.
  - destruct (normalized shard) eqn:En.
    + rewrite drain_one_eq in H by done. destruct (queue_of s shard) as [|r q] eqn:Eq; inv_ok.
      * split; [done|by apply history_nil].
      * split; [by apply drained_ok|by apply history_drained].
    + unfold drain_one, _validate_shard, _nonempty in H. rewrite En in H. cbn in H. inv_ok.
      split; [done|by apply history_nil].
  - unfold take_control_association in H. inv_ok. split; [by eapply ingress_ok_same|].
    apply history_nil. by eapply history_same.
  - destruct (release_resident_ok s identity Hs Hn) as [Hok [b Hb]]. rewrite H in Hok, Hb. cbn in Hok, Hb.
    subst s'. split; [done|]. apply history_nil. by eapply history_same.
  - destruct out as [r|e].
    + destruct (replacement_ok _ _ _ _ _ Hs H) as (Hr & Hq & Hq' & E1 & E2 & E3 & E4).
      split; [done|]. apply history_nil. eapply history_same; try done. intros. by rewrite Hq, Hq'.
    + assert (s' = s) as ->.
      { unfold replacement_for_config in H.
        match type of H with context [match ?x with Ok _ => _ | Err _ => _ end] => destruct x end;
          by inv_ok. }
      split; [done|by apply history_nil].
Qed.

Lemma runs_ok tr s : runs tr s -> ingress_ok s /\ history_ok tr s.
Proof.
  induction 1 as [config worker sha generation b s Hc Hb Hs|tr s ev s' _ [IH1 IH2] Hstep].
  - destruct (ingress_new_ok _ _ _ _ _ _ Hc Hb Hs) as (Hok & E1 & E2 & E3 & E4 & E5). split; [done|].
    split; rewrite ?E2, ?E3, ?E4, ?E5; try done.
    + intros shard. unfold queue_of. by rewrite E1.
    + intros shard r i Hin. by apply elem_of_nil in Hin.
  - by eapply ingress_step_ok.
Qed.

(** C7: the ingress stays within its limits.  In every reachable state the counters
    of the resident budget are the sums over the charges it holds; resident bytes never
    pass the limit of the worker, and those of normal records never touch the reserve
    of control records, so that a control record within the reserve always fits; and a
    shard holds at most its number of records and bytes, its byte counter being the
    bytes its queued records are charged for. *)
Theorem ingress_bounded tr s : runs tr s ->
  let b := _resident_budget s in
  resident_record_count b = Z.of_nat (size (_charges b)) /\
  resident_bytes b = msum charge (_charges b) /\
  0 <= _normal_resident_bytes b <= _worker_max_bytes b - _control_reserve_bytes b /\
  resident_bytes b <= _worker_max_bytes b <= MAX_INT64 /\
  (forall n, 0 < n -> _control_resident_bytes b + n <= _control_reserve_bytes b ->
     fits b CONTROL n = Ok true) /\
  forall shard,
    Z.of_nat (length (queue_of s shard)) <= shard_max_records (_config s) /\
    bytes_of s shard = zsum (default 0 ∘ held b <$> queue_of s shard) /\
    0 <= bytes_of s shard <= shard_max_bytes (_config s).
Proof.
  intros Hrun b. destruct (runs_ok tr s Hrun) as [Hs _].
  pose proof (g_budget _ Hs) as Hb. fold b in Hb. destruct Hb as [B1 B2 B3 B4 B5 B6 B7 B8].
  pose proof (class_nonneg _ NORMAL (g_budget _ Hs)) as Hnn. fold b in Hnn.
  pose proof (class_nonneg _ CONTROL (g_budget _ Hs)) as Hnc. fold b in Hnc.
  unfold resident_bytes, normal_capacity_bytes in *.
  split; [unfold resident_record_count; rewrite B3, B5, <- msum_one; apply msum_add, of_class_add|].
  split; [rewrite B4, B6; apply msum_add, of_class_add|].
  split; [lia|]. split; [lia|]. split.
  - intros n Hn Hc. rewrite fits_ok by lia. unfold resident_bytes.
    rewrite (proj2 (Z.leb_le _ _)) by lia. done.
  - intros shard. split; [apply (g_records _ Hs)|]. split; [apply (g_bytes _ Hs)|].
    split; [|apply (g_room _ Hs)]. rewrite (g_bytes _ Hs). apply held_nonneg, Hs.
Qed.

(** C5: records leave a shard in the order in which they entered it, each once, and
    are numbered without gaps.  Over any run, replacements of the configuration
    included, what was accepted for a shard is what was drained from it followed by
    its queue; acceptance ordinals count from 0 over all shards, the writer sequences
    of a stream count from 0, and a stream stays with one shard.  A drain of a valid
    shard never fails and returns the oldest record. *)
Theorem ingress_fifo tr s : runs tr s ->
  (forall shard, accepted_in shard tr = drained_in shard tr ++ queue_of s shard) /\
  acceptance_ordinal <$> identities tr = count_to (Z.of_nat (length (identities tr))) /\
  (forall key, sequences key tr = count_to (Z.of_nat (length (sequences key tr)))) /\
  (forall shard shard' r r' i i', Accepted shard r ∈ tr -> Accepted shard' r' ∈ tr ->
     record_identity r = Some i -> record_identity r' = Some i' -> stream i = stream i' ->
     shard = shard') /\
  (forall shard, normalized shard = true -> exists s',
     drain_one shard s = (s', Ok (head (queue_of s shard))) /\
     queue_of s' shard = tail (queue_of s shard)).
Proof.
  intros Hrun. destruct (runs_ok tr s Hrun) as [Hs [H1 H2 H3 H4 H5]].
  assert (Hlen : forall n, 0 <= n -> Z.of_nat (length (count_to n)) = n).
  { intros n Hn. unfold count_to. rewrite length_fmap, length_seq. lia. }
  split; [done|]. split.
  { rewrite <- (length_fmap acceptance_ordinal), H2, Hlen by apply Hs. done. }
  split; [intros key; destruct (H3 key) as [Hk ->]; by rewrite Hlen|]. split.
  - intros shard shard' r r' i i' Ha Ha' Hi Hi' E. pose proof (H4 _ _ _ Ha Hi). pose proof (H4 _ _ _ Ha' Hi').
    rewrite E in *. congruence.
  - intros shard Hn. rewrite drain_one_eq by done. destruct (queue_of s shard) as [|r q] eqn:Eq.
    + exists s. by rewrite Eq.
    + eexists. split; [done|]. unfold drained_state. rewrite queue_of_insert. by rewrite decide_True.
Qed.

(** C6: every outcome of a submission.  A superseded ingress accepts nothing; a draft
    that fails a check or cannot be encoded raises and changes nothing; without room a
    submission only counts as an overflow of its class.  Otherwise it is accepted: the
    record goes to the end of its shard's queue with the next numbers, is charged to
    shard and budget, binds its stream to the shard and is reported as high water
    exactly if the budget has then reached the threshold.  No charge is ever taken
    without the record. *)
Theorem try_accept_exact tr s resolver d source shard t m : runs tr s ->
  let out := try_accept resolver d source shard t m s in
  if _superseded s then out = (s, Ok (turned NOT_ACCEPTING))
  else match candidate s resolver d source shard t m with
  | Err e => out = (s, Err e)
  | Ok c =>
      if has_room s c then
        exists s' r i, out = (s', Ok r) /\ record r = Some (c_record c) /\ record_identity r = Some i /\
        r_status r = (if _high_water_bytes s <=? resident_bytes (_resident_budget s')
                      then ACCEPTED_HIGH_WATER else ACCEPTED) /\
        stream i = _sequence_key d /\ i_writer_sequence i = default 0 (_next_sequences s !! stream i) /\
        acceptance_ordinal i = _next_acceptance_ordinal s /\
        (forall sh, queue_of s' sh = queue_of s sh ++ (if base.decide (shard = sh) then [r] else [])) /\
        (forall sh, bytes_of s' sh = bytes_of s sh + (if base.decide (shard = sh) then c_charge c else 0)) /\
        held (_resident_budget s') r = Some (c_charge c) /\
        resident_bytes (_resident_budget s') = resident_bytes (_resident_budget s) + c_charge c /\
        (forall key, default 0 (_next_sequences s' !! key) = default 0 (_next_sequences s !! key)
           + (if base.decide (stream i = key) then 1 else 0)) /\
        _next_acceptance_ordinal s' = _next_acceptance_ordinal s + 1 /\
        _shard_by_sequence_key s' !! stream i = Some shard /\
        _accepted_count s' = _accepted_count s + 1
      else
        out = (count_overflow s (c_class c),
               Ok (turned (if String.eqb shard "_control" then CONTROL_OVERFLOW else OVERFLOW)))
  end.
Proof.
  intros Hrun out. destruct (runs_ok tr s Hrun) as [Hs _]. unfold out. rewrite try_accept_eq by done.
  destruct (_superseded s); [done|].
  destruct (candidate s resolver d source shard t m) as [c|e] eqn:Ec; [|done].
  apply candidate_inv in Ec. destruct (has_room s c) eqn:Er.
  2: { do 3 f_equal. destruct (k_class _ _ _ _ Ec) as [Hc1 Hc2]. destruct (String.eqb_spec shard "_control").
       - by rewrite Hc2. - destruct (c_class c); [done|]. by specialize (Hc1 eq_refl). }
  pose proof (k_stream _ _ _ _ Ec) as Hk. change (stream (c_identity c) = _sequence_key d) in Hk.
  exists (accepted_state s c), (result_of s c), (c_identity c).
  split_and!; try done.
  - cbn. by rewrite charged_bytes.
  - rewrite (k_number _ _ _ _ Ec), (k_sequence _ _ _ _ Ec). by rewrite Hk.
  - apply (k_ordinal _ _ _ _ Ec).
  - intros sh. rewrite accepted_queue, (k_shard _ _ _ _ Ec).
    destruct (base.decide _) as [<-|]; by rewrite ?app_nil_r.
  - intros sh. rewrite accepted_bytes, (k_shard _ _ _ _ Ec). destruct (base.decide _) as [<-|]; lia.
  - apply held_new.
  - apply charged_bytes.
  - intros key. cbn. rewrite (k_key _ _ _ _ Ec), lookup_insert, Hk.
    destruct (base.decide _) as [<-|]; cbn; [|lia]. by rewrite (k_sequence _ _ _ _ Ec).
  - cbn. rewrite (k_key _ _ _ _ Ec), Hk, (k_shard _ _ _ _ Ec).
    destruct (_shard_by_sequence_key s !! _sequence_key d) eqn:E.
    + rewrite E. f_equal. by apply (k_bound _ _ _ _ Ec).
    + apply lookup_insert_eq.
Qed.
End Ingress.

(** ** Concrete values *)
Module IngressSamples.
#[export] Instance sample_encoders : Encoders StorageControlAssociationV1 := {|
  orjson_dumps _ := Some "{0}"; encode_json_envelope _ := Ok "{0}"; encode_json_association _ := Ok "{1}"
|}.

Definition sample_config : IngressConfig := {|
  shard_max_records := 2; shard_max_bytes := 100; cfg_worker_max_bytes := 200;
  high_water_ratio := Dec 8 (-1); control_reserve_records := 1; cfg_control_reserve_bytes := 50
|}.
Definition sample_budget : ResidentBudget :=
  Eval vm_compute in match from_config sample_config with Ok b => b | Err _ =>
    {| _worker_max_bytes := 0; _control_reserve_bytes := 0; _charges := ∅; _normal_resident_records := 0;
       _normal_resident_bytes := 0; _control_resident_records := 0; _control_resident_bytes := 0 |} end.
Definition sample_sha : string :=
  "00000000000000000000000000000000000000000000000000000000000000ff".
Definition sample_start : result RawIngress :=
  ingress_new sample_config "worker-1" sample_sha 0 sample_budget.

Definition sample_draft (stream : string) : NativeEventDraft := {|
  exchange := BINANCE; market := Some SPOT; instrument_key := Some "BTC"; wire_symbol := Some "BTCUSDT";
  logical_stream := stream; native_channel := Some "trade"; transport := WEBSOCKET;
  event_time_ns := None; event_time_source := None; integrity_mode := None; coverage := None;
  rest_metadata := None; payload := JNull
|}.
Definition sample_source : SourceContext := {|
  connection_id := Some "c"; connection_generation := Some 0; egress_id := Some "e"
|}.

Definition submit (shard stream : string) (s : RawIngress) : RawIngress * result EnqueueResult :=
  try_accept None (sample_draft stream) sample_source shard 5 6 s.

Lemma submit_runs tr s shard stream : runs tr s ->
  runs (tr ++ accept_events shard (submit shard stream s).2) (submit shard stream s).1.
Proof. intros H. eapply runs_step; [exact H|]. eapply step_accept, surjective_pairing. Qed.

Lemma drain_runs tr s shard : runs tr s ->
  runs (tr ++ drain_events shard (drain_one shard s).2) (drain_one shard s).1.
Proof. intros H. eapply runs_step; [exact H|]. apply step_drain, surjective_pairing. Qed.

(** Two records of one shard, of which the writer drains the first. *)
Definition sample_s0 : RawIngress := Eval cbv in match sample_start with Ok s => s | Err _ =>
  {| _config := sample_config; _worker_instance_id := ""; _config_sha256 := ""; _config_generation := 0;
     _resident_budget := sample_budget; _queues := ∅; _queued_bytes := ∅; _next_sequences := ∅;
     _shard_by_sequence_key := ∅; _next_acceptance_ordinal := 0; _pending_control_associations := ∅;
     _accepted_count := 0; _enqueue_high_water_count := 0; _normal_overflow_count := 0;
     _control_overflow_count := 0; _superseded := true; _high_water_bytes := 0 |} end.
Definition sample_s1 : RawIngress := (submit "a" "trade" sample_s0).1.
Definition sample_s2 : RawIngress := (submit "a" "ticker" sample_s1).1.
Definition sample_s3 : RawIngress := (drain_one "a" sample_s2).1.
Definition sample_trace : list event :=
  (([] ++ accept_events "a" (submit "a" "trade" sample_s0).2)
   ++ accept_events "a" (submit "a" "ticker" sample_s1).2)
  ++ drain_events "a" (drain_one "a" sample_s2).2.

Lemma sample_run0 : runs [] sample_s0.
Proof.
  apply (runs_start sample_config "worker-1" sample_sha 0 sample_budget); vm_compute; reflexivity.
Qed.

Lemma sample_run : runs sample_trace sample_s3.
Proof. apply drain_runs, submit_runs, submit_runs, sample_run0. Qed.

Lemma ingress_bounded_witness :
  size (_charges (_resident_budget sample_s3)) = 2%nat /\
  resident_record_count (_resident_budget sample_s3) = 2 /\
  0 <= bytes_of sample_s3 "a" <= 100.
Proof.
  destruct (ingress_bounded sample_trace sample_s3 sample_run) as (H1 & _ & _ & _ & _ & H2).
  destruct (H2 "a") as (_ & _ & H3). split; [vm_compute; reflexivity|]. split; [exact H1|exact H3].
Defined.

Lemma ingress_fifo_witness :
  accepted_in "a" sample_trace = drained_in "a" sample_trace ++ queue_of sample_s3 "a" /\
  length (drained_in "a" sample_trace) = 1%nat /\ length (queue_of sample_s3 "a") = 1%nat /\
  acceptance_ordinal <$> identities sample_trace = [0; 1].
Proof.
  destruct (ingress_fifo sample_trace sample_s3 sample_run) as (H1 & H2 & _).
  split; [apply H1|]. split; [vm_compute; reflexivity|]. split; [vm_compute; reflexivity|].
  rewrite H2. vm_compute. reflexivity.
Defined.

(** The third record finds the shard full, and is counted. *)
Lemma try_accept_exact_witness :
  match candidate sample_s2 None (sample_draft "book_live") sample_source "a" 5 6 with
  | Ok c => has_room sample_s2 c = false /\
            submit "a" "book_live" sample_s2 = (count_overflow sample_s2 (c_class c), Ok (turned OVERFLOW))
  | Err _ => False
  end.
Proof.
  pose proof (try_accept_exact _ sample_s2 None (sample_draft "book_live") sample_source "a" 5 6
    (submit_runs _ _ "a" "ticker" (submit_runs _ _ "a" "trade" sample_run0))) as H. cbv zeta in H.
  assert (Hc : exists c, candidate sample_s2 None (sample_draft "book_live") sample_source "a" 5 6 = Ok c
    /\ has_room sample_s2 c = false).
  { vm_compute. eexists. split; reflexivity. }
  assert (_superseded sample_s2 = false) as E by (vm_compute; reflexivity).
  rewrite E in H. destruct Hc as (c & Hc1 & Hc2). rewrite Hc1 in H |- *. rewrite Hc2 in H.
  split; [exact Hc2|exact H].
Defined.
End IngressSamples.
