(* ===== verification/SelectionModels.v ===== *)
(** [selection/models.py]: instruments with their listing episodes, catalog and turnover
    snapshots and their page chains, catalog deltas, and the view the selector reads.
    A constructor that validates is [*_init] or [*_validate]; enumeration members are
    passed as such, and freezing a JSON value is the identity here. *)
From S2P Require Import Prelude PyDecimal Domain.

(** ** Field checks *)
Definition _nonempty_string (value field : string) : result string :=
  raise ValueError (field +:+ " must be a non-empty string") when negb (nonempty value);;
  Ok value.

Definition _nonnegative_int (value : Z) (field : string) : result Z :=
  raise ValueError (field +:+ " must be a non-negative integer") when value <? 0;;
  raise ValueError (field +:+ " must fit a signed 64-bit integer") when MAX_INT64 <? value;;
  Ok value.

(** A check on a value that may be [None]. *)
Definition optionally {A} (check : A -> result A) (value : option A) : result (option A) :=
  match value with
  | None => Ok None
  | Some v => let! v := check v in Ok (Some v)
  end.

Definition _optional_nonnegative_int (value : option Z) (field : string) : result (option Z) :=
  optionally (fun v => _nonnegative_int v field) value.

Definition _positive_int (value : Z) (field : string) : result Z :=
  let! normalized := _nonnegative_int value field in
  raise ValueError (field +:+ " must be positive") when normalized =? 0;;
  Ok normalized.

Definition _sha256_digest (value field : string) : result string :=
  raise ValueError (field +:+ " must be a lowercase SHA-256 hex digest") when negb (config_sha256_ok value);;
  Ok value.

(** [tuple(check(item) for item in value)] *)
Fixpoint check_all {A B} (check : A -> result B) (l : list A) : result (list B) :=
  match l with
  | [] => Ok []
  | x :: l =>
      let! y := check x in
      let! ys := check_all check l in
      Ok (y :: ys)
  end.

Definition unique {A} `{EqDecision A} (l : list A) : bool := bool_decide (NoDup l).

Definition _nonempty_string_tuple (value : list string) (field : string) : result (list string) :=
  raise ValueError (field +:+ " must be a non-empty tuple") when bool_decide (value = []);;
  let! normalized := check_all (fun item => _nonempty_string item (field +:+ " item")) value in
  raise ValueError (field +:+ " must not contain duplicates") when negb (unique normalized);;
  Ok normalized.

Definition _optional_nonempty_string (value : option string) (field : string) : result (option string) :=
  optionally (fun v => _nonempty_string v field) value.

Definition _wire_symbols (value : gmap string string) : result (gmap string string) :=
  raise ValueError "wire_symbols must be a non-empty mapping" when bool_decide (value = ∅);;
  raise ValueError "wire symbol must be a non-empty string"
    when negb (forallb (fun ps => nonempty ps.1 && nonempty ps.2) (map_to_list value));;
  Ok value.

(** ** Enumerations *)
Inductive TradableAtSource : Type :=
| EXCHANGE | EXCHANGE_CONTINUOUS | EXCHANGE_LAUNCH | FIRST_TRADABLE_SEEN.
Inductive ListingState : Type := BASELINE | PENDING | PENDING_OFFICIAL | RELIST_PENDING | ACTIVE_NEW.
Inductive LifecyclePhase : Type := UNKNOWN | PREOPEN | TRADABLE | PAUSED | DELISTED.
Inductive TurnoverMethod : Type := EXCHANGE_QUOTE_TURNOVER | BASE_VOLUME_X_REFERENCE_PRICE.
#[export] Instance TradableAtSource_eq_dec : EqDecision TradableAtSource.
Proof. solve_decision. Defined.
#[export] Instance ListingState_eq_dec : EqDecision ListingState.
Proof. solve_decision. Defined.
#[export] Instance LifecyclePhase_eq_dec : EqDecision LifecyclePhase.
Proof. solve_decision. Defined.
#[export] Instance TurnoverMethod_eq_dec : EqDecision TurnoverMethod.
Proof. solve_decision. Defined.

Definition is_official (s : TradableAtSource) : bool := negb (bool_decide (s = FIRST_TRADABLE_SEEN)).

Record CatalogScope : Type := { sc_exchange : Exchange; sc_market : Market }.
#[export] Instance CatalogScope_eq_dec : EqDecision CatalogScope.
Proof. solve_decision. Defined.
#[export] Instance CatalogScope_countable : Countable CatalogScope.
Proof.
  refine (inj_countable'
    (fun s => (match sc_exchange s with BINANCE => 0 | OKX => 1 | BYBIT => 2 | BITGET => 3 | KRAKEN => 4 end,
               match sc_market s with SPOT => true | PERPETUAL => false end))
    (fun '(e, m) => {|
       sc_exchange := if e =? 0 then BINANCE else if e =? 1 then OKX else if e =? 2 then BYBIT
                      else if e =? 3 then BITGET else KRAKEN;
       sc_market := if m : bool then SPOT else PERPETUAL |}) _).
  by intros [[] []].
Defined.

(** ** Equality of Python values *)
#[export] Instance json_eq_dec : EqDecision Json.
Proof.
  refine (fix go a b :=
    let _ : EqDecision Json := @go in
    match a, b with
    | JNull, JNull => left eq_refl
    | JBool x, JBool y => cast_if (base.decide (x = y))
    | JInt x, JInt y => cast_if (base.decide (x = y))
    | JDecimal x, JDecimal y => cast_if (base.decide (x = y))
    | JStr x, JStr y => cast_if (base.decide (x = y))
    | JList x, JList y => cast_if (base.decide (x = y))
    | JDict x, JDict y => cast_if (base.decide (x = y))
    | _, _ => right _
    end); congruence.
Defined.

(** The number a [bool], [int] or [Decimal] compares as. *)
Definition number (j : Json) : option dec :=
  match j with
  | JBool b => Some (dec_of_int (Z.b2z b))
  | JInt z => Some (dec_of_int z)
  | JDecimal d => Some d
  | _ => None
  end.

(** [==] on payloads: numbers by value, mappings whatever the order of their keys. *)
Fixpoint json_eqb (a b : Json) : bool :=
  match a, b with
  | JNull, JNull => true
  | JStr x, JStr y => String.eqb x y
  | JList x, JList y =>
      (fix all x y := match x, y with
         | [], [] => true
         | a :: x, b :: y => json_eqb a b && all x y
         | _, _ => false
         end) x y
  | JDict x, JDict y =>
      (length x =? length y)%nat
      && (fix all x := match x with
            | [] => true
            | (k, a) :: x =>
                match find (fun kv => String.eqb kv.1 k) y with
                | Some (_, b) => json_eqb a b
                | None => false
                end && all x
            end) x
  | _, _ => match number a, number b with Some x, Some y => deqb x y | _, _ => false end
  end.

(** A value equals itself; else [other] decides. *)
Definition same_or {A} `{EqDecision A} (other : A -> A -> bool) (a b : A) : bool :=
  bool_decide (a = b) || other a b.

Definition opt_eqb {A} (eqb : A -> A -> bool) (a b : option A) : bool :=
  match a, b with
  | None, None => true
  | Some a, Some b => eqb a b
  | _, _ => false
  end.

(** ** Turnover and instruments *)
Record Turnover : Type := {
  to_value : dec; to_method : TurnoverMethod; to_currency : string;
  to_observed_at_ns : option Z; to_raw_reference : option string
}.
#[export] Instance Turnover_eq_dec : EqDecision Turnover.
Proof. solve_decision. Defined.

Definition turnover_init (value : DecimalInput) (method : TurnoverMethod) (currency : string)
    (observed_at_ns : option Z) (raw_reference : option string) : result Turnover :=
  let normalized := match value with DInt n => Finite (dec_of_int n) | DDec d => d end in
  match normalized with
  | NonFinite => Err (ValueError "turnover value must be finite and non-negative")
  | Finite value =>
      raise ValueError "turnover value must be finite and non-negative" when dltb value dzero;;
      let! currency := _nonempty_string currency "turnover currency" in
      let! observed := _optional_nonnegative_int observed_at_ns "turnover observed_at_ns" in
      raise ValueError "turnover observed_at_ns and raw_reference must be provided together"
        when negb (eqb (present observed) (present raw_reference));;
      let! reference := _optional_nonempty_string raw_reference "turnover raw_reference" in
      Ok {| to_value := value; to_method := method; to_currency := currency;
            to_observed_at_ns := observed; to_raw_reference := reference |}
  end.

Definition turnover_eqb (a b : Turnover) : bool :=
  deqb (to_value a) (to_value b) && bool_decide (to_method a = to_method b)
  && String.eqb (to_currency a) (to_currency b)
  && bool_decide (to_observed_at_ns a = to_observed_at_ns b)
  && bool_decide (to_raw_reference a = to_raw_reference b).

Record InstrumentRecord : Type := {
  exchange : Exchange; market : Market; instrument_key : string; canonical_pair : string;
  wire_symbols : gmap string string; base_asset : string; quote_asset : string;
  settlement_asset : option string; status : string; lifecycle_phase : LifecyclePhase;
  tradable : bool; lifecycle : Json; tradable_at_ns : option Z;
  tradable_at_source : option TradableAtSource; turnover : option Turnover;
  raw_catalog_reference : string
}.
#[export] Instance InstrumentRecord_eq_dec : EqDecision InstrumentRecord.
Proof. solve_decision. Defined.

Definition scope (self : InstrumentRecord) : CatalogScope :=
  {| sc_exchange := exchange self; sc_market := market self |}.

(** The arguments are the record [r], whose [lifecycle_phase] is replaced by the phase
    the constructor settles on. *)
Definition record_init (r : InstrumentRecord) (phase : option LifecyclePhase) : result InstrumentRecord :=
  let! _ := _nonempty_string (instrument_key r) "instrument_key" in
  let! _ := _nonempty_string (canonical_pair r) "canonical_pair" in
  let! _ := _wire_symbols (wire_symbols r) in
  let! _ := _nonempty_string (base_asset r) "base_asset" in
  let! _ := _nonempty_string (quote_asset r) "quote_asset" in
  let! _ := _optional_nonempty_string (settlement_asset r) "settlement_asset" in
  let! _ := _nonempty_string (status r) "status" in
  let normalized_phase := match phase with
    | None => if tradable r then TRADABLE else UNKNOWN
    | Some p => p
    end in
  raise ValueError "tradable must agree with the canonical lifecycle_phase"
    when present phase && negb (eqb (bool_decide (normalized_phase = TRADABLE)) (tradable r));;
  let! _ := _optional_nonnegative_int (tradable_at_ns r) "tradable_at_ns" in
  raise ValueError "tradable_at_ns and tradable_at_source must be provided together"
    when negb (eqb (present (tradable_at_ns r)) (present (tradable_at_source r)));;
  raise ValueError "turnover currency must match quote_asset"
    when match turnover r with
         | Some t => negb (String.eqb (to_currency t) (quote_asset r))
         | None => false
         end;;
  let! _ := _nonempty_string (raw_catalog_reference r) "raw_catalog_reference" in
  Ok {| exchange := exchange r; market := market r; instrument_key := instrument_key r;
        canonical_pair := canonical_pair r; wire_symbols := wire_symbols r; base_asset := base_asset r;
        quote_asset := quote_asset r; settlement_asset := settlement_asset r; status := status r;
        lifecycle_phase := normalized_phase; tradable := tradable r; lifecycle := lifecycle r;
        tradable_at_ns := tradable_at_ns r; tradable_at_source := tradable_at_source r;
        turnover := turnover r; raw_catalog_reference := raw_catalog_reference r |}.

Record CatalogInstrument : Type := {
  inst : InstrumentRecord; first_seen_ns : Z; last_seen_ns : Z; is_present : bool;
  listing_state : ListingState; first_tradable_seen_ns : option Z; listing_generation : Z;
  last_terminal_seen_ns : option Z; new_listing_started_at_ns : option Z;
  new_listing_source : option TradableAtSource; new_listing_eligible : bool
}.
#[export] Instance CatalogInstrument_eq_dec : EqDecision CatalogInstrument.
Proof. solve_decision. Defined.

Definition c_key (i : CatalogInstrument) : string := instrument_key (inst i).
Definition c_scope (i : CatalogInstrument) : CatalogScope := scope (inst i).

Definition record_eqb (a b : InstrumentRecord) : bool :=
  bool_decide (exchange a = exchange b) && bool_decide (market a = market b)
  && String.eqb (instrument_key a) (instrument_key b) && String.eqb (canonical_pair a) (canonical_pair b)
  && bool_decide (wire_symbols a = wire_symbols b) && String.eqb (base_asset a) (base_asset b)
  && String.eqb (quote_asset a) (quote_asset b)
  && bool_decide (settlement_asset a = settlement_asset b) && String.eqb (status a) (status b)
  && bool_decide (lifecycle_phase a = lifecycle_phase b) && eqb (tradable a) (tradable b)
  && json_eqb (lifecycle a) (lifecycle b) && bool_decide (tradable_at_ns a = tradable_at_ns b)
  && bool_decide (tradable_at_source a = tradable_at_source b)
  && opt_eqb turnover_eqb (turnover a) (turnover b)
  && String.eqb (raw_catalog_reference a) (raw_catalog_reference b).

(** [==] of two catalog instruments. *)
Definition instrument_eqb (a b : CatalogInstrument) : bool :=
  same_or (fun a b =>
    record_eqb (inst a) (inst b) && (first_seen_ns a =? first_seen_ns b) && (last_seen_ns a =? last_seen_ns b)
    && eqb (is_present a) (is_present b) && bool_decide (listing_state a = listing_state b)
    && bool_decide (first_tradable_seen_ns a = first_tradable_seen_ns b)
    && (listing_generation a =? listing_generation b)
    && bool_decide (last_terminal_seen_ns a = last_terminal_seen_ns b)
    && bool_decide (new_listing_started_at_ns a = new_listing_started_at_ns b)
    && bool_decide (new_listing_source a = new_listing_source b)
    && eqb (new_listing_eligible a) (new_listing_eligible b)) a b.

(** [a <= v <= b] for a value that may be [None]. *)
Definition within (a b : Z) (v : option Z) : bool :=
  match v with None => true | Some v => (a <=? v) && (v <=? b) end.

(** [CatalogInstrument.__init__] after the part it inherits, which made [inst self]. *)
Definition instrument_validate (self : CatalogInstrument) : result CatalogInstrument :=
  let pending := bool_decide (listing_state self ∈ [PENDING; PENDING_OFFICIAL; RELIST_PENDING]) in
  let relist := bool_decide (listing_state self = RELIST_PENDING) in
  let active := bool_decide (listing_state self = ACTIVE_NEW) in
  let delisted := bool_decide (lifecycle_phase (inst self) = DELISTED) in
  let! _ := _nonnegative_int (first_seen_ns self) "first_seen_ns" in
  let! _ := _nonnegative_int (last_seen_ns self) "last_seen_ns" in
  raise ValueError "last_seen_ns must not be below first_seen_ns" when last_seen_ns self <? first_seen_ns self;;
  raise ValueError "pending listing states must be non-tradable" when tradable (inst self) && pending;;
  raise ValueError "delisted lifecycle requires relist-pending state" when delisted && negb relist;;
  let! _ := _optional_nonnegative_int (first_tradable_seen_ns self) "first_tradable_seen_ns" in
  raise ValueError "first_tradable_seen_ns must be between first_seen_ns and last_seen_ns"
    when negb (within (first_seen_ns self) (last_seen_ns self) (first_tradable_seen_ns self));;
  let! _ := _nonnegative_int (listing_generation self) "listing_generation" in
  let! _ := _optional_nonnegative_int (last_terminal_seen_ns self) "last_terminal_seen_ns" in
  raise ValueError "last_terminal_seen_ns must be between first_seen_ns and last_seen_ns"
    when negb (within (first_seen_ns self) (last_seen_ns self) (last_terminal_seen_ns self));;
  raise ValueError "relist-pending state requires terminal evidence"
    when relist && negb (present (last_terminal_seen_ns self));;
  raise ValueError "terminal evidence requires an active or relist-pending listing state"
    when negb relist && present (last_terminal_seen_ns self) && negb active;;
  raise ValueError "delisted terminal evidence must equal last_seen_ns"
    when delisted && negb (bool_decide (last_terminal_seen_ns self = Some (last_seen_ns self)));;
  let! _ := _optional_nonnegative_int (new_listing_started_at_ns self) "new_listing_started_at_ns" in
  raise ValueError "new_listing_started_at_ns and new_listing_source must be paired"
    when negb (eqb (present (new_listing_started_at_ns self)) (present (new_listing_source self)));;
  raise ValueError "new-listing eligibility must agree with the active listing state"
    when negb (eqb (new_listing_eligible self) active);;
  raise ValueError "persisted episode history requires an active or relist-pending listing state"
    when present (new_listing_started_at_ns self) && negb (new_listing_eligible self) && negb relist;;
  raise ValueError "active listing state requires a persisted episode start"
    when new_listing_eligible self && negb (present (new_listing_started_at_ns self));;
  raise ValueError "relisting episode start must follow terminal evidence"
    when active && match last_terminal_seen_ns self, new_listing_started_at_ns self with
                   | Some terminal, Some started => started <=? terminal
                   | Some _, None => true
                   | None, _ => false
                   end;;
  raise ValueError "eligible listing episodes require first_tradable_seen_ns"
    when present (new_listing_started_at_ns self) && negb (present (first_tradable_seen_ns self));;
  raise ValueError "listing episode start must not follow first_tradable_seen_ns"
    when match new_listing_started_at_ns self, first_tradable_seen_ns self with
         | Some started, Some seen => seen <? started
         | _, _ => false
         end;;
  raise ValueError "FIRST_TRADABLE_SEEN episodes must start at first_tradable_seen_ns"
    when bool_decide (new_listing_source self = Some FIRST_TRADABLE_SEEN)
         && negb (bool_decide (new_listing_started_at_ns self = first_tradable_seen_ns self));;
  Ok self.

(** ** Announcement hints *)
Record StoredAnnouncementHint : Type := {
  h_scope : CatalogScope; hint_id : string; announced_at_ns : Z; h_raw_reference : string;
  candidate_instrument_key : option string; candidate_canonical_pair : option string;
  confirmed_at_ns : option Z
}.
#[export] Instance hint_eq_dec : EqDecision StoredAnnouncementHint.
Proof. solve_decision. Defined.

(** [AnnouncementHint.__post_init__] is the part that does not read [confirmed_at_ns]. *)
Definition announcement_validate (self : StoredAnnouncementHint) : result () :=
  let! _ := _nonempty_string (hint_id self) "hint_id" in
  let! _ := _nonempty_string (h_raw_reference self) "raw_reference" in
  let! _ := _optional_nonempty_string (candidate_instrument_key self) "candidate_instrument_key" in
  let! _ := _optional_nonempty_string (candidate_canonical_pair self) "candidate_canonical_pair" in
  raise ValueError "announcement hint requires a candidate"
    when negb (present (candidate_instrument_key self)) && negb (present (candidate_canonical_pair self));;
  let! _ := _nonnegative_int (announced_at_ns self) "announced_at_ns" in
  Ok tt.

Definition hint_validate (self : StoredAnnouncementHint) : result StoredAnnouncementHint :=
  let! _ := announcement_validate self in
  let! confirmed := _optional_nonnegative_int (confirmed_at_ns self) "confirmed_at_ns" in
  raise ValueError "confirmed_at_ns must not precede announced_at_ns"
    when match confirmed with Some c => c <? announced_at_ns self | None => false end;;
  Ok self.

(** ** Pages *)
Record SnapshotPage : Type := {
  raw_reference : string; request_cursor : option string; next_cursor : option string
}.
#[export] Instance SnapshotPage_eq_dec : EqDecision SnapshotPage.
Proof. solve_decision. Defined.

Definition page_validate (self : SnapshotPage) : result SnapshotPage :=
  let! _ := _nonempty_string (raw_reference self) "page raw_reference" in
  let! _ := _optional_nonempty_string (request_cursor self) "page request_cursor" in
  let! _ := _optional_nonempty_string (next_cursor self) "page next_cursor" in
  raise ValueError "a page cursor must advance"
    when present (request_cursor self) && bool_decide (request_cursor self = next_cursor self);;
  Ok self.

(** The loop over [pairwise(pages)]. *)
Fixpoint chain_pages (pages : list SnapshotPage) : result () :=
  match pages with
  | current :: ((following :: _) as rest) =>
      raise ValueError "snapshot pages continue after a terminal page"
        when negb (present (next_cursor current));;
      raise ValueError "snapshot page cursor chain is not contiguous"
        when negb (bool_decide (request_cursor following = next_cursor current));;
      chain_pages rest
  | _ => Ok tt
  end.

Definition _complete_snapshot_pages (pages : list SnapshotPage) : result (list SnapshotPage) :=
  match head pages, last pages with
  | Some first, Some final =>
      raise ValueError "the first snapshot page must use the initial cursor" when present (request_cursor first);;
      let! _ := chain_pages pages in
      raise ValueError "snapshot pages lack terminal cursor evidence" when present (next_cursor final);;
      raise ValueError "snapshot page raw references must be unique"
        when negb (unique (raw_reference <$> pages));;
      raise ValueError "snapshot request cursors must be unique"
        when negb (unique (omap request_cursor pages));;
      Ok pages
  | _, _ => Err (ValueError "pages must be a non-empty tuple")
  end.

(** ** Complete snapshots *)
Record CompleteCatalogSnapshot : Type := {
  cs_scope : CatalogScope; cs_observed_at_ns : Z; cs_snapshot_id : string; cs_pages : list SnapshotPage;
  cs_reported_total_count : option Z; cs_authoritative_empty : bool; cs_instruments : list InstrumentRecord
}.

(** The loop over the instruments; [keys] are those of the ones before. *)
Fixpoint snapshot_instruments (s : CatalogScope) (keys : list string) (l : list InstrumentRecord)
    : result () :=
  match l with
  | [] => Ok tt
  | item :: l =>
      raise ValueError "instrument scope does not match snapshot scope" when negb (bool_decide (scope item = s));;
      raise ValueError "snapshot instrument keys must be unique"
        when bool_decide (instrument_key item ∈ keys);;
      raise ValueError "catalog snapshots cannot carry turnover observations" when present (turnover item);;
      snapshot_instruments s (instrument_key item :: keys) l
  end.

Definition catalog_snapshot_validate (self : CompleteCatalogSnapshot) : result CompleteCatalogSnapshot :=
  let empty := bool_decide (cs_instruments self = []) in
  let! _ := _nonnegative_int (cs_observed_at_ns self) "observed_at_ns" in
  let! _ := _nonempty_string (cs_snapshot_id self) "snapshot_id" in
  let! _ := _complete_snapshot_pages (cs_pages self) in
  let! reported := _optional_nonnegative_int (cs_reported_total_count self) "reported_total_count" in
  let! _ := snapshot_instruments (cs_scope self) [] (cs_instruments self) in
  raise ValueError "reported_total_count must equal the instrument count"
    when match reported with
         | Some n => negb (n =? Z.of_nat (length (cs_instruments self)))
         | None => false
         end;;
  raise ValueError "empty catalog requires an explicit authoritative_empty fact"
    when empty && negb (cs_authoritative_empty self);;
  raise ValueError "authoritative_empty cannot accompany catalog instruments"
    when negb empty && cs_authoritative_empty self;;
  Ok self.

Record TurnoverObservation : Type := {
  ob_instrument_key : string; ob_value : dec; ob_method : TurnoverMethod; ob_currency : string;
  ob_raw_reference : string
}.

Definition observation_init (instrument_key : string) (value : DecimalInput) (method : TurnoverMethod)
    (currency raw_reference : string) : result TurnoverObservation :=
  let! normalized := turnover_init value method currency None None in
  let! key := _nonempty_string instrument_key "instrument_key" in
  let! reference := _nonempty_string raw_reference "raw_reference" in
  Ok {| ob_instrument_key := key; ob_value := to_value normalized; ob_method := to_method normalized;
        ob_currency := to_currency normalized; ob_raw_reference := reference |}.

Record CompleteTurnoverSnapshot : Type := {
  ts_scope : CatalogScope; ts_catalog_revision : Z; ts_observed_at_ns : Z; ts_snapshot_id : string;
  ts_pages : list SnapshotPage; ts_reported_total_count : option Z; ts_authoritative_empty : bool;
  covered_instrument_keys : list string; observations : list TurnoverObservation
}.

Definition turnover_snapshot_validate (self : CompleteTurnoverSnapshot) : result CompleteTurnoverSnapshot :=
  let keys := ob_instrument_key <$> observations self in
  let! revision := _nonnegative_int (ts_catalog_revision self) "catalog_revision" in
  raise ValueError "turnover snapshot requires a catalog revision" when revision =? 0;;
  let! _ := _nonnegative_int (ts_observed_at_ns self) "observed_at_ns" in
  let! _ := _nonempty_string (ts_snapshot_id self) "snapshot_id" in
  let! _ := _complete_snapshot_pages (ts_pages self) in
  let! reported := _optional_nonnegative_int (ts_reported_total_count self) "reported_total_count" in
  let! covered := check_all (fun item => _nonempty_string item "covered_instrument_keys")
                    (covered_instrument_keys self) in
  raise ValueError "covered_instrument_keys must be unique" when negb (unique covered);;
  raise ValueError "empty turnover coverage requires an explicit authoritative_empty fact"
    when bool_decide (covered = []) && negb (ts_authoritative_empty self);;
  raise ValueError "authoritative_empty cannot accompany turnover coverage"
    when negb (bool_decide (covered = [])) && ts_authoritative_empty self;;
  raise ValueError "turnover observation keys must be unique" when negb (unique keys);;
  raise ValueError "turnover observations must belong to covered_instrument_keys"
    when negb (forallb (fun k => bool_decide (k ∈ covered)) keys);;
  raise ValueError "reported_total_count must equal the coverage count"
    when match reported with Some n => negb (n =? Z.of_nat (length covered)) | None => false end;;
  Ok self.

(** ** Stored snapshots and deltas *)
Record CatalogSnapshot : Type := {
  sn_scope : CatalogScope; sn_observed_at_ns : option Z; sn_revision : Z; sn_digest_sha256 : option string;
  sn_complete : bool; sn_instruments : list CatalogInstrument
}.

(** The loop over the instruments of a snapshot. *)
Fixpoint scoped_unique (s : CatalogScope) (keys : list string) (l : list CatalogInstrument) : result () :=
  match l with
  | [] => Ok tt
  | item :: l =>
      raise ValueError "instrument scope does not match catalog scope" when negb (bool_decide (c_scope item = s));;
      raise ValueError "catalog instrument keys must be unique" when bool_decide (c_key item ∈ keys);;
      scoped_unique s (c_key item :: keys) l
  end.

Definition snapshot_validate (self : CatalogSnapshot) : result CatalogSnapshot :=
  let! _ := _optional_nonnegative_int (sn_observed_at_ns self) "observed_at_ns" in
  let! revision := _nonnegative_int (sn_revision self) "revision" in
  raise ValueError "empty catalog state must use revision zero"
    when negb (eqb (negb (present (sn_observed_at_ns self))) (revision =? 0));;
  let! _ := optionally (fun d => _sha256_digest d "digest_sha256") (sn_digest_sha256 self) in
  raise ValueError "catalog digest must exist exactly when revision exists"
    when negb (eqb (revision =? 0) (negb (present (sn_digest_sha256 self))));;
  raise ValueError "revision-zero catalog state must be incomplete" when (revision =? 0) && sn_complete self;;
  raise ValueError "persisted catalog revisions must be complete" when (0 <? revision) && negb (sn_complete self);;
  raise ValueError "revision-zero catalog state cannot contain instruments"
    when (revision =? 0) && negb (bool_decide (sn_instruments self = []));;
  let! _ := scoped_unique (sn_scope self) [] (sn_instruments self) in
  Ok self.

Inductive CatalogValue : Type :=
| Instrument (i : CatalogInstrument)
| Hint (h : StoredAnnouncementHint).

Definition value_scope (v : CatalogValue) : CatalogScope :=
  match v with Instrument i => c_scope i | Hint h => h_scope h end.

Record CatalogDelta : Type := {
  d_kind : string; d_instrument_key : string; d_previous : option CatalogValue; d_current : CatalogValue
}.

Definition delta_validate (self : CatalogDelta) : result CatalogDelta :=
  raise ValueError "unsupported catalog delta kind"
    when negb (bool_decide (d_kind self ∈ ["added"; "updated"; "removed"; "new_listing"; "announcement_confirmed"]));;
  let! key := _nonempty_string (d_instrument_key self) "instrument_key" in
  if String.eqb (d_kind self) "announcement_confirmed" then
    match d_previous self, d_current self with
    | Some (Hint previous), Hint current =>
        raise ValueError "announcement key must match the explicit instrument candidate"
          when match candidate_instrument_key current with
               | Some candidate => negb (String.eqb candidate key)
               | None => false
               end;;
        raise ValueError "announcement delta values must share identity"
          when negb (bool_decide (h_scope previous = h_scope current))
               || negb (String.eqb (hint_id previous) (hint_id current));;
        raise ValueError "announcement delta must record first confirmation"
          when present (confirmed_at_ns previous) || negb (present (confirmed_at_ns current));;
        Ok self
    | _, _ => Err (TypeError "announcement delta values must be StoredAnnouncementHint")
    end
  else
    match d_previous self, d_current self with
    | Some (Hint _), _ => Err (TypeError "previous must be CatalogInstrument or None")
    | _, Hint _ => Err (TypeError "current must be CatalogInstrument")
    | previous, Instrument current =>
        raise ValueError "current instrument key must match catalog delta"
          when negb (String.eqb (c_key current) key);;
        let! _ := match previous with
          | Some (Instrument p) =>
              raise ValueError "previous instrument key must match catalog delta"
                when negb (String.eqb (c_key p) key);;
              raise ValueError "catalog delta values must share one scope"
                when negb (bool_decide (c_scope p = c_scope current));;
              Ok tt
          | _ => Ok tt
          end in
        raise ValueError (d_kind self +:+ " catalog delta requires a previous value")
          when bool_decide (d_kind self ∈ ["updated"; "removed"]) && negb (present previous);;
        raise ValueError "removed catalog delta must transition to non-present"
          when String.eqb (d_kind self) "removed"
               && match previous with
                  | Some (Instrument p) => negb (is_present p) || is_present current
                  | _ => false
                  end;;
        Ok self
    end.

(** [CatalogDelta.scope] and [CatalogDelta.identity_key] *)
Definition delta_scope (self : CatalogDelta) : CatalogScope := value_scope (d_current self).
Definition identity_key (self : CatalogDelta) : string :=
  match d_current self with
  | Hint h => if String.eqb (d_kind self) "announcement_confirmed" then hint_id h else d_instrument_key self
  | Instrument _ => d_instrument_key self
  end.

Record CatalogChanges : Type := {
  cc_scope : CatalogScope; cc_observed_at_ns : Z; is_initial_baseline : bool; cc_idempotent : bool;
  added : list CatalogInstrument; updated : list CatalogInstrument; removed : list CatalogInstrument;
  new_listings : list CatalogInstrument; confirmed_announcement_hints : list StoredAnnouncementHint;
  cc_revision : Z; cc_digest_sha256 : option string; control_event_ids : list string;
  cc_deltas : list CatalogDelta
}.

(** [tuple(item.current for item in deltas if item.kind == kind)] *)
Definition current_instruments (kind : string) (deltas : list CatalogDelta) : list CatalogInstrument :=
  omap (fun d => match d_current d with
                 | Instrument i => if String.eqb (d_kind d) kind then Some i else None
                 | Hint _ => None
                 end) deltas.
Definition current_hints (deltas : list CatalogDelta) : list StoredAnnouncementHint :=
  omap (fun d => match d_current d with
                 | Hint h => if String.eqb (d_kind d) "announcement_confirmed" then Some h else None
                 | Instrument _ => None
                 end) deltas.

Fixpoint list_eqb {A} (eqb : A -> A -> bool) (a b : list A) : bool :=
  match a, b with
  | [], [] => true
  | x :: a, y :: b => eqb x y && list_eqb eqb a b
  | _, _ => false
  end.

Definition changes_validate (self : CatalogChanges) : result CatalogChanges :=
  let in_scope (l : list CatalogInstrument) := forallb (fun i => bool_decide (c_scope i = cc_scope self)) l in
  let agrees (l : list CatalogInstrument) (kind : string) :=
    list_eqb instrument_eqb l (current_instruments kind (cc_deltas self)) in
  let! _ := _nonnegative_int (cc_observed_at_ns self) "observed_at_ns" in
  raise ValueError "an initial baseline cannot be idempotent" when is_initial_baseline self && cc_idempotent self;;
  let! _ := _positive_int (cc_revision self) "revision" in
  match cc_digest_sha256 self with
  | None => Err (ValueError "digest_sha256 is required")
  | Some digest =>
      let! _ := _sha256_digest digest "digest_sha256" in
      raise ValueError "added contains a cross-scope instrument" when negb (in_scope (added self));;
      raise ValueError "updated contains a cross-scope instrument" when negb (in_scope (updated self));;
      raise ValueError "removed contains a cross-scope instrument" when negb (in_scope (removed self));;
      raise ValueError "new_listings contains a cross-scope instrument" when negb (in_scope (new_listings self));;
      raise ValueError "confirmed announcement hint scope mismatch"
        when negb (forallb (fun h => bool_decide (h_scope h = cc_scope self)) (confirmed_announcement_hints self));;
      raise ValueError "catalog delta scope mismatch"
        when negb (forallb (fun d => bool_decide (delta_scope d = cc_scope self)) (cc_deltas self));;
      raise ValueError "catalog deltas must have unique kind/key identities"
        when negb (unique ((fun d => (d_kind d, identity_key d)) <$> cc_deltas self));;
      raise ValueError "added must agree with catalog deltas" when negb (agrees (added self) "added");;
      raise ValueError "updated must agree with catalog deltas" when negb (agrees (updated self) "updated");;
      raise ValueError "removed must agree with catalog deltas" when negb (agrees (removed self) "removed");;
      raise ValueError "new_listings must agree with catalog deltas"
        when negb (agrees (new_listings self) "new_listing");;
      raise ValueError "confirmed_announcement_hints must agree with catalog deltas"
        when negb (bool_decide (confirmed_announcement_hints self = current_hints (cc_deltas self)));;
      let! ids := check_all (fun i => _sha256_digest i "control event ID") (control_event_ids self) in
      raise ValueError "control_event_ids must be unique" when negb (unique ids);;
      raise ValueError "idempotent catalog changes cannot contain deltas"
        when cc_idempotent self
             && negb (bool_decide (added self = []) && bool_decide (updated self = [])
                      && bool_decide (removed self = []) && bool_decide (new_listings self = [])
                      && bool_decide (confirmed_announcement_hints self = []) && bool_decide (ids = [])
                      && (length (cc_deltas self) =? 0)%nat);;
      Ok self
  end.

(** ** The view *)
Record CatalogView : Type := {
  v_scope : CatalogScope; catalog_observed_at_ns : option Z; catalog_revision : Z;
  catalog_digest_sha256 : option string; catalog_snapshot_id : option string;
  catalog_page_raw_references : list string; turnover_observed_at_ns : option Z; turnover_revision : Z;
  turnover_digest_sha256 : option string; turnover_catalog_revision : option Z;
  turnover_snapshot_id : option string; turnover_page_raw_references : list string;
  turnover_covered_instrument_keys : list string; instruments : list CatalogInstrument
}.

(** The loop over the instruments of a view. *)
Fixpoint view_instruments (s : CatalogScope) (observed : option Z) (keys : list string)
    (l : list CatalogInstrument) : result () :=
  match l with
  | [] => Ok tt
  | item :: l =>
      raise ValueError "instrument scope does not match catalog view scope"
        when negb (bool_decide (c_scope item = s));;
      raise ValueError "catalog view instrument keys must be unique" when bool_decide (c_key item ∈ keys);;
      raise ValueError "present instrument last_seen_ns must equal catalog_observed_at_ns"
        when match observed with
             | Some o => is_present item && negb (last_seen_ns item =? o)
             | None => false
             end;;
      raise ValueError "missing instrument last_seen_ns must precede catalog_observed_at_ns"
        when match observed with
             | Some o => negb (is_present item) && (o <=? last_seen_ns item)
             | None => false
             end;;
      view_instruments s observed (c_key item :: keys) l
  end.

(** The loop over the turnovers of a view. *)
Fixpoint view_turnovers (self : CatalogView) (l : list CatalogInstrument) : result () :=
  match l with
  | [] => Ok tt
  | item :: l =>
      let value := turnover (inst item) in
      let! _ :=
        if turnover_revision self =? 0 then
          raise ValueError "turnover values require a turnover revision" when present value;; Ok tt
        else if bool_decide (c_key item ∉ turnover_covered_instrument_keys self) then
          raise ValueError "turnover outside the latest snapshot coverage is invalid" when present value;; Ok tt
        else
          raise ValueError "turnover observation must match the view observation header"
            when match value with
                 | Some t => negb (bool_decide (to_observed_at_ns t = turnover_observed_at_ns self))
                 | None => false
                 end;;
          Ok tt in
      view_turnovers self l
  end.

(** Keys all of which are in [allowed]. *)
Definition subset_of (keys allowed : list string) : bool := forallb (fun k => bool_decide (k ∈ allowed)) keys.

(** The checks that depend on whether there is a catalog revision, or a turnover revision. *)
Definition view_catalog_header (self : CatalogView) : result () :=
  if catalog_revision self =? 0 then
    raise ValueError "empty catalog state cannot carry a snapshot ID" when present (catalog_snapshot_id self);;
    raise ValueError "empty catalog state cannot carry page references"
      when negb (bool_decide (catalog_page_raw_references self = []));;
    Ok tt
  else
    let! _ := _nonempty_string (default "" (catalog_snapshot_id self)) "catalog_snapshot_id" in
    let! _ := _nonempty_string_tuple (catalog_page_raw_references self) "catalog_page_raw_references" in
    Ok tt.

Definition view_turnover_header (self : CatalogView) : result () :=
  if turnover_revision self =? 0 then
    raise ValueError "empty turnover state cannot carry a snapshot ID" when present (turnover_snapshot_id self);;
    raise ValueError "empty turnover state cannot carry page references"
      when negb (bool_decide (turnover_page_raw_references self = []));;
    raise ValueError "empty turnover state cannot carry coverage"
      when negb (bool_decide (turnover_covered_instrument_keys self = []));;
    Ok tt
  else
    let! _ := _nonempty_string (default "" (turnover_snapshot_id self)) "turnover_snapshot_id" in
    let! _ := _nonempty_string_tuple (turnover_page_raw_references self) "turnover_page_raw_references" in
    let! coverage := check_all (fun k => _nonempty_string k "turnover covered instrument key")
                       (turnover_covered_instrument_keys self) in
    raise ValueError "turnover coverage must contain unique keys" when negb (unique coverage);;
    Ok tt.

(** The catalog revision the turnover is bound to. *)
Definition view_binding (self : CatalogView) : result () :=
  match turnover_catalog_revision self with
  | None => Ok tt
  | Some bound =>
      raise ValueError "turnover_catalog_revision must be positive" when bound =? 0;;
      raise ValueError "turnover cannot bind a future catalog revision" when catalog_revision self <? bound;;
      raise ValueError "turnover observation cannot predate its bound catalog observation"
        when (bound =? catalog_revision self)
             && match catalog_observed_at_ns self, turnover_observed_at_ns self with
                | Some c, Some t => t <? c
                | _, _ => false
                end;;
      Ok tt
  end.

Definition view_validate (self : CatalogView) : result CatalogView :=
  let keys := c_key <$> instruments self in
  let present_keys := c_key <$> filter (fun i => is_present i = true) (instruments self) in
  let! catalog_observed := _optional_nonnegative_int (catalog_observed_at_ns self) "catalog_observed_at_ns" in
  let! revision := _nonnegative_int (catalog_revision self) "catalog_revision" in
  raise ValueError "empty catalog state must use revision zero"
    when negb (eqb (revision =? 0) (negb (present catalog_observed)));;
  raise ValueError "catalog digest must exist exactly with a catalog revision"
    when negb (eqb (revision =? 0) (negb (present (catalog_digest_sha256 self))));;
  let! _ := optionally (fun d => _sha256_digest d "catalog_digest_sha256") (catalog_digest_sha256 self) in
  let! _ := view_catalog_header self in
  let! _ := _optional_nonnegative_int (turnover_observed_at_ns self) "turnover_observed_at_ns" in
  let! turnover_rev := _nonnegative_int (turnover_revision self) "turnover_revision" in
  let! _ := _optional_nonnegative_int (turnover_catalog_revision self) "turnover_catalog_revision" in
  raise ValueError "turnover observation must exist exactly with its revision"
    when negb (eqb (turnover_rev =? 0) (negb (present (turnover_observed_at_ns self))));;
  raise ValueError "turnover digest must exist exactly with its revision"
    when negb (eqb (turnover_rev =? 0) (negb (present (turnover_digest_sha256 self))));;
  raise ValueError "turnover catalog binding must exist exactly with its revision"
    when negb (eqb (turnover_rev =? 0) (negb (present (turnover_catalog_revision self))));;
  let! _ := optionally (fun d => _sha256_digest d "turnover_digest_sha256") (turnover_digest_sha256 self) in
  let! _ := view_binding self in
  let! _ := view_turnover_header self in
  let! _ := view_instruments (v_scope self) catalog_observed [] (instruments self) in
  raise ValueError "empty catalog state cannot contain instruments"
    when (revision =? 0) && negb (bool_decide (instruments self = []));;
  raise ValueError "turnover coverage must belong to catalog instruments"
    when negb (subset_of (turnover_covered_instrument_keys self) keys);;
  raise ValueError "turnover coverage bound to the current catalog must contain only present instruments"
    when bool_decide (turnover_catalog_revision self = Some revision)
         && negb (subset_of (turnover_covered_instrument_keys self) present_keys);;
  let! _ := view_turnovers self (instruments self) in
  Ok self.

Record TurnoverChanges : Type := {
  tc_scope : CatalogScope; tc_catalog_revision : Z; tc_observed_at_ns : Z; tc_revision : Z;
  tc_idempotent : bool; changed_instrument_keys : list string
}.

Definition turnover_changes_validate (self : TurnoverChanges) : result TurnoverChanges :=
  let keys := changed_instrument_keys self in
  let! _ := _positive_int (tc_catalog_revision self) "catalog_revision" in
  let! _ := _nonnegative_int (tc_observed_at_ns self) "observed_at_ns" in
  let! _ := _positive_int (tc_revision self) "revision" in
  let! normalized := check_all (fun k => _nonempty_string k "changed instrument key") keys in
  raise ValueError "changed_instrument_keys must be sorted and unique"
    when negb (bool_decide (normalized = py_sorted string_leb normalized)) || negb (unique normalized);;
  raise ValueError "idempotent turnover changes cannot contain deltas"
    when tc_idempotent self && negb (bool_decide (normalized = []));;
  Ok self.

Record CatalogControlChange : Type := {
  event_id : string; ch_scope : CatalogScope; ch_catalog_revision : Z; ch_kind : string;
  ch_instrument_key : string; ch_payload : Json
}.

Definition control_change_validate (self : CatalogControlChange) : result CatalogControlChange :=
  let! _ := _sha256_digest (event_id self) "event_id" in
  let! _ := _positive_int (ch_catalog_revision self) "catalog_revision" in
  let! _ := _nonempty_string (ch_kind self) "kind" in
  let! _ := _nonempty_string (ch_instrument_key self) "instrument_key" in
  Ok self.
