(* ===== verification/Selector.v ===== *)
(** [selection/selector.py]: policies, selection states and results, and [select], which
    joins fixed instruments, active new listings and the top instruments by turnover,
    and keeps what has dropped out of the top for a while.  Unicode case folding and the
    SHA-256 digest are parameters. *)
From stdpp Require Import pretty.
From S2P Require Import Prelude PyDecimal Domain StorageModels SelectionModels.

(** ** Field checks *)
Definition _integer (value : Z) (field : string) (minimum : Z) : result Z :=
  raise ValueError (field +:+ (if minimum =? 1 then " must be positive" else " must be non-negative"))
    when value <? minimum;;
  raise ValueError (field +:+ " must fit a signed 64-bit integer") when MAX_INT64 <? value;;
  Ok value.

Definition _optional_integer (value : option Z) (field : string) (minimum : Z) : result (option Z) :=
  optionally (fun v => _integer v field minimum) value.

(** [str.strip]: characters of several bytes are removed as a whole. *)
Definition drop_prefix (w s : string) : string :=
  String.substring (String.length w) (String.length s - String.length w) s.
Fixpoint lstrip (fuel : nat) (s : string) : string :=
  match fuel with
  | O => s
  | S fuel =>
      match find (fun w => String.prefix w s) WHITESPACE with
      | Some w => lstrip fuel (drop_prefix w s)
      | None => s
      end
  end.
Fixpoint rstrip (fuel : nat) (s : string) : string :=
  match fuel with
  | O => s
  | S fuel =>
      match find (fun w => suffix w s) WHITESPACE with
      | Some w => rstrip fuel (String.substring 0 (String.length s - String.length w) s)
      | None => s
      end
  end.
Definition strip (s : string) : string := rstrip (String.length s) (lstrip (String.length s) s).

(** ** [json.dumps] of a policy *)
Definition json_char (c : Ascii.ascii) : string :=
  let n := Ascii.nat_of_ascii c in
  let escaped (c : nat) := byte_str [92%nat; c] in
  if (n =? 34)%nat then escaped 34%nat else if (n =? 92)%nat then escaped 92%nat
  else if (n =? 8)%nat then escaped 98%nat else if (n =? 9)%nat then escaped 116%nat
  else if (n =? 10)%nat then escaped 110%nat else if (n =? 12)%nat then escaped 102%nat
  else if (n =? 13)%nat then escaped 114%nat
  else if (n <? 32)%nat then
    escaped 117%nat +:+ "00" +:+ String (Ascii.ascii_of_nat (48 + n / 16))
      (String (Ascii.ascii_of_nat (if n mod 16 <? 10 then 48 + n mod 16 else 87 + n mod 16)%nat) "")
  else String c "".
Definition quoted (s : string) : string := byte_str [34%nat] +:+ s +:+ byte_str [34%nat].
Definition json_string (s : string) : string :=
  quoted (String.concat "" (json_char <$> String.list_ascii_of_string s)).
Definition json_list (l : list string) : string := "[" +:+ String.concat "," l +:+ "]".

(** ** Reasons *)
Definition FIXED : Z := 1.
Definition NEW_LISTING : Z := 2.
Definition TOP_N : Z := 4.
Definition TOP_N_GRACE : Z := 8.
Definition has (flag reasons : Z) : bool := negb (Z.land reasons flag =? 0).

Inductive AdmissionPriority : Type := PRIORITY_TOP_N | PRIORITY_NEW_LISTING | PRIORITY_FIXED.
#[export] Instance AdmissionPriority_eq_dec : EqDecision AdmissionPriority.
Proof. solve_decision. Defined.

(** ** Fixed selections and entries *)
Record ResolvedFixedSelection : Type := {
  f_scope : CatalogScope; f_catalog_revision : Z; f_instrument_keys : gset string
}.

Definition fixed_init (scope : CatalogScope) (catalog_revision : Z) (instrument_keys : gset string)
    : result ResolvedFixedSelection :=
  let! revision := _integer catalog_revision "catalog_revision" 1 in
  raise ValueError "instrument_keys must contain non-empty strings"
    when negb (forallb nonempty (elements instrument_keys));;
  Ok {| f_scope := scope; f_catalog_revision := revision; f_instrument_keys := instrument_keys |}.

Record SelectionEntry : Type := {
  instrument : CatalogInstrument; reasons : Z; top_n_rank : option Z; top_exit_started_at_ns : option Z
}.
#[export] Instance SelectionEntry_eq_dec : EqDecision SelectionEntry.
Proof. solve_decision. Defined.

Definition entry_init (instrument : CatalogInstrument) (reasons : Z)
    (top_n_rank top_exit_started_at_ns : option Z) : result SelectionEntry :=
  let known := Z.lor (Z.lor (Z.lor FIXED NEW_LISTING) TOP_N) TOP_N_GRACE in
  raise ValueError "reasons must contain only known selection reasons"
    when (reasons =? 0) || negb (Z.land reasons (Z.lnot known) =? 0);;
  raise ValueError "TOP_N and TOP_N_GRACE are mutually exclusive" when has TOP_N reasons && has TOP_N_GRACE reasons;;
  let! rank := _optional_integer top_n_rank "top_n_rank" 1 in
  raise ValueError "TOP_N requires a quote-local rank" when has TOP_N reasons && negb (present rank);;
  raise ValueError "top_n_rank requires TOP_N or TOP_N_GRACE"
    when negb (has TOP_N reasons || has TOP_N_GRACE reasons) && present rank;;
  let! exit_started := _optional_integer top_exit_started_at_ns "top_exit_started_at_ns" 0 in
  raise ValueError "top_exit_started_at_ns must exist exactly for TOP_N_GRACE"
    when negb (eqb (has TOP_N_GRACE reasons) (present exit_started));;
  Ok {| Selector.instrument := instrument; Selector.reasons := reasons; Selector.top_n_rank := rank;
        Selector.top_exit_started_at_ns := exit_started |}.

Definition entry_key (self : SelectionEntry) : string := c_key (instrument self).
Definition admission_priority (self : SelectionEntry) : AdmissionPriority :=
  if has FIXED (reasons self) then PRIORITY_FIXED
  else if has NEW_LISTING (reasons self) then PRIORITY_NEW_LISTING else PRIORITY_TOP_N.

(** [==] of two entries. *)
Definition entry_eqb (a b : SelectionEntry) : bool :=
  instrument_eqb (instrument a) (instrument b) && (reasons a =? reasons b)
  && bool_decide (top_n_rank a = top_n_rank b)
  && bool_decide (top_exit_started_at_ns a = top_exit_started_at_ns b).

(** ** States, deltas and results *)
Definition _immutable_entries (value : gmap string SelectionEntry) (scope : CatalogScope)
    : result (gmap string SelectionEntry) :=
  let items := py_sorted (on_key fst string_leb) (map_to_list value) in
  let! _ := check_all (fun ke =>
    raise ValueError "entry keys must be non-empty strings" when negb (nonempty ke.1);;
    raise ValueError "entry key must match its instrument_key" when negb (String.eqb ke.1 (entry_key ke.2));;
    raise ValueError "entry instrument scope must match selection scope"
      when negb (bool_decide (c_scope (instrument ke.2) = scope));;
    Ok tt) items in
  Ok value.

Record SelectionState : Type := {
  s_scope : CatalogScope; s_catalog_revision : Z; s_turnover_revision : Z; s_policy_id : string;
  revision : Z; entries : gmap string SelectionEntry
}.

Definition state_init (scope : CatalogScope) (catalog_revision turnover_revision : Z) (policy_id : string)
    (revision : Z) (entries : gmap string SelectionEntry) : result SelectionState :=
  let! catalog_revision := _integer catalog_revision "catalog_revision" 1 in
  let! turnover_revision := _integer turnover_revision "turnover_revision" 0 in
  raise ValueError "policy_id must be a lowercase SHA-256 hex digest" when negb (config_sha256_ok policy_id);;
  let! revision := _integer revision "revision" 0 in
  let! entries := _immutable_entries entries scope in
  Ok {| s_scope := scope; s_catalog_revision := catalog_revision; s_turnover_revision := turnover_revision;
        s_policy_id := policy_id; Selector.revision := revision; Selector.entries := entries |}.

Record SelectionDelta : Type := {
  delta_key : string; delta_previous : option SelectionEntry; delta_current : option SelectionEntry
}.

Definition delta_init (instrument_key : string) (previous current : option SelectionEntry)
    : result SelectionDelta :=
  raise ValueError "instrument_key must be a non-empty string" when negb (nonempty instrument_key);;
  raise ValueError "selection delta requires a previous or current value"
    when negb (present previous) && negb (present current);;
  raise ValueError "delta values must match instrument_key"
    when negb (opt_ok (fun e => String.eqb (entry_key e) instrument_key) previous
               && opt_ok (fun e => String.eqb (entry_key e) instrument_key) current);;
  Ok {| delta_key := instrument_key; delta_previous := previous; delta_current := current |}.

Record SelectionResult : Type := {
  r_scope : CatalogScope; r_catalog_revision : Z; r_turnover_revision : Z; r_policy_id : string;
  r_entries : gmap string SelectionEntry; next_state : SelectionState; deltas : list SelectionDelta
}.

(** [==] of two mappings. *)
Definition entries_eqb (a b : gmap string SelectionEntry) : bool :=
  bool_decide (dom a = dom b)
  && forallb (fun ke => opt_eqb entry_eqb (Some ke.2) (b !! ke.1)) (map_to_list a).

Definition result_init (scope : CatalogScope) (catalog_revision turnover_revision : Z) (policy_id : string)
    (entries : gmap string SelectionEntry) (next_state : SelectionState) (deltas : list SelectionDelta)
    : result SelectionResult :=
  let! catalog_revision := _integer catalog_revision "catalog_revision" 1 in
  let! turnover_revision := _integer turnover_revision "turnover_revision" 0 in
  raise ValueError "policy_id must be a lowercase SHA-256 hex digest" when negb (config_sha256_ok policy_id);;
  let! entries := _immutable_entries entries scope in
  raise ValueError "next_state must describe this exact selection result"
    when negb (bool_decide (s_scope next_state = scope) && (s_catalog_revision next_state =? catalog_revision)
               && (s_turnover_revision next_state =? turnover_revision)
               && String.eqb (s_policy_id next_state) policy_id
               && entries_eqb (Selector.entries next_state) entries);;
  let keys := delta_key <$> deltas in
  raise ValueError "deltas must have unique instrument keys in sorted order"
    when negb (bool_decide (keys = py_sorted string_leb keys)) || negb (unique keys);;
  let! _ := check_all (fun d =>
    raise ValueError "delta entries must match result scope"
      when negb (opt_ok (fun e => bool_decide (c_scope (instrument e) = scope)) (delta_previous d)
                 && opt_ok (fun e => bool_decide (c_scope (instrument e) = scope)) (delta_current d));;
    raise ValueError "delta current value must match result entries"
      when negb (opt_eqb entry_eqb (delta_current d) (entries !! delta_key d));;
    Ok tt) deltas in
  Ok {| r_scope := scope; r_catalog_revision := catalog_revision; r_turnover_revision := turnover_revision;
        r_policy_id := policy_id; r_entries := entries; Selector.next_state := next_state;
        Selector.deltas := deltas |}.

(** ** Policies *)
Record SelectionPolicy : Type := {
  p_scope : CatalogScope; quote_assets : list string; top_n : Z; turnover_max_age_ns : Z;
  new_listings_enabled : bool; new_listing_capture_duration_ns : Z; exit_grace_ns : Z; policy_id : string
}.

Section Policy.
Context (casefold sha256_hex : string -> string).

(** The loop of [_selection_strings]; [identities] are the folded strings before. *)
Fixpoint normalize_strings (identities : list string) (value : list string) (field : string)
    : result (list string) :=
  match value with
  | [] => Ok []
  | item :: value =>
      let stripped := strip item in
      raise ValueError (field +:+ " entries must not be blank") when negb (nonempty stripped);;
      raise ValueError (field +:+ " entries must be unique under case-folding")
        when bool_decide (casefold stripped ∈ identities);;
      let! rest := normalize_strings (casefold stripped :: identities) value field in
      Ok (stripped :: rest)
  end.

Definition _selection_strings (value : list string) (field : string) (allow_empty : bool)
    : result (list string) :=
  raise ValueError (field +:+ " must not be empty") when bool_decide (value = []) && negb allow_empty;;
  normalize_strings [] value field.

(** The text that is hashed: a JSON object with sorted keys and no blanks. *)
Definition canonical_policy (exit_grace_ns capture_ns : Z) (enabled : bool) (quotes : list string)
    (top_n turnover_max_age_ns : Z) : string :=
  "{" +:+ quoted "exit_grace_ns" +:+ ":" +:+ pretty exit_grace_ns
  +:+ "," +:+ quoted "new_listing_capture_duration_ns" +:+ ":" +:+ pretty capture_ns
  +:+ "," +:+ quoted "new_listings_enabled" +:+ ":" +:+ (if enabled then "true" else "false")
  +:+ "," +:+ quoted "quote_assets" +:+ ":" +:+ json_list (json_string <$> quotes)
  +:+ "," +:+ quoted "top_n" +:+ ":" +:+ pretty top_n
  +:+ "," +:+ quoted "turnover_max_age_ns" +:+ ":" +:+ pretty turnover_max_age_ns +:+ "}".

Definition policy_init (scope : CatalogScope) (quote_assets : list string) (top_n turnover_max_age_ns : Z)
    (new_listings_enabled : bool) (new_listing_capture_duration_ns exit_grace_ns : Z)
    : result SelectionPolicy :=
  let! quotes := _selection_strings quote_assets "quote_assets" false in
  let! n := _integer top_n "top_n" 0 in
  let! age := _integer turnover_max_age_ns "turnover_max_age_ns" 1 in
  let! capture := _integer new_listing_capture_duration_ns "new_listing_capture_duration_ns" 1 in
  let! grace := _integer exit_grace_ns "exit_grace_ns" 0 in
  Ok {| p_scope := scope; Selector.quote_assets := quotes; Selector.top_n := n;
        Selector.turnover_max_age_ns := age; Selector.new_listings_enabled := new_listings_enabled;
        Selector.new_listing_capture_duration_ns := capture; Selector.exit_grace_ns := grace;
        policy_id := sha256_hex (canonical_policy grace capture new_listings_enabled quotes n age) |}.
End Policy.

(** ** The checks of [select] *)

(** The loop over the instruments of a catalog, which builds the table by key. *)
Fixpoint catalog_table (scope : CatalogScope) (table : gmap string CatalogInstrument)
    (l : list CatalogInstrument) : result (gmap string CatalogInstrument) :=
  match l with
  | [] => Ok table
  | item :: l =>
      raise ValueError "catalog instrument scope mismatch" when negb (bool_decide (c_scope item = scope));;
      raise ValueError "catalog instrument keys must be unique" when present (table !! c_key item);;
      catalog_table scope (<[c_key item := item]> table) l
  end.

Definition _validate_catalog (catalog : CatalogView) : result (gmap string CatalogInstrument) :=
  let! catalog_revision := _integer (catalog_revision catalog) "catalog revision" 1 in
  let! turnover_revision := _integer (turnover_revision catalog) "turnover revision" 0 in
  let! _ := _optional_integer (catalog_observed_at_ns catalog) "catalog observed_at_ns" 0 in
  let! observed := _optional_integer (turnover_observed_at_ns catalog) "turnover observed_at_ns" 0 in
  let! bound := _optional_integer (turnover_catalog_revision catalog) "turnover catalog revision" 1 in
  raise ValueError "empty turnover state must not carry provenance"
    when (turnover_revision =? 0)
         && (present observed || present bound || present (turnover_digest_sha256 catalog));;
  raise ValueError "turnover state requires complete provenance"
    when (0 <? turnover_revision)
         && (negb (present observed) || negb (present bound) || negb (present (turnover_digest_sha256 catalog)));;
  raise ValueError "turnover cannot be bound to a future catalog revision"
    when match bound with Some b => catalog_revision <? b | None => false end;;
  catalog_table (v_scope catalog) ∅ (instruments catalog).

Definition _validate_inputs (catalog : CatalogView) (fixed : ResolvedFixedSelection)
    (policy : SelectionPolicy) (previous : option SelectionState) : result () :=
  raise ValueError "policy scope does not match catalog scope"
    when negb (bool_decide (p_scope policy = v_scope catalog));;
  raise ValueError "fixed selection scope does not match catalog scope"
    when negb (bool_decide (f_scope fixed = v_scope catalog));;
  raise ValueError "fixed selection revision does not match catalog revision"
    when negb (f_catalog_revision fixed =? catalog_revision catalog);;
  match previous with
  | None => Ok tt
  | Some p =>
      raise ValueError "previous state scope does not match catalog scope"
        when negb (bool_decide (s_scope p = v_scope catalog));;
      raise ValueError "previous state policy does not match selection policy"
        when negb (String.eqb (s_policy_id p) (policy_id policy));;
      raise ValueError "previous state catalog revision is from the future"
        when catalog_revision catalog <? s_catalog_revision p;;
      raise ValueError "previous state turnover revision is from the future"
        when turnover_revision catalog <? s_turnover_revision p;;
      Ok tt
  end.

Definition check_fixed (table : gmap string CatalogInstrument) (keys : list string) : result () :=
  let! _ := check_all (fun key =>
    match table !! key with
    | None => Err (ValueError ("fixed instrument " +:+ key +:+ " is not in catalog"))
    | Some item =>
        raise ValueError ("fixed instrument " +:+ key +:+ " must be present and tradable")
          when negb (is_present item) || negb (tradable (inst item));;
        Ok tt
    end) keys in
  Ok tt.

(** ** Ranking *)

(** The instruments of the table in the order of the catalog. *)
Definition rank_eligible (catalog : CatalogView) (policy : SelectionPolicy) (now_ns : Z) (quote : string)
    (item : CatalogInstrument) : bool :=
  is_present item && tradable (inst item)
  && bool_decide (c_key item ∈ turnover_covered_instrument_keys catalog)
  && String.eqb (quote_asset (inst item)) quote
  && match turnover (inst item) with
     | None => false
     | Some t =>
         String.eqb (to_currency t) quote
         && match to_observed_at_ns t with
            | None => false
            | Some observed =>
                (observed <=? now_ns) && (now_ns - observed <=? turnover_max_age_ns policy)
            end
     end.

Definition turnover_value (item : CatalogInstrument) : dec :=
  match turnover (inst item) with Some t => to_value t | None => dzero end.

(** Sorted by key, then, stably, by falling turnover. *)
Definition ranked (catalog : CatalogView) (policy : SelectionPolicy) (now_ns : Z) (quote : string)
    : list CatalogInstrument :=
  py_sorted (fun a b => dleb (turnover_value b) (turnover_value a))
    (py_sorted (on_key c_key string_leb)
       (filter (fun i => rank_eligible catalog policy now_ns quote i = true) (instruments catalog))).

(** [enumerate(l, start=n)] into the table of ranks. *)
Fixpoint enumerate_ranks (n : Z) (l : list CatalogInstrument) (ranks : gmap string Z) : gmap string Z :=
  match l with
  | [] => ranks
  | item :: l => enumerate_ranks (n + 1) l (<[c_key item := n]> ranks)
  end.

Definition _rank_top_n (catalog : CatalogView) (policy : SelectionPolicy) (now_ns : Z) : gmap string Z :=
  if (turnover_revision catalog =? 0)
     || negb (bool_decide (turnover_catalog_revision catalog = Some (catalog_revision catalog)))
     || (top_n policy =? 0)
  then ∅
  else foldl (fun ranks quote =>
         enumerate_ranks 1 (take (Z.to_nat (top_n policy)) (ranked catalog policy now_ns quote)) ranks)
       ∅ (quote_assets policy).

Definition _is_active_new_listing (item : CatalogInstrument) (policy : SelectionPolicy) (now_ns : Z) : bool :=
  new_listings_enabled policy && is_present item && tradable (inst item)
  && bool_decide (quote_asset (inst item) ∈ quote_assets policy)
  && bool_decide (listing_state item = ACTIVE_NEW) && new_listing_eligible item
  && match new_listing_started_at_ns item with
     | None => false
     | Some start => (start <=? now_ns) && (now_ns - start <? new_listing_capture_duration_ns policy)
     end.

(** ** [select] *)

(** The three dictionaries [select] fills. *)
Record Draft : Type := {
  w_reasons : gmap string Z; w_ranks : gmap string (option Z); w_grace_starts : gmap string (option Z)
}.
Definition add_reason (key : string) (flag : Z) (w : Draft) : Draft :=
  {| w_reasons := <[key := Z.lor (default 0 (w_reasons w !! key)) flag]> (w_reasons w);
     w_ranks := w_ranks w; w_grace_starts := w_grace_starts w |}.
Definition set_rank (key : string) (rank grace : option Z) (w : Draft) : Draft :=
  {| w_reasons := w_reasons w; w_ranks := <[key := rank]> (w_ranks w);
     w_grace_starts := <[key := grace]> (w_grace_starts w) |}.

Definition add_fixed (fixed : ResolvedFixedSelection) (w : Draft) : Draft :=
  foldl (fun w key => add_reason key FIXED w) w (elements (f_instrument_keys fixed)).
Definition add_new_listings (catalog : CatalogView) (policy : SelectionPolicy) (now_ns : Z) (w : Draft) : Draft :=
  foldl (fun w item => if _is_active_new_listing item policy now_ns
                       then add_reason (c_key item) NEW_LISTING w else w) w (instruments catalog).
Definition add_top (ranks : gmap string Z) (w : Draft) : Draft :=
  foldl (fun w kr => set_rank kr.1 (Some kr.2) None (add_reason kr.1 TOP_N w)) w (map_to_list ranks).

(** When an entry left the top, if the grace it has from then on still runs. *)
Definition grace_start (table : gmap string CatalogInstrument) (ranks : gmap string Z)
    (policy : SelectionPolicy) (now_ns : Z) (key : string) (old : SelectionEntry) : option Z :=
  if present (ranks !! key) then None
  else match table !! key with
  | None => None
  | Some current =>
      if negb (is_present current) || negb (tradable (inst current))
         || negb (bool_decide (quote_asset (inst current) ∈ quote_assets policy))
         || negb (listing_generation current =? listing_generation (instrument old))
      then None
      else
        let exit_started :=
          if has TOP_N (reasons old) then Some now_ns
          else if has TOP_N_GRACE (reasons old) then top_exit_started_at_ns old else None in
        match exit_started with
        | Some t => if (t <=? now_ns) && (now_ns - t <? exit_grace_ns policy) then Some t else None
        | None => None
        end
  end.
Definition add_grace (table : gmap string CatalogInstrument) (ranks : gmap string Z)
    (policy : SelectionPolicy) (now_ns : Z) (previous : gmap string SelectionEntry) (w : Draft) : Draft :=
  foldl (fun w ke =>
    match grace_start table ranks policy now_ns ke.1 ke.2 with
    | Some t => set_rank ke.1 (top_n_rank ke.2) (Some t) (add_reason ke.1 TOP_N_GRACE w)
    | None => w
    end) w (map_to_list previous).

(** A grace that starts in the future: the clock went back. *)
Definition clock_regressed (now_ns : Z) (previous : gmap string SelectionEntry) : bool :=
  existsb (fun ke => has TOP_N_GRACE (reasons ke.2)
                     && match top_exit_started_at_ns ke.2 with Some t => now_ns <? t | None => false end)
    (map_to_list previous).

Definition build_entries (table : gmap string CatalogInstrument) (w : Draft)
    : result (gmap string SelectionEntry) :=
  let! items := check_all (fun kr =>
    match table !! kr.1 with
    | None => Err (KeyError kr.1)
    | Some item =>
        let! e := entry_init item kr.2 (mjoin (w_ranks w !! kr.1)) (mjoin (w_grace_starts w !! kr.1)) in
        Ok (kr.1, e)
    end) (py_sorted (on_key fst string_leb) (map_to_list (w_reasons w))) in
  Ok (list_to_map items).

Definition build_deltas (previous current : gmap string SelectionEntry) : result (list SelectionDelta) :=
  let keys := py_sorted string_leb (elements (dom previous ∪ dom current : gset string)) in
  check_all (fun k => delta_init k (previous !! k) (current !! k))
    (filter (fun k => opt_eqb entry_eqb (previous !! k) (current !! k) = false) keys).

Definition select (catalog : CatalogView) (fixed : ResolvedFixedSelection) (policy : SelectionPolicy)
    (previous : option SelectionState) (now_ns : Z) : result SelectionResult :=
  let! now := _integer now_ns "now_ns" 0 in
  let! table := _validate_catalog catalog in
  let! _ := _validate_inputs catalog fixed policy previous in
  let! _ := check_fixed table (py_sorted string_leb (elements (f_instrument_keys fixed))) in
  let ranks := _rank_top_n catalog policy now in
  let previous_entries := match previous with Some p => entries p | None => ∅ end in
  let w := add_top ranks (add_new_listings catalog policy now (add_fixed fixed
             {| w_reasons := ∅; w_ranks := ∅; w_grace_starts := ∅ |})) in
  raise ValueError "now_ns precedes a persisted top-exit grace deadline"
    when clock_regressed now previous_entries;;
  let w := add_grace table ranks policy now previous_entries w in
  let! built := build_entries table w in
  let! immutable := _immutable_entries built (v_scope catalog) in
  let! state := state_init (v_scope catalog) (catalog_revision catalog) (turnover_revision catalog)
    (policy_id policy) (match previous with Some p => revision p | None => 0 end) immutable in
  let! ds := build_deltas previous_entries immutable in
  result_init (v_scope catalog) (catalog_revision catalog) (turnover_revision catalog) (policy_id policy)
    immutable state ds.
