(* ===== verification/SelectorFacts.v ===== *)
(** What [select] of [selection/selector.py] selects. *)
From stdpp Require Import pretty.
From S2P Require Import Prelude PyDecimal Domain StorageModels SelectionModels Selector.

(** ** Generic facts *)
Section Stable.
Context {A : Type} (leb : A -> A -> bool) `{!LebOrder leb} (R2 : A -> A -> Prop).

(** Python's sort is stable: ties keep the order [R2] they had. *)
Definition stable_order (a b : A) : Prop := leb a b = true /\ (leb b a = true -> R2 a b).

Lemma insert_sorted_stable x l : StronglySorted stable_order l -> Forall (R2 x) l ->
  StronglySorted stable_order (insert_sorted leb x l).
Proof.
  induction 1 as [|y l Hl IH Hy]; intros Hx; cbn; [repeat constructor|].
  apply Forall_cons in Hx as [Hxy Hx]. destruct (leb x y) eqn:E.
  - constructor; [by constructor|]. constructor; [by split|].
    apply Forall_forall. intros z Hz. pose proof (proj1 (Forall_forall _ _) Hy z Hz) as [Hyz _].
    split; [by eapply leb_trans|]. intros _. by apply (proj1 (Forall_forall _ _) Hx).
  - constructor; [by apply IH|]. rewrite insert_sorted_perm. constructor; [|done].
    split; [|congruence]. destruct (leb_total leb x y); congruence.
Qed.

Lemma py_sorted_stable l : StronglySorted R2 l -> StronglySorted stable_order (py_sorted leb l).
Proof.
  induction 1 as [|x l Hl IH Hx]; cbn; [constructor|]. apply insert_sorted_stable; [done|].
  by rewrite py_sorted_perm.
Qed.
End Stable.

(** The index of an element of a sorted list counts the elements that come before it. *)
Lemma sorted_index {A} `{EqDecision A} (R : A -> A -> Prop) `{forall x y, Decision (R x y)} (l : list A) n x :
  StronglySorted R l -> (forall y z, y ∈ l -> z ∈ l -> R y z -> R z y -> y = z) ->
  NoDup l -> l !! n = Some x -> length (filter (fun y => R y x /\ y <> x) l) = n.
Proof.
  intros Hs. revert n. induction Hs as [|a l Hl IH Ha]; intros n Hanti Hnd Hn; [done|].
  apply NoDup_cons in Hnd as [Hna Hnd]. rewrite filter_cons. destruct n as [|n].
  - injection Hn as ->. rewrite decide_False by naive_solver.
    rewrite filter_none; [done|]. intros y Hy [Hyx Hne]. apply Hne. apply Hanti; [by right|left|done|].
    by apply (proj1 (Forall_forall _ _) Ha).
  - cbn in Hn. assert (Hx : x ∈ l) by by eapply list_elem_of_lookup_2.
    rewrite decide_True; [cbn; f_equal; apply IH; try done; intros; apply Hanti; try done; by right|].
    split; [by apply (proj1 (Forall_forall _ _) Ha)|]. intros ->. done.
Qed.

Lemma check_all_ok {A B} (check : A -> result B) (f : A -> B) l :
  (forall x, x ∈ l -> check x = Ok (f x)) -> check_all check l = Ok (f <$> l).
Proof.
  induction l as [|x l IH]; intros Hl; [done|]. cbn. rewrite Hl by left. cbn.
  rewrite IH; [done|]. intros. apply Hl. by right.
Qed.

Lemma check_all_total {A B} (check : A -> result B) (P : A -> B -> Prop) l :
  (forall x, x ∈ l -> exists y, check x = Ok y /\ P x y) -> exists ys, check_all check l = Ok ys /\ Forall2 P l ys.
Proof.
  induction l as [|x l IH]; intros Hl; [by exists []|]. destruct (Hl x ltac:(left)) as (y & Hy & HP).
  destruct IH as (ys & Hys & HF); [intros; apply Hl; by right|].
  exists (y :: ys). cbn. rewrite Hy. cbn. rewrite Hys. split; [done|by constructor].
Qed.

(** The first element that fails decides. *)
Lemma check_all_unit {A} (check : A -> result unit) l :
  check_all check l = match find (fun x => negb (is_ok (check x))) l with
                      | None => Ok (replicate (length l) tt)
                      | Some x => match check x with Ok _ => Ok [] | Err e => Err e end
                      end.
Proof.
  induction l as [|x l IH]; [done|]. cbn. destruct (check x) as [[]|e] eqn:E; cbn; [|by rewrite E].
  rewrite IH. destruct (find _ l) as [y|] eqn:F; [|done].
  apply find_some in F as [_ F]. by destruct (check y).
Qed.

Lemma check_all_inv {A B} (check : A -> result B) l ys : check_all check l = Ok ys ->
  Forall2 (fun x y => check x = Ok y) l ys.
Proof. revert ys. induction l as [|x l IH]; intros ys H; cbn in H; inv_ok; constructor; auto. Qed.

Lemma check_all_cases {A B} (check : A -> result B) l :
  match check_all check l with
  | Ok ys => Forall2 (fun x y => check x = Ok y) l ys
  | Err e => exists x, x ∈ l /\ check x = Err e
  end.
Proof.
  destruct (check_all check l) as [ys|e] eqn:E; [by apply check_all_inv|]. revert E.
  induction l as [|x l IH]; [done|]. cbn. destruct (check x) as [y|e'] eqn:Ex; cbn.
  - destruct (check_all check l); [done|]. intros [= ->]. destruct IH as (z & Hz & Hc); [done|].
    exists z. split; [by right|done].
  - intros [= ->]. exists x. split; [left|done].
Qed.

Lemma check_all_unit_ok {A} (check : A -> result unit) l us : check_all check l = Ok us ->
  forall x, x ∈ l -> check x = Ok tt.
Proof.
  intros H x [n Hn]%list_elem_of_lookup. apply check_all_inv in H.
  destruct (Forall2_lookup_l _ _ _ _ _ H Hn) as ([] & _ & Hx). done.
Qed.

(** ** Equality *)
Lemma instrument_eqb_refl i : instrument_eqb i i = true.
Proof. unfold instrument_eqb, same_or. by rewrite bool_decide_eq_true_2. Qed.
Lemma entry_eqb_refl e : entry_eqb e e = true.
Proof. unfold entry_eqb. by rewrite instrument_eqb_refl, Z.eqb_refl, !bool_decide_eq_true_2. Qed.
Lemma opt_entry_eqb_refl o : opt_eqb entry_eqb o o = true.
Proof. destruct o; [apply entry_eqb_refl|done]. Qed.
Lemma entries_eqb_refl m : entries_eqb m m = true.
Proof.
  unfold entries_eqb. rewrite bool_decide_eq_true_2 by done. apply forallb_forall.
  intros [k e] Hin%list_elem_of_In. apply elem_of_map_to_list in Hin. cbn [fst snd]. rewrite Hin.
  apply opt_entry_eqb_refl.
Qed.

(** ** Ranking *)
Section Ranking.
Context (catalog : CatalogView) (policy : SelectionPolicy) (now_ns : Z).
Hypothesis unique_keys : NoDup (c_key <$> instruments catalog).

Definition turnover_leb (a b : CatalogInstrument) : bool := dleb (turnover_value b) (turnover_value a).
(** [a] is ranked before [b]: more turnover, or as much and a smaller key. *)
Definition beats (a b : CatalogInstrument) : Prop :=
  turnover_leb a b = true /\ (turnover_leb b a = true -> string_leb (c_key a) (c_key b) = true).
#[export] Instance beats_dec a b : Decision (beats a b).
Proof. unfold beats. apply _. Defined.

#[export] Instance turnover_leb_order : LebOrder turnover_leb.
Proof.
  split; unfold turnover_leb.
  - intros x y. rewrite !dleb_spec. destruct (Qlt_le_dec (dval (turnover_value x)) (dval (turnover_value y))) as [H|H].
    + right. by apply Qlt_le_weak. + by left.
  - intros x y z. rewrite !dleb_spec. intros H1 H2. by eapply Qle_trans.
Qed.

Definition eligible (quote : string) : list CatalogInstrument :=
  filter (fun i => rank_eligible catalog policy now_ns quote i = true) (instruments catalog).

Lemma ranked_perm quote : ranked catalog policy now_ns quote ≡ₚ eligible quote.
Proof. unfold ranked. by rewrite !py_sorted_perm. Qed.

Lemma key_inj i j : i ∈ instruments catalog -> j ∈ instruments catalog -> c_key i = c_key j -> i = j.
Proof.
  intros [n Hn]%list_elem_of_lookup [m Hm]%list_elem_of_lookup Hk.
  assert (n = m) as ->; [|congruence].
  eapply NoDup_lookup; [exact unique_keys| |]; rewrite list_lookup_fmap; [by rewrite Hn|rewrite Hm; cbn; by rewrite Hk].
Qed.

Lemma ranked_sorted quote : StronglySorted beats (ranked catalog policy now_ns quote).
Proof.
  exact (py_sorted_stable turnover_leb (fun a b => string_leb (c_key a) (c_key b) = true) _
    (py_sorted_sorted (on_key c_key string_leb) _)).
Qed.

Lemma ranked_unique quote : NoDup (c_key <$> ranked catalog policy now_ns quote).
Proof.
  rewrite ranked_perm. unfold eligible. revert unique_keys. generalize (instruments catalog) as l.
  induction l as [|x l IH]; intros Hl; [constructor|]. rewrite fmap_cons in Hl. apply NoDup_cons in Hl as [Hx Hl].
  rewrite filter_cons. case_decide; [|by apply IH]. rewrite fmap_cons. constructor; [|by apply IH].
  intros (y & Hy & Hin)%list_elem_of_fmap. apply Hx. rewrite Hy.
  apply list_elem_of_filter in Hin as [_ Hin]. by apply list_elem_of_fmap_2.
Qed.

(** The rank an instrument has in a quote: one more than the number that beat it. *)
Definition place (quote : string) (item : CatalogInstrument) : Z :=
  1 + Z.of_nat (length (filter (fun j => beats j item /\ j <> item) (eligible quote))).
Definition rank_at (quote : string) (item : CatalogInstrument) : option Z :=
  if rank_eligible catalog policy now_ns quote item && (place quote item <=? top_n policy)
  then Some (place quote item) else None.

Lemma enumerate_lookup l n m k : NoDup (c_key <$> l) ->
  enumerate_ranks n l m !! k = match list_find (fun i => c_key i = k) l with
                               | Some (p, _) => Some (n + Z.of_nat p)
                               | None => m !! k
                               end.
Proof.
  revert n m. induction l as [|i l IH]; intros n m Hl; [done|]. rewrite fmap_cons in Hl.
  apply NoDup_cons in Hl as [Hi Hl]. cbn [enumerate_ranks list_find]. rewrite IH by done.
  destruct (base.decide (c_key i = k)) as [<-|Hne].
  - destruct (list_find _ l) as [[p j]|] eqn:E.
    + apply list_find_Some in E as (Hp & Hk & _). exfalso. apply Hi. rewrite <- Hk.
      apply list_elem_of_fmap_2. by eapply list_elem_of_lookup_2.
    + rewrite lookup_insert_eq. f_equal. lia.
  - destruct (list_find _ l) as [[p j]|]; cbn.
    + f_equal. lia. + by rewrite lookup_insert_ne.
Qed.

Lemma ranked_elem quote i : i ∈ ranked catalog policy now_ns quote <->
  rank_eligible catalog policy now_ns quote i = true /\ i ∈ instruments catalog.
Proof. rewrite ranked_perm. unfold eligible. by rewrite list_elem_of_filter. Qed.

Lemma ranked_place quote n i : ranked catalog policy now_ns quote !! n = Some i ->
  place quote i = 1 + Z.of_nat n.
Proof.
  intros Hn. unfold place. rewrite <- ranked_perm. do 2 f_equal.
  apply sorted_index; [apply ranked_sorted| | |done].
  - intros y z Hy Hz [H1 H2] [H3 H4]. apply ranked_elem in Hy as [_ Hy], Hz as [_ Hz].
    apply key_inj; [done|done|]. apply string_leb_antisym; auto.
  - eapply NoDup_fmap_1, ranked_unique.
Qed.

Lemma enumerate_ranked quote item m : item ∈ instruments catalog -> 0 <= top_n policy ->
  enumerate_ranks 1 (take (Z.to_nat (top_n policy)) (ranked catalog policy now_ns quote)) m !! c_key item
  = match rank_at quote item with Some n => Some n | None => m !! c_key item end.
Proof.
  intros Hitem Htop. set (N := Z.to_nat (top_n policy)). set (l := ranked catalog policy now_ns quote).
  assert (Hnd : NoDup (c_key <$> take N l)).
  { rewrite fmap_take. apply (sublist_NoDup _ (c_key <$> l)); [apply ranked_unique|apply sublist_take]. }
  rewrite enumerate_lookup by done. destruct (list_find _ (take N l)) as [[p j]|] eqn:E.
  - apply list_find_Some in E as (Hp & Hk & _). apply lookup_take_Some in Hp as [Hp Hlt].
    pose proof (list_elem_of_lookup_2 _ _ _ Hp) as Hj. apply ranked_elem in Hj as [He Hj].
    apply key_inj in Hk; [subst j|done|done]. unfold rank_at. rewrite He, (ranked_place _ _ _ Hp).
    rewrite (proj2 (Z.leb_le _ _)) by lia. done.
  - unfold rank_at. destruct (rank_eligible _ _ _ quote item) eqn:He; [|done]. cbn [andb].
    assert (Hin : item ∈ l) by by apply ranked_elem. apply list_elem_of_lookup in Hin as [p Hp].
    rewrite (ranked_place _ _ _ Hp). destruct (Z.leb_spec (1 + Z.of_nat p) (top_n policy)); [|done].
    exfalso. apply list_find_None in E. assert (Hin : item ∈ take N l).
    { apply list_elem_of_lookup. exists p. apply lookup_take_Some. split; [done|lia]. }
    by apply (proj1 (Forall_forall _ _) E item Hin).
Qed.

(** The table of ranks: an instrument of a listed quote has its rank in that quote. *)
Definition rank_of (item : CatalogInstrument) : option Z :=
  if (turnover_revision catalog =? 0)
     || negb (bool_decide (turnover_catalog_revision catalog = Some (catalog_revision catalog)))
     || negb (bool_decide (quote_asset (inst item) ∈ quote_assets policy))
  then None else rank_at (quote_asset (inst item)) item.

Lemma rank_at_other quote item : quote_asset (inst item) <> quote -> rank_at quote item = None.
Proof.
  intros Hne. unfold rank_at, rank_eligible.
  by rewrite (proj2 (String.eqb_neq _ _) Hne), !andb_false_r.
Qed.

Lemma fold_ranks quotes m item : item ∈ instruments catalog -> 0 <= top_n policy ->
  foldl (fun ranks quote =>
    enumerate_ranks 1 (take (Z.to_nat (top_n policy)) (ranked catalog policy now_ns quote)) ranks) m quotes
    !! c_key item
  = match (if bool_decide (quote_asset (inst item) ∈ quotes)
           then rank_at (quote_asset (inst item)) item else None) with
    | Some n => Some n
    | None => m !! c_key item
    end.
Proof.
  intros Hitem Htop. revert m. induction quotes as [|q quotes IH]; intros m; [done|]. cbn [foldl].
  rewrite IH, enumerate_ranked by done.
  destruct (base.decide (quote_asset (inst item) = q)) as [<-|Hne].
  - rewrite (bool_decide_eq_true_2 (_ ∈ _ :: _)) by left.
    destruct (bool_decide _), (rank_at _ item); done.
  - rewrite (rank_at_other q) by done.
    rewrite (bool_decide_ext (_ ∈ q :: quotes) (quote_asset (inst item) ∈ quotes)) by set_solver. done.
Qed.

Lemma rank_top_n_lookup item : item ∈ instruments catalog -> 0 <= top_n policy ->
  _rank_top_n catalog policy now_ns !! c_key item = rank_of item.
Proof.
  intros Hitem Htop. unfold _rank_top_n, rank_of. destruct (turnover_revision catalog =? 0); [done|].
  destruct (bool_decide (turnover_catalog_revision catalog = _)); [|done]. cbn [negb orb].
  destruct (Z.eqb_spec (top_n policy) 0) as [E|_].
  - rewrite lookup_empty. destruct (bool_decide _); [|done]. cbn. unfold rank_at, place.
    rewrite (proj2 (Z.leb_gt _ _)), andb_false_r by lia. done.
  - rewrite fold_ranks, lookup_empty by done. destruct (bool_decide _); [|done]. cbn. by destruct (rank_at _ _).
Qed.

Lemma rank_of_bounds item n : rank_of item = Some n -> 1 <= n <= top_n policy.
Proof.
  unfold rank_of, rank_at. destruct (_ || _); [done|].
  destruct (rank_eligible _ _ _ _ item); [|done]. cbn.
  destruct (Z.leb_spec (place (quote_asset (inst item)) item) (top_n policy)); [|done].
  intros [= <-]. unfold place in *. lia.
Qed.

Lemma enumerate_keys n l m k x : enumerate_ranks n l m !! k = Some x ->
  k ∈ c_key <$> l \/ m !! k = Some x.
Proof.
  revert n m. induction l as [|i l IH]; intros n m H; [by right|]. cbn in H.
  apply IH in H as [H|H]; [left; by right|]. apply lookup_insert_Some in H as [[<- _]|[_ H]]; [|by right].
  left. by left.
Qed.

(** Only instruments of the catalog are ranked. *)
Lemma rank_top_n_keys k n : _rank_top_n catalog policy now_ns !! k = Some n ->
  k ∈ c_key <$> instruments catalog.
Proof.
  unfold _rank_top_n. destruct (_ || _); [done|]. intros H.
  assert (Hgen : forall quotes m, foldl (fun ranks quote =>
    enumerate_ranks 1 (take (Z.to_nat (top_n policy)) (ranked catalog policy now_ns quote)) ranks) m quotes
    !! k = Some n -> k ∈ c_key <$> instruments catalog \/ m !! k = Some n).
  { induction quotes as [|q quotes IH]; intros m Hm; [by right|]. cbn in Hm.
    apply IH in Hm as [Hm|Hm]; [by left|]. apply enumerate_keys in Hm as [Hm|Hm]; [|by right]. left.
    apply list_elem_of_fmap in Hm as (i & -> & Hi). apply list_elem_of_fmap_2.
    apply list_elem_of_lookup in Hi as [p Hp]. apply lookup_take_Some in Hp as [Hp _].
    apply list_elem_of_lookup_2, ranked_elem in Hp. by apply Hp. }
  apply Hgen in H as [H|H]; [done|]. by rewrite lookup_empty in H.
Qed.
End Ranking.

(** ** The table of the catalog *)
Lemma catalog_table_ok scope l : forall t, Forall (fun i => c_scope i = scope) l -> NoDup (c_key <$> l) ->
  (forall i, i ∈ l -> t !! c_key i = None) ->
  exists t', catalog_table scope t l = Ok t' /\
    forall k i, t' !! k = Some i <-> (i ∈ l /\ c_key i = k) \/ t !! k = Some i.
Proof.
  induction l as [|x l IH]; intros t Hs Hnd Hnew.
  { exists t. split; [done|]. intros k i. split; [by right|]. intros [[Hin _]|H]; [|done]. by apply elem_of_nil in Hin. }
  apply Forall_cons in Hs as [Hx Hs]. rewrite fmap_cons in Hnd. apply NoDup_cons in Hnd as [Hnx Hnd].
  assert (Hne : forall i, i ∈ l -> c_key i <> c_key x).
  { intros i Hi E. apply Hnx. rewrite <- E. by apply list_elem_of_fmap_2. }
  destruct (IH (<[c_key x := x]> t) Hs Hnd) as (t' & Ht' & Hspec).
  { intros i Hi. rewrite lookup_insert_ne by (intros E; by apply (Hne i Hi)). apply Hnew. by right. }
  exists t'. split.
  - cbn. rewrite bool_decide_eq_true_2 by done. cbn. rewrite Hnew by left. exact Ht'.
  - intros k i. rewrite Hspec, lookup_insert_Some, elem_of_cons. split.
    + intros [[Hi <-]|[[<- <-]|[_ H]]]; [left; by split; [right|]|left; by split; [left|]|by right].
    + intros [[[->|Hi] <-]|H]; [right; by left|left; by split|].
      destruct (base.decide (c_key x = k)) as [<-|Hne']; [|right; by right].
      rewrite (Hnew x ltac:(left)) in H. done.
Qed.

(** What the validation of a view gives. *)
Lemma view_instruments_inv scope observed l : forall keys u, view_instruments scope observed keys l = Ok u ->
  Forall (fun i => c_scope i = scope) l /\ NoDup (c_key <$> l) /\ (forall i, i ∈ l -> c_key i ∉ keys).
Proof.
  induction l as [|x l IH]; intros keys u H; cbn in H.
  { split; [constructor|]. split; [constructor|]. intros i Hi. by apply elem_of_nil in Hi. }
  inv_ok. bool_prop. destruct (IH _ _ H) as (H4 & H5 & H6). rewrite fmap_cons. split; [by constructor|]. split.
  - constructor; [|done]. intros (i & Hk & Hi)%list_elem_of_fmap. apply (H6 i Hi). rewrite <- Hk. left.
  - intros i [->|Hi]%elem_of_cons; [done|]. intros Hk. apply (H6 i Hi). by right.
Qed.

Lemma optionally_inv {A} (check : A -> result A) v w : (forall a b, check a = Ok b -> b = a) ->
  optionally check v = Ok w -> w = v.
Proof. intros Hc. destruct v as [a|]; cbn; intros H; inv_ok; [|done]. by rewrite (Hc a x). Qed.

Lemma nonneg_int_inv v f w : _nonnegative_int v f = Ok w -> w = v /\ 0 <= v <= MAX_INT64.
Proof. unfold _nonnegative_int. intros H. inv_ok. by bool_prop. Qed.

Lemma integer_min_ok v f m : m <= v <= MAX_INT64 -> _integer v f m = Ok v.
Proof.
  intros Hv. unfold _integer, raise_if. rewrite (proj2 (Z.ltb_ge v m)) by lia.
  by rewrite (proj2 (Z.ltb_ge MAX_INT64 v)) by lia.
Qed.

Lemma integer_min_inv v f m w : _integer v f m = Ok w -> w = v /\ m <= v <= MAX_INT64.
Proof. unfold _integer. intros H. inv_ok. by bool_prop. Qed.

Lemma optional_inv v f w : _optional_nonnegative_int v f = Ok w -> w = v /\ forall n, v = Some n -> 0 <= n <= MAX_INT64.
Proof.
  unfold _optional_nonnegative_int. destruct v as [n|]; cbn; intros H; inv_ok; [|done].
  apply nonneg_int_inv in H0 as [-> ?]. split; [done|]. by intros ? [= <-].
Qed.

Lemma optional_ok v f m : (forall n, v = Some n -> m <= n <= MAX_INT64) -> _optional_integer v f m = Ok v.
Proof.
  intros Hv. unfold _optional_integer. destruct v as [n|]; [|done]. cbn. by rewrite integer_min_ok by by apply Hv.
Qed.

Record view_ok (v : CatalogView) : Prop := {
  view_scope : Forall (fun i => c_scope i = v_scope v) (instruments v);
  view_keys : NoDup (c_key <$> instruments v);
  view_revision : 0 <= catalog_revision v <= MAX_INT64;
  view_turnover : 0 <= turnover_revision v <= MAX_INT64;
  view_observed : forall n, catalog_observed_at_ns v = Some n -> 0 <= n <= MAX_INT64;
  view_t_observed : forall n, turnover_observed_at_ns v = Some n -> 0 <= n <= MAX_INT64;
  view_bound : forall n, turnover_catalog_revision v = Some n -> 1 <= n <= MAX_INT64 /\ n <= catalog_revision v;
  view_provenance : turnover_revision v = 0 <-> turnover_observed_at_ns v = None;
  view_provenance_digest : turnover_revision v = 0 <-> turnover_digest_sha256 v = None;
  view_provenance_bound : turnover_revision v = 0 <-> turnover_catalog_revision v = None
}.

Lemma present_zero {A} z (o : option A) : negb (eqb (z =? 0) (negb (present o))) = false -> (z = 0 <-> o = None).
Proof. rewrite negb_false_iff, eqb_true_iff. destruct (Z.eqb_spec z 0), o; cbn; naive_solver. Qed.

Lemma view_validate_ok v : view_validate v = Ok v -> view_ok v.
Proof.
  unfold view_validate. intros H. inv_ok.
  repeat match goal with
  | H : _optional_nonnegative_int _ _ = Ok _ |- _ => apply optional_inv in H as [-> ?]
  | H : _nonnegative_int _ _ = Ok _ |- _ => apply nonneg_int_inv in H as [-> ?]
  | H : view_instruments _ _ _ _ = Ok _ |- _ => apply view_instruments_inv in H as (? & ? & _)
  | H : negb (eqb (_ =? 0) _) = false |- _ => apply present_zero in H
  end.
  split; try done. intros n Hn.
  match goal with H : view_binding v = Ok _ |- _ => unfold view_binding in H; rewrite Hn in H; inv_ok end.
  bool_prop. match goal with H : forall n, turnover_catalog_revision v = Some n -> _ |- _ => specialize (H n Hn) end.
  lia.
Qed.

Lemma validate_catalog_ok v : view_ok v -> 1 <= catalog_revision v ->
  exists table, _validate_catalog v = Ok table /\
    forall k i, table !! k = Some i <-> i ∈ instruments v /\ c_key i = k.
Proof.
  intros Hv Hr. destruct (catalog_table_ok (v_scope v) (instruments v) ∅) as (t & Ht & Hspec);
    [apply Hv|apply Hv|intros; apply lookup_empty|].
  exists t. split.
  - unfold _validate_catalog. pose proof (view_revision _ Hv). pose proof (view_turnover _ Hv).
    rewrite !integer_min_ok by lia. cbn [rbind].
    rewrite !optional_ok by (intros n Hn; (by apply (view_observed _ Hv)) || (by apply (view_t_observed _ Hv))
      || (by apply (view_bound _ Hv))). cbn [rbind].
    pose proof (view_provenance _ Hv) as P1. pose proof (view_provenance_digest _ Hv) as P2.
    pose proof (view_provenance_bound _ Hv) as P3. pose proof (view_bound _ Hv) as P4.
    destruct (Z.eqb_spec (turnover_revision v) 0) as [E|E].
    + rewrite (proj1 P1 E), (proj1 P2 E), (proj1 P3 E), E. exact Ht.
    + rewrite (proj2 (Z.ltb_lt 0 _)) by lia.
      destruct (turnover_observed_at_ns v); [|by destruct E; apply P1].
      destruct (turnover_digest_sha256 v); [|by destruct E; apply P2].
      destruct (turnover_catalog_revision v) as [b|]; [|by destruct E; apply P3].
      cbn. rewrite (proj2 (Z.ltb_ge _ _)); [exact Ht|]. by apply P4.
  - intros k i. rewrite Hspec, lookup_empty. naive_solver.
Qed.

(** ** The dictionaries *)

(** What the three dictionaries hold at a key. *)
Definition cell (w : Draft) (k : string) : option Z * (option (option Z) * option (option Z)) :=
  (w_reasons w !! k, (w_ranks w !! k, w_grace_starts w !! k)).
(** A loop marks a key with a flag, and perhaps with a rank and a start of grace. *)
Definition mark_cell (flag : Z) (setting : option (option Z * option Z))
    (c : option Z * (option (option Z) * option (option Z))) :=
  (Some (Z.lor (default 0 c.1) flag),
   match setting with Some (r, g) => (Some r, Some g) | None => c.2 end).
Definition mark (flag : Z) (key : string) (setting : option (option Z * option Z)) (w : Draft) : Draft :=
  match setting with
  | Some (r, g) => set_rank key r g (add_reason key flag w)
  | None => add_reason key flag w
  end.

Lemma mark_same flag k st w : cell (mark flag k st w) k = mark_cell flag st (cell w k).
Proof. destruct st as [[r g]|]; unfold cell, mark_cell; cbn; by rewrite !lookup_insert_eq. Qed.

Lemma mark_other flag k k' st w : k' <> k -> cell (mark flag k' st w) k = cell w k.
Proof. intros Hne. destruct st as [[r g]|]; unfold cell; cbn; by rewrite !lookup_insert_ne by done. Qed.

Section Fold.
Context {A : Type} (flag : Z) (key : A -> string) (act : A -> option (option (option Z * option Z)))
  (step : Draft -> A -> Draft).
Hypothesis step_eq : forall w a, step w a = match act a with Some st => mark flag (key a) st w | None => w end.

Lemma fold_other l k : forall w, k ∉ key <$> l -> cell (foldl step w l) k = cell w k.
Proof.
  induction l as [|a l IH]; intros w Hk; [done|]. rewrite fmap_cons in Hk. cbn [foldl].
  rewrite IH by (intros H; apply Hk; by right). rewrite step_eq. destruct (act a); [|done].
  apply mark_other. intros <-. apply Hk. left.
Qed.

(** A loop over distinct keys treats the one element with the key [k]. *)
Lemma fold_at l k todo : NoDup (key <$> l) -> (forall a, a ∈ l -> key a = k -> act a = todo) ->
  (is_Some todo -> k ∈ key <$> l) -> forall w, cell (foldl step w l) k
  = match todo with Some st => mark_cell flag st (cell w k) | None => cell w k end.
Proof.
  induction l as [|a l IH]; intros Hnd Hact Hin w.
  { destruct todo; [|done]. exfalso. by apply (not_elem_of_nil k), Hin. }
  rewrite fmap_cons in Hnd, Hin. apply NoDup_cons in Hnd as [Ha Hnd]. cbn [foldl].
  destruct (base.decide (key a = k)) as [<-|Hne].
  - rewrite fold_other by done. rewrite step_eq, (Hact a) by (done || left).
    destruct todo; [|done]. apply mark_same.
  - rewrite IH.
    + rewrite step_eq. destruct (act a); [|done]. by rewrite mark_other.
    + done.
    + intros b Hb. apply Hact. by right.
    + intros Ht. apply Hin in Ht. apply elem_of_cons in Ht as [->|Ht]; done.
Qed.
End Fold.

Definition no_draft : Draft := {| w_reasons := ∅; w_ranks := ∅; w_grace_starts := ∅ |}.

Lemma add_fixed_cell fixed w k : cell (add_fixed fixed w) k
  = if bool_decide (k ∈ f_instrument_keys fixed) then mark_cell FIXED None (cell w k) else cell w k.
Proof.
  unfold add_fixed.
  rewrite (fold_at FIXED id (fun _ => Some None) _ ltac:(done) _ k
    (if bool_decide (k ∈ f_instrument_keys fixed) then Some None else None)).
  - by case_bool_decide.
  - rewrite list_fmap_id. apply NoDup_elements.
  - intros a Ha [= ->]. rewrite bool_decide_eq_true_2; [done|]. by apply elem_of_elements.
  - case_bool_decide; [|by intros [? ?]]. intros _. rewrite list_fmap_id. by apply elem_of_elements.
Qed.

Lemma add_new_cell catalog policy now w item : NoDup (c_key <$> instruments catalog) ->
  item ∈ instruments catalog ->
  cell (add_new_listings catalog policy now w) (c_key item)
  = if _is_active_new_listing item policy now then mark_cell NEW_LISTING None (cell w (c_key item))
    else cell w (c_key item).
Proof.
  intros Hnd Hin. unfold add_new_listings.
  rewrite (fold_at NEW_LISTING c_key
    (fun i => if _is_active_new_listing i policy now then Some None else None)
    (fun w i => if _is_active_new_listing i policy now then add_reason (c_key i) NEW_LISTING w else w)
    ltac:(intros ? a; cbv beta; by destruct (_is_active_new_listing a policy now)) _ (c_key item)
    (if _is_active_new_listing item policy now then Some None else None)).
  - by destruct (_is_active_new_listing _ _ _).
  - done.
  - intros a Ha Hk. by rewrite (key_inj catalog Hnd a item Ha Hin Hk).
  - intros _. by apply list_elem_of_fmap_2.
Qed.

Lemma add_top_cell ranks w k : cell (add_top ranks w) k
  = match ranks !! k with Some n => mark_cell TOP_N (Some (Some n, None)) (cell w k) | None => cell w k end.
Proof.
  unfold add_top.
  rewrite (fold_at TOP_N fst (fun kr : string * Z => Some (Some (Some kr.2, None))) _ ltac:(done) _ k
    ((fun n => Some (Some n, None)) <$> (ranks !! k))).
  - by destruct (ranks !! k).
  - apply NoDup_fst_map_to_list.
  - intros [k' n] Hin Hk. cbn in Hk. subst k'. apply elem_of_map_to_list in Hin. by rewrite Hin.
  - intros [? H]. destruct (ranks !! k) as [n|] eqn:E; [|done]. apply elem_of_map_to_list in E.
    by apply list_elem_of_fmap_2' with (k, n).
Qed.

Lemma add_grace_cell table ranks policy now previous w k : cell (add_grace table ranks policy now previous w) k
  = match previous !! k with
    | Some old =>
        match grace_start table ranks policy now k old with
        | Some t => mark_cell TOP_N_GRACE (Some (top_n_rank old, Some t)) (cell w k)
        | None => cell w k
        end
    | None => cell w k
    end.
Proof.
  unfold add_grace.
  rewrite (fold_at TOP_N_GRACE fst (fun ke : string * SelectionEntry =>
      (fun t => Some (top_n_rank ke.2, Some t)) <$> grace_start table ranks policy now ke.1 ke.2)
    (fun w ke => match grace_start table ranks policy now ke.1 ke.2 with
                 | Some t => set_rank ke.1 (top_n_rank ke.2) (Some t) (add_reason ke.1 TOP_N_GRACE w)
                 | None => w
                 end)
    ltac:(intros ? a; cbv beta; by destruct (grace_start table ranks policy now a.1 a.2)) _ k
    (old ← previous !! k; (fun t => Some (top_n_rank old, Some t)) <$> grace_start table ranks policy now k old)).
  - destruct (previous !! k) as [old|]; [|done]. cbn. by destruct (grace_start _ _ _ _ _ _).
  - apply NoDup_fst_map_to_list.
  - intros [k' old] Hin Hk. cbn in Hk. subst k'. apply elem_of_map_to_list in Hin. by rewrite Hin.
  - intros [? H]. destruct (previous !! k) as [old|] eqn:E; [|done]. apply elem_of_map_to_list in E.
    by apply list_elem_of_fmap_2' with (k, old).
Qed.

(** ** What is selected *)
Section Select.
Context (catalog : CatalogView) (fixed : ResolvedFixedSelection) (policy : SelectionPolicy)
  (previous : option SelectionState) (now : Z).

Definition previous_entries : gmap string SelectionEntry :=
  match previous with Some p => entries p | None => ∅ end.

(** Whether an instrument that has left the top is kept, and since when it is out. *)
Definition grace_of (item : CatalogInstrument) : option Z :=
  match previous_entries !! c_key item, rank_of catalog policy now item with
  | Some old, None =>
      if is_present item && tradable (inst item) && bool_decide (quote_asset (inst item) ∈ quote_assets policy)
         && (listing_generation item =? listing_generation (instrument old))
      then
        match (if has TOP_N (reasons old) then Some now
               else if has TOP_N_GRACE (reasons old) then top_exit_started_at_ns old else None) with
        | Some t => if (t <=? now) && (now <? t + exit_grace_ns policy) then Some t else None
        | None => None
        end
      else None
  | _, _ => None
  end.

Definition flagged (b : bool) (flag : Z) : Z := if b then flag else 0.

Definition bits (item : CatalogInstrument) : Z :=
  flagged (bool_decide (c_key item ∈ f_instrument_keys fixed)) FIXED
  + flagged (_is_active_new_listing item policy now) NEW_LISTING
  + flagged (present (rank_of catalog policy now item)) TOP_N + flagged (present (grace_of item)) TOP_N_GRACE.

Definition expected (item : CatalogInstrument) : option SelectionEntry :=
  if bits item =? 0 then None
  else Some {|
    instrument := item; reasons := bits item;
    top_n_rank := match rank_of catalog policy now item, grace_of item with
      | Some n, _ => Some n
      | None, Some _ => old ← previous_entries !! c_key item; top_n_rank old
      | None, None => None
      end;
    top_exit_started_at_ns := grace_of item |}.

Lemma expected_instrument item e : expected item = Some e -> instrument e = item.
Proof. unfold expected. destruct (_ =? 0); [done|]. by intros [= <-]. Qed.

Lemma rank_excludes_grace item n : rank_of catalog policy now item = Some n -> grace_of item = None.
Proof. unfold grace_of. intros ->. by destruct (previous_entries !! _). Qed.

(** *** What the arguments have been validated for *)
Definition policy_ok (p : SelectionPolicy) : Prop :=
  0 <= top_n p <= MAX_INT64 /\ 0 <= exit_grace_ns p <= MAX_INT64 /\ config_sha256_ok (policy_id p) = true.
Definition entry_ok (e : SelectionEntry) : Prop :=
  entry_init (instrument e) (reasons e) (top_n_rank e) (top_exit_started_at_ns e) = Ok e.
Definition state_ok (p : SelectionState) : Prop :=
  state_init (s_scope p) (s_catalog_revision p) (s_turnover_revision p) (s_policy_id p) (revision p) (entries p)
    = Ok p /\ map_Forall (fun _ e => entry_ok e) (entries p).
Definition instruments_ok : Prop := Forall (fun i => nonempty (c_key i) = true) (instruments catalog).

Hypothesis Hview : view_ok catalog.
Hypothesis Hinst : instruments_ok.
Hypothesis Hpolicy : policy_ok policy.
Hypothesis Hprevious : match previous with Some p => state_ok p | None => True end.
Hypothesis Hnow : 0 <= now <= MAX_INT64.
Context (table : gmap string CatalogInstrument).
Hypothesis Htable : forall k i, table !! k = Some i <-> i ∈ instruments catalog /\ c_key i = k.

Definition filled : Draft :=
  add_grace table (_rank_top_n catalog policy now) policy now previous_entries
    (add_top (_rank_top_n catalog policy now)
       (add_new_listings catalog policy now (add_fixed fixed no_draft))).

Lemma ranks_eq item : item ∈ instruments catalog ->
  _rank_top_n catalog policy now !! c_key item = rank_of catalog policy now item.
Proof. intros Hi. apply rank_top_n_lookup; [apply Hview|done|apply Hpolicy]. Qed.

Lemma grace_start_eq item old : item ∈ instruments catalog -> previous_entries !! c_key item = Some old ->
  grace_start table (_rank_top_n catalog policy now) policy now (c_key item) old = grace_of item.
Proof.
  intros Hi Ho. unfold grace_start, grace_of. rewrite ranks_eq, Ho by done.
  destruct (rank_of catalog policy now item); [done|]. cbn [present].
  rewrite (proj2 (Htable (c_key item) item)) by done.
  rewrite <- !negb_andb. destruct (_ && _ && _ && _); [|done]. cbn [negb].
  destruct (if has TOP_N _ then _ else _) as [t|]; [|done].
  replace (now - t <? exit_grace_ns policy) with (now <? t + exit_grace_ns policy); [done|].
  destruct (Z.ltb_spec now (t + exit_grace_ns policy)), (Z.ltb_spec (now - t) (exit_grace_ns policy)); lia.
Qed.

(** What the loops leave at the key of an instrument. *)
Lemma filled_cell item : item ∈ instruments catalog ->
  match expected item with
  | None => w_reasons filled !! c_key item = None
  | Some e => w_reasons filled !! c_key item = Some (reasons e)
      /\ mjoin (w_ranks filled !! c_key item) = top_n_rank e
      /\ mjoin (w_grace_starts filled !! c_key item) = top_exit_started_at_ns e
  end.
Proof.
  intros Hi. pose proof (rank_excludes_grace item) as Hex.
  assert (Hcell : cell filled (c_key item)
    = let c := cell no_draft (c_key item) in
      let c := if bool_decide (c_key item ∈ f_instrument_keys fixed) then mark_cell FIXED None c else c in
      let c := if _is_active_new_listing item policy now then mark_cell NEW_LISTING None c else c in
      let c := match rank_of catalog policy now item with
               | Some n => mark_cell TOP_N (Some (Some n, None)) c | None => c end in
      match previous_entries !! c_key item, grace_of item with
      | Some old, Some t => mark_cell TOP_N_GRACE (Some (top_n_rank old, Some t)) c
      | _, _ => c
      end).
  { unfold filled. rewrite add_grace_cell, add_top_cell, add_new_cell, add_fixed_cell by (done || apply Hview).
    rewrite ranks_eq by done. cbv zeta.
    destruct (previous_entries !! c_key item) eqn:Eo; [|done]. by rewrite grace_start_eq. }
  assert (Hold : previous_entries !! c_key item = None -> grace_of item = None).
  { intros E. unfold grace_of. by rewrite E. }
  change (w_reasons filled !! c_key item) with (cell filled (c_key item)).1.
  change (w_ranks filled !! c_key item) with (cell filled (c_key item)).2.1.
  change (w_grace_starts filled !! c_key item) with (cell filled (c_key item)).2.2.
  rewrite Hcell. unfold expected, bits. clear Hcell. cbv zeta. unfold cell, no_draft. cbn [w_reasons w_ranks w_grace_starts].
  rewrite !lookup_empty.
  destruct (rank_of catalog policy now item) as [n|]; [rewrite (Hex n) by done|];
    destruct (previous_entries !! c_key item) as [old|]; try rewrite Hold by done;
    destruct (bool_decide _), (_is_active_new_listing item policy now); try destruct (grace_of item); by cbn.
Qed.

(** No key outside the catalog is marked. *)
Hypothesis Hfixed : forall k, k ∈ f_instrument_keys fixed -> is_Some (table !! k).

Lemma filled_outside k : table !! k = None -> w_reasons filled !! k = None.
Proof.
  intros Hk. change (w_reasons filled !! k) with (cell filled k).1.
  assert (Hkey : k ∉ c_key <$> instruments catalog).
  { intros (i & -> & Hi)%list_elem_of_fmap. by rewrite (proj2 (Htable (c_key i) i)) in Hk. }
  unfold filled. rewrite add_grace_cell, add_top_cell.
  destruct (_rank_top_n catalog policy now !! k) as [n|] eqn:E.
  { by apply rank_top_n_keys in E. }
  assert (Hg : forall old, grace_start table (_rank_top_n catalog policy now) policy now k old = None).
  { intros old. unfold grace_start. by rewrite E, Hk. }
  unfold add_new_listings.
  rewrite (fold_other NEW_LISTING c_key
    (fun i => if _is_active_new_listing i policy now then Some None else None)
    (fun w i => if _is_active_new_listing i policy now then add_reason (c_key i) NEW_LISTING w else w)
    ltac:(intros ? a; cbv beta; by destruct (_is_active_new_listing a policy now)) _ k) by done.
  rewrite add_fixed_cell, bool_decide_eq_false_2.
  - destruct (previous_entries !! k); [|done]. by rewrite Hg.
  - intros Hin. apply Hfixed in Hin as [? Hin]. congruence.
Qed.

Lemma optional_min_inv v f m w : _optional_integer v f m = Ok w ->
  w = v /\ forall n, v = Some n -> m <= n <= MAX_INT64.
Proof.
  unfold _optional_integer. destruct v as [n|]; cbn; intros H; inv_ok; [|done].
  match goal with H : _integer _ _ _ = Ok _ |- _ => apply integer_min_inv in H as [-> ?] end.
  split; [done|]. by intros ? [= <-].
Qed.

(** What an entry that was validated promises. *)
Lemma entry_ok_inv e : entry_ok e ->
  (forall n, top_n_rank e = Some n -> 1 <= n <= MAX_INT64) /\
  (forall n, top_exit_started_at_ns e = Some n -> 0 <= n <= MAX_INT64) /\
  has TOP_N_GRACE (reasons e) = present (top_exit_started_at_ns e).
Proof.
  unfold entry_ok, entry_init. intros H. inv_ok.
  repeat match goal with H : _optional_integer _ _ _ = Ok _ |- _ => apply optional_min_inv in H as [-> ?] end.
  split; [done|]. split; [done|]. bool_prop. by apply eqb_prop.
Qed.

Lemma previous_ok : map_Forall (fun _ e => entry_ok e) previous_entries.
Proof. revert Hprevious. unfold previous_entries. destruct previous; [by intros [_ H]|]. intros _. apply map_Forall_empty. Qed.

Lemma expected_init item e : item ∈ instruments catalog -> expected item = Some e ->
  entry_init item (reasons e) (top_n_rank e) (top_exit_started_at_ns e) = Ok e.
Proof.
  intros Hi He. pose proof (rank_excludes_grace item) as Hex. pose proof (rank_of_bounds catalog policy now item) as Hr.
  assert (Hgrace : forall t, grace_of item = Some t -> 0 <= t <= MAX_INT64 /\ exists old,
    previous_entries !! c_key item = Some old /\ forall n, top_n_rank old = Some n -> 1 <= n <= MAX_INT64).
  { intros t Ht. unfold grace_of in Ht.
    destruct (previous_entries !! c_key item) as [old|] eqn:Eo; [|done].
    assert (Hold : entry_ok old).
    { by eapply (map_Forall_lookup_1 _ _ _ _ previous_ok). }
    apply entry_ok_inv in Hold as (H1 & H2 & _).
    destruct (rank_of catalog policy now item); [done|]. destruct (_ && _ && _ && _); [|done].
    destruct (has TOP_N (reasons old)).
    - destruct (_ && _); [|done]. injection Ht as <-. split; [done|]. by exists old.
    - destruct (has TOP_N_GRACE (reasons old)); [|done].
      destruct (top_exit_started_at_ns old) as [s0|]; [|done]. destruct (_ && _); [|done].
      injection Ht as <-. split; [by apply H2|]. by exists old. }
  unfold expected in He. destruct (bits item =? 0) eqn:Eb; [done|]. injection He as <-. cbn.
  unfold entry_init. rewrite Eb. pose proof (proj1 Hpolicy).
  rewrite (optional_ok _ "top_exit_started_at_ns" 0) by (intros t Ht; by apply Hgrace).
  rewrite optional_ok.
  2: { intros n Hn. destruct (rank_of catalog policy now item) as [r|].
       - injection Hn as <-. specialize (Hr r eq_refl). lia.
       - destruct (grace_of item) as [t|]; [|done]. destruct (Hgrace t eq_refl) as (_ & old & Ho & Hb).
         rewrite Ho in Hn. by apply Hb. }
  cbn [rbind]. unfold bits in *. revert Eb.
  destruct (rank_of catalog policy now item) as [r|]; [rewrite (Hex r) by done|destruct (grace_of item) as [t|]];
    destruct (bool_decide _), (_is_active_new_listing item policy now); done.
Qed.

(** The entries, key by key. *)
Definition expected_at (k : string) : option SelectionEntry := item ← table !! k; expected item.

Lemma filled_at k :
  match expected_at k with
  | None => w_reasons filled !! k = None
  | Some e => exists item, table !! k = Some item /\ expected item = Some e /\
      w_reasons filled !! k = Some (reasons e) /\
      mjoin (w_ranks filled !! k) = top_n_rank e /\ mjoin (w_grace_starts filled !! k) = top_exit_started_at_ns e
  end.
Proof.
  unfold expected_at. destruct (table !! k) as [item|] eqn:Et; cbn; [|by apply filled_outside].
  pose proof (proj1 (Htable k item) Et) as [Hi <-]. pose proof (filled_cell item Hi) as Hc.
  destruct (expected item) as [e|] eqn:Ee; [|done]. by exists item.
Qed.

Lemma build_entries_ok : exists m, build_entries table filled = Ok m /\ forall k, m !! k = expected_at k.
Proof.
  set (l := py_sorted (on_key fst string_leb) (map_to_list (w_reasons filled))).
  assert (Hl : forall kr, kr ∈ l <-> w_reasons filled !! kr.1 = Some kr.2).
  { intros [k r]. unfold l. by rewrite elem_of_py_sorted, elem_of_map_to_list. }
  unfold build_entries. fold l.
  destruct (check_all_total (fun kr : string * Z =>
    match table !! kr.1 with
    | None => Err (KeyError kr.1)
    | Some item =>
        let! e := entry_init item kr.2 (mjoin (w_ranks filled !! kr.1)) (mjoin (w_grace_starts filled !! kr.1)) in
        Ok (kr.1, e)
    end) (fun kr ke => ke.1 = kr.1 /\ expected_at kr.1 = Some ke.2) l) as (ys & Hys & HF).
  { intros [k r] Hin. apply Hl in Hin. cbn in Hin |- *. pose proof (filled_at k) as Hk.
    destruct (expected_at k) as [e|] eqn:Ee; [|congruence].
    destruct Hk as (item & Ht & He & Hr & Hn & Hg). rewrite Ht, Hn, Hg. rewrite Hr in Hin. injection Hin as <-.
    rewrite (expected_init item e) by (done || exact (proj1 (proj1 (Htable k item) Ht))). cbn. by exists (k, e). }
  rewrite Hys. cbn. exists (list_to_map ys). split; [done|]. intros k.
  assert (Hkeys : ys.*1 = l.*1).
  { clear -HF. induction HF as [|x y l' ys' [H _] _ IH]; [done|]. rewrite !fmap_cons. by rewrite H, IH. }
  assert (Hnd : NoDup ys.*1).
  { rewrite Hkeys. unfold l. rewrite py_sorted_perm. apply NoDup_fst_map_to_list. }
  destruct (expected_at k) as [e|] eqn:Ee.
  - apply elem_of_list_to_map_1; [done|]. pose proof (filled_at k) as Hk. rewrite Ee in Hk.
    destruct Hk as (item & _ & _ & Hr & _).
    assert (Hin : (k, reasons e) ∈ l) by by apply Hl.
    apply list_elem_of_lookup in Hin as [n Hn]. destruct (Forall2_lookup_l _ _ _ _ _ HF Hn) as ([k' e'] & Hy & H1 & H2).
    cbn in H1, H2. subst k'. rewrite Ee in H2. injection H2 as <-. by eapply list_elem_of_lookup_2.
  - apply not_elem_of_list_to_map_1. rewrite Hkeys. intros ([k' r] & Hk & Hin)%list_elem_of_fmap. cbn in Hk. subst k'.
    apply Hl in Hin. cbn in Hin. pose proof (filled_at k) as Hk. rewrite Ee in Hk. congruence.
Qed.

(** What a table of entries must be to be taken over. *)
Definition well_keyed (scope : CatalogScope) (m : gmap string SelectionEntry) : Prop :=
  forall k e, m !! k = Some e -> nonempty k = true /\ k = entry_key e /\ c_scope (instrument e) = scope.

Lemma immutable_iff scope m : _immutable_entries m scope = Ok m <-> well_keyed scope m.
Proof.
  unfold _immutable_entries. split.
  - intros H k e Hk. inv_ok.
    pose proof (check_all_unit_ok _ _ _ H0 (k, e)) as Hc. cbn in Hc. specialize (Hc ltac:(
      by rewrite elem_of_py_sorted, elem_of_map_to_list)). inv_ok. bool_prop.
    match goal with E : String.eqb _ _ = true |- _ => by apply String.eqb_eq in E end.
  - intros H. rewrite (check_all_ok _ (fun _ => tt)); [done|]. intros [k e] Hin. cbn [fst snd].
    rewrite elem_of_py_sorted, elem_of_map_to_list in Hin. destruct (H k e Hin) as (H1 & H2 & H3).
    rewrite H1, <- H2, String.eqb_refl, bool_decide_eq_true_2 by done. done.
Qed.

Lemma state_init_inv sc cr tr pid rev m p : state_init sc cr tr pid rev m = Ok p ->
  p = {| s_scope := sc; s_catalog_revision := cr; s_turnover_revision := tr; s_policy_id := pid;
         revision := rev; entries := m |} /\ well_keyed sc m /\ 0 <= rev <= MAX_INT64.
Proof.
  unfold state_init. intros H. inv_ok.
  repeat match goal with H : _integer _ _ _ = Ok _ |- _ => apply integer_min_inv in H as [-> ?] end.
  match goal with H : _immutable_entries m sc = Ok ?x |- _ =>
    assert (x = m) as -> by (unfold _immutable_entries in H; inv_ok; done); apply immutable_iff in H end.
  done.
Qed.

Lemma expected_keyed m : (forall k, m !! k = expected_at k) -> well_keyed (v_scope catalog) m.
Proof.
  intros Hm k e Hk. rewrite Hm in Hk. unfold expected_at in Hk.
  destruct (table !! k) as [item|] eqn:Et; [|done]. cbn in Hk. apply Htable in Et as [Hi <-].
  assert (instrument e = item) as E.
  { unfold expected in Hk. destruct (_ =? 0); [done|]. by injection Hk as <-. }
  unfold entry_key. rewrite E. split; [|split; [done|]].
  - by apply (proj1 (Forall_forall _ _) Hinst).
  - by apply (proj1 (Forall_forall _ _) (view_scope _ Hview)).
Qed.
End Select.

Section Deltas.
Context (scope : CatalogScope) (previous current : gmap string SelectionEntry).
Hypothesis Hp : well_keyed scope previous.
Hypothesis Hc : well_keyed scope current.

Definition changed_keys : list string :=
  filter (fun k => opt_eqb entry_eqb (previous !! k) (current !! k) = false)
    (py_sorted string_leb (elements (dom previous ∪ dom current : gset string))).
Definition delta_at (k : string) : SelectionDelta :=
  {| delta_key := k; delta_previous := previous !! k; delta_current := current !! k |}.

Lemma changed_iff k : k ∈ changed_keys <-> opt_eqb entry_eqb (previous !! k) (current !! k) = false.
Proof.
  unfold changed_keys. rewrite list_elem_of_filter, elem_of_py_sorted, elem_of_elements, elem_of_union, !elem_of_dom.
  split; [by intros [? _]|]. intros H. split; [done|].
  destruct (previous !! k); [by left|]. destruct (current !! k); [by right|done].
Qed.

Lemma changed_sorted : py_sorted string_leb changed_keys = changed_keys /\ NoDup changed_keys.
Proof.
  split.
  - apply sorted_id. apply StronglySorted_filter', py_sorted_sorted, _.
  - apply NoDup_filter. rewrite py_sorted_perm. apply NoDup_elements.
Qed.

Lemma build_deltas_ok : build_deltas previous current = Ok (delta_at <$> changed_keys).
Proof.
  unfold build_deltas. apply check_all_ok. intros k Hk. pose proof (proj1 (changed_iff k) Hk) as Hne.
  unfold delta_init, delta_at. pose proof (Hp k) as H1. pose proof (Hc k) as H2.
  assert (Hkey : nonempty k = true /\ (present (previous !! k) || present (current !! k)) = true).
  { destruct (previous !! k) as [e|]; [destruct (H1 e eq_refl) as (? & _ & _); done|].
    destruct (current !! k) as [e|]; [destruct (H2 e eq_refl) as (? & _ & _); done|done]. }
  destruct Hkey as [-> Hpres].
  destruct (previous !! k) as [e|], (current !! k) as [e'|]; cbn; try done;
    try destruct (H1 _ eq_refl) as (_ & <- & _); try destruct (H2 _ eq_refl) as (_ & <- & _);
    by rewrite ?String.eqb_refl.
Qed.

Lemma deltas_checked : exists us, check_all (fun d =>
    raise ValueError "delta entries must match result scope"
      when negb (opt_ok (fun e => bool_decide (c_scope (instrument e) = scope)) (delta_previous d)
                 && opt_ok (fun e => bool_decide (c_scope (instrument e) = scope)) (delta_current d));;
    raise ValueError "delta current value must match result entries"
      when negb (opt_eqb entry_eqb (delta_current d) (current !! delta_key d));;
    Ok tt) (delta_at <$> changed_keys) = Ok us.
Proof.
  eexists. apply (check_all_ok _ (fun _ => tt)). intros d (k & -> & Hk)%list_elem_of_fmap. cbn.
  rewrite opt_entry_eqb_refl. pose proof (Hp k) as H1. pose proof (Hc k) as H2.
  destruct (previous !! k) as [e|], (current !! k) as [e'|]; cbn;
    try destruct (H1 _ eq_refl) as (_ & _ & ->); try destruct (H2 _ eq_refl) as (_ & _ & ->);
    by rewrite ?bool_decide_eq_true_2.
Qed.
End Deltas.

(** ** Every outcome *)
Section Exact.
Context (catalog : CatalogView) (fixed : ResolvedFixedSelection) (policy : SelectionPolicy)
  (previous : option SelectionState) (now : Z).

Definition inputs_match : bool :=
  bool_decide (p_scope policy = v_scope catalog) && bool_decide (f_scope fixed = v_scope catalog)
  && (f_catalog_revision fixed =? catalog_revision catalog)
  && match previous with
     | None => true
     | Some p => bool_decide (s_scope p = v_scope catalog) && String.eqb (s_policy_id p) (policy_id policy)
         && (s_catalog_revision p <=? catalog_revision catalog)
         && (s_turnover_revision p <=? turnover_revision catalog)
     end.
Definition available (k : string) : bool :=
  existsb (fun i => String.eqb (c_key i) k && (is_present i && tradable (inst i))) (instruments catalog).
Definition acceptable : bool :=
  (0 <=? now) && (now <=? MAX_INT64) && (1 <=? catalog_revision catalog) && inputs_match
  && forallb available (py_sorted string_leb (elements (f_instrument_keys fixed)))
  && negb (clock_regressed now (previous_entries previous)).

Definition value_error {A} (r : result A) : Prop := exists msg, r = Err (ValueError msg).

(** A check succeeds exactly under its condition and raises [ValueError] otherwise. *)
Definition decided (b : bool) (r : result unit) : Prop := if b then r = Ok tt else value_error r.

Lemma decided_guard g msg b k : decided b k ->
  decided (g && b) (raise_if (negb g) (ValueError msg) k).
Proof. intros H. destruct g; [exact H|by exists msg]. Qed.
Lemma decided_le x y msg b k : decided b k ->
  decided ((x <=? y) && b) (raise_if (y <? x) (ValueError msg) k).
Proof. rewrite Z.ltb_antisym. apply decided_guard. Qed.

Lemma inputs_dec : decided inputs_match (_validate_inputs catalog fixed policy previous).
Proof.
  unfold inputs_match, _validate_inputs. rewrite <- !andb_assoc. do 3 apply decided_guard.
  destruct previous as [p|]; [|done]. rewrite <- !andb_assoc. do 2 apply decided_guard.
  apply decided_le. rewrite <- (andb_true_r (_ <=? _)). by apply decided_le.
Qed.

Lemma fixed_dec table keys : (forall k i, table !! k = Some i <-> i ∈ instruments catalog /\ c_key i = k) ->
  NoDup (c_key <$> instruments catalog) ->
  decided (forallb available keys) (check_fixed table keys) /\
  (forallb available keys = true -> forall k, k ∈ keys -> is_Some (table !! k)).
Proof.
  intros Ht Hnd. unfold check_fixed. induction keys as [|k keys IH].
  { split; [done|]. intros _ k Hk. by apply elem_of_nil in Hk. }
  cbn [forallb check_all].
  assert (Hav : available k = match table !! k with Some i => is_present i && tradable (inst i) | None => false end).
  { unfold available. destruct (table !! k) as [i|] eqn:E.
    - apply Ht in E as [Hi Hk]. destruct (is_present i && tradable (inst i)) eqn:Ep.
      + apply existsb_exists. exists i. split; [by apply list_elem_of_In|]. by rewrite Hk, String.eqb_refl, Ep.
      + apply not_true_iff_false. intros (j & Hj%list_elem_of_In & Hjk)%existsb_exists. bool_prop.
        apply String.eqb_eq in H. assert (j = i) as -> by (apply (key_inj catalog Hnd); congruence).
        by rewrite H0, H1 in Ep.
    - apply not_true_iff_false. intros (j & Hj%list_elem_of_In & Hjk)%existsb_exists. bool_prop.
      apply String.eqb_eq in H. assert (table !! k = Some j) by by apply Ht. congruence. }
  rewrite Hav. destruct (table !! k) as [i|] eqn:E; [|by split; [eexists|]].
  rewrite <- negb_andb. destruct (is_present i && tradable (inst i)); [|by split; [eexists|]].
  cbn [andb negb raise_if rbind]. destruct IH as [IH1 IH2]. split.
  - unfold decided in *. destruct (forallb available keys).
    + by destruct (check_all _ keys) as [us|e].
    + destruct IH1 as [msg IH1]. exists msg. by destruct (check_all _ keys).
  - intros Hall k' [->|Hk]%elem_of_cons; [by exists i|by apply IH2].
Qed.
End Exact.
