(* ===== verification/Selection.v ===== *)
(** [select] of [selection/selector.py]: every outcome of one call, and what a chain of
    calls does with an instrument that drops out of the top. *)
From stdpp Require Import pretty.
From S2P Require Import Prelude PyDecimal Domain StorageModels SelectionModels Selector SelectorFacts.

(** ** One call *)
Section Select.
Context (catalog : CatalogView) (fixed : ResolvedFixedSelection) (policy : SelectionPolicy)
  (previous : option SelectionState) (now : Z).

(** The result the specification of [SelectorFacts] asks for: each instrument has the
    expected entry, nothing else is selected, the next state holds the entries, and the
    deltas are exactly the changes, sorted. *)
Definition specified (r : SelectionResult) : Prop :=
  (forall item, item ∈ instruments catalog ->
     r_entries r !! c_key item = expected catalog fixed policy previous now item) /\
  (forall k, is_Some (r_entries r !! k) -> k ∈ c_key <$> instruments catalog) /\
  next_state r = {|
    s_scope := v_scope catalog; s_catalog_revision := catalog_revision catalog;
    s_turnover_revision := turnover_revision catalog; s_policy_id := policy_id policy;
    revision := match previous with Some p => revision p | None => 0 end; entries := r_entries r |} /\
  (exists keys, deltas r = delta_at (previous_entries previous) (r_entries r) <$> keys /\
     py_sorted string_leb keys = keys /\ NoDup keys /\
     forall k, k ∈ keys <->
       opt_eqb entry_eqb (previous_entries previous !! k) (r_entries r !! k) = false).

(** A result that was assembled from a table of entries is complete and accepted. *)
Lemma result_assembled m : well_keyed (v_scope catalog) m ->
  well_keyed (v_scope catalog) (previous_entries previous) ->
  1 <= catalog_revision catalog <= MAX_INT64 -> 0 <= turnover_revision catalog <= MAX_INT64 ->
  config_sha256_ok (policy_id policy) = true ->
  0 <= match previous with Some p => revision p | None => 0 end <= MAX_INT64 ->
  let state := {|
    s_scope := v_scope catalog; s_catalog_revision := catalog_revision catalog;
    s_turnover_revision := turnover_revision catalog; s_policy_id := policy_id policy;
    revision := match previous with Some p => revision p | None => 0 end; entries := m |} in
  state_init (v_scope catalog) (catalog_revision catalog) (turnover_revision catalog) (policy_id policy)
    (match previous with Some p => revision p | None => 0 end) m = Ok state /\
  result_init (v_scope catalog) (catalog_revision catalog) (turnover_revision catalog) (policy_id policy) m state
    (delta_at (previous_entries previous) m <$> changed_keys (previous_entries previous) m)
  = Ok {| r_scope := v_scope catalog; r_catalog_revision := catalog_revision catalog;
          r_turnover_revision := turnover_revision catalog; r_policy_id := policy_id policy; r_entries := m;
          next_state := state;
          deltas := delta_at (previous_entries previous) m <$> changed_keys (previous_entries previous) m |}.
Proof.
  intros Hm Hp Hc Ht Hid Hrev state. split.
  - unfold state_init. rewrite !integer_min_ok, Hid by lia. cbn [rbind negb raise_if].
    by rewrite (proj2 (immutable_iff _ _) Hm).
  - unfold result_init. rewrite !integer_min_ok, Hid by lia. cbn [rbind negb raise_if].
    rewrite (proj2 (immutable_iff _ _) Hm). cbn [rbind]. unfold state. cbn [s_scope s_catalog_revision
      s_turnover_revision s_policy_id entries].
    rewrite bool_decide_eq_true_2, !Z.eqb_refl, String.eqb_refl, entries_eqb_refl by done.
    cbn [andb negb raise_if].
    destruct (changed_sorted (previous_entries previous) m) as [Hs Hnd].
    replace (delta_key <$> (delta_at (previous_entries previous) m <$> changed_keys (previous_entries previous) m))
      with (changed_keys (previous_entries previous) m).
    2: { rewrite <- list_fmap_compose. symmetry. apply list_fmap_id. }
    unfold unique. rewrite Hs, !bool_decide_eq_true_2 by done. cbn [negb orb raise_if].
    destruct (deltas_checked (v_scope catalog) _ _ Hp Hm) as [us Hus]. by rewrite Hus.
Qed.

Lemma previous_facts : match previous with Some p => state_ok p | None => True end ->
  inputs_match catalog fixed policy previous = true ->
  well_keyed (v_scope catalog) (previous_entries previous) /\
  0 <= match previous with Some p => revision p | None => 0 end <= MAX_INT64.
Proof.
  unfold inputs_match, previous_entries. destruct previous as [p|]; intros Hp Hm.
  - bool_prop. destruct Hp as [Hp _]. apply state_init_inv in Hp as (_ & Hwk & Hrev).
    by match goal with H : s_scope p = _ |- _ => rewrite <- H end.
  - split; [|done]. intros k e Hk. by rewrite lookup_empty in Hk.
Qed.

Lemma select_spec :
  view_ok catalog -> instruments_ok catalog -> policy_ok policy ->
  match previous with Some p => state_ok p | None => True end ->
  if acceptable catalog fixed policy previous now then
    exists r, select catalog fixed policy previous now = Ok r /\ state_ok (next_state r) /\ specified r
  else value_error (select catalog fixed policy previous now).
Proof.
  intros Hview Hinst Hpolicy Hprev. unfold acceptable, select.
  destruct (Z.leb_spec 0 now); [|unfold _integer; rewrite (proj2 (Z.ltb_lt _ _)) by lia; by eexists].
  destruct (Z.leb_spec now MAX_INT64);
    [|unfold _integer; rewrite (proj2 (Z.ltb_ge _ _)), (proj2 (Z.ltb_lt _ _)) by lia; by eexists].
  rewrite integer_min_ok by lia. cbn [andb rbind].
  destruct (Z.leb_spec 1 (catalog_revision catalog)).
  2: { unfold _validate_catalog, _integer. rewrite (proj2 (Z.ltb_lt _ 1)) by lia. by eexists. }
  destruct (validate_catalog_ok catalog Hview) as (table & -> & Htable); [done|]. cbn [andb rbind].
  pose proof (inputs_dec catalog fixed policy previous) as Hin. unfold decided in Hin.
  destruct (inputs_match catalog fixed policy previous) eqn:Einp; [|destruct Hin as [msg ->]; by exists msg].
  rewrite Hin. cbn [andb rbind].
  destruct (fixed_dec catalog table (py_sorted string_leb (elements (f_instrument_keys fixed))) Htable
    (view_keys _ Hview)) as [Hfix Hkeys]. unfold decided in Hfix.
  destruct (forallb _ _); [|destruct Hfix as [msg ->]; by exists msg]. rewrite Hfix. cbn [andb rbind].
  fold (previous_entries previous).
  destruct (clock_regressed now (previous_entries previous)); cbn [negb raise_if]; [by eexists|].
  fold (filled catalog fixed policy previous now table).
  assert (Hfixed : forall k, k ∈ f_instrument_keys fixed -> is_Some (table !! k)).
  { intros k Hk. apply Hkeys; [done|]. by rewrite elem_of_py_sorted, elem_of_elements. }
  destruct (build_entries_ok catalog fixed policy previous now Hview Hpolicy Hprev ltac:(done) table Htable Hfixed)
    as (m & Hm & Hat).
  assert (Hwk : well_keyed (v_scope catalog) m) by by eapply expected_keyed.
  change {| w_reasons := ∅; w_ranks := ∅; w_grace_starts := ∅ |} with no_draft.
  fold (filled catalog fixed policy previous now table). rewrite Hm. cbn [rbind].
  rewrite (proj2 (immutable_iff _ _) Hwk). cbn [rbind].
  destruct (previous_facts Hprev Einp) as [Hwp Hrev].
  destruct (result_assembled m Hwk Hwp) as [Hstate Hresult]; [|apply Hview|apply Hpolicy|done|].
  { pose proof (view_revision _ Hview). lia. }
  rewrite Hstate. cbn [rbind]. rewrite (build_deltas_ok (v_scope catalog)) by done. cbn [rbind].
  rewrite Hresult. eexists. unfold specified. split; [done|]. cbn [r_entries next_state deltas]. split_and!; [| | |done|].
  - split; [exact Hstate|]. intros k e He. cbn in He. rewrite Hat in He. unfold expected_at in He.
    destruct (table !! k) as [item|] eqn:Et; [|done]. cbn in He. apply Htable in Et as [Hi <-].
    pose proof (expected_init catalog fixed policy previous now Hpolicy Hprev ltac:(done) item e Hi He) as Hinit.
    unfold entry_ok. by rewrite (expected_instrument _ _ _ _ _ _ _ He).
  - intros item Hi. rewrite Hat. unfold expected_at. by rewrite (proj2 (Htable (c_key item) item)).
  - intros k [e He]. rewrite Hat in He. unfold expected_at in He.
    destruct (table !! k) as [item|] eqn:Et; [|done]. apply Htable in Et as [Hi <-].
    by apply list_elem_of_fmap_2.
  - exists (changed_keys (previous_entries previous) m). split; [done|].
    destruct (changed_sorted (previous_entries previous) m) as [Hs Hnd]. split; [done|]. split; [done|].
    apply changed_iff.
Qed.

(** C8: [select] does what a selection is.  With a valid catalog, policy and previous
    state it raises, a [ValueError], exactly if the inputs do not belong together, a
    fixed instrument is not on offer, or the clock is behind a running grace period.
    Otherwise an instrument is selected exactly if it is fixed, an active new listing,
    among the best [top_n] of its quote, or within the grace period after leaving them,
    and its entry carries just these reasons, its rank as one more than the number of
    eligible instruments of the quote that beat it, and the start of its grace; the
    next state holds these entries, and the deltas list, sorted, exactly what changed. *)
Theorem select_exact :
  view_validate catalog = Ok catalog -> instruments_ok catalog -> policy_ok policy ->
  match previous with Some p => state_ok p | None => True end ->
  if acceptable catalog fixed policy previous now then
    exists r, select catalog fixed policy previous now = Ok r /\ specified r
  else value_error (select catalog fixed policy previous now).
Proof.
  intros Hview%view_validate_ok Hinst Hpolicy Hprev. pose proof (select_spec Hview Hinst Hpolicy Hprev) as H.
  destruct (acceptable _ _ _ _ _); [|done]. destruct H as (r & Hr & _ & Hrest). by exists r.
Qed.
End Select.

(** ** Chains of calls *)
Record Call : Type := {
  c_catalog : CatalogView; c_fixed : ResolvedFixedSelection; c_now : Z
}.

(** The calls of [select] under one policy, each from the state of the one before, and
    the states they lead to.  Calls that raise leave no state behind. *)
Inductive chain (policy : SelectionPolicy) : list (Call * SelectionState) -> Prop :=
| chain_start : chain policy []
| chain_step h c r : chain policy h -> view_validate (c_catalog c) = Ok (c_catalog c) ->
    instruments_ok (c_catalog c) ->
    select (c_catalog c) (c_fixed c) policy (snd <$> last h) (c_now c) = Ok r ->
    chain policy (h ++ [(c, next_state r)]).

Definition top_in (p : option SelectionState) (k : string) : Prop :=
  exists s e, p = Some s /\ entries s !! k = Some e /\ has TOP_N (reasons e) = true.
Definition out_since (t : Z) (k : string) (s : SelectionState) : Prop :=
  exists e, entries s !! k = Some e /\ has TOP_N_GRACE (reasons e) = true /\ top_exit_started_at_ns e = Some t.

Lemma has_bits catalog fixed policy previous now item e :
  expected catalog fixed policy previous now item = Some e ->
  has TOP_N_GRACE (reasons e) = present (grace_of catalog policy previous now item) /\
  top_exit_started_at_ns e = grace_of catalog policy previous now item.
Proof.
  intros He. unfold expected in He. destruct (_ =? 0); [done|]. injection He as <-. cbn.
  pose proof (rank_excludes_grace catalog policy previous now item) as Hex. split; [|done]. unfold bits.
  destruct (rank_of catalog policy now item) as [n|]; [rewrite (Hex n) by done|];
    destruct (bool_decide _), (_is_active_new_listing item policy now); try destruct (grace_of _ _ _ _ _); done.
Qed.

Lemma grace_of_inv catalog policy previous now item t :
  grace_of catalog policy previous now item = Some t ->
  t <= now < t + exit_grace_ns policy /\
  exists old, previous_entries previous !! c_key item = Some old /\
    (has TOP_N (reasons old) = true /\ t = now \/
     has TOP_N_GRACE (reasons old) = true /\ top_exit_started_at_ns old = Some t).
Proof.
  unfold grace_of. destruct (previous_entries previous !! c_key item) as [old|]; [|done].
  destruct (rank_of catalog policy now item); [done|]. destruct (_ && _ && _ && _); [|done].
  destruct (has TOP_N (reasons old)) eqn:Et; [|destruct (has TOP_N_GRACE (reasons old)) eqn:Eg; [|done];
    destruct (top_exit_started_at_ns old) as [t0|] eqn:Ex; [|done]];
    destruct (_ && _) eqn:Eb; try done; intros [= <-]; bool_prop;
    (split; [lia|]); exists old; split; try done; [by left|by right].
Qed.

Lemma chain_states policy h : policy_ok policy -> chain policy h ->
  match snd <$> last h with Some p => state_ok p | None => True end.
Proof.
  intros Hp. induction 1 as [|h c r Hh IH Hv Hi Hr]; [done|]. rewrite last_snoc. cbn.
  pose proof (select_spec (c_catalog c) (c_fixed c) policy (snd <$> last h) (c_now c)
    (view_validate_ok _ Hv) Hi Hp IH) as H.
  destruct (acceptable _ _ _ _ _); [|by destruct H as [msg H]; congruence].
  destruct H as (r' & Hr' & Hok & _). congruence.
Qed.

(** The last call: an entry in grace has just left the top, or was in grace before. *)
Lemma chain_last policy h c s k t : policy_ok policy -> chain policy (h ++ [(c, s)]) -> out_since t k s ->
  chain policy h /\ t <= c_now c < t + exit_grace_ns policy /\
  (top_in (snd <$> last h) k /\ t = c_now c \/
   exists h' c' s', h = h' ++ [(c', s')] /\ out_since t k s').
Proof.
  intros Hp Hc (e & He & Hg & Ht). inversion Hc as [E|h0 c0 r Hh Hv Hi Hr E].
  { by destruct h. }
  apply app_inj_tail in E as [-> E]. injection E as -> <-. split; [done|].
  pose proof (select_spec (c_catalog c) (c_fixed c) policy (snd <$> last h) (c_now c)
    (view_validate_ok _ Hv) Hi Hp (chain_states policy h Hp Hh)) as H.
  destruct (acceptable _ _ _ _ _); [|by destruct H as [msg H]; congruence].
  destruct H as (r' & Hr' & _ & Hat & Hkeys & Hnext & _). rewrite Hr in Hr'. injection Hr' as <-.
  rewrite Hnext in He. cbn in He. pose proof (Hkeys k ltac:(by exists e)) as Hk.
  apply list_elem_of_fmap in Hk as (item & -> & Hin). rewrite (Hat item Hin) in He.
  destruct (has_bits _ _ _ _ _ _ _ He) as [_ Hx]. rewrite Ht in Hx. symmetry in Hx.
  apply grace_of_inv in Hx as (Hb & old & Ho & Hold). split; [done|].
  unfold previous_entries in Ho. destruct (snd <$> last h) as [p|] eqn:El; [|by rewrite lookup_empty in Ho].
  destruct Hold as [[Htop ->]|[Hgo Hto]]; [left; split; [by exists p, old|done]|]. right.
  destruct h as [|[c' s'] h' _] using rev_ind; [done|]. rewrite last_snoc in El. injection El as ->.
  exists h', c', p. split; [done|]. by exists old.
Qed.

(** C9: the grace period is not extended by refreshing.  Along any chain of calls, if an
    instrument is selected by grace, there is a call at the instant its entry gives
    as the start of grace, before which it was among the top, since which every state
    has had it in grace from that same instant, and the last call is less than
    [exit_grace_ns] later. *)
Theorem grace_bounded policy h c s k t : policy_ok policy -> chain policy (h ++ [(c, s)]) ->
  out_since t k s ->
  t <= c_now c < t + exit_grace_ns policy /\
  exists h1 c1 s1 h2, h ++ [(c, s)] = h1 ++ (c1, s1) :: h2 /\ c_now c1 = t /\
    top_in (snd <$> last h1) k /\ Forall (fun cs => out_since t k cs.2) ((c1, s1) :: h2).
Proof.
  intros Hp Hc Hout. destruct (chain_last policy h c s k t Hp Hc Hout) as (_ & Hb & _). split; [done|]. clear Hb.
  revert c s Hc Hout. induction h as [|[c' s'] h IH] using rev_ind; intros c s Hc Hout;
    destruct (chain_last policy _ c s k t Hp Hc Hout) as (Hh & _ & [[Htop ->]|(h0 & c0 & s0 & E & Hout0)]).
  - exists [], c, s, []. split; [done|]. split; [done|]. split; [done|]. by repeat constructor.
  - by destruct h0.
  - exists (h ++ [(c', s')]), c, s, []. split; [done|]. split; [done|]. split; [done|]. by repeat constructor.
  - apply app_inj_tail in E as [-> E]. injection E as -> ->.
    destruct (IH c0 s0 Hh Hout0) as (h1 & c1 & s1 & h2 & E & Hn & Htop & HF).
    exists h1, c1, s1, (h2 ++ [(c, s)]). rewrite E, <- app_assoc. split; [done|]. split; [done|]. split; [done|].
    rewrite app_comm_cons. apply Forall_app. split; [done|]. by repeat constructor.
Qed.

(** ** Concrete values *)
Module SelectionSamples.
Definition sample_scope : CatalogScope := {| sc_exchange := OKX; sc_market := SPOT |}.
Definition sample_sha : string := "00000000000000000000000000000000000000000000000000000000000000ab".

Definition sample_instrument (key base : string) (value observed : Z) : CatalogInstrument := {|
  inst := {| exchange := OKX; market := SPOT; instrument_key := key; canonical_pair := base +:+ "/USDT";
             wire_symbols := {[ "ws" := key ]}; base_asset := base; quote_asset := "USDT";
             settlement_asset := None; status := "live"; lifecycle_phase := TRADABLE; tradable := true;
             lifecycle := JDict []; tradable_at_ns := None; tradable_at_source := None;
             turnover := Some {| to_value := dec_of_int value; to_method := EXCHANGE_QUOTE_TURNOVER;
                                 to_currency := "USDT"; to_observed_at_ns := Some observed;
                                 to_raw_reference := Some "t" |};
             raw_catalog_reference := "r" |};
  first_seen_ns := 1; last_seen_ns := 5; is_present := true; listing_state := BASELINE;
  first_tradable_seen_ns := None; listing_generation := 0; last_terminal_seen_ns := None;
  new_listing_started_at_ns := None; new_listing_source := None; new_listing_eligible := false
|}.

(** The two instruments with these turnovers, observed at [observed]. *)
Definition sample_view (revision btc eth observed : Z) : CatalogView := {|
  v_scope := sample_scope; catalog_observed_at_ns := Some 5; catalog_revision := 1;
  catalog_digest_sha256 := Some sample_sha; catalog_snapshot_id := Some "c1";
  catalog_page_raw_references := ["p1"]; turnover_observed_at_ns := Some observed;
  turnover_revision := revision; turnover_digest_sha256 := Some sample_sha;
  turnover_catalog_revision := Some 1; turnover_snapshot_id := Some "t1";
  turnover_page_raw_references := ["q1"]; turnover_covered_instrument_keys := ["BTC"; "ETH"];
  instruments := [sample_instrument "BTC" "BTC" btc observed; sample_instrument "ETH" "ETH" eth observed]
|}.
Definition sample_fixed : ResolvedFixedSelection :=
  {| f_scope := sample_scope; f_catalog_revision := 1; f_instrument_keys := ∅ |}.
Definition sample_policy : SelectionPolicy := {|
  p_scope := sample_scope; quote_assets := ["USDT"]; top_n := 1; turnover_max_age_ns := 100;
  new_listings_enabled := true; new_listing_capture_duration_ns := 50; exit_grace_ns := 30;
  policy_id := sample_sha
|}.

Definition sample_call (revision btc eth observed now : Z) : Call :=
  {| c_catalog := sample_view revision btc eth observed; c_fixed := sample_fixed; c_now := now |}.
Definition call1 : Call := sample_call 1 9 5 10 12.
Definition call2 : Call := sample_call 2 4 5 20 22.
Definition call3 : Call := sample_call 2 4 5 20 40.

Definition run_call (previous : option SelectionState) (c : Call) : option SelectionState :=
  match select (c_catalog c) (c_fixed c) sample_policy previous (c_now c) with
  | Ok r => Some (next_state r)
  | Err _ => None
  end.

Lemma sample_policy_ok : policy_ok sample_policy.
Proof. split; [done|]. split; [done|]. vm_compute. reflexivity. Qed.
Lemma sample_view_valid revision btc eth observed : (revision, observed) = (1, 10) \/ (revision, observed) = (2, 20) ->
  view_validate (sample_view revision btc eth observed) = Ok (sample_view revision btc eth observed).
Proof. intros [[= -> ->]|[= -> ->]]; vm_compute; reflexivity. Qed.
Lemma sample_instruments_ok revision btc eth observed : instruments_ok (sample_view revision btc eth observed).
Proof. repeat constructor. Qed.

(** BTC leads at first; ETH overtakes it, and BTC stays by grace. *)
Lemma select_exact_witness :
  acceptable (c_catalog call1) sample_fixed sample_policy None 12 = true /\
  exists r, select (c_catalog call1) sample_fixed sample_policy None 12 = Ok r /\
    r_entries r !! "BTC" = Some {| instrument := sample_instrument "BTC" "BTC" 9 10; reasons := TOP_N;
                                   top_n_rank := Some 1; top_exit_started_at_ns := None |} /\
    r_entries r !! "ETH" = None.
Proof.
  assert (Ha : acceptable (c_catalog call1) sample_fixed sample_policy None 12 = true) by (vm_compute; reflexivity).
  split; [exact Ha|].
  pose proof (select_exact (c_catalog call1) sample_fixed sample_policy None 12
    (sample_view_valid 1 9 5 10 (or_introl eq_refl)) (sample_instruments_ok 1 9 5 10) sample_policy_ok I) as H.
  rewrite Ha in H. destruct H as (r & Hr & Hat & _). exists r. split; [exact Hr|]. split.
  - etransitivity; [exact (Hat (sample_instrument "BTC" "BTC" 9 10) ltac:(left))|vm_compute; reflexivity].
  - etransitivity; [exact (Hat (sample_instrument "ETH" "ETH" 5 10) ltac:(right; left))|vm_compute; reflexivity].
Defined.

(** The states after the three calls. *)
Definition empty_state : SelectionState := {|
  s_scope := sample_scope; s_catalog_revision := 0; s_turnover_revision := 0; s_policy_id := "";
  revision := 0; entries := ∅ |}.
Definition state1 : SelectionState := default empty_state (run_call None call1).
Definition state2 : SelectionState := default empty_state (run_call (Some state1) call2).
Definition state3 : SelectionState := default empty_state (run_call (Some state2) call3).

Lemma sample_step h c : chain sample_policy h -> view_validate (c_catalog c) = Ok (c_catalog c) ->
  instruments_ok (c_catalog c) -> is_ok (select (c_catalog c) (c_fixed c) sample_policy (snd <$> last h) (c_now c)) = true ->
  chain sample_policy (h ++ [(c, default empty_state (run_call (snd <$> last h) c))]).
Proof.
  intros Hh Hv Hi Hok. unfold run_call. destruct (select _ _ _ _ _) as [r|] eqn:Er; [|done]. by apply chain_step.
Qed.

Lemma sample_chain : chain sample_policy [(call1, state1); (call2, state2); (call3, state3)].
Proof.
  apply (sample_step [(call1, state1); (call2, state2)] call3);
    [|apply sample_view_valid; by right|apply sample_instruments_ok|vm_compute; reflexivity].
  apply (sample_step [(call1, state1)] call2);
    [|apply sample_view_valid; by right|apply sample_instruments_ok|vm_compute; reflexivity].
  apply (sample_step [] call1);
    [constructor|apply sample_view_valid; by left|apply sample_instruments_ok|vm_compute; reflexivity].
Qed.

(** BTC is out since 22 and still kept at 40. *)
Lemma grace_bounded_witness :
  out_since 22 "BTC" state3 /\ 22 <= 40 < 22 + 30 /\
  exists h1 c1 s1 h2, [(call1, state1); (call2, state2); (call3, state3)] = h1 ++ (c1, s1) :: h2 /\ c_now c1 = 22 /\
    top_in (snd <$> last h1) "BTC" /\ Forall (fun cs => out_since 22 "BTC" cs.2) ((c1, s1) :: h2).
Proof.
  assert (Hout : out_since 22 "BTC" state3).
  { exists {| instrument := sample_instrument "BTC" "BTC" 4 20; reasons := TOP_N_GRACE;
              top_n_rank := Some 1; top_exit_started_at_ns := Some 22 |}.
    split; [vm_compute; reflexivity|]. split; vm_compute; reflexivity. }
  split; [exact Hout|].
  exact (grace_bounded sample_policy [(call1, state1); (call2, state2)] call3 state3 "BTC" 22
    sample_policy_ok sample_chain Hout).
Defined.
End SelectionSamples.
