(* ===== verification/Fixed.v ===== *)
(** [selection/fixed.py]: resolving the requests of a configuration, by instrument key or
    by canonical pair, against a catalog.  Case folding is a parameter. *)
From stdpp Require Import pretty.
From S2P Require Import Prelude PyDecimal Domain StorageModels SelectionModels Selector SelectorFacts.

Section Fixed.
Context (casefold : string -> string).

(** The loop of [_requests]; [identities] are the folded requests before. *)
Fixpoint _requests (identities : list string) (value : list string) : result (list string) :=
  match value with
  | [] => Ok []
  | item :: value =>
      raise ValueError "fixed requests must be non-blank normalized strings" when negb (normalized item);;
      raise ValueError "fixed requests must be unique under case-folding"
        when bool_decide (casefold item ∈ identities);;
      let! rest := _requests (casefold item :: identities) value in
      Ok (item :: rest)
  end.

Definition on_offer (item : CatalogInstrument) : bool := is_present item && tradable (inst item).

Definition by_key (catalog : CatalogView) : gmap string CatalogInstrument :=
  foldl (fun m item => <[c_key item := item]> m) ∅ (instruments catalog).

(** The body of the loop over the requests: the key a request selects. *)
Definition resolve_request (catalog : CatalogView) (request : string) : result string :=
  match by_key catalog !! request with
  | Some exact =>
      raise FixedPairResolutionError request "exact instrument key is not present and tradable" [c_key exact]
        when negb (on_offer exact);;
      Ok (c_key exact)
  | None =>
      let pair_candidates := py_sorted (on_key c_key string_leb)
        (filter (fun item => canonical_pair (inst item) = request) (instruments catalog)) in
      let reason := fun (l : list CatalogInstrument) => if bool_decide (l = [])
        then "canonical pair has no present tradable match" else "canonical pair is ambiguous" in
      match filter (fun item => on_offer item = true) pair_candidates with
      | [item] => Ok (c_key item)
      | l => Err (FixedPairResolutionError request (reason l) (c_key <$> pair_candidates))
      end
  end.

Definition resolve_fixed_requests (requests : list string) (catalog : CatalogView)
    : result ResolvedFixedSelection :=
  let! normalized_requests := _requests [] requests in
  raise ValueError "fixed requests require a complete catalog revision" when catalog_revision catalog <=? 0;;
  let! selected := check_all (resolve_request catalog) normalized_requests in
  fixed_init (v_scope catalog) (catalog_revision catalog) (list_to_set selected).

(** ** What is resolved *)
Lemma requests_inv l : forall ids l', _requests ids l = Ok l' -> l' = l.
Proof. induction l as [|x l IH]; intros ids l' H; cbn in H; inv_ok; [done|]. f_equal. by eapply IH. Qed.

Lemma by_key_lookup catalog k i : NoDup (c_key <$> instruments catalog) ->
  by_key catalog !! k = Some i <-> i ∈ instruments catalog /\ c_key i = k.
Proof.
  intros Hnd. unfold by_key. rewrite (foldl_insert_lookup c_key (fun i => i)), lookup_empty by done. naive_solver.
Qed.

(** The instrument a request names: the one with this key, else the only one on offer
    of the pair. *)
Definition resolves (catalog : CatalogView) (request : string) (i : CatalogInstrument) : Prop :=
  i ∈ instruments catalog /\ on_offer i = true /\
  (c_key i = request \/
   request ∉ c_key <$> instruments catalog /\ canonical_pair (inst i) = request /\
   forall j, j ∈ instruments catalog -> on_offer j = true -> canonical_pair (inst j) = request -> j = i).

Lemma resolve_request_iff catalog request k : NoDup (c_key <$> instruments catalog) ->
  resolve_request catalog request = Ok k <-> exists i, resolves catalog request i /\ c_key i = k.
Proof.
  intros Hnd. unfold resolve_request, resolves.
  destruct (by_key catalog !! request) as [exact|] eqn:E.
  - apply by_key_lookup in E as [Hi Hk]; [|done]. destruct (on_offer exact) eqn:Eo; cbn.
    + split; [intros [= <-]; exists exact; split; [split; [done|split; [done|by left]]|done]|].
      intros (i & (Hi' & _ & [Hk'|[Hk' _]]) & <-).
      * f_equal. congruence.
      * destruct Hk'. rewrite <- Hk. by apply list_elem_of_fmap_2.
    + split; [done|]. intros (i & (Hi' & Ho & [Hk'|[Hk' _]]) & <-).
      * assert (i = exact) as -> by (apply (key_inj catalog Hnd); congruence). congruence.
      * destruct Hk'. rewrite <- Hk. by apply list_elem_of_fmap_2.
  - assert (Hno : request ∉ c_key <$> instruments catalog).
    { intros (i & Hk & Hi)%list_elem_of_fmap. assert (by_key catalog !! request = Some i) by by apply by_key_lookup.
      congruence. }
    set (l := filter _ (py_sorted _ _)).
    assert (Hl : forall j, j ∈ l <-> j ∈ instruments catalog /\ on_offer j = true /\ canonical_pair (inst j) = request).
    { intros j. unfold l. rewrite list_elem_of_filter, elem_of_py_sorted, list_elem_of_filter. naive_solver. }
    assert (Hndl : NoDup l).
    { unfold l. apply NoDup_filter, NoDup_py_sorted, NoDup_filter. by eapply NoDup_fmap_1. }
    destruct l as [|i [|j l']].
    + split; [done|]. intros (i & (Hi & Ho & [Hk|(_ & Hp & _)]) & _).
      * destruct Hno. rewrite <- Hk. by apply list_elem_of_fmap_2.
      * exfalso. apply (not_elem_of_nil i). by apply Hl.
    + destruct (proj1 (Hl i) ltac:(left)) as (Hi & Ho & Hp). split.
      * intros [= <-]. exists i. split; [|done]. split; [done|]. split; [done|]. right. split; [done|]. split; [done|].
        intros j Hj Hoj Hpj. by apply list_elem_of_singleton, Hl.
      * intros (j & (Hj & Hoj & [Hk|(_ & Hpj & _)]) & <-).
        { destruct Hno. rewrite <- Hk. by apply list_elem_of_fmap_2. }
        assert (j ∈ [i]) as ->%list_elem_of_singleton by by apply Hl. done.
    + split; [done|]. intros (x & (Hx & Ho & [Hk|(_ & _ & Huniq)]) & _).
      * destruct Hno. rewrite <- Hk. by apply list_elem_of_fmap_2.
      * exfalso. apply NoDup_cons in Hndl as [Hij _]. apply Hij.
        destruct (proj1 (Hl i) ltac:(left)) as (Hi & Hoi & Hpi).
        destruct (proj1 (Hl j) ltac:(right; left)) as (Hj & Hoj & Hpj).
        rewrite (Huniq i), (Huniq j) by done. left.
Qed.

Lemma requests_ok l : forall ids, forallb normalized l = true -> NoDup (casefold <$> l) ->
  (forall x, x ∈ l -> casefold x ∉ ids) -> _requests ids l = Ok l.
Proof.
  induction l as [|x l IH]; intros ids Hn Hnd Hids; [done|]. cbn in Hn |- *. bool_prop.
  rewrite fmap_cons in Hnd. apply NoDup_cons in Hnd as [Hx Hnd].
  match goal with H : normalized x = true |- _ => rewrite H end. cbn.
  rewrite bool_decide_eq_false_2 by (apply Hids; left). cbn. rewrite IH; [done|done|done|].
  intros y Hy [Hc|Hc]%elem_of_cons; [|by apply (Hids y); [right|]].
  apply Hx. rewrite <- Hc. by apply list_elem_of_fmap_2.
Qed.

Lemma requests_form l : forall ids l', _requests ids l = Ok l' ->
  forallb normalized l = true /\ NoDup (casefold <$> l) /\ forall x, x ∈ l -> casefold x ∉ ids.
Proof.
  induction l as [|x l IH]; intros ids l' H; cbn in H.
  { split; [done|]. split; [constructor|]. intros x Hx. by apply elem_of_nil in Hx. }
  inv_ok. bool_prop. match goal with H : _requests _ l = Ok _ |- _ => destruct (IH _ _ H) as (H2' & H3 & H4) end.
  match goal with H : normalized x = true |- _ => cbn; rewrite H end. split; [done|]. split.
  - constructor; [|done]. intros (y & Hy & Hin)%list_elem_of_fmap. apply (H4 y Hin). rewrite <- Hy. left.
  - intros y [->|Hy]%elem_of_cons; [done|]. intros Hc. apply (H4 y Hy). by right.
Qed.

Lemma requests_err l : forall ids e, _requests ids l = Err e ->
  (exists msg, e = ValueError msg) /\
  ~ (forallb normalized l = true /\ NoDup (casefold <$> l) /\ forall x, x ∈ l -> casefold x ∉ ids).
Proof.
  induction l as [|x l IH]; intros ids e H; [done|]. cbn in H.
  destruct (normalized x) eqn:En; cbn in H.
  2: { injection H as <-. split; [by eexists|]. intros (Hn & _). cbn in Hn. by rewrite En in Hn. }
  case_bool_decide as Hd; cbn in H.
  { injection H as <-. split; [by eexists|]. intros (_ & _ & Hids). by apply (Hids x); [left|]. }
  destruct (_requests _ l) as [?|e'] eqn:El; [done|]. injection H as ->. apply IH in El as [Hm El]. split; [done|].
  intros (Hn & Hnd & Hids). apply El. cbn in Hn. rewrite En in Hn. rewrite fmap_cons in Hnd.
  apply NoDup_cons in Hnd as [Hx Hnd]. split; [done|]. split; [done|].
  intros y Hy [Hc|Hc]%elem_of_cons; [|by apply (Hids y); [right|]].
  apply Hx. rewrite <- Hc. by apply list_elem_of_fmap_2.
Qed.

(** The first request that does not resolve is the one reported. *)
Lemma resolve_all_err catalog l e : check_all (resolve_request catalog) l = Err e ->
  exists l1 r l2, l = l1 ++ r :: l2 /\ resolve_request catalog r = Err e /\
    forall x, x ∈ l1 -> is_ok (resolve_request catalog x) = true.
Proof.
  induction l as [|x l IH]; intros H; [done|]. cbn in H. destruct (resolve_request catalog x) as [k|e'] eqn:E; cbn in H.
  - destruct (check_all _ l) as [?|e'']; [done|]. injection H as ->. destruct (IH eq_refl) as (l1 & r & l2 & -> & Hr & Hl).
    exists (x :: l1), r, l2. split; [done|]. split; [done|]. intros y [->|Hy]%elem_of_cons; [by rewrite E|by apply Hl].
  - injection H as ->. exists [], x, l. split; [done|]. split; [done|]. intros y Hy. by apply elem_of_nil in Hy.
Qed.

Lemma resolve_request_err catalog r e : resolve_request catalog r = Err e ->
  exists reason keys, e = FixedPairResolutionError r reason keys.
Proof.
  unfold resolve_request. destruct (by_key catalog !! r) as [i|].
  - unfold raise_if. case_bool; [|done]. intros [= <-]. by eexists _, _.
  - destruct (filter _ _) as [|? [|? ?]]; [|done|]; intros [= <-]; by eexists _, _.
Qed.

(** The keys of a run of the loop that raises nothing. *)
Lemma resolved_keys catalog requests keys : NoDup (c_key <$> instruments catalog) ->
  check_all (resolve_request catalog) requests = Ok keys ->
  (forall k, k ∈ keys <-> exists r i, r ∈ requests /\ resolves catalog r i /\ c_key i = k) /\
  (forall r, r ∈ requests -> exists i, resolves catalog r i).
Proof.
  intros Hnd Ec. apply check_all_inv in Ec. pose proof (fun r k => resolve_request_iff catalog r k Hnd) as Hres.
  split; [intros k; split|].
  - intros [n Hn]%list_elem_of_lookup. destruct (Forall2_lookup_r _ _ _ _ _ Ec Hn) as (r & Hr & Hrk).
    apply Hres in Hrk as (i & Hi & Hk). exists r, i. split; [by eapply list_elem_of_lookup_2|done].
  - intros (r & i & [n Hn]%list_elem_of_lookup & Hi & Hk).
    destruct (Forall2_lookup_l _ _ _ _ _ Ec Hn) as (k' & Hk' & Hrk).
    assert (resolve_request catalog r = Ok k) by (apply Hres; by exists i). assert (k' = k) as -> by congruence.
    by eapply list_elem_of_lookup_2.
  - intros r [n Hn]%list_elem_of_lookup. destruct (Forall2_lookup_l _ _ _ _ _ Ec Hn) as (k & _ & Hrk).
    apply Hres in Hrk as (i & Hi & _). by exists i.
Qed.

(** Fixed requests resolve exactly.  With well-formed requests and a catalog, the
    resolved selection holds just the instruments the requests name, each by its key or
    as the only one on offer of its pair, and [select] finds all of them on offer;
    a request that names none or more than one is reported, the first such one, and
    nothing is selected. *)
Theorem fixed_requests_exact (requests : list string) (catalog : CatalogView) :
  view_validate catalog = Ok catalog -> instruments_ok catalog ->
  let well_formed := forallb normalized requests = true /\ NoDup (casefold <$> requests)
                     /\ 1 <= catalog_revision catalog in
  match resolve_fixed_requests requests catalog with
  | Ok f =>
      well_formed /\ f_scope f = v_scope catalog /\ f_catalog_revision f = catalog_revision catalog /\
      (forall r, r ∈ requests -> exists i, resolves catalog r i) /\
      (forall k, k ∈ f_instrument_keys f <-> exists r i, r ∈ requests /\ resolves catalog r i /\ c_key i = k) /\
      forallb (available catalog) (elements (f_instrument_keys f)) = true
  | Err (ValueError _) => ~ well_formed
  | Err (FixedPairResolutionError r _ _) =>
      well_formed /\ exists l1 l2, requests = l1 ++ r :: l2 /\ (forall i, ~ resolves catalog r i) /\
        forall x, x ∈ l1 -> exists i, resolves catalog x i
  | Err _ => False
  end.
Proof.
  intros Hview%view_validate_ok Hinst well_formed. unfold resolve_fixed_requests.
  pose proof (fun r k => resolve_request_iff catalog r k (view_keys _ Hview)) as Hres.
  destruct (_requests [] requests) as [l|e] eqn:Er.
  2: { apply requests_err in Er as [[msg ->] Hbad]. intros (H1 & H2 & _). apply Hbad. split; [done|].
       split; [done|]. intros x _. apply not_elem_of_nil. }
  assert (Hform : forallb normalized requests = true /\ NoDup (casefold <$> requests)).
  { destruct (requests_form _ _ _ Er) as (H1 & H2 & _). by split. }
  pose proof (requests_inv _ _ _ Er) as ->. cbn [rbind].
  destruct (Z.leb_spec (catalog_revision catalog) 0); cbn [raise_if].
  { intros (_ & _ & Hr). lia. }
  assert (Hwf : well_formed) by (unfold well_formed; split_and!; [apply Hform|apply Hform|lia]).
  destruct (check_all (resolve_request catalog) requests) as [keys|e] eqn:Ec; cbn [rbind].
  2: { apply resolve_all_err in Ec as (l1 & r & l2 & -> & Hr & Hl1).
       destruct (resolve_request_err _ _ _ Hr) as (reason & cands & ->). split; [done|]. exists l1, l2.
       split; [done|]. split.
       - intros i Hi. assert (resolve_request catalog r = Ok (c_key i)) by (apply Hres; by exists i). congruence.
       - intros x Hx. specialize (Hl1 x Hx). destruct (resolve_request catalog x) as [k|] eqn:Ex; [|done].
         apply Hres in Ex as (i & Hi & _). by exists i. }
  pose proof (view_revision _ Hview).
  pose proof (resolved_keys catalog requests keys (view_keys _ Hview) Ec) as [Hkeys Hall].
  assert (Hon : forall k, k ∈ keys -> exists i, i ∈ instruments catalog /\ on_offer i = true /\ c_key i = k).
  { intros k Hk. apply Hkeys in Hk as (r & i & _ & (Hi & Ho & _) & Hk). by exists i. }
  unfold fixed_init. rewrite integer_min_ok by lia. cbn [rbind].
  rewrite (proj2 (forallb_forall _ _)).
  2: { intros k Hk%list_elem_of_In. rewrite elem_of_elements, elem_of_list_to_set in Hk.
       destruct (Hon k Hk) as (i & Hi & _ & <-). by apply (proj1 (Forall_forall _ _) Hinst). }
  cbn. split; [done|]. split; [done|]. split; [done|]. split; [|split].
  - exact Hall.
  - intros k. rewrite elem_of_list_to_set. apply Hkeys.
  - apply forallb_forall. intros k Hk%list_elem_of_In. rewrite elem_of_elements, elem_of_list_to_set in Hk.
    destruct (Hon k Hk) as (i & Hi & Ho & <-). apply existsb_exists. exists i.
    split; [by apply list_elem_of_In|]. by rewrite String.eqb_refl.
Qed.
End Fixed.

(** ** Concrete values *)
Lemma fixed_requests_exact_witness :
  let sample (key pair : string) := {|
    inst := {| exchange := OKX; market := SPOT; instrument_key := key; canonical_pair := pair;
               wire_symbols := {[ "ws" := key ]}; base_asset := "B"; quote_asset := "USDT";
               settlement_asset := None; status := "live"; lifecycle_phase := TRADABLE; tradable := true;
               lifecycle := JNull; tradable_at_ns := None; tradable_at_source := None; turnover := None;
               raw_catalog_reference := "r" |};
    first_seen_ns := 1; last_seen_ns := 5; is_present := true; listing_state := BASELINE;
    first_tradable_seen_ns := None; listing_generation := 0; last_terminal_seen_ns := None;
    new_listing_started_at_ns := None; new_listing_source := None; new_listing_eligible := false |} in
  let catalog := {|
    v_scope := {| sc_exchange := OKX; sc_market := SPOT |}; catalog_observed_at_ns := Some 5;
    catalog_revision := 1;
    catalog_digest_sha256 := Some "00000000000000000000000000000000000000000000000000000000000000ab";
    catalog_snapshot_id := Some "c1"; catalog_page_raw_references := ["p1"]; turnover_observed_at_ns := None;
    turnover_revision := 0; turnover_digest_sha256 := None; turnover_catalog_revision := None;
    turnover_snapshot_id := None; turnover_page_raw_references := []; turnover_covered_instrument_keys := [];
    instruments := [sample "BTC-USDT" "BTC/USDT"; sample "ETH-USDT" "ETH/USDT"] |} in
  match resolve_fixed_requests id ["ETH/USDT"] catalog with
  | Ok f => exists i, resolves catalog "ETH/USDT" i
  | Err _ => False
  end.
Proof.
  intros sample catalog. pose proof (fixed_requests_exact id ["ETH/USDT"] catalog) as H.
  assert (Hok : is_ok (resolve_fixed_requests id ["ETH/USDT"] catalog) = true) by (vm_compute; reflexivity).
  destruct (resolve_fixed_requests id ["ETH/USDT"] catalog) as [f|e]; [|discriminate Hok].
  destruct H as (_ & _ & _ & H & _); [vm_compute; reflexivity|repeat constructor|]. apply H. left.
Defined.
