(* ===== verification/Capacity.v ===== *)
(** [selection/capacity.py]: how many instruments the healthy egresses carry, which
    candidates are admitted when there are too many, and how the connections of an
    exchange are shared between its markets. *)
From stdpp Require Import pretty.
From S2P Require Import Prelude PyDecimal Health Domain StorageModels SelectionModels Selector.

(** ** Field checks *)
Definition DEGRADE : string := "degrade_low_priority_with_warning".
Definition _nonempty (value field : string) : result string :=
  raise ValueError (field +:+ " must be a non-empty string") when negb (nonempty value);;
  Ok value.
Definition _sha256 (value : string) : result string :=
  raise ValueError "config_sha256 must be a lowercase SHA-256 digest" when negb (config_sha256_ok value);;
  Ok value.
Definition _capacity_policy (value : string) : result string :=
  raise ValueError "unsupported capacity policy" when negb (bool_decide (value ∈ [DEGRADE; "fail"]));;
  Ok value.

(** ** Candidates *)
Record CapacityCandidate : Type := {
  k_key : string; k_priority : AdmissionPriority; k_first_seen_ns : Z; k_top_n_rank : option Z
}.
#[export] Instance CapacityCandidate_eq_dec : EqDecision CapacityCandidate.
Proof. solve_decision. Defined.

Definition candidate_init (instrument_key : string) (priority : AdmissionPriority) (first_seen_ns : Z)
    (top_n_rank : option Z) : result CapacityCandidate :=
  let! key := _nonempty instrument_key "instrument_key" in
  let! first_seen := _integer first_seen_ns "first_seen_ns" 0 in
  let! rank := _optional_integer top_n_rank "top_n_rank" 1 in
  raise ValueError "TOP_N candidate requires top_n_rank"
    when bool_decide (priority = PRIORITY_TOP_N) && negb (present rank);;
  raise ValueError "top_n_rank is valid only for TOP_N candidates"
    when negb (bool_decide (priority = PRIORITY_TOP_N)) && present rank;;
  Ok {| k_key := key; k_priority := priority; k_first_seen_ns := first_seen; k_top_n_rank := rank |}.

Definition from_selection_entry (entry : SelectionEntry) : result CapacityCandidate :=
  candidate_init (entry_key entry) (admission_priority entry) (first_seen_ns (instrument entry))
    (if bool_decide (admission_priority entry = PRIORITY_TOP_N) then top_n_rank entry else None).

(** ** Capacity of the egresses *)
Record EgressCapacity : Type := {
  exchange_id : string; healthy_egress_ids : list string; quota_groups : list string;
  ws_connections : Z; ws_subscription_slots : Z; instrument_slots : Z; http_concurrency : Z;
  cap_subscriptions_per_connection : Z; subscriptions_per_instrument : Z
}.

(** [{item.id: item for item in candidates}] *)
Definition egress_table (l : list Egress) : gmap string Egress :=
  foldl (fun m e => <[id e := e]> m) ∅ l.

Definition calculate_egress_capacity (exchange : string) (egresses : list Egress)
    (reachable_egress_ids : gset string) (subscriptions_per_connection subscriptions_per_instrument : Z)
    : result EgressCapacity :=
  let! exchange_id := _nonempty exchange "exchange" in
  raise TypeError "reachable_egress_ids must be a frozenset of strings"
    when negb (forallb nonempty (elements reachable_egress_ids));;
  let! per_connection := _integer subscriptions_per_connection "subscriptions_per_connection" 1 in
  let! per_instrument := _integer subscriptions_per_instrument "subscriptions_per_instrument" 1 in
  let by_id := egress_table egresses in
  raise ValueError "egress IDs must be unique" when negb (size by_id =? length egresses)%nat;;
  let unknown := py_sorted string_leb (elements (reachable_egress_ids ∖ dom by_id)) in
  raise ValueError ("unknown reachable egress IDs: " +:+ String.concat ", " unknown)
    when negb (bool_decide (unknown = []));;
  let healthy := omap (fun i => by_id !! i) (py_sorted string_leb (elements reachable_egress_ids)) in
  let connections := zsum (max_ws_connections <$> healthy) in
  Ok {| Capacity.exchange_id := exchange_id; healthy_egress_ids := id <$> healthy;
        quota_groups := py_sorted string_leb (elements (list_to_set (quota_group <$> healthy) : gset string));
        ws_connections := connections; ws_subscription_slots := connections * per_connection;
        instrument_slots := zsum ((fun e => max_ws_connections e * (per_connection / per_instrument)) <$> healthy);
        http_concurrency := zsum (max_http_concurrency <$> healthy);
        cap_subscriptions_per_connection := per_connection;
        Capacity.subscriptions_per_instrument := per_instrument |}.

(** ** Admission *)
Record CapacityWarning : Type := {
  w_rejected : list string; w_required_slots : Z; w_available_slots : Z; w_config_sha256 : string;
  w_reason : string
}.
Record CapacityAdmission : Type := {
  admitted : list string; rejected : list string; required_slots : Z; available_slots : Z;
  a_policy : string; a_config_sha256 : string; warning : option CapacityWarning
}.

Definition Order : Type := (Z * Z) * string.
Definition order_leb : Order -> Order -> bool :=
  lex_leb (fun a b => bool_decide (a = b)) (lex_leb Z.eqb Z.leb Z.leb) string_leb.

(** The assertions that a rank is there hold by [candidate_init]. *)
Definition _admission_order (candidate : CapacityCandidate) : Order :=
  match k_priority candidate with
  | PRIORITY_FIXED => (0, 0, k_key candidate)
  | PRIORITY_NEW_LISTING => (1, k_first_seen_ns candidate, k_key candidate)
  | PRIORITY_TOP_N => (2, default 0 (k_top_n_rank candidate), k_key candidate)
  end.
Definition _eviction_order (candidate : CapacityCandidate) : Order :=
  match k_priority candidate with
  | PRIORITY_TOP_N => (0, - default 0 (k_top_n_rank candidate), k_key candidate)
  | PRIORITY_NEW_LISTING => (1, - k_first_seen_ns candidate, k_key candidate)
  | PRIORITY_FIXED => (2, 0, k_key candidate)
  end.

Definition is_fixed (c : CapacityCandidate) : bool := bool_decide (k_priority c = PRIORITY_FIXED).
Definition count_fixed (l : list CapacityCandidate) : Z := Z.of_nat (length (filter (fun c => is_fixed c = true) l)).
Definition in_admission_order (l : list CapacityCandidate) : list CapacityCandidate :=
  py_sorted (on_key _admission_order order_leb) l.

Definition admit_candidates (candidates : list CapacityCandidate) (slots : Z) (config_sha256 policy : string)
    : result CapacityAdmission :=
  let! available := _integer slots "slots" 0 in
  let! normalized_policy := _capacity_policy policy in
  let! config_digest := _sha256 config_sha256 in
  raise ValueError "candidate instrument keys must be unique" when negb (unique (k_key <$> candidates));;
  raise CapacityError "fixed pairs exceed available capacity" when available <? count_fixed candidates;;
  let required := Z.of_nat (length candidates) in
  if required <=? available then
    Ok {| admitted := k_key <$> in_admission_order candidates; rejected := []; required_slots := required;
          available_slots := available; a_policy := normalized_policy; a_config_sha256 := config_digest;
          warning := None |}
  else
    raise CapacityError ("capacity shortfall: required " +:+ pretty required +:+ ", available " +:+ pretty available)
      when String.eqb normalized_policy "fail";;
    let removable := py_sorted (on_key _eviction_order order_leb)
                       (filter (fun c => is_fixed c = false) candidates) in
    let rejected_keys := k_key <$> take (Z.to_nat (required - available)) removable in
    Ok {| admitted := k_key <$> filter (fun c => k_key c ∉ rejected_keys) (in_admission_order candidates);
          rejected := rejected_keys; required_slots := required; available_slots := available;
          a_policy := normalized_policy; a_config_sha256 := config_digest;
          warning := Some {| w_rejected := rejected_keys; w_required_slots := required;
                             w_available_slots := available; w_config_sha256 := config_digest;
                             w_reason := "selection exceeds healthy transport capacity" |} |}.

(** ** Sharing the connections of an exchange *)
Record ScopedCapacityDemand : Type := {
  m_scope : CatalogScope; candidates : list CapacityCandidate; instruments_per_connection : Z;
  policies : gmap string string
}.

Definition demand_init (scope : CatalogScope) (candidates : list CapacityCandidate)
    (instruments_per_connection : Z) (policies : gmap string string) : result ScopedCapacityDemand :=
  let keys := k_key <$> candidates in
  raise ValueError "candidate instrument keys must be unique within a scope" when negb (unique keys);;
  let! per_connection := _integer instruments_per_connection "instruments_per_connection" 1 in
  let! _ := check_all (fun kp =>
    let! _ := _nonempty kp.1 "policy instrument key" in
    let! _ := _capacity_policy kp.2 in
    Ok tt) (map_to_list policies) in
  raise ValueError "policies must cover the exact candidate instrument keys"
    when negb (bool_decide (dom policies = (list_to_set keys : gset string)));;
  Ok {| m_scope := scope; Capacity.candidates := candidates;
        Capacity.instruments_per_connection := per_connection; Capacity.policies := policies |}.

Record ExchangeCapacityAdmission : Type := {
  connections_available : Z; connections_used : Z; connections_by_scope : gmap CatalogScope Z;
  admissions : gmap CatalogScope CapacityAdmission
}.

Definition _scope_key (scope : CatalogScope) : string * string :=
  (exchange_value (sc_exchange scope), market_value (sc_market scope)).
Definition scope_leb : string * string -> string * string -> bool := lex_leb String.eqb string_leb string_leb.

Definition exchange_admission_init (connections_available connections_used : Z)
    (connections_by_scope : gmap CatalogScope Z) (admissions : gmap CatalogScope CapacityAdmission)
    : result ExchangeCapacityAdmission :=
  let! available := _integer connections_available "connections_available" 0 in
  let! used := _integer connections_used "connections_used" 0 in
  raise ValueError "connections_used exceeds connections_available" when available <? used;;
  raise ValueError "connection and admission scopes must match"
    when negb (bool_decide ((dom connections_by_scope : gset CatalogScope) = dom admissions));;
  let! _ := check_all (fun sc => _integer sc.2 "scope connections" 0)
              (py_sorted (on_key (fun sc => _scope_key sc.1) scope_leb) (map_to_list connections_by_scope)) in
  raise ValueError "scope connections must sum to connections_used"
    when negb (msum (fun n => n) connections_by_scope =? used);;
  Ok {| Capacity.connections_available := available; Capacity.connections_used := used;
        Capacity.connections_by_scope := connections_by_scope; Capacity.admissions := admissions |}.

Definition _connection_chunk (demand : ScopedCapacityDemand) (allocated_connections : Z)
    : list CapacityCandidate :=
  let start := allocated_connections * instruments_per_connection demand in
  take (Z.to_nat (instruments_per_connection demand))
    (drop (Z.to_nat start) (in_admission_order (candidates demand))).

(** The key by which [min] compares the options, whose longest chunk has [maximum_chunk]
    candidates. *)
Definition option_key (maximum_chunk : nat) (option : ScopedCapacityDemand * list CapacityCandidate)
    : list Order * (string * string) :=
  ((_admission_order <$> option.2) ++ replicate (maximum_chunk - length option.2) (3, MAX_INT64 + 1, ""),
   _scope_key (m_scope option.1)).
Definition option_leb : list Order * (string * string) -> list Order * (string * string) -> bool :=
  lex_leb (fun a b => bool_decide (a = b)) (list_lex (fun a b => bool_decide (a = b)) order_leb) scope_leb.

(** [min] is the first of the least options. *)
Definition _best_connection_scope (options : list (ScopedCapacityDemand * list CapacityCandidate))
    : option CatalogScope :=
  let maximum_chunk := foldr Nat.max 0%nat ((fun o => length o.2) <$> options) in
  (fun o => m_scope o.1) <$> head (py_sorted (on_key (option_key maximum_chunk) option_leb) options).

Definition connections_of (allocations : gmap CatalogScope Z) (demand : ScopedCapacityDemand) : Z :=
  default 0 (allocations !! m_scope demand).

(** The demands that still have candidates without a connection. *)
Definition connection_options (ordered : list ScopedCapacityDemand) (allocations : gmap CatalogScope Z)
    : list (ScopedCapacityDemand * list CapacityCandidate) :=
  filter (fun o => o.2 <> [])
    ((fun d => (d, _connection_chunk d (connections_of allocations d))) <$> ordered).

(** The loop [while remaining], which hands out one connection a turn. *)
Fixpoint allocate (remaining : nat) (ordered : list ScopedCapacityDemand) (allocations : gmap CatalogScope Z)
    : gmap CatalogScope Z :=
  match remaining with
  | O => allocations
  | S remaining =>
      match _best_connection_scope (connection_options ordered allocations) with
      | None => allocations
      | Some scope =>
          allocate remaining ordered (<[scope := default 0 (allocations !! scope) + 1]> allocations)
      end
  end.

Definition reserve_fixed (ordered : list ScopedCapacityDemand) : gmap CatalogScope Z :=
  foldl (fun m d =>
    <[m_scope d := (count_fixed (candidates d) + instruments_per_connection d - 1)
                   / instruments_per_connection d]> m) ∅ ordered.

Definition scoped_error (scope : CatalogScope) (msg : string) : exn :=
  ScopedCapacityError (_scope_key scope).1 (_scope_key scope).2 msg.

(** The admission of one demand, once the connections are shared out. *)
Definition admit_demand (digest : string) (allocations : gmap CatalogScope Z) (demand : ScopedCapacityDemand)
    : result CapacityAdmission :=
  let! admission := admit_candidates (candidates demand)
    (connections_of allocations demand * instruments_per_connection demand) digest DEGRADE in
  raise scoped_error (m_scope demand)
      ("capacity shortfall rejected fail-policy instruments in "
       +:+ exchange_value (sc_exchange (m_scope demand)) +:+ "/" +:+ market_value (sc_market (m_scope demand)))
    when existsb (fun k => bool_decide (policies demand !! k = Some "fail")) (rejected admission);;
  let distinct := elements (list_to_set (map_to_list (policies demand)).*2 : gset string) in
  let report := match distinct with [p] => p | _ => "mixed" end in
  Ok {| admitted := admitted admission; rejected := rejected admission;
        required_slots := required_slots admission; available_slots := available_slots admission;
        a_policy := report; a_config_sha256 := a_config_sha256 admission; warning := warning admission |}.

Definition admit_exchange_capacity (demands : list ScopedCapacityDemand) (ws_connections : Z)
    (config_sha256 : string) : result ExchangeCapacityAdmission :=
  let! available_connections := _integer ws_connections "ws_connections" 0 in
  let! digest := _sha256 config_sha256 in
  raise ValueError "capacity demand scopes must be unique" when negb (unique (m_scope <$> demands));;
  raise ValueError "capacity demands must belong to one exchange"
    when negb (forallb (fun d => bool_decide (Some (sc_exchange (m_scope d))
                                              = (fun d => sc_exchange (m_scope d)) <$> head demands)) demands);;
  let ordered := py_sorted (on_key (fun d => _scope_key (m_scope d)) scope_leb) demands in
  let fixed := reserve_fixed ordered in
  if available_connections <? msum (fun n => n) fixed then
    match last (py_sorted (on_key _scope_key scope_leb)
                  (filter (fun sc => sc.2 <> 0) (map_to_list fixed)).*1) with
    | Some scope => Err (scoped_error scope "fixed pairs exceed available exchange connection capacity")
    | None => Err (ValueError "max() arg is an empty sequence")
    end
  else
    let allocations := allocate (Z.to_nat (available_connections - msum (fun n => n) fixed)) ordered fixed in
    let! admitted := check_all (fun d => let! a := admit_demand digest allocations d in Ok (m_scope d, a)) ordered in
    exchange_admission_init available_connections (msum (fun n => n) allocations) allocations
      (list_to_map admitted).
