(* ===== verification/Admission.v ===== *)
(** What the admission of [selection/capacity.py] does: who is admitted when there are
    too many candidates, and how the connections of an exchange are used. *)
From stdpp Require Import pretty sorting.
From S2P Require Import Prelude PyDecimal Health Domain StorageModels SelectionModels Selector SelectorFacts Capacity.

(** ** Orders *)
#[export] Instance standing_order : LebOrder (lex_leb Z.eqb Z.leb Z.leb).
Proof. apply lex_leb_order; [apply Z.eqb_eq|intros; lia|apply _|apply _]. Qed.

Lemma standing_antisym x y : lex_leb Z.eqb Z.leb Z.leb x y = true -> lex_leb Z.eqb Z.leb Z.leb y x = true -> x = y.
Proof.
  destruct x as [a b], y as [c d]. unfold lex_leb. cbn [fst snd].
  destruct (Z.eqb_spec a c), (Z.eqb_spec c a); intros; f_equal; lia.
Qed.

#[export] Instance order_leb_order : LebOrder order_leb.
Proof.
  apply lex_leb_order; [intros; apply bool_decide_eq_true|apply standing_antisym|apply _|apply _].
Qed.

(** The class of a candidate and its number within the class: lower is better. *)
Definition standing (c : CapacityCandidate) : Z * Z := (_admission_order c).1.
Definition standing_leb (a b : CapacityCandidate) : bool := lex_leb Z.eqb Z.leb Z.leb (standing a) (standing b).

Lemma admission_standing a b : on_key _admission_order order_leb a b = true -> standing_leb a b = true.
Proof.
  unfold on_key, order_leb, standing_leb, standing. unfold lex_leb at 1.
  destruct (bool_decide_reflect ((_admission_order a).1 = (_admission_order b).1)) as [->|]; [|done].
  intros _. destruct (leb_total (lex_leb Z.eqb Z.leb Z.leb) (_admission_order b).1 (_admission_order b).1); done.
Qed.

(** The order of eviction is the reverse of the standing. *)
Lemma eviction_standing a b : is_fixed a = false -> is_fixed b = false ->
  on_key _eviction_order order_leb a b = true -> standing_leb b a = true.
Proof.
  unfold is_fixed, on_key, order_leb, standing_leb, standing, _eviction_order, _admission_order, lex_leb.
  intros Ha Hb. bool_prop.
  destruct (k_priority a), (k_priority b); try done; cbn [fst snd];
    repeat (case_bool_decide || case_bool); try done; simplify_eq; intros; lia.
Qed.

(** ** Filtering *)
(** Elements none of which follows one that is left out are the first ones. *)
Lemma filter_prefix {A} (R : A -> A -> Prop) (P : A -> Prop) `{forall x, Decision (P x)} (l : list A) :
  StronglySorted R l -> (forall x y, x ∈ l -> y ∈ l -> ~ P x -> P y -> ~ R x y) ->
  filter P l = take (length (filter P l)) l.
Proof.
  induction 1 as [|x l Hl IH Hx]; intros HR; [done|]. rewrite filter_cons. destruct (base.decide (P x)) as [HP|HP].
  - cbn. f_equal. apply IH. intros y z Hy Hz. apply HR; by right.
  - rewrite filter_none; [done|]. intros y Hy HPy. apply (HR x y); [left|by right|done|done|].
    by apply (proj1 (Forall_forall _ _) Hx).
Qed.

(** ** Admitting candidates *)
Section Admit.
Context (cs : list CapacityCandidate) (slots : Z).
Hypothesis Hkeys : NoDup (k_key <$> cs).

Definition removable : list CapacityCandidate :=
  py_sorted (on_key _eviction_order order_leb) (filter (fun c => is_fixed c = false) cs).
Definition evicted : list CapacityCandidate :=
  take (Z.to_nat (Z.of_nat (length cs) - slots)) removable.

Lemma candidate_inj a b : a ∈ cs -> b ∈ cs -> k_key a = k_key b -> a = b.
Proof.
  intros [n Hn]%list_elem_of_lookup [m Hm]%list_elem_of_lookup Hk.
  assert (n = m) as ->; [|congruence].
  eapply NoDup_lookup; [exact Hkeys| |]; rewrite list_lookup_fmap; [by rewrite Hn|rewrite Hm; cbn; by rewrite Hk].
Qed.

Lemma removable_elem c : c ∈ removable <-> c ∈ cs /\ is_fixed c = false.
Proof. unfold removable. rewrite elem_of_py_sorted, list_elem_of_filter. naive_solver. Qed.

Lemma evicted_elem c : c ∈ evicted -> c ∈ cs /\ is_fixed c = false.
Proof.
  unfold evicted. intros Hc. apply removable_elem. apply list_elem_of_lookup in Hc as [n Hn].
  apply lookup_take_Some in Hn as [Hn _]. by eapply list_elem_of_lookup_2.
Qed.

Lemma removable_length : Z.of_nat (length removable) = Z.of_nat (length cs) - count_fixed cs.
Proof.
  unfold removable, count_fixed. rewrite py_sorted_length.
  pose proof (Permutation_length (filter_app_complement (fun c => is_fixed c = true) cs)) as H. rewrite length_app in H.
  rewrite (list_filter_iff' (fun c => is_fixed c = false) (fun c => ~ is_fixed c = true)).
  - lia. - intros x _. by rewrite not_true_iff_false.
Qed.

Lemma NoDup_cs : NoDup cs. Proof. by eapply NoDup_fmap_1. Qed.

Lemma evicted_key c : c ∈ cs -> k_key c ∈ k_key <$> evicted <-> c ∈ evicted.
Proof.
  intros Hc. split; [|apply list_elem_of_fmap_2]. intros (r & Hk & Hr)%list_elem_of_fmap.
  by rewrite (candidate_inj c r Hc (proj1 (evicted_elem r Hr)) Hk).
Qed.

(** The candidates that stay, in the order of admission. *)
Definition staying : list CapacityCandidate :=
  filter (fun c => k_key c ∉ k_key <$> evicted) (in_admission_order cs).

Lemma staying_elem c : c ∈ staying <-> c ∈ cs /\ c ∉ evicted.
Proof.
  unfold staying, in_admission_order. rewrite list_elem_of_filter, elem_of_py_sorted.
  split; intros [H1 H2]; split; try done; [by rewrite <- evicted_key|by rewrite evicted_key].
Qed.

Lemma evicted_NoDup : NoDup evicted.
Proof.
  unfold evicted. eapply sublist_NoDup; [|apply sublist_take]. unfold removable.
  apply NoDup_py_sorted, NoDup_filter, NoDup_cs.
Qed.

Lemma staying_perm : staying ++ evicted ≡ₚ cs.
Proof.
  apply NoDup_Permutation.
  - apply NoDup_app. split; [|split; [|apply evicted_NoDup]].
    + unfold staying, in_admission_order. apply NoDup_filter, NoDup_py_sorted, NoDup_cs.
    + intros c Hc. apply staying_elem in Hc as [_ Hc]. exact Hc.
  - apply NoDup_cs.
  - intros c. rewrite elem_of_app, staying_elem. split.
    + intros [[? _]|Hc]; [done|by apply evicted_elem].
    + intros Hc. destruct (base.decide (c ∈ evicted)); [by right|by left].
Qed.

Lemma evicted_first c r : c ∈ staying -> is_fixed c = false -> r ∈ evicted ->
  is_fixed r = false /\ on_key _eviction_order order_leb r c = true.
Proof.
  intros Hc Hf Hr. apply staying_elem in Hc as [Hc Hne]. unfold evicted in *.
  set (n := Z.to_nat _) in *. assert (Hin : c ∈ removable) by by apply removable_elem.
  rewrite <- (take_drop n removable) in Hin. apply elem_of_app in Hin as [Hin|Hin]; [done|].
  split; [apply (evicted_elem r Hr)|].
  assert (Hs : StronglySorted (fun a b => on_key _eviction_order order_leb a b = true) removable) by apply py_sorted_sorted, _.
  rewrite <- (take_drop n removable) in Hs. by apply (StronglySorted_app_1_elem_of _ _ _ r c Hs).
Qed.

(** Nobody who stays, fixed candidates apart, stands behind somebody evicted. *)
Lemma evicted_stand_last c r : c ∈ staying -> is_fixed c = false -> r ∈ evicted -> standing_leb c r = true.
Proof. intros Hc Hf Hr. destruct (evicted_first c r Hc Hf Hr). by apply eviction_standing. Qed.

(** Of equals, those with the smaller keys are evicted. *)
Lemma evicted_ties c r : c ∈ staying -> is_fixed c = false -> r ∈ evicted -> standing c = standing r ->
  string_leb (k_key r) (k_key c) = true.
Proof.
  intros Hc Hf Hr Hst. destruct (evicted_first c r Hc Hf Hr) as [Hfr Ho].
  unfold is_fixed, on_key, order_leb, standing, _eviction_order, _admission_order in *. unfold lex_leb at 1 in Ho.
  bool_prop. destruct (k_priority c), (k_priority r); cbn [fst snd] in *; simplify_eq; try done;
    rewrite bool_decide_eq_true_2 in Ho; congruence.
Qed.

(** Candidates with distinct standings: those who stay are the first in the order. *)
Lemma staying_prefix :
  (forall a b, a ∈ cs -> b ∈ cs -> is_fixed a = false -> is_fixed b = false -> standing a = standing b -> a = b) ->
  staying = take (length staying) (in_admission_order cs).
Proof.
  intros Htie. apply (filter_prefix (fun a b => on_key _admission_order order_leb a b = true)).
  { apply py_sorted_sorted, _. }
  intros x y Hx Hy Hnx Hny Hxy%admission_standing.
  unfold in_admission_order in Hx, Hy. rewrite elem_of_py_sorted in Hx, Hy.
  assert (Hxe : x ∈ evicted) by (apply dec_stable; intros Hn; apply Hnx; by rewrite evicted_key).
  assert (Hys : y ∈ staying) by (apply staying_elem; by rewrite <- evicted_key).
  pose proof (evicted_elem x Hxe) as [_ Hxf]. destruct (is_fixed y) eqn:Ey.
  - unfold is_fixed in *. bool_prop. unfold standing_leb, standing, _admission_order, lex_leb in Hxy.
    rewrite Ey in Hxy. by destruct (k_priority x).
  - pose proof (evicted_stand_last y x Hys Ey Hxe) as Hyx.
    pose proof (standing_antisym _ _ Hxy Hyx) as E. by rewrite (Htie x y) in Hnx.
Qed.

Lemma evicted_length : 0 <= slots -> count_fixed cs <= slots ->
  Z.of_nat (length evicted) = Z.max 0 (Z.of_nat (length cs) - slots).
Proof.
  intros H1 H2. unfold evicted. rewrite length_take. pose proof removable_length. unfold count_fixed in *. lia.
Qed.

Lemma staying_length : 0 <= slots -> count_fixed cs <= slots ->
  Z.of_nat (length staying) = Z.min (Z.of_nat (length cs)) slots.
Proof.
  intros H1 H2. pose proof (Permutation_length staying_perm) as H. rewrite length_app in H.
  pose proof (evicted_length H1 H2). lia.
Qed.

Lemma nobody_evicted : Z.of_nat (length cs) <= slots -> evicted = [] /\ staying = in_admission_order cs.
Proof.
  intros Hl. assert (E : evicted = []).
  { unfold evicted. by replace (Z.to_nat _) with 0%nat by lia. }
  split; [done|]. unfold staying. rewrite E. apply filter_all. intros x _. apply not_elem_of_nil.
Qed.

Lemma admit_eq sha policy : 0 <= slots <= MAX_INT64 -> config_sha256_ok sha = true -> policy ∈ [DEGRADE; "fail"] ->
  admit_candidates cs slots sha policy
  = let n := Z.of_nat (length cs) in
    if slots <? count_fixed cs then Err (CapacityError "fixed pairs exceed available capacity")
    else if (slots <? n) && String.eqb policy "fail"
    then Err (CapacityError ("capacity shortfall: required " +:+ pretty n +:+ ", available " +:+ pretty slots))
    else Ok {|
      admitted := k_key <$> staying; rejected := k_key <$> evicted; required_slots := n; available_slots := slots;
      a_policy := policy; a_config_sha256 := sha;
      warning := if slots <? n then Some {| w_rejected := k_key <$> evicted; w_required_slots := n;
                   w_available_slots := slots; w_config_sha256 := sha;
                   w_reason := "selection exceeds healthy transport capacity" |} else None |}.
Proof.
  intros Hs Hsha Hp. unfold admit_candidates, _capacity_policy, _sha256, unique.
  rewrite integer_min_ok, Hsha, !bool_decide_eq_true_2 by done. cbn [rbind negb raise_if]. cbv zeta.
  destruct (slots <? count_fixed cs); [done|]. cbn [raise_if].
  destruct (Z.leb_spec (Z.of_nat (length cs)) slots) as [Hl|Hl].
  - rewrite (proj2 (Z.ltb_ge _ _)) by lia. cbn [andb]. by destruct (nobody_evicted Hl) as [-> ->].
  - rewrite (proj2 (Z.ltb_lt _ _)) by lia. cbn [andb]. by destruct (String.eqb policy "fail").
Qed.
End Admit.

(** C31: who is admitted.  With fewer slots than fixed candidates, or too few slots under
    the policy [fail], the call raises [CapacityError]; otherwise all slots are used as
    far as there are candidates, every fixed candidate is admitted, nobody else who is
    admitted has a worse standing than somebody rejected, the admitted are in order of
    admission, and a warning names the rejected.  Of candidates that stand equal those with the smaller
    keys are rejected, although they come first in the order of admission; if no two
    stand equal, the admitted are just the first ones in that order. *)
Theorem admit_exact (cs : list CapacityCandidate) (slots : Z) (sha policy : string) :
  NoDup (k_key <$> cs) -> 0 <= slots <= MAX_INT64 -> config_sha256_ok sha = true ->
  policy ∈ [DEGRADE; "fail"] ->
  match admit_candidates cs slots sha policy with
  | Ok a =>
      count_fixed cs <= slots /\ (policy = "fail" -> Z.of_nat (length cs) <= slots) /\
      (exists stay out, admitted a = k_key <$> stay /\ rejected a = k_key <$> out /\ stay ++ out ≡ₚ cs /\
         Z.of_nat (length stay) = Z.min (Z.of_nat (length cs)) slots /\
         StronglySorted (fun c d => order_leb (_admission_order c) (_admission_order d) = true) stay /\
         (forall r, r ∈ out -> is_fixed r = false /\
            forall c, c ∈ stay -> is_fixed c = false -> standing_leb c r = true /\
              (standing c = standing r -> string_leb (k_key r) (k_key c) = true)) /\
         ((forall c d, c ∈ cs -> d ∈ cs -> is_fixed c = false -> is_fixed d = false ->
             standing c = standing d -> c = d) -> stay = take (Z.to_nat slots) (in_admission_order cs))) /\
      w_rejected <$> warning a = (if slots <? Z.of_nat (length cs) then Some (rejected a) else None)
  | Err (CapacityError _) => slots < count_fixed cs \/ policy = "fail" /\ slots < Z.of_nat (length cs)
  | Err _ => False
  end.
Proof.
  intros Hk Hs Hsha Hp. rewrite admit_eq by done. cbv zeta.
  destruct (Z.ltb_spec slots (count_fixed cs)) as [|Hfix]; [by left|].
  destruct (Z.ltb_spec slots (Z.of_nat (length cs))) as [Hlt|Hge]; cbn [andb].
  - destruct (String.eqb_spec policy "fail") as [->|Hnf]; [by right|].
    split; [done|]. split; [done|]. split; [|done]. exists (staying cs slots), (evicted cs slots).
    split_and!; try done.
    + by apply staying_perm.
    + apply staying_length; [done|lia|done].
    + apply StronglySorted_filter', py_sorted_sorted, _.
    + intros r Hr. split; [by eapply evicted_elem|]. intros c Hc Hf. split; [by eapply evicted_stand_last|by eapply evicted_ties].
    + intros Htie. rewrite (staying_prefix cs slots Hk Htie). f_equal.
      pose proof (staying_length cs slots Hk (proj1 Hs) Hfix). lia.
  - split; [done|]. split; [done|]. split; [|done]. destruct (nobody_evicted cs slots Hge) as [-> Est]. rewrite Est.
    exists (in_admission_order cs), []. unfold in_admission_order. split_and!; try done.
    + by rewrite app_nil_r, py_sorted_perm.
    + rewrite py_sorted_length. lia.
    + apply py_sorted_sorted, _.
    + intros r Hr. by apply elem_of_nil in Hr.
    + intros _. rewrite take_ge; [done|]. rewrite py_sorted_length. lia.
Qed.

(** ** Samples *)
Module AdmissionSamples.
Definition digest : string := String.concat "" (replicate 8 "0123abcd").
Definition fixed (k : string) : CapacityCandidate :=
  {| k_key := k; k_priority := PRIORITY_FIXED; k_first_seen_ns := 5; k_top_n_rank := None |}.
Definition listed (k : string) (t : Z) : CapacityCandidate :=
  {| k_key := k; k_priority := PRIORITY_NEW_LISTING; k_first_seen_ns := t; k_top_n_rank := None |}.
Definition top (k : string) (r : Z) : CapacityCandidate :=
  {| k_key := k; k_priority := PRIORITY_TOP_N; k_first_seen_ns := 5; k_top_n_rank := Some r |}.
Definition crowd : list CapacityCandidate := [top "T2" 2; fixed "F"; top "T1" 1; listed "N2" 9; listed "N1" 7].

(** Of two candidates that stand equal the first in the order of admission goes first. *)
Example tie_evicts_the_first :
  (k_key <$> in_admission_order [top "A" 1; top "B" 1]) = ["A"; "B"] /\
  (let! a := admit_candidates [top "A" 1; top "B" 1] 1 digest DEGRADE in Ok (admitted a)) = Ok ["B"].
Proof. vm_compute. done. Qed.

Lemma admit_exact_witness :
  (let! a := admit_candidates crowd 3 digest DEGRADE in Ok (admitted a)) = Ok ["F"; "N1"; "N2"] /\
  match admit_candidates crowd 3 digest DEGRADE with
  | Ok a =>
      count_fixed crowd <= 3 /\ (DEGRADE = "fail" -> Z.of_nat (length crowd) <= 3) /\
      (exists stay out, admitted a = k_key <$> stay /\ rejected a = k_key <$> out /\ stay ++ out ≡ₚ crowd /\
         Z.of_nat (length stay) = Z.min (Z.of_nat (length crowd)) 3 /\
         StronglySorted (fun c d => order_leb (_admission_order c) (_admission_order d) = true) stay /\
         (forall r, r ∈ out -> is_fixed r = false /\
            forall c, c ∈ stay -> is_fixed c = false -> standing_leb c r = true /\
              (standing c = standing r -> string_leb (k_key r) (k_key c) = true)) /\
         ((forall c d, c ∈ crowd -> d ∈ crowd -> is_fixed c = false -> is_fixed d = false ->
             standing c = standing d -> c = d) -> stay = take 3 (in_admission_order crowd))) /\
      w_rejected <$> warning a = (if 3 <? Z.of_nat (length crowd) then Some (rejected a) else None)
  | Err (CapacityError _) => 3 < count_fixed crowd \/ DEGRADE = "fail" /\ 3 < Z.of_nat (length crowd)
  | Err _ => False
  end.
Proof.
  split; [vm_compute; reflexivity|]. apply (admit_exact crowd 3 digest DEGRADE).
  - apply (bool_decide_unpack _). vm_compute. exact I.
  - unfold MAX_INT64. lia.
  - vm_compute. reflexivity.
  - left.
Defined.
End AdmissionSamples.
