(* ===== verification/Sharing.v ===== *)
(** How [admit_exchange_capacity] of [selection/capacity.py] shares the connections of an
    exchange between its markets. *)
From stdpp Require Import pretty sorting.
From S2P Require Import Prelude PyDecimal Health Domain StorageModels SelectionModels Selector.
From S2P Require Import SelectorFacts Capacity Admission.

(** ** Demands *)
#[export] Instance ScopedCapacityDemand_eq_dec : EqDecision ScopedCapacityDemand.
Proof. solve_decision. Defined.

Definition size_of (d : ScopedCapacityDemand) : Z := Z.of_nat (length (candidates d)).
(** The connections all candidates of a demand need, and those its fixed ones need. *)
Definition wanted (d : ScopedCapacityDemand) : Z := ceil_div (size_of d) (instruments_per_connection d).
Definition wanted_fixed (d : ScopedCapacityDemand) : Z :=
  ceil_div (count_fixed (candidates d)) (instruments_per_connection d).

(** A demand that its constructor let through. *)
Definition demand_ok (d : ScopedCapacityDemand) : Prop :=
  demand_init (m_scope d) (candidates d) (instruments_per_connection d) (policies d) = Ok d.

Lemma demand_ok_inv d : demand_ok d -> NoDup (k_key <$> candidates d) /\
  1 <= instruments_per_connection d <= MAX_INT64 /\
  (dom (policies d) : gset string) = list_to_set (k_key <$> candidates d).
Proof.
  unfold demand_ok, demand_init, unique. intros H. inv_ok. bool_prop.
  match goal with H : _integer _ _ _ = Ok _ |- _ => apply integer_min_inv in H as [_ ?] end. done.
Qed.

Lemma count_fixed_le l : 0 <= count_fixed l <= Z.of_nat (length l).
Proof.
  unfold count_fixed. pose proof (length_filter (fun c => is_fixed c = true) l). lia.
Qed.

Lemma wanted_bounds d : demand_ok d -> 0 <= wanted_fixed d <= wanted d.
Proof.
  intros (_ & Hp & _)%demand_ok_inv. pose proof (count_fixed_le (candidates d)). unfold wanted, wanted_fixed, size_of.
  split; [apply ceil_div_nonneg; lia|]. unfold ceil_div. apply Z.div_le_mono; lia.
Qed.

(** A connection is useful exactly while candidates are left over. *)
Lemma chunk_nonempty d n : demand_ok d -> 0 <= n ->
  _connection_chunk d n <> [] <-> n < wanted d.
Proof.
  intros (_ & Hp & _)%demand_ok_inv Hn. unfold _connection_chunk, wanted, size_of.
  pose proof (ceil_div_le (Z.of_nat (length (candidates d))) (instruments_per_connection d) n ltac:(lia)) as Hc.
  assert (Hlen : length (take (Z.to_nat (instruments_per_connection d))
    (drop (Z.to_nat (n * instruments_per_connection d)) (in_admission_order (candidates d))))
    = (Z.to_nat (instruments_per_connection d) `min`
       (length (candidates d) - Z.to_nat (n * instruments_per_connection d)))%nat).
  { rewrite length_take, length_drop. unfold in_admission_order. by rewrite py_sorted_length. }
  rewrite <- length_zero_iff_nil. rewrite Hlen. split; intros H.
  - apply Z.nle_gt. intros Hle. apply Hc in Hle. apply H. lia.
  - intros E. apply Z.lt_nge in H. apply H, Hc. lia.
Qed.

(** ** Whose turn it is *)
(** The market whose next connection would carry the better candidates comes first: at the first
    place where they differ, the one with the better candidate, and nobody is worse than
    anybody; [tie] decides between equals. *)
Fixpoint ahead (a b : list Order) (tie : bool) : bool :=
  match a, b with
  | [], [] => tie
  | [], _ :: _ => false
  | _ :: _, [] => true
  | x :: a, y :: b => if bool_decide (x = y) then ahead a b tie else order_leb x y
  end.
Definition next_orders (m : gmap CatalogScope Z) (d : ScopedCapacityDemand) : list Order :=
  _admission_order <$> _connection_chunk d (connections_of m d).
Definition before (m : gmap CatalogScope Z) (d e : ScopedCapacityDemand) : bool :=
  ahead (next_orders m d) (next_orders m e) (scope_leb (_scope_key (m_scope d)) (_scope_key (m_scope e))).

(** Up to [n] connections go out one by one, each to the first of the markets that can use one,
    until none can. *)
Inductive shared (ds : list ScopedCapacityDemand) : nat -> gmap CatalogScope Z -> gmap CatalogScope Z -> Prop :=
| shared_out m : shared ds 0 m m
| shared_served n m : (forall d, d ∈ ds -> wanted d <= connections_of m d) -> shared ds n m m
| shared_next n m m' d : d ∈ ds -> connections_of m d < wanted d ->
    (forall e, e ∈ ds -> connections_of m e < wanted e -> before m d e = true) ->
    shared ds n (<[m_scope d := connections_of m d + 1]> m) m' -> shared ds (S n) m m'.

#[local] Abbreviation eqb_order := (fun a b : Order => bool_decide (a = b)).
Lemma order_leb_antisym x y : order_leb x y = true -> order_leb y x = true -> x = y.
Proof.
  destruct x as [a b], y as [c d]. unfold order_leb, lex_leb. cbn [fst snd].
  destruct (bool_decide_reflect (a = c)) as [->|Hne], (bool_decide_reflect (c = c)) as [_|]; try done.
  - intros. f_equal. by apply string_leb_antisym.
  - rewrite bool_decide_eq_false_2 by (intros E; by rewrite E in Hne). intros H1 H2. by destruct Hne; apply standing_antisym.
Qed.
#[local] Instance orders_order : LebOrder (list_lex eqb_order order_leb).
Proof.
  split.
  - induction x as [|x a IH]; intros [|y b]; cbn; try by (left + right). destruct (bool_decide_reflect (x = y)) as [->|Hne].
    + rewrite bool_decide_eq_true_2 by done. apply IH.
    + rewrite bool_decide_eq_false_2 by (by intros E; rewrite E in Hne). exact (leb_total order_leb x y).
  - induction x as [|x a IH]; intros [|y b] [|z c]; cbn; try done.
    destruct (bool_decide_reflect (x = y)) as [->|Hne], (bool_decide_reflect (y = z)) as [->|Hne'].
    + apply IH.
    + by intros.
    + by rewrite bool_decide_eq_false_2.
    + intros H1 H2. destruct (bool_decide_reflect (x = z)) as [->|]; [|exact (leb_trans order_leb x y z H1 H2)].
      destruct Hne. by apply order_leb_antisym.
Qed.
Lemma orders_antisym a b : list_lex eqb_order order_leb a b = true -> list_lex eqb_order order_leb b a = true -> a = b.
Proof.
  revert b. induction a as [|x a IH]; intros [|y b]; cbn; try done. destruct (bool_decide_reflect (x = y)) as [->|Hne].
  - rewrite bool_decide_eq_true_2 by done. intros. f_equal. by apply IH.
  - rewrite bool_decide_eq_false_2 by (by intros E; rewrite E in Hne). intros H1 H2. by destruct Hne; apply order_leb_antisym.
Qed.
#[local] Instance option_order : LebOrder option_leb.
Proof.
  apply lex_leb_order; [intros; apply bool_decide_eq_true|apply orders_antisym|apply _|].
  apply lex_leb_order; [apply String.eqb_eq|intros; by apply string_leb_antisym|apply _|apply _].
Qed.

(** Filling up with an order that is behind all others is to prefer the longer list. *)
Definition nobody : Order := (3, MAX_INT64 + 1, "").
Lemma behind c : order_leb (_admission_order c) nobody = true /\ order_leb nobody (_admission_order c) = false /\ _admission_order c <> nobody.
Proof. unfold _admission_order. by destruct (k_priority c). Qed.
Lemma padded_is (a b : list CapacityCandidate) n sa sb : (length a <= n)%nat -> (length b <= n)%nat ->
  option_leb ((_admission_order <$> a) ++ replicate (n - length a) nobody, sa) ((_admission_order <$> b) ++ replicate (n - length b) nobody, sb) =
  ahead (_admission_order <$> a) (_admission_order <$> b) (scope_leb sa sb).
Proof.
  unfold option_leb, lex_leb. cbn [fst snd]. revert b n. induction a as [|x a IH]; intros [|y b] n Ha Hb.
  - by rewrite bool_decide_eq_true_2.
  - destruct n as [|n]; [cbn in Hb; lia|]. destruct (behind y) as (_ & H2 & H3). cbn. rewrite !bool_decide_eq_false_2; [done|congruence|congruence].
  - destruct n as [|n]; [cbn in Ha; lia|]. destruct (behind x) as (H1 & _ & H3). cbn. rewrite !bool_decide_eq_false_2; [done|congruence|congruence].
  - destruct n as [|n]; [cbn in Ha; lia|]. cbn [length fmap list_fmap app Nat.sub ahead list_lex] in *. specialize (IH b n ltac:(lia) ltac:(lia)).
    destruct (bool_decide_reflect (_admission_order x = _admission_order y)) as [->|Hne].
    + rewrite <- IH. case_bool_decide as E1; case_bool_decide as E2; try done; congruence.
    + rewrite bool_decide_eq_false_2; [done|congruence].
Qed.

(** ** Allocations *)
Section Allocate.
Context (ds : list ScopedCapacityDemand).
Hypothesis Hok : Forall demand_ok ds.
Hypothesis Hscopes : NoDup (m_scope <$> ds).

Definition covers (m : gmap CatalogScope Z) : Prop :=
  (dom m : gset CatalogScope) = list_to_set (m_scope <$> ds) /\ forall k n, m !! k = Some n -> 0 <= n.

Lemma scope_inj a b : a ∈ ds -> b ∈ ds -> m_scope a = m_scope b -> a = b.
Proof.
  intros [n Hn]%list_elem_of_lookup [m Hm]%list_elem_of_lookup Hk.
  assert (n = m) as ->; [|congruence].
  eapply NoDup_lookup; [exact Hscopes| |]; rewrite list_lookup_fmap; [by rewrite Hn|rewrite Hm; cbn; by rewrite Hk].
Qed.

Lemma covers_at m d : covers m -> d ∈ ds -> m !! m_scope d = Some (connections_of m d) /\ 0 <= connections_of m d.
Proof.
  intros [Hdom Hpos] Hd. assert (is_Some (m !! m_scope d)) as [n Hn].
  { apply elem_of_dom. rewrite Hdom, elem_of_list_to_set. by apply list_elem_of_fmap_2. }
  unfold connections_of. rewrite Hn. split; [done|]. by apply (Hpos (m_scope d)).
Qed.

(** The connections in use, summed demand by demand. *)
Lemma covers_sum m : covers m -> msum (fun n => n) m = zsum (connections_of m <$> ds).
Proof.
  intros Hm. unfold msum.
  assert (HP : map_to_list m ≡ₚ (fun d => (m_scope d, connections_of m d)) <$> ds).
  { apply NoDup_Permutation.
    - apply NoDup_map_to_list.
    - apply (NoDup_fmap_1 fst). rewrite <- list_fmap_compose. exact Hscopes.
    - intros [k n]. rewrite elem_of_map_to_list, list_elem_of_fmap. split.
      + intros Hk. assert (Hin : k ∈ (dom m : gset CatalogScope)) by (apply elem_of_dom; by exists n).
        rewrite (proj1 Hm), elem_of_list_to_set in Hin. apply list_elem_of_fmap in Hin as (d & -> & Hd).
        exists d. split; [|done]. unfold connections_of. by rewrite Hk.
      + intros (d & [= -> ->] & Hd). by apply covers_at. }
  rewrite HP, <- list_fmap_compose. done.
Qed.

Lemma options_iff m d : covers m -> d ∈ ds ->
  (d, _connection_chunk d (connections_of m d)) ∈ connection_options ds m <-> connections_of m d < wanted d.
Proof.
  intros Hm Hd. unfold connection_options. rewrite list_elem_of_filter, list_elem_of_fmap. cbn [snd].
  rewrite chunk_nonempty by ((by apply covers_at) || by apply (proj1 (Forall_forall _ _) Hok)).
  split; [by intros [? _]|]. intros H. split; [done|]. by exists d.
Qed.

Lemma best_none l : _best_connection_scope l = None <-> l = [].
Proof.
  unfold _best_connection_scope. split; [|by intros ->]. intros H.
  destruct (py_sorted _ l) as [|o l'] eqn:E; [|done].
  apply (f_equal length) in E. rewrite py_sorted_length in E. by destruct l.
Qed.

Lemma max_length {A B} (l : list (A * list B)) o : o ∈ l -> (length o.2 <= foldr Nat.max 0 ((fun o => length o.2) <$> l))%nat.
Proof.
  induction l as [|x l IH]; [by intros ?%elem_of_nil|]. intros [->|Ho]%elem_of_cons; cbn; [lia|]. specialize (IH Ho). lia.
Qed.
(** The market chosen is the first of those that can use a connection. *)
Lemma best_first m s : covers m -> _best_connection_scope (connection_options ds m) = Some s ->
  exists d, d ∈ ds /\ m_scope d = s /\ connections_of m d < wanted d /\
    forall e, e ∈ ds -> connections_of m e < wanted e -> before m d e = true.
Proof.
  intros Hm Hb. unfold _best_connection_scope in Hb. set (n := foldr _ _ _) in Hb. destruct (head _) as [o|] eqn:Eh; [|done]. injection Hb as <-.
  apply (py_sorted_head (on_key (option_key n) option_leb)) in Eh as [Ho Hmin].
  assert (Hin : forall o, o ∈ connection_options ds m -> exists d, d ∈ ds /\ o = (d, _connection_chunk d (connections_of m d))).
  { intros o' Ho'. unfold connection_options in Ho'. apply list_elem_of_filter in Ho' as [_ (d & -> & Hd)%list_elem_of_fmap]. by exists d. }
  destruct (Hin o Ho) as (d & Hd & ->). exists d. split; [done|]. split; [done|]. split; [by apply options_iff|]. intros e He Hlt.
  apply options_iff in Hlt; [|done..]. specialize (Hmin _ Hlt). unfold on_key, option_key in Hmin. cbn [fst snd] in Hmin. fold nobody in Hmin.
  rewrite padded_is in Hmin; [done| |]; unfold n; [apply (max_length _ _ Ho)|apply (max_length _ _ Hlt)].
Qed.

Lemma best_some m s : covers m -> _best_connection_scope (connection_options ds m) = Some s ->
  exists d, d ∈ ds /\ m_scope d = s /\ connections_of m d < wanted d.
Proof. intros Hm Hb. destruct (best_first m s Hm Hb) as (d & H1 & H2 & H3 & _). by exists d. Qed.

Lemma covers_step m d : covers m -> d ∈ ds ->
  let m' := <[m_scope d := default 0 (m !! m_scope d) + 1]> m in
  covers m' /\ msum (fun n => n) m' = msum (fun n => n) m + 1 /\
  forall x, x ∈ ds -> connections_of m' x = connections_of m x + (if base.decide (x = d) then 1 else 0).
Proof.
  intros Hm Hd m'. destruct (covers_at m d Hm Hd) as [Hn Hp]. unfold m'. rewrite Hn. cbn [default id].
  split; [split|split].
  - rewrite dom_insert_L, (proj1 Hm).
    assert (m_scope d ∈ (list_to_set (m_scope <$> ds) : gset CatalogScope)).
    { rewrite elem_of_list_to_set. by apply list_elem_of_fmap_2. }
    set_solver.
  - intros k n [[_ <-]|[_ Hk]]%lookup_insert_Some; [cbn; lia|]. by apply (proj2 Hm k).
  - rewrite (msum_update _ _ _ _ _ Hn). cbn. lia.
  - intros x Hx. unfold connections_of at 1. rewrite lookup_insert.
    destruct (base.decide (m_scope d = m_scope x)) as [E|E], (base.decide (x = d)) as [->|Hne]; cbn; try done.
    + by destruct Hne; apply scope_inj.
    + fold (connections_of m x). lia.
Qed.

(** The loop gives connections while they last and are of use. *)
Lemma allocate_spec n : forall m, covers m -> (forall d, d ∈ ds -> connections_of m d <= wanted d) ->
  let m' := allocate n ds m in
  covers m' /\
  (forall d, d ∈ ds -> connections_of m d <= connections_of m' d <= wanted d) /\
  msum (fun n => n) m' <= msum (fun n => n) m + Z.of_nat n /\
  (msum (fun n => n) m' < msum (fun n => n) m + Z.of_nat n ->
   forall d, d ∈ ds -> connections_of m' d = wanted d).
Proof.
  induction n as [|n IH]; intros m Hm Hle; cbn [allocate].
  { split; [done|]. split; [intros d Hd; by split; [|apply Hle]|]. split; lia. }
  destruct (_best_connection_scope (connection_options ds m)) as [s|] eqn:E.
  - destruct (best_some m s Hm E) as (d & Hd & <- & Hlt). destruct (covers_step m d Hm Hd) as (Hm' & Hs & Hc).
    cbv zeta in Hm', Hs, Hc.
    destruct (IH _ Hm') as (H1 & H2 & H3 & H4).
    { intros x Hx. rewrite Hc by done. pose proof (Hle x Hx). destruct (base.decide (x = d)) as [->|]; lia. }
    split; [done|]. split; [|split].
    + intros x Hx. specialize (H2 x Hx). rewrite Hc in H2 by done. destruct (base.decide (x = d)); lia.
    + lia.
    + intros H. apply H4. lia.
  - apply best_none in E. split; [done|]. split; [intros d Hd; by split; [|apply Hle]|]. split; [lia|].
    intros _ d Hd. pose proof (options_iff m d Hm Hd) as Ho. rewrite E in Ho.
    pose proof (Hle d Hd). destruct (Z.lt_trichotomy (connections_of m d) (wanted d)) as [Hlt|[|]]; [|done|lia].
    apply Ho in Hlt. by apply elem_of_nil in Hlt.
Qed.

Lemma allocate_shared n : forall m, covers m -> shared ds n m (allocate n ds m).
Proof.
  induction n as [|n IH]; intros m Hm; cbn [allocate]; [constructor|].
  destruct (_best_connection_scope (connection_options ds m)) as [s|] eqn:E.
  - destruct (best_first m s Hm E) as (d & Hd & <- & Hlt & Hfirst). destruct (covers_step m d Hm Hd) as (Hm' & _ & _).
    apply (shared_next _ _ _ _ d Hd Hlt Hfirst). by apply IH.
  - apply best_none in E. apply shared_served. intros d Hd. apply Z.nlt_ge. intros Hlt. apply (options_iff m d Hm Hd) in Hlt.
    rewrite E in Hlt. by apply elem_of_nil in Hlt.
Qed.

Lemma reserve_fixed_covers : covers (reserve_fixed ds) /\
  forall d, d ∈ ds -> connections_of (reserve_fixed ds) d = wanted_fixed d.
Proof.
  assert (Hat : forall k n, reserve_fixed ds !! k = Some n <-> exists d, d ∈ ds /\ m_scope d = k /\ wanted_fixed d = n).
  { intros k n. unfold reserve_fixed. rewrite (foldl_insert_lookup m_scope wanted_fixed), lookup_empty by done.
    naive_solver. }
  assert (Hcov : covers (reserve_fixed ds)).
  { split.
    - apply set_eq. intros k. rewrite elem_of_dom, elem_of_list_to_set. split.
      + intros [n Hn]. apply Hat in Hn as (d & Hd & <- & _). by apply list_elem_of_fmap_2.
      + intros (d & -> & Hd)%list_elem_of_fmap. exists (wanted_fixed d). apply Hat. by exists d.
    - intros k n Hn. apply Hat in Hn as (d & Hd & _ & <-). apply wanted_bounds. by apply (proj1 (Forall_forall _ _) Hok). }
  split; [done|]. intros d Hd. destruct (covers_at _ d Hcov Hd) as [Hn _].
  apply Hat in Hn as (d' & Hd' & Hs & <-). by rewrite (scope_inj d' d Hd' Hd Hs).
Qed.
End Allocate.

Lemma shared_perm ds ds' n m m' : (forall d : ScopedCapacityDemand, d ∈ ds <-> d ∈ ds') -> shared ds n m m' -> shared ds' n m m'.
Proof.
  intros Hp. induction 1 as [m|n m Hall|n m m' d Hd Hlt Hfirst _ IH]; [constructor| |].
  - apply shared_served. intros d Hd. by apply Hall, Hp.
  - apply (shared_next _ _ _ _ d); [by apply Hp|done| |done]. intros e He. by apply Hfirst, Hp.
Qed.

(** ** The admission of one demand *)
(** What [admission] grants [d] on [n] connections. *)
Definition granted (d : ScopedCapacityDemand) (n : Z) (admission : CapacityAdmission) : Prop :=
  admitted admission ++ rejected admission ≡ₚ k_key <$> candidates d /\
  Z.of_nat (length (admitted admission)) = Z.min (size_of d) (n * instruments_per_connection d) /\
  (forall c, c ∈ candidates d -> is_fixed c = true -> k_key c ∈ admitted admission) /\
  (forall k, k ∈ rejected admission -> policies d !! k <> Some "fail").

(** The admission of all candidates of [d] on [n] connections by standing alone. *)
Definition by_standing (sha : string) (d : ScopedCapacityDemand) (n : Z) (a : CapacityAdmission) : Prop :=
  admit_candidates (candidates d) (n * instruments_per_connection d) sha DEGRADE = Ok a.

Definition rejection_error (d : ScopedCapacityDemand) : exn :=
  scoped_error (m_scope d) ("capacity shortfall rejected fail-policy instruments in "
    +:+ exchange_value (sc_exchange (m_scope d)) +:+ "/" +:+ market_value (sc_market (m_scope d))).

Lemma admit_demand_cases sha m d : let n := connections_of m d in
  demand_ok d -> wanted_fixed d <= n -> n * instruments_per_connection d <= MAX_INT64 ->
  config_sha256_ok sha = true ->
  exists b, by_standing sha d n b /\
  match admit_demand sha m d with
  | Ok a => granted d n a /\ admitted a = admitted b /\ rejected a = rejected b
  | Err e => e = rejection_error d /\ n < wanted d /\ exists k, k ∈ rejected b /\ policies d !! k = Some "fail"
  end.
Proof.
  intros n Hd Hfix Hmax Hsha. pose proof (wanted_bounds d Hd). destruct (demand_ok_inv d Hd) as (Hk & Hp & Hdom).
  pose proof Hfix as Hle. unfold wanted_fixed in Hle. apply ceil_div_le in Hle; [|lia].
  pose proof (count_fixed_le (candidates d)) as Hc.
  set (per := instruments_per_connection d) in *.
  unfold by_standing, admit_demand. fold n per. rewrite (admit_eq (candidates d) (n * per) Hk); [|lia|done|set_solver]. cbv zeta.
  rewrite (proj2 (Z.ltb_ge _ _)) by lia. rewrite andb_false_r. eexists. split; [done|]. cbn [rbind rejected admitted].
  destruct (existsb _ _) eqn:E; cbn [raise_if].
  - apply existsb_exists in E as (k & Hin%list_elem_of_In & Hpol). bool_prop.
    split; [done|]. split; [|by exists k]. apply Z.nle_gt. intros Hw. unfold wanted in Hw.
    apply ceil_div_le in Hw; [|lia]. fold per in Hw.
    destruct (nobody_evicted (candidates d) (n * per)) as [E _]; [done|]. rewrite E in Hin. by apply elem_of_nil in Hin.
  - split; [|done]. split; [|split; [|split]]; cbn [admitted rejected].
    + rewrite <- fmap_app. by rewrite staying_perm.
    + rewrite length_fmap. unfold size_of. apply staying_length; [done|lia|done].
    + intros c Hc' Hf. apply list_elem_of_fmap_2, staying_elem; [done|]. split; [done|].
      intros He. apply evicted_elem in He as [_ He]. by rewrite Hf in He.
    + intros k Hin Hpol. apply not_true_iff_false in E. apply E, existsb_exists. exists k.
      split; [by apply list_elem_of_In|]. by apply bool_decide_eq_true_2.
Qed.

Lemma exchange_admission_ok w m (adm : gmap CatalogScope CapacityAdmission) : 0 <= w <= MAX_INT64 ->
  (forall k n, m !! k = Some n -> 0 <= n) -> msum (fun n => n) m <= w ->
  (dom m : gset CatalogScope) = dom adm ->
  exchange_admission_init w (msum (fun n => n) m) m adm
  = Ok {| connections_available := w; connections_used := msum (fun n => n) m;
          connections_by_scope := m; admissions := adm |}.
Proof.
  intros Hw Hpos Hle Hdom. assert (Hs : Forall (fun n => 0 <= n) ((fun kc : CatalogScope * Z => kc.2) <$> map_to_list m)).
  { apply Forall_forall. intros n ([k v] & -> & Hin)%list_elem_of_fmap.
    apply elem_of_map_to_list in Hin. by eapply Hpos. }
  pose proof (zsum_nonneg _ Hs). assert (0 <= msum (fun n => n) m) by done.
  unfold exchange_admission_init. rewrite !integer_min_ok by lia. cbn [rbind].
  rewrite (proj2 (Z.ltb_ge _ _)) by done. cbn [raise_if]. rewrite bool_decide_eq_true_2 by done. cbn [negb raise_if].
  rewrite (check_all_ok _ snd).
  - cbn [rbind]. by rewrite Z.eqb_refl.
  - intros [k n] Hin. rewrite elem_of_py_sorted in Hin. apply integer_min_ok. cbn [snd].
    assert (Hn : n ∈ (fun kc : CatalogScope * Z => kc.2) <$> map_to_list m) by by apply (list_elem_of_fmap_2 snd) in Hin.
    pose proof (zsum_elem_le n _ Hs Hn) as Hsum. fold (msum (fun n : Z => n) m) in Hsum.
    pose proof (proj1 (Forall_forall _ _) Hs n Hn). cbn in *. lia.
Qed.

(** ** The exchange *)
Section Exchange.
Context (ds : list ScopedCapacityDemand) (w : Z) (sha : string).
Hypothesis Hok : Forall demand_ok ds.
Hypothesis Hscopes : NoDup (m_scope <$> ds).

Definition ordered : list ScopedCapacityDemand :=
  py_sorted (on_key (fun d => _scope_key (m_scope d)) scope_leb) ds.

Lemma ordered_perm : ordered ≡ₚ ds. Proof. apply py_sorted_perm. Qed.
Lemma ordered_ok : Forall demand_ok ordered. Proof. by rewrite ordered_perm. Qed.
Lemma ordered_scopes : NoDup (m_scope <$> ordered). Proof. by rewrite ordered_perm. Qed.

Lemma fixed_covers : covers ordered (reserve_fixed ordered) /\
  forall d, d ∈ ds -> connections_of (reserve_fixed ordered) d = wanted_fixed d.
Proof.
  destruct (reserve_fixed_covers ordered ordered_ok ordered_scopes) as [H1 H2]. split; [done|].
  intros d Hd. apply H2. by rewrite ordered_perm.
Qed.

Lemma sum_over m f : covers ordered m -> (forall d, d ∈ ds -> connections_of m d = f d) ->
  msum (fun n => n) m = zsum (f <$> ds).
Proof.
  intros Hm Hf. rewrite (covers_sum ordered ordered_scopes m Hm), ordered_perm. f_equal.
  apply list_fmap_ext. intros i d Hd%list_elem_of_lookup_2. by apply Hf.
Qed.

(** Somebody has fixed candidates when the reserved connections are too many. *)
Lemma reserved_somebody m : 0 < msum (fun n => n) m ->
  last (py_sorted (on_key _scope_key scope_leb) (filter (fun sc => sc.2 <> 0) (map_to_list m)).*1) <> None.
Proof.
  intros Hpos Hl%last_None. apply (f_equal length) in Hl. rewrite py_sorted_length, length_fmap in Hl.
  apply length_zero_iff_nil in Hl.
  assert (E : msum (fun n => n) m = 0); [|lia]. unfold msum.
  assert (Hall : forall x, x ∈ map_to_list m -> x.2 = 0).
  { intros x Hx. destruct (base.decide (x.2 = 0)) as [|Hne]; [done|].
    assert (Hf : x ∈ filter (fun sc => sc.2 <> 0) (map_to_list m)) by by apply list_elem_of_filter.
    rewrite Hl in Hf. by apply elem_of_nil in Hf. }
  clear Hl. induction (map_to_list m) as [|x l IH]; [done|]. rewrite fmap_cons, zsum_cons.
  rewrite IH by (intros y Hy; apply Hall; by right). by rewrite Hall by left.
Qed.

Lemma reserved_last sc : last (py_sorted (on_key _scope_key scope_leb) (filter (fun sc => sc.2 <> 0) (map_to_list (reserve_fixed ordered))).*1) = Some sc ->
  exists d, d ∈ ds /\ wanted_fixed d <> 0 /\ scoped_error sc "fixed pairs exceed available exchange connection capacity"
    = scoped_error (m_scope d) "fixed pairs exceed available exchange connection capacity".
Proof.
  intros Hl%last_Some_elem_of. rewrite elem_of_py_sorted in Hl. apply list_elem_of_fmap in Hl as ([sc' n] & -> & Hin).
  apply list_elem_of_filter in Hin as [Hne Hin%elem_of_map_to_list]. cbn [snd] in Hne. destruct fixed_covers as [Hcov Hf].
  assert (Hd : sc' ∈ (dom (reserve_fixed ordered) : gset CatalogScope)) by (apply elem_of_dom; by exists n).
  rewrite (proj1 Hcov), elem_of_list_to_set, ordered_perm in Hd. apply list_elem_of_fmap in Hd as (d & -> & Hd). exists d.
  split; [done|]. split; [|done]. rewrite <- (Hf d Hd). unfold connections_of. by rewrite Hin.
Qed.

(** The connections handed out. *)
Definition handed : gmap CatalogScope Z :=
  allocate (Z.to_nat (w - msum (fun n => n) (reserve_fixed ordered))) ordered (reserve_fixed ordered).

Lemma handed_spec : msum (fun n => n) (reserve_fixed ordered) <= w ->
  covers ordered handed /\ msum (fun n => n) handed <= w /\
  (forall d, d ∈ ds -> wanted_fixed d <= connections_of handed d <= wanted d) /\
  (msum (fun n => n) handed < w -> forall d, d ∈ ds -> connections_of handed d = wanted d).
Proof.
  intros Hfit. destruct fixed_covers as [Hcov Hfix].
  destruct (allocate_spec ordered ordered_ok ordered_scopes
    (Z.to_nat (w - msum (fun n => n) (reserve_fixed ordered))) _ Hcov) as (H1 & H2 & H3 & H4).
  { intros d Hd. rewrite ordered_perm in Hd. rewrite Hfix by done. by apply wanted_bounds, (proj1 (Forall_forall _ _) Hok). }
  unfold handed. split; [done|]. split; [lia|]. split.
  - intros d Hd. rewrite <- (Hfix d Hd). apply H2. by rewrite ordered_perm.
  - intros Hlt d Hd. apply H4; [lia|]. by rewrite ordered_perm.
Qed.

Lemma handed_slots d : msum (fun n => n) (reserve_fixed ordered) <= w -> d ∈ ds ->
  w * instruments_per_connection d <= MAX_INT64 ->
  connections_of handed d * instruments_per_connection d <= MAX_INT64.
Proof.
  intros Hfit Hd Hmax. destruct (handed_spec Hfit) as (Hcov & Hle & Hb & _).
  pose proof (proj1 (Forall_forall _ _) Hok d Hd) as (_ & Hp & _)%demand_ok_inv.
  assert (connections_of handed d <= msum (fun n => n) handed); [|nia].
  rewrite (covers_sum ordered ordered_scopes _ Hcov). apply zsum_elem_le.
  - apply Forall_forall. intros n (x & -> & Hx)%list_elem_of_fmap. by apply (covers_at ordered).
  - apply list_elem_of_fmap_2. by rewrite ordered_perm.
Qed.

(** The demands' admissions, by scope. *)
Lemma admitted_by_scope (f : ScopedCapacityDemand -> result CapacityAdmission) items :
  Forall2 (fun d y => (let! a := f d in Ok (m_scope d, a)) = Ok y) ordered items ->
  items.*1 = m_scope <$> ordered /\
  forall d, d ∈ ds -> exists a, f d = Ok a /\ (list_to_map items : gmap CatalogScope CapacityAdmission) !! m_scope d = Some a.
Proof.
  intros HF. assert (Hk : items.*1 = m_scope <$> ordered).
  { induction HF as [|d y l ys Hy HF IH]; [done|]. rewrite !fmap_cons, IH. f_equal. by inv_ok. }
  split; [done|]. intros d Hd. rewrite <- ordered_perm in Hd. apply list_elem_of_lookup in Hd as [n Hn].
  destruct (Forall2_lookup_l _ _ _ _ _ HF Hn) as (y & Hy & Hf). destruct (f d) as [a|] eqn:Ea; [|done].
  cbn in Hf. injection Hf as <-. exists a. split; [done|]. apply elem_of_list_to_map_1.
  - rewrite Hk. apply ordered_scopes. - by eapply list_elem_of_lookup_2.
Qed.
End Exchange.

(** The connections that the fixed candidates need, by market. *)
Definition fixed_shares (ds : list ScopedCapacityDemand) (m : gmap CatalogScope Z) : Prop :=
  covers ds m /\ forall d, d ∈ ds -> connections_of m d = wanted_fixed d.
(** A sharing of [w] connections: the fixed candidates are served, and the others in turn. *)
Definition fair (ds : list ScopedCapacityDemand) (w : Z) (m : gmap CatalogScope Z) : Prop :=
  covers ds m /\ zsum (connections_of m <$> ds) <= w /\
  (forall d, d ∈ ds -> wanted_fixed d <= connections_of m d <= wanted d) /\
  (zsum (connections_of m <$> ds) < w -> forall d, d ∈ ds -> connections_of m d = wanted d) /\
  exists m0, fixed_shares ds m0 /\ shared ds (Z.to_nat (w - zsum (wanted_fixed <$> ds))) m0 m.

Lemma handed_fair ds w : Forall demand_ok ds -> NoDup (m_scope <$> ds) -> msum (fun n => n) (reserve_fixed (ordered ds)) <= w ->
  fair ds w (handed ds w).
Proof.
  intros Hok Hs Hfit. destruct (handed_spec ds w Hok Hs Hfit) as (Hcov & Hle & Hb & Hleft). destruct (fixed_covers ds Hok Hs) as [Hc0 Hf0].
  assert (Hcov' : forall m, covers (ordered ds) m -> covers ds m).
  { intros m [Hd Hp]. split; [|done]. rewrite Hd. apply leibniz_equiv. intros k. rewrite !elem_of_list_to_set. by rewrite ordered_perm. }
  assert (Hsum : zsum (connections_of (handed ds w) <$> ds) = msum (fun n => n) (handed ds w)).
  { symmetry. by apply (sum_over ds Hs). }
  split; [by apply Hcov'|]. rewrite Hsum. split; [done|]. split; [done|]. split; [done|]. exists (reserve_fixed (ordered ds)).
  split; [split; [by apply Hcov'|done]|]. rewrite <- (sum_over ds Hs _ wanted_fixed Hc0 Hf0). unfold handed.
  apply (shared_perm (ordered ds)); [intros d; by rewrite ordered_perm|]. apply allocate_shared; [by apply ordered_ok|by apply ordered_scopes|done].
Qed.

(** C30: how an exchange's connections are shared.  Every market gets the connections its fixed
    instruments need; those left go out one by one, each to the market whose next connection
    would carry the best candidates, until none is left or every market is fully served; no more
    are handed out than there are.  On its connections each market admits its candidates by
    their standing.  If all fixed instruments fit and no instrument under the policy [fail] is
    among those rejected this way, that is the result: all candidates accounted for, the slots
    filled as far as possible, the fixed candidates admitted.  There are only two errors, both a
    [ScopedCapacityError]: the fixed instruments do not fit; or they fit, and in the market named
    by the error an instrument under the policy [fail] is rejected when the connections are
    shared out in this very way. *)
Theorem exchange_capacity_exact (ds : list ScopedCapacityDemand) (w : Z) (sha : string) :
  Forall demand_ok ds -> NoDup (m_scope <$> ds) ->
  (forall d e, d ∈ ds -> e ∈ ds -> sc_exchange (m_scope d) = sc_exchange (m_scope e)) ->
  0 <= w <= MAX_INT64 -> config_sha256_ok sha = true ->
  (forall d, d ∈ ds -> w * instruments_per_connection d <= MAX_INT64) ->
  match admit_exchange_capacity ds w sha with
  | Ok r =>
      zsum (wanted_fixed <$> ds) <= w /\ fair ds w (connections_by_scope r) /\
      connections_available r = w /\ connections_used r = zsum (connections_of (connections_by_scope r) <$> ds) /\
      forall d, d ∈ ds -> let n := connections_of (connections_by_scope r) d in
        exists a b, admissions r !! m_scope d = Some a /\ by_standing sha d n b /\ granted d n a /\
          admitted a = admitted b /\ rejected a = rejected b
  | Err e =>
      w < zsum (wanted_fixed <$> ds) /\ (exists d, d ∈ ds /\ wanted_fixed d <> 0 /\
        e = scoped_error (m_scope d) "fixed pairs exceed available exchange connection capacity") \/
      zsum (wanted_fixed <$> ds) <= w /\ exists m d b k, fair ds w m /\ d ∈ ds /\ by_standing sha d (connections_of m d) b /\
        k ∈ rejected b /\ policies d !! k = Some "fail" /\ e = rejection_error d
  end.
Proof.
  intros Hok Hs Hone Hw Hsha Hmax. unfold admit_exchange_capacity, _sha256, unique.
  rewrite integer_min_ok, Hsha, bool_decide_eq_true_2 by done. cbn [rbind negb raise_if].
  rewrite (proj2 (forallb_forall _ _)); cbn [negb raise_if]; cbv zeta; fold (ordered ds).
  2: { intros d Hd%list_elem_of_In. apply bool_decide_eq_true_2. destruct ds as [|e l]; [by apply elem_of_nil in Hd|]. cbn. f_equal.
       apply Hone; [done|left]. }
  destruct (fixed_covers ds Hok Hs) as [Hcov Hfix]. pose proof (sum_over ds Hs _ wanted_fixed Hcov Hfix) as Hsum.
  destruct (Z.ltb_spec w (msum (fun n => n) (reserve_fixed (ordered ds)))) as [Hlt|Hfit].
  { pose proof (reserved_somebody (reserve_fixed (ordered ds)) ltac:(lia)) as Hsome.
    destruct (last _) as [sc|] eqn:El; [|done]. left. rewrite <- Hsum. split; [done|]. by apply (reserved_last ds). }
  fold (handed ds w). pose proof (handed_fair ds w Hok Hs Hfit) as Hfair. rewrite Hsum in Hfit.
  pose proof Hfair as (Hhc & Hle & Hb & _). rewrite <- Hsum in Hfit.
  assert (Hcase : forall d, d ∈ ds -> _) by exact (fun d Hd => admit_demand_cases sha (handed ds w) d
    (proj1 (Forall_forall _ _) Hok d Hd) (proj1 (Hb d Hd)) (handed_slots ds w Hok Hs d Hfit Hd (Hmax d Hd)) Hsha).
  destruct (handed_spec ds w Hok Hs Hfit) as (Hoc & Hole & _). rewrite Hsum in Hfit.
  pose proof (check_all_cases (fun d => let! a := admit_demand sha (handed ds w) d in Ok (m_scope d, a)) (ordered ds)) as Hall.
  destruct (check_all _ _) as [items|e]; cbn [rbind].
  - destruct (admitted_by_scope ds Hs _ _ Hall) as [Hkeys Hat].
    rewrite exchange_admission_ok; [|done|apply (proj2 Hhc)|done|by rewrite dom_list_to_map_L, Hkeys, (proj1 Hoc)].
    cbn [connections_available connections_used connections_by_scope admissions]. split; [done|]. split; [done|]. split; [done|].
    split; [by apply (sum_over ds Hs)|]. intros d Hd. destruct (Hat d Hd) as (a & Ha & Hlook).
    destruct (Hcase d Hd) as (b & Hst & Hgr). rewrite Ha in Hgr. exists a, b. by split.
  - destruct Hall as (d & Hd & Hf). rewrite ordered_perm in Hd. destruct (Hcase d Hd) as (b & Hst & Hgr).
    destruct (admit_demand sha (handed ds w) d) as [a|e'] eqn:Ed; [done|]. cbn in Hf. injection Hf as ->.
    destruct Hgr as (-> & Hlt & k & Hk & Hpol). right. split; [done|]. exists (handed ds w), d, b, k. by split_and!.
Qed.

(** ** Samples *)
Module SharingSamples.
Import AdmissionSamples.
Definition spot : ScopedCapacityDemand :=
  {| m_scope := {| sc_exchange := BINANCE; sc_market := SPOT |}; candidates := [fixed "A"; top "B" 1; top "C" 2];
     instruments_per_connection := 1; policies := <["A" := "fail"]> (<["B" := DEGRADE]> {["C" := DEGRADE]}) |}.
Definition perpetual : ScopedCapacityDemand :=
  {| m_scope := {| sc_exchange := BINANCE; sc_market := PERPETUAL |}; candidates := [listed "D" 7; top "E" 1];
     instruments_per_connection := 2; policies := <["D" := DEGRADE]> {["E" := DEGRADE]} |}.
Definition markets : list ScopedCapacityDemand := [spot; perpetual].

Lemma markets_shared : exists r, admit_exchange_capacity markets 3 digest = Ok r /\
  connections_by_scope r = <[m_scope spot := 2]> {[m_scope perpetual := 1]}.
Proof. vm_compute. eauto. Qed.

Lemma exchange_capacity_exact_witness : exists r, admit_exchange_capacity markets 3 digest = Ok r /\
  connections_by_scope r = <[m_scope spot := 2]> {[m_scope perpetual := 1]} /\ fair markets 3 (connections_by_scope r).
Proof.
  destruct markets_shared as (r & E & Ec). exists r. split; [exact E|]. split; [exact Ec|].
  assert (H1 : Forall demand_ok markets) by repeat constructor.
  assert (H2 : NoDup (m_scope <$> markets)) by (apply (bool_decide_unpack _); vm_compute; exact I).
  assert (H3 : forall d e, d ∈ markets -> e ∈ markets -> sc_exchange (m_scope d) = sc_exchange (m_scope e)).
  { intros d e Hd He. by repeat (apply elem_of_cons in Hd as [->|Hd] || apply elem_of_cons in He as [->|He]
      || apply elem_of_nil in Hd || apply elem_of_nil in He). }
  assert (H4 : 0 <= 3 <= MAX_INT64) by (unfold MAX_INT64; lia). assert (H5 : config_sha256_ok digest = true) by (vm_compute; reflexivity).
  assert (H6 : forall d, d ∈ markets -> 3 * instruments_per_connection d <= MAX_INT64).
  { unfold MAX_INT64. intros d Hd. repeat apply elem_of_cons in Hd as [->|Hd]; [cbn; lia..|by apply elem_of_nil in Hd]. }
  pose proof (exchange_capacity_exact markets 3 digest H1 H2 H3 H4 H5 H6) as H. rewrite E in H. exact (proj1 (proj2 H)).
Defined.

(** With the policy [fail] on the instrument that stays out there is no result. *)
Definition strict : ScopedCapacityDemand :=
  {| m_scope := m_scope spot; candidates := candidates spot; instruments_per_connection := 1;
     policies := <["A" := "fail"]> (<["B" := DEGRADE]> {["C" := "fail"]}) |}.
Example strict_refused : admit_exchange_capacity [strict; perpetual] 3 digest = Err (rejection_error strict).
Proof. vm_compute. reflexivity. Qed.
Example strict_admitted : match admit_exchange_capacity [strict; perpetual] 4 digest with Ok _ => True | Err _ => False end.
Proof. vm_compute. exact Logic.I. Qed.
End SharingSamples.
