(* ===== verification/PyText.v ===== *)
(** Python's conversions between numbers and text: [str] and [int] of an integer, [str]
    and [Decimal] of a decimal, on ASCII text ([int] and [Decimal] also take digits of
    other scripts).  Texts are lists of bytes here. *)
From stdpp Require Import pretty.
From S2P Require Import Prelude PyDecimal RateLimit StorageModels Selector.

Abbreviation chars := (list Ascii.ascii).
Definition chr (n : nat) : Ascii.ascii := Ascii.ascii_of_nat n.
Definition is_char (n : nat) (c : Ascii.ascii) : bool := Ascii.eqb c (chr n).

(** ** Reading *)
(** A sign, if there is one. *)
Definition signed (cs : chars) : bool * chars :=
  match cs with
  | c :: rest => if is_char 45 c then (true, rest) else if is_char 43 c then (false, rest) else (false, cs)
  | [] => (false, [])
  end.
Definition with_sign (negative : bool) (n : Z) : Z := if negative then - n else n.

(** Digits; single underscores may stand between them. *)
Fixpoint int_digits (cs : chars) : option chars :=
  match cs with
  | [] => None
  | c :: cs =>
      if is_digit c then
        match cs with
        | [] => Some [c]
        | d :: rest => cons c <$> (if is_char 95 d then int_digits rest else int_digits cs)
        end
      else None
  end.

(** [int(s)]; [None] is [ValueError]. *)
Definition int_of_str (s : string) : option Z :=
  let '(negative, cs) := signed (String.list_ascii_of_string (strip s)) in
  (fun ds => with_sign negative (parse_digits ds)) <$> int_digits cs.

(** The mantissa and, after an [e] or [E], the exponent. *)
Fixpoint split_exponent (cs : chars) : chars * option chars :=
  match cs with
  | [] => ([], None)
  | c :: cs =>
      if is_char 69 c || is_char 101 c then ([], Some cs)
      else let '(mantissa, exponent) := split_exponent cs in (c :: mantissa, exponent)
  end.
Definition exponent_of (cs : option chars) : option Z :=
  match cs with
  | None => Some 0
  | Some cs =>
      let '(negative, ds) := signed cs in
      if digits_run ds then Some (with_sign negative (parse_digits ds)) else None
  end.
Definition finite_of (negative : bool) (cs : chars) : option dec :=
  let '(mantissa, exponent) := split_exponent cs in
  let '(whole, fraction) := split_at_dot mantissa in
  let fraction := default [] fraction in
  if digits_run (whole ++ fraction) then
    (fun e => Dec (with_sign negative (parse_digits (whole ++ fraction))) (e - Z.of_nat (length fraction)))
      <$> exponent_of exponent
  else None.

Definition lower_char (c : Ascii.ascii) : Ascii.ascii :=
  let n := Ascii.nat_of_ascii c in if ((65 <=? n) && (n <=? 90))%nat then chr (n + 32) else c.
Fixpoint drop_digits (cs : chars) : chars :=
  match cs with
  | c :: rest => if is_digit c then drop_digits rest else cs
  | [] => []
  end.
(** [Infinity], [Inf], [NaN] and [sNaN], with a diagnostic number. *)
Definition special (cs : chars) : bool :=
  let text := String.string_of_list_ascii (rev (drop_digits (rev (lower_char <$> cs)))) in
  bool_decide (String.string_of_list_ascii (lower_char <$> cs) ∈ ["inf"; "infinity"])
  || bool_decide (text ∈ ["nan"; "snan"]).

(** [Decimal(s)]; [None] is [InvalidOperation]. *)
Definition decimal_of_str (s : string) : option decimal :=
  let cs := filter (fun c => is_char 95 c = false) (String.list_ascii_of_string (strip s)) in
  let '(negative, cs) := signed cs in
  match finite_of negative cs with
  | Some d => Some (Finite d)
  | None => if special cs then Some NonFinite else None
  end.

(** ** Writing *)
Definition natural (n : Z) : chars := String.list_ascii_of_string (pretty (Z.to_N n)).
Definition sign_chars (n : Z) : chars := if n <? 0 then [chr 45] else [].
(** [str(n)] *)
Definition str_of_int (n : Z) : string := String.string_of_list_ascii (sign_chars n ++ natural (Z.abs n)).

(** [str(d)]: plain notation unless the exponent is positive or the number is small. *)
Definition dec_chars (d : dec) : chars :=
  let digits := natural (Z.abs (coef d)) in
  let len := Z.of_nat (length digits) in
  let left := expo d + len in
  let dotplace := if (expo d <=? 0) && (-6 <? left) then left else 1 in
  let zeros (n : Z) := replicate (Z.to_nat n) (chr 48) in
  let whole :=
    if dotplace <=? 0 then [chr 48]
    else if len <=? dotplace then digits ++ zeros (dotplace - len) else take (Z.to_nat dotplace) digits in
  let fraction :=
    if dotplace <=? 0 then chr 46 :: zeros (- dotplace) ++ digits
    else if len <=? dotplace then [] else chr 46 :: drop (Z.to_nat dotplace) digits in
  let exponent :=
    if left =? dotplace then []
    else chr 69 :: (if left <? dotplace then chr 45 else chr 43) :: natural (Z.abs (left - dotplace)) in
  sign_chars (coef d) ++ whole ++ fraction ++ exponent.
Definition str_of_dec (d : dec) : string := String.string_of_list_ascii (dec_chars d).

Example str_of_dec_samples :
  str_of_dec <$> [Dec 0 0; Dec 123 (-2); Dec (-5) (-3); Dec 7 (-8); Dec 12 3; Dec 0 (-9); Dec 100 0]
  = ["0"; "1.23"; "-0.005"; "7E-8"; "1.2E+4"; "0E-9"; "100"].
Proof. vm_compute. done. Qed.

(** ** Numerals *)
Definition digits_of (acc : Z) (cs : chars) : Z := foldl (fun acc c => 10 * acc + digit_value c) acc cs.

Lemma numeral_char n : (n < 10)%N -> is_digit (pretty_N_char n) = true /\ digit_value (pretty_N_char n) = Z.of_N n.
Proof.
  intros Hn. destruct n as [|p]; [done|]. do 4 (destruct p as [p|p|]; try done; try lia).
Qed.

Lemma numeral_go n s : digits_of 0 (String.list_ascii_of_string (pretty_N_go n s))
    = digits_of (Z.of_N n) (String.list_ascii_of_string s) /\
  (forallb is_digit (String.list_ascii_of_string s) = true ->
   forallb is_digit (String.list_ascii_of_string (pretty_N_go n s)) = true).
Proof.
  revert s. induction (N.lt_wf_0 n) as [n _ IH]. intros s.
  assert (n = 0 \/ 0 < n)%N as [->|Hn] by lia; [done|].
  rewrite pretty_N_go_step by done.
  destruct (IH (n / 10)%N ltac:(apply N.div_lt; lia) (String (pretty_N_char (n mod 10)) s)) as [-> Hd].
  destruct (numeral_char (n mod 10)) as [Hc Hv]; [apply N.mod_lt; lia|]. split.
  - cbn. rewrite Hv. unfold digits_of. f_equal. pose proof (f_equal Z.of_N (N.div_mod n 10 ltac:(lia))) as H. rewrite N2Z.inj_add, N2Z.inj_mul in H. lia.
  - intros Hs. apply Hd. cbn. by rewrite Hc.
Qed.

Lemma natural_digits n : forallb is_digit (natural n) = true.
Proof.
  unfold natural, pretty, pretty_N. destruct (base.decide _); [done|]. by apply numeral_go.
Qed.

Lemma natural_value n : 0 <= n -> parse_digits (natural n) = n.
Proof.
  intros Hn. unfold natural, pretty, pretty_N. destruct (base.decide (Z.to_N n = 0%N)) as [E|E]; [transitivity 0; [done|lia]|].
  destruct (numeral_go (Z.to_N n) "") as [H _]. unfold digits_of in H at 1. unfold parse_digits. rewrite H. cbn. lia.
Qed.

Lemma natural_cons n : natural n <> [].
Proof.
  unfold natural, pretty, pretty_N. destruct (base.decide (Z.to_N n = 0%N)) as [E|E]; [done|]. intros H.
  assert (Hz : Z.of_N (Z.to_N n) = 0); [|lia]. destruct (numeral_go (Z.to_N n) "") as [Hv _].
  rewrite H in Hv. cbn in Hv. lia.
Qed.

Lemma natural_run n : digits_run (natural n) = true.
Proof.
  unfold digits_run. rewrite natural_digits, bool_decide_eq_false_2; [done|]. apply natural_cons.
Qed.

Lemma digit_not c n : is_digit c = true -> is_digit (chr n) = false -> is_char n c = false.
Proof.
  intros Hc Hn. unfold is_char. destruct (Ascii.eqb_spec c (chr n)) as [->|]; [congruence|done].
Qed.

(** ** Text without blanks *)
(** The characters that numbers are written with. *)
Definition graphic (c : Ascii.ascii) : bool :=
  let n := Ascii.nat_of_ascii c in ((33 <=? n) && (n <=? 126))%nat.

Lemma digit_graphic c : is_digit c = true -> graphic c = true.
Proof.
  unfold is_digit, graphic. intros H. apply andb_true_iff in H as [H1 H2]. apply Nat.leb_le in H1, H2.
  apply andb_true_iff. rewrite !Nat.leb_le. lia.
Qed.

Lemma prefix_chars w s : String.prefix w s = true ->
  exists t, String.list_ascii_of_string s = String.list_ascii_of_string w ++ t.
Proof.
  revert s. induction w as [|c w IH]; intros s H; [by eexists|]. destruct s as [|d s]; [done|]. cbn in H.
  destruct (Ascii.ascii_dec c d) as [->|]; [|done]. destruct (IH s H) as [t Ht]. exists t. cbn. by rewrite Ht.
Qed.

Lemma substring_chars n m s : String.list_ascii_of_string (String.substring n m s)
  = take m (drop n (String.list_ascii_of_string s)).
Proof.
  revert n m. induction s as [|c s IH]; intros [|n] [|m]; cbn; rewrite ?IH, ?drop_0; done.
Qed.

Lemma suffix_chars w s : suffix w s = true ->
  exists t, String.list_ascii_of_string s = t ++ String.list_ascii_of_string w.
Proof.
  assert (Hl : forall x, String.length x = length (String.list_ascii_of_string x)).
  { intros x. induction x as [|c x IH]; [done|]. cbn. by rewrite IH. }
  unfold suffix. rewrite !Hl. intros [Hle H]%andb_true_iff. apply Nat.leb_le in Hle. apply String.eqb_eq in H.
  apply (f_equal String.list_ascii_of_string) in H. rewrite substring_chars in H.
  set (cs := String.list_ascii_of_string s) in *. set (cw := String.list_ascii_of_string w) in *.
  exists (take (length cs - length cw) cs). rewrite take_ge in H by (rewrite length_drop; lia).
  rewrite <- H at 2. symmetry. apply take_drop.
Qed.

Definition blank_free (s : string) : bool := forallb graphic (String.list_ascii_of_string s).

Lemma not_blank s w : blank_free s = true -> w ∈ WHITESPACE -> String.prefix w s = false /\ suffix w s = false.
Proof.
  intros Hs Hw.
  assert (Hblank : existsb (fun c => negb (graphic c)) (String.list_ascii_of_string w) = true).
  { apply (proj1 (Forall_forall (fun w => existsb (fun c => negb (graphic c)) (String.list_ascii_of_string w) = true)
      WHITESPACE)); [|done]. apply (bool_decide_unpack _). vm_compute. exact I. }
  apply existsb_exists in Hblank as (c & Hc & Hg). apply negb_true_iff in Hg.
  unfold blank_free in Hs. rewrite forallb_forall in Hs.
  split; apply not_true_iff_false; intros H;
    [apply prefix_chars in H as [t Ht]|apply suffix_chars in H as [t Ht]]; rewrite Ht in Hs;
    (rewrite (Hs c) in Hg; [done|]); apply in_app_iff; auto.
Qed.

Lemma strip_blank_free s : blank_free s = true -> strip s = s.
Proof.
  intros Hs. unfold strip. assert (Hl : forall n, lstrip n s = s).
  { intros [|n]; [done|]. cbn [lstrip]. destruct (find _ _) as [w|] eqn:E; [|done].
    apply find_some in E as [Hw Hp]. apply list_elem_of_In in Hw. by rewrite (proj1 (not_blank s w Hs Hw)) in Hp. }
  rewrite Hl. destruct (String.length s) as [|n]; [done|]. cbn [rstrip].
  destruct (find _ _) as [w|] eqn:E; [|done].
  apply find_some in E as [Hw Hp]. apply list_elem_of_In in Hw. by rewrite (proj2 (not_blank s w Hs Hw)) in Hp.
Qed.

(** ** Integers *)
Lemma int_digits_run cs : digits_run cs = true -> int_digits cs = Some cs.
Proof.
  unfold digits_run. intros [Hne Hd]%andb_true_iff. apply negb_true_iff, bool_decide_eq_false in Hne.
  induction cs as [|c cs IH]; [done|]. cbn in Hd. apply andb_true_iff in Hd as [Hc Hd]. cbn. rewrite Hc.
  destruct cs as [|d cs]; [done|]. pose proof Hd as Hd'. cbn in Hd'. apply andb_true_iff in Hd' as [Hd' _].
  by rewrite (digit_not d 95 Hd' eq_refl), IH.
Qed.

Lemma signed_any n cs : signed cs = (false, cs) -> signed (sign_chars n ++ cs) = (n <? 0, cs).
Proof. unfold sign_chars. intros H. by destruct (n <? 0). Qed.

Lemma signed_chars n cs : digits_run cs = true -> signed (sign_chars n ++ cs) = (n <? 0, cs).
Proof.
  unfold sign_chars. destruct (n <? 0); [done|]. unfold digits_run. intros [Hne Hd]%andb_true_iff.
  destruct cs as [|c cs]; [done|]. cbn in Hd. apply andb_true_iff in Hd as [Hc _].
  cbn. by rewrite (digit_not c 45 Hc eq_refl), (digit_not c 43 Hc eq_refl).
Qed.

Lemma with_sign_abs n : with_sign (n <? 0) (Z.abs n) = n.
Proof. unfold with_sign. destruct (Z.ltb_spec n 0); lia. Qed.

Lemma sign_graphic n : forallb graphic (sign_chars n) = true.
Proof. unfold sign_chars. by destruct (n <? 0). Qed.

Lemma digits_graphic cs : forallb is_digit cs = true -> forallb graphic cs = true.
Proof. rewrite !forallb_forall. intros H c Hc. by apply digit_graphic, H. Qed.

Lemma chars_string cs : String.list_ascii_of_string (String.string_of_list_ascii cs) = cs.
Proof. induction cs as [|c cs IH]; [done|]. cbn. by rewrite IH. Qed.

(** [int(str(n)) == n] *)
Lemma int_roundtrip n : int_of_str (str_of_int n) = Some n.
Proof.
  unfold int_of_str. rewrite strip_blank_free; unfold str_of_int, blank_free; rewrite chars_string.
  - rewrite signed_chars by apply natural_run. rewrite int_digits_run by apply natural_run. cbn.
    by rewrite natural_value, with_sign_abs by lia.
  - by rewrite forallb_app, sign_graphic, digits_graphic by apply natural_digits.
Qed.

(** ** Decimals *)
Definition is_e (c : Ascii.ascii) : bool := is_char 69 c || is_char 101 c.

Lemma split_exponent_app m rest : forallb (fun c => negb (is_e c)) m = true ->
  split_exponent (m ++ rest) = (m ++ (split_exponent rest).1, (split_exponent rest).2).
Proof.
  induction m as [|c m IH]; intros Hm; [cbn; by destruct (split_exponent rest)|]. cbn in Hm.
  apply andb_true_iff in Hm as [Hc Hm]. apply negb_true_iff in Hc. unfold is_e in Hc. cbn. by rewrite Hc, IH.
Qed.

Lemma split_at_dot_app m rest : forallb is_digit m = true ->
  split_at_dot (m ++ rest) = (m ++ (split_at_dot rest).1, (split_at_dot rest).2).
Proof.
  induction m as [|c m IH]; intros Hm; [cbn; by destruct (split_at_dot rest)|]. cbn in Hm.
  apply andb_true_iff in Hm as [Hc Hm]. cbn [app split_at_dot]. pose proof (digit_not c 46 Hc eq_refl) as Hd.
  unfold is_char, chr in Hd. by rewrite Hd, IH.
Qed.

Lemma digit_no_e cs : forallb is_digit cs = true -> forallb (fun c => negb (is_e c)) cs = true.
Proof.
  rewrite !forallb_forall. intros H c Hc. unfold is_e.
  by rewrite (digit_not c 69 (H c Hc) eq_refl), (digit_not c 101 (H c Hc) eq_refl).
Qed.

Definition point_chars (fraction : option chars) : chars :=
  match fraction with Some f => chr 46 :: f | None => [] end.
Definition exponent_chars (e : option Z) : chars :=
  match e with Some e => chr 69 :: (if e <? 0 then chr 45 else chr 43) :: natural (Z.abs e) | None => [] end.

Lemma split_exponent_chars e : split_exponent (exponent_chars e)
  = ([], (fun e => (if e <? 0 then chr 45 else chr 43) :: natural (Z.abs e)) <$> e).
Proof. by destruct e. Qed.

Lemma exponent_of_chars e :
  exponent_of ((fun e => (if e <? 0 then chr 45 else chr 43) :: natural (Z.abs e)) <$> e) = Some (default 0 e).
Proof.
  destruct e as [e|]; [|done]. cbn [fmap option_fmap option_map exponent_of default id].
  pose proof (natural_value (Z.abs e) ltac:(lia)) as Hv.
  destruct (Z.ltb_spec e 0) as [Hn|Hn];
    [change (signed (chr 45 :: ?x)) with (true, x)|change (signed (chr 43 :: ?x)) with (false, x)];
    cbv beta iota; rewrite natural_run, Hv; cbn; f_equal; lia.
Qed.

Lemma finite_of_parts negative w f e :
  forallb is_digit w = true -> forallb is_digit (default [] f) = true -> w ++ default [] f <> [] ->
  finite_of negative (w ++ point_chars f ++ exponent_chars e)
  = Some (Dec (with_sign negative (parse_digits (w ++ default [] f)))
              (default 0 e - Z.of_nat (length (default [] f)))).
Proof.
  intros Hw Hf Hne. unfold finite_of. rewrite app_assoc, split_exponent_app.
  2: { rewrite forallb_app, digit_no_e by done. destruct f as [f|]; [|done]. cbn. by rewrite digit_no_e. }
  rewrite split_exponent_chars. cbn [fst snd]. rewrite app_nil_r, split_at_dot_app by done.
  assert (Hs : split_at_dot (point_chars f) = ([], f)) by by destruct f. rewrite Hs. cbn [fst snd]. rewrite app_nil_r.
  unfold digits_run. rewrite forallb_app, Hw, Hf, bool_decide_eq_false_2 by done. cbn [negb andb].
  by rewrite exponent_of_chars.
Qed.

Lemma zeros_digits n : forallb is_digit (replicate n (chr 48)) = true.
Proof. by induction n. Qed.

Lemma leading_zeros n cs : parse_digits (replicate n (chr 48) ++ cs) = parse_digits cs.
Proof. induction n as [|n IH]; [done|]. exact IH. Qed.

Lemma unsigned_parts w f rest : forallb is_digit w = true -> w <> [] ->
  signed (w ++ point_chars f ++ rest) = (false, w ++ point_chars f ++ rest).
Proof.
  destruct w as [|c w]; [done|]. cbn [forallb]. intros [Hc _]%andb_true_iff _. cbn.
  by rewrite (digit_not c 45 Hc eq_refl), (digit_not c 43 Hc eq_refl).
Qed.

(** The parts of [str(d)]. *)
Lemma dec_parts d : exists w f e,
  dec_chars d = sign_chars (coef d) ++ w ++ point_chars f ++ exponent_chars e /\
  forallb is_digit w = true /\ forallb is_digit (default [] f) = true /\ w <> [] /\
  parse_digits (w ++ default [] f) = Z.abs (coef d) /\
  default 0 e - Z.of_nat (length (default [] f)) = expo d.
Proof.
  unfold dec_chars. set (ds := natural (Z.abs (coef d))). pose proof (natural_digits (Z.abs (coef d))) as Hd.
  pose proof (natural_cons (Z.abs (coef d))) as Hne. pose proof (natural_value (Z.abs (coef d)) ltac:(lia)) as Hv.
  fold ds in Hd, Hne, Hv. assert (Hlen : (0 < length ds)%nat) by (destruct ds; [done|cbn; lia]).
  set (len := Z.of_nat (length ds)). set (left := expo d + len).
  destruct ((expo d <=? 0) && (-6 <? left)) eqn:E.
  - rewrite Z.eqb_refl. apply andb_true_iff in E as [E1%Z.leb_le E2%Z.ltb_lt].
    destruct (Z.leb_spec left 0) as [Hl|Hl]; [|destruct (Z.leb_spec len left) as [Hl2|Hl2]].
    + exists [chr 48], (Some (replicate (Z.to_nat (- left)) (chr 48) ++ ds)), None. cbn [point_chars exponent_chars default id].
      rewrite !app_nil_r. split; [done|]. split; [done|]. rewrite forallb_app, zeros_digits. split; [done|]. split; [done|].
      split; [|rewrite length_app, length_replicate; unfold left, len in *; lia].
      change ([chr 48] ++ ?x) with (replicate 1 (chr 48) ++ x). by rewrite leading_zeros, leading_zeros.
    + exists ds, None, None. cbn [point_chars exponent_chars default id]. rewrite !app_nil_r.
      assert (E0 : left - len = 0) by (unfold left in *; lia). rewrite E0. cbn [Z.to_nat replicate]. rewrite app_nil_r.
      split; [done|]. repeat split; try done. cbn. unfold left in *. lia.
    + exists (take (Z.to_nat left) ds), (Some (drop (Z.to_nat left) ds)), None.
      cbn [point_chars exponent_chars default id]. rewrite !app_nil_r, take_drop. split; [done|].
      rewrite <- (take_drop (Z.to_nat left) ds), forallb_app in Hd. apply andb_true_iff in Hd as [Hd1 Hd2].
      repeat split; try done; [|rewrite length_drop; unfold left, len in *; lia].
      intros H. apply (f_equal length) in H. rewrite length_take in H. cbn in H. lia.
  - change (1 <=? 0) with false. cbn [negb].
    exists (take 1 ds), (if len <=? 1 then None else Some (drop 1 ds)),
      (if left =? 1 then None else Some (left - 1)).
    assert (Hx : exponent_chars (if left =? 1 then None else Some (left - 1))
      = if left =? 1 then [] else chr 69 :: (if left <? 1 then chr 45 else chr 43) :: natural (Z.abs (left - 1))).
    { destruct (left =? 1); [done|]. cbn [exponent_chars]. by replace (left - 1 <? 0) with (left <? 1) by lia. }
    rewrite Hx. assert (He : default 0 (if left =? 1 then None else Some (left - 1)) = left - 1).
    { destruct (Z.eqb_spec left 1); cbn; lia. }
    rewrite He. pose proof Hd as Hds. rewrite <- (take_drop 1 ds), forallb_app in Hd. apply andb_true_iff in Hd as [Hd1 Hd2].
    destruct (Z.leb_spec len 1) as [Hl|Hl]; cbn [point_chars default id].
    + assert (El : 1 - len = 0) by (unfold len in *; lia). rewrite El, app_nil_r. cbn [Z.to_nat replicate]. rewrite app_nil_r.
      rewrite (take_ge ds 1) by (unfold len in *; lia). repeat split; try done. cbn. unfold left, len in *. lia.
    + change (Z.to_nat 1) with 1%nat. rewrite take_drop. repeat split; try done.
      { by destruct ds. }
      rewrite length_drop. unfold left, len in *. lia.
Qed.

(** [Decimal(str(d))] has the digits and the exponent of [d]. *)
Lemma dec_roundtrip d : decimal_of_str (str_of_dec d) = Some (Finite d).
Proof.
  destruct (dec_parts d) as (w & f & e & Hc & Hw & Hf & Hne & Hv & He).
  assert (Hg : forall c, c ∈ dec_chars d -> graphic c = true /\ is_char 95 c = false).
  { rewrite Hc. intros c. rewrite !elem_of_app. intros [H|[H|[H|H]]].
    - unfold sign_chars in H. destruct (_ <? _); [|by apply elem_of_nil in H]. by apply list_elem_of_singleton in H as ->.
    - rewrite forallb_forall in Hw. apply list_elem_of_In, Hw in H. split; [by apply digit_graphic|by apply digit_not].
    - destruct f as [f|]; [|by apply elem_of_nil in H]. cbn in H. apply elem_of_cons in H as [->|H]; [done|].
      cbn in Hf. rewrite forallb_forall in Hf. apply list_elem_of_In, Hf in H. split; [by apply digit_graphic|by apply digit_not].
    - destruct e as [e|]; [|by apply elem_of_nil in H]. cbn in H. apply elem_of_cons in H as [->|H]; [done|].
      apply elem_of_cons in H as [->|H]; [by destruct (_ <? _)|]. pose proof (natural_digits (Z.abs e)) as Hn.
      rewrite forallb_forall in Hn. apply list_elem_of_In, Hn in H. split; [by apply digit_graphic|by apply digit_not]. }
  unfold decimal_of_str. rewrite strip_blank_free; unfold str_of_dec, blank_free; rewrite chars_string.
  2: { apply forallb_forall. intros c H. by apply Hg, list_elem_of_In. }
  rewrite filter_all by (intros c H; by apply Hg). rewrite Hc.
  rewrite (signed_any (coef d) (w ++ point_chars f ++ exponent_chars e)); [|by apply (unsigned_parts w f)].
  rewrite finite_of_parts by (done || by destruct w). rewrite Hv, He, with_sign_abs. by destruct d.
Qed.

(** ** Strings and their characters *)
Abbreviation chars_of := String.list_ascii_of_string.
Lemma chars_app s t : chars_of (s +:+ t) = chars_of s ++ chars_of t.
Proof. induction s as [|d s IH]; [done|]. change (d :: chars_of (s +:+ t) = d :: chars_of s ++ chars_of t). by f_equal. Qed.
Lemma string_chars s : String.string_of_list_ascii (chars_of s) = s.
Proof. apply String.string_of_list_ascii_of_string. Qed.
Lemma chars_inj s t : chars_of s = chars_of t -> s = t.
Proof. intros H. by rewrite <- (string_chars s), H, string_chars. Qed.
Lemma length_chars s : String.length s = length (chars_of s).
Proof. induction s as [|c s IH]; [done|]. cbn. by rewrite IH. Qed.
Lemma suffix_app s w : suffix w (s +:+ w) = true.
Proof.
  unfold suffix. rewrite !length_chars, chars_app, length_app, Nat.add_sub, (proj2 (Nat.leb_le _ _)) by lia. cbn [andb].
  apply String.eqb_eq, chars_inj. by rewrite substring_chars, chars_app, drop_app_length, take_ge.
Qed.
Lemma append_nil s : s +:+ "" = s.
Proof. apply chars_inj. by rewrite chars_app, app_nil_r. Qed.
Lemma append_assoc r s t : (r +:+ s) +:+ t = r +:+ (s +:+ t).
Proof. apply chars_inj. by rewrite !chars_app, (assoc_L (++)). Qed.
Lemma string_split n s : s = String.substring 0 n s +:+ String.substring n (String.length s - n) s.
Proof.
  apply chars_inj. rewrite chars_app, !substring_chars, drop_0, length_chars.
  rewrite (take_ge (drop n _)) by (rewrite length_drop; lia). by rewrite take_drop.
Qed.
Lemma concat_app l l' : String.concat "" (l ++ l') = String.concat "" l +:+ String.concat "" l'.
Proof.
  assert (Hcons : forall s l, String.concat "" (s :: l) = s +:+ String.concat "" l).
  { intros s [|t m]; [by rewrite append_nil|done]. }
  induction l as [|s l IH]; [done|]. change ((s :: l) ++ l') with (s :: (l ++ l')). by rewrite !Hcons, IH, append_assoc.
Qed.
