(* ===== verification/PyTime.v ===== *)
(** The part of [datetime] that the storage paths use: the proleptic Gregorian calendar,
    [datetime.fromtimestamp(seconds, tz=UTC)] for whole seconds, and
    [datetime(year, month, day, hour, tzinfo=UTC).timestamp()].  The algorithms are those
    of the standard library. *)
From S2P Require Import Prelude PyDecimal PyText.

(** ** Ordinals *)
Definition is_leap (year : Z) : bool :=
  (year mod 4 =? 0) && (negb (year mod 100 =? 0) || (year mod 400 =? 0)).
Definition DAYS_BEFORE_MONTH : list Z := [0; 31; 59; 90; 120; 151; 181; 212; 243; 273; 304; 334].
Definition DAYS_IN_MONTH : list Z := [31; 28; 31; 30; 31; 30; 31; 31; 30; 31; 30; 31].
Definition nth_month (l : list Z) (month : Z) : Z := nth (Z.to_nat (month - 1)) l 0.

Definition days_before_year (year : Z) : Z :=
  let y := year - 1 in y * 365 + y / 4 - y / 100 + y / 400.
Definition days_in_month (year month : Z) : Z :=
  if (month =? 2) && is_leap year then 29 else nth_month DAYS_IN_MONTH month.
Definition days_before_month (year month : Z) : Z :=
  nth_month DAYS_BEFORE_MONTH month + Z.b2z ((2 <? month) && is_leap year).

(** [_ymd2ord] and [_ord2ymd] *)
Definition ymd2ord (year month day : Z) : Z := days_before_year year + days_before_month year month + day.

Definition month_of (year : Z) (n : Z) : Z * Z :=
  let month := (n + 50) / 32 in
  let preceding := days_before_month year month in
  if n <? preceding
  then let month := month - 1 in (month, n - days_before_month year month + 1)
  else (month, n - preceding + 1).
Definition ord2ymd (n : Z) : Z * Z * Z :=
  let n := n - 1 in
  let n400 := n / 146097 in let n := n mod 146097 in
  let n100 := n / 36524 in let n := n mod 36524 in
  let n4 := n / 1461 in let n := n mod 1461 in
  let n1 := n / 365 in let n := n mod 365 in
  let year := n400 * 400 + 1 + n100 * 100 + n4 * 4 + n1 in
  if (n1 =? 4) || (n100 =? 4) then (year - 1, 12, 31)
  else let '(month, day) := month_of year n in (year, month, day).

(** ** Hours of UTC *)
Record Hour : Type := { h_year : Z; h_month : Z; h_day : Z; h_hour : Z }.
#[export] Instance Hour_eq_dec : EqDecision Hour.
Proof. solve_decision. Defined.

(** 1970-01-01 *)
Definition EPOCH : Z := 719163.
Definition SECONDS_PER_DAY : Z := 86400.
(** 9999-12-31 *)
Definition MAX_ORDINAL : Z := 3652059.

(** [datetime.fromtimestamp(seconds, tz=UTC)], to the hour; [None] is an error for a time
    outside the years 1 to 9999. *)
Definition fromtimestamp (seconds : Z) : option Hour :=
  let ordinal := seconds / SECONDS_PER_DAY + EPOCH in
  if (1 <=? ordinal) && (ordinal <=? MAX_ORDINAL) then
    let '(y, m, d) := ord2ymd ordinal in
    Some {| h_year := y; h_month := m; h_day := d; h_hour := seconds mod SECONDS_PER_DAY / 3600 |}
  else None.

(** [datetime(year, month, day, hour, tzinfo=UTC)]; [None] is [ValueError]. *)
Definition datetime_utc (year month day hour : Z) : option Hour :=
  if (1 <=? year) && (year <=? 9999) && (1 <=? month) && (month <=? 12) && (1 <=? day)
     && (day <=? days_in_month year month) && (0 <=? hour) && (hour <=? 23)
  then Some {| h_year := year; h_month := month; h_day := day; h_hour := hour |} else None.
(** [int(hour.timestamp())] *)
Definition timestamp (h : Hour) : Z :=
  (ymd2ord (h_year h) (h_month h) (h_day h) - EPOCH) * SECONDS_PER_DAY + h_hour h * 3600.

(** ** The calendar is a bijection *)
Lemma year_shift a y : days_before_year (400 * a + y) = 146097 * a + days_before_year y /\ is_leap (400 * a + y) = is_leap y.
Proof.
  split.
  - unfold days_before_year. cbv zeta.
    replace ((400 * a + y - 1) / 4) with ((y - 1) / 4 + 100 * a) by (rewrite <- Z.div_add by lia; f_equal; lia).
    replace ((400 * a + y - 1) / 100) with ((y - 1) / 100 + 4 * a) by (rewrite <- Z.div_add by lia; f_equal; lia).
    replace ((400 * a + y - 1) / 400) with ((y - 1) / 400 + a) by (rewrite <- Z.div_add by lia; f_equal; lia). lia.
  - unfold is_leap. replace (400 * a + y) with (y + (100 * a) * 4) by lia. rewrite Z.mod_add by lia.
    replace (y + 100 * a * 4) with (y + (4 * a) * 100) by lia. rewrite Z.mod_add by lia.
    replace (y + 4 * a * 100) with (y + a * 400) by lia. by rewrite Z.mod_add by lia.
Qed.

(** The last of a sequence of quotients may be one too many, on the last day. *)
Definition quotients_ok (b c d : Z) : bool :=
  let y := 1 + b * 100 + c * 4 + d in
  (days_before_year y =? b * 36524 + c * 1461 + d * 365)
  && eqb (is_leap y) ((d =? 3) && (negb (c =? 24) || (b =? 3))).
Lemma quotients b c d : 0 <= b <= 3 -> 0 <= c <= 24 -> 0 <= d <= 3 -> quotients_ok b c d = true.
Proof.
  intros Hb Hc Hd.
  assert (Hall : forallb (fun b => forallb (fun c => forallb (quotients_ok b c) (seqZ 0 4)) (seqZ 0 25)) (seqZ 0 4) = true)
    by (vm_compute; reflexivity).
  rewrite forallb_forall in Hall. specialize (Hall b ltac:(apply list_elem_of_In, elem_of_seqZ; lia)).
  rewrite forallb_forall in Hall. specialize (Hall c ltac:(apply list_elem_of_In, elem_of_seqZ; lia)).
  rewrite forallb_forall in Hall. apply Hall, list_elem_of_In, elem_of_seqZ. lia.
Qed.

(** The days of a year; only whether it is a leap year matters. *)
Definition fields_ok (y m d : Z) : bool := (1 <=? m) && (m <=? 12) && (1 <=? d) && (d <=? days_in_month y m).
Definition day_ok (y n : Z) : bool :=
  let '(m, d) := month_of y n in fields_ok y m d && (days_before_month y m + d =? n + 1).
Lemma days_leap y y' n : is_leap y = is_leap y' -> day_ok y n = day_ok y' n.
Proof.
  intros H. unfold day_ok, month_of, fields_ok, days_in_month, days_before_month. by rewrite H.
Qed.
Lemma days_ok y n : 0 <= n < 365 + Z.b2z (is_leap y) -> day_ok y n = true.
Proof.
  intros Hn. assert (Hall : forallb (day_ok 1) (seqZ 0 365) && forallb (day_ok 4) (seqZ 0 366) = true) by (vm_compute; reflexivity).
  apply andb_true_iff in Hall as [H1 H4]. rewrite forallb_forall in H1, H4. destruct (is_leap y) eqn:E; cbn in Hn.
  - rewrite (days_leap y 4) by done. apply H4, list_elem_of_In, elem_of_seqZ. lia.
  - rewrite (days_leap y 1) by done. apply H1, list_elem_of_In, elem_of_seqZ. lia.
Qed.

Lemma ord2ymd_spec n : 1 <= n -> let '(y, m, d) := ord2ymd n in ymd2ord y m d = n /\ fields_ok y m d = true /\ 1 <= y.
Proof.
  intros Hn. unfold ord2ymd. cbv zeta. set (k := n - 1). pose proof (Z.div_mod k 146097 ltac:(lia)) as E1.
  pose proof (Z.mod_pos_bound k 146097 ltac:(lia)) as B1. set (a := k / 146097) in *. set (k1 := k mod 146097) in *.
  pose proof (Z.div_mod k1 36524 ltac:(lia)) as E2. pose proof (Z.mod_pos_bound k1 36524 ltac:(lia)) as B2.
  set (b := k1 / 36524) in *. set (k2 := k1 mod 36524) in *.
  pose proof (Z.div_mod k2 1461 ltac:(lia)) as E3. pose proof (Z.mod_pos_bound k2 1461 ltac:(lia)) as B3.
  set (c := k2 / 1461) in *. set (k3 := k2 mod 1461) in *.
  pose proof (Z.div_mod k3 365 ltac:(lia)) as E4. pose proof (Z.mod_pos_bound k3 365 ltac:(lia)) as B4.
  set (d := k3 / 365) in *. set (r := k3 mod 365) in *.
  assert (Ha : 0 <= a) by (apply Z.div_pos; lia). assert (0 <= b <= 4 /\ 0 <= c <= 24 /\ 0 <= d <= 4) as (Hb & Hc & Hd) by lia.
  clearbody a b c d r k1 k2 k3.
  replace (a * 400 + 1 + b * 100 + c * 4 + d) with (400 * a + (1 + b * 100 + c * 4 + d)) by lia.
  destruct ((d =? 4) || (b =? 4)) eqn:Elast.
  - assert (Hlast : d = 4 /\ b <= 3 /\ r = 0 \/ b = 4 /\ c = 0 /\ d = 0 /\ r = 0) by (apply orb_true_iff in Elast as [?%Z.eqb_eq|?%Z.eqb_eq]; lia).
    set (y := 400 * a + (1 + b * 100 + c * 4 + d) - 1).
    assert (Hy : days_before_year y + 365 = k /\ is_leap y = true /\ 1 <= y).
    { destruct Hlast as [(-> & Hb3 & ->)|(-> & -> & -> & ->)].
      - pose proof (quotients b c 3 ltac:(lia) ltac:(lia) ltac:(lia)) as Hq. apply andb_true_iff in Hq as [Hq%Z.eqb_eq Hl%eqb_prop].
        destruct (year_shift a (1 + b * 100 + c * 4 + 3)) as [Hs Hs']. unfold y.
        replace (400 * a + (1 + b * 100 + c * 4 + 4) - 1) with (400 * a + (1 + b * 100 + c * 4 + 3)) by lia. rewrite Hs, Hs', Hl, Hq.
        split_and!; [lia| |lia]. destruct (Z.eqb_spec c 24); [|done]. destruct (Z.eqb_spec b 3); [done|lia].
      - pose proof (quotients 3 24 3 ltac:(lia) ltac:(lia) ltac:(lia)) as Hq. apply andb_true_iff in Hq as [Hq%Z.eqb_eq Hl%eqb_prop].
        destruct (year_shift a (1 + 3 * 100 + 24 * 4 + 3)) as [Hs Hs']. unfold y.
        replace (400 * a + (1 + 4 * 100 + 0 * 4 + 0) - 1) with (400 * a + (1 + 3 * 100 + 24 * 4 + 3)) by lia. rewrite Hs, Hs', Hl, Hq.
        split_and!; [lia|done|lia]. }
    destruct Hy as (Hy & Hl & Hpos). split_and!; [|done|done]. unfold ymd2ord, days_before_month. rewrite Hl.
    change (nth_month DAYS_BEFORE_MONTH 12) with 334. cbn [Z.b2z Z.ltb Z.compare Pos.compare Pos.compare_cont andb]. lia.
  - apply orb_false_iff in Elast as [Ed%Z.eqb_neq Eb%Z.eqb_neq].
    pose proof (quotients b c d ltac:(lia) ltac:(lia) ltac:(lia)) as Hq. apply andb_true_iff in Hq as [Hq%Z.eqb_eq Hl%eqb_prop].
    destruct (year_shift a (1 + b * 100 + c * 4 + d)) as [Hs Hs']. set (y := 400 * a + (1 + b * 100 + c * 4 + d)) in *.
    pose proof (days_ok y r ltac:(destruct (is_leap y); cbn; lia)) as Hday. unfold day_ok in Hday.
    destruct (month_of y r) as [m day]. apply andb_true_iff in Hday as [Hf Hday%Z.eqb_eq].
    split_and!; [unfold ymd2ord; rewrite Hs, Hq; lia|done|lia].
Qed.

(** The fields of a time name the start of its hour. *)
Lemma timestamp_of_hour seconds h : fromtimestamp seconds = Some h -> timestamp h = seconds / 3600 * 3600.
Proof.
  unfold fromtimestamp. destruct (_ && _) eqn:Eb; [|done]. bool_prop.
  pose proof (ord2ymd_spec (seconds / SECONDS_PER_DAY + EPOCH) ltac:(lia)) as Hspec.
  destruct (ord2ymd _) as [[y m] d]. destruct Hspec as (Ho & _ & _). intros [= <-]. unfold timestamp. cbn [h_year h_month h_day h_hour].
  rewrite Ho. unfold SECONDS_PER_DAY in *. pose proof (Z.div_mod seconds 86400 ltac:(lia)). pose proof (Z.mod_pos_bound seconds 86400 ltac:(lia)).
  replace (seconds / 3600) with (24 * (seconds / 86400) + seconds mod 86400 / 3600); [lia|].
  apply Z.div_unique with (seconds mod 86400 mod 3600); pose proof (Z.mod_pos_bound (seconds mod 86400) 3600 ltac:(lia)); [lia|].
  pose proof (Z.div_mod (seconds mod 86400) 3600 ltac:(lia)). lia.
Qed.

Lemma month_day_bound y m d : fields_ok y m d = true -> 1 <= days_before_month y m + d <= 366 /\ d <= 31.
Proof.
  unfold fields_ok, days_in_month, days_before_month. intros H. bool_prop.
  assert (Hm : m = 1 \/ m = 2 \/ m = 3 \/ m = 4 \/ m = 5 \/ m = 6 \/ m = 7 \/ m = 8 \/ m = 9 \/ m = 10 \/ m = 11 \/ m = 12) by lia.
  generalize dependent (is_leap y). intros leap Hd. destruct_or! Hm; subst m;
    repeat match goal with
    | |- context [nth_month ?l ?k] => let v := eval vm_compute in (nth_month l k) in change (nth_month l k) with v
    | H : context [nth_month ?l ?k] |- _ => let v := eval vm_compute in (nth_month l k) in change (nth_month l k) with v in H
    end; destruct leap; cbn in *; lia.
Qed.

Lemma hour_bounds seconds h : fromtimestamp seconds = Some h -> 0 <= seconds ->
  datetime_utc (h_year h) (h_month h) (h_day h) (h_hour h) = Some h /\ 1000 <= h_year h <= 9999 /\ 1 <= h_month h <= 12 /\
  1 <= h_day h <= 31 /\ 0 <= h_hour h <= 23.
Proof.
  unfold fromtimestamp. destruct (_ && _) eqn:Eb; [|done]. bool_prop.
  pose proof (ord2ymd_spec (seconds / SECONDS_PER_DAY + EPOCH) ltac:(lia)) as Hspec.
  destruct (ord2ymd _) as [[y m] d]. destruct Hspec as (Ho & Hf & Hy). intros [= <-] Hpos. cbn [h_year h_month h_day h_hour].
  pose proof (month_day_bound y m d Hf) as [Hb Hd]. unfold ymd2ord in Ho.
  assert (Hyear : 1000 <= y <= 9999).
  { assert (Hsec : 0 <= seconds / SECONDS_PER_DAY) by (apply Z.div_pos; unfold SECONDS_PER_DAY; lia).
    unfold EPOCH, MAX_ORDINAL, days_before_year in *. cbv zeta in *. Z.div_mod_to_equations. lia. }
  unfold fields_ok in Hf. bool_prop. unfold SECONDS_PER_DAY.
  assert (Hh : 0 <= seconds mod 86400 / 3600 <= 23) by (Z.div_mod_to_equations; lia).
  unfold datetime_utc. rewrite !(proj2 (Z.leb_le _ _)) by lia. cbn [andb]. split_and!; try done; lia.
Qed.
