(* ===== verification/CatalogJson.v ===== *)
(** How [selection/catalog_store.py] writes what it stores as JSON and reads it back: the
    tagged nodes that keep the types of a payload, the payloads of instruments and
    announcements, and the stored entries of a selection. *)
From S2P Require Import Prelude PyDecimal Domain StorageModels SelectionModels Selector PyText.

(** ** String enumerations *)
Class StrEnum (A : Type) : Type := {
  members : list A;
  value : A -> string;
  member : forall a, a ∈ members;
  value_inj : forall a b, value a = value b -> a = b
}.
(** [A(text)]; [None] is [ValueError]. *)
Definition of_value {A} `{StrEnum A} (text : string) : option A := find (fun a => String.eqb (value a) text) members.

Lemma of_value_value {A} `{StrEnum A} (a : A) : of_value (value a) = Some a.
Proof.
  unfold of_value. destruct (find _ members) as [b|] eqn:E.
  - apply find_some in E as [_ E]. apply String.eqb_eq, value_inj in E. by subst.
  - pose proof (find_none _ _ E a) as Hn. cbn in Hn. rewrite String.eqb_refl in Hn.
    discriminate Hn. apply list_elem_of_In, member.
Qed.

Definition source_value (s : TradableAtSource) : string :=
  match s with
  | EXCHANGE => "exchange" | EXCHANGE_CONTINUOUS => "exchange_continuous"
  | EXCHANGE_LAUNCH => "exchange_launch" | FIRST_TRADABLE_SEEN => "first_tradable_seen"
  end.
Definition state_value (s : ListingState) : string :=
  match s with
  | BASELINE => "baseline" | PENDING => "pending" | PENDING_OFFICIAL => "pending_official"
  | RELIST_PENDING => "relist_pending" | ACTIVE_NEW => "active_new"
  end.
Definition phase_value (s : LifecyclePhase) : string :=
  match s with
  | UNKNOWN => "unknown" | PREOPEN => "preopen" | TRADABLE => "tradable"
  | PAUSED => "paused" | DELISTED => "delisted"
  end.
Definition method_value (s : TurnoverMethod) : string :=
  match s with
  | EXCHANGE_QUOTE_TURNOVER => "exchange_quote_turnover"
  | BASE_VOLUME_X_REFERENCE_PRICE => "base_volume_x_reference_price"
  end.

Ltac str_enum := [> intros []; set_solver | by intros [] [] ].
#[export] Instance Exchange_enum : StrEnum Exchange.
Proof. refine {| members := [BINANCE; OKX; BYBIT; BITGET; KRAKEN]; value := exchange_value |}; str_enum. Defined.
#[export] Instance Market_enum : StrEnum Market.
Proof. refine {| members := [SPOT; PERPETUAL]; value := market_value |}; str_enum. Defined.
#[export] Instance TradableAtSource_enum : StrEnum TradableAtSource.
Proof. refine {| members := [EXCHANGE; EXCHANGE_CONTINUOUS; EXCHANGE_LAUNCH; FIRST_TRADABLE_SEEN]; value := source_value |}; str_enum. Defined.
#[export] Instance ListingState_enum : StrEnum ListingState.
Proof. refine {| members := [BASELINE; PENDING; PENDING_OFFICIAL; RELIST_PENDING; ACTIVE_NEW]; value := state_value |}; str_enum. Defined.
#[export] Instance LifecyclePhase_enum : StrEnum LifecyclePhase.
Proof. refine {| members := [UNKNOWN; PREOPEN; TRADABLE; PAUSED; DELISTED]; value := phase_value |}; str_enum. Defined.
#[export] Instance TurnoverMethod_enum : StrEnum TurnoverMethod.
Proof. refine {| members := [EXCHANGE_QUOTE_TURNOVER; BASE_VOLUME_X_REFERENCE_PRICE]; value := method_value |}; str_enum. Defined.

(** ** Typed nodes *)
Fixpoint _typed_json_node (value : Json) : Json :=
  match value with
  | JDict items =>
      let nodes := List.map (fun kv => (kv.1, _typed_json_node kv.2)) items in
      JList [JStr "object"; JList (List.map (fun kv => JList [JStr kv.1; kv.2]) (py_sorted (on_key fst string_leb) nodes))]
  | JList items => JList [JStr "array"; JList (List.map _typed_json_node items)]
  | JNull => JList [JStr "null"]
  | JBool b => JList [JStr "bool"; JBool b]
  | JInt n => JList [JStr "int"; JStr (str_of_int n)]
  | JDecimal d => JList [JStr "decimal"; JStr (str_of_dec d)]
  | JStr s => JList [JStr "string"; JStr s]
  end.

Definition malformed {A} (what : string) : result A := Err (RuntimeError ("catalog lifecycle contains " +:+ what)).

Fixpoint _decode_typed_json_node (node : Json) : result Json :=
  match node with
  | JList (JStr tag :: rest) =>
      let unknown := malformed "unknown typed JSON node" in
      match rest with
      | [] => if String.eqb tag "null" then Ok JNull else unknown
      | [JBool b] => if String.eqb tag "bool" then Ok (JBool b) else unknown
      | [JStr s] =>
          if String.eqb tag "int" then
            match int_of_str s with Some n => Ok (JInt n) | None => malformed "invalid integer" end
          else if String.eqb tag "decimal" then
            match decimal_of_str s with
            | Some (Finite d) => Ok (JDecimal d)
            | Some NonFinite => malformed "non-finite Decimal"
            | None => malformed "invalid Decimal"
            end
          else if String.eqb tag "string" then Ok (JStr s)
          else unknown
      | [JList nodes] =>
          if String.eqb tag "array" then
            let! items := (fix all nodes := match nodes with
              | [] => Ok []
              | node :: nodes =>
                  let! item := _decode_typed_json_node node in
                  let! items := all nodes in
                  Ok (item :: items)
              end) nodes in
            Ok (JList items)
          else if String.eqb tag "object" then
            let! items := (fix all keys nodes := match nodes with
              | [] => Ok []
              | JList [JStr key; node] :: nodes =>
                  raise RuntimeError "catalog lifecycle contains malformed object" when bool_decide (key ∈ keys);;
                  let! item := _decode_typed_json_node node in
                  let! items := all (key :: keys) nodes in
                  Ok ((key, item) :: items)
              | _ => malformed "malformed object"
              end) [] nodes in
            Ok (JDict items)
          else unknown
      | _ => unknown
      end
  | _ => malformed "malformed typed JSON"
  end.

(** ** The round trip of typed nodes *)
Lemma json_nested_ind (P : Json -> Prop) :
  P JNull -> (forall b, P (JBool b)) -> (forall n, P (JInt n)) -> (forall d, P (JDecimal d)) ->
  (forall s, P (JStr s)) -> (forall items, Forall P items -> P (JList items)) ->
  (forall items, Forall (fun kv => P kv.2) items -> P (JDict items)) -> forall j, P j.
Proof.
  intros Hn Hb Hi Hd Hs Hl Hm. fix go 1. intros [|b|n|d|s|items|items].
  1-5: clear go; auto.
  - apply Hl. induction items as [|j items IH]; constructor; [apply go|exact IH].
  - apply Hm. induction items as [|[k j] items IH]; constructor; [apply go|exact IH].
Qed.

(** No dictionary names a key twice. *)
Fixpoint json_wf (j : Json) : bool :=
  match j with
  | JList items => forallb json_wf items
  | JDict items => unique (items.*1) && forallb (fun kv => json_wf kv.2) items
  | _ => true
  end.

(** The keys of every dictionary in order. *)
Abbreviation by_name := (on_key fst string_leb).
Fixpoint sorted_json (j : Json) : Json :=
  match j with
  | JList items => JList (List.map sorted_json items)
  | JDict items => JDict (py_sorted by_name (List.map (fun kv => (kv.1, sorted_json kv.2)) items))
  | _ => j
  end.

Lemma py_sorted_map {A B} (f : A -> B) (l : list (string * A)) :
  py_sorted by_name (List.map (fun kv => (kv.1, f kv.2)) l) = List.map (fun kv => (kv.1, f kv.2)) (py_sorted by_name l).
Proof.
  induction l as [|[k a] l IH]; [done|]. cbn [List.map py_sorted fst snd]. rewrite IH. clear IH.
  induction (py_sorted by_name l) as [|[k' a'] l' IH]; [done|]. cbn [List.map insert_sorted fst snd].
  unfold on_key in *. cbn [fst]. destruct (string_leb k k'); cbn [List.map]; [done|]. f_equal. exact IH.
Qed.

Lemma json_wf_list items : json_wf (JList items) = true -> Forall (fun j => json_wf j = true) items.
Proof. cbn. rewrite forallb_forall, Forall_forall. intros H j Hj. by apply H, list_elem_of_In. Qed.

Lemma json_wf_dict items : json_wf (JDict items) = true ->
  NoDup items.*1 /\ Forall (fun kv => json_wf kv.2 = true) items.
Proof.
  cbn. unfold unique. intros [Hu H]%andb_true_iff. split; [by apply bool_decide_eq_true in Hu|].
  rewrite forallb_forall in H. apply Forall_forall. intros j Hj. by apply H, list_elem_of_In.
Qed.

(** The two loops of the decoder. *)
Definition decode_items : list Json -> result (list Json) :=
  fix all nodes := match nodes with
    | [] => Ok []
    | node :: nodes =>
        let! item := _decode_typed_json_node node in
        let! items := all nodes in
        Ok (item :: items)
    end.
Definition decode_pairs : list string -> list Json -> result (list (string * Json)) :=
  fix all keys nodes := match nodes with
    | [] => Ok []
    | JList [JStr key; node] :: nodes =>
        raise RuntimeError "catalog lifecycle contains malformed object" when bool_decide (key ∈ keys);;
        let! item := _decode_typed_json_node node in
        let! items := all (key :: keys) nodes in
        Ok ((key, item) :: items)
    | _ => malformed "malformed object"
    end.

Lemma decode_items_cons node nodes : decode_items (node :: nodes)
  = let! item := _decode_typed_json_node node in let! items := decode_items nodes in Ok (item :: items).
Proof. done. Qed.
Lemma decode_pairs_cons keys key node nodes : decode_pairs keys (JList [JStr key; node] :: nodes)
  = (raise RuntimeError "catalog lifecycle contains malformed object" when bool_decide (key ∈ keys);;
     let! item := _decode_typed_json_node node in
     let! items := decode_pairs (key :: keys) nodes in
     Ok ((key, item) :: items)).
Proof. done. Qed.

Lemma decode_items_ok f items :
  Forall (fun j => _decode_typed_json_node (_typed_json_node j) = Ok (f j)) items ->
  decode_items (List.map _typed_json_node items) = Ok (List.map f items).
Proof. induction 1 as [|j items Hj H IH]; [done|]. cbn [List.map]. by rewrite decode_items_cons, Hj, IH. Qed.

Lemma decode_pairs_ok f items keys : NoDup items.*1 -> (forall k, k ∈ keys -> k ∉ items.*1) ->
  Forall (fun kv => _decode_typed_json_node (_typed_json_node kv.2) = Ok (f kv.2)) items ->
  decode_pairs keys (List.map (fun kv => JList [JStr kv.1; kv.2]) (List.map (fun kv => (kv.1, _typed_json_node kv.2)) items))
  = Ok (List.map (fun kv => (kv.1, f kv.2)) items).
Proof.
  revert keys. induction items as [|[k j] items IH]; intros keys Hnd Hk HF; [done|].
  inversion HF as [|? ? Hj HF']; subst. rewrite fmap_cons in Hnd, Hk. cbn [fst] in Hnd, Hk. apply NoDup_cons in Hnd as [Hn Hnd].
  cbn [List.map fst snd] in *. rewrite decode_pairs_cons, bool_decide_eq_false_2 by (intros H; apply (Hk k H); left).
  cbn [raise_if]. rewrite Hj. cbn [rbind]. rewrite IH; [done|done| |done].
  intros x [->|Hx]%elem_of_cons; [done|]. intros Hin. apply (Hk x Hx). by right.
Qed.

(** Decoding what [_typed_json_node] writes gives the value back, type by type, its
    dictionaries in the order of their keys. *)
Lemma typed_node_spec j : json_wf j = true -> _decode_typed_json_node (_typed_json_node j) = Ok (sorted_json j).
Proof.
  induction j as [|b|n|d|s|items IH|items IH] using json_nested_ind; intros Hwf; try done.
  - cbn. by rewrite int_roundtrip.
  - cbn. by rewrite dec_roundtrip.
  - apply json_wf_list in Hwf. cbn. fold decode_items. rewrite (decode_items_ok sorted_json); [done|].
    rewrite Forall_forall in IH, Hwf |- *. auto.
  - apply json_wf_dict in Hwf as [Hnd Hwf]. cbn. fold decode_pairs. rewrite !py_sorted_map.
    rewrite (decode_pairs_ok sorted_json); [done| | |].
    + by rewrite py_sorted_perm.
    + intros k H. by apply elem_of_nil in H.
    + rewrite py_sorted_perm. rewrite Forall_forall in IH, Hwf |- *. auto.
Qed.

Lemma map_eq_on {A B} (f g : A -> B) l : (forall x, x ∈ l -> f x = g x) -> List.map f l = List.map g l.
Proof. intros H. apply map_ext_in. intros x Hx. by apply H, list_elem_of_In. Qed.

Lemma sorted_node j : _typed_json_node (sorted_json j) = _typed_json_node j.
Proof.
  induction j as [|b|n|d|s|items IH|items IH] using json_nested_ind; try done; cbn;
    rewrite Forall_forall in IH.
  - by rewrite map_map, (map_eq_on _ _typed_json_node).
  - rewrite !py_sorted_map, !map_map. cbn [fst snd]. rewrite sorted_id by apply py_sorted_sorted, _.
    rewrite (map_eq_on _ (fun kv => JList [JStr kv.1; _typed_json_node kv.2])); [done|].
    intros kv Hkv. rewrite elem_of_py_sorted in Hkv. by rewrite IH.
Qed.

Lemma sorted_json_idem j : json_wf j = true -> sorted_json (sorted_json j) = sorted_json j.
Proof.
  induction j as [|b|n|d|s|items IH|items IH] using json_nested_ind; intros Hwf; try done; cbn;
    rewrite Forall_forall in IH.
  - apply json_wf_list in Hwf. rewrite Forall_forall in Hwf. f_equal. rewrite map_map. apply map_eq_on. auto.
  - apply json_wf_dict in Hwf as [_ Hwf]. rewrite Forall_forall in Hwf.
    rewrite !py_sorted_map, !map_map. cbn [fst snd]. rewrite sorted_id by apply py_sorted_sorted, _.
    f_equal. apply map_eq_on. intros kv Hkv. rewrite elem_of_py_sorted in Hkv. cbn. by rewrite IH by auto.
Qed.

Lemma json_wf_sorted j : json_wf j = true -> json_wf (sorted_json j) = true.
Proof.
  induction j as [|b|n|d|s|items IH|items IH] using json_nested_ind; intros Hwf; try done; rewrite Forall_forall in IH.
  - apply json_wf_list in Hwf. rewrite Forall_forall in Hwf. cbn. apply forallb_forall.
    intros j Hj. apply in_map_iff in Hj as (i & <- & Hi). apply list_elem_of_In in Hi. auto.
  - apply json_wf_dict in Hwf as [Hnd Hwf]. rewrite Forall_forall in Hwf. cbn. rewrite py_sorted_map. unfold unique.
    apply andb_true_iff. split.
    + apply bool_decide_eq_true. change (NoDup (List.map fst (List.map (fun kv => (kv.1, sorted_json kv.2)) (py_sorted by_name items)))).
      rewrite map_map. cbn [fst]. change (NoDup (fst <$> py_sorted by_name items)). by rewrite py_sorted_perm.
    + apply forallb_forall. intros kv Hkv. apply in_map_iff in Hkv as (i & <- & Hi). apply list_elem_of_In in Hi.
      rewrite elem_of_py_sorted in Hi. cbn. auto.
Qed.

Definition dict_eqb (y : list (string * Json)) : list (string * Json) -> bool :=
  fix all x := match x with
    | [] => true
    | (k, a) :: x =>
        match find (fun kv => String.eqb kv.1 k) y with
        | Some (_, b) => json_eqb a b
        | None => false
        end && all x
    end.

Lemma find_key {B} (l : list (string * B)) k b : NoDup l.*1 -> (k, b) ∈ l ->
  find (fun kv => String.eqb kv.1 k) l = Some (k, b).
Proof.
  induction l as [|[k' b'] l IH]; intros Hnd Hin; [by apply elem_of_nil in Hin|]. rewrite fmap_cons in Hnd.
  apply NoDup_cons in Hnd as [Hn Hnd]. cbn. destruct (String.eqb_spec k' k) as [->|Hne].
  - apply elem_of_cons in Hin as [[= ->]|Hin]; [done|]. destruct Hn. by apply (list_elem_of_fmap_2 fst) in Hin.
  - apply elem_of_cons in Hin as [[= -> ->]|Hin]; [done|]. by apply IH.
Qed.

Lemma dict_eqb_sorted (f : Json -> Json) items : NoDup items.*1 ->
  Forall (fun kv => json_eqb kv.2 (f kv.2) = true) items ->
  dict_eqb (List.map (fun kv => (kv.1, f kv.2)) (py_sorted by_name items)) items = true.
Proof.
  intros Hnd HF.
  set (y := List.map (fun kv => (kv.1, f kv.2)) (py_sorted by_name items)).
  assert (Hy : NoDup y.*1).
  { unfold y. change (NoDup (List.map fst (List.map (fun kv => (kv.1, f kv.2)) (py_sorted by_name items)))).
    rewrite map_map. cbn [fst]. change (NoDup (fst <$> py_sorted by_name items)). by rewrite py_sorted_perm. }
  assert (Hin : forall kv, kv ∈ items -> (kv.1, f kv.2) ∈ y).
  { intros kv Hkv. unfold y. apply list_elem_of_In, in_map_iff. exists kv. split; [done|].
    apply list_elem_of_In. by rewrite elem_of_py_sorted. }
  clearbody y. clear Hnd. induction HF as [|[k a] l Ha HF IH]; [done|]. cbn.
  rewrite (find_key y k (f a) Hy) by (apply (Hin (k, a)); left). cbn in Ha. rewrite Ha. cbn.
  apply IH. intros kv Hkv. apply Hin. by right.
Qed.

(** Sorting dictionaries leaves the value equal. *)
Lemma json_eqb_sorted j : json_wf j = true -> json_eqb j (sorted_json j) = true.
Proof.
  assert (deqb_refl : forall d, deqb d d = true).
  { intros d. unfold deqb, dleb. by rewrite Z.leb_refl. }
  induction j as [|b|n|d|s|items IH|items IH] using json_nested_ind; intros Hwf.
  - done.
  - by destruct b.
  - cbn. apply deqb_refl.
  - cbn. apply deqb_refl.
  - cbn. apply String.eqb_refl.
  - apply json_wf_list in Hwf. cbn. induction IH as [|j items Hj HI IHl]; [done|].
    inversion Hwf; subst. cbn. by rewrite Hj, IHl.
  - apply json_wf_dict in Hwf as [Hnd Hwf]. cbn [sorted_json json_eqb].
    rewrite py_sorted_length, length_map, Nat.eqb_refl. cbn [andb]. rewrite py_sorted_map.
    apply dict_eqb_sorted; [done|]. rewrite Forall_forall in IH, Hwf |- *. auto.
Qed.

(** ** The JSON library

    [encode_json] and [decode_json] of [domain/json_codec.py] are [simplejson] with fixed
    settings.  A decimal of integral value is written like an integer, so the law covers
    the values without decimals. *)
Class JsonCodec : Type := { encode_json : Json -> string; decode_json : string -> result Json }.
Fixpoint plain (j : Json) : bool :=
  match j with
  | JDecimal _ => false
  | JList items => forallb plain items
  | JDict items => unique (items.*1) && forallb (fun kv => plain kv.2) items
  | _ => true
  end.
Class JsonCodecLaws `{JsonCodec} : Prop := {
  decode_encode : forall j, plain j = true -> decode_json (encode_json j) = Ok j
}.

(** ** Payloads *)
Definition jopt {A} (f : A -> Json) (o : option A) : Json := match o with Some a => f a | None => JNull end.
Definition jenum {A} `{StrEnum A} (a : A) : Json := JStr (value a).

Definition turnover_payload (t : Turnover) : Json :=
  JDict [("value", JStr (str_of_dec (to_value t))); ("method", jenum (to_method t)); ("currency", JStr (to_currency t));
         ("observed_at_ns", jopt JInt (to_observed_at_ns t)); ("raw_reference", jopt JStr (to_raw_reference t))].
Definition wire_symbols_payload (w : gmap string string) : Json :=
  JDict (List.map (fun kv => (kv.1, JStr kv.2)) (py_sorted by_name (map_to_list w))).

Definition _record_payload (r : InstrumentRecord) : list (string * Json) :=
  [("exchange", jenum (exchange r)); ("market", jenum (market r)); ("instrument_key", JStr (instrument_key r));
   ("canonical_pair", JStr (canonical_pair r)); ("wire_symbols", wire_symbols_payload (wire_symbols r));
   ("base_asset", JStr (base_asset r)); ("quote_asset", JStr (quote_asset r));
   ("settlement_asset", jopt JStr (settlement_asset r)); ("status", JStr (status r));
   ("lifecycle_phase", jenum (lifecycle_phase r)); ("tradable", JBool (tradable r));
   ("lifecycle", _typed_json_node (lifecycle r)); ("tradable_at_ns", jopt JInt (tradable_at_ns r));
   ("tradable_at_source", jopt jenum (tradable_at_source r)); ("turnover", jopt turnover_payload (turnover r));
   ("raw_catalog_reference", JStr (raw_catalog_reference r))].

Definition _catalog_instrument_payload (i : CatalogInstrument) : Json :=
  JDict (_record_payload (inst i) ++
    [("first_seen_ns", JInt (first_seen_ns i)); ("first_tradable_seen_ns", jopt JInt (first_tradable_seen_ns i));
     ("last_seen_ns", JInt (last_seen_ns i)); ("last_terminal_seen_ns", jopt JInt (last_terminal_seen_ns i));
     ("listing_generation", JInt (listing_generation i)); ("listing_state", jenum (listing_state i));
     ("new_listing_eligible", JBool (new_listing_eligible i));
     ("new_listing_source", jopt jenum (new_listing_source i));
     ("new_listing_started_at_ns", jopt JInt (new_listing_started_at_ns i)); ("present", JBool (is_present i))]).

Definition _announcement_hint_payload (h : StoredAnnouncementHint) : Json :=
  JDict [("announced_at_ns", JInt (announced_at_ns h));
         ("candidate_canonical_pair", jopt JStr (candidate_canonical_pair h));
         ("candidate_instrument_key", jopt JStr (candidate_instrument_key h));
         ("confirmed_at_ns", jopt JInt (confirmed_at_ns h)); ("hint_id", JStr (hint_id h));
         ("raw_reference", JStr (h_raw_reference h))].
Definition _snapshot_page_payload (p : SnapshotPage) : Json :=
  JDict [("raw_reference", JStr (raw_reference p)); ("request_cursor", jopt JStr (request_cursor p));
         ("next_cursor", jopt JStr (next_cursor p))].

(** *** Reading an instrument back

    An argument of the wrong type makes a constructor raise; which of several errors is
    raised first does not matter, since the caller turns all of them into one. *)
Definition CatalogInstrument_init (self : CatalogInstrument) (phase : option LifecyclePhase) : result CatalogInstrument :=
  let! r := record_init (inst self) phase in
  instrument_validate {|
    inst := r; first_seen_ns := first_seen_ns self; last_seen_ns := last_seen_ns self; is_present := is_present self;
    listing_state := listing_state self; first_tradable_seen_ns := first_tradable_seen_ns self;
    listing_generation := listing_generation self; last_terminal_seen_ns := last_terminal_seen_ns self;
    new_listing_started_at_ns := new_listing_started_at_ns self; new_listing_source := new_listing_source self;
    new_listing_eligible := new_listing_eligible self |}.

Definition field (k : string) (items : list (string * Json)) : Json :=
  match find (fun kv => String.eqb kv.1 k) items with Some kv => kv.2 | None => JNull end.
Definition str_arg (j : Json) : result string :=
  match j with JStr s => Ok s | _ => Err (ValueError "must be a non-empty string") end.
Definition int_arg (j : Json) : result Z :=
  match j with JInt n => Ok n | _ => Err (ValueError "must be a non-negative integer") end.
Definition bool_arg (j : Json) : result bool :=
  match j with JBool b => Ok b | _ => Err (TypeError "must be a boolean") end.
Definition enum_arg {A} `{StrEnum A} (j : Json) : result A :=
  match j with
  | JStr s => match of_value s with Some a => Ok a | None => Err (ValueError "unsupported value") end
  | _ => Err (TypeError "must be a member or string")
  end.
Definition opt_arg {A} (arg : Json -> result A) (j : Json) : result (option A) :=
  match j with JNull => Ok None | _ => let! a := arg j in Ok (Some a) end.
Definition symbols_arg (j : Json) : result (gmap string string) :=
  match j with
  | JDict items =>
      let! symbols := check_all (fun kv => let! s := str_arg kv.2 in Ok (kv.1, s)) items in
      Ok (list_to_map symbols)
  | _ => Err (ValueError "wire_symbols must be a non-empty mapping")
  end.
(** The keys of a node are exactly the expected ones. *)
Definition has_fields (expected : list string) (items : list (string * Json)) : bool :=
  bool_decide (py_sorted string_leb items.*1 = expected).

Definition turnover_from_payload (node : Json) : result Turnover :=
  match node with
  | JDict t =>
      raise ValueError "selection instrument turnover has malformed fields"
        when negb (has_fields ["currency"; "method"; "observed_at_ns"; "raw_reference"; "value"] t);;
      match field "value" t with
      | JStr encoded =>
          match decimal_of_str encoded with
          | Some value =>
              let! method := enum_arg (field "method" t) in
              let! currency := str_arg (field "currency" t) in
              let! observed := opt_arg int_arg (field "observed_at_ns" t) in
              let! reference := opt_arg str_arg (field "raw_reference" t) in
              turnover_init (DDec value) method currency observed reference
          | None => Err (ValueError "selection instrument turnover value is invalid")
          end
      | _ => Err (TypeError "selection instrument turnover value must be a string")
      end
  | _ => Err (ValueError "selection instrument turnover has malformed fields")
  end.

Definition instrument_fields : list string :=
  ["base_asset"; "canonical_pair"; "exchange"; "first_seen_ns"; "first_tradable_seen_ns"; "instrument_key";
   "last_seen_ns"; "last_terminal_seen_ns"; "lifecycle"; "lifecycle_phase"; "listing_generation"; "listing_state";
   "market"; "new_listing_eligible"; "new_listing_source"; "new_listing_started_at_ns"; "present"; "quote_asset";
   "raw_catalog_reference"; "settlement_asset"; "status"; "tradable"; "tradable_at_ns"; "tradable_at_source";
   "turnover"; "wire_symbols"].

Definition _catalog_instrument_from_payload (value : Json) : result CatalogInstrument :=
  match value with
  | JDict v =>
      raise ValueError "selection instrument snapshot has malformed fields" when negb (has_fields instrument_fields v);;
      let! turnover := opt_arg turnover_from_payload (field "turnover" v) in
      let! exchange := enum_arg (field "exchange" v) in
      let! market := enum_arg (field "market" v) in
      let! instrument_key := str_arg (field "instrument_key" v) in
      let! canonical_pair := str_arg (field "canonical_pair" v) in
      let! wire_symbols := symbols_arg (field "wire_symbols" v) in
      let! base_asset := str_arg (field "base_asset" v) in
      let! quote_asset := str_arg (field "quote_asset" v) in
      let! settlement_asset := opt_arg str_arg (field "settlement_asset" v) in
      let! status := str_arg (field "status" v) in
      let! phase := opt_arg enum_arg (field "lifecycle_phase" v) in
      let! tradable := bool_arg (field "tradable" v) in
      let! lifecycle := _decode_typed_json_node (field "lifecycle" v) in
      let! tradable_at_ns := opt_arg int_arg (field "tradable_at_ns" v) in
      let! tradable_at_source := opt_arg enum_arg (field "tradable_at_source" v) in
      let! raw_catalog_reference := str_arg (field "raw_catalog_reference" v) in
      let! first_seen_ns := int_arg (field "first_seen_ns" v) in
      let! last_seen_ns := int_arg (field "last_seen_ns" v) in
      let! present := bool_arg (field "present" v) in
      let! listing_state := enum_arg (field "listing_state" v) in
      let! first_tradable_seen_ns := opt_arg int_arg (field "first_tradable_seen_ns" v) in
      let! listing_generation := int_arg (field "listing_generation" v) in
      let! last_terminal_seen_ns := opt_arg int_arg (field "last_terminal_seen_ns" v) in
      let! new_listing_started_at_ns := opt_arg int_arg (field "new_listing_started_at_ns" v) in
      let! new_listing_source := opt_arg enum_arg (field "new_listing_source" v) in
      let! new_listing_eligible := bool_arg (field "new_listing_eligible" v) in
      CatalogInstrument_init {|
        inst := {|
          SelectionModels.exchange := exchange; SelectionModels.market := market;
          SelectionModels.instrument_key := instrument_key; SelectionModels.canonical_pair := canonical_pair;
          SelectionModels.wire_symbols := wire_symbols; SelectionModels.base_asset := base_asset;
          SelectionModels.quote_asset := quote_asset; SelectionModels.settlement_asset := settlement_asset;
          SelectionModels.status := status; lifecycle_phase := UNKNOWN; SelectionModels.tradable := tradable;
          SelectionModels.lifecycle := lifecycle; SelectionModels.tradable_at_ns := tradable_at_ns;
          SelectionModels.tradable_at_source := tradable_at_source; SelectionModels.turnover := turnover;
          SelectionModels.raw_catalog_reference := raw_catalog_reference |};
        SelectionModels.first_seen_ns := first_seen_ns; SelectionModels.last_seen_ns := last_seen_ns;
        is_present := present; SelectionModels.listing_state := listing_state;
        SelectionModels.first_tradable_seen_ns := first_tradable_seen_ns;
        SelectionModels.listing_generation := listing_generation;
        SelectionModels.last_terminal_seen_ns := last_terminal_seen_ns;
        SelectionModels.new_listing_started_at_ns := new_listing_started_at_ns;
        SelectionModels.new_listing_source := new_listing_source;
        SelectionModels.new_listing_eligible := new_listing_eligible |} phase
  | _ => Err (ValueError "selection instrument snapshot has malformed fields")
  end.

(** ** The round trip of instruments *)
Definition with_lifecycle (j : Json) (r : InstrumentRecord) : InstrumentRecord := {|
  exchange := exchange r; market := market r; instrument_key := instrument_key r; canonical_pair := canonical_pair r;
  wire_symbols := wire_symbols r; base_asset := base_asset r; quote_asset := quote_asset r;
  settlement_asset := settlement_asset r; status := status r; lifecycle_phase := lifecycle_phase r;
  tradable := tradable r; lifecycle := j; tradable_at_ns := tradable_at_ns r;
  tradable_at_source := tradable_at_source r; turnover := turnover r;
  raw_catalog_reference := raw_catalog_reference r |}.
Definition with_record (r : InstrumentRecord) (i : CatalogInstrument) : CatalogInstrument := {|
  inst := r; first_seen_ns := first_seen_ns i; last_seen_ns := last_seen_ns i; is_present := is_present i;
  listing_state := listing_state i; first_tradable_seen_ns := first_tradable_seen_ns i;
  listing_generation := listing_generation i; last_terminal_seen_ns := last_terminal_seen_ns i;
  new_listing_started_at_ns := new_listing_started_at_ns i; new_listing_source := new_listing_source i;
  new_listing_eligible := new_listing_eligible i |}.

(** An instrument as it is read back. *)
Definition stored (i : CatalogInstrument) : CatalogInstrument :=
  with_record (with_lifecycle (sorted_json (lifecycle (inst i))) (inst i)) i.

(** An instrument its constructor made. *)
Definition made (i : CatalogInstrument) : Prop :=
  CatalogInstrument_init i (Some (lifecycle_phase (inst i))) = Ok i /\
  opt_ok (fun t => is_ok (turnover_init (DDec (Finite (to_value t))) (to_method t) (to_currency t)
    (to_observed_at_ns t) (to_raw_reference t))) (turnover (inst i)) = true.

Ltac same_checks :=
  repeat match goal with
  | |- rbind ?m _ = rbind (rbind ?m _) _ => destruct m; cbn [rbind]; [|reflexivity]
  | |- raise_if ?c _ _ = rbind (raise_if ?c _ _) _ => destruct c; cbn [rbind raise_if]; [reflexivity|]
  end.

Lemma record_init_lifecycle j r p :
  record_init (with_lifecycle j r) p = let! r' := record_init r p in Ok (with_lifecycle j r').
Proof. unfold record_init. cbn [with_lifecycle exchange market instrument_key canonical_pair wire_symbols base_asset
  quote_asset settlement_asset status lifecycle_phase tradable lifecycle tradable_at_ns tradable_at_source turnover
  raw_catalog_reference]. same_checks. done. Qed.

Lemma validate_lifecycle j i : instrument_validate (with_record (with_lifecycle j (inst i)) i)
  = let! i' := instrument_validate i in Ok (with_record (with_lifecycle j (inst i')) i').
Proof. unfold instrument_validate. cbn [with_record with_lifecycle inst first_seen_ns last_seen_ns is_present
  listing_state first_tradable_seen_ns listing_generation last_terminal_seen_ns new_listing_started_at_ns
  new_listing_source new_listing_eligible tradable lifecycle_phase]. cbv zeta. same_checks. done. Qed.

Lemma init_lifecycle j i p i' : CatalogInstrument_init i p = Ok i' ->
  CatalogInstrument_init (with_record (with_lifecycle j (inst i)) i) p
  = Ok (with_record (with_lifecycle j (inst i')) i').
Proof.
  unfold CatalogInstrument_init. cbn [with_record inst]. rewrite record_init_lifecycle.
  destruct (record_init (inst i) p) as [r|e]; cbn [rbind]; [|done]. intros H.
  change (instrument_validate (with_record r i) = Ok i') in H.
  transitivity (let! i' := instrument_validate (with_record r i) in Ok (with_record (with_lifecycle j (inst i')) i'));
    [exact (validate_lifecycle j (with_record r i))|by rewrite H].
Qed.

Lemma enum_arg_jenum {A} `{StrEnum A} (a : A) : enum_arg (jenum a) = Ok a.
Proof. unfold enum_arg, jenum. by rewrite of_value_value. Qed.
Lemma opt_enum {A} `{StrEnum A} (o : option A) : opt_arg enum_arg (jopt jenum o) = Ok o.
Proof. destruct o as [a|]; [|done]. cbn. by rewrite of_value_value. Qed.
Lemma opt_enum_some {A} `{StrEnum A} (a : A) : opt_arg enum_arg (jenum a) = Ok (Some a).
Proof. apply (opt_enum (Some a)). Qed.
Lemma opt_int o : opt_arg int_arg (jopt JInt o) = Ok o. Proof. by destruct o. Qed.
Lemma opt_str o : opt_arg str_arg (jopt JStr o) = Ok o. Proof. by destruct o. Qed.

Lemma symbols_roundtrip w : symbols_arg (wire_symbols_payload w) = Ok w.
Proof.
  unfold symbols_arg, wire_symbols_payload. set (l := py_sorted by_name (map_to_list w)).
  assert (Hl : forall l' : list (string * string), check_all (fun kv => let! s := str_arg kv.2 in Ok (kv.1, s))
    (List.map (fun kv => (kv.1, JStr kv.2)) l') = Ok l').
  { induction l' as [|[k v] l' IH]; [done|]. cbn. by rewrite IH. }
  rewrite Hl. cbn [rbind]. f_equal. rewrite <- (list_to_map_to_list w). apply list_to_map_proper.
  - unfold l. rewrite py_sorted_perm. apply NoDup_fst_map_to_list.
  - unfold l. apply py_sorted_perm.
Qed.

Lemma turnover_roundtrip t t' :
  turnover_init (DDec (Finite (to_value t))) (to_method t) (to_currency t) (to_observed_at_ns t) (to_raw_reference t) = Ok t' ->
  turnover_from_payload (turnover_payload t) = Ok t.
Proof.
  intros Hi. assert (t' = t) as ->.
  { destruct t as [v m c o r]. unfold turnover_init, optionally, _optional_nonnegative_int, _optional_nonempty_string in Hi.
    cbn in Hi. inv_ok. repeat match goal with H : _nonempty_string _ _ = Ok _ |- _ =>
      unfold _nonempty_string in H; inv_ok end. f_equal.
    - unfold optionally in *. destruct o; inv_ok; [|done]. unfold _nonnegative_int in *. by inv_ok.
    - unfold optionally in *. destruct r; inv_ok; [|done]. unfold _nonempty_string in *. by inv_ok. }
  destruct t as [v m c o r]. unfold turnover_payload, turnover_from_payload. cbn [to_value to_method to_currency
    to_observed_at_ns to_raw_reference] in *.
  assert (Hf : forall a b c d e, has_fields ["currency"; "method"; "observed_at_ns"; "raw_reference"; "value"]
    [("value", a); ("method", b); ("currency", c); ("observed_at_ns", d); ("raw_reference", e)] = true).
  { intros. vm_compute. done. }
  rewrite Hf. cbn -[decimal_of_str enum_arg opt_arg turnover_init str_of_dec jopt jenum].
  rewrite dec_roundtrip, enum_arg_jenum. cbn [rbind]. rewrite opt_int. cbn [rbind]. rewrite opt_str. exact Hi.
Qed.

Lemma opt_turnover o :
  opt_ok (fun t => is_ok (turnover_init (DDec (Finite (to_value t))) (to_method t) (to_currency t)
    (to_observed_at_ns t) (to_raw_reference t))) o = true ->
  opt_arg turnover_from_payload (jopt turnover_payload o) = Ok o.
Proof.
  destruct o as [t|]; [|done]. cbn [opt_ok jopt]. intros Hi.
  destruct (turnover_init _ _ _ _ _) as [t'|] eqn:E; [|done]. unfold opt_arg.
  pose proof (turnover_roundtrip t t' E) as H. unfold turnover_payload in H |- *. by rewrite H.
Qed.

Lemma instrument_payload_spec i : made i -> json_wf (lifecycle (inst i)) = true ->
  _catalog_instrument_from_payload (_catalog_instrument_payload i) = Ok (stored i).
Proof.
  intros [Hm Ht] Hwf. pose proof (init_lifecycle (sorted_json (lifecycle (inst i))) i _ i Hm) as Hinit.
  destruct i as [[ex ma key pair wires base_a quote settle st phase trad life tat tas turn raw]
    fs ls pres state fts gen term start src elig].
  cbn [inst lifecycle lifecycle_phase turnover] in *.
  unfold _catalog_instrument_from_payload, _catalog_instrument_payload, _record_payload.
  cbn [inst exchange market instrument_key canonical_pair wire_symbols base_asset quote_asset settlement_asset status
    lifecycle_phase tradable lifecycle tradable_at_ns tradable_at_source turnover raw_catalog_reference first_seen_ns
    last_seen_ns is_present listing_state first_tradable_seen_ns listing_generation last_terminal_seen_ns
    new_listing_started_at_ns new_listing_source new_listing_eligible app].
  match goal with |- raise_if (negb ?b) _ _ = _ => assert (Hf : b = true) end.
  { generalize (jenum ex) (jenum ma) (wire_symbols_payload wires) (jopt JStr settle) (jenum phase) (_typed_json_node life)
      (jopt JInt tat) (jopt jenum tas) (jopt turnover_payload turn) (jopt JInt fts) (jopt JInt term) (jenum state)
      (jopt jenum src) (jopt JInt start). intros. vm_compute. done. }
  rewrite Hf. cbn [negb raise_if].
  repeat match goal with |- context [field ?k ?l] =>
    let v := eval cbv [field find String.eqb Ascii.eqb Bool.eqb fst snd] in (field k l) in
    change (field k l) with v end.
  rewrite opt_turnover by done.
  repeat (cbn [rbind str_arg bool_arg int_arg];
    first [rewrite enum_arg_jenum|rewrite symbols_roundtrip|rewrite opt_str|rewrite opt_enum_some|rewrite opt_int
          |rewrite opt_enum|rewrite typed_node_spec by done]).
  exact Hinit.
Qed.

(** ** Selections *)
Definition entry_node (key : string) (e : SelectionEntry) : Json :=
  JDict [("instrument_key", JStr key); ("instrument", _catalog_instrument_payload (instrument e));
         ("reasons", JInt (reasons e)); ("top_exit_started_at_ns", jopt JInt (top_exit_started_at_ns e));
         ("top_n_rank", jopt JInt (top_n_rank e))].
Definition _selection_state_entries_payload (state : SelectionState) : Json :=
  JList (List.map (fun ke => entry_node ke.1 ke.2) (py_sorted by_name (map_to_list (entries state)))).
Definition priority_value (p : AdmissionPriority) : Z :=
  match p with PRIORITY_TOP_N => 1 | PRIORITY_NEW_LISTING => 2 | PRIORITY_FIXED => 3 end.
Definition _selection_entry_payload (e : SelectionEntry) : Json :=
  JDict [("admission_priority", JInt (priority_value (admission_priority e)));
         ("instrument", _catalog_instrument_payload (instrument e)); ("reasons", JInt (reasons e));
         ("top_exit_started_at_ns", jopt JInt (top_exit_started_at_ns e)); ("top_n_rank", jopt JInt (top_n_rank e))].

(** [SelectionReason(n)]: a negative number stands for the complement of its bits. *)
Definition selection_reason (n : Z) : Z :=
  if 0 <=? n then n else if -16 <=? n then 16 + n else Z.max 16 (2 ^ (Z.log2 (- n) + 1)) + n.

Definition malformed_entry {A} (what : string) : result A := Err (RuntimeError ("selection state " +:+ what)).

Definition entry_values (scope : CatalogScope) (key : string) (reasons : Z) (v : list (string * Json))
    : result SelectionEntry :=
  let! i := _catalog_instrument_from_payload (field "instrument" v) in
  raise ValueError "selection instrument scope mismatch" when negb (bool_decide (c_scope i = scope));;
  raise ValueError "selection instrument key mismatch" when negb (String.eqb (c_key i) key);;
  let! rank := opt_arg int_arg (field "top_n_rank" v) in
  let! started := opt_arg int_arg (field "top_exit_started_at_ns" v) in
  entry_init i (selection_reason reasons) rank started.

Definition decode_entry (scope : CatalogScope) (node : Json) : result (string * SelectionEntry) :=
  match node with
  | JDict v =>
      raise RuntimeError "selection state contains a malformed entry"
        when negb (has_fields ["instrument"; "instrument_key"; "reasons"; "top_exit_started_at_ns"; "top_n_rank"] v);;
      match field "instrument_key" v with
      | JStr key =>
          raise RuntimeError "selection state has an invalid instrument key" when negb (nonempty key);;
          match field "reasons" v with
          | JInt reasons =>
              match entry_values scope key reasons v with
              | Ok e => Ok (key, e)
              | Err (ValueError _ | TypeError _) => malformed_entry "contains invalid entry values"
              | Err e => Err e
              end
          | _ => malformed_entry "reasons must be an integer"
          end
      | _ => malformed_entry "has an invalid instrument key"
      end
  | _ => malformed_entry "contains a malformed entry"
  end.

(** The loop over the stored entries; [m] has those before. *)
Fixpoint decode_entries (scope : CatalogScope) (m : gmap string SelectionEntry) (nodes : list Json)
    : result (gmap string SelectionEntry) :=
  match nodes with
  | [] => Ok m
  | node :: nodes =>
      let! ke := decode_entry scope node in
      raise RuntimeError "selection state contains duplicate instrument keys" when present (m !! ke.1);;
      decode_entries scope (<[ke.1 := ke.2]> m) nodes
  end.

(** An entry as it is read back. *)
Definition stored_entry (e : SelectionEntry) : SelectionEntry := {|
  instrument := stored (instrument e); reasons := reasons e; top_n_rank := top_n_rank e;
  top_exit_started_at_ns := top_exit_started_at_ns e |}.

(** An entry of the state of [scope] under [key]. *)
Definition entry_made (scope : CatalogScope) (key : string) (e : SelectionEntry) : Prop :=
  nonempty key = true /\ entry_key e = key /\ c_scope (instrument e) = scope /\
  made (instrument e) /\ json_wf (lifecycle (inst (instrument e))) = true /\
  entry_init (instrument e) (reasons e) (top_n_rank e) (top_exit_started_at_ns e) = Ok e.

Lemma entry_init_instrument i j r n t e : entry_init i r n t = Ok e ->
  entry_init j r n t = Ok {| instrument := j; reasons := reasons e; top_n_rank := top_n_rank e;
                             top_exit_started_at_ns := top_exit_started_at_ns e |}.
Proof.
  unfold entry_init. cbv zeta. intros H. inv_ok.
  repeat match goal with H : ?c = false |- context [?c] => rewrite H end. cbn [raise_if].
  repeat match goal with H : ?m = Ok _ |- context [?m] => rewrite H; cbn [rbind] end.
  repeat (match goal with H : ?c = false |- context [?c] => rewrite H end; cbn [raise_if]). done.
Qed.

Lemma decode_entry_spec scope key e : entry_made scope key e ->
  decode_entry scope (entry_node key e) = Ok (key, stored_entry e).
Proof.
  intros (Hn & Hk & Hs & Hm & Hwf & He). unfold decode_entry, entry_node.
  match goal with |- raise_if (negb ?b) _ _ = _ => assert (Hf : b = true) end.
  { generalize (_catalog_instrument_payload (instrument e)). intros. vm_compute. done. }
  rewrite Hf. cbn [negb raise_if]. unfold entry_values.
  repeat match goal with |- context [field ?k ?l] =>
    let v := eval cbv [field find String.eqb Ascii.eqb Bool.eqb fst snd] in (field k l) in
    change (field k l) with v end.
  cbv beta iota. rewrite Hn, instrument_payload_spec by done. cbn [negb raise_if rbind].
  change (c_scope (stored (instrument e))) with (c_scope (instrument e)). rewrite bool_decide_eq_true_2 by done.
  change (c_key (stored (instrument e))) with (entry_key e). rewrite Hk, String.eqb_refl. cbn [negb raise_if].
  rewrite !opt_int. cbn [rbind]. pose proof (entry_init_instrument _ (stored (instrument e)) _ _ _ _ He) as Hi.
  assert (Hr : 0 <= reasons e).
  { clear -He. unfold entry_init in He. cbv zeta in He. inv_ok. bool_prop.
    apply Z.nlt_ge. intros Hlt.
    match goal with H : Z.land _ (Z.lnot _) = 0 |- _ => rename H into Hz end.
    assert (Hneg : Z.land (reasons e) (-16) < 0) by (apply Z.land_neg; lia). change (Z.lnot _) with (-16) in Hz. lia. }
  unfold selection_reason. rewrite (proj2 (Z.leb_le _ _) Hr), Hi. done.
Qed.

Lemma decode_entries_spec scope l m : NoDup l.*1 -> (forall k, k ∈ l.*1 -> m !! k = None) ->
  Forall (fun ke => entry_made scope ke.1 ke.2) l ->
  decode_entries scope m (List.map (fun ke => entry_node ke.1 ke.2) l)
  = Ok (list_to_map (List.map (fun ke => (ke.1, stored_entry ke.2)) l) ∪ m).
Proof.
  revert m. induction l as [|[k e] l IH]; intros m Hnd Hm HF; [cbn; by rewrite (left_id_L ∅ (∪))|].
  inversion HF as [|? ? He HF']; subst. rewrite fmap_cons in Hnd, Hm. cbn [fst snd] in *. apply NoDup_cons in Hnd as [Hn Hnd].
  cbn [List.map decode_entries fst snd]. rewrite decode_entry_spec by done. cbn [rbind fst snd].
  rewrite (Hm k) by left. cbn [present raise_if]. rewrite IH; [|done| |done].
  - f_equal. cbn [list_to_map foldr curry]. rewrite <- insert_union_l. cbn [fst snd].
    symmetry. apply insert_union_r.
    apply not_elem_of_list_to_map_1. change (k ∉ List.map fst (List.map (fun ke => (ke.1, stored_entry ke.2)) l)).
    rewrite map_map. exact Hn.
  - intros k' Hk'. rewrite lookup_insert_ne; [|set_solver]. apply Hm. by right.
Qed.

(** Reading the stored entries of a state back. *)
Lemma state_entries_spec scope state : map_Forall (entry_made scope) (entries state) ->
  match _selection_state_entries_payload state with
  | JList nodes => decode_entries scope ∅ nodes = Ok (stored_entry <$> entries state)
  | _ => False
  end.
Proof.
  intros Hm. unfold _selection_state_entries_payload. set (l := py_sorted by_name (map_to_list (entries state))).
  assert (HP : l ≡ₚ map_to_list (entries state)) by apply py_sorted_perm.
  rewrite decode_entries_spec.
  - rewrite (right_id_L ∅ (∪)). f_equal. apply map_eq. intros k. rewrite lookup_fmap.
    assert (Hk : NoDup (List.map (fun ke => (ke.1, stored_entry ke.2)) l).*1).
    { change (NoDup (List.map fst (List.map (fun ke => (ke.1, stored_entry ke.2)) l))). rewrite map_map.
      change (NoDup l.*1). rewrite HP. apply NoDup_fst_map_to_list. }
    destruct (entries state !! k) as [e|] eqn:E; cbn.
    + apply elem_of_list_to_map_1; [done|]. apply list_elem_of_In, in_map_iff. exists (k, e). split; [done|].
      apply list_elem_of_In. rewrite HP. by apply elem_of_map_to_list.
    + apply not_elem_of_list_to_map_1. intros Hin.
      change (k ∈ List.map fst (List.map (fun ke => (ke.1, stored_entry ke.2)) l)) in Hin. rewrite map_map in Hin.
      change (k ∈ l.*1) in Hin. rewrite HP in Hin. apply list_elem_of_fmap in Hin as ([k' e] & -> & Hin).
      apply elem_of_map_to_list in Hin. cbn in E. congruence.
  - rewrite HP. apply NoDup_fst_map_to_list.
  - intros. apply lookup_empty.
  - rewrite HP. apply Forall_forall. intros [k e] Hin. apply elem_of_map_to_list in Hin. exact (Hm k e Hin).
Qed.

(** ** The JSON values the store writes have no decimals *)
Lemma plain_node j : plain (_typed_json_node j) = true.
Proof.
  induction j as [|b|n|d|s|items IH|items IH] using json_nested_ind; try done; cbn; rewrite andb_true_r; apply forallb_forall;
    intros x Hx; apply in_map_iff in Hx as (y & <- & Hy); rewrite Forall_forall in IH.
  - by apply IH, list_elem_of_In.
  - apply list_elem_of_In in Hy. rewrite elem_of_py_sorted in Hy. apply list_elem_of_In, in_map_iff in Hy as (kv & <- & Hkv).
    cbn. rewrite IH; [done|]. by apply list_elem_of_In.
Qed.

Lemma plain_opt {A} (f : A -> Json) o : (forall a, plain (f a) = true) -> plain (jopt f o) = true.
Proof. destruct o; intros H; [apply H|done]. Qed.

Lemma plain_wires w : plain (wire_symbols_payload w) = true.
Proof.
  unfold wire_symbols_payload. cbn. apply andb_true_iff. split.
  - unfold unique. apply bool_decide_eq_true. set (l := py_sorted by_name (map_to_list w)).
    change (NoDup (List.map fst (List.map (fun kv => (kv.1, JStr kv.2)) l))). rewrite map_map. change (NoDup l.*1).
    unfold l. rewrite py_sorted_perm. apply NoDup_fst_map_to_list.
  - apply forallb_forall. intros x Hx. by apply in_map_iff in Hx as (y & <- & _).
Qed.

Lemma plain_instrument i : plain (_catalog_instrument_payload i) = true.
Proof.
  unfold _catalog_instrument_payload, _record_payload. cbn [plain app]. apply andb_true_iff. split.
  - generalize (wire_symbols_payload (wire_symbols (inst i))) (_typed_json_node (lifecycle (inst i)))
      (jopt turnover_payload (turnover (inst i))). intros. destruct i as [[]]. vm_compute. done.
  - cbn [forallb snd]. rewrite plain_wires, plain_node, !plain_opt by (done || by intros []; destruct to_observed_at_ns, to_raw_reference).
    done.
Qed.

Lemma plain_entries state : plain (_selection_state_entries_payload state) = true.
Proof.
  unfold _selection_state_entries_payload. cbn [plain]. apply forallb_forall. intros x Hx.
  apply in_map_iff in Hx as (ke & <- & _). unfold entry_node. cbn [plain]. apply andb_true_iff. split.
  - generalize (_catalog_instrument_payload (instrument ke.2)). intros. vm_compute. done.
  - cbn [forallb snd]. by rewrite plain_instrument, !plain_opt.
Qed.

(** ** Stored text *)
Section Stored.
Context `{JsonCodecLaws}.

Definition _encode_typed_json (value : Json) : string := encode_json (_typed_json_node value).
Definition _decode_typed_json (data : string) : result Json :=
  let! node := decode_json data in _decode_typed_json_node node.

Lemma typed_json_stored j : json_wf j = true -> _decode_typed_json (_encode_typed_json j) = Ok (sorted_json j).
Proof.
  intros Hwf. unfold _decode_typed_json, _encode_typed_json. rewrite decode_encode by apply plain_node.
  cbn [rbind]. by apply typed_node_spec.
Qed.

(** C40: The typed JSON text of any payload, of decimals, booleans, integers and texts
    nested at any depth, reads back as a value that [==] cannot tell from it: every
    scalar has its type, value and decimal exponent, and only the order in which a
    dictionary lists its keys changes. *)
Theorem typed_json_roundtrip (j : Json) : json_wf j = true ->
  _decode_typed_json (_encode_typed_json j) = Ok (sorted_json j) /\ json_eqb j (sorted_json j) = true.
Proof. intros Hwf. split; [by apply typed_json_stored|by apply json_eqb_sorted]. Qed.
End Stored.
