(* ===== verification/CatalogRows.v ===== *)
(** The rows of [selection/catalog_store.py]: its tables, what each column takes and
    gives back, the constraints SQLite checks on a row, and the step that decides what
    a snapshot makes of one instrument.

    A column that stores a member of an enumeration by its value holds the member. *)
From stdpp Require Import pretty.
From S2P Require Import Prelude PyDecimal Domain StorageModels SelectionModels Selector PyText CatalogJson.
From S2P Require Import StateStore.

(** ** Tables *)
Record ScopeRow : Type := {
  last_observed_at_ns : Z; snapshot_digest : string; row_revision : Z; complete : bool; row_snapshot_id : string;
  page_raw_references_json : string; turnover_last_observed_at_ns : option Z;
  turnover_snapshot_digest : option string; row_turnover_revision : Z; row_turnover_snapshot_id : option string;
  turnover_page_raw_references_json : option string; row_turnover_catalog_revision : option Z;
  turnover_covered_keys_json : option string
}.

Record TurnoverColumns : Type := {
  turnover_value_text : option string; turnover_method : option TurnoverMethod;
  turnover_currency : option string; turnover_observed : option Z; turnover_raw_reference : option string
}.
#[export] Instance TurnoverColumns_eq_dec : EqDecision TurnoverColumns.
Proof. solve_decision. Defined.

Record InstrumentRow : Type := {
  r_canonical_pair : string; wire_symbols_json : string; r_base_asset : string; r_quote_asset : string;
  r_settlement_asset : option string; r_status : string; r_lifecycle_phase : LifecyclePhase; r_tradable : bool;
  lifecycle_json : string; r_tradable_at_ns : option Z; r_tradable_at_source : option TradableAtSource;
  r_first_seen_ns : Z; r_last_seen_ns : Z; turnover_columns : TurnoverColumns; r_raw_catalog_reference : string;
  r_present : bool; r_listing_state : ListingState; r_first_tradable_seen_ns : option Z;
  r_listing_generation : Z; r_last_terminal_seen_ns : option Z; r_new_listing_started_at_ns : option Z;
  r_new_listing_source : option TradableAtSource; r_new_listing_eligible : bool
}.

Record HintRow : Type := {
  row_candidate_key : option string; row_candidate_pair : option string; row_announced_at_ns : Z;
  row_raw_reference : string; row_confirmed_at_ns : option Z
}.

Record ChangeRow : Type := {
  o_scope : CatalogScope; o_catalog_revision : Z; o_ordinal : Z; o_kind : string; o_instrument_key : string;
  o_payload_json : string
}.

Record SelectionRow : Type := {
  state_revision : Z; row_catalog_revision : Z; row_selection_turnover_revision : Z; entries_json : string
}.

Record SelectionChangeRow : Type := {
  e_scope : CatalogScope; e_policy_id : string; e_state_revision : Z; e_catalog_revision : Z; e_ordinal : Z;
  e_kind : string; e_instrument_key : string; e_payload_json : string
}.

Record Db : Type := {
  catalog_scope_state : gmap CatalogScope ScopeRow;
  catalog_instrument : gmap (CatalogScope * string) InstrumentRow;
  catalog_announcement_hint : gmap (CatalogScope * string) HintRow;
  catalog_change_outbox : gmap string ChangeRow;
  selection_state : gmap (CatalogScope * string) SelectionRow;
  selection_change_outbox : gmap string SelectionChangeRow
}.

Definition set_scopes (t : gmap CatalogScope ScopeRow) (db : Db) : Db := {|
  catalog_scope_state := t; catalog_instrument := catalog_instrument db;
  catalog_announcement_hint := catalog_announcement_hint db; catalog_change_outbox := catalog_change_outbox db;
  selection_state := selection_state db; selection_change_outbox := selection_change_outbox db |}.
Definition set_instruments (t : gmap (CatalogScope * string) InstrumentRow) (db : Db) : Db := {|
  catalog_scope_state := catalog_scope_state db; catalog_instrument := t;
  catalog_announcement_hint := catalog_announcement_hint db; catalog_change_outbox := catalog_change_outbox db;
  selection_state := selection_state db; selection_change_outbox := selection_change_outbox db |}.
Definition set_hints (t : gmap (CatalogScope * string) HintRow) (db : Db) : Db := {|
  catalog_scope_state := catalog_scope_state db; catalog_instrument := catalog_instrument db;
  catalog_announcement_hint := t; catalog_change_outbox := catalog_change_outbox db;
  selection_state := selection_state db; selection_change_outbox := selection_change_outbox db |}.
Definition set_changes (t : gmap string ChangeRow) (db : Db) : Db := {|
  catalog_scope_state := catalog_scope_state db; catalog_instrument := catalog_instrument db;
  catalog_announcement_hint := catalog_announcement_hint db; catalog_change_outbox := t;
  selection_state := selection_state db; selection_change_outbox := selection_change_outbox db |}.
Definition set_selections (t : gmap (CatalogScope * string) SelectionRow) (db : Db) : Db := {|
  catalog_scope_state := catalog_scope_state db; catalog_instrument := catalog_instrument db;
  catalog_announcement_hint := catalog_announcement_hint db; catalog_change_outbox := catalog_change_outbox db;
  selection_state := t; selection_change_outbox := selection_change_outbox db |}.
Definition set_selection_changes (t : gmap string SelectionChangeRow) (db : Db) : Db := {|
  catalog_scope_state := catalog_scope_state db; catalog_instrument := catalog_instrument db;
  catalog_announcement_hint := catalog_announcement_hint db; catalog_change_outbox := catalog_change_outbox db;
  selection_state := selection_state db; selection_change_outbox := t |}.

(** The rows of a scope, [ORDER BY] the rest of the key. *)
Definition rows_of {A} (scope : CatalogScope) (t : gmap (CatalogScope * string) A) : list (string * A) :=
  py_sorted by_name (omap (fun kr => if bool_decide (kr.1.1 = scope) then Some (kr.1.2, kr.2) else None)
                       (map_to_list t)).

(** ** Constraints

    A comparison with [NULL] satisfies a [CHECK]. *)
Definition null_or2 {A B} (p : A -> B -> bool) (a : option A) (b : option B) : bool :=
  match a, b with Some a, Some b => p a b | _, _ => true end.
Definition paired {A B} (a : option A) (b : option B) : bool := eqb (present a) (present b).
Definition implies (a b : bool) : bool := negb a || b.

Definition instrument_checks (r : InstrumentRow) : bool :=
  let in_state (l : list ListingState) := bool_decide (r_listing_state r ∈ l) in
  let t := turnover_columns r in
  (0 <=? r_first_seen_ns r) && (r_first_seen_ns r <=? r_last_seen_ns r) && (0 <=? r_listing_generation r)
  && eqb (bool_decide (r_lifecycle_phase r = TRADABLE)) (r_tradable r)
  && implies (in_state [PENDING; PENDING_OFFICIAL; RELIST_PENDING]) (negb (r_tradable r))
  && implies (bool_decide (r_lifecycle_phase r = DELISTED))
       (in_state [RELIST_PENDING]
        && opt_ok (fun s => s =? r_last_seen_ns r) (r_last_terminal_seen_ns r))
  && (paired (turnover_value_text t) (turnover_method t) && paired (turnover_value_text t) (turnover_currency t))
  && (paired (turnover_observed t) (turnover_raw_reference t) && opt_ok nonneg (turnover_observed t))
  && paired (r_tradable_at_ns r) (r_tradable_at_source r)
  && (paired (r_new_listing_started_at_ns r) (r_new_listing_source r) && opt_ok nonneg (r_new_listing_started_at_ns r))
  && eqb (in_state [ACTIVE_NEW]) (r_new_listing_eligible r)
  && implies (in_state [ACTIVE_NEW]) (present (r_new_listing_started_at_ns r))
  && implies (in_state [BASELINE; PENDING; PENDING_OFFICIAL]) (negb (present (r_new_listing_started_at_ns r)))
  && implies (present (r_last_terminal_seen_ns r))
       (opt_ok (fun s => (r_first_seen_ns r <=? s) && (s <=? r_last_seen_ns r)) (r_last_terminal_seen_ns r)
        && in_state [RELIST_PENDING; ACTIVE_NEW])
  && implies (in_state [RELIST_PENDING]) (present (r_last_terminal_seen_ns r))
  && implies (in_state [ACTIVE_NEW])
       (null_or2 (fun terminal started => terminal <? started) (r_last_terminal_seen_ns r)
          (r_new_listing_started_at_ns r)).

Definition scope_checks (r : ScopeRow) : bool :=
  (0 <=? last_observed_at_ns r) && (0 <? row_revision r) && (String.length (snapshot_digest r) =? 64)%nat
  && complete r
  && (if row_turnover_revision r =? 0
      then negb (present (turnover_last_observed_at_ns r)) && negb (present (turnover_snapshot_digest r))
           && negb (present (row_turnover_snapshot_id r)) && negb (present (turnover_page_raw_references_json r))
           && negb (present (row_turnover_catalog_revision r)) && negb (present (turnover_covered_keys_json r))
      else (0 <? row_turnover_revision r) && present (turnover_last_observed_at_ns r)
           && match turnover_snapshot_digest r with Some d => (String.length d =? 64)%nat | None => false end
           && present (row_turnover_snapshot_id r) && present (turnover_page_raw_references_json r)
           && match row_turnover_catalog_revision r with Some n => 0 <? n | None => false end
           && present (turnover_covered_keys_json r)).

Definition hint_checks (r : HintRow) : bool :=
  (0 <=? row_announced_at_ns r) && opt_ok (fun c => row_announced_at_ns r <=? c) (row_confirmed_at_ns r)
  && (present (row_candidate_key r) || present (row_candidate_pair r)).

Definition change_checks (r : ChangeRow) : bool :=
  (0 <? o_catalog_revision r) && (0 <=? o_ordinal r)
  && bool_decide (o_kind r ∈ ["added"; "updated"; "removed"; "new_listing"; "announcement_confirmed"]).

Definition selection_checks (policy_id : string) (r : SelectionRow) : bool :=
  (String.length policy_id =? 64)%nat && (0 <? state_revision r) && (0 <? row_catalog_revision r)
  && (0 <=? row_selection_turnover_revision r).

Definition selection_change_checks (r : SelectionChangeRow) : bool :=
  (String.length (e_policy_id r) =? 64)%nat && (0 <? e_state_revision r) && (0 <? e_catalog_revision r)
  && (0 <=? e_ordinal r)
  && bool_decide (e_kind r ∈ ["selection_added"; "selection_updated"; "selection_removed"]).

Definition checked {A} (checks : bool) (k : result A) : result A :=
  raise IntegrityError "CHECK constraint failed" when negb checks;; k.

(** ** Columns of an instrument *)
Section Rows.
Context `{JsonCodec}.

(** The parameters of the [INSERT]. *)
Definition turnover_row (t : option Turnover) : TurnoverColumns := {|
  turnover_value_text := str_of_dec ∘ to_value <$> t; turnover_method := to_method <$> t;
  turnover_currency := to_currency <$> t; turnover_observed := t ≫= to_observed_at_ns;
  turnover_raw_reference := t ≫= to_raw_reference |}.
Definition instrument_row (i : CatalogInstrument) : InstrumentRow :=
  let r := inst i in {|
  r_canonical_pair := canonical_pair r; wire_symbols_json := encode_json (wire_symbols_payload (wire_symbols r));
  r_base_asset := base_asset r; r_quote_asset := quote_asset r; r_settlement_asset := settlement_asset r;
  r_status := status r; r_lifecycle_phase := lifecycle_phase r; r_tradable := tradable r;
  lifecycle_json := _encode_typed_json (lifecycle r); r_tradable_at_ns := tradable_at_ns r;
  r_tradable_at_source := tradable_at_source r; r_first_seen_ns := first_seen_ns i;
  r_last_seen_ns := last_seen_ns i; turnover_columns := turnover_row (turnover r);
  r_raw_catalog_reference := raw_catalog_reference r; r_present := true; r_listing_state := listing_state i;
  r_first_tradable_seen_ns := first_tradable_seen_ns i; r_listing_generation := listing_generation i;
  r_last_terminal_seen_ns := last_terminal_seen_ns i; r_new_listing_started_at_ns := new_listing_started_at_ns i;
  r_new_listing_source := new_listing_source i; r_new_listing_eligible := new_listing_eligible i |}.

Definition set_first_seen (t : Z) (r : InstrumentRow) : InstrumentRow := {|
  r_canonical_pair := r_canonical_pair r; wire_symbols_json := wire_symbols_json r; r_base_asset := r_base_asset r;
  r_quote_asset := r_quote_asset r; r_settlement_asset := r_settlement_asset r; r_status := r_status r;
  r_lifecycle_phase := r_lifecycle_phase r; r_tradable := r_tradable r; lifecycle_json := lifecycle_json r;
  r_tradable_at_ns := r_tradable_at_ns r; r_tradable_at_source := r_tradable_at_source r; r_first_seen_ns := t;
  r_last_seen_ns := r_last_seen_ns r; turnover_columns := turnover_columns r;
  r_raw_catalog_reference := r_raw_catalog_reference r; r_present := r_present r; r_listing_state := r_listing_state r;
  r_first_tradable_seen_ns := r_first_tradable_seen_ns r; r_listing_generation := r_listing_generation r;
  r_last_terminal_seen_ns := r_last_terminal_seen_ns r; r_new_listing_started_at_ns := r_new_listing_started_at_ns r;
  r_new_listing_source := r_new_listing_source r; r_new_listing_eligible := r_new_listing_eligible r |}.
Definition set_row_present (p : bool) (t : TurnoverColumns) (r : InstrumentRow) : InstrumentRow := {|
  r_canonical_pair := r_canonical_pair r; wire_symbols_json := wire_symbols_json r; r_base_asset := r_base_asset r;
  r_quote_asset := r_quote_asset r; r_settlement_asset := r_settlement_asset r; r_status := r_status r;
  r_lifecycle_phase := r_lifecycle_phase r; r_tradable := r_tradable r; lifecycle_json := lifecycle_json r;
  r_tradable_at_ns := r_tradable_at_ns r; r_tradable_at_source := r_tradable_at_source r;
  r_first_seen_ns := r_first_seen_ns r; r_last_seen_ns := r_last_seen_ns r; turnover_columns := t;
  r_raw_catalog_reference := r_raw_catalog_reference r; r_present := p; r_listing_state := r_listing_state r;
  r_first_tradable_seen_ns := r_first_tradable_seen_ns r; r_listing_generation := r_listing_generation r;
  r_last_terminal_seen_ns := r_last_terminal_seen_ns r; r_new_listing_started_at_ns := r_new_listing_started_at_ns r;
  r_new_listing_source := r_new_listing_source r; r_new_listing_eligible := r_new_listing_eligible r |}.

(** [_turnover_from_row]; the method is there with the value, by a [CHECK]. *)
Definition _turnover_from_row (t : TurnoverColumns) : result (option Turnover) :=
  match turnover_value_text t with
  | None => Ok None
  | Some text =>
      match decimal_of_str text with
      | None => Err (InvalidOperation "ConversionSyntax")
      | Some value =>
          match turnover_method t with
          | None => Err (ValueError "unsupported turnover method")
          | Some method =>
              let! turnover := turnover_init (DDec value) method (default "None" (turnover_currency t))
                                 (turnover_observed t) (turnover_raw_reference t) in
              Ok (Some turnover)
          end
      end
  end.

Definition _instrument_from_row (scope : CatalogScope) (key : string) (row : InstrumentRow) : result CatalogInstrument :=
  let! wires := decode_json (wire_symbols_json row) in
  let! lifecycle := _decode_typed_json (lifecycle_json row) in
  match wires, lifecycle with
  | JDict _, JDict _ =>
      let! turnover := _turnover_from_row (turnover_columns row) in
      let! wire_symbols := symbols_arg wires in
      CatalogInstrument_init {|
        inst := {|
          exchange := sc_exchange scope; market := sc_market scope; instrument_key := key;
          canonical_pair := r_canonical_pair row; SelectionModels.wire_symbols := wire_symbols;
          base_asset := r_base_asset row; quote_asset := r_quote_asset row;
          settlement_asset := r_settlement_asset row; status := r_status row; lifecycle_phase := UNKNOWN;
          tradable := r_tradable row; SelectionModels.lifecycle := lifecycle; tradable_at_ns := r_tradable_at_ns row;
          tradable_at_source := r_tradable_at_source row; SelectionModels.turnover := turnover;
          raw_catalog_reference := r_raw_catalog_reference row |};
        first_seen_ns := r_first_seen_ns row; last_seen_ns := r_last_seen_ns row; is_present := r_present row;
        listing_state := r_listing_state row; first_tradable_seen_ns := r_first_tradable_seen_ns row;
        listing_generation := r_listing_generation row; last_terminal_seen_ns := r_last_terminal_seen_ns row;
        new_listing_started_at_ns := r_new_listing_started_at_ns row;
        new_listing_source := r_new_listing_source row; new_listing_eligible := r_new_listing_eligible row |}
        (Some (r_lifecycle_phase row))
  | _, _ => Err (RuntimeError "catalog JSON columns contain invalid object values")
  end.
End Rows.

Definition _hint_from_row (scope : CatalogScope) (id : string) (row : HintRow) : result StoredAnnouncementHint :=
  hint_validate {|
    h_scope := scope; hint_id := id; announced_at_ns := row_announced_at_ns row;
    h_raw_reference := row_raw_reference row; candidate_instrument_key := row_candidate_key row;
    candidate_canonical_pair := row_candidate_pair row; confirmed_at_ns := row_confirmed_at_ns row |}.
