(* ===== verification/CatalogListing.v ===== *)
(** What a catalog snapshot makes of one instrument: [_materialize_record],
    [_with_listing_state], [_with_presence] and the body of the loop over the records in
    [CatalogStore._apply_snapshot] of [selection/catalog_store.py]. *)
From S2P Require Import Prelude PyDecimal Domain StorageModels SelectionModels Selector PyText CatalogJson CatalogRows.

(** [replace] and the constructor calls pass the phase of the record. *)
Definition rebuilt (i : CatalogInstrument) : result CatalogInstrument :=
  CatalogInstrument_init i (Some (lifecycle_phase (inst i))).

Definition set_presence (present : bool) (i : CatalogInstrument) : CatalogInstrument := {|
  inst := inst i; first_seen_ns := first_seen_ns i; last_seen_ns := last_seen_ns i; is_present := present;
  listing_state := listing_state i; first_tradable_seen_ns := first_tradable_seen_ns i;
  listing_generation := listing_generation i; last_terminal_seen_ns := last_terminal_seen_ns i;
  new_listing_started_at_ns := new_listing_started_at_ns i; new_listing_source := new_listing_source i;
  new_listing_eligible := new_listing_eligible i |}.
Definition _with_presence (record : CatalogInstrument) (present : bool) : result CatalogInstrument :=
  rebuilt (set_presence present record).

Definition retains (s : ListingState) : bool := bool_decide (s ∈ [ACTIVE_NEW; RELIST_PENDING]).

(** The instrument that [_with_listing_state] constructs. *)
Definition in_state (record : CatalogInstrument) (state : ListingState) : CatalogInstrument :=
  let retains_episode := retains state in {|
    inst := inst record; first_seen_ns := first_seen_ns record; last_seen_ns := last_seen_ns record;
    is_present := is_present record; listing_state := state;
    first_tradable_seen_ns := first_tradable_seen_ns record; listing_generation := listing_generation record;
    last_terminal_seen_ns :=
      if bool_decide (state = RELIST_PENDING) && bool_decide (lifecycle_phase (inst record) = DELISTED)
      then Some (last_seen_ns record)
      else if retains_episode then last_terminal_seen_ns record else None;
    new_listing_started_at_ns := if retains_episode then new_listing_started_at_ns record else None;
    new_listing_source := if retains_episode then new_listing_source record else None;
    new_listing_eligible := bool_decide (state = ACTIVE_NEW) |}.
Definition _with_listing_state (record : CatalogInstrument) (state : ListingState) : result CatalogInstrument :=
  rebuilt (in_state record state).

Definition set_tradable_at (t : option Z) (s : option TradableAtSource) (r : InstrumentRecord) : InstrumentRecord := {|
  exchange := exchange r; market := market r; instrument_key := instrument_key r; canonical_pair := canonical_pair r;
  wire_symbols := wire_symbols r; base_asset := base_asset r; quote_asset := quote_asset r;
  settlement_asset := settlement_asset r; status := status r; lifecycle_phase := lifecycle_phase r;
  tradable := tradable r; lifecycle := lifecycle r; tradable_at_ns := t; tradable_at_source := s;
  turnover := turnover r; raw_catalog_reference := raw_catalog_reference r |}.
Definition set_turnover (t : option Turnover) (r : InstrumentRecord) : InstrumentRecord := {|
  exchange := exchange r; market := market r; instrument_key := instrument_key r; canonical_pair := canonical_pair r;
  wire_symbols := wire_symbols r; base_asset := base_asset r; quote_asset := quote_asset r;
  settlement_asset := settlement_asset r; status := status r; lifecycle_phase := lifecycle_phase r;
  tradable := tradable r; lifecycle := lifecycle r; tradable_at_ns := tradable_at_ns r;
  tradable_at_source := tradable_at_source r; turnover := t; raw_catalog_reference := raw_catalog_reference r |}.

(** The listing state, and the time from which the record is tradable, before the
    snapshot is complete. *)
Definition materialized_state (record : InstrumentRecord) (prior : option CatalogInstrument) : ListingState :=
  let state := match prior with None => PENDING | Some p => listing_state p end in
  if bool_decide (lifecycle_phase record = DELISTED) then RELIST_PENDING
  else if tradable record && bool_decide (state ∈ [PENDING; PENDING_OFFICIAL; RELIST_PENDING]) then BASELINE
  else state.
Definition materialized_time (record : InstrumentRecord) (prior : option CatalogInstrument) (observed_at_ns : Z)
    : option Z * option TradableAtSource :=
  match tradable_at_ns record with
  | Some t => (Some t, tradable_at_source record)
  | None =>
      let unknown :=
        if tradable record then (Some observed_at_ns, Some FIRST_TRADABLE_SEEN) else (None, None) in
      match prior with
      | Some p =>
          if negb (bool_decide (lifecycle_phase (inst p) = DELISTED)) && present (tradable_at_ns (inst p))
          then (tradable_at_ns (inst p), tradable_at_source (inst p)) else unknown
      | None => unknown
      end
  end.

(** A field of the prior instrument that belongs to its episode. *)
Definition kept {A} (retains_episode : bool) (prior : option CatalogInstrument) (f : CatalogInstrument -> option A)
    : option A := if retains_episode then prior ≫= f else None.

(** The instrument that [_materialize_record] constructs. *)
Definition materialized (record : InstrumentRecord) (prior : option CatalogInstrument) (observed_at_ns : Z)
    : CatalogInstrument :=
  let state := materialized_state record prior in
  let retains_episode := retains state in
  let time := materialized_time record prior observed_at_ns in
  let quoted :=
    match turnover record, prior with
    | None, Some p =>
        if String.eqb (quote_asset (inst p)) (quote_asset record) then turnover (inst p) else None
    | t, _ => t
    end in {|
    inst := set_turnover quoted (set_tradable_at time.1 time.2 record);
    first_seen_ns := match prior with None => observed_at_ns | Some p => first_seen_ns p end;
    last_seen_ns := observed_at_ns; is_present := true; listing_state := state;
    first_tradable_seen_ns :=
      if tradable record && negb (present (prior ≫= first_tradable_seen_ns)) then Some observed_at_ns
      else prior ≫= first_tradable_seen_ns;
    listing_generation := match prior with None => 0 | Some p => listing_generation p end;
    last_terminal_seen_ns :=
      if bool_decide (lifecycle_phase record = DELISTED) then Some observed_at_ns
      else kept retains_episode prior last_terminal_seen_ns;
    new_listing_started_at_ns := kept retains_episode prior new_listing_started_at_ns;
    new_listing_source := kept retains_episode prior new_listing_source;
    new_listing_eligible := bool_decide (state = ACTIVE_NEW) |}.
Definition _materialize_record (record : InstrumentRecord) (prior : option CatalogInstrument) (observed_at_ns : Z)
    : result CatalogInstrument := rebuilt (materialized record prior observed_at_ns).

(** [_provider_fields(a) == _provider_fields(b)]; the nodes decide about the payloads. *)
Definition same_provider_fields (a b : CatalogInstrument) : bool :=
  let x := inst a in let y := inst b in
  String.eqb (canonical_pair x) (canonical_pair y) && bool_decide (wire_symbols x = wire_symbols y)
  && String.eqb (base_asset x) (base_asset y) && String.eqb (quote_asset x) (quote_asset y)
  && bool_decide (settlement_asset x = settlement_asset y) && String.eqb (status x) (status y)
  && bool_decide (lifecycle_phase x = lifecycle_phase y) && eqb (tradable x) (tradable y)
  && bool_decide (_typed_json_node (lifecycle x) = _typed_json_node (lifecycle y))
  && bool_decide (tradable_at_ns x = tradable_at_ns y) && bool_decide (tradable_at_source x = tradable_at_source y)
  && String.eqb (raw_catalog_reference x) (raw_catalog_reference y) && eqb (is_present a) (is_present b)
  && bool_decide (last_terminal_seen_ns a = last_terminal_seen_ns b).

(** ** One record of a snapshot *)
(** An official time of the item that [ok] accepts and that has come. *)
Definition official_time (i : CatalogInstrument) (observed_at : Z) (ok : Z -> bool) : bool :=
  match tradable_at_source (inst i), tradable_at_ns (inst i) with
  | Some s, Some t => is_official s && (t <=? observed_at) && ok t
  | _, _ => false
  end.

(** [replace(item, tradable_at_ns=observed_at, tradable_at_source=FIRST_TRADABLE_SEEN)] *)
Definition seen_now (observed_at : Z) (i : CatalogInstrument) : result CatalogInstrument :=
  rebuilt (with_record (set_tradable_at (Some observed_at) (Some FIRST_TRADABLE_SEEN) (inst i)) i).

(** The outcome for one record: the item, its new state, whether it is a new listing, and
    the terminal evidence a relisting follows. *)
Record Placement : Type := {
  p_item : CatalogInstrument; p_state : ListingState; p_new : bool; p_terminal : option Z
}.
Definition settled (item : CatalogInstrument) (state : ListingState) : Placement :=
  {| p_item := item; p_state := state; p_new := false; p_terminal := None |}.
Definition listed (item : CatalogInstrument) (terminal : option Z) : Placement :=
  {| p_item := item; p_state := ACTIVE_NEW; p_new := true; p_terminal := terminal |}.

(** A record that is in no row yet. *)
Definition place_first (item : CatalogInstrument) (is_initial : bool) (lookback observed_at : Z) : result Placement :=
  let official_recent := (0 <? lookback) && official_time item observed_at (fun t => observed_at - t <=? lookback) in
  let has_observed_official_time := official_time item observed_at (fun _ => true) in
  let phase := lifecycle_phase (inst item) in
  if is_initial && tradable (inst item) && official_recent then Ok (listed item None)
  else if is_initial then
    Ok (settled item
      (if bool_decide (phase = PREOPEN) then (if official_recent then PENDING_OFFICIAL else PENDING)
       else if bool_decide (phase = DELISTED) then RELIST_PENDING else BASELINE))
  else if tradable (inst item) then
    let! item := if opt_ok (fun t => t <=? observed_at) (tradable_at_ns (inst item)) then Ok item
                 else seen_now observed_at item in
    Ok (listed item None)
  else
    Ok (settled item
      (if bool_decide (phase = PREOPEN) then (if has_observed_official_time then PENDING_OFFICIAL else PENDING)
       else if bool_decide (phase = DELISTED) then RELIST_PENDING else BASELINE)).

(** A record whose instrument was seen before, as [old]. *)
Definition place_again (item old : CatalogInstrument) (observed_at : Z) : result Placement :=
  let phase := lifecycle_phase (inst item) in
  let state := if bool_decide (phase = DELISTED) then RELIST_PENDING else listing_state old in
  if bool_decide (state = RELIST_PENDING) && bool_decide (phase = TRADABLE) then
    match last_terminal_seen_ns old with
    | None => Err (RuntimeError "relist-pending catalog state lacks terminal evidence")
    | Some terminal =>
        let! item := if official_time item observed_at (fun t => terminal <? t) then Ok item
                     else seen_now observed_at item in
        Ok (listed item (Some terminal))
    end
  else if bool_decide (state ∈ [PENDING; PENDING_OFFICIAL]) && tradable (inst item) then
    let official_floor := if bool_decide (state = PENDING_OFFICIAL) then tradable_at_ns (inst old)
                          else Some (first_seen_ns old) in
    let! item := if official_time item observed_at (fun t => match official_floor with
                                                             | Some floor => floor <=? t
                                                             | None => false
                                                             end) then Ok item
                 else seen_now observed_at item in
    Ok (listed item None)
  else Ok (settled item state).

(** The instrument a new listing makes. *)
Definition opened (p : Placement) (old : option CatalogInstrument) (observed_at : Z) : CatalogInstrument :=
  let item := p_item p in {|
    inst := inst item; first_seen_ns := first_seen_ns item; last_seen_ns := last_seen_ns item;
    is_present := is_present item; listing_state := p_state p; first_tradable_seen_ns := Some observed_at;
    listing_generation := match old with None => 1 | Some o => listing_generation o + 1 end;
    last_terminal_seen_ns := p_terminal p; new_listing_started_at_ns := tradable_at_ns (inst item);
    new_listing_source := tradable_at_source (inst item); new_listing_eligible := true |}.
(** The end of the loop's body. *)
Definition finish (p : Placement) (old : option CatalogInstrument) (observed_at : Z) : result CatalogInstrument :=
  if p_new p then rebuilt (opened p old observed_at) else _with_listing_state (p_item p) (p_state p).

(** The item of a record, and whether it is a new listing. *)
Definition apply_record (is_initial : bool) (lookback observed_at : Z) (old : option CatalogInstrument)
    (record : InstrumentRecord) : result (CatalogInstrument * bool) :=
  let! item := _materialize_record record old observed_at in
  let! p := match old with
            | None => place_first item is_initial lookback observed_at
            | Some old => place_again item old observed_at
            end in
  let! item := finish p old observed_at in
  Ok (item, p_new p).
