(* ===== verification/CatalogFacts.v ===== *)
(** The rows of an instrument: what is written is what is read back, every constraint of
    the table holds for an instrument its constructor accepts. *)
From stdpp Require Import pretty.
From S2P Require Import Prelude PyDecimal Domain StorageModels SelectionModels Selector PyText CatalogJson CatalogRows.
From S2P Require Import CatalogListing.

(** ** What the constructor of an instrument accepts *)
Record well_formed (i : CatalogInstrument) : Prop := {
  wf_first : 0 <= first_seen_ns i;
  wf_seen : first_seen_ns i <= last_seen_ns i;
  wf_last : last_seen_ns i <= MAX_INT64;
  wf_phase : lifecycle_phase (inst i) = TRADABLE <-> tradable (inst i) = true;
  wf_pending : listing_state i ∈ [PENDING; PENDING_OFFICIAL; RELIST_PENDING] -> tradable (inst i) = false;
  wf_delisted : lifecycle_phase (inst i) = DELISTED ->
    listing_state i = RELIST_PENDING /\ last_terminal_seen_ns i = Some (last_seen_ns i);
  wf_first_tradable : forall t, first_tradable_seen_ns i = Some t -> first_seen_ns i <= t <= last_seen_ns i;
  wf_generation : 0 <= listing_generation i <= MAX_INT64;
  wf_terminal : forall t, last_terminal_seen_ns i = Some t ->
    first_seen_ns i <= t <= last_seen_ns i /\ listing_state i ∈ [RELIST_PENDING; ACTIVE_NEW];
  wf_relist : listing_state i = RELIST_PENDING -> is_Some (last_terminal_seen_ns i);
  wf_started : forall t, new_listing_started_at_ns i = Some t ->
    0 <= t <= MAX_INT64 /\ listing_state i ∈ [RELIST_PENDING; ACTIVE_NEW];
  wf_source : present (new_listing_started_at_ns i) = present (new_listing_source i);
  wf_eligible : new_listing_eligible i = bool_decide (listing_state i = ACTIVE_NEW);
  wf_active : listing_state i = ACTIVE_NEW -> exists t, new_listing_started_at_ns i = Some t /\
    forall u, last_terminal_seen_ns i = Some u -> u < t;
  wf_episode : forall t, new_listing_started_at_ns i = Some t -> exists u, first_tradable_seen_ns i = Some u /\ t <= u /\
    (new_listing_source i = Some FIRST_TRADABLE_SEEN -> t = u)
}.

Lemma nonnegative_spec v f w : _nonnegative_int v f = Ok w <-> w = v /\ 0 <= v <= MAX_INT64.
Proof.
  unfold _nonnegative_int. rewrite !raise_if_ok, !Z.ltb_ge. split; [intros (? & ? & [= ->])|intros (-> & ? & ?)]; split; auto; lia.
Qed.
Lemma opt_nonnegative_spec v f w :
  _optional_nonnegative_int v f = Ok w <-> w = v /\ forall t, v = Some t -> 0 <= t <= MAX_INT64.
Proof.
  unfold _optional_nonnegative_int, optionally. destruct v as [v|]; [|split; [intros [= <-]; by split|by intros [-> _]]].
  rewrite rbind_ok. setoid_rewrite nonnegative_spec. split.
  - intros (? & (-> & ?) & [= <-]). split; [done|]. by intros ? [= <-].
  - intros (-> & H). exists v. split; [split; [done|by apply H]|done].
Qed.

Lemma within_spec a b v : within a b v = true <-> forall t, v = Some t -> a <= t <= b.
Proof.
  destruct v as [v|]; cbn; [|split; [by intros|done]]. rewrite andb_true_iff, !Z.leb_le. split.
  - by intros ? t [= <-].
  - by intros H; apply H.
Qed.

Lemma guard_false a b : a && b = false <-> (a = true -> b = false).
Proof. destruct a, b; cbn; intuition congruence. Qed.
Lemma negb_eqb a b : negb (eqb a b) = false <-> a = b.
Proof. destruct a, b; cbn; intuition congruence. Qed.
Lemma present_true {A} (o : option A) : present o = true <-> is_Some o.
Proof. destruct o; cbn; split; intros H; done || (by eexists) || by destruct H. Qed.

(** Reads the guards among the hypotheses as implications. *)
Ltac guards :=
  repeat match goal with
  | H : negb (eqb _ _) = false |- _ => apply (proj1 (negb_eqb _ _)) in H
  | H : negb _ = false |- _ => apply negb_false_iff in H
  | H : _ && _ = false |- _ => rewrite guard_false in H
  | H : context [negb _ = false] |- _ => rewrite negb_false_iff in H
  | H : context [negb _ = true] |- _ => rewrite negb_true_iff in H
  | H : context [bool_decide _ = true] |- _ => rewrite bool_decide_eq_true in H
  | H : within _ _ _ = true |- _ => rewrite within_spec in H
  end.

Lemma validate_spec i j : (lifecycle_phase (inst i) = TRADABLE <-> tradable (inst i) = true) ->
  instrument_validate i = Ok j -> j = i /\ well_formed i.
Proof.
  intros Hp H. unfold instrument_validate in H. cbv zeta in H. inv_ok.
  repeat match goal with
  | H : _nonnegative_int _ _ = Ok _ |- _ => apply nonnegative_spec in H as [-> H]
  | H : _optional_nonnegative_int _ _ = Ok _ |- _ => apply opt_nonnegative_spec in H as [-> H]
  end.
  split; [done|]. destruct j as [r fs ls pres st fts gen term start src elig]. cbn in *. guards. 
  constructor; cbn; try lia; try done.
  - intros Hst. destruct (tradable r); [|done]. rewrite bool_decide_eq_true_2 in H3 by done. by apply H3.
  - auto.
  - intros t ->. split; [auto|]. destruct st; try set_solver; by specialize (H11 eq_refl).
  - intros ->. by apply present_true, H10.
  - intros t ->. split; [auto|]. subst elig. destruct st; try set_solver; by specialize (H16 eq_refl).
  - intros ->. rewrite bool_decide_eq_true_2 in H15 by done. subst elig. specialize (H17 eq_refl). specialize (H18 eq_refl).
    destruct start as [t|]; [|done]. exists t. split; [done|]. intros u ->. by apply Z.leb_gt in H18.
  - intros t ->. specialize (H19 eq_refl). destruct fts as [u|]; [|done]. exists u. apply Z.ltb_ge in H20.
    split_and!; [done..|]. intros ->. by specialize (H21 eq_refl) as [= ->].
Qed.

Ltac guard_step :=
  match goal with
  | |- rbind (_nonnegative_int ?v ?f) _ = _ => rewrite (proj2 (nonnegative_spec v f v)); cbn [rbind]
  | |- rbind (_optional_nonnegative_int ?v ?f) _ = _ => rewrite (proj2 (opt_nonnegative_spec v f v)); cbn [rbind]
  | |- raise_if ?c _ _ = _ => assert (c = false) as ->; cbn [raise_if]
  end.

Lemma validate_ok i : well_formed i -> instrument_validate i = Ok i.
Proof.
  intros [W1 W2 W3 W4 W5 W6 W7 W8 W9 W10 W11 W12 W13 W14 W15].
  destruct i as [r fs ls pres st fts gen term start src elig]. cbn in *. subst elig.
  unfold instrument_validate. cbv zeta. cbn.
  assert (Hs : forall t, start = Some t -> present start = true) by (by intros t ->).
  repeat guard_step; try done; try (split; [done|lia]);
    rewrite ?guard_false, ?negb_true_iff, ?negb_false_iff, ?bool_decide_eq_true, ?within_spec;
    try (split; [done|intros t Ht; first [apply W7 in Ht|apply W9 in Ht|apply W11 in Ht]; lia]).
  - lia.
  - intros Ht. apply bool_decide_eq_false_2. intros Hst. apply W5 in Hst. congruence.
  - intros Hd. by apply W6.
  - done.
  - intros t Ht. by apply W9.
  - intros Hst. apply present_true. auto.
  - intros [Hn [t Ht]%present_true]%andb_true_iff. apply W9 in Ht as [_ Ht]. destruct st; set_solver.
  - intros Hd. by apply W6.
  - rewrite W12. by destruct (present src).
  - by destruct (bool_decide _).
  - intros [[t Ht]%present_true Hn]%andb_true_iff. apply W11 in Ht as [_ Ht]. destruct st; set_solver.
  - intros (t & -> & _)%W14. done.
  - intros (t & -> & Hu)%W14. destruct term as [u|]; [|done]. apply Z.leb_gt. by apply Hu.
  - intros [t Ht]%present_true. apply W15 in Ht as (u & -> & _). done.
  - destruct start as [t|]; [|done]. destruct (W15 t eq_refl) as (u & -> & Hle & _). lia.
  - intros ->. destruct start as [t|]; [|done]. destruct (W15 t eq_refl) as (u & -> & Hle & Hx). by rewrite Hx.
Qed.

(** ** Records *)
Definition record_ok (r : InstrumentRecord) : Prop := record_init r (Some (lifecycle_phase r)) = Ok r.
Definition turnover_ok (o : option Turnover) : bool :=
  opt_ok (fun t => is_ok (turnover_init (DDec (Finite (to_value t))) (to_method t) (to_currency t)
    (to_observed_at_ns t) (to_raw_reference t))) o.
Definition texts_ok (r : InstrumentRecord) : bool :=
  nonempty (instrument_key r) && nonempty (canonical_pair r) && is_ok (_wire_symbols (wire_symbols r))
  && nonempty (base_asset r) && nonempty (quote_asset r) && opt_ok nonempty (settlement_asset r)
  && nonempty (status r) && nonempty (raw_catalog_reference r).
Definition quoted_in (t : option Turnover) (r : InstrumentRecord) : Prop :=
  forall u, t = Some u -> to_currency u = quote_asset r.

Record record_facts (r : InstrumentRecord) : Prop := {
  rf_texts : texts_ok r = true;
  rf_phase : lifecycle_phase r = TRADABLE <-> tradable r = true;
  rf_time : forall t, tradable_at_ns r = Some t -> 0 <= t <= MAX_INT64;
  rf_source : present (tradable_at_ns r) = present (tradable_at_source r);
  rf_turnover : quoted_in (turnover r) r
}.

Lemma nonempty_spec v f w : _nonempty_string v f = Ok w <-> w = v /\ nonempty v = true.
Proof.
  unfold _nonempty_string. rewrite raise_if_ok, negb_false_iff. split; [by intros [? [= <-]]|by intros [-> ?]].
Qed.
Lemma opt_nonempty_spec v f w : _optional_nonempty_string v f = Ok w <-> w = v /\ opt_ok nonempty v = true.
Proof.
  unfold _optional_nonempty_string, optionally. destruct v as [v|]; [|split; [by intros [= <-]|by intros [-> _]]].
  rewrite rbind_ok. setoid_rewrite nonempty_spec. cbn. split; [by intros (? & (-> & ?) & [= <-])|].
  intros [-> ?]. by exists v.
Qed.
Lemma wires_spec w v : _wire_symbols w = Ok v <-> v = w /\ is_ok (_wire_symbols w) = true.
Proof.
  split; [|intros [-> H]].
  - intros H. rewrite H. unfold _wire_symbols in H. by inv_ok.
  - unfold _wire_symbols in *. destruct (bool_decide _); [done|]. cbn [raise_if] in *. by destruct (negb _).
Qed.

Ltac record_step :=
  match goal with
  | |- rbind (_nonempty_string ?v ?f) _ = _ => rewrite (proj2 (nonempty_spec v f v)); cbn [rbind]
  | |- rbind (_wire_symbols ?w) _ = _ => rewrite (proj2 (wires_spec w w)); cbn [rbind]
  | |- rbind (_optional_nonempty_string ?v ?f) _ = _ => rewrite (proj2 (opt_nonempty_spec v f v)); cbn [rbind]
  end.

(** The constructor accepts a record and gives it back exactly when this holds. *)
Lemma record_ok_spec r : record_ok r <-> record_facts r.
Proof.
  unfold record_ok, record_init. cbn [present andb].
  destruct r as [ex ma key pair wires base_a quote settle st phase trad life tat tas turn raw]. cbn. split.
  - intros H. inv_ok. repeat match goal with
    | H : _nonempty_string _ _ = Ok _ |- _ => apply nonempty_spec in H as [-> H]
    | H : _wire_symbols _ = Ok _ |- _ => apply wires_spec in H as [-> H]
    | H : _optional_nonempty_string _ _ = Ok _ |- _ => apply opt_nonempty_spec in H as [-> H]
    | H : _optional_nonnegative_int _ _ = Ok _ |- _ => apply opt_nonnegative_spec in H as [-> H]
    end. guards. constructor; unfold texts_ok, quoted_in; cbn; try done.
    + repeat (apply andb_true_iff; split); done.
    + match goal with H : _ = trad |- _ => rewrite <- H end. by rewrite bool_decide_eq_true.
    + intros u ->. guards. by apply String.eqb_eq.
  - intros [Ht Hp Htime Hsrc Hq]. unfold texts_ok in Ht. cbn in *. bool_prop.
    repeat (record_step || guard_step); try done.
    + apply negb_eqb. destruct trad; [by apply bool_decide_eq_true, Hp|]. apply bool_decide_eq_false. intros Hx.
      by apply Hp in Hx.
    + by apply negb_eqb.
    + destruct turn as [u|]; [|done]. apply negb_false_iff, String.eqb_eq. by apply Hq.
Qed.

Lemma init_self i p i' : CatalogInstrument_init i p = Ok i' ->
  exists r, record_init (inst i) p = Ok r /\ i' = with_record r i /\ instrument_validate i' = Ok i'.
Proof.
  unfold CatalogInstrument_init. intros (r & Hr & H)%rbind_ok. exists r. split; [done|].
  change (instrument_validate (with_record r i) = Ok i') in H. 
  assert (with_record r i = i') as <-; [|done]. unfold instrument_validate in H. by inv_ok.
Qed.

Lemma with_inst i : with_record (inst i) i = i. Proof. by destruct i. Qed.

Lemma made_spec i : made i <-> record_facts (inst i) /\ well_formed i /\ turnover_ok (turnover (inst i)) = true.
Proof.
  rewrite <- record_ok_spec. unfold made. split.
  - intros [H Ht]. apply init_self in H as (r & Hr & Hi & H). assert (r = inst i) as -> by by rewrite Hi.
    split_and!; [done| |done]. apply record_ok_spec in Hr as []. by apply validate_spec in H as [_ H].
  - intros (Hr & W & Ht). split; [|done]. unfold CatalogInstrument_init, record_ok in *. rewrite Hr. cbn [rbind].
    change (instrument_validate (with_record (inst i) i) = Ok i). rewrite with_inst. by apply validate_ok.
Qed.

Lemma made_rebuilt i : made i -> rebuilt i = Ok i. Proof. by intros []. Qed.

Lemma implies_spec a b : implies a b = true <-> (a = true -> b = true).
Proof. destruct a, b; cbn; intuition congruence. Qed.
Lemma paired_spec {A B} (a : option A) (b : option B) : paired a b = true <-> present a = present b.
Proof. unfold paired. by destruct (present a), (present b). Qed.
Lemma opt_ok_nonneg o : (forall t, o = Some t -> 0 <= t <= MAX_INT64) -> opt_ok nonneg o = true.
Proof. destruct o as [t|]; [|done]. intros H. apply Z.leb_le. by apply (H t). Qed.

(** ** Rows *)
Section Rows.
Context `{JsonCodecLaws}.

(** The row that holds an instrument. *)
Definition row_for (i : CatalogInstrument) : InstrumentRow :=
  set_row_present (is_present i) (turnover_row (turnover (inst i))) (instrument_row i).

Lemma turnover_ok_inv t : turnover_ok (Some t) = true ->
  turnover_init (DDec (Finite (to_value t))) (to_method t) (to_currency t) (to_observed_at_ns t) (to_raw_reference t) = Ok t /\
  present (to_observed_at_ns t) = present (to_raw_reference t) /\
  forall n, to_observed_at_ns t = Some n -> 0 <= n <= MAX_INT64.
Proof.
  cbn. destruct t as [v m c o r]. cbn. destruct (dltb v dzero) eqn:Ev; [done|]. cbn [raise_if].
  destruct (_nonempty_string c _) as [c'|] eqn:Ec; [|done]. apply nonempty_spec in Ec as [-> _]. cbn [rbind].
  destruct (_optional_nonnegative_int o _) as [o'|] eqn:Eo; [|done]. apply opt_nonnegative_spec in Eo as [-> Ho]. cbn [rbind].
  destruct (negb _) eqn:Ep; [done|]. apply (proj1 (negb_eqb _ _)) in Ep. cbn [raise_if].
  destruct (_optional_nonempty_string r _) as [r'|] eqn:Er; [|done]. apply opt_nonempty_spec in Er as [-> _].
  intros _. by split_and!.
Qed.

Lemma turnover_from_columns o : turnover_ok o = true -> _turnover_from_row (turnover_row o) = Ok o.
Proof.
  destruct o as [t|]; [|done]. intros Ht. apply turnover_ok_inv in Ht as [Ht _].
  unfold _turnover_from_row, turnover_row. cbn -[decimal_of_str turnover_init]. rewrite dec_roundtrip.
  by rewrite Ht.
Qed.

Definition dict_json (j : Json) : bool := match j with JDict _ => true | _ => false end.

(** A row that [row_for] wrote reads back as the instrument. *)
Lemma row_roundtrip i : made i -> json_wf (lifecycle (inst i)) = true -> dict_json (lifecycle (inst i)) = true ->
  _instrument_from_row (c_scope i) (c_key i) (row_for i) = Ok (stored i).
Proof.
  intros [Hm Ht] Hwf Hd. pose proof (init_lifecycle (sorted_json (lifecycle (inst i))) i _ i Hm) as Hinit.
  unfold _instrument_from_row, row_for. cbn [wire_symbols_json lifecycle_json turnover_columns set_row_present instrument_row].
  rewrite decode_encode by apply plain_wires. cbn [rbind]. rewrite typed_json_stored by done. cbn [rbind].
  rewrite turnover_from_columns by done. rewrite symbols_roundtrip. cbn [rbind]. unfold wire_symbols_payload.
  destruct i as [[ex ma key pair wires base_a quote settle st phase trad life tat tas turn raw]
    fs ls pres state fts gen term start src elig]. cbn in Hd, Hinit |- *. by destruct life.
Qed.

Lemma made_checks i : made i -> instrument_checks (row_for i) = true.
Proof.
  intros ([Rt Rp Rtime Rs _] & W & Ht)%made_spec. destruct W as [W1 W2 W3 W4 W5 W6 W7 W8 W9 W10 W11 W12 W13 W14 W15].
  unfold instrument_checks, row_for. cbn [set_row_present instrument_row r_first_seen_ns r_last_seen_ns r_listing_generation
    r_lifecycle_phase r_tradable r_listing_state turnover_columns r_last_terminal_seen_ns r_tradable_at_ns
    r_tradable_at_source r_new_listing_started_at_ns r_new_listing_source r_new_listing_eligible].
  destruct i as [r fs ls pres st fts gen term start src elig]. cbn [inst first_seen_ns last_seen_ns is_present listing_state
    first_tradable_seen_ns listing_generation last_terminal_seen_ns new_listing_started_at_ns new_listing_source
    new_listing_eligible] in *. subst elig.
  assert (Htime : present (turnover r ≫= to_observed_at_ns) = present (turnover r ≫= to_raw_reference) /\
    forall n, turnover r ≫= to_observed_at_ns = Some n -> 0 <= n <= MAX_INT64).
  { destruct (turnover r) as [t|]; [|done]. by apply turnover_ok_inv in Ht as [_ Ht]. }
  destruct Htime as [Hpair Hobs].
  repeat (apply andb_true_iff; split); try (by apply Z.leb_le; lia); try (by apply paired_spec);
    try (by destruct (turnover r)); try (by destruct st); rewrite ?implies_spec, ?bool_decide_eq_true.
  - apply eqb_true_iff. destruct (tradable r); [by apply bool_decide_eq_true, Rp|].
    apply bool_decide_eq_false. intros Hx. by apply Rp in Hx.
  - intros Hst. by rewrite W5.
  - intros [-> ->]%W6. cbn. apply Z.eqb_refl.
  - by apply opt_ok_nonneg.
  - apply opt_ok_nonneg. intros t Ht'. by apply W11.
  - intros Hst. destruct (W14 ltac:(set_solver)) as (t & -> & _). done.
  - intros Hst. destruct start as [t|]; [|done]. destruct (W11 t eq_refl) as [_ Hx]. destruct st; set_solver.
  - intros [t ->]%present_true. destruct (W9 t eq_refl) as [Hr Hx]. rewrite bool_decide_eq_true_2 by done. cbn.
    rewrite andb_true_r, andb_true_iff, !Z.leb_le. lia.
  - intros Hst. apply present_true, W10. set_solver.
  - intros Hst. destruct (W14 ltac:(set_solver)) as (t & -> & Hu). destruct term as [u|]; [|done]. apply Z.ltb_lt. by apply Hu.
Qed.
End Rows.
