(* ===== verification/ListingFacts.v ===== *)
(** The listing state machine of the catalog: what a complete snapshot makes of one
    record, whatever was stored for its instrument. *)
From S2P Require Import Prelude PyDecimal Domain StorageModels SelectionModels Selector PyText CatalogJson CatalogRows.
From S2P Require Import CatalogListing CatalogFacts.

(** ** The state machine *)
(** [recent]: an official time within the lookback; [known]: an official time that has come. *)
Definition first_state (is_initial recent known : bool) (phase : LifecyclePhase) : ListingState :=
  match phase with
  | DELISTED => RELIST_PENDING
  | TRADABLE => if is_initial && negb recent then BASELINE else ACTIVE_NEW
  | PREOPEN => if (if is_initial then recent else known) then PENDING_OFFICIAL else PENDING
  | UNKNOWN | PAUSED => BASELINE
  end.
Definition next_state (state : ListingState) (phase : LifecyclePhase) : ListingState :=
  match phase, state with
  | DELISTED, _ => RELIST_PENDING
  | TRADABLE, (PENDING | PENDING_OFFICIAL | RELIST_PENDING) => ACTIVE_NEW
  | _, _ => state
  end.

Definition listed_at (r : InstrumentRecord) (ok : Z -> bool) : bool :=
  match tradable_at_ns r with Some t => ok t | None => false end.
(** The state of a record after the snapshot. *)
Definition listing_after (is_initial : bool) (lookback observed_at : Z) (old : option CatalogInstrument)
    (r : InstrumentRecord) : ListingState :=
  match old with
  | None => first_state is_initial
              (listed_at r (fun t => (0 <? lookback) && (t <=? observed_at) && (observed_at - t <=? lookback)))
              (listed_at r (fun t => t <=? observed_at)) (lifecycle_phase r)
  | Some o => next_state (listing_state o) (lifecycle_phase r)
  end.
(** A new episode begins. *)
Definition opens (is_initial : bool) (lookback observed_at : Z) (old : option CatalogInstrument)
    (r : InstrumentRecord) : bool :=
  bool_decide (listing_after is_initial lookback observed_at old r = ACTIVE_NEW)
  && negb (bool_decide (listing_state <$> old = Some ACTIVE_NEW)).

(** ** What the step is applied to *)
Record applicable (r : InstrumentRecord) : Prop := {
  ap_facts : record_facts r;
  ap_source : tradable_at_source r <> Some FIRST_TRADABLE_SEEN;
  ap_turnover : turnover_ok (turnover r) = true
}.
Record follows (observed_at : Z) (old : CatalogInstrument) : Prop := {
  fo_made : made old;
  fo_seen : last_seen_ns old < observed_at;
  fo_generation : listing_generation old < MAX_INT64
}.

Section Step.
Context (observed_at : Z) (Hobs : 0 <= observed_at <= MAX_INT64).

Lemma made_facts o : made o -> record_facts (inst o) /\ well_formed o /\ turnover_ok (turnover (inst o)) = true.
Proof. apply made_spec. Qed.

Lemma materialized_time_ok r old : record_facts r -> (forall o, old = Some o -> made o) ->
  let time := materialized_time r old observed_at in
  (forall t, time.1 = Some t -> 0 <= t <= MAX_INT64) /\ present time.1 = present time.2.
Proof.
  intros [_ _ Rtime Rs _] Hold. unfold materialized_time. destruct (tradable_at_ns r) as [t|] eqn:E; [done|].
  assert (Hunknown : forall time, time = (if tradable r then (Some observed_at, Some FIRST_TRADABLE_SEEN) else (None, None)) ->
    (forall t, time.1 = Some t -> 0 <= t <= MAX_INT64) /\ present time.1 = present time.2).
  { intros ? ->. destruct (tradable r); split; try done. by intros ? [= <-]. }
  destruct old as [o|]; [|by apply Hunknown]. destruct (_ && _); [|by apply Hunknown].
  destruct (made_facts o (Hold o eq_refl)) as ([] & _ & _). done.
Qed.

Lemma materialized_facts r old : applicable r -> (forall o, old = Some o -> made o) ->
  record_facts (inst (materialized r old observed_at)) /\ turnover_ok (turnover (inst (materialized r old observed_at))) = true.
Proof.
  intros [Rf _ Rv] Hold. destruct (materialized_time_ok r old Rf Hold) as [Ht Hs]. destruct Rf as [Rt Rp Rtime Rs Rq].
  assert (Hq : forall q, q = match turnover r, old with
    | None, Some p => if String.eqb (quote_asset (inst p)) (quote_asset r) then turnover (inst p) else None
    | t, _ => t
    end -> quoted_in q r /\ turnover_ok q = true).
  { intros q ->. destruct (turnover r) as [t|]; [done|]. destruct old as [o|]; [|done].
    destruct (String.eqb_spec (quote_asset (inst o)) (quote_asset r)) as [Eq|]; [|done].
    destruct (made_facts o (Hold o eq_refl)) as ([_ _ _ _ Ro] & _ & Hv). split; [|done].
    intros u Hu. rewrite <- Eq. by apply Ro. }
  destruct (Hq _ eq_refl) as [Hq1 Hq2]. split; [constructor|]; done.
Qed.

Lemma materialized_state_cases r old :
  materialized_state r old = match lifecycle_phase r with
    | DELISTED => RELIST_PENDING
    | _ => let s := match old with None => PENDING | Some p => listing_state p end in
           if tradable r then match s with ACTIVE_NEW => ACTIVE_NEW | _ => BASELINE end else s
    end.
Proof.
  unfold materialized_state. destruct (lifecycle_phase r), (tradable r); try done; destruct old as [o|]; try done;
    by destruct (listing_state o).
Qed.

Lemma kept_some {A} b o (f : CatalogInstrument -> option A) t : kept b (Some o) f = Some t <-> b = true /\ f o = Some t.
Proof. destruct b; cbn; naive_solver. Qed.
Lemma retains_spec st : retains st = true <-> st ∈ [RELIST_PENDING; ACTIVE_NEW].
Proof. unfold retains. rewrite bool_decide_eq_true. destruct st; set_solver. Qed.

Lemma materialized_wf_first r : applicable r -> well_formed (materialized r None observed_at).
Proof.
  intros [[Rt Rp Rtime Rs Rq] _ Rv]. unfold materialized. rewrite materialized_state_cases. cbn -[MAX_INT64].
  assert (Hk : forall b A (f : CatalogInstrument -> option A), kept b None f = None) by (by intros []).
  rewrite !Hk, andb_true_r. constructor; cbn -[MAX_INT64]; try lia; try done.
  all: destruct (lifecycle_phase r), (tradable r) eqn:Et; cbn; try done;
    first [discriminate (proj1 Rp eq_refl)|discriminate (proj2 Rp eq_refl)|by intros ? [= <-]|set_solver|idtac].
Qed.

Lemma materialized_wf_again r o : applicable r -> well_formed o -> last_seen_ns o < observed_at ->
  well_formed (materialized r (Some o) observed_at).
Proof.
  intros [[Rt Rp Rtime Rs Rq] _ Rv] [W1 W2 W3 W4 W5 W6 W7 W8 W9 W10 W11 W12 W13 W14 W15] Hs.
  assert (Hst : (lifecycle_phase r = DELISTED -> materialized_state r (Some o) = RELIST_PENDING) /\
    (tradable r = true -> materialized_state r (Some o) = ACTIVE_NEW \/ materialized_state r (Some o) = BASELINE) /\
    (retains (materialized_state r (Some o)) = true ->
     lifecycle_phase r = DELISTED \/ materialized_state r (Some o) = listing_state o)).
  { rewrite materialized_state_cases. unfold retains. cbn. destruct (lifecycle_phase r), (tradable r) eqn:Et;
      try discriminate (proj1 Rp eq_refl); try discriminate (proj2 Rp eq_refl); destruct (listing_state o); cbn; split_and!; intros; try discriminate; auto. }
  unfold materialized. set (st := materialized_state r (Some o)) in *. clearbody st. destruct Hst as (Hd & Ht & Hr).
  constructor; cbn -[MAX_INT64]; try lia; try done.
  - intros Hst. destruct (tradable r); [|done]. rewrite <- (bool_decide_eq_true (st ∈ _)) in Hst.
    by destruct (Ht eq_refl) as [Hx|Hx]; rewrite Hx in Hst.
  - intros Hp. rewrite bool_decide_eq_true_2 by done. auto.
  - intros t. destruct (_ && _); [intros [= <-]; lia|]. intros H%W7. lia.
  - intros t. destruct (bool_decide_reflect (lifecycle_phase r = DELISTED)) as [Hp|Hp].
    + intros [= <-]. rewrite (Hd Hp). split; [lia|left].
    + intros [Hk Ho]%kept_some. split; [|by apply retains_spec]. apply W9 in Ho. lia.
  - intros Hst. destruct (bool_decide_reflect (lifecycle_phase r = DELISTED)) as [Hp|Hp]; [by eexists|]. rewrite Hst in Hr. destruct (Hr eq_refl) as [|Ho]; [done|].
    symmetry in Ho. destruct (W10 Ho) as [t Hx]. exists t. apply kept_some. by rewrite Hst.
  - intros t [Hk Ho]%kept_some. apply W11 in Ho as [Ho _]. split; [done|by apply retains_spec].
  - by destruct (retains st).
  - intros Hst. destruct (bool_decide_reflect (lifecycle_phase r = DELISTED)) as [Hp|Hp]; [by rewrite Hst in Hd; specialize (Hd Hp)|]. rewrite Hst in Hr.
    destruct (Hr eq_refl) as [|Ho]; [done|]. symmetry in Ho. destruct (W14 Ho) as (t & Hx & Hu). exists t. subst st. split; [done|].
    intros u [_ Hx']%kept_some. auto.
  - intros t [Hk Ho]%kept_some. destruct (W15 t Ho) as (u & Hu & Hle & Hx). exists u. rewrite Hu, Hk. cbn.
    by rewrite andb_false_r.
Qed.

Lemma materialized_made r old : applicable r -> (forall o, old = Some o -> follows observed_at o) ->
  made (materialized r old observed_at).
Proof.
  intros Ha Hold. apply made_spec. destruct (materialized_facts r old Ha) as [Hr Ht].
  { intros o Ho. by destruct (Hold o Ho). }
  split_and!; [done| |done]. destruct old as [o|]; [|by apply materialized_wf_first].
  destruct (Hold o eq_refl) as [Hm Hs _]. apply materialized_wf_again; [done| |done]. by apply made_spec in Hm as (_ & W & _).
Qed.

(** ** Settled records *)
Lemma in_state_same i : well_formed i -> in_state i (listing_state i) = i.
Proof.
  intros [W1 W2 W3 W4 W5 W6 W7 W8 W9 W10 W11 W12 W13 W14 W15].
  destruct i as [r fs ls pres st fts gen term start src elig]. cbn in *. unfold in_state. cbn. subst elig.
  assert (Hn : retains st = false -> term = None /\ start = None /\ src = None).
  { intros Hr. assert (Hst : ~ st ∈ [RELIST_PENDING; ACTIVE_NEW]) by (rewrite <- retains_spec; congruence).
    destruct term as [u|]; [by destruct (W9 u eq_refl)|]. destruct start as [t|]; [by destruct (W11 t eq_refl)|].
    by destruct src. }
  destruct (retains st); [|destruct (Hn eq_refl) as (-> & -> & ->)]; f_equal;
    destruct (bool_decide_reflect (st = RELIST_PENDING)) as [->|]; try done;
    destruct (bool_decide_reflect (lifecycle_phase r = DELISTED)) as [Hd|]; try done; destruct (W6 Hd); cbn; congruence.
Qed.

Lemma settled_same i : made i -> _with_listing_state i (listing_state i) = Ok i.
Proof.
  intros Hm. unfold _with_listing_state. rewrite in_state_same; [by apply made_rebuilt|]. by apply made_spec in Hm as (_ & W & _).
Qed.

(** An instrument with no episode and no terminal evidence. *)
Lemma settled_quiet i st : made i -> tradable (inst i) = false -> lifecycle_phase (inst i) <> DELISTED ->
  last_terminal_seen_ns i = None -> new_listing_started_at_ns i = None ->
  st = BASELINE \/ st = PENDING \/ st = PENDING_OFFICIAL ->
  _with_listing_state i st = Ok (in_state i st) /\ made (in_state i st).
Proof.
  intros Hm Ht Hd Hterm Hstart Hst. enough (made (in_state i st)) by (split; [by apply made_rebuilt|done]).
  apply made_spec in Hm as (Hr & [W1 W2 W3 W4 W5 W6 W7 W8 W9 W10 W11 W12 W13 W14 W15] & Hv). apply made_spec.
  split_and!; [done| |done].
  assert (Hret : retains st = false) by (by destruct Hst as [->|[->| ->]]).
  assert (Hrel : bool_decide (st = RELIST_PENDING) = false) by (by destruct Hst as [->|[->| ->]]).
  unfold in_state. rewrite Hret, Hrel. cbn. constructor; cbn; try done.
  - intros Hx. by destruct Hst as [->|[->| ->]].
  - intros Hx. by destruct Hst as [->|[->| ->]].
Qed.

(** ** New listings *)
Definition seen (i : CatalogInstrument) : CatalogInstrument :=
  with_record (set_tradable_at (Some observed_at) (Some FIRST_TRADABLE_SEEN) (inst i)) i.
Lemma seen_now_ok i : made i -> seen_now observed_at i = Ok (seen i) /\ made (seen i).
Proof.
  intros Hm. enough (made (seen i)) by (split; [by apply made_rebuilt|done]).
  apply made_spec in Hm as ([Rt Rp Rtime Rs Rq] & [] & Hv). apply made_spec. split_and!; [| |done].
  - constructor; try done. cbn. by intros ? [= <-].
  - constructor; done.
Qed.

(** The time a listing starts at. *)
Record starts (i : CatalogInstrument) (floor : option Z) : Prop := {
  st_time : exists t, tradable_at_ns (inst i) = Some t /\ t <= observed_at /\ (forall u, floor = Some u -> u < t) /\
    (tradable_at_source (inst i) = Some FIRST_TRADABLE_SEEN -> t = observed_at);
  st_tradable : tradable (inst i) = true;
  st_made : made i;
  st_seen : last_seen_ns i = observed_at;
  st_floor : forall u, floor = Some u -> first_seen_ns i <= u <= observed_at
}.

Lemma opened_ok i old floor : starts i floor -> (forall o, old = Some o -> 0 <= listing_generation o < MAX_INT64) ->
  finish (listed i floor) old observed_at = Ok (opened (listed i floor) old observed_at) /\
  made (opened (listed i floor) old observed_at).
Proof.
  intros [(t & Ht & Hle & Hfloor & Hsrc) Htr Hm Hseen Hin] Hgen.
  enough (made (opened (listed i floor) old observed_at)) by (split; [by apply made_rebuilt|done]).
  apply made_spec in Hm as (Hr & W & Hv). destruct Hr as [Rt Rp Rtime Rs Rq].
  destruct W as [W1 W2 W3 W4 W5 W6 W7 W8 W9 W10 W11 W12 W13 W14 W15]. apply made_spec. split_and!; [done| |done].
  assert (Hnd : lifecycle_phase (inst i) <> DELISTED) by (rewrite (proj2 Rp Htr); done).
  unfold opened. cbn -[MAX_INT64]. constructor; cbn -[MAX_INT64]; rewrite ?Hseen; try lia; try done.
  - intros Hx. set_solver.
  - intros ? [= <-]. lia.
  - destruct old as [o|]; [destruct (Hgen o eq_refl)|]; unfold MAX_INT64 in *; lia.
  - intros u Hu. split; [by apply Hin|set_solver].
  - intros u Hu. split; [by apply Rtime|set_solver].
  - intros _. exists t. auto.
  - intros u Hu. exists observed_at. rewrite Ht in Hu. injection Hu as <-. auto.
Qed.

(** ** The outcome of a record *)
Record outcome (is_initial : bool) (lookback : Z) (old : option CatalogInstrument) (r : InstrumentRecord)
    (item : CatalogInstrument) : Prop := {
  oc_made : made item;
  oc_state : listing_state item = listing_after is_initial lookback observed_at old r;
  oc_generation : listing_generation item =
    match old with None => 0 | Some o => listing_generation o end + Z.b2z (opens is_initial lookback observed_at old r);
  oc_first : first_seen_ns item = match old with None => observed_at | Some o => first_seen_ns o end;
  oc_seen : last_seen_ns item = observed_at /\ is_present item = true;
  oc_record : set_turnover (turnover r) (set_tradable_at (tradable_at_ns r) (tradable_at_source r) (inst item)) = r;
  oc_turnover : turnover r = None -> turnover (inst item) =
    match old with
    | Some o => if String.eqb (quote_asset (inst o)) (quote_asset r) then turnover (inst o) else None
    | None => None
    end;
  oc_start : opens is_initial lookback observed_at old r = true -> exists t,
    new_listing_started_at_ns item = Some t /\ t <= observed_at /\ first_tradable_seen_ns item = Some observed_at /\
    forall u, old ≫= last_terminal_seen_ns = Some u -> u < t;
  oc_keeps : opens is_initial lookback observed_at old r = false ->
    new_listing_started_at_ns item = if retains (listing_state item) then old ≫= new_listing_started_at_ns else None
}.

Lemma settled_state is_initial lookback o r : applicable r -> opens is_initial lookback observed_at (Some o) r = false ->
  materialized_state r (Some o) = listing_after is_initial lookback observed_at (Some o) r.
Proof.
  intros [[_ Rp _ _ _] _ _] Hopen. rewrite materialized_state_cases. unfold opens in Hopen. cbn in *.
  destruct (lifecycle_phase r), (tradable r) eqn:Et; try discriminate (proj1 Rp eq_refl);
    try discriminate (proj2 Rp eq_refl); cbn in *; destruct (listing_state o); try done; by cbn in Hopen.
Qed.

Section Record_.
Context (is_initial : bool) (lookback : Z) (old : option CatalogInstrument) (r : InstrumentRecord).
Context (Hr : applicable r) (Hold : forall o, old = Some o -> follows observed_at o).
Local Abbreviation m := (materialized r old observed_at).

Lemma same_record t s q : set_turnover (turnover r) (set_tradable_at (tradable_at_ns r) (tradable_at_source r)
  (set_tradable_at t s (set_turnover q r))) = r.
Proof. by destruct r. Qed.

(** The record that a listing opens with, and what follows. *)
Lemma listed_outcome i floor : i = m \/ i = seen m -> starts i floor ->
  opens is_initial lookback observed_at old r = true ->
  (forall u, old ≫= last_terminal_seen_ns = Some u -> floor = Some u) ->
  exists item, finish (listed i floor) old observed_at = Ok item /\ outcome is_initial lookback old r item.
Proof.
  intros Hi Hs Hopen Hf. assert (Hgen : forall o, old = Some o -> 0 <= listing_generation o < MAX_INT64).
  { intros o Ho. destruct (Hold o Ho) as [Hm _ Hg]. apply made_spec in Hm as (_ & [] & _). lia. }
  destruct (opened_ok i old floor Hs Hgen) as [Hok Hmade]. destruct Hs as [(t & Ht & Hle & Hu & _) _ _ Hseen _].
  eexists. split; [exact Hok|]. assert (Hstate : ACTIVE_NEW = listing_after is_initial lookback observed_at old r).
  { unfold opens in Hopen. apply andb_true_iff in Hopen as [Hopen _]. by apply bool_decide_eq_true in Hopen. }
  constructor; rewrite ?Hopen; try done; destruct Hi as [->| ->]; try done; cbn;
    try (by destruct r); try (by destruct old); try (by intros ->); intros _; exists t; (split; [exact Ht|auto]).
Qed.

(** A record that settles in its state, without a listing. *)
Lemma settled_outcome st : _with_listing_state m st = Ok (in_state m st) -> made (in_state m st) ->
  st = listing_after is_initial lookback observed_at old r -> opens is_initial lookback observed_at old r = false ->
  exists item, finish (settled m st) old observed_at = Ok item /\ outcome is_initial lookback old r item.
Proof.
  intros Hok Hmade Hst Hopen. exists (in_state m st). split; [done|]. constructor; rewrite ?Hopen; try done; cbn.
  - destruct old; lia.
  - apply same_record.
  - by intros ->.
  - intros _. destruct old as [o|] eqn:Eo; [|cbn; by destruct (retains st); destruct (retains (materialized_state r None))].
    rewrite (settled_state is_initial lookback), <- Hst by done. by destruct (retains st).
Qed.
End Record_.

(** ** A record seen for the first time *)
Lemma official_first r ok : applicable r ->
  official_time (materialized r None observed_at) observed_at ok = listed_at r (fun t => (t <=? observed_at) && ok t).
Proof.
  intros [[_ _ _ Rs _] Hsrc _]. unfold official_time, listed_at, materialized, materialized_time. cbn.
  destruct (tradable_at_ns r) as [t|]; cbn in *; [|by destruct (tradable r)].
  destruct (tradable_at_source r) as [[]|]; try done.
Qed.

Lemma first_time r t : applicable r -> tradable r = true -> tradable_at_ns (inst (materialized r None observed_at)) = Some t ->
  tradable_at_source (inst (materialized r None observed_at)) = Some FIRST_TRADABLE_SEEN -> t = observed_at.
Proof.
  intros [[_ _ _ Rs _] Hsrc _] Ht. unfold materialized, materialized_time. cbn.
  destruct (tradable_at_ns r) as [u|]; cbn; [done|]. rewrite Ht. cbn. by intros [= <-].
Qed.

Lemma first_has_time r : tradable r = true -> exists t, tradable_at_ns (inst (materialized r None observed_at)) = Some t.
Proof.
  intros Ht. unfold materialized, materialized_time. cbn. destruct (tradable_at_ns r) as [t|]; [by exists t|].
  rewrite Ht. by eexists.
Qed.

Lemma place_first_spec is_initial lookback r : applicable r ->
  let m := materialized r None observed_at in
  place_first m is_initial lookback observed_at =
  if opens is_initial lookback observed_at None r then
    let! item := if opt_ok (fun t => t <=? observed_at) (tradable_at_ns (inst m)) then Ok m else seen_now observed_at m in
    Ok (listed item None)
  else Ok (settled m (listing_after is_initial lookback observed_at None r)).
Proof.
  intros Hr m. subst m. unfold place_first, opens. rewrite !official_first by done. destruct Hr as [[_ Rp _ _ _] _ _].
  set (recent := listed_at r (fun t => (0 <? lookback) && (t <=? observed_at) && (observed_at - t <=? lookback))).
  assert (Hrecent : (0 <? lookback) && listed_at r (fun t => (t <=? observed_at) && (observed_at - t <=? lookback)) = recent).
  { unfold recent, listed_at. destruct (tradable_at_ns r); [by rewrite <- andb_assoc|apply andb_false_r]. }
  assert (Hknown : listed_at r (fun t => (t <=? observed_at) && true) = listed_at r (fun t => t <=? observed_at)).
  { unfold listed_at. destruct (tradable_at_ns r); [by rewrite andb_true_r|done]. }
  assert (Htime : recent = true -> opt_ok (fun t => t <=? observed_at)
    (tradable_at_ns (inst (materialized r None observed_at))) = true).
  { unfold recent, listed_at, materialized, materialized_time. cbn. destruct (tradable_at_ns r); [|done]. cbn.
    intros [[_ H]%andb_true_iff _]%andb_true_iff. done. }
  cbn [listing_after]. fold recent. rewrite Hrecent, Hknown. clearbody recent. clear Hrecent Hknown.
  change (tradable (inst (materialized r None observed_at))) with (tradable r).
  change (lifecycle_phase (inst (materialized r None observed_at))) with (lifecycle_phase r).
  set (due := opt_ok _ (tradable_at_ns (inst _))) in *. set (known := listed_at r _).
  clearbody due known. destruct (lifecycle_phase r), (tradable r) eqn:Et; try discriminate (proj1 Rp eq_refl);
    try discriminate (proj2 Rp eq_refl); destruct is_initial, recent; cbn; rewrite ?Htime by done; try done;
    by destruct known.
Qed.

Lemma settled_first is_initial lookback r : applicable r -> opens is_initial lookback observed_at None r = false ->
  let m := materialized r None observed_at in let st := listing_after is_initial lookback observed_at None r in
  _with_listing_state m st = Ok (in_state m st) /\ made (in_state m st).
Proof.
  intros Hr Hopen m st. subst m st. pose proof (materialized_made r None Hr ltac:(done)) as Hm.
  set (m := materialized r None observed_at) in *.
  assert (Hsame : forall st, listing_state m = st -> _with_listing_state m st = Ok (in_state m st) /\ made (in_state m st)).
  { intros st <-. rewrite settled_same, in_state_same; [done| |done]. by apply made_spec in Hm as (_ & W & _). }
  assert (Hquiet : forall st, tradable r = false -> lifecycle_phase r <> DELISTED ->
    st = BASELINE \/ st = PENDING \/ st = PENDING_OFFICIAL ->
    _with_listing_state m st = Ok (in_state m st) /\ made (in_state m st)).
  { intros st Ht Hd. apply settled_quiet; try done.
    - unfold m, materialized. cbn. rewrite bool_decide_eq_false_2 by done. by destruct (retains _).
    - unfold m, materialized. cbn. by destruct (retains _). }
  assert (Hst : listing_state m = materialized_state r None) by done. rewrite materialized_state_cases in Hst.
  destruct Hr as [[_ Rp _ _ _] _ _]. unfold opens in Hopen. cbn [listing_after] in *.
  destruct (lifecycle_phase r) eqn:Ep, (tradable r) eqn:Et; try discriminate (proj1 Rp eq_refl);
    try discriminate (proj2 Rp eq_refl); cbn in Hopen |- *; try (by apply Hsame).
  1,4: apply Hquiet; auto.
  - apply Hquiet; [done|done|]. repeat case_match; auto.
  - destruct (is_initial && negb _); [|done]. by apply Hsame.
Qed.

Lemma first_record is_initial lookback r : applicable r -> exists p item,
  place_first (materialized r None observed_at) is_initial lookback observed_at = Ok p /\
  p_new p = opens is_initial lookback observed_at None r /\
  finish p None observed_at = Ok item /\ outcome is_initial lookback None r item.
Proof.
  intros Hr. pose proof (materialized_made r None Hr ltac:(done)) as Hm. rewrite place_first_spec by done.
  set (m := materialized r None observed_at) in *. destruct (opens is_initial lookback observed_at None r) eqn:Hopen.
  - assert (Ht : tradable r = true).
    { destruct Hr as [[_ Rp _ _ _] _ _]. apply Rp. unfold opens in Hopen. cbn in Hopen.
      destruct (lifecycle_phase r); try done; cbn in Hopen; by repeat case_match. }
    assert (Hs : exists i, (if opt_ok (fun t => t <=? observed_at) (tradable_at_ns (inst m)) then Ok m else seen_now observed_at m)
      = Ok i /\ (i = m \/ i = seen m) /\ starts i None).
    { destruct (first_has_time r Ht) as [t Etime]. fold m in Etime. rewrite Etime. cbn.
      destruct (Z.leb_spec t observed_at) as [Hle|Hgt].
      - exists m. split; [done|]. split; [by left|]. constructor; try done. exists t. split_and!; try done.
        by apply first_time.
      - destruct (seen_now_ok m Hm) as [Hok Hmade]. exists (seen m). split; [done|]. split; [by right|].
        constructor; try done. exists observed_at. split_and!; try done; lia. }
    destruct Hs as (i & -> & Hi & Hstart). cbn [rbind].
    destruct (listed_outcome is_initial lookback None r Hr ltac:(done) i None Hi Hstart Hopen ltac:(done)) as (item & Hf & Ho).
    by exists (listed i None), item.
  - destruct (settled_first is_initial lookback r Hr Hopen) as [Hok Hmade].
    destruct (settled_outcome is_initial lookback None r Hr ltac:(done) _ Hok Hmade eq_refl Hopen) as (item & Hf & Ho).
    by eexists _, item.
Qed.

(** ** A record seen before *)
Lemma official_time_ok i ok : made i -> official_time i observed_at ok = true ->
  exists t, tradable_at_ns (inst i) = Some t /\ t <= observed_at /\ ok t = true /\
    tradable_at_source (inst i) <> Some FIRST_TRADABLE_SEEN.
Proof.
  unfold official_time. intros _. destruct (tradable_at_source (inst i)) as [s|] eqn:Es; [|done].
  destruct (tradable_at_ns (inst i)) as [t|]; [|done]. intros [[Hoff Hle]%andb_true_iff Hok]%andb_true_iff.
  exists t. split_and!; [done|by apply Z.leb_le|done|]. intros [= ->]. done.
Qed.

(** The item a listing of a known instrument starts with. *)
Lemma relisted i ok floor : made i -> tradable (inst i) = true -> last_seen_ns i = observed_at ->
  (forall t, ok t = true -> forall u, floor = Some u -> u < t) ->
  (forall u, floor = Some u -> first_seen_ns i <= u < observed_at) ->
  exists j, (if official_time i observed_at ok then Ok i else seen_now observed_at i) = Ok j /\ (j = i \/ j = seen i) /\
    starts j floor.
Proof.
  intros Hm Ht Hs Hok Hfloor. destruct (official_time i observed_at ok) eqn:E.
  - exists i. split; [done|]. split; [by left|]. destruct (official_time_ok i ok Hm E) as (t & Etime & Hle & Hokt & Hsrc).
    constructor; try done.
    + exists t. split_and!; try done. by apply Hok.
    + intros u Hu. apply Hfloor in Hu. lia.
  - destruct (seen_now_ok i Hm) as [Hnow Hmade]. exists (seen i). split; [done|]. split; [by right|].
    constructor; try done.
    + exists observed_at. split_and!; try done. intros u Hu. apply Hfloor in Hu. lia.
    + intros u Hu. apply Hfloor in Hu. cbn. lia.
Qed.

(** The terminal evidence a listing has to follow. *)
Definition listing_floor (o : CatalogInstrument) : option Z :=
  if bool_decide (listing_state o = RELIST_PENDING) then last_terminal_seen_ns o else None.
(** What makes an official time one of the new episode. *)
Definition of_episode (o : CatalogInstrument) (t : Z) : bool :=
  match listing_state o with
  | RELIST_PENDING => match last_terminal_seen_ns o with Some terminal => terminal <? t | None => false end
  | PENDING_OFFICIAL => match tradable_at_ns (inst o) with Some floor => floor <=? t | None => false end
  | _ => first_seen_ns o <=? t
  end.

Lemma place_again_spec is_initial lookback r o : applicable r -> follows observed_at o ->
  let m := materialized r (Some o) observed_at in
  place_again m o observed_at =
  if opens is_initial lookback observed_at (Some o) r then
    let! item := if official_time m observed_at (of_episode o) then Ok m else seen_now observed_at m in
    Ok (listed item (listing_floor o))
  else Ok (settled m (listing_after is_initial lookback observed_at (Some o) r)).
Proof.
  intros Hr [Hmo _ _] m. subst m. unfold place_again, opens, listing_floor, of_episode. destruct Hr as [[_ Rp _ _ _] _ _].
  apply made_spec in Hmo as (_ & W & _). pose proof (wf_relist _ W) as Hrelist.
  set (m := materialized r (Some o) observed_at).
  change (lifecycle_phase (inst m)) with (lifecycle_phase r). change (tradable (inst m)) with (tradable r).
  clearbody m. cbn [listing_after fmap option_fmap option_map].
  destruct (lifecycle_phase r), (tradable r) eqn:Et; try discriminate (proj1 Rp eq_refl);
    try discriminate (proj2 Rp eq_refl); destruct (listing_state o) eqn:Eo; try done.
  destruct (Hrelist eq_refl) as [u Hu]. by rewrite Hu.
Qed.

Lemma again_record is_initial lookback r o : applicable r -> follows observed_at o -> exists p item,
  place_again (materialized r (Some o) observed_at) o observed_at = Ok p /\
  p_new p = opens is_initial lookback observed_at (Some o) r /\
  finish p (Some o) observed_at = Ok item /\ outcome is_initial lookback (Some o) r item.
Proof.
  intros Hr Ho. assert (Hold : forall o', Some o = Some o' -> follows observed_at o') by (by intros ? [= <-]).
  rewrite (place_again_spec is_initial lookback) by done.
  pose proof (materialized_made r (Some o) Hr Hold) as Hm. set (m := materialized r (Some o) observed_at) in *.
  destruct Ho as [Hmo Hseen _]. apply made_spec in Hmo as (_ & W & _).
  destruct (opens is_initial lookback observed_at (Some o) r) eqn:Hopen.
  - assert (Hp : tradable r = true /\ (listing_state o = RELIST_PENDING \/ last_terminal_seen_ns o = None)).
    { destruct Hr as [[_ Rp _ _ _] _ _]. rewrite <- Rp. unfold opens in Hopen. cbn in Hopen.
      destruct (last_terminal_seen_ns o) as [u|] eqn:Eu; [destruct (wf_terminal _ W u Eu) as [_ Hx]|];
        destruct (lifecycle_phase r), (listing_state o); try done; try (by cbn in Hopen); set_solver. }
    destruct Hp as [Ht Hterm].
    assert (Hfloor : forall u, listing_floor o = Some u -> first_seen_ns m <= u < observed_at).
    { unfold listing_floor. case_bool_decide; [|done]. intros u Hu. apply (wf_terminal _ W) in Hu as [Hu _]. cbn. lia. }
    destruct (relisted m (of_episode o) (listing_floor o) Hm Ht eq_refl) as (i & -> & Hi & Hs); [|done|].
    { unfold of_episode, listing_floor. intros t Hok u Hu. case_bool_decide as Hst; [|done]. rewrite Hst, Hu in Hok.
      by apply Z.ltb_lt. }
    cbn [rbind]. destruct (listed_outcome is_initial lookback (Some o) r Hr Hold i (listing_floor o) Hi Hs Hopen)
      as (item & Hf & Hout); [|by exists (listed i (listing_floor o)), item].
    cbn. unfold listing_floor. intros u Hu. destruct Hterm as [->|Hnone]; [done|congruence].
  - destruct (settled_outcome is_initial lookback (Some o) r Hr Hold (listing_state m)) as (item & Hf & Hout).
    + rewrite settled_same, in_state_same; [done| |done]. by apply made_spec in Hm as (_ & ? & _).
    + rewrite in_state_same; [done|]. by apply made_spec in Hm as (_ & ? & _).
    + by apply settled_state.
    + done.
    + exists (settled m (listing_state m)), item. split; [|done]. do 2 f_equal. symmetry. by apply settled_state.
Qed.

(** Every record of a complete snapshot has an outcome. *)
Lemma apply_record_ok is_initial lookback old r : applicable r -> (forall o, old = Some o -> follows observed_at o) ->
  exists item, apply_record is_initial lookback observed_at old r
    = Ok (item, opens is_initial lookback observed_at old r) /\ outcome is_initial lookback old r item.
Proof.
  intros Hr Hold. unfold apply_record, _materialize_record.
  rewrite made_rebuilt by by apply materialized_made. cbn [rbind].
  assert (Hp : exists p item, (match old with
      | None => place_first (materialized r old observed_at) is_initial lookback observed_at
      | Some o => place_again (materialized r old observed_at) o observed_at
      end) = Ok p /\ p_new p = opens is_initial lookback observed_at old r /\
      finish p old observed_at = Ok item /\ outcome is_initial lookback old r item).
  { destruct old as [o|]; [by apply again_record, Hold|by apply first_record]. }
  destruct Hp as (p & item & -> & Hnew & Hf & Ho). cbn [rbind]. rewrite Hf. cbn [rbind]. rewrite Hnew. by exists item.
Qed.
End Step.

(** C12: The listing state machine is total and exact.  Whatever is stored for an
    instrument, as long as it was seen before the snapshot, a record of the snapshot is
    placed without an error: the state is the one of [first_state] or [next_state], a new
    episode opens exactly when that state is newly [ACTIVE_NEW], the generation counts the
    episodes, the episode starts at a time that has come and that is later than the
    terminal evidence it follows, and an instrument that opens no episode keeps the start
    of the one it is in. *)
Theorem listing_step_exact (observed_at lookback : Z) (is_initial : bool) (old : option CatalogInstrument) (r : InstrumentRecord) :
  0 <= observed_at <= MAX_INT64 -> applicable r -> (forall o, old = Some o -> follows observed_at o) ->
  let new := opens is_initial lookback observed_at old r in
  exists item, apply_record is_initial lookback observed_at old r = Ok (item, new) /\ made item /\
    listing_state item = listing_after is_initial lookback observed_at old r /\
    listing_generation item = match old with None => 0 | Some o => listing_generation o end + Z.b2z new /\
    (new = true -> exists start, new_listing_started_at_ns item = Some start /\ start <= observed_at /\
       forall terminal, old ≫= last_terminal_seen_ns = Some terminal -> terminal < start) /\
    (new = false -> new_listing_started_at_ns item =
       if retains (listing_state item) then old ≫= new_listing_started_at_ns else None).
Proof.
  intros Hobs Hr Hold new. destruct (apply_record_ok observed_at Hobs is_initial lookback old r Hr Hold) as (item & Hok & Ho).
  exists item. split; [done|]. destruct Ho as [Hm Hs Hg _ _ _ _ Hstart Hkeep]. split_and!; try done.
  intros Hn. destruct (Hstart Hn) as (t & Ht & Hle & _ & Hu). by exists t.
Qed.

(** ** An instrument that is delisted and listed again *)
Definition ex_record (phase : LifecyclePhase) : InstrumentRecord := {|
  exchange := KRAKEN; market := SPOT; instrument_key := "XBTUSD"; canonical_pair := "BTC-USD";
  wire_symbols := {["rest" := "XXBTZUSD"]}; base_asset := "BTC"; quote_asset := "USD"; settlement_asset := None;
  status := "online"; lifecycle_phase := phase; tradable := bool_decide (phase = TRADABLE);
  lifecycle := JDict [("tick", JDecimal (Dec 1 (-2)))]; tradable_at_ns := None; tradable_at_source := None;
  turnover := None; raw_catalog_reference := "raw/1" |}.
Definition ex_delisted : CatalogInstrument := materialized (ex_record DELISTED) None 10.
Lemma ex_applicable phase : applicable (ex_record phase).
Proof. constructor; [|done|done]. apply record_ok_spec. destruct phase; vm_compute; reflexivity. Qed.
Lemma ex_follows : follows 20 ex_delisted.
Proof. constructor; [split; vm_compute; reflexivity|vm_compute; reflexivity|vm_compute; reflexivity]. Qed.

Lemma listing_step_exact_witness :
  apply_record true 0 10 None (ex_record DELISTED) = Ok (ex_delisted, false) /\
  exists item, apply_record false 0 20 (Some ex_delisted) (ex_record TRADABLE) = Ok (item, true) /\
    listing_state item = ACTIVE_NEW /\ listing_generation item = 1 /\
    exists start, new_listing_started_at_ns item = Some start /\ 10 < start <= 20.
Proof.
  split; [vm_compute; reflexivity|].
  destruct (listing_step_exact 20 0 false (Some ex_delisted) (ex_record TRADABLE)) as (item & Hok & _ & Hs & Hg & Hstart & _).
  - vm_compute. split; discriminate.
  - apply ex_applicable.
  - intros o [= <-]. apply ex_follows.
  - exists item. split; [exact Hok|]. split; [exact Hs|]. split; [exact Hg|].
    destruct (Hstart eq_refl) as (t & Ht & Hle & Hu). exists t. split; [exact Ht|]. split; [exact (Hu 10 eq_refl)|exact Hle].
Defined.
