(* ===== verification/CatalogStore.v ===== *)
(** [CatalogStore] of [selection/catalog_store.py]: every operation on its tables.  A
    transaction that raises leaves the tables as they were.  Opening the file, creating
    and checking the schema and closing are not modelled. *)
From stdpp Require Import pretty.
From S2P Require Import Prelude PyDecimal Domain StorageModels SelectionModels Selector PyText CatalogJson CatalogRows.
From S2P Require Import CatalogListing StateStore.

(** [BEGIN], the body, and [COMMIT] or [ROLLBACK]. *)
Definition transaction {A} (body : Db -> result (Db * A)) : M Db A := fun db =>
  match body db with Ok (db, a) => (db, Ok a) | Err e => (db, Err e) end.

(** A loop that writes. *)
Fixpoint for_each {A} (step : A -> Db -> result Db) (l : list A) (db : Db) : result Db :=
  match l with
  | [] => Ok db
  | x :: l => let! db := step x db in for_each step l db
  end.

Section Store.
Context `{JsonCodec} (sha256_hex : string -> string).

Definition digest_of (payload : Json) : string := sha256_hex (encode_json payload).

(** ** Identities *)
Definition by_key {A} (f : A -> string) (l : list A) : list A := py_sorted (on_key f string_leb) l.

Definition _complete_catalog_digest (s : CompleteCatalogSnapshot) (initial_lookback_ns : Z) : string :=
  digest_of (JDict [
    ("authoritative_empty", JBool (cs_authoritative_empty s)); ("initial_lookback_ns", JInt initial_lookback_ns);
    ("instruments", JList (List.map (fun r => JDict (_record_payload r)) (by_key instrument_key (cs_instruments s))));
    ("pages", JList (List.map _snapshot_page_payload (cs_pages s)));
    ("reported_total_count", jopt JInt (cs_reported_total_count s)); ("snapshot_id", JStr (cs_snapshot_id s))]).

Definition _turnover_snapshot_digest (s : CompleteTurnoverSnapshot) : string :=
  digest_of (JDict [
    ("authoritative_empty", JBool (ts_authoritative_empty s)); ("catalog_revision", JInt (ts_catalog_revision s));
    ("covered_instrument_keys", JList (List.map JStr (py_sorted string_leb (covered_instrument_keys s))));
    ("observations", JList (List.map (fun o => JDict [
        ("currency", JStr (ob_currency o)); ("instrument_key", JStr (ob_instrument_key o));
        ("method", jenum (ob_method o)); ("raw_reference", JStr (ob_raw_reference o));
        ("value", JStr (str_of_dec (ob_value o)))]) (by_key ob_instrument_key (observations s))));
    ("pages", JList (List.map _snapshot_page_payload (ts_pages s)));
    ("reported_total_count", jopt JInt (ts_reported_total_count s)); ("snapshot_id", JStr (ts_snapshot_id s))]).

Definition _control_event_id (scope : CatalogScope) (revision ordinal : Z) (kind instrument_key : string) : string :=
  digest_of (JDict [
    ("exchange", jenum (sc_exchange scope)); ("instrument_key", JStr instrument_key); ("kind", JStr kind);
    ("market", jenum (sc_market scope)); ("ordinal", JInt ordinal); ("revision", JInt revision)]).

Definition _selection_event_id (scope : CatalogScope) (policy_id : string) (state_revision ordinal : Z)
    (kind instrument_key : string) : string :=
  digest_of (JDict [
    ("exchange", jenum (sc_exchange scope)); ("instrument_key", JStr instrument_key); ("kind", JStr kind);
    ("market", jenum (sc_market scope)); ("ordinal", JInt ordinal); ("policy_id", JStr policy_id);
    ("state_revision", JInt state_revision)]).

(** ** Reading *)
Definition _decode_string_array (data field : string) : result (list string) :=
  let! decoded := decode_json data in
  match decoded with
  | JList items =>
      match mapM (fun j => match j with JStr s => Some s | _ => None end) items with
      | Some strings =>
          raise RuntimeError (field +:+ " must contain unique non-empty strings")
            when negb (unique strings) || negb (forallb nonempty strings);;
          Ok strings
      | None => Err (RuntimeError (field +:+ " must be a JSON string array"))
      end
  | _ => Err (RuntimeError (field +:+ " must be a JSON string array"))
  end.

Definition load_rows (scope : CatalogScope) (rows : list (string * InstrumentRow)) : result (list CatalogInstrument) :=
  check_all (fun kr => _instrument_from_row scope kr.1 kr.2) rows.

Definition _load_prior_records (scope : CatalogScope) (db : Db) : result (gmap string CatalogInstrument) :=
  let rows := rows_of scope (catalog_instrument db) in
  let! items := load_rows scope rows in
  Ok (list_to_map (zip rows.*1 items)).

(** ** [apply_catalog_snapshot] *)
(** The loop that checks the records; [keys] are those before. *)
Fixpoint check_records (scope : CatalogScope) (observed_at : Z) (keys : list string) (l : list InstrumentRecord)
    : result unit :=
  match l with
  | [] => Ok tt
  | record :: l =>
      raise ValueError "instrument scope does not match snapshot scope"
        when negb (bool_decide (SelectionModels.scope record = scope));;
      raise ValueError "first_tradable_seen time is owned by CatalogStore"
        when bool_decide (tradable_at_source record = Some FIRST_TRADABLE_SEEN);;
      raise ValueError "turnover observed_at_ns must not be after catalog observation"
        when match turnover record ≫= to_observed_at_ns with Some t => observed_at <? t | None => false end;;
      raise ValueError ("duplicate instrument_key in snapshot: " +:+ instrument_key record)
        when bool_decide (instrument_key record ∈ keys);;
      check_records scope observed_at (instrument_key record :: keys) l
  end.

Definition _resolve_announcement_target (row : HintRow) (current : list CatalogInstrument) : option string :=
  let tradable_now (i : CatalogInstrument) := is_present i && tradable (inst i) in
  match row_candidate_key row with
  | Some key =>
      match find (fun i => String.eqb (c_key i) key) current with
      | Some i =>
          if tradable_now i && opt_ok (fun p => String.eqb (canonical_pair (inst i)) p) (row_candidate_pair row)
          then Some (c_key i) else None
      | None => None
      end
  | None =>
      match row_candidate_pair row with
      | None => None
      | Some candidate =>
          match List.filter (fun i => tradable_now i && String.eqb (canonical_pair (inst i)) candidate) current with
          | [i] => Some (c_key i)
          | _ => None
          end
      end
  end.

Definition mark_missing (scope : CatalogScope) (key : string) (db : Db) : Db :=
  set_instruments (alter (fun r => set_row_present false (turnover_columns r) r) (scope, key) (catalog_instrument db)) db.

Definition upsert_instrument (scope : CatalogScope) (item : CatalogInstrument) (db : Db) : result Db :=
  let row := match catalog_instrument db !! (scope, c_key item) with
             | Some old => set_first_seen (r_first_seen_ns old) (instrument_row item)
             | None => instrument_row item
             end in
  checked (instrument_checks row) (Ok (set_instruments (<[(scope, c_key item) := row]> (catalog_instrument db)) db)).

Definition set_confirmed (t : Z) (r : HintRow) : HintRow := {|
  row_candidate_key := row_candidate_key r; row_candidate_pair := row_candidate_pair r;
  row_announced_at_ns := row_announced_at_ns r; row_raw_reference := row_raw_reference r;
  row_confirmed_at_ns := Some t |}.
Definition confirm_hint (scope : CatalogScope) (observed_at : Z) (id : string) (row : HintRow) (db : Db) : result Db :=
  checked (hint_checks (set_confirmed observed_at row))
    (Ok (set_hints (<[(scope, id) := set_confirmed observed_at row]> (catalog_announcement_hint db)) db)).

Definition value_payload (v : CatalogValue) : Json :=
  match v with Instrument i => _catalog_instrument_payload i | Hint h => _announcement_hint_payload h end.
Definition event_payload (d : CatalogDelta) : Json :=
  JDict [("current", value_payload (d_current d)); ("previous", jopt value_payload (d_previous d))].

Definition insert_change (event_id : string) (row : ChangeRow) (db : Db) : result Db :=
  checked (change_checks row) (
    raise IntegrityError "UNIQUE constraint failed"
      when present (catalog_change_outbox db !! event_id)
           || existsb (fun er => bool_decide (o_scope er.2 = o_scope row) && (o_catalog_revision er.2 =? o_catalog_revision row)
                                 && (o_ordinal er.2 =? o_ordinal row)) (map_to_list (catalog_change_outbox db));;
    Ok (set_changes (<[event_id := row]> (catalog_change_outbox db)) db)).

(** [for ordinal, (kind, instrument_key, payload) in enumerate(event_specs)] *)
Definition change_rows (scope : CatalogScope) (revision : Z) (deltas : list CatalogDelta) : list (string * ChangeRow) :=
  imap (fun n d =>
    let ordinal := Z.of_nat n in
    (_control_event_id scope revision ordinal (d_kind d) (d_instrument_key d),
     {| o_scope := scope; o_catalog_revision := revision; o_ordinal := ordinal; o_kind := d_kind d;
        o_instrument_key := d_instrument_key d; o_payload_json := encode_json (event_payload d) |})) deltas.

Definition catalog_scope_row (state : option ScopeRow) (observed_at : Z) (digest : string) (revision : Z)
    (snapshot_id : string) (pages : list string) : ScopeRow := {|
  last_observed_at_ns := observed_at; snapshot_digest := digest; row_revision := revision; complete := true;
  row_snapshot_id := snapshot_id; page_raw_references_json := encode_json (JList (List.map JStr pages));
  turnover_last_observed_at_ns := state ≫= turnover_last_observed_at_ns;
  turnover_snapshot_digest := state ≫= turnover_snapshot_digest;
  row_turnover_revision := match state with Some r => row_turnover_revision r | None => 0 end;
  row_turnover_snapshot_id := state ≫= row_turnover_snapshot_id;
  turnover_page_raw_references_json := state ≫= turnover_page_raw_references_json;
  row_turnover_catalog_revision := state ≫= row_turnover_catalog_revision;
  turnover_covered_keys_json := state ≫= turnover_covered_keys_json |}.

Definition instrument_delta (kind : string) (prior : gmap string CatalogInstrument) (item : CatalogInstrument)
    : CatalogDelta :=
  {| d_kind := kind; d_instrument_key := c_key item; d_previous := Instrument <$> (prior !! c_key item);
     d_current := Instrument item |}.

(** The hints that the snapshot confirms, with the rows and the targets they have. *)
Definition hint_matches (scope : CatalogScope) (observed_at : Z) (current : list CatalogInstrument) (db : Db)
    : list ((string * HintRow) * string) :=
  omap (fun ir => (fun target => (ir, target)) <$> _resolve_announcement_target ir.2 current)
    (List.filter (fun ir => negb (present (row_confirmed_at_ns ir.2)) && (row_announced_at_ns ir.2 <=? observed_at))
       (rows_of scope (catalog_announcement_hint db))).

Definition hint_delta (scope : CatalogScope) (observed_at : Z) (m : (string * HintRow) * string) : result CatalogDelta :=
  let! previous := _hint_from_row scope m.1.1 m.1.2 in
  let! current := _hint_from_row scope m.1.1 (set_confirmed observed_at m.1.2) in
  delta_validate {| d_kind := "announcement_confirmed"; d_instrument_key := m.2; d_previous := Some (Hint previous);
                    d_current := Hint current |}.

Definition unchanged (scope : CatalogScope) (observed_at : Z) (state : ScopeRow) : CatalogChanges := {|
  cc_scope := scope; cc_observed_at_ns := observed_at; is_initial_baseline := false; cc_idempotent := true;
  added := []; updated := []; removed := []; new_listings := []; confirmed_announcement_hints := [];
  cc_revision := row_revision state; cc_digest_sha256 := Some (snapshot_digest state); control_event_ids := [];
  cc_deltas := [] |}.

(** The branch that writes. *)
Definition write_snapshot (scope : CatalogScope) (observed_at lookback : Z) (ordered : list InstrumentRecord)
    (digest snapshot_id : string) (pages : list string) (state : option ScopeRow) (db : Db)
    : result (Db * CatalogChanges) :=
  let is_initial := negb (present state) in
  let revision := match state with None => 1 | Some s => row_revision s + 1 end in
  let! prior := _load_prior_records scope db in
  let! placed := check_all (fun r => apply_record is_initial lookback observed_at (prior !! instrument_key r) r) ordered in
  let current := placed.*1 in
  let added := List.filter (fun i => match prior !! c_key i with None => true | Some o => negb (is_present o) end) current in
  let updated := List.filter (fun i => match prior !! c_key i with
                                       | None => false
                                       | Some o => is_present o && negb (same_provider_fields o i)
                                       end) current in
  let new_listings := (List.filter snd placed).*1 in
  let missing := List.filter (fun ko => is_present ko.2 && bool_decide (ko.1 ∉ c_key <$> current))
                   (py_sorted by_name (map_to_list prior)) in
  let! removed := check_all (fun ko => _with_presence ko.2 false) missing in
  let db := foldl (fun db i => mark_missing scope (c_key i) db) db removed in
  let! db := for_each (upsert_instrument scope) current db in
  let matches := hint_matches scope observed_at current db in
  let! db := for_each (fun m => confirm_hint scope observed_at m.1.1 m.1.2) matches db in
  let! deltas := check_all (fun ki => delta_validate (instrument_delta ki.1 prior ki.2))
    ((pair "added" <$> by_key c_key added) ++ (pair "updated" <$> by_key c_key updated)
     ++ (pair "removed" <$> by_key c_key removed) ++ (pair "new_listing" <$> by_key c_key new_listings)) in
  let! confirmed := check_all (hint_delta scope observed_at) matches in
  let deltas := deltas ++ confirmed in
  let rows := change_rows scope revision deltas in
  let! _ := sqlite_int revision in
  let! db := for_each (fun er => insert_change er.1 er.2) rows db in
  let row := catalog_scope_row state observed_at digest revision snapshot_id pages in
  let! db := checked (scope_checks row) (Ok (set_scopes (<[scope := row]> (catalog_scope_state db)) db)) in
  let! changes := changes_validate {|
    cc_scope := scope; cc_observed_at_ns := observed_at; is_initial_baseline := is_initial; cc_idempotent := false;
    SelectionModels.added := added; SelectionModels.updated := updated; SelectionModels.removed := removed;
    SelectionModels.new_listings := new_listings; confirmed_announcement_hints := current_hints confirmed;
    cc_revision := revision; cc_digest_sha256 := Some digest; control_event_ids := rows.*1; cc_deltas := deltas |} in
  Ok (db, changes).

Definition _apply_snapshot (scope : CatalogScope) (observed_at_ns : Z) (instruments : list InstrumentRecord)
    (initial_lookback_ns : Z) (snapshot_id : string) (pages : list string) (digest : string) : M Db CatalogChanges :=
  fun db =>
  let checks :=
    let! observed_at := _nonnegative_int observed_at_ns "observed_at_ns" in
    let! lookback := _nonnegative_int initial_lookback_ns "initial_lookback_ns" in
    let! _ := check_records scope observed_at [] instruments in
    Ok tt in
  match checks with
  | Err e => (db, Err e)
  | Ok _ =>
      transaction (fun db =>
        let state := catalog_scope_state db !! scope in
        let write := write_snapshot scope observed_at_ns initial_lookback_ns (by_key instrument_key instruments)
                       digest snapshot_id pages state db in
        match state with
        | None => write
        | Some s =>
            raise RuntimeError "persisted catalog state is incomplete" when negb (complete s);;
            raise StaleCatalogSnapshotError "catalog snapshot observed_at_ns moved backwards"
              when observed_at_ns <? last_observed_at_ns s;;
            if observed_at_ns =? last_observed_at_ns s then
              raise CatalogSnapshotConflictError "same-time catalog snapshot has conflicting contents"
                when negb (String.eqb digest (snapshot_digest s));;
              let! result := changes_validate (unchanged scope observed_at_ns s) in
              Ok (db, result)
            else write
        end) db
  end.

Definition apply_catalog_snapshot (snapshot : CompleteCatalogSnapshot) (initial_lookback_ns : Z) : M Db CatalogChanges :=
  do! lookback := mlift (_nonnegative_int initial_lookback_ns "initial_lookback_ns") in
  _apply_snapshot (cs_scope snapshot) (cs_observed_at_ns snapshot) (cs_instruments snapshot) lookback
    (cs_snapshot_id snapshot) (raw_reference <$> cs_pages snapshot) (_complete_catalog_digest snapshot lookback).

(** ** [apply_turnover_snapshot] *)
Definition observation_columns (observed_at : Z) (o : option TurnoverObservation) : TurnoverColumns := {|
  turnover_value_text := str_of_dec ∘ ob_value <$> o; turnover_method := ob_method <$> o;
  turnover_currency := ob_currency <$> o; turnover_observed := (fun _ => observed_at) <$> o;
  turnover_raw_reference := ob_raw_reference <$> o |}.

(** The body of the loop over the rows; it collects the keys whose columns change. *)
Definition write_turnover (snapshot : CompleteTurnoverSnapshot) (table : gmap string TurnoverObservation)
    (key : string) (row : InstrumentRow) (db : Db) : result (Db * bool) :=
  let scope := ts_scope snapshot in
  let observation := if bool_decide (key ∈ covered_instrument_keys snapshot) then table !! key else None in
  raise ValueError "turnover currency must match the catalog quote_asset"
    when match observation with Some o => negb (String.eqb (ob_currency o) (r_quote_asset row)) | None => false end;;
  let columns := observation_columns (ts_observed_at_ns snapshot) observation in
  let row' := set_row_present (r_present row) columns row in
  checked (instrument_checks row')
    (Ok (set_instruments (<[(scope, key) := row']> (catalog_instrument db)) db,
         negb (bool_decide (turnover_columns row = columns)))).

Fixpoint write_turnovers (snapshot : CompleteTurnoverSnapshot) (table : gmap string TurnoverObservation)
    (rows : list (string * InstrumentRow)) (db : Db) : result (Db * list string) :=
  match rows with
  | [] => Ok (db, [])
  | (key, row) :: rows =>
      let! '(db, changed) := write_turnover snapshot table key row db in
      let! '(db, keys) := write_turnovers snapshot table rows db in
      Ok (db, if changed : bool then key :: keys else keys)
  end.

Definition turnover_scope_row (snapshot : CompleteTurnoverSnapshot) (digest : string) (state : ScopeRow) : ScopeRow := {|
  last_observed_at_ns := last_observed_at_ns state; snapshot_digest := snapshot_digest state;
  row_revision := row_revision state; complete := complete state; row_snapshot_id := row_snapshot_id state;
  page_raw_references_json := page_raw_references_json state;
  turnover_last_observed_at_ns := Some (ts_observed_at_ns snapshot); turnover_snapshot_digest := Some digest;
  row_turnover_revision := row_turnover_revision state + 1;
  row_turnover_snapshot_id := Some (ts_snapshot_id snapshot);
  turnover_page_raw_references_json :=
    Some (encode_json (JList (List.map JStr (raw_reference <$> ts_pages snapshot))));
  row_turnover_catalog_revision := Some (ts_catalog_revision snapshot);
  turnover_covered_keys_json :=
    Some (encode_json (JList (List.map JStr (py_sorted string_leb (covered_instrument_keys snapshot))))) |}.

Definition turnover_result (snapshot : CompleteTurnoverSnapshot) (revision : Z) (idempotent : bool) (changed : list string)
    : result TurnoverChanges :=
  turnover_changes_validate {|
    tc_scope := ts_scope snapshot; tc_catalog_revision := ts_catalog_revision snapshot;
    tc_observed_at_ns := ts_observed_at_ns snapshot; tc_revision := revision; tc_idempotent := idempotent;
    changed_instrument_keys := changed |}.

Definition write_turnover_snapshot (snapshot : CompleteTurnoverSnapshot) (digest : string) (state : ScopeRow) (db : Db)
    : result (Db * TurnoverChanges) :=
  let scope := ts_scope snapshot in
  let rows := rows_of scope (catalog_instrument db) in
  let present_keys := (List.filter (fun kr => r_present kr.2) rows).*1 in
  let outside := py_sorted string_leb
    (elements (list_to_set (covered_instrument_keys snapshot) ∖ list_to_set present_keys : gset string)) in
  raise CatalogRevisionConflictError
      ("turnover coverage contains keys outside the current catalog: " +:+ String.concat ", " outside)
    when negb (bool_decide (outside = []));;
  let table := foldl (fun m o => <[ob_instrument_key o := o]> m) ∅ (observations snapshot) in
  let! '(db, changed) := write_turnovers snapshot table rows db in
  let! _ := sqlite_int (row_turnover_revision state + 1) in
  let row := turnover_scope_row snapshot digest state in
  let! db := checked (scope_checks row) (Ok (set_scopes (<[scope := row]> (catalog_scope_state db)) db)) in
  let! result := turnover_result snapshot (row_turnover_revision row) false changed in
  Ok (db, result).

Definition apply_turnover_snapshot (snapshot : CompleteTurnoverSnapshot) : M Db TurnoverChanges :=
  let digest := _turnover_snapshot_digest snapshot in
  transaction (fun db =>
    match catalog_scope_state db !! ts_scope snapshot with
    | None => Err (CatalogRevisionConflictError "turnover snapshot requires an existing catalog revision")
    | Some state =>
        raise CatalogRevisionConflictError "turnover snapshot catalog revision does not match current catalog"
          when negb (ts_catalog_revision snapshot =? row_revision state);;
        raise StaleTurnoverSnapshotError "turnover snapshot cannot predate its bound catalog revision"
          when ts_observed_at_ns snapshot <? last_observed_at_ns state;;
        match turnover_last_observed_at_ns state with
        | None => write_turnover_snapshot snapshot digest state db
        | Some last =>
            raise StaleTurnoverSnapshotError "turnover snapshot observed_at_ns moved backwards"
              when ts_observed_at_ns snapshot <? last;;
            if ts_observed_at_ns snapshot =? last then
              raise TurnoverSnapshotConflictError "same-time turnover snapshot has conflicting contents"
                when negb (bool_decide (turnover_snapshot_digest state = Some digest));;
              let! result := turnover_result snapshot (row_turnover_revision state) true [] in
              Ok (db, result)
            else write_turnover_snapshot snapshot digest state db
        end
    end).

(** ** Selections *)
Definition _selection_state_from_row (scope : CatalogScope) (policy_id : string) (row : SelectionRow)
    : result SelectionState :=
  let! decoded := decode_json (entries_json row) in
  match decoded with
  | JList nodes =>
      let! entries := decode_entries scope ∅ nodes in
      state_init scope (row_catalog_revision row) (row_selection_turnover_revision row) policy_id (state_revision row)
        entries
  | _ => Err (RuntimeError "selection state entries must be a JSON array")
  end.

Definition stored_selection (scope : CatalogScope) (policy_id : string) (db : Db) : result (option SelectionState) :=
  match selection_state db !! (scope, policy_id) with
  | None => Ok None
  | Some row => let! state := _selection_state_from_row scope policy_id row in Ok (Some state)
  end.

Definition load_selection_state (scope : CatalogScope) (policy_id : string) (db : Db) : result (option SelectionState) :=
  let! policy := _sha256_digest policy_id "policy_id" in
  stored_selection scope policy db.

Definition delta_kind (d : SelectionDelta) : string :=
  if negb (present (delta_previous d)) then "selection_added"
  else if negb (present (delta_current d)) then "selection_removed" else "selection_updated".
Definition selection_event (r : SelectionResult) (state_revision : Z) (ordinal : Z) (d : SelectionDelta)
    : string * SelectionChangeRow :=
  (_selection_event_id (r_scope r) (r_policy_id r) state_revision ordinal (delta_kind d) (delta_key d),
   {| e_scope := r_scope r; e_policy_id := r_policy_id r; e_state_revision := state_revision;
      e_catalog_revision := r_catalog_revision r; e_ordinal := ordinal; e_kind := delta_kind d;
      e_instrument_key := delta_key d;
      e_payload_json := encode_json (JDict [
        ("catalog_revision", JInt (r_catalog_revision r)); ("current", jopt _selection_entry_payload (delta_current d));
        ("policy_id", JStr (r_policy_id r)); ("previous", jopt _selection_entry_payload (delta_previous d));
        ("state_revision", JInt state_revision); ("turnover_revision", JInt (r_turnover_revision r))]) |}).

Definition insert_selection_change (event_id : string) (row : SelectionChangeRow) (db : Db) : result Db :=
  checked (selection_change_checks row) (
    raise IntegrityError "UNIQUE constraint failed"
      when present (selection_change_outbox db !! event_id)
           || existsb (fun er => bool_decide (e_scope er.2 = e_scope row) && String.eqb (e_policy_id er.2) (e_policy_id row)
                                 && (e_state_revision er.2 =? e_state_revision row) && (e_ordinal er.2 =? e_ordinal row))
                (map_to_list (selection_change_outbox db));;
    Ok (set_selection_changes (<[event_id := row]> (selection_change_outbox db)) db)).

Definition conflict {A} (what : string) (c : bool) (k : result A) : result A :=
  raise SelectionStateConflictError what when c;; k.

(** Every selected instrument is the stored one and on offer. *)
Definition check_selected (current : gmap string CatalogInstrument) (entries : gmap string SelectionEntry) : result unit :=
  let! _ := check_all (fun ke =>
    conflict "selection entry does not match the current catalog"
      (negb (opt_eqb instrument_eqb (current !! ke.1) (Some (instrument ke.2)))) (
    conflict "selection entry must be present and tradable"
      (negb (is_present (instrument ke.2) && tradable (inst (instrument ke.2)))) (
    Ok tt))) (py_sorted by_name (map_to_list entries)) in
  Ok tt.

(** The deltas are those between the stored state and the result. *)
Definition check_deltas (previous : gmap string SelectionEntry) (r : SelectionResult) : result unit :=
  let keys := list_to_set (delta_key <$> deltas r) : gset string in
  let required := filter (fun k => opt_eqb entry_eqb (previous !! k) (r_entries r !! k) = false)
                    (dom previous ∪ dom (r_entries r) : gset string) in
  conflict "selection deltas do not match the persisted previous state" (negb (bool_decide (keys = required))) (
  let! _ := check_all (fun d =>
    conflict "selection delta values do not match the persisted state"
      (negb (opt_eqb entry_eqb (delta_previous d) (previous !! delta_key d)
             && opt_eqb entry_eqb (delta_current d) (r_entries r !! delta_key d))) (
    Ok tt)) (deltas r) in
  Ok tt).

Definition write_selection (r : SelectionResult) (persisted : SelectionState) (db : Db) : result Db :=
  let row := {| state_revision := revision persisted; row_catalog_revision := r_catalog_revision r;
                row_selection_turnover_revision := r_turnover_revision r;
                entries_json := encode_json (_selection_state_entries_payload persisted) |} in
  let! _ := sqlite_int (revision persisted) in
  let! db := checked (selection_checks (r_policy_id r) row)
    (Ok (set_selections (<[(r_scope r, r_policy_id r) := row]> (selection_state db)) db)) in
  for_each (fun er => insert_selection_change er.1 er.2)
    (imap (fun n => selection_event r (revision persisted) (Z.of_nat n)) (deltas r)) db.

Definition commit_body (r : SelectionResult) (expected_catalog expected_turnover : Z) (expected_state : option Z) (db : Db)
    : result (Db * SelectionState) :=
  let scope := r_scope r in
  let header := catalog_scope_state db !! scope in
  raise CatalogRevisionConflictError "expected catalog revision does not match current catalog"
    when negb (bool_decide (row_revision <$> header = Some expected_catalog));;
  raise CatalogRevisionConflictError "expected turnover revision does not match current turnover"
    when negb (bool_decide (row_turnover_revision <$> header = Some expected_turnover));;
  raise CatalogRevisionConflictError "selection result catalog revision does not match expectation"
    when negb (r_catalog_revision r =? expected_catalog)
         || negb (s_catalog_revision (next_state r) =? expected_catalog);;
  raise CatalogRevisionConflictError "selection result turnover revision does not match expectation"
    when negb (r_turnover_revision r =? expected_turnover)
         || negb (s_turnover_revision (next_state r) =? expected_turnover);;
  let! current := _load_prior_records scope db in
  let! _ := check_selected current (r_entries r) in
  let! previous := stored_selection scope (r_policy_id r) db in
  conflict "expected state revision does not match persisted state revision"
    (negb (bool_decide (revision <$> previous = expected_state))) (
  conflict "selection result was not derived from the expected state revision"
    (negb (revision (next_state r) =? match previous with None => 0 | Some p => revision p end)) (
  let! _ := check_deltas (match previous with None => ∅ | Some p => entries p end) r in
  let next := next_state r in
  let! persisted := state_init (s_scope next) (s_catalog_revision next) (s_turnover_revision next) (s_policy_id next)
    (match previous with None => 1 | Some p => revision p + 1 end) (entries next) in
  let! db := write_selection r persisted db in
  Ok (db, persisted))).

Definition commit_selection (r : SelectionResult) (expected_catalog_revision expected_turnover_revision : Z)
    (expected_state_revision : option Z) : M Db SelectionState :=
  do! catalog := mlift (_nonnegative_int expected_catalog_revision "expected_catalog_revision") in
  do! _ := mlift (raise ValueError "expected_catalog_revision must be positive" when catalog =? 0;; Ok tt) in
  do! turnover := mlift (_nonnegative_int expected_turnover_revision "expected_turnover_revision") in
  do! state := mlift (_optional_nonnegative_int expected_state_revision "expected_state_revision") in
  do! _ := mlift (raise ValueError "expected_state_revision must be positive" when bool_decide (state = Some 0);; Ok tt) in
  transaction (commit_body r catalog turnover state).

(** ** Loading *)
Definition load_catalog (scope : CatalogScope) (include_missing : bool) (db : Db) : result CatalogSnapshot :=
  let state := catalog_scope_state db !! scope in
  let rows := List.filter (fun kr => include_missing || r_present kr.2) (rows_of scope (catalog_instrument db)) in
  let! items := load_rows scope rows in
  snapshot_validate {|
    sn_scope := scope; sn_observed_at_ns := last_observed_at_ns <$> state;
    sn_revision := match state with None => 0 | Some s => row_revision s end;
    sn_digest_sha256 := snapshot_digest <$> state;
    sn_complete := match state with None => false | Some s => complete s end; sn_instruments := items |}.

Definition load_view (scope : CatalogScope) (db : Db) : result CatalogView :=
  let state := catalog_scope_state db !! scope in
  let array (text : option string) (field : string) :=
    match text with None => Ok [] | Some t => _decode_string_array t field end in
  let! pages := array (page_raw_references_json <$> state) "catalog page references" in
  let! turnover_pages := array (state ≫= turnover_page_raw_references_json) "turnover page references" in
  let! covered := array (state ≫= turnover_covered_keys_json) "turnover covered instrument keys" in
  let! items := load_rows scope (rows_of scope (catalog_instrument db)) in
  view_validate {|
    v_scope := scope; catalog_observed_at_ns := last_observed_at_ns <$> state;
    SelectionModels.catalog_revision := match state with None => 0 | Some s => row_revision s end;
    catalog_digest_sha256 := snapshot_digest <$> state; catalog_snapshot_id := row_snapshot_id <$> state;
    catalog_page_raw_references := pages; turnover_observed_at_ns := state ≫= turnover_last_observed_at_ns;
    SelectionModels.turnover_revision := match state with None => 0 | Some s => row_turnover_revision s end;
    turnover_digest_sha256 := state ≫= turnover_snapshot_digest;
    turnover_catalog_revision := state ≫= row_turnover_catalog_revision;
    turnover_snapshot_id := state ≫= row_turnover_snapshot_id; turnover_page_raw_references := turnover_pages;
    turnover_covered_instrument_keys := covered; instruments := items |}.

(** [ORDER BY catalog_revision, stream_order, stream_revision, event_ordinal, event_id] *)
Definition ChangeKey : Type := (Z * (Z * (Z * (Z * string))))%type.
Definition change_leb : ChangeKey -> ChangeKey -> bool :=
  lex_leb Z.eqb Z.leb (lex_leb Z.eqb Z.leb (lex_leb Z.eqb Z.leb (lex_leb Z.eqb Z.leb string_leb))).
Definition pending_rows (scope : CatalogScope) (db : Db) : list (ChangeKey * (string * string * string)) :=
  py_sorted (on_key fst change_leb)
    (omap (fun er => if bool_decide (o_scope er.2 = scope)
                     then Some ((o_catalog_revision er.2, (0, (o_catalog_revision er.2, (o_ordinal er.2, er.1)))),
                                (o_kind er.2, o_instrument_key er.2, o_payload_json er.2)) else None)
       (map_to_list (catalog_change_outbox db))
     ++ omap (fun er => if bool_decide (e_scope er.2 = scope)
                        then Some ((e_catalog_revision er.2, (1, (e_state_revision er.2, (e_ordinal er.2, er.1)))),
                                   (e_kind er.2, e_instrument_key er.2, e_payload_json er.2)) else None)
          (map_to_list (selection_change_outbox db))).

Definition pending_changes (scope : CatalogScope) (db : Db) : result (list CatalogControlChange) :=
  check_all (fun '((revision, (_, (_, (_, event)))), (kind, key, text)) =>
    let! payload := decode_json text in
    match payload with
    | JDict _ =>
        control_change_validate {|
          event_id := event; ch_scope := scope; ch_catalog_revision := revision; ch_kind := kind;
          ch_instrument_key := key; ch_payload := payload |}
    | _ => Err (RuntimeError "catalog outbox payload must be a JSON object")
    end) (pending_rows scope db).

Definition ack_change (event_id : string) : M Db bool := fun db =>
  if negb (nonempty event_id) then (db, Err (ValueError "event_id must be a non-empty string"))
  else (set_selection_changes (delete event_id (selection_change_outbox db))
          (set_changes (delete event_id (catalog_change_outbox db)) db),
        Ok (present (catalog_change_outbox db !! event_id) || present (selection_change_outbox db !! event_id))).

Definition load_active_new_listings (scope : CatalogScope) (now_ns capture_duration_ns : Z) (db : Db)
    : result (list CatalogInstrument) :=
  let! now := _nonnegative_int now_ns "now_ns" in
  let! duration := _nonnegative_int capture_duration_ns "capture_duration_ns" in
  if duration =? 0 then Ok []
  else
    let! items := load_rows scope
      (List.filter (fun kr => r_present kr.2 && r_tradable kr.2 && bool_decide (r_listing_state kr.2 = ACTIVE_NEW)
                              && r_new_listing_eligible kr.2) (rows_of scope (catalog_instrument db))) in
    Ok (List.filter (fun i => match new_listing_started_at_ns i with
                              | Some t => (t <=? now) && (now - t <? duration)
                              | None => false
                              end) items).

(** ** Announcements *)
Definition hint_row (h : StoredAnnouncementHint) : HintRow := {|
  row_candidate_key := candidate_instrument_key h; row_candidate_pair := candidate_canonical_pair h;
  row_announced_at_ns := announced_at_ns h; row_raw_reference := h_raw_reference h; row_confirmed_at_ns := None |}.

(** The argument is an [AnnouncementHint], which has no confirmation. *)
Definition record_announcement_hint (hint : StoredAnnouncementHint) : M Db bool :=
  let row := hint_row hint in
  transaction (fun db =>
    match catalog_announcement_hint db !! (h_scope hint, hint_id hint) with
    | Some existing =>
        raise AnnouncementHintConflictError "announcement hint ID has conflicting contents"
          when negb (bool_decide (row_candidate_key existing = row_candidate_key row)
                     && bool_decide (row_candidate_pair existing = row_candidate_pair row)
                     && (row_announced_at_ns existing =? row_announced_at_ns row)
                     && String.eqb (row_raw_reference existing) (row_raw_reference row));;
        Ok (db, false)
    | None =>
        checked (hint_checks row)
          (Ok (set_hints (<[(h_scope hint, hint_id hint) := row]> (catalog_announcement_hint db)) db, true))
    end).

Definition load_announcement_hints (scope : CatalogScope) (db : Db) : result (list StoredAnnouncementHint) :=
  check_all (fun ir => _hint_from_row scope ir.1 ir.2) (rows_of scope (catalog_announcement_hint db)).
End Store.
