(* ===== verification/CatalogTables.v ===== *)
(** The tables of the catalog store: what the rows of a scope hold, and what the loops
    of [_apply_snapshot] that write make of them; then the invariant of the store, and what it
    is for: the catalog of every scope can be loaded. *)
From S2P Require Import Prelude PyDecimal Domain StorageModels SelectionModels Selector SelectorFacts PyText CatalogJson CatalogRows CatalogListing.
From S2P Require Import CatalogFacts ListingFacts CatalogStore.

(** ** The rows of a scope *)
Section RowsOf.
Context {A : Type} (sc : CatalogScope) (t : gmap (CatalogScope * string) A).

Local Abbreviation picked := (omap (fun kr : CatalogScope * string * A =>
  if bool_decide (kr.1.1 = sc) then Some (kr.1.2, kr.2) else None) (map_to_list t)).

Lemma elem_of_rows k r : (k, r) ∈ rows_of sc t <-> t !! (sc, k) = Some r.
Proof.
  unfold rows_of. rewrite elem_of_py_sorted, list_elem_of_omap. split.
  - intros ([[s k'] r'] & Hin & H). cbn in H. case_bool_decide as Hs; [|done]. injection H as -> ->. subst s.
    by apply elem_of_map_to_list.
  - intros H. exists ((sc, k), r). split; [by apply elem_of_map_to_list|]. cbn. by rewrite bool_decide_eq_true_2.
Qed.

Lemma NoDup_picked : NoDup picked.*1.
Proof.
  pose proof (NoDup_fst_map_to_list t) as Hnd. induction (map_to_list t) as [|[[s k] r] l IH]; [constructor|].
  rewrite fmap_cons in Hnd. apply NoDup_cons in Hnd as [Hn Hnd]. cbn. case_bool_decide as Hs; [|by apply IH]. cbn.
  apply NoDup_cons. split; [|by apply IH]. intros Hin. apply Hn. cbn in *. subst s.
  apply list_elem_of_fmap in Hin as ([k' r'] & -> & Hin). apply list_elem_of_omap in Hin as ([[s2 k2] r2] & Hin & H). cbn in H.
  case_bool_decide as Hs; [|done]. injection H as -> ->. subst s2. by apply (list_elem_of_fmap_2 fst) in Hin.
Qed.

Lemma NoDup_rows : NoDup (rows_of sc t).*1.
Proof. unfold rows_of. rewrite py_sorted_perm. apply NoDup_picked. Qed.

Lemma rows_sorted : StronglySorted (fun a b => by_name a b = true) (rows_of sc t).
Proof. apply py_sorted_sorted, _. Qed.

Lemma elem_of_rows_key k : k ∈ (rows_of sc t).*1 <-> is_Some (t !! (sc, k)).
Proof.
  split.
  - intros ([k' r] & -> & H)%list_elem_of_fmap. apply elem_of_rows in H. by exists r.
  - intros [r H]. apply elem_of_rows in H. by apply (list_elem_of_fmap_2 fst) in H.
Qed.
End RowsOf.

Section Tables.
Context `{JsonCodecLaws}.

(** ** What a row holds *)
(** An instrument as the store has it under a key of a scope. *)
Record holds (sc : CatalogScope) (key : string) (i : CatalogInstrument) : Prop := {
  h_made : made i;
  h_scope_is : c_scope i = sc;
  h_key_is : c_key i = key;
  h_wf : json_wf (lifecycle (inst i)) = true;
  h_dict : dict_json (lifecycle (inst i)) = true;
  h_sorted : sorted_json (lifecycle (inst i)) = lifecycle (inst i)
}.

Lemma holds_stored sc key i : holds sc key i -> stored i = i.
Proof. intros [_ _ _ _ _ Hs]. unfold stored. rewrite Hs. destruct i as [[]]. done. Qed.

Lemma stored_made i : made i -> made (stored i).
Proof.
  intros [Hm Ht]. split; [|done]. pose proof (init_lifecycle (sorted_json (lifecycle (inst i))) i _ i Hm) as Hi. exact Hi.
Qed.

Lemma stored_holds i : made i -> json_wf (lifecycle (inst i)) = true -> dict_json (lifecycle (inst i)) = true ->
  holds (c_scope i) (c_key i) (stored i).
Proof.
  intros Hm Hwf Hd. constructor; try done.
  - by apply stored_made.
  - by apply json_wf_sorted.
  - cbn. by destruct (lifecycle (inst i)).
  - by apply sorted_json_idem.
Qed.

Lemma row_for_stored i : row_for (stored i) = row_for i.
Proof. unfold row_for, instrument_row, _encode_typed_json. cbn. by rewrite sorted_node. Qed.

(** Every row of the table is that of an instrument. *)
Definition rows_ok (t : gmap (CatalogScope * string) InstrumentRow) : Prop :=
  forall sc k row, t !! (sc, k) = Some row -> exists i, holds sc k i /\ row = row_for i.

Lemma holds_read sc k i : holds sc k i -> _instrument_from_row sc k (row_for i) = Ok i.
Proof.
  intros Hh. pose proof (holds_stored _ _ _ Hh) as Hs. destruct Hh as [Hm <- <- Hwf Hd _]. rewrite row_roundtrip by done.
  by rewrite Hs.
Qed.

Lemma load_rows_ok sc t l : rows_ok t -> (forall kr, kr ∈ l -> t !! (sc, kr.1) = Some kr.2) ->
  exists items, load_rows sc l = Ok items /\ Forall2 (fun kr i => holds sc kr.1 i /\ kr.2 = row_for i) l items.
Proof.
  intros Ht Hl. apply check_all_total. intros [k r] Hin. destruct (Ht sc k r (Hl _ Hin)) as (i & Hh & ->).
  exists i. split; [by apply holds_read|done].
Qed.

(** The instruments that [_load_prior_records] finds. *)
Definition prior_of (sc : CatalogScope) (t : gmap (CatalogScope * string) InstrumentRow) (prior : gmap string CatalogInstrument)
    : Prop := forall k, t !! (sc, k) = row_for <$> prior !! k /\ forall i, prior !! k = Some i -> holds sc k i.

Lemma prior_of_zip sc l items : Forall2 (fun kr i => holds sc kr.1 i /\ kr.2 = row_for i) l items -> NoDup l.*1 ->
  forall k i, (list_to_map (zip l.*1 items) : gmap string CatalogInstrument) !! k = Some i <->
    (k, row_for i) ∈ l /\ holds sc k i.
Proof.
  induction 1 as [|[k' r'] i' l items [Hh Hr] HF IH]; intros Hnd k i.
  - cbn. rewrite lookup_empty. split; [done|]. intros [Hin _]. by apply elem_of_nil in Hin.
  - rewrite fmap_cons in Hnd |- *. apply NoDup_cons in Hnd as [Hn Hnd]. cbn [zip zip_with list_to_map foldr curry fst snd] in *.
    destruct (base.decide (k = k')) as [->|Hne].
    + rewrite lookup_insert_eq. split; [intros [= ->]; rewrite Hr; split; [left|done]|].
      intros [Hin Hi]. apply elem_of_cons in Hin as [[= Heq]|Hin].
      * f_equal. pose proof (holds_read _ _ _ Hh) as H1. pose proof (holds_read _ _ _ Hi) as H2. congruence.
      * destruct Hn. by apply (list_elem_of_fmap_2 fst) in Hin.
    + rewrite lookup_insert_ne, IH by done. split; [intros []; split; [by right|done]|].
      intros [Hin Hi]. by apply elem_of_cons in Hin as [[= ? _]|Hin].
Qed.

Lemma load_prior sc db : rows_ok (catalog_instrument db) ->
  exists prior, _load_prior_records sc db = Ok prior /\ prior_of sc (catalog_instrument db) prior.
Proof.
  intros Ht. unfold _load_prior_records. set (t := catalog_instrument db) in *.
  destruct (load_rows_ok sc t (rows_of sc t) Ht) as (items & -> & HF).
  { intros [k r]. apply elem_of_rows. }
  cbn [rbind]. eexists. split; [done|]. intros k. pose proof (prior_of_zip sc _ _ HF (NoDup_rows sc t) k) as Hz.
  split; [|intros i Hi; by apply Hz].
  destruct (list_to_map _ !! k) as [i|] eqn:E.
  - destruct (proj1 (Hz i) eq_refl) as [Hin _]. by apply elem_of_rows in Hin.
  - cbn. destruct (t !! (sc, k)) as [row|] eqn:Erow; [|done]. destruct (Ht _ _ _ Erow) as (i & Hi & ->).
    apply elem_of_rows in Erow. discriminate (proj2 (Hz i) (conj Erow Hi)).
Qed.

(** ** The loops that write *)
Definition upserted (sc : CatalogScope) (current : list CatalogInstrument) (t : gmap (CatalogScope * string) InstrumentRow) :=
  foldl (fun t i => <[(sc, c_key i) := row_for i]> t) t current.
Definition missed (sc : CatalogScope) (keys : list string) (t : gmap (CatalogScope * string) InstrumentRow) :=
  foldl (fun t k => alter (fun r => set_row_present false (turnover_columns r) r) (sc, k) t) t keys.

Lemma set_instruments_eq t1 t2 db : set_instruments t1 (set_instruments t2 db) = set_instruments t1 db.
Proof. done. Qed.

Lemma upsert_all sc l db : NoDup (c_key <$> l) ->
  (forall i, i ∈ l -> made i /\ is_present i = true /\
    forall row, catalog_instrument db !! (sc, c_key i) = Some row -> r_first_seen_ns row = first_seen_ns i) ->
  for_each (upsert_instrument sc) l db = Ok (set_instruments (upserted sc l (catalog_instrument db)) db).
Proof.
  revert db. induction l as [|i l IH]; intros db Hnd Hl; [by destruct db|]. rewrite fmap_cons in Hnd.
  apply NoDup_cons in Hnd as [Hn Hnd]. destruct (Hl i ltac:(left)) as (Hm & Hp & Hrow).
  assert (Hi : row_for i = instrument_row i) by (unfold row_for; rewrite Hp; done).
  cbn [for_each]. unfold upsert_instrument at 1.
  assert (Hr : (match catalog_instrument db !! (sc, c_key i) with
    | Some old => set_first_seen (r_first_seen_ns old) (instrument_row i)
    | None => instrument_row i
    end) = row_for i).
  { rewrite Hi. destruct (catalog_instrument db !! (sc, c_key i)) as [old|]; [|done]. by rewrite (Hrow old). }
  rewrite Hr, made_checks by done. cbn [checked negb raise_if rbind]. unfold checked. cbn [negb raise_if rbind].
  rewrite IH; [done|done|]. intros j Hj. destruct (Hl j ltac:(by right)) as (Hmj & Hpj & Hrowj). split_and!; [done|done|].
  intros row. cbn. rewrite lookup_insert_ne; [by apply Hrowj|]. intros [= Heq]. apply Hn. rewrite Heq. by apply list_elem_of_fmap_2.
Qed.

Lemma miss_all sc l db : foldl (fun db i => mark_missing sc (c_key i) db) db l
  = set_instruments (missed sc (c_key <$> l) (catalog_instrument db)) db.
Proof. revert db. induction l as [|i l IH]; intros db; [by destruct db|]. cbn. by rewrite IH. Qed.

Lemma lookup_upserted_ne sc l t s k : (forall i, i ∈ l -> (sc, c_key i) <> (s, k)) -> upserted sc l t !! (s, k) = t !! (s, k).
Proof.
  revert t. induction l as [|i l IH]; intros t Hl; [done|]. cbn. fold (upserted sc l (<[(sc, c_key i):=row_for i]> t)).
  rewrite IH; [|intros j Hj; apply Hl; by right]. apply lookup_insert_ne. apply Hl. left.
Qed.

Lemma lookup_upserted sc l t i : NoDup (c_key <$> l) -> i ∈ l -> upserted sc l t !! (sc, c_key i) = Some (row_for i).
Proof.
  revert t. induction l as [|j l IH]; intros t Hnd Hi; [by apply elem_of_nil in Hi|]. rewrite fmap_cons in Hnd.
  apply NoDup_cons in Hnd as [Hn Hnd]. cbn. fold (upserted sc l (<[(sc, c_key j):=row_for j]> t)).
  apply elem_of_cons in Hi as [->|Hi]; [|by apply IH]. rewrite lookup_upserted_ne; [apply lookup_insert_eq|].
  intros i Hi [= Heq]. apply Hn. rewrite <- Heq. by apply list_elem_of_fmap_2.
Qed.

Lemma lookup_missed sc keys t s k : NoDup keys -> missed sc keys t !! (s, k) =
  if bool_decide (s = sc /\ k ∈ keys) then (fun r => set_row_present false (turnover_columns r) r) <$> t !! (s, k)
  else t !! (s, k).
Proof.
  revert t. induction keys as [|k' keys IH]; intros t Hnd; [by rewrite bool_decide_eq_false_2 by (intros [_ H']; by apply elem_of_nil in H')|].
  apply NoDup_cons in Hnd as [Hn Hnd]. cbn. fold (missed sc keys (alter (fun r => set_row_present false (turnover_columns r) r) (sc, k') t)).
  rewrite IH by done. destruct (base.decide (s = sc /\ k = k')) as [[-> ->]|Hne].
  - rewrite (bool_decide_eq_false_2 (_ /\ k' ∈ keys)) by (by intros []).
    rewrite bool_decide_eq_true_2 by (split; [done|left]). by rewrite lookup_alter_eq.
  - rewrite lookup_alter_ne by naive_solver. assert (Heq : bool_decide (s = sc /\ k ∈ keys) = bool_decide (s = sc /\ k ∈ k' :: keys)).
    { apply bool_decide_ext. rewrite elem_of_cons. naive_solver. }
    by rewrite Heq.
Qed.
End Tables.

(** ** Events in an outbox *)
(** Some identity is used twice, or is in the outbox. *)
Definition taken {A} (t : gmap string A) (ids : list string) : bool := negb (unique ids) || existsb (fun e => present (t !! e)) ids.

Lemma taken_cons {A} (t : gmap string A) e x ids : taken t (e :: ids) = present (t !! e) || taken (<[e:=x]> t) ids.
Proof.
  unfold taken, unique. cbn [existsb]. assert (Hex : forall l, e ∉ l -> existsb (fun e => present (t !! e)) l = existsb (fun e0 => present (<[e:=x]> t !! e0)) l).
  { induction l as [|y l IH]; [done|]. intros Hn. cbn. rewrite IH by (intros ?; apply Hn; by right).
    rewrite lookup_insert_ne; [done|]. intros ->. apply Hn. left. }
  destruct (present (t !! e)); [by rewrite orb_true_r|]. cbn [orb]. destruct (base.decide (e ∈ ids)) as [Hin|Hn].
  - rewrite bool_decide_eq_false_2 by (intros [Hx _]%NoDup_cons; done). cbn [negb orb]. symmetry. apply orb_true_iff. right.
    apply existsb_exists. exists e. split; [by apply list_elem_of_In|]. by rewrite lookup_insert_eq.
  - rewrite Hex by done. f_equal. f_equal. apply bool_decide_ext. rewrite NoDup_cons. tauto.
Qed.

Section Outbox.
Context {A K : Type} (slot : A -> K).
Implicit Types (t : gmap string A) (rows : list (string * A)).

(** The rows have places of their own in the order of events. *)
Definition slots_free t rows : Prop :=
  (forall id row er, t !! id = Some row -> er ∈ rows -> slot row <> slot er.2) /\ NoDup ((fun er => slot er.2) <$> rows).

Lemma slot_unused (same : A -> A -> bool) t e row rows : slots_free t ((e, row) :: rows) ->
  (forall x y, same x y = true -> slot x = slot y) -> existsb (fun er => same er.2 row) (map_to_list t) = false.
Proof.
  intros [Hf _] Hs. apply not_true_is_false. intros ([id x] & Hin & Hx)%existsb_exists. apply list_elem_of_In, elem_of_map_to_list in Hin.
  apply (Hf id x (e, row) Hin ltac:(left)). by apply Hs.
Qed.

Lemma slots_free_insert t e row rows : slots_free t ((e, row) :: rows) -> slots_free (<[e:=row]> t) rows.
Proof.
  intros [Hf Hnd]. rewrite fmap_cons in Hnd. apply NoDup_cons in Hnd as [Hn Hnd]. split; [|done].
  intros id x er Hx Her. rewrite lookup_insert in Hx. case_decide as Hid.
  - injection Hx as <-. intros Heq. apply Hn. cbn. rewrite Heq. by apply (list_elem_of_fmap_2 (fun er => slot er.2)).
  - apply (Hf id); [done|by right].
Qed.
End Outbox.

Definition change_slot (r : ChangeRow) : CatalogScope * Z * Z := (o_scope r, o_catalog_revision r, o_ordinal r).
Definition selection_slot (r : SelectionChangeRow) : CatalogScope * string * Z * Z :=
  (e_scope r, e_policy_id r, e_state_revision r, e_ordinal r).

Section Invariant.
Context `{JsonCodecLaws}.

(** ** Stored lists of names *)
Definition names_json (l : list string) : string := encode_json (JList (List.map JStr l)).
Definition good_names (l : list string) : Prop := NoDup l /\ Forall (fun s => nonempty s = true) l.

Lemma plain_names l : plain (JList (List.map JStr l)) = true.
Proof. cbn. apply forallb_forall. by intros x (y & <- & _)%in_map_iff. Qed.

Lemma names_read l field : good_names l -> _decode_string_array (names_json l) field = Ok l.
Proof.
  intros [Hnd Hne]. unfold _decode_string_array, names_json. rewrite decode_encode by apply plain_names. cbn [rbind].
  assert (HmapM : mapM (fun j => match j with JStr s => Some s | _ => None end) (List.map JStr l) = Some l).
  { clear. induction l as [|s l IH]; [done|]. cbn in *. by rewrite IH. }
  rewrite HmapM. unfold unique. rewrite bool_decide_eq_true_2 by done. cbn [negb orb].
  assert (Hall : forallb nonempty l = true) by (by apply forallb_forall; intros x Hx; rewrite Forall_forall in Hne; apply Hne, list_elem_of_In).
  by rewrite Hall.
Qed.

Lemma names_checked l field : good_names l -> l <> [] -> _nonempty_string_tuple l field = Ok l.
Proof.
  intros [Hnd Hne] Hnil. unfold _nonempty_string_tuple. rewrite bool_decide_eq_false_2 by done. cbn [raise_if].
  rewrite (check_all_ok _ id); [|intros x Hx; apply nonempty_spec; split; [done|by rewrite Forall_forall in Hne; apply Hne]].
  cbn [rbind]. rewrite list_fmap_id. unfold unique. by rewrite bool_decide_eq_true_2.
Qed.

(** ** The row of a scope *)
Record TurnoverState : Type := { tv_observed : Z; tv_covered : list string; tv_bound : Z }.
Record turnover_holds (s : ScopeRow) (v : TurnoverState) : Prop := {
  th_revision : 0 < row_turnover_revision s <= MAX_INT64;
  th_observed : turnover_last_observed_at_ns s = Some (tv_observed v) /\ 0 <= tv_observed v <= MAX_INT64;
  th_digest : exists d, turnover_snapshot_digest s = Some d /\ config_sha256_ok d = true;
  th_id : exists d, row_turnover_snapshot_id s = Some d /\ nonempty d = true;
  th_pages : exists l, turnover_page_raw_references_json s = Some (names_json l) /\ good_names l /\ l <> [];
  th_bound : row_turnover_catalog_revision s = Some (tv_bound v) /\ 0 < tv_bound v <= row_revision s;
  th_time : tv_bound v = row_revision s -> last_observed_at_ns s <= tv_observed v;
  th_covered : turnover_covered_keys_json s = Some (names_json (tv_covered v)) /\ good_names (tv_covered v)
}.
Definition no_turnover (s : ScopeRow) : Prop :=
  row_turnover_revision s = 0 /\ turnover_last_observed_at_ns s = None /\ turnover_snapshot_digest s = None /\
  row_turnover_snapshot_id s = None /\ turnover_page_raw_references_json s = None /\
  row_turnover_catalog_revision s = None /\ turnover_covered_keys_json s = None.
Definition turnover_state (s : ScopeRow) (v : option TurnoverState) : Prop :=
  match v with None => no_turnover s | Some v => turnover_holds s v end.

Record scope_holds (s : ScopeRow) : Prop := {
  sh_observed : 0 <= last_observed_at_ns s <= MAX_INT64;
  sh_revision : 0 < row_revision s <= MAX_INT64;
  sh_digest : config_sha256_ok (snapshot_digest s) = true;
  sh_complete : complete s = true;
  sh_id : nonempty (row_snapshot_id s) = true;
  sh_pages : exists l, page_raw_references_json s = names_json l /\ good_names l /\ l <> []
}.

(** An instrument under the row of its scope. *)
Record instrument_holds (s : ScopeRow) (v : option TurnoverState) (k : string) (i : CatalogInstrument) : Prop := {
  ih_present : is_present i = true -> last_seen_ns i = last_observed_at_ns s;
  ih_missing : is_present i = false -> last_seen_ns i < last_observed_at_ns s;
  ih_generation : listing_generation i <= row_revision s;
  ih_turnover : forall u, turnover (inst i) = Some u -> exists v', v = Some v' /\ k ∈ tv_covered v' /\
    to_observed_at_ns u = Some (tv_observed v')
}.

Definition scope_ok (sc : CatalogScope) (o : option ScopeRow) (t : gmap (CatalogScope * string) InstrumentRow) : Prop :=
  match o with
  | None => forall k, t !! (sc, k) = None
  | Some s => scope_holds s /\ exists v, turnover_state s v /\
      (forall k i, holds sc k i -> t !! (sc, k) = Some (row_for i) -> instrument_holds s v k i) /\
      (forall v' k, v = Some v' -> k ∈ tv_covered v' -> exists i, holds sc k i /\ t !! (sc, k) = Some (row_for i) /\
         (tv_bound v' = row_revision s -> is_present i = true))
  end.

(** A hint as the table has it. *)
Definition hints_ok (t : gmap (CatalogScope * string) HintRow) : Prop :=
  forall sc id row, t !! (sc, id) = Some row -> is_ok (_hint_from_row sc id row) = true.

Record Inv (db : Db) : Prop := {
  inv_rows : rows_ok (catalog_instrument db);
  inv_scopes : forall sc, scope_ok sc (catalog_scope_state db !! sc) (catalog_instrument db);
  inv_hints : hints_ok (catalog_announcement_hint db)
}.

(** The revisions in the outboxes are those of the tables, or older. *)
Definition outbox_ok (db : Db) : Prop :=
  (forall id row, catalog_change_outbox db !! id = Some row ->
     exists s, catalog_scope_state db !! o_scope row = Some s /\ o_catalog_revision row <= row_revision s) /\
  (forall id row, selection_change_outbox db !! id = Some row ->
     exists r, selection_state db !! (e_scope row, e_policy_id row) = Some r /\ e_state_revision row <= state_revision r).

Definition empty_db : Db := {|
  catalog_scope_state := ∅; catalog_instrument := ∅; catalog_announcement_hint := ∅; catalog_change_outbox := ∅;
  selection_state := ∅; selection_change_outbox := ∅ |}.
Lemma Inv_empty : Inv empty_db.
Proof. constructor; intros ?; intros; cbn in *; rewrite ?lookup_empty in *; done. Qed.

Lemma outbox_empty : outbox_ok empty_db.
Proof. split; intros id row; cbn; by rewrite lookup_empty. Qed.

(** ** Loading the view *)
Lemma view_instruments_ok sc observed seen l : NoDup (c_key <$> l) -> (forall k, k ∈ seen -> k ∉ c_key <$> l) ->
  Forall (fun i => c_scope i = sc /\ forall o, observed = Some o ->
    (is_present i = true -> last_seen_ns i = o) /\ (is_present i = false -> last_seen_ns i < o)) l ->
  view_instruments sc observed seen l = Ok tt.
Proof.
  intros Hnd Hs HF. revert seen Hs. induction HF as [|i l [Hsc Hi] HF IH]; intros seen Hs; [done|]. cbn [view_instruments].
  rewrite fmap_cons in Hnd, Hs. apply NoDup_cons in Hnd as [Hn Hnd]. rewrite bool_decide_eq_true_2 by done. cbn [negb raise_if].
  rewrite bool_decide_eq_false_2 by (intros Hx; apply (Hs _ Hx); left). cbn [raise_if].
  assert (Hg1 : match observed with Some o => is_present i && negb (last_seen_ns i =? o) | None => false end = false).
  { destruct observed as [o|]; [|done]. apply guard_false. intros Hp. destruct (Hi o eq_refl) as [Hi1 _].
    by rewrite (Hi1 Hp), Z.eqb_refl. }
  assert (Hg2 : match observed with Some o => negb (is_present i) && (o <=? last_seen_ns i) | None => false end = false).
  { destruct observed as [o|]; [|done]. apply guard_false. rewrite negb_true_iff. intros Hp.
    destruct (Hi o eq_refl) as [_ Hi2]. specialize (Hi2 Hp). lia. }
  rewrite Hg1, Hg2. cbn [raise_if]. apply IH; [done|]. intros k [->|Hk]%elem_of_cons; [done|]. intros Hin.
  apply (Hs k Hk). by right.
Qed.

Lemma view_turnovers_ok view l :
  Forall (fun i => forall u, turnover (inst i) = Some u -> turnover_revision view <> 0 /\
    c_key i ∈ turnover_covered_instrument_keys view /\ to_observed_at_ns u = turnover_observed_at_ns view) l ->
  view_turnovers view l = Ok tt.
Proof.
  induction 1 as [|i l Hi HF IH]; [done|]. cbn [view_turnovers].
  match goal with |- rbind ?m _ = _ => enough (m = Ok tt) as ->; [exact IH|] end.
  destruct (turnover (inst i)) as [u|]; [|destruct (turnover_revision view =? 0); [done|]; by destruct (bool_decide (c_key i ∉ _))].
  destruct (Hi u eq_refl) as (Hr & Hc & Ho). rewrite (proj2 (Z.eqb_neq _ _) Hr), bool_decide_eq_false_2 by (intros Hx; by apply Hx).
  by rewrite bool_decide_eq_true_2.
Qed.

(** The rows of a scope, read. *)
Lemma load_scope sc t : rows_ok t -> exists items, load_rows sc (rows_of sc t) = Ok items /\ NoDup (c_key <$> items) /\
  (forall i, i ∈ items <-> holds sc (c_key i) i /\ t !! (sc, c_key i) = Some (row_for i)).
Proof.
  intros Ht. destruct (load_rows_ok sc t (rows_of sc t) Ht) as (items & Hload & HF).
  { intros [k r]. apply elem_of_rows. }
  assert (Hkeys : c_key <$> items = (rows_of sc t).*1).
  { clear Hload. induction HF as [|[k r] i l items [Hi _] _ IH]; [done|]. rewrite !fmap_cons, IH. cbn. by rewrite (h_key_is _ _ _ Hi). }
  exists items. split_and!; [done|rewrite Hkeys; apply NoDup_rows|]. intros i. split.
  - intros Hin. destruct (proj1 (list_elem_of_lookup _ _) Hin) as [n Hn].
    destruct (Forall2_lookup_r _ _ _ _ _ HF Hn) as ([k r] & Hk & Hi & Hr). cbn in *.
    pose proof (h_key_is _ _ _ Hi) as Hkey. rewrite Hkey. split; [done|]. subst r.
    apply elem_of_rows. by eapply list_elem_of_lookup_2.
  - intros [Hi Hrow]. apply elem_of_rows in Hrow. destruct (proj1 (list_elem_of_lookup _ _) Hrow) as [n Hn].
    destruct (Forall2_lookup_l _ _ _ _ _ HF Hn) as (j & Hj & Hh & Heq). cbn in *.
    pose proof (holds_read _ _ _ Hh) as H1. pose proof (holds_read _ _ _ Hi) as H2. rewrite Heq in H2. assert (i = j) as -> by congruence.
    by eapply list_elem_of_lookup_2.
Qed.

Lemma digest_checked d f : config_sha256_ok d = true -> _sha256_digest d f = Ok d.
Proof. intros Hd. unfold _sha256_digest. by rewrite Hd. Qed.

Lemma load_view_none sc db : Inv db -> catalog_scope_state db !! sc = None -> exists view, load_view sc db = Ok view /\
  catalog_revision view = 0 /\ instruments view = [].
Proof.
  intros HI Hs. pose proof (inv_scopes _ HI sc) as Hsc. rewrite Hs in Hsc. cbn in Hsc.
  destruct (load_scope sc (catalog_instrument db) (inv_rows _ HI)) as (items & Hload & _ & Hin).
  assert (items = []) as ->.
  { destruct items as [|i items]; [done|]. destruct (proj1 (Hin i) ltac:(left)) as [_ Hx]. congruence. }
  unfold load_view. rewrite Hs. cbn [fmap option_fmap option_map mbind option_bind rbind]. rewrite Hload. cbn [rbind].
  eexists. split; [vm_compute; reflexivity|]. done.
Qed.

Section Some_.
Context (sc : CatalogScope) (db : Db) (s : ScopeRow) (v : option TurnoverState).
Context (HI : Inv db) (Hs : catalog_scope_state db !! sc = Some s) (Hh : scope_holds s) (Hv : turnover_state s v).
Context (Hrows : forall k i, holds sc k i -> catalog_instrument db !! (sc, k) = Some (row_for i) -> instrument_holds s v k i).
Context (Hcov : forall v' k, v = Some v' -> k ∈ tv_covered v' -> exists i, holds sc k i /\
  catalog_instrument db !! (sc, k) = Some (row_for i) /\ (tv_bound v' = row_revision s -> is_present i = true)).

Definition pages_of (text : option string) : list string :=
  match text with Some t => match _decode_string_array t "" with Ok l => l | Err _ => [] end | None => [] end.
Lemma pages_of_names l : good_names l -> pages_of (Some (names_json l)) = l.
Proof. intros Hg. unfold pages_of. by rewrite names_read. Qed.
Definition view_of (items : list CatalogInstrument) : CatalogView := {|
  v_scope := sc; catalog_observed_at_ns := Some (last_observed_at_ns s); SelectionModels.catalog_revision := row_revision s;
  catalog_digest_sha256 := Some (snapshot_digest s); catalog_snapshot_id := Some (row_snapshot_id s);
  catalog_page_raw_references := pages_of (Some (page_raw_references_json s));
  turnover_observed_at_ns := tv_observed <$> v; SelectionModels.turnover_revision := row_turnover_revision s;
  turnover_digest_sha256 := turnover_snapshot_digest s; turnover_catalog_revision := tv_bound <$> v;
  turnover_snapshot_id := row_turnover_snapshot_id s;
  turnover_page_raw_references := pages_of (turnover_page_raw_references_json s);
  turnover_covered_instrument_keys := match v with Some v => tv_covered v | None => [] end; instruments := items |}.

Lemma view_header_ok items : view_catalog_header (view_of items) = Ok tt.
Proof.
  destruct Hh as [_ [Hr _] _ _ Hid (l & Hl & Hg & Hne)]. unfold view_catalog_header. cbn -[_nonempty_string _nonempty_string_tuple pages_of].
  rewrite (proj2 (Z.eqb_neq _ _)) by lia. rewrite (proj2 (nonempty_spec _ _ _) (conj eq_refl Hid)). cbn [rbind].
  rewrite Hl, pages_of_names by done. by rewrite names_checked.
Qed.

Lemma view_turnover_ok items : view_turnover_header (view_of items) = Ok tt /\ view_binding (view_of items) = Ok tt.
Proof.
  unfold view_turnover_header, view_binding. cbn -[_nonempty_string _nonempty_string_tuple pages_of]. destruct v as [v'|]; cbn in Hv.
  - destruct Hv as [Hr Hobs Hd (sid & Hid & Hne) (l & Hl & Hg & Hnil) (Hb & Hb1 & Hb2) Ht (_ & Hc)].
    cbn -[_nonempty_string _nonempty_string_tuple pages_of]. split.
    + rewrite (proj2 (Z.eqb_neq _ _)) by lia. rewrite Hid, Hl, pages_of_names by done. cbn [default id].
      rewrite (proj2 (nonempty_spec _ _ _) (conj eq_refl Hne)). cbn [rbind]. rewrite names_checked by done. cbn [rbind].
      destruct Hc as [Hnd Hall]. rewrite (check_all_ok _ id).
      * cbn [rbind]. unfold unique. by rewrite list_fmap_id, bool_decide_eq_true_2.
      * intros k Hk. apply nonempty_spec. split; [done|]. by rewrite Forall_forall in Hall; apply Hall.
    + rewrite (proj2 (Z.eqb_neq _ _)) by lia. cbn [raise_if]. rewrite (proj2 (Z.ltb_ge _ _)) by lia. cbn [raise_if].
      assert (Hg' : (tv_bound v' =? row_revision s) && (tv_observed v' <? last_observed_at_ns s) = false); [|by rewrite Hg'].
      apply guard_false. intros Hx%Z.eqb_eq. apply Z.ltb_ge. auto.
  - destruct Hv as (-> & Ho & Hd & -> & -> & _ & _). done.
Qed.

(** The numbers of the turnover header. *)
Lemma turnover_numbers : 0 <= row_turnover_revision s <= MAX_INT64 /\
  (row_turnover_revision s =? 0) = negb (present v) /\ present (turnover_snapshot_digest s) = present v /\
  optionally (fun d => _sha256_digest d "turnover_digest_sha256") (turnover_snapshot_digest s) = Ok (turnover_snapshot_digest s) /\
  (forall t, tv_observed <$> v = Some t -> 0 <= t <= MAX_INT64) /\ (forall t, tv_bound <$> v = Some t -> 0 <= t <= MAX_INT64).
Proof.
  pose proof (sh_revision _ Hh) as Hrev. destruct v as [v'|]; cbn in Hv |- *.
  - destruct Hv as [Hr [_ Hobs] (d & Hd & Hok) _ _ [_ Hb] _ _]. rewrite Hd. cbn [present optionally].
    rewrite digest_checked by done. split_and!; try done; try lia; try (apply Z.eqb_neq; lia); intros ? [= <-]; lia.
  - destruct Hv as (-> & _ & -> & _). by split_and!.
Qed.

Lemma view_valid items : NoDup (c_key <$> items) ->
  (forall i, i ∈ items <-> holds sc (c_key i) i /\ catalog_instrument db !! (sc, c_key i) = Some (row_for i)) ->
  view_validate (view_of items) = Ok (view_of items).
Proof.
  intros Hnd Hin. destruct (view_turnover_ok items) as [Ht Hb]. pose proof Hh as [Hobs Hrev Hdig _ _ _].
  assert (Hinst : view_instruments (v_scope (view_of items)) (catalog_observed_at_ns (view_of items)) [] (instruments (view_of items)) = Ok tt).
  { apply view_instruments_ok; [done|intros k Hk; by apply elem_of_nil in Hk|]. apply Forall_forall. intros i Hi.
    apply Hin in Hi as [Hi Hrow]. split; [apply Hi|]. intros o [= <-]. destruct (Hrows _ _ Hi Hrow). auto. }
  assert (Hturn : view_turnovers (view_of items) (instruments (view_of items)) = Ok tt).
  { apply view_turnovers_ok, Forall_forall. intros i Hi u Hu. apply Hin in Hi as [Hi Hrow].
    destruct (ih_turnover _ _ _ _ (Hrows _ _ Hi Hrow) u Hu) as (v' & Ev & Hc & Ho). cbn. rewrite Ev. split_and!; [|done|done].
    rewrite Ev in Hv. destruct Hv as [[] _ _ _ _ _ _ _]. lia. }
  assert (Hcover : forall P : CatalogInstrument -> Prop, (forall v' k, v = Some v' -> k ∈ tv_covered v' ->
      exists i, holds sc k i /\ catalog_instrument db !! (sc, k) = Some (row_for i) /\ P i) ->
    forall l, (forall i, i ∈ items -> P i -> c_key i ∈ l) -> subset_of (turnover_covered_instrument_keys (view_of items)) l = true).
  { intros P HP l Hl. unfold subset_of. apply forallb_forall. intros k Hk%list_elem_of_In. apply bool_decide_eq_true.
    cbn in Hk. destruct v as [v'|]; [|by apply elem_of_nil in Hk]. destruct (HP v' k eq_refl Hk) as (i & Hi & Hrow & Hp).
    pose proof (h_key_is _ _ _ Hi) as <-. apply Hl; [by apply Hin|done]. }
  assert (Hd1 : optionally (fun d => _sha256_digest d "catalog_digest_sha256") (Some (snapshot_digest s))
    = Ok (Some (snapshot_digest s))) by (cbn [optionally]; by rewrite digest_checked).
  unfold view_validate. cbv zeta.
  repeat (guard_step || (rewrite (view_header_ok items); cbn [rbind]) || (rewrite Ht; cbn [rbind]) || (rewrite Hb; cbn [rbind])
    || (rewrite Hinst; cbn [rbind]) || (rewrite Hturn; cbn [rbind])
    || (change (catalog_digest_sha256 (view_of items)) with (Some (snapshot_digest s)); rewrite Hd1; cbn [rbind])).
  all: destruct turnover_numbers as (N1 & N2 & N3 & N4 & N5 & N6).
  - cbn. rewrite (proj2 (Z.eqb_neq _ _)) by lia. done.
  - cbn. rewrite (proj2 (Z.eqb_neq _ _)) by lia. done.
  - cbn. rewrite N2. by destruct v.
  - cbn. rewrite N2, N3. by destruct v.
  - cbn. rewrite N2. by destruct v.
  - change (turnover_digest_sha256 (view_of items)) with (turnover_snapshot_digest s). rewrite N4. cbn [rbind].
    change (catalog_revision (view_of items)) with (row_revision s). rewrite (proj2 (Z.eqb_neq _ _)) by lia. cbn [andb raise_if].
    rewrite (Hcover (fun _ => True) ltac:(intros v' k Ev Hk; destruct (Hcov v' k Ev Hk) as (i & ? & ? & _); eauto))
      by (intros i Hi _; by apply list_elem_of_fmap_2). cbn [negb raise_if].
    match goal with |- raise_if ?c _ _ = _ => enough (c = false) as ->; [done|] end. apply guard_false.
    intros Hbound%bool_decide_eq_true. apply negb_false_iff. apply (Hcover (fun i => is_present i = true)).
    + intros v' k Ev Hk. destruct (Hcov v' k Ev Hk) as (i & Hi & Hrow & Hp). exists i. split_and!; [done|done|].
      apply Hp. cbn in Hbound. rewrite Ev in Hbound. by injection Hbound.
    + intros i Hi Hp. apply list_elem_of_fmap_2, list_elem_of_filter. done.
  - done.
  - done.
  - done.
  - split; [done|]. cbn -[MAX_INT64]. lia.
  - split; [done|]. by intros ? [= <-].
Qed.
End Some_.

(** The catalog of a scope can be loaded whenever the invariant holds: the view lists
    exactly the instruments of the rows. *)
Lemma load_view_some sc db s : Inv db -> catalog_scope_state db !! sc = Some s -> exists view,
  load_view sc db = Ok view /\ v_scope view = sc /\ catalog_revision view = row_revision s /\
  turnover_revision view = row_turnover_revision s /\ view_validate view = Ok view /\
  (forall i, i ∈ instruments view <-> holds sc (c_key i) i /\ catalog_instrument db !! (sc, c_key i) = Some (row_for i)).
Proof.
  intros HI Hs. pose proof (inv_scopes _ HI sc) as Hsc. rewrite Hs in Hsc. destruct Hsc as (Hh & v & Hv & Hrows & Hcov).
  destruct (load_scope sc (catalog_instrument db) (inv_rows _ HI)) as (items & Hload & Hnd & Hin).
  exists (view_of sc s v items).
  split; [|split_and!; try done; by apply (view_valid sc db s v)]. unfold load_view. rewrite Hs, Hload.
  destruct (sh_pages _ Hh) as (pages & Hp & Hg & _). cbn -[view_validate _decode_string_array]. rewrite Hp, names_read by done.
  cbn [rbind]. rewrite <- (view_valid sc db s v) by done. unfold view_of. rewrite Hp, pages_of_names by done.
  destruct v as [v'|]; cbn in Hv.
  - destruct Hv as [_ [Ho _] _ _ (l & Hl & Hgl & _) [Hb _] _ [Hc Hgc]]. rewrite Ho, Hl, Hb, Hc, !names_read, pages_of_names by done.
    done.
  - destruct Hv as (Hr & -> & -> & -> & -> & -> & ->). done.
Qed.
End Invariant.
