(* ===== verification/CatalogApply.v ===== *)
(** [CatalogStore._apply_snapshot]: a valid newer snapshot is applied, the tables keep
    their invariant, and what the result reports is what the tables hold. *)
From S2P Require Import Prelude PyDecimal Domain StorageModels SelectionModels Selector SelectorFacts PyText CatalogJson.
From S2P Require Import CatalogRows CatalogListing CatalogFacts ListingFacts CatalogStore CatalogTables StateStore.

(** ** Lists in the order of their keys *)
Definition in_order {A} (f : A -> string) (l : list A) : Prop := StronglySorted (fun a b => on_key f string_leb a b = true) l.

Lemma in_order_by_key {A} (f : A -> string) l : in_order f (by_key f l).
Proof. apply py_sorted_sorted, _. Qed.
Lemma by_key_id {A} (f : A -> string) l : in_order f l -> by_key f l = l.
Proof. intros H. by apply sorted_id. Qed.
Lemma in_order_filter {A} (f : A -> string) p l : in_order f l -> in_order f (List.filter p l).
Proof.
  induction 1 as [|x l Hl IH Hx]; [constructor|]. cbn. destruct (p x); [|done]. constructor; [done|].
  rewrite Forall_forall in Hx |- *. intros y Hy. apply Hx. apply list_elem_of_In in Hy. apply filter_In in Hy as [Hy _].
  by apply list_elem_of_In.
Qed.
Lemma in_order_keys {A B} (f : A -> string) (g : B -> string) l l' : f <$> l = g <$> l' -> in_order f l -> in_order g l'.
Proof.
  revert l'. induction l as [|x l IH]; intros [|y l']; try done; [intros; constructor|]. rewrite !fmap_cons.
  intros [= Hxy Hl] Hs. apply StronglySorted_inv in Hs as [Hs' Hx]. constructor; [by apply IH|].
  rewrite Forall_forall in Hx. apply Forall_forall. intros z Hz. apply (list_elem_of_fmap_2 g) in Hz. rewrite <- Hl in Hz.
  apply list_elem_of_fmap in Hz as (w & Hzw & Hw). specialize (Hx w Hw). unfold on_key in *. by rewrite <- Hxy, Hzw.
Qed.
Lemma NoDup_filter_keys {A} (f : A -> string) p l : NoDup (f <$> l) -> NoDup (f <$> List.filter p l).
Proof.
  induction l as [|x l IH]; [done|]. rewrite fmap_cons. intros [Hn Hnd]%NoDup_cons. cbn. destruct (p x); [|by apply IH].
  rewrite fmap_cons. apply NoDup_cons. split; [|by apply IH]. intros (y & Hy & Hin)%list_elem_of_fmap. apply Hn.
  apply list_elem_of_In in Hin. apply filter_In in Hin as [Hin _]. apply list_elem_of_In in Hin. rewrite Hy. by apply list_elem_of_fmap_2.
Qed.
Lemma elem_of_lfilter {A} p (l : list A) x : x ∈ List.filter p l <-> x ∈ l /\ p x = true.
Proof. by rewrite !list_elem_of_In, filter_In. Qed.

(** ** Announcement hints *)
Definition hint_of (sc : CatalogScope) (id : string) (row : HintRow) : StoredAnnouncementHint := {|
  h_scope := sc; hint_id := id; announced_at_ns := row_announced_at_ns row;
  h_raw_reference := row_raw_reference row; candidate_instrument_key := row_candidate_key row;
  candidate_canonical_pair := row_candidate_pair row; confirmed_at_ns := row_confirmed_at_ns row |}.

Record hint_facts (h : StoredAnnouncementHint) : Prop := {
  hf_id : nonempty (hint_id h) = true;
  hf_raw : nonempty (h_raw_reference h) = true;
  hf_key : opt_ok nonempty (candidate_instrument_key h) = true;
  hf_pair : opt_ok nonempty (candidate_canonical_pair h) = true;
  hf_candidate : present (candidate_instrument_key h) || present (candidate_canonical_pair h) = true;
  hf_announced : 0 <= announced_at_ns h <= MAX_INT64;
  hf_confirmed : forall c, confirmed_at_ns h = Some c -> announced_at_ns h <= c <= MAX_INT64
}.

Lemma hint_validate_spec h g : hint_validate h = Ok g <-> g = h /\ hint_facts h.
Proof.
  unfold hint_validate, announcement_validate. split.
  - intros Hv. inv_ok. repeat match goal with
    | H : _nonempty_string _ _ = Ok _ |- _ => apply nonempty_spec in H as [-> H]
    | H : _optional_nonempty_string _ _ = Ok _ |- _ => apply opt_nonempty_spec in H as [-> H]
    | H : _nonnegative_int _ _ = Ok _ |- _ => apply nonnegative_spec in H as [-> H]
    | H : _optional_nonnegative_int _ _ = Ok _ |- _ => apply opt_nonnegative_spec in H as [-> H]
    end. split; [done|]. constructor; try done.
    + destruct (candidate_instrument_key _), (candidate_canonical_pair _); done.
    + intros c Hc. rewrite Hc in *. bool_prop. match goal with H : forall t, Some c = Some t -> _ |- _ => specialize (H c eq_refl) end.
      lia.
  - intros [-> [H1 H2 H3 H4 H5 H6 H7]].
    repeat match goal with
    | |- context [_nonempty_string ?v ?f] => rewrite (proj2 (nonempty_spec v f v)) by done; cbn [rbind]
    | |- context [_optional_nonempty_string ?v ?f] => rewrite (proj2 (opt_nonempty_spec v f v)) by done; cbn [rbind]
    end.
    assert (Hc : negb (present (candidate_instrument_key h)) && negb (present (candidate_canonical_pair h)) = false).
    { by destruct (present (candidate_instrument_key h)), (present (candidate_canonical_pair h)). }
    rewrite Hc. cbn [raise_if]. rewrite (proj2 (nonnegative_spec (announced_at_ns h) _ _)) by done. cbn [rbind].
    rewrite (proj2 (opt_nonnegative_spec (confirmed_at_ns h) _ (confirmed_at_ns h))); cbn [rbind].
    + destruct (confirmed_at_ns h) as [c|]; [|done]. destruct (H7 c eq_refl). by rewrite (proj2 (Z.ltb_ge _ _)).
    + split; [done|]. intros c Hc'. destruct (H7 c Hc'). lia.
Qed.

Lemma hints_ok_facts t sc id row : hints_ok t -> t !! (sc, id) = Some row -> hint_facts (hint_of sc id row).
Proof.
  intros Ht Hrow. specialize (Ht _ _ _ Hrow). unfold _hint_from_row in Ht. change (is_ok (hint_validate (hint_of sc id row)) = true) in Ht.
  destruct (hint_validate _) as [g|] eqn:E; [|done]. by apply hint_validate_spec in E as [_ E].
Qed.

(** The record of a snapshot that an announcement was about: the one it names, or the only
    one on offer for the pair it names. *)
Definition announced (records : list InstrumentRecord) (row : HintRow) (r : InstrumentRecord) : Prop :=
  r ∈ records /\ tradable r = true /\
  match row_candidate_key row, row_candidate_pair row with
  | Some key, named => instrument_key r = key /\ (forall p, named = Some p -> canonical_pair r = p)
  | None, Some p => canonical_pair r = p /\
      forall r', r' ∈ records -> tradable r' = true -> canonical_pair r' = p -> instrument_key r' = instrument_key r
  | None, None => False
  end.
Definition confirms (records : list InstrumentRecord) (observed : Z) (row : HintRow) (r : InstrumentRecord) : Prop :=
  row_confirmed_at_ns row = None /\ row_announced_at_ns row <= observed /\ announced records row r.

Lemma keyed_inj {A B} (f : A -> B) (l : list A) x y : NoDup (f <$> l) -> x ∈ l -> y ∈ l -> f x = f y -> x = y.
Proof.
  intros Hnd [n Hn]%list_elem_of_lookup [m Hm]%list_elem_of_lookup Hf. assert (n = m) as ->; [|congruence].
  eapply NoDup_lookup; [exact Hnd|rewrite list_lookup_fmap, Hn; reflexivity|rewrite list_lookup_fmap, Hm; cbn; by rewrite Hf].
Qed.
Lemma filter_single {A} (f : A -> string) p (l : list A) x : NoDup (f <$> l) ->
  List.filter p l = [x] <-> x ∈ l /\ p x = true /\ (forall y, y ∈ l -> p y = true -> f y = f x).
Proof.
  intros Hnd. split.
  - intros E. assert (Hx : x ∈ List.filter p l) by (rewrite E; left). apply elem_of_lfilter in Hx as [Hx Hp]. split_and!; [done|done|].
    intros y Hy Hpy. assert (Hin : y ∈ List.filter p l) by by apply elem_of_lfilter. rewrite E in Hin. by apply list_elem_of_singleton in Hin as ->.
  - intros (Hx & Hp & Hall). pose proof (NoDup_filter_keys f p l Hnd) as Hn.
    assert (Hx' : x ∈ List.filter p l) by by apply elem_of_lfilter.
    assert (Hall' : forall y, y ∈ List.filter p l -> f y = f x) by (intros y [Hy Hpy]%elem_of_lfilter; auto).
    destruct (List.filter p l) as [|y [|z l']]; [by apply elem_of_nil in Hx'|by apply list_elem_of_singleton in Hx' as ->|].
    exfalso. rewrite !fmap_cons in Hn. apply NoDup_cons in Hn as [Hn _]. apply Hn. rewrite (Hall' y), (Hall' z) by set_solver. left.
Qed.

Section Apply.
Context `{JsonCodecLaws}.

(** ** One snapshot *)
Context (sc : CatalogScope) (observed lookback : Z) (db : Db) (state : option ScopeRow) (ordered : list InstrumentRecord).
Context (HI : Inv db) (Hstate : catalog_scope_state db !! sc = state) (Hobs : 0 <= observed <= MAX_INT64).
Context (Hnewer : forall s, state = Some s -> last_observed_at_ns s < observed).
Context (Hrevision : forall s, state = Some s -> row_revision s < MAX_INT64).

(** A record the snapshot may carry. *)
Record record_here (r : InstrumentRecord) : Prop := {
  re_applicable : applicable r;
  re_turnover : turnover r = None;
  re_scope : SelectionModels.scope r = sc;
  re_wf : json_wf (lifecycle r) = true;
  re_dict : dict_json (lifecycle r) = true
}.
Context (Hrecords : forall r, r ∈ ordered -> record_here r).
Context (Hkeys : NoDup (instrument_key <$> ordered)) (Horder : in_order instrument_key ordered).

Local Abbreviation is_initial := (negb (present state)).
Context (prior : gmap string CatalogInstrument) (Hprior : prior_of sc (catalog_instrument db) prior).

Lemma prior_scope o k : prior !! k = Some o -> exists s v, state = Some s /\ holds sc k o /\ scope_holds s /\ turnover_state s v /\
  instrument_holds s v k o.
Proof.
  intros Ho. destruct (Hprior k) as [Ht Hh]. specialize (Hh o Ho). rewrite Ho in Ht. cbn in Ht.
  pose proof (inv_scopes _ HI sc) as Hsc. rewrite Hstate in Hsc. destruct state as [s|]; cbn in Hsc; [|congruence].
  destruct Hsc as (Hs & v & Hv & Hrows & _). exists s, v. split_and!; auto.
Qed.

Lemma prior_follows o k : prior !! k = Some o -> follows observed o.
Proof.
  intros Ho. destruct (prior_scope o k Ho) as (s & v & Hs & Hh & _ & _ & [Hp Hm Hg _]).
  specialize (Hnewer s Hs). specialize (Hrevision s Hs). constructor; [apply Hh| |lia].
  destruct (is_present o); [rewrite Hp by done|specialize (Hm eq_refl)]; lia.
Qed.

(** *** The items *)
Definition placed_as (r : InstrumentRecord) (p : CatalogInstrument * bool) : Prop :=
  let old := prior !! instrument_key r in
  p.2 = opens is_initial lookback observed old r /\ outcome observed is_initial lookback old r p.1.

Lemma all_placed : exists placed,
  check_all (fun r => apply_record is_initial lookback observed (prior !! instrument_key r) r) ordered = Ok placed /\
  Forall2 placed_as ordered placed.
Proof.
  apply check_all_total. intros r Hr. destruct (Hrecords r Hr) as [Ha _ _ _ _].
  destruct (apply_record_ok observed Hobs is_initial lookback (prior !! instrument_key r) r Ha) as (item & Hok & Ho).
  { intros o Ho. by eapply prior_follows. }
  eexists. split; [exact Hok|]. by split.
Qed.

Context (placed : list (CatalogInstrument * bool)) (Hplaced : Forall2 placed_as ordered placed).
Local Abbreviation current := (placed.*1).

Lemma outcome_key old r item : outcome observed is_initial lookback old r item ->
  c_key item = instrument_key r /\ c_scope item = SelectionModels.scope r /\ lifecycle (inst item) = lifecycle r /\
  lifecycle_phase (inst item) = lifecycle_phase r /\ tradable (inst item) = tradable r /\ quote_asset (inst item) = quote_asset r.
Proof. intros Ho. pose proof (oc_record _ _ _ _ _ _ Ho) as Hr. destruct item as [[]]. cbn in Hr |- *. by rewrite <- Hr. Qed.

Lemma current_keys : c_key <$> current = instrument_key <$> ordered.
Proof.
  enough (Hall : forall l l', Forall2 placed_as l l' -> c_key <$> l'.*1 = instrument_key <$> l) by auto.
  induction 1 as [|r p l l' [_ Ho] _ IH]; [done|]. rewrite !fmap_cons, IH.
  destruct (outcome_key _ _ _ Ho) as [Hk _]. by rewrite Hk.
Qed.
Lemma current_nodup : NoDup (c_key <$> current).
Proof. by rewrite current_keys. Qed.
Lemma current_order : in_order c_key current.
Proof. eapply in_order_keys; [symmetry; apply current_keys|done]. Qed.

Lemma current_outcome i : i ∈ current -> exists r, r ∈ ordered /\ record_here r /\
  outcome observed is_initial lookback (prior !! c_key i) r i.
Proof.
  intros ([i' b] & -> & Hin)%list_elem_of_fmap. destruct (proj1 (list_elem_of_lookup _ _) Hin) as [n Hn].
  destruct (Forall2_lookup_r _ _ _ _ _ Hplaced Hn) as (r & Hr & _ & Ho). apply list_elem_of_lookup_2 in Hr.
  exists r. split_and!; [done|by apply Hrecords|]. destruct (outcome_key _ _ _ Ho) as [Hk _]. cbn in *. by rewrite Hk.
Qed.

Lemma current_made i : i ∈ current -> made i /\ c_scope i = sc /\ is_present i = true /\ last_seen_ns i = observed /\
  json_wf (lifecycle (inst i)) = true /\ dict_json (lifecycle (inst i)) = true.
Proof.
  intros Hi. destruct (current_outcome i Hi) as (r & _ & [_ _ Hsc Hwf Hd] & Ho). destruct (outcome_key _ _ _ Ho) as (_ & Hs & Hl & _).
  destruct (oc_seen _ _ _ _ _ _ Ho). rewrite Hl, Hs. split_and!; try done. apply Ho.
Qed.

Lemma current_first i o : i ∈ current -> prior !! c_key i = Some o -> first_seen_ns i = first_seen_ns o.
Proof.
  intros Hi Hp. destruct (current_outcome i Hi) as (r & _ & _ & Ho). pose proof (oc_first _ _ _ _ _ _ Ho) as Hf. by rewrite Hp in Hf.
Qed.

(** *** The instruments no longer listed *)
Definition missing : list (string * CatalogInstrument) :=
  List.filter (fun ko => is_present ko.2 && bool_decide (ko.1 ∉ c_key <$> current)) (py_sorted by_name (map_to_list prior)).
Definition gone (ko : string * CatalogInstrument) : CatalogInstrument := set_presence false ko.2.

Lemma elem_of_missing k o : (k, o) ∈ missing <-> prior !! k = Some o /\ is_present o = true /\ k ∉ c_key <$> current.
Proof.
  unfold missing. rewrite elem_of_lfilter, elem_of_py_sorted, elem_of_map_to_list. cbn. rewrite andb_true_iff, bool_decide_eq_true.
  tauto.
Qed.

Lemma set_presence_made b i : made i -> made (set_presence b i).
Proof. rewrite !made_spec. intros (Hr & [] & Hv). split_and!; [done| |done]. by constructor. Qed.

Lemma all_removed : check_all (fun ko => _with_presence ko.2 false) missing = Ok (gone <$> missing).
Proof.
  apply check_all_ok. intros [k o] Hin. apply elem_of_missing in Hin as [Ho _]. destruct (Hprior k) as [_ Hh].
  apply made_rebuilt, set_presence_made. cbn. by destruct (Hh o Ho).
Qed.

Lemma missing_keys : c_key <$> (gone <$> missing) = missing.*1.
Proof.
  rewrite <- list_fmap_compose. apply list_fmap_ext. intros n [k o] Hn. apply list_elem_of_lookup_2, elem_of_missing in Hn as [Ho _].
  destruct (Hprior k) as [_ Hh]. cbn. by destruct (Hh o Ho).
Qed.
Lemma missing_nodup : NoDup (missing.*1).
Proof. unfold missing. apply NoDup_filter_keys. rewrite py_sorted_perm. apply NoDup_fst_map_to_list. Qed.
Lemma missing_order : in_order c_key (gone <$> missing).
Proof.
  eapply (in_order_keys fst); [symmetry; apply missing_keys|]. apply in_order_filter. apply py_sorted_sorted, _.
Qed.

(** *** The table of instruments *)
Definition table_after : gmap (CatalogScope * string) InstrumentRow :=
  upserted sc current (missed sc missing.*1 (catalog_instrument db)).

Lemma row_gone o : set_row_present false (turnover_columns (row_for o)) (row_for o) = row_for (set_presence false o).
Proof. done. Qed.

Lemma after_current i : i ∈ current -> table_after !! (sc, c_key i) = Some (row_for i).
Proof. apply lookup_upserted, current_nodup. Qed.

Lemma after_other k : k ∉ c_key <$> current -> table_after !! (sc, k) = row_for <$> (set_presence false <$> prior !! k).
Proof.
  intros Hk. unfold table_after. rewrite lookup_upserted_ne.
  2: { intros i Hi [= Heq]. apply Hk. rewrite <- Heq. by apply list_elem_of_fmap_2. }
  rewrite lookup_missed by apply missing_nodup. destruct (Hprior k) as [Ht Hh]. rewrite Ht. clear Ht.
  case_bool_decide as Hm.
  - by destruct (prior !! k).
  - destruct (prior !! k) as [o|] eqn:Ho; [|done]. cbn. destruct (is_present o) eqn:Hp.
    + destruct Hm. split; [done|]. change k with ((k, o).1). apply list_elem_of_fmap_2, elem_of_missing. done.
    + unfold set_presence. rewrite <- Hp. by destruct o.
Qed.

Lemma after_scope s k : s <> sc -> table_after !! (s, k) = catalog_instrument db !! (s, k).
Proof.
  intros Hs. unfold table_after. rewrite lookup_upserted_ne by (intros ? _; congruence). rewrite lookup_missed by apply missing_nodup.
  by rewrite bool_decide_eq_false_2 by (intros [? _]; done).
Qed.

Lemma write_instruments : for_each (upsert_instrument sc) current
    (foldl (fun db i => mark_missing sc (c_key i) db) db (gone <$> missing)) = Ok (set_instruments table_after db).
Proof.
  rewrite miss_all, missing_keys, upsert_all; [done|apply current_nodup|]. intros i Hi.
  destruct (current_made i Hi) as (Hm & _ & Hp & _). split_and!; [done|done|]. intros row. cbn.
  rewrite lookup_missed by apply missing_nodup. destruct (Hprior (c_key i)) as [-> Hh]. intros Hrow.
  destruct (prior !! c_key i) as [o|] eqn:Ho; [|by case_bool_decide]. cbn in Hrow.
  rewrite (current_first i o Hi Ho). case_bool_decide; injection Hrow as <-; done.
Qed.

(** *** The hints *)
Local Abbreviation hints := (catalog_announcement_hint db).
Local Abbreviation matches := (hint_matches sc observed current db).

Lemma elem_of_matches id row target : ((id, row), target) ∈ matches ->
  hints !! (sc, id) = Some row /\ row_confirmed_at_ns row = None /\ row_announced_at_ns row <= observed /\
  _resolve_announcement_target row current = Some target.
Proof.
  unfold hint_matches. rewrite list_elem_of_omap. intros ([i r] & Hin & Hr). rewrite elem_of_lfilter, elem_of_rows in Hin.
  cbn in Hin, Hr. destruct (_resolve_announcement_target r current) as [t|] eqn:Et; [|done]. injection Hr as -> -> ->.
  destruct Hin as [Hrow [Hc Hle]%andb_true_iff]. split_and!; [done| |by apply Z.leb_le|done].
  by destruct (row_confirmed_at_ns row).
Qed.

Lemma matches_nodup : NoDup (matches.*1.*1).
Proof.
  unfold hint_matches. pose proof (NoDup_filter_keys fst (fun ir : string * HintRow =>
    negb (present (row_confirmed_at_ns ir.2)) && (row_announced_at_ns ir.2 <=? observed)) _ (NoDup_rows sc hints)) as Hnd.
  change (NoDup (fst <$> List.filter (fun ir : string * HintRow =>
    negb (present (row_confirmed_at_ns ir.2)) && (row_announced_at_ns ir.2 <=? observed)) (rows_of sc hints))) in Hnd.
  revert Hnd. generalize (List.filter (fun ir : string * HintRow =>
    negb (present (row_confirmed_at_ns ir.2)) && (row_announced_at_ns ir.2 <=? observed)) (rows_of sc hints)).
  induction l as [|[id r] l IH]; [constructor|]. rewrite fmap_cons. intros [Hn Hnd]%NoDup_cons. cbn.
  destruct (_resolve_announcement_target r current) as [t|]; cbn; [|by apply IH]. apply NoDup_cons. split; [|by apply IH].
  intros Hin. apply Hn. cbn. apply list_elem_of_fmap in Hin as ([id' r'] & -> & Hin).
  apply list_elem_of_fmap in Hin as ([[id2 r2] t2] & Heq & Hin). cbn in Heq. injection Heq as <- <-.
  apply list_elem_of_omap in Hin as ([id3 r3] & Hin & H3). cbn in H3. destruct (_resolve_announcement_target r3 current); [|done].
  injection H3 as -> -> _. by apply (list_elem_of_fmap_2 fst) in Hin.
Qed.

Lemma elem_of_current i : i ∈ current <-> exists r, r ∈ ordered /\ c_key i = instrument_key r /\ is_present i = true /\
  tradable (inst i) = tradable r /\ canonical_pair (inst i) = canonical_pair r /\ i ∈ current.
Proof.
  split; [|by intros (r & _ & _ & _ & _ & _ & Hi)]. intros Hi. destruct (current_outcome i Hi) as (r & Hr & _ & Ho).
  destruct (outcome_key _ _ _ Ho) as (Hk & _ & _ & _ & Ht & _). destruct (oc_seen _ _ _ _ _ _ Ho) as [_ Hp].
  exists r. split_and!; try done. pose proof (oc_record _ _ _ _ _ _ Ho) as Hrec. by rewrite <- Hrec.
Qed.
Lemma record_current r : r ∈ ordered -> exists i, i ∈ current /\ c_key i = instrument_key r /\ is_present i = true /\
  tradable (inst i) = tradable r /\ canonical_pair (inst i) = canonical_pair r.
Proof.
  intros Hr. assert (Hk : instrument_key r ∈ c_key <$> current) by (rewrite current_keys; by apply list_elem_of_fmap_2).
  apply list_elem_of_fmap in Hk as (i & Hk & Hi). apply elem_of_current in Hi as (r' & Hr' & Hk' & Hp & Ht & Hc & Hi).
  assert (r' = r) as -> by (eapply (keyed_inj instrument_key); [exact Hkeys|..]; congruence || done).
  exists i. by split_and!.
Qed.

(** What the search for the target of an announcement finds. *)
Lemma resolve_spec row target : _resolve_announcement_target row current = Some target <->
  exists r, announced ordered row r /\ target = instrument_key r.
Proof.
  unfold _resolve_announcement_target, announced. destruct (row_candidate_key row) as [key|].
  - split.
    + destruct (find _ current) as [i|] eqn:Ef; [|done]. apply find_some in Ef as [Hin%list_elem_of_In Hk%String.eqb_eq].
      apply elem_of_current in Hin as (r & Hr & Hkr & Hp & Ht & Hc & _). rewrite Hp, Ht, Hc. cbn [andb].
      destruct (tradable r && _) eqn:E; [|done]. apply andb_true_iff in E as [Htr Hpair]. intros [= <-].
      exists r. split_and!; [done|done|congruence| |done]. intros p Hrow. rewrite Hrow in Hpair. by apply String.eqb_eq in Hpair.
    + intros (r & (Hr & Htr & Hk & Hpair) & ->). destruct (record_current r Hr) as (i & Hi & Hki & Hp & Ht & Hc).
      destruct (find (fun i => String.eqb (c_key i) key) current) as [j|] eqn:Ef.
      * apply find_some in Ef as [Hj%list_elem_of_In Hkj%String.eqb_eq].
        assert (j = i) as -> by (apply (keyed_inj c_key current); [apply current_nodup|done|done|congruence]).
        rewrite Hp, Ht, Htr, Hc. cbn [andb]. destruct (row_candidate_pair row) as [p|]; cbn [opt_ok]; [|congruence].
        rewrite (Hpair p eq_refl), String.eqb_refl. congruence.
      * pose proof (find_none _ _ Ef i ltac:(by apply list_elem_of_In)) as Hn. cbn in Hn. rewrite Hki, Hk, String.eqb_refl in Hn. done.
  - destruct (row_candidate_pair row) as [p|]; [|by split; [|intros (r & (_ & _ & []) & _)]]. split.
    + destruct (List.filter _ current) as [|i [|]] eqn:Ef; try done. intros [= <-].
      apply (filter_single c_key) in Ef as (Hi & Hon & Hall); [|apply current_nodup].
      apply elem_of_current in Hi as (r & Hr & Hk & Hp & Ht & Hc & _). rewrite Hp, Ht, Hc in Hon. cbn [andb] in Hon. bool_prop.
      exists r. split_and!; [done|done|by apply String.eqb_eq| |done]. intros r' Hr' Ht' Hc'. rewrite <- Hk.
      destruct (record_current r' Hr') as (i' & Hi' & <- & Hp2 & Ht2 & Hc2). apply Hall; [done|]. rewrite Hp2, Ht2, Ht', Hc2, Hc'. cbn. apply String.eqb_refl.
    + intros (r & (Hr & Htr & Hpair & Hall) & ->). destruct (record_current r Hr) as (i & Hi & Hki & Hp & Ht & Hc).
      rewrite (proj2 (filter_single c_key _ current i current_nodup)); [congruence|]. split_and!; [done| |].
      * rewrite Hp, Ht, Htr, Hc, Hpair. cbn. apply String.eqb_refl.
      * intros j Hj Hon. apply elem_of_current in Hj as (r' & Hr' & Hk' & Hp' & Ht' & Hc' & _). rewrite Hp', Ht', Hc' in Hon.
        cbn [andb] in Hon. apply andb_true_iff in Hon as [Hon Heq%String.eqb_eq]. rewrite Hk', Hki. by apply Hall.
Qed.

(** A confirmed hint. *)
Lemma confirmed_facts id row : hints !! (sc, id) = Some row -> row_announced_at_ns row <= observed ->
  hint_facts (hint_of sc id (set_confirmed observed row)).
Proof.
  intros Hrow Hle. destruct (hints_ok_facts _ _ _ _ (inv_hints _ HI) Hrow) as [H1 H2 H3 H4 H5 H6 H7].
  constructor; try done. cbn -[MAX_INT64]. intros c [= <-]. lia.
Qed.

Definition hints_after : gmap (CatalogScope * string) HintRow :=
  foldl (fun t m => <[(sc, m.1.1) := set_confirmed observed m.1.2]> t) hints matches.

Lemma write_hints db' : catalog_announcement_hint db' = hints ->
  for_each (fun m => confirm_hint sc observed m.1.1 m.1.2) matches db' = Ok (set_hints hints_after db').
Proof.
  intros Hdb. unfold hints_after. rewrite <- Hdb. pose proof elem_of_matches as Hm. clear Hdb. revert db' Hm.
  induction matches as [|[[id row] target] l IH]; intros db' Hm; [by destruct db'|]. cbn [for_each].
  destruct (Hm id row target ltac:(left)) as (Hrow & _ & Hle & _).
  destruct (confirmed_facts id row Hrow Hle) as [_ _ _ _ H5 H6 _]. cbn in H5, H6.
  assert (Hc : hint_checks (set_confirmed observed row) = true).
  { unfold hint_checks. cbn. rewrite H5, (proj2 (Z.leb_le _ _)), (proj2 (Z.leb_le _ _)) by lia. done. }
  cbn [fst snd]. unfold confirm_hint at 1, checked. rewrite Hc. cbn [negb raise_if rbind].
  rewrite IH; [done|]. intros i r t Hin. apply Hm. by right.
Qed.

Lemma hints_after_ok : hints_ok hints_after.
Proof.
  unfold hints_after. pose proof elem_of_matches as Hm.
  assert (Hok : hints_ok hints) by apply HI. revert Hok. generalize hints at 1 2. revert Hm.
  induction matches as [|[[id row] target] l IH]; intros Hm t Hok; [done|]. cbn.
  apply IH; [intros i r tg Hin; apply Hm; by right|]. intros s i r Hr.
  destruct (Hm id row target ltac:(left)) as (Hrow & _ & Hle & _).
  rewrite lookup_insert in Hr. case_decide as Heq; [|by eapply Hok]. injection Heq as <- <-. injection Hr as <-.
  pose proof (confirmed_facts id row Hrow Hle) as Hf. unfold _hint_from_row. cbn [fst snd].
  change (is_ok (hint_validate (hint_of sc id (set_confirmed observed row))) = true).
  by rewrite (proj2 (hint_validate_spec _ _) (conj eq_refl Hf)).
Qed.

(** The delta of a confirmation. *)
Definition confirmation (m : (string * HintRow) * string) : CatalogDelta := {|
  d_kind := "announcement_confirmed"; d_instrument_key := m.2; d_previous := Some (Hint (hint_of sc m.1.1 m.1.2));
  d_current := Hint (hint_of sc m.1.1 (set_confirmed observed m.1.2)) |}.

Lemma target_key row target : _resolve_announcement_target row current = Some target ->
  nonempty target = true /\ (forall k, row_candidate_key row = Some k -> k = target).
Proof.
  assert (Hne : forall i, i ∈ current -> nonempty (c_key i) = true).
  { intros i Hi. destruct (current_made i Hi) as (Hm & _). apply made_spec in Hm as ([Ht _ _ _ _] & _ & _).
    unfold texts_ok in Ht. by bool_prop. }
  unfold _resolve_announcement_target. destruct (row_candidate_key row) as [k|].
  - destruct (find _ current) as [i|] eqn:Ef; [|done]. apply find_some in Ef as [Hin Hk]. apply String.eqb_eq in Hk.
    destruct (_ && _); [|done]. intros [= <-]. split; [by apply Hne, list_elem_of_In|]. intros ? [= ->]. done.
  - destruct (row_candidate_pair row) as [p|]; [|done]. destruct (List.filter _ current) as [|i [|j l]] eqn:Ef; try done.
    intros [= <-]. split; [|done]. apply Hne. assert (Hin : i ∈ [i]) by left. rewrite <- Ef in Hin. by apply elem_of_lfilter in Hin as [Hin _].
Qed.

Lemma all_confirmed : check_all (hint_delta sc observed) matches = Ok (confirmation <$> matches).
Proof.
  apply check_all_ok. intros [[id row] target] Hin. apply elem_of_matches in Hin as (Hrow & Hnone & Hle & Ht).
  unfold hint_delta, _hint_from_row. cbn [fst snd].
  change (hint_validate _) with (hint_validate (hint_of sc id row)) at 1.
  rewrite (proj2 (hint_validate_spec _ _) (conj eq_refl (hints_ok_facts _ _ _ _ (inv_hints _ HI) Hrow))). cbn [rbind].
  change (hint_validate _) with (hint_validate (hint_of sc id (set_confirmed observed row))).
  rewrite (proj2 (hint_validate_spec _ _) (conj eq_refl (confirmed_facts id row Hrow Hle))). cbn [rbind].
  destruct (target_key row target Ht) as [Hne Hk]. unfold delta_validate.
  rewrite (bool_decide_eq_true_2 (d_kind _ ∈ _)) by (cbn; set_solver). cbn -[_nonempty_string bool_decide].
  rewrite (proj2 (nonempty_spec _ _ _) (conj eq_refl Hne)). cbn [rbind].
  assert (Hg : match row_candidate_key row with Some candidate => negb (candidate =? target)%string | None => false end = false).
  { destruct (row_candidate_key row) as [k|]; [|done]. rewrite (Hk k eq_refl). by rewrite String.eqb_refl. }
  rewrite Hg, bool_decide_eq_true_2 by done. cbn [raise_if negb orb]. rewrite String.eqb_refl, Hnone. done.
Qed.

(** Which announcements a snapshot confirms. *)
Lemma matches_spec id row target : ((id, row), target) ∈ matches <->
  hints !! (sc, id) = Some row /\ exists r, confirms ordered observed row r /\ target = instrument_key r.
Proof.
  split.
  - intros (Hrow & Hc & Hle & (r & Hr & ->)%resolve_spec)%elem_of_matches. split; [done|]. by exists r.
  - intros (Hrow & r & (Hc & Hle & Hr) & ->). unfold hint_matches. apply list_elem_of_omap. exists (id, row). split.
    + apply elem_of_lfilter. split; [by apply elem_of_rows|]. cbn. rewrite Hc, (proj2 (Z.leb_le _ _)) by done. done.
    + cbn. by rewrite (proj2 (resolve_spec row (instrument_key r)) (ex_intro _ r (conj Hr eq_refl))).
Qed.

Lemma hints_after_lookup s id row : hints_after !! (s, id) = Some row <->
  (exists old r, s = sc /\ hints !! (sc, id) = Some old /\ confirms ordered observed old r /\ row = set_confirmed observed old)
  \/ (hints !! (s, id) = Some row /\ (s = sc -> forall r, ~ confirms ordered observed row r)).
Proof.
  unfold hints_after. assert (Hnd : NoDup ((fun m : (string * HintRow) * string => (sc, m.1.1)) <$> matches)).
  { pose proof matches_nodup as Hm. rewrite <- list_fmap_compose in Hm. apply (NoDup_fmap_2 (pair sc)) in Hm. by rewrite <- list_fmap_compose in Hm. }
  rewrite (foldl_insert_lookup (fun m => (sc, m.1.1)) (fun m => set_confirmed observed m.1.2)) by done. split.
  - intros [([[id' old] t] & (Hold & r & Hr & _)%matches_spec & [= <- <-] & <-)|[Hn Hrow]]; [left; by exists old, r|].
    right. split; [done|]. intros -> r Hr. apply Hn. change (sc, id) with ((fun m : (string * HintRow) * string => (sc, m.1.1)) ((id, row), instrument_key r)).
    apply list_elem_of_fmap_2, matches_spec. eauto.
  - intros [(old & r & -> & Hold & Hr & ->)|[Hrow Hno]].
    + left. exists ((id, old), instrument_key r). split_and!; [apply matches_spec; eauto|done|done].
    + right. split; [|done]. intros ([[id' old] t] & [= -> ->] & (Hold & r & Hr & _)%matches_spec)%list_elem_of_fmap.
      cbn in Hrow. rewrite Hold in Hrow. injection Hrow as ->. by apply (Hno eq_refl r).
Qed.

Lemma confirmations_order : in_order identity_key (confirmation <$> matches) /\ NoDup (identity_key <$> (confirmation <$> matches)).
Proof.
  assert (Hids : identity_key <$> (confirmation <$> matches) = (fun m => m.1.1) <$> matches) by by rewrite <- list_fmap_compose.
  split; [|rewrite Hids; pose proof matches_nodup as Hm; rewrite <- list_fmap_compose in Hm; exact Hm].
  apply (in_order_keys (fun m : (string * HintRow) * string => m.1.1) identity_key matches); [by rewrite <- list_fmap_compose|].
  unfold hint_matches. assert (Ho : in_order fst (rows_of sc hints)) by apply py_sorted_sorted, _.
  apply (in_order_filter fst (fun ir => negb (present (row_confirmed_at_ns ir.2)) && (row_announced_at_ns ir.2 <=? observed))) in Ho.
  revert Ho. generalize (List.filter (fun ir : string * HintRow => negb (present (row_confirmed_at_ns ir.2)) && (row_announced_at_ns ir.2 <=? observed)) (rows_of sc hints)).
  induction 1 as [|[id row] l _ IH Hx]; [constructor|]. cbn. destruct (_resolve_announcement_target row current); cbn; [|exact IH].
  constructor; [exact IH|]. apply Forall_forall. intros [[id' row'] t'] ([id2 row2] & Hin & Ht)%list_elem_of_omap.
  cbn in Ht. destruct (_resolve_announcement_target row2 current); [|done]. injection Ht as -> -> ->. exact (proj1 (Forall_forall _ _) Hx (id', row') Hin).
Qed.

(** *** The deltas *)
Definition listed_added : list CatalogInstrument :=
  List.filter (fun i => match prior !! c_key i with None => true | Some o => negb (is_present o) end) current.
Definition listed_updated : list CatalogInstrument :=
  List.filter (fun i => match prior !! c_key i with
                        | None => false
                        | Some o => is_present o && negb (same_provider_fields o i)
                        end) current.
Definition listed_new : list CatalogInstrument := (List.filter snd placed).*1.
Local Abbreviation removed_now := (gone <$> missing).

Lemma new_current i : i ∈ listed_new -> i ∈ current.
Proof.
  unfold listed_new. intros ([i' b] & -> & Hin)%list_elem_of_fmap. apply elem_of_lfilter in Hin as [Hin _].
  by apply (list_elem_of_fmap_2 fst) in Hin.
Qed.
Lemma new_order : in_order c_key listed_new /\ NoDup (c_key <$> listed_new).
Proof.
  unfold listed_new. pose proof current_order as Ho. pose proof current_nodup as Hn. split.
  - apply (in_order_keys (fun p => c_key p.1) c_key (List.filter snd placed)); [by rewrite <- list_fmap_compose|].
    apply in_order_filter. by apply (in_order_keys c_key _ current); [rewrite <- list_fmap_compose|].
  - change (NoDup (c_key <$> (fst <$> List.filter snd placed))). rewrite <- list_fmap_compose.
    apply NoDup_filter_keys. rewrite <- list_fmap_compose in Hn. exact Hn.
Qed.

Definition delta_of (ki : string * CatalogInstrument) : CatalogDelta := instrument_delta ki.1 prior ki.2.
Definition listed_deltas : list (string * CatalogInstrument) :=
  (pair "added" <$> listed_added) ++ (pair "updated" <$> listed_updated) ++ (pair "removed" <$> removed_now)
  ++ (pair "new_listing" <$> listed_new).

Lemma made_key_nonempty i : made i -> nonempty (c_key i) = true.
Proof. intros ([Ht _ _ _ _] & _ & _)%made_spec. unfold texts_ok in Ht. by bool_prop. Qed.

Lemma delta_valid kind i : kind ∈ ["added"; "updated"; "removed"; "new_listing"] -> made i -> c_scope i = sc ->
  (kind ∈ ["updated"; "removed"] -> exists o, prior !! c_key i = Some o /\ is_present o = true) ->
  (kind = "removed" -> is_present i = false) ->
  delta_validate (delta_of (kind, i)) = Ok (delta_of (kind, i)).
Proof.
  intros Hk Hm Hsc Hprev Hrem. unfold delta_validate, delta_of, instrument_delta.
  cbn [fst snd d_kind d_instrument_key d_previous d_current].
  rewrite (bool_decide_eq_true_2 (kind ∈ _)) by set_solver. cbn [negb raise_if].
  rewrite (proj2 (nonempty_spec _ _ _) (conj eq_refl (made_key_nonempty i Hm))). cbn [rbind].
  assert (Hann : String.eqb kind "announcement_confirmed" = false).
  { by repeat (apply elem_of_cons in Hk as [->|Hk]); [..|apply elem_of_nil in Hk]. }
  rewrite Hann. rewrite String.eqb_refl. cbn [negb raise_if].
  assert (Hp : forall o, prior !! c_key i = Some o -> c_key o = c_key i /\ c_scope o = c_scope i).
  { intros o Ho. destruct (Hprior (c_key i)) as [_ Hh]. destruct (Hh o Ho) as [_ Hs Hck _ _ _]. by rewrite Hsc. }
  destruct (prior !! c_key i) as [o|] eqn:Ho; cbn [fmap option_fmap option_map present negb].
  - destruct (Hp o eq_refl) as [-> ->]. rewrite String.eqb_refl, bool_decide_eq_true_2 by done. cbn [negb raise_if rbind].
    rewrite andb_false_r. cbn [raise_if]. destruct (String.eqb_spec kind "removed") as [->|Hne]; [|done].
    destruct (Hprev ltac:(set_solver)) as (o' & [= <-] & ->). by rewrite Hrem.
  - cbn [rbind]. rewrite andb_true_r, andb_false_r. rewrite bool_decide_eq_false_2; [done|].
    intros Hx. by destruct (Hprev Hx) as (o' & ? & _).
Qed.

Lemma all_deltas : check_all (fun ki => delta_validate (instrument_delta ki.1 prior ki.2))
    ((pair "added" <$> by_key c_key listed_added) ++ (pair "updated" <$> by_key c_key listed_updated)
     ++ (pair "removed" <$> by_key c_key removed_now) ++ (pair "new_listing" <$> by_key c_key listed_new))
  = Ok (delta_of <$> listed_deltas).
Proof.
  rewrite !by_key_id by (apply in_order_filter, current_order || apply missing_order || apply new_order).
  apply check_all_ok. intros [kind i] Hin.
  assert (Hcur : forall i, i ∈ current -> made i /\ c_scope i = sc) by (intros j Hj; by destruct (current_made j Hj) as (? & ? & _)).
  repeat (apply elem_of_app in Hin as [Hin|Hin]); apply list_elem_of_fmap in Hin as (j & [= -> ->] & Hin).
  - apply elem_of_lfilter in Hin as [Hin _]. destruct (Hcur j Hin). apply delta_valid; [set_solver|done|done|set_solver|done].
  - apply elem_of_lfilter in Hin as [Hin Hp]. destruct (Hcur j Hin). apply delta_valid; [set_solver|done|done| |done].
    intros _. destruct (prior !! c_key j) as [o|]; [|done]. exists o. by apply andb_true_iff in Hp as [Hp _].
  - apply list_elem_of_fmap in Hin as ([k o] & -> & Hin). apply elem_of_missing in Hin as (Ho & Hp & _).
    destruct (Hprior k) as [_ Hh]. destruct (Hh o Ho) as [Hm Hs Hck _ _ _].
    apply delta_valid; [set_solver|by apply set_presence_made|done| |done]. intros _. exists o.
    split; [|done]. rewrite <- Ho. f_equal. exact Hck.
  - apply new_current in Hin. destruct (Hcur j Hin). apply delta_valid; [set_solver|done|done|set_solver|done].
Qed.

(** *** The reported changes *)
Lemma current_instruments_app k a b : current_instruments k (a ++ b) = current_instruments k a ++ current_instruments k b.
Proof. apply omap_app. Qed.
Lemma current_instruments_pair k kind l :
  current_instruments k (delta_of <$> (pair kind <$> l)) = if String.eqb kind k then l else [].
Proof.
  induction l as [|i l IH]; cbn; [by destruct (String.eqb kind k)|]. unfold current_instruments in IH. rewrite IH.
  by destruct (String.eqb kind k).
Qed.
Lemma current_instruments_hints k : current_instruments k (confirmation <$> matches) = [].
Proof. induction matches as [|m l IH]; [done|]. exact IH. Qed.
Lemma current_hints_app a b : current_hints (a ++ b) = current_hints a ++ current_hints b.
Proof. apply omap_app. Qed.
Lemma current_hints_deltas l : current_hints (delta_of <$> l) = [].
Proof. induction l as [|i l IH]; [done|]. exact IH. Qed.

Lemma reported k l : k ∈ ["added"; "updated"; "removed"; "new_listing"] ->
  l = (if String.eqb k "added" then listed_added else if String.eqb k "updated" then listed_updated
       else if String.eqb k "removed" then removed_now else listed_new) ->
  current_instruments k ((delta_of <$> listed_deltas) ++ (confirmation <$> matches)) = l.
Proof.
  intros Hk ->. unfold listed_deltas. rewrite !fmap_app, !current_instruments_app, !current_instruments_pair, current_instruments_hints.
  repeat (apply elem_of_cons in Hk as [->|Hk]); [..|by apply elem_of_nil in Hk]; cbn -[listed_added listed_updated listed_new];
    by rewrite ?app_nil_r.
Qed.

Lemma list_eqb_refl l : list_eqb instrument_eqb l l = true.
Proof. induction l as [|i l IH]; [done|]. cbn. unfold instrument_eqb at 1, same_or. by rewrite bool_decide_eq_true_2, IH. Qed.

(** Every kind names an instrument or a hint once. *)
Lemma identities_nodup :
  NoDup ((fun d => (d_kind d, identity_key d)) <$> (delta_of <$> listed_deltas) ++ (confirmation <$> matches)).
Proof.
  assert (Hk : forall kind l, NoDup (c_key <$> l) ->
    NoDup ((fun d => (d_kind d, identity_key d)) <$> (delta_of <$> (pair kind <$> l)))).
  { intros kind l Hl. rewrite <- !list_fmap_compose.
    apply (NoDup_fmap_1 snd). rewrite <- list_fmap_compose. exact Hl. }
  assert (Hin : forall kind (l : list CatalogInstrument) (p : string * string), p ∈ (fun d => (d_kind d, identity_key d)) <$> (delta_of <$> (pair kind <$> l)) -> p.1 = kind).
  { intros kind l p Hp. rewrite <- !list_fmap_compose in Hp. by apply list_elem_of_fmap in Hp as (i & -> & _). }
  assert (Hconf : NoDup ((fun d => (d_kind d, identity_key d)) <$> (confirmation <$> matches)) /\
    forall p : string * string, p ∈ (fun d => (d_kind d, identity_key d)) <$> (confirmation <$> matches) -> p.1 = "announcement_confirmed").
  { rewrite <- list_fmap_compose. split.
    - apply (NoDup_fmap_1 snd). rewrite <- list_fmap_compose. pose proof matches_nodup as Hm.
      rewrite <- list_fmap_compose in Hm. exact Hm.
    - intros p Hp. by apply list_elem_of_fmap in Hp as (m & -> & _). }
  destruct Hconf as [Hc1 Hc2]. unfold listed_deltas. rewrite !fmap_app. rewrite <- !app_assoc.
  repeat (apply NoDup_app; split_and!).
  1: apply Hk, NoDup_filter_keys, current_nodup.
  2: apply Hk, NoDup_filter_keys, current_nodup.
  3: apply Hk; rewrite missing_keys; apply missing_nodup.
  4: apply Hk, new_order.
  5: exact Hc1.
  all: intros p Hp; apply Hin in Hp; rewrite ?elem_of_app; intros Hq;
    repeat (destruct Hq as [Hq|Hq]; [apply Hin in Hq; congruence|]); try (apply Hin in Hq; congruence); apply Hc2 in Hq; congruence.
Qed.

(** *** What the snapshot leaves *)
Context (sha256_hex : string -> string) (Hsha : forall s, config_sha256_ok (sha256_hex s) = true).
Context (digest snapshot_id : string) (pages : list string).
Context (Houtbox : outbox_ok db).
Context (Hdigest : config_sha256_ok digest = true) (Hid : nonempty snapshot_id = true) (Hpages : good_names pages /\ pages <> []).

Local Abbreviation revision := (match state with None => 1 | Some s => row_revision s + 1 end).
Definition deltas_after : list CatalogDelta := (delta_of <$> listed_deltas) ++ (confirmation <$> matches).
Definition rows_after : list (string * ChangeRow) := change_rows sha256_hex sc revision deltas_after.
Definition outbox_after : gmap string ChangeRow :=
  foldl (fun t er => <[er.1 := er.2]> t) (catalog_change_outbox db) rows_after.
Definition scope_after : ScopeRow := catalog_scope_row state observed digest revision snapshot_id pages.
Definition db_after : Db :=
  set_scopes (<[sc := scope_after]> (catalog_scope_state db))
    (set_changes outbox_after (set_hints hints_after (set_instruments table_after db))).
Definition changes_after : CatalogChanges := {|
  cc_scope := sc; cc_observed_at_ns := observed; is_initial_baseline := is_initial; cc_idempotent := false;
  added := listed_added; updated := listed_updated; removed := removed_now; new_listings := listed_new;
  confirmed_announcement_hints := current_hints (confirmation <$> matches); cc_revision := revision;
  cc_digest_sha256 := Some digest; control_event_ids := rows_after.*1; cc_deltas := deltas_after |}.

Lemma revision_bounds : 0 < revision <= MAX_INT64.
Proof.
  destruct state as [s|] eqn:Es; [|done]. specialize (Hrevision s eq_refl). pose proof (inv_scopes _ HI sc) as Hsc.
  rewrite Hstate in Hsc. destruct Hsc as [[_ Hr _ _ _ _] _]. lia.
Qed.

(** The rows of a snapshot are of a revision that is not in the outbox, so that only an
    event identity that is used already can stop the loop. *)
Lemma rows_after_checks : Forall (fun er : string * ChangeRow => change_checks er.2 = true) rows_after.
Proof.
  apply Forall_forall. intros er (n & d & -> & Hd)%elem_of_lookup_imap. unfold change_checks. cbn [snd o_catalog_revision o_ordinal o_kind].
  pose proof revision_bounds as Hr. rewrite (proj2 (Z.ltb_lt 0 _)), (proj2 (Z.leb_le 0 _)) by lia. cbn [andb].
  apply bool_decide_eq_true. apply list_elem_of_lookup_2 in Hd. unfold deltas_after, listed_deltas in Hd.
  rewrite !fmap_app, !elem_of_app in Hd.
  destruct Hd as [[Hd|[Hd|[Hd|Hd]]]|Hd]; apply list_elem_of_fmap in Hd as (x & -> & Hx);
    [apply list_elem_of_fmap in Hx as (i & -> & _); cbn; set_solver..|cbn; set_solver].
Qed.

Lemma rows_after_slots : slots_free change_slot (catalog_change_outbox db) rows_after.
Proof.
  split.
  - intros id row er Hrow (n & d & -> & _)%elem_of_lookup_imap. unfold change_slot. cbn. intros [= Hs Hr _].
    destruct (proj1 Houtbox _ _ Hrow) as (s & Hst & Hle). rewrite Hs, Hstate in Hst. rewrite Hst in Hr. lia.
  - unfold rows_after, change_rows. rewrite fmap_imap. apply NoDup_alt. intros m n x Hm Hn.
    rewrite list_lookup_imap in Hm, Hn. apply fmap_Some in Hm as (? & _ & ->). apply fmap_Some in Hn as (? & _ & Hx).
    unfold compose, change_slot in Hx. cbn in Hx. injection Hx. lia.
Qed.

Lemma insert_changes rows db' : Forall (fun er : string * ChangeRow => change_checks er.2 = true) rows ->
  slots_free change_slot (catalog_change_outbox db') rows ->
  for_each (fun er => insert_change er.1 er.2) rows db' =
    if taken (catalog_change_outbox db') rows.*1 then Err (IntegrityError "UNIQUE constraint failed")
    else Ok (set_changes (foldl (fun t er => <[er.1 := er.2]> t) (catalog_change_outbox db') rows) db').
Proof.
  intros HF. revert db'. induction HF as [|[e row] rows Hrow _ IH]; intros db' Hfree; [by destruct db'|].
  rewrite fmap_cons, taken_cons with (x := row). cbn [for_each fst snd foldl] in *. unfold insert_change at 1, checked. rewrite Hrow.
  cbn [negb raise_if]. match goal with |- context [existsb ?f ?l] => assert (existsb f l = false) as -> end.
  { pose proof (slot_unused change_slot (fun x y => bool_decide (o_scope x = o_scope y)
      && (o_catalog_revision x =? o_catalog_revision y) && (o_ordinal x =? o_ordinal y)) _ _ _ _ Hfree) as Hs. apply Hs.
    intros [] []; cbn. unfold change_slot. cbn. rewrite !andb_true_iff, bool_decide_eq_true, !Z.eqb_eq. intros [[-> ->] ->]. done. }
  rewrite orb_false_r. destruct (present _) eqn:Ee; cbn [orb raise_if rbind]; [done|].
  rewrite IH; [done|]. by eapply slots_free_insert.
Qed.

Lemma scope_after_turnover : exists v, turnover_state scope_after v /\ (forall v', v = Some v' -> tv_bound v' < revision) /\
  (state = None -> v = None) /\
  (forall s, state = Some s -> forall k i, holds sc k i -> catalog_instrument db !! (sc, k) = Some (row_for i) ->
     instrument_holds s v k i) /\
  (forall v' k, v = Some v' -> k ∈ tv_covered v' -> exists i, holds sc k i /\ catalog_instrument db !! (sc, k) = Some (row_for i)).
Proof.
  destruct state as [s|] eqn:Es.
  - pose proof (inv_scopes _ HI sc) as Hsc. rewrite Hstate in Hsc. destruct Hsc as (_ & v & Hv & Hrows & Hcov).
    exists v. split_and!; [| |done|by intros ? [= <-]|intros v' k Ev Hk; destruct (Hcov v' k Ev Hk) as (i & ? & ? & _); eauto].
    + unfold scope_after. rewrite Es. destruct v as [v|]; cbn in Hv |- *; [|done].
      destruct Hv as [T1 T2 T3 T4 T5 [T6 T7] T8 T9]. constructor; try done; cbn; [|lia]. split; [done|lia].
    + intros v' ->. destruct Hv as [_ _ _ _ _ [_ T7] _ _]. lia.
  - exists None. split_and!; try done. unfold scope_after. by rewrite Es.
Qed.

Lemma digest_length d : config_sha256_ok d = true -> (String.length d =? 64)%nat = true.
Proof. unfold config_sha256_ok. by intros [? _]%andb_true_iff. Qed.

Lemma scope_after_checks : scope_checks scope_after = true.
Proof.
  destruct scope_after_turnover as (v & Hv & _). pose proof revision_bounds as Hr. unfold scope_checks.
  change (last_observed_at_ns scope_after) with observed. change (row_revision scope_after) with revision.
  change (snapshot_digest scope_after) with digest. change (complete scope_after) with true.
  rewrite (proj2 (Z.leb_le 0 _)), (proj2 (Z.ltb_lt 0 _)), digest_length by (done || lia). cbn [andb].
  destruct v as [v|]; cbn in Hv.
  - destruct Hv as [T1 [T2 _] (d & T3 & T3') (i & T4 & _) (l & T5 & _) [T6 T7] _ [T8 _]].
    rewrite (proj2 (Z.eqb_neq _ 0)) by lia. rewrite T2, T3, T4, T5, T6, T8, digest_length by done. cbn [present andb].
    rewrite (proj2 (Z.ltb_lt 0 _)), (proj2 (Z.ltb_lt 0 _)) by lia. done.
  - by destruct Hv as (-> & -> & -> & -> & -> & -> & ->).
Qed.

Lemma ids_ok l : (forall e, e ∈ l -> config_sha256_ok e = true) ->
  check_all (fun i => _sha256_digest i "control event ID") l = Ok l.
Proof.
  intros Hl. rewrite (check_all_ok _ id); [by rewrite list_fmap_id|]. intros e He. by rewrite digest_checked by auto.
Qed.

Lemma change_ids e : e ∈ rows_after.*1 -> config_sha256_ok e = true.
Proof.
  unfold rows_after, change_rows. intros ([e' row] & -> & Hin)%list_elem_of_fmap.
  apply elem_of_lookup_imap in Hin as (n & d & [= -> _] & _). apply Hsha.
Qed.

Lemma in_scope_all l : (forall i, i ∈ l -> c_scope i = sc) -> forallb (fun i => bool_decide (c_scope i = sc)) l = true.
Proof. intros Hl. apply forallb_forall. intros i Hi. apply bool_decide_eq_true, Hl. by apply list_elem_of_In. Qed.

Lemma scopes_here : (forall i, i ∈ current -> c_scope i = sc) /\ (forall i, i ∈ removed_now -> c_scope i = sc).
Proof.
  split; [intros i Hi; by destruct (current_made i Hi) as (_ & ? & _)|].
  intros i Hi. apply list_elem_of_fmap in Hi as ([k o] & -> & Hin). apply elem_of_missing in Hin as (Ho & _).
  destruct (Hprior k) as [_ Hh]. by destruct (Hh o Ho).
Qed.

Lemma changes_valid : NoDup rows_after.*1 -> changes_validate changes_after = Ok changes_after.
Proof.
  intros Hids. pose proof revision_bounds as Hrev. destruct scopes_here as [Hc Hr].
  assert (Hf : forall p, forall i, i ∈ List.filter p current -> c_scope i = sc) by (intros p i Hi; apply elem_of_lfilter in Hi as [Hi _]; auto).
  unfold changes_validate, changes_after. cbv zeta.
  cbn [cc_scope cc_observed_at_ns is_initial_baseline cc_idempotent added updated removed new_listings
    confirmed_announcement_hints cc_revision cc_digest_sha256 control_event_ids cc_deltas].
  rewrite (proj2 (nonnegative_spec _ _ _) (conj eq_refl Hobs)). cbn [rbind]. rewrite andb_false_r. cbn [raise_if].
  assert (Hpos : _positive_int revision "revision" = Ok revision).
  { unfold _positive_int. rewrite (proj2 (nonnegative_spec revision _ revision)) by (split; [done|lia]). cbn [rbind].
    by rewrite (proj2 (Z.eqb_neq _ _)) by lia. }
  rewrite Hpos. cbn [rbind]. rewrite digest_checked by done. cbn [rbind].
  rewrite !in_scope_all by (done || apply Hf || (intros i Hi; apply Hc; by apply new_current)). cbn [negb raise_if].
  assert (Hhints : forallb (fun h => bool_decide (h_scope h = sc)) (current_hints (confirmation <$> matches)) = true).
  { induction matches as [|m l IH]; [done|]. cbn. by rewrite bool_decide_eq_true_2. }
  assert (Hscopes : forallb (fun d => bool_decide (delta_scope d = sc)) deltas_after = true).
  { apply forallb_forall. intros d Hd%list_elem_of_In. apply bool_decide_eq_true. unfold deltas_after in Hd.
    apply elem_of_app in Hd as [Hd|Hd]; apply list_elem_of_fmap in Hd as (x & -> & Hx); [|done]. unfold listed_deltas in Hx.
    rewrite !elem_of_app in Hx. destruct Hx as [Hx|[Hx|[Hx|Hx]]]; apply list_elem_of_fmap in Hx as (i & -> & Hi);
      cbn; [by eapply Hf|by eapply Hf|auto|apply Hc; by apply new_current]. }
  rewrite Hhints, Hscopes. cbn [negb raise_if]. unfold unique at 1. rewrite bool_decide_eq_true_2 by apply identities_nodup.
  cbn [negb raise_if]. unfold deltas_after at 1 2 3 4.
  rewrite (reported "added" listed_added), (reported "updated" listed_updated), (reported "removed" removed_now),
    (reported "new_listing" listed_new), !list_eqb_refl by (set_solver || done). cbn [negb raise_if].
  rewrite bool_decide_eq_true_2 by (unfold deltas_after; by rewrite current_hints_app, current_hints_deltas).
  cbn [negb raise_if]. rewrite ids_ok by apply change_ids. cbn [rbind]. unfold unique. by rewrite bool_decide_eq_true_2.
Qed.

(** *** The invariant *)
Lemma holds_current i : i ∈ current -> holds sc (c_key i) (stored i).
Proof. intros Hi. destruct (current_made i Hi) as (Hm & <- & _ & _ & Hwf & Hd). by apply stored_holds. Qed.
Lemma holds_gone k o : prior !! k = Some o -> holds sc k (set_presence false o).
Proof. intros Ho. destruct (Hprior k) as [_ Hh]. destruct (Hh o Ho) as [Hm ? ? ? ? ?]. constructor; try done. by apply set_presence_made. Qed.

Lemma holds_eq k i j : holds sc k i -> holds sc k j -> row_for i = row_for j -> i = j.
Proof. intros Hi Hj Heq. pose proof (holds_read _ _ _ Hi) as H1. pose proof (holds_read _ _ _ Hj) as H2. congruence. Qed.

(** An instrument of the scope is a current one, or one that is gone. *)
Lemma after_cases k i : holds sc k i -> table_after !! (sc, k) = Some (row_for i) ->
  (exists j, j ∈ current /\ c_key j = k /\ i = stored j) \/ (exists o, prior !! k = Some o /\ i = set_presence false o).
Proof.
  intros Hi Hrow. destruct (base.decide (k ∈ c_key <$> current)) as [Hk|Hk].
  - left. apply list_elem_of_fmap in Hk as (j & -> & Hj). exists j. split_and!; [done|done|].
    rewrite after_current in Hrow by done. apply (holds_eq (c_key j)); [done|by apply holds_current|].
    rewrite row_for_stored. congruence.
  - right. rewrite after_other in Hrow by done. destruct (prior !! k) as [o|] eqn:Ho; [|done]. exists o. split; [done|].
    apply (holds_eq k); [done|by apply holds_gone|]. cbn in Hrow. congruence.
Qed.

Lemma rows_after_ok : rows_ok table_after.
Proof.
  intros s k row Hrow. destruct (base.decide (s = sc)) as [->|Hs].
  - destruct (base.decide (k ∈ c_key <$> current)) as [Hk|Hk].
    + apply list_elem_of_fmap in Hk as (j & -> & Hj). rewrite after_current in Hrow by done. injection Hrow as <-.
      exists (stored j). split; [by apply holds_current|by rewrite row_for_stored].
    + rewrite after_other in Hrow by done. destruct (prior !! k) as [o|] eqn:Ho; [|done]. injection Hrow as <-.
      exists (set_presence false o). split; [by apply holds_gone|done].
  - rewrite after_scope in Hrow by done. by apply (inv_rows _ HI).
Qed.

Lemma instruments_after v k i : (state = None -> v = None) ->
  (forall s, state = Some s -> forall k i, holds sc k i -> catalog_instrument db !! (sc, k) = Some (row_for i) -> instrument_holds s v k i) ->
  holds sc k i -> table_after !! (sc, k) = Some (row_for i) -> instrument_holds scope_after v k i.
Proof.
  intros Hnone Hold Hi Hrow.
  assert (Hprev : forall o, prior !! k = Some o -> exists s, state = Some s /\ instrument_holds s v k o).
  { intros o Ho. destruct (prior_scope o k Ho) as (s & _ & Es & Hh & _). exists s. split; [done|]. apply (Hold s Es); [done|].
    destruct (Hprior k) as [-> _]. by rewrite Ho. }
  destruct (after_cases k i Hi Hrow) as [(j & Hj & <- & ->)|(o & Ho & ->)].
  - destruct (current_made j Hj) as (_ & _ & Hp & Hseen & _). destruct (current_outcome j Hj) as (r & _ & [_ Hnt _ _ _] & Ho).
    pose proof (oc_generation _ _ _ _ _ _ Ho) as Hg. pose proof (oc_turnover _ _ _ _ _ _ Ho Hnt) as Ht.
    constructor; cbn; [done|congruence| |].
    + rewrite Hg. destruct (prior !! c_key j) as [o|] eqn:Hpo.
      * destruct (Hprev o eq_refl) as (s & -> & [_ _ Hgo _]). destruct (opens _ _ _ _ _); cbn; lia.
      * pose proof revision_bounds. destruct (opens _ _ _ _ _); cbn; lia.
    + rewrite Ht. intros u Hu. destruct (prior !! c_key j) as [o|] eqn:Hpo; [|done].
      destruct (String.eqb _ _); [|done]. destruct (Hprev o eq_refl) as (s & -> & [_ _ _ Hto]). by apply Hto.
  - destruct (Hprev o Ho) as (s & Es & [_ _ Hgo Hto]). destruct (prior_follows o k Ho) as [_ Hseen _].
    constructor; cbn; [done|done| |done]. rewrite Es. lia.
Qed.

Lemma scope_ok_ext s o t t' : (forall k, t !! (s, k) = t' !! (s, k)) -> scope_ok s o t -> scope_ok s o t'.
Proof.
  intros Ht. destruct o as [row|]; cbn; [|by intros H' k; rewrite <- Ht].
  intros (Hs & v & Hv & Hr & Hc). split; [done|]. exists v. split_and!; [done| |].
  - intros k i Hi Hrow. apply Hr; [done|by rewrite Ht].
  - intros v' k Ev Hk. destruct (Hc v' k Ev Hk) as (i & Hi & Hrow & Hp). exists i. by rewrite <- Ht.
Qed.

Lemma covered_after v' k : tv_bound v' < revision ->
  (exists i, holds sc k i /\ catalog_instrument db !! (sc, k) = Some (row_for i)) ->
  exists i, holds sc k i /\ table_after !! (sc, k) = Some (row_for i) /\ (tv_bound v' = row_revision scope_after -> is_present i = true).
Proof.
  intros Hb (i & Hi & Hrow). assert (Hno : forall P : Prop, tv_bound v' = row_revision scope_after -> P).
  { intros P Heq. change (row_revision scope_after) with revision in Heq. lia. }
  destruct (base.decide (k ∈ c_key <$> current)) as [Hk|Hk].
  - apply list_elem_of_fmap in Hk as (j & -> & Hj). exists (stored j). split_and!; [by apply holds_current| |apply Hno].
    by rewrite after_current, row_for_stored.
  - destruct (Hprior k) as [Ht _]. rewrite Hrow in Ht. destruct (prior !! k) as [o|] eqn:Ho; [|done].
    exists (set_presence false o). split_and!; [by apply holds_gone| |apply Hno]. by rewrite after_other, Ho.
Qed.

Lemma Inv_after : Inv db_after.
Proof.
  constructor; [apply rows_after_ok| |apply hints_after_ok]. intros s. cbn [db_after set_scopes set_changes set_hints set_instruments
    catalog_scope_state catalog_instrument]. destruct (base.decide (s = sc)) as [->|Hs].
  - rewrite lookup_insert_eq. destruct scope_after_turnover as (v & Hv & Hvb & Hvn & Hrows & Hcov).
    pose proof revision_bounds as Hrev. cbn. split; [constructor; try done; by exists pages|].
    exists v. split_and!; [done|by intros k i; apply instruments_after|].
    intros v' k Ev Hk. apply covered_after; [by apply Hvb|by eapply Hcov].
  - rewrite lookup_insert_ne by done. eapply scope_ok_ext; [|apply HI]. intros k. symmetry. by apply after_scope.
Qed.

Lemma placed_record r : r ∈ ordered -> exists i, i ∈ current /\ c_key i = instrument_key r /\
  outcome observed is_initial lookback (prior !! instrument_key r) r i /\
  (i ∈ listed_new <-> opens is_initial lookback observed (prior !! instrument_key r) r = true).
Proof.
  intros Hr. destruct (proj1 (list_elem_of_lookup _ _) Hr) as [n Hn].
  destruct (Forall2_lookup_l _ _ _ _ _ Hplaced Hn) as ([i b] & Hi & Hb & Ho). cbn in Hb, Ho.
  pose proof Hi as Hin. apply list_elem_of_lookup_2 in Hin. destruct (outcome_key _ _ _ Ho) as [Hk _].
  exists i. split_and!; [by apply (list_elem_of_fmap_2 fst) in Hin|done|done|]. rewrite <- Hb. unfold listed_new. split.
  - intros ([i' b'] & Heq & Hin')%list_elem_of_fmap. cbn in Heq. subst i'. apply elem_of_lfilter in Hin' as [Hin' Hb']. cbn in Hb'.
    subst b'. apply list_elem_of_lookup in Hin' as [m Hm].
    assert (m = n) as ->; [|congruence]. eapply (NoDup_lookup (c_key <$> current)); [apply current_nodup| |].
    + by rewrite !list_lookup_fmap, Hm.
    + by rewrite !list_lookup_fmap, Hi.
  - intros ->. change i with ((i, true).1). apply list_elem_of_fmap_2, elem_of_lfilter. done.
Qed.

(** *** The whole step *)
Lemma write_snapshot_eq : _load_prior_records sc db = Ok prior ->
  check_all (fun r => apply_record is_initial lookback observed (prior !! instrument_key r) r) ordered = Ok placed ->
  write_snapshot sha256_hex sc observed lookback ordered digest snapshot_id pages state db =
    if taken (catalog_change_outbox db) rows_after.*1 then Err (IntegrityError "UNIQUE constraint failed")
    else Ok (db_after, changes_after).
Proof.
  intros Hload Happly. unfold write_snapshot. cbv zeta. rewrite Hload. cbn [rbind]. rewrite Happly. cbn [rbind].
  fold missing. rewrite all_removed. cbn [rbind]. rewrite write_instruments. cbn [rbind].
  change (hint_matches sc observed current (set_instruments table_after db)) with matches. rewrite write_hints by done.
  cbn [rbind]. fold listed_added listed_updated listed_new. rewrite all_deltas. cbn [rbind]. rewrite all_confirmed. cbn [rbind].
  fold deltas_after rows_after. pose proof revision_bounds as Hrev.
  assert (Hsql : sqlite_int revision = Ok revision).
  { unfold sqlite_int. rewrite (proj2 (Z.leb_le _ _)), (proj2 (Z.leb_le _ _)) by lia. done. }
  rewrite Hsql. cbn [rbind].
  rewrite insert_changes by (apply rows_after_checks || apply rows_after_slots). cbn [catalog_change_outbox set_hints set_instruments].
  destruct (taken _ _) eqn:Et; [done|]. cbn [rbind].
  fold scope_after. unfold checked. rewrite scope_after_checks. cbn [negb raise_if rbind]. fold changes_after.
  rewrite changes_valid; [done|]. unfold taken, unique in Et. apply orb_false_iff in Et as [Et _].
  by apply negb_false_iff, bool_decide_eq_true in Et.
Qed.
End Apply.
