(* ===== verification/Concrete.v ===== *)
(** A JSON codec that satisfies the law of [JsonCodecLaws], and a digest function whose
    results have the form of SHA-256 digests: what the examples of the catalog store are
    evaluated with.  Neither is the code's own, which are libraries. *)
From stdpp Require Import countable.
From Stdlib Require Import Ascii.
From S2P Require Import Prelude PyDecimal Domain SelectionModels CatalogJson.

(** ** Trees *)
Abbreviation tree := (gen_tree (string + Z)).

Fixpoint to_tree (j : Json) : tree :=
  match j with
  | JNull => GenNode 0 []
  | JBool b => GenNode 1 [GenLeaf (inr (Z.b2z b))]
  | JInt n => GenNode 2 [GenLeaf (inr n)]
  | JStr s => GenNode 3 [GenLeaf (inl s)]
  | JList items => GenNode 4 (List.map to_tree items)
  | JDict items => GenNode 5 (List.map (fun kv => GenNode 6 [GenLeaf (inl kv.1); to_tree kv.2]) items)
  | JDecimal _ => GenNode 7 []
  end.

Fixpoint of_tree (t : tree) : option Json :=
  match t with
  | GenNode 0 [] => Some JNull
  | GenNode 1 [GenLeaf (inr b)] => Some (JBool (negb (b =? 0)))
  | GenNode 2 [GenLeaf (inr n)] => Some (JInt n)
  | GenNode 3 [GenLeaf (inl s)] => Some (JStr s)
  | GenNode 4 l =>
      JList <$> (fix all l := match l with
        | [] => Some []
        | t :: l => match of_tree t, all l with Some j, Some items => Some (j :: items) | _, _ => None end
        end) l
  | GenNode 5 l =>
      JDict <$> (fix all l := match l with
        | [] => Some []
        | GenNode 6 [GenLeaf (inl k); t] :: l =>
            match of_tree t, all l with Some j, Some items => Some ((k, j) :: items) | _, _ => None end
        | _ => None
        end) l
  | _ => None
  end.

Lemma tree_roundtrip j : plain j = true -> of_tree (to_tree j) = Some j.
Proof.
  induction j as [|b|n|d|s|items IH|items IH] using json_nested_ind; intros Hp; try done; [by destruct b| |];
    cbn in *; [|apply andb_true_iff in Hp as [_ Hp]]; rewrite forallb_forall in Hp; rewrite Forall_forall in IH;
    setoid_rewrite list_elem_of_In in IH.
  - match goal with |- JList <$> ?m = _ => enough (m = Some items) as ->; [done|] end.
    induction items as [|j items IHl]; [done|]. cbn in *. rewrite (IH j), IHl by auto. done.
  - match goal with |- JDict <$> ?m = _ => enough (m = Some items) as ->; [done|] end.
    induction items as [|[k j] items IHl]; [done|]. pose proof (IH (k, j)) as Hj.
    pose proof (Hp (k, j)) as Hpj. cbn in *. rewrite Hj, IHl by auto. done.
Qed.

(** ** Bits *)
Fixpoint bits (p : BinNums.positive) : string :=
  match p with xH => "" | xO p => String "0"%char (bits p) | xI p => String "1"%char (bits p) end.
Fixpoint of_bits (s : string) : BinNums.positive :=
  match s with
  | EmptyString => xH
  | String c s => if bool_decide (c = "0"%char) then xO (of_bits s) else xI (of_bits s)
  end.
Lemma bits_roundtrip p : of_bits (bits p) = p.
Proof. induction p as [p IH|p IH|]; cbn; by rewrite ?IH. Qed.

Definition example_codec : JsonCodec := {|
  encode_json j := bits (encode (to_tree j));
  decode_json s :=
    match decode (of_bits s) ≫= of_tree with Some j => Ok j | None => Err (ValueError "invalid JSON") end |}.

Lemma example_codec_laws : JsonCodecLaws (H := example_codec).
Proof. split. intros j Hj. cbn. rewrite bits_roundtrip, countable.decode_encode. cbn. by rewrite tree_roundtrip. Qed.

(** ** Digests *)
Definition hex_digit (n : Z) : ascii := ascii_of_nat (Z.to_nat (if n <? 10 then 48 + n else 87 + n)).
Fixpoint hex (digits : nat) (n : Z) : string :=
  match digits with O => "" | S d => String (hex_digit (n mod 16)) (hex d (n / 16)) end.
Definition checksum (s : string) : Z :=
  foldl (fun h c => Z.land (h * 1099511628211 + Z.of_nat (nat_of_ascii c) + 1) 18446744073709551615) 14695981039346656037
    (String.list_ascii_of_string s).
Definition example_digest (s : string) : string := hex 64 (checksum s).

Lemma lower_hex_digit n : 0 <= n < 16 -> lower_hex (hex_digit n) = true.
Proof.
  intros H. assert (Hall : forallb (fun n => lower_hex (hex_digit n)) (seqZ 0 16) = true) by (vm_compute; done).
  rewrite forallb_forall in Hall. apply Hall, list_elem_of_In, elem_of_seqZ. lia.
Qed.

Lemma hex_ok d n : String.length (hex d n) = d /\ forallb lower_hex (String.list_ascii_of_string (hex d n)) = true.
Proof.
  revert n. induction d as [|d IH]; intros n; [done|]. destruct (IH (n / 16)) as [Hl Hf]. cbn [hex String.length
    String.list_ascii_of_string forallb]. rewrite Hl, Hf, lower_hex_digit; [done|]. apply Z.mod_pos_bound. lia.
Qed.

Lemma example_digest_ok s : config_sha256_ok (example_digest s) = true.
Proof. unfold config_sha256_ok, example_digest. destruct (hex_ok 64 (checksum s)) as [-> ->]. done. Qed.

(** ** The round trip of a payload *)
Definition ex_payload : Json :=
  JDict [("since", JInt (-7)); ("fees", JList [JDecimal (Dec 10 (-2)); JBool true; JNull]); ("name", JStr "a")].

Lemma typed_json_roundtrip_witness :
  _decode_typed_json (H := example_codec) (_encode_typed_json (H := example_codec) ex_payload) = Ok (sorted_json ex_payload) /\
  json_eqb ex_payload (sorted_json ex_payload) = true.
Proof.
  apply (typed_json_roundtrip (H := example_codec) (H0 := example_codec_laws) ex_payload).
  vm_compute. reflexivity.
Defined.
