(* ===== verification/CatalogRuns.v ===== *)
(** What the operations of the catalog store do to its tables, from any state that
    satisfies the invariant; the states they reach; and that every catalog in a reachable
    state can be loaded. *)
From S2P Require Import Prelude PyDecimal Domain StorageModels SelectionModels Selector SelectorFacts PyText CatalogJson.
From S2P Require Import CatalogRows CatalogListing CatalogFacts ListingFacts CatalogStore CatalogTables StateStore.
From S2P Require Import CatalogApply Concrete.

Section Runs.
Context `{JsonCodecLaws} (sha256_hex : string -> string) (Hsha : forall s, config_sha256_ok (sha256_hex s) = true).

(** ** Catalog snapshots *)
(** A snapshot that its constructors accept, with lifecycles that are objects. *)
Record snapshot_made (S : CompleteCatalogSnapshot) : Prop := {
  ss_valid : catalog_snapshot_validate S = Ok S;
  ss_pages : forall p, p ∈ cs_pages S -> page_validate p = Ok p;
  ss_records : forall r, r ∈ cs_instruments S -> record_ok r /\ json_wf (lifecycle r) = true /\ dict_json (lifecycle r) = true
}.
(** The times are those of the exchange. *)
Definition official_times (S : CompleteCatalogSnapshot) : Prop :=
  forall r, r ∈ cs_instruments S -> tradable_at_source r <> Some FIRST_TRADABLE_SEEN.
Definition snapshot_ok (S : CompleteCatalogSnapshot) : Prop := snapshot_made S /\ official_times S.

Lemma snapshot_instruments_inv s keys l : snapshot_instruments s keys l = Ok tt ->
  NoDup (instrument_key <$> l) /\ (forall r, r ∈ l -> SelectionModels.scope r = s /\ turnover r = None /\ instrument_key r ∉ keys).
Proof.
  revert keys. induction l as [|r l IH]; intros keys Hl.
  { split; [constructor|]. intros r Hr. by apply elem_of_nil in Hr. }
  cbn in Hl. inv_ok. apply IH in Hl as [Hnd Hr]. bool_prop. rewrite fmap_cons. split.
  - apply NoDup_cons. split; [|done]. intros (r' & Heq & Hin)%list_elem_of_fmap. destruct (Hr r' Hin) as (_ & _ & Hx).
    rewrite <- Heq in Hx. apply Hx. left.
  - intros r' [->|Hin]%elem_of_cons.
    + split_and!; [done| |done]. by destruct (turnover r).
    + destruct (Hr r' Hin) as (? & ? & Hx). split_and!; [done|done|]. intros Hk. apply Hx. by right.
Qed.

Record snapshot_facts (S : CompleteCatalogSnapshot) : Prop := {
  sf_observed : 0 <= cs_observed_at_ns S <= MAX_INT64;
  sf_id : nonempty (cs_snapshot_id S) = true;
  sf_pages : good_names (raw_reference <$> cs_pages S) /\ raw_reference <$> cs_pages S <> [];
  sf_keys : NoDup (instrument_key <$> cs_instruments S);
  sf_records : forall r, r ∈ cs_instruments S -> record_here (cs_scope S) r
}.

Lemma pages_facts pages l : _complete_snapshot_pages pages = Ok l -> (forall p, p ∈ pages -> page_validate p = Ok p) ->
  good_names (raw_reference <$> pages) /\ raw_reference <$> pages <> [].
Proof.
  intros Hp Hv. unfold _complete_snapshot_pages in Hp. destruct (head pages) as [p|] eqn:Eh; [|done].
  destruct (last pages); [|done]. inv_ok. bool_prop. unfold unique in *. bool_prop. split; [split; [done|]|].
  - apply Forall_forall. intros ref (q & -> & Hq)%list_elem_of_fmap. specialize (Hv q Hq). unfold page_validate in Hv. inv_ok.
    by match goal with H : _nonempty_string (raw_reference q) _ = Ok _ |- _ => apply nonempty_spec in H as [_ H] end.
  - destruct l; [done|]. by rewrite fmap_cons.
Qed.

Lemma snapshot_has S : snapshot_ok S -> snapshot_facts S.
Proof.
  intros [[Hv Hp Hr] Ht]. unfold catalog_snapshot_validate in Hv. cbv zeta in Hv. inv_ok.
  repeat match goal with
  | H : _nonempty_string _ _ = Ok _ |- _ => apply nonempty_spec in H as [-> H]
  | H : _nonnegative_int _ _ = Ok _ |- _ => apply nonnegative_spec in H as [-> H]
  | H : _complete_snapshot_pages _ = Ok _ |- _ => apply pages_facts in H; [|done]
  | x : () |- _ => destruct x
  | H : snapshot_instruments _ _ _ = Ok _ |- _ => apply snapshot_instruments_inv in H as [? ?]
  end. constructor; try done.
  intros r Hin. destruct (Hr r Hin) as (Hok & Hwf & Hd). match goal with H : forall r, _ -> SelectionModels.scope r = _ /\ _ |- _ => destruct (H r Hin) as (Hs & Hn & _) end.
  constructor; try done. constructor; [by apply record_ok_spec|by apply Ht|by rewrite Hn].
Qed.

Lemma check_records_ok s t seen l : NoDup (instrument_key <$> l) -> (forall r, r ∈ l -> instrument_key r ∉ seen) ->
  (forall r, r ∈ l -> record_here s r) -> check_records s t seen l = Ok tt.
Proof.
  revert seen. induction l as [|r l IH]; intros seen Hnd Hs Hr; [done|]. rewrite fmap_cons in Hnd. apply NoDup_cons in Hnd as [Hn Hnd].
  destruct (Hr r ltac:(left)) as [[_ Hsrc _] Ht Hsc _ _]. cbn [check_records].
  rewrite bool_decide_eq_true_2 by done. rewrite bool_decide_eq_false_2 by done. rewrite Ht. cbn [negb raise_if mbind option_bind].
  rewrite bool_decide_eq_false_2 by (apply Hs; left). cbn [raise_if]. apply IH; [done| |intros q Hq; apply Hr; by right].
  intros q Hq [Heq|Hin]%elem_of_cons; [|by apply (Hs q); [by right|]]. apply Hn. rewrite <- Heq. by apply list_elem_of_fmap_2.
Qed.

(** What a newer snapshot does.  [prior] has the instruments of the scope that are stored, and
    [current] those of the snapshot as the listing state machine makes them.  The report has
    the added, updated, removed and new instruments and the confirmed announcements, and the
    deltas are exactly these, in the order of their kinds and keys. *)
Definition initial (db : Db) (S : CompleteCatalogSnapshot) : bool := negb (present (catalog_scope_state db !! cs_scope S)).
Definition listed (S : CompleteCatalogSnapshot) : list InstrumentRecord := by_key instrument_key (cs_instruments S).
Definition confirmed_delta (sc : CatalogScope) (observed : Z) (id : string) (row : HintRow) (r : InstrumentRecord) : CatalogDelta := {|
  d_kind := "announcement_confirmed"; d_instrument_key := instrument_key r; d_previous := Some (Hint (hint_of sc id row));
  d_current := Hint (hint_of sc id (set_confirmed observed row)) |}.
Definition each_once (l : list CatalogInstrument) : Prop := in_order c_key l /\ NoDup (c_key <$> l).
Record planned (db : Db) (S : CompleteCatalogSnapshot) (lookback : Z) (prior : gmap string CatalogInstrument)
    (current : list CatalogInstrument) (changes : CatalogChanges) : Prop := {
  pl_prior : prior_of (cs_scope S) (catalog_instrument db) prior;
  pl_current : Forall2 (fun r i => outcome (cs_observed_at_ns S) (initial db S) lookback (prior !! instrument_key r) r i) (listed S) current;
  pl_header : cc_scope changes = cs_scope S /\ cc_observed_at_ns changes = cs_observed_at_ns S /\
    is_initial_baseline changes = initial db S /\ cc_idempotent changes = false /\
    cc_revision changes = match catalog_scope_state db !! cs_scope S with None => 1 | Some s => row_revision s + 1 end /\
    cc_digest_sha256 changes = Some (_complete_catalog_digest sha256_hex S lookback);
  pl_added : forall i, i ∈ added changes <-> i ∈ current /\ forall o, prior !! c_key i = Some o -> is_present o = false;
  pl_updated : forall i, i ∈ updated changes <-> i ∈ current /\
    exists o, prior !! c_key i = Some o /\ is_present o = true /\ same_provider_fields o i = false;
  pl_removed : forall i, i ∈ removed changes <-> exists o, prior !! c_key i = Some o /\ is_present o = true /\
    c_key i ∉ instrument_key <$> cs_instruments S /\ i = set_presence false o;
  pl_new : forall i, i ∈ new_listings changes <-> i ∈ current /\ exists r, r ∈ cs_instruments S /\ instrument_key r = c_key i /\
    opens (initial db S) lookback (cs_observed_at_ns S) (prior !! c_key i) r = true;
  pl_once : each_once (added changes) /\ each_once (updated changes) /\ each_once (removed changes) /\ each_once (new_listings changes);
  pl_deltas : exists confirmations, cc_deltas changes =
      (instrument_delta "added" prior <$> added changes) ++ (instrument_delta "updated" prior <$> updated changes)
      ++ (instrument_delta "removed" prior <$> removed changes) ++ (instrument_delta "new_listing" prior <$> new_listings changes)
      ++ confirmations /\
    confirmed_announcement_hints changes = current_hints confirmations /\
    in_order identity_key confirmations /\ NoDup (identity_key <$> confirmations) /\
    forall d, d ∈ confirmations <-> exists id row r, catalog_announcement_hint db !! (cs_scope S, id) = Some row /\
      confirms (cs_instruments S) (cs_observed_at_ns S) row r /\ d = confirmed_delta (cs_scope S) (cs_observed_at_ns S) id row r;
  pl_events : control_event_ids changes = (change_rows sha256_hex (cs_scope S) (cc_revision changes) (cc_deltas changes)).*1
}.

(** The tables after it. *)
Record stored_as (db : Db) (S : CompleteCatalogSnapshot) (lookback : Z) (current : list CatalogInstrument) (changes : CatalogChanges)
    (db' : Db) : Prop := {
  st_inv : Inv db' /\ outbox_ok db';
  st_scope : catalog_scope_state db' = <[cs_scope S := catalog_scope_row (catalog_scope_state db !! cs_scope S)
    (cs_observed_at_ns S) (_complete_catalog_digest sha256_hex S lookback) (cc_revision changes) (cs_snapshot_id S)
    (raw_reference <$> cs_pages S)]> (catalog_scope_state db);
  st_current : forall i, i ∈ current -> catalog_instrument db' !! (cs_scope S, c_key i) = Some (row_for i);
  (** An instrument that is not listed any more keeps its row, marked missing. *)
  st_missing : forall k, k ∉ instrument_key <$> cs_instruments S ->
    catalog_instrument db' !! (cs_scope S, k)
    = (fun r => set_row_present false (turnover_columns r) r) <$> catalog_instrument db !! (cs_scope S, k);
  st_others : forall s k, s <> cs_scope S -> catalog_instrument db' !! (s, k) = catalog_instrument db !! (s, k);
  st_hints : forall s id row, catalog_announcement_hint db' !! (s, id) = Some row <->
    (exists old r, s = cs_scope S /\ catalog_announcement_hint db !! (s, id) = Some old /\
       confirms (cs_instruments S) (cs_observed_at_ns S) old r /\ row = set_confirmed (cs_observed_at_ns S) old)
    \/ (catalog_announcement_hint db !! (s, id) = Some row /\
        (s = cs_scope S -> forall r, ~ confirms (cs_instruments S) (cs_observed_at_ns S) row r));
  (** Every delta is in the outbox. *)
  st_outbox : catalog_change_outbox db' = foldl (fun t er => <[er.1 := er.2]> t) (catalog_change_outbox db)
    (change_rows sha256_hex (cs_scope S) (cc_revision changes) (cc_deltas changes));
  st_selections : selection_state db' = selection_state db /\ selection_change_outbox db' = selection_change_outbox db
}.
Definition applied (db : Db) (S : CompleteCatalogSnapshot) (lookback : Z) (db' : Db) (changes : CatalogChanges) : Prop :=
  exists prior current, planned db S lookback prior current changes /\ stored_as db S lookback current changes db'.

(** A snapshot is written, unless an identity of an event is in use. *)
Definition written (db : Db) (S : CompleteCatalogSnapshot) (lookback : Z) (db' : Db) (out : result CatalogChanges) : Prop :=
  exists prior current changes, planned db S lookback prior current changes /\
    if taken (catalog_change_outbox db) (control_event_ids changes)
    then out = Err (IntegrityError "UNIQUE constraint failed") /\ db' = db
    else out = Ok changes /\ stored_as db S lookback current changes db'.

Lemma by_key_elem {A} (f : A -> string) l x : x ∈ by_key f l <-> x ∈ l.
Proof. apply elem_of_py_sorted. Qed.
Lemma announced_mono l l' row r : (forall x, x ∈ l <-> x ∈ l') -> announced l row r -> announced l' row r.
Proof.
  intros Hl (Hr & Ht & Hm). split_and!; [by apply Hl|done|]. destruct (row_candidate_key row); [done|].
  destruct (row_candidate_pair row); [|done]. destruct Hm as [Hp Hall]. split; [done|]. intros r' Hr'. apply Hall. by apply Hl.
Qed.
Lemma confirms_by_key l observed row r : confirms (by_key instrument_key l) observed row r <-> confirms l observed row r.
Proof.
  unfold confirms. split; intros (? & ? & Hr); split_and!; try done; eapply announced_mono; try exact Hr; intros x; by rewrite by_key_elem.
Qed.

Section Written.
Context (db : Db) (S : CompleteCatalogSnapshot) (lookback : Z) (HI : Inv db) (Houtbox : outbox_ok db) (HS : snapshot_ok S).
Context (Hnewer : forall s, catalog_scope_state db !! cs_scope S = Some s -> last_observed_at_ns s < cs_observed_at_ns S).
Context (Hrevision : forall s, catalog_scope_state db !! cs_scope S = Some s -> row_revision s < MAX_INT64).
Context (prior : gmap string CatalogInstrument) (Hprior : prior_of (cs_scope S) (catalog_instrument db) prior).
Local Abbreviation sc := (cs_scope S).
Local Abbreviation observed := (cs_observed_at_ns S).
Local Abbreviation state := (catalog_scope_state db !! cs_scope S).
Local Abbreviation digest := (_complete_catalog_digest sha256_hex S lookback).
Context (placed : list (CatalogInstrument * bool)) (Hplaced : Forall2 (placed_as observed lookback state prior) (listed S) placed).
Local Abbreviation db_now := (db_after sc observed db state prior placed sha256_hex digest (cs_snapshot_id S) (raw_reference <$> cs_pages S)).
Local Abbreviation changes_now := (changes_after sc observed db state prior placed sha256_hex digest).

Lemma listed_records r : r ∈ listed S -> record_here sc r.
Proof. intros Hr. apply (sf_records _ (snapshot_has S HS)). by apply by_key_elem in Hr. Qed.
Lemma listed_nodup : NoDup (instrument_key <$> listed S).
Proof. unfold listed, by_key. rewrite py_sorted_perm. apply snapshot_has, HS. Qed.
Lemma listed_order : in_order instrument_key (listed S).
Proof. apply in_order_by_key. Qed.
Lemma listed_keys k : k ∈ instrument_key <$> listed S <-> k ∈ instrument_key <$> cs_instruments S.
Proof. unfold listed, by_key. by rewrite py_sorted_perm. Qed.
Lemma listed_observed : 0 <= observed <= MAX_INT64.
Proof. apply snapshot_has, HS. Qed.
Local Hint Resolve HI Hnewer Hrevision Hprior Hplaced listed_records listed_nodup listed_order : now.

Lemma planned_new i : i ∈ listed_new placed <-> i ∈ placed.*1 /\ exists r, r ∈ cs_instruments S /\ instrument_key r = c_key i /\
  opens (negb (present state)) lookback observed (prior !! c_key i) r = true.
Proof.
  assert (Hof : forall r, r ∈ listed S -> exists i, i ∈ placed.*1 /\ c_key i = instrument_key r /\
    (i ∈ listed_new placed <-> opens (negb (present state)) lookback observed (prior !! instrument_key r) r = true)).
  { intros r Hr. destruct (placed_record _ _ _ _ listed_nodup _ _ Hplaced r Hr) as (j & Hj & Hk & _ & Hn). by exists j. }
  assert (Hcur : NoDup (c_key <$> placed.*1)) by (eapply current_nodup; [apply listed_nodup|done]). split.
  - intros Hi. pose proof (new_current _ _ Hi) as Hin. split; [done|].
    assert (Hk : c_key i ∈ instrument_key <$> listed S) by (erewrite <- current_keys by exact Hplaced; by apply list_elem_of_fmap_2).
    apply list_elem_of_fmap in Hk as (r & Hk & Hr). destruct (Hof r Hr) as (j & Hj & Hkj & Hn).
    assert (j = i) as -> by (eapply (keyed_inj c_key); [exact Hcur|done|done|congruence]). exists r.
    split_and!; [by apply by_key_elem in Hr|done|]. rewrite Hk. by apply Hn.
  - intros (Hi & r & Hr & Hk & Ho). destruct (Hof r) as (j & Hj & Hkj & Hn); [by apply by_key_elem|].
    assert (j = i) as -> by (eapply (keyed_inj c_key); [exact Hcur|done|done|congruence]). apply Hn. by rewrite Hk.
Qed.

Lemma planned_once : each_once (listed_added prior placed) /\ each_once (listed_updated prior placed) /\
  each_once (gone <$> missing prior placed) /\ each_once (listed_new placed).
Proof.
  assert (Hcur : in_order c_key placed.*1 /\ NoDup (c_key <$> placed.*1)).
  { split; [eapply current_order|eapply current_nodup]; eauto with now. }
  destruct Hcur as [Ho Hn]. split_and!; split.
  1, 3: by apply in_order_filter.
  1, 2: by apply NoDup_filter_keys.
  - by apply (missing_order sc observed db listed_observed).
  - rewrite (missing_keys sc observed db listed_observed) by done. apply missing_nodup.
  - eapply new_order; eauto with now.
  - eapply new_order; eauto with now.
Qed.

Lemma planned_now : planned db S lookback prior placed.*1 changes_now.
Proof.
  destruct planned_once as (O1 & O2 & O3 & O4).
  constructor; cbn [changes_after cc_scope cc_observed_at_ns is_initial_baseline cc_idempotent cc_revision cc_digest_sha256
    SelectionModels.added SelectionModels.updated SelectionModels.removed SelectionModels.new_listings control_event_ids cc_deltas
    confirmed_announcement_hints].
  - exact Hprior.
  - apply Forall2_fmap_r. eapply Forall2_impl; [exact Hplaced|]. by intros r p [_ Ho].
  - done.
  - intros i. unfold listed_added. rewrite elem_of_lfilter. apply and_iff_compat_l.
    destruct (prior !! c_key i) as [o|]; [|done]. rewrite negb_true_iff. split; [by intros Ho ? [= <-]|by intros Ho; apply Ho].
  - intros i. unfold listed_updated. rewrite elem_of_lfilter. apply and_iff_compat_l.
    destruct (prior !! c_key i) as [o|]; [|split; [done|by intros (? & ? & _)]]. rewrite andb_true_iff, negb_true_iff.
    split; [by intros []; exists o|by intros (? & [= <-] & ?)].
  - intros i. rewrite list_elem_of_fmap. setoid_rewrite <- listed_keys. rewrite <- (current_keys _ _ _ _ _ _ Hplaced). split.
    + intros ([k o] & -> & (Ho & Hp & Hk)%(elem_of_missing observed listed_observed)). exists o. destruct (Hprior k) as [_ Hh].
      assert (c_key (gone (k, o)) = k) as -> by by destruct (Hh o Ho). done.
    + intros (o & Ho & Hp & Hk & ->). exists (c_key o, o). split; [done|]. by apply (elem_of_missing observed listed_observed).
  - exact planned_new.
  - done.
  - exists (confirmation sc observed <$> hint_matches sc observed placed.*1 db). unfold deltas_after, listed_deltas.
    rewrite !fmap_app, <- !list_fmap_compose, <- !app_assoc. split; [done|]. split; [done|].
    rewrite !list_fmap_compose. destruct (confirmations_order sc observed db placed) as [C1 C2].
    split; [exact C1|]. split; [exact C2|]. intros d. rewrite list_elem_of_fmap. split.
    + intros ([[id row] t] & -> & Hm). apply (matches_spec _ _ lookback _ state (listed S) listed_records listed_nodup prior) in Hm as (Hrow & r & Hr & ->); [|done].
      exists id, row, r. split_and!; [done|by apply confirms_by_key|done].
    + intros (id & row & r & Hrow & Hr & ->). exists ((id, row), instrument_key r). split; [done|].
      apply (matches_spec _ _ lookback _ state (listed S) listed_records listed_nodup prior); [done|]. split; [done|]. exists r.
      by split; [apply confirms_by_key|].
  - done.
Qed.

Lemma outbox_now : outbox_ok db_now.
Proof.
  split.
  - intros id row. cbn [db_after set_scopes set_changes catalog_change_outbox catalog_scope_state]. intros Hrow.
    assert (Hin : catalog_change_outbox db !! id = Some row \/ (o_scope row = sc /\ o_catalog_revision row = cc_revision changes_now)).
    { revert Hrow. unfold outbox_after. assert (Hnew : forall er, er ∈ rows_after sc observed db state prior placed sha256_hex ->
        o_scope er.2 = sc /\ o_catalog_revision er.2 = cc_revision changes_now) by (by intros er (n & d & -> & _)%elem_of_lookup_imap).
      revert Hnew. generalize (rows_after sc observed db state prior placed sha256_hex), (catalog_change_outbox db).
      induction l as [|er l IH]; intros t Hnew Hrow; [by left|]. cbn in Hrow. destruct (IH _ ltac:(intros e He; apply Hnew; by right) Hrow) as [Ht|Ht]; [|by right].
      rewrite lookup_insert in Ht. case_decide; [|by left]. injection Ht as <-. right. apply Hnew. left. }
    destruct Hin as [Hin|[-> ->]]; [|by rewrite lookup_insert_eq; eexists].
    destruct (proj1 Houtbox _ _ Hin) as (s & Hs & Hle). rewrite lookup_insert. case_decide as Heq; [|by exists s].
    eexists. split; [done|]. cbn. rewrite <- Heq in Hs. rewrite Hs. lia.
  - exact (proj2 Houtbox).
Qed.

Lemma stored_now : stored_as db S lookback placed.*1 changes_now db_now.
Proof.
  destruct (snapshot_has S HS) as [Hobs Hid Hpages Hkeys Hrec].
  assert (Hdig : config_sha256_ok digest = true) by apply Hsha.
  assert (Hcur : c_key <$> placed.*1 = instrument_key <$> listed S) by (eapply current_keys; done).
  constructor; cbn [db_after set_scopes set_changes set_hints set_instruments catalog_scope_state catalog_instrument
    catalog_announcement_hint catalog_change_outbox selection_state selection_change_outbox].
  - split; [apply (Inv_after sc observed lookback db state (listed S)); eauto with now|apply outbox_now].
  - done.
  - intros i Hi. eapply after_current; [apply listed_nodup|done|done].
  - intros k Hk. assert (Hk' : k ∉ c_key <$> placed.*1) by by rewrite Hcur, listed_keys.
    etransitivity; [eapply after_other; done|]. destruct (Hprior k) as [Hpk _]. rewrite Hpk. by destruct (prior !! k).
  - intros s k Hs. by eapply after_scope.
  - intros s id row. rewrite (hints_after_lookup sc observed lookback db state (listed S) listed_records listed_nodup prior placed Hplaced).
    setoid_rewrite confirms_by_key. split; (intros [(old & r & -> & Hh)|Hh]; [left; by exists old, r|by right]).
  - done.
  - done.
Qed.

Lemma write_snapshot_written : _load_prior_records sc db = Ok prior ->
  check_all (fun r => apply_record (negb (present state)) lookback observed (prior !! instrument_key r) r) (listed S) = Ok placed ->
  let '(db', out) := transaction (write_snapshot sha256_hex sc observed lookback (listed S) digest (cs_snapshot_id S)
    (raw_reference <$> cs_pages S) state) db in written db S lookback db' out.
Proof.
  intros Hload Happly. destruct (snapshot_has S HS) as [Hobs Hid Hpages Hkeys Hrec].
  assert (Hdig : config_sha256_ok digest = true) by apply Hsha. unfold transaction.
  rewrite (write_snapshot_eq sc observed lookback db state (listed S) HI eq_refl Hobs Hnewer Hrevision listed_records listed_nodup
    listed_order prior Hprior placed Hplaced sha256_hex Hsha _ _ _ Houtbox Hdig Hid Hpages Hload Happly).
  destruct (taken _ _) eqn:Et; exists prior, placed.*1, changes_now; (split; [apply planned_now|]).
  - change (control_event_ids changes_now) with (rows_after sc observed db state prior placed sha256_hex).*1. by rewrite Et.
  - change (control_event_ids changes_now) with (rows_after sc observed db state prior placed sha256_hex).*1. rewrite Et.
    split; [done|]. apply stored_now.
Qed.
End Written.

Lemma write_written db S lookback : Inv db -> outbox_ok db -> snapshot_ok S ->
  (forall s, catalog_scope_state db !! cs_scope S = Some s ->
     last_observed_at_ns s < cs_observed_at_ns S /\ row_revision s < MAX_INT64) ->
  let '(db', out) := transaction (write_snapshot sha256_hex (cs_scope S) (cs_observed_at_ns S) lookback
    (by_key instrument_key (cs_instruments S)) (_complete_catalog_digest sha256_hex S lookback) (cs_snapshot_id S)
    (raw_reference <$> cs_pages S) (catalog_scope_state db !! cs_scope S)) db in written db S lookback db' out.
Proof.
  intros HI Ho HS Hn. destruct (snapshot_has S HS) as [Hobs Hid Hpages Hkeys Hrec].
  assert (Hn1 : forall s, catalog_scope_state db !! cs_scope S = Some s -> last_observed_at_ns s < cs_observed_at_ns S) by (intros s Hs; by apply Hn).
  assert (Hn2 : forall s, catalog_scope_state db !! cs_scope S = Some s -> row_revision s < MAX_INT64) by (intros s Hs; by apply Hn).
  destruct (load_prior (cs_scope S) db (inv_rows _ HI)) as (prior & Hload & Hprior).
  destruct (all_placed (cs_scope S) (cs_observed_at_ns S) lookback db _ (listed S) HI eq_refl Hobs Hn1 Hn2 (listed_records S HS) prior Hprior)
    as (placed & Happly & Hplaced).
  by apply (write_snapshot_written db S lookback HI Ho HS Hn1 Hn2 prior Hprior placed Hplaced).
Qed.

Lemma unchanged_valid sc observed s : scope_holds s -> 0 <= observed <= MAX_INT64 ->
  changes_validate (unchanged sc observed s) = Ok (unchanged sc observed s).
Proof.
  intros [_ Hr Hd _ _ _] Hobs. unfold changes_validate, unchanged.
  cbn -[_nonnegative_int _positive_int _sha256_digest MAX_INT64].
  rewrite (proj2 (nonnegative_spec observed _ observed)) by done. cbn [rbind].
  assert (Hpos : _positive_int (row_revision s) "revision" = Ok (row_revision s)).
  { unfold _positive_int. rewrite (proj2 (nonnegative_spec (row_revision s) _ (row_revision s))) by (split; [done|lia]).
    cbn [rbind]. by rewrite (proj2 (Z.eqb_neq _ _)) by lia. }
  rewrite Hpos. cbn [rbind]. rewrite digest_checked by done. done.
Qed.

(** [apply_catalog_snapshot] is decided by the observation time and the digest of the
    last snapshot of the scope. *)
Lemma apply_snapshot_spec db S lookback : Inv db -> outbox_ok db -> snapshot_ok S -> 0 <= lookback <= MAX_INT64 ->
  (forall s, catalog_scope_state db !! cs_scope S = Some s -> row_revision s < MAX_INT64) ->
  let '(db', out) := apply_catalog_snapshot sha256_hex S lookback db in
  match catalog_scope_state db !! cs_scope S with
  | None => written db S lookback db' out
  | Some s =>
      if cs_observed_at_ns S <? last_observed_at_ns s then
        db' = db /\ out = Err (StaleCatalogSnapshotError "catalog snapshot observed_at_ns moved backwards")
      else if cs_observed_at_ns S =? last_observed_at_ns s then
        db' = db /\
        out = if String.eqb (_complete_catalog_digest sha256_hex S lookback) (snapshot_digest s)
              then Ok (unchanged (cs_scope S) (cs_observed_at_ns S) s)
              else Err (CatalogSnapshotConflictError "same-time catalog snapshot has conflicting contents")
      else written db S lookback db' out
  end.
Proof.
  intros HI Hout HS Hl Hmax. pose proof (snapshot_has S HS) as [Hobs Hid Hpages Hkeys Hrec].
  unfold apply_catalog_snapshot, mbind, mlift. rewrite (proj2 (nonnegative_spec lookback _ lookback)) by done.
  unfold _apply_snapshot. rewrite (proj2 (nonnegative_spec (cs_observed_at_ns S) _ (cs_observed_at_ns S))) by done. cbn [rbind].
  rewrite (proj2 (nonnegative_spec lookback _ lookback)) by done. cbn [rbind].
  rewrite (check_records_ok (cs_scope S)); [|done|intros r _ Hx; by apply elem_of_nil in Hx|done]. cbn [rbind]. cbv zeta.
  pose proof (write_written db S lookback HI Hout HS) as Hwrite.
  unfold transaction at 1. destruct (catalog_scope_state db !! cs_scope S) as [s|] eqn:Es.
  - pose proof (inv_scopes _ HI (cs_scope S)) as Hsc. rewrite Es in Hsc. destruct Hsc as [Hs _].
    rewrite (sh_complete _ Hs). cbn [negb raise_if].
    destruct (Z.ltb_spec (cs_observed_at_ns S) (last_observed_at_ns s)); cbn [raise_if]; [done|].
    destruct (Z.eqb_spec (cs_observed_at_ns S) (last_observed_at_ns s)).
    + destruct (String.eqb _ (snapshot_digest s)); cbn [negb raise_if]; [|done]. by rewrite unchanged_valid.
    + unfold transaction in Hwrite. apply Hwrite. intros ? [= <-]. split; [lia|by apply Hmax].
  - unfold transaction in Hwrite. by apply Hwrite.
Qed.

(** What an applied snapshot leaves of the scope. *)
Lemma applied_facts db S lookback db' changes : applied db S lookback db' changes ->
  Inv db' /\ outbox_ok db' /\ selection_state db' = selection_state db /\ cc_idempotent changes = false /\
  exists row, catalog_scope_state db' !! cs_scope S = Some row /\
    row_revision row = match catalog_scope_state db !! cs_scope S with None => 1 | Some s => row_revision s + 1 end /\
    last_observed_at_ns row = cs_observed_at_ns S /\ snapshot_digest row = _complete_catalog_digest sha256_hex S lookback /\
    cc_revision changes = row_revision row /\ cc_digest_sha256 changes = Some (snapshot_digest row).
Proof.
  intros (prior & current & HP & HS). destruct (pl_header _ _ _ _ _ _ HP) as (_ & _ & _ & Hid & Hr & Hd).
  destruct (st_inv _ _ _ _ _ _ HS). destruct (st_selections _ _ _ _ _ _ HS). split_and!; try done.
  rewrite (st_scope _ _ _ _ _ _ HS), lookup_insert_eq. eexists. split; [done|]. by split_and!.
Qed.

(** ** Turnover snapshots *)
Record turnover_snapshot_ok (S : CompleteTurnoverSnapshot) : Prop := {
  to_valid : turnover_snapshot_validate S = Ok S;
  to_pages : forall p, p ∈ ts_pages S -> page_validate p = Ok p;
  to_observations : forall o, o ∈ observations S ->
    observation_init (ob_instrument_key o) (DDec (Finite (ob_value o))) (ob_method o) (ob_currency o) (ob_raw_reference o) = Ok o
}.
Record turnover_facts (S : CompleteTurnoverSnapshot) : Prop := {
  tf_bound : 0 < ts_catalog_revision S <= MAX_INT64;
  tf_observed : 0 <= ts_observed_at_ns S <= MAX_INT64;
  tf_id : nonempty (ts_snapshot_id S) = true;
  tf_pages : good_names (raw_reference <$> ts_pages S) /\ raw_reference <$> ts_pages S <> [];
  tf_covered : good_names (covered_instrument_keys S)
}.
Lemma turnover_snapshot_has S : turnover_snapshot_ok S -> turnover_facts S.
Proof.
  intros [Hv Hp _]. unfold turnover_snapshot_validate in Hv. cbv zeta in Hv. inv_ok.
  repeat match goal with
  | H : _nonempty_string _ _ = Ok _ |- _ => apply nonempty_spec in H as [-> H]
  | H : _nonnegative_int _ _ = Ok _ |- _ => apply nonnegative_spec in H as [-> H]
  | H : _complete_snapshot_pages _ = Ok _ |- _ => apply pages_facts in H; [|done]
  end. bool_prop. constructor; try done; [lia|].
  match goal with H : check_all _ _ = Ok ?l |- _ => rename H into Hc; rename l into covered end. apply check_all_inv in Hc.
  assert (covered = covered_instrument_keys S /\ Forall (fun k => nonempty k = true) covered) as [<- Hall].
  { clear -Hc. induction Hc as [|k k' l l' Hk HF [-> IH]]; [done|]. apply nonempty_spec in Hk as [-> Hk]. split; [done|by constructor]. }
  split; [|done]. unfold unique in *. by bool_prop.
Qed.

(** The instrument with the observation of a snapshot. *)
Definition observed_turnover (t : Z) (o : option TurnoverObservation) : option Turnover :=
  (fun o => {| to_value := ob_value o; to_method := ob_method o; to_currency := ob_currency o;
               to_observed_at_ns := Some t; to_raw_reference := Some (ob_raw_reference o) |}) <$> o.
Definition reobserved (t : Z) (o : option TurnoverObservation) (i : CatalogInstrument) : CatalogInstrument :=
  with_record (set_turnover (observed_turnover t o) (inst i)) i.

Lemma reobserved_row t o i : set_row_present (is_present i) (observation_columns t o) (row_for i) = row_for (reobserved t o i).
Proof. unfold row_for, instrument_row. cbn. by destruct o. Qed.

Lemma observation_facts k v m c r o : observation_init k (DDec (Finite v)) m c r = Ok o ->
  dltb v dzero = false /\ nonempty c = true /\ nonempty r = true.
Proof.
  intros Ho. unfold observation_init, turnover_init in Ho. cbv zeta in Ho. inv_ok.
  repeat match goal with H : _nonempty_string _ _ = Ok _ |- _ => apply nonempty_spec in H as [-> H] end. done.
Qed.

Lemma wf_record r i : lifecycle_phase r = lifecycle_phase (inst i) -> tradable r = tradable (inst i) ->
  well_formed i -> well_formed (with_record r i).
Proof. intros Hp Ht []. constructor; cbn; rewrite ?Hp, ?Ht; done. Qed.

Lemma reobserved_holds sc k t o i : 0 <= t <= MAX_INT64 -> (forall x, o = Some x ->
    observation_init (ob_instrument_key x) (DDec (Finite (ob_value x))) (ob_method x) (ob_currency x) (ob_raw_reference x) = Ok x /\
    ob_currency x = quote_asset (inst i)) ->
  holds sc k i -> holds sc k (reobserved t o i).
Proof.
  intros Ht Ho [Hm ? ? ? ? ?]. constructor; try done. apply made_spec in Hm as ([R1 R2 R3 R4 R5] & W & _). apply made_spec.
  split_and!; [constructor; try done|by apply wf_record|].
  - unfold quoted_in. cbn. intros u Hu. destruct o as [x|]; [|done]. injection Hu as <-. cbn. by apply Ho.
  - destruct o as [x|]; [|done]. destruct (Ho x eq_refl) as [(Hv & Hc & Hr)%observation_facts _].
    unfold turnover_ok, turnover_init. cbn -[_nonempty_string _optional_nonempty_string _optional_nonnegative_int MAX_INT64].
    rewrite Hv. cbn [raise_if]. rewrite (proj2 (nonempty_spec _ _ _) (conj eq_refl Hc)). cbn [rbind].
    rewrite (proj2 (opt_nonnegative_spec (Some t) _ (Some t))) by (split; [done|by intros ? [= <-]]). cbn [rbind present eqb negb raise_if].
    by rewrite (proj2 (opt_nonempty_spec (Some (ob_raw_reference x)) _ (Some (ob_raw_reference x)))).
Qed.

(** The loop over the rows. *)
Definition reread (S : CompleteTurnoverSnapshot) (table : gmap string TurnoverObservation) (k : string) (row : InstrumentRow)
    : InstrumentRow :=
  set_row_present (r_present row) (observation_columns (ts_observed_at_ns S)
    (if bool_decide (k ∈ covered_instrument_keys S) then table !! k else None)) row.

Lemma write_turnovers_inv S table rows db db' keys : NoDup rows.*1 -> write_turnovers S table rows db = Ok (db', keys) ->
  db' = set_instruments (catalog_instrument db') db /\
  (forall s k, catalog_instrument db' !! (s, k) =
     match (if bool_decide (s = ts_scope S) then (list_to_map rows : gmap string InstrumentRow) !! k else None) with
     | Some row => Some (reread S table k row)
     | None => catalog_instrument db !! (s, k)
     end) /\
  (forall k row o, (k, row) ∈ rows -> k ∈ covered_instrument_keys S -> table !! k = Some o -> ob_currency o = r_quote_asset row).
Proof.
  revert db keys. induction rows as [|[k row] rows IH]; intros db keys Hnd Hw.
  - cbn in Hw. inv_ok. split_and!; [by destruct db'| |intros k row o Hin; by apply elem_of_nil in Hin].
    intros s k. case_bool_decide; cbn; by rewrite ?lookup_empty.
  - rewrite fmap_cons in Hnd. apply NoDup_cons in Hnd as [Hn Hnd]. cbn [write_turnovers] in Hw.
    apply rbind_ok in Hw as ([db1 changed] & H1 & Hw). apply rbind_ok in Hw as ([db2 keys2] & H2 & Hw). injection Hw as <- <-.
    destruct (IH db1 keys2 Hnd H2) as (Hdb & Hrows & Hcur). unfold write_turnover, checked in H1. cbv zeta in H1. inv_ok.
    split_and!.
    + rewrite Hdb. done.
    + intros s k'. rewrite Hrows. destruct (bool_decide_reflect (s = ts_scope S)) as [Heq|Hs]; cbn.
      * destruct (base.decide (k' = k)) as [->|Hne].
        -- rewrite (not_elem_of_list_to_map_1 rows) by done. rewrite lookup_insert_eq, Heq. by rewrite lookup_insert_eq.
        -- rewrite (lookup_insert_ne (list_to_map rows)) by done.
           destruct ((list_to_map rows : gmap string InstrumentRow) !! k'); [done|]. by rewrite lookup_insert_ne by congruence.
      * rewrite lookup_insert_ne by congruence. done.
    + intros k' row' o Hin Hk Ho. apply elem_of_cons in Hin as [[= -> ->]|Hin]; [|by eapply Hcur].
      rewrite bool_decide_eq_true_2 in * by done. rewrite Ho in *. bool_prop. by apply String.eqb_eq.
Qed.

Definition observation_table (S : CompleteTurnoverSnapshot) : gmap string TurnoverObservation :=
  foldl (fun m o => <[ob_instrument_key o := o]> m) ∅ (observations S).
Lemma observation_table_some S k o : observation_table S !! k = Some o -> o ∈ observations S.
Proof.
  unfold observation_table. assert (Hgen : forall l (m : gmap string TurnoverObservation),
    foldl (fun m o => <[ob_instrument_key o := o]> m) m l !! k = Some o -> m !! k = Some o \/ o ∈ l).
  { induction l as [|x l IH]; intros m Hm; [by left|]. cbn in Hm. apply IH in Hm as [Hm|Hm]; [|right; by right].
    rewrite lookup_insert in Hm. case_decide; [injection Hm as ->; right; left|by left]. }
  intros Hk. destruct (Hgen _ _ Hk) as [Hx|Hx]; [|done]. by rewrite lookup_empty in Hx.
Qed.

(** What a turnover snapshot leaves of each instrument of its scope. *)
Definition turned (S : CompleteTurnoverSnapshot) (k : string) (i : CatalogInstrument) : CatalogInstrument :=
  reobserved (ts_observed_at_ns S)
    (if bool_decide (k ∈ covered_instrument_keys S) then observation_table S !! k else None) i.

Section Turnover.
Context (S : CompleteTurnoverSnapshot) (db : Db) (state : ScopeRow).
Context (HI : Inv db) (HS : turnover_snapshot_ok S) (Hstate : catalog_scope_state db !! ts_scope S = Some state).
Context (Hbound : ts_catalog_revision S = row_revision state) (Htime : last_observed_at_ns state <= ts_observed_at_ns S).
Context (t' : gmap (CatalogScope * string) InstrumentRow).
Local Abbreviation t := (catalog_instrument db).
Context (Hthere : forall k, t' !! (ts_scope S, k) = reread S (observation_table S) k <$> t !! (ts_scope S, k)).
Context (Helse : forall s k, s <> ts_scope S -> t' !! (s, k) = t !! (s, k)).
Context (Hcurrency : forall k row o, t !! (ts_scope S, k) = Some row -> k ∈ covered_instrument_keys S ->
  observation_table S !! k = Some o -> ob_currency o = r_quote_asset row).
Context (Hcovered : forall k, k ∈ covered_instrument_keys S -> exists row, t !! (ts_scope S, k) = Some row /\ r_present row = true).

Lemma turned_holds k i : holds (ts_scope S) k i -> t !! (ts_scope S, k) = Some (row_for i) ->
  holds (ts_scope S) k (turned S k i) /\ t' !! (ts_scope S, k) = Some (row_for (turned S k i)).
Proof.
  intros Hi Hrow. split; [|rewrite Hthere, Hrow; cbn; f_equal; apply reobserved_row].
  apply reobserved_holds; [by destruct (turnover_snapshot_has S HS)| |done]. intros x Hx. case_bool_decide as Hk; [|done].
  split; [apply (to_observations _ HS); by apply observation_table_some in Hx|]. by rewrite (Hcurrency k _ x Hrow Hk Hx).
Qed.

Lemma turned_from k i : holds (ts_scope S) k i -> t' !! (ts_scope S, k) = Some (row_for i) ->
  exists j, holds (ts_scope S) k j /\ t !! (ts_scope S, k) = Some (row_for j) /\ i = turned S k j.
Proof.
  intros Hi Hrow. pose proof Hrow as Hr. rewrite Hthere in Hr. destruct (t !! (ts_scope S, k)) as [row|] eqn:Et; [|done].
  destruct (inv_rows _ HI _ _ _ Et) as (j & Hj & ->). exists j. split_and!; [done|done|].
  destruct (turned_holds k j Hj Et) as [Hh Hx]. apply (holds_eq (ts_scope S) k); [done|done|congruence].
Qed.

Definition turnover_now : TurnoverState := {|
  tv_observed := ts_observed_at_ns S; tv_covered := py_sorted string_leb (covered_instrument_keys S);
  tv_bound := ts_catalog_revision S |}.
Local Abbreviation row_now := (turnover_scope_row S (_turnover_snapshot_digest sha256_hex S) state).

Lemma turnover_now_holds : 0 <= row_turnover_revision state < MAX_INT64 -> turnover_holds row_now turnover_now.
Proof.
  intros Hr. destruct (turnover_snapshot_has S HS) as [F1 F2 F3 [F4 F5] [F6 F7]]. constructor; cbn -[MAX_INT64]; try done.
  - lia.
  - eexists. split; [done|]. apply Hsha.
  - by eexists.
  - eexists. split; [done|]. split; done.
  - split; [done|]. lia.
  - split; [done|]. split; by rewrite py_sorted_perm.
Qed.

Lemma turnover_inv db' : 0 <= row_turnover_revision state < MAX_INT64 -> catalog_instrument db' = t' ->
  catalog_announcement_hint db' = catalog_announcement_hint db ->
  catalog_scope_state db' = <[ts_scope S := row_now]> (catalog_scope_state db) -> Inv db'.
Proof.
  intros Hr Ht Hh Hs. pose proof (inv_scopes _ HI (ts_scope S)) as Hsc. rewrite Hstate in Hsc. destruct Hsc as [Hsh (v & _ & Hrows & _)].
  constructor; rewrite ?Ht, ?Hh, ?Hs; [| |apply HI].
  - intros s k row Hrow. destruct (base.decide (s = ts_scope S)) as [->|Hne]; [|rewrite Helse in Hrow by done; by apply (inv_rows _ HI)].
    pose proof Hrow as Hr'. rewrite Hthere in Hr'. destruct (t !! (ts_scope S, k)) as [row0|] eqn:Et; [|done].
    destruct (inv_rows _ HI _ _ _ Et) as (i & Hi & ->). destruct (turned_holds k i Hi Et) as [Hx Hy]. exists (turned S k i). split; [done|congruence].
  - intros s. destruct (base.decide (s = ts_scope S)) as [->|Hne].
    + rewrite lookup_insert_eq. split; [destruct Hsh; by constructor|]. exists (Some turnover_now). split_and!.
      * by apply turnover_now_holds.
      * intros k i Hi Hrow. destruct (turned_from k i Hi Hrow) as (j & Hj & Hjr & ->). destruct (Hrows k j Hj Hjr) as [G1 G2 G3 _].
        constructor; [exact G1|exact G2|exact G3|]. intros u Hu. exists turnover_now. split; [done|].
        unfold turned, reobserved in Hu. cbn in Hu. case_bool_decide as Hk; [|done]. split; [by apply elem_of_py_sorted|].
        destruct (observation_table S !! k); [|done]. by injection Hu as <-.
      * intros v' k [= <-] Hk. apply elem_of_py_sorted in Hk. destruct (Hcovered k Hk) as (row & Hrow & Hp).
        destruct (inv_rows _ HI _ _ _ Hrow) as (i & Hi & ->). exists (turned S k i). destruct (turned_holds k i Hi Hrow). done.
    + rewrite lookup_insert_ne by done. eapply scope_ok_ext; [|apply HI]. intros k. symmetry. by apply Helse.
Qed.
End Turnover.

Lemma coverage_here (S : CompleteTurnoverSnapshot) db :
  py_sorted string_leb (elements (list_to_set (covered_instrument_keys S) ∖
    list_to_set ((List.filter (fun kr => r_present kr.2) (rows_of (ts_scope S) (catalog_instrument db))).*1) : gset string)) = [] ->
  forall k, k ∈ covered_instrument_keys S -> exists row, catalog_instrument db !! (ts_scope S, k) = Some row /\ r_present row = true.
Proof.
  intros Hnil k Hk. assert (Hel : forall x, x ∉ (list_to_set (covered_instrument_keys S) ∖
    list_to_set ((List.filter (fun kr => r_present kr.2) (rows_of (ts_scope S) (catalog_instrument db))).*1) : gset string)).
  { intros x Hx. apply elem_of_elements in Hx. apply (elem_of_py_sorted string_leb) in Hx. rewrite Hnil in Hx. by apply elem_of_nil in Hx. }
  specialize (Hel k). rewrite elem_of_difference, !elem_of_list_to_set in Hel.
  destruct (base.decide (k ∈ (List.filter (fun kr => r_present kr.2) (rows_of (ts_scope S) (catalog_instrument db))).*1)) as [Hin|]; [|tauto].
  apply list_elem_of_fmap in Hin as ([k' row] & -> & Hin). apply elem_of_lfilter in Hin as [Hin Hp]. apply elem_of_rows in Hin. by exists row.
Qed.

Lemma turnover_revision_nonneg db s : Inv db -> catalog_scope_state db !! s <> None ->
  forall state, catalog_scope_state db !! s = Some state -> 0 <= row_turnover_revision state.
Proof.
  intros HI _ state Hs. pose proof (inv_scopes _ HI s) as Hsc. rewrite Hs in Hsc. destruct Hsc as (_ & [v|] & Hv & _); cbn in Hv.
  - destruct Hv. lia.
  - destruct Hv as [-> _]. done.
Qed.

(** What an applied turnover snapshot leaves. *)
Record turned_over (db : Db) (S : CompleteTurnoverSnapshot) (db' : Db) : Prop := {
  tn_inv : Inv db';
  tn_scope : exists s s', catalog_scope_state db !! ts_scope S = Some s /\ catalog_scope_state db' !! ts_scope S = Some s' /\
    ts_catalog_revision S = row_revision s /\ row_revision s' = row_revision s /\
    row_turnover_revision s' = row_turnover_revision s + 1 /\ turnover_last_observed_at_ns s' = Some (ts_observed_at_ns S);
  tn_rows : forall k i, holds (ts_scope S) k i -> catalog_instrument db !! (ts_scope S, k) = Some (row_for i) ->
    catalog_instrument db' !! (ts_scope S, k) = Some (row_for (turned S k i));
  tn_others : forall s k, s <> ts_scope S -> catalog_instrument db' !! (s, k) = catalog_instrument db !! (s, k);
  tn_selections : selection_state db' = selection_state db;
  tn_outbox : catalog_change_outbox db' = catalog_change_outbox db /\ selection_change_outbox db' = selection_change_outbox db /\
    forall s, s <> ts_scope S -> catalog_scope_state db' !! s = catalog_scope_state db !! s
}.

Lemma write_turnover_applied S db state db' res : Inv db -> turnover_snapshot_ok S ->
  catalog_scope_state db !! ts_scope S = Some state -> ts_catalog_revision S = row_revision state ->
  last_observed_at_ns state <= ts_observed_at_ns S ->
  write_turnover_snapshot S (_turnover_snapshot_digest sha256_hex S) state db = Ok (db', res) -> turned_over db S db'.
Proof.
  intros HI HS Hstate Hb Ht Hw. unfold write_turnover_snapshot in Hw. cbv zeta in Hw.
  apply raise_if_ok in Hw as [Hcov Hw]. apply negb_false_iff, bool_decide_eq_true in Hcov.
  apply rbind_ok in Hw as ([db1 changed] & Hrows & Hw). apply rbind_ok in Hw as (rev & Hsql & Hw).
  apply rbind_ok in Hw as (db2 & Hcheck & Hw). apply rbind_ok in Hw as (r & _ & Hw). injection Hw as <- <-.
  unfold checked in Hcheck. inv_ok. apply write_turnovers_inv in Hrows as (Hdb1 & Hlook & Hcur); [|apply NoDup_rows].
  set (sc := ts_scope S) in *. set (t := catalog_instrument db) in *.
  assert (Hl : forall k, (list_to_map (rows_of sc t) : gmap string InstrumentRow) !! k = t !! (sc, k)).
  { intros k. destruct (t !! (sc, k)) as [row|] eqn:Et.
    - apply elem_of_list_to_map_1; [apply NoDup_rows|]. by apply elem_of_rows.
    - apply not_elem_of_list_to_map_1. rewrite elem_of_rows_key, Et. by intros []. }
  assert (Hthere : forall k, catalog_instrument db1 !! (sc, k) = reread S (observation_table S) k <$> t !! (sc, k)).
  { intros k. rewrite Hlook, bool_decide_eq_true_2, Hl by done. by destruct (t !! (sc, k)) eqn:Et; cbn; rewrite ?Et. }
  assert (Helse : forall s k, s <> sc -> catalog_instrument db1 !! (s, k) = t !! (s, k)).
  { intros s k Hs. by rewrite Hlook, bool_decide_eq_false_2. }
  assert (Hcurrency : forall k row o, t !! (sc, k) = Some row -> k ∈ covered_instrument_keys S -> observation_table S !! k = Some o ->
    ob_currency o = r_quote_asset row) by (intros k row o Hrow; apply Hcur; by apply elem_of_rows).
  assert (Hr : 0 <= row_turnover_revision state < MAX_INT64).
  { split; [apply (turnover_revision_nonneg db sc HI); [by rewrite Hstate|done]|]. unfold sqlite_int in Hsql. inv_ok. bool_prop. lia. }
  constructor.
  - eapply (turnover_inv S db state HI HS Hstate Hb Ht (catalog_instrument db1)); try done;
      [by apply coverage_here|cbn; by rewrite Hdb1|cbn; by rewrite Hdb1].
  - exists state, (turnover_scope_row S (_turnover_snapshot_digest sha256_hex S) state). split_and!; try done. cbn. rewrite Hdb1. apply lookup_insert_eq.
  - intros k i Hi Hrow. cbn. eapply turned_holds; done.
  - intros s k Hs. cbn. by apply Helse.
  - cbn. by rewrite Hdb1.
  - cbn. rewrite Hdb1. split_and!; [done|done|]. intros s Hs. by rewrite lookup_insert_ne.
Qed.

(** ** Reachable states *)
(** One call on the store, by a caller that passes what the constructors made. *)
Inductive store_step (db : Db) : Db -> Prop :=
| step_catalog S lookback : snapshot_made S -> store_step db (apply_catalog_snapshot sha256_hex S lookback db).1
| step_turnover S : turnover_snapshot_ok S -> store_step db (apply_turnover_snapshot sha256_hex S db).1
| step_commit r c t e : store_step db (commit_selection sha256_hex r c t e db).1
| step_hint h : announcement_validate h = Ok tt -> store_step db (record_announcement_hint h db).1
| step_ack e : store_step db (ack_change e db).1.
Inductive store_reachable : Db -> Prop :=
| reach_empty : store_reachable empty_db
| reach_step db db' : store_reachable db -> store_step db db' -> store_reachable db'.

Lemma check_records_times s t seen l : check_records s t seen l = Ok tt ->
  forall r, r ∈ l -> tradable_at_source r <> Some FIRST_TRADABLE_SEEN.
Proof.
  revert seen. induction l as [|r l IH]; intros seen Hc r' Hr; [by apply elem_of_nil in Hr|]. cbn in Hc. inv_ok. bool_prop.
  apply elem_of_cons in Hr as [->|Hr]; [done|by eapply IH].
Qed.

Lemma write_snapshot_revision sc observed lookback ordered digest sid pages s db x :
  write_snapshot sha256_hex sc observed lookback ordered digest sid pages (Some s) db = Ok x -> row_revision s < MAX_INT64.
Proof.
  unfold write_snapshot. cbv zeta. intros Hw.
  repeat (apply rbind_ok in Hw as (? & ?Hq & Hw); match goal with
    | Hq : sqlite_int _ = Ok _ |- _ => unfold sqlite_int in Hq; inv_ok; bool_prop; lia
    | _ => idtac
    end).
Qed.

Lemma apply_again db S lookback s : Inv db -> snapshot_ok S -> 0 <= lookback <= MAX_INT64 ->
  catalog_scope_state db !! cs_scope S = Some s -> last_observed_at_ns s = cs_observed_at_ns S ->
  snapshot_digest s = _complete_catalog_digest sha256_hex S lookback ->
  apply_catalog_snapshot sha256_hex S lookback db = (db, Ok (unchanged (cs_scope S) (cs_observed_at_ns S) s)).
Proof.
  intros HI HS Hl Es Ho Hd. pose proof (snapshot_has S HS) as [Hobs Hid Hpages Hkeys Hrec].
  unfold apply_catalog_snapshot, mbind, mlift. rewrite (proj2 (nonnegative_spec lookback _ lookback)) by done.
  unfold _apply_snapshot. rewrite (proj2 (nonnegative_spec (cs_observed_at_ns S) _ (cs_observed_at_ns S))) by done. cbn [rbind].
  rewrite (proj2 (nonnegative_spec lookback _ lookback)) by done. cbn [rbind].
  rewrite (check_records_ok (cs_scope S)); [|done|intros r _ Hx; by apply elem_of_nil in Hx|done]. cbn [rbind].
  unfold transaction. rewrite Es. pose proof (inv_scopes _ HI (cs_scope S)) as Hsc. rewrite Es in Hsc. destruct Hsc as [Hs _].
  rewrite (sh_complete _ Hs), Ho. cbn [negb raise_if]. rewrite Z.ltb_irrefl, Z.eqb_refl. cbn [raise_if].
  rewrite Hd, String.eqb_refl. cbn [negb raise_if]. by rewrite unchanged_valid.
Qed.

(** A call that succeeds applies the snapshot or acknowledges it. *)
Lemma apply_catalog_inv db S lookback db1 changes : Inv db -> outbox_ok db -> snapshot_made S ->
  apply_catalog_snapshot sha256_hex S lookback db = (db1, Ok changes) ->
  snapshot_ok S /\ 0 <= lookback <= MAX_INT64 /\
  (applied db S lookback db1 changes \/ (db1 = db /\ cc_idempotent changes = true)).
Proof.
  intros HI Hout HS. unfold apply_catalog_snapshot, mbind, mlift. destruct (_nonnegative_int lookback _) as [l|e] eqn:El; [|done].
  apply nonnegative_spec in El as [-> Hl]. unfold _apply_snapshot. destruct (rbind _ _) as [[]|e] eqn:Echeck; [|done].
  apply rbind_ok in Echeck as (? & _ & Echeck). apply rbind_ok in Echeck as (? & _ & Echeck).
  apply rbind_ok in Echeck as ([] & Echeck & _).
  assert (Hok : snapshot_ok S) by (split; [done|]; intros r; by eapply check_records_times). unfold transaction. cbv zeta.
  intros Happ. split; [done|]. split; [done|]. revert Happ.
  assert (Hwrite : (forall s, catalog_scope_state db !! cs_scope S = Some s -> last_observed_at_ns s < cs_observed_at_ns S) ->
    forall db' c, write_snapshot sha256_hex (cs_scope S) (cs_observed_at_ns S) lookback
      (by_key instrument_key (cs_instruments S)) (_complete_catalog_digest sha256_hex S lookback) (cs_snapshot_id S)
      (raw_reference <$> cs_pages S) (catalog_scope_state db !! cs_scope S) db = Ok (db', c) -> applied db S lookback db' c).
  { intros Hn db' c Hw. assert (Hrev : forall s, catalog_scope_state db !! cs_scope S = Some s ->
      last_observed_at_ns s < cs_observed_at_ns S /\ row_revision s < MAX_INT64).
    { intros s Es. split; [by apply Hn|]. rewrite Es in Hw. by eapply write_snapshot_revision. }
    pose proof (write_written db S lookback HI Hout Hok Hrev) as Ha. unfold transaction in Ha. rewrite Hw in Ha.
    destruct Ha as (prior & current & c' & HP & Ha). destruct (taken _ _); [by destruct Ha|]. destruct Ha as [[= <-] Ha].
    by exists prior, current. }
  destruct (catalog_scope_state db !! cs_scope S) as [s|] eqn:Es.
  - destruct (negb (complete s)); [done|]. cbn [raise_if].
    destruct (Z.ltb_spec (cs_observed_at_ns S) (last_observed_at_ns s)); [done|]. cbn [raise_if].
    destruct (Z.eqb_spec (cs_observed_at_ns S) (last_observed_at_ns s)).
    + destruct (negb _); [done|]. cbn [raise_if]. destruct (changes_validate _) as [c|] eqn:Ec; [|done]. cbn [rbind].
      intros [= -> ->]. right. split; [done|]. unfold changes_validate in Ec. cbv zeta in Ec. inv_ok.
      cbn [unchanged cc_digest_sha256] in Ec. by inv_ok.
    + destruct (write_snapshot _ _ _ _ _ _ _ _ _ _) as [[db' c]|e] eqn:Ew; [|done]. intros [= -> ->]. left.
      eapply Hwrite; [|done]. intros ? [= <-]. lia.
  - destruct (write_snapshot _ _ _ _ _ _ _ _ _ _) as [[db' c]|e] eqn:Ew; [|done]. intros [= -> ->]. left. by eapply Hwrite.
Qed.

Lemma transaction_error {A} (body : Db -> result (Db * A)) db db' e : transaction body db = (db', Err e) -> db' = db.
Proof. unfold transaction. destruct (body db) as [[]|]; [done|]. by intros [= ->]. Qed.

Lemma apply_catalog_error db S lookback db1 e : apply_catalog_snapshot sha256_hex S lookback db = (db1, Err e) -> db1 = db.
Proof.
  unfold apply_catalog_snapshot, mbind, mlift. destruct (_nonnegative_int lookback _); [|by intros [= -> _]].
  unfold _apply_snapshot. destruct (rbind _ _); [apply transaction_error|by intros [= -> _]].
Qed.

Lemma apply_turnover_applied db S db' res : Inv db -> turnover_snapshot_ok S ->
  apply_turnover_snapshot sha256_hex S db = (db', Ok res) ->
  turned_over db S db' \/ (db' = db /\ exists s, catalog_scope_state db !! ts_scope S = Some s /\
    turnover_snapshot_digest s = Some (_turnover_snapshot_digest sha256_hex S) /\
    turnover_last_observed_at_ns s = Some (ts_observed_at_ns S)).
Proof.
  intros HI HS. unfold apply_turnover_snapshot, transaction. cbv zeta.
  destruct (catalog_scope_state db !! ts_scope S) as [s|] eqn:Es; [|done].
  destruct (Z.eqb_spec (ts_catalog_revision S) (row_revision s)) as [Hb|]; [|done]. cbn [negb raise_if].
  destruct (Z.ltb_spec (ts_observed_at_ns S) (last_observed_at_ns s)) as [|Ht]; [done|]. cbn [raise_if].
  assert (Hw : match write_turnover_snapshot S (_turnover_snapshot_digest sha256_hex S) s db with
      | Ok (db1, a) => (db1, Ok a) | Err e => (db, Err e) end = (db', Ok res) -> turned_over db S db').
  { destruct (write_turnover_snapshot _ _ _ _) as [[db1 a]|e] eqn:Ew; [|done]. intros [= -> ->]. by eapply write_turnover_applied. }
  destruct (turnover_last_observed_at_ns s) as [last|] eqn:El; [|by left; apply Hw].
  destruct (Z.ltb_spec (ts_observed_at_ns S) last); [done|]. cbn [raise_if].
  destruct (Z.eqb_spec (ts_observed_at_ns S) last) as [Heq|]; [|by left; apply Hw].
  destruct (bool_decide_reflect (turnover_snapshot_digest s = Some (_turnover_snapshot_digest sha256_hex S))); [|done].
  cbn [negb raise_if]. destruct (turnover_result _ _ _ _); [|done]. cbn [rbind]. intros [= -> _]. right. split; [done|].
  exists s. by subst last.
Qed.

Lemma Inv_tables db db' : catalog_instrument db' = catalog_instrument db -> catalog_scope_state db' = catalog_scope_state db ->
  catalog_announcement_hint db' = catalog_announcement_hint db -> Inv db -> Inv db'.
Proof. intros Hi Hs Hh [H1 H2 H3]. constructor; by rewrite ?Hi, ?Hs, ?Hh. Qed.

(** Selections are written to tables of their own. *)
Definition same_catalog (db db' : Db) : Prop :=
  catalog_instrument db' = catalog_instrument db /\ catalog_scope_state db' = catalog_scope_state db /\
  catalog_announcement_hint db' = catalog_announcement_hint db /\ catalog_change_outbox db' = catalog_change_outbox db.

Lemma insert_selection_changes rows db db' :
  for_each (fun er => insert_selection_change er.1 er.2) rows db = Ok db' ->
  db' = set_selection_changes (foldl (fun t er => <[er.1 := er.2]> t) (selection_change_outbox db) rows) db.
Proof.
  revert db. induction rows as [|[e row] rows IH]; intros db Hf; [injection Hf as <-; by destruct db|].
  cbn [for_each] in Hf. apply rbind_ok in Hf as (db1 & H1 & Hf). unfold insert_selection_change, checked in H1. inv_ok.
  by apply IH in Hf.
Qed.

Lemma write_selection_inv r persisted db db' : write_selection sha256_hex r persisted db = Ok db' -> same_catalog db db'.
Proof.
  unfold write_selection, checked. intros Hw. cbv zeta in Hw. inv_ok. apply insert_selection_changes in Hw. by subst db'.
Qed.

Lemma commit_body_inv r c t e db db' p : commit_body sha256_hex r c t e db = Ok (db', p) -> same_catalog db db'.
Proof. unfold commit_body, conflict. cbv zeta. intros Hw. inv_ok. by eapply write_selection_inv. Qed.

Lemma step_commit_same r c t e db : same_catalog db (commit_selection sha256_hex r c t e db).1.
Proof.
  unfold commit_selection, mbind, mlift. repeat (case_match; try done); simplify_eq; try done.
  unfold transaction in *. repeat case_match; simplify_eq; try done; by eapply commit_body_inv.
Qed.

Lemma step_hint_inv h db : Inv db -> announcement_validate h = Ok tt -> Inv (record_announcement_hint h db).1.
Proof.
  intros HI Hh. unfold record_announcement_hint, transaction.
  destruct (catalog_announcement_hint db !! (h_scope h, hint_id h)) as [row|]; [by destruct (negb _)|].
  unfold checked. destruct (negb _); [done|]. cbn [raise_if]. constructor; [apply HI|apply HI|].
  intros sc id row Hrow. cbn in Hrow. rewrite lookup_insert in Hrow. case_decide as Heq; [|by eapply (inv_hints _ HI)].
  injection Heq as <- <-. injection Hrow as <-. unfold _hint_from_row, hint_validate.
  match goal with |- is_ok (rbind ?m _) = true => assert (m = Ok tt) as ->; [exact Hh|] end. done.
Qed.

Lemma outbox_ok_mono db db' : outbox_ok db -> catalog_change_outbox db' ⊆ catalog_change_outbox db ->
  selection_change_outbox db' ⊆ selection_change_outbox db ->
  (forall s row, catalog_scope_state db !! s = Some row -> exists row', catalog_scope_state db' !! s = Some row' /\ row_revision row <= row_revision row') ->
  selection_state db' = selection_state db -> outbox_ok db'.
Proof.
  intros [H1 H2] Hc Hsel Hs Hst. split.
  - intros id row Hrow. destruct (H1 id row ltac:(by eapply lookup_weaken)) as (s & Es & Hle). destruct (Hs _ _ Es) as (s' & Es' & Hle').
    exists s'. split; [done|lia].
  - intros id row Hrow. rewrite Hst. apply (H2 id). by eapply lookup_weaken.
Qed.

Lemma turned_over_outbox db S db' : outbox_ok db -> turned_over db S db' -> outbox_ok db'.
Proof.
  intros Ho Ht. destruct (tn_outbox _ _ _ Ht) as (Hc & Hsel & Hs). destruct (tn_scope _ _ _ Ht) as (s & s' & Es & Es' & _ & Hr & _).
  eapply (outbox_ok_mono db); [done|by rewrite Hc|by rewrite Hsel| |apply Ht]. intros sc row Hrow.
  destruct (base.decide (sc = ts_scope S)) as [->|Hne]; [|exists row; rewrite Hs by done; by split].
  assert (row = s) as -> by congruence. exists s'. split; [done|lia].
Qed.

(** The revision a policy has in a scope. *)
Definition revision_of (sc : CatalogScope) (pid : string) (db : Db) : option Z := state_revision <$> selection_state db !! (sc, pid).

Lemma row_revision_read sc pid row p : _selection_state_from_row sc pid row = Ok p -> revision p = state_revision row.
Proof.
  unfold _selection_state_from_row. intros Hp. inv_ok. case_match; try done. inv_ok.
  match goal with H : state_init _ _ _ _ _ _ = Ok _ |- _ => apply state_init_inv in H as (-> & _) end. done.
Qed.

Lemma stored_selection_revision sc pid db o : stored_selection sc pid db = Ok o -> revision <$> o = revision_of sc pid db.
Proof.
  unfold stored_selection, revision_of. destruct (selection_state db !! (sc, pid)) as [row|]; [|by intros [= <-]].
  intros Ho. inv_ok. cbn. f_equal. by eapply row_revision_read.
Qed.

Lemma write_selection_outbox r p db db' : write_selection sha256_hex r p db = Ok db' -> outbox_ok db ->
  (forall n, revision_of (r_scope r) (r_policy_id r) db = Some n -> n <= revision p) -> outbox_ok db'.
Proof.
  intros Hw [H1 H2] Hn. unfold write_selection, checked in Hw. cbv zeta in Hw. inv_ok. apply insert_selection_changes in Hw. subst db'.
  split; [exact H1|]. intros id row. cbn [set_selection_changes set_selections selection_change_outbox selection_state]. intros Hrow.
  set (key := (r_scope r, r_policy_id r)).
  assert (Hin : selection_change_outbox db !! id = Some row \/ ((e_scope row, e_policy_id row) = key /\ e_state_revision row = revision p)).
  { revert Hrow. match goal with |- foldl _ _ ?rows !! _ = _ -> _ => assert (Hnew : forall er, er ∈ rows ->
      (e_scope er.2, e_policy_id er.2) = key /\ e_state_revision er.2 = revision p) by (by intros er (n & d & -> & _)%elem_of_lookup_imap);
      revert Hnew; generalize rows, (selection_change_outbox db) end.
    induction l as [|er l IH]; intros t Hnew Hrow; [by left|]. cbn in Hrow. destruct (IH _ ltac:(intros e He; apply Hnew; by right) Hrow) as [Ht|Ht]; [|by right].
    rewrite lookup_insert in Ht. case_decide; [|by left]. injection Ht as <-. right. apply Hnew. left. }
  destruct Hin as [Hin|[-> ->]]; [|by rewrite lookup_insert_eq; eexists].
  destruct (H2 _ _ Hin) as (s & Hs & Hle). rewrite lookup_insert. case_decide as Heq; [|by exists s].
  eexists. split; [done|]. cbn. enough (state_revision s <= revision p) by lia. apply Hn. unfold revision_of. subst key.
  injection Heq as -> ->. by rewrite Hs.
Qed.

Lemma step_commit_outbox r c t e db : outbox_ok db -> outbox_ok (commit_selection sha256_hex r c t e db).1.
Proof.
  intros Ho. unfold commit_selection, mbind, mlift. repeat (case_match; try done); simplify_eq; try done.
  unfold transaction in *. repeat case_match; simplify_eq; try done. cbn [fst].
  match goal with H : commit_body _ _ _ _ _ _ = Ok _ |- _ => unfold commit_body, conflict in H; cbv zeta in H; inv_ok end.
  match goal with H : stored_selection _ _ _ = Ok _ |- _ => apply stored_selection_revision in H end.
  match goal with H : state_init _ _ _ _ _ _ = Ok _ |- _ => apply state_init_inv in H as (-> & _) end.
  eapply write_selection_outbox; [done|done|]. intros n Hn. cbn. 
  match goal with H : revision <$> ?o = _ |- _ => rewrite Hn in H; destruct o as [q|]; [|done]; injection H as -> end. lia.
Qed.

Lemma store_step_inv db db' : Inv db -> outbox_ok db -> store_step db db' -> Inv db' /\ outbox_ok db'.
Proof.
  intros HI Ho [S lookback HS|S HS|r c t e|h Hh|e].
  - destruct (apply_catalog_snapshot sha256_hex S lookback db) as [db1 [c|err]] eqn:E.
    + destruct (apply_catalog_inv _ _ _ _ _ HI Ho HS E) as (_ & _ & [(? & ? & _)%applied_facts|[-> _]]); done.
    + by apply apply_catalog_error in E as ->.
  - destruct (apply_turnover_snapshot sha256_hex S db) as [db1 [res|err]] eqn:E.
    + destruct (apply_turnover_applied db S db1 res HI HS E) as [Ha|[-> _]]; [|done]. split; [apply Ha|by eapply turned_over_outbox].
    + enough (db1 = db) as -> by done. revert E. unfold apply_turnover_snapshot. cbv zeta. apply transaction_error.
  - split; [|by apply step_commit_outbox]. eapply Inv_tables; [..|exact HI]; by destruct (step_commit_same r c t e db) as (? & ? & ? & _).
  - split; [by apply step_hint_inv|]. unfold record_announcement_hint, transaction.
    by repeat (case_match; simplify_eq/=); unfold checked in *; inv_ok.
  - unfold ack_change. destruct (negb _); [done|]. split; [by eapply Inv_tables; [..|exact HI]|].
    eapply (outbox_ok_mono db); [done|apply delete_subseteq|apply delete_subseteq| |done]. intros s row Hrow. by exists row.
Qed.

Lemma store_reachable_inv db : store_reachable db -> Inv db /\ outbox_ok db.
Proof. induction 1 as [|db db' _ [IH Ho] Hs]; [split; [apply Inv_empty|apply outbox_empty]|by eapply store_step_inv]. Qed.


(** A snapshot that was applied can be sent again, as after a lost answer: the
    tables stay as they are and the revision of the first application is reported. *)
Theorem catalog_snapshot_idempotent db S lookback db1 changes : Inv db -> outbox_ok db -> snapshot_ok S -> 0 <= lookback <= MAX_INT64 ->
  apply_catalog_snapshot sha256_hex S lookback db = (db1, Ok changes) -> cc_idempotent changes = false ->
  exists again, apply_catalog_snapshot sha256_hex S lookback db1 = (db1, Ok again) /\
    cc_idempotent again = true /\ cc_revision again = cc_revision changes /\
    cc_digest_sha256 again = cc_digest_sha256 changes /\ cc_deltas again = [].
Proof.
  intros HI Ho HS Hl Happ Hc. destruct (apply_catalog_inv _ _ _ _ _ HI Ho (proj1 HS) Happ) as (_ & _ & [Ha|[_ Hx]]); [|congruence].
  destruct (applied_facts _ _ _ _ _ Ha) as (Hi & _ & _ & _ & s & Es & _ & Hob & Hd & Hr & Hcd). exists (unchanged (cs_scope S) (cs_observed_at_ns S) s).
  split; [|by rewrite Hr, Hcd]. by apply apply_again.
Qed.

(** C10: From an empty store, whatever sequence of catalog and turnover snapshots,
    committed selections, announcement hints and acknowledgements it took, and whichever
    of them were refused, the catalog of every scope can be loaded and validates: the view
    has the revision of the scope and lists exactly the instruments of its rows.  The
    snapshots are those their constructors accept whose records all have a JSON object as
    lifecycle: the constructors accept other lifecycles too, and after such a snapshot the
    catalog can not be loaded (Example [lifecycle_must_be_an_object]). *)
Theorem reachable_catalog_loads db sc : store_reachable db ->
  exists view, load_view sc db = Ok view /\
    catalog_revision view = match catalog_scope_state db !! sc with Some s => row_revision s | None => 0 end /\
    forall i, i ∈ instruments view <-> holds sc (c_key i) i /\ catalog_instrument db !! (sc, c_key i) = Some (row_for i).
Proof.
  intros [Hdb _]%store_reachable_inv. destruct (catalog_scope_state db !! sc) as [s|] eqn:Es.
  - destruct (load_view_some sc db s Hdb Es) as (view & Hl & _ & Hr & _ & _ & Hi). by exists view.
  - destruct (load_view_none sc db Hdb Es) as (view & Hl & Hr & Hi). exists view. split_and!; [done|done|]. rewrite Hi.
    pose proof (inv_scopes _ Hdb sc) as Hsc. rewrite Es in Hsc. cbn in Hsc. intros i. split; [intros Hx; by apply elem_of_nil in Hx|].
    intros [_ Hx]. congruence.
Qed.
End Runs.

(** ** An example *)
Definition ex_snapshot (observed_at_ns : Z) (phase : LifecyclePhase) : CompleteCatalogSnapshot := {|
  cs_scope := {| sc_exchange := KRAKEN; sc_market := SPOT |}; cs_observed_at_ns := observed_at_ns; cs_snapshot_id := "assets";
  cs_pages := [{| raw_reference := "raw/1"; request_cursor := None; next_cursor := None |}];
  cs_reported_total_count := Some 1; cs_authoritative_empty := false; cs_instruments := [ex_record phase] |}.
#[local] Existing Instances example_codec example_codec_laws.

Lemma ex_snapshot_made phase : snapshot_made (ex_snapshot 10 phase).
Proof.
  constructor.
  - destruct phase; vm_compute; reflexivity.
  - intros p Hp%list_elem_of_singleton. subst p. vm_compute. reflexivity.
  - intros r Hr%list_elem_of_singleton. subst r. split_and!; destruct phase; vm_compute; reflexivity.
Qed.
Lemma ex_snapshot_ok phase : snapshot_ok (ex_snapshot 10 phase).
Proof. split; [apply ex_snapshot_made|]. intros r Hr%list_elem_of_singleton. by subst r. Qed.
Definition ex_db : Db := (apply_catalog_snapshot example_digest (ex_snapshot 10 DELISTED) 0 empty_db).1.
Definition ex_changes : result CatalogChanges := (apply_catalog_snapshot example_digest (ex_snapshot 10 DELISTED) 0 empty_db).2.

Lemma ex_applied : is_ok ex_changes = true.
Proof. vm_compute. reflexivity. Qed.


Lemma catalog_snapshot_idempotent_witness : exists changes again,
  apply_catalog_snapshot example_digest (ex_snapshot 10 DELISTED) 0 empty_db = (ex_db, Ok changes) /\
  apply_catalog_snapshot example_digest (ex_snapshot 10 DELISTED) 0 ex_db = (ex_db, Ok again) /\
  cc_idempotent again = true /\ cc_revision again = cc_revision changes /\ cc_deltas again = [].
Proof.
  assert (Happ : exists changes, apply_catalog_snapshot example_digest (ex_snapshot 10 DELISTED) 0 empty_db = (ex_db, Ok changes)).
  { pose proof ex_applied as H. unfold ex_changes, ex_db in *. destruct (apply_catalog_snapshot _ _ _ _) as [db [c|e]]; [|discriminate H].
    exists c. reflexivity. }
  destruct Happ as [changes Happ]. exists changes.
  assert (Hc : cc_idempotent changes = false).
  { pose proof (apply_snapshot_spec example_digest example_digest_ok empty_db (ex_snapshot 10 DELISTED) 0
      Inv_empty outbox_empty (ex_snapshot_ok DELISTED) ltac:(vm_compute; split; discriminate) ltac:(by intros s Hs)) as H.
    rewrite Happ in H. destruct H as (prior & current & c & HP & H). destruct (taken _ _); [destruct H as [Hx _]; discriminate Hx|].
    destruct H as [Hc _]. injection Hc as ->. destruct (pl_header _ _ _ _ _ _ _ HP) as (_ & _ & _ & Hid & _). exact Hid. }
  destruct (catalog_snapshot_idempotent example_digest example_digest_ok empty_db (ex_snapshot 10 DELISTED) 0 ex_db changes
    Inv_empty outbox_empty (ex_snapshot_ok DELISTED) ltac:(vm_compute; split; discriminate) Happ Hc) as (again & H1 & H2 & H3 & _ & H5).
  exists again. split; [exact Happ|]. split; [exact H1|]. split; [exact H2|]. split; [exact H3|exact H5].
Defined.

Lemma reachable_catalog_loads_witness : exists view,
  load_view {| sc_exchange := KRAKEN; sc_market := SPOT |} ex_db = Ok view /\
  catalog_revision view = match catalog_scope_state ex_db !! {| sc_exchange := KRAKEN; sc_market := SPOT |} with
                          | Some s => row_revision s | None => 0 end.
Proof.
  assert (Hr : store_reachable example_digest ex_db).
  { eapply reach_step; [apply reach_empty|]. apply step_catalog, ex_snapshot_made. }
  destruct (reachable_catalog_loads example_digest example_digest_ok ex_db
    {| sc_exchange := KRAKEN; sc_market := SPOT |} Hr) as (view & Hl & Hrev & _).
  exists view. split; [exact Hl|exact Hrev].
Defined.

(** The constructors accept any JSON value as the lifecycle of a record, but the rows of
    the store can only be read if it is an object: a snapshot with such a record is
    accepted, after which the catalog of its scope can not be loaded any more. *)
Definition odd_snapshot : CompleteCatalogSnapshot :=
  let s := ex_snapshot 10 DELISTED in {|
  cs_scope := cs_scope s; cs_observed_at_ns := cs_observed_at_ns s; cs_snapshot_id := cs_snapshot_id s;
  cs_pages := cs_pages s; cs_reported_total_count := cs_reported_total_count s;
  cs_authoritative_empty := cs_authoritative_empty s;
  cs_instruments := [with_lifecycle (JList []) (ex_record DELISTED)] |}.

Example lifecycle_must_be_an_object :
  let '(db, out) := apply_catalog_snapshot example_digest odd_snapshot 0 empty_db in
  forallb (fun r => is_ok (record_init r (Some (lifecycle_phase r)))) (cs_instruments odd_snapshot) = true /\
  is_ok (catalog_snapshot_validate odd_snapshot) = true /\ is_ok out = true /\
  load_view (cs_scope odd_snapshot) db = Err (RuntimeError "catalog JSON columns contain invalid object values").
Proof. vm_compute. repeat split. Qed.
