(* ===== verification/CatalogSelections.v ===== *)
(** [CatalogStore.commit_selection] and [load_selection_state]: what a commit writes, that
    no commit overwrites one it has not seen, and that what [select] makes of the loaded
    catalog and the loaded state can be committed and is loaded again. *)
From S2P Require Import Prelude PyDecimal Domain StorageModels SelectionModels Selector SelectorFacts Selection PyText.
From S2P Require Import CatalogJson CatalogRows CatalogListing CatalogFacts CatalogStore CatalogTables StateStore.
From S2P Require Import CatalogApply Concrete ListingFacts CatalogRuns.

Section Selections.
Context `{JsonCodecLaws} (sha256_hex : string -> string) (Hsha : forall s, config_sha256_ok (sha256_hex s) = true).

(** ** Stored states *)
Definition stored_state (p : SelectionState) : SelectionState := {|
  s_scope := s_scope p; s_catalog_revision := s_catalog_revision p; s_turnover_revision := s_turnover_revision p;
  s_policy_id := s_policy_id p; revision := revision p; entries := stored_entry <$> entries p |}.
Definition set_revision (n : Z) (p : SelectionState) : SelectionState := {|
  s_scope := s_scope p; s_catalog_revision := s_catalog_revision p; s_turnover_revision := s_turnover_revision p;
  s_policy_id := s_policy_id p; revision := n; entries := entries p |}.

(** The row that a state is written to. *)
Definition selection_row (p : SelectionState) : SelectionRow := {|
  state_revision := revision p; row_catalog_revision := s_catalog_revision p;
  row_selection_turnover_revision := s_turnover_revision p;
  entries_json := encode_json (_selection_state_entries_payload p) |}.

Lemma stored_entry_key e : entry_key (stored_entry e) = entry_key e. Proof. done. Qed.

Lemma well_keyed_stored sc m : well_keyed sc m -> well_keyed sc (stored_entry <$> m).
Proof. intros Hm k e. rewrite lookup_fmap. destruct (m !! k) as [e'|] eqn:E; [|done]. intros [= <-]. apply (Hm k e' E). Qed.

Lemma made_entry_ok sc k e : entry_made sc k e -> entry_ok (stored_entry e).
Proof. intros (_ & _ & _ & _ & _ & He). exact (entry_init_instrument _ (stored (instrument e)) _ _ _ _ He). Qed.

(** What the constructor of a state checks. *)
Record state_facts (p : SelectionState) : Prop := {
  sf_catalog : 1 <= s_catalog_revision p <= MAX_INT64;
  sf_turnover : 0 <= s_turnover_revision p <= MAX_INT64;
  sf_policy : config_sha256_ok (s_policy_id p) = true;
  sf_revision : 0 <= revision p <= MAX_INT64;
  sf_keyed : well_keyed (s_scope p) (entries p)
}.
Definition init_state (p : SelectionState) : result SelectionState :=
  state_init (s_scope p) (s_catalog_revision p) (s_turnover_revision p) (s_policy_id p) (revision p) (entries p).

Lemma init_state_ok p : init_state p = Ok p <-> state_facts p.
Proof.
  unfold init_state, state_init. split.
  - intros Hp. inv_ok. constructor; bool_prop; try done;
      repeat match goal with H : _integer _ _ _ = Ok _ |- _ => apply integer_min_inv in H as [-> ?] end; try done.
    apply immutable_iff. match goal with H : _immutable_entries _ _ = Ok ?x |- _ => pose proof H as Hi end.
    unfold _immutable_entries in Hi. inv_ok. done.
  - intros [Hc Ht Hp Hr Hk]. rewrite !integer_min_ok by done. cbn [rbind]. rewrite Hp. cbn [negb raise_if].
    cbn [rbind]. rewrite (proj2 (immutable_iff _ _) Hk). by destruct p.
Qed.

Lemma state_facts_stored p : state_facts p -> state_facts (stored_state p).
Proof. intros [Hc Ht Hp Hr Hk]. constructor; try done. by apply well_keyed_stored. Qed.

(** A state that was written is read back. *)
Lemma selection_row_read p : map_Forall (entry_made (s_scope p)) (entries p) -> state_facts p ->
  _selection_state_from_row (s_scope p) (s_policy_id p) (selection_row p) = Ok (stored_state p).
Proof.
  intros Hm Hp. unfold _selection_state_from_row. cbn [entries_json selection_row].
  pose proof (state_entries_spec (s_scope p) p Hm) as Hs. pose proof (plain_entries p) as Hplain.
  rewrite decode_encode by exact Hplain. cbn [rbind]. destruct (_selection_state_entries_payload p); try done.
  rewrite Hs. cbn [rbind]. exact (proj2 (init_state_ok (stored_state p)) (state_facts_stored p Hp)).
Qed.

(** Every stored state can be read. *)
Definition selections_ok (db : Db) : Prop := forall sc pid row, selection_state db !! (sc, pid) = Some row ->
  exists p, _selection_state_from_row sc pid row = Ok p /\ state_ok p /\ s_scope p = sc /\ s_policy_id p = pid /\ 1 <= revision p.

(** ** What a commit writes *)
Definition committed_rows (r : SelectionResult) (revision : Z) : list (string * SelectionChangeRow) :=
  imap (fun n => selection_event sha256_hex r revision (Z.of_nat n)) (deltas r).

(** What must hold for a commit, and what it leaves. *)
Record committed (r : SelectionResult) (c t : Z) (e : option Z) (db db' : Db) (p : SelectionState) : Prop := {
  co_state : p = set_revision (default 0 e + 1) (Selector.next_state r);
  co_valid : state_facts p;
  co_catalog : exists s, catalog_scope_state db !! r_scope r = Some s /\ row_revision s = c /\ row_turnover_revision s = t;
  co_bound : r_catalog_revision r = c /\ r_turnover_revision r = t /\ s_catalog_revision p = c /\ s_turnover_revision p = t;
  co_seen : revision_of (r_scope r) (r_policy_id r) db = e;
  co_entries : forall k en, r_entries r !! k = Some en -> exists i, holds (r_scope r) k i /\
    catalog_instrument db !! (r_scope r, k) = Some (row_for i) /\ instrument_eqb i (instrument en) = true /\
    is_present (instrument en) = true /\ tradable (inst (instrument en)) = true;
  co_written : selection_state db' = <[(r_scope r, r_policy_id r) := selection_row p]> (selection_state db);
  co_outbox : selection_change_outbox db' = foldl (fun t er => <[er.1 := er.2]> t) (selection_change_outbox db) (committed_rows r (revision p));
  co_tables : same_catalog db db'
}.

Lemma write_selection_eq r p db db' : s_catalog_revision p = r_catalog_revision r -> s_turnover_revision p = r_turnover_revision r ->
  write_selection sha256_hex r p db = Ok db' ->
  db' = set_selection_changes (foldl (fun t er => <[er.1 := er.2]> t) (selection_change_outbox db) (committed_rows r (revision p)))
          (set_selections (<[(r_scope r, r_policy_id r) := selection_row p]> (selection_state db)) db).
Proof.
  intros Hc Ht Hw. unfold write_selection, checked in Hw. inv_ok.
  match goal with H : for_each _ _ _ = Ok _ |- _ => apply insert_selection_changes in H; subst db' end.
  cbn [set_selections selection_change_outbox]. unfold selection_row. by rewrite Hc, Ht.
Qed.

Lemma check_selected_inv prior m u : check_selected prior m = Ok u -> forall k en, m !! k = Some en ->
  exists i, prior !! k = Some i /\ instrument_eqb i (instrument en) = true /\
    is_present (instrument en) = true /\ tradable (inst (instrument en)) = true.
Proof.
  unfold check_selected. intros Hc k en Hk. inv_ok.
  match goal with H : check_all _ _ = Ok _ |- _ => pose proof (check_all_unit_ok _ _ _ H (k, en)) as Hx end.
  cbn [fst snd] in Hx. specialize (Hx ltac:(by rewrite elem_of_py_sorted; apply elem_of_map_to_list)). unfold conflict in Hx.
  inv_ok. bool_prop. destruct (prior !! k) as [i|]; [|done]. by exists i.
Qed.
Lemma commit_body_committed r c t e db db' p : Inv db -> commit_body sha256_hex r c t e db = Ok (db', p) ->
  committed r c t e db db' p.
Proof.
  intros HI Hc. pose proof (commit_body_inv _ _ _ _ _ _ _ _ Hc) as Hsame. unfold commit_body, conflict in Hc. cbv zeta in Hc.
  destruct (load_prior (r_scope r) db (inv_rows _ HI)) as (prior & Hload & Hprior). rewrite Hload in Hc. inv_ok. bool_prop.
  match goal with H : stored_selection _ _ _ = Ok _ |- _ => apply stored_selection_revision in H end.
  match goal with H : check_selected _ _ = Ok _ |- _ => pose proof (check_selected_inv _ _ _ H) as Hsel end.
  match goal with H : state_init _ _ _ _ ?n _ = Ok p |- _ => pose proof (state_init_inv _ _ _ _ _ _ _ H) as (Hp & _); rename H into Hinit end.
  assert (Hfacts : state_facts p) by (apply init_state_ok; rewrite Hp in Hinit |- *; exact Hinit).
  match goal with H : write_selection _ _ _ _ = Ok _ |- _ => apply write_selection_eq in H; [subst db'|subst p; cbn; lia|subst p; cbn; lia] end.
  constructor; try done.
  - rewrite Hp. unfold set_revision. f_equal. match goal with H : revision <$> ?o = e |- _ => rewrite <- H; by destruct o end.
  - destruct (catalog_scope_state db !! r_scope r) as [s|]; [|done]. cbn in *. exists s. by repeat match goal with H : Some _ = Some _ |- _ => injection H as H end.
  - subst p. cbn. lia.
  - congruence.
  - intros k en Hk. destruct (Hsel k en Hk) as (i & Hi & Heq & Hpr & Htr). destruct (Hprior k) as [Hrow Hh]. rewrite Hi in Hrow.
    exists i. split_and!; try done. by apply Hh.
Qed.

Lemma commit_cases r c t e db : match commit_selection sha256_hex r c t e db with
  | (db', Ok p) => commit_body sha256_hex r c t e db = Ok (db', p)
  | (db', Err _) => db' = db
  end.
Proof.
  unfold commit_selection, mbind, mlift.
  destruct (_nonnegative_int c _) as [c'|] eqn:Ec; [apply nonneg_int_inv in Ec as [-> _]|done].
  destruct (raise_if _ _ _); [|done]. destruct (_nonnegative_int t _) as [t'|] eqn:Et; [apply nonneg_int_inv in Et as [-> _]|done].
  destruct (_optional_nonnegative_int e _) as [e'|] eqn:Ee; [apply optional_inv in Ee as [-> _]|done].
  destruct (raise_if _ _ _); [|done]. unfold transaction. by destruct (commit_body _ _ _ _ _ _) as [[db' p]|err].
Qed.

(** ** No lost update *)
(** Along any steps of the store the revision of a stored state only grows. *)
Lemma commit_step_revision sc pid db db' n : Inv db -> outbox_ok db -> store_step sha256_hex db db' -> revision_of sc pid db = Some n ->
  exists m, revision_of sc pid db' = Some m /\ n <= m.
Proof.
  intros HI Ho Hs Hn. assert (Hsame : selection_state db' = selection_state db -> exists m, revision_of sc pid db' = Some m /\ n <= m).
  { intros He. exists n. unfold revision_of. rewrite He. done. }
  destruct Hs as [S lookback HS|S HS|r c t e|h Hh|e].
  - apply Hsame. destruct (apply_catalog_snapshot sha256_hex S lookback db) as [db1 [ch|err]] eqn:E.
    + destruct (apply_catalog_inv sha256_hex Hsha _ _ _ _ _ HI Ho HS E) as (_ & _ & [(_ & _ & Ha & _)%applied_facts|[-> _]]); done.
    + by apply apply_catalog_error in E as ->.
  - apply Hsame. destruct (apply_turnover_snapshot sha256_hex S db) as [db1 [res|err]] eqn:E.
    + destruct (apply_turnover_applied sha256_hex Hsha db S db1 res HI HS E) as [Ha|[-> _]]; [apply (tn_selections _ _ _ Ha)|done].
    + enough (db1 = db) as -> by done. revert E. unfold apply_turnover_snapshot. cbv zeta. apply transaction_error.
  - pose proof (commit_cases r c t e db) as Hc. destruct (commit_selection sha256_hex r c t e db) as [db1 [p|err]]; [|apply Hsame; by rewrite Hc].
    apply commit_body_committed in Hc as [Hp _ _ _ Hseen _ Hw _ _]; [|done]. cbn [fst]. unfold revision_of in *. rewrite Hw, lookup_insert.
    case_decide as Hk; [|by exists n]. injection Hk as <- <-. exists (revision p). split; [done|]. rewrite Hp. cbn.
    rewrite <- Hseen, Hn. cbn. lia.
  - apply Hsame. unfold record_announcement_hint, transaction. by repeat (case_match; simplify_eq/=); unfold checked in *; inv_ok.
  - apply Hsame. unfold ack_change. by destruct (negb _).
Qed.

Lemma commit_steps_revision sc pid db db' n : Inv db -> outbox_ok db -> rtc (store_step sha256_hex) db db' -> revision_of sc pid db = Some n ->
  exists m, revision_of sc pid db' = Some m /\ n <= m.
Proof.
  intros HI Ho Hs. revert n. induction Hs as [db|db db1 db' Hs _ IH]; intros n Hn; [by exists n|].
  destruct (commit_step_revision sc pid db db1 n HI Ho Hs Hn) as (m & Hm & Hle).
  destruct (store_step_inv sha256_hex Hsha _ _ HI Ho Hs) as [HI1 Ho1].
  destruct (IH HI1 Ho1 m Hm) as (k & Hk & Hle'). exists k. split; [done|lia].
Qed.

(** ** Commits that must succeed *)
Lemma insert_events_ok rows db : Forall (fun er : string * SelectionChangeRow => selection_change_checks er.2 = true) rows ->
  slots_free selection_slot (selection_change_outbox db) rows ->
  for_each (fun er => insert_selection_change er.1 er.2) rows db =
    if taken (selection_change_outbox db) rows.*1 then Err (IntegrityError "UNIQUE constraint failed")
    else Ok (set_selection_changes (foldl (fun t er => <[er.1 := er.2]> t) (selection_change_outbox db) rows) db).
Proof.
  intros HF. revert db. induction HF as [|[id row] rows Hrow _ IH]; intros db Hfree; [by destruct db|].
  rewrite fmap_cons, taken_cons with (x := row). cbn [for_each fst snd foldl] in *.
  unfold insert_selection_change at 1, checked. rewrite Hrow. cbn [negb raise_if].
  match goal with |- context [existsb ?f ?l] => assert (existsb f l = false) as -> end.
  { pose proof (slot_unused selection_slot (fun x y => bool_decide (e_scope x = e_scope y) && String.eqb (e_policy_id x) (e_policy_id y)
      && (e_state_revision x =? e_state_revision y) && (e_ordinal x =? e_ordinal y)) _ _ _ _ Hfree) as Hs. apply Hs.
    intros [] []; cbn. unfold selection_slot. cbn. rewrite !andb_true_iff, bool_decide_eq_true, String.eqb_eq, !Z.eqb_eq.
    intros [[[-> ->] ->] ->]. done. }
  rewrite orb_false_r. destruct (present _) eqn:Ee; cbn [orb raise_if rbind]; [done|].
  rewrite IH; [done|]. by eapply slots_free_insert.
Qed.

(** The events of a commit are of a revision that is not in the outbox. *)
Lemma committed_slots r n db : outbox_ok db -> (forall m, revision_of (r_scope r) (r_policy_id r) db = Some m -> m < n) ->
  slots_free selection_slot (selection_change_outbox db) (committed_rows r n).
Proof.
  intros [_ Ho] Hn. split.
  - intros id row er Hrow (m & d & -> & _)%elem_of_lookup_imap. unfold selection_slot. cbn. intros [= Hs Hp Hr _].
    destruct (Ho _ _ Hrow) as (s & Hst & Hle). rewrite Hs, Hp in Hst.
    specialize (Hn (state_revision s) ltac:(unfold revision_of; by rewrite Hst)). lia.
  - unfold committed_rows. rewrite fmap_imap. apply NoDup_alt. intros i j x Hi Hj.
    rewrite list_lookup_imap in Hi, Hj. apply fmap_Some in Hi as (? & _ & ->). apply fmap_Some in Hj as (? & _ & Hx).
    unfold compose, selection_slot in Hx. cbn in Hx. injection Hx. lia.
Qed.

Lemma policy_length pid : config_sha256_ok pid = true -> (String.length pid =? 64)%nat = true.
Proof. unfold config_sha256_ok. by intros [? _]%andb_true_iff. Qed.

Lemma event_checks r n : config_sha256_ok (r_policy_id r) = true -> 1 <= r_catalog_revision r -> 1 <= n ->
  Forall (fun er : string * SelectionChangeRow => selection_change_checks er.2 = true) (committed_rows r n).
Proof.
  intros Hp Hc Hn. apply Forall_forall. intros er (i & d & -> & _)%elem_of_lookup_imap. unfold selection_change_checks, selection_event.
  cbn [snd e_policy_id e_state_revision e_catalog_revision e_ordinal e_kind]. rewrite policy_length by done.
  rewrite !(proj2 (Z.ltb_lt _ _)), (proj2 (Z.leb_le _ _)) by lia. unfold delta_kind.
  destruct (delta_previous d), (delta_current d); done.
Qed.

Lemma write_selection_cases r p db : state_facts p -> r_policy_id r = s_policy_id p -> r_catalog_revision r = s_catalog_revision p ->
  r_turnover_revision r = s_turnover_revision p -> 1 <= revision p -> outbox_ok db ->
  (forall m, revision_of (r_scope r) (r_policy_id r) db = Some m -> m < revision p) ->
  write_selection sha256_hex r p db =
    if taken (selection_change_outbox db) (committed_rows r (revision p)).*1 then Err (IntegrityError "UNIQUE constraint failed")
    else Ok (set_selection_changes (foldl (fun t er => <[er.1 := er.2]> t) (selection_change_outbox db) (committed_rows r (revision p)))
          (set_selections (<[(r_scope r, r_policy_id r) := selection_row p]> (selection_state db)) db)).
Proof.
  intros [Hc Ht Hpol Hr _] Ep Ec Et H1 Ho Hm. unfold write_selection, sqlite_int, checked. cbv zeta.
  rewrite (proj2 (Z.leb_le _ _)), (proj2 (Z.leb_le _ _)) by lia. cbn [andb negb raise_if rbind].
  match goal with |- context [selection_checks ?a ?b] => assert (selection_checks a b = true) as -> end.
  { unfold selection_checks. cbn. rewrite Ep, policy_length by done. rewrite Ec, Et, !(proj2 (Z.ltb_lt _ _)), (proj2 (Z.leb_le _ _)) by lia. done. }
  cbn [negb raise_if rbind]. fold (committed_rows r (revision p)).
  rewrite insert_events_ok by (exact (committed_slots r _ db Ho Hm) || (apply event_checks; [by rewrite Ep|lia|done])).
  cbn [set_selections selection_change_outbox]. unfold selection_row. by rewrite Ec, Et.
Qed.

Lemma check_selected_ok prior m : (forall k en, m !! k = Some en -> prior !! k = Some (instrument en) /\
    is_present (instrument en) = true /\ tradable (inst (instrument en)) = true) -> check_selected prior m = Ok tt.
Proof.
  intros Hm. unfold check_selected. rewrite (check_all_ok _ (fun _ => tt)); [done|]. intros [k en] Hk.
  rewrite elem_of_py_sorted in Hk. apply elem_of_map_to_list in Hk. destruct (Hm k en Hk) as (Hp & Hpr & Ht). cbn [fst snd].
  unfold conflict. rewrite Hp, Hpr, Ht. cbn [opt_eqb]. by rewrite instrument_eqb_refl.
Qed.

Lemma check_deltas_ok previous r keys : deltas r = delta_at previous (r_entries r) <$> keys ->
  (forall k, k ∈ keys <-> opt_eqb entry_eqb (previous !! k) (r_entries r !! k) = false) -> check_deltas previous r = Ok tt.
Proof.
  intros Hd Hk. unfold check_deltas, conflict. cbv zeta.
  assert (Hkeys : delta_key <$> deltas r = keys) by (rewrite Hd, <- list_fmap_compose; apply list_fmap_id). rewrite Hkeys.
  rewrite bool_decide_eq_true_2.
  2: { apply set_eq. intros k. rewrite elem_of_list_to_set, elem_of_filter, elem_of_union, !elem_of_dom, Hk.
       split; [|by intros [? _]]. intros Hne. split; [done|]. destruct (previous !! k); [by left|]. destruct (r_entries r !! k); [by right|done]. }
  cbn [negb raise_if]. rewrite (check_all_ok _ (fun _ => tt)); [done|]. rewrite Hd. intros d (k & -> & _)%list_elem_of_fmap.
  cbn [delta_at delta_key delta_previous delta_current]. by rewrite !opt_entry_eqb_refl.
Qed.

(** *** What [select] selects can be committed *)
(** Only instruments on offer are selected. *)
Lemma expected_on_offer catalog fixed policy previous now item en :
  NoDup (c_key <$> instruments catalog) -> item ∈ instruments catalog ->
  acceptable catalog fixed policy previous now = true ->
  expected catalog fixed policy previous now item = Some en -> is_present item = true /\ tradable (inst item) = true.
Proof.
  intros Hnd Hitem Hacc He. destruct (is_present item && tradable (inst item)) eqn:Eon; [by apply andb_true_iff in Eon|].
  exfalso. revert He. unfold expected. enough (SelectorFacts.bits catalog fixed policy previous now item = 0) as -> by done. unfold SelectorFacts.bits.
  assert (Hr : rank_of catalog policy now item = None).
  { unfold rank_of. destruct (_ || _); [done|]. unfold rank_at, rank_eligible. by rewrite Eon. }
  assert (Hg : grace_of catalog policy previous now item = None).
  { unfold grace_of. destruct (previous_entries previous !! c_key item); [|done]. by rewrite Hr, Eon. }
  assert (Hn : _is_active_new_listing item policy now = false).
  { unfold _is_active_new_listing. destruct (new_listings_enabled policy); [|done]. cbn [andb]. by rewrite Eon. }
  rewrite Hr, Hg, Hn, bool_decide_eq_false_2; [done|]. intros Hf. unfold acceptable in Hacc. bool_prop.
  match goal with H : forallb _ _ = true |- _ => rewrite forallb_forall in H; specialize (H (c_key item)) end.
  match goal with H : _ -> available _ _ = true |- _ => unfold available in H; rewrite existsb_exists in H;
    destruct H as (j & Hj & Hon) end.
  { apply list_elem_of_In. by rewrite elem_of_py_sorted, elem_of_elements. }
  apply list_elem_of_In in Hj. apply andb_true_iff in Hon as [Hk%String.eqb_eq Hon].
  assert (j = item) as -> by (by eapply key_inj). congruence.
Qed.

Lemma holds_key sc k i : holds sc k i -> nonempty (c_key i) = true.
Proof. intros [Hm _ _ _ _ _]. apply made_spec in Hm as ([Ht _ _ _ _] & _). unfold texts_ok in Ht. by bool_prop. Qed.

Lemma holds_entry sc k en : holds sc k (instrument en) -> entry_ok en -> entry_made sc k en /\ stored_entry en = en.
Proof.
  intros Hh He. pose proof (holds_key _ _ _ Hh) as Hk. pose proof (holds_stored _ _ _ Hh) as Hs. destruct Hh as [Hm Hsc Hkey Hwf _ _].
  split; [|unfold stored_entry; rewrite Hs; by destruct en]. unfold entry_made. unfold entry_key. rewrite <- Hkey. by split_and!.
Qed.

Lemma stored_selection_ok sc pid db o : selections_ok db -> stored_selection sc pid db = Ok o ->
  match o with Some p => state_ok p /\ s_scope p = sc /\ s_policy_id p = pid /\ 1 <= revision p | None => True end.
Proof.
  intros HS. unfold stored_selection. destruct (selection_state db !! (sc, pid)) as [row|] eqn:E; [|by intros [= <-]].
  destruct (HS _ _ _ E) as (p & Hp & Hok & Hrest). rewrite Hp. by intros [= <-].
Qed.

(** After a commit the stored state is the new one, and every state can still be read. *)
Lemma committed_selections r c t e db db' p : committed r c t e db db' p -> selections_ok db -> 1 <= revision p ->
  s_scope p = r_scope r -> s_policy_id p = r_policy_id r -> map_Forall (entry_made (s_scope p)) (entries p) ->
  stored_selection (r_scope r) (r_policy_id r) db' = Ok (Some (stored_state p)) /\ selections_ok db'.
Proof.
  intros [_ Hf _ _ _ _ Hw _ _] HS H1 Es Ep Hm.
  assert (Hread : _selection_state_from_row (r_scope r) (r_policy_id r) (selection_row p) = Ok (stored_state p)).
  { rewrite <- Es, <- Ep. by apply selection_row_read. }
  split; [unfold stored_selection; rewrite Hw, lookup_insert_eq; by rewrite Hread|].
  intros sc pid row. rewrite Hw, lookup_insert. case_decide as Hk; [|apply HS]. injection Hk as <- <-. intros [= <-].
  exists (stored_state p). split_and!; try done. split; [exact (proj2 (init_state_ok (stored_state p)) (state_facts_stored p Hf))|].
  intros k en. cbn. rewrite lookup_fmap. destruct (entries p !! k) as [en'|] eqn:E; [|done]. intros [= <-].
  by eapply made_entry_ok, Hm.
Qed.

Lemma load_selection_inv sc pid db o : load_selection_state sc pid db = Ok o -> stored_selection sc pid db = Ok o.
Proof. unfold load_selection_state, _sha256_digest. intros Hl. apply rbind_ok in Hl as (x & Hx & Hl). by inv_ok. Qed.

(** One round of a caller: load the catalog and the state of a policy, select, commit. *)
Section Round.
Context (db : Db) (sc : CatalogScope) (view : CatalogView) (fixed : ResolvedFixedSelection) (policy : SelectionPolicy).
Context (previous : option SelectionState) (now : Z) (r : SelectionResult).
Context (HI : Inv db) (HS : selections_ok db) (Hview : load_view sc db = Ok view) (Hpolicy : policy_ok policy).
Context (Hprev : load_selection_state sc (policy_id policy) db = Ok previous).
Context (Hsel : select view fixed policy previous now = Ok r).
Context (Hrev : forall p, previous = Some p -> revision p < MAX_INT64) (Hout : outbox_ok db).

Lemma round_view : exists s, catalog_scope_state db !! sc = Some s /\ v_scope view = sc /\ catalog_revision view = row_revision s /\
  turnover_revision view = row_turnover_revision s /\ view_ok view /\
  forall i, i ∈ instruments view <-> holds sc (c_key i) i /\ catalog_instrument db !! (sc, c_key i) = Some (row_for i).
Proof.
  destruct (catalog_scope_state db !! sc) as [s|] eqn:Es.
  - destruct (load_view_some sc db s HI Es) as (v & Hl & Hsc & Hr & Ht & Hv & Hi). assert (v = view) as -> by congruence.
    exists s. split_and!; try done. by apply view_validate_ok.
  - exfalso. destruct (load_view_none sc db HI Es) as (v & Hl & Hr & _). assert (v = view) as -> by congruence.
    unfold select in Hsel. inv_ok. unfold _validate_catalog in *. inv_ok. rewrite Hr in *.
    repeat match goal with H : _integer 0 _ 1 = Ok _ |- _ => apply integer_min_inv in H as [_ ?] end. lia.
Qed.

Lemma round_previous : stored_selection sc (policy_id policy) db = Ok previous /\
  match previous with Some p => state_ok p | None => True end.
Proof.
  assert (Hs : stored_selection sc (policy_id policy) db = Ok previous) by by apply load_selection_inv.
  split; [done|]. pose proof (stored_selection_ok _ _ _ _ HS Hs). by destruct previous as [p|]; [intuition|].
Qed.

Lemma round_selected : acceptable view fixed policy previous now = true /\ state_ok (Selector.next_state r) /\
  specified view fixed policy previous now r.
Proof.
  destruct round_view as (s & _ & _ & _ & _ & Hv & Hi). destruct round_previous as [_ Hp].
  assert (Hinst : instruments_ok view) by (apply Forall_forall; intros i Hin; apply Hi in Hin as [Hh _]; by eapply holds_key).
  pose proof (select_spec view fixed policy previous now Hv Hinst Hpolicy Hp) as H1.
  destruct (acceptable view fixed policy previous now); [|destruct H1 as [msg H1]; congruence].
  destruct H1 as (r' & Hr' & Hok & Hspec). assert (r' = r) as -> by congruence. done.
Qed.

(** The selected entries are those of stored instruments on offer. *)
Lemma round_entries : forall k en, r_entries r !! k = Some en -> holds sc k (instrument en) /\
  catalog_instrument db !! (sc, k) = Some (row_for (instrument en)) /\
  is_present (instrument en) = true /\ tradable (inst (instrument en)) = true.
Proof.
  intros k en Hk. destruct round_view as (s & _ & _ & _ & _ & Hv & Hi). destruct round_selected as (Hacc & _ & He & Hin & _).
  destruct (proj1 (list_elem_of_fmap _ _ _) (Hin k ltac:(by eexists))) as (item & -> & Hitem).
  rewrite (He item Hitem) in Hk. pose proof (expected_instrument _ _ _ _ _ _ _ Hk) as ->.
  destruct (expected_on_offer view fixed policy previous now item en (view_keys _ Hv) Hitem Hacc Hk). by apply Hi in Hitem as [? ?].
Qed.

Definition renewed : SelectionState := set_revision (match previous with None => 1 | Some p => revision p + 1 end) (Selector.next_state r).

Lemma round_next : s_scope renewed = sc /\ s_policy_id renewed = policy_id policy /\ entries renewed = r_entries r /\
  s_catalog_revision renewed = catalog_revision view /\ s_turnover_revision renewed = turnover_revision view /\
  1 <= revision renewed /\ state_facts renewed.
Proof.
  destruct round_view as (s & _ & Hsc & _). destruct round_selected as (_ & [Hinit _] & _ & _ & Hn & _). destruct round_previous as [_ Hp].
  assert (Hpos : 1 <= revision renewed <= MAX_INT64).
  { unfold renewed. cbn. destruct previous as [p|]; [|done]. destruct Hp as [Hp _]. apply state_init_inv in Hp as (_ & _ & Hp).
    pose proof (Hrev p eq_refl). lia. }
  apply (init_state_ok (Selector.next_state r)) in Hinit as [F1 F2 F3 F4 F5]. unfold renewed in *. rewrite Hn in *. cbn in *. split_and!; try done; [lia|].
  constructor; cbn; try done. lia.
Qed.

Lemma round_result : r_scope r = sc /\ r_policy_id r = policy_id policy /\ r_catalog_revision r = catalog_revision view /\
  r_turnover_revision r = turnover_revision view.
Proof.
  destruct round_view as (s & _ & Hsc & _). unfold select in Hsel. cbv zeta in Hsel. inv_ok.
  match goal with H : result_init _ _ _ _ _ _ _ = Ok r |- _ => unfold result_init in H; cbv zeta in H; inv_ok end.
  cbn. repeat match goal with H : _integer _ _ _ = Ok _ |- _ => apply integer_min_inv in H as [-> ?] end. done.
Qed.

Lemma round_body : commit_body sha256_hex r (catalog_revision view) (turnover_revision view) (revision <$> previous) db
  = let! db' := write_selection sha256_hex r renewed db in Ok (db', renewed).
Proof.
  destruct round_view as (s & Es & Hsc & Hc & Ht & Hv & Hi). destruct round_result as (Rs & Rp & Rc & Rt).
  destruct round_previous as [Hstored _]. destruct round_selected as (_ & _ & _ & _ & Hn & keys & Hd & _ & _ & Hk).
  destruct round_next as (Ns & Np & Ne & Nc & Nt & N1 & Nf).
  unfold commit_body, conflict. cbv zeta. rewrite Rs, Es. cbn [fmap option_fmap option_map]. rewrite Hc, Ht, !bool_decide_eq_true_2 by done.
  cbn [negb raise_if]. rewrite Rc, Rt, Hn. cbn [s_catalog_revision s_turnover_revision s_scope s_policy_id revision entries].
  rewrite Hc, Ht, !Z.eqb_refl. cbn [negb orb raise_if].
  destruct (load_prior sc db (inv_rows _ HI)) as (prior & -> & Hprior). cbn [rbind].
  rewrite check_selected_ok.
  2: { intros k en Hen. destruct (round_entries k en Hen) as (Hh & Hrow & Hon). split; [|done].
       destruct (Hprior k) as [Hrow' Hh']. rewrite Hrow in Hrow'. destruct (prior !! k) as [i|]; [|done]. f_equal.
       pose proof (holds_read _ _ _ (Hh' i eq_refl)) as H1. pose proof (holds_read _ _ _ Hh) as H2. cbn in Hrow'. congruence. }
  cbn [rbind]. rewrite Rp, Hstored. cbn [rbind]. rewrite bool_decide_eq_true_2 by done. cbn [negb raise_if].
  rewrite Z.eqb_refl. cbn [negb raise_if].
  change (match previous with Some p => entries p | None => ∅ end) with (previous_entries previous).
  rewrite (check_deltas_ok _ _ keys Hd Hk). cbn [rbind].
  pose proof (proj2 (init_state_ok renewed) Nf) as Hinit. unfold init_state in Hinit. rewrite Ns, Np, Ne, Nc, Nt, Hc, Ht in Hinit.
  rewrite Hsc. unfold renewed, set_revision in *. rewrite Hn in *. cbn [s_scope s_catalog_revision s_turnover_revision s_policy_id revision entries] in *.
  rewrite Hsc, Hc, Ht in *. rewrite Hinit. done.
Qed.

Lemma round_commits :
  let '(db', out) := commit_selection sha256_hex r (catalog_revision view) (turnover_revision view) (revision <$> previous) db in
  if taken (selection_change_outbox db) (committed_rows r (revision renewed)).*1
  then out = Err (IntegrityError "UNIQUE constraint failed") /\ db' = db
  else out = Ok renewed /\ load_selection_state sc (policy_id policy) db' = Ok (Some renewed) /\ selections_ok db' /\
    Inv db' /\ outbox_ok db' /\
    selection_change_outbox db' = foldl (fun t er => <[er.1 := er.2]> t) (selection_change_outbox db) (committed_rows r (revision renewed)).
Proof.
  destruct round_next as (Ns & Np & Ne & Nc & Nt & N1 & Nf). destruct round_result as (Rs & Rp & Rc & Rt).
  destruct round_previous as [Hstored Hp].
  assert (Hgo : commit_selection sha256_hex r (catalog_revision view) (turnover_revision view) (revision <$> previous) db
    = transaction (commit_body sha256_hex r (catalog_revision view) (turnover_revision view) (revision <$> previous)) db).
  { destruct Nf as [F1 F2 _ F4 _]. rewrite Nc in F1. rewrite Nt in F2. unfold commit_selection, mbind, mlift.
    rewrite !(proj2 (nonnegative_spec _ _ _)) by (split; [reflexivity|lia]). cbn [raise_if]. rewrite (proj2 (Z.eqb_neq _ _)) by lia. cbn [raise_if].
    destruct previous as [p|] eqn:Epr; cbn [fmap option_fmap option_map]; [|done]. pose proof (Hrev p eq_refl) as Hlt.
    pose proof (stored_selection_ok _ _ _ _ HS (load_selection_inv _ _ _ _ Hprev)) as (_ & _ & _ & Hge).
    unfold _optional_nonnegative_int, optionally. rewrite (proj2 (nonnegative_spec _ _ _)) by (split; [reflexivity|lia]). cbn [rbind].
    rewrite bool_decide_eq_false_2 by (intros [= Hz]; lia). done. }
  rewrite Hgo. pose proof round_body as Hbody. unfold transaction. rewrite Hbody.
  assert (Hnew : forall m, revision_of (r_scope r) (r_policy_id r) db = Some m -> m < revision renewed).
  { intros m Hm. apply stored_selection_revision in Hstored. rewrite Rs, Rp, <- Hstored in Hm. unfold renewed. cbn.
    destruct previous as [p|]; [|done]. injection Hm as <-. lia. }
  pose proof (write_selection_cases r renewed db Nf ltac:(congruence) ltac:(congruence) ltac:(congruence) N1 Hout Hnew) as Hw.
  destruct (taken _ _); rewrite Hw in Hbody |- *; cbn [rbind] in *; [done|]. clear Hw.
  match type of Hbody with _ = Ok (?d, _) => set (db' := d) in * end.
  pose proof (commit_body_committed _ _ _ _ _ _ _ HI Hbody) as Hco.
  assert (Hm : map_Forall (fun k en => entry_made sc k en /\ stored_entry en = en) (entries renewed)).
  { intros k en Hk. rewrite Ne in Hk. destruct (round_entries k en Hk) as (Hh & _). apply holds_entry; [done|].
    destruct round_selected as (_ & [_ Hok] & _ & _ & Hn & _). apply (Hok k). by rewrite Hn. }
  destruct (committed_selections r _ _ _ db db' renewed Hco HS N1 ltac:(congruence) ltac:(congruence)) as [Hl HS'].
  { rewrite Ns. eapply map_Forall_impl; [exact Hm|]. by intros k en []. }
  assert (Hst : stored_state renewed = renewed).
  { unfold stored_state. replace (stored_entry <$> entries renewed) with (entries renewed); [by destruct renewed|]. apply map_eq.
    intros k. rewrite lookup_fmap. destruct (entries renewed !! k) as [en|] eqn:Ek; [|done]. cbn. f_equal. symmetry. by apply (Hm k). }
  split; [done|]. split; [|split; [done|split; [|split]]].
  - rewrite Rs, Rp, Hst in Hl. unfold load_selection_state, _sha256_digest. destruct Hpolicy as (_ & _ & ->). exact Hl.
  - destruct (co_tables _ _ _ _ _ _ _ Hco) as (? & ? & ? & _). by eapply Inv_tables; [..|exact HI].
  - pose proof (step_commit_outbox sha256_hex r (catalog_revision view) (turnover_revision view) (revision <$> previous) db Hout) as Hok.
    rewrite Hgo in Hok. unfold transaction in Hok. by rewrite Hbody in Hok.
  - done.
Qed.
End Round.
End Selections.

(** ** What the store promises of selections *)
Section Theorems.
Context `{JsonCodecLaws} (sha256_hex : string -> string) (Hsha : forall s, config_sha256_ok (sha256_hex s) = true).

(** C13: A selection made from the loaded catalog and the loaded state of its policy is
    committed, as long as nothing else was written: the commit raises the revision of the
    state by one, the state that is loaded from then on is exactly the committed one, the
    outbox gains one event per delta and the tables stay readable.  It is refused exactly
    if the identity of one of its events is in use, and nothing is changed then. *)
Theorem selected_commits db sc view fixed policy previous now r : Inv db -> outbox_ok db -> selections_ok db -> policy_ok policy ->
  load_view sc db = Ok view -> load_selection_state sc (policy_id policy) db = Ok previous ->
  select view fixed policy previous now = Ok r -> (forall p, previous = Some p -> revision p < MAX_INT64) ->
  let next := set_revision (match previous with None => 1 | Some q => revision q + 1 end) (Selector.next_state r) in
  let events := committed_rows sha256_hex r (revision next) in
  let '(db', out) := commit_selection sha256_hex r (catalog_revision view) (turnover_revision view) (revision <$> previous) db in
  if taken (selection_change_outbox db) events.*1 then out = Err (IntegrityError "UNIQUE constraint failed") /\ db' = db
  else out = Ok next /\ load_selection_state sc (policy_id policy) db' = Ok (Some next) /\ selections_ok db' /\
    Inv db' /\ outbox_ok db' /\
    selection_change_outbox db' = foldl (fun t er => <[er.1 := er.2]> t) (selection_change_outbox db) events.
Proof. intros HI Ho HS Hp Hv Hl Hs Hr. by eapply round_commits. Qed.

(** Whatever result is committed, a refused commit changes nothing, and an accepted one
    was made for the revisions of catalog, turnover and state that are stored, selects
    only instruments that equal the stored ones and are on offer, replaces the state of
    this scope and policy only, adds one event per delta to the outbox, in their order,
    and is what the state loads as. *)
Theorem selection_commit_exact db r c t e : Inv db -> selections_ok db -> s_scope (Selector.next_state r) = r_scope r ->
  s_policy_id (Selector.next_state r) = r_policy_id r ->
  map_Forall (entry_made (r_scope r)) (entries (Selector.next_state r)) ->
  match commit_selection sha256_hex r c t e db with
  | (db', Ok p) => committed sha256_hex r c t e db db' p /\
      load_selection_state (r_scope r) (r_policy_id r) db' = Ok (Some (stored_state p)) /\ selections_ok db' /\ Inv db'
  | (db', Err _) => db' = db
  end.
Proof.
  intros HI HS Es Ep Hm. pose proof (commit_cases sha256_hex r c t e db) as Hc.
  destruct (commit_selection sha256_hex r c t e db) as [db' [p|err]]; [|done]. apply commit_body_committed in Hc; [|done].
  pose proof Hc as [Hp Hf _ _ Hseen _ _ _ (? & ? & ? & _)].
  destruct (committed_selections sha256_hex r c t e db db' p Hc HS) as [Hl HS'].
  - rewrite Hp. cbn. rewrite <- Hseen. unfold revision_of. destruct (selection_state db !! (r_scope r, r_policy_id r)) as [row|] eqn:E; [|done].
    destruct (HS _ _ _ E) as (q & Hq & _ & _ & _ & Hpos). apply row_revision_read in Hq. cbn. lia.
  - by rewrite Hp.
  - by rewrite Hp.
  - rewrite Hp. cbn. by rewrite Es.
  - split_and!; [done| |done|by eapply Inv_tables; [..|exact HI]].
    assert (Hpol : config_sha256_ok (r_policy_id r) = true) by (rewrite <- Ep; destruct Hf; by rewrite Hp in *).
    unfold load_selection_state, _sha256_digest. by rewrite Hpol.
Qed.

(** C14: No update is lost.  Once a commit for a scope and a policy was accepted, no other
    commit that was made for the same expected revision is ever accepted, whatever the
    store did in between, and refusing it changes nothing. *)
Theorem selection_no_lost_update db r1 c1 t1 e db1 p db2 r2 c2 t2 : store_reachable sha256_hex db ->
  commit_selection sha256_hex r1 c1 t1 e db = (db1, Ok p) -> rtc (store_step sha256_hex) db1 db2 ->
  r_scope r2 = r_scope r1 -> r_policy_id r2 = r_policy_id r1 ->
  exists err, commit_selection sha256_hex r2 c2 t2 e db2 = (db2, Err err).
Proof.
  intros [Hdb Ho]%store_reachable_inv Hfirst Hsteps Es Ep; [|done].
  assert (HI1 : Inv db1 /\ outbox_ok db1).
  { eapply (store_step_inv sha256_hex Hsha db); [done|done|]. pose proof (step_commit sha256_hex db r1 c1 t1 e) as Hstep. by rewrite Hfirst in Hstep. }
  destruct HI1 as [HI1 Ho1]. pose proof (commit_cases sha256_hex r1 c1 t1 e db) as Hc1. rewrite Hfirst in Hc1.
  apply commit_body_committed in Hc1 as [Hp _ _ _ _ _ Hw _ _]; [|done].
  assert (Hrev : revision_of (r_scope r1) (r_policy_id r1) db1 = Some (default 0 e + 1)).
  { unfold revision_of. rewrite Hw, lookup_insert_eq. cbn. by rewrite Hp. }
  destruct (commit_steps_revision sha256_hex Hsha _ _ db1 db2 _ HI1 Ho1 Hsteps Hrev) as (m & Hm & Hle).
  assert (HI2 : Inv db2).
  { clear -HI1 Ho1 Hsteps Hsha H0. induction Hsteps as [|x y z Hxy _ IH]; [done|].
    destruct (store_step_inv sha256_hex Hsha _ _ HI1 Ho1 Hxy). by apply IH. }
  pose proof (commit_cases sha256_hex r2 c2 t2 e db2) as Hc2.
  destruct (commit_selection sha256_hex r2 c2 t2 e db2) as [db3 [q|err]]; [|exists err; by subst].
  apply commit_body_committed in Hc2 as [_ _ _ _ Hseen _ _ _ _]; [|done]. exfalso. rewrite Es, Ep, Hm in Hseen. subst e. cbn in Hle. lia.
Qed.
End Theorems.

(** ** An example *)
#[local] Existing Instances example_codec example_codec_laws.
Definition ex_scope : CatalogScope := {| sc_exchange := KRAKEN; sc_market := SPOT |}.
Definition ex_store : Db := (apply_catalog_snapshot example_digest (ex_snapshot 10 TRADABLE) 0 empty_db).1.
Definition ex_policy : SelectionPolicy := {|
  p_scope := ex_scope; quote_assets := ["USD"]; top_n := 3; turnover_max_age_ns := 100; new_listings_enabled := true;
  new_listing_capture_duration_ns := 100; exit_grace_ns := 50; policy_id := example_digest "policy" |}.
Definition ex_fixed : ResolvedFixedSelection :=
  {| f_scope := ex_scope; f_catalog_revision := 1; f_instrument_keys := {["XBTUSD"]} |}.
(** The first round, and the store after its commit. *)
Definition ex_result : result SelectionResult :=
  let! view := load_view ex_scope ex_store in select view ex_fixed ex_policy None 20.
Definition ex_commit_of (db : Db) (out : result SelectionResult) : Db * result SelectionState :=
  match out with
  | Ok r => commit_selection example_digest r 1 0 None db
  | Err e => (db, Err e)
  end.
Definition ex_commit : Db * result SelectionState := ex_commit_of ex_store ex_result.

Lemma ex_policy_ok : policy_ok ex_policy.
Proof. split; [by vm_compute|]. split; [by vm_compute|]. apply example_digest_ok. Qed.
Lemma ex_store_reachable : store_reachable example_digest ex_store.
Proof. eapply reach_step; [apply reach_empty|]. apply step_catalog, ex_snapshot_made. Qed.
Lemma ex_selections : selections_ok ex_store.
Proof.
  intros sc pid row. unfold ex_store.
  destruct (apply_catalog_snapshot example_digest (ex_snapshot 10 TRADABLE) 0 empty_db) as [db [ch|e]] eqn:E; cbn [fst].
  - destruct (apply_catalog_inv example_digest example_digest_ok _ _ _ _ _ Inv_empty outbox_empty (ex_snapshot_made TRADABLE) E)
      as (_ & _ & [(_ & _ & Ha & _)%applied_facts|[-> _]]); [rewrite Ha|]; cbn [empty_db selection_state]; by rewrite lookup_empty.
  - apply apply_catalog_error in E as ->. cbn [empty_db selection_state]. by rewrite lookup_empty.
Qed.
Lemma ex_inv : Inv ex_store /\ outbox_ok ex_store.
Proof. apply (store_reachable_inv example_digest example_digest_ok), ex_store_reachable. Qed.
Lemma ex_round : is_ok ex_commit.2 = true. Proof. vm_compute. reflexivity. Qed.
Lemma ex_header : match load_view ex_scope ex_store with Ok v => (catalog_revision v, turnover_revision v) | Err _ => (0, 0) end = (1, 0).
Proof. vm_compute. reflexivity. Qed.
Lemma ex_state_none : load_selection_state ex_scope (policy_id ex_policy) ex_store = Ok None.
Proof. vm_compute. reflexivity. Qed.

(** What the first round selects and commits. *)
Lemma ex_first : exists view r p, load_view ex_scope ex_store = Ok view /\
  select view ex_fixed ex_policy None 20 = Ok r /\ catalog_revision view = 1 /\ turnover_revision view = 0 /\
  commit_selection example_digest r 1 0 None ex_store = (ex_commit.1, Ok p).
Proof.
  pose proof ex_round as Hok. pose proof ex_header as Hh. unfold ex_commit, ex_result in *.
  destruct (load_view ex_scope ex_store) as [view|e]; [|discriminate Hok]. cbn [rbind] in *.
  destruct (select view ex_fixed ex_policy None 20) as [r|e] eqn:Es; [|discriminate Hok]. cbn [ex_commit_of] in *.
  destruct (commit_selection example_digest r 1 0 None ex_store) as [db [p|e]] eqn:Ec; [|discriminate Hok].
  exists view, r, p. injection Hh as Hc Ht. split_and!; try assumption; reflexivity.
Qed.

Lemma selected_commits_witness : exists view r p, load_view ex_scope ex_store = Ok view /\
  select view ex_fixed ex_policy None 20 = Ok r /\
  commit_selection example_digest r 1 0 None ex_store = (ex_commit.1, Ok p) /\
  p = set_revision 1 (Selector.next_state r) /\ load_selection_state ex_scope (policy_id ex_policy) ex_commit.1 = Ok (Some p).
Proof.
  destruct ex_first as (view & r & p & Hv & Hs & Hc & Ht & Hp). exists view, r, p.
  pose proof (selected_commits example_digest ex_store ex_scope view ex_fixed ex_policy None 20 r (proj1 ex_inv) (proj2 ex_inv)
    ex_selections ex_policy_ok Hv ex_state_none Hs (fun q Hq => ltac:(discriminate Hq))) as H.
  cbv zeta in H. rewrite Hc, Ht in H. cbn [fmap option_fmap option_map] in H. rewrite Hp in H.
  destruct (taken _ _); [destruct H as [Hx _]; discriminate Hx|]. destruct H as (H1 & H2 & _). injection H1 as H1.
  split; [exact Hv|]. split; [exact Hs|]. split; [exact Hp|]. split; [exact H1|rewrite H1; exact H2].
Defined.

(** A commit that nothing was selected for. *)
Definition ex_empty (revision : Z) : SelectionResult := {|
  r_scope := ex_scope; r_catalog_revision := 1; r_turnover_revision := 0; r_policy_id := policy_id ex_policy; r_entries := ∅;
  Selector.next_state := {| s_scope := ex_scope; s_catalog_revision := 1; s_turnover_revision := 0;
    s_policy_id := policy_id ex_policy; Selector.revision := revision; entries := ∅ |}; deltas := [] |}.

Lemma selection_commit_exact_witness :
  match commit_selection example_digest (ex_empty 0) 1 0 None ex_store with
  | (db', Ok p) => revision p = 1 /\ load_selection_state ex_scope (policy_id ex_policy) db' = Ok (Some (stored_state p))
  | (_, Err _) => False
  end.
Proof.
  pose proof (selection_commit_exact example_digest ex_store (ex_empty 0) 1 0 None (proj1 ex_inv) ex_selections eq_refl eq_refl
    ltac:(intros k en Hk; cbn in Hk; rewrite lookup_empty in Hk; discriminate Hk)) as H.
  assert (Hok : is_ok (commit_selection example_digest (ex_empty 0) 1 0 None ex_store).2 = true) by (vm_compute; reflexivity).
  destruct (commit_selection example_digest (ex_empty 0) 1 0 None ex_store) as [db [p|e]]; [|discriminate Hok].
  destruct H as ([Hp _ _ _ _ _ _ _ _] & Hl & _). split; [rewrite Hp; reflexivity|exact Hl].
Defined.

Lemma selection_no_lost_update_witness : exists err,
  commit_selection example_digest (ex_empty 0) 1 0 None ex_commit.1 = (ex_commit.1, Err err).
Proof.
  destruct ex_first as (view & r & p & Hv & Hs & Hc & Ht & Hp).
  assert (Hr : r_scope r = ex_scope /\ r_policy_id r = policy_id ex_policy).
  { destruct (round_result ex_store ex_scope view ex_fixed ex_policy None 20 r (proj1 ex_inv) Hv ex_state_none Hs) as (H1 & H2 & _). split; assumption. }
  apply (selection_no_lost_update example_digest example_digest_ok ex_store r 1 0 None ex_commit.1 p ex_commit.1 (ex_empty 0) 1 0
    ex_store_reachable Hp (rtc_refl _ _)); symmetry; apply Hr.
Defined.
