(* ===== verification/PartPath.v ===== *)
(** The paths of raw parts: [storage/layout.py], the path helpers of [storage/manifest.py]
    and of [storage/recovery.py].  A path is relative to the data root; resolving the root
    and its symbolic links is left out.  [Path] is used on normalised paths only, whose
    components are those between the slashes. *)
From stdpp Require Import pretty.
From S2P Require Import Prelude PyDecimal RateLimit Domain StorageModels PyText CatalogJson PyTime.

(** ** Text *)
Definition join_with (sep : string) (parts : list string) : string := String.concat sep parts.
Definition removesuffix (w s : string) : string :=
  if suffix w s then String.substring 0 (String.length s - String.length w) s else s.
(** [Path.name] and [Path.with_name] *)
Definition name (path : string) : string := List.last (split_on slash path) "".
Definition with_name (path filename : string) : string :=
  join_with "/" (removelast (split_on slash path) ++ [filename]).

(** [f"{n:0{width}d}"] for [n >= 0] *)
Definition zero_padded (width : nat) (n : Z) : string :=
  String.string_of_list_ascii (replicate (width - length (natural n)) (chr 48) ++ natural n).

(** Whether bytes are UTF-8. *)
Definition in_range (lo hi : nat) (c : Ascii.ascii) : bool :=
  let n := Ascii.nat_of_ascii c in ((lo <=? n) && (n <=? hi))%nat.
Fixpoint utf8 (cs : chars) : bool :=
  match cs with
  | [] => true
  | a :: r1 =>
      if in_range 0 127 a then utf8 r1
      else match r1 with
      | [] => false
      | b :: r2 =>
          if in_range 194 223 a then in_range 128 191 b && utf8 r2
          else match r2 with
          | [] => false
          | c :: r3 =>
              if in_range 224 239 a then
                in_range (if is_char 224 a then 160 else 128) (if is_char 237 a then 159 else 191) b
                && in_range 128 191 c && utf8 r3
              else match r3 with
              | [] => false
              | d :: r4 =>
                  in_range 240 244 a
                  && in_range (if is_char 240 a then 144 else 128) (if is_char 244 a then 143 else 191) b
                  && in_range 128 191 c && in_range 128 191 d && utf8 r4
              end
          end
      end
  end.
Definition is_text (s : string) : bool := utf8 (String.list_ascii_of_string s).

(** ** [storage/layout.py] *)
Definition _NS_PER_SECOND : Z := 1000000000.

Definition _non_negative_int (value : Z) (name : string) : result Z :=
  raise ValueError (name +:+ " must be a non-negative integer") when value <? 0;; Ok value.

Definition _path_segment (value name : string) : result string :=
  raise ValueError (name +:+ " must be a path-safe segment without traversal")
    when bool_decide (value ∈ ["."; ".."]) || has_char Ascii.zero value || has_char slash value || has_char backslash value;;
  Ok value.

Definition _scope_segments (e : RawEnvelope) : result (list string) :=
  let exchange := exchange_value (exchange (base e)) in
  if String.eqb (logical_stream (base e)) "_control" then Ok ["raw"; exchange; "_control"]
  else match market (base e) with
  | None => Err (ValueError "non-control storage records require a market")
  | Some market =>
      let! stream := _path_segment (logical_stream (base e)) "logical_stream" in
      match instrument_key (base e) with
      | None => Ok ["raw"; exchange; market_value market; "_market"; stream]
      | Some key =>
          let! instrument := encode_instrument_key key in
          Ok ["raw"; exchange; market_value market; instrument; stream]
      end
  end.

Definition hour_segments (h : Hour) : list string :=
  [zero_padded 4 (h_year h); zero_padded 2 (h_month h); zero_padded 2 (h_day h); zero_padded 2 (h_hour h)].
Definition received_hour (received_at_ns : Z) : option Hour := fromtimestamp (received_at_ns / _NS_PER_SECOND).

Definition part_filename (start sequence : Z) : string :=
  "part-" +:+ str_of_int start +:+ "-" +:+ str_of_int sequence +:+ ".jsonl.zst".

(** [joinpath] drops an empty segment.  A receipt time outside the years that [datetime]
    knows raises; which exception it is depends on the platform. *)
Definition raw_partial_path (e : RawEnvelope) (part_start_ns sequence : Z) : result string :=
  let! start := _non_negative_int part_start_ns "part_start_ns" in
  let! part_sequence := _non_negative_int sequence "sequence" in
  match received_hour (received_at_ns e) with
  | None => Err (ValueError "year is out of range")
  | Some received_at =>
      let partition := hour_segments received_at in
      let filename := part_filename start part_sequence +:+ ".partial" in
      let! scope := _scope_segments e in
      Ok (join_with "/" (List.filter nonempty (scope ++ partition ++ [filename])))
  end.

(** ** The names of [storage/manifest.py] *)
Definition _sibling_path (path suffix_ : string) : result string :=
  raise ValueError "data path must name a complete .jsonl.zst file" when negb (suffix ".jsonl.zst" (name path));;
  let stem := removesuffix ".jsonl.zst" (name path) in
  raise ValueError "data path must name a complete .jsonl.zst file"
    when bool_decide (stem ∈ [""; "."; ".."]);;
  Ok (with_name path (stem +:+ suffix_)).
Definition manifest_path_for_data (path : string) : result string := _sibling_path path ".manifest.json".
Definition lease_path_for_data (path : string) : result string := _sibling_path path ".lease".

(** [strftime("%Y/%m/%d/%H")]; the years of times from 1970 on have four digits. *)
Definition _utc_storage_hour (timestamp_ns : Z) : result string :=
  match received_hour timestamp_ns with
  | None => Err (ValueError "timestamp is outside the supported UTC range")
  | Some h => Ok (join_with "/" (hour_segments h))
  end.

(** ** The paths of [storage/recovery.py] *)

(** The digits of a number at the start of a text, and what follows. *)
Fixpoint span_digits (cs : chars) : chars * chars :=
  match cs with
  | c :: rest => if is_digit c then let '(d, r) := span_digits rest in (c :: d, r) else ([], cs)
  | [] => ([], [])
  end.
(** A number without leading zeros at the start of a text *)
Definition canonical_int (cs : chars) : option (Z * chars) :=
  let '(d, r) := span_digits cs in
  match d with
  | [] => None
  | c :: rest => if is_char 48 c && negb (bool_decide (rest = [])) then None else Some (parse_digits d, r)
  end.
Fixpoint drop_prefix (w cs : chars) : option chars :=
  match w, cs with
  | [], cs => Some cs
  | c :: w, d :: cs => if Ascii.eqb c d then drop_prefix w cs else None
  | _, [] => None
  end.

(** [_FINAL_PART_NAME.fullmatch(name)] and its two groups as numbers *)
Definition _FINAL_PART_NAME (name : string) : option (Z * Z) :=
  r ← drop_prefix (chars_of "part-") (chars_of name);
  '(start, r) ← canonical_int r;
  r ← drop_prefix (chars_of "-") r;
  '(sequence, r) ← canonical_int r;
  if bool_decide (r = chars_of ".jsonl.zst") then Some (start, sequence) else None.

Definition _normalized_relative_path (value field_name : string) : result string :=
  match validate_normalized_data_relative_path value with
  | Ok v => Ok v
  | Err _ => Err (ValueError (field_name +:+ " must be normalized"))
  end.

Definition _quarantine_relative_path (source_relative_path suffix_ : string) : result string :=
  let! source := _normalized_relative_path source_relative_path "source_relative_path" in
  raise ValueError "source_relative_path must name raw data"
    when negb (suffix ".jsonl.zst" source || suffix ".jsonl.zst.partial" source);;
  _normalized_relative_path ("quarantine/" +:+ source +:+ "." +:+ suffix_) "quarantine_relative_path".
Definition bad_tail_quarantine_relative_path (p : string) : result string := _quarantine_relative_path p "bad-tail".
Definition whole_source_quarantine_relative_path (p : string) : result string := _quarantine_relative_path p "whole".

Record _SourcePathIdentity : Type := {
  sp_exchange : Exchange; sp_market : option Market; sp_instrument_key : option string;
  sp_logical_stream : string; storage_hour : list string
}.
#[export] Instance path_identity_eq_dec : EqDecision _SourcePathIdentity.
Proof. solve_decision. Defined.

(** Market, instrument and stream of the components below the exchange, the four of the
    hour, and the file name. *)
Definition parse_scope (parts : list string)
    : result (option Market * option string * string * list string * string) :=
  match parts with
  | [_; _; control; y; m; d; h; filename] =>
      raise ValueError "source path does not match a raw storage scope" when negb (String.eqb control "_control");;
      Ok (None, None, "_control", [y; m; d; h], filename)
  | [_; _; market_segment; identity_segment; stream; y; m; d; h; filename] =>
      match of_value market_segment with
      | None => Err (ValueError "source path has an invalid market")
      | Some market =>
          if String.eqb identity_segment "_market" then
            raise ValueError "source path market scope does not match stream"
              when negb (bool_decide (stream ∈ MARKET_SCOPED_STREAMS));;
            Ok (Some market, None, stream, [y; m; d; h], filename)
          else
            let key := decode_instrument_key identity_segment in
            raise ValueError "invalid utf-8" when negb (is_text key);;
            let! encoded := encode_instrument_key key in
            raise ValueError "source path instrument encoding is not canonical"
              when negb (String.eqb encoded identity_segment);;
            raise ValueError "market-scoped stream cannot use an instrument path"
              when bool_decide (stream ∈ MARKET_SCOPED_STREAMS);;
            Ok (Some market, Some key, stream, [y; m; d; h], filename)
      end
  | _ => Err (ValueError "source path does not match a raw storage scope")
  end.

(** The largest [int] of C. *)
Definition INT_MAX : Z := 2147483647.
Definition c_int (z : Z) : bool := (- INT_MAX - 1 <=? z) && (z <=? INT_MAX).

(** [datetime(int(y), int(m), int(d), int(h), tzinfo=UTC)] under its [except].  The
    constructor converts its arguments to C integers first and raises [OverflowError],
    which is not caught. *)
Definition parse_storage_hour (hour : list string) : result Hour :=
  match mapM int_of_str hour with
  | Some [y; m; d; h] =>
      raise OverflowError "signed integer is greater than maximum" when negb (forallb c_int [y; m; d; h]);;
      match datetime_utc y m d h with
      | Some hour => Ok hour
      | None => Err (ValueError "source path storage hour is invalid")
      end
  | _ => Err (ValueError "source path storage hour is invalid")
  end.

Definition _parse_source_path (source_relative_path : string) : result _SourcePathIdentity :=
  let! source := _normalized_relative_path source_relative_path "source_relative_path" in
  let parts := split_on slash source in
  raise ValueError "source path must be below raw" when negb (bool_decide (parts !! 0%nat = Some "raw"));;
  match parts !! 1%nat ≫= of_value with
  | None => Err (ValueError "source path has an invalid exchange")
  | Some exchange =>
      let! '(market, instrument_key, logical_stream, hour, filename) := parse_scope parts in
      let! parsed_hour := parse_storage_hour hour in
      let canonical_hour := hour_segments parsed_hour in
      raise ValueError "source path storage hour is not canonical" when negb (bool_decide (hour = canonical_hour));;
      match _FINAL_PART_NAME (removesuffix ".partial" filename) with
      | None => Err (ValueError "source path does not name a canonical raw part")
      | Some (start, _) =>
          let expected_hour_start_ns := timestamp parsed_hour * 1000000000 in
          raise ValueError "source part start does not match its storage hour"
            when negb (start =? expected_hour_start_ns);;
          Ok {| sp_exchange := exchange; sp_market := market; sp_instrument_key := instrument_key;
                sp_logical_stream := logical_stream; storage_hour := canonical_hour |}
      end
  end.

(** [uuid.uuid5(RECOVERY_GENERATION_NAMESPACE, name)] is a parameter. *)
Definition recovery_generation_id (uuid5 : string -> string) (data_relative_path : string) : result string :=
  let! normalized := _normalized_relative_path data_relative_path "data_relative_path" in
  raise ValueError "data_relative_path must name a canonical final raw part"
    when bool_decide (_FINAL_PART_NAME (name normalized) = None);;
  let! _ := _parse_source_path normalized in
  Ok (uuid5 normalized).

Definition _next_recovery_relative_path (source_relative_path : string) (next_part_sequence : Z) : result string :=
  raise ValueError "next_part_sequence must be a non-negative integer" when next_part_sequence <? 0;;
  match _FINAL_PART_NAME (removesuffix ".partial" (name source_relative_path)) with
  | None => Err (ValueError "partial source does not have a canonical part name")
  | Some (start, _) =>
      let candidate := with_name source_relative_path (part_filename start next_part_sequence) in
      raise ValueError "recovery sequence must allocate a distinct part path"
        when String.eqb candidate (removesuffix ".partial" source_relative_path);;
      Ok candidate
  end.

(** ** Components *)
(** What may stand between two slashes. *)
Definition component (s : string) : bool :=
  negb (bool_decide (s ∈ [""; "."; ".."])) && negb (has_char Ascii.zero s) && negb (has_char slash s) && negb (has_char backslash s).

Lemma has_char_app c s t : has_char c (s +:+ t) = has_char c s || has_char c t.
Proof. unfold has_char. by rewrite chars_app, existsb_app. Qed.
Lemma split_component s : has_char slash s = false -> split_on slash s = [s].
Proof.
  induction s as [|c s IH]; [done|]. unfold has_char. cbn. intros [Hc Hs]%orb_false_iff.
  rewrite Ascii.eqb_sym, Hc, IH by exact Hs. done.
Qed.
Lemma split_app s t : has_char slash s = false -> split_on slash (s +:+ "/" +:+ t) = s :: split_on slash t.
Proof.
  induction s as [|c s IH]; [done|]. unfold has_char. cbn. intros [Hc Hs]%orb_false_iff.
  change (split_on slash (String c s +:+ "/" +:+ t)) with (split_on slash (String c (s +:+ "/" +:+ t))).
  cbn [split_on]. rewrite Ascii.eqb_sym, Hc. by rewrite IH by exact Hs.
Qed.
Lemma split_join parts : parts <> [] -> forallb (fun s => negb (has_char slash s)) parts = true ->
  split_on slash (join_with "/" parts) = parts.
Proof.
  unfold join_with. induction parts as [|s [|t parts] IH]; [done| |]; intros _ H; apply andb_true_iff in H as [Hs%negb_true_iff H].
  - by apply split_component.
  - cbn [String.concat]. rewrite split_app by done. f_equal. by apply IH.
Qed.

Lemma component_slash s : component s = true -> has_char slash s = false.
Proof. unfold component. intros H. bool_prop. done. Qed.
Lemma components_slash parts : forallb component parts = true -> forallb (fun s => negb (has_char slash s)) parts = true.
Proof. rewrite !forallb_forall. intros H s Hs. apply negb_true_iff, component_slash. auto. Qed.

Lemma has_char_join c sep parts : has_char c sep = false -> forallb (fun s => negb (has_char c s)) parts = true ->
  has_char c (join_with sep parts) = false.
Proof.
  intros Hsep. unfold join_with. induction parts as [|s [|t parts] IH]; [done| |]; intros H;
    apply andb_true_iff in H as [Hs%negb_true_iff H]; [done|].
  change (String.concat sep (s :: t :: parts)) with (s +:+ sep +:+ String.concat sep (t :: parts)).
  by rewrite !has_char_app, Hsep, Hs, IH.
Qed.

Lemma join_normalized parts : parts <> [] -> forallb component parts = true ->
  validate_normalized_data_relative_path (join_with "/" parts) = Ok (join_with "/" parts) /\
  split_on slash (join_with "/" parts) = parts.
Proof.
  intros Hne H. pose proof (split_join parts Hne (components_slash _ H)) as Hsplit. split; [|done].
  unfold validate_normalized_data_relative_path. rewrite Hsplit.
  assert (Hch : forall c, c = Ascii.zero \/ c = backslash -> has_char c (join_with "/" parts) = false).
  { intros c Hc. apply has_char_join; [by destruct Hc as [->| ->]|]. rewrite forallb_forall in H |- *. intros s Hs.
    specialize (H s Hs). unfold component in H. bool_prop. destruct Hc as [->| ->]; by apply negb_true_iff. }
  rewrite !Hch by auto. destruct parts as [|s parts]; [done|]. cbn in H. bool_prop.
  assert (Hs : exists c s', s = String c s' /\ Ascii.eqb c slash = false).
  { destruct s as [|c s']; [by unfold component in H|]. exists c, s'. split; [done|].
    apply component_slash in H. unfold has_char in H. cbn in H. apply orb_false_iff in H as [H _]. by rewrite Ascii.eqb_sym. }
  destruct Hs as (c & s' & -> & Hc).
  assert (Hj : exists t, join_with "/" (String c s' :: parts) = String c t).
  { unfold join_with. destruct parts as [|u parts]; cbn [String.concat]; by eexists. }
  destruct Hj as [t Hj]. rewrite Hj. cbn [nonempty String.eqb negb orb String.prefix].
  destruct (Ascii.ascii_dec slash c) as [<-|_]; [by rewrite Ascii.eqb_refl in Hc|]. cbn [orb].
  replace (existsb _ _) with false; [done|]. symmetry. apply not_true_iff_false. intros (u & Hu & Hbad)%existsb_exists.
  assert (component u = true) as Hcomp by (destruct Hu as [<-|Hu]; [done|by eapply forallb_forall in H0]).
  unfold component in Hcomp. bool_prop. done.
Qed.

(** ** Numbers in names *)
Lemma zero_padded_int w n : 0 <= n -> int_of_str (zero_padded w n) = Some n.
Proof.
  intros Hn. unfold zero_padded. set (cs := replicate _ _ ++ natural n).
  assert (Hd : forallb is_digit cs = true) by (unfold cs; by rewrite forallb_app, zeros_digits, natural_digits).
  assert (Hrun : digits_run cs = true).
  { unfold digits_run. rewrite Hd, bool_decide_eq_false_2; [done|]. unfold cs. intros [_ E]%app_eq_nil. by apply natural_cons in E. }
  unfold int_of_str. rewrite strip_blank_free by (unfold blank_free; rewrite chars_string; by apply digits_graphic).
  rewrite chars_string. pose proof (signed_chars 0 cs Hrun) as Hs. change (sign_chars 0 ++ cs) with cs in Hs. rewrite Hs.
  rewrite int_digits_run by done. cbn. unfold cs. by rewrite leading_zeros, natural_value.
Qed.

Lemma zero_padded_digits w n : forallb is_digit (chars_of (zero_padded w n)) = true /\ chars_of (zero_padded w n) <> [].
Proof.
  unfold zero_padded. rewrite chars_string. split; [by rewrite forallb_app, zeros_digits, natural_digits|].
  intros [_ E]%app_eq_nil. by apply natural_cons in E.
Qed.

Definition plain_char (c : Ascii.ascii) : bool :=
  negb (Ascii.eqb c Ascii.zero) && negb (Ascii.eqb c slash) && negb (Ascii.eqb c backslash).
Lemma plain_component s : s ∉ [""; "."; ".."] -> forallb plain_char (chars_of s) = true -> component s = true.
Proof.
  intros Hdot H. unfold component, has_char.
  assert (Hex : forall c, plain_char c = false -> existsb (Ascii.eqb c) (chars_of s) = false).
  { intros c Hc. apply not_true_iff_false. intros (d & Hd & E%Ascii.eqb_eq)%existsb_exists. subst d.
    rewrite forallb_forall in H. specialize (H c Hd). congruence. }
  rewrite !Hex by done. by rewrite bool_decide_eq_false_2.
Qed.

Lemma digit_plain c : is_digit c = true -> plain_char c = true.
Proof.
  intros Hc. assert (forall d, is_digit d = false -> Ascii.eqb c d = false) as Hno.
  { intros d Hd'. apply Ascii.eqb_neq. intros ->. congruence. }
  unfold plain_char. by rewrite !Hno by done.
Qed.
Lemma digits_plain cs : forallb is_digit cs = true -> forallb plain_char cs = true.
Proof. rewrite !forallb_forall. intros H c Hc. apply digit_plain. auto. Qed.
Lemma path_char_plain c : path_char c = true -> plain_char c = true.
Proof. unfold path_char, plain_char. destruct (Ascii.eqb_spec c Ascii.zero) as [->|]; [done|].
  destruct (Ascii.eqb_spec c slash) as [->|]; [done|]. by destruct (Ascii.eqb_spec c backslash) as [->|]. Qed.

Lemma digits_component s : forallb is_digit (chars_of s) = true -> chars_of s <> [] -> component s = true.
Proof.
  intros Hd Hne. apply plain_component; [|by apply digits_plain]. intros Hin.
  assert (s = "" \/ s = "." \/ s = "..") as Hs by set_solver. destruct_or! Hs; subst s; done.
Qed.

Lemma encoded_component key encoded : encode_instrument_key key = Ok encoded -> component encoded = true.
Proof.
  unfold encode_instrument_key. intros H. apply raise_if_ok in H as [H [= <-]]. bool_prop.
  apply plain_component.
  - pose proof (unquote_encode key) as E. intros Hin.
    assert (encode_bytes key = "" \/ encode_bytes key = "." \/ encode_bytes key = "..") as Hs by set_solver.
    destruct_or! Hs; rewrite Hs in E; cbn in E; subst key; [done|set_solver..].
  - pose proof (encode_chars key) as Hc. rewrite forallb_forall in Hc |- *. intros c Hin. apply path_char_plain. auto.
Qed.

Lemma segment_component s n s' : _path_segment s n = Ok s' -> s <> "" -> s' = s /\ component s = true.
Proof.
  unfold _path_segment. intros H Hne. apply raise_if_ok in H as [H [= <-]]. split; [done|].
  unfold component. apply orb_false_iff in H as [H ->]. apply orb_false_iff in H as [H ->].
  apply orb_false_iff in H as [H ->]. apply bool_decide_eq_false in H. rewrite bool_decide_eq_false_2; [done|]. set_solver.
Qed.

Lemma span_app ds cs : forallb is_digit ds = true -> (forall c, head cs = Some c -> is_digit c = false) ->
  span_digits (ds ++ cs) = (ds, cs).
Proof.
  intros Hd Hc. induction ds as [|d ds IH]; cbn in *.
  - destruct cs as [|c cs]; [done|]. cbn. by rewrite Hc.
  - apply andb_true_iff in Hd as [Hd Hds]. by rewrite Hd, IH.
Qed.

Lemma numeral_head n s : (0 < n)%N -> exists c t, pretty_N_go n s = String c t /\ is_char 48 c = false.
Proof.
  revert s. induction (N.lt_wf_0 n) as [n _ IH]. intros s Hn. rewrite pretty_N_go_step by done.
  destruct (base.decide (n / 10 = 0)%N) as [E|E]; [|by apply IH; [apply N.div_lt|apply N.neq_0_lt_0]].
  rewrite E. exists (pretty_N_char (n mod 10)), s. split; [done|].
  assert (Hlt : (n < 10)%N) by (apply N.div_small_iff in E; lia). rewrite N.mod_small by done.
  destruct n as [|p]; [done|]. do 4 (destruct p as [p|p|]; try done; try lia).
Qed.

Lemma canonical_natural n cs : 0 <= n -> (forall c, head cs = Some c -> is_digit c = false) ->
  canonical_int (natural n ++ cs) = Some (n, cs).
Proof.
  intros Hn Hcs. unfold canonical_int. rewrite span_app by (done || apply natural_digits).
  pose proof (natural_value n Hn) as Hv. destruct (natural n) as [|c rest] eqn:E; [by apply natural_cons in E|]. rewrite Hv.
  destruct (base.decide (n = 0)) as [->|Hnz].
  - injection E as <- <-. by rewrite andb_false_r.
  - unfold natural, pretty, pretty_N in E. destruct (base.decide (Z.to_N n = 0%N)); [lia|].
    destruct (numeral_head (Z.to_N n) "") as (d & t & Ht & Hd); [lia|]. rewrite Ht in E. injection E as -> _. by rewrite Hd.
Qed.

Lemma str_of_natural n : 0 <= n -> chars_of (str_of_int n) = natural n.
Proof.
  intros Hn. unfold str_of_int, sign_chars. rewrite chars_string, Z.abs_eq by done.
  by rewrite (proj2 (Z.ltb_ge n 0)) by done.
Qed.

Lemma drop_prefix_app w cs : drop_prefix w (w ++ cs) = Some cs.
Proof. induction w as [|c w IH]; [done|]. cbn. by rewrite Ascii.eqb_refl. Qed.

Lemma filename_component start sequence suffix_ : forallb plain_char (chars_of suffix_) = true -> 0 <= start -> 0 <= sequence ->
  component (part_filename start sequence +:+ suffix_) = true.
Proof.
  intros Hx Hs Hq. apply plain_component.
  - unfold part_filename. intros Hin.
    assert (forall t, "part-" +:+ t ∉ [""; "."; ".."]) as Hno.
    { intros t Ht. assert (exists c u, "part-" +:+ t = String c u /\ c = chr 112) as (c & u & E & Ec) by (by eexists _, _).
      rewrite E in Ht. assert (String c u = "." \/ String c u = "..") as [Hs'|Hs'] by set_solver; injection Hs' as ->; done. }
    exact (Hno _ Hin).
  - unfold part_filename. rewrite !chars_app, !str_of_natural by done. rewrite !forallb_app, Hx, !(digits_plain (natural _)) by apply natural_digits.
    done.
Qed.

Lemma part_name_parsed start sequence : 0 <= start -> 0 <= sequence ->
  _FINAL_PART_NAME (part_filename start sequence) = Some (start, sequence).
Proof.
  intros Hs Hq. unfold _FINAL_PART_NAME, part_filename. rewrite !chars_app, !str_of_natural by done.
  rewrite drop_prefix_app. cbn -[canonical_int drop_prefix chars_of]. rewrite canonical_natural by (done || by intros ? [= <-]).
  cbn -[canonical_int drop_prefix chars_of]. rewrite drop_prefix_app. cbn -[canonical_int drop_prefix chars_of].
  rewrite canonical_natural by (done || by intros ? [= <-]). cbn -[chars_of]. by rewrite bool_decide_eq_true_2.
Qed.

Lemma removesuffix_app s w : removesuffix w (s +:+ w) = s.
Proof.
  unfold removesuffix. rewrite suffix_app, !length_chars, chars_app, length_app, Nat.add_sub.
  apply chars_inj. by rewrite substring_chars, chars_app, drop_0, take_app_length.
Qed.

(** ** A part and its records *)
(** The scope that a part can have: control records of the exchange, records of a market
    scoped stream and records of an instrument. *)
Definition scoped (d : NativeEventDraft) : bool :=
  if String.eqb (logical_stream d) "_control" then negb (present (market d)) && negb (present (instrument_key d))
  else negb (eqb (bool_decide (logical_stream d ∈ MARKET_SCOPED_STREAMS)) (present (instrument_key d))).
Definition identity_of (d : NativeEventDraft) (h : Hour) : _SourcePathIdentity := {|
  sp_exchange := exchange d; sp_market := market d; sp_instrument_key := instrument_key d;
  sp_logical_stream := logical_stream d; storage_hour := hour_segments h
|}.

Lemma draft_validate_inv d d' : draft_validate d = Ok d' -> d' = d /\ logical_stream d <> "" /\
  (logical_stream d = "_control" \/ present (market d) = true) /\
  (logical_stream d = "_control" \/ logical_stream d ∈ MARKET_SCOPED_STREAMS \/ present (instrument_key d) = true).
Proof.
  unfold draft_validate. intros H. apply raise_if_ok in H as [Hf H]. apply raise_if_ok in H as [Hm H].
  apply raise_if_ok in H as [_ H]. apply raise_if_ok in H as [Hk H].
  repeat (apply raise_if_ok in H as [_ H]). injection H as <-. split; [done|].
  apply negb_false_iff in Hf. bool_prop.
  match goal with H : nonempty (logical_stream d) = true |- _ => rename H into Hne end.
  destruct (String.eqb_spec (logical_stream d) "_control") as [E|E]; [rewrite E; by split_and!; auto|].
  split; [intros E'; by rewrite E' in Hne|]. split; right.
  - by destruct (present (market d)).
  - case_bool_decide; [by left|right]. by destruct (present (instrument_key d)).
Qed.

Lemma exchange_component e : component (exchange_value e) = true /\ of_value (exchange_value e) = Some e.
Proof. by destruct e; vm_compute. Qed.
Lemma market_component m : component (market_value m) = true /\ of_value (market_value m) = Some m.
Proof. by destruct m; vm_compute. Qed.

Lemma hour_segments_ok s h : fromtimestamp s = Some h -> 0 <= s ->
  forallb component (hour_segments h) = true /\ parse_storage_hour (hour_segments h) = Ok h.
Proof.
  intros Hs Hpos. destruct (hour_bounds s h Hs Hpos) as (Hd & Hy & Hm & Hday & Hh). split.
  - unfold hour_segments. cbn [forallb]. rewrite !digits_component by apply zero_padded_digits. done.
  - unfold parse_storage_hour, hour_segments. 
    replace (mapM int_of_str _) with (Some [h_year h; h_month h; h_day h; h_hour h]).
    2: { symmetry. apply mapM_Some. repeat constructor; apply zero_padded_int; lia. }
    unfold c_int, INT_MAX. cbn [forallb]. rewrite !(proj2 (Z.leb_le _ _)) by lia. cbn [andb negb raise_if]. by rewrite Hd.
Qed.

(** What the segments of an envelope are read back as. *)
Lemma scope_parsed e scope y m d hh f :
  draft_validate (base e) = Ok (base e) -> opt_ok is_text (instrument_key (base e)) = true ->
  _scope_segments e = Ok scope ->
  forallb component scope = true /\ scope <> [] /\
  (scope ++ [y; m; d; hh; f]) !! 0%nat = Some "raw" /\
  (scope ++ [y; m; d; hh; f]) !! 1%nat = Some (exchange_value (exchange (base e))) /\
  parse_scope (scope ++ [y; m; d; hh; f]) =
    if String.eqb (logical_stream (base e)) "_control" then Ok (None, None, "_control", [y; m; d; hh], f)
    else if scoped (base e) then Ok (market (base e), instrument_key (base e), logical_stream (base e), [y; m; d; hh], f)
    else Err (ValueError "market-scoped stream cannot use an instrument path").
Proof.
  intros Hd Htext. apply draft_validate_inv in Hd as (_ & Hne & Hmarket & Hkey). unfold _scope_segments, scoped.
  pose proof (proj1 (exchange_component (exchange (base e)))) as Hex. destruct (String.eqb_spec (logical_stream (base e)) "_control") as [Ec|Ec].
  - intros [= <-]. cbn [forallb app]. by rewrite Hex.
  - destruct Hmarket as [?|Hmarket]; [done|]. destruct Hkey as [?|Hkey]; [done|].
    destruct (market (base e)) as [market|] eqn:Em; [|done]. destruct (market_component market) as [Hmc Hmv].
    destruct (_path_segment _ _) as [stream|] eqn:Es; [|done]. apply segment_component in Es as [-> Hs]; [|done]. cbn [rbind].
    destruct (instrument_key (base e)) as [key|] eqn:Ek.
    + destruct (encode_instrument_key key) as [enc|] eqn:Eenc; [|done]. intros [= <-]. cbn [forallb app].
      pose proof (encoded_component _ _ Eenc) as Henc. rewrite Hex, Hmc, Henc, Hs. split_and!; try done.
      unfold parse_scope. rewrite Hmv.
      assert (Hdec : decode_instrument_key enc = key).
      { unfold encode_instrument_key in Eenc. apply raise_if_ok in Eenc as [_ [= <-]]. apply unquote_encode. }
      destruct (String.eqb_spec enc "_market") as [->|_].
      { unfold encode_instrument_key in Eenc. apply raise_if_ok in Eenc as [_ [= E]].
        pose proof (encode_chars key) as Hc. by rewrite E in Hc. }
      rewrite Hdec. cbn in Htext. rewrite Htext, Eenc. cbn [rbind negb raise_if]. rewrite String.eqb_refl. cbn [negb raise_if].
      cbn [present]. by destruct (bool_decide (logical_stream (base e) ∈ MARKET_SCOPED_STREAMS)).
    + destruct Hkey as [Hin|?]; [|done]. intros [= <-]. cbn [forallb app]. rewrite Hex, Hmc, Hs. split_and!; try done.
      unfold parse_scope. rewrite Hmv, String.eqb_refl, bool_decide_eq_true_2 by done. done.
Qed.

Lemma components_nonempty parts : forallb component parts = true -> List.filter nonempty parts = parts.
Proof.
  induction parts as [|s parts IH]; [done|]. intros [Hs H]%andb_true_iff. cbn [List.filter].
  destruct (nonempty s) eqn:E; [by rewrite IH|]. unfold component, nonempty in *. bool_prop. apply String.eqb_eq in E. set_solver.
Qed.

Lemma join_cons s l : l <> [] -> join_with "/" (s :: l) = s +:+ "/" +:+ join_with "/" l.
Proof. by destruct l. Qed.
Lemma join_last l f w : join_with "/" (l ++ [f +:+ w]) = join_with "/" (l ++ [f]) +:+ w.
Proof.
  induction l as [|s l IH]; [done|]. change ((s :: l) ++ ?x) with (s :: (l ++ x)).
  rewrite !join_cons by (by destruct l). by rewrite IH, !append_assoc.
Qed.

(** The path of an envelope's part and the final path it is published under. *)
Lemma partial_path_segments e start sequence h p :
  envelope_validate e = Ok e -> opt_ok is_text (instrument_key (base e)) = true -> received_hour (received_at_ns e) = Some h ->
  raw_partial_path e start sequence = Ok p ->
  exists scope, _scope_segments e = Ok scope /\ 0 <= start /\ 0 <= sequence /\ 0 <= received_at_ns e /\
  forallb component (scope ++ hour_segments h) = true /\
  p = join_with "/" (scope ++ hour_segments h ++ [part_filename start sequence]) +:+ ".partial".
Proof.
  intros Hv Htext Hh Hp. unfold envelope_validate in Hv. apply raise_if_ok in Hv as [Hf%negb_false_iff Hv].
  apply rbind_ok in Hv as (d' & Hd & _). pose proof (draft_validate_inv _ _ Hd) as [-> _]. bool_prop.
  match goal with H : nonneg (received_at_ns e) = true |- _ => apply Z.leb_le in H end.
  unfold raw_partial_path, _non_negative_int in Hp. apply rbind_ok in Hp as (s' & Hs & Hp). apply raise_if_ok in Hs as [Hs [= <-]].
  apply rbind_ok in Hp as (q' & Hq & Hp). apply raise_if_ok in Hq as [Hq [= <-]]. bool_prop. rewrite Hh in Hp.
  apply rbind_ok in Hp as (scope & Hscope & Hp). exists scope.
  destruct (hour_segments_ok _ _ Hh) as [Hhc _]; [apply Z.div_pos; unfold _NS_PER_SECOND; lia|].
  destruct (scope_parsed e scope "" "" "" "" "" Hd Htext Hscope) as (Hsc & Hne & _).
  assert (Hall : forallb component (scope ++ hour_segments h) = true) by (rewrite forallb_app, Hsc; exact Hhc).
  split_and!; try done. injection Hp as <-. change (zero_padded 4 (h_year h) :: _) with (hour_segments h ++ [part_filename start sequence +:+ ".partial"]).
  rewrite (assoc_L (++) scope (hour_segments h) [_]), (assoc_L (++) scope (hour_segments h) [_]), components_nonempty.
  - apply join_last.
  - rewrite forallb_app, Hall. cbn [forallb]. by rewrite filename_component by done.
Qed.

(** Reading a path of a part's segments, partial or final. *)
Lemma parse_segments scope h start sequence suffix_ : suffix_ = "" \/ suffix_ = ".partial" ->
  forallb component (scope ++ hour_segments h) = true -> 0 <= start -> 0 <= sequence ->
  let p := join_with "/" (scope ++ hour_segments h ++ [part_filename start sequence +:+ suffix_]) in
  let parts := scope ++ hour_segments h ++ [part_filename start sequence +:+ suffix_] in
  validate_normalized_data_relative_path p = Ok p /\ split_on slash p = parts /\
  removesuffix ".partial" (part_filename start sequence +:+ suffix_) = part_filename start sequence.
Proof.
  intros Hx Hc Hs Hq. cbv zeta.
  assert (Hall : forallb component (scope ++ hour_segments h ++ [part_filename start sequence +:+ suffix_]) = true).
  { rewrite (assoc_L (++)), forallb_app, Hc. cbn [forallb]. by rewrite filename_component by (by destruct Hx as [->| ->]). }
  destruct (join_normalized _ (ltac:(by destruct scope) : scope ++ hour_segments h ++ [part_filename start sequence +:+ suffix_] <> []) Hall) as [Hn Hsp].
  split_and!; try done.
  destruct Hx as [->| ->]; [|apply removesuffix_app].
  rewrite append_nil. unfold part_filename.
  assert (Hno : forall t, suffix ".partial" (t +:+ ".jsonl.zst") = false).
  { intros t. apply not_true_iff_false. intros (u & Hu)%suffix_chars. rewrite chars_app in Hu.
    apply (f_equal (fun l => last l)) in Hu. by rewrite !last_app in Hu. }
  unfold removesuffix. by rewrite <- !append_assoc, Hno.
Qed.

(** The result of parsing either path. *)
Definition parsed_as (e : RawEnvelope) (h : Hour) : result _SourcePathIdentity :=
  if String.eqb (logical_stream (base e)) "_control" then
    Ok {| sp_exchange := exchange (base e); sp_market := None; sp_instrument_key := None;
          sp_logical_stream := "_control"; storage_hour := hour_segments h |}
  else if scoped (base e) then Ok (identity_of (base e) h)
  else Err (ValueError "market-scoped stream cannot use an instrument path").

Lemma parse_part_path e sequence h suffix_ scope : suffix_ = "" \/ suffix_ = ".partial" ->
  draft_validate (base e) = Ok (base e) -> opt_ok is_text (instrument_key (base e)) = true -> received_hour (received_at_ns e) = Some h ->
  _scope_segments e = Ok scope -> forallb component (scope ++ hour_segments h) = true ->
  0 <= timestamp h * _NS_PER_SECOND -> 0 <= sequence -> 0 <= received_at_ns e ->
  _parse_source_path (join_with "/" (scope ++ hour_segments h ++ [part_filename (timestamp h * _NS_PER_SECOND) sequence +:+ suffix_]))
  = parsed_as e h.
Proof.
  intros Hx Hd Htext Hh Hscope Hc Hstart Hseq Hpos.
  destruct (parse_segments scope h _ sequence suffix_ Hx Hc Hstart Hseq) as (Hn & Hsp & Hrm).
  unfold _parse_source_path, _normalized_relative_path. rewrite Hn. cbn [rbind]. rewrite Hsp. clear Hn Hsp.
  change (hour_segments h ++ [?f]) with [zero_padded 4 (h_year h); zero_padded 2 (h_month h); zero_padded 2 (h_day h); zero_padded 2 (h_hour h); f].
  destruct (scope_parsed e scope (zero_padded 4 (h_year h)) (zero_padded 2 (h_month h)) (zero_padded 2 (h_day h)) (zero_padded 2 (h_hour h))
    (part_filename (timestamp h * _NS_PER_SECOND) sequence +:+ suffix_) Hd Htext Hscope) as (_ & _ & H0 & H1 & Hscp).
  rewrite H0, H1, Hscp, bool_decide_eq_true_2 by done. cbn [negb raise_if option_bind].
  replace (Some _ ≫= of_value) with (Some (exchange (base e))) by (symmetry; apply exchange_component).
  destruct (hour_segments_ok _ _ Hh) as [_ Hhour]; [apply Z.div_pos; unfold _NS_PER_SECOND; lia|].
  unfold parsed_as. destruct (String.eqb _ "_control"); [|destruct (scoped (base e)); [|done]]; cbn [rbind];
    change [zero_padded 4 (h_year h); zero_padded 2 (h_month h); zero_padded 2 (h_day h); zero_padded 2 (h_hour h)] with (hour_segments h);
    rewrite Hhour; cbn [rbind]; rewrite bool_decide_eq_true_2 by done; cbn [negb raise_if];
    rewrite Hrm, part_name_parsed by done; unfold _NS_PER_SECOND; by rewrite Z.eqb_refl.
Qed.

(** C27: the path of a part names its records.  For every valid envelope, the partial path
    the writer puts it under, with the start of its hour as the start of the part, and the
    final path without [.partial] are read back by recovery as the envelope's exchange,
    market, instrument, stream and hour if the envelope is scoped as a manifest demands:
    control records name no market and no instrument, and exactly the records of market
    scoped streams name no instrument.  An envelope that is not is never read back as
    itself, although its constructor accepts it. *)
Theorem part_path_roundtrip (e : RawEnvelope) (sequence : Z) (h : Hour) (p : string) :
  envelope_validate e = Ok e -> opt_ok is_text (instrument_key (base e)) = true -> received_hour (received_at_ns e) = Some h ->
  raw_partial_path e (timestamp h * _NS_PER_SECOND) sequence = Ok p ->
  exists final, p = final +:+ ".partial" /\ _parse_source_path final = _parse_source_path p /\
    _FINAL_PART_NAME (name final) = Some (received_at_ns e / (3600 * _NS_PER_SECOND) * (3600 * _NS_PER_SECOND), sequence) /\
    (_parse_source_path p = Ok (identity_of (base e) h) <-> scoped (base e) = true).
Proof.
  intros Hv Htext Hh Hp. destruct (partial_path_segments _ _ _ _ _ Hv Htext Hh Hp) as (scope & Hscope & Hs & Hq & Hpos & Hc & ->).
  assert (Hd : draft_validate (base e) = Ok (base e)).
  { unfold envelope_validate in Hv. apply raise_if_ok in Hv as [_ Hv]. apply rbind_ok in Hv as (d & Hd & _).
    pose proof (draft_validate_inv _ _ Hd) as [-> _]. done. }
  exists (join_with "/" (scope ++ hour_segments h ++ [part_filename (timestamp h * _NS_PER_SECOND) sequence])).
  split; [done|]. pose proof (parse_part_path e sequence h ".partial" scope ltac:(by right) Hd Htext Hh Hscope Hc Hs Hq Hpos) as Hpart.
  pose proof (parse_part_path e sequence h "" scope ltac:(by left) Hd Htext Hh Hscope Hc Hs Hq Hpos) as Hfinal.
  rewrite append_nil in Hfinal.
  rewrite (assoc_L (++)), join_last, <- (assoc_L (++)) in Hpart. rewrite Hpart, Hfinal. split; [done|]. split.
  - unfold name. destruct (parse_segments scope h _ sequence "" ltac:(by left) Hc Hs Hq) as (_ & Hsp & _).
    rewrite append_nil in Hsp. rewrite Hsp, (assoc_L (++)), last_last, part_name_parsed by done.
    rewrite (timestamp_of_hour _ _ Hh). unfold _NS_PER_SECOND. rewrite Z.div_div by done.
    do 2 f_equal. replace (1000000000 * 3600) with (3600 * 1000000000) by done. ring.
  - unfold parsed_as, scoped, identity_of. destruct (String.eqb_spec (logical_stream (base e)) "_control") as [E|E].
    + rewrite E. destruct (market (base e)), (instrument_key (base e)); cbn; split; congruence.
    + destruct (negb _); split; try congruence; done.
Qed.

Module PartSamples.
Definition draft (stream : string) (market : option Market) (key : option string) : NativeEventDraft := {|
  exchange := BINANCE; Domain.market := market; instrument_key := key; wire_symbol := key;
  logical_stream := stream; native_channel := Some "c"; transport := WEBSOCKET;
  event_time_ns := None; event_time_source := None; integrity_mode := None; coverage := None;
  rest_metadata := None; payload := JDict [("p", JStr "1")]
|}.
Definition envelope (d : NativeEventDraft) (received_at_ns writer_sequence : Z) : RawEnvelope :=
  _construct_envelope_from_validated_parts d received_at_ns 7 "w"
    {| connection_id := Some "c"; connection_generation := Some 0; egress_id := Some "e" |} writer_sequence
    "00000000000000000000000000000000000000000000000000000000000000ff".
(** 2024-02-29 12:34:56 *)
Definition trade : RawEnvelope := envelope (draft "trade" (Some SPOT) (Some "BTC/USDT")) 1709210096000000000 3.
Definition trade_hour : Hour := {| h_year := 2024; h_month := 2; h_day := 29; h_hour := 12 |}.
Definition trade_path : string := "raw/binance/spot/BTC%2FUSDT/trade/2024/02/29/12/part-1709208000000000000-4.jsonl.zst".

Lemma part_path_roundtrip_witness :
  raw_partial_path trade 1709208000000000000 4 = Ok (trade_path +:+ ".partial") /\
  _parse_source_path (trade_path +:+ ".partial") = Ok (identity_of (base trade) trade_hour).
Proof.
  assert (Hp : raw_partial_path trade 1709208000000000000 4 = Ok (trade_path +:+ ".partial")) by (vm_compute; reflexivity).
  destruct (part_path_roundtrip trade 4 trade_hour (trade_path +:+ ".partial")) as (final & _ & _ & _ & H);
    [vm_compute; reflexivity..|]. split; [exact Hp|]. apply H. reflexivity.
Defined.

(** A record of a market scoped stream that names an instrument is a valid envelope with
    a path, and recovery refuses the path. *)
Definition status : RawEnvelope := envelope (draft "status" (Some SPOT) (Some "BTC")) 1709210096000000000 3.
Example status_path_refused :
  envelope_validate status = Ok status /\
  match raw_partial_path status 1709208000000000000 4 with
  | Ok p => _parse_source_path p = Err (ValueError "market-scoped stream cannot use an instrument path")
  | Err _ => False
  end.
Proof. vm_compute. done. Qed.

(** A year that does not fit a C integer escapes as [OverflowError]. *)
Example huge_year_overflows :
  _parse_source_path "raw/binance/_control/2147483648/01/01/00/part-0-0.jsonl.zst"
  = Err (OverflowError "signed integer is greater than maximum").
Proof. vm_compute. done. Qed.

Example part_names :
  manifest_path_for_data trade_path = Ok "raw/binance/spot/BTC%2FUSDT/trade/2024/02/29/12/part-1709208000000000000-4.manifest.json" /\
  _next_recovery_relative_path (trade_path +:+ ".partial") 5
    = Ok "raw/binance/spot/BTC%2FUSDT/trade/2024/02/29/12/part-1709208000000000000-5.jsonl.zst" /\
  bad_tail_quarantine_relative_path "raw/a.jsonl.zst" = Ok "quarantine/raw/a.jsonl.zst.bad-tail" /\
  _FINAL_PART_NAME "part-01-2.jsonl.zst" = None.
Proof. vm_compute. done. Qed.
End PartSamples.
