(* ===== verification/EnvelopeJson.v ===== *)
(** The JSON lines of raw parts: [decode_envelope_jsonl] of [storage/serialize.py] and the
    fields of [RawEnvelope] and [RestMetadata] as [pydantic] reads and writes them.
    [StorageModels] has the encoding of [storage/serialize.py]. *)
From S2P Require SelectionModels.
From S2P Require Concrete.
From S2P Require Import Prelude PyDecimal Domain StorageModels CatalogJson PyText.

(** ** The enumerations of [domain/types.py] *)
Definition transport_value (t : Transport) : string :=
  match t with REST => "rest" | WEBSOCKET => "websocket" | INTERNAL => "internal" end.
Definition integrity_value (m : IntegrityMode) : string :=
  match m with
  | SEQUENCE_VERIFIED => "sequence_verified" | CHECKSUM_VERIFIED => "checksum_verified"
  | SNAPSHOT_CHAIN => "snapshot_chain" | BEST_EFFORT => "best_effort" | INVALID => "invalid"
  end.
Definition coverage_value (c : CoverageMode) : string :=
  match c with COMPLETE => "complete" | LOSSY_WINDOW => "lossy_window" | Domain.UNKNOWN => "unknown" end.
#[export] Instance Transport_enum : StrEnum Transport.
Proof. refine {| members := [REST; WEBSOCKET; INTERNAL]; value := transport_value |}; str_enum. Defined.
#[export] Instance IntegrityMode_enum : StrEnum IntegrityMode.
Proof.
  refine {| members := [SEQUENCE_VERIFIED; CHECKSUM_VERIFIED; SNAPSHOT_CHAIN; BEST_EFFORT; INVALID];
            value := integrity_value |}; str_enum.
Defined.
#[export] Instance CoverageMode_enum : StrEnum CoverageMode.
Proof. refine {| members := [COMPLETE; LOSSY_WINDOW; Domain.UNKNOWN]; value := coverage_value |}; str_enum. Defined.

(** ** Writing: [model_dump] *)
Definition metadata_payload (m : RestMetadata) : Json := JDict [
  ("request_started_at_ns", JInt (request_started_at_ns m)); ("request_ended_at_ns", JInt (request_ended_at_ns m));
  ("method", JStr (method m)); ("path", JStr (path m)); ("params", JDict (params m)); ("status", JInt (status m));
  ("attempt", JInt (attempt m)); ("rate_limit_headers", JDict ((fun kv => (kv.1, JStr kv.2)) <$> rate_limit_headers m));
  ("requested_interval_ns", jopt JInt (requested_interval_ns m));
  ("effective_interval_ns", jopt JInt (effective_interval_ns m))].

Definition wire (e : RawEnvelope) : Json := JDict [
  ("exchange", jenum (exchange (base e))); ("market", jopt jenum (market (base e)));
  ("instrument_key", jopt JStr (instrument_key (base e))); ("wire_symbol", jopt JStr (wire_symbol (base e)));
  ("logical_stream", JStr (logical_stream (base e))); ("native_channel", jopt JStr (native_channel (base e)));
  ("transport", jenum (transport (base e))); ("event_time_ns", jopt JInt (event_time_ns (base e)));
  ("event_time_source", jopt JStr (event_time_source (base e))); ("integrity_mode", jopt jenum (integrity_mode (base e)));
  ("coverage", jopt jenum (coverage (base e))); ("rest_metadata", jopt metadata_payload (rest_metadata (base e)));
  ("payload", payload (base e)); ("schema_version", JInt (schema_version e));
  ("received_at_ns", JInt (received_at_ns e)); ("monotonic_ns", JInt (monotonic_ns e));
  ("worker_instance_id", JStr (worker_instance_id e)); ("connection_id", jopt JStr (env_connection_id e));
  ("connection_generation", jopt JInt (env_connection_generation e)); ("writer_sequence", JInt (writer_sequence e));
  ("egress_id", jopt JStr (env_egress_id e)); ("config_sha256", JStr (config_sha256 e))].

(** ** Reading: strict validation of a decoded object

    Every failure of a model is one [ValidationError], which is a [ValueError]. *)
Definition invalid {A} : result A := Err (ValueError "validation error").
Definition str_field (j : Json) : result string := match j with JStr s => Ok s | _ => invalid end.
Definition int_field (j : Json) : result Z := match j with JInt n => Ok n | _ => invalid end.
Definition dict_field (j : Json) : result (list (string * Json)) := match j with JDict items => Ok items | _ => invalid end.
Definition json_field (j : Json) : result Json := Ok j.
(** [enum_type(value)] *)
Definition enum_field {A} `{StrEnum A} (j : Json) : result A :=
  match j with
  | JStr s => match of_value s with Some a => Ok a | None => invalid end
  | _ => invalid
  end.
Definition headers_field (j : Json) : result (list (string * string)) :=
  let! items := dict_field j in SelectionModels.check_all (fun kv => let! s := str_field kv.2 in Ok (kv.1, s)) items.

Definition required {A} (arg : Json -> result A) (k : string) (items : list (string * Json)) : result A :=
  match jget k items with Some j => arg j | None => invalid end.
(** A field with the default [None]. *)
Definition defaulted {A} (arg : Json -> result A) (k : string) (items : list (string * Json)) : result (option A) :=
  match jget k items with Some j => opt_arg arg j | None => Ok None end.
(** [extra="forbid"] *)
Definition only (fields : list string) (items : list (string * Json)) : bool :=
  forallb (fun kv => bool_decide (kv.1 ∈ fields)) items.

Definition metadata_fields : list string :=
  ["request_started_at_ns"; "request_ended_at_ns"; "method"; "path"; "params"; "status"; "attempt";
   "rate_limit_headers"; "requested_interval_ns"; "effective_interval_ns"].
Definition metadata_field (j : Json) : result RestMetadata :=
  let! v := dict_field j in
  raise ValueError "validation error" when negb (only metadata_fields v);;
  let! request_started_at_ns := required int_field "request_started_at_ns" v in
  let! request_ended_at_ns := required int_field "request_ended_at_ns" v in
  let! method := required str_field "method" v in
  let! path := required str_field "path" v in
  let! params := required dict_field "params" v in
  let! status := required int_field "status" v in
  let! attempt := required int_field "attempt" v in
  let! rate_limit_headers := required headers_field "rate_limit_headers" v in
  let! requested_interval_ns := defaulted int_field "requested_interval_ns" v in
  let! effective_interval_ns := defaulted int_field "effective_interval_ns" v in
  metadata_validate {|
    Domain.request_started_at_ns := request_started_at_ns; Domain.request_ended_at_ns := request_ended_at_ns;
    Domain.method := method; Domain.path := path; Domain.params := params; Domain.status := status;
    Domain.attempt := attempt; Domain.rate_limit_headers := rate_limit_headers;
    Domain.requested_interval_ns := requested_interval_ns; Domain.effective_interval_ns := effective_interval_ns |}.

Definition envelope_fields : list string :=
  ["exchange"; "market"; "instrument_key"; "wire_symbol"; "logical_stream"; "native_channel"; "transport"; "event_time_ns";
   "event_time_source"; "integrity_mode"; "coverage"; "rest_metadata"; "payload"; "schema_version"; "received_at_ns";
   "monotonic_ns"; "worker_instance_id"; "connection_id"; "connection_generation"; "writer_sequence"; "egress_id";
   "config_sha256"].
(** [schema_version] has the default 1. *)
Definition schema_version_field (v : list (string * Json)) : result Z :=
  match jget "schema_version" v with Some j => int_field j | None => Ok 1 end.

(** [RawEnvelope.model_validate] of the object whose enumerations are converted. *)
Definition envelope_of (v : list (string * Json)) : result RawEnvelope :=
  raise ValueError "validation error" when negb (only envelope_fields v);;
  let! exchange := required enum_field "exchange" v in
  let! market := required (opt_arg enum_field) "market" v in
  let! instrument_key := required (opt_arg str_field) "instrument_key" v in
  let! wire_symbol := required (opt_arg str_field) "wire_symbol" v in
  let! logical_stream := required str_field "logical_stream" v in
  let! native_channel := required (opt_arg str_field) "native_channel" v in
  let! transport := required enum_field "transport" v in
  let! event_time_ns := required (opt_arg int_field) "event_time_ns" v in
  let! event_time_source := required (opt_arg str_field) "event_time_source" v in
  let! integrity_mode := defaulted enum_field "integrity_mode" v in
  let! coverage := defaulted enum_field "coverage" v in
  let! rest_metadata := defaulted metadata_field "rest_metadata" v in
  let! payload := required json_field "payload" v in
  let! schema_version := schema_version_field v in
  let! received_at_ns := required int_field "received_at_ns" v in
  let! monotonic_ns := required int_field "monotonic_ns" v in
  let! worker_instance_id := required str_field "worker_instance_id" v in
  let! connection_id := required (opt_arg str_field) "connection_id" v in
  let! connection_generation := required (opt_arg int_field) "connection_generation" v in
  let! writer_sequence := required int_field "writer_sequence" v in
  let! egress_id := required (opt_arg str_field) "egress_id" v in
  let! config_sha256 := required str_field "config_sha256" v in
  envelope_validate {|
    base := {|
      Domain.exchange := exchange; Domain.market := market; Domain.instrument_key := instrument_key;
      Domain.wire_symbol := wire_symbol; Domain.logical_stream := logical_stream; Domain.native_channel := native_channel;
      Domain.transport := transport; Domain.event_time_ns := event_time_ns; Domain.event_time_source := event_time_source;
      Domain.integrity_mode := integrity_mode; Domain.coverage := coverage; Domain.rest_metadata := rest_metadata;
      Domain.payload := payload |};
    Domain.schema_version := schema_version; Domain.received_at_ns := received_at_ns; Domain.monotonic_ns := monotonic_ns;
    Domain.worker_instance_id := worker_instance_id; env_connection_id := connection_id;
    env_connection_generation := connection_generation; Domain.writer_sequence := writer_sequence;
    env_egress_id := egress_id; Domain.config_sha256 := config_sha256 |}.

Section Codec.
Context `{JsonCodec}.

Definition decode_envelope_jsonl (line : string) : result RawEnvelope :=
  raise ValueError "raw envelope line must end with newline" when negb (suffix newline line);;
  let! wire := decode_json (String.substring 0 (String.length line - 1) line) in
  match wire with
  | JDict items => envelope_of items
  | _ => Err (ValueError "raw envelope line must contain one JSON object")
  end.
End Codec.

(** ** Round trip *)
(** What the constructors of an envelope have checked. *)
Definition metadata_made (o : option RestMetadata) : Prop :=
  match o with Some m => metadata_validate m = Ok m | None => True end.
Definition envelope_made (e : RawEnvelope) : Prop := envelope_validate e = Ok e /\ metadata_made (rest_metadata (base e)).

Lemma enum_field_jenum {A} `{StrEnum A} (a : A) : enum_field (jenum a) = Ok a.
Proof. unfold enum_field, jenum. by rewrite of_value_value. Qed.
Lemma opt_arg_jopt {A} (arg : Json -> result A) (f : A -> Json) (o : option A) :
  (forall a, f a <> JNull) -> (forall a, o = Some a -> arg (f a) = Ok a) -> opt_arg arg (jopt f o) = Ok o.
Proof.
  intros Hf Harg. destruct o as [a|]; [|done]. cbn [jopt]. specialize (Hf a). specialize (Harg a eq_refl).
  destruct (f a); [done|..]; cbn [opt_arg]; by rewrite Harg.
Qed.
Lemma opt_enum_field {A} `{StrEnum A} (o : option A) : opt_arg enum_field (jopt jenum o) = Ok o.
Proof. apply opt_arg_jopt; [done|]. intros a _. apply enum_field_jenum. Qed.
Lemma opt_str_field o : opt_arg str_field (jopt JStr o) = Ok o.
Proof. by apply opt_arg_jopt. Qed.
Lemma opt_int_field o : opt_arg int_field (jopt JInt o) = Ok o.
Proof. by apply opt_arg_jopt. Qed.
Lemma headers_roundtrip l : headers_field (JDict ((fun kv => (kv.1, JStr kv.2)) <$> l)) = Ok l.
Proof. unfold headers_field. cbn [dict_field rbind]. induction l as [|[k s] l IH]; [done|]. cbn in *. by rewrite IH. Qed.

Lemma metadata_roundtrip m : metadata_validate m = Ok m -> metadata_field (metadata_payload m) = Ok m.
Proof.
  intros Hm. unfold metadata_field, metadata_payload. cbn [dict_field rbind].
  replace (only metadata_fields _) with true by (symmetry; vm_compute; reflexivity). cbn [negb raise_if].
  unfold required, defaulted. cbn -[headers_field opt_arg metadata_validate]. rewrite headers_roundtrip, !opt_int_field.
  cbn [rbind]. by destruct m.
Qed.

Lemma wire_roundtrip e : envelope_made e -> match wire e with JDict items => envelope_of items = Ok e | _ => False end.
Proof.
  intros [He Hm]. unfold wire, envelope_of. replace (only envelope_fields _) with true by (symmetry; vm_compute; reflexivity).
  cbn [negb raise_if]. unfold required, defaulted, schema_version_field.
  cbn -[opt_arg enum_field metadata_field envelope_validate jenum].
  rewrite !opt_enum_field, !enum_field_jenum, !opt_int_field, !opt_str_field.
  rewrite (opt_arg_jopt metadata_field); [|done|].
  - cbn [rbind json_field]. by destruct e as [[] ? ? ? ? ? ? ? ? ?].
  - intros m E. rewrite E in Hm. by apply metadata_roundtrip.
Qed.

Lemma required_ok {A} (arg : Json -> result A) k items a : required arg k items = Ok a -> exists j, arg j = Ok a.
Proof. unfold required. destruct (jget k items); [|done]. by eexists. Qed.
Lemma defaulted_ok {A} (arg : Json -> result A) k items a : defaulted arg k items = Ok (Some a) -> exists j, arg j = Ok a.
Proof.
  unfold defaulted, opt_arg. destruct (jget k items) as [j|]; [|done]. destruct j; try done;
    intros (y & Hy & [= <-])%rbind_ok; by eexists.
Qed.
Lemma metadata_field_ok j m : metadata_field j = Ok m -> metadata_validate m = Ok m.
Proof.
  unfold metadata_field. intros Hj. apply rbind_ok in Hj as (v & _ & Hj). apply raise_if_ok in Hj as [_ Hj].
  do 10 apply rbind_ok in Hj as (? & _ & Hj).
  revert Hj. match goal with |- metadata_validate ?r = _ -> _ => generalize r end. intros r Hr.
  assert (r = m) as <-; [|done]. unfold metadata_validate in Hr.
  repeat (apply raise_if_ok in Hr as [_ Hr]). destruct (requested_interval_ns r), (effective_interval_ns r); try done;
    repeat (apply raise_if_ok in Hr as [_ Hr]); by injection Hr.
Qed.
Lemma envelope_validate_inv e e' : envelope_validate e = Ok e' -> e' = e.
Proof.
  unfold envelope_validate. intros He. apply raise_if_ok in He as [_ He]. apply rbind_ok in He as (? & _ & He).
  apply rbind_ok in He as (? & _ & He). by injection He.
Qed.

(** The decoder makes only envelopes that the constructors accept. *)
Lemma decoded_made `{JsonCodec} line e : decode_envelope_jsonl line = Ok e -> envelope_made e.
Proof.
  unfold decode_envelope_jsonl. intros Hl. apply raise_if_ok in Hl as [_ Hl]. apply rbind_ok in Hl as (j & _ & Hl).
  destruct j as [| | | | | |v]; try done. unfold envelope_of in Hl. apply raise_if_ok in Hl as [_ Hl].
  do 11 apply rbind_ok in Hl as (? & _ & Hl). apply rbind_ok in Hl as (m & Hm & Hl).
  do 10 apply rbind_ok in Hl as (? & _ & Hl). pose proof (envelope_validate_inv _ _ Hl) as ->. split; [exact Hl|].
  cbn. destruct m as [m|]; [|done]. apply defaulted_ok in Hm as [j Hj]. by apply metadata_field_ok in Hj.
Qed.

(** The two encoders write the JSON value of the envelope on one line; [encode_json] is the
    codec's, and what [orjson] writes the decoder reads back.  No text is not JSON. *)
Class EnvelopeCodecLaws (A : Type) `{Encoders A} `{JsonCodec} : Prop := {
  envelope_codec :: JsonCodecLaws;
  envelope_encoded e s : encode_json_envelope e = Ok s -> s = encode_json (wire e);
  orjson_encoded e s : orjson_dumps e = Some s -> plain (wire e) = true -> decode_json s = Ok (wire e);
  json_one_line e : has_char (chr 10) (encode_json (wire e)) = false;
  orjson_one_line e s : orjson_dumps e = Some s -> has_char (chr 10) s = false;
  empty_no_json : is_ok (decode_json "") = false
}.


Section Lines.
Context {A : Type} `{EnvelopeCodecLaws A}.

(** A line is the JSON text of the envelope and a newline, which stands nowhere else. *)
Lemma encoded_text e line : plain (wire e) = true ->
  encode_envelope e = Ok line \/ _encode_trusted_envelope e = Ok line ->
  exists s, line = s +:+ newline /\ decode_json s = Ok (wire e) /\ has_char (chr 10) s = false.
Proof.
  intros Hp. assert (Hslow : encode_envelope e = Ok line ->
    exists s, line = s +:+ newline /\ decode_json s = Ok (wire e) /\ has_char (chr 10) s = false).
  { unfold encode_envelope. intros He. apply raise_if_ok in He as [_ He]. apply rbind_ok in He as (? & _ & He).
    apply rbind_ok in He as (s & Hs & [= <-]). apply envelope_encoded in Hs as ->. eexists. split; [done|].
    split; [by apply decode_encode|apply json_one_line]. }
  intros [He|He]; [by apply Hslow|]. unfold _encode_trusted_envelope in He.
  destruct (orjson_dumps e) as [s|] eqn:Es; [|by apply Hslow]. injection He as <-. exists s. split; [done|].
  split; [by apply orjson_encoded|by apply (orjson_one_line e)].
Qed.

Lemma line_decoded e line : envelope_made e -> plain (wire e) = true ->
  encode_envelope e = Ok line \/ _encode_trusted_envelope e = Ok line -> decode_envelope_jsonl line = Ok e.
Proof.
  intros He Hp Hl. destruct (encoded_text e line Hp Hl) as (s & -> & Hs & _). unfold decode_envelope_jsonl.
  rewrite suffix_app. cbn [negb raise_if]. replace (String.substring 0 _ _) with s.
  - rewrite Hs. cbn [rbind]. pose proof (wire_roundtrip e He) as Hw. by destruct (wire e).
  - apply chars_inj. rewrite substring_chars, length_chars, chars_app, length_app, drop_0. cbn [length chars_of newline].
    replace (_ - 1)%nat with (length (chars_of s)) by (cbn; lia). by rewrite take_app_length.
Qed.

(** C28: an envelope survives its line.  For every envelope its constructors accept whose
    values are free of decimals and repeated keys, whichever of the two encoders wrote the
    line, the decoder returns exactly the envelope, and whatever bytes the decoder accepts,
    what it returns has passed every check of the constructors. *)
Theorem envelope_line_roundtrip (e : RawEnvelope) (line : string) :
  envelope_made e -> plain (wire e) = true ->
  encode_envelope e = Ok line \/ _encode_trusted_envelope e = Ok line ->
  decode_envelope_jsonl line = Ok e /\
  forall other e', decode_envelope_jsonl other = Ok e' -> envelope_made e'.
Proof. intros He Hp Hl. split; [by apply line_decoded|apply decoded_made]. Qed.
End Lines.

(** ** An instance of the encoders *)
Module LineSamples.
#[export] Instance codec : JsonCodec := Concrete.example_codec.
#[export] Instance encoders : Encoders StorageControlAssociationV1 := {|
  orjson_dumps e := Some (encode_json (wire e)); encode_json_envelope e := Ok (encode_json (wire e));
  encode_json_association _ := Ok "" |}.

Lemma bits_one_line p : has_char (chr 10) (Concrete.bits p) = false.
Proof. induction p as [p IH|p IH|]; [exact IH..|done]. Qed.
#[export] Instance laws : EnvelopeCodecLaws StorageControlAssociationV1.
Proof.
  split.
  - apply Concrete.example_codec_laws.
  - by intros e s [= <-].
  - intros e s [= <-] Hp. exact (@decode_encode Concrete.example_codec Concrete.example_codec_laws _ Hp).
  - intros e. apply bits_one_line.
  - intros e s [= <-]. apply bits_one_line.
  - vm_compute. reflexivity.
Qed.

Definition envelope : RawEnvelope := {|
  base := {|
    exchange := BINANCE; market := Some SPOT; instrument_key := Some "BTC/USDT"; wire_symbol := Some "BTCUSDT";
    logical_stream := "funding"; native_channel := Some "premiumIndex"; transport := REST; event_time_ns := Some 5;
    event_time_source := Some "T"; integrity_mode := None; coverage := Some COMPLETE;
    rest_metadata := Some {|
      request_started_at_ns := 1; request_ended_at_ns := 2; method := "GET"; path := "/p"; params := [("symbol", JStr "BTCUSDT")];
      status := 200; attempt := 1; rate_limit_headers := [("x-weight", "1")]; requested_interval_ns := Some 10;
      effective_interval_ns := Some 20 |};
    payload := JDict [("rate", JStr "0.01"); ("list", JList [JInt 1; JNull])] |};
  schema_version := 1; received_at_ns := 1709210096000000000; monotonic_ns := 9; worker_instance_id := "w";
  env_connection_id := None; env_connection_generation := None; writer_sequence := 0; env_egress_id := Some "e";
  config_sha256 := "00000000000000000000000000000000000000000000000000000000000000ff" |}.

Lemma envelope_line_roundtrip_witness :
  exists line, _encode_trusted_envelope envelope = Ok line /\ decode_envelope_jsonl line = Ok envelope.
Proof.
  exists (encode_json (wire envelope) +:+ newline). split; [reflexivity|].
  apply (envelope_line_roundtrip (A := StorageControlAssociationV1) envelope).
  - split; vm_compute; reflexivity.
  - vm_compute. reflexivity.
  - right. reflexivity.
Defined.
End LineSamples.
