(* ===== verification/StreamFile.v ===== *)
(** [storage/stream_file.py]: the rows buffered for a frame, the frames written to a part,
    and the cache of directory entries known to be durable.  The compressor is an interface
    ([Compressor]); a file is the bytes it holds. *)
From S2P Require Import Prelude PyDecimal StorageModels PyText.

Definition _MAX_SIGNED_INT64 : Z := 2 ^ 63 - 1.

Definition _integer (value : Z) (field : string) (minimum : Z) : result Z :=
  raise ValueError (field +:+ " must be " +:+ (if minimum =? 1 then "positive" else "non-negative")) when value <? minimum;;
  raise ValueError (field +:+ " must fit a signed 64-bit integer") when _MAX_SIGNED_INT64 <? value;;
  Ok value.
Definition _nonempty (value field : string) : result string :=
  raise ValueError (field +:+ " must be a non-empty normalized string") when negb (normalized value);; Ok value.

Definition len (s : string) : Z := Z.of_nat (String.length s).

(** ** Rows *)
Record BufferedRow : Type := { data : string; accepted_monotonic_ns : Z }.
Definition buffered_row (data : string) (accepted_monotonic_ns : Z) : result BufferedRow :=
  raise ValueError "buffered row must be exactly one non-empty JSONL row"
    when negb (negb (String.eqb data "") && suffix newline data)
         || existsb (Ascii.eqb (chr 10)) (removelast (chars_of data));;
  let! accepted := _integer accepted_monotonic_ns "accepted_monotonic_ns" 0 in
  Ok {| StreamFile.data := data; StreamFile.accepted_monotonic_ns := accepted |}.

Record PendingRows : Type := { rows : list BufferedRow; plain_bytes : Z }.
Definition total (rows : list BufferedRow) : Z := foldr (fun r n => len (data r) + n) 0 rows.
(** No element is below its predecessor. *)
Definition non_decreasing (l : list Z) : bool := forallb (fun ab => ab.1 <=? ab.2) (zip l (tail l)).
Definition pending_rows (rows : list BufferedRow) (plain_bytes : Z) : result PendingRows :=
  raise ValueError "pending rows must not be empty" when bool_decide (rows = []);;
  let! plain := _integer plain_bytes "plain_bytes" 1 in
  raise ValueError "plain_bytes must equal the encoded row byte count" when negb (plain =? total rows);;
  raise ValueError "pending row monotonic times must be non-decreasing"
    when negb (non_decreasing (accepted_monotonic_ns <$> rows));;
  Ok {| StreamFile.rows := rows; StreamFile.plain_bytes := plain |}.

Record WrittenFrame : Type := {
  first_monotonic_ns : Z; last_monotonic_ns : Z; record_monotonic_ns : list Z; record_count : Z; compressed_bytes : Z
}.
Definition written_frame (first last : Z) (times : list Z) (count compressed : Z) : result WrittenFrame :=
  let! first := _integer first "first_monotonic_ns" 0 in
  let! last := _integer last "last_monotonic_ns" 0 in
  raise TypeError "record_monotonic_ns must be a tuple of non-negative ints"
    when existsb (fun t => (t <? 0) || (_MAX_SIGNED_INT64 <? t)) times;;
  let! count := _integer count "record_count" 1 in
  raise ValueError "record_count must match record_monotonic_ns" when negb (count =? Z.of_nat (length times));;
  raise ValueError "frame monotonic bounds must match its records"
    when negb (bool_decide (head times = Some first) && bool_decide (list.last times = Some last));;
  let! compressed := _integer compressed "compressed_bytes" 1 in
  Ok {| first_monotonic_ns := first; last_monotonic_ns := last; record_monotonic_ns := times; record_count := count;
        compressed_bytes := compressed |}.

(** ** Writing *)
(** What [os.write] may do: write some bytes, be interrupted, or fail. *)
Inductive WriteResponse : Type := Wrote (n : Z) | Interrupted | Failed (e : exn).
(** How a call ends: it returns or raises, or the process dies within it. *)
Inductive outcome (A : Type) : Type := Returns (r : result A) | Dies.
Arguments Returns {A} r.
Arguments Dies {A}.

(** The loop of [write_all], driven by the answers of the system; it dies where they
    end.  The bytes written come first. *)
Fixpoint write_loop (responses : list WriteResponse) (view : string) : string * outcome unit :=
  match view with
  | EmptyString => ("", Returns (Ok tt))
  | _ =>
      match responses with
      | [] => ("", Dies)
      | Interrupted :: responses => write_loop responses view
      | Failed e :: _ => ("", Returns (Err e))
      | Wrote written :: responses =>
          if written <=? 0 then ("", Returns (Err (OSError "write returned no progress")))
          else let n := Z.to_nat written in
               let '(w, r) := write_loop responses (String.substring n (String.length view - n) view) in
               (String.substring 0 n view +:+ w, r)
      end
  end.
Definition write_all (responses : list WriteResponse) (data : string) : string * outcome unit :=
  if String.eqb data "" then ("", Returns (Err (ValueError "write_all data must be non-empty bytes")))
  else write_loop responses data.

(** [ZstdCompressor(level, write_checksum=True, write_content_size=True).compress] *)
Class Compressor : Type := { compress : string -> string }.

(** ** [StreamFile]

    [contents] is what the file behind the descriptor holds. *)
Record StreamFile : Type := {
  _generation_id : string; _fd : Z; zstd_level : Z; max_plain_frame_bytes : Z; _buffer : list BufferedRow;
  _buffer_plain_bytes : Z; compressed_size : Z; contents : string
}.
Definition set_buffer (b : list BufferedRow) (n : Z) (s : StreamFile) : StreamFile := {|
  _generation_id := _generation_id s; _fd := _fd s; zstd_level := zstd_level s;
  max_plain_frame_bytes := max_plain_frame_bytes s; _buffer := b; _buffer_plain_bytes := n;
  compressed_size := compressed_size s; contents := contents s |}.
Definition set_file (fd size : Z) (c : string) (s : StreamFile) : StreamFile := {|
  _generation_id := _generation_id s; _fd := fd; zstd_level := zstd_level s;
  max_plain_frame_bytes := max_plain_frame_bytes s; _buffer := _buffer s; _buffer_plain_bytes := _buffer_plain_bytes s;
  compressed_size := size; contents := c |}.

(** [allocate]: its checks and the object; [fd] is the new, empty file it opens exclusively.
    Making and syncing the directories is left out. *)
Definition allocate (path_sha256 : string) (level max_plain : Z) (generation_id : option string) (fd : Z) : result StreamFile :=
  let! level := _integer level "zstd_level" 1 in
  raise ValueError "zstd_level must be at most 22" when 22 <? level;;
  let! frame_limit := _integer max_plain "max_plain_frame_bytes" 1 in
  let! identifier := _nonempty (default path_sha256 generation_id) "generation_id" in
  Ok {| _generation_id := identifier; _fd := fd; zstd_level := level; max_plain_frame_bytes := frame_limit;
        _buffer := []; _buffer_plain_bytes := 0; compressed_size := 0; contents := "" |}.

Definition closed (s : StreamFile) : bool := _fd s <? 0.
Definition fileno (s : StreamFile) : result Z := raise ValueError "stream file is closed" when closed s;; Ok (_fd s).
Definition pending_plain_bytes (s : StreamFile) : Z := _buffer_plain_bytes s.

Definition append (data : string) (accepted_monotonic_ns : Z) : M StreamFile unit := fun s =>
  if closed s then (s, Err (ValueError "stream file is closed"))
  else match buffered_row data accepted_monotonic_ns with
  | Err e => (s, Err e)
  | Ok row =>
      if max_plain_frame_bytes s <? _buffer_plain_bytes s + len (StreamFile.data row) then (s, Err (FrameSealRequired (_buffer_plain_bytes s) (len (StreamFile.data row)) (max_plain_frame_bytes s)))
      else (set_buffer (_buffer s ++ [row]) (_buffer_plain_bytes s + len (StreamFile.data row)) s, Ok tt)
  end.

Definition take_pending : M StreamFile (option PendingRows) := fun s =>
  match _buffer s with
  | [] => (s, Ok None)
  | _ =>
      match pending_rows (_buffer s) (_buffer_plain_bytes s) with
      | Err e => (s, Err e)
      | Ok pending => (set_buffer [] 0 s, Ok (Some pending))
      end
  end.

(** Sealed work names its generation; the file it holds is the one it was sealed from. *)
Record SealedFileWork : Type := { generation_id : string; pending : option PendingRows; force_sync : bool }.
Definition sealed_work (generation_id : string) (pending : option PendingRows) (force_sync : bool) : result SealedFileWork :=
  let! generation_id := _nonempty generation_id "generation_id" in
  raise ValueError "clean sealed work requires force_sync" when negb (bool_decide (is_Some pending)) && negb force_sync;;
  Ok {| StreamFile.generation_id := generation_id; StreamFile.pending := pending; StreamFile.force_sync := force_sync |}.

Definition seal_for_sync (direct_rows : option PendingRows) (force_sync : bool) : M StreamFile (option SealedFileWork) :=
  do! pending := (fun s =>
    match direct_rows with
    | Some direct =>
        (s, raise ValueError "direct rows require an empty active buffer" when negb (bool_decide (length (_buffer s) = 0%nat));;
            raise ValueError "direct rows must contain one oversized record"
              when negb (length (rows direct) =? 1)%nat || (plain_bytes direct <=? max_plain_frame_bytes s);;
            Ok (Some direct))
    | None => take_pending s
    end) in
  match pending with
  | None => if force_sync then fun s => (s, let! w := sealed_work (_generation_id s) None true in Ok (Some w)) else mret None
  | Some _ => fun s => (s, let! w := sealed_work (_generation_id s) pending force_sync in Ok (Some w))
  end.

Section Frames.
Context `{Compressor}.

Definition plain_of (pending : PendingRows) : string := String.concat "" (data <$> rows pending).

(** The bytes a failed or dying write leaves behind stay in the file. *)
Definition write_frame (responses : list WriteResponse) (pending : PendingRows) (s : StreamFile)
    : StreamFile * outcome WrittenFrame :=
  if closed s then (s, Returns (Err (ValueError "stream file is closed")))
  else
    let frame := compress (plain_of pending) in
    let '(written, r) := write_all responses frame in
    let s := set_file (_fd s) (compressed_size s) (contents s +:+ written) s in
    match r with
    | Dies => (s, Dies)
    | Returns (Err e) => (s, Returns (Err e))
    | Returns (Ok _) =>
        let times := accepted_monotonic_ns <$> rows pending in
        match written_frame (default 0 (head times)) (default 0 (list.last times)) times
                (Z.of_nat (length (rows pending))) (len frame) with
        | Err e => (s, Returns (Err e))
        | Ok result => (set_file (_fd s) (compressed_size s + compressed_bytes result) (contents s) s, Returns (Ok result))
        end
    end.
End Frames.

Definition close_fd (s : StreamFile) : StreamFile :=
  if closed s then s else set_file (-1) (compressed_size s) (contents s) s.

(** ** [DirectoryDurabilityProofCache]

    The entries of an [OrderedDict], oldest first: device and inode of the directory, the
    name, device and inode of the child. *)
Definition EntryKey : Type := (Z * Z) * string * (Z * Z).
Record DirectoryDurabilityProofCache : Type := { _entries : list EntryKey; _limit : Z }.
Definition proof_cache (max_entries : Z) : result DirectoryDurabilityProofCache :=
  let! limit := _integer max_entries "max_entries" 1 in Ok {| _entries := []; _limit := limit |}.

(** [d[key] = None; d.move_to_end(key)] *)
Definition touch (key : EntryKey) (entries : list EntryKey) : list EntryKey :=
  filter (fun k => k <> key) entries ++ [key].
(** Popping the oldest entries while there are too many. *)
Definition evict (limit : Z) (entries : list EntryKey) : list EntryKey :=
  drop (length entries - Z.to_nat limit) entries.
(** [fsync] is the outcome of [os.fsync(parent_fd)]; the result says whether it was called. *)
Definition sync_entry (key : EntryKey) (force : bool) (fsync : result unit) : M DirectoryDurabilityProofCache bool := fun c =>
  if negb force && bool_decide (key ∈ _entries c)
  then ({| _entries := touch key (_entries c); _limit := _limit c |}, Ok false)
  else match fsync with
  | Err e => (c, Err e)
  | Ok _ => ({| _entries := evict (_limit c) (touch key (_entries c)); _limit := _limit c |}, Ok true)
  end.

(** ** Writing a frame *)
Definition done {A} (r : outcome A) : bool := match r with Returns (Ok _) => true | _ => false end.

Lemma write_loop_step x responses view : view <> "" -> write_loop (x :: responses) view =
  match x with
  | Interrupted => write_loop responses view
  | Failed e => ("", Returns (Err e))
  | Wrote written =>
      if written <=? 0 then ("", Returns (Err (OSError "write returned no progress")))
      else let n := Z.to_nat written in
           let '(w, r) := write_loop responses (String.substring n (String.length view - n) view) in
           (String.substring 0 n view +:+ w, r)
  end.
Proof. by destruct view. Qed.

(** Whatever the system answers, a prefix is written, all of it exactly if the call
    returns. *)
Lemma write_loop_spec responses : forall view w r, write_loop responses view = (w, r) ->
  exists rest, view = w +:+ rest /\ (done r = true <-> rest = "").
Proof.
  induction responses as [|x responses IH]; intros view w r Hw.
  { destruct view; injection Hw as <- <-; by eexists. }
  destruct (base.decide (view = "")) as [->|Hne]; [injection Hw as <- <-; by eexists|]. rewrite write_loop_step in Hw by done.
  assert (Hnone : exists rest, view = "" +:+ rest /\ (false = true <-> rest = "")) by (exists view; by split).
  destruct x as [n| |e]; [|by apply IH|by injection Hw as <- <-].
  destruct (n <=? 0) eqn:En; [by injection Hw as <- <-|]. cbv zeta in Hw.
  destruct (write_loop responses _) as [w' r'] eqn:E. injection Hw as <- <-.
  apply IH in E as (rest & E & Hr). exists rest. split; [|done].
  by rewrite append_assoc, <- E, <- string_split.
Qed.

Lemma write_all_spec responses data w r : write_all responses data = (w, r) -> data <> "" ->
  exists rest, data = w +:+ rest /\ (done r = true <-> rest = "").
Proof.
  unfold write_all. intros Hw Hne. destruct (String.eqb_spec data ""); [done|]. by apply write_loop_spec in Hw.
Qed.

(** ** Runs of a file *)
Section Runs.
Context `{Compressor}.

(** The operations of a file from its allocation on, as long as every write of a frame returns.
    The list holds the rows of the frames written so far. *)
Inductive file_runs : StreamFile -> list PendingRows -> Prop :=
| runs_start sha level max_plain gid fd s : allocate sha level max_plain gid fd = Ok s -> file_runs s []
| runs_append s frames data t s' r : file_runs s frames -> append data t s = (s', r) -> file_runs s' frames
| runs_seal s frames direct force s' r : file_runs s frames -> seal_for_sync direct force s = (s', r) -> file_runs s' frames
| runs_write s frames responses p s' r : file_runs s frames -> write_frame responses p s = (s', r) -> done r = true ->
    file_runs s' (frames ++ [p])
| runs_close s frames : file_runs s frames -> file_runs (close_fd s) frames.

Definition frames_of (frames : list PendingRows) : string := String.concat "" ((fun p => compress (plain_of p)) <$> frames).

Record file_ok (s : StreamFile) (frames : list PendingRows) : Prop := {
  fo_contents : contents s = frames_of frames;
  fo_size : compressed_size s = len (contents s);
  fo_bytes : _buffer_plain_bytes s = total (_buffer s);
  fo_limit : 0 <= total (_buffer s) <= max_plain_frame_bytes s;
  fo_max : max_plain_frame_bytes s <= _MAX_SIGNED_INT64
}.

Lemma len_app s t : len (s +:+ t) = len s + len t.
Proof. unfold len. rewrite !length_chars, chars_app, length_app. lia. Qed.
Lemma total_app l l' : total (l ++ l') = total l + total l'.
Proof. unfold total. induction l as [|r l IH]; [done|]. cbn. rewrite IH. lia. Qed.
Lemma len_nonneg s : 0 <= len s.
Proof. unfold len. lia. Qed.

Lemma int64_ok v field min v' : _integer v field min = Ok v' -> v' = v /\ min <= v <= _MAX_SIGNED_INT64.
Proof. unfold _integer. intros H1. apply raise_if_ok in H1 as [H1 H2]. apply raise_if_ok in H2 as [H2 [= <-]]. bool_prop. done. Qed.

Lemma pending_rows_ok l n p : pending_rows l n = Ok p -> rows p = l /\ plain_bytes p = n /\ l <> [] /\ n = total l.
Proof.
  unfold pending_rows. intros Hp. apply raise_if_ok in Hp as [Hne Hp]. apply rbind_ok in Hp as (m & Hm & Hp).
  apply int64_ok in Hm as [-> _]. apply raise_if_ok in Hp as [Ht Hp]. apply raise_if_ok in Hp as [_ [= <-]]. bool_prop. done.
Qed.

Lemma take_pending_ok s frames s' r : file_ok s frames -> take_pending s = (s', r) ->
  file_ok s' frames /\ _fd s' = _fd s /\ match r with
  | Ok (Some p) => rows p = _buffer s /\ plain_bytes p = total (_buffer s) /\ rows p <> [] /\ _buffer s' = []
  | Ok None => s' = s /\ _buffer s = []
  | Err _ => s' = s
  end.
Proof.
  intros Hok Ht. unfold take_pending in Ht. destruct (_buffer s) as [|row l] eqn:Eb; [injection Ht as <- <-; by split_and!|].
  destruct (pending_rows _ _) as [p|e] eqn:Ep; injection Ht as <- <-; [|by split_and!].
  apply pending_rows_ok in Ep as (Hr & Hp & Hne & Htot). destruct Hok as [H1 H2 H3 H4 H5]. split_and!; try done; [|by rewrite Hp|by rewrite Hr].
  split; cbn; try done; lia.
Qed.

Lemma append_ok s frames data t s' r : file_ok s frames -> append data t s = (s', r) ->
  file_ok s' frames /\ _fd s' = _fd s /\
  match r with Ok _ => exists row, buffered_row data t = Ok row /\ _buffer s' = _buffer s ++ [row] | Err _ => s' = s end.
Proof.
  intros Hok Ha. unfold append in Ha. destruct (closed s); [injection Ha as <- <-; by split_and!|].
  destruct (buffered_row data t) as [row|e] eqn:Er; [|injection Ha as <- <-; by split_and!].
  destruct (max_plain_frame_bytes s <? _) eqn:El; injection Ha as <- <-; [by split_and!|]. apply Z.ltb_ge in El.
  split_and!; [|done|by exists row]. destruct Hok as [H1 H2 H3 H4 H5]. pose proof (len_nonneg (StreamFile.data row)).
  split; cbn; try done; rewrite total_app; cbn [total foldr]; lia.
Qed.

Lemma seal_ok s frames direct force s' r : file_ok s frames -> seal_for_sync direct force s = (s', r) ->
  file_ok s' frames /\ _fd s' = _fd s /\ match r with
  | Ok (Some work) => match pending work with Some p => Some p = direct \/ rows p = _buffer s /\ _buffer s' = [] | None => s' = s end
  | _ => True
  end.
Proof.
  intros Hok Hs. unfold seal_for_sync, mbind in Hs. destruct direct as [direct|]; cbn beta iota in Hs.
  - destruct (raise_if _ _ _) as [o|e] eqn:Em; [|injection Hs as <- <-; by split_and!].
    apply raise_if_ok in Em as [_ Em]. apply raise_if_ok in Em as [_ [= <-]]. injection Hs as <- <-. split_and!; try done.
    destruct (sealed_work _ _ _) as [w|] eqn:Ew; cbn; [|done]. unfold sealed_work in Ew. apply rbind_ok in Ew as (g & _ & Ew).
    apply raise_if_ok in Ew as [_ [= <-]]. by left.
  - destruct (take_pending s) as [s1 [[p|]|e]] eqn:Et; destruct (take_pending_ok _ _ _ _ Hok Et) as (Hok' & Hfd & Hr).
    + injection Hs as <- <-. split_and!; try done. destruct (sealed_work _ _ _) as [w|] eqn:Ew; cbn; [|done].
      unfold sealed_work in Ew. apply rbind_ok in Ew as (g & _ & Ew). apply raise_if_ok in Ew as [_ [= <-]]. cbn. right. by destruct Hr as (? & _ & _ & ?).
    + destruct Hr as [-> _]. destruct force; injection Hs as <- <-; split_and!; try done.
      destruct (sealed_work _ _ _) as [w|] eqn:Ew; cbn; [|done]. unfold sealed_work in Ew. apply rbind_ok in Ew as (g & _ & Ew).
      by apply raise_if_ok in Ew as [_ [= <-]].
    + injection Hs as <- <-. by split_and!.
Qed.

(** What a write leaves in the file. *)
Lemma write_ok s frames responses p s' r : file_ok s frames -> compress (plain_of p) <> "" -> write_frame responses p s = (s', r) ->
  if done r then file_ok s' (frames ++ [p])
  else exists written, contents s' = frames_of frames +:+ written /\ exists rest, compress (plain_of p) = written +:+ rest.
Proof.
  intros Hok Hne Hw. unfold write_frame in Hw.
  assert (Hnil : exists written, contents s = frames_of frames +:+ written /\ exists rest, compress (plain_of p) = written +:+ rest).
  { exists "". rewrite append_nil. split; [apply Hok|by eexists]. }
  destruct (closed s); [by injection Hw as <- <-|]. destruct (write_all _ _) as [written rw] eqn:Ew.
  destruct (write_all_spec _ _ _ _ Ew Hne) as (rest & Hrest & Hdone).
  assert (Hsome : exists w, contents s +:+ written = frames_of frames +:+ w /\ exists rest, compress (plain_of p) = w +:+ rest).
  { exists written. rewrite (fo_contents _ _ Hok). split; [done|by exists rest]. }
  destruct rw as [[[]|e]|]; [|by injection Hw as <- <-|by injection Hw as <- <-].
  assert (rest = "") as -> by by apply Hdone. rewrite append_nil in Hrest.
  destruct (written_frame _ _ _ _ _) as [f|e] eqn:Ef; injection Hw as <- <-; [|exact Hsome]. cbn [done].
  assert (Hc : compressed_bytes f = len (compress (plain_of p))).
  { unfold written_frame in Ef. apply rbind_ok in Ef as (? & _ & Ef). apply rbind_ok in Ef as (? & _ & Ef). apply raise_if_ok in Ef as [_ Ef].
    apply rbind_ok in Ef as (? & _ & Ef). do 2 apply raise_if_ok in Ef as [_ Ef]. apply rbind_ok in Ef as (c & Hc & [= <-]).
    by apply int64_ok in Hc as [-> _]. }
  destruct Hok as [H1 H2 H3 H4 H5]. split; cbn; try done.
  - unfold frames_of in *. by rewrite fmap_app, concat_app, H1, <- Hrest.
  - rewrite len_app, H2, Hc. by rewrite Hrest.
Qed.

Lemma file_runs_ok s frames : (forall p, compress p <> "") -> file_runs s frames -> file_ok s frames.
Proof.
  intros Hne Hr. induction Hr as [sha level max_plain gid fd s Ha|s frames data t s' r _ IH Ha|s frames direct force s' r _ IH Hs|
    s frames responses p s' r _ IH Hw Hd|s frames _ IH].
  - unfold allocate in Ha. apply rbind_ok in Ha as (? & _ & Ha). apply raise_if_ok in Ha as [_ Ha]. apply rbind_ok in Ha as (m & Hm & Ha).
    apply int64_ok in Hm as [-> Hm]. apply rbind_ok in Ha as (? & _ & [= <-]). split; cbn; try done; lia.
  - by eapply append_ok.
  - by eapply seal_ok.
  - pose proof (write_ok _ _ _ _ _ _ IH (Hne _) Hw) as Hk. by rewrite Hd in Hk.
  - unfold close_fd. destruct (closed s); [done|]. by destruct IH; split.
Qed.
End Runs.

(** ** The cache of durable entries *)
(** The calls made so far, oldest first: the key and whether the directory was synced. *)
Inductive cache_runs (limit : Z) : list (EntryKey * bool) -> DirectoryDurabilityProofCache -> Prop :=
| cache_start c : proof_cache limit = Ok c -> cache_runs limit [] c
| cache_sync tr c key force fsync c' b : cache_runs limit tr c -> sync_entry key force fsync c = (c', Ok b) ->
    cache_runs limit (tr ++ [(key, b)]) c'
| cache_failed tr c key force fsync c' e : cache_runs limit tr c -> sync_entry key force fsync c = (c', Err e) ->
    cache_runs limit tr c'.

Lemma elem_of_touch key k l : k ∈ touch key l <-> k = key \/ k ∈ l.
Proof. unfold touch. rewrite elem_of_app, list_elem_of_filter, list_elem_of_singleton. destruct (base.decide (k = key)); naive_solver. Qed.
Lemma NoDup_touch key l : NoDup l -> NoDup (touch key l).
Proof.
  intros Hl. unfold touch. apply NoDup_app. split_and!; [by apply NoDup_filter| |apply NoDup_singleton].
  intros k Hk. rewrite list_elem_of_filter in Hk. rewrite list_elem_of_singleton. tauto.
Qed.
Lemma touch_length key l : (length (touch key l) <= S (length l))%nat /\ (NoDup l -> key ∈ l -> (length (touch key l) <= length l)%nat).
Proof.
  unfold touch. rewrite length_app. cbn. split; [pose proof (length_filter (fun k => k <> key) l); lia|].
  intros Hl Hin. assert (length (filter (fun k => k <> key) l) < length l)%nat; [|lia].
  apply length_filter_lt with key; tauto.
Qed.

Record cache_ok (limit : Z) (tr : list (EntryKey * bool)) (c : DirectoryDurabilityProofCache) : Prop := {
  co_limit : _limit c = limit; co_positive : 1 <= limit; co_nodup : NoDup (_entries c);
  co_bound : Z.of_nat (length (_entries c)) <= limit;
  co_proven : forall k, k ∈ _entries c -> (k, true) ∈ tr
}.
Lemma elem_of_evict limit k l : k ∈ evict limit l -> k ∈ l.
Proof. unfold evict. intros Hk. rewrite <- (take_drop (length l - Z.to_nat limit) l). apply elem_of_app. by right. Qed.

Lemma sync_entry_ok limit tr c key force fsync c' r : cache_ok limit tr c -> sync_entry key force fsync c = (c', r) ->
  match r with
  | Ok b => cache_ok limit (tr ++ [(key, b)]) c' /\ (b = false -> force = false /\ (key, true) ∈ tr)
  | Err _ => c' = c
  end.
Proof.
  intros [H1 H2 H3 H4 H5] Hs. unfold sync_entry in Hs. destruct (negb force && _) eqn:Ehit.
  - injection Hs as <- <-. bool_prop. destruct force; [done|]. pose proof (proj2 (touch_length key (_entries c)) H3 ltac:(done)).
    split; [|by split; auto]. split; cbn; try done; [by apply NoDup_touch|lia|].
    intros k [->|Hk]%elem_of_touch; apply elem_of_app; left; auto.
  - destruct fsync as [u|e]; injection Hs as <- <-; [|done]. split; [|done]. pose proof (proj1 (touch_length key (_entries c))).
    split; cbn; try done.
    + eapply sublist_NoDup; [by apply NoDup_touch|apply sublist_drop].
    + unfold evict. rewrite length_drop, H1. lia.
    + intros k Hk%elem_of_evict%elem_of_touch. apply elem_of_app. destruct Hk as [->|Hk]; [right; by left|left; auto].
Qed.

Lemma cache_runs_ok limit tr c : cache_runs limit tr c -> cache_ok limit tr c.
Proof.
  intros Hr. induction Hr as [c Hc|tr c key force fsync c' b _ IH Hs|tr c key force fsync c' e _ IH Hs].
  - unfold proof_cache in Hc. apply rbind_ok in Hc as (m & Hm & [= <-]). apply int64_ok in Hm as [-> Hm].
    split; cbn; try done; try lia; [apply NoDup_nil_2|set_solver].
  - by destruct (sync_entry_ok _ _ _ _ _ _ _ _ IH Hs) as [? _].
  - pose proof (sync_entry_ok _ _ _ _ _ _ _ _ IH Hs) as ->. done.
Qed.

(** A directory entry is trusted only if it was made durable.  Over any run of the cache,
    a call that returns without syncing was not forced and an earlier call for exactly this
    entry did sync the directory, a failed sync leaves the cache as it was, a forced call
    always syncs, and the cache never holds more entries than its limit. *)
Theorem directory_proofs_sound (limit : Z) (tr : list (EntryKey * bool)) (c : DirectoryDurabilityProofCache)
    (key : EntryKey) (force : bool) (fsync : result unit) :
  cache_runs limit tr c ->
  Z.of_nat (length (_entries c)) <= limit /\
  match sync_entry key force fsync c with
  | (c', Ok synced) => (synced = false -> force = false /\ (key, true) ∈ tr) /\ key ∈ _entries c' /\
                       (synced = true -> fsync = Ok tt)
  | (c', Err e) => c' = c /\ fsync = Err e
  end.
Proof.
  intros Hr%cache_runs_ok. split; [apply Hr|]. destruct (sync_entry key force fsync c) as [c' r] eqn:Hs.
  pose proof (sync_entry_ok _ _ _ _ _ _ _ _ Hr Hs) as Hok. destruct Hr as [H1 H2 H3 H4 _]. unfold sync_entry in Hs.
  destruct (negb force && _).
  - injection Hs as <- <-. cbn. destruct Hok as [_ Hok]. split; [done|]. split; [|done]. apply elem_of_touch. by left.
  - destruct fsync as [[]|e]; injection Hs as <- <-; [|done]. cbn. split; [done|]. split; [|done].
    unfold evict. pose proof (proj1 (touch_length key (_entries c))) as Hl. unfold touch in *. rewrite length_app in *. cbn [length] in *.
    rewrite drop_app_le by lia. apply elem_of_app. right. by left.
Qed.

(** Of three entries a cache of two forgets the oldest. *)
Definition ex_entry (name : string) : EntryKey := ((1, 1), name, (1, 2)).
Definition ex_cache (names : list string) : DirectoryDurabilityProofCache :=
  foldl (fun c name => (sync_entry (ex_entry name) false (Ok tt) c).1) {| _entries := []; _limit := 2 |} names.
Lemma ex_cache_runs : cache_runs 2 [(ex_entry "a", true); (ex_entry "b", true); (ex_entry "c", true)] (ex_cache ["a"; "b"; "c"]).
Proof.
  apply (cache_sync 2 [(ex_entry "a", true); (ex_entry "b", true)] (ex_cache ["a"; "b"]) (ex_entry "c") false (Ok tt)); [|reflexivity].
  apply (cache_sync 2 [(ex_entry "a", true)] (ex_cache ["a"]) (ex_entry "b") false (Ok tt)); [|reflexivity].
  apply (cache_sync 2 [] (ex_cache []) (ex_entry "a") false (Ok tt)); [|reflexivity]. by apply cache_start.
Qed.
Lemma directory_proofs_sound_witness :
  _entries (ex_cache ["a"; "b"; "c"]) = [ex_entry "b"; ex_entry "c"] /\
  Z.of_nat (length (_entries (ex_cache ["a"; "b"; "c"]))) <= 2.
Proof.
  split; [reflexivity|].
  exact (proj1 (directory_proofs_sound 2 _ _ (ex_entry "b") false (Ok tt) ex_cache_runs)).
Defined.
