(* ===== verification/Durability.v ===== *)
(** [storage/durability.py]: the results of a durability batch with the checks of their
    constructors, the write and sync of one file, and every part of the coordinator that owns a
    batch: registration, the task of each file, the end of the batch and what [sync_batch]
    raises.  [DurabilityRuns] puts the parts together in every order the event loop and the
    threads may take. *)
From S2P Require Import Prelude StorageModels PyText.
From S2P Require Histogram.
From S2P Require Import StreamFile.

Definition _integer (value : Z) (field_name : string) (minimum : Z) : result Z :=
  raise ValueError (field_name +:+ " must be " +:+ (if minimum =? 1 then "positive" else "non-negative")) when value <? minimum;;
  raise ValueError (field_name +:+ " must fit a signed 64-bit integer") when _MAX_SIGNED_INT64 <? value;;
  Ok value.
Definition _nonempty (value field_name : string) : result string :=
  raise ValueError (field_name +:+ " must be a non-empty normalized string") when negb (normalized value);; Ok value.
Definition optional (value : option Z) (field_name : string) : result (option Z) :=
  match value with None => Ok None | Some v => let! v := _integer v field_name 0 in Ok (Some v) end.

Inductive DurabilityTrigger : Type := PERIODIC | SIZE | HOUR | CONFIG | RECOVERY | SHUTDOWN | BARRIER.
Inductive DurabilitySloState : Type := BREACHED | RECOVERED.
#[export] Instance trigger_eq_dec : EqDecision DurabilityTrigger.
Proof. solve_decision. Defined.

Record DurabilitySloTransition : Type := {
  state : DurabilitySloState; observed_monotonic_ns : Z; rolling_p99_ns : option Z; rolling_max_ns : option Z
}.
Definition slo_transition (state : DurabilitySloState) (observed : Z) (p99 max : option Z) : result DurabilitySloTransition :=
  let! observed := _integer observed "observed_monotonic_ns" 0 in
  let! p99 := optional p99 "rolling_p99_ns" in
  let! max := optional max "rolling_max_ns" in
  Ok {| Durability.state := state; observed_monotonic_ns := observed; rolling_p99_ns := p99; rolling_max_ns := max |}.

(** ** Results *)
Record FileDurabilityResult : Type := {
  r_generation_id : string; was_dirty : bool; r_record_count : Z; sync_completed_monotonic_ns : option Z;
  sync_duration_ns : Z; lag_p50_ns : option Z; lag_p95_ns : option Z; lag_p99_ns : option Z; lag_max_ns : option Z
}.
Definition present (v : option Z) : bool := match v with Some _ => true | None => false end.
Definition check_lags (p50 p95 p99 maximum : option Z) : result unit :=
  match p50, p95, p99, maximum with
  | Some p50, Some p95, Some p99, Some maximum =>
      let! p50 := _integer p50 "lag statistic" 0 in
      let! p95 := _integer p95 "lag statistic" 0 in
      let! p99 := _integer p99 "lag statistic" 0 in
      let! _ := _integer maximum "lag statistic" 0 in
      raise ValueError "lag quantiles must be non-decreasing" when (p95 <? p50) || (p99 <? p95);;
      Ok tt
  | _, _, _, _ =>
      raise ValueError "lag statistics must be all present or all absent" when existsb present [p50; p95; p99; maximum];;
      Ok tt
  end.
Definition file_durability_result (r : FileDurabilityResult) : result FileDurabilityResult :=
  let! _ := _nonempty (r_generation_id r) "generation_id" in
  let! count := _integer (r_record_count r) "record_count" 0 in
  raise ValueError "was_dirty must agree with record_count" when negb (Bool.eqb (was_dirty r) (0 <? count));;
  let! _ := optional (sync_completed_monotonic_ns r) "sync_completed_monotonic_ns" in
  raise ValueError "dirty durability results require a completion time"
    when was_dirty r && negb (present (sync_completed_monotonic_ns r));;
  let! _ := _integer (sync_duration_ns r) "sync_duration_ns" 0 in
  let! _ := check_lags (lag_p50_ns r) (lag_p95_ns r) (lag_p99_ns r) (lag_max_ns r) in
  raise ValueError "clean durability results cannot contain lag statistics"
    when negb (was_dirty r) && existsb present [lag_p50_ns r; lag_p95_ns r; lag_p99_ns r; lag_max_ns r];;
  Ok r.

Inductive WriterCriticalReason : Type :=
| OLDEST_UNPERSISTED_AGE | WRITE_FAILED | SYNC_FAILED | PUBLICATION_FAILED | CONTROL_DURABILITY_FAILED
| SLO_TRANSITION_CALLBACK_FAILED | CLOSE_DEADLINE | MARKED_INCOMPLETE.
#[export] Instance reason_eq_dec : EqDecision WriterCriticalReason.
Proof. solve_decision. Defined.

(** The message of a [FilePersistenceError] follows from its reason. *)
Record FilePersistenceError : Type := { reason : WriterCriticalReason }.
Definition file_persistence_error (reason : WriterCriticalReason) : result FilePersistenceError :=
  raise ValueError "file persistence reason must be write or sync failure"
    when negb (bool_decide (reason = WRITE_FAILED \/ reason = SYNC_FAILED));;
  Ok {| Durability.reason := reason |}.
Definition file_persistence_message (e : FilePersistenceError) : string :=
  if bool_decide (reason e = WRITE_FAILED) then "raw frame write failed" else "raw file synchronization failed".

Inductive FileSyncCompletion : Type :=
| FileSyncCompleted (result : FileDurabilityResult)
| FileSyncFailed (generation_id : string) (error : FilePersistenceError).
Definition file_sync_failed (generation_id : string) (error : FilePersistenceError) : result FileSyncCompletion :=
  let! generation_id := _nonempty generation_id "generation_id" in Ok (FileSyncFailed generation_id error).

Record DurabilityBatch : Type := {
  batch_sequence : Z; trigger : DurabilityTrigger; started_monotonic_ns : Z; completed_monotonic_ns : Z;
  files : list FileDurabilityResult
}.
Definition durability_batch (b : DurabilityBatch) : result DurabilityBatch :=
  let! _ := _integer (batch_sequence b) "batch_sequence" 0 in
  let! started := _integer (started_monotonic_ns b) "started_monotonic_ns" 0 in
  let! completed := _integer (completed_monotonic_ns b) "completed_monotonic_ns" 0 in
  raise ValueError "batch completion cannot precede its start" when completed <? started;;
  raise ValueError "files must be a nonempty tuple" when (length (files b) =? 0)%nat;;
  raise ValueError "batch file generations must be unique" when negb (bool_decide (NoDup (r_generation_id <$> files b)));;
  Ok b.
Definition record_count (b : DurabilityBatch) : Z := zsum (r_record_count <$> files b).

Record WriterCriticalError : Type := {
  critical_reason : WriterCriticalReason; affected_generation_ids : list string;
  completed_batches : list DurabilityBatch; message : string
}.
Fixpoint nonempty_all (ids : list string) (field_name : string) : result (list string) :=
  match ids with
  | [] => Ok []
  | i :: ids => let! i := _nonempty i field_name in let! ids := nonempty_all ids field_name in Ok (i :: ids)
  end.
Definition writer_critical_error (reason : WriterCriticalReason) (affected : list string) (completed : list DurabilityBatch)
    (message : string) : result WriterCriticalError :=
  let! normalized_ids := nonempty_all affected "affected_generation_id" in
  raise ValueError "affected generation IDs must be unique" when negb (bool_decide (NoDup normalized_ids));;
  let! normalized_message := _nonempty message "message" in
  Ok {| critical_reason := reason; affected_generation_ids := normalized_ids; completed_batches := completed;
        Durability.message := normalized_message |}.

(** ** One file, on a storage thread *)

(** What a thread meets: the clock before and after, the answers to its writes, the outcome of
    [sync] and of the hook it notifies. *)
Record ThreadEnv : Type := {
  clock_before : Z; responses : list WriteResponse; sync : result unit; after_data_sync : result unit; clock_after : Z
}.
Definition _clock_ns (clock : Z) (field_name : string) : result Z := _integer clock field_name 0.

(** [FileDurabilityResult | _PersistenceFailure] *)
Definition Persisted : Type := (FileDurabilityResult + WriterCriticalReason)%type.

(** The loop over the rows; [None] is the early return for a row from the future. *)
Fixpoint lag_loop (completed_ns : Z) (rows : list BufferedRow) (histogram : Histogram.cell) : result (option Histogram.cell) :=
  match rows with
  | [] => Ok (Some histogram)
  | row :: rows =>
      if completed_ns <? accepted_monotonic_ns row then Ok None
      else let! histogram := Histogram.Cumulative.add histogram (completed_ns - accepted_monotonic_ns row) in
           lag_loop completed_ns rows histogram
  end.

Section Persist.
Context `{Compressor}.

(** [PosixSyncBackend.sync] of the file's descriptor; [sync] is the answer of [fdatasync]. *)
Definition sync_file (env : ThreadEnv) (file : StreamFile) : result unit :=
  let! fd := fileno file in let! _ := _integer fd "fd" 0 in sync env.

Definition sync_and_time (env : ThreadEnv) (started_ns : Z) (file : StreamFile) : result Z :=
  let! _ := sync_file env file in
  let! _ := after_data_sync env in
  let! completed_ns := _clock_ns (clock_after env) "sync_completed_monotonic_ns" in
  raise RuntimeError "monotonic clock moved backward during sync" when completed_ns <? started_ns;;
  Ok completed_ns.

Definition make_result (work : SealedFileWork) (started_ns completed_ns record_count : Z)
    (snapshot : option Histogram.DurabilityHistogramSnapshot) : result Persisted :=
  let! r := file_durability_result {|
    r_generation_id := generation_id work; was_dirty := bool_decide (is_Some (pending work));
    r_record_count := record_count; sync_completed_monotonic_ns := Some completed_ns;
    sync_duration_ns := completed_ns - started_ns;
    lag_p50_ns := snapshot ≫= Histogram.lag_p50_ns; lag_p95_ns := snapshot ≫= Histogram.lag_p95_ns;
    lag_p99_ns := snapshot ≫= Histogram.lag_p99_ns; lag_max_ns := snapshot ≫= Histogram.lag_max_ns |} in
  Ok (inl r).

(** After the sync: the statistics and the result. *)
Definition report (measure_lag : bool) (work : SealedFileWork) (started_ns completed_ns : Z) : result Persisted :=
  match pending work with
  | None => make_result work started_ns completed_ns 0 None
  | Some p =>
      let record_count := Z.of_nat (length (rows p)) in
      if measure_lag then
        let! histogram := lag_loop completed_ns (rows p) Histogram.Cumulative.new in
        match histogram with
        | None => Ok (inr SYNC_FAILED)
        | Some histogram =>
            let! snapshot := Histogram.Cumulative.snapshot histogram in
            make_result work started_ns completed_ns record_count (Some snapshot)
        end
      else make_result work started_ns completed_ns record_count None
  end.

Definition sync_and_report (measure_lag : bool) (env : ThreadEnv) (work : SealedFileWork) (started_ns : Z)
    (file : StreamFile) : result Persisted :=
  match sync_and_time env started_ns file with
  | Err _ => Ok (inr SYNC_FAILED)
  | Ok completed_ns => report measure_lag work started_ns completed_ns
  end.

Definition _persist_blocking (measure_lag : bool) (env : ThreadEnv) (work : SealedFileWork) (file : StreamFile)
    : StreamFile * outcome Persisted :=
  match _clock_ns (clock_before env) "sync_started_monotonic_ns" with
  | Err e => (file, Returns (Err e))
  | Ok started_ns =>
      match pending work with
      | None => (file, Returns (sync_and_report measure_lag env work started_ns file))
      | Some p =>
          match write_frame (responses env) p file with
          | (file, Dies) => (file, Dies)
          | (file, Returns (Err _)) => (file, Returns (Ok (inr WRITE_FAILED)))
          | (file, Returns (Ok written)) =>
              (file, Returns (if StreamFile.record_count written =? Z.of_nat (length (rows p))
                              then sync_and_report measure_lag env work started_ns file
                              else Ok (inr WRITE_FAILED)))
          end
      end
  end.
End Persist.

(** [_await_blocking_outcome], once the executor's future is terminal: an exception of the
    thread, or the cancellation of the future ([None]), is a failed sync. *)
Definition _await_blocking_outcome (future : option (result Persisted)) : Persisted :=
  match future with Some (Ok outcome) => outcome | Some (Err _) => inr SYNC_FAILED | None => inr SYNC_FAILED end.

(** ** The coordinator

    [sink_calls] are the calls of the completion sink so far. *)
Record DurabilityCoordinator : Type := {
  _measure_lag : bool; _max_concurrency : Z; _inflight_generations : gset string; _next_batch_sequence : Z;
  sink_calls : list FileSyncCompletion
}.
Definition _initialize (durability_slo_ns durability_critical_ns max_concurrency : Z) (measure_lag : bool)
    : result DurabilityCoordinator :=
  let! max_concurrency := _integer max_concurrency "max_concurrency" 1 in
  let! _ := _integer durability_slo_ns "durability_slo_ns" 1 in
  let! _ := _integer durability_critical_ns "durability_critical_ns" 1 in
  Ok {| _measure_lag := measure_lag; _max_concurrency := max_concurrency; _inflight_generations := ∅;
        _next_batch_sequence := 0; sink_calls := [] |}.
Definition recovery_coordinator (max_concurrency : Z) : result DurabilityCoordinator := _initialize 1 1 max_concurrency false.

Definition set_inflight (f : gset string -> gset string) (c : DurabilityCoordinator) : DurabilityCoordinator := {|
  _measure_lag := _measure_lag c; _max_concurrency := _max_concurrency c;
  _inflight_generations := f (_inflight_generations c); _next_batch_sequence := _next_batch_sequence c;
  sink_calls := sink_calls c |}.
Definition set_sequence (n : Z) (c : DurabilityCoordinator) : DurabilityCoordinator := {|
  _measure_lag := _measure_lag c; _max_concurrency := _max_concurrency c;
  _inflight_generations := _inflight_generations c; _next_batch_sequence := n; sink_calls := sink_calls c |}.
Definition call_sink (x : FileSyncCompletion) (c : DurabilityCoordinator) : DurabilityCoordinator := {|
  _measure_lag := _measure_lag c; _max_concurrency := _max_concurrency c;
  _inflight_generations := _inflight_generations c; _next_batch_sequence := _next_batch_sequence c;
  sink_calls := sink_calls c ++ [x] |}.
Definition discard (generation_id : string) : DurabilityCoordinator -> DurabilityCoordinator :=
  set_inflight (fun s => s ∖ {[generation_id]}).

Record _FileFailure : Type := { f_generation_id : string; error : FilePersistenceError }.
(** [FileDurabilityResult | _FileFailure] *)
Definition FileOutcome : Type := (FileDurabilityResult + _FileFailure)%type.

Definition _public_failure (reason : WriterCriticalReason) : result FilePersistenceError := file_persistence_error reason.

(** Whatever the sink raises here is swallowed, so its answer does not matter. *)
Definition _emit_failure (generation_id : string) (reason : WriterCriticalReason) : M DurabilityCoordinator _FileFailure := fun c =>
  match _public_failure reason with
  | Err e => (c, Err e)
  | Ok error =>
      (match file_sync_failed generation_id error with Ok x => call_sink x c | Err _ => c end,
       Ok {| f_generation_id := generation_id; Durability.error := error |})
  end.

Definition _fail_unstarted (work : SealedFileWork) : M DurabilityCoordinator _FileFailure :=
  do! failure := _emit_failure (generation_id work) SYNC_FAILED in
  fun c => (discard (generation_id work) c, Ok failure).

(** [_persist_one] after the slot is given back: the sink is told once, [sink] is whether it
    returned, and the generation is released on every path. *)
Definition _persist_one (work : SealedFileWork) (outcome : Persisted) (sink : bool) : M DurabilityCoordinator FileOutcome := fun c =>
  let '(c, r) :=
    match outcome with
    | inr reason => (do! failure := _emit_failure (generation_id work) reason in mret (inr failure)) c
    | inl result =>
        let c := call_sink (FileSyncCompleted result) c in
        if sink then (c, Ok (inl result))
        else (c, let! error := _public_failure SYNC_FAILED in
                 Ok (inr {| f_generation_id := generation_id work; Durability.error := error |}))
    end in
  (discard (generation_id work) c, r).

(** ** Registration *)
Fixpoint first_duplicate (seen : gset string) (ids : list string) : option string :=
  match ids with
  | [] => None
  | i :: ids => if bool_decide (i ∈ seen) then Some i else first_duplicate ({[i]} ∪ seen) ids
  end.

Definition _register_work (work_items : list SealedFileWork) (clock : Z) : M DurabilityCoordinator (Z * Z) := fun c =>
  let generation_ids := generation_id <$> work_items in
  if (length work_items =? 0)%nat then (c, Err (ValueError "work_items must be nonempty")) else
  match first_duplicate (_inflight_generations c) generation_ids with
  | Some g => (c, Err (DuplicateFileGeneration g))
  | None =>
      match _clock_ns clock "batch_started_monotonic_ns" with
      | Err e => (c, Err e)
      | Ok started_ns =>
          (set_inflight (fun s => s ∪ list_to_set generation_ids) (set_sequence (_next_batch_sequence c + 1) c),
           Ok (_next_batch_sequence c, started_ns))
      end
  end.

(** The first part of [sync_batch], without a wait: [spawned] is whether [create_task]
    returned.  If it raised, the claims and the number are given back. *)
Definition sync_batch (work_items : list SealedFileWork) (clock : Z) (spawned : result unit) : M DurabilityCoordinator (Z * Z) :=
  do! ' (batch_sequence, started_ns) := _register_work work_items clock in
  fun c => match spawned with
  | Ok _ => (c, Ok (batch_sequence, started_ns))
  | Err e =>
      let c := foldl (fun c work => discard (generation_id work) c) c work_items in
      (if _next_batch_sequence c =? batch_sequence + 1 then set_sequence batch_sequence c else c, Err e)
  end.
Definition recovery_sync_batch (work_items : list SealedFileWork) (trigger : DurabilityTrigger) (clock : Z) (spawned : result unit)
    : M DurabilityCoordinator (Z * Z) :=
  if bool_decide (trigger = RECOVERY) then sync_batch work_items clock spawned
  else mraise (ValueError "recovery coordinator requires the recovery trigger").

(** ** The end of a batch *)

(** [_fail_unstarted] of several files in turn. *)
Fixpoint fail_all (work_items : list SealedFileWork) : M DurabilityCoordinator (list _FileFailure) :=
  match work_items with
  | [] => mret []
  | work :: work_items => do! f := _fail_unstarted work in do! fs := fail_all work_items in mret (f :: fs)
  end.

(** What [gather] returned for a task; [None] is an exception. *)
Definition settle (work : SealedFileWork) (settled : option FileOutcome) : M DurabilityCoordinator FileOutcome := fun c =>
  match settled with
  | Some outcome => (c, Ok outcome)
  | None =>
      if bool_decide (generation_id work ∈ _inflight_generations c)
      then (do! f := _fail_unstarted work in mret (inr f)) c
      else (c, let! error := _public_failure SYNC_FAILED in
               Ok (inr {| f_generation_id := generation_id work; Durability.error := error |}))
  end.
Fixpoint settle_all (work_items : list SealedFileWork) (settled : list (option FileOutcome)) : M DurabilityCoordinator (list FileOutcome) :=
  match work_items, settled with
  | [], [] => mret []
  | work :: work_items, s :: settled =>
      do! o := settle work s in do! os := settle_all work_items settled in mret (o :: os)
  | _, _ => mraise (ValueError "zip() arguments have different lengths")
  end.

(** What the batch raises: a critical error with its cause, or anything else. *)
Inductive Cause : Type := Persistence (error : FilePersistenceError) | CancelledError (message : string).
Inductive Raised : Type :=
| Critical (error : WriterCriticalError) (cause : option Cause)
| Cancelled (message : string)
| Other (error : exn).
Definition BatchResult : Type := (DurabilityBatch + Raised)%type.
Definition raised {A} (r : result A) (k : A -> BatchResult) : BatchResult :=
  match r with Ok a => k a | Err e => inr (Other e) end.

Fixpoint completed_files (outcomes : list FileOutcome) : list FileDurabilityResult :=
  match outcomes with
  | [] => [] | inl r :: outcomes => r :: completed_files outcomes | inr _ :: outcomes => completed_files outcomes
  end.
(** The failures with the work they belong to, in the order of the work. *)
Fixpoint failures_of (work_items : list SealedFileWork) (outcomes : list FileOutcome) : list (SealedFileWork * _FileFailure) :=
  match work_items, outcomes with
  | work :: work_items, inr f :: outcomes => (work, f) :: failures_of work_items outcomes
  | _ :: work_items, inl _ :: outcomes => failures_of work_items outcomes
  | _, _ => []
  end.

Definition failed_reason (f : SealedFileWork * _FileFailure) : WriterCriticalReason := reason (error f.2).
Definition batch_reason (failures : list (SealedFileWork * _FileFailure)) : WriterCriticalReason :=
  if existsb (fun f => bool_decide (failed_reason f = WRITE_FAILED)) failures then WRITE_FAILED else SYNC_FAILED.
Definition batch_message (reason : WriterCriticalReason) : string :=
  if bool_decide (reason = WRITE_FAILED) then "raw durability write failed" else "raw durability sync failed".

(** [_run_owned_batch] from its list of outcomes on. *)
Definition conclude (work_items : list SealedFileWork) (batch_sequence : Z) (trigger : DurabilityTrigger) (started_ns clock : Z)
    (outcomes : list FileOutcome) : BatchResult :=
  match failures_of work_items outcomes with
  | first :: others =>
      let failures := first :: others in
      let reason := batch_reason failures in
      raised (writer_critical_error reason ((fun f => generation_id f.1) <$> failures) [] (batch_message reason)) (fun critical =>
        let cause := default first (List.find (fun f => bool_decide (failed_reason f = reason)) failures) in
        inr (Critical critical (Some (Persistence (error cause.2)))))
  | [] =>
      raised (let! now := _clock_ns clock "batch_completed_monotonic_ns" in
              durability_batch {| batch_sequence := batch_sequence; Durability.trigger := trigger;
                started_monotonic_ns := started_ns; completed_monotonic_ns := Z.max started_ns now;
                files := completed_files outcomes |}) inl
  end.

(** [_run_owned_batch] once every task is done: [unstarted] are the failures of the files whose
    task could not be created. *)
Definition _run_owned_batch (work_items : list SealedFileWork) (batch_sequence : Z) (trigger : DurabilityTrigger)
    (started_ns clock : Z) (settled : list (option FileOutcome)) (unstarted : list _FileFailure) : M DurabilityCoordinator BatchResult := fun c =>
  match settle_all (take (length settled) work_items) settled c with
  | (c, Err e) => (c, Ok (inr (Other e)))
  | (c, Ok outcomes) =>
      (c, Ok (conclude work_items batch_sequence trigger started_ns clock (outcomes ++ (inr <$> unstarted))))
  end.

(** ** The end of [sync_batch] *)

(** The length of a [str]: its UTF-8 bytes that do not continue a character. *)
Definition continues (c : Ascii.ascii) : bool := let n := Ascii.N_of_ascii c in (128 <=? n)%N && (n <? 192)%N.
Definition str_len (s : string) : Z := Z.of_nat (length (filter (fun c => continues c = false) (chars_of s))).

(** The arguments of a [CancelledError]; [None] is one that is not a [str]. *)
Definition _detached_cancellation (args : list (option string)) : string :=
  match args with
  | [Some m] => if str_len m <=? 256 then m else "durability wait was cancelled"
  | _ => "durability wait was cancelled"
  end.

Record _CriticalErrorFacts : Type := {
  facts_reason : WriterCriticalReason; facts_ids : list string; facts_batches : list DurabilityBatch; facts_message : string
}.
Definition capture (e : WriterCriticalError) : _CriticalErrorFacts :=
  {| facts_reason := critical_reason e; facts_ids := affected_generation_ids e; facts_batches := completed_batches e;
     facts_message := message e |}.
Definition materialize (f : _CriticalErrorFacts) : result WriterCriticalError :=
  writer_critical_error (facts_reason f) (facts_ids f) (facts_batches f) (facts_message f).

(** What the caller gets when the internal task is done; [cancellation] is the first
    cancellation of its wait. *)
Definition public_result (internal : BatchResult) (cancellation : option (list (option string))) : BatchResult :=
  match internal with
  | inr (Critical critical cause) =>
      raised (materialize (capture critical)) (fun public =>
        inr (Critical public (match cancellation with Some args => Some (CancelledError (_detached_cancellation args)) | None => cause end)))
  | inr r => inr r
  | inl batch => match cancellation with Some args => inr (Cancelled (_detached_cancellation args)) | None => inl batch end
  end.

(** ... and when the internal task was cancelled before its first step. *)
Definition cancelled_unstarted (work_items : list SealedFileWork) (cancellation : option (list (option string)))
    : M DurabilityCoordinator BatchResult := fun c =>
  match fail_all work_items c with
  | (c, Err e) => (c, Ok (inr (Other e)))
  | (c, Ok failures) =>
      (c, Ok (raised (materialize {| facts_reason := SYNC_FAILED; facts_ids := generation_id <$> work_items; facts_batches := [];
                                     facts_message := "raw durability sync failed" |}) (fun public =>
        inr (Critical public (match cancellation, failures with
          | Some args, _ => Some (CancelledError (_detached_cancellation args))
          | None, f :: _ => Some (Persistence (error f)) | None, [] => None end)))))
  end.
