(* ===== verification/DurabilityFacts.v ===== *)
(** Facts about [Durability]: the quantiles of a histogram are ordered, what a storage thread
    does to its file and reports, and the checks that the coordinator's own values pass. *)
From S2P Require Import Prelude StorageModels PyText.
From S2P Require Histogram.
From S2P Require Import StreamFile Durability.

(** ** Quantiles *)
Lemma bounds_range (i : nat) b : Histogram.DURABILITY_BUCKET_UPPER_BOUNDS_NS !! i = Some b -> 0 <= b <= _MAX_SIGNED_INT64.
Proof.
  intros Hi. assert (HF : Forall (fun b => 0 <= b <= _MAX_SIGNED_INT64) Histogram.DURABILITY_BUCKET_UPPER_BOUNDS_NS).
  { unfold _MAX_SIGNED_INT64. repeat constructor; lia. }
  by apply (Forall_lookup_1 _ _ _ _ HF Hi).
Qed.

Lemma round_up_mono x y a b : x <= y -> Histogram.round_up x = Some a -> Histogram.round_up y = Some b -> a <= b.
Proof.
  unfold Histogram.round_up. intros Hxy Ha Hb. pose proof (Histogram.bucket_scan_at _ _ _ Hb).
  assert (Hle : (Histogram.bucket_scan Histogram.DURABILITY_BUCKET_UPPER_BOUNDS_NS x <=
                 Histogram.bucket_scan Histogram.DURABILITY_BUCKET_UPPER_BOUNDS_NS y)%nat).
  { apply (Histogram.bucket_scan_unique x _ b Hb). lia. }
  apply Nat.lt_eq_cases in Hle as [Hlt|Heq]; [|rewrite Heq in Ha; rewrite Ha in Hb; by injection Hb as ->].
  pose proof (Histogram.bucket_scan_spec _ y _ (Nat.le_refl _) _ _ Hlt Ha). lia.
Qed.

Lemma sorted_lookup_mono (l : list Z) i j x y : StronglySorted (fun x y => Z.leb x y = true) l -> (i <= j)%nat ->
  l !! i = Some x -> l !! j = Some y -> x <= y.
Proof.
  intros Hs Hij. revert i j Hij. induction Hs as [|a l Hl IH Ha]; intros i j Hij Hx Hy; [done|].
  destruct i as [|i], j as [|j]; cbn in *; simplify_eq; try lia; [|by apply (IH i j); [lia|..]].
  apply Z.leb_le. by apply (Forall_lookup_1 _ _ _ _ Ha Hy).
Qed.

Lemma quantile_mono n m l a b : 0 < n <= m ->
  Histogram.quantile n l = Some a -> Histogram.quantile m l = Some b -> a <= b.
Proof.
  intros Hnm Ha Hb. unfold Histogram.quantile in *.
  destruct (py_sorted Z.leb l !! Z.to_nat (Histogram.rank_of (Z.of_nat (length l)) n - 1)) as [x|] eqn:Ex; [|done].
  destruct (py_sorted Z.leb l !! Z.to_nat (Histogram.rank_of (Z.of_nat (length l)) m - 1)) as [y|] eqn:Ey; [|done].
  assert (x <= y); [|by eapply round_up_mono].
  eapply (sorted_lookup_mono (py_sorted Z.leb l)); [apply py_sorted_sorted; apply _| |exact Ex|exact Ey].
  assert (Histogram.rank_of (Z.of_nat (length l)) n <= Histogram.rank_of (Z.of_nat (length l)) m); [|lia].
  unfold Histogram.rank_of, ceil_div. apply Z.div_le_mono; nia.
Qed.

Lemma quantile_range n l a : Histogram.quantile n l = Some a -> 0 <= a <= _MAX_SIGNED_INT64.
Proof.
  unfold Histogram.quantile. destruct (_ !! _) as [v|]; [|done]. unfold Histogram.round_up. apply bounds_range.
Qed.

Lemma snapshot_lags l : l <> [] -> Forall Histogram.valid_lag l -> exists p50 p95 p99 m,
  Histogram.quantile 50 l = Some p50 /\ Histogram.quantile 95 l = Some p95 /\ Histogram.quantile 99 l = Some p99 /\
  Histogram.zmax l = Some m /\ p50 <= p95 /\ p95 <= p99 /\ 0 <= m <= _MAX_SIGNED_INT64.
Proof.
  intros Hne HF.
  assert (Hq : forall n, 0 < n <= 100 -> exists q, Histogram.quantile n l = Some q).
  { intros n Hn. destruct (Histogram.quantile_defined l n Hn Hne HF) as (v & b & Hv & Hb & _). exists b.
    unfold Histogram.quantile. by rewrite Hv. }
  destruct (Hq 50) as [p50 H50], (Hq 95) as [p95 H95], (Hq 99) as [p99 H99]; [lia..|].
  destruct (Histogram.zmax l) as [m|] eqn:Em; [|by apply Histogram.zmax_none in Em].
  exists p50, p95, p99, m. split_and!; try done.
  - by apply (quantile_mono 50 95 l).
  - by apply (quantile_mono 95 99 l).
  - apply Histogram.zmax_spec in Em as [Hm _]. apply (proj1 (Forall_forall _ _) HF) in Hm. apply Hm.
  - apply Histogram.zmax_spec in Em as [Hm _]. apply (proj1 (Forall_forall _ _) HF) in Hm. apply Hm.
Qed.

(** ** Checks *)
Lemma integer_is v field min : min <= v <= _MAX_SIGNED_INT64 -> Durability._integer v field min = Ok v.
Proof. intros Hv. unfold Durability._integer. rewrite (proj2 (Z.ltb_ge v min)), (proj2 (Z.ltb_ge _MAX_SIGNED_INT64 v)) by lia. done. Qed.
Lemma checked_integer v field min v' : Durability._integer v field min = Ok v' -> v' = v /\ min <= v <= _MAX_SIGNED_INT64.
Proof. apply int64_ok. Qed.
Lemma integer_err v field min e : Durability._integer v field min = Err e -> ~ min <= v <= _MAX_SIGNED_INT64.
Proof. intros He Hv. by rewrite (integer_is _ _ _ Hv) in He. Qed.
Lemma nonempty_is v field : normalized v = true -> Durability._nonempty v field = Ok v.
Proof. intros Hv. unfold Durability._nonempty. by rewrite Hv. Qed.

Lemma written_frame_ok first last times count compressed w : written_frame first last times count compressed = Ok w ->
  StreamFile.record_count w = count /\ 1 <= count <= _MAX_SIGNED_INT64 /\ count = Z.of_nat (length times) /\
  Forall (fun t => 0 <= t) times.
Proof.
  unfold written_frame. intros Hw. apply rbind_ok in Hw as (? & _ & Hw). apply rbind_ok in Hw as (? & _ & Hw).
  apply raise_if_ok in Hw as [Ht Hw]. apply rbind_ok in Hw as (n & Hn & Hw). apply int64_ok in Hn as [-> Hn].
  apply raise_if_ok in Hw as [Hc Hw]. apply raise_if_ok in Hw as [_ Hw]. apply rbind_ok in Hw as (? & _ & [= <-]). cbn.
  bool_prop. split_and!; try lia; try done. apply Forall_forall. intros t Hin.
  destruct (Z.ltb_spec t 0) as [Hlt|]; [|done]. exfalso. apply not_true_iff_false in Ht. apply Ht, existsb_exists. exists t.
  split; [by apply list_elem_of_In|]. apply orb_true_iff. left. by apply Z.ltb_lt.
Qed.

(** ** One file *)
Definition lags (completed_ns : Z) (rows : list BufferedRow) : list Z := (fun row => completed_ns - accepted_monotonic_ns row) <$> rows.
(** No row is younger than the end of the sync. *)
Definition rows_past (completed_ns : Z) (rows : list BufferedRow) : bool :=
  forallb (fun row => accepted_monotonic_ns row <=? completed_ns) rows.

Lemma lag_loop_is completed_ns rows : forall l, completed_ns <= _MAX_SIGNED_INT64 ->
  Forall (fun t => 0 <= t) (accepted_monotonic_ns <$> rows) ->
  lag_loop completed_ns rows (Histogram.cell_of l) =
  Ok (if rows_past completed_ns rows then Some (Histogram.cell_of (rev (lags completed_ns rows) ++ l)) else None).
Proof.
  induction rows as [|row rows IH]; intros l Hc HF; [done|]. cbn [lag_loop rows_past forallb]. inversion HF as [|? ? Hrow HF']; subst.
  destruct (Z.ltb_spec completed_ns (accepted_monotonic_ns row)) as [Hlt|Hge]; [by rewrite (proj2 (Z.leb_gt _ _) Hlt)|].
  rewrite (proj2 (Z.leb_le _ _) Hge). cbn [andb].
  assert (Hv : Histogram.valid_lag (completed_ns - accepted_monotonic_ns row)).
  { unfold Histogram.valid_lag, MAX_INT64. unfold _MAX_SIGNED_INT64 in Hc. cbn in Hrow. lia. }
  unfold Histogram.Cumulative.add. rewrite Histogram.integer_ok by (destruct Hv; lia). cbn [rbind].
  rewrite Histogram.cell_add_cell_of by done. cbn [rbind]. rewrite IH by done. unfold rows_past, lags. cbn [fmap list_fmap rev].
  by rewrite <- app_assoc.
Qed.

Lemma lags_valid completed_ns rows : completed_ns <= _MAX_SIGNED_INT64 -> Forall (fun t => 0 <= t) (accepted_monotonic_ns <$> rows) ->
  rows_past completed_ns rows = true -> Forall Histogram.valid_lag (lags completed_ns rows).
Proof.
  unfold lags, rows_past, Histogram.valid_lag, MAX_INT64, _MAX_SIGNED_INT64. intros Hc HF Hm. apply Forall_fmap.
  rewrite Forall_fmap in HF. rewrite Forall_forall in *. intros r Hr. specialize (HF r Hr). cbn in *.
  apply forallb_forall with (x := r) in Hm; [|by apply list_elem_of_In]. apply Z.leb_le in Hm. lia.
Qed.

Section Thread.
Context `{Compressor}.

Definition frame_of (work : SealedFileWork) : string := match pending work with Some p => compress (plain_of p) | None => "" end.
Definition row_count (work : SealedFileWork) : Z := match pending work with Some p => Z.of_nat (length (rows p)) | None => 0 end.
Definition samples (measure_lag : bool) (work : SealedFileWork) (completed_ns : Z) : option Histogram.DurabilityHistogramSnapshot :=
  match pending work with
  | Some p => if measure_lag then Some (Histogram.snapshot_of (lags completed_ns (rows p))) else None
  | None => None
  end.
(** What the coordinator promises about a file that was written and synced. *)
Definition expected_result (measure_lag : bool) (work : SealedFileWork) (started_ns completed_ns : Z) : FileDurabilityResult :=
  let s := samples measure_lag work completed_ns in {|
  r_generation_id := generation_id work; was_dirty := bool_decide (is_Some (pending work)); r_record_count := row_count work;
  sync_completed_monotonic_ns := Some completed_ns; sync_duration_ns := completed_ns - started_ns;
  lag_p50_ns := s ≫= Histogram.lag_p50_ns; lag_p95_ns := s ≫= Histogram.lag_p95_ns;
  lag_p99_ns := s ≫= Histogram.lag_p99_ns; lag_max_ns := s ≫= Histogram.lag_max_ns |}.

Lemma expected_valid measure_lag work started_ns completed_ns : normalized (generation_id work) = true ->
  0 <= started_ns <= completed_ns -> completed_ns <= _MAX_SIGNED_INT64 -> row_count work <= _MAX_SIGNED_INT64 ->
  match pending work with
  | Some p => rows p <> [] /\ Forall (fun t => 0 <= t) (accepted_monotonic_ns <$> rows p) /\
              (measure_lag = true -> rows_past completed_ns (rows p) = true)
  | None => True
  end -> file_durability_result (expected_result measure_lag work started_ns completed_ns) = Ok (expected_result measure_lag work started_ns completed_ns).
Proof.
  intros Hg Hs Hc Hn Hp. unfold file_durability_result, expected_result, samples, row_count in *.
  cbn [r_generation_id was_dirty r_record_count sync_completed_monotonic_ns sync_duration_ns lag_p50_ns lag_p95_ns lag_p99_ns lag_max_ns].
  rewrite nonempty_is by done. cbn [rbind optional]. rewrite integer_is by (destruct (pending work); lia). cbn [rbind].
  rewrite (integer_is completed_ns), (integer_is (completed_ns - started_ns)) by lia.
  destruct (pending work) as [p|]; [|reflexivity]. destruct Hp as (Hne & HF & Hm).
  assert (Hlt : 0 <? Z.of_nat (length (rows p)) = true) by (apply Z.ltb_lt; destruct (rows p); [done|cbn; lia]).
  rewrite Hlt. destruct measure_lag; [|reflexivity]. specialize (Hm eq_refl).
  pose proof (lags_valid _ _ Hc HF Hm) as HV.
  destruct (snapshot_lags (lags completed_ns (rows p))) as (p50 & p95 & p99 & m & H50 & H95 & H99 & Em & Ho1 & Ho2 & Hr); [|done|].
  { unfold lags. by destruct (rows p). }
  cbn. rewrite H50, H95, H99, Em. cbn.
  pose proof (quantile_range _ _ _ H50). pose proof (quantile_range _ _ _ H95). pose proof (quantile_range _ _ _ H99).
  rewrite !integer_is by lia. cbn. rewrite (proj2 (Z.ltb_ge _ _) Ho1), (proj2 (Z.ltb_ge _ _) Ho2). reflexivity.
Qed.

(** The write of a frame: a prefix of it reaches the file, all of it if the call returns. *)
Lemma write_frame_prefix responses p file file' r : write_frame responses p file = (file', Returns r) ->
  _fd file' = _fd file /\ _buffer file' = _buffer file /\
  exists written rest, contents file' = contents file +:+ written /\ compress (plain_of p) = written +:+ rest /\
  match r with
  | Ok w => rest = "" /\ StreamFile.record_count w = Z.of_nat (length (rows p)) /\
            1 <= Z.of_nat (length (rows p)) <= _MAX_SIGNED_INT64 /\ Forall (fun t => 0 <= t) (accepted_monotonic_ns <$> rows p)
  | Err _ => True
  end.
Proof.
  unfold write_frame. intros Hw.
  destruct (closed file); [injection Hw as <- <-; split_and!; [done..|exists "", (compress (plain_of p)); by rewrite append_nil]|].
  destruct (write_all _ _) as [written rw] eqn:Ew.
  assert (Hw' : exists rest, compress (plain_of p) = written +:+ rest /\ (done rw = true -> rest = "")).
  { destruct (base.decide (compress (plain_of p) = "")) as [E|Hne].
    - rewrite E in Ew |- *. injection Ew as <- <-. by exists "".
    - destruct (write_all_spec _ _ _ _ Ew Hne) as (rest & Hr & Hd). exists rest. split; [done|by apply Hd]. }
  destruct Hw' as (rest & Hrest & Hdone).
  destruct rw as [[u|e]|]; [|injection Hw as <- <-; split_and!; [done..|by exists written, rest]|done].
  destruct (written_frame _ _ _ _ _) as [f|e] eqn:Ef; injection Hw as <- <-; cbn; (split_and!; [done..|]);
    exists written, rest; (split; [done|]); (split; [done|]); [|done].
  apply written_frame_ok in Ef as (Hf & Hn & _ & HF). split_and!; try done; [by apply Hdone|lia..].
Qed.

Definition reports (measure_lag : bool) (env : ThreadEnv) (work : SealedFileWork) (r : result Persisted) : Prop :=
  match r with
  | Ok (inl res) => res = expected_result measure_lag work (clock_before env) (clock_after env) /\
                    0 <= clock_before env <= clock_after env /\ sync env = Ok tt /\ after_data_sync env = Ok tt
  | Ok (inr reason) => reason = SYNC_FAILED
  | Err _ => False
  end.

(** Rows younger than the end of the sync. *)
Definition stale (measure_lag : bool) (work : SealedFileWork) (completed_ns : Z) : bool :=
  match pending work with Some p => measure_lag && negb (rows_past completed_ns (rows p)) | None => false end.
Definition rows_fit (work : SealedFileWork) : Prop :=
  match pending work with
  | Some p => 1 <= Z.of_nat (length (rows p)) <= _MAX_SIGNED_INT64 /\ Forall (fun t => 0 <= t) (accepted_monotonic_ns <$> rows p)
  | None => True
  end.

Lemma make_result_is measure_lag work started_ns completed_ns : normalized (generation_id work) = true ->
  0 <= started_ns <= completed_ns -> completed_ns <= _MAX_SIGNED_INT64 -> rows_fit work -> stale measure_lag work completed_ns = false ->
  make_result work started_ns completed_ns (row_count work) (samples measure_lag work completed_ns) =
  Ok (inl (expected_result measure_lag work started_ns completed_ns)).
Proof.
  intros Hg Hs Hc Hp Hstale. unfold make_result. fold (expected_result measure_lag work started_ns completed_ns).
  rewrite expected_valid; try done.
  - unfold row_count, rows_fit in *. destruct (pending work); [apply Hp|unfold _MAX_SIGNED_INT64; lia].
  - unfold stale, rows_fit in *. destruct (pending work) as [p|]; [|done]. destruct Hp as [Hn HF]. split_and!; [|done|].
    + intros E. rewrite E in Hn. cbn in Hn. lia.
    + intros ->. by apply negb_false_iff in Hstale.
Qed.

(** The report after the sync: the expected result, unless a row is too young. *)
Lemma report_is measure_lag work started_ns completed_ns : normalized (generation_id work) = true ->
  0 <= started_ns <= completed_ns -> completed_ns <= _MAX_SIGNED_INT64 -> rows_fit work ->
  report measure_lag work started_ns completed_ns =
  Ok (if stale measure_lag work completed_ns then inr SYNC_FAILED else inl (expected_result measure_lag work started_ns completed_ns)).
Proof.
  intros Hg Hs Hc Hp. pose proof (make_result_is measure_lag work started_ns completed_ns Hg Hs Hc Hp) as Hfin.
  unfold report, stale, samples, row_count, rows_fit in *. destruct (pending work) as [p|]; [|by apply Hfin].
  destruct Hp as [Hn HF]. destruct measure_lag; [|by apply Hfin]. cbn [andb] in *.
  unfold Histogram.Cumulative.new. rewrite <- Histogram.cell_of_nil, lag_loop_is by done. cbn [rbind].
  destruct (rows_past _ _) eqn:Erows; [|done]. rewrite app_nil_r. pose proof (lags_valid _ _ Hc HF Erows) as HV.
  assert (Hsn : Histogram.Cumulative.snapshot (Histogram.cell_of (rev (lags completed_ns (rows p)))) =
                Ok (Histogram.snapshot_of (lags completed_ns (rows p)))).
  { unfold Histogram.Cumulative.snapshot. rewrite (Histogram.cell_of_perm (rev _) (lags completed_ns (rows p))).
    - apply Histogram.snapshot_cell_of; [done|]. unfold lags, MAX_INT64. rewrite length_fmap. unfold _MAX_SIGNED_INT64 in Hn. lia.
    - symmetry. apply Permutation_rev. }
  rewrite Hsn. by apply Hfin.
Qed.

Lemma sync_and_report_spec measure_lag env work started_ns file : normalized (generation_id work) = true ->
  started_ns = clock_before env -> 0 <= started_ns -> rows_fit work ->
  reports measure_lag env work (sync_and_report measure_lag env work started_ns file).
Proof.
  intros Hg -> Hs Hp. unfold sync_and_report, sync_and_time.
  destruct (sync_file env file) as [[]|] eqn:Esync; [|done]. destruct (after_data_sync env) as [[]|] eqn:Eph; [|done]. cbn [rbind].
  destruct (_clock_ns _ _) as [c|] eqn:Ec; [|done]. apply checked_integer in Ec as [-> Hc]. cbn [rbind]. unfold raise_if.
  destruct (Z.ltb_spec (clock_after env) (clock_before env)) as [|Hle]; [done|].
  assert (Hsync : sync env = Ok tt).
  { unfold sync_file in Esync. apply rbind_ok in Esync as (? & _ & Esync). by apply rbind_ok in Esync as (? & _ & Esync). }
  rewrite report_is by (done || lia). destruct (stale _ _ _); [done|]. cbn. split_and!; [done|lia..|done|done].
Qed.

(** What a storage thread does to its file and what it reports: whatever the system answers,
    the file grows by a prefix of the frame; a result means the whole frame was written and
    synced, and is the expected one; the only exception is that of an invalid clock, before
    anything is written. *)
Lemma persist_spec measure_lag env work file file' r : normalized (generation_id work) = true ->
  _persist_blocking measure_lag env work file = (file', Returns r) ->
  _fd file' = _fd file /\ _buffer file' = _buffer file /\
  exists written rest, contents file' = contents file +:+ written /\ frame_of work = written +:+ rest /\
  match r with
  | Ok (inl _) => rest = "" /\ reports measure_lag env work r
  | Ok (inr reason) => reason = WRITE_FAILED \/ rest = "" /\ reason = SYNC_FAILED
  | Err _ => written = "" /\ ~ 0 <= clock_before env <= _MAX_SIGNED_INT64
  end.
Proof.
  intros Hg Hr. unfold _persist_blocking in Hr.
  destruct (_clock_ns _ _) as [s|e] eqn:Ec.
  2: { injection Hr as <- <-. split_and!; [done..|]. exists "", (frame_of work). rewrite append_nil.
       split_and!; try done. by apply integer_err in Ec. }
  apply checked_integer in Ec as [-> Hs].
  assert (Hcase : forall f, match pending work with
      | Some p => 1 <= Z.of_nat (length (rows p)) <= _MAX_SIGNED_INT64 /\ Forall (fun t => 0 <= t) (accepted_monotonic_ns <$> rows p)
      | None => True end ->
    match sync_and_report measure_lag env work (clock_before env) f with
    | Ok (inl _) => "" = "" /\ reports measure_lag env work (sync_and_report measure_lag env work (clock_before env) f)
    | Ok (inr reason) => reason = WRITE_FAILED \/ "" = "" /\ reason = SYNC_FAILED
    | Err _ => False
    end).
  { intros f Hp. pose proof (sync_and_report_spec measure_lag env work (clock_before env) f Hg eq_refl ltac:(lia) Hp) as Hrep.
    clear Hr. destruct (sync_and_report _ _ _ _ _) as [[res|reason]|e]; [split; [reflexivity|exact Hrep]|right; split; [reflexivity|exact Hrep]|exact Hrep]. }
  unfold frame_of. destruct (pending work) as [p|] eqn:Ep.
  - destruct (write_frame _ _ _) as [f [[w|e]|]] eqn:Ew; [| |done]; apply write_frame_prefix in Ew as (Hfd & Hb & written & rest & Hc & Hfr & Hw);
      injection Hr as <- <-; (split_and!; [done..|]); exists written, rest; (split; [done|]); (split; [done|]); [|by left].
    destruct Hw as (-> & Hn & Hrange & HF). rewrite Hn, Z.eqb_refl. specialize (Hcase f (conj Hrange HF)).
    by destruct (sync_and_report _ _ _ _ _) as [[?|?]|?].
  - injection Hr as <- <-. split_and!; [done..|]. exists "", "". rewrite append_nil. (split; [done|]); (split; [done|]). specialize (Hcase file Logic.I).
    by destruct (sync_and_report _ _ _ _ _) as [[?|?]|?].
Qed.
End Thread.
