(* ===== verification/DurabilityRuns.v ===== *)
(** Runs of the durability coordinator of [storage/durability.py]: several batches at a time,
    the task of every file, the storage threads, the slots they share, cancellations and
    failures of the event loop, in any order.  The parts come from [Durability]; here they are
    the steps of a system, with the invariant of its runs: which files are claimed, what the
    storage threads have done to them, who has been told, and what the finished batches
    returned. *)
From S2P Require Import Prelude StorageModels PyText StreamFile Durability DurabilityFacts.
From S2P Require Histogram.

(** ** The system *)

(** The task of one file.  [Created]: made, not run yet; [Waiting]: for a slot; [Submitted]:
    with a slot, its work with the executor; [Ran]: the executor's future is terminal;
    [Finished]: what [gather] gets, [None] for an exception. *)
Inductive TaskState : Type :=
| Created | Waiting | Submitted | Ran (future : option (result Persisted)) | Finished (r : option FileOutcome).

(** A batch: before its internal task has run, and after it has made the tasks of its first
    files and failed the others ([_OwnedBatchState.started]). *)
Inductive Phase : Type := Unstarted | Running (tasks : list TaskState) (failed : list _FileFailure).
Record OwnedBatch : Type := {
  b_sequence : Z; b_trigger : DurabilityTrigger; b_started_ns : Z; b_works : list SealedFileWork; b_phase : Phase
}.
Definition set_phase (p : Phase) (b : OwnedBatch) : OwnedBatch := {|
  b_sequence := b_sequence b; b_trigger := b_trigger b; b_started_ns := b_started_ns b; b_works := b_works b; b_phase := p |}.

(** History: a file of a batch was settled.  It held [st_before] when the batch claimed it
    and holds [st_after] when it is released. *)
Record Settlement : Type := {
  st_sequence : Z; st_work : SealedFileWork; st_before : string; st_after : string; st_outcome : FileOutcome
}.

(** History: a batch ended.  [e_clock] is the last reading of the clock, [None] if the internal
    task was cancelled before its first step; [e_cancellation] are the arguments of the first
    cancellation of the caller's wait; [e_result] is what the caller gets. *)
Record Ending : Type := {
  e_batch : OwnedBatch; e_clock : option Z; e_cancellation : option (list (option string)); e_result : BatchResult
}.

(** [slots] are the free slots of the limiter, [disk] the files by generation, [claimed]
    what a claimed file held at registration, [results] how the batches ended. *)
Record System : Type := {
  co : DurabilityCoordinator; slots : Z; disk : gmap string StreamFile; batches : list OwnedBatch;
  claimed : gmap string string; settled : list Settlement; results : list Ending
}.
Definition held (m : gmap string StreamFile) (g : string) : string := default "" (contents <$> m !! g).
Definition release (s : System) (b : OwnedBatch) (work : SealedFileWork) (outcome : FileOutcome) : Settlement := {|
  st_sequence := b_sequence b; st_work := work; st_before := default "" (claimed s !! generation_id work);
  st_after := held (disk s) (generation_id work); st_outcome := outcome |}.
Definition claim (works : list SealedFileWork) (m : gmap string StreamFile) (claimed : gmap string string) : gmap string string :=
  foldl (fun claimed work => <[generation_id work := held m (generation_id work)]> claimed) claimed works.

(** The outcomes of the finished tasks, if all are. *)
Fixpoint finished (tasks : list TaskState) : option (list (option FileOutcome)) :=
  match tasks with
  | [] => Some []
  | Finished r :: tasks => match finished tasks with Some rs => Some (r :: rs) | None => None end
  | _ :: _ => None
  end.
(** The settlements made at the end of a batch: of the tasks that raised. *)
Fixpoint late (s : System) (b : OwnedBatch) (works : list SealedFileWork) (rs : list (option FileOutcome)) (outcomes : list FileOutcome)
    : list Settlement :=
  match works, rs, outcomes with
  | w :: works, None :: rs, o :: outcomes => release s b w o :: late s b works rs outcomes
  | _ :: works, Some _ :: rs, _ :: outcomes => late s b works rs outcomes
  | _, _, _ => []
  end.
Definition outcome_of {A} (r : result A) : option A := match r with Ok a => Some a | Err _ => None end.

Definition with_task (i : nat) (t : TaskState) (b : OwnedBatch) : OwnedBatch :=
  match b_phase b with
  | Running tasks failed => set_phase (Running (<[i := t]> tasks) failed) b
  | Unstarted => b
  end.
Definition task (b : OwnedBatch) (i : nat) : option (SealedFileWork * TaskState) :=
  match b_phase b with
  | Running tasks _ => match b_works b !! i, tasks !! i with Some w, Some t => Some (w, t) | _, _ => None end
  | Unstarted => None
  end.

(** What others may do to the files of batches in flight: buffer rows. *)
Definition untouched (inflight : gset string) (m m' : gmap string StreamFile) : Prop :=
  forall g file, g ∈ inflight -> m !! g = Some file ->
  exists file', m' !! g = Some file' /\ contents file' = contents file /\ _fd file' = _fd file /\ compressed_size file' = compressed_size file.

Inductive Kind : Type := Call | Loop | Fault.
(** A thread that returns a result went well; anything else it does is a failure. *)
Definition thread_kind (r : result Persisted) : Kind := match r with Ok (inl _) => Loop | _ => Fault end.
Definition sink_kind (sink : bool) : Kind := if sink then Loop else Fault.
Definition end_kind (clock : Z) (cancellation : option (list (option string))) : Kind :=
  if (0 <=? clock) && (clock <=? _MAX_SIGNED_INT64) && bool_decide (cancellation = None) then Loop else Fault.

(** A value of [PendingRows] passed its constructor and those of its rows. *)
Definition rows_made (p : PendingRows) : Prop :=
  pending_rows (rows p) (plain_bytes p) = Ok p /\
  Forall (fun r => buffered_row (data r) (accepted_monotonic_ns r) = Ok r) (rows p).
Definition work_made (w : SealedFileWork) : Prop :=
  (exists g p f, sealed_work g p f = Ok w) /\ match pending w with Some p => rows_made p | None => True end.

Section System.
Context `{Compressor}.

(** One step: a [Call] from outside, the event [Loop] or a thread at work, or a [Fault]: a
    failing or closing event loop or executor, a thread that does not return a result, a sink
    that raises, a clock that is not valid or a cancelled wait. *)
Inductive step : Kind -> System -> System -> Prop :=
| step_register s works trigger clock c' seq started : Forall work_made works ->
    Forall (fun w => is_Some (disk s !! generation_id w)) works ->
    sync_batch works clock (Ok tt) (co s) = (c', Ok (seq, started)) ->
    step Call s {| co := c'; slots := slots s; disk := disk s;
      batches := batches s ++ [{| b_sequence := seq; b_trigger := trigger; b_started_ns := started; b_works := works; b_phase := Unstarted |}];
      claimed := claim works (disk s) (claimed s); settled := settled s; results := results s |}
| step_refused s works clock spawned c' e : sync_batch works clock spawned (co s) = (c', Err e) ->
    step Call s {| co := c'; slots := slots s; disk := disk s; batches := batches s; claimed := claimed s; settled := settled s; results := results s |}
| step_others s disk' : untouched (_inflight_generations (co s)) (disk s) disk' ->
    step Call s {| co := co s; slots := slots s; disk := disk'; batches := batches s; claimed := claimed s; settled := settled s; results := results s |}
| step_start s pre b post n failures c' : batches s = pre ++ b :: post -> b_phase b = Unstarted -> (n <= length (b_works b))%nat ->
    fail_all (drop n (b_works b)) (co s) = (c', Ok failures) ->
    step (if (n =? length (b_works b))%nat then Loop else Fault) s {| co := c'; slots := slots s; disk := disk s;
      batches := pre ++ set_phase (Running (replicate n Created) failures) b :: post; claimed := claimed s;
      settled := settled s ++ zip_with (fun w f => release s b w (inr f)) (drop n (b_works b)) failures; results := results s |}
| step_cancelled s pre b post cancellation c' r : batches s = pre ++ b :: post -> b_phase b = Unstarted ->
    cancelled_unstarted (b_works b) cancellation (co s) = (c', Ok r) ->
    step Fault s {| co := c'; slots := slots s; disk := disk s; batches := pre ++ post; claimed := claimed s;
      settled := settled s ++ zip_with (fun w f => release s b w (inr f)) (b_works b) (default [] (outcome_of (fail_all (b_works b) (co s)).2));
      results := results s ++ [{| e_batch := b; e_clock := None; e_cancellation := cancellation; e_result := r |}] |}
| step_begin s pre b post i w : batches s = pre ++ b :: post -> task b i = Some (w, Created) ->
    step Loop s {| co := co s; slots := slots s; disk := disk s; batches := pre ++ with_task i Waiting b :: post;
      claimed := claimed s; settled := settled s; results := results s |}
| step_cancel_task s pre b post i w : batches s = pre ++ b :: post -> task b i = Some (w, Created) ->
    step Fault s {| co := co s; slots := slots s; disk := disk s; batches := pre ++ with_task i (Finished None) b :: post;
      claimed := claimed s; settled := settled s; results := results s |}
| step_abandon s pre b post i w sink c' r : batches s = pre ++ b :: post -> task b i = Some (w, Waiting) ->
    _persist_one w (inr SYNC_FAILED) sink (co s) = (c', Ok r) ->
    step Fault s {| co := c'; slots := slots s; disk := disk s; batches := pre ++ with_task i (Finished (Some r)) b :: post;
      claimed := claimed s; settled := settled s ++ [release s b w r]; results := results s |}
| step_submit s pre b post i w : batches s = pre ++ b :: post -> task b i = Some (w, Waiting) -> 0 < slots s ->
    step Loop s {| co := co s; slots := slots s - 1; disk := disk s; batches := pre ++ with_task i Submitted b :: post;
      claimed := claimed s; settled := settled s; results := results s |}
| step_thread s pre b post i w env file file' r : batches s = pre ++ b :: post -> task b i = Some (w, Submitted) ->
    disk s !! generation_id w = Some file -> _persist_blocking (_measure_lag (co s)) env w file = (file', Returns r) ->
    step (thread_kind r) s {| co := co s; slots := slots s; disk := <[generation_id w := file']> (disk s);
      batches := pre ++ with_task i (Ran (Some r)) b :: post; claimed := claimed s; settled := settled s; results := results s |}
| step_never_ran s pre b post i w : batches s = pre ++ b :: post -> task b i = Some (w, Submitted) ->
    step Fault s {| co := co s; slots := slots s; disk := disk s; batches := pre ++ with_task i (Ran None) b :: post;
      claimed := claimed s; settled := settled s; results := results s |}
| step_settle s pre b post i w future sink c' r : batches s = pre ++ b :: post -> task b i = Some (w, Ran future) ->
    _persist_one w (_await_blocking_outcome future) sink (co s) = (c', Ok r) ->
    step (sink_kind sink) s {| co := c'; slots := slots s + 1; disk := disk s; batches := pre ++ with_task i (Finished (Some r)) b :: post;
      claimed := claimed s; settled := settled s ++ [release s b w r]; results := results s |}
| step_finish s pre b post tasks failed rs clock cancellation c' r : batches s = pre ++ b :: post -> b_phase b = Running tasks failed ->
    finished tasks = Some rs ->
    _run_owned_batch (b_works b) (b_sequence b) (b_trigger b) (b_started_ns b) clock rs failed (co s) = (c', Ok r) ->
    step (end_kind clock cancellation) s {| co := c'; slots := slots s; disk := disk s; batches := pre ++ post; claimed := claimed s;
      settled := settled s ++ late s b (b_works b) rs
                   (default [] (outcome_of (settle_all (take (length rs) (b_works b)) rs (co s)).2));
      results := results s ++ [{| e_batch := b; e_clock := Some clock; e_cancellation := cancellation; e_result := public_result r cancellation |}] |}.

Inductive runs : System -> Prop :=
| runs_start c n m slo critical measure_lag : _initialize slo critical n measure_lag = Ok c ->
    runs {| co := c; slots := n; disk := m; batches := []; claimed := ∅; settled := []; results := [] |}
| runs_step s s' kind : runs s -> step kind s s' -> runs s'.
End System.

(** ** What the operations of the coordinator do *)
Definition failure (reason : WriterCriticalReason) (w : SealedFileWork) : _FileFailure :=
  {| f_generation_id := generation_id w; error := {| Durability.reason := reason |} |}.
Definition failed_call (reason : WriterCriticalReason) (w : SealedFileWork) : FileSyncCompletion :=
  FileSyncFailed (generation_id w) {| Durability.reason := reason |}.
Definition gens (works : list SealedFileWork) : list string := generation_id <$> works.

(** The claims of [works] are given back and the sink is called. *)
Definition released (works : list SealedFileWork) (calls : list FileSyncCompletion) (c : DurabilityCoordinator) : DurabilityCoordinator := {|
  _measure_lag := _measure_lag c; _max_concurrency := _max_concurrency c;
  _inflight_generations := _inflight_generations c ∖ list_to_set (gens works);
  _next_batch_sequence := _next_batch_sequence c; sink_calls := sink_calls c ++ calls |}.

Lemma coordinator_eq c c' : _measure_lag c = _measure_lag c' -> _max_concurrency c = _max_concurrency c' ->
  _inflight_generations c = _inflight_generations c' -> _next_batch_sequence c = _next_batch_sequence c' ->
  sink_calls c = sink_calls c' -> c = c'.
Proof. destruct c, c'. cbn. congruence. Qed.
Lemma released_nil c : released [] [] c = c.
Proof. apply coordinator_eq; try done; cbn; [set_solver|apply app_nil_r]. Qed.
Lemma released_app ws1 ws2 cs1 cs2 c : released ws2 cs2 (released ws1 cs1 c) = released (ws1 ++ ws2) (cs1 ++ cs2) c.
Proof.
  apply coordinator_eq; try done; cbn; [|by rewrite app_assoc]. unfold gens. rewrite fmap_app, list_to_set_app_L.
  apply leibniz_equiv. intros g. rewrite !elem_of_difference, elem_of_union. tauto.
Qed.
Lemma discard_released w x c : discard (generation_id w) (call_sink x c) = released [w] [x] c.
Proof. apply coordinator_eq; try done. cbn. by rewrite union_empty_r_L. Qed.

Definition file_reason (r : WriterCriticalReason) : Prop := r = WRITE_FAILED \/ r = SYNC_FAILED.
Lemma public_failure_is r : file_reason r -> _public_failure r = Ok {| Durability.reason := r |}.
Proof. intros [-> | ->]; reflexivity. Qed.
Lemma emit_failure_is w r c : file_reason r -> normalized (generation_id w) = true ->
  _emit_failure (generation_id w) r c = (call_sink (failed_call r w) c, Ok (failure r w)).
Proof.
  intros Hr Hw. unfold _emit_failure, file_sync_failed. rewrite (public_failure_is r Hr).
  unfold Durability._nonempty, raise_if. rewrite Hw. reflexivity.
Qed.
Lemma fail_unstarted_is w c : normalized (generation_id w) = true ->
  _fail_unstarted w c = (released [w] [failed_call SYNC_FAILED w] c, Ok (failure SYNC_FAILED w)).
Proof. intros Hw. unfold _fail_unstarted, mbind. rewrite emit_failure_is by (done || by right). by rewrite <- discard_released. Qed.
Lemma fail_all_is ws c : Forall (fun w => normalized (generation_id w) = true) ws ->
  fail_all ws c = (released ws (failed_call SYNC_FAILED <$> ws) c, Ok (failure SYNC_FAILED <$> ws)).
Proof.
  intros HF. revert c. induction HF as [|w ws Hw _ IH]; intros c; cbn [fail_all]; [by rewrite released_nil|].
  unfold mbind at 1. rewrite fail_unstarted_is by done. unfold mbind. rewrite IH, released_app. done.
Qed.

Definition told_outcome (w : SealedFileWork) (o : Persisted) (sink : bool) : FileSyncCompletion * FileOutcome :=
  match o with
  | inl r => (FileSyncCompleted r, if sink then inl r else inr (failure SYNC_FAILED w))
  | inr reason => (failed_call reason w, inr (failure reason w))
  end.
Lemma persist_one_is w o sink c : normalized (generation_id w) = true -> match o with inr r => file_reason r | inl _ => True end ->
  _persist_one w o sink c = (released [w] [(told_outcome w o sink).1] c, Ok (told_outcome w o sink).2).
Proof.
  intros Hw Ho. unfold _persist_one. destruct o as [r|r]; cbn [told_outcome].
  - destruct sink; by rewrite <- discard_released.
  - unfold mbind. rewrite emit_failure_is by done. by rewrite <- discard_released.
Qed.

Fixpoint unsettled (works : list SealedFileWork) (rs : list (option FileOutcome)) : list SealedFileWork :=
  match works, rs with
  | w :: works, None :: rs => w :: unsettled works rs
  | _ :: works, Some _ :: rs => unsettled works rs
  | _, _ => []
  end.
Definition final_outcome (w : SealedFileWork) (r : option FileOutcome) : FileOutcome := default (inr (failure SYNC_FAILED w)) r.

Lemma settle_all_is works rs : forall c, length works = length rs -> Forall (fun w => normalized (generation_id w) = true) works ->
  NoDup (gens works) -> (forall w, w ∈ unsettled works rs -> generation_id w ∈ _inflight_generations c) ->
  settle_all works rs c =
  (released (unsettled works rs) (failed_call SYNC_FAILED <$> unsettled works rs) c, Ok (zip_with final_outcome works rs)).
Proof.
  revert rs. induction works as [|w works IH]; intros [|r rs] c Hlen HF Hnd Hin; try done; [by rewrite released_nil|].
  cbn in Hlen. inversion HF as [|? ? Hw HF']; subst. cbn in Hnd. apply NoDup_cons in Hnd as [Hw' Hnd]. cbn [settle_all].
  unfold mbind at 1. destruct r as [o|]; cbn [settle unsettled] in *.
  - unfold mbind. by rewrite IH by (done || lia).
  - rewrite bool_decide_eq_true_2 by (apply Hin; left). unfold mbind at 1. rewrite fail_unstarted_is by done.
    unfold mbind. cbn. rewrite IH; try done; [by rewrite released_app|lia|].
    intros v Hv. cbn. rewrite union_empty_r_L. apply elem_of_difference. split; [apply Hin; by right|].
    rewrite elem_of_singleton. intros E. apply Hw'. rewrite <- E. apply list_elem_of_fmap. exists v. split; [done|].
    clear -Hv. revert rs Hv. induction works as [|x works IH]; intros [|[?|] rs] Hv; cbn in Hv; try (by apply elem_of_nil in Hv).
    + right. by eapply IH.
    + apply elem_of_cons in Hv as [->|Hv]; [left|right; by eapply IH].
Qed.

(** ** Registration *)
Lemma first_duplicate_none ids : forall seen, first_duplicate seen ids = None -> NoDup ids /\ forall i, i ∈ ids -> i ∉ seen.
Proof.
  induction ids as [|i ids IH]; intros seen Hd; [split; [constructor|by intros i Hi%elem_of_nil]|]. cbn in Hd.
  destruct (bool_decide (i ∈ seen)) eqn:Ei; [done|]. apply bool_decide_eq_false in Ei. apply IH in Hd as [Hnd Hin].
  split; [|intros j [->|Hj]%elem_of_cons; [done|specialize (Hin j Hj); set_solver]].
  constructor; [|done]. intros Hi. specialize (Hin i Hi). set_solver.
Qed.

Definition registered (works : list SealedFileWork) (c : DurabilityCoordinator) : DurabilityCoordinator := {|
  _measure_lag := _measure_lag c; _max_concurrency := _max_concurrency c;
  _inflight_generations := _inflight_generations c ∪ list_to_set (gens works);
  _next_batch_sequence := _next_batch_sequence c + 1; sink_calls := sink_calls c |}.

Lemma register_spec works clock c c' r : _register_work works clock c = (c', r) ->
  match r with
  | Ok (seq, started) => works <> [] /\ NoDup (gens works) /\ (forall g, g ∈ gens works -> g ∉ _inflight_generations c) /\
      started = clock /\ 0 <= clock <= _MAX_SIGNED_INT64 /\ seq = _next_batch_sequence c /\ c' = registered works c
  | Err _ => c' = c
  end.
Proof.
  unfold _register_work. intros Hr. destruct (length works =? 0)%nat eqn:El; [by injection Hr as <- <-|].
  destruct (first_duplicate _ _) as [g|] eqn:Ed; [by injection Hr as <- <-|].
  destruct (_clock_ns _ _) as [t|e] eqn:Ec; injection Hr as <- <-; [|done].
  apply checked_integer in Ec as [-> Hc]. apply first_duplicate_none in Ed as [Hnd Hin]. apply Nat.eqb_neq in El.
  split_and!; try done; try lia. by intros ->.
Qed.

Lemma discard_all_is works c : foldl (fun c w => discard (generation_id w) c) c works = released works [] c.
Proof.
  revert c. induction works as [|w works IH]; intros c; cbn [foldl]; [by rewrite released_nil|]. rewrite IH.
  assert (discard (generation_id w) c = released [w] [] c) as ->.
  { apply coordinator_eq; try done; cbn; [by rewrite union_empty_r_L|by rewrite app_nil_r]. }
  apply released_app.
Qed.

Lemma sync_batch_spec works clock spawned c c' r : sync_batch works clock spawned c = (c', r) ->
  match r with
  | Ok (seq, started) => works <> [] /\ NoDup (gens works) /\ (forall g, g ∈ gens works -> g ∉ _inflight_generations c) /\
      started = clock /\ 0 <= clock <= _MAX_SIGNED_INT64 /\ seq = _next_batch_sequence c /\ c' = registered works c
  | Err _ => c' = c
  end.
Proof.
  unfold sync_batch, mbind. intros Hr. destruct (_register_work works clock c) as [c1 [[seq started]|e]] eqn:Er;
    apply register_spec in Er; [|by injection Hr as <- <-].
  destruct spawned as [u|e]; injection Hr as <- <-; [done|]. destruct Er as (_ & _ & Hin & _ & _ & -> & ->).
  rewrite discard_all_is. cbn [_next_batch_sequence released registered]. rewrite Z.eqb_refl.
  apply coordinator_eq; try done; cbn; [|by rewrite app_nil_r]. apply leibniz_equiv. intros g. specialize (Hin g).
  rewrite elem_of_difference, elem_of_union, elem_of_list_to_set. tauto.
Qed.

(** ** The invariant *)
Definition open_task (t : TaskState) : bool := match t with Finished (Some _) => false | _ => true end.
Fixpoint open_of (works : list SealedFileWork) (tasks : list TaskState) : list SealedFileWork :=
  match works, tasks with
  | w :: works, t :: tasks => if open_task t then w :: open_of works tasks else open_of works tasks
  | _, _ => []
  end.
(** The files of a batch that are still claimed. *)
Definition open (b : OwnedBatch) : list SealedFileWork :=
  match b_phase b with Unstarted => b_works b | Running tasks _ => open_of (b_works b) tasks end.
Definition all_open (bs : list OwnedBatch) : list SealedFileWork := concat (open <$> bs).

(** A task between taking a slot and giving it back. *)
Definition holds (t : TaskState) : bool := match t with Submitted | Ran _ => true | _ => false end.
Definition holders (b : OwnedBatch) : Z :=
  match b_phase b with Unstarted => 0 | Running tasks _ => zsum ((fun t => Z.b2z (holds t)) <$> tasks) end.

Section Inv.
Context `{Compressor}.

(** What a thread leaves: all of the frame and the expected result, or a prefix. *)
Definition thread_ok (measure_lag : bool) (w : SealedFileWork) (before after : string) (o : Persisted) : Prop :=
  exists written rest, after = before +:+ written /\ frame_of w = written +:+ rest /\
  match o with
  | inl r => rest = "" /\ exists started completed, 0 <= started <= completed /\ r = expected_result measure_lag w started completed
  | inr reason => file_reason reason
  end.

(** What the sink was told about a settlement. *)
Definition told (measure_lag : bool) (st : Settlement) (call : FileSyncCompletion) : Prop :=
  exists o sink, thread_ok measure_lag (st_work st) (st_before st) (st_after st) o /\
    (call, st_outcome st) = told_outcome (st_work st) o sink.

Definition recorded (sts : list Settlement) (seq : Z) (w : SealedFileWork) (o : FileOutcome) : Prop :=
  exists st, st ∈ sts /\ st_sequence st = seq /\ st_work st = w /\ st_outcome st = o.
Definition settled_works (sts : list Settlement) (seq : Z) : list SealedFileWork := st_work <$> filter (fun st => st_sequence st = seq) sts.

Definition file_at (s : System) (w : SealedFileWork) (P : string -> string -> Prop) : Prop :=
  exists file, disk s !! generation_id w = Some file /\ P (default "" (claimed s !! generation_id w)) (contents file).
Definition task_ok (s : System) (seq : Z) (w : SealedFileWork) (t : TaskState) : Prop :=
  match t with
  | Finished (Some o) => recorded (settled s) seq w o
  | Ran future => file_at s w (fun before after => thread_ok (_measure_lag (co s)) w before after (_await_blocking_outcome future))
  | _ => file_at s w eq
  end.

Definition static_ok (b : OwnedBatch) : Prop :=
  b_works b <> [] /\ NoDup (gens (b_works b)) /\ Forall (fun w => normalized (generation_id w) = true) (b_works b) /\
  Forall work_made (b_works b) /\ 0 <= b_started_ns b <= _MAX_SIGNED_INT64 /\ 0 <= b_sequence b.
Definition phase_ok (s : System) (b : OwnedBatch) : Prop :=
  match b_phase b with
  | Unstarted => Forall (fun w => file_at s w eq) (b_works b)
  | Running tasks failed =>
      Forall2 (task_ok s (b_sequence b)) (take (length tasks) (b_works b)) tasks /\
      Forall2 (fun w f => f = failure SYNC_FAILED w /\ recorded (settled s) (b_sequence b) w (inr f)) (drop (length tasks) (b_works b)) failed
  end.
Record batch_ok (s : System) (b : OwnedBatch) : Prop := {
  bo_static : static_ok b;
  bo_settled : settled_works (settled s) (b_sequence b) ++ open b ≡ₚ b_works b;
  bo_phase : phase_ok s b
}.

(** What the caller of [sync_batch] gets for the outcomes of its files: [clock] is the last
    reading, [cancellation] the first cancellation of its wait. *)
Definition promised (b : OwnedBatch) (clock : Z) (cancellation : option (list (option string))) (outcomes : list FileOutcome) : BatchResult :=
  public_result (conclude (b_works b) (b_sequence b) (b_trigger b) (b_started_ns b) clock outcomes) cancellation.
Definition all_failed (works : list SealedFileWork) : list FileOutcome := (fun w => inr (failure SYNC_FAILED w)) <$> works.
Record result_ok (s : System) (e : Ending) : Prop := {
  ro_static : static_ok (e_batch e);
  ro_settled : settled_works (settled s) (b_sequence (e_batch e)) ≡ₚ b_works (e_batch e);
  ro_result : exists outcomes, e_result e = promised (e_batch e) (default 0 (e_clock e)) (e_cancellation e) outcomes /\
    Forall2 (recorded (settled s) (b_sequence (e_batch e))) (b_works (e_batch e)) outcomes /\
    (e_clock e = None -> outcomes = all_failed (b_works (e_batch e)))
}.

Record Inv (s : System) : Prop := {
  inv_slots : slots s + zsum (holders <$> batches s) = _max_concurrency (co s);
  inv_free : 0 <= slots s;
  inv_max : 1 <= _max_concurrency (co s);
  inv_claims : forall g, g ∈ _inflight_generations (co s) <-> g ∈ gens (all_open (batches s));
  inv_nodup : NoDup (gens (all_open (batches s)));
  inv_batches : Forall (batch_ok s) (batches s);
  inv_results : Forall (result_ok s) (results s);
  inv_next : 0 <= _next_batch_sequence (co s);
  inv_sequences : (b_sequence <$> batches s) ++ (b_sequence <$> (e_batch <$> results s)) ≡ₚ seqZ 0 (_next_batch_sequence (co s));
  inv_range : Forall (fun st => 0 <= st_sequence st < _next_batch_sequence (co s)) (settled s);
  inv_told : Forall2 (told (_measure_lag (co s))) (settled s) (sink_calls (co s))
}.
End Inv.
