(* ===== verification/DurabilitySteps.v ===== *)
(** Every step of [DurabilityRuns] preserves its invariant. *)
From S2P Require Import Prelude StorageModels PyText.
From S2P Require Import StreamFile Durability DurabilityFacts DurabilityRuns.

(** ** Lists of works and tasks *)
Lemma gens_app l1 l2 : gens (l1 ++ l2) = gens l1 ++ gens l2.
Proof. apply fmap_app. Qed.
#[export] Instance gens_proper : Proper ((≡ₚ) ==> (≡ₚ)) gens.
Proof. intros l1 l2 E. unfold gens. by rewrite E. Qed.
Lemma elem_of_gens w ws : w ∈ ws -> generation_id w ∈ gens ws.
Proof. apply list_elem_of_fmap_2. Qed.
Lemma gens_inj ws v w : NoDup (gens ws) -> v ∈ ws -> w ∈ ws -> generation_id v = generation_id w -> v = w.
Proof.
  intros Hnd Hv Hw E. apply list_elem_of_lookup in Hv as [i Hi], Hw as [j Hj].
  assert (i = j) as ->; [|congruence]. eapply (NoDup_lookup (gens ws)); [done|..]; unfold gens; rewrite list_lookup_fmap; [by rewrite Hi|].
  rewrite Hj. cbn. by rewrite E.
Qed.
Lemma all_open_app l1 l2 : all_open (l1 ++ l2) = all_open l1 ++ all_open l2.
Proof. unfold all_open. by rewrite fmap_app, List.concat_app. Qed.
Lemma all_open_cons b l : all_open (b :: l) = open b ++ all_open l.
Proof. done. Qed.
Lemma elem_of_all_open w b l : w ∈ open b -> b ∈ l -> w ∈ all_open l.
Proof. intros Hw Hb. unfold all_open. apply elem_of_concat. exists (open b). split; [done|]. by apply list_elem_of_fmap_2. Qed.

Lemma open_of_In works tasks (i : nat) w t : works !! i = Some w -> tasks !! i = Some t -> open_task t = true -> w ∈ open_of works tasks.
Proof.
  revert tasks i. induction works as [|v works IH]; intros [|s tasks] [|i] Hw Ht Ho; cbn in *; try done; simplify_eq.
  - rewrite Ho. left.
  - destruct (open_task s); [right|]; by eapply IH.
Qed.
Lemma open_of_sub works tasks w : w ∈ open_of works tasks -> w ∈ works.
Proof.
  revert tasks. induction works as [|v works IH]; intros [|s tasks] Hw; cbn in *; try by apply elem_of_nil in Hw.
  destruct (open_task s); [apply elem_of_cons in Hw as [->|Hw]; [left|]|]; right; by eapply IH.
Qed.
Lemma open_sub b w : w ∈ open b -> w ∈ b_works b.
Proof. unfold open. destruct (b_phase b); [done|]. apply open_of_sub. Qed.
Lemma open_of_update works tasks (i : nat) w t t0 : works !! i = Some w -> tasks !! i = Some t0 -> open_task t0 = true ->
  open_of works tasks ≡ₚ (if open_task t then [] else [w]) ++ open_of works (<[i := t]> tasks).
Proof.
  revert tasks i. induction works as [|v works IH]; intros [|s tasks] [|i] Hw Ht Ho; cbn in *; try done; simplify_eq.
  - rewrite Ho. by destruct (open_task t).
  - specialize (IH _ _ Hw Ht Ho). destruct (open_task s); [|done]. rewrite IH. destruct (open_task t); [done|]. apply perm_swap.
Qed.
Lemma open_of_created works n : (n <= length works)%nat -> open_of works (replicate n Created) = take n works.
Proof.
  revert n. induction works as [|w works IH]; intros n Hn; [by destruct n|]. destruct n as [|n]; [done|]. cbn in *. by rewrite IH by lia.
Qed.
Lemma holders_update tasks (i : nat) t t0 : tasks !! i = Some t0 ->
  zsum ((fun t => Z.b2z (holds t)) <$> <[i := t]> tasks) = zsum ((fun t => Z.b2z (holds t)) <$> tasks) - Z.b2z (holds t0) + Z.b2z (holds t).
Proof.
  revert i. induction tasks as [|s tasks IH]; intros i Ht; [done|]. destruct i as [|i].
  - injection Ht as ->. cbn [insert list_insert fmap list_fmap]. rewrite !zsum_cons. lia.
  - pose proof (IH i Ht) as E. change (<[S i := t]> (s :: tasks)) with (s :: <[i := t]> tasks). rewrite !fmap_cons, !zsum_cons, E. lia.
Qed.
Lemma holders_created n : zsum ((fun t => Z.b2z (holds t)) <$> replicate n Created) = 0.
Proof. induction n as [|n IH]; [done|]. cbn [replicate fmap list_fmap]. by rewrite zsum_cons, IH. Qed.

Lemma task_open b i w t : task b i = Some (w, t) -> exists tasks failed, b_phase b = Running tasks failed /\ b_works b !! i = Some w /\ tasks !! i = Some t.
Proof.
  unfold task. destruct (b_phase b) as [|tasks failed]; [done|]. destruct (b_works b !! i) as [v|]; [|done].
  destruct (tasks !! i) as [t'|] eqn:Et; [|done]. intros [= -> ->]. by exists tasks, failed.
Qed.
Lemma finished_is tasks rs : finished tasks = Some rs -> tasks = Finished <$> rs.
Proof.
  revert rs. induction tasks as [|t tasks IH]; intros rs Hf; cbn in Hf; [by injection Hf as <-|].
  destruct t; try done. destruct (finished tasks) as [rs'|]; [|done]. injection Hf as <-. cbn. by rewrite (IH rs').
Qed.
Lemma open_of_finished works rs : open_of works (Finished <$> rs) = unsettled works rs.
Proof. revert rs. induction works as [|w works IH]; intros [|[o|] rs]; cbn; try done; by rewrite IH. Qed.

(** ** What a step leaves as it was *)
Section Steps.
Context `{Compressor}.

Lemma recorded_mono sts sts' seq w o : recorded sts seq w o -> recorded (sts ++ sts') seq w o.
Proof. intros (st & Hin & Hst). exists st. split; [apply elem_of_app; by left|done]. Qed.
Lemma settled_works_app sts sts' seq : settled_works (sts ++ sts') seq = settled_works sts seq ++ settled_works sts' seq.
Proof. unfold settled_works. by rewrite filter_app, fmap_app. Qed.
Lemma settled_works_other sts seq : Forall (fun st => st_sequence st <> seq) sts -> settled_works sts seq = [].
Proof. intros HF. unfold settled_works. rewrite filter_none; [done|]. by apply Forall_forall. Qed.
Lemma settled_works_own sts seq : Forall (fun st => st_sequence st = seq) sts -> settled_works sts seq = st_work <$> sts.
Proof. intros HF. unfold settled_works. rewrite filter_all; [done|]. by apply Forall_forall. Qed.

(** The files of [ws] are found as they were. *)
Definition kept (s s' : System) (ws : list SealedFileWork) : Prop := forall w P, w ∈ ws -> file_at s w P -> file_at s' w P.

Lemma task_ok_kept s s' sts seq w t ws : settled s' = settled s ++ sts -> _measure_lag (co s') = _measure_lag (co s) ->
  kept s s' ws -> (open_task t = true -> w ∈ ws) -> task_ok s seq w t -> task_ok s' seq w t.
Proof.
  intros Hs Hm Hk Hin Ht. unfold task_ok in *. destruct t as [| | |f|[o|]]; try (apply Hk; [by apply Hin|done]).
  - rewrite Hm. apply Hk; [by apply Hin|done].
  - rewrite Hs. by apply recorded_mono.
Qed.

Lemma batch_frame s s' sts b : settled s' = settled s ++ sts -> _measure_lag (co s') = _measure_lag (co s) ->
  Forall (fun st => st_sequence st <> b_sequence b) sts -> kept s s' (open b) -> batch_ok s b -> batch_ok s' b.
Proof.
  intros Hs Hm Hsts Hk [Hst Hset Hph]. split; [done| |].
  - by rewrite Hs, settled_works_app, (settled_works_other sts), app_nil_r.
  - unfold phase_ok, open in *. destruct (b_phase b) as [|tasks failed].
    + rewrite Forall_forall in *. intros w Hw. apply Hk; [done|by apply Hph].
    + destruct Hph as [Ht Hf]. split.
      * apply Forall2_same_length_lookup in Ht as [Hl Ht]. apply Forall2_same_length_lookup. split; [done|].
        intros i w t Hw Hti. eapply task_ok_kept; [done..| |by eapply Ht]. intros Ho.
        apply lookup_take_Some in Hw as [Hw _]. by eapply open_of_In.
      * eapply Forall2_impl; [exact Hf|]. intros w f [-> Hr]. split; [done|]. rewrite Hs. by apply recorded_mono.
Qed.

Lemma result_frame s s' sts e : settled s' = settled s ++ sts -> Forall (fun st => st_sequence st <> b_sequence (e_batch e)) sts ->
  result_ok s e -> result_ok s' e.
Proof.
  intros Hs Hsts [Hst Hset (outs & E & HF & Hnone)]. split; [done| |].
  - by rewrite Hs, settled_works_app, (settled_works_other sts), app_nil_r.
  - exists outs. split; [done|]. split; [|done]. eapply Forall2_impl; [exact HF|]. intros. rewrite Hs. by apply recorded_mono.
Qed.

(** A step on one batch that releases [W], telling the sink [calls]. *)
Lemma inv_change s s' pre b post bs W calls sts rs : Inv s -> batches s = pre ++ b :: post -> batches s' = pre ++ bs ++ post ->
  results s' = results s ++ rs -> co s' = released W calls (co s) -> settled s' = settled s ++ sts -> st_work <$> sts = W ->
  Forall (fun st => st_sequence st = b_sequence b) sts -> open b ≡ₚ W ++ all_open bs ->
  Forall2 (told (_measure_lag (co s))) sts calls -> slots s' + zsum (holders <$> bs) = slots s + holders b -> 0 <= slots s' ->
  kept s s' (all_open (pre ++ post)) -> Forall (batch_ok s') bs -> Forall (result_ok s') rs ->
  (b_sequence <$> bs) ++ (b_sequence <$> (e_batch <$> rs)) ≡ₚ [b_sequence b] -> Inv s'.
Proof.
  intros [I1 I2 I0 I3 I4 I5 I6 I7 I8 I9 I10] Hb Hb' Hr Hco Hset HW Hseq Hopen Htold Hslots Hfree Hkept Hbs Hrs Hseqs.
  assert (HA : all_open (batches s) ≡ₚ W ++ all_open (batches s')).
  { rewrite Hb, Hb', !all_open_app, all_open_cons, Hopen. rewrite !app_assoc. f_equiv. f_equiv. apply Permutation_app_comm. }
  assert (HN : NoDup (gens W ++ gens (all_open (batches s')))).
  { rewrite <- gens_app. by rewrite <- HA. }
  assert (Hsq : NoDup ((b_sequence <$> batches s) ++ (b_sequence <$> (e_batch <$> results s)))) by (rewrite I8; apply NoDup_seqZ).
  assert (Hother : forall b', b' ∈ pre ++ post \/ b' ∈ e_batch <$> results s -> Forall (fun st => st_sequence st <> b_sequence b') sts).
  { intros b' Hin. eapply Forall_impl; [exact Hseq|]. intros st -> E. rewrite Hb, fmap_app, fmap_cons in Hsq.
    assert (Hsq' : NoDup (b_sequence b :: (b_sequence <$> pre ++ post) ++ (b_sequence <$> (e_batch <$> results s)))).
    { eapply NoDup_Permutation_proper; [|exact Hsq]. rewrite fmap_app. rewrite <- !app_assoc. cbn. by rewrite <- Permutation_middle. }
    apply NoDup_cons in Hsq' as [Hn _]. apply Hn. rewrite E, elem_of_app. destruct Hin as [Hin|Hin]; [left|right]; by apply list_elem_of_fmap_2. }
  assert (Hm : _measure_lag (co s') = _measure_lag (co s)) by by rewrite Hco.
  split; try rewrite Hco; cbn [_max_concurrency _inflight_generations _next_batch_sequence _measure_lag sink_calls released]; try done.
  - rewrite <- I1, Hb, Hb', !fmap_app, fmap_cons, !zsum_app, zsum_cons. lia.
  - intros g. rewrite elem_of_difference, elem_of_list_to_set, I3, HA, gens_app, elem_of_app.
    apply NoDup_app in HN as (_ & Hd & _). specialize (Hd g). tauto.
  - by apply NoDup_app in HN as (_ & _ & ?).
  - rewrite Hb'. rewrite Hb in I5. apply Forall_app in I5 as [I5a [_ I5b]%Forall_cons].
    assert (Hfr : forall l, Forall (batch_ok s) l -> (forall b', b' ∈ l -> b' ∈ pre ++ post) -> Forall (batch_ok s') l).
    { intros l Hl Hin. rewrite Forall_forall in *. intros b' Hb1. eapply (batch_frame s s' sts); try done; [apply Hother; left; by apply Hin| |by apply Hl].
      intros w P Hw. apply Hkept. eapply elem_of_all_open; [done|by apply Hin]. }
    apply Forall_app. split; [apply Hfr; [done|intros; apply elem_of_app; by left]|].
    apply Forall_app. split; [done|apply Hfr; [done|intros; apply elem_of_app; by right]].
  - rewrite Hr. apply Forall_app. split; [|done]. rewrite Forall_forall in *. intros br Hin.
    eapply (result_frame s s' sts); [done|apply Hother; right; by apply list_elem_of_fmap_2|by apply I6].
  - rewrite <- I8, Hb, Hb', Hr, !fmap_app, fmap_cons. rewrite <- !app_assoc. f_equiv. cbn.
    transitivity ((b_sequence <$> bs) ++ (b_sequence <$> (e_batch <$> rs)) ++ (b_sequence <$> post) ++ (b_sequence <$> (e_batch <$> results s))).
    + f_equiv. etransitivity; [|apply Permutation_app_comm]. by rewrite app_assoc.
    + by rewrite app_assoc, Hseqs.
  - rewrite Hset. apply Forall_app. split; [done|]. eapply Forall_impl; [exact Hseq|]. intros st ->.
    assert (Hin : b_sequence b ∈ seqZ 0 (_next_batch_sequence (co s))); [|apply elem_of_seqZ in Hin; lia].
    rewrite <- I8, Hb, fmap_app, fmap_cons. set_solver.
  - rewrite Hset. by apply Forall2_app.
Qed.

(** ** Steps of one task *)
Lemma with_task_sequence i t b : b_sequence (with_task i t b) = b_sequence b.
Proof. unfold with_task. by destruct (b_phase b). Qed.
Lemma with_task_works i t b : b_works (with_task i t b) = b_works b.
Proof. unfold with_task. by destruct (b_phase b). Qed.

Lemma kept_away s s' w ws : claimed s' = claimed s -> (forall g, g <> generation_id w -> disk s' !! g = disk s !! g) ->
  (forall v, v ∈ ws -> generation_id v <> generation_id w) -> kept s s' ws.
Proof. intros Hc Hd Hne v P Hv (file & Hf & HP). exists file. rewrite Hd by by apply Hne. by rewrite Hc. Qed.

Lemma kept_same s s' ws : claimed s' = claimed s -> disk s' = disk s -> kept s s' ws.
Proof. intros Hc Hd v P _ (file & Hf & HP). exists file. rewrite Hd. by rewrite Hc. Qed.

Lemma with_task_ok s s' sts b i w t0 t : batch_ok s b -> task b i = Some (w, t0) -> open_task t0 = true ->
  settled s' = settled s ++ sts -> _measure_lag (co s') = _measure_lag (co s) ->
  st_work <$> sts = (if open_task t then [] else [w]) -> Forall (fun st => st_sequence st = b_sequence b) sts ->
  claimed s' = claimed s -> (forall g, g <> generation_id w -> disk s' !! g = disk s !! g) ->
  task_ok s' (b_sequence b) w t ->
  batch_ok s' (with_task i t b) /\ open b ≡ₚ (if open_task t then [] else [w]) ++ open (with_task i t b) /\
  holders (with_task i t b) = holders b - Z.b2z (holds t0) + Z.b2z (holds t).
Proof.
  intros [Hst Hset Hph] Ht Ho Hs Hm Hw Hseq Hc Hd Htok. destruct (task_open _ _ _ _ Ht) as (tasks & failed & Ep & Ew & Et).
  assert (Hop : open b ≡ₚ (if open_task t then [] else [w]) ++ open (with_task i t b)).
  { unfold open, with_task. rewrite Ep. cbn. by eapply open_of_update. }
  assert (Hho : holders (with_task i t b) = holders b - Z.b2z (holds t0) + Z.b2z (holds t)).
  { unfold holders, with_task. rewrite Ep. cbn. by apply holders_update. }
  split_and!; [|done|done]. split.
  - unfold with_task. by rewrite Ep.
  - rewrite with_task_sequence, with_task_works, Hs, settled_works_app, (settled_works_own sts), Hw by done.
    by rewrite <- app_assoc, <- Hop.
  - unfold phase_ok in *. rewrite with_task_sequence, with_task_works. unfold with_task. rewrite Ep in *. cbn.
    destruct Hph as [Htk Hf]. rewrite length_insert. split.
    + apply Forall2_same_length_lookup in Htk as [Hl Htk]. apply Forall2_same_length_lookup. split; [by rewrite length_insert|].
      intros j v t1 Hv Hj. apply list_lookup_insert_Some in Hj as [(-> & -> & _)|[Hij Hj]].
      * apply lookup_take_Some in Hv as [Hv _]. by simplify_eq.
      * eapply (task_ok_kept s s' sts (b_sequence b) v t1 [v]); [done|done| |left|by eapply Htk].
        apply (kept_away _ _ w); [done|done|]. intros v' ->%list_elem_of_singleton E. apply lookup_take_Some in Hv as [Hv _].
        apply Hij. destruct Hst as (_ & Hnd & _). eapply (NoDup_lookup (gens (b_works b))); [done|..]; unfold gens; rewrite list_lookup_fmap.
        { by rewrite Ew. } rewrite Hv. cbn. by rewrite E.
    + eapply Forall2_impl; [exact Hf|]. intros v f [-> Hr]. split; [done|]. rewrite Hs. by apply recorded_mono.
Qed.

Lemma inv_task s s' pre b post i w t0 t calls sts : Inv s -> batches s = pre ++ b :: post -> task b i = Some (w, t0) -> open_task t0 = true ->
  batches s' = pre ++ with_task i t b :: post -> results s' = results s ->
  co s' = released (if open_task t then [] else [w]) calls (co s) -> settled s' = settled s ++ sts ->
  st_work <$> sts = (if open_task t then [] else [w]) -> Forall (fun st => st_sequence st = b_sequence b) sts ->
  Forall2 (told (_measure_lag (co s))) sts calls -> slots s' + Z.b2z (holds t) = slots s + Z.b2z (holds t0) -> 0 <= slots s' ->
  claimed s' = claimed s -> (forall g, g <> generation_id w -> disk s' !! g = disk s !! g) -> task_ok s' (b_sequence b) w t -> Inv s'.
Proof.
  intros HI Hb Ht Ho Hb' Hr Hco Hs Hw Hseq Htold Hslots Hfree Hc Hd Htok.
  assert (Hok : batch_ok s b) by (eapply (proj1 (Forall_forall _ _) (inv_batches _ HI)); rewrite Hb; set_solver).
  assert (Hm : _measure_lag (co s') = _measure_lag (co s)) by by rewrite Hco.
  destruct (with_task_ok _ _ _ _ _ _ _ t Hok Ht Ho Hs Hm Hw Hseq Hc Hd Htok) as (Hok' & Hop & Hho).
  eapply (inv_change s s' pre b post [with_task i t b] _ calls sts []); try done.
  - by rewrite app_nil_r.
  - unfold all_open. cbn. by rewrite app_nil_r.
  - cbn [fmap list_fmap]. rewrite zsum_cons. cbn. lia.
  - apply (kept_away _ _ w); [done|done|]. intros v Hv E. destruct (task_open _ _ _ _ Ht) as (tasks & failed & Ep & Ew & Et).
    assert (w ∈ open b) by (unfold open; rewrite Ep; by eapply open_of_In).
    pose proof (inv_nodup _ HI) as Hnd. rewrite Hb, all_open_app, all_open_cons, app_assoc, (Permutation_app_comm (all_open pre)),
      <- app_assoc, <- all_open_app, gens_app in Hnd. apply NoDup_app in Hnd as (_ & Hd' & _).
    apply (Hd' (generation_id w)); [by apply elem_of_gens|]. rewrite <- E. by apply elem_of_gens.
  - by apply Forall_singleton.
  - cbn. by rewrite with_task_sequence.
Qed.

Lemma thread_untouched m w before after reason : file_reason reason -> before = after -> thread_ok m w before after (inr reason).
Proof. intros Hr ->. exists "", (frame_of w). by rewrite append_nil. Qed.

Lemma settle_told s b m w o sink : file_at s w (fun before after => thread_ok m w before after o) ->
  told m (release s b w (told_outcome w o sink).2) (told_outcome w o sink).1.
Proof.
  intros (file & Hf & Hok). exists o, sink. split; [|cbn [release st_work st_outcome]; by destruct (told_outcome w o sink)].
  cbn [release st_work st_before st_after]. unfold held. by rewrite Hf.
Qed.
Lemma file_at_impl s w (P Q : string -> string -> Prop) : (forall x y, P x y -> Q x y) -> file_at s w P -> file_at s w Q.
Proof. intros HPQ (file & Hf & HP). exists file. split; [done|by apply HPQ]. Qed.

Lemma release_recorded s b w o sts : recorded (sts ++ [release s b w o]) (b_sequence b) w o.
Proof. exists (release s b w o). split; [apply elem_of_app; right; left|done]. Qed.

(** What the invariant says about one task. *)
Lemma inv_task_ok s pre b post i w t : Inv s -> batches s = pre ++ b :: post -> task b i = Some (w, t) ->
  normalized (generation_id w) = true /\ task_ok s (b_sequence b) w t.
Proof.
  intros HI Hb Ht. assert (Hok : batch_ok s b) by (eapply (proj1 (Forall_forall _ _) (inv_batches _ HI)); rewrite Hb; set_solver).
  destruct Hok as [(_ & _ & Hn & _) _ Hph], (task_open _ _ _ _ Ht) as (tasks & failed & Ep & Ew & Et). split.
  - eapply (proj1 (Forall_forall _ _) Hn). by eapply list_elem_of_lookup_2.
  - unfold phase_ok in Hph. rewrite Ep in Hph. destruct Hph as [HF _]. apply Forall2_same_length_lookup in HF as [Hl HF].
    eapply HF; [|done]. rewrite lookup_take_lt; [done|by eapply lookup_lt_Some].
Qed.

Lemma await_ok s w measure_lag env file file' r : normalized (generation_id w) = true -> file_at s w eq -> disk s !! generation_id w = Some file ->
  _persist_blocking measure_lag env w file = (file', Returns r) ->
  thread_ok measure_lag w (default "" (claimed s !! generation_id w)) (contents file') (_await_blocking_outcome (Some r)).
Proof.
  intros Hw (f & Hf & Hc) Hd Hp. rewrite Hd in Hf. injection Hf as <-. rewrite Hc.
  apply persist_spec in Hp as (_ & _ & written & rest & Hcon & Hfr & Hr); [|done]. exists written, rest. split; [done|]. split; [done|].
  destruct r as [[res|reason]|e]; cbn.
  - destruct Hr as [-> (-> & Hcl & _)]. split; [done|]. by exists (clock_before env), (clock_after env).
  - destruct Hr as [-> |[_ ->]]; [by left|by right].
  - by right.
Qed.

Lemma step_settling s s' pre b post i w t o sink c' r : Inv s -> batches s = pre ++ b :: post -> task b i = Some (w, t) -> open_task t = true ->
  file_at s w (fun before after => thread_ok (_measure_lag (co s)) w before after o) ->
  _persist_one w o sink (co s) = (c', Ok r) ->
  s' = {| co := c'; slots := slots s + Z.b2z (holds t); disk := disk s; batches := pre ++ with_task i (Finished (Some r)) b :: post;
          claimed := claimed s; settled := settled s ++ [release s b w r]; results := results s |} -> Inv s'.
Proof.
  intros HI Hb Ht Ho Hf Hp ->. destruct (inv_task_ok _ _ _ _ _ _ _ HI Hb Ht) as [Hw _].
  rewrite persist_one_is in Hp; [|done|]. 2: { destruct Hf as (f & _ & (? & ? & _ & _ & Ho')). by destruct o. }
  injection Hp as <- <-.
  eapply (inv_task s _ pre b post i w t (Finished (Some _)) _ [release s b w _]); try done; try reflexivity.
  - by apply Forall_singleton.
  - apply Forall2_cons. split; [by apply settle_told|constructor].
  - cbn. lia.
  - pose proof (inv_free _ HI). cbn. destruct (holds t); cbn; lia.
  - apply release_recorded.
Qed.

(** ** Critical errors *)
Lemma nonempty_all_is ids field : Forall (fun i => normalized i = true) ids -> nonempty_all ids field = Ok ids.
Proof. induction 1 as [|i ids Hi _ IH]; [done|]. cbn [nonempty_all]. rewrite nonempty_is by done. cbn [rbind]. by rewrite IH. Qed.
Definition critical (reason : WriterCriticalReason) (works : list SealedFileWork) : WriterCriticalError := {|
  critical_reason := reason; affected_generation_ids := gens works; completed_batches := []; message := batch_message reason |}.
Lemma critical_is reason works : Forall (fun w => normalized (generation_id w) = true) works -> NoDup (gens works) ->
  writer_critical_error reason (gens works) [] (batch_message reason) = Ok (critical reason works).
Proof.
  intros HF Hnd. unfold writer_critical_error. rewrite nonempty_all_is by (unfold gens; by apply Forall_fmap). cbn [rbind].
  rewrite bool_decide_eq_true_2 by done. cbn [raise_if negb]. rewrite nonempty_is by (by destruct reason). done.
Qed.

Lemma failures_of_sub works outcomes : sublist (failures_of works outcomes).*1 works.
Proof.
  revert outcomes. induction works as [|w works IH]; intros [|[r|f] outcomes]; cbn; try constructor; try apply IH; apply sublist_nil_l.
Qed.
(** What a batch with failures returns, whatever failed. *)
Definition cause_of (first : SealedFileWork * _FileFailure) (others : list (SealedFileWork * _FileFailure)) : _FileFailure :=
  (default first (List.find (fun f => bool_decide (failed_reason f = batch_reason (first :: others))) (first :: others))).2.
Lemma conclude_failed works seq trigger started clock outcomes first others : Forall (fun w => normalized (generation_id w) = true) works ->
  NoDup (gens works) -> failures_of works outcomes = first :: others ->
  conclude works seq trigger started clock outcomes =
  inr (Critical (critical (batch_reason (first :: others)) (first :: others).*1) (Some (Persistence (error (cause_of first others))))).
Proof.
  intros HF Hnd Hf. pose proof (failures_of_sub works outcomes) as Hsub. rewrite Hf in Hsub. unfold conclude. rewrite Hf. cbv zeta.
  assert (E : (fun f : SealedFileWork * _FileFailure => generation_id f.1) <$> first :: others = gens (first :: others).*1).
  { unfold gens. by rewrite <- list_fmap_compose. }
  rewrite E, critical_is; [done| |].
  - rewrite Forall_forall in *. intros w Hw. apply HF. by eapply elem_of_sublist.
  - eapply sublist_NoDup; [exact Hnd|]. by apply fmap_sublist.
Qed.
Lemma failures_of_failed works : failures_of works ((fun w => inr (failure SYNC_FAILED w)) <$> works) =
  (fun w => (w, failure SYNC_FAILED w)) <$> works.
Proof. induction works as [|w works IH]; [done|]. cbn. by rewrite IH. Qed.
Lemma failed_reason_sync works : batch_reason ((fun w => (w, failure SYNC_FAILED w)) <$> works) = SYNC_FAILED.
Proof.
  unfold batch_reason. destruct (existsb _ _) eqn:E; [|done]. apply existsb_exists in E as ([w f] & Hin & Hf).
  apply list_elem_of_In, list_elem_of_fmap in Hin as (w' & [= -> ->] & _). by apply bool_decide_eq_true in Hf.
Qed.

(** ** Steps of a whole batch *)
Definition fail_settlements (s : System) (b : OwnedBatch) (works : list SealedFileWork) : list Settlement :=
  (fun w => release s b w (inr (failure SYNC_FAILED w))) <$> works.
Lemma zip_failures s b works : zip_with (fun w f => release s b w (inr f)) works (failure SYNC_FAILED <$> works) = fail_settlements s b works.
Proof. unfold fail_settlements. induction works as [|w works IH]; [done|]. cbn. by rewrite IH. Qed.

Lemma fail_told s b m works : Forall (fun w => file_at s w eq) works ->
  Forall2 (told m) (fail_settlements s b works) (failed_call SYNC_FAILED <$> works).
Proof.
  intros HF. unfold fail_settlements. apply Forall2_fmap_2. induction HF as [|w works Hw _ IH]; constructor; [|done].
  apply (settle_told s b m w (inr SYNC_FAILED) true). eapply file_at_impl; [|exact Hw]. intros x y E. apply thread_untouched; [by right|done].
Qed.
Lemma fail_works s b works : st_work <$> fail_settlements s b works = works.
Proof. unfold fail_settlements. induction works as [|w works IH]; [done|]. cbn. by rewrite IH. Qed.
Lemma fail_sequence s b works : Forall (fun st => st_sequence st = b_sequence b) (fail_settlements s b works).
Proof. unfold fail_settlements. apply Forall_fmap, Forall_true. done. Qed.
Lemma fail_recorded s b sts works w : w ∈ works ->
  recorded (sts ++ fail_settlements s b works) (b_sequence b) w (inr (failure SYNC_FAILED w)).
Proof.
  intros Hw. exists (release s b w (inr (failure SYNC_FAILED w))). split; [|done]. apply elem_of_app. right.
  by apply (list_elem_of_fmap_2 (fun w => release s b w (inr (failure SYNC_FAILED w)))).
Qed.

Lemma inv_batch_ok s pre b post : Inv s -> batches s = pre ++ b :: post -> batch_ok s b.
Proof. intros HI Hb. eapply (proj1 (Forall_forall _ _) (inv_batches _ HI)). rewrite Hb. set_solver. Qed.

Lemma start_inv s pre b post n failures c' s' : Inv s -> batches s = pre ++ b :: post -> b_phase b = Unstarted -> (n <= length (b_works b))%nat ->
  fail_all (drop n (b_works b)) (co s) = (c', Ok failures) ->
  s' = {| co := c'; slots := slots s; disk := disk s; batches := pre ++ set_phase (Running (replicate n Created) failures) b :: post;
          claimed := claimed s; settled := settled s ++ zip_with (fun w f => release s b w (inr f)) (drop n (b_works b)) failures;
          results := results s |} -> Inv s'.
Proof.
  intros HI Hb Hp Hn Hf ->. destruct (inv_batch_ok _ _ _ _ HI Hb) as [Hst Hset Hph]. unfold phase_ok, open in Hset, Hph. rewrite Hp in Hset, Hph.
  destruct Hst as (Hne & Hnd & Hnorm & Hrest). rewrite fail_all_is in Hf by (by apply Forall_drop). injection Hf as <- <-. rewrite zip_failures.
  set (b' := set_phase _ b). assert (Hop : open b' = take n (b_works b)) by (unfold open; cbn; by apply open_of_created).
  eapply (inv_change s _ pre b post [b'] (drop n (b_works b)) _ (fail_settlements s b (drop n (b_works b))) []); try done; try reflexivity.
  - by rewrite app_nil_r.
  - apply fail_works.
  - apply fail_sequence.
  - unfold all_open. cbn [fmap list_fmap concat]. rewrite app_nil_r, Hop. unfold open. rewrite Hp. rewrite Permutation_app_comm. by rewrite take_drop.
  - apply fail_told. by apply Forall_drop.
  - cbn [fmap list_fmap slots]. rewrite zsum_cons. unfold holders at 2. rewrite Hp. unfold holders. cbn [b' set_phase b_phase]. rewrite holders_created. cbn. lia.
  - apply (inv_free _ HI).
  - by apply kept_same.
  - apply Forall_singleton. split; [done| |].
    + cbn [settled]. rewrite settled_works_app, (settled_works_own (fail_settlements _ _ _)) by exact (fail_sequence s b _).
      rewrite fail_works, Hop, <- app_assoc, (Permutation_app_comm (drop n _)), take_drop. done.
    + unfold phase_ok, b'. cbn [set_phase b_phase b_works b_sequence]. rewrite length_replicate. split.
      * apply Forall2_same_length_lookup. rewrite length_take, length_replicate. split; [lia|]. intros i w t Hw Ht.
        apply lookup_replicate in Ht as [-> _]. apply lookup_take_Some in Hw as [Hw _]. by eapply (Forall_lookup_1 _ _ _ _ Hph).
      * apply Forall2_fmap_r, Forall_Forall2_diag, Forall_forall. intros w Hw. split; [done|]. cbn [settled]. by apply fail_recorded.
Qed.

Lemma materialize_capture reason works : Forall (fun w => normalized (generation_id w) = true) works -> NoDup (gens works) ->
  materialize (capture (critical reason works)) = Ok (critical reason works).
Proof. apply critical_is. Qed.

Lemma cancelled_result b clock cancellation c c' r : static_ok b -> cancelled_unstarted (b_works b) cancellation c = (c', Ok r) ->
  c' = released (b_works b) (failed_call SYNC_FAILED <$> b_works b) c /\
  r = promised b clock cancellation (all_failed (b_works b)).
Proof.
  intros (Hne & Hnd & Hnorm & _) Hr. unfold cancelled_unstarted in Hr. rewrite fail_all_is in Hr by done.
  injection Hr as <- <-. split; [done|].
  change (materialize _) with (writer_critical_error SYNC_FAILED (gens (b_works b)) [] (batch_message SYNC_FAILED)).
  rewrite critical_is by done. unfold promised. cbn [raised]. pose proof (failures_of_failed (b_works b)) as Hf. pose proof (failed_reason_sync (b_works b)) as Hfr.
  assert (Hfst : ((fun w => (w, failure SYNC_FAILED w)) <$> b_works b).*1 = b_works b) by (rewrite <- list_fmap_compose; apply list_fmap_id).
  destruct (b_works b) as [|w ws] eqn:Ew; [done|]. set (others := (fun w => (w, failure SYNC_FAILED w)) <$> ws).
  change ((fun w => (w, failure SYNC_FAILED w)) <$> w :: ws) with ((w, failure SYNC_FAILED w) :: others) in *.
  rewrite (conclude_failed _ _ _ _ _ _ _ _ Hnorm Hnd Hf), Hfr, Hfst. cbn [public_result]. rewrite materialize_capture by done.
  cbn [raised]. unfold cause_of. rewrite Hfr. by destruct cancellation.
Qed.

Lemma cancelled_inv s pre b post cancellation c' r s' : Inv s -> batches s = pre ++ b :: post -> b_phase b = Unstarted ->
  cancelled_unstarted (b_works b) cancellation (co s) = (c', Ok r) ->
  s' = {| co := c'; slots := slots s; disk := disk s; batches := pre ++ post; claimed := claimed s;
          settled := settled s ++ zip_with (fun w f => release s b w (inr f)) (b_works b) (default [] (outcome_of (fail_all (b_works b) (co s)).2));
          results := results s ++ [{| e_batch := b; e_clock := None; e_cancellation := cancellation; e_result := r |}] |} -> Inv s'.
Proof.
  intros HI Hb Hp Hr ->. destruct (inv_batch_ok _ _ _ _ HI Hb) as [Hst Hset Hph]. unfold phase_ok, open in Hset, Hph. rewrite Hp in Hset, Hph.
  destruct (cancelled_result b 0 _ _ _ _ Hst Hr) as [-> ->]. pose proof Hst as (_ & _ & Hnorm & _). rewrite fail_all_is by done.
  cbn [snd outcome_of default]. rewrite zip_failures.
  eapply (inv_change s _ pre b post [] (b_works b) _ (fail_settlements s b (b_works b)) [_]); try done; try reflexivity.
  - apply fail_works.
  - apply fail_sequence.
  - unfold all_open, open. rewrite Hp. cbn. by rewrite app_nil_r.
  - by apply fail_told.
  - cbn. unfold holders. rewrite Hp. lia.
  - apply (inv_free _ HI).
  - by apply kept_same.
  - apply Forall_singleton. split; [done| |]; cbn [e_batch e_result e_clock e_cancellation settled default].
    + rewrite settled_works_app, (settled_works_own (fail_settlements _ _ _)) by exact (fail_sequence s b _). by rewrite fail_works.
    + exists (all_failed (b_works b)). split; [done|]. split; [|done]. apply Forall2_fmap_r, Forall_Forall2_diag, Forall_forall.
      intros w Hw. by apply fail_recorded.
Qed.

Lemma unsettled_sub works rs : sublist (unsettled works rs) works.
Proof. revert rs. induction works as [|w works IH]; intros [|[o|] rs]; cbn; try constructor; try apply IH; apply sublist_nil_l. Qed.
Lemma unsettled_take works rs : unsettled (take (length rs) works) rs = unsettled works rs.
Proof. revert rs. induction works as [|w works IH]; intros [|[o|] rs]; cbn; try done; by rewrite IH. Qed.
Lemma late_is s b works rs : (length rs <= length works)%nat ->
  late s b works rs (zip_with final_outcome (take (length rs) works) rs) = fail_settlements s b (unsettled works rs).
Proof. revert rs. induction works as [|w works IH]; intros [|[o|] rs] Hl; cbn in *; try done; try lia; by rewrite IH by lia. Qed.
Lemma holders_finished rs : zsum ((fun t => Z.b2z (holds t)) <$> (Finished <$> rs)) = 0.
Proof. induction rs as [|r rs IH]; [done|]. cbn [fmap list_fmap]. by rewrite zsum_cons, IH. Qed.

Lemma finished_files s seq works rs : Forall2 (task_ok s seq) works (Finished <$> rs) -> Forall (fun w => file_at s w eq) (unsettled works rs).
Proof.
  revert rs. induction works as [|w works IH]; intros [|r rs] HF; try (by constructor).
  apply Forall2_cons in HF as [Hw HF]. destruct r as [o|]; cbn [unsettled]; [by apply IH|]. constructor; [done|by apply IH].
Qed.
Lemma finished_recorded s b works rs seq : seq = b_sequence b -> Forall2 (task_ok s seq) works (Finished <$> rs) ->
  Forall2 (recorded (settled s ++ fail_settlements s b (unsettled works rs)) seq) works (zip_with final_outcome works rs).
Proof.
  intros -> HF. apply Forall2_same_length_lookup in HF as [Hl HF]. rewrite length_fmap in Hl.
  apply Forall2_same_length_lookup. split; [rewrite length_zip_with; lia|]. intros i w o Hw Ho.
  apply lookup_zip_with_Some in Ho as (w' & r & -> & Hw' & Hr). simplify_eq.
  assert (Hr' : (Finished <$> rs) !! i = Some (Finished r)) by (rewrite list_lookup_fmap; by rewrite Hr).
  specialize (HF i w _ Hw Hr'). destruct r as [o|]; cbn in HF |- *; [by apply recorded_mono|]. apply fail_recorded.
  rewrite <- open_of_finished. by eapply open_of_In.
Qed.

Lemma finish_inv s pre b post tasks failed rs clock cancellation c' r s' : Inv s -> batches s = pre ++ b :: post ->
  b_phase b = Running tasks failed -> finished tasks = Some rs ->
  _run_owned_batch (b_works b) (b_sequence b) (b_trigger b) (b_started_ns b) clock rs failed (co s) = (c', Ok r) ->
  s' = {| co := c'; slots := slots s; disk := disk s; batches := pre ++ post; claimed := claimed s;
          settled := settled s ++ late s b (b_works b) rs (default [] (outcome_of (settle_all (take (length rs) (b_works b)) rs (co s)).2));
          results := results s ++ [{| e_batch := b; e_clock := Some clock; e_cancellation := cancellation; e_result := public_result r cancellation |}] |} -> Inv s'.
Proof.
  intros HI Hb Hp Hfin Hr ->. destruct (inv_batch_ok _ _ _ _ HI Hb) as [Hst Hset Hph]. unfold phase_ok, open in Hset, Hph. rewrite Hp in Hset, Hph.
  apply finished_is in Hfin as ->. rewrite open_of_finished in Hset. rewrite length_fmap in Hph. destruct Hph as [Ht Hf].
  pose proof Hst as (_ & Hnd & Hnorm & _). pose proof (Forall2_length _ _ _ Ht) as Hl. rewrite length_fmap in Hl.
  assert (Hle : (length rs <= length (b_works b))%nat) by (rewrite length_take in Hl; lia).
  assert (HU : Forall (fun w => file_at s w eq) (unsettled (b_works b) rs)).
  { rewrite <- unsettled_take. by eapply finished_files. }
  assert (Hopen : open b = unsettled (b_works b) rs) by (unfold open; rewrite Hp; apply open_of_finished).
  unfold _run_owned_batch in Hr. rewrite settle_all_is in Hr |- *; try (by rewrite ?length_take; lia); try (by apply Forall_take).
  2, 4: eapply sublist_NoDup; [exact Hnd|apply fmap_sublist, sublist_take].
  2, 3: intros w Hw; apply (inv_claims _ HI), elem_of_gens; rewrite unsettled_take in Hw; eapply elem_of_all_open; [by rewrite Hopen|]; rewrite Hb; set_solver.
  injection Hr as <- <-. cbn [snd outcome_of default]. rewrite late_is, unsettled_take by done.
  eapply (inv_change s _ pre b post [] (unsettled (b_works b) rs) _ (fail_settlements s b (unsettled (b_works b) rs)) [_]); try done; try reflexivity.
  - apply fail_works.
  - apply fail_sequence.
  - unfold all_open. cbn. by rewrite app_nil_r, Hopen.
  - by apply fail_told.
  - cbn. unfold holders. rewrite Hp, holders_finished. lia.
  - apply (inv_free _ HI).
  - by apply kept_same.
  - apply Forall_singleton. split; [done| |]; cbn [e_batch e_result e_clock e_cancellation settled default].
    + rewrite settled_works_app, (settled_works_own (fail_settlements _ _ _)) by exact (fail_sequence s b _). by rewrite fail_works.
    + eexists _. split; [done|]. split; [|done]. rewrite <- (take_drop (length rs) (b_works b)) at 2. apply Forall2_app.
      * rewrite <- unsettled_take. by apply finished_recorded.
      * apply Forall2_fmap_r. eapply Forall2_impl; [exact Hf|]. intros w f [_ Hrec]. by apply recorded_mono.
Qed.

(** ** Registration and the files of others *)
Lemma claims_kept_trans s s' ws : (forall w, w ∈ ws -> forall file, disk s !! generation_id w = Some file ->
    exists file', disk s' !! generation_id w = Some file' /\ contents file' = contents file) ->
  (forall w, w ∈ ws -> claimed s' !! generation_id w = claimed s !! generation_id w) -> kept s s' ws.
Proof.
  intros Hd Hc w P Hw (file & Hf & HP). destruct (Hd w Hw file Hf) as (file' & Hf' & E). exists file'. split; [done|].
  by rewrite Hc, E.
Qed.
Lemma all_ok_frame s s' : settled s' = settled s -> _measure_lag (co s') = _measure_lag (co s) -> kept s s' (all_open (batches s)) ->
  Inv s -> Forall (batch_ok s') (batches s) /\ Forall (result_ok s') (results s).
Proof.
  intros Hs Hm Hk HI. assert (Hs' : settled s' = settled s ++ []) by by rewrite app_nil_r. split; apply Forall_forall.
  - intros b Hb. eapply (batch_frame s s' []); try done; [|by eapply (proj1 (Forall_forall _ _) (inv_batches _ HI))].
    intros w P Hw. apply Hk. by eapply elem_of_all_open.
  - intros br Hb. eapply (result_frame s s' []); [done..|]. by apply (proj1 (Forall_forall _ _) (inv_results _ HI)).
Qed.

Lemma others_inv s m' : Inv s -> untouched (_inflight_generations (co s)) (disk s) m' ->
  Inv {| co := co s; slots := slots s; disk := m'; batches := batches s; claimed := claimed s; settled := settled s; results := results s |}.
Proof.
  intros HI Hu. set (s' := {| co := _ |}). assert (Hk : kept s s' (all_open (batches s))).
  { apply claims_kept_trans; [|done]. intros w Hw file Hf. destruct (Hu (generation_id w) file) as (file' & Hf' & E & _); [|done|by exists file'].
    apply (inv_claims _ HI). by apply elem_of_gens. }
  destruct (all_ok_frame s s' eq_refl eq_refl Hk HI) as [Hb Hr].
  destruct HI as [I1 I2 I0 I3 I4 I5 I6 I7 I8 I9 I10]. by split.
Qed.

Lemma claim_lookup works m c g : claim works m c !! g = if bool_decide (g ∈ gens works) then Some (held m g) else c !! g.
Proof.
  unfold claim, gens. revert c. induction works as [|w works IH]; intros c; [done|]. cbn [foldl fmap list_fmap]. rewrite IH.
  destruct (bool_decide (g ∈ generation_id <$> works)) eqn:E.
  - by rewrite bool_decide_eq_true_2 by (right; by apply bool_decide_eq_true in E).
  - apply bool_decide_eq_false in E. destruct (base.decide (generation_id w = g)) as [<-|Hne].
    + rewrite lookup_insert_eq, bool_decide_eq_true_2 by left. done.
    + rewrite lookup_insert_ne, bool_decide_eq_false_2 by (done || (intros [->|?]%elem_of_cons; done)). done.
Qed.
Lemma sealed_normalized w g p f : sealed_work g p f = Ok w -> normalized (generation_id w) = true.
Proof.
  unfold sealed_work. intros Hs. apply rbind_ok in Hs as (g' & Hg & Hs). apply raise_if_ok in Hs as [_ [= <-]]. cbn.
  unfold StreamFile._nonempty in Hg. apply raise_if_ok in Hg as [Hg [= <-]]. by apply negb_false_iff in Hg.
Qed.

Lemma registration_keeps_Inv s works trigger clock c' seq started s' : Inv s -> Forall work_made works ->
  Forall (fun w => is_Some (disk s !! generation_id w)) works -> sync_batch works clock (Ok tt) (co s) = (c', Ok (seq, started)) ->
  s' = {| co := c'; slots := slots s; disk := disk s;
      batches := batches s ++ [{| b_sequence := seq; b_trigger := trigger; b_started_ns := started; b_works := works; b_phase := Unstarted |}];
      claimed := claim works (disk s) (claimed s); settled := settled s; results := results s |} -> Inv s'.
Proof.
  intros HI Hsealed Hdisk Hr ->. apply sync_batch_spec in Hr as (Hne & Hnd & Hfresh & -> & Hclock & -> & ->).
  set (b := {| b_sequence := _; b_trigger := _; b_started_ns := _; b_works := works; b_phase := Unstarted |}).
  set (s' := {| co := _ |}). assert (Hgens : forall g, g ∈ gens (all_open (batches s)) -> g ∉ gens works).
  { intros g Hg Hw. apply (Hfresh g Hw). by apply (inv_claims _ HI). }
  assert (Hall : all_open (batches s') = all_open (batches s) ++ works) by (change (all_open (batches s ++ [b]) = all_open (batches s) ++ works); rewrite all_open_app, all_open_cons; cbn; by rewrite app_nil_r).
  assert (Hk : kept s s' (all_open (batches s))).
  { apply claims_kept_trans; [naive_solver|]. intros w Hw. cbn. rewrite claim_lookup, bool_decide_eq_false_2; [done|]. apply Hgens. by apply elem_of_gens. }
  destruct (all_ok_frame s s' eq_refl eq_refl Hk HI) as [Hb Hres]. destruct HI as [I1 I2 I0 I3 I4 I5 I6 I7 I8 I9 I10]. split; try done.
  - cbn. rewrite fmap_app, zsum_app. cbn. lia.
  - intros g. rewrite Hall, gens_app, elem_of_app, <- I3. cbn. rewrite elem_of_union, elem_of_list_to_set. done.
  - rewrite Hall, gens_app. apply NoDup_app. by split_and!.
  - cbn. apply Forall_app. split; [done|]. apply Forall_singleton. split.
    + split_and!; try done; try apply Hclock. eapply Forall_impl; [exact Hsealed|]. intros w ((g & p & f & Hw) & _). by eapply sealed_normalized.
    + change (settled_works (settled s) (_next_batch_sequence (co s)) ++ works ≡ₚ works). rewrite settled_works_other; [done|]. eapply Forall_impl; [exact I9|]. cbn. lia.
    + unfold phase_ok. cbn. rewrite Forall_forall in *. intros w Hw. destruct (Hdisk w Hw) as [file Hf]. exists file. split; [done|]. cbn.
      rewrite claim_lookup, bool_decide_eq_true_2 by by apply elem_of_gens. cbn. unfold held. by rewrite Hf.
  - cbn. lia.
  - cbn. rewrite seqZ_app by lia. rewrite <- I8, fmap_app, <- !app_assoc. f_equiv. rewrite (seqZ_cons _ 1), (seqZ_nil _ (Z.pred 1)), Z.add_0_l by lia.
    apply (Permutation_app_comm [_next_batch_sequence (co s)]).
  - eapply Forall_impl; [exact I9|]. cbn. lia.
Qed.

Lemma step_keeps_Inv kind s s' : Inv s -> step kind s s' -> Inv s'.
Proof.
  intros HI Hs. destruct Hs as [s works trigger clock c' seq started|s works clock spawned c' e Hr|s m'|s pre b post n failures c'|
    s pre b post cancellation c' r|s pre b post i w Hb Ht|s pre b post i w Hb Ht|s pre b post i w sink c' r Hb Ht Hp|
    s pre b post i w Hb Ht Hslot|s pre b post i w env file file' r Hb Ht Hd Hp|s pre b post i w Hb Ht|
    s pre b post i w future sink c' r Hb Ht Hp|s pre b post tasks failed rs clock cancellation c' r].
  - by eapply registration_keeps_Inv.
  - apply sync_batch_spec in Hr as ->. by destruct s.
  - by apply others_inv.
  - by eapply start_inv.
  - by eapply cancelled_inv.
  - eapply (inv_task s _ pre b post i w Created Waiting [] []); try done; try by rewrite ?released_nil, ?app_nil_r.
    + apply (inv_free _ HI).
    + by apply (inv_task_ok _ _ _ _ _ _ _ HI Hb Ht).
  - eapply (inv_task s _ pre b post i w Created (Finished None) [] []); try done; try by rewrite ?released_nil, ?app_nil_r.
    + apply (inv_free _ HI).
    + by apply (inv_task_ok _ _ _ _ _ _ _ HI Hb Ht).
  - eapply step_settling; try done; [|cbn; by rewrite Z.add_0_r]. destruct (inv_task_ok _ _ _ _ _ _ _ HI Hb Ht) as [_ Hf].
    eapply file_at_impl; [|exact Hf]. intros x y E. apply thread_untouched; [by right|done].
  - eapply (inv_task s _ pre b post i w Waiting Submitted [] []); try done; try by rewrite ?released_nil, ?app_nil_r.
    + cbn. lia.
    + cbn. lia.
    + by apply (inv_task_ok _ _ _ _ _ _ _ HI Hb Ht).
  - destruct (inv_task_ok _ _ _ _ _ _ _ HI Hb Ht) as [Hw Hf].
    eapply (inv_task s _ pre b post i w Submitted (Ran (Some r)) [] []); try done; try by rewrite ?released_nil, ?app_nil_r.
    + apply (inv_free _ HI).
    + intros g Hg. cbn. by rewrite lookup_insert_ne.
    + exists file'. cbn. rewrite lookup_insert_eq. split; [done|]. by eapply await_ok.
  - eapply (inv_task s _ pre b post i w Submitted (Ran None) [] []); try done; try by rewrite ?released_nil, ?app_nil_r.
    + apply (inv_free _ HI).
    + destruct (inv_task_ok _ _ _ _ _ _ _ HI Hb Ht) as [_ Hf]. eapply file_at_impl; [|exact Hf]. intros x y E.
      apply thread_untouched; [by right|done].
  - eapply step_settling; try done. by apply (inv_task_ok _ _ _ _ _ _ _ HI Hb Ht).
  - by eapply finish_inv.
Qed.

Lemma runs_Inv s : runs s -> Inv s.
Proof.
  induction 1 as [c n m slo cr measure_lag Hc|s s' kind _ IH Hs]; [|by eapply step_keeps_Inv].
  unfold _initialize in Hc. apply rbind_ok in Hc as (n' & Hn & Hc). apply checked_integer in Hn as [-> Hn].
  apply rbind_ok in Hc as (? & _ & Hc). apply rbind_ok in Hc as (? & _ & [= <-]). split; cbn; try done; try lia; try (by constructor).
  intros g. split; intros Hg; [by apply not_elem_of_empty in Hg|by apply elem_of_nil in Hg].
Qed.
End Steps.
