(* ===== verification/DurabilityBatches.v ===== *)
(** What the durability coordinator of [storage/durability.py] promises, after any run of
    [DurabilityRuns]: who may touch a file, who is told about it, what [sync_batch] returns. *)
From S2P Require Import Prelude StorageModels PyText.
From S2P Require Import StreamFile Durability DurabilityFacts DurabilityRuns DurabilitySteps.

(** What a batch promises for the outcomes of its files. *)
Definition failed (o : FileOutcome) : bool := match o with inr _ => true | inl _ => false end.
Definition write_failed (o : FileOutcome) : bool := match o with inr f => bool_decide (reason (error f) = WRITE_FAILED) | inl _ => false end.
Definition result_of (o : FileOutcome) : option FileDurabilityResult := match o with inl r => Some r | inr _ => None end.
Definition failed_works (works : list SealedFileWork) (outcomes : list FileOutcome) : list SealedFileWork :=
  (filter (fun wo => failed wo.2 = true) (zip works outcomes)).*1.
Definition failure_reason (outcomes : list FileOutcome) : WriterCriticalReason :=
  if existsb write_failed outcomes then WRITE_FAILED else SYNC_FAILED.
(** The end of a batch without failures fails only on an invalid clock or the exhaustion of the
    64-bit numbers. *)
Definition end_error (b : OwnedBatch) (clock : Z) : option exn :=
  if clock <? 0 then Some (ValueError "batch_completed_monotonic_ns must be non-negative")
  else if _MAX_SIGNED_INT64 <? clock then Some (ValueError "batch_completed_monotonic_ns must fit a signed 64-bit integer")
  else if _MAX_SIGNED_INT64 <? b_sequence b then Some (ValueError "batch_sequence must fit a signed 64-bit integer")
  else None.
Definition batch_report (b : OwnedBatch) (clock : Z) (cancellation : option (list (option string))) (outcomes : list FileOutcome) : BatchResult :=
  if existsb failed outcomes then
    let r := failure_reason outcomes in
    inr (Critical {| critical_reason := r; affected_generation_ids := gens (failed_works (b_works b) outcomes); completed_batches := [];
                     message := if existsb write_failed outcomes then "raw durability write failed" else "raw durability sync failed" |}
                  (Some (match cancellation with
                         | Some args => CancelledError (_detached_cancellation args)
                         | None => Persistence {| reason := r |} end)))
  else
    match end_error b clock, cancellation with
    | Some e, _ => inr (Other e)
    | None, Some args => inr (Cancelled (_detached_cancellation args))
    | None, None => inl {| batch_sequence := b_sequence b; Durability.trigger := b_trigger b; started_monotonic_ns := b_started_ns b;
                     completed_monotonic_ns := Z.max (b_started_ns b) clock; files := omap result_of outcomes |}
    end.

Lemma failures_works works outcomes : (failures_of works outcomes).*1 = failed_works works outcomes.
Proof.
  unfold failed_works. revert outcomes. induction works as [|w works IH]; intros [|[r|f] outcomes]; try done; cbn [failures_of zip zip_with].
  - rewrite filter_cons_False by done. apply IH.
  - rewrite filter_cons_True by done. rewrite !fmap_cons. by rewrite IH.
Qed.
Lemma failures_none works : forall outcomes, length works = length outcomes ->
  existsb failed outcomes = match failures_of works outcomes with [] => false | _ => true end.
Proof. induction works as [|w works IH]; intros [|[r|f] outcomes] Hl; try done; cbn in *. apply IH. lia. Qed.
Lemma failures_write works : forall outcomes, length works = length outcomes ->
  existsb (fun f => bool_decide (failed_reason f = WRITE_FAILED)) (failures_of works outcomes) = existsb write_failed outcomes.
Proof. induction works as [|w works IH]; intros [|[r|f] outcomes] Hl; try done; cbn in *; rewrite IH by lia; done. Qed.
Lemma completed_is outcomes : completed_files outcomes = omap result_of outcomes.
Proof. induction outcomes as [|[r|f] outcomes IH]; [done|..]; cbn; by rewrite IH. Qed.

(** The cause has the reason of the batch. *)
Lemma cause_reason first others : Forall (fun f => file_reason (failed_reason f)) (first :: others) ->
  reason (error (cause_of first others)) = batch_reason (first :: others).
Proof.
  intros HF. unfold cause_of. destruct (List.find _ _) as [f|] eqn:Ef.
  - apply find_some in Ef as [_ Ef]. by apply bool_decide_eq_true in Ef.
  - exfalso. unfold batch_reason in Ef. destruct (existsb (fun f => bool_decide (failed_reason f = WRITE_FAILED)) (first :: others)) eqn:Ew.
    + apply existsb_exists in Ew as (f & Hin & Hf). apply (find_none _ _ Ef) in Hin. congruence.
    + apply Forall_cons in HF as [Hr _]. pose proof (find_none _ _ Ef first (or_introl eq_refl)) as Hn. cbn in Hn.
      apply bool_decide_eq_false in Hn. destruct Hr as [Hr|Hr]; [|done]. cbn [existsb] in Ew. rewrite Hr in Ew. done.
Qed.

Section Promises.
Context `{Compressor}.

Lemma recorded_told s seq w o : Inv s -> recorded (settled s) seq w o ->
  exists st call, st ∈ settled s /\ st_sequence st = seq /\ st_work st = w /\ st_outcome st = o /\ told (_measure_lag (co s)) st call.
Proof.
  intros HI (st & Hin & Hseq & Hw & Ho). apply list_elem_of_lookup in Hin as [i Hi].
  destruct (Forall2_lookup_l _ _ _ _ _ (inv_told _ HI) Hi) as (call & _ & Ht). exists st, call. split_and!; try done.
  by eapply list_elem_of_lookup_2.
Qed.
Lemma told_generation m st call r : told m st call -> st_outcome st = inl r -> r_generation_id r = generation_id (st_work st).
Proof.
  intros (o & sink & (? & ? & _ & _ & Ho) & E) Hr. unfold told_outcome in E. rewrite Hr in E. destruct o as [r'|]; [|by injection E].
  destruct sink; injection E as -> E; [subst r'|done]. by destruct Ho as (_ & ? & ? & _ & ->).
Qed.

(** Without a failure the results are those of the files, in order. *)
Lemma completed_all works outcomes s seq : Inv s -> Forall2 (recorded (settled s) seq) works outcomes -> failures_of works outcomes = [] ->
  r_generation_id <$> completed_files outcomes = gens works.
Proof.
  intros HI HF. induction HF as [|w o works outcomes Hw _ IH]; [done|]. destruct o as [r|f]; [|done]. cbn. intros Hf. rewrite IH by done.
  destruct (recorded_told _ _ _ _ HI Hw) as (st & call & _ & _ & <- & Ho & Ht). by rewrite (told_generation _ _ _ _ Ht Ho).
Qed.

Lemma failures_reasons s seq works outcomes : Inv s -> Forall2 (recorded (settled s) seq) works outcomes ->
  Forall (fun f => file_reason (failed_reason f)) (failures_of works outcomes).
Proof.
  intros HI HF. induction HF as [|w o works outcomes Hw _ IH]; [constructor|]. destruct o as [r|f]; [done|]. cbn. constructor; [|done].
  destruct (recorded_told _ _ _ _ HI Hw) as (st & call & _ & _ & _ & Ho & (out & sink & (? & ? & _ & _ & Hout) & E)).
  rewrite Ho in E. unfold failed_reason. cbn. destruct out as [r|reason]; cbn in E; [destruct sink|]; simplify_eq; [by right|done].
Qed.

(** The checks of [durability_batch] find only what [end_error] names. *)
Lemma ended_is s b clock outcomes : Inv s -> static_ok b -> Forall2 (recorded (settled s) (b_sequence b)) (b_works b) outcomes ->
  failures_of (b_works b) outcomes = [] ->
  conclude (b_works b) (b_sequence b) (b_trigger b) (b_started_ns b) clock outcomes =
  match end_error b clock with
  | Some e => inr (Other e)
  | None => inl {| batch_sequence := b_sequence b; Durability.trigger := b_trigger b; started_monotonic_ns := b_started_ns b;
                   completed_monotonic_ns := Z.max (b_started_ns b) clock; files := omap result_of outcomes |}
  end.
Proof.
  intros HI (Hne & Hnd & Hnorm & _ & Hst & Hseq) HF Ef. unfold conclude, end_error. rewrite Ef. unfold _clock_ns, Durability._integer at 1. unfold raise_if.
  destruct (Z.ltb_spec clock 0) as [|H0]; [done|]. destruct (Z.ltb_spec _MAX_SIGNED_INT64 clock) as [|H1]; [done|]. cbn [rbind].
  unfold durability_batch. cbn [batch_sequence]. unfold Durability._integer at 1, raise_if at 1 2. rewrite (proj2 (Z.ltb_ge (b_sequence b) 0)) by lia.
  destruct (Z.ltb_spec _MAX_SIGNED_INT64 (b_sequence b)) as [|H2]; [done|].
  pose proof (completed_all _ _ _ _ HI HF Ef) as Hg. cbn [started_monotonic_ns completed_monotonic_ns files rbind].
  rewrite !integer_is by lia. cbn [rbind]. rewrite (proj2 (Z.ltb_ge _ _)) by lia. cbn [raise_if].
  assert (Hl : (length (completed_files outcomes) =? 0)%nat = false).
  { apply Nat.eqb_neq. intros E. apply (f_equal length) in Hg. unfold gens in Hg. rewrite !length_fmap, E in Hg. by destruct (b_works b). }
  rewrite Hl, bool_decide_eq_true_2 by by rewrite Hg. cbn [raise_if negb raised]. by rewrite completed_is.
Qed.

Lemma promised_is s b clock cancellation outcomes : Inv s -> static_ok b -> Forall2 (recorded (settled s) (b_sequence b)) (b_works b) outcomes ->
  promised b clock cancellation outcomes = batch_report b clock cancellation outcomes.
Proof.
  intros HI Hstatic HF. pose proof Hstatic as (Hne & Hnd & Hnorm & _). unfold promised, batch_report. pose proof (Forall2_length _ _ _ HF) as Hlen.
  rewrite (failures_none (b_works b)) by done. destruct (failures_of (b_works b) outcomes) as [|first others] eqn:Ef.
  - rewrite (ended_is s) by done. by destruct (end_error b clock), cancellation.
  - rewrite (conclude_failed _ _ _ _ _ _ _ _ Hnorm Hnd Ef). cbn [public_result]. pose proof (failures_of_sub (b_works b) outcomes) as Hsub.
    pose proof (failures_reasons _ _ _ _ HI HF) as Hreasons. rewrite Ef in Hreasons.
    assert (Hb : batch_reason (first :: others) = failure_reason outcomes).
    { unfold batch_reason, failure_reason. by rewrite <- Ef, (failures_write (b_works b)). }
    assert (Hcause : error (cause_of first others) = {| reason := failure_reason outcomes |}).
    { rewrite <- Hb, <- (cause_reason first others Hreasons). by destruct (error (cause_of first others)). }
    rewrite Hcause, Hb, <- Ef, failures_works. rewrite failures_works in Hsub. rewrite materialize_capture.
    + cbn [raised]. unfold critical, failure_reason. by destruct (existsb write_failed outcomes), cancellation.
    + rewrite Forall_forall in *. intros w Hw. apply Hnorm. by eapply elem_of_sublist.
    + eapply sublist_NoDup; [exact Hnd|]. by apply fmap_sublist.
Qed.

(** C24: A batch of the durability coordinator that ends tells its caller exactly what happened
    to its files.  After any run of any number of overlapping batches, with write and sync
    failures, a sink that raises, cancellations at every wait and a failing event loop or
    executor: the files of a batch that ended were settled once each, with outcomes that are true
    to what their threads did to them ([told]), and what the caller gets is a function of these outcomes, of the clock that was read at the end and of the first
    cancellation of its wait.  If a file failed, it is a critical error that names exactly the
    files that failed, in the order of the request, as a write failure if any write failed; its
    cause is the cancellation, if there was one, otherwise the failure.  If no file failed, it is
    the error of an invalid clock or of a batch number beyond 64 bits; otherwise the
    [CancelledError] of a cancelled wait; otherwise the batch with its number, its trigger, its
    times and the results of its files in the order of the request.  If the internal task was
    cancelled before its first step, every file failed. *)
Theorem batch_result_exact (s : System) (e : Ending) : runs s -> e ∈ results s ->
  exists outcomes,
    settled_works (settled s) (b_sequence (e_batch e)) ≡ₚ b_works (e_batch e) /\
    Forall2 (recorded (settled s) (b_sequence (e_batch e))) (b_works (e_batch e)) outcomes /\
    Forall2 (told (_measure_lag (co s))) (settled s) (sink_calls (co s)) /\
    (e_clock e = None -> outcomes = all_failed (b_works (e_batch e))) /\
    e_result e = batch_report (e_batch e) (default 0 (e_clock e)) (e_cancellation e) outcomes.
Proof.
  intros Hr Hin. apply runs_Inv in Hr. pose proof (proj1 (Forall_forall _ _) (inv_results _ Hr) _ Hin) as [Hst Hset (outs & E & HF & Hnone)].
  exists outs. split; [done|]. split; [done|]. split; [apply Hr|]. split; [done|]. rewrite E. by apply (promised_is s).
Qed.

(** ** Who is told *)
Lemma NoDup_keys {A K} `{EqDecision K} (key : A -> K) (f : A -> string) (l : list A) :
  (forall k, NoDup (f <$> filter (fun x => key x = k) l)) -> NoDup ((fun x => (key x, f x)) <$> l).
Proof.
  induction l as [|x l IH]; intros Hk; [constructor|]. rewrite fmap_cons. constructor.
  - intros (y & E & Hy)%list_elem_of_fmap. injection E as Ek Ef. specialize (Hk (key x)). rewrite filter_cons_True in Hk by done.
    rewrite fmap_cons in Hk. apply NoDup_cons in Hk as [Hn _]. apply Hn. rewrite Ef. apply list_elem_of_fmap_2. by apply list_elem_of_filter.
  - apply IH. intros k. specialize (Hk k). rewrite filter_cons in Hk. case_decide; [|done]. rewrite fmap_cons in Hk. by apply NoDup_cons in Hk as [_ Hk].
Qed.

Lemma settled_unique s seq : Inv s -> NoDup (generation_id <$> settled_works (settled s) seq).
Proof.
  intros HI. destruct (base.decide (0 <= seq < _next_batch_sequence (co s))) as [Hin|Hout].
  2: { rewrite settled_works_other; [constructor|]. eapply Forall_impl; [exact (inv_range _ HI)|]. cbn. lia. }
  assert (Hb : exists b, b_sequence b = seq /\ NoDup (gens (b_works b)) /\ exists rest, settled_works (settled s) seq ++ rest ≡ₚ b_works b).
  { assert (Hseq : seq ∈ seqZ 0 (_next_batch_sequence (co s))) by (apply elem_of_seqZ; lia).
    rewrite <- (inv_sequences _ HI) in Hseq. apply elem_of_app in Hseq as [(b & -> & Hb)%list_elem_of_fmap|(b & -> & Hb)%list_elem_of_fmap].
    - destruct (proj1 (Forall_forall _ _) (inv_batches _ HI) _ Hb) as [(_ & Hnd & _) Hset _]. exists b. split_and!; try done. by eexists.
    - apply list_elem_of_fmap in Hb as (e & -> & Hb). destruct (proj1 (Forall_forall _ _) (inv_results _ HI) _ Hb) as [(_ & Hnd & _) Hset _].
      exists (e_batch e). split_and!; try done. exists []. by rewrite app_nil_r. }
  destruct Hb as (b & _ & Hnd & rest & Hperm). rewrite <- Hperm, gens_app in Hnd. by apply NoDup_app in Hnd as [Hnd _].
Qed.

(** The completion sink hears about every file of every batch at most once, in the order
    in which the files are released, and the truth: a completion means that the file holds what
    it held when the batch claimed it and the whole frame, and carries the statistics of exactly
    these rows; after a failure the file holds a prefix of the frame more than before.  The
    result of the file is what the sink was told, unless the sink raised, which is a failed
    sync. *)
Theorem sink_told_once (s : System) : runs s ->
  NoDup ((fun st => (st_sequence st, generation_id (st_work st))) <$> settled s) /\
  Forall2 (told (_measure_lag (co s))) (settled s) (sink_calls (co s)) /\
  forall e w, e ∈ results s -> w ∈ b_works (e_batch e) -> exists o, recorded (settled s) (b_sequence (e_batch e)) w o.
Proof.
  intros Hr%runs_Inv. split; [|split; [apply Hr|]].
  - apply (NoDup_keys st_sequence (fun st => generation_id (st_work st))). intros k.
    pose proof (settled_unique s k Hr) as Hu. unfold settled_works in Hu. by rewrite <- list_fmap_compose in Hu.
  - intros e w Hb Hw. destruct (proj1 (Forall_forall _ _) (inv_results _ Hr) _ Hb) as [_ _ (outs & _ & HF & _)].
    apply list_elem_of_lookup in Hw as [i Hi]. destruct (Forall2_lookup_l _ _ _ _ _ HF Hi) as (o & _ & Ho). by exists o.
Qed.

(** C25: A file in flight belongs to one batch and one thread.  After any run the claimed
    generations are exactly those of the files not yet released of the batches that are running,
    each once; a task whose thread may still use its file has its claim, holds a slot, and no
    more slots are taken than the limit; and until its own thread ran, a claimed file holds what
    it held when it was claimed, whatever else happened. *)
Theorem claims_protect_files (s : System) : runs s ->
  NoDup (gens (all_open (batches s))) /\
  (forall g, g ∈ _inflight_generations (co s) <-> g ∈ gens (all_open (batches s))) /\
  zsum (holders <$> batches s) <= _max_concurrency (co s) /\
  forall b i w t, b ∈ batches s -> task b i = Some (w, t) -> open_task t = true ->
    generation_id w ∈ _inflight_generations (co s) /\
    match t with
    | Ran future => file_at s w (fun before after => thread_ok (_measure_lag (co s)) w before after (_await_blocking_outcome future))
    | _ => file_at s w eq
    end.
Proof.
  intros Hr%runs_Inv. split; [apply Hr|]. split; [apply Hr|]. split; [pose proof (inv_slots _ Hr); pose proof (inv_free _ Hr); lia|].
  intros b i w t Hb Ht Ho. destruct (task_open _ _ _ _ Ht) as (tasks & failed & Ep & Ew & Et). split.
  - apply (inv_claims _ Hr), elem_of_gens. eapply elem_of_all_open; [|done]. unfold open. rewrite Ep. by eapply open_of_In.
  - apply list_elem_of_split in Hb as (pre & post & Hb). destruct (inv_task_ok _ _ _ _ _ _ _ Hr Hb Ht) as [_ Hok].
    by destruct t as [| | | |[o|]].
Qed.
End Promises.
