(* ===== verification/DurabilityProgress.v ===== *)
(** Every batch of the durability coordinator ends: no step outside a call makes the work left
    larger, a failure-free environment never blocks a thread, nobody waits for ever, and a
    batch that meets no failure succeeds. *)
From S2P Require Import Prelude StorageModels PyText.
From S2P Require Import StreamFile Durability DurabilityFacts DurabilityRuns DurabilitySteps DurabilityBatches.

(** ** A bound on the steps left *)
Definition task_weight (t : TaskState) : Z := match t with Created => 4 | Waiting => 3 | Submitted => 2 | Ran _ => 1 | Finished _ => 0 end.
Definition batch_weight (b : OwnedBatch) : Z :=
  match b_phase b with
  | Unstarted => 2 + 4 * Z.of_nat (length (b_works b))
  | Running tasks _ => 1 + zsum (task_weight <$> tasks)
  end.
Definition steps_left (s : System) : Z := zsum (batch_weight <$> batches s).

(** ** Where nothing fails *)
(** The system takes [n] bytes, in any pieces and with any interruptions. *)
Fixpoint accepts (responses : list WriteResponse) (n : Z) : bool :=
  (n <=? 0) ||
  match responses with
  | Wrote k :: responses => (0 <? k) && accepts responses (n - k)
  | Interrupted :: responses => accepts responses n
  | _ => false
  end.
(** A descriptor in use. *)
Definition descriptor (file : StreamFile) : Prop := 0 <= _fd file <= _MAX_SIGNED_INT64.

Section Progress.
Context `{Compressor}.

(** What a thread meets if nothing fails: the clock is valid, does not go back and, if lags are
    measured, is past the rows; the system takes the frame and syncs the file. *)
Definition healthy (measure_lag : bool) (env : ThreadEnv) (w : SealedFileWork) : Prop :=
  0 <= clock_before env <= clock_after env /\ clock_after env <= _MAX_SIGNED_INT64 /\ stale measure_lag w (clock_after env) = false /\
  sync env = Ok tt /\ after_data_sync env = Ok tt /\ accepts (responses env) (len (frame_of w)) = true.
(** The file of a work is open, and the frame, if there is one, has a 64-bit length. *)
Definition usable (s : System) (w : SealedFileWork) : Prop :=
  (exists file, disk s !! generation_id w = Some file /\ descriptor file) /\
  (pending w <> None -> 1 <= len (frame_of w) <= _MAX_SIGNED_INT64).
Definition ready (s : System) : Prop := Forall (usable s) (all_open (batches s)).

(** No task of the batch has met a failure. *)
Definition good_task (t : TaskState) : Prop :=
  match t with
  | Created | Waiting | Submitted | Ran (Some (Ok (inl _))) | Finished (Some (inl _)) => True
  | _ => False
  end.
Definition clean (b : OwnedBatch) : Prop :=
  match b_phase b with Unstarted => True | Running tasks failed => failed = [] /\ Forall good_task tasks end.
(** One batch at two times. *)
Definition same_batch (b b' : OwnedBatch) : Prop :=
  b_sequence b' = b_sequence b /\ b_trigger b' = b_trigger b /\ b_started_ns b' = b_started_ns b /\ b_works b' = b_works b.
(** The batch succeeded: its caller gets its number, its trigger, and a result of each file. *)
Definition succeeded (b : OwnedBatch) (r : BatchResult) : Prop :=
  exists report, r = inl report /\ batch_sequence report = b_sequence b /\ Durability.trigger report = b_trigger b /\
    r_generation_id <$> files report = gens (b_works b).

(** ** A thread that meets no failure *)
Lemma accepts_writes responses : forall view, accepts responses (len view) = true -> write_loop responses view = (view, Returns (Ok tt)).
Proof.
  induction responses as [|x responses IH]; intros view Ha.
  - destruct view as [|c view]; [done|]. cbn [accepts] in Ha. rewrite orb_false_r in Ha. apply Z.leb_le in Ha. unfold len in Ha. cbn in Ha. lia.
  - destruct (base.decide (view = "")) as [->|Hne]; [done|]. rewrite write_loop_step by done.
    assert (Hlen : 0 < len view) by (destruct view; [done|unfold len; cbn; lia]).
    cbn [accepts] in Ha. rewrite (proj2 (Z.leb_gt (len view) 0)) in Ha by lia. cbn [orb] in Ha. destruct x as [k| |e]; [|by apply IH|done].
    apply andb_prop in Ha as [Hk Ha]. apply Z.ltb_lt in Hk. rewrite (proj2 (Z.leb_gt k 0)) by lia. cbv zeta.
    set (rest := String.substring _ _ view). assert (Hrest : write_loop responses rest = (rest, Returns (Ok tt))).
    { destruct (Z.le_gt_cases (len view) k) as [Hge|Hlt].
      - assert (rest = "") as ->; [|by destruct responses]. unfold rest. unfold len in Hge.
        replace (String.length view - Z.to_nat k)%nat with 0%nat by lia. apply chars_inj. by rewrite substring_chars, take_0.
      - apply IH. rewrite <- Ha. f_equal. pose proof (f_equal len (string_split (Z.to_nat k) view)) as E. rewrite len_app in E. fold rest in E.
        enough (len (String.substring 0 (Z.to_nat k) view) = k) by lia. unfold len in *.
        rewrite length_chars, substring_chars, drop_0, length_take, <- length_chars. lia. }
    rewrite Hrest. by rewrite <- string_split.
Qed.

Lemma row_made r : buffered_row (data r) (StreamFile.accepted_monotonic_ns r) = Ok r ->
  1 <= len (data r) /\ 0 <= StreamFile.accepted_monotonic_ns r <= _MAX_SIGNED_INT64.
Proof.
  unfold buffered_row. intros Hr. apply raise_if_ok in Hr as [Hd Hr]. apply rbind_ok in Hr as (t & Ht & _).
  apply int64_ok in Ht as [-> Ht]. split; [|done]. apply orb_false_iff in Hd as [Hd _]. apply negb_false_iff, andb_prop in Hd as [Hd _].
  destruct (data r); [done|]. unfold len. cbn. lia.
Qed.
Lemma rows_made_facts p : rows_made p -> 1 <= Z.of_nat (length (rows p)) <= _MAX_SIGNED_INT64 /\
  Forall (fun t => 0 <= t <= _MAX_SIGNED_INT64) (StreamFile.accepted_monotonic_ns <$> rows p).
Proof.
  intros [Hp HF]. pose proof (pending_rows_ok _ _ _ Hp) as (_ & _ & Hne & Htot). unfold pending_rows in Hp.
  apply raise_if_ok in Hp as [_ Hp]. apply rbind_ok in Hp as (n & Hn & _). apply int64_ok in Hn as [_ Hn].
  assert (Hle : Z.of_nat (length (rows p)) <= total (rows p)).
  { clear -HF. induction HF as [|r l Hr _ IH]; [done|]. apply row_made in Hr as [Hr _]. change (total (r :: l)) with (len (data r) + total l).
    rewrite length_cons. lia. }
  split.
  - destruct (rows p); [done|]. cbn [length] in *. lia.
  - apply Forall_fmap. eapply Forall_impl; [exact HF|]. intros r Hr. by apply row_made in Hr as [_ Hr].
Qed.
Lemma work_made_fits w : work_made w -> rows_fit w.
Proof.
  intros [_ Hp]. unfold rows_fit. destruct (pending w) as [p|]; [|done]. apply rows_made_facts in Hp as [Hn HF]. split; [done|].
  eapply Forall_impl; [exact HF|]. cbn. lia.
Qed.

Lemma written_frame_is p bytes : rows_made p -> 1 <= bytes <= _MAX_SIGNED_INT64 ->
  exists w, written_frame (default 0 (head (StreamFile.accepted_monotonic_ns <$> rows p))) (default 0 (list.last (StreamFile.accepted_monotonic_ns <$> rows p)))
    (StreamFile.accepted_monotonic_ns <$> rows p) (Z.of_nat (length (rows p))) bytes = Ok w /\ StreamFile.record_count w = Z.of_nat (length (rows p)).
Proof.
  intros Hp Hb. apply rows_made_facts in Hp as [Hn HF]. remember (StreamFile.accepted_monotonic_ns <$> rows p) as times eqn:Et.
  assert (Hl : length times = length (rows p)) by (rewrite Et; apply length_fmap).
  destruct (head times) as [first|] eqn:Eh; [|destruct times; [cbn in Hl; lia|done]].
  destruct (list.last times) as [last|] eqn:El; [|apply last_None in El; rewrite El in Hl; cbn in Hl; lia].
  assert (Hfirst : first ∈ times) by (by apply head_Some_elem_of). assert (Hlast : last ∈ times) by (by apply last_Some_elem_of).
  rewrite Forall_forall in HF. pose proof (HF _ Hfirst) as H1. pose proof (HF _ Hlast) as H2. cbn in H1, H2. cbn [default].
  assert (Hint : forall v f m, m <= v <= _MAX_SIGNED_INT64 -> StreamFile._integer v f m = Ok v) by apply integer_is.
  unfold written_frame. rewrite (Hint first), (Hint last) by lia. cbn [rbind].
  assert (existsb (fun t => (t <? 0) || (_MAX_SIGNED_INT64 <? t)) times = false) as ->.
  { apply not_true_iff_false. intros (t & Hin & Ht)%existsb_exists. apply list_elem_of_In, HF in Hin. cbn in Hin. bool_prop. lia. }
  cbn [raise_if rbind]. rewrite (Hint (Z.of_nat _)) by lia. cbn [rbind]. rewrite Hl, Z.eqb_refl. cbn [negb raise_if]. rewrite Eh, El, !bool_decide_eq_true_2 by done. cbn [andb negb raise_if].
  rewrite Hint by lia. by eexists.
Qed.

(** In a failure-free environment the thread returns the expected result, and the whole frame
    is in the file. *)
Lemma persist_healthy measure_lag env w file : normalized (generation_id w) = true -> work_made w -> descriptor file ->
  (pending w <> None -> 1 <= len (frame_of w) <= _MAX_SIGNED_INT64) -> healthy measure_lag env w ->
  exists file', _persist_blocking measure_lag env w file =
    (file', Returns (Ok (inl (expected_result measure_lag w (clock_before env) (clock_after env))))) /\
    contents file' = contents file +:+ frame_of w.
Proof.
  intros Hg Hw Hfd Hlen (Hclock & Hmax & Hstale & Hsync & Hphase & Hacc).
  assert (Hreport : forall f, descriptor f -> sync_and_report measure_lag env w (clock_before env) f =
    Ok (inl (expected_result measure_lag w (clock_before env) (clock_after env)))).
  { intros f Hf. unfold sync_and_report, sync_and_time, sync_file, fileno, closed. unfold descriptor in Hf.
    rewrite (proj2 (Z.ltb_ge _ 0)) by lia. cbn [raise_if rbind]. rewrite integer_is by lia. cbn [rbind]. rewrite Hsync, Hphase. cbn [rbind].
    unfold _clock_ns. rewrite integer_is by lia. cbn [rbind]. rewrite (proj2 (Z.ltb_ge _ _)) by lia. cbn [raise_if].
    rewrite report_is by (try done; try lia; by apply work_made_fits). by rewrite Hstale. }
  unfold _persist_blocking, _clock_ns. rewrite integer_is by lia. unfold frame_of in *. destruct (pending w) as [p|] eqn:Ep.
  - specialize (Hlen ltac:(done)). unfold write_frame, write_all, closed. unfold descriptor in Hfd. rewrite (proj2 (Z.ltb_ge _ 0)) by lia.
    destruct (String.eqb_spec (compress (plain_of p)) "") as [E|_]; [rewrite E in Hlen; unfold len in Hlen; cbn in Hlen; lia|].
    rewrite (accepts_writes _ _ Hacc). destruct Hw as [_ Hw]. rewrite Ep in Hw. destruct (written_frame_is p _ Hw Hlen) as (f & -> & Hf).
    rewrite Hf, Z.eqb_refl. eexists. split; [by rewrite Hreport|done].
  - exists file. split; [by rewrite Hreport|]. by rewrite append_nil.
Qed.

(** ** Every step lowers the bound *)
Lemma tasks_weight_nonneg tasks : 0 <= zsum (task_weight <$> tasks).
Proof. apply zsum_nonneg, Forall_fmap, Forall_true. by intros []. Qed.
Lemma weight_pos b : 0 < batch_weight b.
Proof. unfold batch_weight. destruct (b_phase b) as [|tasks failed]; [|pose proof (tasks_weight_nonneg tasks)]; lia. Qed.
Lemma weight_update tasks (i : nat) t t0 : tasks !! i = Some t0 ->
  zsum (task_weight <$> <[i := t]> tasks) = zsum (task_weight <$> tasks) - task_weight t0 + task_weight t.
Proof.
  revert i. induction tasks as [|s tasks IH]; intros i Ht; [done|]. destruct i as [|i].
  - injection Ht as ->. cbn [insert list_insert fmap list_fmap]. rewrite !zsum_cons. lia.
  - pose proof (IH i Ht) as E. change (<[S i := t]> (s :: tasks)) with (s :: <[i := t]> tasks). rewrite !fmap_cons, !zsum_cons, E. lia.
Qed.
Lemma weight_created n : zsum (task_weight <$> replicate n Created) = 4 * Z.of_nat n.
Proof. induction n as [|n IH]; [done|]. cbn [replicate fmap list_fmap]. rewrite zsum_cons, IH. cbn. lia. Qed.

Lemma with_task_weight b i w t0 t : task b i = Some (w, t0) -> batch_weight (with_task i t b) = batch_weight b - task_weight t0 + task_weight t.
Proof.
  intros Ht. destruct (task_open _ _ _ _ Ht) as (tasks & failed & Ep & _ & Et). unfold batch_weight, with_task. rewrite Ep. cbn.
  rewrite (weight_update _ _ t _ Et). lia.
Qed.
Lemma steps_left_change s s' pre b post bs : batches s = pre ++ b :: post -> batches s' = pre ++ bs ++ post ->
  zsum (batch_weight <$> bs) < batch_weight b -> steps_left s' < steps_left s.
Proof. unfold steps_left. intros -> -> Hw. rewrite !fmap_app, fmap_cons, !zsum_app, zsum_cons. lia. Qed.

Lemma step_decreases kind s s' : kind <> Call -> step kind s s' -> steps_left s' < steps_left s.
Proof.
  intros Hk Hs.
  assert (Htask : forall pre b post i w t0 t, batches s = pre ++ b :: post -> task b i = Some (w, t0) -> task_weight t < task_weight t0 ->
    batches s' = pre ++ with_task i t b :: post -> steps_left s' < steps_left s).
  { intros pre b post i w t0 t Hb Ht Hw Hb'. eapply (steps_left_change s s' pre b post [with_task i t b]); [done|done|].
    cbn [fmap list_fmap]. rewrite zsum_cons, (with_task_weight _ _ _ _ t Ht). cbn. lia. }
  destruct Hs; try done; try (by eapply Htask; [done|done| |reflexivity]; cbn; lia).
  - eapply (steps_left_change _ _ pre b post [_]); [done|reflexivity|]. cbn [fmap list_fmap]. rewrite zsum_cons. unfold batch_weight.
    cbn [set_phase b_phase]. match goal with H : b_phase b = Unstarted |- _ => rewrite H end. rewrite weight_created. cbn. lia.
  - eapply (steps_left_change _ _ pre b post []); [done|reflexivity|]. apply weight_pos.
  - eapply (steps_left_change _ _ pre b post []); [done|reflexivity|]. apply weight_pos.
Qed.

Lemma task_at b i tasks failed t : b_phase b = Running tasks failed -> tasks !! i = Some t -> (length tasks <= length (b_works b))%nat ->
  exists w, task b i = Some (w, t).
Proof.
  intros Ep Et Hl. unfold task. rewrite Ep, Et. destruct (b_works b !! i) as [w|] eqn:Ew; [by exists w|].
  apply lookup_ge_None in Ew. apply lookup_lt_Some in Et. lia.
Qed.

(** ** Nobody waits for ever *)
Lemma task_made s pre b post i w t : Inv s -> batches s = pre ++ b :: post -> task b i = Some (w, t) -> work_made w.
Proof.
  intros HI Hb Ht. destruct (inv_batch_ok _ _ _ _ HI Hb) as [(_ & _ & _ & Hm & _) _ _]. destruct (task_open _ _ _ _ Ht) as (tasks & failed & _ & Ew & _).
  eapply (proj1 (Forall_forall _ _) Hm). by eapply list_elem_of_lookup_2.
Qed.
Lemma task_usable s pre b post i w t : ready s -> batches s = pre ++ b :: post -> task b i = Some (w, t) -> open_task t = true -> usable s w.
Proof.
  intros Hrd Hb Ht Ho. destruct (task_open _ _ _ _ Ht) as (tasks & failed & Ep & Ew & Et).
  apply (proj1 (Forall_forall _ _) Hrd), (elem_of_all_open _ b); [|rewrite Hb; set_solver]. unfold open. rewrite Ep. by eapply open_of_In.
Qed.

Definition fine (w : SealedFileWork) : ThreadEnv := {|
  clock_before := 0; responses := [Wrote (len (frame_of w))]; sync := Ok tt; after_data_sync := Ok tt; clock_after := _MAX_SIGNED_INT64 |}.
Lemma fine_healthy measure_lag w : work_made w -> healthy measure_lag (fine w) w.
Proof.
  intros [_ Hw]. unfold healthy, fine, stale. cbn [clock_before clock_after sync after_data_sync responses accepts].
  split; [by vm_compute|]. split; [done|]. split; [|split; [done|split; [done|]]].
  - destruct (pending w) as [p|]; [|done]. destruct measure_lag; [|done]. apply rows_made_facts in Hw as [_ HF]. apply negb_false_iff.
    unfold rows_past. apply forallb_forall. intros r Hr. apply list_elem_of_In in Hr. rewrite Forall_fmap, Forall_forall in HF.
    apply Z.leb_le. by apply HF.
  - rewrite Z.sub_diag. destruct (Z.leb_spec (len (frame_of w)) 0) as [|Hlt]; [done|]. rewrite (proj2 (Z.ltb_lt _ _)) by lia. done.
Qed.

(** A task that is neither waiting nor finished can go on. *)
Lemma task_progress s pre b post i w t : Inv s -> ready s -> batches s = pre ++ b :: post -> task b i = Some (w, t) -> 0 < task_weight t ->
  t <> Waiting -> exists s', step Loop s s'.
Proof.
  intros HI Hrd Hb Ht Hw Hne. destruct (inv_task_ok _ _ _ _ _ _ _ HI Hb Ht) as [Hnorm Hok]. destruct t as [| | |future|r]; try done.
  - eexists. by eapply step_begin.
  - destruct (task_usable _ _ _ _ _ _ _ Hrd Hb Ht eq_refl) as [(file & Hd & Hfd) Hlen]. pose proof (task_made _ _ _ _ _ _ _ HI Hb Ht) as Hmade.
    destruct (persist_healthy (_measure_lag (co s)) _ w file Hnorm Hmade Hfd Hlen (fine_healthy _ w Hmade)) as (file' & Hp & _).
    eexists. exact (step_thread s pre b post i w _ file file' _ Hb Ht Hd Hp).
  - assert (Ho : match _await_blocking_outcome future with inr r => file_reason r | inl _ => True end).
    { destruct Hok as (file & _ & (? & ? & _ & _ & Ho)). by destruct (_await_blocking_outcome future). }
    eexists. eapply (step_settle s pre b post i w future true); [done|done|]. by apply persist_one_is.
Qed.

Lemma batch_tasks_length s b tasks failed : batch_ok s b -> b_phase b = Running tasks failed -> (length tasks <= length (b_works b))%nat.
Proof.
  intros [_ _ Hph] Ep. unfold phase_ok in Hph. rewrite Ep in Hph. destruct Hph as [Ht _]. apply Forall2_length in Ht.
  rewrite length_take in Ht. lia.
Qed.

Lemma holder_exists tasks : 0 < zsum ((fun t => Z.b2z (holds t)) <$> tasks) -> exists (i : nat) t, tasks !! i = Some t /\ holds t = true.
Proof.
  induction tasks as [|t tasks IH]; cbn [fmap list_fmap]; [by cbn|]. rewrite zsum_cons. intros Hz. destruct (holds t) eqn:Eh.
  - by exists 0%nat, t.
  - destruct IH as (i & t' & Hi & Ht'); [cbn in Hz; lia|]. by exists (S i), t'.
Qed.
Lemma holding_batch bs : 0 < zsum (holders <$> bs) -> exists b, b ∈ bs /\ 0 < holders b.
Proof.
  induction bs as [|b bs IH]; cbn [fmap list_fmap]; [by cbn|]. rewrite zsum_cons. intros Hz. destruct (Z.lt_ge_cases 0 (holders b)).
  - exists b. split; [left|done].
  - destruct IH as (b' & Hb & Hh); [lia|]. exists b'. split; [by right|done].
Qed.

(** Waiting for a slot is no deadlock: whoever has it can go on. *)
Lemma waiting_progress s pre b post i w : Inv s -> ready s -> batches s = pre ++ b :: post -> task b i = Some (w, Waiting) -> exists s', step Loop s s'.
Proof.
  intros HI Hrd Hb Ht. destruct (Z.lt_ge_cases 0 (slots s)) as [Hfree|Hfull]; [eexists; by eapply step_submit|].
  destruct (holding_batch (batches s)) as (b' & Hb' & Hh).
  { pose proof (inv_slots _ HI). pose proof (inv_max _ HI). lia. }
  pose proof (proj1 (Forall_forall _ _) (inv_batches _ HI) _ Hb') as Hok. apply list_elem_of_split in Hb' as (pre' & post' & Hb').
  unfold holders in Hh. destruct (b_phase b') as [|tasks failed] eqn:Ep; [done|]. apply holder_exists in Hh as (j & t & Hj & Ht').
  destruct (task_at _ _ _ _ _ Ep Hj (batch_tasks_length _ _ _ _ Hok Ep)) as [w' Hw'].
  eapply (task_progress s pre' b' post' j w' t); try done; by destruct t.
Qed.

Lemma finished_or_not tasks : (exists rs, finished tasks = Some rs) \/ exists (i : nat) t, tasks !! i = Some t /\ 0 < task_weight t.
Proof.
  induction tasks as [|t tasks [[rs IH]|(i & t' & Hi & Ht')]]; [left; by exists []| |right; by exists (S i), t'].
  destruct t as [| | |future|r]; try (right; eexists 0%nat, _; by split). left. exists (r :: rs). cbn. by rewrite IH.
Qed.

Lemma batch_progress s pre b post : Inv s -> ready s -> batches s = pre ++ b :: post -> exists s', step Loop s s'.
Proof.
  intros HI Hrd Hb. pose proof (inv_batch_ok _ _ _ _ HI Hb) as Hok. destruct (b_phase b) as [|tasks failed] eqn:Ep.
  - eexists. pose proof (step_start s pre b post (length (b_works b)) [] (co s) Hb Ep (Nat.le_refl _)) as Hs.
    rewrite Nat.eqb_refl in Hs. apply Hs. by rewrite drop_all.
  - pose proof (batch_tasks_length _ _ _ _ Hok Ep) as Hle. destruct (finished_or_not tasks) as [[rs Hrs]|(i & t & Hi & Ht)].
    + assert (Hrun : exists c' r, _run_owned_batch (b_works b) (b_sequence b) (b_trigger b) (b_started_ns b) 0 rs failed (co s) = (c', Ok r)).
      { unfold _run_owned_batch. by destruct (settle_all _ _ _) as [c' [outs|e]]; eexists _, _. }
      destruct Hrun as (c' & r & Hrun). eexists. by eapply (step_finish s pre b post tasks failed rs 0 None).
    + destruct (task_at _ _ _ _ _ Ep Hi Hle) as [w Hw].
      destruct t; try (by apply (waiting_progress s pre b post i w)); by apply (task_progress s pre b post i w _ HI Hrd Hb Hw).
Qed.
Lemma loop_progress s : Inv s -> ready s -> batches s <> [] -> exists s', step Loop s s'.
Proof. intros HI Hrd Hne. destruct (batches s) as [|b post] eqn:Eb; [done|]. by eapply (batch_progress s [] b post). Qed.

(** ** Without calls the files stay usable *)
Lemma with_task_open b i w t0 t v : task b i = Some (w, t0) -> open_task t0 = true -> v ∈ open (with_task i t b) -> v ∈ open b.
Proof.
  intros Ht Ho. destruct (task_open _ _ _ _ Ht) as (tasks & failed & Ep & Ew & Et). unfold open, with_task. rewrite Ep. cbn.
  rewrite (open_of_update _ _ _ _ t _ Ew Et Ho). intros Hv. apply elem_of_app. by right.
Qed.
Lemma open_change s pre b post bs w : batches s = pre ++ b :: post -> (forall v, v ∈ all_open bs -> v ∈ open b) ->
  w ∈ all_open (pre ++ bs ++ post) -> w ∈ all_open (batches s).
Proof. intros -> Hbs. rewrite !all_open_app, all_open_cons, !elem_of_app. naive_solver. Qed.
Lemma all_open_one b : all_open [b] = open b.
Proof. apply app_nil_r. Qed.

Lemma step_opens kind s s' w : kind <> Call -> step kind s s' -> w ∈ all_open (batches s') -> w ∈ all_open (batches s).
Proof.
  intros Hk Hs Hw.
  assert (Htask : forall pre b post i v t0 t, batches s = pre ++ b :: post -> task b i = Some (v, t0) -> open_task t0 = true ->
    batches s' = pre ++ with_task i t b :: post -> w ∈ all_open (batches s)).
  { intros pre b post i v t0 t Hb Ht Ho Hb'. rewrite Hb' in Hw. apply (open_change s pre b post [with_task i t b]); [done| |done].
    intros v'. rewrite all_open_one. by apply with_task_open with v t0. }
  destruct Hs; try done; try (by eapply Htask).
  - eapply (open_change _ pre b post [_]); [done| |exact Hw]. intros v. rewrite all_open_one. unfold open. cbn [set_phase b_phase b_works].
    match goal with H : b_phase b = Unstarted |- _ => rewrite H end. rewrite open_of_created by done.
    intros Hv. eapply elem_of_sublist; [exact Hv|apply sublist_take].
  - eapply (open_change _ pre b post []); [done| |exact Hw]. by intros v ?%elem_of_nil.
  - eapply (open_change _ pre b post []); [done| |exact Hw]. by intros v ?%elem_of_nil.
Qed.

Lemma step_files kind s s' g file : kind <> Call -> step kind s s' -> Inv s -> disk s !! g = Some file ->
  exists file', disk s' !! g = Some file' /\ _fd file' = _fd file.
Proof.
  intros Hk Hs HI Hg. destruct Hs; try done; try (by exists file). cbn [disk].
  destruct (base.decide (generation_id w = g)) as [<-|Hne]; [|exists file; by rewrite lookup_insert_ne].
  rewrite lookup_insert_eq. eexists. split; [done|].
  match goal with H : batches s = _, H' : task b i = _ |- _ => destruct (inv_task_ok _ _ _ _ _ _ _ HI H H') as [Hnorm _] end.
  match goal with H : _persist_blocking _ _ _ _ = _ |- _ => apply persist_spec in H as [Hfd _]; [|done] end. congruence.
Qed.
Lemma step_ready kind s s' : kind <> Call -> step kind s s' -> Inv s -> ready s -> ready s'.
Proof.
  unfold ready. rewrite !Forall_forall. intros Hk Hs HI Hrd w Hw. destruct (Hrd w) as [(file & Hg & Hfd) Hlen]; [by eapply step_opens|].
  split; [|done]. destruct (step_files _ _ _ _ _ Hk Hs HI Hg) as (file' & Hg' & E). exists file'. split; [done|]. unfold descriptor. by rewrite E.
Qed.

(** A run of the loop and the threads alone. *)
Lemma loop_runs s s' : rtc (step Loop) s s' -> Inv s -> ready s -> Inv s' /\ ready s'.
Proof.
  induction 1 as [|s s1 s' Hs _ IH]; [done|]. intros HI Hrd. apply IH; [by eapply step_keeps_Inv|by apply (step_ready Loop s)].
Qed.
Lemma loop_to_end s : Inv s -> ready s -> exists s', rtc (step Loop) s s' /\ batches s' = [].
Proof.
  assert (Hpos : forall s, 0 <= steps_left s).
  { intros s1. apply zsum_nonneg, Forall_fmap, Forall_true. intros b. pose proof (weight_pos b). cbn. lia. }
  remember (Z.to_nat (steps_left s)) as n eqn:En. revert s En. induction n as [n IH] using lt_wf_ind. intros s -> HI Hrd.
  destruct (base.decide (length (batches s) = 0%nat)) as [E|Hne]; [exists s; split; [done|by apply nil_length_inv]|].
  destruct (loop_progress s HI Hrd) as [s1 Hs1]; [by intros E; rewrite E in Hne|].
  assert (Hlt : steps_left s1 < steps_left s) by (by apply (step_decreases Loop)).
  destruct (IH (Z.to_nat (steps_left s1))) with (s := s1) as (s' & Hrun & Hend); try done.
  - pose proof (Hpos s1). lia.
  - by eapply step_keeps_Inv.
  - by apply (step_ready Loop s).
  - exists s'. split; [by eapply rtc_l|done].
Qed.

(** ** A batch that meets no failure succeeds *)
Lemma same_refl b : same_batch b b.
Proof. done. Qed.
Lemma same_trans b1 b2 b3 : same_batch b1 b2 -> same_batch b2 b3 -> same_batch b1 b3.
Proof. unfold same_batch. intuition congruence. Qed.
Lemma with_task_same i t b : same_batch b (with_task i t b).
Proof. unfold same_batch, with_task. by destruct (b_phase b). Qed.
Lemma with_task_clean i t b : good_task t -> clean b -> clean (with_task i t b).
Proof.
  unfold clean, with_task. destruct (b_phase b) as [|tasks failed] eqn:Ep; [by rewrite Ep|]. cbn. intros Ht [-> HF]. split; [done|].
  by apply Forall_insert.
Qed.
Lemma clean_task b i w t : clean b -> task b i = Some (w, t) -> good_task t.
Proof.
  intros Hc Ht. destruct (task_open _ _ _ _ Ht) as (tasks & failed & Ep & _ & Et). unfold clean in Hc. rewrite Ep in Hc. destruct Hc as [_ HF].
  by eapply Forall_lookup_1.
Qed.

(** The tasks of a clean batch that are finished have a result of each file. *)
Lemma clean_outcomes s b tasks rs : batch_ok s b -> b_phase b = Running tasks [] -> Forall good_task tasks -> finished tasks = Some rs ->
  exists results, rs = (fun r => Some (inl r)) <$> results /\ length (b_works b) = length rs /\
    Forall2 (recorded (settled s) (b_sequence b)) (b_works b) (inl <$> results).
Proof.
  intros [_ _ Hph] Ep Hgood Hfin. unfold phase_ok in Hph. rewrite Ep in Hph. destruct Hph as [HF Hd]. apply finished_is in Hfin as ->.
  apply Forall2_nil_inv_r in Hd. rewrite length_fmap in *. pose proof (f_equal length Hd) as Hlen. rewrite length_drop in Hlen. cbn in Hlen.
  assert (Hall : exists results, rs = (fun r => Some (inl r)) <$> results).
  { clear -Hgood. induction rs as [|r rs IH]; [by exists []|]. cbn in Hgood. apply Forall_cons in Hgood as [Hr Hgood].
    destruct (IH Hgood) as [results ->]. destruct r as [[r|]|]; try done. by exists (r :: results). }
  destruct Hall as [results ->]. exists results. split; [done|]. pose proof (Forall2_length _ _ _ HF) as Hl2.
  rewrite !length_fmap, length_take in Hl2. rewrite !length_fmap in *. split; [lia|]. rewrite take_ge in HF by lia.
  rewrite <- list_fmap_compose in HF. apply (proj1 (Forall2_fmap_r _ _ _ _)) in HF. apply Forall2_fmap_r. eapply Forall2_impl; [exact HF|]. done.
Qed.
Lemma none_failed works results : failures_of works (inl <$> results) = [].
Proof. revert results. induction works as [|w works IH]; intros [|r results]; try done. apply IH. Qed.
Lemma unsettled_none works (results : list FileDurabilityResult) : unsettled works ((fun r => Some (inl r)) <$> results) = [].
Proof. revert results. induction works as [|w works IH]; intros [|r results]; try done. apply IH. Qed.
Lemma final_results works (results : list FileDurabilityResult) : length works = length results ->
  zip_with final_outcome works ((fun r => Some (inl r)) <$> results) = inl <$> results.
Proof. revert results. induction works as [|w works IH]; intros [|r results] Hl; try done. cbn. f_equal. apply IH. by injection Hl. Qed.

Lemma clean_finish s b tasks failed rs clock c' r : Inv s -> b ∈ batches s -> b_phase b = Running tasks failed -> clean b ->
  finished tasks = Some rs -> 0 <= clock <= _MAX_SIGNED_INT64 -> b_sequence b <= _MAX_SIGNED_INT64 ->
  _run_owned_batch (b_works b) (b_sequence b) (b_trigger b) (b_started_ns b) clock rs failed (co s) = (c', Ok r) ->
  succeeded b (public_result r None).
Proof.
  intros HI Hb Ep Hc Hfin Hclock Hseq Hr. pose proof (proj1 (Forall_forall _ _) (inv_batches _ HI) _ Hb) as Hok.
  unfold clean in Hc. rewrite Ep in Hc. destruct Hc as [-> Hgood]. destruct (clean_outcomes _ _ _ _ Hok Ep Hgood Hfin) as (results & -> & Hlen & Hrec).
  destruct Hok as [Hst _ _]. pose proof Hst as (_ & Hnd & Hnorm & _). rewrite length_fmap in Hlen. unfold _run_owned_batch in Hr.
  rewrite length_fmap, take_ge in Hr by lia. rewrite settle_all_is in Hr; [|by rewrite length_fmap|done|done|].
  2: { rewrite unsettled_none. by intros w ?%elem_of_nil. }
  rewrite final_results, app_nil_r in Hr by done. injection Hr as _ <-.
  pose proof (none_failed (b_works b) results) as Hnone. rewrite (ended_is s) by done.
  unfold end_error. rewrite (proj2 (Z.ltb_ge clock 0)), !(proj2 (Z.ltb_ge _MAX_SIGNED_INT64 _)) by lia. cbn [public_result].
  eexists. split; [done|]. split; [done|]. split; [done|]. cbn [files]. rewrite <- completed_is. by eapply completed_all.
Qed.

Lemma end_kind_loop clock cancellation : end_kind clock cancellation = Loop -> 0 <= clock <= _MAX_SIGNED_INT64 /\ cancellation = None.
Proof.
  unfold end_kind. destruct (_ && _) eqn:E; [|done]. intros _. apply andb_prop in E as [E Hc]. apply bool_decide_eq_true in Hc. bool_prop. by split.
Qed.

(** A step of the loop keeps a batch, and keeps it clean, or ends it. *)
Lemma loop_batch s s' b : Inv s -> step Loop s s' -> b ∈ batches s ->
  (exists b', b' ∈ batches s' /\ same_batch b b' /\ (clean b -> clean b')) \/
  (exists e, e ∈ results s' /\ same_batch b (e_batch e) /\ (clean b -> b_sequence b <= _MAX_SIGNED_INT64 -> succeeded b (e_result e))).
Proof.
  intros HI Hs Hb. remember Loop as kind eqn:Ek.
  assert (Hother : forall pre b0 post bs, batches s = pre ++ b0 :: post -> batches s' = pre ++ bs ++ post -> b = b0 \/ exists b', b' ∈ batches s' /\ same_batch b b' /\ (clean b -> clean b')).
  { intros pre b0 post bs E E'. rewrite E in Hb. apply elem_of_app in Hb as [Hb|[-> |Hb]%elem_of_cons]; [right|by left|right];
      exists b; rewrite E', !elem_of_app; (split; [tauto|by split]). }
  assert (Htask : forall pre b0 post i w t0 t, batches s = pre ++ b0 :: post -> task b0 i = Some (w, t0) ->
    batches s' = pre ++ with_task i t b0 :: post -> (good_task t0 -> good_task t) ->
    exists b', b' ∈ batches s' /\ same_batch b b' /\ (clean b -> clean b')).
  { intros pre b0 post i w t0 t E Ht E' Hgood. destruct (Hother pre b0 post [with_task i t b0] E E') as [-> |?]; [|done].
    exists (with_task i t b0). rewrite E'. split; [set_solver|]. split; [apply with_task_same|]. intros Hc. apply with_task_clean; [|done].
    apply Hgood. by eapply clean_task. }
  destruct Hs as [| | |s pre b0 post n failures c' E Ep Hn Hf| |s pre b0 post i w E Ht| | |s pre b0 post i w E Ht Hslot|
    s pre b0 post i w env file file' r E Ht Hd Hp| |s pre b0 post i w future sink c' r E Ht Hp|s pre b0 post tasks failed rs clock cancellation c' r E Ep Hfin Hr];
    try done; try (left; by eapply Htask).
  - left. destruct (n =? length (b_works b0))%nat eqn:En; [|done]. apply Nat.eqb_eq in En. rewrite En, drop_all in Hf. injection Hf as <- <-.
    edestruct (Hother pre b0 post [_] E eq_refl) as [-> |?]; [|done]. eexists. split; [apply elem_of_app; right; left|]. split; [done|].
    intros _. split; [done|]. by apply Forall_replicate.
  - left. destruct r as [[r|]|]; try done. by eapply Htask.
  - left. destruct sink; [|done]. eapply Htask; [done..|]. destruct future as [[[res|]|]|]; try done. intros _.
    destruct (inv_task_ok _ _ _ _ _ _ _ HI E Ht) as [Hnorm _]. cbn [_await_blocking_outcome] in Hp. rewrite persist_one_is in Hp by done.
    by injection Hp as _ <-.
  - apply end_kind_loop in Ek as [Hclock ->]. destruct (Hother pre b0 post [] E eq_refl) as [-> |?]; [|by left]. right.
    eexists. split; [apply elem_of_app; right; left|]. split; [done|]. intros Hc Hseq. cbn [e_result]. by eapply clean_finish.
Qed.
Lemma step_results kind s s' e : step kind s s' -> e ∈ results s -> e ∈ results s'.
Proof. intros [] He; try done; cbn [results]; apply elem_of_app; by left. Qed.

(** At the end every batch has told its caller. *)
Lemma loop_ends s s' b : rtc (step Loop) s s' -> Inv s -> batches s' = [] -> b ∈ batches s ->
  exists e, e ∈ results s' /\ same_batch b (e_batch e) /\ (clean b -> b_sequence b <= _MAX_SIGNED_INT64 -> succeeded b (e_result e)).
Proof.
  intros Hrun. revert b. induction Hrun as [s|s s1 s' Hs Hrun IH]; intros b HI Hend Hb; [rewrite Hend in Hb; by apply elem_of_nil in Hb|].
  destruct (loop_batch _ _ _ HI Hs Hb) as [(b' & Hb' & Hsame & Hc)|(e & He & Hsame & Hc)].
  - destruct (IH b') as (e & He & Hsame' & Hs'); [by eapply step_keeps_Inv|done|done|]. exists e. split; [done|]. split; [by eapply same_trans|].
    destruct Hsame as (E1 & E2 & E3 & E4). intros Hcl Hseq. destruct Hs' as (report & R1 & R2 & R3 & R4); [by apply Hc|by rewrite E1|].
    exists report. by rewrite <- E1, <- E2, <- E4.
  - exists e. split; [|done]. clear -Hrun He. induction Hrun as [|s1 s2 s3 Hs _ IH]; [done|]. apply IH. by eapply step_results.
Qed.

(** C26: Every batch ends, and a batch that meets no failure succeeds.  In every reachable state
    each step outside a call, also one that fails, lowers a bound on the steps left, and when no
    batch is running nothing is claimed and every slot is free.  Let the files in flight be open
    and their frames be of 64-bit length; a [Loop] step is one in which nothing fails: every
    task is created, its thread returns a result, the sink returns, the clock is valid and the
    wait is not cancelled.  Then in every environment without failures (valid clocks past the
    rows, a system that takes the frame in any pieces, a sync that returns) the thread of a
    submitted task returns the expected result with the whole frame in the file; as long as a
    batch is running some [Loop] step is possible, also when every slot is taken; so there is a
    run of [Loop] steps to the end, and every one that ends has told the caller of every batch,
    and with success, a result of each file, if the batch had met no failure before. *)
Theorem batches_end (s : System) : runs s ->
  0 <= steps_left s /\
  (forall kind s', kind <> Call -> step kind s s' -> steps_left s' < steps_left s) /\
  (batches s = [] -> _inflight_generations (co s) = ∅ /\ slots s = _max_concurrency (co s)) /\
  (ready s ->
    (forall b i w env file, b ∈ batches s -> task b i = Some (w, Submitted) -> disk s !! generation_id w = Some file ->
       healthy (_measure_lag (co s)) env w -> exists file',
       _persist_blocking (_measure_lag (co s)) env w file =
         (file', Returns (Ok (inl (expected_result (_measure_lag (co s)) w (clock_before env) (clock_after env))))) /\
       contents file' = contents file +:+ frame_of w) /\
    (forall s', rtc (step Loop) s s' -> batches s' <> [] -> exists s'', step Loop s' s'') /\
    (exists s', rtc (step Loop) s s' /\ batches s' = []) /\
    (forall s' b, rtc (step Loop) s s' -> batches s' = [] -> b ∈ batches s -> exists e, e ∈ results s' /\ same_batch b (e_batch e) /\
       (clean b -> b_sequence b <= _MAX_SIGNED_INT64 -> succeeded b (e_result e)))).
Proof.
  intros Hr%runs_Inv. split; [|split; [|split]].
  - unfold steps_left. apply zsum_nonneg, Forall_fmap, Forall_true. intros b. pose proof (weight_pos b). cbn. lia.
  - intros kind s' Hk Hs. by apply step_decreases with kind.
  - intros Eb. split.
    + apply leibniz_equiv. intros g. rewrite (inv_claims _ Hr), Eb. split; intros Hg; [by apply elem_of_nil in Hg|by apply not_elem_of_empty in Hg].
    + pose proof (inv_slots _ Hr) as Hs. rewrite Eb in Hs. cbn in Hs. lia.
  - intros Hrd. split; [|split; [|split]].
    + intros b i w env file Hb Ht Hd Hh. apply list_elem_of_split in Hb as (pre & post & Hb).
      destruct (task_usable _ _ _ _ _ _ _ Hrd Hb Ht eq_refl) as [(f & Hf & Hfd) Hlen]. rewrite Hd in Hf. injection Hf as <-.
      apply persist_healthy; try done; [by apply (inv_task_ok _ _ _ _ _ _ _ Hr Hb Ht)|by eapply task_made].
    + intros s' Hrun Hne. destruct (loop_runs _ _ Hrun Hr Hrd). by apply loop_progress.
    + by apply loop_to_end.
    + intros s' b Hrun Hend Hb. by eapply loop_ends.
Qed.
End Progress.
