(* ===== verification/DurabilitySamples.v ===== *)
(** A run of the durability coordinator: one batch of two files, of which one has a row and
    the other is clean, with two slots; the second file's sync fails. *)
From S2P Require Import Prelude StorageModels PyText.
From S2P Require Import StreamFile Durability DurabilityFacts DurabilityRuns DurabilitySteps DurabilityBatches DurabilityProgress.

#[local] Instance toy : Compressor := {| compress := fun plain => "z" +:+ plain |}.

Definition ex_row : BufferedRow := {| data := "x" +:+ newline; accepted_monotonic_ns := 5 |}.
Definition ex_pending : PendingRows := {| rows := [ex_row]; plain_bytes := 2 |}.
Definition ex_a : SealedFileWork := {| generation_id := "a"; pending := Some ex_pending; force_sync := false |}.
Definition ex_b : SealedFileWork := {| generation_id := "b"; pending := None; force_sync := true |}.
Definition ex_file (g : string) (fd : Z) : StreamFile := {|
  _generation_id := g; _fd := fd; zstd_level := 3; max_plain_frame_bytes := 10; _buffer := []; _buffer_plain_bytes := 0;
  compressed_size := 0; contents := "" |}.
Definition ex_disk : gmap string StreamFile := <["a" := ex_file "a" 3]> (<["b" := ex_file "b" 4]> ∅).
Definition ex_co : DurabilityCoordinator := {|
  _measure_lag := true; _max_concurrency := 2; _inflight_generations := ∅; _next_batch_sequence := 0; sink_calls := [] |}.
Definition ex_start : System := {|
  co := ex_co; slots := 2; disk := ex_disk; batches := []; claimed := ∅; settled := []; results := [] |}.
(** The system writes the frame in two pieces, with an interruption. *)
Definition ex_good : ThreadEnv := {|
  clock_before := 10; responses := [Wrote 1; Interrupted; Wrote 2]; sync := Ok tt; after_data_sync := Ok tt; clock_after := 12 |}.
Definition ex_bad : ThreadEnv := {|
  clock_before := 10; responses := []; sync := Err (OSError "fdatasync"); after_data_sync := Ok tt; clock_after := 12 |}.

Definition ex_batch (phase : Phase) : OwnedBatch := {|
  b_sequence := 0; b_trigger := SIZE; b_started_ns := 7; b_works := [ex_a; ex_b]; b_phase := phase |}.
Definition ex_result : FileDurabilityResult := expected_result true ex_a 10 12.

Lemma ex_runs_start : runs ex_start.
Proof. by apply (runs_start ex_co 2 ex_disk 1 1 true). Qed.

(** Registered, started, and the first file with its thread. *)
Lemma ex_runs_submitted : exists s, runs s /\ batches s = [ex_batch (Running [Submitted; Created] [])] /\ slots s = 1 /\
  disk s = ex_disk /\ settled s = [] /\ results s = [] /\
  co s = registered [ex_a; ex_b] ex_co /\ claimed s = claim [ex_a; ex_b] ex_disk ∅.
Proof.
  eexists. split.
  - eapply runs_step; [eapply runs_step; [eapply runs_step; [eapply runs_step; [exact ex_runs_start|]|]|]|].
    + apply (step_register ex_start [ex_a; ex_b] SIZE 7 (registered [ex_a; ex_b] ex_co) 0 7).
      * repeat constructor; [exists "a", (Some ex_pending), false; reflexivity|exists "b", None, true; reflexivity].
      * repeat constructor; by eexists.
      * vm_compute. reflexivity.
    + apply (step_start _ [] (ex_batch Unstarted) [] 2 [] (registered [ex_a; ex_b] ex_co)); [reflexivity..|cbn; lia|reflexivity].
    + by apply (step_begin _ [] (ex_batch (Running [Created; Created] [])) [] 0 ex_a).
    + by apply (step_submit _ [] (ex_batch (Running [Waiting; Created] [])) [] 0 ex_a).
  - by split_and!.
Qed.

Definition ex_after (g : string) : StreamFile := {|
  _generation_id := g; _fd := 3; zstd_level := 3; max_plain_frame_bytes := 10; _buffer := []; _buffer_plain_bytes := 0;
  compressed_size := 3; contents := "zx" +:+ newline |}.
Definition ex_failed : FileOutcome := inr (failure SYNC_FAILED ex_b).
Definition ex_critical : BatchResult :=
  inr (Critical (critical SYNC_FAILED [ex_b]) (Some (Persistence {| reason := SYNC_FAILED |}))).

Definition ex_settled_a : Settlement :=
  {| st_sequence := 0; st_work := ex_a; st_before := ""; st_after := "zx" +:+ newline; st_outcome := inl ex_result |}.
Definition ex_settled_b : Settlement :=
  {| st_sequence := 0; st_work := ex_b; st_before := ""; st_after := ""; st_outcome := ex_failed |}.
Definition ex_phase_a : Phase := Running [Finished (Some (inl ex_result)); Created] [].
Definition ex_phase_b : Phase := Running [Finished (Some (inl ex_result)); Finished (Some ex_failed)] [].
Definition ex_co_a : DurabilityCoordinator := released [ex_a] [FileSyncCompleted ex_result] (registered [ex_a; ex_b] ex_co).

(** The first file is written and synced. *)
Lemma ex_runs_first : exists s, runs s /\ batches s = [ex_batch ex_phase_a] /\ slots s = 2 /\
  disk s = <["a" := ex_after "a"]> ex_disk /\ settled s = [ex_settled_a] /\ results s = [] /\ co s = ex_co_a /\
  claimed s = claim [ex_a; ex_b] ex_disk ∅.
Proof.
  destruct ex_runs_submitted as (s & Hs & Hb & Hslots & Hdisk & Hset & Hres & Hco & Hclaim).
  pose proof (step_thread s [] (ex_batch (Running [Submitted; Created] [])) [] 0 ex_a ex_good (ex_file "a" 3) (ex_after "a") (Ok (inl ex_result))) as H1.
  eapply runs_step in H1; [|exact Hs|done|done|by rewrite Hdisk|rewrite Hco; vm_compute; reflexivity].
  eexists. split.
  - eapply runs_step; [exact H1|].
    eapply (step_settle _ [] (ex_batch (Running [Ran (Some (Ok (inl ex_result))); Created] [])) [] 0 ex_a _ true ex_co_a (inl ex_result)); [done|done|].
    cbn [co]. rewrite Hco. apply (persist_one_is ex_a (inl ex_result) true); reflexivity.
  - cbn [batches slots disk settled results co claimed]. rewrite Hslots, Hdisk, Hset, Hres, Hclaim. split_and!; try done.
Qed.

(** The sync of the second fails. *)
Lemma ex_runs_second : exists s, runs s /\ batches s = [ex_batch ex_phase_b] /\
  settled s = [ex_settled_a; ex_settled_b] /\ results s = [] /\ co s = released [ex_b] [failed_call SYNC_FAILED ex_b] ex_co_a.
Proof.
  destruct ex_runs_first as (s & Hs & Hb & Hslots & Hdisk & Hset & Hres & Hco & Hclaim). eexists. split.
  - eapply runs_step; [eapply runs_step; [eapply runs_step; [eapply runs_step; [exact Hs|]|]|]|].
    + by apply (step_begin _ [] (ex_batch ex_phase_a) [] 1 ex_b).
    + eapply (step_submit _ [] (ex_batch (Running [Finished (Some (inl ex_result)); Waiting] [])) [] 1 ex_b); [done|done|]. cbn [slots]. rewrite Hslots. lia.
    + apply (step_thread _ [] (ex_batch (Running [Finished (Some (inl ex_result)); Submitted] [])) [] 1 ex_b ex_bad (ex_file "b" 4) (ex_file "b" 4) (Ok (inr SYNC_FAILED)));
        [done|done|cbn [disk]; rewrite Hdisk; reflexivity|reflexivity].
    + eapply (step_settle _ [] (ex_batch (Running [Finished (Some (inl ex_result)); Ran (Some (Ok (inr SYNC_FAILED)))] [])) [] 1 ex_b _ true _ ex_failed); [done|done|].
      cbn [co]. rewrite Hco. apply (persist_one_is ex_b (inr SYNC_FAILED) true); [reflexivity|by right].
  - cbn [batches settled results co]. rewrite Hset, Hres. split_and!; try done. unfold release. cbn [claimed disk]. rewrite Hclaim, Hdisk. vm_compute. reflexivity.
Qed.

(** The caller learns which file failed. *)
Definition ex_ending : Ending :=
  {| e_batch := ex_batch ex_phase_b; e_clock := Some 20; e_cancellation := None; e_result := ex_critical |}.
Lemma ex_runs_done : exists s, runs s /\ results s = [ex_ending] /\ batches s = [] /\ settled s = [ex_settled_a; ex_settled_b].
Proof.
  destruct ex_runs_second as (s & Hs & Hb & Hset & Hres & Hco).
  pose proof (step_finish s [] (ex_batch ex_phase_b) [] [Finished (Some (inl ex_result)); Finished (Some ex_failed)] []
    [Some (inl ex_result); Some ex_failed] 20 None (co s) ex_critical Hb eq_refl eq_refl eq_refl) as Hstep.
  eexists. split; [eapply runs_step; [exact Hs|exact Hstep]|]. cbn [batches slots settled results]. rewrite Hset, Hres.
  split_and!; done.
Qed.

Lemma batch_result_exact_witness : exists s outcomes,
  runs s /\ results s = [ex_ending] /\ settled_works (settled s) 0 ≡ₚ [ex_a; ex_b] /\
  Forall2 (recorded (settled s) 0) [ex_a; ex_b] outcomes /\ ex_critical = batch_report (ex_batch ex_phase_b) 20 None outcomes.
Proof.
  destruct ex_runs_done as (s & Hs & Hres & _). assert (Hin : ex_ending ∈ results s) by (rewrite Hres; left).
  destruct (batch_result_exact s ex_ending Hs Hin) as (outs & H1 & H2 & _ & _ & H3). exists s, outs. split_and!; done.
Defined.

Lemma sink_told_once_witness : exists s, runs s /\ length (settled s) = 2%nat /\
  NoDup ((fun st => (st_sequence st, generation_id (st_work st))) <$> settled s) /\
  Forall2 (told (_measure_lag (co s))) (settled s) (sink_calls (co s)).
Proof.
  destruct ex_runs_done as (s & Hs & Hres & _ & Hset). exists s. split; [done|]. split; [by rewrite Hset|].
  destruct (sink_told_once s Hs) as (Hnd & Htold & _). by split.
Defined.

Lemma claims_protect_files_witness : exists s, runs s /\ "a" ∈ _inflight_generations (co s) /\ file_at s ex_a eq.
Proof.
  destruct ex_runs_submitted as (s & Hs & Hb & _). exists s. split; [done|].
  destruct (claims_protect_files s Hs) as (_ & _ & _ & Hall).
  apply (Hall (ex_batch (Running [Submitted; Created] [])) 0%nat ex_a Submitted); [rewrite Hb; left|done|done].
Defined.

(** The files of the batch are open, so it goes on to its end, and succeeds. *)
Lemma ex_ready s : batches s = [ex_batch (Running [Submitted; Created] [])] -> disk s = ex_disk -> ready s.
Proof.
  intros Hb Hd. unfold ready. rewrite Hb. apply Forall_forall. intros w Hw.
  assert (Hw' : w ∈ [ex_a; ex_b]) by exact Hw. clear Hw. apply elem_of_cons in Hw' as [-> |Hw']; [|apply list_elem_of_singleton in Hw' as ->].
  - split; [exists (ex_file "a" 3); split; [by rewrite Hd|by vm_compute]|by vm_compute].
  - split; [exists (ex_file "b" 4); split; [by rewrite Hd|by vm_compute]|]. intros Hp. by destruct Hp.
Qed.
Lemma ex_clean : clean (ex_batch (Running [Submitted; Created] [])).
Proof. split; [done|]. by repeat constructor. Qed.
Lemma batches_end_witness : exists s s' e, runs s /\ batches s = [ex_batch (Running [Submitted; Created] [])] /\
  rtc (step Loop) s s' /\ batches s' = [] /\ e ∈ results s' /\ succeeded (ex_batch (Running [Submitted; Created] [])) (e_result e).
Proof.
  destruct ex_runs_submitted as (s & Hs & Hb & _ & Hd & _). destruct (batches_end s Hs) as (_ & _ & _ & Hgo).
  destruct (Hgo (ex_ready s Hb Hd)) as (_ & _ & (s' & Hrun & Hend) & Htell).
  assert (Hin : ex_batch (Running [Submitted; Created] []) ∈ batches s) by (rewrite Hb; left).
  destruct (Htell s' _ Hrun Hend Hin) as (e & He & _ & Hok). exists s, s', e. split_and!; try done. apply Hok; [exact ex_clean|by vm_compute].
Defined.
