(* ===== verification/Manifest.v ===== *)
(** [RawManifestV1] of [storage/manifest.py]: the fields of the manifest of a raw part, the
    checks of its constructor and its bytes.  Every failure of the constructor is a
    [ValueError]. *)
From S2P Require Import Prelude PyDecimal Domain StorageModels PyText CatalogJson PyTime PartPath.

(** ** Field types *)
Inductive RecoverySourceState : Type :=
| PARTIAL_COMPLETE | PARTIAL_TRUNCATED | ORPHAN_CLOSED_DATA | OWNED_CONTROL_CARRIER
| PUBLICATION_COEXISTENCE | CLEANUP_INTENT | CLEANUP_TOMBSTONE.
#[export] Instance source_state_eq_dec : EqDecision RecoverySourceState.
Proof. solve_decision. Defined.
Definition source_state_value (s : RecoverySourceState) : string :=
  match s with
  | PARTIAL_COMPLETE => "partial_complete" | PARTIAL_TRUNCATED => "partial_truncated"
  | ORPHAN_CLOSED_DATA => "orphan_closed_data" | OWNED_CONTROL_CARRIER => "owned_control_carrier"
  | PUBLICATION_COEXISTENCE => "publication_coexistence" | CLEANUP_INTENT => "cleanup_intent"
  | CLEANUP_TOMBSTONE => "cleanup_tombstone"
  end.
Definition close_reason_value (r : CloseReason) : string :=
  match r with
  | ROTATE_TIME => "rotate_time" | ROTATE_SIZE => "rotate_size" | CONFIG_RELOAD => "config_reload"
  | SHUTDOWN => "shutdown" | RECOVERY => "recovery" | RECOVERY_CONTROL => "recovery_control"
  end.
#[export] Instance close_reason_eq_dec : EqDecision CloseReason.
Proof. solve_decision. Defined.
(** [Literal["measured", "unavailable_after_crash"]] *)
Inductive DurabilityMeasurement : Type := MEASURED | UNAVAILABLE_AFTER_CRASH.
#[export] Instance measurement_eq_dec : EqDecision DurabilityMeasurement.
Proof. solve_decision. Defined.
Definition measurement_value (m : DurabilityMeasurement) : string :=
  match m with MEASURED => "measured" | UNAVAILABLE_AFTER_CRASH => "unavailable_after_crash" end.

Definition RECOVERY_UNAVAILABLE_FIELDS : list string := Eval vm_compute in py_sorted string_leb
  ["zstd_level"; "max_plain_frame_bytes"; "created_at_ns"; "gap_count"; "reconnect_count"; "parse_error_count";
   "checksum_error_count"; "queue_overflow_count"; "control_event_ids"; "durability_sample_count"; "durability_lag_p50_ns";
   "durability_lag_p95_ns"; "durability_lag_p99_ns"; "durability_lag_max_ns"; "sync_count"; "sync_duration_total_ns";
   "sync_duration_max_ns"; "slo_breach_count"; "write_failure_count"; "sync_failure_count"].

(** [CanonicalUuid] *)
Definition char_between (lo hi : nat) (c : Ascii.ascii) : bool := in_range lo hi c.
Definition hex_run (n : nat) (cs : chars) : bool := (length cs =? n)%nat && forallb lower_hex cs.
Definition canonical_uuid (s : string) : bool :=
  match String.list_ascii_of_string <$> split_on (chr 45) s with
  | [a; b; v :: c; w :: d; e] =>
      hex_run 8 a && hex_run 4 b && char_between 49 53 v && hex_run 3 c
      && (is_char 56 w || is_char 57 w || is_char 97 w || is_char 98 w) && hex_run 3 d && hex_run 12 e
  | _ => false
  end.
Definition path_ok (s : string) : bool := is_ok (validate_normalized_data_relative_path s).

Record RawManifestV1 : Type := {
  m_exchange : Exchange; m_market : option Market; m_instrument_key : option string; m_logical_stream : string;
  m_wire_symbols : list string; m_data_relative_path : string; manifest_relative_path : string;
  file_size_bytes : Z; file_sha256 : string; m_zstd_level : option Z; m_max_plain_frame_bytes : option Z;
  m_record_count : Z; m_first_received_at_ns : Z; m_last_received_at_ns : Z; m_first_event_time_ns : option Z;
  m_last_event_time_ns : option Z; m_worker_instance_id : string; m_connection_generations : list Z;
  m_writer_sequence_first : Z; m_writer_sequence_last : Z; m_config_sha256 : string; m_egress_ids : list string;
  m_requested_intervals_ns : list Z; m_effective_intervals_ns : list Z; gap_count : option Z; reconnect_count : option Z;
  parse_error_count : option Z; checksum_error_count : option Z; queue_overflow_count : option Z;
  control_event_ids : option (list string); durability_measurement : DurabilityMeasurement;
  durability_sample_count : option Z; durability_lag_p50_ns : option Z; durability_lag_p95_ns : option Z;
  durability_lag_p99_ns : option Z; durability_lag_max_ns : option Z; sync_count : option Z;
  sync_duration_total_ns : option Z; sync_duration_max_ns : option Z; slo_breach_count : option Z;
  write_failure_count : option Z; sync_failure_count : option Z; close_reason : CloseReason; created_at_ns : option Z;
  closed_at_ns : Z; recovery_transaction_id : option string; recovery_source_state : option RecoverySourceState;
  recovery_source_relative_path : option string; recovery_source_bytes : option Z; recovery_source_sha256 : option string;
  recovery_control_event_id : option string; recovered_frame_count : option Z; recovered_record_count : option Z;
  recovered_bytes : option Z; recovered_sha256 : option string; quarantined_suffix_relative_path : option string;
  quarantined_suffix_bytes : option Z; quarantined_suffix_sha256 : option string; unavailable_fields : list string
}.

(** The annotated types of the fields.  The schema version is 1 and the two codec flags are
    true in every manifest. *)
Definition manifest_fields_ok (self : RawManifestV1) : bool :=
  opt_ok nonempty (m_instrument_key self) && nonempty (m_logical_stream self) && forallb nonempty (m_wire_symbols self)
  && path_ok (m_data_relative_path self) && path_ok (manifest_relative_path self) && positive (file_size_bytes self)
  && config_sha256_ok (file_sha256 self) && opt_ok (fun l => (1 <=? l) && (l <=? 22)) (m_zstd_level self)
  && opt_ok positive (m_max_plain_frame_bytes self) && positive (m_record_count self)
  && forallb nonneg [m_first_received_at_ns self; m_last_received_at_ns self; m_writer_sequence_first self;
       m_writer_sequence_last self; closed_at_ns self]
  && forallb (opt_ok nonneg) [m_first_event_time_ns self; m_last_event_time_ns self; gap_count self; reconnect_count self;
       parse_error_count self; checksum_error_count self; queue_overflow_count self; durability_sample_count self;
       durability_lag_p50_ns self; durability_lag_p95_ns self; durability_lag_p99_ns self; durability_lag_max_ns self;
       sync_count self; sync_duration_total_ns self; sync_duration_max_ns self; slo_breach_count self;
       write_failure_count self; sync_failure_count self; created_at_ns self]
  && nonempty (m_worker_instance_id self) && forallb nonneg (m_connection_generations self)
  && config_sha256_ok (m_config_sha256 self) && forallb nonempty (m_egress_ids self)
  && forallb positive (m_requested_intervals_ns self) && forallb positive (m_effective_intervals_ns self)
  && opt_ok (forallb nonempty) (control_event_ids self) && opt_ok canonical_uuid (recovery_transaction_id self)
  && opt_ok path_ok (recovery_source_relative_path self) && opt_ok positive (recovery_source_bytes self)
  && opt_ok config_sha256_ok (recovery_source_sha256 self) && opt_ok nonempty (recovery_control_event_id self)
  && opt_ok positive (recovered_frame_count self) && opt_ok positive (recovered_record_count self)
  && opt_ok positive (recovered_bytes self) && opt_ok config_sha256_ok (recovered_sha256 self)
  && opt_ok path_ok (quarantined_suffix_relative_path self) && opt_ok positive (quarantined_suffix_bytes self)
  && opt_ok config_sha256_ok (quarantined_suffix_sha256 self) && forallb nonempty (unavailable_fields self).

(** ** The checks of the constructor *)
Definition _require_sorted_unique {A} `{EqDecision A} (leb : A -> A -> bool) (values : list A) (field_name : string) : result unit :=
  raise ValueError (field_name +:+ " must be sorted and unique") when negb (sorted_unique_by leb values);; Ok tt.

Definition _validate_sorted_facts (self : RawManifestV1) : result unit :=
  let! _ := _require_sorted_unique string_leb (m_wire_symbols self) "wire_symbols" in
  let! _ := _require_sorted_unique Z.leb (m_connection_generations self) "connection_generations" in
  let! _ := _require_sorted_unique string_leb (m_egress_ids self) "egress_ids" in
  let! _ := _require_sorted_unique Z.leb (m_requested_intervals_ns self) "requested_intervals_ns" in
  let! _ := _require_sorted_unique Z.leb (m_effective_intervals_ns self) "effective_intervals_ns" in
  let! _ := _require_sorted_unique string_leb (unavailable_fields self) "unavailable_fields" in
  match control_event_ids self with
  | Some ids => _require_sorted_unique string_leb ids "control_event_ids"
  | None => Ok tt
  end.

Definition nil {A} (l : list A) : bool := match l with [] => true | _ => false end.

Definition _validate_row_facts (self : RawManifestV1) : result unit :=
  raise ValueError "event-time bounds must be paired"
    when negb (eqb (present (m_first_event_time_ns self)) (present (m_last_event_time_ns self)));;
  raise ValueError "writer sequence bounds are reversed" when m_writer_sequence_last self <? m_writer_sequence_first self;;
  raise ValueError "unscoped manifests cannot contain wire symbols"
    when negb (present (m_instrument_key self)) && negb (nil (m_wire_symbols self));;
  raise ValueError "instrument manifests require wire symbols" when present (m_instrument_key self) && nil (m_wire_symbols self);;
  raise ValueError "requested and effective interval sets must be paired"
    when negb (eqb (nil (m_requested_intervals_ns self)) (nil (m_effective_intervals_ns self)));;
  Ok tt.

(** The directories of a part's scope. *)
Definition manifest_scope (exchange : Exchange) (market : option Market) (key : option string) (stream : string)
    : result (list string) :=
  if String.eqb stream "_control" then
    raise ValueError "_control manifest scope is invalid" when present market || present key;;
    Ok ["raw"; exchange_value exchange; "_control"]
  else match market with
  | None => Err (ValueError "non-control manifests require a market")
  | Some market =>
      let! identity_segment :=
        if bool_decide (stream ∈ MARKET_SCOPED_STREAMS) then
          raise ValueError "market-scoped manifests cannot name an instrument" when present key;; Ok "_market"
        else match key with
        | None => Err (ValueError "instrument-scoped manifests require an instrument")
        | Some key => encode_instrument_key key
        end in
      Ok ["raw"; exchange_value exchange; market_value market; identity_segment; stream]
  end.

Definition _validate_layout (self : RawManifestV1) : result unit :=
  let! scope := manifest_scope (m_exchange self) (m_market self) (m_instrument_key self) (m_logical_stream self) in
  let! first_hour := _utc_storage_hour (m_first_received_at_ns self) in
  let! last_hour := _utc_storage_hour (m_last_received_at_ns self) in
  raise ValueError "manifest rows cross a UTC storage hour" when negb (String.eqb first_hour last_hour);;
  let expected_prefix := scope ++ split_on slash first_hour in
  let data_parts := split_on slash (m_data_relative_path self) in
  raise ValueError "data path does not match manifest identity/layout/hour"
    when negb (bool_decide (removelast data_parts = expected_prefix))
         || bool_decide (_FINAL_PART_NAME (List.last data_parts "") = None);;
  let! expected_manifest := manifest_path_for_data (m_data_relative_path self) in
  raise ValueError "manifest path is not the exact data sibling"
    when negb (String.eqb (manifest_relative_path self) expected_manifest);;
  Ok tt.

Definition control_values (self : RawManifestV1) : list bool :=
  (present <$> [gap_count self; reconnect_count self; parse_error_count self; checksum_error_count self; queue_overflow_count self])
  ++ [present (control_event_ids self)].
Definition durability_values (self : RawManifestV1) : list bool :=
  present <$> [durability_sample_count self; durability_lag_p50_ns self; durability_lag_p95_ns self; durability_lag_p99_ns self;
    durability_lag_max_ns self; sync_count self; sync_duration_total_ns self; sync_duration_max_ns self;
    slo_breach_count self; write_failure_count self; sync_failure_count self].
Definition lineage_values (self : RawManifestV1) : list bool :=
  [present (recovery_transaction_id self); present (recovery_source_state self); present (recovery_source_relative_path self);
   present (recovery_source_bytes self); present (recovery_source_sha256 self); present (recovery_control_event_id self);
   present (recovered_frame_count self); present (recovered_record_count self); present (recovered_bytes self);
   present (recovered_sha256 self)].
Definition suffix_values (self : RawManifestV1) : list bool :=
  [present (quarantined_suffix_relative_path self); present (quarantined_suffix_bytes self);
   present (quarantined_suffix_sha256 self)].

Definition _validate_normal_manifest (self : RawManifestV1) : result unit :=
  raise ValueError "normal manifests require created_at_ns" when negb (present (created_at_ns self));;
  raise ValueError "normal manifests require codec settings"
    when negb (present (m_zstd_level self)) || negb (present (m_max_plain_frame_bytes self));;
  raise ValueError "normal manifests require control summaries" when existsb negb (control_values self);;
  raise ValueError "normal manifests require measured durability summaries"
    when negb (bool_decide (durability_measurement self = MEASURED)) || existsb negb (durability_values self);;
  raise ValueError "durability sample count must match record_count"
    when negb (bool_decide (durability_sample_count self = Some (m_record_count self)));;
  match durability_lag_p50_ns self, durability_lag_p95_ns self, durability_lag_p99_ns self with
  | Some p50, Some p95, Some p99 =>
      raise ValueError "durability quantiles must be non-decreasing" when negb ((p50 <=? p95) && (p95 <=? p99));;
      raise ValueError "normal manifests cannot contain recovery lineage"
        when existsb id (lineage_values self) || existsb id (suffix_values self);;
      raise ValueError "normal manifests cannot name unavailable fields" when negb (nil (unavailable_fields self));;
      Ok tt
  | _, _, _ => Err (AssertionError "durability_lag is not None")
  end.

(** The checks that relate the source state to the other facts. *)
Definition check_source_state (self : RawManifestV1) (state : RecoverySourceState) (source_path : string)
    (suffix_present source_is_partial source_matches_published : bool) : result unit :=
  match state with
  | PARTIAL_COMPLETE =>
      raise ValueError "complete partial recovery facts are inconsistent"
        when suffix_present || negb source_is_partial || negb source_matches_published;; Ok tt
  | PARTIAL_TRUNCATED =>
      raise ValueError "truncated partial recovery requires a bad suffix"
        when negb suffix_present || negb source_is_partial;; Ok tt
  | ORPHAN_CLOSED_DATA =>
      raise ValueError "retained closed orphan must preserve its source"
        when suffix_present || negb (String.eqb source_path (m_data_relative_path self)) || negb source_matches_published;; Ok tt
  | OWNED_CONTROL_CARRIER =>
      raise ValueError "owned control carrier facts are inconsistent"
        when suffix_present || negb (String.eqb (m_logical_stream self) "_control") || negb (m_record_count self =? 1)
             || negb (bool_decide (recovered_frame_count self = Some 1))
             || negb (String.eqb source_path (m_data_relative_path self +:+ ".partial")) || negb source_matches_published;;
      Ok tt
  | PUBLICATION_COEXISTENCE =>
      raise ValueError "publication coexistence facts are inconsistent"
        when suffix_present || negb source_is_partial || negb source_matches_published;; Ok tt
  | CLEANUP_INTENT | CLEANUP_TOMBSTONE => Ok tt
  end.

Definition _RECOVERY_EVENT_PREFIX : string := "raw-recovery-lineage:v1:".

Definition _validate_recovery_manifest (self : RawManifestV1) : result unit :=
  raise ValueError "recovery manifests cannot invent codec settings"
    when present (m_zstd_level self) || present (m_max_plain_frame_bytes self);;
  raise ValueError "recovery summaries must be unavailable after crash"
    when negb (bool_decide (durability_measurement self = UNAVAILABLE_AFTER_CRASH))
         || existsb id (control_values self ++ durability_values self);;
  raise ValueError "recovery manifests require complete lineage facts" when existsb negb (lineage_values self);;
  match recovery_transaction_id self, recovery_source_state self, recovery_source_relative_path self,
        recovery_source_bytes self, recovered_frame_count self, recovered_record_count self, recovered_bytes self with
  | Some transaction_id, Some state, Some source_path, Some source_bytes, Some frame_count, Some record_count, Some bytes =>
      raise ValueError "cleanup outcomes do not publish recovery manifests"
        when bool_decide (state ∈ [CLEANUP_INTENT; CLEANUP_TOMBSTONE]);;
      raise ValueError "recovery manifests cannot invent created_at_ns" when present (created_at_ns self);;
      raise ValueError "recovery unavailable_fields set is not canonical"
        when negb (bool_decide (unavailable_fields self = RECOVERY_UNAVAILABLE_FIELDS));;
      raise ValueError "recovery control event ID does not match its transaction"
        when negb (bool_decide (recovery_control_event_id self = Some (_RECOVERY_EVENT_PREFIX +:+ transaction_id)));;
      raise ValueError "recovered record count must match record_count" when negb (record_count =? m_record_count self);;
      raise ValueError "recovered bytes must match the published file" when negb (bytes =? file_size_bytes self);;
      raise ValueError "recovered hash must match the published file"
        when negb (bool_decide (recovered_sha256 self = Some (file_sha256 self)));;
      raise ValueError "quarantined suffix facts must be all present or all absent"
        when negb (forallb id (suffix_values self)) && existsb id (suffix_values self);;
      raise ValueError "recovered frames cannot exceed recovered records" when record_count <? frame_count;;
      let! _ :=
        match quarantined_suffix_bytes self with
        | Some suffix_bytes =>
            raise ValueError "recovery prefix and suffix bytes must cover the source"
              when negb (bytes + suffix_bytes =? source_bytes);; Ok tt
        | None => raise ValueError "complete recovery bytes must match the source" when negb (bytes =? source_bytes);; Ok tt
        end in
      check_source_state self state source_path (present (quarantined_suffix_relative_path self))
        (suffix ".jsonl.zst.partial" source_path)
        ((source_bytes =? file_size_bytes self) && bool_decide (recovery_source_sha256 self = Some (file_sha256 self)))
  | _, _, _, _, _, _, _ => Err (AssertionError "lineage is not None")
  end.

(** [RawManifestV1(...)] *)
Definition manifest_init (self : RawManifestV1) : result RawManifestV1 :=
  raise ValueError "validation error" when negb (manifest_fields_ok self);;
  let! _ := _validate_sorted_facts self in
  let! _ := _validate_row_facts self in
  let! _ := _validate_layout self in
  let! _ := if bool_decide (close_reason self = RECOVERY) then _validate_recovery_manifest self
            else _validate_normal_manifest self in
  Ok self.

(** ** Its bytes *)
Definition strings (l : list string) : Json := JList (JStr <$> l).
Definition ints (l : list Z) : Json := JList (JInt <$> l).
Definition manifest_payload (self : RawManifestV1) : Json := JDict [
  ("schema_version", JInt 1); ("exchange", jenum (m_exchange self)); ("market", jopt jenum (m_market self));
  ("instrument_key", jopt JStr (m_instrument_key self)); ("logical_stream", JStr (m_logical_stream self));
  ("wire_symbols", strings (m_wire_symbols self)); ("data_relative_path", JStr (m_data_relative_path self));
  ("manifest_relative_path", JStr (manifest_relative_path self)); ("file_size_bytes", JInt (file_size_bytes self));
  ("file_sha256", JStr (file_sha256 self)); ("zstd_level", jopt JInt (m_zstd_level self));
  ("zstd_write_checksum", JBool true); ("zstd_write_content_size", JBool true);
  ("max_plain_frame_bytes", jopt JInt (m_max_plain_frame_bytes self)); ("record_count", JInt (m_record_count self));
  ("first_received_at_ns", JInt (m_first_received_at_ns self)); ("last_received_at_ns", JInt (m_last_received_at_ns self));
  ("first_event_time_ns", jopt JInt (m_first_event_time_ns self)); ("last_event_time_ns", jopt JInt (m_last_event_time_ns self));
  ("worker_instance_id", JStr (m_worker_instance_id self)); ("connection_generations", ints (m_connection_generations self));
  ("writer_sequence_first", JInt (m_writer_sequence_first self)); ("writer_sequence_last", JInt (m_writer_sequence_last self));
  ("config_sha256", JStr (m_config_sha256 self)); ("egress_ids", strings (m_egress_ids self));
  ("requested_intervals_ns", ints (m_requested_intervals_ns self)); ("effective_intervals_ns", ints (m_effective_intervals_ns self));
  ("gap_count", jopt JInt (gap_count self)); ("reconnect_count", jopt JInt (reconnect_count self));
  ("parse_error_count", jopt JInt (parse_error_count self)); ("checksum_error_count", jopt JInt (checksum_error_count self));
  ("queue_overflow_count", jopt JInt (queue_overflow_count self)); ("control_event_ids", jopt strings (control_event_ids self));
  ("durability_measurement", JStr (measurement_value (durability_measurement self)));
  ("durability_sample_count", jopt JInt (durability_sample_count self)); ("durability_lag_p50_ns", jopt JInt (durability_lag_p50_ns self));
  ("durability_lag_p95_ns", jopt JInt (durability_lag_p95_ns self)); ("durability_lag_p99_ns", jopt JInt (durability_lag_p99_ns self));
  ("durability_lag_max_ns", jopt JInt (durability_lag_max_ns self)); ("sync_count", jopt JInt (sync_count self));
  ("sync_duration_total_ns", jopt JInt (sync_duration_total_ns self)); ("sync_duration_max_ns", jopt JInt (sync_duration_max_ns self));
  ("slo_breach_count", jopt JInt (slo_breach_count self)); ("write_failure_count", jopt JInt (write_failure_count self));
  ("sync_failure_count", jopt JInt (sync_failure_count self)); ("close_reason", JStr (close_reason_value (close_reason self)));
  ("created_at_ns", jopt JInt (created_at_ns self)); ("closed_at_ns", JInt (closed_at_ns self));
  ("recovery_transaction_id", jopt JStr (recovery_transaction_id self));
  ("recovery_source_state", jopt (fun s => JStr (source_state_value s)) (recovery_source_state self));
  ("recovery_source_relative_path", jopt JStr (recovery_source_relative_path self));
  ("recovery_source_bytes", jopt JInt (recovery_source_bytes self)); ("recovery_source_sha256", jopt JStr (recovery_source_sha256 self));
  ("recovery_control_event_id", jopt JStr (recovery_control_event_id self));
  ("recovered_frame_count", jopt JInt (recovered_frame_count self)); ("recovered_record_count", jopt JInt (recovered_record_count self));
  ("recovered_bytes", jopt JInt (recovered_bytes self)); ("recovered_sha256", jopt JStr (recovered_sha256 self));
  ("quarantined_suffix_relative_path", jopt JStr (quarantined_suffix_relative_path self));
  ("quarantined_suffix_bytes", jopt JInt (quarantined_suffix_bytes self));
  ("quarantined_suffix_sha256", jopt JStr (quarantined_suffix_sha256 self)); ("unavailable_fields", strings (unavailable_fields self))].

Definition manifest_canonical_bytes `{JsonCodec} (self : RawManifestV1) : string := encode_json (manifest_payload self) +:+ newline.
