(* ===== verification/FrameScan.v ===== *)
(** The scan of a raw part by recovery: the first part of [storage/recovery.py].  The frames
    of a part are read one after the other until one cannot be decompressed, lacks a
    checksum or a size, or holds rows that do not belong to the part; what follows is the
    invalid suffix.  [scan_recovery_frames] reads the whole source at once,
    [_scan_recovery_chunks] a sequence of chunks.  The decompressor ([Zstd]) and SHA-256 are
    parameters. *)
From S2P Require Import Prelude PyDecimal Domain StorageModels PyText CatalogJson PyTime EnvelopeJson PartPath.
From S2P Require StreamFile.

Abbreviation len := StreamFile.len.

(** ** The decompressor

    [zobj] are the objects of [ZstdDecompressor().decompressobj()].  [None] is a
    [ZstdError].  [get_frame_parameters] gives whether the frame has a checksum, and the
    size of its content. *)
Class Zstd : Type := {
  zobj : Type;
  decompressobj : zobj;
  decompress : zobj -> string -> option (zobj * string);
  eof : zobj -> bool;
  unused_data : zobj -> string;
  get_frame_parameters : string -> option (bool * Z)
}.

(** ** Records *)
Record ValidatedRecoveryFrame : Type := { start_offset : Z; end_offset : Z; envelopes : list RawEnvelope }.
Definition frame_init (start_offset end_offset : Z) (envelopes : list RawEnvelope) : result ValidatedRecoveryFrame :=
  raise ValueError "recovery frame offsets are invalid" when (start_offset <? 0) || (end_offset <=? start_offset);;
  raise ValueError "recovery frame must contain validated envelopes" when bool_decide (length envelopes = 0%nat);;
  Ok {| FrameScan.start_offset := start_offset; FrameScan.end_offset := end_offset; FrameScan.envelopes := envelopes |}.

Record RecoveryFrameScan : Type := {
  source_size_bytes : Z; valid_prefix_size_bytes : Z; frames : list ValidatedRecoveryFrame
}.
(** The end of frames that stand one behind the other, from [start] on. *)
Fixpoint contiguous (start : Z) (frames : list ValidatedRecoveryFrame) : option Z :=
  match frames with
  | [] => Some start
  | f :: frames => if start_offset f =? start then contiguous (end_offset f) frames else None
  end.
Definition frame_scan_init (source_size valid_prefix_size : Z) (frames : list ValidatedRecoveryFrame) : result RecoveryFrameScan :=
  raise ValueError "recovery frame scan sizes are invalid"
    when (source_size <? 0) || negb ((0 <=? valid_prefix_size) && (valid_prefix_size <=? source_size));;
  match contiguous 0 frames with
  | None => Err (ValueError "recovery frames must form one contiguous prefix")
  | Some expected =>
      raise ValueError "recovery frame prefix size is inconsistent" when negb (expected =? valid_prefix_size);;
      Ok {| source_size_bytes := source_size; valid_prefix_size_bytes := valid_prefix_size; FrameScan.frames := frames |}
  end.
Definition invalid_suffix_size_bytes (s : RecoveryFrameScan) : Z := source_size_bytes s - valid_prefix_size_bytes s.
Definition record_count (s : RecoveryFrameScan) : Z := foldr (fun f n => Z.of_nat (length (envelopes f)) + n) 0 (frames s).

Record RecoveryRowFacts : Type := {
  rf_exchange : Exchange; rf_market : option Market; rf_instrument_key : option string; rf_logical_stream : string;
  rf_wire_symbols : list string; rf_record_count : Z; first_received_at_ns : Z; last_received_at_ns : Z;
  rf_first_event_time_ns : option Z; rf_last_event_time_ns : option Z; rf_worker_instance_id : string;
  rf_connection_generations : list Z; writer_sequence_first : Z; writer_sequence_last : Z; rf_config_sha256 : string;
  rf_egress_ids : list string; rf_requested_intervals_ns : list Z; rf_effective_intervals_ns : list Z
}.

Record StreamingRecoveryScan : Type := {
  ss_source_size_bytes : Z; source_sha256 : string; ss_valid_prefix_size_bytes : Z; valid_prefix_sha256 : string;
  ss_invalid_suffix_size_bytes : Z; invalid_suffix_sha256 : option string; frame_count : Z;
  row_facts : option RecoveryRowFacts
}.
Definition streaming_init (self : StreamingRecoveryScan) : result StreamingRecoveryScan :=
  raise ValueError "streaming recovery scan byte counts are inconsistent"
    when negb (ss_source_size_bytes self =? ss_valid_prefix_size_bytes self + ss_invalid_suffix_size_bytes self);;
  raise ValueError "streaming recovery suffix hash is inconsistent"
    when negb (eqb (ss_invalid_suffix_size_bytes self =? 0) (negb (present (invalid_suffix_sha256 self))));;
  raise ValueError "streaming recovery row facts are inconsistent"
    when negb (eqb (frame_count self =? 0) (negb (present (row_facts self))));;
  Ok self.

(** ** [_RecoveryRowFactsBuilder] *)
Record _RecoveryRowFactsBuilder : Type := {
  b_rows : Z; b_first : option RawEnvelope; b_last : option RawEnvelope; first_event_time_ns : option Z;
  last_event_time_ns : option Z; wire_symbols : gset string; connection_generations : gset Z; egress_ids : gset string;
  requested_intervals_ns : gset Z; effective_intervals_ns : gset Z
}.
Definition new_builder : _RecoveryRowFactsBuilder := {|
  b_rows := 0; b_first := None; b_last := None; first_event_time_ns := None; last_event_time_ns := None; wire_symbols := ∅;
  connection_generations := ∅; egress_ids := ∅; requested_intervals_ns := ∅; effective_intervals_ns := ∅ |}.

Definition add_opt {A} `{Countable A} (o : option A) (s : gset A) : gset A := match o with Some a => {[a]} ∪ s | None => s end.
(** The intervals of a REST record; the constructors pair them, so the [assert] holds. *)
Definition intervals (e : RawEnvelope) : option (Z * Z) :=
  m ← rest_metadata (base e); r ← Domain.requested_interval_ns m; f ← effective_interval_ns m; Some (r, f).
Definition extend_one (b : _RecoveryRowFactsBuilder) (e : RawEnvelope) : _RecoveryRowFactsBuilder := {|
  b_rows := b_rows b + 1;
  b_first := match b_first b with None => Some e | first => first end;
  b_last := Some e;
  first_event_time_ns := match event_time_ns (base e), first_event_time_ns b with
    | Some t, None => Some t | _, first => first end;
  last_event_time_ns := match event_time_ns (base e) with Some t => Some t | None => last_event_time_ns b end;
  wire_symbols := add_opt (wire_symbol (base e)) (wire_symbols b);
  connection_generations := add_opt (env_connection_generation e) (connection_generations b);
  egress_ids := add_opt (env_egress_id e) (egress_ids b);
  requested_intervals_ns := add_opt (fst <$> intervals e) (requested_intervals_ns b);
  effective_intervals_ns := add_opt (snd <$> intervals e) (effective_intervals_ns b)
|}.
Definition extend (b : _RecoveryRowFactsBuilder) (envelopes : list RawEnvelope) : _RecoveryRowFactsBuilder :=
  foldl extend_one b envelopes.

Definition sorted_set {A} `{Countable A} (leb : A -> A -> bool) (s : gset A) : list A := py_sorted leb (elements s).
Definition freeze (b : _RecoveryRowFactsBuilder) : option RecoveryRowFacts :=
  match b_first b, b_last b with
  | Some first, Some last => Some {|
      rf_exchange := exchange (base first); rf_market := market (base first);
      rf_instrument_key := instrument_key (base first); rf_logical_stream := logical_stream (base first);
      rf_wire_symbols := sorted_set string_leb (wire_symbols b); rf_record_count := b_rows b;
      first_received_at_ns := received_at_ns first; last_received_at_ns := received_at_ns last;
      rf_first_event_time_ns := first_event_time_ns b; rf_last_event_time_ns := last_event_time_ns b;
      rf_worker_instance_id := worker_instance_id first;
      rf_connection_generations := sorted_set Z.leb (connection_generations b);
      writer_sequence_first := writer_sequence first; writer_sequence_last := writer_sequence last;
      rf_config_sha256 := config_sha256 first; rf_egress_ids := sorted_set string_leb (egress_ids b);
      rf_requested_intervals_ns := sorted_set Z.leb (requested_intervals_ns b);
      rf_effective_intervals_ns := sorted_set Z.leb (effective_intervals_ns b) |}
  | _, _ => None
  end.

(** ** Rows of a frame *)
(** What the frames before have fixed: worker, configuration and last sequence. *)
Record Lineage : Type := { l_worker : option string; l_config : option string; l_sequence : option Z }.
Definition no_lineage : Lineage := {| l_worker := None; l_config := None; l_sequence := None |}.

(** [tuple(received_hour.split("/")) != identity.storage_hour] *)
Definition same_hour (identity : _SourcePathIdentity) (received_at_ns : Z) : result unit :=
  match _utc_storage_hour received_at_ns with
  | Err _ => Err (ValueError "recovery row received time is invalid")
  | Ok text =>
      raise ValueError "recovery row crosses the source storage hour"
        when negb (bool_decide (split_on slash text = storage_hour identity));;
      Ok tt
  end.

Definition check_row (identity : _SourcePathIdentity) (l : Lineage) (e : RawEnvelope) : result Lineage :=
  raise ValueError "recovery row does not match source path identity"
    when negb (bool_decide ((exchange (base e), market (base e), instrument_key (base e), logical_stream (base e))
      = (sp_exchange identity, sp_market identity, sp_instrument_key identity, sp_logical_stream identity)));;
  let! _ := same_hour identity (received_at_ns e) in
  let! '(worker, config) :=
    match l_worker l with
    | None => Ok (worker_instance_id e, Some (config_sha256 e))
    | Some worker =>
        raise ValueError "recovery part mixes worker or config identities"
          when negb (String.eqb (worker_instance_id e) worker) || negb (bool_decide (Some (config_sha256 e) = l_config l));;
        Ok (worker, l_config l)
    end in
  raise ValueError "recovery writer sequences must be strictly increasing"
    when match l_sequence l with Some sequence => writer_sequence e <=? sequence | None => false end;;
  Ok {| l_worker := Some worker; l_config := config; l_sequence := Some (writer_sequence e) |}.

Fixpoint check_rows (identity : _SourcePathIdentity) (l : Lineage) (envelopes : list RawEnvelope) : result Lineage :=
  match envelopes with
  | [] => Ok l
  | e :: envelopes => let! l := check_row identity l e in check_rows identity l envelopes
  end.

Fixpoint traverse {A B} (f : A -> result B) (l : list A) : result (list B) :=
  match l with [] => Ok [] | a :: l => let! b := f a in let! bs := traverse f l in Ok (b :: bs) end.

Section Scan.
Context `{JsonCodec} `{Zstd}.
Context (sha256 : string -> string).

Definition _decode_valid_frame_rows (plain : string) (identity : _SourcePathIdentity) (l : Lineage)
    : result (list RawEnvelope * Lineage) :=
  raise ValueError "recovery frame is not complete JSONL" when String.eqb plain "" || negb (suffix newline plain);;
  let segments := split_on (chr 10) plain in
  raise ValueError "recovery frame contains an empty or trailing row"
    when negb (String.eqb (List.last segments "") "") || existsb (fun s => String.eqb s "") (removelast segments);;
  let! envelopes := traverse (fun segment => decode_envelope_jsonl (segment +:+ newline)) (removelast segments) in
  let! l := check_rows identity l envelopes in
  raise AssertionError "worker is not None"
    when negb (present (l_worker l)) || negb (present (l_config l)) || negb (present (l_sequence l));;
  Ok (envelopes, l).

(** The exceptions that end a scan instead of leaving it; [ZstdError] is [None]. *)
Definition caught (e : exn) : bool := match e with TypeError _ | ValueError _ => true | _ => false end.

(** What follows the decompression of a complete frame: its parameters and its rows.
    [Ok None] is a frame that is not valid. *)
Definition validate_frame (frame_bytes plain : string) (identity : _SourcePathIdentity) (l : Lineage)
    : result (option (list RawEnvelope * Lineage)) :=
  match get_frame_parameters frame_bytes with
  | None => Ok None
  | Some (has_checksum, content_size) =>
      if negb has_checksum || negb (content_size =? len plain) then Ok None
      else match _decode_valid_frame_rows plain identity l with
      | Ok r => Ok (Some r)
      | Err e => if caught e then Ok None else Err e
      end
  end.

Definition from_offset (n : Z) (s : string) : string := String.substring (Z.to_nat n) (String.length s - Z.to_nat n) s.
Definition up_to (n : Z) (s : string) : string := String.substring 0 (Z.to_nat n) s.

(** One turn of the loop: the length of the frame at the start of [remaining] with its rows;
    [Ok None] is [break]. *)
Definition scan_step (identity : _SourcePathIdentity) (l : Lineage) (remaining : string)
    : result (option (Z * list RawEnvelope * Lineage)) :=
  match decompress decompressobj remaining with
  | None => Ok None
  | Some (obj, plain) =>
      if negb (eof obj) then Ok None
      else let consumed := len remaining - len (unused_data obj) in
      if consumed <=? 0 then Ok None
      else let! v := validate_frame (up_to consumed remaining) plain identity l in
           Ok ((fun r => (consumed, r.1, r.2)) <$> v)
  end.

(** The loop; each turn consumes a byte, so as many turns as there are bytes are enough. *)
Fixpoint scan_loop (fuel : nat) (identity : _SourcePathIdentity) (source : string) (offset : Z) (l : Lineage)
    (frames : list ValidatedRecoveryFrame) : result (Z * list ValidatedRecoveryFrame) :=
  match fuel with
  | O => Ok (offset, frames)
  | S fuel =>
      if offset <? len source then
        let! v := scan_step identity l (from_offset offset source) in
        match v with
        | None => Ok (offset, frames)
        | Some (consumed, envelopes, next) =>
            let! frame := frame_init offset (offset + consumed) envelopes in
            scan_loop fuel identity source (offset + consumed) next (frames ++ [frame])
        end
      else Ok (offset, frames)
  end.

Definition scan_recovery_frames (source source_relative_path : string) : result RecoveryFrameScan :=
  let! identity := _parse_source_path source_relative_path in
  let! '(offset, frames) := scan_loop (S (String.length source)) identity source 0 no_lineage [] in
  frame_scan_init (len source) offset frames.

(** ** Chunks *)
(** The locals of [_scan_recovery_chunks]; a digest is the text it was fed. *)
Record ScanState : Type := {
  source_digest : string; prefix_digest : string; suffix_digest : string; source_size : Z; prefix_size : Z;
  suffix_size : Z; s_frame_count : Z; invalid : bool; compressed : string; plain : string; decompressor : zobj;
  lineage : Lineage; facts : _RecoveryRowFactsBuilder
}.
Definition scan_start : ScanState := {|
  source_digest := ""; prefix_digest := ""; suffix_digest := ""; source_size := 0; prefix_size := 0; suffix_size := 0;
  s_frame_count := 0; invalid := false; compressed := ""; plain := ""; decompressor := decompressobj;
  lineage := no_lineage; facts := new_builder |}.

(** The source digest and size of a chunk. *)
Definition count_source (chunk : string) (s : ScanState) : ScanState := {|
  source_digest := source_digest s +:+ chunk; prefix_digest := prefix_digest s; suffix_digest := suffix_digest s;
  source_size := source_size s + len chunk; prefix_size := prefix_size s; suffix_size := suffix_size s;
  s_frame_count := s_frame_count s; invalid := invalid s; compressed := compressed s; plain := plain s;
  decompressor := decompressor s; lineage := lineage s; facts := facts s |}.
(** Bytes of the suffix; the scan is invalid from here on. *)
Definition count_suffix (bytes : string) (clear : bool) (s : ScanState) : ScanState := {|
  source_digest := source_digest s; prefix_digest := prefix_digest s; suffix_digest := suffix_digest s +:+ bytes;
  source_size := source_size s; prefix_size := prefix_size s; suffix_size := suffix_size s + len bytes;
  s_frame_count := s_frame_count s; invalid := true; compressed := if clear then "" else compressed s;
  plain := if clear then "" else plain s; decompressor := decompressor s; lineage := lineage s; facts := facts s |}.
(** What the decompressor was fed and gave. *)
Definition set_object (c p : string) (obj : zobj) (s : ScanState) : ScanState := {|
  source_digest := source_digest s; prefix_digest := prefix_digest s; suffix_digest := suffix_digest s;
  source_size := source_size s; prefix_size := prefix_size s; suffix_size := suffix_size s;
  s_frame_count := s_frame_count s; invalid := invalid s; compressed := c; plain := p; decompressor := obj;
  lineage := lineage s; facts := facts s |}.
(** A valid frame; the next one starts with a new decompressor. *)
Definition count_frame (frame_bytes : string) (envelopes : list RawEnvelope) (l : Lineage) (s : ScanState) : ScanState := {|
  source_digest := source_digest s; prefix_digest := prefix_digest s +:+ frame_bytes; suffix_digest := suffix_digest s;
  source_size := source_size s; prefix_size := prefix_size s + len frame_bytes; suffix_size := suffix_size s;
  s_frame_count := s_frame_count s + 1; invalid := invalid s; compressed := ""; plain := ""; decompressor := decompressobj;
  lineage := l; facts := extend (facts s) envelopes |}.

(** [while pending]; every turn but the last consumes a byte of the chunk. *)
Fixpoint pending_loop (fuel : nat) (identity : _SourcePathIdentity) (pending : string) : M ScanState unit := fun s =>
  match fuel with
  | O => (s, Ok tt)
  | S fuel =>
      if String.eqb pending "" then (s, Ok tt)
      else match decompress (decompressor s) pending with
      | None => (count_suffix (compressed s +:+ pending) true s, Ok tt)
      | Some (obj, decoded) =>
          let s := set_object (compressed s) (plain s +:+ decoded) obj s in
          if negb (eof obj) then (set_object (compressed s +:+ pending) (plain s) obj s, Ok tt)
          else
            let unused := unused_data obj in
            let consumed := len pending - len unused in
            let frame_bytes := compressed s +:+ up_to consumed pending in
            let s := set_object frame_bytes (plain s) obj s in
            match validate_frame frame_bytes (plain s) identity (lineage s) with
            | Err e => (s, Err e)
            | Ok None => (count_suffix (frame_bytes +:+ unused) false s, Ok tt)
            | Ok (Some (envelopes, next)) => pending_loop fuel identity unused (count_frame frame_bytes envelopes next s)
            end
      end
  end.

Definition feed (identity : _SourcePathIdentity) (chunk : string) : M ScanState unit := fun s =>
  if String.eqb chunk "" then (s, Ok tt)
  else let s := count_source chunk s in
       if invalid s then (count_suffix chunk false s, Ok tt)
       else pending_loop (S (String.length chunk)) identity chunk s.

Fixpoint feed_all (identity : _SourcePathIdentity) (chunks : list string) : M ScanState unit :=
  match chunks with
  | [] => mret tt
  | chunk :: chunks => do! _ := feed identity chunk in feed_all identity chunks
  end.

(** An incomplete frame at the end is part of the suffix. *)
Definition finish (s : ScanState) : result StreamingRecoveryScan :=
  let s := if negb (invalid s) && negb (String.eqb (compressed s) "")
           then count_suffix (compressed s) false s else s in
  streaming_init {|
    ss_source_size_bytes := source_size s; source_sha256 := sha256 (source_digest s);
    ss_valid_prefix_size_bytes := prefix_size s; valid_prefix_sha256 := sha256 (prefix_digest s);
    ss_invalid_suffix_size_bytes := suffix_size s;
    invalid_suffix_sha256 := if suffix_size s =? 0 then None else Some (sha256 (suffix_digest s));
    frame_count := s_frame_count s; row_facts := freeze (facts s) |}.

Definition _scan_recovery_chunks (chunks : list string) (source_relative_path : string) : result StreamingRecoveryScan :=
  let! identity := _parse_source_path source_relative_path in
  let '(s, r) := feed_all identity chunks scan_start in
  let! _ := r in finish s.
End Scan.
