(* ===== verification/ScanFacts.v ===== *)
(** The two scans of a raw part read the same: what a chunked scan reports is what the scan
    of the whole source finds, for every division into chunks. *)
From S2P Require Import Prelude PyDecimal Domain StorageModels PyText CatalogJson PartPath EnvelopeJson FrameScan.

(** ** The laws of the decompressor

    What an object makes of its input does not depend on how the input is divided, until
    the frame has ended; the rest is then in [unused_data].  A frame ends with a byte of
    its own. *)
Class ZstdLaws `{Zstd} : Prop := {
  zd_fresh : eof decompressobj = false;
  zd_more o a b o1 x : decompress o a = Some (o1, x) -> eof o = false -> eof o1 = false -> b <> "" ->
    decompress o (a +:+ b) = match decompress o1 b with Some (o2, y) => Some (o2, x +:+ y) | None => None end;
  zd_ended o a b o1 x : decompress o a = Some (o1, x) -> eof o = false -> eof o1 = true ->
    exists o2, decompress o (a +:+ b) = Some (o2, x) /\ eof o2 = true /\ unused_data o2 = unused_data o1 +:+ b;
  zd_error o a b : decompress o a = None -> eof o = false -> decompress o (a +:+ b) = None;
  zd_unused o a o1 x : decompress o a = Some (o1, x) -> eof o = false -> eof o1 = true ->
    exists used, used <> "" /\ a = used +:+ unused_data o1
}.

(** ** Lengths and halves *)
Lemma bytes_app s t : len (s +:+ t) = len s + len t.
Proof. apply StreamFile.len_app. Qed.
Lemma len_pos s : s <> "" -> 0 < len s.
Proof. unfold StreamFile.len. destruct s; [done|]. cbn. lia. Qed.
Lemma bytes_nonneg s : 0 <= len s.
Proof. apply StreamFile.len_nonneg. Qed.
Lemma app_length_inj s s' t t' : s +:+ t = s' +:+ t' -> len t = len t' -> s = s' /\ t = t'.
Proof.
  intros E%(f_equal chars_of) Hl. rewrite !chars_app in E. unfold StreamFile.len in Hl. rewrite !length_chars in Hl.
  apply app_inj_2 in E as [E1 E2]; [|lia]. split; by apply chars_inj.
Qed.
Lemma nat_len s : Z.to_nat (len s) = length (chars_of s).
Proof. unfold StreamFile.len. rewrite length_chars. lia. Qed.
Lemma up_to_app s t : up_to (len s) (s +:+ t) = s.
Proof. unfold up_to. apply chars_inj. rewrite substring_chars, nat_len, chars_app, drop_0. apply take_app_length. Qed.
Lemma from_offset_app s t : from_offset (len s) (s +:+ t) = t.
Proof.
  unfold from_offset. apply chars_inj. rewrite substring_chars, nat_len, length_chars, chars_app, length_app, drop_app_length.
  apply take_ge. lia.
Qed.
Lemma app_nonempty s t : s <> "" -> s +:+ t <> "".
Proof. intros Hs E%(f_equal chars_of). rewrite chars_app in E. apply app_eq_nil in E as [E _]. by destruct s. Qed.
Lemma app_empty s t : s +:+ t = "" -> s = "" /\ t = "".
Proof. intros E. destruct (base.decide (s = "")) as [->|Hs]; [done|]. by apply (app_nonempty s t) in Hs. Qed.

Section Facts.
Context `{JsonCodec} `{ZstdLaws}.
Context (identity : _SourcePathIdentity).

(** ** Objects *)
(** [o] has been fed [c] from the start, has given [p], and the frame has not ended. *)
Definition fed (c : string) (o : zobj) (p : string) : Prop :=
  c = "" /\ o = decompressobj /\ p = "" \/ c <> "" /\ decompress decompressobj c = Some (o, p) /\ eof o = false.
(** [f] is a whole frame that holds [x]. *)
Definition whole (f x : string) : Prop :=
  f <> "" /\ exists o, decompress decompressobj f = Some (o, x) /\ eof o = true /\ unused_data o = "".

Lemma fed_open c o p : fed c o p -> eof o = false.
Proof. intros [(_ & -> & _)|(_ & _ & Ho)]; [apply zd_fresh|done]. Qed.

Lemma fed_decompress c o p pending : fed c o p -> pending <> "" ->
  decompress decompressobj (c +:+ pending) = match decompress o pending with Some (o1, x) => Some (o1, p +:+ x) | None => None end.
Proof.
  intros [(-> & -> & ->)|(Hc & Hd & Ho)] Hp.
  - change ("" +:+ pending) with pending. destruct (decompress decompressobj pending) as [[o1 x]|]; done.
  - apply zd_more; [done|apply zd_fresh|done|done].
Qed.

(** A frame that ends somewhere in the input ends there without the rest. *)
Lemma exact_frame f rest o x : decompress decompressobj (f +:+ rest) = Some (o, x) -> eof o = true -> unused_data o = rest ->
  f <> "" -> whole f x.
Proof.
  intros Hd Ho Hu Hf. split; [done|]. destruct (base.decide (rest = "")) as [->|Hr]; [rewrite append_nil in Hd; by exists o|].
  destruct (decompress decompressobj f) as [[o1 y]|] eqn:Ef.
  - destruct (eof o1) eqn:E1.
    + destruct (zd_ended _ _ rest _ _ Ef zd_fresh E1) as (o2 & Hd2 & _ & Hu2). rewrite Hd in Hd2. injection Hd2 as <- <-.
      exists o1. split_and!; [done|done|]. rewrite Hu in Hu2. apply (f_equal len) in Hu2. rewrite bytes_app in Hu2.
      destruct (base.decide (unused_data o1 = "")) as [->|Hne]; [done|]. apply len_pos in Hne. lia.
    + rewrite (zd_more _ _ rest _ _ Ef zd_fresh E1 Hr) in Hd. destruct (decompress o1 rest) as [[o2 z]|] eqn:E2; [|done].
      injection Hd as -> <-. destruct (zd_unused _ _ _ _ E2 E1 Ho) as (used & Hne & Hrest). rewrite Hu in Hrest.
      apply (f_equal len) in Hrest. rewrite bytes_app in Hrest. apply len_pos in Hne. lia.
  - rewrite (zd_error _ _ rest Ef zd_fresh) in Hd. done.
Qed.

Lemma fed_ended c o p pending o1 x : fed c o p -> pending <> "" -> decompress o pending = Some (o1, x) -> eof o1 = true ->
  exists used, used <> "" /\ pending = used +:+ unused_data o1 /\ whole (c +:+ used) (p +:+ x).
Proof.
  intros Hfed Hp Hd Ho. destruct (zd_unused _ _ _ _ Hd (fed_open _ _ _ Hfed) Ho) as (used & Hne & Hpend).
  exists used. split_and!; try done. pose proof (fed_decompress _ _ _ _ Hfed Hp) as Hall. rewrite Hd, Hpend, <- append_assoc in Hall.
  eapply exact_frame; [exact Hall|done|done|]. intros [_ E]%app_empty. done.
Qed.

Lemma concat_app_list {A} (l l' : list (list A)) : concat (l ++ l') = concat l ++ concat l'.
Proof. apply List.concat_app. Qed.

(** ** Frames *)
Definition frame_ok (l : Lineage) (f : string) (es : list RawEnvelope) (l' : Lineage) : Prop :=
  exists x, whole f x /\ validate_frame f x identity l = Ok (Some (es, l')).

Lemma step_of_whole l f x u : whole f x ->
  scan_step identity l (f +:+ u) = (let! v := validate_frame f x identity l in Ok ((fun r => (len f, r.1, r.2)) <$> v)).
Proof.
  intros (Hf & o & Hd & Ho & Hu). unfold scan_step. destruct (zd_ended _ _ u _ _ Hd zd_fresh Ho) as (o2 & -> & -> & Hu2).
  rewrite Hu in Hu2. change ("" +:+ u) with u in Hu2. rewrite Hu2. cbn [negb]. replace (len (f +:+ u) - len u) with (len f) by (rewrite bytes_app; lia).
  rewrite (proj2 (Z.leb_gt _ _)) by (by apply len_pos). by rewrite up_to_app.
Qed.

Lemma step_of_fed l c o p : fed c o p -> c <> "" -> scan_step identity l c = Ok None.
Proof. intros [(-> & _)|(_ & Hd & Ho)] Hc; [done|]. unfold scan_step. by rewrite Hd, Ho. Qed.

Lemma step_of_error l c u : decompress decompressobj c = None -> scan_step identity l (c +:+ u) = Ok None.
Proof. intros Hd. unfold scan_step. by rewrite (zd_error _ _ u Hd zd_fresh). Qed.

Lemma scan_step_inv l bytes n es l' : scan_step identity l bytes = Ok (Some (n, es, l')) ->
  exists f rest, bytes = f +:+ rest /\ n = len f /\ frame_ok l f es l'.
Proof.
  unfold scan_step. destruct (decompress _ _) as [[o x]|] eqn:Hd; [|done]. destruct (eof o) eqn:Ho; [|done]. cbn [negb].
  destruct (_ <=? 0); [done|]. intros Hv. destruct (zd_unused _ _ _ _ Hd zd_fresh Ho) as (used & Hne & ->).
  replace (len (used +:+ unused_data o) - len (unused_data o)) with (len used) in Hv by (rewrite bytes_app; lia).
  rewrite up_to_app in Hv. apply rbind_ok in Hv as ([[es' l'']|] & Hv & [=]). subst. exists used, (unused_data o).
  split_and!; [done|done|]. exists x. split; [by eapply exact_frame|done].
Qed.

(** A sequence of frames, each after the other. *)
Inductive frames_ok : Lineage -> list (string * list RawEnvelope) -> Lineage -> Prop :=
| frames_nil l : frames_ok l [] l
| frames_snoc l fs l1 f es l2 : frames_ok l fs l1 -> frame_ok l1 f es l2 -> frames_ok l (fs ++ [(f, es)]) l2.

Definition bytes_of (fs : list (string * list RawEnvelope)) : string := String.concat "" fs.*1.
Lemma bytes_snoc fs f es : bytes_of (fs ++ [(f, es)]) = bytes_of fs +:+ f.
Proof. unfold bytes_of. rewrite fmap_app. apply concat_app. Qed.

(** How the scan ends at the bytes after the last frame. *)
Definition scan_end (l : Lineage) (rest : string) : result bool :=
  if String.eqb rest "" then Ok true
  else let! v := scan_step identity l rest in Ok (match v with None => true | Some _ => false end).

Fixpoint records (start : Z) (fs : list (string * list RawEnvelope)) : list ValidatedRecoveryFrame :=
  match fs with
  | [] => []
  | (f, es) :: fs => {| start_offset := start; end_offset := start + len f; envelopes := es |} :: records (start + len f) fs
  end.

Lemma records_snoc start fs f es : records start (fs ++ [(f, es)]) = records start fs ++
  [{| start_offset := start + len (bytes_of fs); end_offset := start + len (bytes_of fs) + len f; envelopes := es |}].
Proof.
  revert start. induction fs as [|[g gs] fs IH]; intros start; cbn [records app].
  - change (len (bytes_of [])) with 0. by rewrite Z.add_0_r.
  - rewrite IH. assert (Hb : bytes_of ((g, gs) :: fs) = g +:+ bytes_of fs).
    { change ((g, gs) :: fs) with ([(g, gs)] ++ fs). unfold bytes_of. rewrite fmap_app, concat_app. done. }
    rewrite Hb, bytes_app. do 4 f_equal; lia.
Qed.

Lemma frame_envelopes l f es l' : frame_ok l f es l' -> es <> [] /\ present (l_worker l') = true.
Proof.
  intros (x & _ & Hv). unfold validate_frame in Hv. destruct (get_frame_parameters f) as [[c n]|]; [|done].
  destruct (_ || _); [done|]. destruct (_decode_valid_frame_rows x identity l) as [[es1 l1]|e] eqn:Ed; [|by destruct (caught e)].
  injection Hv as -> ->. unfold _decode_valid_frame_rows in Ed. apply raise_if_ok in Ed as [Hend Ed].
  apply raise_if_ok in Ed as [Hseg Ed]. apply rbind_ok in Ed as (es' & Ht & Ed). apply rbind_ok in Ed as (l1 & _ & Ed).
  apply raise_if_ok in Ed as [Ha [= -> ->]]. split; [|by destruct (l_worker l')].
  intros ->. apply orb_false_iff in Hend as [Hne Hsuf]. apply negb_false_iff in Hsuf.
  destruct (removelast (split_on (chr 10) x)) as [|s ss] eqn:Er; [|apply rbind_ok in Ht as (? & _ & Ht); by apply rbind_ok in Ht as (? & _ & Ht)].
  apply suffix_chars in Hsuf as [t Ht']. assert (x = String.string_of_list_ascii t +:+ newline) as -> by (apply chars_inj; by rewrite chars_app, chars_string).
  revert Er. generalize (String.string_of_list_ascii t). intros u. clear. induction u as [|c u IH]; [done|].
  change (split_on (chr 10) (String c u +:+ newline)) with (split_on (chr 10) (String c (u +:+ newline))). cbn [split_on].
  destruct (Ascii.eqb c (chr 10)); [by destruct (split_on _ _)|]. destruct (split_on (chr 10) (u +:+ newline)) as [|a [|b m]]; [done| |done].
  by specialize (IH eq_refl).
Qed.

Lemma frame_nonempty l f es l' : frame_ok l f es l' -> f <> "".
Proof. by intros (x & [Hf _] & _). Qed.

Lemma step_frame l f es l' u : frame_ok l f es l' -> scan_step identity l (f +:+ u) = Ok (Some (len f, es, l')).
Proof. intros (x & Hw & Hv). by rewrite (step_of_whole _ _ _ _ Hw), Hv. Qed.

Lemma frames_length l fs l' : frames_ok l fs l' -> Z.of_nat (length fs) <= len (bytes_of fs).
Proof.
  induction 1 as [l|l fs l1 f es l2 _ IH Hf]; [done|]. rewrite bytes_snoc, bytes_app, length_app. cbn [length].
  pose proof (len_pos _ (frame_nonempty _ _ _ _ Hf)). lia.
Qed.

(** The loop reads the frames one by one. *)
Lemma scan_loop_frames l fs l' rest fuel : frames_ok l fs l' ->
  scan_loop (length fs + fuel) identity (bytes_of fs +:+ rest) 0 l []
  = scan_loop fuel identity (bytes_of fs +:+ rest) (len (bytes_of fs)) l' (records 0 fs).
Proof.
  intros Hfs. revert rest fuel. induction Hfs as [l|l fs l1 f es l2 Hfs IH Hf]; intros rest fuel; [done|].
  rewrite bytes_snoc, append_assoc, length_app. replace (length fs + length [(f, es)] + fuel)%nat with (length fs + S fuel)%nat by (cbn; lia).
  rewrite IH. cbn [scan_loop]. pose proof (len_pos _ (frame_nonempty _ _ _ _ Hf)) as Hpos. pose proof (bytes_nonneg rest).
  pose proof (bytes_nonneg (bytes_of fs)). rewrite (proj2 (Z.ltb_lt _ _)) by (rewrite !bytes_app; lia).
  rewrite from_offset_app, (step_frame _ _ _ _ _ Hf). cbn [rbind]. unfold frame_init.
  rewrite (proj2 (Z.ltb_ge _ _)), (proj2 (Z.leb_gt _ _)) by lia. cbn [orb raise_if].
  destruct (frame_envelopes _ _ _ _ Hf) as [Hes _]. rewrite bool_decide_eq_false_2 by (by destruct es). cbn [raise_if rbind].
  by rewrite records_snoc, !bytes_app.
Qed.

Lemma scan_loop_ends l rest pre fs fuel : scan_end l rest <> Ok false ->
  scan_loop (S fuel) identity (pre +:+ rest) (len pre) l fs = (let! _ := scan_end l rest in Ok (len pre, fs)).
Proof.
  unfold scan_end. cbn [scan_loop]. intros He. pose proof (bytes_nonneg pre). destruct (String.eqb_spec rest "") as [->|Hr].
  - by rewrite append_nil, (proj2 (Z.ltb_ge _ _)) by lia.
  - pose proof (len_pos _ Hr). rewrite (proj2 (Z.ltb_lt _ _)) by (rewrite bytes_app; lia). rewrite from_offset_app.
    by destruct (scan_step identity l rest) as [[]|].
Qed.

(** A source that is cut into frames and an end is scanned as such. *)
Lemma scan_cut fs l rest : frames_ok no_lineage fs l -> scan_end l rest <> Ok false ->
  scan_loop (S (String.length (bytes_of fs +:+ rest))) identity (bytes_of fs +:+ rest) 0 no_lineage []
  = (let! _ := scan_end l rest in Ok (len (bytes_of fs), records 0 fs)).
Proof.
  intros Hfs He. pose proof (frames_length _ _ _ Hfs) as Hl. pose proof (bytes_app (bytes_of fs) rest) as Hlen.
  pose proof (bytes_nonneg rest). set (n := String.length (bytes_of fs +:+ rest)) in *.
  assert (length fs <= n)%nat by (unfold StreamFile.len at 1 in Hlen; fold n in Hlen; lia).
  replace (S n) with (length fs + S (n - length fs))%nat by lia. rewrite (scan_loop_frames _ _ _ _ _ Hfs).
  by apply scan_loop_ends.
Qed.

(** ** Chunks *)
(** The state of a chunked scan that has read [t]. *)
Record counted (t : string) (fs : list (string * list RawEnvelope)) (s : ScanState) : Prop := {
  ct_frames : frames_ok no_lineage fs (lineage s);
  ct_source : source_digest s = t; ct_size : source_size s = len t;
  ct_prefix : prefix_digest s = bytes_of fs; ct_prefix_size : prefix_size s = len (bytes_of fs);
  ct_count : s_frame_count s = Z.of_nat (length fs);
  ct_facts : facts s = extend new_builder (concat fs.*2)
}.
Definition reading (t pending : string) (s : ScanState) : Prop := exists fs,
  counted t fs s /\ invalid s = false /\ fed (compressed s) (decompressor s) (plain s) /\
  t = bytes_of fs +:+ compressed s +:+ pending /\ suffix_digest s = "" /\ suffix_size s = 0.
Definition broken (t : string) (s : ScanState) : Prop := exists fs bad,
  counted t fs s /\ invalid s = true /\ bad <> "" /\ (forall u, scan_step identity (lineage s) (bad +:+ u) = Ok None) /\
  t = bytes_of fs +:+ bad /\ suffix_digest s = bad /\ suffix_size s = len bad.
(** The scan has raised [e]. *)
Definition raised (t : string) (e : exn) : Prop := exists fs l bad,
  frames_ok no_lineage fs l /\ t = bytes_of fs +:+ bad /\ bad <> "" /\ forall u, scan_step identity l (bad +:+ u) = Err e.

Lemma extend_app b es es' : extend b (es ++ es') = extend (extend b es) es'.
Proof. apply foldl_app. Qed.

Lemma pending_loop_ok fuel : forall t pending s, (length (chars_of pending) < fuel)%nat -> reading t pending s ->
  let '(s', r) := pending_loop fuel identity pending s in
  match r with Ok _ => reading t "" s' \/ broken t s' | Err e => raised t e end.
Proof.
  induction fuel as [|fuel IH]; intros t pending s Hfuel (fs & Hc & Hi & Hfed & Ht & Hsd & Hss); [lia|]. cbn [pending_loop].
  destruct (String.eqb_spec pending "") as [->|Hp]; [left; by exists fs|].
  destruct (decompress (decompressor s) pending) as [[obj x]|] eqn:Hd.
  - destruct (eof obj) eqn:Ho; cbn [negb].
    + destruct (fed_ended _ _ _ _ _ _ Hfed Hp Hd Ho) as (used & Hne & Hpend & Hw). cbn [plain compressed lineage set_object].
      cbv zeta. replace (len pending - len (unused_data obj)) with (len used) by (rewrite Hpend, bytes_app; lia).
      replace (up_to (len used) pending) with used by (by rewrite Hpend, up_to_app). set (f := compressed s +:+ used) in *. set (y := plain s +:+ x) in *.
      assert (Hbytes : t = bytes_of fs +:+ f +:+ unused_data obj) by (unfold f; by rewrite Ht, append_assoc, <- Hpend).
      assert (Hf : f <> "") by apply Hw.
      destruct (validate_frame f y identity (lineage s)) as [[[es next]|]|e] eqn:Hv.
      * apply IH.
        { rewrite Hpend, chars_app, length_app in Hfuel. apply (f_equal chars_of) in Hpend. destruct used; [done|]. cbn in Hfuel. lia. }
        exists (fs ++ [(f, es)]). destruct Hc as [C1 C2 C3 C4 C5 C6 C7]. rewrite bytes_snoc. split_and!; cbn; try done.
        -- split; cbn; try done.
           ++ eapply frames_snoc; [done|]. by exists y.
           ++ by rewrite C4, bytes_snoc.
           ++ by rewrite C5, bytes_snoc, bytes_app.
           ++ rewrite C6, length_app. cbn. lia.
           ++ rewrite C7, fmap_app, concat_app_list, extend_app. cbn. by rewrite app_nil_r.
        -- by left.
        -- rewrite Hbytes. by rewrite append_assoc.
      * right. exists fs, (f +:+ unused_data obj). destruct Hc as [C1 C2 C3 C4 C5 C6 C7]. split_and!; cbn; try done.
        -- by apply app_nonempty.
        -- intros u. rewrite append_assoc, (step_of_whole _ _ _ _ Hw), Hv. done.
        -- by rewrite Hsd.
        -- by rewrite Hss.
      * exists fs, (lineage s), (f +:+ unused_data obj). split_and!; [apply Hc|done|by apply app_nonempty|].
        intros u. rewrite append_assoc, (step_of_whole _ _ _ _ Hw), Hv. done.
    + left. exists fs. destruct Hc as [C1 C2 C3 C4 C5 C6 C7]. split_and!; cbn; try done.
      * right. split; [intros [_ E]%app_empty; done|]. by rewrite (fed_decompress _ _ _ _ Hfed Hp), Hd.
      * by rewrite append_nil, Ht.
  - right. exists fs, (compressed s +:+ pending). destruct Hc as [C1 C2 C3 C4 C5 C6 C7]. split_and!; cbn; try done.
    + intros [_ E]%app_empty. done.
    + intros u. apply step_of_error. by rewrite (fed_decompress _ _ _ _ Hfed Hp), Hd.
    + by rewrite Hsd.
    + by rewrite Hss.
Qed.
Definition goes_on (t : string) (s : ScanState) : Prop := reading t "" s \/ broken t s.

Lemma counted_more t fs s u : counted t fs s -> counted (t +:+ u) fs (count_source u s).
Proof. intros [C1 C2 C3 C4 C5 C6 C7]. split; cbn; try done; [by rewrite C2|by rewrite C3, bytes_app]. Qed.

Lemma feed_ok t chunk s : goes_on t s ->
  let '(s', r) := feed identity chunk s in
  match r with Ok _ => goes_on (t +:+ chunk) s' | Err e => raised (t +:+ chunk) e end.
Proof.
  intros Hgo. unfold feed. destruct (String.eqb_spec chunk "") as [->|Hne]; [by rewrite append_nil|].
  destruct Hgo as [(fs & Hc & Hi & Hfed & Ht & Hsd & Hss)|(fs & bad & Hc & Hi & Hb & Hstep & Ht & Hsd & Hss)];
    cbv zeta; change (invalid (count_source chunk s)) with (invalid s); rewrite Hi.
  - apply pending_loop_ok; [rewrite length_chars; lia|]. exists fs. split_and!; try done; [by apply counted_more|].
    cbn. rewrite append_nil in Ht. by rewrite Ht, append_assoc.
  - right. exists fs, (bad +:+ chunk). apply (counted_more _ _ _ chunk) in Hc as [C1 C2 C3 C4 C5 C6 C7].
    split_and!; cbn; try done.
    + by apply app_nonempty.
    + intros u. by rewrite append_assoc.
    + by rewrite Ht, append_assoc.
    + by rewrite Hsd.
    + by rewrite Hss, bytes_app.
Qed.

Lemma raised_more t u e : raised t e -> raised (t +:+ u) e.
Proof.
  intros (fs & l & bad & Hfs & -> & Hb & Hstep). exists fs, l, (bad +:+ u). split_and!; [done|apply append_assoc|by apply app_nonempty|].
  intros v. by rewrite append_assoc.
Qed.

Lemma concat_cons s l : String.concat "" (s :: l) = s +:+ String.concat "" l.
Proof. change (s :: l) with ([s] ++ l). by rewrite concat_app. Qed.

Lemma feed_all_ok chunks : forall t s, goes_on t s ->
  let '(s', r) := feed_all identity chunks s in
  match r with Ok _ => goes_on (t +:+ String.concat "" chunks) s' | Err e => raised (t +:+ String.concat "" chunks) e end.
Proof.
  induction chunks as [|chunk chunks IH]; intros t s Hgo; [by rewrite append_nil|]. cbn [feed_all]. unfold mbind.
  rewrite concat_cons, <- append_assoc. pose proof (feed_ok t chunk s Hgo) as Hf.
  destruct (feed identity chunk s) as [s1 [[]|e]]; [by apply IH|by apply raised_more].
Qed.

Lemma goes_on_start : goes_on "" scan_start.
Proof. left. exists []. split_and!; try done; [split; try done; apply frames_nil|by left]. Qed.

(** ** The records of a scan are made without an error *)
Lemma contiguous_records start fs : contiguous start (records start fs) = Some (start + len (bytes_of fs)).
Proof.
  revert start. induction fs as [|[f es] fs IH]; intros start; cbn [records contiguous].
  - change (len (bytes_of [])) with 0. by rewrite Z.add_0_r.
  - cbn [start_offset end_offset]. rewrite Z.eqb_refl, IH. unfold bytes_of. rewrite fmap_cons, concat_cons, bytes_app. cbn [fst]. f_equal. lia.
Qed.

Lemma frame_scan_ok fs rest : frame_scan_init (len (bytes_of fs +:+ rest)) (len (bytes_of fs)) (records 0 fs)
  = Ok {| source_size_bytes := len (bytes_of fs +:+ rest); valid_prefix_size_bytes := len (bytes_of fs); frames := records 0 fs |}.
Proof.
  unfold frame_scan_init. rewrite contiguous_records, Z.add_0_l, Z.eqb_refl, bytes_app.
  pose proof (bytes_nonneg (bytes_of fs)). pose proof (bytes_nonneg rest).
  rewrite (proj2 (Z.ltb_ge (len (bytes_of fs) + len rest) 0)) by lia. rewrite (proj2 (Z.leb_le 0 (len (bytes_of fs)))) by lia.
  by rewrite (proj2 (Z.leb_le (len (bytes_of fs)) (len (bytes_of fs) + len rest))) by lia.
Qed.

Lemma records_envelopes start fs : envelopes <$> records start fs = fs.*2.
Proof. revert start. induction fs as [|[f es] fs IH]; intros start; [done|]. cbn [records fmap list_fmap]. by rewrite IH. Qed.
Lemma records_length start fs : length (records start fs) = length fs.
Proof. revert start. induction fs as [|[f es] fs IH]; intros start; [done|]. cbn. by rewrite IH. Qed.

Lemma extend_some b es : present (b_first b) = present (b_last b) ->
  present (b_first (extend b es)) = present (b_last (extend b es)) /\
  present (b_last (extend b es)) = present (b_last b) || negb (bool_decide (length es = 0%nat)).
Proof.
  revert b. induction es as [|e es IH]; intros b Hb; [by rewrite orb_false_r|].
  cbn [extend foldl]. destruct (IH (extend_one b e)) as [H2 H3]; [cbn; by destruct (b_first b)|].
  unfold extend in *. split; [done|]. rewrite H3. cbn. by rewrite orb_true_r.
Qed.
Lemma freeze_present es : present (freeze (extend new_builder es)) = negb (bool_decide (length es = 0%nat)).
Proof.
  destruct (extend_some new_builder es eq_refl) as [Hb Hl]. change (present (b_last new_builder)) with false in Hl. cbn [orb] in Hl.
  unfold freeze. rewrite <- Hl.
  by destruct (b_first _), (b_last _).
Qed.

Lemma frames_envelopes l fs l' : frames_ok l fs l' -> bool_decide (length (concat fs.*2) = 0%nat) = (Z.of_nat (length fs) =? 0).
Proof.
  destruct 1 as [|l fs l1 f es l2 _ Hf]; [done|]. destruct (frame_envelopes _ _ _ _ Hf) as [Hes _].
  rewrite fmap_app, concat_app_list, !length_app. cbn. rewrite app_nil_r. destruct es; [done|]. cbn.
  rewrite bool_decide_eq_false_2 by lia. symmetry. apply Z.eqb_neq. lia.
Qed.

(** The report of a whole scan as a chunked scan gives it. *)
Definition streaming_of (sha256 : string -> string) (source : string) (scan : RecoveryFrameScan) : StreamingRecoveryScan := {|
  ss_source_size_bytes := source_size_bytes scan; source_sha256 := sha256 source;
  ss_valid_prefix_size_bytes := valid_prefix_size_bytes scan;
  valid_prefix_sha256 := sha256 (up_to (valid_prefix_size_bytes scan) source);
  ss_invalid_suffix_size_bytes := invalid_suffix_size_bytes scan;
  invalid_suffix_sha256 := if invalid_suffix_size_bytes scan =? 0 then None
    else Some (sha256 (from_offset (valid_prefix_size_bytes scan) source));
  frame_count := Z.of_nat (length (frames scan));
  row_facts := freeze (extend new_builder (concat (envelopes <$> frames scan))) |}.

Lemma streaming_ok sha256 fs l rest : frames_ok no_lineage fs l ->
  let source := bytes_of fs +:+ rest in
  streaming_init (streaming_of sha256 source {| source_size_bytes := len source; valid_prefix_size_bytes := len (bytes_of fs);
    frames := records 0 fs |})
  = Ok {| ss_source_size_bytes := len source; source_sha256 := sha256 source; ss_valid_prefix_size_bytes := len (bytes_of fs);
      valid_prefix_sha256 := sha256 (bytes_of fs); ss_invalid_suffix_size_bytes := len rest;
      invalid_suffix_sha256 := if len rest =? 0 then None else Some (sha256 rest); frame_count := Z.of_nat (length fs);
      row_facts := freeze (extend new_builder (concat fs.*2)) |}.
Proof.
  intros Hfs. cbv zeta. unfold streaming_of, invalid_suffix_size_bytes. cbn [source_size_bytes valid_prefix_size_bytes frames].
  rewrite up_to_app, from_offset_app, records_envelopes, records_length, bytes_app.
  replace (len (bytes_of fs) + len rest - len (bytes_of fs)) with (len rest) by lia. unfold streaming_init.
  cbn [ss_source_size_bytes ss_valid_prefix_size_bytes ss_invalid_suffix_size_bytes invalid_suffix_sha256 frame_count row_facts].
  rewrite Z.eqb_refl, freeze_present, (frames_envelopes _ _ _ Hfs), negb_involutive, eqb_reflx. by destruct (len rest =? 0).
Qed.
End Facts.
