(* ===== verification/RecoveryScan.v ===== *)
(** What the scan of a raw part finds: the chunked scan is the whole scan, the frames found
    are well formed and as many as possible, and after a crash they are exactly the frames
    whose writing had returned. *)
From S2P Require Import Prelude PyDecimal Domain StorageModels PyText CatalogJson PyTime PartPath EnvelopeJson FrameScan ScanFacts.
From S2P Require StreamFile.

(** ** Lines *)
Lemma split_lines (lines : list string) : Forall (fun s => has_char (chr 10) s = false) lines ->
  split_on (chr 10) (String.concat "" ((fun s => s +:+ newline) <$> lines)) = lines ++ [""].
Proof.
  induction 1 as [|s lines Hs _ IH]; [done|]. rewrite fmap_cons, concat_cons, append_assoc.
  revert Hs IH. generalize (String.concat "" ((fun s => s +:+ newline) <$> lines)). intros t Hs IH.
  induction s as [|c s IHs]; [change ("" +:+ newline +:+ t) with (String (chr 10) t); cbn [split_on]; by rewrite Ascii.eqb_refl, IH|].
  unfold has_char in Hs. cbn in Hs. apply orb_false_iff in Hs as [Hc Hs].
  change (String c s +:+ newline +:+ t) with (String c (s +:+ newline +:+ t)). cbn [split_on].
  rewrite Ascii.eqb_sym, Hc. by rewrite (IHs Hs).
Qed.

(** Every text is cut into lines and what follows the last line break. *)
Lemma split_concat x : String.concat "" ((fun s => s +:+ newline) <$> removelast (split_on (chr 10) x)) +:+ List.last (split_on (chr 10) x) "" = x /\
  Forall (fun s => has_char (chr 10) s = false) (split_on (chr 10) x) /\ split_on (chr 10) x <> [].
Proof.
  induction x as [|c x (IH1 & IH2 & IH3)]; [split_and!; [done|by repeat constructor|done]|]. cbn [split_on].
  destruct (Ascii.eqb_spec c (chr 10)) as [->|Hc]; destruct (split_on (chr 10) x) as [|s l] eqn:E; try done.
  - split_and!; [|by constructor|done]. change (removelast ("" :: s :: l)) with ("" :: removelast (s :: l)).
    rewrite fmap_cons, concat_cons, append_assoc. change (List.last ("" :: s :: l) "") with (List.last (s :: l) ""). by rewrite IH1.
  - apply Forall_cons in IH2 as [Hs Hl]. split_and!; [| |done].
    + destruct l as [|t l]; [cbn in *; change ("" +:+ s) with s in IH1; by subst x|].
      change (removelast (String c s :: t :: l)) with (String c s :: removelast (t :: l)).
      change (removelast (s :: t :: l)) with (s :: removelast (t :: l)) in IH1. rewrite !fmap_cons, !concat_cons, !append_assoc in *.
      change (List.last (String c s :: t :: l) "") with (List.last (s :: t :: l) ""). by rewrite <- IH1.
    + constructor; [|done]. unfold has_char in *. cbn. rewrite Hs, orb_false_r. apply not_true_iff_false. rewrite Ascii.eqb_eq. congruence.
Qed.

Section Scan.
Context `{JsonCodec} `{ZstdLaws}.

(** Every source is cut into frames and an end. *)
Lemma feed_all_cut identity chunks s r : feed_all identity chunks scan_start = (s, r) ->
  exists fs l rest, String.concat "" chunks = bytes_of fs +:+ rest /\ frames_ok identity no_lineage fs l /\
  scan_end identity l rest <> Ok false /\
  match r with
  | Ok _ => scan_end identity l rest = Ok true /\ counted identity (String.concat "" chunks) fs s /\
      (invalid s = false /\ rest = compressed s /\ suffix_digest s = "" /\ suffix_size s = 0 \/
       invalid s = true /\ suffix_digest s = rest /\ suffix_size s = len rest)
  | Err e => scan_end identity l rest = Err e
  end.
Proof.
  intros Hf. pose proof (feed_all_ok identity chunks "" scan_start (goes_on_start identity)) as Hok.
  rewrite Hf in Hok. change ("" +:+ String.concat "" chunks) with (String.concat "" chunks) in Hok. destruct r as [[]|e].
  - destruct Hok as [(fs & Hc & Hi & Hfed & Ht & Hsd & Hss)|(fs & bad & Hc & Hi & Hb & Hstep & Ht & Hsd & Hss)].
    + assert (He : scan_end identity (lineage s) (compressed s) = Ok true).
      { unfold scan_end. destruct (String.eqb_spec (compressed s) "") as [E|E]; [done|]. by rewrite (step_of_fed _ _ _ _ _ Hfed E). }
      exists fs, (lineage s), (compressed s). rewrite append_nil in Ht. split_and!; try done; [apply Hc|by rewrite He|by left].
    + assert (He : scan_end identity (lineage s) bad = Ok true).
      { unfold scan_end. destruct (String.eqb_spec bad "") as [E|E]; [done|]. specialize (Hstep ""). rewrite append_nil in Hstep. by rewrite Hstep. }
      exists fs, (lineage s), bad. split_and!; try done; [apply Hc|by rewrite He|by right].
  - destruct Hok as (fs & l & bad & Hfs & Ht & Hb & Hstep). exists fs, l, bad.
    assert (He : scan_end identity l bad = Err e).
    { unfold scan_end. destruct (String.eqb_spec bad "") as [E|E]; [done|]. specialize (Hstep ""). rewrite append_nil in Hstep. by rewrite Hstep. }
    split_and!; try done. by rewrite He.
Qed.

Lemma scan_of_cut path identity fs l rest : _parse_source_path path = Ok identity -> frames_ok identity no_lineage fs l ->
  scan_end identity l rest <> Ok false ->
  scan_recovery_frames (bytes_of fs +:+ rest) path = (let! _ := scan_end identity l rest in
    Ok {| source_size_bytes := len (bytes_of fs +:+ rest); valid_prefix_size_bytes := len (bytes_of fs); frames := records 0 fs |}).
Proof.
  intros Hpath Hfs He. unfold scan_recovery_frames. rewrite Hpath. cbn [rbind]. rewrite (scan_cut _ _ _ _ Hfs He).
  destruct (scan_end _ _ _); cbn [rbind]; [by apply frame_scan_ok|done].
Qed.

Lemma streaming_init_inv x y : streaming_init x = Ok y -> x = y.
Proof. unfold streaming_init. intros Hx. do 3 apply raise_if_ok in Hx as [_ Hx]. by injection Hx. Qed.

(** Reading a part in chunks is reading it at once.  For every division of a source into
    chunks, empty ones included, the chunked scan gives exactly the report of the whole scan:
    sizes, digests of the source, of the valid prefix and of the suffix, the number of
    frames and the facts about their rows; and it raises what the whole scan raises.  In
    particular neither can fail on its own consistency checks. *)
Lemma chunked_scan_exact (sha256 : string -> string) (chunks : list string) (path : string) :
  _scan_recovery_chunks sha256 chunks path
  = (let! scan := scan_recovery_frames (String.concat "" chunks) path in
     Ok (streaming_of sha256 (String.concat "" chunks) scan)).
Proof.
  unfold _scan_recovery_chunks. destruct (_parse_source_path path) as [identity|e] eqn:Hpath;
    [|unfold scan_recovery_frames; by rewrite Hpath]. cbn [rbind].
  destruct (feed_all identity chunks scan_start) as [s r] eqn:Hf.
  destruct (feed_all_cut _ _ _ _ Hf) as (fs & l & rest & Hsrc & Hfs & He & Hr).
  rewrite Hsrc, (scan_of_cut _ _ _ _ _ Hpath Hfs He). destruct r as [[]|e]; [|by rewrite Hr].
  destruct Hr as (-> & [C1 C2 C3 C4 C5 C6 C7] & Hrest). cbn [rbind].
  pose proof (streaming_ok identity sha256 fs l rest Hfs) as Hs. cbv zeta in Hs.
  rewrite (streaming_init_inv _ _ Hs). rewrite <- Hs, (streaming_init_inv _ _ Hs).
  unfold finish. destruct Hrest as [(Hi & -> & Hsd & Hss)|(Hi & Hsd & Hss)]; rewrite Hi; cbn [negb andb].
  - destruct (String.eqb_spec (compressed s) "") as [Ec|Ec]; cbn [negb];
      cbn [count_suffix source_size source_digest prefix_size prefix_digest suffix_size suffix_digest s_frame_count facts];
      rewrite C2, C3, C4, C5, C6, C7, Hss, Hsd, ?Hsrc, ?Z.add_0_l.
    + by rewrite Ec.
    + done.
  - by rewrite C2, C3, C4, C5, C6, C7, Hss, Hsd, Hsrc.
Qed.

(** ** The rows of the frames *)
(** The rows of a part: each names the part's identity and hour, all come from one worker
    with one configuration, and their sequence numbers increase. *)
Definition row_of_part (identity : _SourcePathIdentity) (e : RawEnvelope) : Prop :=
  exchange (base e) = sp_exchange identity /\ market (base e) = sp_market identity /\
  instrument_key (base e) = sp_instrument_key identity /\ logical_stream (base e) = sp_logical_stream identity /\
  exists h, received_hour (received_at_ns e) = Some h /\ split_on slash (join_with "/" (hour_segments h)) = storage_hour identity.
Definition rows_of_part (identity : _SourcePathIdentity) (es : list RawEnvelope) : Prop :=
  Forall (row_of_part identity) es /\ StronglySorted Z.lt (writer_sequence <$> es) /\
  exists worker config, Forall (fun e => worker_instance_id e = worker /\ config_sha256 e = config) es.

Lemma check_row_ok identity l e l' : check_row identity l e = Ok l' <->
  row_of_part identity e /\ (forall worker, l_worker l = Some worker -> worker_instance_id e = worker /\ l_config l = Some (config_sha256 e)) /\
  (forall q, l_sequence l = Some q -> q < writer_sequence e) /\
  l' = {| l_worker := Some (worker_instance_id e); l_config := Some (config_sha256 e); l_sequence := Some (writer_sequence e) |}.
Proof.
  unfold check_row, row_of_part, same_hour, _utc_storage_hour. rewrite raise_if_ok, rbind_ok, negb_false_iff, bool_decide_eq_true.
  destruct (received_hour (received_at_ns e)) as [h|]; [|naive_solver]. setoid_rewrite raise_if_ok. setoid_rewrite negb_false_iff.
  setoid_rewrite bool_decide_eq_true. setoid_rewrite rbind_ok. split.
  - intros (Hid & u & [Hhour _] & [worker config] & Hw & Hq). apply raise_if_ok in Hq as [Hq [= <-]].
    injection Hid as H2 H3 H4 H5. split_and!; try done; [by exists h| | |].
    + intros w Ew. rewrite Ew in Hw. apply raise_if_ok in Hw as [Hw _]. apply orb_false_iff in Hw as [Hw Hc].
      apply negb_false_iff, String.eqb_eq in Hw. by apply negb_false_iff, bool_decide_eq_true in Hc.
    + intros q Eq. rewrite Eq in Hq. lia.
    + destruct (l_worker l) as [w|]; [|by injection Hw as <- <-]. apply raise_if_ok in Hw as [Hw [= <- <-]].
      apply orb_false_iff in Hw as [Hw Hc]. apply negb_false_iff, String.eqb_eq in Hw. apply negb_false_iff, bool_decide_eq_true in Hc. by rewrite Hw, Hc.
  - intros ((H2 & H3 & H4 & H5 & h' & [= <-] & Hhour) & Hworker & Hq & ->). rewrite H2, H3, H4, H5. split; [done|].
    exists tt. split; [done|]. exists (worker_instance_id e, Some (config_sha256 e)). split.
    + destruct (l_worker l) as [w|]; [|done]. destruct (Hworker w eq_refl) as [<- ->]. by rewrite String.eqb_refl, bool_decide_eq_true_2.
    + apply raise_if_ok. split; [|done]. destruct (l_sequence l); [|done]. specialize (Hq _ eq_refl). lia.
Qed.

(** What a lineage demands of the rows that follow. *)
Definition follows (l : Lineage) (es : list RawEnvelope) : Prop :=
  (forall worker, l_worker l = Some worker -> Forall (fun e => worker_instance_id e = worker /\ l_config l = Some (config_sha256 e)) es) /\
  (forall q, l_sequence l = Some q -> Forall (fun n => q < n) (writer_sequence <$> es)).

Lemma check_rows_ok identity es : forall l, (exists l', check_rows identity l es = Ok l') <-> rows_of_part identity es /\ follows l es.
Proof.
  induction es as [|e es IH]; intros l.
  { split; [|intros _; by exists l]. intros _. unfold rows_of_part, follows. split_and!; try constructor; try done. by exists "", "". }
  cbn [check_rows]. setoid_rewrite rbind_ok. split.
  - intros (l' & l1 & H2 & H3). apply check_row_ok in H2 as (Hrow & Hw & Hq & ->).
    destruct (proj1 (IH _) (ex_intro _ _ H3)) as [(Hrows & Hsorted & _) [Hw1 Hq1]]. specialize (Hw1 _ eq_refl). specialize (Hq1 _ eq_refl).
    assert (Hsame : Forall (fun e' => worker_instance_id e' = worker_instance_id e /\ config_sha256 e' = config_sha256 e) es).
    { eapply Forall_impl; [exact Hw1|]. cbn. intros e' [? [= ?]]. done. }
    split; [split_and!; [by constructor|by constructor|exists (worker_instance_id e), (config_sha256 e); by constructor]|].
    split.
    + intros worker E. destruct (Hw _ E) as [Hw2 Hc2]. constructor; [done|]. eapply Forall_impl; [exact Hsame|]. cbn. intros e' [-> ->]. done.
    + intros q E. constructor; [by apply Hq|]. eapply Forall_impl; [exact Hq1|]. cbn. intros n Hn. specialize (Hq _ E). lia.
  - intros [(Hrows & Hsorted & worker & config & Hsame) [Hw Hq]]. cbn in Hsorted.
    apply Forall_cons in Hrows as [Hrow Hrows]. apply StronglySorted_inv in Hsorted as [Hsorted Hlt]. apply Forall_cons in Hsame as [[H2 H3] Hsame].
    set (l1 := {| l_worker := Some (worker_instance_id e); l_config := Some (config_sha256 e); l_sequence := Some (writer_sequence e) |}).
    destruct (proj2 (IH l1)) as [l' Hl'].
    { split; [split_and!; [done|done|by exists worker, config]|]. split.
      - intros w [= <-]. eapply Forall_impl; [exact Hsame|]. cbn. intros e' [-> ->]. by rewrite H2, H3.
      - by intros q [= <-]. }
    exists l', l1. split; [|done]. apply check_row_ok. split_and!; try done.
    + intros w E. specialize (Hw _ E). by apply Forall_cons in Hw as [? _].
    + intros q E. specialize (Hq _ E). by apply Forall_cons in Hq as [? _].
Qed.

Lemma check_rows_app identity es es' l : check_rows identity l (es ++ es') = (let! l1 := check_rows identity l es in check_rows identity l1 es').
Proof. revert l. induction es as [|e es IH]; intros l; [done|]. cbn. destruct (check_row identity l e); [apply IH|done]. Qed.

Lemma present_lineage identity l e es l' : check_rows identity l (e :: es) = Ok l' ->
  present (l_worker l') = true /\ present (l_config l') = true /\ present (l_sequence l') = true.
Proof.
  revert l e. induction es as [|e' es IH]; intros l e Hc; cbn [check_rows] in Hc; apply rbind_ok in Hc as (l1 & Hrow & Hc).
  - injection Hc as <-. apply check_row_ok in Hrow as (_ & _ & _ & ->). done.
  - by apply (IH l1 e').
Qed.

Lemma traverse_forall2 {A B} (f : A -> result B) l bs : traverse f l = Ok bs <-> Forall2 (fun a b => f a = Ok b) l bs.
Proof.
  revert bs. induction l as [|a l IH]; intros bs; cbn [traverse].
  - split; [intros [= <-]; constructor|by intros ->%Forall2_nil_inv_l].
  - rewrite rbind_ok. setoid_rewrite rbind_ok. setoid_rewrite IH. split.
    + intros (b & Hb & bs' & Hbs & [= <-]). by constructor.
    + intros (b & bs' & Hb & Hbs & ->)%Forall2_cons_inv_l. eauto.
Qed.

(** Lines of envelopes are decoded. *)
Lemma lines_decoded identity l lines es l' : lines <> [] -> Forall (fun s => has_char (chr 10) s = false /\ s <> "") lines ->
  Forall2 (fun s e => decode_envelope_jsonl (s +:+ newline) = Ok e) lines es -> check_rows identity l es = Ok l' ->
  String.concat "" ((fun s => s +:+ newline) <$> lines) <> "" /\
  _decode_valid_frame_rows (String.concat "" ((fun s => s +:+ newline) <$> lines)) identity l = Ok (es, l').
Proof.
  intros Hnil [Hone Hne]%Forall_and Ht%traverse_forall2 Hc. pose proof (split_lines lines Hone) as Hsplit.
  destruct lines as [|s lines] using rev_ind; [done|].
  assert (Hlast : String.concat "" ((fun s => s +:+ newline) <$> lines ++ [s])
    = (String.concat "" ((fun s => s +:+ newline) <$> lines) +:+ s) +:+ newline).
  { rewrite fmap_app, concat_app. cbn. by rewrite append_assoc. }
  assert (Hnonempty : String.concat "" ((fun s => s +:+ newline) <$> lines ++ [s]) <> "").
  { rewrite Hlast. intros [_ E]%app_empty. done. }
  split; [done|]. unfold _decode_valid_frame_rows. rewrite (proj2 (String.eqb_neq _ _) Hnonempty), Hsplit, removelast_last.
  rewrite Hlast, suffix_app, List.last_last. cbn [negb orb raise_if String.eqb].
  replace (existsb _ _) with false.
  - cbn [orb raise_if]. rewrite Ht. cbn [rbind]. rewrite Hc. cbn [rbind].
    destruct es as [|e es]; [apply traverse_forall2, Forall2_length in Ht; rewrite length_app in Ht; cbn in Ht; lia|].
    destruct (present_lineage _ _ _ _ _ Hc) as (-> & -> & ->). done.
  - symmetry. apply not_true_iff_false. intros (u & Hu & E%String.eqb_eq)%existsb_exists. subst u.
    rewrite Forall_forall in Hne. by apply (Hne ""); [apply list_elem_of_In|].
Qed.

(** What is decoded are lines of envelopes. *)
Lemma decoded_lines identity l x es l' : _decode_valid_frame_rows x identity l = Ok (es, l') ->
  exists lines, lines <> [] /\ Forall (fun s => has_char (chr 10) s = false /\ s <> "") lines /\
    x = String.concat "" ((fun s => s +:+ newline) <$> lines) /\
    Forall2 (fun s e => decode_envelope_jsonl (s +:+ newline) = Ok e) lines es /\ check_rows identity l es = Ok l'.
Proof.
  intros Hd. unfold _decode_valid_frame_rows in Hd. apply raise_if_ok in Hd as [Hx Hd]. apply raise_if_ok in Hd as [Hempty Hd].
  apply rbind_ok in Hd as (es' & Ht & Hd). apply rbind_ok in Hd as (l1 & Hl & Hd). apply raise_if_ok in Hd as [_ [= -> ->]].
  apply orb_false_iff in Hx as [Hx _]. apply String.eqb_neq in Hx. apply orb_false_iff in Hempty as [Hlast Hno].
  apply negb_false_iff, String.eqb_eq in Hlast. destruct (split_concat x) as (Hcat & Hnl & Hne).
  rewrite Hlast, append_nil in Hcat. exists (removelast (split_on (chr 10) x)). split_and!; [| |done|by apply traverse_forall2|done].
  - intros E. rewrite E in Hcat. done.
  - apply Forall_forall. intros s Hs. split.
    + rewrite Forall_forall in Hnl. apply Hnl. rewrite (app_removelast_last "" Hne). apply elem_of_app. by left.
    + intros ->. apply not_true_iff_false in Hno. apply Hno, existsb_exists. exists "". split; [by apply list_elem_of_In|done].
Qed.

(** A frame of the part behind the rows [before]: it is whole, with checksum and size, and
    holds lines of envelopes that continue these rows. *)
Definition frame_of_part (identity : _SourcePathIdentity) (before : list RawEnvelope) (f : string) (es : list RawEnvelope) : Prop :=
  exists lines, lines <> [] /\ Forall (fun s => has_char (chr 10) s = false /\ s <> "") lines /\
    let x := String.concat "" ((fun s => s +:+ newline) <$> lines) in
    whole f x /\ get_frame_parameters f = Some (true, len x) /\
    Forall2 (fun s e => decode_envelope_jsonl (s +:+ newline) = Ok e) lines es /\ rows_of_part identity (before ++ es).

Lemma frame_of_part_ok identity before l f es : check_rows identity no_lineage before = Ok l ->
  frame_of_part identity before f es <-> exists l', frame_ok identity l f es l'.
Proof.
  intros Hl. assert (Hrows : rows_of_part identity (before ++ es) <-> exists l', check_rows identity l es = Ok l').
  { transitivity (exists l', check_rows identity no_lineage (before ++ es) = Ok l').
    - rewrite check_rows_ok. unfold follows. naive_solver.
    - by rewrite check_rows_app, Hl. }
  unfold frame_of_part, frame_ok. split.
  - intros (lines & Hne & Hok & Hw & Hp & Hd & [l' Hc]%Hrows). destruct (lines_decoded _ _ _ _ _ Hne Hok Hd Hc) as [_ Hdec].
    exists l'. eexists. split; [exact Hw|]. unfold validate_frame. rewrite Hp. cbn [negb orb]. by rewrite Z.eqb_refl, Hdec.
  - intros (l' & x & Hw & Hv). unfold validate_frame in Hv. destruct (get_frame_parameters f) as [[c n]|]; [|done].
    destruct (_ || _) eqn:Ep; [done|]. apply orb_false_iff in Ep as [Hc%negb_false_iff Hn%negb_false_iff%Z.eqb_eq]. subst c n.
    destruct (_decode_valid_frame_rows x identity l) as [[es1 l1]|e] eqn:Ed; [|by destruct (caught e)]. injection Hv as -> ->.
    apply decoded_lines in Ed as (lines & Hne & Hok & -> & Hd & Hc). exists lines. split_and!; try done. apply Hrows. by exists l'.
Qed.

Lemma traverse_forall {A B} (f : A -> result B) l bs (P : B -> Prop) : traverse f l = Ok bs -> (forall a b, f a = Ok b -> P b) -> Forall P bs.
Proof.
  intros Ht HP. revert bs Ht. induction l as [|a l IH]; intros bs Ht; cbn in Ht; [injection Ht as <-; constructor|].
  apply rbind_ok in Ht as (b & Hb & Ht). apply rbind_ok in Ht as (bs' & Hbs & [= <-]). constructor; eauto.
Qed.

Lemma frame_rows identity l f es l' : frame_ok identity l f es l' ->
  Forall envelope_made es /\ check_rows identity l es = Ok l' /\ exists x, whole f x /\ get_frame_parameters f = Some (true, len x).
Proof.
  intros (x & Hw & Hv). unfold validate_frame in Hv. destruct (get_frame_parameters f) as [[c n]|]; [|done].
  destruct (_ || _) eqn:Ep; [done|]. apply orb_false_iff in Ep as [Hc%negb_false_iff Hn%negb_false_iff%Z.eqb_eq]. subst c n.
  destruct (_decode_valid_frame_rows x identity l) as [[es1 l1]|e] eqn:Ed; [|by destruct (caught e)].
  injection Hv as -> ->. unfold _decode_valid_frame_rows in Ed. do 2 apply raise_if_ok in Ed as [_ Ed].
  apply rbind_ok in Ed as (es' & Ht & Ed). apply rbind_ok in Ed as (l1 & Hl & Ed). apply raise_if_ok in Ed as [_ [= -> ->]].
  split_and!; [|done|by exists x]. eapply traverse_forall; [exact Ht|]. cbn. intros a b. apply decoded_made.
Qed.

Lemma frames_rows identity l fs l' : frames_ok identity l fs l' ->
  Forall envelope_made (concat fs.*2) /\ check_rows identity l (concat fs.*2) = Ok l' /\
  Forall (fun f => exists x, whole f x /\ get_frame_parameters f = Some (true, len x)) fs.*1.
Proof.
  induction 1 as [l|l fs l1 f es l2 _ (IH1 & IH2 & IH3) Hf]; [split_and!; constructor|].
  destruct (frame_rows _ _ _ _ _ Hf) as (H2 & H3 & H4). rewrite !fmap_app, concat_app_list. cbn. rewrite app_nil_r.
  split_and!; [by apply Forall_app|by rewrite check_rows_app, IH2|apply Forall_app; split; [done|by constructor]].
Qed.

Lemma frames_of_part identity fs l : frames_ok identity no_lineage fs l ->
  forall pre f es post, fs = pre ++ (f, es) :: post -> frame_of_part identity (concat pre.*2) f es.
Proof.
  remember no_lineage as l0 eqn:El. induction 1 as [l|l fs l1 f es l2 Hfs IH Hf]; intros pre g gs post E; [by destruct pre|].
  subst l. destruct post as [|q post] using rev_ind.
  - apply app_inj_tail in E as [-> [= -> ->]]. destruct (frames_rows _ _ _ _ Hfs) as (_ & Hc & _).
    apply (frame_of_part_ok _ _ l1); [done|by exists l2].
  - rewrite app_comm_cons, app_assoc in E. apply app_inj_tail in E as [-> _]. by eapply IH.
Qed.

(** C16: the scan returns only what belongs to the part, and all of it.  When the scan of a
    source succeeds, the valid prefix is a sequence of frames, as listed, each of which is a
    frame of the part behind those before it: whole, with checksum and size, and holding
    lines of envelopes which continue the rows of the part, its exchange, market,
    instrument, stream and hour, from one worker with one configuration and with increasing
    sequence numbers.  Every envelope passed the checks of its constructors.  And the bytes
    behind the prefix do not begin with a further frame of the part. *)
Theorem scan_recovery_sound (source path : string) (identity : _SourcePathIdentity) (scan : RecoveryFrameScan) :
  _parse_source_path path = Ok identity -> scan_recovery_frames source path = Ok scan ->
  let rows := concat (envelopes <$> frames scan) in
  exists fs rest, source = bytes_of fs +:+ rest /\ frames scan = records 0 fs /\
    valid_prefix_size_bytes scan = len (bytes_of fs) /\ source_size_bytes scan = len source /\
    (forall pre f es post, fs = pre ++ (f, es) :: post -> frame_of_part identity (concat pre.*2) f es) /\
    Forall envelope_made rows /\ rows_of_part identity rows /\
    forall f es more, rest = f +:+ more -> ~ frame_of_part identity rows f es.
Proof.
  intros Hpath Hscan. destruct (feed_all identity [source] scan_start) as [s r] eqn:Hf.
  destruct (feed_all_cut _ _ _ _ Hf) as (fs & l & rest & Hsrc & Hfs & He & _). change (String.concat "" [source]) with source in Hsrc.
  rewrite Hsrc, (scan_of_cut _ _ _ _ _ Hpath Hfs He) in Hscan. apply rbind_ok in Hscan as (b & Hb & [= <-]).
  destruct (frames_rows _ _ _ _ Hfs) as (H2 & H3 & H4). cbv zeta. exists fs, rest. cbn [valid_prefix_size_bytes frames source_size_bytes].
  rewrite records_envelopes. split_and!; try done; [by rewrite Hsrc|by eapply frames_of_part|by apply (check_rows_ok identity _ no_lineage); eexists|].
  intros f es more -> [l' Hfr]%(frame_of_part_ok _ _ _ _ _ H3). destruct He.
  unfold scan_end. rewrite (proj2 (String.eqb_neq _ _)) by (apply app_nonempty; by eapply frame_nonempty).
  by rewrite (step_frame _ _ _ _ _ _ Hfr).
Qed.
End Scan.
