(* ===== verification/CrashRecovery.v ===== *)
(** The writer and recovery composed: a part written by [StreamFile] and left behind by a
    crash is read by the scan of recovery. *)
From S2P Require Import Prelude PyDecimal Domain StorageModels PyText CatalogJson PyTime PartPath EnvelopeJson FrameScan ScanFacts RecoveryScan.
From S2P Require Concrete.
From S2P Require Import StreamFile.

(** The compressor and the decompressor belong together: a frame holds what was compressed,
    with a checksum and its size. *)
Class CompressorLaws `{Compressor} `{Zstd} : Prop := {
  zc_whole p : p <> "" -> whole (compress p) p;
  zc_parameters p : p <> "" -> get_frame_parameters (compress p) = Some (true, len p);
  zc_nonempty p : compress p <> ""
}.

Section Crash.
Context {A : Type} `{EnvelopeCodecLaws A} `{CompressorLaws} {Hzstd : ZstdLaws}.

(** A buffered row is the line of an envelope. *)
Definition row_for (row : BufferedRow) (e : RawEnvelope) : Prop :=
  envelope_made e /\ CatalogJson.plain (wire e) = true /\
  (encode_envelope e = Ok (data row) \/ _encode_trusted_envelope e = Ok (data row)).
Definition rows_for (p : PendingRows) (es : list RawEnvelope) : Prop := es <> [] /\ Forall2 row_for (rows p) es.

Lemma rows_lines rs es : Forall2 row_for rs es -> exists lines, data <$> rs = (fun s => s +:+ newline) <$> lines /\
  Forall (fun s => has_char (chr 10) s = false) lines /\ Forall (fun s => s <> "") lines /\
  traverse (fun segment => decode_envelope_jsonl (segment +:+ newline)) lines = Ok es.
Proof.
  induction 1 as [|r e rs es (He & Hp & Hl) _ (lines & Hd & Hone & Hne & Ht)]; [by exists []|].
  destruct (encoded_text e (data r) Hp Hl) as (s & Hs & Hdec & Hs1). pose proof (line_decoded e (data r) He Hp Hl) as Hline.
  exists (s :: lines). rewrite !fmap_cons, Hd, Hs. split_and!; [done|by constructor| |].
  - constructor; [|done]. intros ->. pose proof empty_no_json as Hempty. by rewrite Hdec in Hempty.
  - cbn [traverse]. rewrite <- Hs, Hline. cbn [rbind]. by rewrite Ht.
Qed.

(** The rows of a written frame are read back. *)
Lemma rows_decoded identity l p es l' : rows_for p es -> check_rows identity l es = Ok l' ->
  plain_of p <> "" /\ _decode_valid_frame_rows (plain_of p) identity l = Ok (es, l').
Proof.
  intros [Hes Hrows] Hc. destruct (rows_lines _ _ Hrows) as (lines & Hd & Hone & Hne & Ht).
  unfold plain_of. rewrite Hd. apply lines_decoded; [|by apply Forall_and|by apply traverse_forall2|done].
  intros ->. by destruct es.
Qed.

Lemma frame_written identity l p es l' : rows_for p es -> check_rows identity l es = Ok l' ->
  frame_ok identity l (compress (plain_of p)) es l'.
Proof.
  intros Hrows Hc. destruct (rows_decoded _ _ _ _ _ Hrows Hc) as [Hne Hd]. exists (plain_of p). split; [by apply zc_whole|].
  unfold validate_frame. rewrite zc_parameters by done. cbn [negb orb]. by rewrite Z.eqb_refl, Hd.
Qed.

(** The frames of a file and the envelopes of each. *)
Definition cut (frames : list PendingRows) (ess : list (list RawEnvelope)) : list (string * list RawEnvelope) :=
  zip ((fun p => compress (plain_of p)) <$> frames) ess.
Lemma cut_ok identity frames ess l l' : Forall2 rows_for frames ess -> check_rows identity l (concat ess) = Ok l' ->
  frames_ok identity l (cut frames ess) l' /\ bytes_of (cut frames ess) = frames_of frames /\ (cut frames ess).*2 = ess.
Proof.
  revert ess l'. induction frames as [|p frames IH] using rev_ind; intros ess l' Hrows Hc.
  - apply Forall2_nil_inv_l in Hrows as ->. injection Hc as <-. split_and!; [constructor|done|done].
  - apply Forall2_app_inv_l in Hrows as (ess1 & ess2 & Hrows & Hlast & ->). apply Forall2_cons_inv_l in Hlast as (es & rest & Hp & Hnil & ->).
    apply Forall2_nil_inv_l in Hnil as ->. rewrite concat_app_list, check_rows_app in Hc. cbn in Hc. rewrite app_nil_r in Hc.
    apply rbind_ok in Hc as (l1 & Hc1 & Hc). destruct (IH _ _ Hrows Hc1) as (Hf & Hb & Hs).
    assert (Hcut : cut (frames ++ [p]) (ess1 ++ [es]) = cut frames ess1 ++ [(compress (plain_of p), es)]).
    { unfold cut. rewrite fmap_app, zip_with_app by (rewrite length_fmap; by eapply Forall2_length). done. }
    rewrite Hcut, bytes_snoc, Hb, fmap_app, Hs. split_and!; [|unfold frames_of; by rewrite fmap_app, PyText.concat_app|done].
    eapply frames_snoc; [done|]. by apply frame_written.
Qed.

(** A part of a frame is not a frame. *)
Lemma partial_frame identity l p written rest : p <> "" -> compress p = written +:+ rest -> rest <> "" ->
  scan_end identity l written = Ok true.
Proof.
  intros Hp Hw Hr. unfold scan_end. destruct (String.eqb_spec written "") as [E|E]; [done|]. unfold scan_step.
  destruct (zc_whole p Hp) as (_ & o & Hd & Ho & Hu). rewrite Hw in Hd.
  destruct (decompress decompressobj written) as [[o1 x]|] eqn:E1; [|done].
  destruct (eof o1) eqn:E2; [|done]. destruct (zd_ended _ _ rest _ _ E1 zd_fresh E2) as (o2 & Hd2 & _ & Hu2).
  rewrite Hd in Hd2. injection Hd2 as <- <-. rewrite Hu in Hu2. symmetry in Hu2. apply app_empty in Hu2 as [_ ?]. done.
Qed.

(** C15: a crash loses at most the frame being written.  Take any run of the operations of a
    stream file in which every write of a frame so far returned, then one more write of a
    frame that returns, fails or dies at any point, whatever the system answered.  If the rows
    are lines of envelopes without JSON decimals and belong to the part, then the scan of what
    the file then holds succeeds and finds exactly the envelopes of the frames whose writing
    returned, in order, and, if all bytes of the last frame reached the file, those of the last
    frame; it ends where these frames end.  (A frame written behind one that was torn is not
    covered: no scan finds it.) *)
Theorem crash_keeps_written_frames (path : string) (identity : _SourcePathIdentity) (s s' : StreamFile)
    (frames : list PendingRows) (ess : list (list RawEnvelope)) (p : PendingRows) (es : list RawEnvelope)
    (responses : list WriteResponse) (r : outcome WrittenFrame) (l : Lineage) :
  _parse_source_path path = Ok identity -> file_runs s frames ->
  Forall2 rows_for frames ess -> rows_for p es -> check_rows identity no_lineage (concat ess ++ es) = Ok l ->
  write_frame responses p s = (s', r) ->
  let kept := if String.eqb (contents s') (contents s +:+ compress (plain_of p)) then ess ++ [es] else ess in
  (done r = true -> kept = ess ++ [es]) /\
  exists scan, scan_recovery_frames (contents s') path = Ok scan /\
    (envelopes <$> FrameScan.frames scan) = kept /\
    valid_prefix_size_bytes scan = (if bool_decide (length kept = length ess) then compressed_size s else len (contents s')).
Proof.
  intros Hpath Hruns Hrows Hp Hc Hw. cbv zeta. pose proof (file_runs_ok _ _ zc_nonempty Hruns) as Hok.
  pose proof (write_ok _ _ _ _ _ _ Hok (zc_nonempty _) Hw) as Hafter.
  rewrite check_rows_app in Hc. apply rbind_ok in Hc as (l1 & Hc1 & Hc).
  destruct (cut_ok identity frames ess no_lineage l1 Hrows Hc1) as (Hf & Hb & Hs).
  pose proof (frame_written _ _ _ _ _ Hp Hc) as Hlast. destruct (rows_decoded _ _ _ _ _ Hp Hc) as [Hne _].
  assert (Hall : frames_ok identity no_lineage (cut frames ess ++ [(compress (plain_of p), es)]) l) by (eapply frames_snoc; done).
  assert (Hfull : contents s' = contents s +:+ compress (plain_of p) ->
    scan_recovery_frames (contents s') path = Ok {| source_size_bytes := len (contents s'); valid_prefix_size_bytes := len (contents s');
      FrameScan.frames := records 0 (cut frames ess ++ [(compress (plain_of p), es)]) |}).
  { intros E. pose proof (scan_of_cut path identity _ l "" Hpath Hall) as Hscan. rewrite append_nil, bytes_snoc, Hb in Hscan.
    rewrite E, (fo_contents _ _ Hok). apply Hscan. done. }
  destruct (String.eqb_spec (contents s') (contents s +:+ compress (plain_of p))) as [E|E].
  - split; [done|]. eexists. split; [by apply Hfull|]. cbn [FrameScan.frames valid_prefix_size_bytes].
    rewrite records_envelopes, fmap_app, Hs. split; [done|]. rewrite bool_decide_eq_false_2; [done|]. rewrite length_app. cbn. lia.
  - destruct (done r) eqn:Ed.
    { destruct E. rewrite (fo_contents _ _ Hafter), (fo_contents _ _ Hok). unfold frames_of. rewrite fmap_app, concat_app. done. }
    split; [done|]. destruct Hafter as (written & Hc' & rest & Hrest).
    assert (Hr : rest <> "").
    { intros ->. rewrite append_nil in Hrest. by rewrite Hrest, Hc', (fo_contents _ _ Hok) in E. }
    pose proof (scan_of_cut path identity _ l1 written Hpath Hf) as Hscan.
    rewrite (partial_frame _ _ _ _ _ Hne Hrest Hr) in Hscan. specialize (Hscan ltac:(done)). rewrite Hb, <- Hc' in Hscan.
    eexists. split; [exact Hscan|]. cbn [FrameScan.frames valid_prefix_size_bytes]. rewrite records_envelopes. split; [done|].
    by rewrite bool_decide_eq_true_2, (fo_size _ _ Hok), (fo_contents _ _ Hok) by done.
Qed.
End Crash.

(** ** An instance of the compression

    Every byte is marked with [1] and the frame ends with [0]: enough to evaluate the
    definitions. *)
Module CrashSamples.
Inductive obj : Type := Mark | Byte | Ended (unused : string).
Fixpoint read (o : obj) (s : string) : option (obj * string) :=
  match s with
  | EmptyString => Some (o, "")
  | String c t =>
      match o with
      | Ended unused => Some (Ended (unused +:+ s), "")
      | Mark => if is_char 49 c then read Byte t else if is_char 48 c then read (Ended "") t else None
      | Byte => match read Mark t with Some (o, x) => Some (o, String c x) | None => None end
      end
  end.
Fixpoint escape (s : string) : string :=
  match s with EmptyString => "0" | String c s => String (chr 49) (String c (escape s)) end.
#[export] Instance zstd : Zstd := {|
  zobj := obj; decompressobj := Mark; decompress := read;
  eof o := match o with Ended _ => true | _ => false end;
  unused_data o := match o with Ended u => u | _ => "" end;
  get_frame_parameters f := match read Mark f with Some (Ended _, x) => Some (true, len x) | _ => None end
|}.
#[export] Instance compressor : Compressor := {| compress := escape |}.

Lemma read_app a : forall o b, read o (a +:+ b) =
  match read o a with
  | Some (o1, x) => match read o1 b with Some (o2, y) => Some (o2, x +:+ y) | None => None end
  | None => None
  end.
Proof.
  induction a as [|c a IH]; intros o b; [cbn; change ("" +:+ b) with b; by destruct (read o b) as [[]|]|].
  change (String c a +:+ b) with (String c (a +:+ b)). cbn [read]. destruct o as [| |u].
  - destruct (is_char 49 c); [apply IH|]. by destruct (is_char 48 c).
  - rewrite IH. destruct (read Mark a) as [[o1 x]|]; [|done]. by destruct (read o1 b) as [[o2 y]|].
  - cbn. destruct b as [|d b]; [by rewrite append_nil|]. cbn. by rewrite append_assoc.
Qed.

Lemma read_unused a : forall o o1 x, read o a = Some (o1, x) -> eof o = false -> eof o1 = true ->
  exists used, used <> "" /\ a = used +:+ unused_data o1.
Proof.
  induction a as [|c a IH]; intros o o1 x Hr Ho Ho1; cbn in *; [injection Hr as -> <-; by rewrite Ho in Ho1|].
  assert (Hrec : forall o', o' <> Ended "" -> eof o' = false -> read o' a = Some (o1, x) -> exists used, used <> "" /\ String c a = used +:+ unused_data o1).
  { intros o' _ He Hr'. destruct (IH _ _ _ Hr' He Ho1) as (used & Hne & E). exists (String c used). split; [done|].
    change (String c used +:+ ?y) with (String c (used +:+ y)). by rewrite E at 1. }
  destruct o as [| |u]; [|destruct (read Mark a) as [[o2 y]|] eqn:E; [|done]; injection Hr as -> <-|done].
  - destruct (is_char 49 c); [by apply (Hrec Byte)|]. destruct (is_char 48 c); [|done]. exists (String c "").
    split; [done|]. destruct a as [|d a]; cbn in Hr; injection Hr as <- <-; done.
  - destruct (IH Mark o1 y) as (used & Hne & Ea); [done|done|done|]. exists (String c used). split; [done|].
    change (String c used +:+ ?y) with (String c (used +:+ y)). by rewrite Ea at 1.
Qed.

#[export] Instance zstd_laws : ZstdLaws.
Proof.
  split.
  - done.
  - intros o a b o1 x Hr _ _ _. cbn in *. by rewrite read_app, Hr.
  - intros o a b o1 x Hr _ Ho1. cbn in *. destruct o1 as [| |u]; [done..|]. exists (Ended (u +:+ b)). rewrite read_app, Hr.
    destruct b as [|d b]; cbn; by rewrite !append_nil.
  - intros o a b Hr _. cbn in *. by rewrite read_app, Hr.
  - intros o a o1 x. apply read_unused.
Qed.
Lemma read_escape s : read Mark (escape s) = Some (Ended "", s).
Proof. induction s as [|c s IH]; [done|]. cbn. by rewrite IH. Qed.
#[export] Instance compressor_laws : CompressorLaws.
Proof.
  split.
  - intros p _. split; [by destruct p|]. exists (Ended ""). split_and!; [apply read_escape|done|done].
  - intros p _. cbn. by rewrite read_escape.
  - by intros [].
Qed.

(** Two records of one part: the frame of the first is written in pieces, the process dies
    while the second is. *)
#[local] Existing Instances LineSamples.codec LineSamples.encoders LineSamples.laws.
Definition trade (writer_sequence : Z) : RawEnvelope :=
  PartSamples.envelope (PartSamples.draft "trade" (Some SPOT) (Some "BTC/USDT")) 1709210096000000000 writer_sequence.
Definition line (e : RawEnvelope) : string := encode_json (wire e) +:+ newline.
Definition frame (e : RawEnvelope) : PendingRows :=
  {| rows := [{| data := line e; accepted_monotonic_ns := 7 |}]; plain_bytes := len (line e) |}.
Definition file0 : StreamFile := {| _generation_id := "g"; _fd := 5; zstd_level := 3; max_plain_frame_bytes := 1000; _buffer := [];
  _buffer_plain_bytes := 0; compressed_size := 0; contents := "" |}.
Definition file1 : StreamFile := (write_frame [Interrupted; Wrote 100; Wrote 100000] (frame (trade 3)) file0).1.
Definition file2 : StreamFile := (write_frame [Wrote 500; Interrupted] (frame (trade 4)) file1).1.

Lemma trade_row n : 0 <= n -> envelope_validate (trade n) = Ok (trade n) -> CatalogJson.plain (wire (trade n)) = true ->
  rows_for (A := StorageControlAssociationV1) (frame (trade n)) [trade n].
Proof. intros _ Hv Hp. split; [done|]. constructor; [|constructor]. split; [by split|]. split; [done|]. right. reflexivity. Qed.

Lemma file1_runs : file_runs file1 [frame (trade 3)].
Proof.
  apply (runs_write file0 [] [Interrupted; Wrote 100; Wrote 100000] (frame (trade 3)) file1
    (write_frame [Interrupted; Wrote 100; Wrote 100000] (frame (trade 3)) file0).2); [|apply surjective_pairing|vm_compute; reflexivity].
  apply (runs_start "" 3 1000 (Some "g") 5). vm_compute. reflexivity.
Qed.

Definition part_identity : _SourcePathIdentity := identity_of (base PartSamples.trade) PartSamples.trade_hour.
Definition last_lineage : Lineage :=
  {| l_worker := Some "w"; l_config := Some (config_sha256 PartSamples.trade); l_sequence := Some 4 |}.

Lemma crash_keeps_written_frames_witness :
  exists scan, scan_recovery_frames (contents file2) PartSamples.trade_path = Ok scan /\
    (envelopes <$> FrameScan.frames scan) = [[trade 3]] /\ valid_prefix_size_bytes scan = compressed_size file1.
Proof.
  destruct (crash_keeps_written_frames (A := StorageControlAssociationV1) PartSamples.trade_path part_identity file1 file2
    [frame (trade 3)] [[trade 3]] (frame (trade 4)) [trade 4] [Wrote 500; Interrupted] Dies last_lineage) as (_ & scan & H1 & H2 & H3).
  - vm_compute. reflexivity.
  - exact file1_runs.
  - constructor; [|constructor]. apply trade_row; [done|vm_compute; reflexivity..].
  - apply trade_row; [done|vm_compute; reflexivity..].
  - vm_compute. reflexivity.
  - vm_compute. reflexivity.
  - exists scan. split; [exact H1|]. split; [rewrite H2|rewrite H3]; vm_compute; reflexivity.
Defined.

Definition found : result RecoveryFrameScan := scan_recovery_frames (contents file2) PartSamples.trade_path.
Lemma scan_recovery_sound_witness :
  match found with
  | Ok scan => rows_of_part part_identity (concat (envelopes <$> FrameScan.frames scan)) /\
      (length (FrameScan.frames scan) = 1)%nat /\ 0 < invalid_suffix_size_bytes scan
  | Err _ => False
  end.
Proof.
  destruct found as [scan|e] eqn:E; [|vm_compute in E; discriminate E].
  destruct (scan_recovery_sound (contents file2) PartSamples.trade_path part_identity scan) as (fs & rest & _ & _ & _ & _ & _ & _ & H & _);
    [vm_compute; reflexivity|exact E|]. split; [exact H|]. vm_compute in E. injection E as <-. vm_compute. split; reflexivity.
Defined.
End CrashSamples.
