(* ===== verification/RecoveryPlan.v ===== *)
(** The plans of recovery: the middle of [storage/recovery.py].  From the scan of a source
    [plan_recovery_source] makes the manifest of what is recovered and the intent, the first
    fact of a recovery transaction; [_plan_streaming_recovery_source] does so from a chunked
    scan.  SHA-256, UUIDs of version 5 and the JSON codec are parameters. *)
From S2P Require Import Prelude PyDecimal Domain StorageModels PyText CatalogJson PyTime PartPath EnvelopeJson Manifest.
From S2P Require FrameScan.
From S2P Require StreamFile.

Abbreviation len := StreamFile.len.

Inductive RecoverySourceDisposition : Type := RETAINED | REMOVED | MOVED_TO_QUARANTINE | LEGITIMATELY_MISSING.
#[export] Instance disposition_eq_dec : EqDecision RecoverySourceDisposition.
Proof. solve_decision. Defined.
Definition disposition_value (d : RecoverySourceDisposition) : string :=
  match d with
  | RETAINED => "retained" | REMOVED => "removed" | MOVED_TO_QUARANTINE => "moved_to_quarantine"
  | LEGITIMATELY_MISSING => "legitimately_missing"
  end.
Inductive CleanupProofKind : Type := DURABLE_INTENT | FINAL_TOMBSTONE.
#[export] Instance proof_kind_eq_dec : EqDecision CleanupProofKind.
Proof. solve_decision. Defined.
Definition proof_kind_value (k : CleanupProofKind) : string :=
  match k with DURABLE_INTENT => "durable_intent" | FINAL_TOMBSTONE => "final_tombstone" end.

(** ** [RecoveryIntentV1] *)
Record RecoveryIntentV1 : Type := {
  transaction_id : string; i_created_at_ns : Z; source_state : RecoverySourceState; source_relative_path : string;
  source_size_bytes : Z; source_sha256 : string; planned_source_disposition : RecoverySourceDisposition;
  planned_data_generation_id : option string; planned_data_relative_path : option string;
  planned_data_size_bytes : option Z; planned_data_sha256 : option string;
  planned_manifest_relative_path : option string; planned_manifest_size_bytes : option Z;
  planned_manifest_sha256 : option string; planned_quarantine_relative_path : option string;
  planned_quarantine_size_bytes : option Z; planned_quarantine_sha256 : option string;
  cleanup_proof_kind : option CleanupProofKind; cleanup_proof_relative_path : option string;
  cleanup_proof_size_bytes : option Z; cleanup_proof_sha256 : option string; i_recovery_control_event_id : string;
  fact_sha256 : string
}.

Definition intent_fields_ok (self : RecoveryIntentV1) : bool :=
  canonical_uuid (transaction_id self) && nonneg (i_created_at_ns self) && path_ok (source_relative_path self)
  && nonneg (source_size_bytes self) && config_sha256_ok (source_sha256 self)
  && opt_ok nonempty (planned_data_generation_id self) && opt_ok path_ok (planned_data_relative_path self)
  && opt_ok positive (planned_data_size_bytes self) && opt_ok config_sha256_ok (planned_data_sha256 self)
  && opt_ok path_ok (planned_manifest_relative_path self) && opt_ok positive (planned_manifest_size_bytes self)
  && opt_ok config_sha256_ok (planned_manifest_sha256 self) && opt_ok path_ok (planned_quarantine_relative_path self)
  && opt_ok nonneg (planned_quarantine_size_bytes self) && opt_ok config_sha256_ok (planned_quarantine_sha256 self)
  && opt_ok path_ok (cleanup_proof_relative_path self) && opt_ok positive (cleanup_proof_size_bytes self)
  && opt_ok config_sha256_ok (cleanup_proof_sha256 self) && nonempty (i_recovery_control_event_id self)
  && config_sha256_ok (fact_sha256 self).

(** Whether the values are all present; an error if only some are. *)
Definition _group_presence (values : list bool) (field_name : string) : result bool :=
  match values with
  | [] => Ok false
  | v :: rest =>
      raise ValueError (field_name +:+ " fields must be all present or all null") when negb (forallb (eqb v) rest);; Ok v
  end.

(** [Path(p).parent] of a normalised path, as its components *)
Definition parent (path : string) : list string := removelast (split_on slash path).

Section Intent.
Context (uuid5 : string -> string).

Definition check_planned_data (self : RecoveryIntentV1) (manifest_present : bool) : result unit :=
  match planned_data_relative_path self with
  | None => Err (AssertionError "planned_data_relative_path is not None")
  | Some data_path =>
      let! generation := recovery_generation_id uuid5 data_path in
      raise ValueError "planned generation does not match canonical path"
        when negb (bool_decide (planned_data_generation_id self = Some generation));;
      raise ValueError "planned data requires a planned manifest" when negb manifest_present;;
      let! expected := manifest_path_for_data data_path in
      raise ValueError "planned manifest is not the data sibling"
        when negb (bool_decide (planned_manifest_relative_path self = Some expected));;
      Ok tt
  end.

Definition check_removed (self : RecoveryIntentV1) (data_present quarantine_present cleanup_present : bool) : result unit :=
  let final := removesuffix ".partial" (source_relative_path self) in
  let coexistence := bool_decide (source_state self = PUBLICATION_COEXISTENCE) in
  raise ValueError "removed disposition requires a partial source"
    when negb (bool_decide (source_state self ∈ [PARTIAL_COMPLETE; PARTIAL_TRUNCATED; PUBLICATION_COEXISTENCE]));;
  raise ValueError "removed source must be a partial" when negb (suffix ".jsonl.zst.partial" (source_relative_path self));;
  raise ValueError "removed source requires replacement artifacts only" when negb data_present || cleanup_present;;
  raise ValueError "partial recovery must allocate a distinct generation"
    when bool_decide (planned_data_relative_path self = Some final) && negb coexistence;;
  raise ValueError "publication coexistence must preserve the final destination"
    when coexistence && negb (bool_decide (planned_data_relative_path self = Some final));;
  raise ValueError "partial recovery must remain in its source scope"
    when negb (bool_decide (parent <$> planned_data_relative_path self = Some (parent (source_relative_path self))));;
  if bool_decide (source_state self = PARTIAL_TRUNCATED) then
    raise ValueError "truncated partial requires a bad-tail quarantine" when negb quarantine_present;;
    let! expected := bad_tail_quarantine_relative_path (source_relative_path self) in
    raise ValueError "truncated partial quarantine is invalid"
      when negb (bool_decide (planned_quarantine_relative_path self = Some expected))
           || bool_decide (planned_quarantine_size_bytes self = Some 0);;
    raise ValueError "recovered prefix and bad tail must cover the source size"
      when negb (default 0 (planned_data_size_bytes self) + default 0 (planned_quarantine_size_bytes self)
                 =? source_size_bytes self);;
    Ok tt
  else
    raise ValueError "complete partial cannot have a bad tail" when quarantine_present;;
    raise ValueError "complete partial replacement must preserve the source"
      when negb (bool_decide (planned_data_size_bytes self = Some (source_size_bytes self)))
           || negb (bool_decide (planned_data_sha256 self = Some (source_sha256 self)));;
    Ok tt.

Definition check_quarantined (self : RecoveryIntentV1)
    (data_present manifest_present quarantine_present cleanup_present : bool) : result unit :=
  raise ValueError "whole quarantine cannot publish recovered artifacts"
    when data_present || manifest_present || cleanup_present || negb quarantine_present;;
  raise ValueError "source state cannot be wholly quarantined"
    when negb (bool_decide (source_state self ∈ [PARTIAL_TRUNCATED; ORPHAN_CLOSED_DATA]));;
  let! expected := whole_source_quarantine_relative_path (source_relative_path self) in
  raise ValueError "whole quarantine must preserve the complete source"
    when negb (bool_decide (planned_quarantine_relative_path self = Some expected))
         || negb (bool_decide (planned_quarantine_size_bytes self = Some (source_size_bytes self)))
         || negb (bool_decide (planned_quarantine_sha256 self = Some (source_sha256 self)));;
  Ok tt.

Definition check_retained (self : RecoveryIntentV1) (data_present quarantine_present cleanup_present : bool) : result unit :=
  raise ValueError "retained disposition requires a valid closed orphan"
    when negb (bool_decide (source_state self = ORPHAN_CLOSED_DATA)) || negb data_present || quarantine_present || cleanup_present;;
  raise ValueError "retained orphan must preserve the source identity"
    when negb (bool_decide (planned_data_relative_path self = Some (source_relative_path self)))
         || negb (bool_decide (planned_data_size_bytes self = Some (source_size_bytes self)))
         || negb (bool_decide (planned_data_sha256 self = Some (source_sha256 self)));;
  Ok tt.

Definition check_missing (self : RecoveryIntentV1)
    (data_present manifest_present quarantine_present cleanup_present : bool) : result unit :=
  let expected_kind := match source_state self with
    | CLEANUP_INTENT => Some DURABLE_INTENT | CLEANUP_TOMBSTONE => Some FINAL_TOMBSTONE | _ => None end in
  raise ValueError "legitimately missing source requires exact cleanup proof"
    when negb (present expected_kind) || (source_size_bytes self =? 0) || data_present || quarantine_present
         || negb manifest_present || negb cleanup_present || negb (bool_decide (cleanup_proof_kind self = expected_kind));;
  raise ValueError "cleanup source must name final raw data" when negb (suffix ".jsonl.zst" (source_relative_path self));;
  let! expected := manifest_path_for_data (source_relative_path self) in
  raise ValueError "cleanup manifest must be the source sibling"
    when negb (bool_decide (planned_manifest_relative_path self = Some expected));;
  Ok tt.

Definition _validate_intent (self : RecoveryIntentV1) : result unit :=
  let! _ := _parse_source_path (source_relative_path self) in
  let source_is_partial := suffix ".jsonl.zst.partial" (source_relative_path self) in
  raise ValueError "recovery source state does not match its path"
    when negb (eqb (bool_decide (source_state self ∈ [PARTIAL_COMPLETE; PARTIAL_TRUNCATED; PUBLICATION_COEXISTENCE])) source_is_partial);;
  raise ValueError "recovery control event ID does not match transaction"
    when negb (String.eqb (i_recovery_control_event_id self) (_RECOVERY_EVENT_PREFIX +:+ transaction_id self));;
  let! data_present := _group_presence [present (planned_data_generation_id self); present (planned_data_relative_path self);
    present (planned_data_size_bytes self); present (planned_data_sha256 self)] "planned data" in
  let! manifest_present := _group_presence [present (planned_manifest_relative_path self);
    present (planned_manifest_size_bytes self); present (planned_manifest_sha256 self)] "planned manifest" in
  let! quarantine_present := _group_presence [present (planned_quarantine_relative_path self);
    present (planned_quarantine_size_bytes self); present (planned_quarantine_sha256 self)] "planned quarantine" in
  let! cleanup_present := _group_presence [present (cleanup_proof_kind self); present (cleanup_proof_relative_path self);
    present (cleanup_proof_size_bytes self); present (cleanup_proof_sha256 self)] "cleanup proof" in
  let! _ := if data_present then check_planned_data self manifest_present else Ok tt in
  match planned_source_disposition self with
  | REMOVED => check_removed self data_present quarantine_present cleanup_present
  | MOVED_TO_QUARANTINE => check_quarantined self data_present manifest_present quarantine_present cleanup_present
  | RETAINED => check_retained self data_present quarantine_present cleanup_present
  | LEGITIMATELY_MISSING => check_missing self data_present manifest_present quarantine_present cleanup_present
  end.

(** ** Facts and their digest *)
Definition hash_payload (self : RecoveryIntentV1) : list (string * Json) := [
  ("schema_version", JInt 1); ("fact_kind", JStr "intent"); ("transaction_id", JStr (transaction_id self));
  ("created_at_ns", JInt (i_created_at_ns self)); ("predecessor_sha256", JNull);
  ("source_state", JStr (source_state_value (source_state self))); ("source_relative_path", JStr (source_relative_path self));
  ("source_size_bytes", JInt (source_size_bytes self)); ("source_sha256", JStr (source_sha256 self));
  ("planned_source_disposition", JStr (disposition_value (planned_source_disposition self)));
  ("planned_data_generation_id", jopt JStr (planned_data_generation_id self));
  ("planned_data_relative_path", jopt JStr (planned_data_relative_path self));
  ("planned_data_size_bytes", jopt JInt (planned_data_size_bytes self)); ("planned_data_sha256", jopt JStr (planned_data_sha256 self));
  ("planned_manifest_relative_path", jopt JStr (planned_manifest_relative_path self));
  ("planned_manifest_size_bytes", jopt JInt (planned_manifest_size_bytes self));
  ("planned_manifest_sha256", jopt JStr (planned_manifest_sha256 self));
  ("planned_quarantine_relative_path", jopt JStr (planned_quarantine_relative_path self));
  ("planned_quarantine_size_bytes", jopt JInt (planned_quarantine_size_bytes self));
  ("planned_quarantine_sha256", jopt JStr (planned_quarantine_sha256 self));
  ("cleanup_proof_kind", jopt (fun k => JStr (proof_kind_value k)) (cleanup_proof_kind self));
  ("cleanup_proof_relative_path", jopt JStr (cleanup_proof_relative_path self));
  ("cleanup_proof_size_bytes", jopt JInt (cleanup_proof_size_bytes self));
  ("cleanup_proof_sha256", jopt JStr (cleanup_proof_sha256 self));
  ("recovery_control_event_id", JStr (i_recovery_control_event_id self))].
Definition set_fact_sha256 (digest : string) (self : RecoveryIntentV1) : RecoveryIntentV1 := {|
  transaction_id := transaction_id self; i_created_at_ns := i_created_at_ns self; source_state := source_state self;
  source_relative_path := source_relative_path self; source_size_bytes := source_size_bytes self;
  source_sha256 := source_sha256 self; planned_source_disposition := planned_source_disposition self;
  planned_data_generation_id := planned_data_generation_id self; planned_data_relative_path := planned_data_relative_path self;
  planned_data_size_bytes := planned_data_size_bytes self; planned_data_sha256 := planned_data_sha256 self;
  planned_manifest_relative_path := planned_manifest_relative_path self;
  planned_manifest_size_bytes := planned_manifest_size_bytes self; planned_manifest_sha256 := planned_manifest_sha256 self;
  planned_quarantine_relative_path := planned_quarantine_relative_path self;
  planned_quarantine_size_bytes := planned_quarantine_size_bytes self;
  planned_quarantine_sha256 := planned_quarantine_sha256 self; cleanup_proof_kind := cleanup_proof_kind self;
  cleanup_proof_relative_path := cleanup_proof_relative_path self; cleanup_proof_size_bytes := cleanup_proof_size_bytes self;
  cleanup_proof_sha256 := cleanup_proof_sha256 self; i_recovery_control_event_id := i_recovery_control_event_id self;
  fact_sha256 := digest |}.

Context `{JsonCodec} (sha256 : string -> string).

Definition hash_payload_bytes (self : RecoveryIntentV1) : string := encode_json (JDict (hash_payload self)) +:+ newline.
Definition canonical_fact_bytes (self : RecoveryIntentV1) : string :=
  encode_json (JDict (hash_payload self ++ [("fact_sha256", JStr (fact_sha256 self))])) +:+ newline.

(** The validators of the base class run first; the provisional fact skips its own. *)
Definition intent_validate (skip_fact_hash : bool) (self : RecoveryIntentV1) : result RecoveryIntentV1 :=
  raise ValueError "validation error" when negb (intent_fields_ok self);;
  raise ValueError "recovery fact SHA-256 is invalid"
    when negb skip_fact_hash && negb (String.eqb (fact_sha256 self) (sha256 (hash_payload_bytes self)));;
  let! _ := _validate_intent self in
  Ok self.
Definition zero_sha256 : string := String.string_of_list_ascii (replicate 64 (chr 48)).
(** [RecoveryIntentV1.create]; the digest of [values] is not used. *)
Definition intent_create (values : RecoveryIntentV1) : result RecoveryIntentV1 :=
  let! provisional := intent_validate true (set_fact_sha256 zero_sha256 values) in
  intent_validate false (set_fact_sha256 (sha256 (hash_payload_bytes provisional)) provisional).
End Intent.

(** ** Plans *)
Record RecoveryPlan : Type := {
  intent : RecoveryIntentV1; manifest : option RawManifestV1; recovered_data_bytes : option string;
  quarantine_bytes : option string
}.
Record RecoveryByteRange : Type := { r_start_offset : Z; r_size_bytes : Z; r_sha256 : string }.
Definition byte_range (start size : Z) (sha256 : string) : result RecoveryByteRange :=
  raise ValueError "recovery byte range start must be non-negative" when start <? 0;;
  raise ValueError "recovery byte range size must be non-negative" when size <? 0;;
  raise ValueError "recovery byte range SHA-256 is invalid" when negb (config_sha256_ok sha256);;
  Ok {| r_start_offset := start; r_size_bytes := size; r_sha256 := sha256 |}.
Record StreamingRecoveryPlan : Type := {
  s_intent : RecoveryIntentV1; s_manifest : option RawManifestV1; recovered_range : option RecoveryByteRange;
  quarantine_range : option RecoveryByteRange
}.

Section Plans.
Context `{JsonCodec} `{FrameScan.Zstd} (sha256 uuid5 : string -> string).

Definition manifest_bytes (self : RecoveryPlan) : option string := manifest_canonical_bytes <$> manifest self.

(** What is planned for an artifact agrees with its bytes. *)
Definition artifact_matches (bytes : option string) (size : option Z) (digest : option string) : bool :=
  match bytes with
  | Some b => bool_decide (size = Some (len b)) && bool_decide (digest = Some (sha256 b))
  | None => true
  end.
Definition plan_init (self : RecoveryPlan) : result RecoveryPlan :=
  let i := intent self in
  raise ValueError "recovery plan manifest does not match its intent"
    when negb (eqb (present (manifest self)) (present (planned_manifest_relative_path i)));;
  raise ValueError "recovery plan manifest bytes do not match intent"
    when negb (artifact_matches (manifest_bytes self) (planned_manifest_size_bytes i) (planned_manifest_sha256 i));;
  raise ValueError "recovery plan recovered data does not match intent"
    when negb (artifact_matches (recovered_data_bytes self) (planned_data_size_bytes i) (planned_data_sha256 i));;
  raise ValueError "removed recovery plan requires recovered data bytes"
    when negb (present (recovered_data_bytes self)) && bool_decide (planned_source_disposition i = REMOVED);;
  raise ValueError "recovery plan has unplanned recovered data"
    when present (recovered_data_bytes self) && negb (present (planned_data_relative_path i));;
  raise ValueError "recovery plan quarantine does not match its intent"
    when negb (eqb (present (quarantine_bytes self)) (present (planned_quarantine_relative_path i)));;
  raise ValueError "recovery plan quarantine bytes do not match intent"
    when negb (artifact_matches (quarantine_bytes self) (planned_quarantine_size_bytes i) (planned_quarantine_sha256 i));;
  Ok self.

(** The source a plan is made for. *)
Record Source : Type := {
  src_path : string; src_size : Z; src_sha256 : string; src_transaction : string; src_created_at_ns : Z
}.

(** The fields of the manifest of a recovered part.  The data and the suffix are given by path,
    size and digest. *)
Definition recovery_fields (row_facts : FrameScan.RecoveryRowFacts) (recovered_frame_count : Z) (src : Source)
    (state : RecoverySourceState) (data : string * Z * string) (quarantine : option (string * Z * string))
    (manifest_path : string) : RawManifestV1 :=
  let '(data_path, data_size, data_sha256) := data in
  {|
    m_exchange := FrameScan.rf_exchange row_facts; m_market := FrameScan.rf_market row_facts;
    m_instrument_key := FrameScan.rf_instrument_key row_facts; m_logical_stream := FrameScan.rf_logical_stream row_facts;
    m_wire_symbols := FrameScan.rf_wire_symbols row_facts; m_data_relative_path := data_path;
    manifest_relative_path := manifest_path; file_size_bytes := data_size; file_sha256 := data_sha256; m_zstd_level := None;
    m_max_plain_frame_bytes := None; m_record_count := FrameScan.rf_record_count row_facts;
    m_first_received_at_ns := FrameScan.first_received_at_ns row_facts;
    m_last_received_at_ns := FrameScan.last_received_at_ns row_facts;
    m_first_event_time_ns := FrameScan.rf_first_event_time_ns row_facts;
    m_last_event_time_ns := FrameScan.rf_last_event_time_ns row_facts;
    m_worker_instance_id := FrameScan.rf_worker_instance_id row_facts;
    m_connection_generations := FrameScan.rf_connection_generations row_facts;
    m_writer_sequence_first := FrameScan.writer_sequence_first row_facts;
    m_writer_sequence_last := FrameScan.writer_sequence_last row_facts; m_config_sha256 := FrameScan.rf_config_sha256 row_facts;
    m_egress_ids := FrameScan.rf_egress_ids row_facts; m_requested_intervals_ns := FrameScan.rf_requested_intervals_ns row_facts;
    m_effective_intervals_ns := FrameScan.rf_effective_intervals_ns row_facts;
    gap_count := None; reconnect_count := None; parse_error_count := None; checksum_error_count := None;
    queue_overflow_count := None; control_event_ids := None; durability_measurement := UNAVAILABLE_AFTER_CRASH;
    durability_sample_count := None; durability_lag_p50_ns := None; durability_lag_p95_ns := None; durability_lag_p99_ns := None;
    durability_lag_max_ns := None; sync_count := None; sync_duration_total_ns := None; sync_duration_max_ns := None;
    slo_breach_count := None; write_failure_count := None; sync_failure_count := None; close_reason := RECOVERY;
    created_at_ns := None; closed_at_ns := src_created_at_ns src; recovery_transaction_id := Some (src_transaction src);
    recovery_source_state := Some state; recovery_source_relative_path := Some (src_path src);
    recovery_source_bytes := Some (src_size src); recovery_source_sha256 := Some (src_sha256 src);
    recovery_control_event_id := Some (_RECOVERY_EVENT_PREFIX +:+ src_transaction src);
    recovered_frame_count := Some recovered_frame_count; recovered_record_count := Some (FrameScan.rf_record_count row_facts);
    recovered_bytes := Some data_size; recovered_sha256 := Some data_sha256;
    quarantined_suffix_relative_path := fst <$> (fst <$> quarantine);
    quarantined_suffix_bytes := snd <$> (fst <$> quarantine); quarantined_suffix_sha256 := snd <$> quarantine;
    unavailable_fields := RECOVERY_UNAVAILABLE_FIELDS |}.
Definition _recovery_manifest_from_facts (row_facts : FrameScan.RecoveryRowFacts) (recovered_frame_count : Z) (src : Source)
    (state : RecoverySourceState) (data : string * Z * string) (quarantine : option (string * Z * string))
    : result RawManifestV1 :=
  let! manifest_path := manifest_path_for_data data.1.1 in
  manifest_init (recovery_fields row_facts recovered_frame_count src state data quarantine manifest_path).

Definition artifact (path bytes : string) : string * Z * string := (path, len bytes, sha256 bytes).

Definition _recovery_manifest (scan : FrameScan.RecoveryFrameScan) (src : Source) (state : RecoverySourceState)
    (data_path data : string) (quarantine : option (string * string)) : result RawManifestV1 :=
  let rows := concat (FrameScan.envelopes <$> FrameScan.frames scan) in
  match FrameScan.freeze (FrameScan.extend FrameScan.new_builder rows) with
  | None => Err (ValueError "recovery manifest requires validated rows")
  | Some row_facts =>
      _recovery_manifest_from_facts row_facts (Z.of_nat (length (FrameScan.frames scan))) src state
        (artifact data_path data) ((fun q => artifact q.1 q.2) <$> quarantine)
  end.

(** The intent for what was decided: the data, the manifest and the quarantine. *)
Definition make_intent (src : Source) (state : RecoverySourceState) (disposition : RecoverySourceDisposition)
    (data : option (string * Z * string)) (manifest : option RawManifestV1) (quarantine : option (string * Z * string))
    : result RecoveryIntentV1 :=
  let! generation := match data with
    | None => Ok None
    | Some d => let! g := recovery_generation_id uuid5 d.1.1 in Ok (Some g)
    end in
  let bytes := manifest_canonical_bytes <$> manifest in
  intent_create uuid5 sha256 {|
    transaction_id := src_transaction src; i_created_at_ns := src_created_at_ns src; source_state := state;
    source_relative_path := src_path src; source_size_bytes := src_size src; source_sha256 := src_sha256 src;
    planned_source_disposition := disposition; planned_data_generation_id := generation;
    planned_data_relative_path := fst <$> (fst <$> data); planned_data_size_bytes := snd <$> (fst <$> data);
    planned_data_sha256 := snd <$> data; planned_manifest_relative_path := manifest_relative_path <$> manifest;
    planned_manifest_size_bytes := len <$> bytes; planned_manifest_sha256 := sha256 <$> bytes;
    planned_quarantine_relative_path := fst <$> (fst <$> quarantine);
    planned_quarantine_size_bytes := snd <$> (fst <$> quarantine); planned_quarantine_sha256 := snd <$> quarantine;
    cleanup_proof_kind := None; cleanup_proof_relative_path := None; cleanup_proof_size_bytes := None;
    cleanup_proof_sha256 := None; i_recovery_control_event_id := _RECOVERY_EVENT_PREFIX +:+ src_transaction src;
    fact_sha256 := "" |}.

(** What is decided about a source: its state, its disposition, the path and bytes of the
    recovered part, its manifest, and the path and bytes of what is quarantined. *)
Record Decision : Type := {
  d_state : RecoverySourceState; d_disposition : RecoverySourceDisposition; d_data : option (string * string);
  d_manifest : option RawManifestV1; d_quarantine : option (string * string)
}.
Definition decide_source (scan : FrameScan.RecoveryFrameScan) (source : string) (src : Source) (next_part_sequence : Z)
    : result Decision :=
  let path := src_path src in
  let is_partial := suffix ".jsonl.zst.partial" path in
  raise ValueError "recovery source must be partial or closed raw data" when negb is_partial && negb (suffix ".jsonl.zst" path);;
  let has_frames := negb (nil (FrameScan.frames scan)) in
  let prefix_size := FrameScan.valid_prefix_size_bytes scan in
  if is_partial && has_frames then
    let recovered := FrameScan.up_to prefix_size source in
    let rest := FrameScan.from_offset prefix_size source in
    let state := if String.eqb rest "" then PARTIAL_COMPLETE else PARTIAL_TRUNCATED in
    let! data_path := _next_recovery_relative_path path next_part_sequence in
    let! quarantine := if String.eqb rest "" then Ok None
                       else let! q := bad_tail_quarantine_relative_path path in Ok (Some (q, rest)) in
    let! manifest := _recovery_manifest scan src state data_path recovered quarantine in
    Ok {| d_state := state; d_disposition := REMOVED; d_data := Some (data_path, recovered); d_manifest := Some manifest;
          d_quarantine := quarantine |}
  else if negb is_partial && has_frames && (prefix_size =? len source) then
    let! manifest := _recovery_manifest scan src ORPHAN_CLOSED_DATA path source None in
    Ok {| d_state := ORPHAN_CLOSED_DATA; d_disposition := RETAINED; d_data := Some (path, source); d_manifest := Some manifest;
          d_quarantine := None |}
  else
    let! q := whole_source_quarantine_relative_path path in
    Ok {| d_state := if is_partial then PARTIAL_TRUNCATED else ORPHAN_CLOSED_DATA; d_disposition := MOVED_TO_QUARANTINE;
          d_data := None; d_manifest := None; d_quarantine := Some (q, source) |}.

(** The bytes of a retained part are not copied. *)
Definition plan_recovery_source (source_relative_path source transaction_id : string) (created_at_ns next_part_sequence : Z)
    : result RecoveryPlan :=
  raise ValueError "created_at_ns must be a non-negative integer" when created_at_ns <? 0;;
  let! scan := FrameScan.scan_recovery_frames source source_relative_path in
  let src := {| src_path := source_relative_path; src_size := len source; src_sha256 := sha256 source;
                src_transaction := transaction_id; src_created_at_ns := created_at_ns |} in
  let! d := decide_source scan source src next_part_sequence in
  let! i := make_intent src (d_state d) (d_disposition d) ((fun x => artifact x.1 x.2) <$> d_data d) (d_manifest d)
              ((fun x => artifact x.1 x.2) <$> d_quarantine d) in
  plan_init {| intent := i; manifest := d_manifest d;
    recovered_data_bytes := if bool_decide (d_disposition d = REMOVED) then snd <$> d_data d else None;
    quarantine_bytes := snd <$> d_quarantine d |}.

(** *** From a chunked scan *)
(** As [Decision], with byte ranges of the source for bytes. *)
Record StreamingDecision : Type := {
  sd_state : RecoverySourceState; sd_disposition : RecoverySourceDisposition; sd_data_path : option string;
  sd_manifest : option RawManifestV1; sd_recovered : option RecoveryByteRange; sd_quarantine : option (string * RecoveryByteRange)
}.
Definition range_artifact (path : string) (r : RecoveryByteRange) : string * Z * string := (path, r_size_bytes r, r_sha256 r).

Definition decide_streaming (scan : FrameScan.StreamingRecoveryScan) (src : Source) (next_part_sequence : Z)
    : result StreamingDecision :=
  let path := src_path src in
  let is_partial := suffix ".jsonl.zst.partial" path in
  raise ValueError "recovery source must be partial or closed raw data" when negb is_partial && negb (suffix ".jsonl.zst" path);;
  let prefix_size := FrameScan.ss_valid_prefix_size_bytes scan in
  let suffix_size := FrameScan.ss_invalid_suffix_size_bytes scan in
  if is_partial && (0 <? prefix_size) then
    match FrameScan.row_facts scan with
    | None => Err (ValueError "valid recovery prefix requires row facts")
    | Some row_facts =>
        let! data_path := _next_recovery_relative_path path next_part_sequence in
        let! recovered := byte_range 0 prefix_size (FrameScan.valid_prefix_sha256 scan) in
        let! quarantine :=
          if suffix_size =? 0 then Ok None
          else let! q := bad_tail_quarantine_relative_path path in
               match FrameScan.invalid_suffix_sha256 scan with
               | None => Err (AssertionError "scan.invalid_suffix_sha256 is not None")
               | Some digest => let! r := byte_range prefix_size suffix_size digest in Ok (Some (q, r))
               end in
        let state := if suffix_size =? 0 then PARTIAL_COMPLETE else PARTIAL_TRUNCATED in
        let! manifest := _recovery_manifest_from_facts row_facts (FrameScan.frame_count scan) src state
          (range_artifact data_path recovered) ((fun q => range_artifact q.1 q.2) <$> quarantine) in
        Ok {| sd_state := state; sd_disposition := REMOVED; sd_data_path := Some data_path; sd_manifest := Some manifest;
              sd_recovered := Some recovered; sd_quarantine := quarantine |}
    end
  else if negb is_partial && (prefix_size =? FrameScan.ss_source_size_bytes scan) && (0 <? prefix_size) then
    match FrameScan.row_facts scan with
    | None => Err (ValueError "valid closed recovery source requires row facts")
    | Some row_facts =>
        let! manifest := _recovery_manifest_from_facts row_facts (FrameScan.frame_count scan) src ORPHAN_CLOSED_DATA
          (path, FrameScan.ss_source_size_bytes scan, FrameScan.source_sha256 scan) None in
        Ok {| sd_state := ORPHAN_CLOSED_DATA; sd_disposition := RETAINED; sd_data_path := Some path; sd_manifest := Some manifest;
              sd_recovered := None; sd_quarantine := None |}
    end
  else
    let! q := whole_source_quarantine_relative_path path in
    let! r := byte_range 0 (FrameScan.ss_source_size_bytes scan) (FrameScan.source_sha256 scan) in
    Ok {| sd_state := if is_partial then PARTIAL_TRUNCATED else ORPHAN_CLOSED_DATA; sd_disposition := MOVED_TO_QUARANTINE;
          sd_data_path := None; sd_manifest := None; sd_recovered := None; sd_quarantine := Some (q, r) |}.

Definition _plan_streaming_recovery_source (source_relative_path : string) (scan : FrameScan.StreamingRecoveryScan)
    (transaction_id : string) (created_at_ns next_part_sequence : Z) : result StreamingRecoveryPlan :=
  let size := FrameScan.ss_source_size_bytes scan in
  let src := {| src_path := source_relative_path; src_size := size; src_sha256 := FrameScan.source_sha256 scan;
                src_transaction := transaction_id; src_created_at_ns := created_at_ns |} in
  let! d := decide_streaming scan src next_part_sequence in
  let data := (fun path => match sd_recovered d with
    | Some r => range_artifact path r | None => (path, size, FrameScan.source_sha256 scan) end) <$> sd_data_path d in
  let! i := make_intent src (sd_state d) (sd_disposition d) data (sd_manifest d)
              ((fun x => range_artifact x.1 x.2) <$> sd_quarantine d) in
  Ok {| s_intent := i; s_manifest := sd_manifest d; recovered_range := sd_recovered d;
        quarantine_range := snd <$> sd_quarantine d |}.
End Plans.
