(* ===== verification/PathFacts.v ===== *)
(** What recovery derives from a source path it accepts: the directories and the name of
    the source, the path of the recovered part, its manifest and the quarantine. *)
From S2P Require Import Prelude PyDecimal RateLimit Domain StorageModels PyText CatalogJson PyTime PartPath Manifest RecoveryPlan.

(** ** Components *)
Lemma split_nonempty sep s : split_on sep s <> [].
Proof. destruct s as [|c s]; [done|]. cbn. destruct (Ascii.eqb c sep); [done|]. by destruct (split_on sep s). Qed.
Lemma join_split p : join_with "/" (split_on slash p) = p.
Proof.
  unfold join_with. induction p as [|c p IH]; [done|]. cbn [split_on]. destruct (Ascii.eqb_spec c slash) as [->|Hc].
  - pose proof (split_nonempty slash p) as Hne. destruct (split_on slash p) as [|s l] eqn:E; [done|].
    change (String.concat "/" ("" :: s :: l)) with (String slash (String.concat "/" (s :: l))). by rewrite IH.
  - pose proof (split_nonempty slash p) as Hne. destruct (split_on slash p) as [|s l] eqn:E; [done|].
    destruct l as [|t l]; cbn in *; by rewrite <- IH.
Qed.
Lemma split_no_slash p : forallb (fun s => negb (has_char slash s)) (split_on slash p) = true.
Proof.
  induction p as [|c p IH]; [done|]. cbn [split_on]. destruct (Ascii.eqb c slash) eqn:Ec; [done|].
  pose proof (split_nonempty slash p). destruct (split_on slash p) as [|s l]; [done|]. cbn in *. unfold has_char in *. cbn. rewrite Ascii.eqb_sym, Ec. exact IH.
Qed.

Lemma has_char_parts c sep parts : has_char c (join_with sep parts) = false -> forallb (fun s => negb (has_char c s)) parts = true.
Proof.
  unfold join_with. induction parts as [|s [|t parts] IH]; intros Hc; [done| |].
  - change (String.concat sep [s]) with s in Hc. cbn [forallb]. by rewrite Hc.
  - change (String.concat sep (s :: t :: parts)) with (s +:+ sep +:+ String.concat sep (t :: parts)) in Hc.
    rewrite !has_char_app in Hc. apply orb_false_iff in Hc as [Hs Hc]. apply orb_false_iff in Hc as [_ Hc].
    specialize (IH Hc). cbn [forallb] in *. by rewrite Hs, IH.
Qed.

Lemma normalized_components p p' : validate_normalized_data_relative_path p = Ok p' ->
  p' = p /\ forallb component (split_on slash p) = true.
Proof.
  unfold validate_normalized_data_relative_path. intros H. apply raise_if_ok in H as [H [= <-]]. split; [done|].
  apply orb_false_iff in H as [H Hdots]. apply orb_false_iff in H as [H _]. apply orb_false_iff in H as [H Hback].
  apply orb_false_iff in H as [_ Hnul]. rewrite <- (join_split p) in Hnul, Hback. apply has_char_parts in Hnul, Hback.
  pose proof (split_no_slash p) as Hslash. rewrite forallb_forall in *. intros s Hs. unfold component.
  rewrite (Hnul s Hs), (Hback s Hs), (Hslash s Hs), bool_decide_eq_false_2; [done|]. intros Hin.
  apply not_true_iff_false in Hdots. apply Hdots. apply existsb_exists. exists s. split; [done|]. by apply bool_decide_eq_true.
Qed.

Lemma dots (s : string) : s ∈ [""; "."; ".."] <-> s = "" \/ s = "." \/ s = "..".
Proof. rewrite !elem_of_cons, elem_of_nil. tauto. Qed.

Lemma component_app s w : component s = true -> forallb plain_char (chars_of w) = true -> component (s +:+ w) = true.
Proof.
  unfold component. intros H Hw. apply andb_true_iff in H as [H H4]. apply andb_true_iff in H as [H H3].
  apply andb_true_iff in H as [H1 H2]. rewrite !has_char_app. apply negb_true_iff in H1, H2, H3, H4.
  apply bool_decide_eq_false in H1. rewrite H2, H3, H4.
  assert (Hno : forall c, plain_char c = false -> has_char c w = false).
  { intros c Hc. apply not_true_iff_false. unfold has_char. intros (d & Hd & E%Ascii.eqb_eq)%existsb_exists. subst d.
    rewrite forallb_forall in Hw. specialize (Hw c Hd). congruence. }
  rewrite !Hno by done. rewrite bool_decide_eq_false_2; [done|]. rewrite dots in *. intros Hin. apply H1.
  assert (Hpre : forall u n, s +:+ w = u -> String.length u = n -> exists k, (k <= n)%nat /\ chars_of s = take k (chars_of u)).
  { intros u n <- <-. exists (length (chars_of s)). rewrite chars_app, length_chars, chars_app, take_app_length, length_app. split; [lia|done]. }
  assert (Hk : forall u, s +:+ w = u -> exists k, (k <= String.length u)%nat /\ chars_of s = take k (chars_of u)) by (intros u E; by apply (Hpre u)).
  destruct Hin as [E|[E|E]]; destruct (Hk _ E) as (k & Hle & Hs); cbn in Hle;
    (do 3 (destruct k as [|k]; [apply (chars_inj s ""%string) in Hs || apply (chars_inj s "."%string) in Hs || apply (chars_inj s ".."%string) in Hs; tauto|]));
    lia.
Qed.

Lemma component_prefix s w : component (s +:+ w) = true -> s ∉ [""; "."; ".."] -> component s = true.
Proof.
  unfold component. rewrite !has_char_app. intros Hc Hd. rewrite (bool_decide_eq_false_2 (s ∈ _)) by done.
  destruct (has_char Ascii.zero s), (has_char slash s), (has_char backslash s); cbn in *; by rewrite ?andb_false_r in Hc.
Qed.

(** ** Suffixes *)
Lemma suffix_iff w s : suffix w s = true <-> exists t, s = t +:+ w.
Proof.
  split; [|intros [t ->]; apply suffix_app]. intros [t Ht]%suffix_chars. exists (String.string_of_list_ascii t).
  apply chars_inj. by rewrite chars_app, chars_string.
Qed.
(** A suffix without a slash is one of the last component. *)
Lemma suffix_join w dirs f : has_char slash w = false -> suffix w (join_with "/" (dirs ++ [f])) = suffix w f.
Proof.
  intros Hw. destruct dirs as [|d0 dirs0] eqn:Ed; [done|]. rewrite <- Ed. clear d0 dirs0 Ed.
  assert (Hjoin : exists t, join_with "/" (dirs ++ [f]) = t +:+ f).
  { exists (join_with "/" (dirs ++ [""])). by rewrite <- join_last. }
  apply eq_true_iff_eq. rewrite !suffix_iff. split.
  - intros [t E]. destruct dirs as [|d dirs] using rev_ind; [by exists t|]. clear IHdirs.
    assert (Hs : exists u, join_with "/" ((dirs ++ [d]) ++ [f]) = u +:+ "/" +:+ f).
    { clear. rewrite <- (assoc_L (++)). induction dirs as [|x dirs [u IH]]; [by exists d|].
      exists (x +:+ "/" +:+ u). change ((x :: dirs) ++ [d] ++ [f]) with (x :: (dirs ++ [d] ++ [f])).
      rewrite join_cons by (by destruct dirs). by rewrite IH, !append_assoc. }
    destruct Hs as [u Hu]. rewrite Hu in E. apply (f_equal chars_of) in E. rewrite !chars_app in E.
    assert (Hno : forall k, chars_of w <> k ++ chars_of ("/" +:+ f)).
    { intros k E2. unfold has_char in Hw. rewrite E2, existsb_app in Hw. cbn in Hw. by rewrite orb_true_r in Hw. }
    apply app_eq_inv in E as [(k & _ & E2)|(k & _ & E2)]; [by apply Hno in E2|].
    destruct k as [|c k]; cbn [app] in E2; [by destruct (Hno []); cbn in *|].
    injection E2 as <- E2. exists (String.string_of_list_ascii k). apply chars_inj. by rewrite chars_app, chars_string.
  - intros [t ->]. destruct Hjoin as [u ->]. exists (u +:+ t). by rewrite append_assoc.
Qed.

(** ** The numbers of a part's name *)
Lemma span_digits_ok cs d r : span_digits cs = (d, r) -> cs = d ++ r /\ forallb is_digit d = true.
Proof.
  revert d r. induction cs as [|c cs IH]; intros d r Hs; cbn in Hs; [by injection Hs as <- <-|].
  destruct (is_digit c) eqn:Ec; [|by injection Hs as <- <-].
  destruct (span_digits cs) as [d1 r1]. injection Hs as <- <-. destruct (IH _ _ eq_refl) as [-> Hd]. cbn. by rewrite Ec.
Qed.
Lemma canonical_int_ok cs n r : canonical_int cs = Some (n, r) -> exists d, cs = d ++ r /\ forallb is_digit d = true /\ 0 <= n.
Proof.
  unfold canonical_int. destruct (span_digits cs) as [d r1] eqn:Es. apply span_digits_ok in Es as [-> Hd].
  destruct d as [|c d]; [done|]. destruct (_ && _); [done|]. intros [= <- <-]. exists (c :: d). split_and!; try done.
  by apply parse_digits_nonneg.
Qed.
Lemma drop_prefix_ok w cs r : drop_prefix w cs = Some r -> cs = w ++ r.
Proof.
  revert cs. induction w as [|c w IH]; intros cs Hd; cbn in Hd; [by injection Hd as ->|].
  destruct cs as [|d cs]; [done|]. destruct (Ascii.eqb_spec c d) as [->|]; [|done]. cbn. f_equal. auto.
Qed.

Lemma final_name_shape g start sequence : _FINAL_PART_NAME g = Some (start, sequence) ->
  0 <= start /\ 0 <= sequence /\ exists stem, g = ("part-" +:+ stem) +:+ ".jsonl.zst".
Proof.
  unfold _FINAL_PART_NAME. intros (r0 & E0%drop_prefix_ok & E)%bind_Some. apply bind_Some in E as ([s1 r1] & E1 & E).
  apply bind_Some in E as (r2 & E2%drop_prefix_ok & E). apply bind_Some in E as ([s2 r3] & E3 & E).
  apply canonical_int_ok in E1 as (d1 & -> & Hd1 & H1). apply canonical_int_ok in E3 as (d2 & -> & Hd2 & H2).
  case_bool_decide as Er; [|done]. injection E as <- <-. split_and!; [done|done|].
  exists (String.string_of_list_ascii (d1 ++ chars_of "-" ++ d2)). apply chars_inj. rewrite !chars_app, chars_string, E0, E2, Er.
  by rewrite <- !(assoc_L (++)).
Qed.

(** ** A source path that recovery accepts *)
Lemma of_value_inv {A} `{StrEnum A} text (a : A) : of_value text = Some a -> text = value a.
Proof. unfold of_value. intros [_ E%String.eqb_eq]%find_some. done. Qed.

(** The scope of an accepted path is that of the manifests of its parts, but for a control
    stream of a market, which the manifests do not have. *)
Lemma parse_scope_inv parts ex m k st hour f :
  parts !! 0%nat = Some "raw" -> parts !! 1%nat = Some (exchange_value ex) -> parse_scope parts = Ok (m, k, st, hour, f) ->
  exists scope, parts = scope ++ hour ++ [f] /\ (forall f', parse_scope (scope ++ hour ++ [f']) = Ok (m, k, st, hour, f')) /\
    scope !! 0%nat = Some "raw" /\ scope !! 1%nat = Some (exchange_value ex) /\
    ((st = "_control" -> m = None) -> manifest_scope ex m k st = Ok scope).
Proof.
  intros H0 H1 Hp. destruct parts as [|p0 [|p1 parts]]; [done..|]. injection H0 as ->. injection H1 as ->.
  do 6 (destruct parts as [|? parts]; [done|]). destruct parts as [|? parts].
  - cbn -[String.eqb] in Hp. destruct (String.eqb_spec s "_control") as [->|]; [|done]. injection Hp as <- <- <- <- <-.
    by exists ["raw"; exchange_value ex; "_control"].
  - destruct parts as [|? parts]; [done|]. destruct parts as [|? parts]; [|done].
    unfold parse_scope in Hp. destruct (of_value s) as [market|] eqn:Em; [|done]. pose proof (of_value_inv _ _ Em) as ->.
    destruct (String.eqb_spec s0 "_market") as [->|Hne].
    + apply raise_if_ok in Hp as [Hst%negb_false_iff%bool_decide_eq_true [= <- <- <- <- <-]].
      exists ["raw"; exchange_value ex; value market; "_market"; s1]. cbn [app]. split_and!; [done| |done|done|].
      * intros f'. unfold parse_scope. rewrite Em. cbn -[bool_decide]. by rewrite bool_decide_eq_true_2.
      * intros Hc. unfold manifest_scope. destruct (String.eqb_spec s1 "_control") as [->|]; [by specialize (Hc eq_refl)|].
        by rewrite bool_decide_eq_true_2.
    + apply raise_if_ok in Hp as [Ht Hp]. apply rbind_ok in Hp as (enc & Henc & Hp). apply raise_if_ok in Hp as [He Hp].
      apply negb_false_iff, String.eqb_eq in He as ->. apply raise_if_ok in Hp as [Hst [= <- <- <- <- <-]].
      exists ["raw"; exchange_value ex; value market; s0; s1]. cbn [app]. split_and!; [done| |done|done|].
      * intros f'. unfold parse_scope. rewrite Em, (proj2 (String.eqb_neq _ _) Hne), Ht, Henc. cbn [raise_if rbind].
        by rewrite String.eqb_refl, Hst.
      * intros Hc. unfold manifest_scope. destruct (String.eqb_spec s1 "_control") as [->|]; [by specialize (Hc eq_refl)|].
        by rewrite Hst, Henc.
Qed.

(** The directories and the name of a source, its numbers, and that every part name with the
    same start belongs to the same directory. *)
Record source_at (dirs : list string) (f : string) (start sequence : Z) (path : string) (id : _SourcePathIdentity) : Prop := {
  sa_path : path = join_with "/" (dirs ++ [f]);
  sa_split : split_on slash path = dirs ++ [f];
  sa_components : forallb component (dirs ++ [f]) = true;
  sa_name : _FINAL_PART_NAME (removesuffix ".partial" f) = Some (start, sequence);
  sa_siblings f' q : component f' = true -> _FINAL_PART_NAME (removesuffix ".partial" f') = Some (start, q) ->
    _parse_source_path (join_with "/" (dirs ++ [f'])) = Ok id;
  sa_scope : (sp_logical_stream id = "_control" -> sp_market id = None) -> exists scope,
    manifest_scope (sp_exchange id) (sp_market id) (sp_instrument_key id) (sp_logical_stream id) = Ok scope /\
    dirs = scope ++ storage_hour id
}.

Lemma normalized_relative_inv p n p' : _normalized_relative_path p n = Ok p' -> p' = p /\ forallb component (split_on slash p) = true.
Proof.
  unfold _normalized_relative_path. destruct (validate_normalized_data_relative_path p) as [p1|] eqn:E; [|done].
  intros [= <-]. by apply normalized_components.
Qed.
Lemma relative_join n parts : parts <> [] -> forallb component parts = true ->
  _normalized_relative_path (join_with "/" parts) n = Ok (join_with "/" parts) /\ split_on slash (join_with "/" parts) = parts.
Proof. intros Hne Hc. destruct (join_normalized _ Hne Hc) as [Hn Hs]. split; [|done]. unfold _normalized_relative_path. by rewrite Hn. Qed.

Lemma parse_path_inv path id : _parse_source_path path = Ok id -> exists dirs f start sequence, source_at dirs f start sequence path id.
Proof.
  unfold _parse_source_path at 1. intros (p' & [-> Hcomp]%normalized_relative_inv & Hp)%rbind_ok.
  apply raise_if_ok in Hp as [H0%negb_false_iff%bool_decide_eq_true Hp].
  destruct (split_on slash path !! 1%nat ≫= of_value) as [ex|] eqn:H1; [|done].
  apply rbind_ok in Hp as ([[[[m k] st] hour] f] & Hscope & Hp). apply rbind_ok in Hp as (h & Hh & Hp).
  apply raise_if_ok in Hp as [Hhour%negb_false_iff%bool_decide_eq_true Hp].
  destruct (_FINAL_PART_NAME _) as [[start sequence]|] eqn:Hname; [|done]. apply raise_if_ok in Hp as [Hstart [= <-]].
  assert (H1' : split_on slash path !! 1%nat = Some (exchange_value ex)).
  { destruct (split_on slash path !! 1%nat) as [s|]; [|done]. cbn [option_bind] in H1. by apply of_value_inv in H1 as ->. }
  destruct (parse_scope_inv _ _ _ _ _ _ _ H0 H1' Hscope) as (scope & Hparts & Hagain & Hs0 & Hs1 & Hms).
  exists (scope ++ hour), f, start, sequence. pose proof (join_split path) as Hjoin.
  rewrite Hparts, (assoc_L (++)) in Hjoin, Hcomp. split; cbn [sp_logical_stream sp_market sp_exchange sp_instrument_key storage_hour].
  - done.
  - by rewrite Hparts, (assoc_L (++)).
  - done.
  - done.
  - intros f' q Hf' Hname'. rewrite forallb_app in Hcomp. apply andb_true_iff in Hcomp as [Hdirs _].
    assert (Hall : forallb component ((scope ++ hour) ++ [f']) = true) by (rewrite forallb_app, Hdirs; cbn; by rewrite Hf').
    destruct (relative_join "source_relative_path" _ (ltac:(by destruct (scope ++ hour)) : (scope ++ hour) ++ [f'] <> []) Hall) as [Hn Hsp].
    unfold _parse_source_path. rewrite Hn. cbn [rbind]. rewrite Hsp, <- (assoc_L (++)), Hagain.
    rewrite !lookup_app_l by (by apply lookup_lt_Some in Hs0, Hs1; lia). rewrite Hs0, Hs1, bool_decide_eq_true_2 by done.
    cbn [negb raise_if option_bind]. replace (Some _ ≫= of_value) with (Some ex) by (symmetry; apply exchange_component).
    cbn [rbind]. rewrite Hh. cbn [rbind]. rewrite bool_decide_eq_true_2 by done. cbn [negb raise_if]. by rewrite Hname', Hstart.
  - intros Hc. exists scope. split; [by apply Hms|]. by rewrite Hhour.
Qed.

(** ** Names of parts *)
Lemma last_char (s w t u : string) c : s +:+ w = t +:+ u -> last (chars_of u) = Some c -> last (chars_of w) <> None -> last (chars_of w) = Some c.
Proof.
  intros E Hu Hw. apply (f_equal chars_of), (f_equal last) in E. rewrite !chars_app, !last_app, Hu in E.
  by destruct (last (chars_of w)).
Qed.
Lemma suffix_zst s : suffix ".partial" (s +:+ ".jsonl.zst") = false /\ suffix ".jsonl.zst.partial" (s +:+ ".jsonl.zst") = false.
Proof.
  split; apply not_true_iff_false; intros [t E]%suffix_iff; pose proof (last_char _ _ _ _ (chr 108) E eq_refl) as H; by specialize (H ltac:(done)).
Qed.
Lemma suffix_partial s : suffix ".jsonl.zst" (s +:+ ".jsonl.zst.partial") = false.
Proof. apply not_true_iff_false. intros [t E]%suffix_iff. pose proof (last_char _ _ _ _ (chr 116) E eq_refl) as H. by specialize (H ltac:(done)). Qed.

Lemma part_stem t : "part-" +:+ t ∉ [""; "."; ".."].
Proof. rewrite dots. intros [E|[E|E]]; apply (f_equal chars_of) in E; rewrite chars_app in E; by inversion E. Qed.

(** The name of a complete part, and its stem. *)
Definition final_name (start sequence : Z) (g : string) : Prop := component g = true /\ _FINAL_PART_NAME g = Some (start, sequence).
Lemma final_stem start q g : final_name start q g -> exists stem, g = stem +:+ ".jsonl.zst" /\ stem ∉ [""; "."; ".."] /\
  component stem = true /\ removesuffix ".partial" g = g /\ 0 <= start /\ 0 <= q.
Proof.
  intros [Hc (Hs & Hq & t & ->)%final_name_shape]. exists ("part-" +:+ t). split_and!; try done.
  - apply part_stem.
  - by apply component_prefix in Hc; [|apply part_stem].
  - unfold removesuffix. by rewrite (proj1 (suffix_zst _)).
Qed.

(** A source is a complete part or one with the suffix of an unfinished one. *)
Lemma source_name dirs f start sequence path id : source_at dirs f start sequence path id ->
  exists g, final_name start sequence g /\
    ((f = g /\ suffix ".jsonl.zst.partial" path = false /\ suffix ".jsonl.zst" path = true) \/
     (f = g +:+ ".partial" /\ suffix ".jsonl.zst.partial" path = true /\ suffix ".jsonl.zst" path = false)).
Proof.
  intros [Hp _ Hc Hn _ _]. rewrite Hp, !suffix_join by done. rewrite forallb_app in Hc. apply andb_true_iff in Hc as [_ Hc].
  cbn in Hc. rewrite andb_true_r in Hc. destruct (suffix ".partial" f) eqn:Ef.
  - apply suffix_iff in Ef as [g ->]. rewrite removesuffix_app in Hn. exists g.
    pose proof (final_name_shape _ _ _ Hn) as (_ & _ & t & ->). split.
    + split; [|done]. apply component_prefix in Hc; [done|]. rewrite append_assoc. apply part_stem.
    + right. split; [done|]. rewrite append_assoc. change (".jsonl.zst" +:+ ".partial") with ".jsonl.zst.partial".
      split; [apply suffix_app|apply suffix_partial].
  - unfold removesuffix in Hn. rewrite Ef in Hn. exists f. split; [done|]. left. split; [done|].
    pose proof (final_name_shape _ _ _ Hn) as (_ & _ & t & ->). split; [apply suffix_zst|apply suffix_app].
Qed.

(** ** What recovery derives *)
Section Derived.
Context {dirs : list string} {f : string} {start sequence : Z} {path : string} {id : _SourcePathIdentity}.
Context (Hsource : source_at dirs f start sequence path id).

Lemma dirs_components : forallb component dirs = true.
Proof. pose proof (sa_components _ _ _ _ _ _ Hsource) as Hc. rewrite forallb_app in Hc. by apply andb_true_iff in Hc as [? _]. Qed.
Lemma in_dirs g n : component g = true ->
  _normalized_relative_path (join_with "/" (dirs ++ [g])) n = Ok (join_with "/" (dirs ++ [g])) /\
  path_ok (join_with "/" (dirs ++ [g])) = true /\ split_on slash (join_with "/" (dirs ++ [g])) = dirs ++ [g].
Proof.
  intros Hg. assert (Hall : forallb component (dirs ++ [g]) = true) by (rewrite forallb_app, dirs_components; cbn; by rewrite Hg).
  destruct (join_normalized (dirs ++ [g]) ltac:(by destruct dirs) Hall) as [Hn Hs]. unfold path_ok, _normalized_relative_path.
  by rewrite Hn.
Qed.

Lemma source_normalized n : _normalized_relative_path path n = Ok path /\ path_ok path = true.
Proof.
  pose proof (sa_components _ _ _ _ _ _ Hsource) as Hc. rewrite (sa_path _ _ _ _ _ _ Hsource). rewrite forallb_app in Hc.
  apply andb_true_iff in Hc as [_ Hc]. cbn in Hc. rewrite andb_true_r in Hc. destruct (in_dirs f n Hc) as (H1 & H2 & _). done.
Qed.

Lemma fresh_name next : 0 <= next -> final_name start next (part_filename start next).
Proof.
  intros Hn. destruct (source_name _ _ _ _ _ _ Hsource) as (g & Hg & _). apply final_stem in Hg as (_ & _ & _ & _ & _ & Hs & _).
  split; [|by apply part_name_parsed]. rewrite <- (append_nil (part_filename start next)). by apply filename_component.
Qed.

Lemma next_path next : 0 <= next -> next <> sequence ->
  _next_recovery_relative_path path next = Ok (join_with "/" (dirs ++ [part_filename start next])).
Proof.
  intros Hn Hne. unfold _next_recovery_relative_path, name, with_name. rewrite (proj2 (Z.ltb_ge _ _)) by done.
  rewrite (sa_split _ _ _ _ _ _ Hsource), List.last_last, (sa_name _ _ _ _ _ _ Hsource), removelast_last. cbn [raise_if].
  destruct (String.eqb_spec (join_with "/" (dirs ++ [part_filename start next])) (removesuffix ".partial" path)) as [E|E]; [|done].
  exfalso. apply Hne. destruct (source_name _ _ _ _ _ _ Hsource) as (g & Hg & Hf).
  assert (removesuffix ".partial" path = join_with "/" (dirs ++ [g])) as E'.
  { rewrite (sa_path _ _ _ _ _ _ Hsource). destruct Hf as [(-> & _)|(-> & _)].
    - destruct (final_stem _ _ _ Hg) as (stem & -> & _). unfold removesuffix. rewrite suffix_join by done. by rewrite (proj1 (suffix_zst _)).
    - rewrite join_last. apply removesuffix_app. }
  rewrite E' in E. apply (f_equal (split_on slash)) in E. destruct (fresh_name next Hn) as [Hc Hname]. destruct Hg as [Hgc Hg].
  rewrite (proj2 (proj2 (in_dirs _ "" Hc))), (proj2 (proj2 (in_dirs _ "" Hgc))) in E. apply app_inj_2 in E as [_ [= <-]]; [|done]. congruence.
Qed.

(** The generation and the manifest of a complete part next to the source. *)
Lemma data_generation uuid5 q g : final_name start q g ->
  recovery_generation_id uuid5 (join_with "/" (dirs ++ [g])) = Ok (uuid5 (join_with "/" (dirs ++ [g]))).
Proof.
  intros Hg. destruct (final_stem _ _ _ Hg) as (_ & _ & _ & _ & Hrm & _). destruct Hg as [Hc Hname]. unfold recovery_generation_id.
  destruct (in_dirs g "data_relative_path" Hc) as (-> & _ & Hsp). cbn [rbind].
  rewrite bool_decide_eq_false_2 by (unfold name; by rewrite Hsp, List.last_last, Hname). cbn [raise_if]. by rewrite (sa_siblings _ _ _ _ _ _ Hsource g q) by (done || by rewrite Hrm).
Qed.

Lemma data_manifest q g : final_name start q g -> exists m,
  manifest_path_for_data (join_with "/" (dirs ++ [g])) = Ok m /\ path_ok m = true /\ parent m = dirs.
Proof.
  intros Hg. destruct (final_stem _ _ _ Hg) as (stem & -> & Hd & Hc & _). destruct Hg as [Hgc _].
  destruct (in_dirs _ "" Hgc) as (_ & _ & Hsp). unfold manifest_path_for_data, _sibling_path, name, with_name.
  rewrite Hsp, List.last_last, removelast_last, suffix_app, removesuffix_app, bool_decide_eq_false_2 by done. cbn [negb raise_if].
  assert (Hm : component (stem +:+ ".manifest.json") = true) by (by apply component_app).
  destruct (in_dirs _ "" Hm) as (_ & Hok & Hs). eexists. split; [done|]. unfold parent. by rewrite Hs, removelast_last.
Qed.

(** A path in the quarantine. *)
Lemma quarantine_path w : forallb plain_char (chars_of w) = true -> exists q, _quarantine_relative_path path w = Ok q /\ path_ok q = true.
Proof.
  intros Hw. unfold _quarantine_relative_path. rewrite (proj1 (source_normalized "source_relative_path")). cbn [rbind].
  destruct (source_name _ _ _ _ _ _ Hsource) as (g & Hg & Hf).
  replace (suffix ".jsonl.zst" path || suffix ".jsonl.zst.partial" path) with true by (by destruct Hf as [(_ & -> & ->)|(_ & -> & ->)]).
  cbn [negb raise_if]. pose proof (sa_components _ _ _ _ _ _ Hsource) as Hc.
  assert (Hfw : component (f +:+ "." +:+ w) = true).
  { rewrite forallb_app in Hc. apply andb_true_iff in Hc as [_ Hc]. cbn in Hc. rewrite andb_true_r in Hc. by apply component_app. }
  assert (Hall : forallb component ("quarantine" :: dirs ++ [f +:+ "." +:+ w]) = true).
  { cbn [forallb]. rewrite forallb_app, dirs_components. cbn [forallb]. by rewrite Hfw. }
  assert (E : "quarantine/" +:+ path +:+ "." +:+ w = join_with "/" ("quarantine" :: dirs ++ [f +:+ "." +:+ w])).
  { rewrite join_cons by (by destruct dirs). rewrite join_last, (sa_path _ _ _ _ _ _ Hsource). done. }
  rewrite E. destruct (join_normalized _ (ltac:(done) : "quarantine" :: dirs ++ [f +:+ "." +:+ w] <> []) Hall) as [Hn _].
  unfold path_ok, _normalized_relative_path. rewrite Hn. eexists. split; [done|]. by rewrite Hn.
Qed.
End Derived.
