(* ===== verification/RowFacts.v ===== *)
(** The facts a manifest states about the rows of a recovered part: what
    [_RecoveryRowFactsBuilder] collects from a part's envelopes. *)
From S2P Require Import Prelude PyDecimal Domain StorageModels PyText CatalogJson PyTime PartPath EnvelopeJson FrameScan ScanFacts RecoveryScan.
From S2P Require Import Manifest PathFacts.

(** ** The sets *)
Lemma elem_of_add_opt {A} `{Countable A} (o : option A) (s : gset A) x : x ∈ add_opt o s <-> o = Some x \/ x ∈ s.
Proof. destruct o; cbn; set_solver. Qed.

(** What the builder has collected after some envelopes. *)
Record collected (es : list RawEnvelope) (b : _RecoveryRowFactsBuilder) : Prop := {
  co_rows : b_rows b = Z.of_nat (length es);
  co_first : b_first b = head es;
  co_last : b_last b = last es;
  co_first_event : first_event_time_ns b = head (omap (fun e => event_time_ns (base e)) es);
  co_last_event : last_event_time_ns b = last (omap (fun e => event_time_ns (base e)) es);
  co_symbols x : x ∈ wire_symbols b <-> exists e, e ∈ es /\ wire_symbol (base e) = Some x;
  co_generations x : x ∈ connection_generations b <-> exists e, e ∈ es /\ env_connection_generation e = Some x;
  co_egress x : x ∈ egress_ids b <-> exists e, e ∈ es /\ env_egress_id e = Some x;
  co_requested x : x ∈ requested_intervals_ns b <-> exists e i, e ∈ es /\ intervals e = Some (x, i);
  co_effective x : x ∈ effective_intervals_ns b <-> exists e i, e ∈ es /\ intervals e = Some (i, x)
}.

Lemma collects (s : list RawEnvelope) b e : collected s b -> collected (s ++ [e]) (extend_one b e).
Proof.
  intros [H1 H2 H3 H4 H5 H6 H7 H8 H9 H10]. split; cbn.
  - rewrite length_app. cbn. lia.
  - rewrite H2. by destruct s.
  - by rewrite last_snoc.
  - rewrite H4, omap_app. cbn. destruct (omap _ s); cbn; by destruct (event_time_ns (base e)).
  - rewrite H5, omap_app. cbn. destruct (event_time_ns (base e)); by rewrite ?last_snoc, ?app_nil_r.
  - intros x. rewrite elem_of_add_opt, H6. set_solver.
  - intros x. rewrite elem_of_add_opt, H7. set_solver.
  - intros x. rewrite elem_of_add_opt, H8. set_solver.
  - intros x. rewrite elem_of_add_opt, H9. destruct (intervals e) as [[r f]|] eqn:E; set_solver.
  - intros x. rewrite elem_of_add_opt, H10. destruct (intervals e) as [[r f]|] eqn:E; set_solver.
Qed.

Lemma extend_collects es : collected es (extend new_builder es).
Proof.
  induction es as [|e es IH] using rev_ind; [by split; cbn; set_solver|].
  unfold extend. rewrite foldl_app. by apply collects.
Qed.

(** ** Sorted sets *)
Section Sorted.
Context {A : Type} `{Countable A} (leb : A -> A -> bool) `{!LebOrder leb}.

Lemma sorted_set_unique (s : gset A) : sorted_unique_by leb (sorted_set leb s) = true.
Proof.
  unfold sorted_unique_by, sorted_set. apply andb_true_iff. rewrite !bool_decide_eq_true. split.
  - symmetry. by apply sorted_id, py_sorted_sorted.
  - apply NoDup_py_sorted, NoDup_elements.
Qed.
Lemma sorted_set_forall (p : A -> bool) (s : gset A) : (forall x, x ∈ s -> p x = true) -> forallb p (sorted_set leb s) = true.
Proof.
  intros Hp. apply forallb_forall. intros x Hx%list_elem_of_In. apply Hp. unfold sorted_set in Hx.
  by rewrite elem_of_py_sorted, elem_of_elements in Hx.
Qed.
Lemma sorted_set_nil (s : gset A) : nil (sorted_set leb s) = bool_decide (s = ∅).
Proof.
  unfold sorted_set. pose proof (py_sorted_length leb (elements s)) as Hl. case_bool_decide as Hs.
  - subst s. by rewrite elements_empty.
  - destruct (py_sorted leb (elements s)); [|done]. exfalso. apply Hs, leibniz_equiv, elements_empty_iff.
    by destruct (elements s).
Qed.
End Sorted.

(** ** An envelope *)
Lemma envelope_facts e : envelope_made e ->
  nonneg (received_at_ns e) = true /\ nonempty (worker_instance_id e) = true /\ opt_ok nonneg (env_connection_generation e) = true /\
  nonneg (writer_sequence e) = true /\ opt_ok nonempty (env_egress_id e) = true /\ config_sha256_ok (config_sha256 e) = true /\
  opt_ok nonempty (instrument_key (base e)) = true /\ nonempty (logical_stream (base e)) = true /\
  opt_ok nonempty (wire_symbol (base e)) = true /\ opt_ok nonneg (event_time_ns (base e)) = true /\
  present (instrument_key (base e)) = present (wire_symbol (base e)) /\
  (forall r f, intervals e = Some (r, f) -> positive r = true /\ positive f = true).
Proof.
  intros [He Hm]. unfold envelope_validate in He. apply raise_if_ok in He as [Hf%negb_false_iff He].
  apply rbind_ok in He as (d & Hd & _). unfold draft_validate in Hd. apply raise_if_ok in Hd as [Hf2%negb_false_iff Hd].
  apply raise_if_ok in Hd as [_ Hd]. apply raise_if_ok in Hd as [Hk%negb_false_iff%eqb_prop _].
  bool_prop. split_and!; try done. intros r f Hi. unfold intervals in Hi. apply bind_Some in Hi as (m & Em & Hi).
  apply bind_Some in Hi as (r' & Er & Hi). apply bind_Some in Hi as (f' & Ef & [= <- <-]).
  rewrite Em in Hm. cbn in Hm. unfold metadata_validate in Hm. apply raise_if_ok in Hm as [Hm%negb_false_iff _].
  rewrite Er, Ef in Hm. bool_prop. done.
Qed.

(** ** The facts of a part *)
(** What holds of the facts that are frozen after the rows [es] of a part. *)
Record facts_of (id : _SourcePathIdentity) (es : list RawEnvelope) (r : RecoveryRowFacts) : Prop := {
  fa_identity : (rf_exchange r, rf_market r, rf_instrument_key r, rf_logical_stream r)
    = (sp_exchange id, sp_market id, sp_instrument_key id, sp_logical_stream id);
  fa_count : rf_record_count r = Z.of_nat (length es) /\ 0 < rf_record_count r;
  fa_first : received_at_ns <$> head es = Some (first_received_at_ns r);
  fa_last : received_at_ns <$> last es = Some (last_received_at_ns r);
  fa_times : nonneg (first_received_at_ns r) = true /\ nonneg (last_received_at_ns r) = true;
  fa_hours : _utc_storage_hour (first_received_at_ns r) = Ok (join_with "/" (storage_hour id)) /\
    _utc_storage_hour (last_received_at_ns r) = Ok (join_with "/" (storage_hour id)) /\
    split_on slash (join_with "/" (storage_hour id)) = storage_hour id;
  fa_events : present (rf_first_event_time_ns r) = present (rf_last_event_time_ns r) /\
    opt_ok nonneg (rf_first_event_time_ns r) = true /\ opt_ok nonneg (rf_last_event_time_ns r) = true;
  fa_sequences : nonneg (writer_sequence_first r) = true /\ nonneg (writer_sequence_last r) = true /\
    writer_sequence_first r <= writer_sequence_last r;
  fa_names : nonempty (rf_worker_instance_id r) = true /\ nonempty (rf_logical_stream r) = true /\
    opt_ok nonempty (rf_instrument_key r) = true /\ config_sha256_ok (rf_config_sha256 r) = true;
  fa_symbols : sorted_unique_by string_leb (rf_wire_symbols r) = true /\ forallb nonempty (rf_wire_symbols r) = true /\
    nil (rf_wire_symbols r) = negb (present (rf_instrument_key r));
  fa_generations : sorted_unique_by Z.leb (rf_connection_generations r) = true /\
    forallb nonneg (rf_connection_generations r) = true;
  fa_egress : sorted_unique_by string_leb (rf_egress_ids r) = true /\ forallb nonempty (rf_egress_ids r) = true;
  fa_intervals : sorted_unique_by Z.leb (rf_requested_intervals_ns r) = true /\
    sorted_unique_by Z.leb (rf_effective_intervals_ns r) = true /\
    forallb positive (rf_requested_intervals_ns r) = true /\ forallb positive (rf_effective_intervals_ns r) = true /\
    nil (rf_requested_intervals_ns r) = nil (rf_effective_intervals_ns r)
}.

Lemma row_hour id e : row_of_part id e -> _utc_storage_hour (received_at_ns e) = Ok (join_with "/" (storage_hour id)) /\
  split_on slash (join_with "/" (storage_hour id)) = storage_hour id.
Proof.
  intros (_ & _ & _ & _ & h & Hh & Hs). unfold _utc_storage_hour. rewrite Hh.
  rewrite <- Hs, join_split. done.
Qed.

Lemma strongly_last (l : list Z) x y : StronglySorted Z.lt l -> head l = Some x -> last l = Some y -> x <= y.
Proof.
  intros Hl Hx Hy. destruct l as [|z l]; [done|]. injection Hx as ->. apply StronglySorted_inv in Hl as [_ Hl].
  rewrite last_cons in Hy. destruct (last l) as [w|] eqn:E; [|injection Hy as ->; lia]. injection Hy as ->.
  rewrite Forall_forall in Hl. apply last_Some_elem_of in E. specialize (Hl _ E). lia.
Qed.

Lemma forall_elem {A} (P : A -> Prop) (l : list A) x : Forall P l -> x ∈ l -> P x.
Proof. rewrite Forall_forall. auto. Qed.

Section Facts.
Context {id : _SourcePathIdentity} {es : list RawEnvelope}.
Context (Hrows : rows_of_part id es) (Hmade : Forall envelope_made es).
Local Abbreviation b := (extend new_builder es).

Lemma symbols_key : es <> [] -> bool_decide (wire_symbols b = ∅) = negb (present (sp_instrument_key id)).
Proof.
  intros Hne. destruct es as [|e es'] eqn:Ees; [done|]. rewrite <- Ees in *. assert (Hin : e ∈ es) by (rewrite Ees; left).
  pose proof (extend_collects es) as Hc. destruct (envelope_facts e) as (_ & _ & _ & _ & _ & _ & _ & _ & _ & _ & Hk & _); [by eapply forall_elem|].
  destruct (forall_elem _ _ _ (proj1 Hrows) Hin) as (_ & _ & Hid & _). rewrite Hid in Hk. rewrite Hk. case_bool_decide as Hs.
  - destruct (wire_symbol (base e)) as [w|] eqn:Ew; [|done].
    assert (w ∈ wire_symbols b) as Hw by (apply Hc; by exists e). rewrite Hs in Hw. set_solver.
  - destruct (wire_symbol (base e)) as [w|] eqn:Ew; [done|]. exfalso. apply Hs. apply leibniz_equiv. intros x.
    rewrite (co_symbols _ _ Hc). split; [|set_solver]. intros (e' & He' & Hx).
    destruct (envelope_facts e') as (_ & _ & _ & _ & _ & _ & _ & _ & _ & _ & Hk' & _); [by eapply forall_elem|].
    destruct (forall_elem _ _ _ (proj1 Hrows) He') as (_ & _ & Hid' & _). by rewrite Hid', Hx, Hk in Hk'.
Qed.

Lemma intervals_paired : bool_decide (requested_intervals_ns b = ∅) = bool_decide (effective_intervals_ns b = ∅).
Proof.
  pose proof (extend_collects es) as Hc. apply bool_decide_ext. split; intros Hs; apply leibniz_equiv; intros x; split; try set_solver.
  - intros (e & i & He & Hi)%(co_effective _ _ Hc). assert (i ∈ requested_intervals_ns b) as Hin by (apply Hc; by exists e, x).
    rewrite Hs in Hin. set_solver.
  - intros (e & i & He & Hi)%(co_requested _ _ Hc). assert (i ∈ effective_intervals_ns b) as Hin by (apply Hc; by exists e, x).
    rewrite Hs in Hin. set_solver.
Qed.

(** The elements of the sets passed the checks of the envelopes they come from. *)
Lemma set_elements :
  (forall x, x ∈ wire_symbols b -> nonempty x = true) /\ (forall x, x ∈ connection_generations b -> nonneg x = true) /\
  (forall x, x ∈ egress_ids b -> nonempty x = true) /\ (forall x, x ∈ requested_intervals_ns b -> positive x = true) /\
  (forall x, x ∈ effective_intervals_ns b -> positive x = true).
Proof.
  pose proof (extend_collects es) as Hc.
  assert (Hf : forall e, e ∈ es -> envelope_made e) by (intros e; by apply forall_elem). split_and!; intros x.
  - intros (e & He & Hx)%(co_symbols _ _ Hc). destruct (envelope_facts e (Hf e He)) as (_ & _ & _ & _ & _ & _ & _ & _ & H & _). by rewrite Hx in H.
  - intros (e & He & Hx)%(co_generations _ _ Hc). destruct (envelope_facts e (Hf e He)) as (_ & _ & H & _). by rewrite Hx in H.
  - intros (e & He & Hx)%(co_egress _ _ Hc). destruct (envelope_facts e (Hf e He)) as (_ & _ & _ & _ & H & _). by rewrite Hx in H.
  - intros (e & i & He & Hx)%(co_requested _ _ Hc). destruct (envelope_facts e (Hf e He)) as (_ & _ & _ & _ & _ & _ & _ & _ & _ & _ & _ & H). by destruct (H _ _ Hx).
  - intros (e & i & He & Hx)%(co_effective _ _ Hc). destruct (envelope_facts e (Hf e He)) as (_ & _ & _ & _ & _ & _ & _ & _ & _ & _ & _ & H). by destruct (H _ _ Hx).
Qed.

Lemma event_times :
  present (first_event_time_ns b) = present (last_event_time_ns b) /\
  opt_ok nonneg (first_event_time_ns b) = true /\ opt_ok nonneg (last_event_time_ns b) = true.
Proof.
  pose proof (extend_collects es) as Hc. rewrite (co_first_event _ _ Hc), (co_last_event _ _ Hc).
  set (ts := omap (fun e => event_time_ns (base e)) es).
  assert (Hts : forall t, t ∈ ts -> nonneg t = true).
  { intros t (e & He & Ht)%list_elem_of_omap. destruct (envelope_facts e (forall_elem _ _ _ Hmade He)) as (_ & _ & _ & _ & _ & _ & _ & _ & _ & H & _).
    by rewrite Ht in H. }
  split_and!.
  - destruct ts as [|t ts']; [done|]. rewrite last_cons. by destruct (last ts').
  - destruct (head ts) eqn:E; [|done]. apply Hts. by apply head_Some_elem_of.
  - destruct (last ts) eqn:E; [|done]. apply Hts. by apply last_Some_elem_of.
Qed.

Lemma facts_collected r : freeze b = Some r -> facts_of id es r.
Proof.
  pose proof (extend_collects es) as Hc. unfold freeze. rewrite (co_first _ _ Hc), (co_last _ _ Hc).
  destruct (head es) as [e1|] eqn:E1; [|done]. destruct (last es) as [e2|] eqn:E2; [|done]. intros [= <-].
  pose proof (head_Some_elem_of _ _ E1) as Hin1. pose proof (last_Some_elem_of _ _ E2) as Hin2.
  destruct (envelope_facts e1) as (F1 & F2 & F3 & F4 & F5 & F6 & F7 & F8 & _); [by eapply forall_elem|].
  destruct (envelope_facts e2) as (G1 & G2 & G3 & G4 & _); [by eapply forall_elem|].
  assert (Hne : es <> []) by (intros ->; done).
  pose proof (forall_elem _ _ _ (proj1 Hrows) Hin1) as Hrow1. pose proof (forall_elem _ _ _ (proj1 Hrows) Hin2) as Hrow2.
  destruct (row_hour _ _ Hrow1) as [Hh1 Hsp]. destruct (row_hour _ _ Hrow2) as [Hh2 _].
  destruct Hrow1 as (I1 & I2 & I3 & I4 & _). destruct set_elements as (S1 & S2 & S3 & S4 & S5).
  split; cbn [rf_exchange rf_market rf_instrument_key rf_logical_stream rf_record_count first_received_at_ns last_received_at_ns
    rf_first_event_time_ns rf_last_event_time_ns writer_sequence_first writer_sequence_last rf_worker_instance_id rf_config_sha256
    rf_wire_symbols rf_connection_generations rf_egress_ids rf_requested_intervals_ns rf_effective_intervals_ns];
    rewrite ?sorted_set_nil; try (split_and!; first [done | by apply sorted_set_unique; apply _ | by apply sorted_set_forall]).
  - by rewrite I1, I2, I3, I4.
  - rewrite (co_rows _ _ Hc). destruct es; [done|]. cbn. lia.
  - by rewrite E1.
  - by rewrite E2.
  - apply event_times.
  - split_and!; [done|done|]. eapply strongly_last; [apply Hrows|destruct es; [done|]; by injection E1 as ->|by rewrite fmap_last, E2].
  - split_and!; [by apply sorted_set_unique; apply _|by apply sorted_set_forall|]. rewrite I3. by apply symbols_key.
  - split_and!; [by apply sorted_set_unique; apply _..|by apply sorted_set_forall|by apply sorted_set_forall|]. apply intervals_paired.
Qed.
End Facts.
