(* ===== verification/PlanFacts.v ===== *)
(** The manifests and intents that recovery makes for a part pass their own checks. *)
From S2P Require Import Prelude PyDecimal Domain StorageModels PyText CatalogJson PyTime PartPath EnvelopeJson Manifest.
From S2P Require Import FrameScan ScanFacts RecoveryScan RecoveryPlan PathFacts RowFacts.

(** ** Manifests *)
(** How the source, the recovered part and the quarantined suffix of a plan are related. *)
Definition lineage_ok (state : RecoverySourceState) (src : Source) (data : string * Z * string)
    (quarantine : option (string * Z * string)) : Prop :=
  match state with
  | PARTIAL_COMPLETE => quarantine = None /\ suffix ".jsonl.zst.partial" (src_path src) = true /\
      data.1.2 = src_size src /\ data.2 = src_sha256 src
  | PARTIAL_TRUNCATED => exists q, quarantine = Some q /\ suffix ".jsonl.zst.partial" (src_path src) = true /\
      data.1.2 + q.1.2 = src_size src
  | ORPHAN_CLOSED_DATA => quarantine = None /\ data = (src_path src, src_size src, src_sha256 src)
  | _ => False
  end.
(** The path, size and digest of an artifact. *)
Definition artifact_ok (a : string * Z * string) : Prop :=
  path_ok a.1.1 = true /\ positive a.1.2 = true /\ config_sha256_ok a.2 = true.
Definition source_ok (src : Source) : Prop :=
  path_ok (src_path src) = true /\ nonneg (src_size src) = true /\ config_sha256_ok (src_sha256 src) = true /\
  canonical_uuid (src_transaction src) = true /\ nonneg (src_created_at_ns src) = true.

Ltac manifest_simpl := unfold recovery_fields; cbn [
    m_exchange m_market m_instrument_key m_logical_stream m_wire_symbols m_data_relative_path
    manifest_relative_path file_size_bytes file_sha256 m_zstd_level m_max_plain_frame_bytes m_record_count
    m_first_received_at_ns m_last_received_at_ns m_first_event_time_ns m_last_event_time_ns m_worker_instance_id
    m_connection_generations m_writer_sequence_first m_writer_sequence_last m_config_sha256 m_egress_ids
    m_requested_intervals_ns m_effective_intervals_ns gap_count reconnect_count parse_error_count checksum_error_count
    queue_overflow_count control_event_ids durability_measurement durability_sample_count durability_lag_p50_ns
    durability_lag_p95_ns durability_lag_p99_ns durability_lag_max_ns sync_count sync_duration_total_ns
    sync_duration_max_ns slo_breach_count write_failure_count sync_failure_count close_reason created_at_ns
    closed_at_ns recovery_transaction_id recovery_source_state recovery_source_relative_path recovery_source_bytes
    recovery_source_sha256 recovery_control_event_id recovered_frame_count recovered_record_count recovered_bytes
    recovered_sha256 quarantined_suffix_relative_path quarantined_suffix_bytes quarantined_suffix_sha256
    unavailable_fields
    fst snd].

Section Manifests.
Context {id : _SourcePathIdentity} {es : list RawEnvelope} {r : RecoveryRowFacts} (Hfacts : facts_of id es r).
Context {src : Source} (Hsrc : source_ok src) (Hsize : positive (src_size src) = true).
Context {state : RecoverySourceState} {data : string * Z * string} {quarantine : option (string * Z * string)}.
Context (Hdata : artifact_ok data) (Hquarantine : forall q, quarantine = Some q -> artifact_ok q).
Context (Hlineage : lineage_ok state src data quarantine).
Context {scope : list string} {mpath : string} {n : Z}.
Context (Hscope : manifest_scope (sp_exchange id) (sp_market id) (sp_instrument_key id) (sp_logical_stream id) = Ok scope).
Context (Hdirs : parent data.1.1 = scope ++ storage_hour id).
Context (Hname : _FINAL_PART_NAME (List.last (split_on slash data.1.1) "") <> None).
Context (Hmpath : manifest_path_for_data data.1.1 = Ok mpath) (Hmpath_ok : path_ok mpath = true).
Context (Hn : 0 < n <= rf_record_count r).

Local Abbreviation m := (recovery_fields r n src state data quarantine mpath).

Lemma manifest_fields : manifest_fields_ok m = true.
Proof.
  destruct Hfacts as [_ [_ Hc] _ _ [T1 T2] _ (_ & E1 & E2) (S1 & S2 & _) (N1 & N2 & N3 & N4) (_ & W & _) (_ & G) (_ & X) (_ & _ & I1 & I2 & _)].
  destruct Hsrc as (R1 & R2 & R3 & R4 & R5). destruct data as [[dp ds] dh]. destruct Hdata as (D1 & D2 & D3).
  assert (Hq : opt_ok path_ok (fst <$> (fst <$> quarantine)) = true /\ opt_ok positive (snd <$> (fst <$> quarantine)) = true /\
    opt_ok config_sha256_ok (snd <$> quarantine) = true).
  { destruct quarantine as [[[qp qs] qh]|]; [|done]. by destruct (Hquarantine _ eq_refl). }
  destruct Hq as (Q1 & Q2 & Q3). assert (Hev : nonempty (_RECOVERY_EVENT_PREFIX +:+ src_transaction src) = true) by done.
  cbn [fst snd] in *. unfold manifest_fields_ok. manifest_simpl.
  rewrite N3, N2, W, D1, Hmpath_ok, D2, D3. cbn [forallb opt_ok].
  rewrite T1, T2, S1, S2, R5, E1, E2, N1, G, N4, X, I1, I2. cbn [opt_ok andb].
  rewrite R4, R1, Hsize, R3, Hev, D2, D3, Q1, Q2, Q3. unfold positive. rewrite !(proj2 (Z.ltb_lt _ _)) by lia. done.
Qed.

Lemma manifest_sorted : _validate_sorted_facts m = Ok tt.
Proof.
  destruct Hfacts as [_ _ _ _ _ _ _ _ _ (W & _) (G & _) (X & _) (I1 & I2 & _)]. destruct data as [[dp ds] dh].
  unfold _validate_sorted_facts, _require_sorted_unique. manifest_simpl. rewrite W, G, X, I1, I2. done.
Qed.

Lemma manifest_rows : _validate_row_facts m = Ok tt.
Proof.
  destruct Hfacts as [_ _ _ _ _ _ (E & _) (_ & _ & S) _ (_ & _ & W) _ _ (_ & _ & _ & _ & I)]. destruct data as [[dp ds] dh].
  unfold _validate_row_facts. manifest_simpl. rewrite E, I, W, (proj2 (Z.ltb_ge _ _)), !eqb_reflx by done. by destruct (rf_instrument_key r).
Qed.

Lemma manifest_layout : _validate_layout m = Ok tt.
Proof.
  destruct Hfacts as [Hid _ _ _ _ (H1 & H2 & H3) _ _ _ _ _ _ _]. injection Hid as I1 I2 I3 I4. destruct data as [[dp ds] dh].
  cbn [fst snd] in *. unfold _validate_layout. manifest_simpl. rewrite I1, I2, I3, I4, Hscope. cbn [rbind]. rewrite H1, H2. cbn [rbind].
  rewrite String.eqb_refl, H3. cbn [negb raise_if]. unfold parent in Hdirs. rewrite Hdirs, bool_decide_eq_true_2, bool_decide_eq_false_2 by done.
  cbn [negb orb raise_if]. rewrite Hmpath. cbn [rbind]. by rewrite String.eqb_refl.
Qed.

Lemma manifest_lineage : _validate_recovery_manifest m = Ok tt.
Proof.
  destruct Hfacts as [_ [_ Hc] _ _ _ _ _ _ _ _ _ _ _]. destruct data as [[dp ds] dh]. unfold _validate_recovery_manifest.
  unfold control_values, durability_values, lineage_values, suffix_values, check_source_state.
  manifest_simpl. cbn [fmap list_fmap present existsb negb orb andb app Datatypes.id raise_if rbind forallb].
  rewrite (bool_decide_eq_false_2 (state ∈ _)) by (intros Hin; destruct state; set_solver).
  rewrite !(bool_decide_eq_true_2 (_ = _)) by done. cbn [negb raise_if]. rewrite !Z.eqb_refl, (proj2 (Z.ltb_ge _ _)) by lia. cbn [negb raise_if].
  destruct state; cbn in Hlineage; try done; cycle 1; cbn.
  - destruct Hlineage as ([[qp qs] qh] & -> & Hp & E). cbn in *. by rewrite E, Z.eqb_refl, Hp.
  - destruct Hlineage as (-> & E). injection E as -> -> ->. cbn. by rewrite Z.eqb_refl, String.eqb_refl, bool_decide_eq_true_2.
  - destruct Hlineage as (-> & Hp & -> & ->). cbn. by rewrite Z.eqb_refl, Hp, bool_decide_eq_true_2.
Qed.

Lemma manifest_valid : _recovery_manifest_from_facts r n src state data quarantine = Ok m /\ manifest_init m = Ok m.
Proof.
  assert (manifest_init m = Ok m) as Hm.
  { unfold manifest_init. rewrite manifest_fields, manifest_sorted, manifest_rows, manifest_layout. cbn [negb raise_if rbind].
    assert (close_reason m = RECOVERY) as -> by (by destruct data as [[? ?] ?]). by rewrite bool_decide_eq_true_2, manifest_lineage. }
  split; [|done]. unfold _recovery_manifest_from_facts. by rewrite Hmpath.
Qed.
End Manifests.

(** ** Intents *)
Section Intents.
Context `{JsonCodec} (sha256 uuid5 : string -> string).
Context (sha256_hex : forall s, config_sha256_ok (sha256 s) = true) (uuid5_nonempty : forall s, nonempty (uuid5 s) = true).

Lemma intent_created v : intent_fields_ok (set_fact_sha256 zero_sha256 v) = true -> _validate_intent uuid5 v = Ok tt ->
  exists i, intent_create uuid5 sha256 v = Ok i /\ intent_validate uuid5 sha256 false i = Ok i /\
    i = set_fact_sha256 (sha256 (hash_payload_bytes v)) v.
Proof.
  intros Hf Hv. assert (Hfields : forall d, config_sha256_ok d = true -> intent_fields_ok (set_fact_sha256 d v) = true).
  { intros d Hd. unfold intent_fields_ok in *. apply andb_true_iff in Hf as [Hf _]. apply andb_true_iff. split; [exact Hf|exact Hd]. }
  assert (Hvalid : forall d, _validate_intent uuid5 (set_fact_sha256 d v) = Ok tt) by (intros d; exact Hv).
  set (i := set_fact_sha256 (sha256 (hash_payload_bytes v)) v).
  assert (Hp : intent_validate uuid5 sha256 true (set_fact_sha256 zero_sha256 v) = Ok (set_fact_sha256 zero_sha256 v)).
  { unfold intent_validate. by rewrite Hf, Hvalid. }
  assert (Hi : intent_validate uuid5 sha256 false i = Ok i).
  { unfold intent_validate, i. rewrite Hfields, Hvalid by done. change (hash_payload_bytes (set_fact_sha256 _ v)) with (hash_payload_bytes v).
    cbn [negb andb raise_if fact_sha256 set_fact_sha256]. by rewrite String.eqb_refl. }
  exists i. split_and!; [|done|done]. unfold intent_create. by rewrite Hp.
Qed.

Context {dirs : list string} {f : string} {start sequence : Z} {id : _SourcePathIdentity} {src : Source}.
Context (Hpath : _parse_source_path (src_path src) = Ok id) (Hat : source_at dirs f start sequence (src_path src) id).
Context (Hsrc : source_ok src).

Ltac intent_simpl := cbn [
    transaction_id i_created_at_ns source_state source_relative_path source_size_bytes source_sha256
    planned_source_disposition planned_data_generation_id planned_data_relative_path planned_data_size_bytes
    planned_data_sha256 planned_manifest_relative_path planned_manifest_size_bytes planned_manifest_sha256
    planned_quarantine_relative_path planned_quarantine_size_bytes planned_quarantine_sha256 cleanup_proof_kind
    cleanup_proof_relative_path cleanup_proof_size_bytes cleanup_proof_sha256 i_recovery_control_event_id fact_sha256
    set_fact_sha256 fmap option_fmap option_map fst snd present opt_ok].

(** Nothing of the source is kept in place and nothing is recovered. *)
Lemma whole_intent (state : RecoverySourceState) (q : string) :
  state = (if suffix ".jsonl.zst.partial" (src_path src) then PARTIAL_TRUNCATED else ORPHAN_CLOSED_DATA) ->
  whole_source_quarantine_relative_path (src_path src) = Ok q -> path_ok q = true ->
  exists i, make_intent sha256 uuid5 src state MOVED_TO_QUARANTINE None None (Some (q, src_size src, src_sha256 src)) = Ok i /\
    intent_validate uuid5 sha256 false i = Ok i.
Proof.
  intros Hstate Hq Hqok. destruct Hsrc as (R1 & R2 & R3 & R4 & R5). unfold make_intent. cbn [rbind].
  match goal with |- exists i, intent_create _ _ ?v = _ /\ _ => destruct (intent_created v) as (i & H1 & H2 & _) end; [| |by exists i].
  - unfold intent_fields_ok. intent_simpl. rewrite R1, R2, R3, R4, R5, Hqok. done.
  - unfold _validate_intent. intent_simpl. rewrite Hpath, String.eqb_refl. cbn [rbind].
    assert (eqb (bool_decide (state ∈ [PARTIAL_COMPLETE; PARTIAL_TRUNCATED; PUBLICATION_COEXISTENCE]))
      (suffix ".jsonl.zst.partial" (src_path src)) = true) as -> by (subst state; by destruct (suffix _ _)).
    unfold check_quarantined. intent_simpl. cbn [_group_presence forallb eqb andb orb negb raise_if rbind].
    rewrite (bool_decide_eq_true_2 (state ∈ _)) by (subst state; destruct (suffix _ _); set_solver). cbn [negb raise_if].
    rewrite Hq. cbn [rbind]. by rewrite !bool_decide_eq_true_2.
Qed.

(** A part is recovered next to its source, or is its source. *)
Context {state : RecoverySourceState} {data : string * Z * string} {quarantine : option (string * Z * string)}.
Context (Hdata : artifact_ok data) (Hquarantine : forall q, quarantine = Some q -> artifact_ok q).
Context (Hlineage : lineage_ok state src data quarantine).
Context {g : string} {q : Z} {m : RawManifestV1}.
Context (Hname : final_name start q g) (Hat_data : data.1.1 = join_with "/" (dirs ++ [g])).
Context (Hmpath : manifest_path_for_data data.1.1 = Ok (manifest_relative_path m)) (Hmpath_ok : path_ok (manifest_relative_path m) = true).
(** What a removal needs: another name, and the quarantine of the suffix. *)
Definition removable (state : RecoverySourceState) (src : Source) (data : string * Z * string)
    (quarantine : option (string * Z * string)) : Prop :=
  match state with
  | ORPHAN_CLOSED_DATA => True
  | _ => data.1.1 <> removesuffix ".partial" (src_path src) /\
      forall q, quarantine = Some q -> bad_tail_quarantine_relative_path (src_path src) = Ok q.1.1
  end.
Context (Hremove : removable state src data quarantine).
Definition disposition_of (state : RecoverySourceState) : RecoverySourceDisposition :=
  if bool_decide (state = ORPHAN_CLOSED_DATA) then RETAINED else REMOVED.

Lemma manifest_length : positive (len (manifest_canonical_bytes m)) = true.
Proof. unfold manifest_canonical_bytes. apply Z.ltb_lt. rewrite bytes_app. pose proof (bytes_nonneg (encode_json (manifest_payload m))). change (len newline) with 1. lia. Qed.

Lemma same_some {A} `{EqDecision A} (a : A) : bool_decide (Some a = Some a) = true.
Proof. by apply bool_decide_eq_true_2. Qed.

Lemma recovered_intent : exists i,
  make_intent sha256 uuid5 src state (disposition_of state) (Some data) (Some m) quarantine = Ok i /\
  intent_validate uuid5 sha256 false i = Ok i.
Proof.
  destruct Hsrc as (R1 & R2 & R3 & R4 & R5). destruct data as [[dp ds] dh]. destruct Hdata as (D1 & D2 & D3). cbn [fst snd] in *.
  assert (Hgen : recovery_generation_id uuid5 dp = Ok (uuid5 dp)) by (rewrite Hat_data; by eapply data_generation).
  assert (Hparent : parent dp = parent (src_path src)).
  { unfold parent. destruct Hname as [Hc _]. rewrite Hat_data, (proj2 (proj2 (in_dirs Hat g "" Hc))), (sa_split _ _ _ _ _ _ Hat), !removelast_last. done. }
  assert (Hq : opt_ok path_ok (fst <$> (fst <$> quarantine)) = true /\ opt_ok nonneg (snd <$> (fst <$> quarantine)) = true /\
    opt_ok config_sha256_ok (snd <$> quarantine) = true).
  { destruct quarantine as [[[qp qs] qh]|]; [|done]. destruct (Hquarantine _ eq_refl) as (Q1 & Q2 & Q3). cbn in *. split_and!; try done.
    unfold positive, nonneg in *. lia. }
  destruct Hq as (Q1 & Q2 & Q3).
  unfold make_intent. cbn [fst snd]. rewrite Hgen. cbn [rbind].
  match goal with |- exists i, intent_create _ _ ?v = _ /\ _ => destruct (intent_created v) as (i & H1 & H2 & _) end; [| |by exists i].
  - unfold intent_fields_ok. intent_simpl. 
    rewrite R1, R2, R3, R4, R5, D1, D2, D3, Q1, Q2, Q3, uuid5_nonempty, Hmpath_ok, manifest_length, sha256_hex. done.
  - unfold _validate_intent, check_planned_data, check_removed, check_retained, disposition_of. intent_simpl.
    rewrite Hpath, Hgen, Hmpath, String.eqb_refl. cbn [rbind].
    destruct state; cbn in Hlineage; try done.
    + destruct Hlineage as (-> & Hp & -> & ->). destruct Hremove as [Hne _]. intent_simpl. rewrite Hp, Hparent.
      rewrite (bool_decide_eq_false_2 (Some dp = Some (removesuffix ".partial" (src_path src)))) by (cbn in Hne; congruence). by rewrite !same_some.
    + destruct Hlineage as ([[qp qs] qh] & -> & Hp & E). destruct Hremove as [Hne Hbad]. intent_simpl. rewrite Hp, Hparent.
      rewrite (Hbad _ eq_refl). rewrite (bool_decide_eq_false_2 (Some dp = Some (removesuffix ".partial" (src_path src)))) by (cbn in Hne; congruence).
      destruct (Hquarantine _ eq_refl) as (_ & Hpos & _). cbn in Hpos, E. unfold positive in Hpos. apply Z.ltb_lt in Hpos.
      rewrite (bool_decide_eq_false_2 (Some qs = Some 0)) by (intros [= ->]; lia). change (default 0 (Some ds) + default 0 (Some qs)) with (ds + qs). rewrite E, Z.eqb_refl.
      cbn -[bool_decide suffix]. by rewrite !same_some.
    + destruct Hlineage as (-> & E). injection E as -> -> ->. intent_simpl.
      replace (suffix ".jsonl.zst.partial" (src_path src)) with false.
      * by rewrite !same_some.
      * rewrite Hat_data, suffix_join by done. destruct (final_stem _ _ _ Hname) as (stem & -> & _). by rewrite (proj2 (suffix_zst _)).
Qed.
End Intents.
