(* ===== verification/RecoveryPlans.v ===== *)
(** Planning a recovery: every scanned source has a plan that passes its own checks and
    keeps every byte, and planning from a chunked scan agrees with planning from the bytes
    of the source. *)
From S2P Require Import Prelude PyDecimal Domain StorageModels PyText CatalogJson PyTime PartPath EnvelopeJson Manifest.
From S2P Require Import FrameScan ScanFacts RecoveryScan RecoveryPlan PathFacts RowFacts PlanFacts.
From S2P Require Import CrashRecovery.
From S2P Require Concrete.

(** ** The results of planning *)
Definition range_of (sha256 : string -> string) (start : Z) (bytes : string) : RecoveryByteRange :=
  {| r_start_offset := start; r_size_bytes := len bytes; r_sha256 := sha256 bytes |}.
(** The ranges that stand for the bytes of a plan: the recovered part is at the start of the
    source and the quarantined bytes are at its end. *)
Definition ranges_of (sha256 : string -> string) (source : string) (p : RecoveryPlan) : StreamingRecoveryPlan := {|
  s_intent := intent p; s_manifest := manifest p;
  recovered_range := range_of sha256 0 <$> recovered_data_bytes p;
  quarantine_range := (fun b => range_of sha256 (len source - len b) b) <$> quarantine_bytes p |}.

Section Equivalence.
Context `{JsonCodec} {Hz : FrameScan.Zstd} {Hzl : ZstdLaws} (sha256 uuid5 : string -> string).
Context (sha256_hex : forall s, config_sha256_ok (sha256 s) = true).

Lemma byte_range_ok start bytes : 0 <= start -> byte_range start (len bytes) (sha256 bytes) = Ok (range_of sha256 start bytes).
Proof.
  intros Hs. unfold byte_range. pose proof (bytes_nonneg bytes). rewrite !(proj2 (Z.ltb_ge _ _)) by done.
  by rewrite sha256_hex.
Qed.

(** A scan that succeeds has cut its source. *)
Lemma scan_inv source path scan : scan_recovery_frames source path = Ok scan -> exists identity fs l rest,
  _parse_source_path path = Ok identity /\ frames_ok identity no_lineage fs l /\ source = bytes_of fs +:+ rest /\
  scan = {| FrameScan.source_size_bytes := len source; valid_prefix_size_bytes := len (bytes_of fs); frames := records 0 fs |}.
Proof.
  intros Hscan. destruct (_parse_source_path path) as [identity|] eqn:Hpath;
    [|unfold scan_recovery_frames in Hscan; by rewrite Hpath in Hscan].
  destruct (feed_all identity [source] scan_start) as [s r] eqn:Hf.
  destruct (feed_all_cut _ _ _ _ Hf) as (fs & l & rest & Hsrc & Hfs & He & _). change (String.concat "" [source]) with source in Hsrc.
  rewrite Hsrc, (scan_of_cut _ _ _ _ _ Hpath Hfs He) in Hscan. apply rbind_ok in Hscan as (b & _ & [= <-]).
  exists identity, fs, l, rest. by rewrite <- Hsrc.
Qed.

Lemma nil_records fs : nil (records 0 fs) = nil fs.
Proof. by destruct fs as [|[]]. Qed.
Lemma frames_some identity fs l : frames_ok identity no_lineage fs l -> (0 <? len (bytes_of fs)) = negb (nil fs).
Proof.
  intros Hfs. pose proof (frames_length _ _ _ _ Hfs) as Hl. destruct fs as [|f fs]; [done|]. cbn [length nil negb] in *.
  apply Z.ltb_lt. lia.
Qed.
Lemma empty_len s : (len s =? 0) = String.eqb s "".
Proof. destruct s as [|c s]; [done|]. unfold StreamFile.len. cbn. apply Z.eqb_neq. lia. Qed.

Ltac case_manifest := match goal with |- context [_recovery_manifest_from_facts ?a ?b ?c ?d ?e ?f] =>
  destruct (_recovery_manifest_from_facts a b c d e f) end.

(** The decision with ranges for bytes. *)
Definition streaming_decision (source : string) (d : Decision) : StreamingDecision := {|
  sd_state := d_state d; sd_disposition := d_disposition d; sd_data_path := fst <$> d_data d; sd_manifest := d_manifest d;
  sd_recovered := if bool_decide (d_disposition d = REMOVED) then (fun x => range_of sha256 0 x.2) <$> d_data d else None;
  sd_quarantine := (fun q => (q.1, range_of sha256 (len source - len q.2) q.2)) <$> d_quarantine d |}.

Lemma freeze_some identity fs l : frames_ok identity no_lineage fs l ->
  present (freeze (extend new_builder (concat fs.*2))) = negb (nil fs).
Proof.
  intros Hfs. rewrite freeze_present, (frames_envelopes _ _ _ _ Hfs). by destruct fs.
Qed.

Lemma decisions_agree source path tx created next scan : scan_recovery_frames source path = Ok scan ->
  let src := {| src_path := path; src_size := len source; src_sha256 := sha256 source; src_transaction := tx;
                src_created_at_ns := created |} in
  decide_streaming (streaming_of sha256 source scan) src next
  = (let! d := decide_source sha256 scan source src next in Ok (streaming_decision source d)).
Proof.
  intros (identity & fs & l & rest & _ & Hfs & Hsrc & Hscan)%scan_inv src.
  pose proof (streaming_ok identity sha256 fs l rest Hfs) as Hs. cbv zeta in Hs. apply streaming_init_inv in Hs.
  rewrite <- Hsrc in Hs. rewrite Hscan, Hs. clear Hs.
  pose proof (frames_some _ _ _ Hfs) as Hsome. pose proof (freeze_some _ _ _ Hfs) as Hfreeze.
  pose proof (bytes_app (bytes_of fs) rest) as Hlen. rewrite <- Hsrc in Hlen.
  assert (Hup : up_to (len (bytes_of fs)) source = bytes_of fs) by (rewrite Hsrc; apply up_to_app).
  assert (Hfrom : from_offset (len (bytes_of fs)) source = rest) by (rewrite Hsrc; apply from_offset_app).
  assert (Hmanifest : forall state data_path data q, _recovery_manifest sha256
      {| FrameScan.source_size_bytes := len source; valid_prefix_size_bytes := len (bytes_of fs); frames := records 0 fs |}
      src state data_path data q
    = match freeze (extend new_builder (concat fs.*2)) with
      | None => Err (ValueError "recovery manifest requires validated rows")
      | Some row_facts => _recovery_manifest_from_facts row_facts (Z.of_nat (length fs)) src state
          (artifact sha256 data_path data) ((fun x => artifact sha256 x.1 x.2) <$> q)
      end).
  { intros. unfold _recovery_manifest. cbn [frames]. by rewrite records_envelopes, records_length. }
  unfold decide_streaming, decide_source. cbv zeta.
  cbn [ss_valid_prefix_size_bytes ss_invalid_suffix_size_bytes ss_source_size_bytes valid_prefix_sha256 source_sha256
       invalid_suffix_sha256 frame_count row_facts valid_prefix_size_bytes frames src_path src].
  rewrite nil_records, Hsome. destruct (_ && negb _); [done|]. cbn [raise_if].
  destruct (suffix ".jsonl.zst.partial" path); cbn [negb andb].
  - destruct (nil fs) eqn:En; cbn [negb].
    + rewrite byte_range_ok by done. destruct (whole_source_quarantine_relative_path path); [|done]. cbn.
      unfold streaming_decision, range_of. cbn. by rewrite Z.sub_diag.
    + destruct (freeze _) as [row_facts|] eqn:Ef; [|done]. destruct (_next_recovery_relative_path path next) as [data_path|]; [|done].
      cbn [rbind]. rewrite Hup, Hfrom, byte_range_ok by done. cbn [rbind]. rewrite empty_len.
      destruct (String.eqb_spec rest "") as [Er|Er]; cbn [rbind].
      * rewrite Hmanifest. unfold range_artifact, artifact. cbn -[_recovery_manifest_from_facts]. by case_manifest.
      * destruct (bad_tail_quarantine_relative_path path) as [q|]; [|done]. cbn [rbind]. rewrite byte_range_ok by apply bytes_nonneg.
        cbn [rbind]. rewrite Hmanifest. unfold range_artifact, artifact. cbn -[_recovery_manifest_from_facts].
        case_manifest; [|done]. cbn. unfold streaming_decision. cbn.
        by replace (len source - len rest) with (len (bytes_of fs)) by lia.
  - rewrite andb_comm. destruct (negb (nil fs) && _) eqn:Ec.
    + apply andb_true_iff in Ec as [Ec _]. rewrite Ec in Hfreeze. destruct (freeze _) as [row_facts|] eqn:Ef; [|done].
      rewrite Hmanifest. unfold artifact. cbn -[_recovery_manifest_from_facts]. by case_manifest.
    + rewrite byte_range_ok by done. destruct (whole_source_quarantine_relative_path path); [|done]. cbn.
      unfold streaming_decision, range_of. cbn. by rewrite Z.sub_diag.
Qed.

Lemma intent_validate_inv skip i i' : intent_validate uuid5 sha256 skip i = Ok i' -> i' = i.
Proof. unfold intent_validate. intros (_ & (_ & Hi)%raise_if_ok)%raise_if_ok. apply rbind_ok in Hi as (? & _ & Hi). by injection Hi. Qed.
Lemma intent_create_inv v i : intent_create uuid5 sha256 v = Ok i -> exists digest, i = set_fact_sha256 digest v.
Proof.
  unfold intent_create. intros (i1 & ->%intent_validate_inv & ->%intent_validate_inv)%rbind_ok. by eexists.
Qed.

(** An intent is the plan of its arguments. *)
Lemma make_intent_inv src state disposition data m q i : make_intent sha256 uuid5 src state disposition data m q = Ok i ->
  planned_source_disposition i = disposition /\ planned_data_relative_path i = fst <$> (fst <$> data) /\
  planned_data_size_bytes i = snd <$> (fst <$> data) /\ planned_data_sha256 i = snd <$> data /\
  planned_manifest_relative_path i = manifest_relative_path <$> m /\
  planned_manifest_size_bytes i = len <$> (manifest_canonical_bytes <$> m) /\
  planned_manifest_sha256 i = sha256 <$> (manifest_canonical_bytes <$> m) /\
  planned_quarantine_relative_path i = fst <$> (fst <$> q) /\
  planned_quarantine_size_bytes i = snd <$> (fst <$> q) /\ planned_quarantine_sha256 i = snd <$> q.
Proof. unfold make_intent. intros (g & _ & [digest ->]%intent_create_inv)%rbind_ok. by split_and!. Qed.

Lemma artifact_matches_own b : artifact_matches sha256 (Some b) (Some (len b)) (Some (sha256 b)) = true.
Proof. unfold artifact_matches. by rewrite !bool_decide_eq_true_2. Qed.

(** The checks of a plan cannot fail after those of its intent. *)
Lemma plan_init_ok d src i : (d_disposition d = REMOVED -> present (d_data d) = true) ->
  make_intent sha256 uuid5 src (d_state d) (d_disposition d) ((fun x => artifact sha256 x.1 x.2) <$> d_data d) (d_manifest d)
    ((fun x => artifact sha256 x.1 x.2) <$> d_quarantine d) = Ok i ->
  let p := {| intent := i; manifest := d_manifest d;
    recovered_data_bytes := if bool_decide (d_disposition d = REMOVED) then snd <$> d_data d else None;
    quarantine_bytes := snd <$> d_quarantine d |} in plan_init sha256 p = Ok p.
Proof.
  intros Hd (E1 & E2 & E3 & E4 & E5 & E6 & E7 & E8 & E9 & E10)%make_intent_inv p. unfold plan_init, p, manifest_bytes.
  cbn [intent manifest recovered_data_bytes quarantine_bytes]. rewrite E1, E2, E3, E4, E5, E6, E7, E8, E9, E10.
  destruct (d_manifest d) as [m|], (d_quarantine d) as [q|]; cbn -[artifact_matches]; rewrite ?artifact_matches_own; cbn -[artifact_matches];
    (case_bool_decide as Er; [specialize (Hd Er); destruct (d_data d) as [x|]; [|done]|]); cbn -[artifact_matches];
    rewrite ?artifact_matches_own; cbn -[artifact_matches]; rewrite ?artifact_matches_own; done.
Qed.

Lemma decide_data scan source src next d : decide_source sha256 scan source src next = Ok d ->
  (d_disposition d = REMOVED -> present (d_data d) = true) /\
  (d_disposition d <> REMOVED -> forall x, d_data d = Some x -> x.2 = source).
Proof.
  unfold decide_source. intros (_ & Hd)%raise_if_ok. destruct (_ && _); [|destruct (_ && _)]; inv_ok; split; try done;
    intros _ y [= <-]; done.
Qed.

(** C18: recovery may read a source in chunks.  For every division of a source into chunks,
    scanning the chunks and planning from the report gives the plan that is made from the
    bytes: the same intent and the same manifest, with byte ranges that are exactly where the
    recovered part and the quarantined bytes stand in the source; and it raises what planning
    from the bytes raises. *)
Theorem streaming_plan_exact (chunks : list string) (path tx : string) (created next : Z) :
  0 <= created ->
  (let! scan := _scan_recovery_chunks sha256 chunks path in
   _plan_streaming_recovery_source sha256 uuid5 path scan tx created next)
  = (let! p := plan_recovery_source sha256 uuid5 path (String.concat "" chunks) tx created next in
     Ok (ranges_of sha256 (String.concat "" chunks) p)).
Proof.
  intros Hcreated. set (source := String.concat "" chunks). unfold plan_recovery_source. rewrite (proj2 (Z.ltb_ge _ _)) by done.
  cbn [raise_if]. rewrite chunked_scan_exact. fold source.
  destruct (scan_recovery_frames source path) as [scan|] eqn:Hscan; [|done]. cbn [rbind].
  pose proof (decisions_agree source path tx created next scan Hscan) as Hd. cbv zeta in Hd.
  unfold _plan_streaming_recovery_source. cbv zeta.
  assert (FrameScan.ss_source_size_bytes (streaming_of sha256 source scan) = len source) as ->.
  { apply scan_inv in Hscan as (? & ? & ? & ? & _ & _ & _ & ->). done. }
  change (FrameScan.source_sha256 (streaming_of sha256 source scan)) with (sha256 source). rewrite Hd.
  destruct (decide_source _ scan source _ next) as [d|] eqn:Ed; [|done]. cbn [rbind sd_state sd_disposition sd_data_path sd_manifest sd_recovered sd_quarantine streaming_decision].
  destruct (decide_data _ _ _ _ _ Ed) as [Hr Hret].
  match goal with |- (let! i := make_intent _ _ _ _ _ ?data _ ?q in _) = _ =>
    assert (data = (fun x => artifact sha256 x.1 x.2) <$> d_data d) as ->;
    [|assert (q = (fun x => artifact sha256 x.1 x.2) <$> d_quarantine d) as -> by (by destruct (d_quarantine d))] end.
  { destruct (d_data d) as [x|]; [|done]. cbn. case_bool_decide as Ex; [done|]. unfold artifact. by rewrite (Hret Ex x eq_refl). }
  match goal with |- context [make_intent ?a ?b ?c ?d ?e ?f ?g ?h] => destruct (make_intent a b c d e f g h) as [i|] eqn:Ei end; [|done].
  cbn [rbind]. rewrite (plan_init_ok d _ i Hr Ei). cbn [rbind]. unfold ranges_of. cbn [intent manifest recovered_data_bytes quarantine_bytes].
  f_equal. f_equal; [case_bool_decide; by destruct (d_data d)|by destruct (d_quarantine d)].
Qed.
End Equivalence.

(** ** Plans exist *)
Section Total.
Context `{JsonCodec} {Hz : FrameScan.Zstd} {Hzl : ZstdLaws} (sha256 uuid5 : string -> string).
Context (sha256_hex : forall s, config_sha256_ok (sha256 s) = true) (uuid5_nonempty : forall s, nonempty (uuid5 s) = true).

(** What is planned for a scanned source. *)
Definition planned (path source : string) (identity : _SourcePathIdentity) (scan : RecoveryFrameScan) (p : RecoveryPlan) : Prop :=
  let i := intent p in
  let is_partial := suffix ".jsonl.zst.partial" path in
  intent_validate uuid5 sha256 false i = Ok i /\ plan_init sha256 p = Ok p /\
  (forall m, manifest p = Some m -> manifest_init m = Ok m /\ m_record_count m = record_count scan /\
     recovery_source_relative_path m = Some path /\ planned_data_relative_path i = Some (m_data_relative_path m) /\
     _parse_source_path (m_data_relative_path m) = Ok identity) /\
  match planned_source_disposition i with
  | REMOVED => is_partial = true /\ frames scan <> [] /\ present (manifest p) = true /\ exists recovered,
      recovered_data_bytes p = Some recovered /\ len recovered = valid_prefix_size_bytes scan /\
      recovered +:+ default "" (quarantine_bytes p) = source /\
      exists data_path, planned_data_relative_path i = Some data_path /\ scan_recovery_frames recovered data_path =
        Ok {| FrameScan.source_size_bytes := len recovered; valid_prefix_size_bytes := len recovered; frames := frames scan |}
  | RETAINED => is_partial = false /\ frames scan <> [] /\ valid_prefix_size_bytes scan = len source /\
      present (manifest p) = true /\ quarantine_bytes p = None /\ planned_data_relative_path i = Some path
  | MOVED_TO_QUARANTINE => (frames scan = [] \/ is_partial = false /\ valid_prefix_size_bytes scan < len source) /\
      manifest p = None /\ quarantine_bytes p = Some source
  | LEGITIMATELY_MISSING => False
  end.

Context {dirs : list string} {f : string} {start sequence : Z} {path : string} {identity : _SourcePathIdentity}.
Context (Hpath : _parse_source_path path = Ok identity) (Hat : source_at dirs f start sequence path identity).
Context (Hcontrol : sp_logical_stream identity = "_control" -> sp_market identity = None).
Context {source tx : string} {created next : Z}.
Context (Htx : canonical_uuid tx = true) (Hcreated : 0 <= created) (Hnext : 0 <= next) (Hfresh : next <> sequence).
Context {fs : list (string * list RawEnvelope)} {l : Lineage} {rest : string}.
Context (Hfs : frames_ok identity no_lineage fs l) (Hsource : source = bytes_of fs +:+ rest).
Local Abbreviation scan := {| FrameScan.source_size_bytes := len source; valid_prefix_size_bytes := len (bytes_of fs);
  frames := records 0 fs |}.
Local Abbreviation src := {| src_path := path; src_size := len source; src_sha256 := sha256 source; src_transaction := tx;
  src_created_at_ns := created |}.

Lemma src_ok : source_ok src.
Proof.
  unfold source_ok. cbn. split_and!; [by eapply (source_normalized Hat "")|apply Z.leb_le, bytes_nonneg|done|done|by apply Z.leb_le].
Qed.

Lemma count_records start0 gs : foldr (fun g n => Z.of_nat (length (envelopes g)) + n) 0 (records start0 gs) = Z.of_nat (length (concat gs.*2)).
Proof.
  revert start0. induction gs as [|[g es] gs IH]; intros start0; [done|]. cbn [records foldr envelopes fmap list_fmap snd].
  rewrite IH. change (concat (es :: gs.*2)) with (es ++ concat gs.*2). rewrite length_app. lia.
Qed.
Lemma frames_fewer l0 gs l1 : frames_ok identity l0 gs l1 -> Z.of_nat (length gs) <= Z.of_nat (length (concat gs.*2)).
Proof.
  induction 1 as [|l2 gs l3 g es l4 _ IH Hg]; [done|]. rewrite fmap_app, concat_app_list, !length_app. cbn. rewrite app_nil_r.
  destruct (frame_envelopes _ _ _ _ _ Hg) as [Hes _]. destruct es; [done|]. cbn. lia.
Qed.

(** The facts about the rows of the recovered frames. *)
Lemma scanned_facts : fs <> [] -> exists r, freeze (extend new_builder (concat fs.*2)) = Some r /\ facts_of identity (concat fs.*2) r /\
  rf_record_count r = record_count scan /\ 0 < Z.of_nat (length fs) <= rf_record_count r.
Proof.
  intros Hne. destruct (frames_rows _ _ _ _ Hfs) as (Hmade & Hrows & _).
  assert (Hpart : rows_of_part identity (concat fs.*2)) by (by apply (check_rows_ok identity _ no_lineage); eexists).
  pose proof (freeze_some _ _ _ Hfs) as Hp. destruct (freeze _) as [r|] eqn:Er; [|by destruct fs].
  exists r. pose proof (facts_collected Hpart Hmade r Er) as Hr.
  destruct (fa_count _ _ _ Hr) as [Hc Hpos]. pose proof (frames_fewer _ _ _ Hfs). unfold record_count. cbn [frames].
  rewrite count_records. split_and!; [done|done|done|destruct fs; [done|cbn; lia]|lia].
Qed.

Lemma positive_len s : s <> "" -> positive (len s) = true.
Proof. intros Hs. apply Z.ltb_lt. by apply len_pos. Qed.

(** The manifest and the intent of a part that is recovered under the name [g]. *)
Lemma recovered_part (state : RecoverySourceState) (g bytes : string) (q : Z) (quarantine : option (string * string)) :
  fs <> [] -> final_name start q g -> bytes <> "" -> (forall x, quarantine = Some x -> path_ok x.1 = true /\ x.2 <> "") ->
  let data_path := join_with "/" (dirs ++ [g]) in
  let data := artifact sha256 data_path bytes in let suffix_ := (fun x => artifact sha256 x.1 x.2) <$> quarantine in
  lineage_ok state src data suffix_ -> removable state src data suffix_ -> exists m i,
    _recovery_manifest sha256 scan src state data_path bytes quarantine = Ok m /\ manifest_init m = Ok m /\
    m_record_count m = record_count scan /\ recovery_source_relative_path m = Some path /\ m_data_relative_path m = data_path /\
    make_intent sha256 uuid5 src state (disposition_of state) (Some data) (Some m) suffix_ = Ok i /\
    intent_validate uuid5 sha256 false i = Ok i.
Proof.
  intros Hne Hg Hbytes Hq data_path data suffix_ Hlineage Hremove.
  destruct (scanned_facts Hne) as (r & Er & Hr & Hcount & Hn). destruct (sa_scope _ _ _ _ _ _ Hat Hcontrol) as (scope & Hscope & Hdirs).
  destruct (data_manifest Hat q g Hg) as (mpath & Hmpath & Hmok & _). destruct (in_dirs Hat g "" (proj1 Hg)) as (_ & Hdok & Hsp).
  assert (Hdata : artifact_ok data) by (split_and!; [done|by apply positive_len|apply sha256_hex]).
  assert (Hquarantine : forall x, suffix_ = Some x -> artifact_ok x).
  { intros x. unfold suffix_. destruct quarantine as [y|]; [|done]. intros [= <-]. destruct (Hq y eq_refl). split_and!; [done|by apply positive_len|apply sha256_hex]. }
  assert (Hsize : positive (len source) = true).
  { apply positive_len. rewrite Hsource. pose proof (frames_some _ _ _ Hfs) as Hp. intros [E _]%app_empty. rewrite E in Hp. by destruct fs. }
  assert (Hname : _FINAL_PART_NAME (List.last (split_on slash data_path) "") <> None).
  { unfold data_path. rewrite Hsp, List.last_last. by destruct Hg as [_ ->]. }
  assert (Hparent : parent data_path = scope ++ storage_hour identity) by (unfold parent, data_path; by rewrite Hsp, removelast_last).
  destruct (manifest_valid (n := Z.of_nat (length fs)) Hr src_ok Hsize Hdata Hquarantine Hlineage Hscope Hparent Hname Hmpath Hmok Hn) as [Hm Hinit].
  set (m := recovery_fields _ _ _ _ _ _ _) in Hm, Hinit.
  destruct (recovered_intent sha256 uuid5 sha256_hex uuid5_nonempty (src := src) (m := m) Hpath Hat src_ok Hdata Hquarantine Hlineage Hg eq_refl Hmpath Hmok Hremove)
    as (i & Hi & Hvalid).
  exists m, i. split_and!; try done. unfold _recovery_manifest. cbn [frames]. by rewrite records_envelopes, records_length, Er.
Qed.

Lemma up_from : up_to (len (bytes_of fs)) source = bytes_of fs /\ from_offset (len (bytes_of fs)) source = rest.
Proof. rewrite Hsource. split; [apply up_to_app|apply from_offset_app]. Qed.
Lemma fs_bytes : fs <> [] -> bytes_of fs <> "".
Proof. intros Hne E. pose proof (frames_some _ _ _ Hfs) as Hp. rewrite E in Hp. by destruct fs. Qed.

(** A plan is assembled from its decision and its intent. *)
Lemma assembled d i : scan_recovery_frames source path = Ok scan -> decide_source sha256 scan source src next = Ok d ->
  make_intent sha256 uuid5 src (d_state d) (d_disposition d) ((fun x => artifact sha256 x.1 x.2) <$> d_data d) (d_manifest d)
    ((fun x => artifact sha256 x.1 x.2) <$> d_quarantine d) = Ok i ->
  let p := {| intent := i; manifest := d_manifest d;
    recovered_data_bytes := if bool_decide (d_disposition d = REMOVED) then snd <$> d_data d else None;
    quarantine_bytes := snd <$> d_quarantine d |} in
  plan_recovery_source sha256 uuid5 path source tx created next = Ok p /\ plan_init sha256 p = Ok p.
Proof.
  intros Hscan Hd Hi p. destruct (decide_data _ _ _ _ _ _ Hd) as [Hr _]. pose proof (plan_init_ok _ _ d _ i Hr Hi) as Hp.
  split; [|done]. unfold plan_recovery_source. rewrite (proj2 (Z.ltb_ge _ _)) by done. cbn [raise_if]. rewrite Hscan. cbn [rbind].
  rewrite Hd. cbn [rbind]. rewrite Hi. cbn [rbind]. exact Hp.
Qed.

Lemma planned_partial : scan_recovery_frames source path = Ok scan -> suffix ".jsonl.zst.partial" path = true -> fs <> [] ->
  exists p, plan_recovery_source sha256 uuid5 path source tx created next = Ok p /\ planned path source identity scan p.
Proof.
  intros Hscan Hpartial Hne. destruct up_from as [Hup Hfrom]. pose proof (fresh_name Hat next Hnext) as Hg.
  pose proof (next_path Hat next Hnext Hfresh) as Hnp. set (g := part_filename start next) in *. set (dp := join_with "/" (dirs ++ [g])) in *.
  destruct (quarantine_path Hat "bad-tail" eq_refl) as (q & Hq & Hqok).
  set (state := if String.eqb rest "" then PARTIAL_COMPLETE else PARTIAL_TRUNCATED).
  set (quarantine := if String.eqb rest "" then None else Some (q, rest)).
  pose proof (bytes_app (bytes_of fs) rest) as Hlen. rewrite <- Hsource in Hlen.
  destruct (recovered_part state g (bytes_of fs) next quarantine) as (m & i & Hm & Hinit & Hc & Hs & Hdp & Hi & Hv); [done|done|by apply fs_bytes|..].
  - unfold quarantine. destruct (String.eqb_spec rest ""); [done|]. by intros x [= <-].
  - unfold quarantine, state. destruct (String.eqb_spec rest "") as [->|Hr]; cbn.
    + rewrite Hsource, append_nil. by split_and!.
    + eexists. split_and!; [done|done|]. cbn. lia.
  - assert (Hd : dp <> removesuffix ".partial" path).
    { intros E. pose proof Hnp as Hnp'. unfold _next_recovery_relative_path in Hnp'. rewrite (proj2 (Z.ltb_ge _ _)) in Hnp' by done.
      cbn [raise_if] in Hnp'. destruct (_FINAL_PART_NAME _) as [[]|]; [|done]. apply raise_if_ok in Hnp' as [Hne' [= E']].
      apply String.eqb_neq in Hne'. congruence. }
    unfold state, quarantine. destruct (String.eqb rest ""); cbn; (split; [exact Hd|]); intros x Hx; [done|by injection Hx as <-].
  - set (d := {| d_state := state; d_disposition := REMOVED; d_data := Some (dp, bytes_of fs); d_manifest := Some m; d_quarantine := quarantine |}).
    assert (Hdec : decide_source sha256 scan source src next = Ok d).
    { unfold decide_source. cbn [src_path frames valid_prefix_size_bytes]. rewrite Hpartial, nil_records, Hup, Hfrom, Hnp.
      replace (negb (nil fs)) with true by (by destruct fs). cbn [negb andb raise_if rbind]. fold state. 
      assert ((if String.eqb rest "" then Ok None else let! q := bad_tail_quarantine_relative_path path in Ok (Some (q, rest))) = Ok quarantine) as ->.
      { unfold quarantine, bad_tail_quarantine_relative_path. destruct (String.eqb rest ""); [done|]. by rewrite Hq. }
      cbn [rbind]. fold dp in Hm. by rewrite Hm. }
    assert (Hdisp : disposition_of state = REMOVED) by (unfold state; by destruct (String.eqb rest "")).
    rewrite Hdisp in Hi. destruct (assembled d i Hscan Hdec Hi) as [Hplan Hpinit]. eexists. split; [exact Hplan|].
    destruct (make_intent_inv _ _ _ _ _ _ _ _ _ Hi) as (E1 & E2 & _). unfold planned. cbn [intent manifest d d_manifest].
    assert (Hdata : _parse_source_path dp = Ok identity).
    { apply (sa_siblings _ _ _ _ _ _ Hat g next); [apply Hg|]. destruct (final_stem _ _ _ Hg) as (_ & _ & _ & _ & -> & _). apply Hg. }
    split_and!; [done|exact Hpinit| |].
    + intros m' [= <-]. rewrite E2, Hdp. by split_and!.
    + rewrite E1. split_and!; [done|by destruct fs as [|[]]|done|]. exists (bytes_of fs). split_and!; [done|done|..].
      * rewrite Hsource. cbn. unfold quarantine. by destruct (String.eqb_spec rest "") as [->|].
      * exists dp. split; [by rewrite E2|]. pose proof (scan_of_cut dp identity fs l "" Hdata Hfs ltac:(done)) as Hagain.
        by rewrite append_nil in Hagain.
Qed.

Lemma planned_closed : scan_recovery_frames source path = Ok scan -> suffix ".jsonl.zst.partial" path = false -> fs <> [] -> rest = "" ->
  exists p, plan_recovery_source sha256 uuid5 path source tx created next = Ok p /\ planned path source identity scan p.
Proof.
  intros Hscan Hpartial Hne Hrest. destruct (source_name _ _ _ _ _ _ Hat) as (g & Hg & Hf).
  assert (Hfg : f = g /\ suffix ".jsonl.zst" path = true) by (destruct Hf as [(? & _ & ?)|(_ & E & _)]; [done|congruence]).
  destruct Hfg as [<- Hsuffix]. assert (Hbytes : source = bytes_of fs) by (by rewrite Hsource, Hrest, append_nil).
  pose proof (sa_path _ _ _ _ _ _ Hat) as Hpj.
  destruct (recovered_part ORPHAN_CLOSED_DATA f source sequence None) as (m & i & Hm & Hinit & Hc & Hs & Hdp & Hi & Hv);
    [done|done|by rewrite Hbytes; apply fs_bytes|done|by rewrite <- Hpj|done|]. rewrite <- Hpj in *.
  set (d := {| d_state := ORPHAN_CLOSED_DATA; d_disposition := RETAINED; d_data := Some (path, source); d_manifest := Some m; d_quarantine := None |}).
  assert (Hdec : decide_source sha256 scan source src next = Ok d).
  { unfold decide_source. cbn [src_path frames valid_prefix_size_bytes]. rewrite Hpartial, Hsuffix, nil_records.
    replace (negb (nil fs)) with true by (by destruct fs). rewrite <- Hbytes, Z.eqb_refl. cbn [negb andb raise_if].
    rewrite <- Hbytes in Hm. by rewrite Hm. }
  destruct (assembled d i Hscan Hdec Hi) as [Hplan Hpinit]. eexists. split; [exact Hplan|].
  destruct (make_intent_inv _ _ _ _ _ _ _ _ _ Hi) as (E1 & E2 & _). unfold planned. cbn [intent manifest d d_manifest].
  split_and!; [done|exact Hpinit| |].
  - intros m' [= <-]. rewrite E2, Hdp. by split_and!.
  - rewrite E1. change (disposition_of ORPHAN_CLOSED_DATA) with RETAINED. rewrite E2. cbn [valid_prefix_size_bytes frames].
    split_and!; [done|by destruct fs as [|[]]|by rewrite Hbytes|done|done|done].
Qed.

Lemma planned_whole : scan_recovery_frames source path = Ok scan ->
  fs = [] \/ suffix ".jsonl.zst.partial" path = false /\ rest <> "" ->
  exists p, plan_recovery_source sha256 uuid5 path source tx created next = Ok p /\ planned path source identity scan p.
Proof.
  intros Hscan Hcase. destruct (source_name _ _ _ _ _ _ Hat) as (g & _ & Hf). destruct (quarantine_path Hat "whole" eq_refl) as (q & Hq & Hqok).
  pose proof (bytes_app (bytes_of fs) rest) as Hlen. rewrite <- Hsource in Hlen.
  set (state := if suffix ".jsonl.zst.partial" path then PARTIAL_TRUNCATED else ORPHAN_CLOSED_DATA).
  destruct (whole_intent sha256 uuid5 sha256_hex uuid5_nonempty (src := src) Hpath Hat src_ok state q eq_refl Hq Hqok) as (i & Hi & Hv).
  set (d := {| d_state := state; d_disposition := MOVED_TO_QUARANTINE; d_data := None; d_manifest := None; d_quarantine := Some (q, source) |}).
  assert (Hdec : decide_source sha256 scan source src next = Ok d).
  { unfold decide_source. cbn [src_path frames valid_prefix_size_bytes]. rewrite nil_records.
    assert (negb (suffix ".jsonl.zst.partial" path) && negb (suffix ".jsonl.zst" path) = false) as ->.
    { by destruct Hf as [(_ & -> & ->)|(_ & -> & ->)]. }
    assert (suffix ".jsonl.zst.partial" path && negb (nil fs) = false) as ->.
    { destruct Hcase as [->|[-> _]]; [|done]. by rewrite andb_false_r. }
    assert (negb (suffix ".jsonl.zst.partial" path) && negb (nil fs) && (len (bytes_of fs) =? len source) = false) as ->.
    { destruct Hcase as [->|[_ Hr]]; [by rewrite andb_false_r|]. apply len_pos in Hr. rewrite (proj2 (Z.eqb_neq _ _)) by lia. by rewrite andb_false_r. }
    cbn [raise_if]. unfold whole_source_quarantine_relative_path. by rewrite Hq. }
  destruct (assembled d i Hscan Hdec Hi) as [Hplan Hpinit]. eexists. split; [exact Hplan|].
  destruct (make_intent_inv _ _ _ _ _ _ _ _ _ Hi) as (E1 & _). unfold planned. cbn [intent manifest d d_manifest].
  split_and!; [done|exact Hpinit|done|]. rewrite E1. cbn [frames valid_prefix_size_bytes]. split_and!; [|done|done].
  destruct Hcase as [->|[Hp Hr]]; [by left|right]. split; [done|]. apply len_pos in Hr. lia.
Qed.
End Total.

(** C17: every scanned part can be recovered, and no byte of it is lost.  For every source that
    recovery scans, partial or closed, empty or damaged anywhere, and every sequence that is
    not the source's own, planning returns a plan whose intent, manifest and bytes pass all
    their own checks.  A partial source with valid frames is replaced: what is recovered is
    its valid prefix, what is quarantined is the rest, together they are the source, and the
    recovered bytes are under their new path a closed part that is scanned as the same frames
    with nothing left over.  A closed source that is valid to the end stays; every other
    source is quarantined whole.  The manifest counts the records of the scan and names a
    path of the same exchange, market, instrument, stream and hour. *)
Theorem recovery_plan_total `{JsonCodec} {Hz : FrameScan.Zstd} {Hzl : ZstdLaws} (sha256 uuid5 : string -> string)
    (path source tx : string) (created next start sequence : Z) (identity : _SourcePathIdentity) (scan : RecoveryFrameScan) :
  (forall s, config_sha256_ok (sha256 s) = true) -> (forall s, nonempty (uuid5 s) = true) -> canonical_uuid tx = true ->
  0 <= created -> 0 <= next ->
  _parse_source_path path = Ok identity -> (sp_logical_stream identity = "_control" -> sp_market identity = None) ->
  _FINAL_PART_NAME (removesuffix ".partial" (name path)) = Some (start, sequence) -> next <> sequence ->
  scan_recovery_frames source path = Ok scan ->
  exists p, plan_recovery_source sha256 uuid5 path source tx created next = Ok p /\
    planned sha256 uuid5 path source identity scan p.
Proof.
  intros Hsha Huuid Htx Hcreated Hnext Hpath Hcontrol Hname Hfresh Hscan.
  destruct (scan_inv _ _ _ Hscan) as (identity' & fs & l & rest & Hpath' & Hfs & Hsource & Hcut).
  rewrite Hpath in Hpath'. injection Hpath' as <-. destruct (parse_path_inv _ _ Hpath) as (dirs & f & start' & sequence' & Hat).
  assert (next <> sequence') as Hfresh'.
  { pose proof (sa_name _ _ _ _ _ _ Hat) as Hn. unfold name in Hname. rewrite (sa_split _ _ _ _ _ _ Hat), List.last_last, Hn in Hname. congruence. }
  subst scan. destruct (base.decide (fs = [])) as [Hnil|Hne]; [eapply planned_whole; eauto|].
  destruct (suffix ".jsonl.zst.partial" path) eqn:Hp; [eapply planned_partial; eauto|].
  destruct (base.decide (rest = "")) as [Hr|Hr]; [eapply planned_closed; eauto|eapply planned_whole; eauto].
Qed.

(** ** A part left behind by a crash *)
Module PlanSamples.
#[local] Existing Instances LineSamples.codec LineSamples.encoders LineSamples.laws.
#[local] Existing Instances CrashSamples.zstd CrashSamples.zstd_laws.
Definition source : string := StreamFile.contents CrashSamples.file2.
Definition path : string := PartSamples.trade_path +:+ ".partial".
Definition tx : string := "123e4567-e89b-42d3-a456-426614174000".
Definition generation (p : string) : string := "generation " +:+ p.
(** A digest that is quick to evaluate *)
Definition digest (s : string) : string := Concrete.hex 64 (len s).
Lemma digest_ok s : config_sha256_ok (digest s) = true.
Proof. unfold config_sha256_ok, digest. destruct (Concrete.hex_ok 64 (len s)) as [-> ->]. done. Qed.
Definition plan_at (next : Z) : result RecoveryPlan :=
  plan_recovery_source digest generation path source tx 1709210100000000000 next.

Lemma recovery_plan_total_witness :
  match scan_recovery_frames source path with
  | Ok scan => exists p, plan_at 5 = Ok p /\ planned digest generation path source CrashSamples.part_identity scan p
  | Err _ => False
  end.
Proof.
  destruct (scan_recovery_frames source path) as [scan|e] eqn:E; [|vm_compute in E; discriminate E].
  unfold plan_at. eapply recovery_plan_total.
  - exact digest_ok.
  - intros s. reflexivity.
  - vm_compute. reflexivity.
  - lia.
  - lia.
  - vm_compute. reflexivity.
  - intros Hs. discriminate Hs.
  - vm_compute. reflexivity.
  - lia.
  - exact E.
Defined.

(** The plan recovers the one whole frame and quarantines the rest. *)
Definition summary (r : result RecoveryPlan) : option (option Z * option Z * RecoverySourceState * option Z) :=
  match r with
  | Ok p => Some (len <$> recovered_data_bytes p, len <$> quarantine_bytes p, source_state (intent p), m_record_count <$> manifest p)
  | Err _ => None
  end.
Example plan_recovers :
  summary (plan_at 5) = Some (Some (StreamFile.compressed_size CrashSamples.file1), Some 500, PARTIAL_TRUNCATED, Some 1).
Proof. vm_compute. reflexivity. Qed.
Example own_sequence_refused : plan_at 4 = Err (ValueError "recovery sequence must allocate a distinct part path").
Proof. vm_compute. reflexivity. Qed.

(** The source in three chunks, the first of which ends inside a frame. *)
Definition chunks : list string := [up_to 1000 source; ""; from_offset 1000 source].
Lemma streaming_plan_exact_witness :
  String.concat "" chunks = source /\ is_ok (plan_at 5) = true /\
  (let! scan := _scan_recovery_chunks digest chunks path in
   _plan_streaming_recovery_source digest generation path scan tx 1709210100000000000 5)
  = (let! p := plan_recovery_source digest generation path (String.concat "" chunks) tx 1709210100000000000 5 in
     Ok (ranges_of digest (String.concat "" chunks) p)).
Proof.
  split; [vm_compute; reflexivity|]. split; [vm_compute; reflexivity|].
  apply (streaming_plan_exact digest generation digest_ok chunks path tx 1709210100000000000 5). lia.
Defined.
End PlanSamples.
