(* ===== verification/ActivePart.v ===== *)
(** [storage/raw_writer.py]: one raw part that is being written.  [_PartAccumulator] collects
    what the manifest will state about the part, [_ActivePart] owns its file, the records that
    wait for a sync and the one sync in flight.  Paths are relative to the data root. *)
From S2P Require Import Prelude PyDecimal Domain StorageModels PyText CatalogJson PyTime PartPath Manifest FrameScan.
From S2P Require Import Durability.
From S2P Require StreamFile.
From S2P Require Histogram.

Definition _HOUR_NS : Z := 3600000000000.
Definition _CLOSE_TRIGGER (reason : CloseReason) : DurabilityTrigger :=
  match reason with
  | ROTATE_TIME => HOUR | ROTATE_SIZE => SIZE | CONFIG_RELOAD => CONFIG | Domain.SHUTDOWN => Durability.SHUTDOWN
  | Domain.RECOVERY => Durability.RECOVERY | RECOVERY_CONTROL => Durability.RECOVERY
  end.
Definition _CONTROL_KIND_COUNTER : list (string * string) := [
  ("gap_detected", "gap_count"); ("reconnect", "reconnect_count"); ("parse_error", "parse_error_count");
  ("checksum_error", "checksum_error_count"); ("queue_overflow", "queue_overflow_count")].
Definition counter_name (kind : string) : option string := snd <$> find (fun kv => String.eqb kv.1 kind) _CONTROL_KIND_COUNTER.

Definition _nonempty (value field_name : string) : result string :=
  raise ValueError (field_name +:+ " must be a normalized nonempty string") when negb (normalized value);; Ok value.
Definition _nonnegative (value : Z) (field_name : string) : result Z :=
  raise ValueError (field_name +:+ " must be non-negative") when value <? 0;; Ok value.
Definition _sha256 (value field_name : string) : result string :=
  raise ValueError (field_name +:+ " must be a lowercase SHA-256 digest") when negb (config_sha256_ok value);; Ok value.

(** ** Records *)
Record _RecordClaim : Type := { identity : AcceptedRecordIdentityV1; c_accepted_monotonic_ns : Z }.
#[export] Instance claim_eq_dec : EqDecision _RecordClaim.
Proof. solve_decision. Defined.
#[export] Instance buffered_row_eq_dec : EqDecision StreamFile.BufferedRow.
Proof. solve_decision. Defined.
#[export] Instance pending_rows_eq_dec : EqDecision StreamFile.PendingRows.
Proof. solve_decision. Defined.
#[export] Instance sealed_work_eq_dec : EqDecision StreamFile.SealedFileWork.
Proof. solve_decision. Defined.
Record _ClaimedSealedWork : Type := { claim_id : Z; work : StreamFile.SealedFileWork; claims : list _RecordClaim }.
#[export] Instance claimed_work_eq_dec : EqDecision _ClaimedSealedWork.
Proof. solve_decision. Defined.

(** [AcceptedRecord.accepted_monotonic_ns] *)
Definition accepted_monotonic_ns (r : AcceptedRecord) : Z := monotonic_ns (envelope r).

Record _PartIdentitySeed : Type := {
  s_exchange : Exchange; s_market : option Market; s_instrument_key : option string; s_logical_stream : string;
  s_worker_instance_id : string; s_config_sha256 : string; s_config_generation : Z
}.

Record _PartSummary : Type := {
  ps_exchange : Exchange; ps_market : option Market; ps_instrument_key : option string; ps_logical_stream : string;
  ps_wire_symbols : list string; ps_record_count : Z; ps_first_received_at_ns : Z; ps_last_received_at_ns : Z;
  ps_first_event_time_ns : option Z; ps_last_event_time_ns : option Z; ps_worker_instance_id : string;
  ps_connection_generations : list Z; ps_writer_sequence_first : Z; ps_writer_sequence_last : Z;
  ps_config_sha256 : string; ps_egress_ids : list string; ps_requested_intervals_ns : list Z;
  ps_effective_intervals_ns : list Z; ps_gap_count : Z; ps_reconnect_count : Z; ps_parse_error_count : Z;
  ps_checksum_error_count : Z; ps_queue_overflow_count : Z; ps_control_event_ids : list string;
  ps_durability_sample_count : Z; ps_durability_lag_p50_ns : Z; ps_durability_lag_p95_ns : Z;
  ps_durability_lag_p99_ns : Z; ps_durability_lag_max_ns : Z; ps_sync_count : Z; ps_sync_duration_total_ns : Z;
  ps_sync_duration_max_ns : Z; ps_slo_breach_count : Z; ps_write_failure_count : Z; ps_sync_failure_count : Z
}.

(** ** [_PartAccumulator]

    Its attributes in three groups: what the rows say, the syncs, the control records.  A
    counter of control records is found by its name, as [getattr] finds it. *)
Record Rows : Type := {
  _wire_symbols : gset string; _connection_generations : gset Z; _egress_ids : gset string;
  _requested_intervals_ns : gset Z; _effective_intervals_ns : gset Z; _record_count : Z;
  _first_received_at_ns : option Z; _last_received_at_ns : option Z; _first_event_time_ns : option Z;
  _last_event_time_ns : option Z; _writer_sequence_first : option Z; _writer_sequence_last : option Z
}.
Record Syncs : Type := {
  _histogram : Histogram.cell; _sync_count : Z; _sync_duration_total_ns : Z; _sync_duration_max_ns : Z;
  _slo_breach_count : Z; _write_failure_count : Z; _sync_failure_count : Z
}.
Record Controls : Type := { counters : gmap string Z; _control_event_ids : gset string }.
Record _PartAccumulator : Type := {
  _seed : _PartIdentitySeed; _durability_slo_ns : Z; a_rows : Rows; a_syncs : Syncs; a_controls : Controls; _frozen : bool
}.
Definition set_rows (r : Rows) (a : _PartAccumulator) : _PartAccumulator := {|
  _seed := _seed a; _durability_slo_ns := _durability_slo_ns a; a_rows := r; a_syncs := a_syncs a; a_controls := a_controls a;
  _frozen := _frozen a |}.
Definition set_syncs (s : Syncs) (a : _PartAccumulator) : _PartAccumulator := {|
  _seed := _seed a; _durability_slo_ns := _durability_slo_ns a; a_rows := a_rows a; a_syncs := s; a_controls := a_controls a;
  _frozen := _frozen a |}.
Definition set_controls (c : Controls) (a : _PartAccumulator) : _PartAccumulator := {|
  _seed := _seed a; _durability_slo_ns := _durability_slo_ns a; a_rows := a_rows a; a_syncs := a_syncs a; a_controls := c;
  _frozen := _frozen a |}.
Definition set_frozen (a : _PartAccumulator) : _PartAccumulator := {|
  _seed := _seed a; _durability_slo_ns := _durability_slo_ns a; a_rows := a_rows a; a_syncs := a_syncs a;
  a_controls := a_controls a; _frozen := true |}.

Definition no_rows : Rows := {|
  _wire_symbols := ∅; _connection_generations := ∅; _egress_ids := ∅; _requested_intervals_ns := ∅;
  _effective_intervals_ns := ∅; _record_count := 0; _first_received_at_ns := None; _last_received_at_ns := None;
  _first_event_time_ns := None; _last_event_time_ns := None; _writer_sequence_first := None; _writer_sequence_last := None |}.
Definition no_syncs : Syncs := {|
  _histogram := Histogram.Cumulative.new; _sync_count := 0; _sync_duration_total_ns := 0; _sync_duration_max_ns := 0;
  _slo_breach_count := 0; _write_failure_count := 0; _sync_failure_count := 0 |}.
Definition no_controls : Controls := {|
  counters := list_to_map ((fun kv => (kv.2, 0)) <$> _CONTROL_KIND_COUNTER); _control_event_ids := ∅ |}.
Definition _initialize (seed : _PartIdentitySeed) (durability_slo_ns : Z) : result _PartAccumulator :=
  let! slo := _nonnegative durability_slo_ns "durability_slo_ns" in
  raise ValueError "durability_slo_ns must be positive" when slo =? 0;;
  Ok {| _seed := seed; _durability_slo_ns := slo; a_rows := no_rows; a_syncs := no_syncs; a_controls := no_controls;
        _frozen := false |}.
Definition from_seed : _PartIdentitySeed -> Z -> result _PartAccumulator := _initialize.

Definition _validate_pair (record : AcceptedRecord) (identity : AcceptedRecordIdentityV1) : result unit :=
  raise ValueError "accepted identity does not match its record" when negb (identity_matches (envelope record) identity);; Ok tt.

Definition seed_of (e : RawEnvelope) (config_generation : Z) : _PartIdentitySeed := {|
  s_exchange := exchange (base e); s_market := market (base e); s_instrument_key := instrument_key (base e);
  s_logical_stream := logical_stream (base e); s_worker_instance_id := worker_instance_id e;
  s_config_sha256 := config_sha256 e; s_config_generation := config_generation |}.
#[export] Instance seed_eq_dec : EqDecision _PartIdentitySeed.
Proof. solve_decision. Defined.

Definition new_accumulator (first_record : AcceptedRecord) (first_identity : AcceptedRecordIdentityV1) (durability_slo_ns : Z)
    : result _PartAccumulator :=
  let! _ := _validate_pair first_record first_identity in
  _initialize (seed_of (envelope first_record) (i_config_generation first_identity)) durability_slo_ns.

Definition validate_record (record : AcceptedRecord) (identity : AcceptedRecordIdentityV1) (a : _PartAccumulator) : result unit :=
  raise ValueError "part accumulator is frozen" when _frozen a;;
  let! _ := _validate_pair record identity in
  raise ValueError "record does not belong to this raw part"
    when negb (bool_decide (seed_of (envelope record) (i_config_generation identity) = _seed a));;
  raise ValueError "part writer sequences must be strictly increasing"
    when match _writer_sequence_last (a_rows a) with Some last => writer_sequence (envelope record) <=? last | None => false end;;
  Ok tt.

(** The three parts of [append_validated]: the sets of names, the intervals, the bounds. *)
Definition add_names (e : RawEnvelope) (s : Rows) : Rows := {|
  _wire_symbols := add_opt (wire_symbol (base e)) (_wire_symbols s);
  _connection_generations := add_opt (env_connection_generation e) (_connection_generations s);
  _egress_ids := add_opt (env_egress_id e) (_egress_ids s);
  _requested_intervals_ns := _requested_intervals_ns s; _effective_intervals_ns := _effective_intervals_ns s;
  _record_count := _record_count s; _first_received_at_ns := _first_received_at_ns s;
  _last_received_at_ns := _last_received_at_ns s; _first_event_time_ns := _first_event_time_ns s;
  _last_event_time_ns := _last_event_time_ns s; _writer_sequence_first := _writer_sequence_first s;
  _writer_sequence_last := _writer_sequence_last s |}.
Definition add_intervals (requested effective : Z) (s : Rows) : Rows := {|
  _wire_symbols := _wire_symbols s; _connection_generations := _connection_generations s; _egress_ids := _egress_ids s;
  _requested_intervals_ns := {[requested]} ∪ _requested_intervals_ns s;
  _effective_intervals_ns := {[effective]} ∪ _effective_intervals_ns s;
  _record_count := _record_count s; _first_received_at_ns := _first_received_at_ns s;
  _last_received_at_ns := _last_received_at_ns s; _first_event_time_ns := _first_event_time_ns s;
  _last_event_time_ns := _last_event_time_ns s; _writer_sequence_first := _writer_sequence_first s;
  _writer_sequence_last := _writer_sequence_last s |}.
Definition add_bounds (e : RawEnvelope) (s : Rows) : Rows := {|
  _wire_symbols := _wire_symbols s; _connection_generations := _connection_generations s; _egress_ids := _egress_ids s;
  _requested_intervals_ns := _requested_intervals_ns s; _effective_intervals_ns := _effective_intervals_ns s;
  _record_count := _record_count s + 1;
  _first_received_at_ns := if _record_count s =? 0 then Some (received_at_ns e) else _first_received_at_ns s;
  _last_received_at_ns := Some (received_at_ns e);
  _first_event_time_ns := match event_time_ns (base e), _first_event_time_ns s with Some t, None => Some t | _, first => first end;
  _last_event_time_ns := match event_time_ns (base e) with Some t => Some t | None => _last_event_time_ns s end;
  _writer_sequence_first := if _record_count s =? 0 then Some (writer_sequence e) else _writer_sequence_first s;
  _writer_sequence_last := Some (writer_sequence e) |}.
Definition append_validated (record : AcceptedRecord) : M _PartAccumulator unit := fun a =>
  let e := envelope record in
  let s := add_names e (a_rows a) in
  match rest_metadata (base e) ≫= Domain.requested_interval_ns with
  | None => (set_rows (add_bounds e s) a, Ok tt)
  | Some requested =>
      match rest_metadata (base e) ≫= effective_interval_ns with
      | None => (set_rows s a, Err (AssertionError "effective_interval_ns is not None"))
      | Some effective => (set_rows (add_bounds e (add_intervals requested effective s)) a, Ok tt)
      end
  end.

Definition record_count (a : _PartAccumulator) : Z := _record_count (a_rows a).
Definition durability_sample_count (a : _PartAccumulator) : result Z :=
  let! s := Histogram.Cumulative.snapshot (_histogram (a_syncs a)) in Ok (Histogram.sample_count s).

(** The lags of the claims, with their histogram. *)
Fixpoint claim_lags (completed_ns : Z) (claims : list _RecordClaim) (batch_histogram : Histogram.cell) (lags : list Z)
    : result (list Z * Histogram.cell) :=
  match claims with
  | [] => Ok (lags, batch_histogram)
  | claim :: claims =>
      raise ValueError "sync completion precedes record acceptance" when completed_ns <? c_accepted_monotonic_ns claim;;
      let lag_ns := completed_ns - c_accepted_monotonic_ns claim in
      let! batch_histogram := Histogram.Cumulative.add batch_histogram lag_ns in
      claim_lags completed_ns claims batch_histogram (lags ++ [lag_ns])
  end.
Definition set_lag (h : Histogram.cell) (breaches : Z) (s : Syncs) : Syncs := {|
  _histogram := h; _sync_count := _sync_count s; _sync_duration_total_ns := _sync_duration_total_ns s;
  _sync_duration_max_ns := _sync_duration_max_ns s; _slo_breach_count := breaches;
  _write_failure_count := _write_failure_count s; _sync_failure_count := _sync_failure_count s |}.
Fixpoint add_lags (slo : Z) (lags : list Z) : M Syncs unit := fun s =>
  match lags with
  | [] => (s, Ok tt)
  | lag_ns :: lags =>
      match Histogram.Cumulative.add (_histogram s) lag_ns with
      | Err e => (s, Err e)
      | Ok h => add_lags slo lags (set_lag h (if slo <? lag_ns then _slo_breach_count s + 1 else _slo_breach_count s) s)
      end
  end.
Definition count_sync (sync_duration_ns : Z) (s : Syncs) : Syncs := {|
  _histogram := _histogram s; _sync_count := _sync_count s + 1;
  _sync_duration_total_ns := _sync_duration_total_ns s + sync_duration_ns;
  _sync_duration_max_ns := Z.max (_sync_duration_max_ns s) sync_duration_ns; _slo_breach_count := _slo_breach_count s;
  _write_failure_count := _write_failure_count s; _sync_failure_count := _sync_failure_count s |}.

Definition check_completion (result : FileDurabilityResult) (claims : list _RecordClaim) (a : _PartAccumulator)
    : Prelude.result (list Z) :=
  raise ValueError "part accumulator is frozen" when _frozen a;;
  raise ValueError "completion record count does not match its claims"
    when negb (r_record_count result =? Z.of_nat (length claims)) || negb (Bool.eqb (was_dirty result) (negb (nil claims)));;
  match sync_completed_monotonic_ns result with
  | None => Err (ValueError "final sync completion requires a completion time")
  | Some completed_ns =>
      let! '(lags, batch_histogram) := claim_lags completed_ns claims Histogram.Cumulative.new [] in
      let! batch := Histogram.Cumulative.snapshot batch_histogram in
      raise ValueError "completion durability statistics do not match claims"
        when negb (bool_decide (
          (Durability.lag_p50_ns result, Durability.lag_p95_ns result, Durability.lag_p99_ns result, Durability.lag_max_ns result) =
          (Histogram.lag_p50_ns batch, Histogram.lag_p95_ns batch, Histogram.lag_p99_ns batch, Histogram.lag_max_ns batch)));;
      Ok lags
  end.
Definition acc_completion (result : FileDurabilityResult) (claims : list _RecordClaim) : M _PartAccumulator unit := fun a =>
  match check_completion result claims a with
  | Err e => (a, Err e)
  | Ok lags =>
      match add_lags (_durability_slo_ns a) lags (a_syncs a) with
      | (s, Err e) => (set_syncs s a, Err e)
      | (s, Ok _) => (set_syncs (count_sync (sync_duration_ns result) s) a, Ok tt)
      end
  end.

(** The errors a sync may end with: a [FilePersistenceError], or any other. *)
Definition BaseException : Type := (FilePersistenceError + exn)%type.
Definition count_failure (write : bool) (s : Syncs) : Syncs := {|
  _histogram := _histogram s; _sync_count := _sync_count s; _sync_duration_total_ns := _sync_duration_total_ns s;
  _sync_duration_max_ns := _sync_duration_max_ns s; _slo_breach_count := _slo_breach_count s;
  _write_failure_count := if write then _write_failure_count s + 1 else _write_failure_count s;
  _sync_failure_count := if write then _sync_failure_count s else _sync_failure_count s + 1 |}.
Definition acc_failure (error : BaseException) (a : _PartAccumulator) : _PartAccumulator :=
  set_syncs (count_failure (match error with inl e => bool_decide (reason e = WRITE_FAILED) | inr _ => false end) (a_syncs a)) a.

Definition acc_validate_control (association : StorageControlAssociationV1) (generation_id data_relative_path : string)
    (a : _PartAccumulator) : result unit :=
  raise ValueError "part accumulator is frozen" when _frozen a;;
  let matching_targets := filter (fun t => (StorageModels.generation_id t, StorageModels.data_relative_path t) = (generation_id, data_relative_path))
    (a_targets association) in
  raise ValueError "durable control does not target this exact raw part" when negb (length matching_targets =? 1)%nat;;
  raise ValueError "durable control association was already folded"
    when bool_decide (a_control_event_id association ∈ _control_event_ids (a_controls a));;
  Ok tt.
Definition bump (name : option string) (m : gmap string Z) : gmap string Z :=
  match name with Some name => <[name := default 0 (m !! name) + 1]> m | None => m end.
Definition acc_fold_control (association : StorageControlAssociationV1) (generation_id data_relative_path : string)
    : M _PartAccumulator unit := fun a =>
  match acc_validate_control association generation_id data_relative_path a with
  | Err e => (a, Err e)
  | Ok _ => (set_controls {| counters := bump (counter_name (a_control_kind association)) (counters (a_controls a));
                             _control_event_ids := {[a_control_event_id association]} ∪ _control_event_ids (a_controls a) |} a, Ok tt)
  end.

Definition not_none {A} (o : option A) (field : string) : result A :=
  match o with Some a => Ok a | None => Err (AssertionError (field +:+ " is not None")) end.
Definition summary (a : _PartAccumulator) : result _PartSummary :=
  let r := a_rows a in let s := a_syncs a in let counter name := default 0 (counters (a_controls a) !! name) in
  raise ValueError "part accumulator is already frozen" when _frozen a;;
  raise ValueError "empty raw parts cannot be frozen" when _record_count r =? 0;;
  let! durability := Histogram.Cumulative.snapshot (_histogram s) in
  raise ValueError "not every raw record is durable" when negb (Histogram.sample_count durability =? _record_count r);;
  raise ValueError "failed raw parts cannot publish normal manifests"
    when negb (_write_failure_count s =? 0) || negb (_sync_failure_count s =? 0);;
  let! first_received := not_none (_first_received_at_ns r) "_first_received_at_ns" in
  let! last_received := not_none (_last_received_at_ns r) "_last_received_at_ns" in
  let! sequence_first := not_none (_writer_sequence_first r) "_writer_sequence_first" in
  let! sequence_last := not_none (_writer_sequence_last r) "_writer_sequence_last" in
  let! p50 := not_none (Histogram.lag_p50_ns durability) "lag_p50_ns" in
  let! p95 := not_none (Histogram.lag_p95_ns durability) "lag_p95_ns" in
  let! p99 := not_none (Histogram.lag_p99_ns durability) "lag_p99_ns" in
  let! maximum := not_none (Histogram.lag_max_ns durability) "lag_max_ns" in
  Ok {| ps_exchange := s_exchange (_seed a); ps_market := s_market (_seed a); ps_instrument_key := s_instrument_key (_seed a);
        ps_logical_stream := s_logical_stream (_seed a); ps_wire_symbols := sorted_set string_leb (_wire_symbols r);
        ps_record_count := _record_count r; ps_first_received_at_ns := first_received; ps_last_received_at_ns := last_received;
        ps_first_event_time_ns := _first_event_time_ns r; ps_last_event_time_ns := _last_event_time_ns r;
        ps_worker_instance_id := s_worker_instance_id (_seed a);
        ps_connection_generations := sorted_set Z.leb (_connection_generations r);
        ps_writer_sequence_first := sequence_first; ps_writer_sequence_last := sequence_last;
        ps_config_sha256 := s_config_sha256 (_seed a); ps_egress_ids := sorted_set string_leb (_egress_ids r);
        ps_requested_intervals_ns := sorted_set Z.leb (_requested_intervals_ns r);
        ps_effective_intervals_ns := sorted_set Z.leb (_effective_intervals_ns r);
        ps_gap_count := counter "gap_count"; ps_reconnect_count := counter "reconnect_count";
        ps_parse_error_count := counter "parse_error_count"; ps_checksum_error_count := counter "checksum_error_count";
        ps_queue_overflow_count := counter "queue_overflow_count";
        ps_control_event_ids := sorted_set string_leb (_control_event_ids (a_controls a));
        ps_durability_sample_count := Histogram.sample_count durability; ps_durability_lag_p50_ns := p50;
        ps_durability_lag_p95_ns := p95; ps_durability_lag_p99_ns := p99; ps_durability_lag_max_ns := maximum;
        ps_sync_count := _sync_count s; ps_sync_duration_total_ns := _sync_duration_total_ns s;
        ps_sync_duration_max_ns := _sync_duration_max_ns s; ps_slo_breach_count := _slo_breach_count s;
        ps_write_failure_count := _write_failure_count s; ps_sync_failure_count := _sync_failure_count s |}.
Definition acc_freeze : M _PartAccumulator _PartSummary := fun a =>
  match summary a with Ok s => (set_frozen a, Ok s) | Err e => (a, Err e) end.

(** ** [_ActivePart]

    A batch task is named by a number.  A claimed work is compared by value: [_claimed] holds
    at most one, made by this part under an id it never gives again. *)
Record _ActivePart : Type := {
  stream_file : StreamFile.StreamFile; partial_path : string; p_data_relative_path : string;
  p_manifest_relative_path : string; part_start_ns : Z; part_sequence : Z; p_created_at_ns : Z; p_received_hour : Z;
  _accumulator : _PartAccumulator; _pending_claims : list _RecordClaim; _claimed : gmap Z _ClaimedSealedWork;
  _batch_task_by_claim_id : gmap Z Z; _next_claim_id : Z; p_close_reason : option CloseReason; p_closed_at_ns : option Z
}.
Definition manifest_partial_path (p : _ActivePart) : string := p_manifest_relative_path p +:+ ".partial".
Definition generation_id (p : _ActivePart) : string := StreamFile._generation_id (stream_file p).
Definition p_config_sha256 (p : _ActivePart) : string := s_config_sha256 (_seed (_accumulator p)).
Definition p_config_generation (p : _ActivePart) : Z := s_config_generation (_seed (_accumulator p)).
Definition p_logical_stream (p : _ActivePart) : string := s_logical_stream (_seed (_accumulator p)).
Definition p_record_count (p : _ActivePart) : Z := record_count (_accumulator p).

Definition set_file (f : StreamFile.StreamFile) (p : _ActivePart) : _ActivePart := {|
  stream_file := f; partial_path := partial_path p; p_data_relative_path := p_data_relative_path p;
  p_manifest_relative_path := p_manifest_relative_path p; part_start_ns := part_start_ns p; part_sequence := part_sequence p;
  p_created_at_ns := p_created_at_ns p; p_received_hour := p_received_hour p; _accumulator := _accumulator p;
  _pending_claims := _pending_claims p; _claimed := _claimed p; _batch_task_by_claim_id := _batch_task_by_claim_id p;
  _next_claim_id := _next_claim_id p; p_close_reason := p_close_reason p; p_closed_at_ns := p_closed_at_ns p |}.
Definition set_accumulator (a : _PartAccumulator) (p : _ActivePart) : _ActivePart := {|
  stream_file := stream_file p; partial_path := partial_path p; p_data_relative_path := p_data_relative_path p;
  p_manifest_relative_path := p_manifest_relative_path p; part_start_ns := part_start_ns p; part_sequence := part_sequence p;
  p_created_at_ns := p_created_at_ns p; p_received_hour := p_received_hour p; _accumulator := a;
  _pending_claims := _pending_claims p; _claimed := _claimed p; _batch_task_by_claim_id := _batch_task_by_claim_id p;
  _next_claim_id := _next_claim_id p; p_close_reason := p_close_reason p; p_closed_at_ns := p_closed_at_ns p |}.
Definition set_claims (pending : list _RecordClaim) (claimed : gmap Z _ClaimedSealedWork) (tasks : gmap Z Z) (next : Z)
    (p : _ActivePart) : _ActivePart := {|
  stream_file := stream_file p; partial_path := partial_path p; p_data_relative_path := p_data_relative_path p;
  p_manifest_relative_path := p_manifest_relative_path p; part_start_ns := part_start_ns p; part_sequence := part_sequence p;
  p_created_at_ns := p_created_at_ns p; p_received_hour := p_received_hour p; _accumulator := _accumulator p;
  _pending_claims := pending; _claimed := claimed; _batch_task_by_claim_id := tasks; _next_claim_id := next;
  p_close_reason := p_close_reason p; p_closed_at_ns := p_closed_at_ns p |}.
Definition set_closed (reason : CloseReason) (closed_at_ns : Z) (p : _ActivePart) : _ActivePart := {|
  stream_file := stream_file p; partial_path := partial_path p; p_data_relative_path := p_data_relative_path p;
  p_manifest_relative_path := p_manifest_relative_path p; part_start_ns := part_start_ns p; part_sequence := part_sequence p;
  p_created_at_ns := p_created_at_ns p; p_received_hour := p_received_hour p; _accumulator := _accumulator p;
  _pending_claims := _pending_claims p; _claimed := _claimed p; _batch_task_by_claim_id := _batch_task_by_claim_id p;
  _next_claim_id := _next_claim_id p; p_close_reason := Some reason; p_closed_at_ns := Some closed_at_ns |}.

(** [__init__] *)
Definition part_init (stream_file : StreamFile.StreamFile) (path : string) (accumulator : _PartAccumulator)
    (part_start_ns part_sequence received_hour created_at_ns : Z) : result _ActivePart :=
  let data := removesuffix ".partial" path in
  let! manifest := manifest_path_for_data data in
  let! created := _nonnegative created_at_ns "created_at_ns" in
  let! hour := _nonnegative received_hour "received_hour" in
  Ok {| ActivePart.stream_file := stream_file; partial_path := path; p_data_relative_path := data;
        p_manifest_relative_path := manifest; ActivePart.part_start_ns := part_start_ns;
        ActivePart.part_sequence := part_sequence; p_created_at_ns := created; p_received_hour := hour;
        _accumulator := accumulator; _pending_claims := []; _claimed := ∅; _batch_task_by_claim_id := ∅; _next_claim_id := 0;
        p_close_reason := None; p_closed_at_ns := None |}.

(** [fd] is the descriptor of the new file.  An error closes it. *)
Definition allocate (first_record : AcceptedRecord) (first_identity : AcceptedRecordIdentityV1) (generation_id : string)
    (part_start_ns part_sequence zstd_level max_plain_frame_bytes durability_slo_ns : Z) (created_at_ns : option Z) (fd : Z)
    : result _ActivePart :=
  let! generation := _nonempty generation_id "generation_id" in
  let! path := raw_partial_path (envelope first_record) part_start_ns part_sequence in
  let! stream := StreamFile.allocate "" zstd_level max_plain_frame_bytes (Some generation) fd in
  let! accumulator := new_accumulator first_record first_identity durability_slo_ns in
  part_init stream path accumulator part_start_ns part_sequence (received_at_ns (envelope first_record) / _HOUR_NS)
    (default (received_at_ns (envelope first_record)) created_at_ns).
Definition allocate_empty_replacement (current : _ActivePart) (generation_id partial_path : string)
    (part_start_ns part_sequence zstd_level max_plain_frame_bytes durability_slo_ns created_at_ns : Z) (fd : Z)
    : result _ActivePart :=
  let! generation := _nonempty generation_id "generation_id" in
  let! stream := StreamFile.allocate "" zstd_level max_plain_frame_bytes (Some generation) fd in
  let! accumulator := from_seed (_seed (_accumulator current)) durability_slo_ns in
  part_init stream partial_path accumulator part_start_ns part_sequence (p_received_hour current) created_at_ns.

(** Running an operation of the accumulator or of the file. *)
Definition on_accumulator {A} (m : M _PartAccumulator A) : M _ActivePart A := fun p =>
  let '(a, r) := m (_accumulator p) in (set_accumulator a p, r).
Definition on_file {A} (m : M StreamFile.StreamFile A) : M _ActivePart A := fun p =>
  let '(f, r) := m (stream_file p) in (set_file f p, r).
Definition add_claim (claim : _RecordClaim) : M _ActivePart unit := fun p =>
  (set_claims (_pending_claims p ++ [claim]) (_claimed p) (_batch_task_by_claim_id p) (_next_claim_id p) p, Ok tt).

Definition append_accepted (record : AcceptedRecord) (identity : AcceptedRecordIdentityV1) : M _ActivePart unit := fun p =>
  if bool_decide (is_Some (p_close_reason p)) then (p, Err (ValueError "retired raw parts cannot accept records"))
  else match validate_record record identity (_accumulator p) with
  | Err e => (p, Err e)
  | Ok _ =>
      (do! _ := on_file (StreamFile.append (encoded_jsonl record) (accepted_monotonic_ns record)) in
       do! _ := on_accumulator (append_validated record) in
       add_claim {| ActivePart.identity := identity; c_accepted_monotonic_ns := accepted_monotonic_ns record |}) p
  end.

(** The claim of sealed work gets the next id. *)
Definition claim_work (work : StreamFile.SealedFileWork) (claims : list _RecordClaim) (pending : list _RecordClaim)
    : M _ActivePart _ClaimedSealedWork := fun p =>
  let claimed := {| claim_id := _next_claim_id p; ActivePart.work := work; ActivePart.claims := claims |} in
  (set_claims pending (<[_next_claim_id p := claimed]> (_claimed p)) (_batch_task_by_claim_id p) (_next_claim_id p + 1) p, Ok claimed).
Definition pending_count (w : StreamFile.SealedFileWork) : nat :=
  match StreamFile.pending w with None => O | Some p => length (StreamFile.rows p) end.

Definition seal_for_sync (force_sync : bool) : M _ActivePart (option _ClaimedSealedWork) := fun p =>
  if negb (bool_decide (_claimed p = ∅)) then (p, Err (ValueError "raw part already has sync work in flight"))
  else (do! work := on_file (StreamFile.seal_for_sync None force_sync) in
        match work with
        | None => mret None
        | Some work => fun p =>
            let claims := _pending_claims p in
            if negb (pending_count work =? length claims)%nat then (p, Err (AssertionError "sealed rows and durability claims diverged"))
            else (do! claimed := claim_work work claims [] in mret (Some claimed)) p
        end) p.

Definition seal_oversized (record : AcceptedRecord) (identity : AcceptedRecordIdentityV1)
    : M _ActivePart _ClaimedSealedWork := fun p =>
  let check :=
    raise ValueError "retired raw parts cannot accept records" when bool_decide (is_Some (p_close_reason p));;
    raise ValueError "oversized work requires a quiescent raw part"
      when negb (nil (_pending_claims p)) || negb (bool_decide (_claimed p = ∅));;
    raise ValueError "oversized work must exceed the plain frame limit"
      when StreamFile.len (encoded_jsonl record) <=? StreamFile.max_plain_frame_bytes (stream_file p);;
    let! _ := validate_record record identity (_accumulator p) in
    let! row := StreamFile.buffered_row (encoded_jsonl record) (accepted_monotonic_ns record) in
    StreamFile.pending_rows [row] (StreamFile.len (encoded_jsonl record)) in
  match check with
  | Err e => (p, Err e)
  | Ok rows =>
      (do! work := on_file (StreamFile.seal_for_sync (Some rows) false) in
       match work with
       | None => mraise (AssertionError "work is not None")
       | Some work =>
           do! _ := on_accumulator (append_validated record) in
           fun p => claim_work work [{| ActivePart.identity := identity; c_accepted_monotonic_ns := accepted_monotonic_ns record |}]
                      (_pending_claims p) p
       end) p
  end.

Definition pending_identities (p : _ActivePart) : list AcceptedRecordIdentityV1 := identity <$> _pending_claims p.
Definition pending_plain_bytes (p : _ActivePart) : Z := StreamFile.pending_plain_bytes (stream_file p).

Definition _require_owned_claim (claimed : _ClaimedSealedWork) (p : _ActivePart) : result unit :=
  raise ValueError "claimed work is not owned by this raw part"
    when negb (bool_decide (_claimed p !! claim_id claimed = Some claimed));; Ok tt.
Definition drop_claim (claimed : _ClaimedSealedWork) : M _ActivePart unit := fun p =>
  (set_claims (_pending_claims p) (delete (claim_id claimed) (_claimed p)) (delete (claim_id claimed) (_batch_task_by_claim_id p))
     (_next_claim_id p) p, Ok tt).

Definition apply_completion (claimed : _ClaimedSealedWork) (result : FileDurabilityResult) : M _ActivePart unit := fun p =>
  match _require_owned_claim claimed p with
  | Err e => (p, Err e)
  | Ok _ =>
      if negb (String.eqb (r_generation_id result) (generation_id p))
      then (p, Err (ValueError "completion generation does not match raw part"))
      else (do! _ := on_accumulator (acc_completion result (claims claimed)) in drop_claim claimed) p
  end.
Definition apply_failure (claimed : _ClaimedSealedWork) (error : BaseException) : M _ActivePart unit := fun p =>
  match _require_owned_claim claimed p with
  | Err e => (p, Err e)
  | Ok _ => drop_claim claimed (set_accumulator (acc_failure error (_accumulator p)) p)
  end.

Definition validate_retirement (reason : CloseReason) (closed_at_ns : Z) (p : _ActivePart) : result Z :=
  raise ValueError "active parts require a normal close reason" when bool_decide (reason = Domain.RECOVERY);;
  let! closed := _nonnegative closed_at_ns "closed_at_ns" in
  raise ValueError "raw part was already retired with different facts"
    when bool_decide (is_Some (p_close_reason p)) &&
         (negb (bool_decide (p_close_reason p = Some reason)) || negb (bool_decide (p_closed_at_ns p = Some closed)));;
  Ok closed.
Definition validate_final_barrier (reason : CloseReason) (closed_at_ns : Z) (p : _ActivePart) : result unit :=
  let! _ := validate_retirement reason (default closed_at_ns (p_closed_at_ns p)) p in
  raise ValueError "retired raw part close reason does not match the barrier"
    when bool_decide (is_Some (p_close_reason p)) && negb (bool_decide (p_close_reason p = Some reason));;
  raise ValueError "closed raw files cannot enter a final barrier" when StreamFile.closed (stream_file p);;
  raise ValueError "empty raw parts cannot enter a final barrier" when p_record_count p =? 0;;
  Ok tt.
Definition retire (reason : CloseReason) (closed_at_ns : Z) : M _ActivePart unit := fun p =>
  match validate_retirement reason closed_at_ns p with
  | Err e => (p, Err e)
  | Ok closed => (if bool_decide (is_Some (p_close_reason p)) then p else set_closed reason closed p, Ok tt)
  end.

Definition freeze_summary : M _ActivePart _PartSummary := fun p =>
  if negb (nil (_pending_claims p)) || negb (bool_decide (_claimed p = ∅))
  then (p, Err (ValueError "raw part still owns unsettled durability claims"))
  else on_accumulator acc_freeze p.

Definition in_flight_claim (p : _ActivePart) : result (option _ClaimedSealedWork) :=
  raise AssertionError "raw part owns more than one in-flight claim" when (1 <? size (_claimed p))%nat;;
  Ok (head (map_to_list (_claimed p)).*2).

Definition bind_claim_batch_task (claimed : _ClaimedSealedWork) (batch_task : Z) : M _ActivePart unit := fun p =>
  match (let! _ := _require_owned_claim claimed p in
         raise ValueError "claimed work already has a batch settlement task"
           when bool_decide (is_Some (_batch_task_by_claim_id p !! claim_id claimed));; Ok tt) with
  | Err e => (p, Err e)
  | Ok _ => (set_claims (_pending_claims p) (_claimed p) (<[claim_id claimed := batch_task]> (_batch_task_by_claim_id p))
               (_next_claim_id p) p, Ok tt)
  end.
Definition claim_batch_task (claimed : _ClaimedSealedWork) (p : _ActivePart) : result (option Z) :=
  let! _ := _require_owned_claim claimed p in Ok (_batch_task_by_claim_id p !! claim_id claimed).

(** The claimed work that holds the identity; [None] if it is pending. *)
Definition locate_control_identity (control : AcceptedRecordIdentityV1) (p : _ActivePart) : result (option _ClaimedSealedWork) :=
  raise ValueError "control dependencies require _control identities"
    when negb (String.eqb (p_logical_stream p) "_control") || negb (String.eqb (i_logical_stream control) "_control");;
  let pending_matches := filter (fun c => identity c = control) (_pending_claims p) in
  let claimed_matches := filter (fun w => Exists (fun c => identity c = control) (claims w)) (map_to_list (_claimed p)).*2 in
  raise ValueError "control dependency identity must be exactly one owned claim"
    when negb (length pending_matches + length claimed_matches =? 1)%nat;;
  Ok (head claimed_matches).
Definition validate_pending_control_identity (control : AcceptedRecordIdentityV1) (p : _ActivePart) : result unit :=
  let! located := locate_control_identity control p in
  raise ValueError "pending control work is blocked by an in-flight claim"
    when bool_decide (is_Some located) || negb (bool_decide (_claimed p = ∅));;
  Ok tt.

Definition validate_durable_control (association : StorageControlAssociationV1) (p : _ActivePart) : result unit :=
  acc_validate_control association (generation_id p) (p_data_relative_path p) (_accumulator p).
Definition fold_durable_control (association : StorageControlAssociationV1) : M _ActivePart unit := fun p =>
  on_accumulator (acc_fold_control association (generation_id p) (p_data_relative_path p)) p.

(** The arguments of [RawManifestV1]. *)
Definition manifest_fields (p : _ActivePart) (s : _PartSummary) (reason : CloseReason) (closed file_size : Z) (sha256 : string)
    : RawManifestV1 := {|
  m_exchange := ps_exchange s; m_market := ps_market s; m_instrument_key := ps_instrument_key s;
  m_logical_stream := ps_logical_stream s; m_wire_symbols := ps_wire_symbols s;
  m_data_relative_path := p_data_relative_path p; manifest_relative_path := p_manifest_relative_path p;
  file_size_bytes := file_size; Manifest.file_sha256 := sha256; m_zstd_level := Some (StreamFile.zstd_level (stream_file p));
  m_max_plain_frame_bytes := Some (StreamFile.max_plain_frame_bytes (stream_file p)); m_record_count := ps_record_count s;
  m_first_received_at_ns := ps_first_received_at_ns s; m_last_received_at_ns := ps_last_received_at_ns s;
  m_first_event_time_ns := ps_first_event_time_ns s; m_last_event_time_ns := ps_last_event_time_ns s;
  m_worker_instance_id := ps_worker_instance_id s; m_connection_generations := ps_connection_generations s;
  m_writer_sequence_first := ps_writer_sequence_first s; m_writer_sequence_last := ps_writer_sequence_last s;
  m_config_sha256 := ps_config_sha256 s; m_egress_ids := ps_egress_ids s;
  m_requested_intervals_ns := ps_requested_intervals_ns s; m_effective_intervals_ns := ps_effective_intervals_ns s;
  gap_count := Some (ps_gap_count s); reconnect_count := Some (ps_reconnect_count s);
  parse_error_count := Some (ps_parse_error_count s); checksum_error_count := Some (ps_checksum_error_count s);
  queue_overflow_count := Some (ps_queue_overflow_count s); control_event_ids := Some (ps_control_event_ids s);
  durability_measurement := MEASURED; Manifest.durability_sample_count := Some (ps_durability_sample_count s);
  durability_lag_p50_ns := Some (ps_durability_lag_p50_ns s); durability_lag_p95_ns := Some (ps_durability_lag_p95_ns s);
  durability_lag_p99_ns := Some (ps_durability_lag_p99_ns s); durability_lag_max_ns := Some (ps_durability_lag_max_ns s);
  sync_count := Some (ps_sync_count s); sync_duration_total_ns := Some (ps_sync_duration_total_ns s);
  sync_duration_max_ns := Some (ps_sync_duration_max_ns s); slo_breach_count := Some (ps_slo_breach_count s);
  write_failure_count := Some (ps_write_failure_count s); sync_failure_count := Some (ps_sync_failure_count s);
  close_reason := reason; created_at_ns := Some (p_created_at_ns p); closed_at_ns := closed;
  recovery_transaction_id := None; recovery_source_state := None; recovery_source_relative_path := None;
  recovery_source_bytes := None; recovery_source_sha256 := None; recovery_control_event_id := None;
  recovered_frame_count := None; recovered_record_count := None; recovered_bytes := None; recovered_sha256 := None;
  quarantined_suffix_relative_path := None; quarantined_suffix_bytes := None; quarantined_suffix_sha256 := None;
  unavailable_fields := [] |}.
Definition build_manifest (p : _ActivePart) (summary : _PartSummary) (file_size_bytes : Z) (file_sha256 : string)
    : result RawManifestV1 :=
  match p_close_reason p, p_closed_at_ns p with
  | Some reason, Some closed => manifest_init (manifest_fields p summary reason closed file_size_bytes file_sha256)
  | _, _ => Err (ValueError "raw part must be retired before manifest construction")
  end.
