(* ===== verification/ActivePartRuns.v ===== *)
(** What the operations of an active part do to its parts (the accumulator collects what
    recovery would collect from the same rows, the file buffers exactly the rows that have a
    claim, a completion that the durability coordinator reports is accepted), and the life of
    one part: its operations in any order, the storage thread that writes the sealed work, and
    the settlement of that work by what the thread reports.  The trace holds what happened to
    records, syncs and control records. *)
From S2P Require Import Prelude PyDecimal Domain StorageModels PyText PyTime CatalogJson PartPath EnvelopeJson Durability DurabilityFacts Manifest.
From S2P Require Import FrameScan RowFacts ActivePart.
From S2P Require StreamFile.
From S2P Require Histogram.

(** ** Rows *)
(** The accumulator holds what [_RecoveryRowFactsBuilder] collects. *)
Record mirrors (s : Rows) (es : list RawEnvelope) : Prop := {
  mi_symbols : _wire_symbols s = wire_symbols (extend new_builder es);
  mi_generations : _connection_generations s = connection_generations (extend new_builder es);
  mi_egress : _egress_ids s = egress_ids (extend new_builder es);
  mi_requested : _requested_intervals_ns s = requested_intervals_ns (extend new_builder es);
  mi_effective : _effective_intervals_ns s = effective_intervals_ns (extend new_builder es);
  mi_count : _record_count s = Z.of_nat (length es);
  mi_first_received : _first_received_at_ns s = received_at_ns <$> head es;
  mi_last_received : _last_received_at_ns s = received_at_ns <$> last es;
  mi_first_event : _first_event_time_ns s = first_event_time_ns (extend new_builder es);
  mi_last_event : _last_event_time_ns s = last_event_time_ns (extend new_builder es);
  mi_first_sequence : _writer_sequence_first s = writer_sequence <$> head es;
  mi_last_sequence : _writer_sequence_last s = writer_sequence <$> last es
}.

Lemma mirrors_nil : mirrors no_rows [].
Proof. by split. Qed.

(** The intervals of a record are both there or both absent. *)
Lemma intervals_made e : envelope_made e ->
  (rest_metadata (base e) ≫= Domain.requested_interval_ns = None /\ intervals e = None) \/
  exists r f, rest_metadata (base e) ≫= Domain.requested_interval_ns = Some r /\
    rest_metadata (base e) ≫= effective_interval_ns = Some f /\ intervals e = Some (r, f).
Proof.
  intros [_ Hm]. unfold intervals. destruct (rest_metadata (base e)) as [m|]; [|by left]. cbn in Hm |- *.
  unfold metadata_validate in Hm. apply raise_if_ok in Hm as [_ Hm]. apply raise_if_ok in Hm as [_ Hm].
  destruct (Domain.requested_interval_ns m) as [r|], (effective_interval_ns m) as [f|]; try done; [right; by exists r, f|by left].
Qed.

Lemma append_mirrors r a a' res es : envelope_made (envelope r) -> mirrors (a_rows a) es -> append_validated r a = (a', res) ->
  res = Ok tt /\ mirrors (a_rows a') (es ++ [envelope r]) /\ a' = set_rows (a_rows a') a.
Proof.
  intros Hmade [M1 M2 M3 M4 M5 M6 M7 M8 M9 M10 M11 M12] Ha. unfold append_validated in Ha.
  assert (Hlast : last (es ++ [envelope r]) = Some (envelope r)) by apply last_snoc.
  assert (Hhead : forall {B} (f : RawEnvelope -> B) o, o = f <$> head es ->
    (if Z.of_nat (length es) =? 0 then Some (f (envelope r)) else o) = f <$> head (es ++ [envelope r])).
  { intros B f o ->. by destruct es. }
  assert (Hext : extend new_builder (es ++ [envelope r]) = extend_one (extend new_builder es) (envelope r)).
  { unfold extend. by rewrite foldl_app. }
  destruct (intervals_made _ Hmade) as [(Hr & Hi)|(rq & ef & Hr & He & Hi)]; rewrite Hr in Ha; [|rewrite He in Ha];
    injection Ha as <- <-; (split; [done|]); (split; [|done]); split; cbn -[extend]; rewrite ?Hext, ?Hlast; cbn -[extend];
    rewrite ?M1, ?M2, ?M3, ?M4, ?M5, ?M9, ?M10, ?M6, ?Hi; try done; try (by apply Hhead); rewrite ?length_app; cbn; try lia;
    by destruct (event_time_ns _).
Qed.

(** ** Syncs *)
Definition claim_lag (completed_ns : Z) (c : _RecordClaim) : Z := completed_ns - c_accepted_monotonic_ns c.

Lemma claim_lags_is completed claims : forall l acc, Forall (fun c => Histogram.valid_lag (claim_lag completed c)) claims ->
  claim_lags completed claims (Histogram.cell_of l) acc =
  Ok (acc ++ (claim_lag completed <$> claims), Histogram.cell_of (rev (claim_lag completed <$> claims) ++ l)).
Proof.
  induction claims as [|c claims IH]; intros l acc HF; [by rewrite app_nil_r|]. apply Forall_cons in HF as [Hc HF].
  cbn [claim_lags]. unfold claim_lag in Hc. rewrite (proj2 (Z.ltb_ge _ _)) by (destruct Hc; lia). cbn [raise_if].
  unfold Histogram.Cumulative.add. rewrite Histogram.integer_ok by (destruct Hc; lia). cbn [rbind].
  rewrite Histogram.cell_add_cell_of by done. cbn [rbind]. rewrite IH by done. cbn [fmap list_fmap rev]. by rewrite <- !app_assoc.
Qed.

Definition breaches (slo : Z) (lags : list Z) : Z := Z.of_nat (length (filter (fun lag => slo < lag) lags)).
Lemma breaches_app slo l l' : breaches slo (l ++ l') = breaches slo l + breaches slo l'.
Proof. unfold breaches. rewrite filter_app, length_app. lia. Qed.

(** The statistics of the syncs of a part: the lags that were measured and how long each sync took. *)
Record syncs_of (slo : Z) (lags durations : list Z) (writes syncs : Z) (s : Syncs) : Prop := {
  sy_histogram : _histogram s = Histogram.cell_of lags;
  sy_count : _sync_count s = Z.of_nat (length durations);
  sy_total : _sync_duration_total_ns s = zsum durations;
  sy_max : _sync_duration_max_ns s = foldr Z.max 0 durations;
  sy_breaches : _slo_breach_count s = breaches slo lags;
  sy_writes : _write_failure_count s = writes;
  sy_syncs : _sync_failure_count s = syncs
}.
Lemma syncs_nil slo : syncs_of slo [] [] 0 0 no_syncs.
Proof. by split. Qed.

Lemma add_lags_is slo more : forall lags durations w f s, Forall Histogram.valid_lag more -> syncs_of slo lags durations w f s ->
  exists s', add_lags slo more s = (s', Ok tt) /\ syncs_of slo (rev more ++ lags) durations w f s'.
Proof.
  induction more as [|x more IH]; intros lags durations w f s HF Hs; [by exists s|]. apply Forall_cons in HF as [Hx HF].
  cbn [add_lags]. destruct Hs as [S1 S2 S3 S4 S5 S6 S7]. rewrite S1.
  assert (Histogram.Cumulative.add (Histogram.cell_of lags) x = Ok (Histogram.cell_of (x :: lags))) as ->.
  { unfold Histogram.Cumulative.add. rewrite Histogram.integer_ok by (destruct Hx; lia). cbn [rbind]. by apply Histogram.cell_add_cell_of. }
  cbn [rev]. rewrite <- app_assoc. apply IH; [done|]. split; try done. cbn. rewrite S5. unfold breaches.
  destruct (Z.ltb_spec slo x); [rewrite filter_cons_True by done; cbn [length]; lia|by rewrite filter_cons_False by lia].
Qed.

Lemma zmax0_perm l l' : l ≡ₚ l' -> foldr Z.max 0 l = foldr Z.max 0 l'.
Proof. induction 1; cbn; lia. Qed.
Lemma syncs_perm slo l l' d d' w f s : l ≡ₚ l' -> d ≡ₚ d' -> syncs_of slo l d w f s -> syncs_of slo l' d' w f s.
Proof.
  intros Hp Hd [S1 S2 S3 S4 S5 S6 S7]. split; try done; [by rewrite S1, (Histogram.cell_of_perm _ _ Hp)|by rewrite S2, Hd|
    by rewrite S3, Hd|by rewrite S4, (zmax0_perm _ _ Hd)|]. rewrite S5. unfold breaches. by rewrite Hp.
Qed.

(** ** A completion *)
(** The result the coordinator makes for work whose rows are those of the claims. *)
Definition rows_of_claims (w : StreamFile.SealedFileWork) (claims : list _RecordClaim) : Prop :=
  match StreamFile.pending w with
  | Some p => claims <> [] /\ StreamFile.accepted_monotonic_ns <$> StreamFile.rows p = c_accepted_monotonic_ns <$> claims
  | None => claims = []
  end.
Lemma lags_claims completed p claims : StreamFile.accepted_monotonic_ns <$> StreamFile.rows p = c_accepted_monotonic_ns <$> claims ->
  lags completed (StreamFile.rows p) = claim_lag completed <$> claims.
Proof.
  intros Hc. unfold lags, claim_lag. change (fun row => completed - StreamFile.accepted_monotonic_ns row) with (Z.sub completed ∘ StreamFile.accepted_monotonic_ns).
  change (fun c => completed - c_accepted_monotonic_ns c) with (Z.sub completed ∘ c_accepted_monotonic_ns). by rewrite !list_fmap_compose, Hc.
Qed.

(** A result comes with a clock reading that follows every row. *)
Definition timely (w : StreamFile.SealedFileWork) (completed_ns : Z) : Prop :=
  0 <= completed_ns <= StreamFile._MAX_SIGNED_INT64 /\
  match StreamFile.pending w with
  | Some p => rows_past completed_ns (StreamFile.rows p) = true /\ Forall (fun t => 0 <= t) (StreamFile.accepted_monotonic_ns <$> StreamFile.rows p)
  | None => True
  end.

Lemma lag_loop_past completed rows : forall h h', lag_loop completed rows h = Ok (Some h') -> rows_past completed rows = true.
Proof.
  induction rows as [|row rows IH]; intros h h' Hl; [done|]. cbn [lag_loop] in Hl. cbn [rows_past forallb].
  destruct (Z.ltb_spec completed (StreamFile.accepted_monotonic_ns row)) as [|Hle]; [done|]. apply rbind_ok in Hl as (h1 & _ & Hl).
  rewrite (proj2 (Z.leb_le _ _) Hle). by apply IH in Hl.
Qed.

Lemma persisted_timely `{StreamFile.Compressor} env work file file' r :
  _persist_blocking true env work file = (file', StreamFile.Returns (Ok (inl r))) ->
  timely work (clock_after env) /\ row_count work <= StreamFile._MAX_SIGNED_INT64.
Proof.
  intros Hp. unfold _persist_blocking in Hp. destruct (_clock_ns _ _) as [s|e]; [|done].
  assert (Hrep : forall f, sync_and_report true env work s f = Ok (inl r) ->
    0 <= clock_after env <= StreamFile._MAX_SIGNED_INT64 /\
    match StreamFile.pending work with Some p => rows_past (clock_after env) (StreamFile.rows p) = true | None => True end).
  { intros f Hs. unfold sync_and_report in Hs. destruct (sync_and_time env s f) as [c|e] eqn:Et; [|done].
    unfold sync_and_time in Et. apply rbind_ok in Et as (? & _ & Et). apply rbind_ok in Et as (? & _ & Et).
    apply rbind_ok in Et as (c' & Hc & Et). apply checked_integer in Hc as [-> Hc]. apply raise_if_ok in Et as [_ [= <-]]. split; [done|].
    unfold report in Hs. destruct (StreamFile.pending work) as [p|]; [|done]. apply rbind_ok in Hs as (h & Hh & Hs).
    destruct h as [h|]; [|done]. by apply lag_loop_past in Hh. }
  unfold timely, row_count. destruct (StreamFile.pending work) as [p|].
  - destruct (StreamFile.write_frame _ _ _) as [f [[w|e]|]] eqn:Ew; [|done..]. injection Hp as <- Hp.
    apply write_frame_prefix in Ew as (_ & _ & written & rest & _ & _ & _ & _ & Hn & HF).
    destruct (_ =? _); [|done]. destruct (Hrep _ Hp). split; [by split|lia].
  - injection Hp as <- Hp. destruct (Hrep _ Hp). split; [by split|done].
Qed.

Lemma claim_lags_valid w claims completed : rows_of_claims w claims -> timely w completed ->
  Forall (fun c => Histogram.valid_lag (claim_lag completed c)) claims.
Proof.
  unfold rows_of_claims, timely. intros Hr [Hc Ht]. destruct (StreamFile.pending w) as [p|]; [|by rewrite Hr].
  destruct Hr as [_ Hr], Ht as [Hp HF]. pose proof (lags_valid _ _ (proj2 Hc) HF Hp) as HV. rewrite (lags_claims _ _ _ Hr) in HV.
  by rewrite Forall_fmap in HV.
Qed.

Lemma completion_checked w claims started completed a :
  _frozen a = false -> rows_of_claims w claims -> timely w completed -> row_count w <= StreamFile._MAX_SIGNED_INT64 ->
  check_completion (expected_result true w started completed) claims a = Ok (claim_lag completed <$> claims).
Proof.
  intros Hfr Hr Ht Hn. pose proof (claim_lags_valid _ _ _ Hr Ht) as HV. unfold check_completion. rewrite Hfr. cbn [raise_if].
  unfold expected_result. cbn [r_record_count was_dirty sync_completed_monotonic_ns Durability.lag_p50_ns Durability.lag_p95_ns
    Durability.lag_p99_ns Durability.lag_max_ns].
  assert (Hcount : row_count w = Z.of_nat (length claims) /\ bool_decide (is_Some (StreamFile.pending w)) = negb (nil claims)).
  { unfold row_count, rows_of_claims in *. destruct (StreamFile.pending w) as [p|]; [|by rewrite Hr]. destruct Hr as [Hne Hr].
    apply (f_equal length) in Hr. rewrite !length_fmap in Hr. rewrite Hr. split; [done|]. by destruct claims. }
  destruct Hcount as [E1 E2]. rewrite E2, E1, Z.eqb_refl, Bool.eqb_reflx. cbn [negb orb raise_if].
  unfold Histogram.Cumulative.new. rewrite <- Histogram.cell_of_nil, claim_lags_is by done. cbn [rbind]. rewrite app_nil_r.
  set (ls := claim_lag completed <$> claims) in *.
  assert (Hsn : Histogram.Cumulative.snapshot (Histogram.cell_of (rev ls)) = Ok (Histogram.snapshot_of ls)).
  { unfold Histogram.Cumulative.snapshot. rewrite (Histogram.cell_of_perm (rev ls) ls) by (symmetry; apply Permutation_rev).
    apply Histogram.snapshot_cell_of; [by apply Forall_fmap|]. unfold ls. rewrite length_fmap, <- E1. exact Hn. }
  rewrite Hsn. cbn [rbind app].
  assert (Hsame : forall B (f : Histogram.DurabilityHistogramSnapshot -> option B), f (Histogram.snapshot_of []) = None ->
    samples true w completed ≫= f = f (Histogram.snapshot_of ls)).
  { intros B f Hf. unfold samples, rows_of_claims, ls in *. destruct (StreamFile.pending w) as [p|]; [|rewrite Hr; symmetry; exact Hf].
    destruct Hr as [_ Hr]. by rewrite (lags_claims _ _ _ Hr). }
  rewrite !Hsame by done. by rewrite bool_decide_eq_true_2.
Qed.

(** A completion that the coordinator reports is accepted, and counted. *)
Lemma completion_accepted w claims started completed a lags durations writes syncs :
  _frozen a = false -> rows_of_claims w claims -> timely w completed -> row_count w <= StreamFile._MAX_SIGNED_INT64 ->
  syncs_of (_durability_slo_ns a) lags durations writes syncs (a_syncs a) ->
  exists s, acc_completion (expected_result true w started completed) claims a = (set_syncs s a, Ok tt) /\
    syncs_of (_durability_slo_ns a) ((claim_lag completed <$> claims) ++ lags) ((completed - started) :: durations) writes syncs s.
Proof.
  intros Hfr Hr Ht Hn Hs. unfold acc_completion. rewrite (completion_checked _ _ _ _ _ Hfr Hr Ht Hn).
  destruct (add_lags_is _ (claim_lag completed <$> claims) _ _ _ _ _ ltac:(apply Forall_fmap; by eapply claim_lags_valid) Hs) as (s & -> & Hs').
  eexists. split; [done|]. apply (syncs_perm _ _ ((claim_lag completed <$> claims) ++ lags) _ durations) in Hs'; [|by rewrite <- Permutation_rev|done].
  destruct Hs' as [S1 S2 S3 S4 S5 S6 S7]. split; cbn [count_sync _histogram _sync_count _sync_duration_total_ns _sync_duration_max_ns
    _slo_breach_count _write_failure_count _sync_failure_count]; try done; unfold expected_result; cbn [sync_duration_ns zsum foldr length].
  - lia.
  - rewrite S3. unfold zsum. lia.
  - rewrite S4. lia.
Qed.

(** An accepted record with its identity, its claim and its row. *)
Definition item : Type := (AcceptedRecord * AcceptedRecordIdentityV1)%type.
Definition claim_of (x : item) : _RecordClaim := {| identity := x.2; c_accepted_monotonic_ns := accepted_monotonic_ns x.1 |}.
Definition row_of (x : item) : StreamFile.BufferedRow := {|
  StreamFile.data := encoded_jsonl x.1; StreamFile.accepted_monotonic_ns := accepted_monotonic_ns x.1 |}.
Definition envelopes_of (xs : list item) : list RawEnvelope := (fun x => envelope x.1) <$> xs.

(** ** Operations *)
Inductive part_op : Type :=
| Append (record : AcceptedRecord) (identity : AcceptedRecordIdentityV1)
| Seal (force_sync : bool)
| SealOversized (record : AcceptedRecord) (identity : AcceptedRecordIdentityV1)
| Bind (claimed : _ClaimedSealedWork) (batch_task : Z)
| Fold (association : StorageControlAssociationV1)
| Retire (reason : CloseReason) (closed_at_ns : Z)
| Freeze.
Definition discard_value {A} (m : M _ActivePart A) : M _ActivePart unit := do! _ := m in mret tt.
Definition exec (o : part_op) : M _ActivePart unit :=
  match o with
  | Append record identity => append_accepted record identity
  | Seal force_sync => discard_value (seal_for_sync force_sync)
  | SealOversized record identity => discard_value (seal_oversized record identity)
  | Bind claimed batch_task => bind_claim_batch_task claimed batch_task
  | Fold association => fold_durable_control association
  | Retire reason closed_at_ns => retire reason closed_at_ns
  | Freeze => discard_value freeze_summary
  end.
(** The arguments passed the checks of their constructors. *)
Definition op_made (o : part_op) : Prop :=
  match o with
  | Append record _ | SealOversized record _ => envelope_made (envelope record)
  | Fold association => association_validate association = Ok association
  | _ => True
  end.

(** How claimed work ends: with a result of its sync or with an error. *)
Definition Outcome : Type := (FileDurabilityResult + BaseException)%type.
Definition settle (claimed : _ClaimedSealedWork) (o : Outcome) : M _ActivePart unit :=
  match o with inl result => apply_completion claimed result | inr error => apply_failure claimed error end.
(** What the thread reports, as the writer sees it. *)
Definition reported (o : Persisted) : Outcome :=
  match o with inl result => inl result | inr reason => inr (inl {| Durability.reason := reason |}) end.

Inductive event : Type :=
| Appended (x : item)
| Settled (claimed : _ClaimedSealedWork) (o : Outcome)
| Folded (association : StorageControlAssociationV1).
Definition event_of (o : part_op) : list event :=
  match o with
  | Append record identity | SealOversized record identity => [Appended (record, identity)]
  | Fold association => [Folded association]
  | _ => []
  end.
Definition appended (tr : list event) : list item := omap (fun v => match v with Appended x => Some x | _ => None end) tr.
Definition settlements (tr : list event) : list (_ClaimedSealedWork * Outcome) :=
  omap (fun v => match v with Settled c o => Some (c, o) | _ => None end) tr.
Definition completions (tr : list event) : list (_ClaimedSealedWork * FileDurabilityResult) :=
  omap (fun co => match co.2 with inl r => Some (co.1, r) | inr _ => None end) (settlements tr).
Definition failures (tr : list event) : list BaseException :=
  omap (fun co => match co.2 with inl _ => None | inr e => Some e end) (settlements tr).
Definition folded (tr : list event) : list StorageControlAssociationV1 :=
  omap (fun v => match v with Folded a => Some a | _ => None end) tr.

(** ** Runs

    [thread] is the work the storage thread has written, with its report, until it is settled. *)
Record PartRun : Type := { part : _ActivePart; thread : option (_ClaimedSealedWork * Persisted) }.

Section Runs.
Context `{StreamFile.Compressor}.

Inductive part_step : list event -> PartRun -> list event -> PartRun -> Prop :=
| part_operation tr s o p' r : op_made o -> exec o (part s) = (p', r) ->
    part_step tr s (if is_ok r then tr ++ event_of o else tr) {| part := p'; thread := thread s |}
| part_persist tr s c env f r : thread s = None -> in_flight_claim (part s) = Ok (Some c) ->
    _persist_blocking true env (work c) (stream_file (part s)) = (f, StreamFile.Returns r) ->
    part_step tr s tr {| part := set_file f (part s); thread := Some (c, _await_blocking_outcome (Some r)) |}
| part_settle tr s c o p' r : thread s = Some (c, o) -> settle c (reported o) (part s) = (p', r) ->
    part_step tr s (if is_ok r then tr ++ [Settled c (reported o)] else tr) {| part := p'; thread := None |}
| part_unstarted tr s c e p' r : thread s = None -> in_flight_claim (part s) = Ok (Some c) -> settle c (inr e) (part s) = (p', r) ->
    part_step tr s (if is_ok r then tr ++ [Settled c (inr e)] else tr) {| part := p'; thread := None |}.
Inductive part_runs (p0 : _ActivePart) : list event -> PartRun -> Prop :=
| part_start : part_runs p0 [] {| part := p0; thread := None |}
| part_more tr s tr' s' : part_runs p0 tr s -> part_step tr s tr' s' -> part_runs p0 tr' s'.

(** ** What the trace says *)
(** The lags of the records that became durable, and how long each sync took. *)
Definition measured (tr : list event) : list Z :=
  concat ((fun cr => claim_lag (default 0 (sync_completed_monotonic_ns cr.2)) <$> claims cr.1) <$> completions tr).
Definition durations (tr : list event) : list Z := (fun cr => sync_duration_ns cr.2) <$> completions tr.
Definition write_failed (e : BaseException) : bool := match e with inl e => bool_decide (reason e = WRITE_FAILED) | inr _ => false end.
Definition count_failures (write : bool) (tr : list event) : Z :=
  Z.of_nat (length (filter (fun e => write_failed e = write) (failures tr))).
(** The frames of the works that were settled. *)
Definition frames_settled (tr : list event) : list StreamFile.PendingRows :=
  omap (fun co => StreamFile.pending (work co.1)) (settlements tr).

(** What never changes in a part. *)
Definition fixed (p : _ActivePart) : (string * string * string * (Z * Z * Z * Z)) * (_PartIdentitySeed * Z * string * (Z * Z)) :=
  ((partial_path p, p_data_relative_path p, p_manifest_relative_path p,
    (part_start_ns p, part_sequence p, p_created_at_ns p, p_received_hour p)),
   (_seed (_accumulator p), _durability_slo_ns (_accumulator p), generation_id p,
    (StreamFile.zstd_level (stream_file p), StreamFile.max_plain_frame_bytes (stream_file p)))).

(** The rows of sealed work are those of the records. *)
Definition work_of (w : StreamFile.SealedFileWork) (xs : list item) : Prop :=
  normalized (StreamFile.generation_id w) = true /\
  match StreamFile.pending w with Some p => xs <> [] /\ StreamFile.rows p = row_of <$> xs | None => xs = [] end.
Definition settled_as (co : _ClaimedSealedWork * Outcome) (xs : list item) : Prop :=
  claims co.1 = claim_of <$> xs /\ work_of (work co.1) xs /\
  match co.2 with
  | inl r => exists started completed, r = expected_result true (work co.1) started completed /\ 0 <= started <= completed /\
               timely (work co.1) completed
  | inr _ => True
  end.
Definition thread_ok (gid : string) (c : _ClaimedSealedWork) (o : Persisted) : Prop :=
  match o with
  | inl r => exists started completed, r = expected_result true (work c) started completed /\ 0 <= started <= completed /\
               timely (work c) completed /\ row_count (work c) <= StreamFile._MAX_SIGNED_INT64 /\ r_generation_id r = gid
  | inr _ => True
  end.

Definition controls_of (tr : list event) (c : Controls) : Prop :=
  (forall kind name, counter_name kind = Some name ->
     counters c !! name = Some (Z.of_nat (length (filter (fun a => counter_name (a_control_kind a) = Some name) (folded tr))))) /\
  _control_event_ids c = list_to_set (a_control_event_id <$> folded tr) /\ NoDup (a_control_event_id <$> folded tr) /\
  Forall (fun a => association_validate a = Ok a) (folded tr).

(** The records of a part: settled in batches, in flight, waiting. *)
Record Ledger : Type := { batches : list (list item); flight : list item; waiting : list item }.

Record accumulator_ok (tr : list event) (a : _PartAccumulator) : Prop := {
  ac_rows : mirrors (a_rows a) (envelopes_of (appended tr));
  ac_made : Forall envelope_made (envelopes_of (appended tr));
  ac_seed : Forall (fun x => seed_of (envelope x.1) (i_config_generation x.2) = _seed a /\ identity_matches (envelope x.1) x.2 = true) (appended tr);
  ac_sequences : StronglySorted Z.lt (writer_sequence <$> envelopes_of (appended tr));
  ac_syncs : syncs_of (_durability_slo_ns a) (measured tr) (durations tr) (count_failures true tr) (count_failures false tr) (a_syncs a);
  ac_controls : controls_of tr (a_controls a)
}.

(** The claims a part owns: at most one in flight, which the thread may have written. *)
Record claims_ok (L : Ledger) (s : PartRun) : Prop := {
  cl_pending : _pending_claims (part s) = claim_of <$> waiting L;
  cl_buffer : StreamFile._buffer (stream_file (part s)) = row_of <$> waiting L;
  cl_generation : normalized (generation_id (part s)) = true;
  cl_claimed : match thread s with
    | None => _claimed (part s) = ∅ /\ flight L = [] \/
        exists c, _claimed (part s) = {[claim_id c := c]} /\ claims c = claim_of <$> flight L /\ work_of (work c) (flight L)
          /\ StreamFile.generation_id (work c) = generation_id (part s)
    | Some (c, o) => _claimed (part s) = {[claim_id c := c]} /\ claims c = claim_of <$> flight L /\ work_of (work c) (flight L) /\
        StreamFile.generation_id (work c) = generation_id (part s) /\ thread_ok (generation_id (part s)) c o
    end
}.

(** The file of a part whose writes succeeded. *)
Definition file_written (tr : list event) (s : PartRun) : Prop :=
  match thread s with
  | None => StreamFile.file_ok (stream_file (part s)) (frames_settled tr)
  | Some (c, inl _) => StreamFile.file_ok (stream_file (part s)) (frames_settled tr ++ option_list (StreamFile.pending (work c)))
  | Some (_, inr _) => True
  end.

Definition closed_ok (p : _ActivePart) : Prop :=
  match p_close_reason p, p_closed_at_ns p with
  | Some reason, Some closed => reason <> Domain.RECOVERY /\ 0 <= closed
  | None, None => True
  | _, _ => False
  end.

Record inv (p0 : _ActivePart) (tr : list event) (L : Ledger) (s : PartRun) : Prop := {
  in_fixed : fixed (part s) = fixed p0;
  in_appended : appended tr = concat (batches L) ++ flight L ++ waiting L;
  in_accumulator : accumulator_ok tr (_accumulator (part s));
  in_claims : claims_ok L s;
  in_settled : Forall2 settled_as (settlements tr) (batches L);
  in_file : failures tr = [] -> file_written tr s;
  in_closed : closed_ok (part s);
  in_frozen : _frozen (_accumulator (part s)) = true -> flight L = [] /\ waiting L = []
}.
End Runs.
