(* ===== verification/ActivePartSteps.v ===== *)
(** Every step in the life of a part keeps the invariant of [ActivePartRuns]. *)
From S2P Require Import Prelude PyDecimal Domain StorageModels PyText CatalogJson PyTime PartPath EnvelopeJson Manifest FrameScan RowFacts.
From S2P Require Import Durability DurabilityFacts.
From S2P Require StreamFile.
From S2P Require Histogram.
From S2P Require Import ActivePart ActivePartRuns.

(** ** The file *)
Lemma file_append data t s s' r : StreamFile.append data t s = (s', r) ->
  match r with
  | Ok _ => exists n, s' = StreamFile.set_buffer (StreamFile._buffer s ++ [{| StreamFile.data := data; StreamFile.accepted_monotonic_ns := t |}]) n s
  | Err _ => s' = s
  end.
Proof.
  unfold StreamFile.append. intros Ha. destruct (StreamFile.closed s); [by injection Ha as <- <-|].
  destruct (StreamFile.buffered_row data t) as [row|e] eqn:Er; [|by injection Ha as <- <-].
  destruct (_ <? _); injection Ha as <- <-; [done|]. unfold StreamFile.buffered_row in Er. apply raise_if_ok in Er as [_ Er].
  apply rbind_ok in Er as (a & Ha & [= <-]). apply StreamFile.int64_ok in Ha as [-> _]. by eexists.
Qed.

Lemma sealed_is gid pending force : normalized gid = true -> is_Some pending \/ force = true ->
  StreamFile.sealed_work gid pending force =
  Ok {| StreamFile.generation_id := gid; StreamFile.pending := pending; StreamFile.force_sync := force |}.
Proof.
  intros Hg Hp. unfold StreamFile.sealed_work, StreamFile._nonempty. rewrite Hg. cbn [negb raise_if rbind].
  destruct Hp as [Hp| ->]; [rewrite bool_decide_eq_true_2 by done|rewrite andb_false_r]; done.
Qed.

(** Sealing takes the whole buffer. *)
Lemma file_seal force s s' r : normalized (StreamFile._generation_id s) = true -> StreamFile.seal_for_sync None force s = (s', r) ->
  match r with
  | Ok (Some w) => StreamFile.generation_id w = StreamFile._generation_id s /\
      match StreamFile.pending w with
      | Some p => StreamFile.rows p = StreamFile._buffer s /\ StreamFile._buffer s <> [] /\ s' = StreamFile.set_buffer [] 0 s
      | None => StreamFile._buffer s = [] /\ s' = s
      end
  | _ => s' = s
  end.
Proof.
  intros Hg Hs. unfold StreamFile.seal_for_sync, mbind, StreamFile.take_pending in Hs. destruct (StreamFile._buffer s) as [|row l] eqn:Eb.
  - destruct force; [|by injection Hs as <- <-]. rewrite sealed_is in Hs by (try done; by right). by injection Hs as <- <-.
  - destruct (StreamFile.pending_rows _ _) as [p|e] eqn:Ep; [|by injection Hs as <- <-]. apply StreamFile.pending_rows_ok in Ep as (Hr & _ & Hne & _).
    cbn in Hs. rewrite sealed_is in Hs by (try done; left; by eexists). injection Hs as <- <-. cbn. by split_and!.
Qed.
Lemma file_seal_direct rows s s' r : normalized (StreamFile._generation_id s) = true -> StreamFile.seal_for_sync (Some rows) false s = (s', r) ->
  s' = s /\ match r with
  | Ok (Some w) => StreamFile.generation_id w = StreamFile._generation_id s /\ StreamFile.pending w = Some rows
  | _ => True
  end.
Proof.
  intros Hg Hs. unfold StreamFile.seal_for_sync, mbind in Hs. destruct (raise_if _ _ _) as [o|e] eqn:Em; [|by injection Hs as <- <-].
  apply raise_if_ok in Em as [_ Em]. apply raise_if_ok in Em as [_ [= <-]]. rewrite sealed_is in Hs by (try done; left; by eexists).
  by injection Hs as <- <-.
Qed.

(** What a storage thread leaves alone. *)
Definition file_id (s : StreamFile.StreamFile) : string * Z * Z * list StreamFile.BufferedRow :=
  (StreamFile._generation_id s, StreamFile.zstd_level s, StreamFile.max_plain_frame_bytes s, StreamFile._buffer s).
Lemma persist_same `{StreamFile.Compressor} measure env w s s' r : _persist_blocking measure env w s = (s', r) -> file_id s' = file_id s.
Proof.
  unfold _persist_blocking, StreamFile.write_frame. intros Hp. repeat case_match; simplify_eq; done.
Qed.

(** ** Traces *)
Lemma appended_app tr tr' : appended (tr ++ tr') = appended tr ++ appended tr'.
Proof. apply omap_app. Qed.
Lemma settlements_app tr tr' : settlements (tr ++ tr') = settlements tr ++ settlements tr'.
Proof. apply omap_app. Qed.
Lemma folded_app tr tr' : folded (tr ++ tr') = folded tr ++ folded tr'.
Proof. apply omap_app. Qed.
(** An event that is not a settlement. *)
Definition quiet (evs : list event) : Prop := settlements evs = [].
Lemma settlements_quiet tr evs : quiet evs -> settlements (tr ++ evs) = settlements tr.
Proof. intros Hq. rewrite settlements_app, Hq. apply app_nil_r. Qed.

(** ** The accumulator *)
Lemma strongly_snoc (l : list Z) y : StronglySorted Z.lt l -> (forall x, last l = Some x -> x < y) -> StronglySorted Z.lt (l ++ [y]).
Proof.
  intros Hl. induction Hl as [|x l Hl IH Hx]; intros Hy; [by repeat constructor|]. cbn. constructor.
  - apply IH. intros z Hz. apply Hy. rewrite last_cons, Hz. done.
  - apply Forall_app. split; [done|]. constructor; [|done]. destruct (last l) as [z|] eqn:Ez; [|apply last_None in Ez as ->; by apply Hy].
    apply Z.lt_trans with z; [|apply Hy; by rewrite last_cons, Ez]. eapply (proj1 (Forall_forall _ _) Hx). by apply last_Some_elem_of.
Qed.

Lemma record_validated r i a u : validate_record r i a = Ok u ->
  _frozen a = false /\ identity_matches (envelope r) i = true /\ seed_of (envelope r) (i_config_generation i) = _seed a /\
  forall q, _writer_sequence_last (a_rows a) = Some q -> q < writer_sequence (envelope r).
Proof.
  unfold validate_record, _validate_pair. intros Hv. apply raise_if_ok in Hv as [Hf Hv]. apply rbind_ok in Hv as (u1 & Hp & Hv).
  apply raise_if_ok in Hp as [Hp _]. apply raise_if_ok in Hv as [Hs Hv]. apply raise_if_ok in Hv as [Hq _]. bool_prop. split_and!; try done.
  intros q Eq. rewrite Eq in Hq. lia.
Qed.

Lemma accumulator_append tr a r i u : accumulator_ok tr a -> envelope_made (envelope r) -> validate_record r i a = Ok u ->
  exists rows, append_validated r a = (set_rows rows a, Ok tt) /\ accumulator_ok (tr ++ [Appended (r, i)]) (set_rows rows a).
Proof.
  intros [A1 A2 A3 A4 A5 A6] Hmade Hv. apply record_validated in Hv as (_ & Hid & Hseed & Hq).
  destruct (append_validated r a) as [a' res] eqn:Ea. destruct (append_mirrors _ _ _ _ _ Hmade A1 Ea) as (-> & Hm & E).
  exists (a_rows a'). split; [by rewrite E at 1|].
  assert (Ha : appended (tr ++ [Appended (r, i)]) = appended tr ++ [(r, i)]) by (by rewrite appended_app).
  assert (He : envelopes_of (appended (tr ++ [Appended (r, i)])) = envelopes_of (appended tr) ++ [envelope r]).
  { rewrite Ha. unfold envelopes_of. by rewrite fmap_app. }
  assert (Hs : settlements (tr ++ [Appended (r, i)]) = settlements tr) by (by apply settlements_quiet).
  split; cbn [set_rows a_rows _seed _durability_slo_ns a_syncs a_controls]; rewrite ?He; try done.
  - apply Forall_app. by split; [|constructor].
  - rewrite Ha. apply Forall_app. split; [done|]. by constructor.
  - rewrite fmap_app. apply strongly_snoc; [done|]. intros q Eq. apply Hq. rewrite (mi_last_sequence _ _ A1), <- fmap_last. done.
  - unfold measured, durations, count_failures, completions, failures. by rewrite Hs.
  - unfold controls_of. rewrite folded_app. cbn. by rewrite app_nil_r.
Qed.

Lemma accumulator_fold tr a association gid path a' r : accumulator_ok tr a -> association_validate association = Ok association ->
  acc_fold_control association gid path a = (a', r) ->
  accumulator_ok (if is_ok r then tr ++ [Folded association] else tr) a' /\ _seed a' = _seed a /\
  _durability_slo_ns a' = _durability_slo_ns a /\ _frozen a' = _frozen a.
Proof.
  intros [A1 A2 A3 A4 A5 (C1 & C2 & C3 & C4)] Hmade Hf. unfold acc_fold_control in Hf.
  destruct (acc_validate_control association gid path a) as [u|e] eqn:Ev; injection Hf as <- <-; [|split; [by split|done]].
  unfold acc_validate_control in Ev. apply raise_if_ok in Ev as [_ Ev]. apply raise_if_ok in Ev as [_ Ev]. apply raise_if_ok in Ev as [Hnew _].
  bool_prop. split; [|done]. cbn [is_ok].
  assert (Ha : appended (tr ++ [Folded association]) = appended tr) by (rewrite appended_app; apply app_nil_r).
  assert (Hs : settlements (tr ++ [Folded association]) = settlements tr) by (by apply settlements_quiet).
  split; cbn [set_controls a_rows _seed _durability_slo_ns a_syncs a_controls]; rewrite ?Ha; try done.
  - unfold measured, durations, count_failures, completions, failures. by rewrite Hs.
  - unfold controls_of. rewrite folded_app, fmap_app. cbn [folded omap list_omap fmap list_fmap counters _control_event_ids]. split_and!.
    + intros kind name Hk. rewrite filter_app, length_app. specialize (C1 _ _ Hk). unfold bump.
      destruct (counter_name (a_control_kind association)) as [n|] eqn:En.
      * destruct (base.decide (n = name)) as [->|Hne].
        -- rewrite lookup_insert_eq, C1, filter_cons_True by done. cbn. f_equal. lia.
        -- rewrite lookup_insert_ne, C1, filter_cons_False by congruence. cbn. f_equal. lia.
      * rewrite C1, filter_cons_False by congruence. cbn. f_equal. lia.
    + rewrite C2, list_to_set_app_L. cbn. set_solver.
    + apply NoDup_app. split_and!; [done| |apply NoDup_singleton]. intros x Hx. rewrite list_elem_of_singleton. intros ->.
      apply Hnew. rewrite C2. by apply elem_of_list_to_set.
    + apply Forall_app. split; [done|]. by constructor.
Qed.

Lemma settled_trace tr c o : let tr' := tr ++ [Settled c o] in
  appended tr' = appended tr /\ folded tr' = folded tr /\ settlements tr' = settlements tr ++ [(c, o)].
Proof. cbv zeta. rewrite appended_app, folded_app, settlements_app. cbn. by rewrite !app_nil_r. Qed.

Lemma accumulator_complete tr a c r started completed : accumulator_ok tr a -> _frozen a = false ->
  rows_of_claims (work c) (claims c) -> r = expected_result true (work c) started completed -> timely (work c) completed ->
  row_count (work c) <= StreamFile._MAX_SIGNED_INT64 ->
  exists s, acc_completion r (claims c) a = (set_syncs s a, Ok tt) /\ accumulator_ok (tr ++ [Settled c (inl r)]) (set_syncs s a).
Proof.
  intros [A1 A2 A3 A4 A5 A6] Hfr Hrows -> Ht Hn.
  destruct (completion_accepted _ _ started _ _ _ _ _ _ Hfr Hrows Ht Hn A5) as (s & Hc & Hs). exists s. split; [done|].
  destruct (settled_trace tr c (inl (expected_result true (work c) started completed))) as (E1 & E2 & E3).
  split; cbn [set_syncs a_rows _seed _durability_slo_ns a_syncs a_controls]; rewrite ?E1; try done.
  - unfold measured, durations, count_failures, failures, completions. rewrite E3, !omap_app, !fmap_app. cbn.
    rewrite !app_nil_r, List.concat_app. cbn. rewrite app_nil_r. eapply syncs_perm; [| |exact Hs]; [apply Permutation_app_comm|].
    apply (Permutation_app_comm [_]).
  - unfold controls_of in *. by rewrite E2.
Qed.

Lemma accumulator_fail tr a c e : accumulator_ok tr a -> accumulator_ok (tr ++ [Settled c (inr e)]) (acc_failure e a).
Proof.
  intros [A1 A2 A3 A4 A5 A6]. destruct (settled_trace tr c (inr e)) as (E1 & E2 & E3).
  split; cbn [acc_failure set_syncs a_rows _seed _durability_slo_ns a_syncs a_controls]; rewrite ?E1; try done.
  - destruct A5 as [S1 S2 S3 S4 S5 S6 S7].
    assert (Hw : write_failed e = match e with inl e => bool_decide (reason e = WRITE_FAILED) | inr _ => false end) by done.
    unfold measured, durations, count_failures, failures, completions in *. rewrite E3, !omap_app. cbn. rewrite !app_nil_r, !filter_app, !length_app.
    rewrite <- Hw.
    destruct (write_failed e) eqn:Ew; split; try done; cbn; rewrite ?S6, ?S7;
      repeat case_decide; try congruence; cbn; lia.
  - unfold controls_of in *. by rewrite E2.
Qed.

(** ** Steps *)
Section Steps.
Context `{StreamFile.Compressor} (Hcompress : forall p, StreamFile.compress p <> "").
Context {p0 : _ActivePart} {tr : list event} {L : Ledger} {s : PartRun} (Hinv : inv p0 tr L s).

Lemma flight_idle : _claimed (part s) = ∅ -> thread s = None /\ flight L = [].
Proof.
  intros He. destruct Hinv as [_ _ _ [_ _ _ Hc] _ _ _ _]. rewrite He in Hc. destruct (thread s) as [[c o]|].
  - destruct Hc as [Hc _]. exfalso. symmetry in Hc. by apply (map_non_empty_singleton (claim_id c) c) in Hc.
  - split; [done|]. destruct Hc as [[_ Hf]|(c & Hc & _)]; [done|]. exfalso. symmetry in Hc. by apply (map_non_empty_singleton (claim_id c) c) in Hc.
Qed.

(** A step that leaves the file and the claims alone. *)
Lemma claims_kept p' : _pending_claims p' = _pending_claims (part s) -> stream_file p' = stream_file (part s) ->
  _claimed p' = _claimed (part s) -> claims_ok L {| part := p'; thread := thread s |}.
Proof.
  intros H1 H2 H3. destruct (in_claims _ _ _ _ Hinv) as [C1 C2 C3 C4]. unfold generation_id in *. split; cbn; unfold generation_id; by rewrite ?H1, ?H2, ?H3.
Qed.
Lemma file_kept evs p' : quiet evs -> stream_file p' = stream_file (part s) -> failures (tr ++ evs) = [] ->
  file_written (tr ++ evs) {| part := p'; thread := thread s |}.
Proof.
  intros Hq Hf Hfail. unfold failures in Hfail. rewrite settlements_quiet in Hfail by done. pose proof (in_file _ _ _ _ Hinv Hfail) as Hw.
  unfold file_written, frames_settled in *. rewrite settlements_quiet by done. cbn. by rewrite Hf.
Qed.
Lemma settled_kept evs : quiet evs -> Forall2 settled_as (settlements (tr ++ evs)) (batches L).
Proof. intros Hq. rewrite settlements_quiet by done. apply Hinv. Qed.

(** Such a step with its effects on the accumulator and the end of the part. *)
Lemma inv_kept evs p' : quiet evs -> appended evs = [] -> accumulator_ok (tr ++ evs) (_accumulator p') ->
  fixed p' = fixed (part s) -> stream_file p' = stream_file (part s) -> _pending_claims p' = _pending_claims (part s) ->
  _claimed p' = _claimed (part s) -> closed_ok p' ->
  (_frozen (_accumulator p') = true -> _frozen (_accumulator (part s)) = true \/ flight L = [] /\ waiting L = []) ->
  inv p0 (tr ++ evs) L {| part := p'; thread := thread s |}.
Proof.
  intros Hq Ha Hacc Hfix Hf Hp Hc Hcl Hfr. split; cbn [part thread]; try done.
  - rewrite Hfix. apply Hinv.
  - rewrite appended_app, Ha, app_nil_r. apply Hinv.
  - by apply claims_kept.
  - by apply settled_kept.
  - by apply file_kept.
  - intros Hfr'. destruct (Hfr Hfr') as [?|?]; [by apply Hinv|done].
Qed.
Lemma inv_same : inv p0 tr L {| part := part s; thread := thread s |}.
Proof. by destruct s. Qed.

Lemma inv_bind c task p' r : bind_claim_batch_task c task (part s) = (p', r) -> inv p0 tr L {| part := p'; thread := thread s |}.
Proof.
  unfold bind_claim_batch_task. intros Hb. destruct (rbind _ _); injection Hb as <- <-; [|apply inv_same].
  rewrite <- (app_nil_r tr). apply inv_kept; try done; [rewrite app_nil_r; apply Hinv|apply Hinv|by left].
Qed.

Lemma inv_fold a p' r : association_validate a = Ok a -> fold_durable_control a (part s) = (p', r) ->
  inv p0 (if is_ok r then tr ++ [Folded a] else tr) L {| part := p'; thread := thread s |}.
Proof.
  intros Hmade Hf. unfold fold_durable_control, on_accumulator in Hf.
  destruct (acc_fold_control _ _ _ _) as [a' r'] eqn:Ea. injection Hf as <- <-.
  destruct (accumulator_fold _ _ _ _ _ _ _ (in_accumulator _ _ _ _ Hinv) Hmade Ea) as (Hacc & Hs & Hd & Hfr).
  assert (exists evs, quiet evs /\ appended evs = [] /\ (if is_ok r' then tr ++ [Folded a] else tr) = tr ++ evs) as (evs & Hq & Hap & E).
  { destruct (is_ok r'); [by exists [Folded a]|exists []; by rewrite app_nil_r]. }
  rewrite E in *. apply inv_kept; try done; [|apply Hinv|cbn; rewrite Hfr; by left].
  unfold fixed. cbn. by rewrite Hs, Hd.
Qed.

Lemma inv_retire reason closed_at_ns p' r : retire reason closed_at_ns (part s) = (p', r) -> inv p0 tr L {| part := p'; thread := thread s |}.
Proof.
  unfold retire. intros Hr. destruct (validate_retirement _ _ _) as [closed|] eqn:Ev; injection Hr as <- <-; [|apply inv_same].
  case_bool_decide as Hc; [apply inv_same|]. rewrite <- (app_nil_r tr).
  apply inv_kept; try done; [rewrite app_nil_r; apply Hinv| |by left].
  unfold validate_retirement in Ev. apply raise_if_ok in Ev as [Hn Ev]. apply rbind_ok in Ev as (c & Hcl & Ev).
  unfold _nonnegative in Hcl. apply raise_if_ok in Hcl as [Hcl [= <-]]. apply raise_if_ok in Ev as [_ [= <-]]. bool_prop. done.
Qed.

Lemma inv_freeze p' r : freeze_summary (part s) = (p', r) -> inv p0 tr L {| part := p'; thread := thread s |}.
Proof.
  unfold freeze_summary. intros Hf. destruct (negb (nil _) || _) eqn:Eq; [injection Hf as <- <-; apply inv_same|].
  unfold on_accumulator, acc_freeze in Hf. destruct (summary _) as [sm|] eqn:Es; injection Hf as <- <-.
  - rewrite <- (app_nil_r tr). apply inv_kept; try done; [|apply Hinv|].
    + rewrite app_nil_r. by destruct (in_accumulator _ _ _ _ Hinv); split.
    + intros _. right. bool_prop. destruct (flight_idle ltac:(done)) as [_ Hfl]. split; [done|].
      destruct (in_claims _ _ _ _ Hinv) as [C1 _ _ _]. rewrite C1 in *. by destruct (waiting L).
  - assert (set_accumulator (_accumulator (part s)) (part s) = part s) as -> by (by destruct (part s)). apply inv_same.
Qed.

(** ** Records *)
(** A record that is accepted into the buffer, or sealed on its own. *)
Lemma inv_accept r i rows p' L' : envelope_made (envelope r) -> accumulator_ok (tr ++ [Appended (r, i)]) (set_rows rows (_accumulator (part s))) ->
  _accumulator p' = set_rows rows (_accumulator (part s)) -> fixed p' = fixed (part s) -> _frozen (_accumulator (part s)) = false ->
  p_close_reason p' = p_close_reason (part s) -> p_closed_at_ns p' = p_closed_at_ns (part s) ->
  concat (batches L') ++ flight L' ++ waiting L' = (concat (batches L) ++ flight L ++ waiting L) ++ [(r, i)] -> batches L' = batches L ->
  claims_ok L' {| part := p'; thread := thread s |} ->
  (StreamFile.contents (stream_file p') = StreamFile.contents (stream_file (part s)) /\
   forall frames, StreamFile.file_ok (stream_file (part s)) frames -> StreamFile.file_ok (stream_file p') frames) ->
  inv p0 (tr ++ [Appended (r, i)]) L' {| part := p'; thread := thread s |}.
Proof.
  intros Hmade Hacc Ha Hfix Hfr Hc1 Hc2 HL Hb Hclaims [_ Hfile]. split; cbn [part thread]; try done.
  - rewrite Hfix. apply Hinv.
  - rewrite appended_app, (in_appended _ _ _ _ Hinv). by rewrite HL.
  - by rewrite Ha.
  - rewrite settlements_quiet, Hb by done. apply Hinv.
  - intros Hfail. unfold failures in Hfail. rewrite settlements_quiet in Hfail by done. pose proof (in_file _ _ _ _ Hinv Hfail) as Hw.
    unfold file_written, frames_settled in *. rewrite settlements_quiet by done. cbn. destruct (thread s) as [[c [o|o]]|]; [by apply Hfile|done|by apply Hfile].
  - pose proof (in_closed _ _ _ _ Hinv) as Hcl. unfold closed_ok in *. by rewrite Hc1, Hc2.
  - rewrite Ha. cbn. by rewrite Hfr.
Qed.

Lemma inv_append r i p' res : envelope_made (envelope r) -> append_accepted r i (part s) = (p', res) ->
  exists L', inv p0 (if is_ok res then tr ++ [Appended (r, i)] else tr) L' {| part := p'; thread := thread s |}.
Proof.
  intros Hmade Ha. unfold append_accepted in Ha. case_bool_decide; [injection Ha as <- <-; exists L; apply inv_same|].
  destruct (validate_record _ _ _) as [u|e] eqn:Ev; [|injection Ha as <- <-; exists L; apply inv_same].
  unfold mbind, on_file in Ha. destruct (StreamFile.append _ _ _) as [f rf] eqn:Ef. pose proof (file_append _ _ _ _ _ Ef) as Hf.
  destruct rf as [u1|e]; [|injection Ha as <- <-; subst f; exists L; assert (set_file (stream_file (part s)) (part s) = part s) as -> by (by destruct (part s)); apply inv_same].
  destruct (accumulator_append _ _ _ _ _ (in_accumulator _ _ _ _ Hinv) Hmade Ev) as (rows & Hav & Hacc).
  unfold on_accumulator in Ha. cbn [set_file _accumulator] in Ha. rewrite Hav in Ha. injection Ha as <- <-. cbn [is_ok].
  destruct Hf as [n ->]. apply record_validated in Ev as (Hfr & _).
  exists {| batches := batches L; flight := flight L; waiting := waiting L ++ [(r, i)] |}.
  eapply inv_accept; try done; cbn [batches flight waiting].
  - by rewrite <- !app_assoc.
  - destruct (in_claims _ _ _ _ Hinv) as [C1 C2 C3 C4]. split; cbn [part thread waiting flight]; cbn; try done; [by rewrite C1, fmap_app|by rewrite C2, fmap_app].
  - split; [done|]. intros frames Hok. by destruct (StreamFile.append_ok _ _ _ _ _ _ Hok Ef) as [Hok' _].
Qed.

(** ** Sealing *)
Lemma file_ok_buffer f n frames : StreamFile.file_ok f frames -> n = 0 -> StreamFile.file_ok (StreamFile.set_buffer [] n f) frames.
Proof. intros [F1 F2 F3 F4 F5] ->. split; cbn; try done; lia. Qed.

(** Work is sealed from an idle part: it is the one claim of the part. *)
Lemma inv_sealed f w x p1 tr' L' next tasks pending :
  inv p0 tr' L {| part := p1; thread := thread s |} -> _claimed (part s) = ∅ ->
  batches L' = batches L -> appended tr' = concat (batches L) ++ flight L' ++ waiting L' -> settlements tr' = settlements tr ->
  fixed (set_file f p1) = fixed p1 -> work_of w (flight L') -> StreamFile.generation_id w = generation_id p1 ->
  pending = claim_of <$> waiting L' -> StreamFile._buffer f = row_of <$> waiting L' ->
  claims x = claim_of <$> flight L' -> work x = w ->
  (forall frames, StreamFile.file_ok (stream_file p1) frames -> StreamFile.file_ok f frames) ->
  (_frozen (_accumulator p1) = true -> flight L' = [] /\ waiting L' = []) ->
  inv p0 tr' L' {| part := set_claims pending {[claim_id x := x]} tasks next (set_file f p1); thread := thread s |}.
Proof.
  intros [I1 I2 I3 I4 I5 I6 I7 I8] Hidle Hb Hap Hst Hfix Hw Hg Hp Hbuf Hcl Hx Hfile Hfr. destruct (flight_idle Hidle) as [Hth _].
  cbn [part thread] in *. assert (Hgen : generation_id (set_file f p1) = generation_id p1) by (unfold fixed in Hfix; by injection Hfix).
  split; cbn [part thread]; try done.
  - by rewrite <- I1, <- Hfix.
  - by rewrite Hb.
  - split; cbn [part thread]; cbn [set_claims set_file _pending_claims stream_file _claimed]; try done.
    + change (normalized (generation_id (set_file f p1)) = true). rewrite Hgen. apply I4.
    + rewrite Hth. right. exists x. rewrite Hx. change (generation_id (set_claims _ _ _ _ _)) with (generation_id (set_file f p1)).
      by rewrite Hgen.
  - rewrite Hb. apply I5.
  - intros Hfail. specialize (I6 Hfail). unfold file_written in *. cbn [part thread] in *. rewrite Hth in *. by apply Hfile.
Qed.

Lemma inv_seal force p' r : discard_value (seal_for_sync force) (part s) = (p', r) ->
  exists L', inv p0 tr L' {| part := p'; thread := thread s |}.
Proof.
  unfold discard_value, seal_for_sync, mbind, on_file. intros Hs.
  destruct (negb (bool_decide (_claimed (part s) = ∅))) eqn:Hidle; [injection Hs as <- <-; exists L; apply inv_same|]. bool_prop.
  destruct (StreamFile.seal_for_sync None force (stream_file (part s))) as [f rf] eqn:Ef.
  destruct (in_claims _ _ _ _ Hinv) as [C1 C2 C3 C4]. pose proof (file_seal _ _ _ _ C3 Ef) as Hf.
  assert (Hsame : set_file (stream_file (part s)) (part s) = part s) by (by destruct (part s)).
  destruct rf as [[w|]|e]; cycle 1; [injection Hs as <- <-; subst f; rewrite Hsame; exists L; apply inv_same..|].
  destruct Hf as [Hg Hf]. destruct (flight_idle Hidle) as [Hth Hfl].
  assert (Hcount : pending_count w = length (_pending_claims (part s))).
  { unfold pending_count. rewrite C1. destruct (StreamFile.pending w) as [p|].
    - destruct Hf as (-> & _ & _). by rewrite C2, !length_fmap.
    - destruct Hf as [E _]. rewrite E in C2. symmetry in C2. apply fmap_nil_inv in C2. by rewrite C2. }
  cbn [set_file _pending_claims] in Hs. rewrite Hcount, Nat.eqb_refl in Hs. cbn [negb] in Hs. unfold claim_work in Hs. cbn in Hs. injection Hs as <- <-.
  exists {| batches := batches L; flight := waiting L; waiting := [] |}. rewrite Hidle, insert_empty.
  apply (inv_sealed f w {| claim_id := _next_claim_id (part s); ActivePart.work := w; claims := _pending_claims (part s) |} (part s)); try done; cbn [flight waiting].
  - apply inv_same.
  - cbn [batches]. rewrite (in_appended _ _ _ _ Hinv), Hfl, app_nil_r. done.
  - destruct (StreamFile.pending w) as [p|]; [destruct Hf as (_ & _ & ->)|destruct Hf as [_ ->]]; done.
  - split; [by rewrite Hg|]. destruct (StreamFile.pending w) as [p|].
    + destruct Hf as (-> & Hne & _). rewrite C2 in *. split; [|done]. by destruct (waiting L).
    + destruct Hf as [E _]. rewrite E in C2. symmetry in C2. by apply fmap_nil_inv in C2.
  - destruct (StreamFile.pending w) as [p|]; [by destruct Hf as (_ & _ & ->)|]. by destruct Hf as [E ->].
  - intros frames Hok. destruct (StreamFile.pending w) as [p|]; [|by destruct Hf as [_ ->]]. destruct Hf as (_ & _ & ->). by apply file_ok_buffer.
  - intros Hfr. by apply Hinv in Hfr as [_ Hw].
Qed.
End Steps.
