(* ===== verification/ActivePartInv.v ===== *)
(** The invariant of [ActivePartRuns] holds throughout the life of a part: the steps of sealing
    an oversized record, of the storage thread and of settlement, and whole runs. *)
From S2P Require Import Prelude PyDecimal Domain StorageModels PyText CatalogJson PyTime PartPath EnvelopeJson Manifest FrameScan RowFacts.
From S2P Require Import Durability DurabilityFacts.
From S2P Require StreamFile.
From S2P Require Histogram.
From S2P Require Import ActivePart ActivePartRuns ActivePartSteps.

Section Steps.
Context `{StreamFile.Compressor} (Hcompress : forall p, StreamFile.compress p <> "").
Context {p0 : _ActivePart} {tr : list event} {L : Ledger} {s : PartRun} (Hinv : inv p0 tr L s).

Lemma oversized_rows r i pending :
  (raise ValueError "retired raw parts cannot accept records" when bool_decide (is_Some (p_close_reason (part s)));;
   raise ValueError "oversized work requires a quiescent raw part"
     when negb (nil (_pending_claims (part s))) || negb (bool_decide (_claimed (part s) = ∅));;
   raise ValueError "oversized work must exceed the plain frame limit"
     when StreamFile.len (encoded_jsonl r) <=? StreamFile.max_plain_frame_bytes (stream_file (part s));;
   let! _ := validate_record r i (_accumulator (part s)) in
   let! row := StreamFile.buffered_row (encoded_jsonl r) (accepted_monotonic_ns r) in
   StreamFile.pending_rows [row] (StreamFile.len (encoded_jsonl r))) = Ok pending ->
  waiting L = [] /\ _claimed (part s) = ∅ /\ validate_record r i (_accumulator (part s)) = Ok tt /\ StreamFile.rows pending = [row_of (r, i)].
Proof.
  intros Hc. apply raise_if_ok in Hc as [_ Hc]. apply raise_if_ok in Hc as [Hq Hc]. apply raise_if_ok in Hc as [_ Hc].
  apply rbind_ok in Hc as ([] & Hv & Hc). apply rbind_ok in Hc as (row & Hrow & Hc). apply StreamFile.pending_rows_ok in Hc as (Hr & _).
  bool_prop. split_and!; try done.
  - rewrite (cl_pending _ _ (in_claims _ _ _ _ Hinv)) in *. by destruct (waiting L).
  - rewrite Hr. unfold StreamFile.buffered_row in Hrow. apply raise_if_ok in Hrow as [_ Hrow]. apply rbind_ok in Hrow as (a & Ha & [= <-]).
    by apply StreamFile.int64_ok in Ha as [-> _].
Qed.

Lemma inv_oversized r i p' res : envelope_made (envelope r) -> discard_value (seal_oversized r i) (part s) = (p', res) ->
  exists L', inv p0 (if is_ok res then tr ++ [Appended (r, i)] else tr) L' {| part := p'; thread := thread s |}.
Proof.
  intros Hmade Hs. unfold discard_value, mbind, seal_oversized in Hs. cbv zeta in Hs.
  destruct (raise_if _ _ _) as [pending|e] eqn:Ec; [|injection Hs as <- <-; exists L; by apply inv_same].
  apply oversized_rows in Ec as (Hwait & Hidle & Hv & Hrows). unfold mbind, on_file in Hs.
  destruct (StreamFile.seal_for_sync _ false (stream_file (part s))) as [f rf] eqn:Ef.
  destruct (in_claims _ _ _ _ Hinv) as [C1 C2 C3 C4]. destruct (file_seal_direct _ _ _ _ C3 Ef) as [-> Hf].
  assert (Hsame : set_file (stream_file (part s)) (part s) = part s) by (by destruct (part s)). rewrite Hsame in Hs.
  destruct rf as [[w|]|e]; cycle 1; [injection Hs as <- <-; exists L; by apply inv_same..|]. destruct Hf as [Hg Hf].
  destruct (accumulator_append _ _ _ _ _ (in_accumulator _ _ _ _ Hinv) Hmade Hv) as (rows & Hav & Hacc).
  unfold on_accumulator in Hs. rewrite Hav in Hs. unfold claim_work in Hs. cbn in Hs. injection Hs as <- <-. cbn [is_ok].
  apply record_validated in Hv as (Hfr & _). destruct (flight_idle Hinv Hidle) as [Hth Hfl].
  exists {| batches := batches L; flight := [(r, i)]; waiting := [] |}. rewrite Hidle, insert_empty.
  set (p1 := set_accumulator (set_rows rows (_accumulator (part s))) (part s)).
  set (x := {| claim_id := _next_claim_id (part s); ActivePart.work := w; claims := [claim_of (r, i)] |}).
  change {| part := _; thread := thread s |} with
    {| part := set_claims (_pending_claims (part s)) {[claim_id x := x]} (_batch_task_by_claim_id (part s)) (_next_claim_id (part s) + 1)
                 (set_file (stream_file (part s)) p1); thread := thread s |}.
  eapply inv_accept; try done; cbn [batches flight waiting].
  - by rewrite Hfl, Hwait, !app_nil_r.
  - split; cbn [part thread flight waiting]; cbn [set_claims set_file _pending_claims stream_file _claimed]; try done.
    + by rewrite C1, Hwait.
    + by rewrite C2, Hwait.
    + rewrite Hth. right. exists x. split_and!; try done. unfold work_of. cbn [x ActivePart.work]. rewrite Hg, Hf. by split_and!.
Qed.

(** ** The storage thread *)
Lemma in_flight c : in_flight_claim (part s) = Ok (Some c) -> _claimed (part s) = {[claim_id c := c]} /\ claims c = claim_of <$> flight L /\
  work_of (work c) (flight L) /\ StreamFile.generation_id (work c) = generation_id (part s).
Proof.
  unfold in_flight_claim. intros Hc. apply raise_if_ok in Hc as [_ [= Hc]]. destruct (in_claims _ _ _ _ Hinv) as [_ _ _ C4].
  assert (Hone : forall x, _claimed (part s) = {[claim_id x := x]} -> x = c).
  { intros x Hx. rewrite Hx, map_to_list_singleton in Hc. by injection Hc. }
  destruct (thread s) as [[x o]|].
  - destruct C4 as (Hx & H2 & H3 & H4 & _). by destruct (Hone _ Hx).
  - destruct C4 as [[Hx _]|(x & Hx & H2)]; [by rewrite Hx, map_to_list_empty in Hc|]. by destruct (Hone _ Hx).
Qed.

(** The file after a write that the thread reports as a success. *)
Lemma persisted_file env c f r frames : _persist_blocking true env (work c) (stream_file (part s)) = (f, StreamFile.Returns (Ok (inl r))) ->
  StreamFile.file_ok (stream_file (part s)) frames -> StreamFile.file_ok f (frames ++ option_list (StreamFile.pending (work c))).
Proof.
  unfold _persist_blocking. intros Hp Hok. destruct (_clock_ns _ _); [|done]. destruct (StreamFile.pending (work c)) as [p|].
  - destruct (StreamFile.write_frame _ _ _) as [g [[w|e]|]] eqn:Ew; [|done..].
    pose proof (StreamFile.write_ok _ _ _ _ _ _ Hok (Hcompress _) Ew) as Hw. by injection Hp as <- _.
  - injection Hp as <- _. by rewrite app_nil_r.
Qed.

Lemma inv_persist c env f r : thread s = None -> in_flight_claim (part s) = Ok (Some c) ->
  _persist_blocking true env (work c) (stream_file (part s)) = (f, StreamFile.Returns r) ->
  inv p0 tr L {| part := set_file f (part s); thread := Some (c, _await_blocking_outcome (Some r)) |}.
Proof.
  intros Hth Hc Hp. destruct (in_flight _ Hc) as (Hmap & Hcl & Hwork & Hg). pose proof (persist_same _ _ _ _ _ _ Hp) as Hid.
  unfold file_id in Hid. injection Hid as E1 E2 E3 E4. destruct Hinv as [I1 I2 I3 [C1 C2 C3 C4] I5 I6 I7 I8].
  assert (Hgen : generation_id (set_file f (part s)) = generation_id (part s)) by exact E1.
  split; cbn [part thread]; try done.
  - rewrite <- I1. unfold fixed. cbn. by rewrite Hgen, E2, E3.
  - split; cbn [part thread]; rewrite ?Hgen; cbn; try done; [by rewrite E4|]. split_and!; try done.
    destruct Hwork as [Hn Hwork].
    destruct r as [[res|reason]|e]; cbn; [|done..]. pose proof (persisted_timely _ _ _ _ _ Hp) as [Ht Hcount].
    apply persist_spec in Hp as (_ & _ & _ & _ & _ & _ & _ & Hrep); [|done]. cbn in Hrep. destruct Hrep as (-> & Hle & _).
    exists (clock_before env), (clock_after env). split_and!; try done; lia.
  - intros Hfail. specialize (I6 Hfail). unfold file_written in *. rewrite Hth in I6. cbn [thread part].
    destruct r as [[res|reason]|e]; cbn; [|done..]. by eapply persisted_file.
Qed.

(** ** Settlement *)
Lemma work_rows c : work_of (work c) (flight L) -> claims c = claim_of <$> flight L -> rows_of_claims (work c) (claims c).
Proof.
  intros [_ Hw] ->. unfold rows_of_claims. destruct (StreamFile.pending (work c)) as [p|]; [|by rewrite Hw]. destruct Hw as [Hne ->].
  split; [by destruct (flight L)|]. by rewrite <- !list_fmap_compose.
Qed.

Lemma failures_settled tr' c o : failures (tr' ++ [Settled c o]) = failures tr' ++ match o with inl _ => [] | inr e => [e] end.
Proof. unfold failures. rewrite (proj2 (proj2 (settled_trace tr' c o))), omap_app. by destruct o. Qed.

(** The claim is gone and its records are a batch. *)
Lemma inv_batched c o a : _claimed (part s) = {[claim_id c := c]} -> claims c = claim_of <$> flight L -> work_of (work c) (flight L) ->
  accumulator_ok (tr ++ [Settled c o]) a -> _seed a = _seed (_accumulator (part s)) ->
  _durability_slo_ns a = _durability_slo_ns (_accumulator (part s)) -> _frozen a = _frozen (_accumulator (part s)) ->
  settled_as (c, o) (flight L) ->
  (failures (tr ++ [Settled c o]) = [] -> StreamFile.file_ok (stream_file (part s)) (frames_settled (tr ++ [Settled c o]))) ->
  inv p0 (tr ++ [Settled c o]) {| batches := batches L ++ [flight L]; flight := []; waiting := waiting L |}
    {| part := (drop_claim c (set_accumulator a (part s))).1; thread := None |}.
Proof.
  intros Hmap Hcl Hwork Hacc Hs Hd Hfr Hset Hfile. destruct (settled_trace tr c o) as (E1 & _ & E3).
  destruct Hinv as [I1 I2 I3 [C1 C2 C3 C4] I5 I6 I7 I8]. split; cbn [part thread drop_claim fst batches flight waiting]; try done.
  - rewrite <- I1. unfold fixed. cbn. by rewrite Hs, Hd.
  - rewrite E1, I2, List.concat_app. cbn. by rewrite app_nil_r, <- app_assoc.
  - split; cbn; try done. left. rewrite Hmap. split; [|done]. apply delete_singleton_eq.
  - rewrite E3. apply Forall2_app; [done|]. by constructor.
  - cbn. intros Hf. rewrite Hfr in Hf. split; [done|]. by apply I8.
Qed.

Lemma settle_fails c e : _claimed (part s) = {[claim_id c := c]} -> claims c = claim_of <$> flight L -> work_of (work c) (flight L) ->
  settle c (inr e) (part s) = ((drop_claim c (set_accumulator (acc_failure e (_accumulator (part s))) (part s))).1, Ok tt) /\
  inv p0 (tr ++ [Settled c (inr e)]) {| batches := batches L ++ [flight L]; flight := []; waiting := waiting L |}
    {| part := (drop_claim c (set_accumulator (acc_failure e (_accumulator (part s))) (part s))).1; thread := None |}.
Proof.
  intros Hmap Hcl Hwork. split.
  - cbn [settle]. unfold apply_failure, _require_owned_claim. by rewrite Hmap, lookup_singleton_eq, bool_decide_eq_true_2.
  - apply inv_batched; try done; [apply accumulator_fail, Hinv|].
    rewrite failures_settled. by destruct (failures tr).
Qed.

Lemma settle_completes c r : thread s = Some (c, inl r) -> _frozen (_accumulator (part s)) = false ->
  exists a, settle c (inl r) (part s) = ((drop_claim c (set_accumulator a (part s))).1, Ok tt) /\
    inv p0 (tr ++ [Settled c (inl r)]) {| batches := batches L ++ [flight L]; flight := []; waiting := waiting L |}
      {| part := (drop_claim c (set_accumulator a (part s))).1; thread := None |}.
Proof.
  intros Hth Hfr. pose proof (in_claims _ _ _ _ Hinv) as [C1 C2 C3 C4]. rewrite Hth in C4.
  destruct C4 as (Hmap & Hcl & Hwork & Hg & st & cp & Hr & Hle & Ht & Hn & Hgr).
  destruct (accumulator_complete _ _ c r st cp (in_accumulator _ _ _ _ Hinv) Hfr (work_rows _ Hwork Hcl) Hr Ht Hn) as (sy & Hc & Hacc).
  exists (set_syncs sy (_accumulator (part s))). split.
  - cbn [settle]. unfold apply_completion, _require_owned_claim. rewrite Hmap, lookup_singleton_eq, bool_decide_eq_true_2 by done.
    cbn [negb raise_if]. rewrite Hgr, String.eqb_refl. cbn [negb]. unfold mbind, on_accumulator. by rewrite Hc.
  - apply inv_batched; try done; [split_and!; [done|done|by exists st, cp]|].
    intros Hfail. rewrite failures_settled, app_nil_r in Hfail. pose proof (in_file _ _ _ _ Hinv Hfail) as Hw. unfold file_written in Hw. rewrite Hth in Hw.
    unfold frames_settled. rewrite (proj2 (proj2 (settled_trace tr c (inl r)))), omap_app. cbn. by destruct (StreamFile.pending (work c)).
Qed.
End Steps.

(** ** Runs *)
Section Runs.
Context `{StreamFile.Compressor} (Hcompress : forall p, StreamFile.compress p <> "").

(** A completion that a frozen part refuses carried no records. *)
Lemma refused_when_frozen p0 tr L s c r p' res : inv p0 tr L s -> thread s = Some (c, inl r) -> _frozen (_accumulator (part s)) = true ->
  settle c (inl r) (part s) = (p', res) -> is_ok res = false /\ inv p0 tr L {| part := p'; thread := None |}.
Proof.
  intros Hinv Hth Hfr Hs. pose proof (in_claims _ _ _ _ Hinv) as [C1 C2 C3 C4]. rewrite Hth in C4.
  destruct C4 as (Hmap & Hcl & Hwork & Hg & st & cp & Hr & Hle & Ht & Hn & Hgr).
  cbn [settle] in Hs. unfold apply_completion, _require_owned_claim in Hs. rewrite Hmap, lookup_singleton_eq, bool_decide_eq_true_2 in Hs by done.
  cbn [negb raise_if] in Hs. rewrite Hgr, String.eqb_refl in Hs. cbn [negb] in Hs. unfold mbind, on_accumulator, acc_completion, check_completion in Hs.
  rewrite Hfr in Hs. cbn [raise_if] in Hs. injection Hs as <- <-. split; [done|].
  assert (set_accumulator (_accumulator (part s)) (part s) = part s) as -> by (by destruct (part s)).
  pose proof (in_frozen _ _ _ _ Hinv Hfr) as [Hfl _]. destruct Hinv as [I1 I2 I3 I4 I5 I6 I7 I8]. split; cbn [part thread]; try done.
  - split; cbn [part thread]; try done. right. by exists c.
  - intros Hfail. specialize (I6 Hfail). unfold file_written in *. rewrite Hth in I6. cbn [part thread]. destruct Hwork as [_ Hwork].
    destruct (StreamFile.pending (work c)); [by destruct Hwork as [? _]|]. cbn in I6. by rewrite app_nil_r in I6.
Qed.

Lemma settle_inv p0 tr L s c o p' r : inv p0 tr L s -> thread s = Some (c, o) -> settle c (reported o) (part s) = (p', r) ->
  exists L', inv p0 (if is_ok r then tr ++ [Settled c (reported o)] else tr) L' {| part := p'; thread := None |}.
Proof.
  intros Hinv Hth Hs. pose proof (cl_claimed _ _ (in_claims _ _ _ _ Hinv)) as C4. rewrite Hth in C4.
  destruct C4 as (Hmap & Hcl & Hwork & _). destruct o as [res|reason]; cbn [reported] in *.
  - destruct (_frozen (_accumulator (part s))) eqn:Hfr.
    + destruct (refused_when_frozen _ _ _ _ _ _ _ _ Hinv Hth Hfr Hs) as [-> Hi]. by exists L.
    + destruct (settle_completes Hinv c res Hth Hfr) as (a & Ha & Hi). rewrite Ha in Hs. injection Hs as <- <-. by eexists.
  - destruct (settle_fails Hinv c (inl {| Durability.reason := reason |}) Hmap Hcl Hwork) as [Ha Hi].
    pose proof (eq_trans (eq_sym Hs) Ha) as E. injection E as -> ->. by eexists.
Qed.

Lemma exec_inv p0 tr L s o p' r : inv p0 tr L s -> op_made o -> exec o (part s) = (p', r) ->
  exists L', inv p0 (if is_ok r then tr ++ event_of o else tr) L' {| part := p'; thread := thread s |}.
Proof.
  intros Hinv Hmade He. destruct o as [record identity|force|record identity|c task|a|reason closed|]; cbn [exec event_of op_made] in *.
  - by eapply inv_append.
  - assert ((if is_ok r then tr ++ [] else tr) = tr) as -> by (destruct (is_ok r); by rewrite ?app_nil_r). by eapply inv_seal.
  - by eapply inv_oversized.
  - assert ((if is_ok r then tr ++ [] else tr) = tr) as -> by (destruct (is_ok r); by rewrite ?app_nil_r). exists L. by eapply inv_bind.
  - exists L. by eapply inv_fold.
  - assert ((if is_ok r then tr ++ [] else tr) = tr) as -> by (destruct (is_ok r); by rewrite ?app_nil_r). exists L. by eapply inv_retire.
  - assert ((if is_ok r then tr ++ [] else tr) = tr) as -> by (destruct (is_ok r); by rewrite ?app_nil_r). exists L.
    unfold discard_value, mbind in He. destruct (freeze_summary (part s)) as [p1 r1] eqn:Ef.
    assert (p1 = p') as <- by (by destruct r1; injection He as <- <-). by eapply inv_freeze.
Qed.

(** A part that has just been made. *)
Definition new_part (p : _ActivePart) : Prop :=
  StreamFile.file_ok (stream_file p) [] /\ StreamFile._buffer (stream_file p) = [] /\ normalized (generation_id p) = true /\
  a_rows (_accumulator p) = no_rows /\ a_syncs (_accumulator p) = no_syncs /\ a_controls (_accumulator p) = no_controls /\
  _frozen (_accumulator p) = false /\ _pending_claims p = [] /\ _claimed p = ∅ /\ p_close_reason p = None /\ p_closed_at_ns p = None.

Lemma no_controls_of : controls_of [] no_controls.
Proof.
  split_and!; [|done|constructor|constructor]. intros kind name Hk. unfold counter_name in Hk. apply fmap_Some in Hk as (kv & Hkv & ->).
  apply find_some in Hkv as [Hin _]. cbn in Hin. repeat destruct Hin as [<-|Hin]; done.
Qed.

Lemma part_step_inv p0 tr L s tr' s' : inv p0 tr L s -> part_step tr s tr' s' -> exists L', inv p0 tr' L' s'.
Proof.
  intros IH Hstep. destruct Hstep as [tr s o p' r Hm He|tr s c env f r Hth Hc Hp|tr s c o p' r Hth Hs|tr s c e p' r Hth Hc Hs].
  - by eapply exec_inv.
  - exists L. by eapply inv_persist.
  - by eapply settle_inv.
  - destruct (in_flight IH _ Hc) as (Hmap & Hcl & Hwork & _). destruct (settle_fails IH c e Hmap Hcl Hwork) as [Ha Hi].
    rewrite Ha in Hs. injection Hs as <- <-. by eexists.
Qed.

Lemma new_part_inv p0 : new_part p0 -> inv p0 [] {| batches := []; flight := []; waiting := [] |} {| part := p0; thread := None |}.
Proof.
  intros (N1 & N2 & N3 & N4 & N5 & N6 & N7 & N8 & N9 & N10 & N11). split; cbn [part thread batches flight waiting]; try done.
  - split; rewrite ?N4, ?N5, ?N6; [apply mirrors_nil|constructor|constructor|constructor|apply syncs_nil|apply no_controls_of].
  - split; cbn [part thread flight waiting]; try done. by left.
  - unfold closed_ok. by rewrite N10, N11.
Qed.

Lemma part_runs_inv p0 tr s : new_part p0 -> part_runs p0 tr s -> exists L, inv p0 tr L s.
Proof.
  intros Hnew Hr. induction Hr as [|tr s tr' s' _ [L IH] Hstep]; [eexists; by apply new_part_inv|by eapply part_step_inv].
Qed.
End Runs.
