(* ===== verification/ActivePartFreeze.v ===== *)
(** The end of a part: when [freeze] succeeds, what its summary states, and why the manifest
    made of it passes its checks. *)
From S2P Require Import Prelude PyDecimal Domain StorageModels PyText CatalogJson PyTime PartPath EnvelopeJson Manifest FrameScan.
From S2P Require Import ScanFacts RecoveryScan PathFacts RowFacts PlanFacts.
From S2P Require Import Durability DurabilityFacts.
From S2P Require StreamFile.
From S2P Require Histogram.
From S2P Require Import ActivePart ActivePartRuns ActivePartSteps ActivePartInv.

(** ** The rows that a summary or a manifest describes *)
Definition summary_facts (s : _PartSummary) : RecoveryRowFacts := {|
  rf_exchange := ps_exchange s; rf_market := ps_market s; rf_instrument_key := ps_instrument_key s;
  rf_logical_stream := ps_logical_stream s; rf_wire_symbols := ps_wire_symbols s; rf_record_count := ps_record_count s;
  first_received_at_ns := ps_first_received_at_ns s; last_received_at_ns := ps_last_received_at_ns s;
  rf_first_event_time_ns := ps_first_event_time_ns s; rf_last_event_time_ns := ps_last_event_time_ns s;
  rf_worker_instance_id := ps_worker_instance_id s; rf_connection_generations := ps_connection_generations s;
  writer_sequence_first := ps_writer_sequence_first s; writer_sequence_last := ps_writer_sequence_last s;
  rf_config_sha256 := ps_config_sha256 s; rf_egress_ids := ps_egress_ids s;
  rf_requested_intervals_ns := ps_requested_intervals_ns s; rf_effective_intervals_ns := ps_effective_intervals_ns s |}.
Definition manifest_facts (m : RawManifestV1) : RecoveryRowFacts := {|
  rf_exchange := m_exchange m; rf_market := m_market m; rf_instrument_key := m_instrument_key m;
  rf_logical_stream := m_logical_stream m; rf_wire_symbols := m_wire_symbols m; rf_record_count := m_record_count m;
  first_received_at_ns := m_first_received_at_ns m; last_received_at_ns := m_last_received_at_ns m;
  rf_first_event_time_ns := m_first_event_time_ns m; rf_last_event_time_ns := m_last_event_time_ns m;
  rf_worker_instance_id := m_worker_instance_id m; rf_connection_generations := m_connection_generations m;
  writer_sequence_first := m_writer_sequence_first m; writer_sequence_last := m_writer_sequence_last m;
  rf_config_sha256 := m_config_sha256 m; rf_egress_ids := m_egress_ids m;
  rf_requested_intervals_ns := m_requested_intervals_ns m; rf_effective_intervals_ns := m_effective_intervals_ns m |}.

(** What a summary states about the syncs and the control records of the trace. *)
Record summary_counts (slo : Z) (tr : list event) (s : _PartSummary) : Prop := {
  sc_lags : (Some (ps_durability_lag_p50_ns s), Some (ps_durability_lag_p95_ns s), Some (ps_durability_lag_p99_ns s), Some (ps_durability_lag_max_ns s))
    = (Histogram.quantile 50 (measured tr), Histogram.quantile 95 (measured tr), Histogram.quantile 99 (measured tr), Histogram.zmax (measured tr));
  sc_samples : ps_durability_sample_count s = ps_record_count s;
  sc_syncs : (ps_sync_count s, ps_sync_duration_total_ns s, ps_sync_duration_max_ns s)
    = (Z.of_nat (length (completions tr)), zsum (durations tr), foldr Z.max 0 (durations tr));
  sc_breaches : ps_slo_breach_count s = breaches slo (measured tr);
  sc_failures : (ps_write_failure_count s, ps_sync_failure_count s) = (0, 0);
  sc_controls : Forall2 (fun kind n => n = Z.of_nat (length (filter (fun a => a_control_kind a = kind) (folded tr))))
    ["gap_detected"; "reconnect"; "parse_error"; "checksum_error"; "queue_overflow"]
    [ps_gap_count s; ps_reconnect_count s; ps_parse_error_count s; ps_checksum_error_count s; ps_queue_overflow_count s];
  sc_events : ps_control_event_ids s = py_sorted string_leb (a_control_event_id <$> folded tr)
}.

(** Each kind of control record has a counter of its own. *)
Lemma counter_kind kind name : counter_name kind = Some name -> forall kind', counter_name kind' = Some name <-> kind' = kind.
Proof.
  assert (Hof : forall kind name, counter_name kind = Some name -> (kind, name) ∈ _CONTROL_KIND_COUNTER).
  { intros k n Hk. unfold counter_name in Hk. apply fmap_Some in Hk as ([k' n'] & Hkv & ->). apply find_some in Hkv as [Hin E].
    apply String.eqb_eq in E as <-. by apply list_elem_of_In. }
  intros Hk kind'. split; [|by intros ->]. intros Hk'. apply Hof in Hk, Hk'. unfold _CONTROL_KIND_COUNTER in *.
  repeat (rewrite elem_of_cons in Hk; destruct Hk as [[= -> ->]|Hk]);
    try (repeat (rewrite elem_of_cons in Hk'; destruct Hk' as [[= ->]|Hk']); [done|by apply elem_of_nil in Hk']); by apply elem_of_nil in Hk.
Qed.

Section Freeze.
Context {tr : list event} {a : _PartAccumulator} (Hacc : accumulator_ok tr a).
Local Abbreviation es := (envelopes_of (appended tr)).
Context (Hvalid : Forall Histogram.valid_lag (measured tr)) (Hbound : Z.of_nat (length (measured tr)) <= MAX_INT64).

Lemma snapshot_measured : Histogram.Cumulative.snapshot (_histogram (a_syncs a)) = Ok (Histogram.snapshot_of (measured tr)).
Proof.
  unfold Histogram.Cumulative.snapshot. rewrite (sy_histogram _ _ _ _ _ _ (ac_syncs _ _ Hacc)). by apply Histogram.snapshot_cell_of.
Qed.

Lemma control_counts kind name : counter_name kind = Some name ->
  default 0 (counters (a_controls a) !! name) = Z.of_nat (length (filter (fun a => a_control_kind a = kind) (folded tr))).
Proof.
  intros Hk. destruct (ac_controls _ _ Hacc) as (Hc & _). rewrite (Hc _ _ Hk). cbn. do 2 f_equal. apply list_filter_iff'.
  intros x _. by apply counter_kind.
Qed.

Lemma no_failures : count_failures true tr = 0 /\ count_failures false tr = 0 <-> failures tr = [].
Proof.
  unfold count_failures. split; [|by intros ->]. destruct (failures tr) as [|e l]; [done|]. intros [H1 H2]. exfalso.
  destruct (write_failed e) eqn:E; [rewrite filter_cons_True in H1 by done|rewrite filter_cons_True in H2 by done]; cbn in *; lia.
Qed.

Lemma events_sorted : sorted_set string_leb (_control_event_ids (a_controls a)) = py_sorted string_leb (a_control_event_id <$> folded tr).
Proof.
  destruct (ac_controls _ _ Hacc) as (_ & -> & Hnd & _). unfold sorted_set. apply py_sorted_perm_eq; [apply _| |].
  - intros x y _ _. apply string_leb_antisym.
  - by apply elements_list_to_set.
Qed.

(** What the first and the last record fix is what recovery takes from them. *)
Lemma summary_is_freeze s : summary_facts s =
  {| rf_exchange := s_exchange (_seed a); rf_market := s_market (_seed a); rf_instrument_key := s_instrument_key (_seed a);
     rf_logical_stream := s_logical_stream (_seed a); rf_wire_symbols := sorted_set string_leb (_wire_symbols (a_rows a));
     rf_record_count := _record_count (a_rows a); first_received_at_ns := ps_first_received_at_ns s;
     last_received_at_ns := ps_last_received_at_ns s; rf_first_event_time_ns := _first_event_time_ns (a_rows a);
     rf_last_event_time_ns := _last_event_time_ns (a_rows a); rf_worker_instance_id := s_worker_instance_id (_seed a);
     rf_connection_generations := sorted_set Z.leb (_connection_generations (a_rows a));
     writer_sequence_first := ps_writer_sequence_first s; writer_sequence_last := ps_writer_sequence_last s;
     rf_config_sha256 := s_config_sha256 (_seed a); rf_egress_ids := sorted_set string_leb (_egress_ids (a_rows a));
     rf_requested_intervals_ns := sorted_set Z.leb (_requested_intervals_ns (a_rows a));
     rf_effective_intervals_ns := sorted_set Z.leb (_effective_intervals_ns (a_rows a)) |} ->
  _first_received_at_ns (a_rows a) = Some (ps_first_received_at_ns s) -> _last_received_at_ns (a_rows a) = Some (ps_last_received_at_ns s) ->
  _writer_sequence_first (a_rows a) = Some (ps_writer_sequence_first s) -> _writer_sequence_last (a_rows a) = Some (ps_writer_sequence_last s) ->
  freeze (extend new_builder es) = Some (summary_facts s).
Proof.
  intros -> F1 F2 F3 F4. pose proof (ac_rows _ _ Hacc) as Hm. rewrite (mi_first_received _ _ Hm) in F1. rewrite (mi_last_received _ _ Hm) in F2.
  rewrite (mi_first_sequence _ _ Hm) in F3. rewrite (mi_last_sequence _ _ Hm) in F4.
  pose proof (extend_collects es) as Hc. unfold freeze. rewrite (co_first _ _ Hc), (co_last _ _ Hc), (co_rows _ _ Hc).
  destruct (head es) as [e1|] eqn:E1; [|done]. destruct (last es) as [e2|] eqn:E2; [|done].
  assert (Hseed : exists g, seed_of e1 g = _seed a).
  { unfold envelopes_of in E1. destruct (appended tr) as [|x xs] eqn:Ea; [done|]. injection E1 as <-. pose proof (ac_seed _ _ Hacc) as Hs.
    rewrite Ea in Hs. apply Forall_cons in Hs as [[Hs _] _]. by eexists. }
  destruct Hseed as [g <-]. cbn in F1, F2, F3, F4. injection F1 as <-. injection F2 as <-. injection F3 as <-. injection F4 as <-.
  by rewrite (mi_symbols _ _ Hm), (mi_generations _ _ Hm), (mi_egress _ _ Hm), (mi_requested _ _ Hm), (mi_effective _ _ Hm),
    (mi_count _ _ Hm), (mi_first_event _ _ Hm), (mi_last_event _ _ Hm).
Qed.

Lemma summary_exact s : summary a = Ok s ->
  _frozen a = false /\ failures tr = [] /\ length (measured tr) = length (appended tr) /\
  freeze (extend new_builder es) = Some (summary_facts s) /\ summary_counts (_durability_slo_ns a) tr s.
Proof.
  intros Hs. unfold summary in Hs. cbv zeta in Hs. apply raise_if_ok in Hs as [Hfr Hs]. apply raise_if_ok in Hs as [Hne Hs].
  rewrite snapshot_measured in Hs. cbn [rbind] in Hs. apply raise_if_ok in Hs as [Hcount Hs]. apply raise_if_ok in Hs as [Hfail Hs].
  pose proof (ac_syncs _ _ Hacc) as [S1 S2 S3 S4 S5 S6 S7]. pose proof (mi_count _ _ (ac_rows _ _ Hacc)) as Hn.
  rewrite S6, S7 in Hfail. bool_prop. assert (Hf : failures tr = []) by by apply no_failures.
  do 8 (apply rbind_ok in Hs as (? & ? & Hs)).
  repeat match goal with H : not_none _ _ = Ok _ |- _ => unfold not_none in H; case_match; [injection H as <-|done] end.
  injection Hs as <-. split_and!; try done.
  - cbn in Hcount. rewrite Hn in Hcount. unfold envelopes_of in Hcount. rewrite length_fmap in Hcount. apply Nat2Z.inj. exact Hcount.
  - by apply summary_is_freeze.
  - split; cbn; try done; [by repeat match goal with Hx : _ = Some _ |- _ => rewrite <- Hx; clear Hx end|by rewrite S2, S3, S4; unfold durations; rewrite length_fmap|congruence| |by apply events_sorted].
    repeat constructor; by apply control_counts.
Qed.

Lemma summary_total : _frozen a = false -> failures tr = [] -> appended tr <> [] -> length (measured tr) = length (appended tr) ->
  exists s, summary a = Ok s.
Proof.
  intros Hfr Hf Hne Hlen. pose proof (ac_syncs _ _ Hacc) as [S1 S2 S3 S4 S5 S6 S7]. pose proof (ac_rows _ _ Hacc) as Hm.
  unfold summary. cbv zeta. rewrite Hfr, snapshot_measured, (mi_count _ _ Hm), S6, S7, (proj1 (proj2 no_failures Hf)), (proj2 (proj2 no_failures Hf)).
  rewrite (mi_first_received _ _ Hm), (mi_last_received _ _ Hm), (mi_first_sequence _ _ Hm), (mi_last_sequence _ _ Hm).
  assert (Hl : length es = length (appended tr)) by (unfold envelopes_of; apply length_fmap).
  assert (Hne' : es <> []) by (intros E; rewrite E in Hl; by destruct (appended tr)).
  destruct (snapshot_lags (measured tr)) as (p50 & p95 & p99 & m & H50 & H95 & H99 & Em & _); [|done|].
  { intros E. rewrite E in Hlen. by destruct (appended tr). }
  cbn [raise_if rbind Histogram.snapshot_of Histogram.sample_count Histogram.lag_p50_ns Histogram.lag_p95_ns Histogram.lag_p99_ns Histogram.lag_max_ns].
  rewrite Hl, Hlen, Z.eqb_refl, H50, H95, H99, Em. destruct (Z.eqb_spec (Z.of_nat (length (appended tr))) 0) as [E|E]; [destruct (appended tr); [done|cbn in E; lia]|].
  cbn [negb orb raise_if]. destruct es as [|e l] eqn:Ee; [done|]. cbn [head fmap option_fmap option_map not_none rbind].
  rewrite last_cons. destruct (last l); cbn; by eexists.
Qed.
End Freeze.

(** ** Settled batches *)
Lemma omap_length {A B} (f : A -> option B) l : (length (omap f l) <= length l)%nat.
Proof. induction l as [|x l IH]; cbn; [done|]. destruct (f x); cbn; lia. Qed.
Lemma settled_lags sts bs : Forall2 settled_as sts bs -> forall completions, completions = omap (fun co : _ClaimedSealedWork * Outcome => match co.2 with inl r => Some (co.1, r) | inr _ => None end) sts ->
  let lags := concat ((fun cr => claim_lag (default 0 (sync_completed_monotonic_ns cr.2)) <$> claims cr.1) <$> completions) in
  Forall Histogram.valid_lag lags /\ (length lags <= length (concat bs))%nat /\
  (length completions = length sts -> length lags = length (concat bs)).
Proof.
  cbv zeta. induction 1 as [|[c o] b sts bs Hs _ IH]; intros completions ->; [done|]. destruct (IH _ eq_refl) as (IH1 & IH2 & IH3).
  pose proof (omap_length (fun co : _ClaimedSealedWork * Outcome => match co.2 with inl r => Some (co.1, r) | inr _ => None end) sts) as Hle.
  destruct Hs as (Hcl & Hw & Ho). cbn in Hcl, Hw, Ho. destruct o as [r|e]; cbn [omap list_omap snd fst] in *; cbn [fmap list_fmap concat fst snd]; rewrite ?length_app.
  - destruct Ho as (st & cp & -> & _ & Ht). cbn [expected_result sync_completed_monotonic_ns default].
    assert (Hr : rows_of_claims (work c) (claims c)).
    { destruct Hw as [_ Hw]. unfold rows_of_claims. rewrite Hcl. destruct (StreamFile.pending (work c)); [|by rewrite Hw]. destruct Hw as [Hne ->].
      split; [by destruct b|]. by rewrite <- !list_fmap_compose. }
    pose proof (claim_lags_valid _ _ _ Hr Ht) as HV. rewrite length_fmap. cbn [length].
    rewrite Hcl, length_fmap. split_and!; [apply Forall_app; split; [by rewrite <- Hcl; apply Forall_fmap|done]|lia|].
    intros E. by rewrite (IH3 (eq_add_S _ _ E)).
  - split_and!; [done|lia|]. intros E. exfalso. apply (Nat.nle_succ_diag_l (length sts)). by rewrite <- E at 1.
Qed.

Lemma all_completed tr : failures tr = [] <-> length (completions tr) = length (settlements tr).
Proof.
  unfold failures, completions. induction (settlements tr) as [|[c [r|e]] l IH]; [done| |]; cbn.
  - rewrite IH. cbn. lia.
  - split; [done|]. intros E. exfalso.
    pose proof (omap_length (fun co : _ClaimedSealedWork * Outcome => match co.2 with inl r => Some (co.1, r) | inr _ => None end) l) as Hle.
    apply (Nat.nle_succ_diag_l (length l)). by rewrite <- E at 1.
Qed.

Section Runs.
Context `{StreamFile.Compressor}.
Context {p0 : _ActivePart} {tr : list event} {L : Ledger} {s : PartRun} (Hinv : inv p0 tr L s).

Lemma measured_valid : Forall Histogram.valid_lag (measured tr) /\ (length (measured tr) <= length (appended tr))%nat /\
  (failures tr = [] -> length (measured tr) = length (concat (batches L))).
Proof.
  destruct (settled_lags _ _ (in_settled _ _ _ _ Hinv) _ eq_refl) as (H1 & H2 & H3). split_and!; [done| |].
  - rewrite (in_appended _ _ _ _ Hinv), length_app. eapply Nat.le_trans; [exact H2|]. apply Nat.le_add_r.
  - intros Hf%all_completed. by apply H3.
Qed.

(** When a part is frozen, everything it was given has been settled. *)
Lemma freeze_quiescent p sm : freeze_summary (part s) = (p, Ok sm) ->
  summary (_accumulator (part s)) = Ok sm /\ waiting L = [] /\ flight L = [] /\ thread s = None /\
  p = set_accumulator (set_frozen (_accumulator (part s))) (part s).
Proof.
  unfold freeze_summary, on_accumulator, acc_freeze. intros Hf. destruct (negb (nil _) || _) eqn:Eq; [done|].
  destruct (summary _) as [sm'|]; [|done]. injection Hf as <- <-. bool_prop. destruct (flight_idle Hinv) as [Hth Hfl]; [done|].
  split_and!; try done. rewrite (cl_pending _ _ (in_claims _ _ _ _ Hinv)) in *. by destruct (waiting L).
Qed.

Lemma freeze_ready : Z.of_nat (length (appended tr)) <= MAX_INT64 ->
  is_ok (freeze_summary (part s)).2 = true <->
  _frozen (_accumulator (part s)) = false /\ _pending_claims (part s) = [] /\ _claimed (part s) = ∅ /\ appended tr <> [] /\ failures tr = [].
Proof.
  intros Hbound. destruct measured_valid as (HV & Hle & Hlen).
  assert (Hb : Z.of_nat (length (measured tr)) <= MAX_INT64) by lia. pose proof (in_accumulator _ _ _ _ Hinv) as Hacc. split.
  - destruct (freeze_summary (part s)) as [p [sm|]] eqn:Ef; [|done]. intros _.
    destruct (freeze_quiescent _ _ Ef) as (Hs & Hw & Hf & Hth & _).
    destruct (summary_exact Hacc HV Hb _ Hs) as (Hfr & Hfa & _ & Hfz & _). unfold freeze_summary in Ef. destruct (negb (nil _) || _) eqn:Eq; [done|].
    bool_prop. split_and!; try done; [by destruct (_pending_claims (part s))|]. intros E. rewrite E in Hfz. done.
  - intros (Hfr & Hp & Hc & Hne & Hfa). unfold freeze_summary. rewrite Hp, Hc, bool_decide_eq_true_2 by done. cbn [nil negb orb].
    destruct (flight_idle Hinv Hc) as [_ Hfl]. assert (Hw : waiting L = []).
    { rewrite (cl_pending _ _ (in_claims _ _ _ _ Hinv)) in Hp. by apply fmap_nil_inv in Hp. }
    destruct (summary_total Hacc HV Hb Hfr Hfa Hne) as [sm Hs].
    { rewrite (Hlen Hfa), (in_appended _ _ _ _ Hinv), Hfl, Hw, !app_nil_r. done. }
    unfold on_accumulator, acc_freeze. by rewrite Hs.
Qed.

(** The frames of the file hold the settled records. *)
Definition frame_holds (p : StreamFile.PendingRows) (b : list item) : Prop := b <> [] /\ StreamFile.rows p = row_of <$> b.
Lemma frames_hold : Forall2 frame_holds (frames_settled tr) (filter (fun b => b <> []) (batches L)) /\
  concat (filter (fun b => b <> []) (batches L)) = concat (batches L).
Proof.
  pose proof (in_settled _ _ _ _ Hinv) as Hs. unfold frames_settled. induction Hs as [|[c o] b sts bs (_ & [_ Hw] & _) _ [IH1 IH2]]; [by split|].
  cbn in Hw. cbn [omap list_omap fst]. destruct (StreamFile.pending (work c)) as [p|].
  - destruct Hw as [Hne Hrows]. rewrite filter_cons_True by done. cbn. split; [by constructor|by rewrite IH2].
  - subst b. rewrite filter_cons_False by auto. by split.
Qed.
End Runs.
