(* ===== verification/ActiveParts.v ===== *)
(** A raw part from its allocation to its manifest: where its file is, that every accepted
    record is accounted for, when the part can be frozen, and that the manifest of a frozen
    part states exactly what recovery would read from its file; then what holds over its whole
    life, from its allocation for a first record or as a replacement to its summary. *)
From S2P Require Import Prelude PyDecimal Domain StorageModels PyText PyTime CatalogJson PartPath EnvelopeJson Durability DurabilityFacts Manifest.
From S2P Require Import FrameScan ScanFacts RecoveryScan CrashRecovery PathFacts RowFacts PlanFacts ActivePart ActivePartRuns.
From S2P Require Import ActivePartSteps ActivePartInv ActivePartFreeze.
From S2P Require StreamFile.
From S2P Require Histogram.

(** ** Where a part is *)
(** The hour of a receipt time is its date and hour. *)
Lemma hour_quotient t t' : t / _HOUR_NS = t' / _HOUR_NS -> received_hour t = received_hour t'.
Proof.
  unfold received_hour, fromtimestamp, _HOUR_NS, _NS_PER_SECOND, SECONDS_PER_DAY. intros E.
  assert (Hd : forall x, x / 1000000000 / 86400 = x / 3600000000000 / 24 /\ x / 1000000000 mod 86400 / 3600 = (x / 3600000000000) mod 24).
  { intros x. assert (x / 3600000000000 = x / 1000000000 / 3600) as -> by (by rewrite Z.div_div).
    generalize (x / 1000000000). intros y. split; Z.div_mod_to_equations; lia. }
  destruct (Hd t) as [-> ->], (Hd t') as [-> ->]. by rewrite E.
Qed.

(** A part whose path is that of its scope and hour. *)
Record placed (id : _SourcePathIdentity) (p : _ActivePart) : Prop := {
  pl_path : _parse_source_path (p_data_relative_path p) = Ok id;
  pl_closed : suffix ".jsonl.zst" (p_data_relative_path p) = true;
  pl_manifest : manifest_path_for_data (p_data_relative_path p) = Ok (p_manifest_relative_path p);
  pl_seed : (s_exchange (_seed (_accumulator p)), s_market (_seed (_accumulator p)), s_instrument_key (_seed (_accumulator p)),
      s_logical_stream (_seed (_accumulator p)))
    = (sp_exchange id, sp_market id, sp_instrument_key id, sp_logical_stream id);
  pl_hour : forall t, t / _HOUR_NS = p_received_hour p ->
    exists h, received_hour t = Some h /\ split_on slash (join_with "/" (hour_segments h)) = storage_hour id;
  pl_control : sp_logical_stream id = "_control" -> sp_market id = None;
  pl_codec : 1 <= StreamFile.zstd_level (stream_file p) <= 22 /\ 1 <= StreamFile.max_plain_frame_bytes (stream_file p);
  pl_created : 0 <= p_created_at_ns p
}.

(** What the manifest of a part demands of its paths. *)
Lemma placed_paths id p : placed id p -> exists scope,
  manifest_scope (sp_exchange id) (sp_market id) (sp_instrument_key id) (sp_logical_stream id) = Ok scope /\
  removelast (split_on slash (p_data_relative_path p)) = scope ++ storage_hour id /\
  _FINAL_PART_NAME (List.last (split_on slash (p_data_relative_path p)) "") <> None /\
  path_ok (p_data_relative_path p) = true /\ path_ok (p_manifest_relative_path p) = true.
Proof.
  intros Hpl. destruct (parse_path_inv _ _ (pl_path _ _ Hpl)) as (dirs & f & start & q & Hat).
  destruct (sa_scope _ _ _ _ _ _ Hat (pl_control _ _ Hpl)) as (scope & Hscope & Hdirs).
  destruct (source_name _ _ _ _ _ _ Hat) as (g & Hg & [(-> & _)|(_ & _ & Hcase)]); [|by rewrite (pl_closed _ _ Hpl) in Hcase].
  destruct (data_manifest Hat q g Hg) as (mpath & Hmpath & Hmok & _). rewrite <- (sa_path _ _ _ _ _ _ Hat), (pl_manifest _ _ Hpl) in Hmpath.
  injection Hmpath as Hmpath. rewrite <- Hmpath in Hmok.
  destruct (in_dirs Hat g "" (proj1 Hg)) as (_ & Hdok & Hsp). rewrite <- (sa_path _ _ _ _ _ _ Hat) in Hdok, Hsp.
  exists scope. rewrite Hsp, removelast_last, List.last_last. split_and!; try done. destruct Hg as [_ Hg]. by rewrite Hg.
Qed.

Lemma filename_suffix start seq : suffix ".jsonl.zst" (part_filename start seq) = true.
Proof.
  apply suffix_iff. exists ("part-" +:+ str_of_int start +:+ "-" +:+ str_of_int seq). unfold part_filename.
  generalize (str_of_int start), (str_of_int seq). intros a b. by rewrite !append_assoc.
Qed.

Lemma allocate_inv r i gid start seq level max slo created fd p : allocate r i gid start seq level max slo created fd = Ok p ->
  exists stream a, raw_partial_path (envelope r) start seq = Ok (partial_path p) /\
    StreamFile.allocate "" level max (Some gid) fd = Ok stream /\ normalized gid = true /\
    new_accumulator r i slo = Ok a /\ part_init stream (partial_path p) a start seq (received_at_ns (envelope r) / _HOUR_NS)
      (default (received_at_ns (envelope r)) created) = Ok p.
Proof.
  unfold allocate. intros Ha. apply rbind_ok in Ha as (g & Hg & Ha). unfold _nonempty in Hg. apply raise_if_ok in Hg as [Hg [= <-]].
  apply rbind_ok in Ha as (path & Hp & Ha). apply rbind_ok in Ha as (stream & Hs & Ha). apply rbind_ok in Ha as (a & Hacc & Ha).
  exists stream, a. assert (partial_path p = path) as ->; [|bool_prop; done].
  unfold part_init in Ha. apply rbind_ok in Ha as (m & _ & Ha). apply rbind_ok in Ha as (c & _ & Ha). by apply rbind_ok in Ha as (h & _ & [= <-]).
Qed.

Lemma part_init_inv stream path a start seq hour created p : part_init stream path a start seq hour created = Ok p ->
  stream_file p = stream /\ _accumulator p = a /\ p_data_relative_path p = removesuffix ".partial" path /\
  manifest_path_for_data (p_data_relative_path p) = Ok (p_manifest_relative_path p) /\ p_received_hour p = hour /\ 0 <= p_created_at_ns p /\
  _pending_claims p = [] /\ _claimed p = ∅ /\ p_close_reason p = None /\ p_closed_at_ns p = None /\ part_sequence p = seq.
Proof.
  unfold part_init. intros Ha. apply rbind_ok in Ha as (m & Hm & Ha). apply rbind_ok in Ha as (c & Hc & Ha).
  unfold _nonnegative in Hc. apply raise_if_ok in Hc as [Hc [= <-]]. apply rbind_ok in Ha as (h & Hh & Ha).
  unfold _nonnegative in Hh. apply raise_if_ok in Hh as [_ [= <-]]. injection Ha as <-. bool_prop. by split_and!.
Qed.

Lemma initialize_inv seed slo a : _initialize seed slo = Ok a ->
  _seed a = seed /\ a_rows a = no_rows /\ a_syncs a = no_syncs /\ a_controls a = no_controls /\ _frozen a = false.
Proof.
  unfold _initialize. intros Hi. apply rbind_ok in Hi as (s & _ & Hi). by apply raise_if_ok in Hi as [_ [= <-]].
Qed.

Lemma stream_new `{StreamFile.Compressor} gid level max fd stream : (forall p, StreamFile.compress p <> "") ->
  StreamFile.allocate "" level max (Some gid) fd = Ok stream ->
  StreamFile.file_ok stream [] /\ StreamFile._buffer stream = [] /\ StreamFile._generation_id stream = gid /\ normalized gid = true /\
  1 <= StreamFile.zstd_level stream <= 22 /\ 1 <= StreamFile.max_plain_frame_bytes stream.
Proof.
  intros Hc Hs. pose proof (StreamFile.file_runs_ok stream [] Hc (StreamFile.runs_start _ _ _ _ _ _ Hs)) as Hok. split; [done|].
  unfold StreamFile.allocate in Hs. apply rbind_ok in Hs as (l & Hl & Hs). apply raise_if_ok in Hs as [H22 Hs].
  apply rbind_ok in Hs as (m & Hm & Hs). apply rbind_ok in Hs as (g & Hg & [= <-]). apply StreamFile.int64_ok in Hl as [-> Hl].
  apply StreamFile.int64_ok in Hm as [-> Hm]. unfold StreamFile._nonempty in Hg. apply raise_if_ok in Hg as [Hg [= <-]]. bool_prop.
  cbn [StreamFile._buffer StreamFile._generation_id StreamFile.zstd_level StreamFile.max_plain_frame_bytes]. split_and!; first [done|lia].
Qed.

Lemma new_part_made `{StreamFile.Compressor} gid level max fd stream path seed slo a start seq hour created p :
  (forall p, StreamFile.compress p <> "") -> StreamFile.allocate "" level max (Some gid) fd = Ok stream -> _initialize seed slo = Ok a ->
  part_init stream path a start seq hour created = Ok p -> new_part p.
Proof.
  intros Hc Hs Ha Hp. destruct (stream_new _ _ _ _ _ Hc Hs) as (F1 & F2 & F3 & F4 & _). apply initialize_inv in Ha as (_ & A1 & A2 & A3 & A4).
  apply part_init_inv in Hp as (E1 & E2 & _ & _ & _ & _ & E3 & E4 & E5 & E6 & _).
  unfold new_part, generation_id. rewrite E1, E2, F3. by split_and!.
Qed.

Lemma allocate_new `{StreamFile.Compressor} r i gid start seq level max slo created fd p : (forall p, StreamFile.compress p <> "") ->
  allocate r i gid start seq level max slo created fd = Ok p -> new_part p.
Proof.
  intros Hc (stream & a & _ & Hs & _ & Ha & Hp)%allocate_inv. unfold new_accumulator in Ha. apply rbind_ok in Ha as (u & _ & Ha).
  by eapply new_part_made.
Qed.

(** A part that is allocated for its first record is in the directory of the record's scope
    and hour. *)
Lemma allocate_placed `{StreamFile.Compressor} r i gid seq level max slo created fd p h : (forall p, StreamFile.compress p <> "") ->
  envelope_made (envelope r) -> scoped (base (envelope r)) = true -> opt_ok is_text (instrument_key (base (envelope r))) = true ->
  received_hour (received_at_ns (envelope r)) = Some h ->
  allocate r i gid (received_at_ns (envelope r) / _HOUR_NS * _HOUR_NS) seq level max slo created fd = Ok p ->
  placed (identity_of (base (envelope r)) h) p.
Proof.
  intros Hcomp [Hmade _] Hscoped Htext Hh (stream & a & Hpath & Hs & _ & Ha & Hp)%allocate_inv.
  destruct (partial_path_segments _ _ _ _ _ Hmade Htext Hh Hpath) as (scope & Hscope & Hstart & Hq & Hpos & Hc & Hpp).
  assert (Hd : draft_validate (base (envelope r)) = Ok (base (envelope r))).
  { unfold envelope_validate in Hmade. apply raise_if_ok in Hmade as [_ Hv]. apply rbind_ok in Hv as (d & Hd & _).
    by pose proof (draft_validate_inv _ _ Hd) as [-> _]. }
  assert (Hts : received_at_ns (envelope r) / _HOUR_NS * _HOUR_NS = timestamp h * _NS_PER_SECOND).
  { rewrite (timestamp_of_hour _ _ Hh). unfold _HOUR_NS, _NS_PER_SECOND. rewrite Z.div_div by done. change (1000000000 * 3600) with 3600000000000. ring. }
  rewrite Hts in *.
  pose proof (parse_part_path (envelope r) seq h "" scope ltac:(by left) Hd Htext Hh Hscope Hc Hstart Hq Hpos) as Hparse.
  unfold new_accumulator in Ha. apply rbind_ok in Ha as (u & _ & Ha). apply initialize_inv in Ha as (Hseed & _).
  apply part_init_inv in Hp as (E1 & E2 & E3 & E4 & E5 & E6 & _). rewrite Hpp in E3. rewrite removesuffix_app in E3.
  destruct (stream_new _ _ _ _ _ Hcomp Hs) as (_ & _ & _ & _ & F1 & F2). rewrite append_nil in Hparse.
  assert (Hctl : logical_stream (base (envelope r)) = "_control" -> market (base (envelope r)) = None /\ instrument_key (base (envelope r)) = None).
  { intros E. unfold scoped in Hscoped. rewrite E in Hscoped. cbn in Hscoped. destruct (market _), (instrument_key _); done. }
  split; rewrite ?E1, ?E2, ?Hseed; try done.
  - rewrite E3, Hparse. unfold parsed_as. destruct (String.eqb_spec (logical_stream (base (envelope r))) "_control") as [E|E]; [|by rewrite Hscoped].
    unfold identity_of. rewrite E. by destruct (Hctl E) as [-> ->].
  - rewrite E3. rewrite (assoc_L (++)), suffix_join by done. apply filename_suffix.
  - intros t Ht. rewrite E5 in Ht. exists h. rewrite (hour_quotient _ _ Ht). split; [done|]. destruct (hour_segments_ok _ _ Hh) as [Hhc _].
    { apply Z.div_pos; [lia|done]. } by apply join_normalized.
  - cbn. intros E. by destruct (Hctl E).
Qed.

(** ** The manifest *)
Section Normal.
Context {id : _SourcePathIdentity} {es : list RawEnvelope} {sm : _PartSummary} (Hfacts : facts_of id es (summary_facts sm)).
Context {slo : Z} {tr : list event} (Hcounts : summary_counts slo tr sm) (Hvalid : Forall Histogram.valid_lag (measured tr)).
Context (Hne : measured tr <> []) (Hdurations : Forall (fun d => 0 <= d) (durations tr)).
Context (Hcontrols : NoDup (a_control_event_id <$> folded tr)) (Hfolded : Forall (fun a => association_validate a = Ok a) (folded tr)).
Context {p : _ActivePart} {reason : CloseReason} {closed size : Z} {digest : string}.
Context (Hreason : reason <> Domain.RECOVERY) (Hclosed : 0 <= closed) (Hsize : 0 < size) (Hdigest : config_sha256_ok digest = true).
Context (Hcodec : 1 <= StreamFile.zstd_level (stream_file p) <= 22 /\ 1 <= StreamFile.max_plain_frame_bytes (stream_file p)).
Context (Hcreated : 0 <= p_created_at_ns p).
Context {scope : list string}.
Context (Hscope : manifest_scope (sp_exchange id) (sp_market id) (sp_instrument_key id) (sp_logical_stream id) = Ok scope).
Context (Hdirs : removelast (split_on slash (p_data_relative_path p)) = scope ++ storage_hour id).
Context (Hname : _FINAL_PART_NAME (List.last (split_on slash (p_data_relative_path p)) "") <> None).
Context (Hmanifest : manifest_path_for_data (p_data_relative_path p) = Ok (p_manifest_relative_path p)).
Context (Hpaths : path_ok (p_data_relative_path p) = true /\ path_ok (p_manifest_relative_path p) = true).

Local Abbreviation m := (manifest_fields p sm reason closed size digest).

Lemma nonneg_is x : 0 <= x -> nonneg x = true.
Proof. intros Hx. by apply Z.leb_le. Qed.

(** The counts and lags of a summary are not negative. *)
Lemma counts_nonneg : Forall (fun x => nonneg x = true) [ps_gap_count sm; ps_reconnect_count sm; ps_parse_error_count sm; ps_checksum_error_count sm;
    ps_queue_overflow_count sm; ps_durability_lag_p50_ns sm; ps_durability_lag_p95_ns sm; ps_durability_lag_p99_ns sm; ps_durability_lag_max_ns sm;
    ps_sync_count sm; ps_sync_duration_total_ns sm; ps_sync_duration_max_ns sm; ps_slo_breach_count sm; ps_write_failure_count sm; ps_sync_failure_count sm].
Proof.
  destruct Hcounts as [C1 C2 C3 C4 C5 C6 C7]. injection C1 as L1 L2 L3 L4. injection C3 as S1 S2 S3. injection C5 as -> ->.
  destruct (snapshot_lags (measured tr) Hne Hvalid) as (p50 & p95 & p99 & mx & H50 & H95 & H99 & Em & _ & _ & Hmx).
  pose proof (quantile_range _ _ _ H50). pose proof (quantile_range _ _ _ H95). pose proof (quantile_range _ _ _ H99).
  rewrite H50 in L1. rewrite H95 in L2. rewrite H99 in L3. rewrite Em in L4. injection L1 as ->. injection L2 as ->. injection L3 as ->. injection L4 as ->.
  assert (Hmax : 0 <= foldr Z.max 0 (durations tr)) by (clear; induction (durations tr); cbn; lia).
  pose proof (zsum_nonneg _ Hdurations). rewrite S1, S2, S3, C4. unfold breaches.
  repeat match goal with H : Forall2 _ (_ :: _) (_ :: _) |- _ => apply Forall2_cons in H as [-> H] end.
  repeat (constructor; [apply nonneg_is; lia|]). constructor.
Qed.

Lemma control_names : forallb nonempty (ps_control_event_ids sm) = true /\ sorted_unique_by string_leb (ps_control_event_ids sm) = true.
Proof.
  rewrite (sc_events _ _ _ Hcounts). split.
  - apply forallb_forall. intros x Hx%list_elem_of_In. rewrite elem_of_py_sorted in Hx. apply list_elem_of_fmap in Hx as (a & -> & Ha).
    pose proof (proj1 (Forall_forall _ _) Hfolded _ Ha) as Hv. cbn in Hv. unfold association_validate in Hv. apply raise_if_ok in Hv as [Hv _]. by bool_prop.
  - unfold sorted_unique_by. rewrite !bool_decide_eq_true_2; [done|by apply NoDup_py_sorted|]. symmetry. apply sorted_id. by apply py_sorted_sorted; apply _.
Qed.

Lemma normal_fields : manifest_fields_ok m = true.
Proof.
  destruct Hfacts as [_ [Hc1 Hc] _ _ [T1 T2] _ (_ & E1 & E2) (S1 & S2 & _) (N1 & N2 & N3 & N4) (_ & W & _) (_ & G) (_ & X) (_ & _ & I1 & I2 & _)].
  cbn in *. pose proof counts_nonneg as Hn. repeat (apply Forall_cons in Hn as [? Hn]). destruct control_names as [K1 _].
  destruct Hcodec as [Hz Hm], Hpaths as [D1 D2]. unfold manifest_fields_ok, manifest_fields. manifest_simpl.
  repeat match goal with H : _ = true |- _ => rewrite H; clear H end.
  rewrite (sc_samples _ _ _ Hcounts). cbn [opt_ok]. unfold nonneg, positive in *.
  rewrite (proj2 (Z.leb_le 1 _)), (proj2 (Z.leb_le _ 22)), !(proj2 (Z.ltb_lt _ _)) by lia.
  cbn [forallb andb opt_ok Z.ltb]. 
  repeat match goal with H : _ = true |- _ => rewrite H end.
  rewrite !(proj2 (Z.leb_le 0 _)) by lia. done.
Qed.

Lemma normal_sorted : _validate_sorted_facts m = Ok tt.
Proof.
  destruct Hfacts as [_ _ _ _ _ _ _ _ _ (W & _) (G & _) (X & _) (I1 & I2 & _)]. cbn in *. destruct control_names as [_ K].
  unfold _validate_sorted_facts, _require_sorted_unique, manifest_fields. manifest_simpl. by rewrite W, G, X, I1, I2, K.
Qed.

Lemma normal_rows : _validate_row_facts m = Ok tt.
Proof.
  destruct Hfacts as [_ _ _ _ _ _ (E & _) (_ & _ & S) _ (_ & _ & W) _ _ (_ & _ & _ & _ & I)]. cbn in *.
  unfold _validate_row_facts, manifest_fields. manifest_simpl. rewrite E, I, W, (proj2 (Z.ltb_ge _ _)), !eqb_reflx by done.
  by destruct (ps_instrument_key sm).
Qed.

Lemma normal_layout : _validate_layout m = Ok tt.
Proof.
  destruct Hfacts as [Hid _ _ _ _ (H1 & H2 & H3) _ _ _ _ _ _ _]. cbn in Hid, H1, H2. injection Hid as I1 I2 I3 I4.
  unfold _validate_layout, manifest_fields. manifest_simpl. rewrite I1, I2, I3, I4, Hscope. cbn [rbind]. rewrite H1, H2. cbn [rbind].
  rewrite String.eqb_refl, H3. cbn [negb raise_if]. rewrite Hdirs, bool_decide_eq_true_2, bool_decide_eq_false_2 by done.
  cbn [negb orb raise_if]. rewrite Hmanifest. cbn [rbind]. by rewrite String.eqb_refl.
Qed.

Lemma normal_checks : _validate_normal_manifest m = Ok tt.
Proof.
  destruct Hcounts as [C1 C2 C3 C4 C5 C6 C7]. injection C1 as L1 L2 L3 L4.
  destruct (snapshot_lags (measured tr) Hne Hvalid) as (p50 & p95 & p99 & mx & H50 & H95 & H99 & Em & Ho1 & Ho2 & Hmx).
  rewrite H50 in L1. rewrite H95 in L2. rewrite H99 in L3. injection L1 as L1. injection L2 as L2. injection L3 as L3.
  unfold _validate_normal_manifest, control_values, durability_values, lineage_values, suffix_values, manifest_fields. manifest_simpl.
  rewrite C2, L1, L2, L3. cbn [present negb existsb orb andb fmap list_fmap app Datatypes.id nil raise_if].
  rewrite !bool_decide_eq_true_2 by done. cbn [negb orb raise_if]. by rewrite (proj2 (Z.leb_le _ _) Ho1), (proj2 (Z.leb_le _ _) Ho2).
Qed.

Lemma normal_manifest : manifest_init m = Ok m.
Proof.
  unfold manifest_init. rewrite normal_fields, normal_sorted, normal_rows, normal_layout. cbn [negb raise_if rbind].
  assert (close_reason m = reason) as -> by done. by rewrite bool_decide_eq_false_2, normal_checks.
Qed.
End Normal.

Lemma settled_durations tr bs : Forall2 settled_as (settlements tr) bs -> Forall (fun d => 0 <= d) (durations tr).
Proof.
  unfold durations, completions. induction 1 as [|[c [r|e]] b sts bs (_ & _ & Ho) _ IH]; [constructor| |done].
  cbn in Ho. destruct Ho as (st & cp & -> & Hle & _). cbn. constructor; [cbn; lia|done].
Qed.

(** ** The file of a part *)
Section File.
Context {A : Type} `{EnvelopeCodecLaws A} `{CompressorLaws} {Hzstd : ZstdLaws}.
Context {p0 : _ActivePart} {tr : list event} {L : Ledger} {s : PartRun} (Hinv : inv p0 tr L s).
Context {id : _SourcePathIdentity} (Hplaced : placed id p0).
Context (Hrecords : Forall (fun x => received_at_ns (envelope x.1) / _HOUR_NS = p_received_hour p0 /\ row_for (row_of x) (envelope x.1)) (appended tr)).

Lemma part_rows : rows_of_part id (envelopes_of (appended tr)).
Proof.
  pose proof (in_accumulator _ _ _ _ Hinv) as Hacc. pose proof (in_fixed _ _ _ _ Hinv) as Hfix. unfold fixed in Hfix. injection Hfix as _ _ _ _ _ _ _ Hseed _ _ _.
  destruct Hplaced as [_ _ _ Hid Hhour _ _ _]. injection Hid as I1 I2 I3 I4. split_and!.
  - apply Forall_fmap, Forall_forall. intros x Hx. pose proof (proj1 (Forall_forall _ _) (ac_seed _ _ Hacc) _ Hx) as [Hs _].
    pose proof (proj1 (Forall_forall _ _) Hrecords _ Hx) as [Hh _]. rewrite Hseed in Hs.
    unfold row_of_part. cbn. rewrite <- I1, <- I2, <- I3, <- I4, <- Hs. cbn. split_and!; try done. by apply Hhour.
  - apply Hacc.
  - exists (s_worker_instance_id (_seed (_accumulator p0))), (s_config_sha256 (_seed (_accumulator p0))).
    apply Forall_fmap, Forall_forall. intros x Hx. pose proof (proj1 (Forall_forall _ _) (ac_seed _ _ Hacc) _ Hx) as [Hs _].
    rewrite Hseed in Hs. by rewrite <- Hs.
Qed.

Lemma frames_rows_for : Forall2 rows_for (frames_settled tr) (envelopes_of <$> filter (fun b => b <> []) (batches L)).
Proof.
  destruct (frames_hold Hinv) as [Hf Hc]. assert (Hin : forall x, x ∈ concat (filter (fun b => b <> []) (batches L)) -> row_for (row_of x) (envelope x.1)).
  { intros x Hx. rewrite Hc in Hx. eapply (proj1 (Forall_forall _ _) Hrecords). rewrite (in_appended _ _ _ _ Hinv). apply elem_of_app. by left. }
  clear Hc. induction Hf as [|p b ps bs [Hne Hp] _ IH]; [constructor|]. cbn. constructor.
  - split; [by destruct b|]. rewrite Hp. unfold envelopes_of. apply Forall2_fmap_l, Forall2_fmap_r, Forall_Forall2_diag, Forall_forall.
    intros x Hx. apply Hin. cbn. apply elem_of_app. by left.
  - apply IH. intros x Hx. apply Hin. cbn. apply elem_of_app. by right.
Qed.

(** A part whose records are all settled by completions: its file is read back whole. *)
Context (Hquiet : flight L = [] /\ waiting L = []) (Hthread : thread s = None) (Hclean : failures tr = []).
Local Abbreviation file := (StreamFile.contents (stream_file (part s))).

Lemma part_scanned : exists scan, scan_recovery_frames file (p_data_relative_path p0) = Ok scan /\
  source_size_bytes scan = len file /\ valid_prefix_size_bytes scan = len file /\
  concat (envelopes <$> FrameScan.frames scan) = envelopes_of (appended tr).
Proof.
  destruct Hquiet as [Hfl Hw]. assert (Happ : appended tr = concat (batches L)).
  { by rewrite (in_appended _ _ _ _ Hinv), Hfl, Hw, !app_nil_r. }
  pose proof (in_file _ _ _ _ Hinv Hclean) as Hfile. unfold file_written in Hfile. rewrite Hthread in Hfile.
  assert (Hall : concat (envelopes_of <$> filter (fun b => b <> []) (batches L)) = envelopes_of (appended tr)).
  { destruct (frames_hold Hinv) as [_ Hc]. rewrite Happ, <- Hc. unfold envelopes_of. clear Hc. induction (filter _ (batches L)) as [|b l IH]; [done|].
    rewrite fmap_cons. cbn [concat]. by rewrite IH, fmap_app. }
  destruct (proj2 (check_rows_ok id (envelopes_of (appended tr)) no_lineage)) as [l Hl].
  { split; [apply part_rows|]. by split. }
  rewrite <- Hall in Hl. destruct (cut_ok id _ _ no_lineage l frames_rows_for Hl) as (Hf & Hb & Hs).
  pose proof (scan_of_cut _ id _ l "" (pl_path _ _ Hplaced) Hf) as Hscan. rewrite append_nil, Hb, <- (StreamFile.fo_contents _ _ Hfile) in Hscan.
  eexists. split; [by apply Hscan|]. cbn [source_size_bytes valid_prefix_size_bytes FrameScan.frames]. by rewrite records_envelopes, Hs.
Qed.

Lemma file_positive : appended tr <> [] -> 0 < len file.
Proof.
  intros Hne. pose proof (in_file _ _ _ _ Hinv Hclean) as Hfile. unfold file_written in Hfile. rewrite Hthread in Hfile.
  rewrite (StreamFile.fo_contents _ _ Hfile). destruct (frames_hold Hinv) as [Hf Hc]. destruct Hquiet as [Hfl Hw].
  rewrite (in_appended _ _ _ _ Hinv), Hfl, Hw, !app_nil_r, <- Hc in Hne.
  destruct Hf as [|p b ps bs _ _]; [done|]. unfold StreamFile.frames_of. cbn [fmap list_fmap]. rewrite concat_cons. rewrite StreamFile.len_app.
  pose proof (zc_nonempty (StreamFile.plain_of p)) as Hz. destruct (StreamFile.compress (StreamFile.plain_of p)) as [|c t] eqn:Ez; [done|].
  pose proof (StreamFile.len_nonneg (String.concat "" ((fun p => StreamFile.compress (StreamFile.plain_of p)) <$> ps))).
  unfold len. cbn [String.length]. lia.
Qed.
End File.

(** ** The manifest of a part
    For the file as it is, read by recovery in chunks of any size. *)
Lemma manifest_of_part {A : Type} `{EnvelopeCodecLaws A} `{CompressorLaws} {Hzstd : ZstdLaws}
    (sha256 : string -> string) (id : _SourcePathIdentity) (p0 p : _ActivePart) (tr : list event) (s : PartRun)
    (sm : _PartSummary) (reason : CloseReason) (closed : Z) (chunks : list string) :
  (forall x, config_sha256_ok (sha256 x) = true) -> placed id p0 -> new_part p0 ->
  part_runs p0 tr s -> Z.of_nat (length (appended tr)) <= MAX_INT64 ->
  Forall (fun x => received_at_ns (envelope x.1) / _HOUR_NS = p_received_hour p0 /\ row_for (row_of x) (envelope x.1)) (appended tr) ->
  freeze_summary (part s) = (p, Ok sm) -> p_close_reason p = Some reason -> p_closed_at_ns p = Some closed ->
  String.concat "" chunks = StreamFile.contents (stream_file p) ->
  let file := StreamFile.contents (stream_file p) in
  exists m scan, build_manifest p sm (len file) (sha256 file) = Ok m /\
    _scan_recovery_chunks sha256 chunks (m_data_relative_path m) = Ok scan /\
    row_facts scan = Some (manifest_facts m) /\
    (ss_source_size_bytes scan, ss_valid_prefix_size_bytes scan, source_sha256 scan, m_record_count m)
    = (file_size_bytes m, file_size_bytes m, Manifest.file_sha256 m, Z.of_nat (length (appended tr))) /\
    exists whole_scan, scan_recovery_frames file (m_data_relative_path m) = Ok whole_scan /\
      concat (envelopes <$> FrameScan.frames whole_scan) = envelopes_of (appended tr).
Proof.
  intros Hsha Hpl Hnew Hr Hb Hrec Hf Hreason Hclosed Hchunks. cbv zeta.
  assert (Hcz : forall q, StreamFile.compress q <> "") by apply zc_nonempty.
  destruct (part_runs_inv Hcz _ _ _ Hnew Hr) as [L Hinv].
  destruct (freeze_quiescent Hinv _ _ Hf) as (Hs & Hw & Hfl & Hth & Hp). destruct (measured_valid Hinv) as (HV & Hle & _).
  pose proof (in_accumulator _ _ _ _ Hinv) as Hacc. destruct (summary_exact Hacc HV ltac:(lia) _ Hs) as (Hfr & Hclean & Hlen & Hfz & Hcounts).
  assert (Hne : appended tr <> []) by (intros E; by rewrite E in Hfz).
  destruct (part_scanned Hinv Hpl Hrec (conj Hfl Hw) Hth Hclean) as (scan & Hscan & Hsize & Hprefix & Henv).
  pose proof (file_positive Hinv (conj Hfl Hw) Hth Hclean Hne) as Hpos.
  pose proof (in_fixed _ _ _ _ Hinv) as Hfix. unfold fixed in Hfix. injection Hfix as _ Hdata Hman _ _ Hcr _ Hseed _ _ Hlevel Hmax.
  assert (Hfile : stream_file p = stream_file (part s)) by (by rewrite Hp).
  assert (Hpd : p_data_relative_path p = p_data_relative_path p0) by (by rewrite Hp).
  assert (Hpm : p_manifest_relative_path p = p_manifest_relative_path p0) by (by rewrite Hp).
  assert (Hpc : p_created_at_ns p = p_created_at_ns p0) by (by rewrite Hp).
  assert (Hcl : closed_ok p) by (rewrite Hp; exact (in_closed _ _ _ _ Hinv)). unfold closed_ok in Hcl. rewrite Hreason, Hclosed in Hcl.
  destruct (ac_controls _ _ Hacc) as (_ & _ & Hnd & Hmd).
  pose proof (facts_collected (part_rows Hinv Hpl Hrec) (ac_made _ _ Hacc) _ Hfz) as Hfacts.
  destruct (placed_paths _ _ Hpl) as (scope & Hscope & Hdirs & Hname & Hdok & Hmok).
  exists (manifest_fields p sm reason closed (len (StreamFile.contents (stream_file p))) (sha256 (StreamFile.contents (stream_file p)))),
    (streaming_of sha256 (StreamFile.contents (stream_file p)) scan).
  split_and!.
  - unfold build_manifest. rewrite Hreason, Hclosed.
    apply (normal_manifest (id := id) (es := envelopes_of (appended tr)) Hfacts Hcounts HV) with (scope := scope); rewrite ?Hpd, ?Hpm, ?Hpc; try done.
    + intros E. rewrite E in Hlen. by destruct (appended tr).
    + by eapply settled_durations, Hinv.
    + apply Hcl.
    + apply Hcl.
    + by rewrite Hfile.
    + rewrite Hfile, Hlevel, Hmax. apply Hpl.
    + apply Hpl.
    + apply Hpl.
  - cbn [manifest_fields m_data_relative_path]. rewrite chunked_scan_exact, Hchunks, Hpd, Hfile, Hscan. done.
  - cbn [streaming_of row_facts]. rewrite Henv, Hfz. done.
  - cbn [streaming_of ss_source_size_bytes ss_valid_prefix_size_bytes source_sha256]. rewrite Hsize, Hprefix, Hfile.
    change (m_record_count _) with (rf_record_count (summary_facts sm)).
    rewrite (proj1 (fa_count _ _ _ Hfacts)). unfold envelopes_of. by rewrite length_fmap.
  - exists scan. cbn [manifest_fields m_data_relative_path]. by rewrite Hpd, Hfile.
Qed.

Section Claims.
Context `{StreamFile.Compressor}.

(** The two ways to make a part. *)
Definition allocated (p : _ActivePart) : Prop :=
  (exists r i gid start seq level max slo created fd, allocate r i gid start seq level max slo created fd = Ok p) \/
  (exists current gid path start seq level max slo created fd,
     allocate_empty_replacement current gid path start seq level max slo created fd = Ok p).
Lemma allocated_new p : (forall q, StreamFile.compress q <> "") -> allocated p -> new_part p.
Proof.
  intros Hc [(r & i & gid & start & seq & level & max & slo & created & fd & Ha)|(cur & gid & path & start & seq & level & max & slo & created & fd & Ha)].
  - by eapply allocate_new.
  - unfold allocate_empty_replacement in Ha. apply rbind_ok in Ha as (g & Hg & Ha). unfold _nonempty in Hg. apply raise_if_ok in Hg as [_ [= <-]].
    apply rbind_ok in Ha as (st & Hs & Ha). apply rbind_ok in Ha as (a & Hacc & Hp). by eapply new_part_made.
Qed.

(** C22: Every accepted record is accounted for.  Over any life of a part, whatever the operations
    and the system do and in whichever order, the records it accepted are, in the order of
    their strictly increasing writer sequences, those of the works that were settled, those of
    the one work in flight, and those that wait, which are the claims the part still owns and
    the rows its file still buffers; none is lost, and none is twice in the part.  And what
    the storage thread reports about a work, the part accepts unless it is frozen. *)
Theorem records_accounted (p0 : _ActivePart) (tr : list event) (s : PartRun) :
  (forall q, StreamFile.compress q <> "") -> allocated p0 -> part_runs p0 tr s ->
  (exists settled flight waiting,
    appended tr = concat settled ++ flight ++ waiting /\
    Forall2 (fun co batch => claims co.1 = claim_of <$> batch) (settlements tr) settled /\
    match in_flight_claim (part s) with
    | Ok (Some c) => claims c = claim_of <$> flight
    | Ok None => flight = []
    | Err _ => False
    end /\
    pending_identities (part s) = snd <$> waiting /\ StreamFile._buffer (stream_file (part s)) = row_of <$> waiting) /\
  StronglySorted Z.lt (writer_sequence <$> envelopes_of (appended tr)) /\
  (forall c o, thread s = Some (c, o) -> _frozen (_accumulator (part s)) = false -> (settle c (reported o) (part s)).2 = Ok tt).
Proof.
  intros Hc Ha Hr. destruct (part_runs_inv Hc _ _ _ (allocated_new _ Hc Ha) Hr) as [L Hinv]. split; [|split; [apply Hinv|]].
  - exists (batches L), (flight L), (waiting L). destruct (in_claims _ _ _ _ Hinv) as [C1 C2 C3 C4]. split_and!; try done.
    + apply Hinv.
    + eapply Forall2_impl; [exact (in_settled _ _ _ _ Hinv)|]. by intros co b (Hb & _).
    + unfold in_flight_claim. assert (Hcase : _claimed (part s) = ∅ /\ flight L = [] \/ exists c, _claimed (part s) = {[claim_id c := c]} /\ claims c = claim_of <$> flight L).
      { destruct (thread s) as [[c o]|]; [right; exists c; by destruct C4 as (? & ? & _)|].
        destruct C4 as [?|(c & ? & ? & _)]; [by left|right; by exists c]. }
      destruct Hcase as [[-> Hf]|(c & -> & Hcl)]; [by rewrite map_to_list_empty|].
      rewrite map_size_singleton, map_to_list_singleton. done.
    + unfold pending_identities. rewrite C1, <- list_fmap_compose. done.
  - intros c o Hth Hfr. pose proof (cl_claimed _ _ (in_claims _ _ _ _ Hinv)) as C4. rewrite Hth in C4.
    destruct C4 as (Hmap & Hcl & Hwork & _). destruct o as [r|reason]; cbn [reported].
    + by destruct (settle_completes Hinv c r Hth Hfr) as (a & -> & _).
    + exact (f_equal snd (proj1 (settle_fails Hinv c (inl {| Durability.reason := reason |}) Hmap Hcl Hwork))).
Qed.

(** C23: A part can be frozen exactly when nothing is missing.  At any point of the life of a
    part of less than 2^63 records, [freeze_summary] succeeds if and only if the part is not
    frozen yet, owns no claim, neither waiting nor in flight, has accepted a record, and no
    sync of it ever failed; then its summary states the exact count, lag quantiles, durations,
    breaches and control records of the run, and it is frozen, so that no record, no
    completion and no control record is accepted any more. *)
Theorem freeze_exact (p0 : _ActivePart) (tr : list event) (s : PartRun) :
  (forall q, StreamFile.compress q <> "") -> allocated p0 -> part_runs p0 tr s -> Z.of_nat (length (appended tr)) <= MAX_INT64 ->
  (is_ok (freeze_summary (part s)).2 = true <->
   _frozen (_accumulator (part s)) = false /\ _pending_claims (part s) = [] /\ _claimed (part s) = ∅ /\ appended tr <> [] /\ failures tr = []) /\
  forall p sm, freeze_summary (part s) = (p, Ok sm) ->
    summary_counts (_durability_slo_ns (_accumulator p0)) tr sm /\ ps_record_count sm = Z.of_nat (length (appended tr)) /\
    (forall r i, is_ok (append_accepted r i p).2 = false) /\ (forall r i, is_ok (seal_oversized r i p).2 = false) /\
    (forall a, is_ok (fold_durable_control a p).2 = false) /\ (forall c r, is_ok (apply_completion c r p).2 = false) /\
    is_ok (freeze_summary p).2 = false.
Proof.
  intros Hc Ha Hr Hb. destruct (part_runs_inv Hc _ _ _ (allocated_new _ Hc Ha) Hr) as [L Hinv]. split; [by eapply freeze_ready|].
  intros p sm Hf. destruct (freeze_quiescent Hinv _ _ Hf) as (Hs & _ & _ & _ & Hp). destruct (measured_valid Hinv) as (HV & Hle & _).
  pose proof (in_accumulator _ _ _ _ Hinv) as Hacc. destruct (summary_exact Hacc HV ltac:(lia) _ Hs) as (_ & _ & Hlen & _ & Hcounts).
  assert (Hslo : _durability_slo_ns (_accumulator (part s)) = _durability_slo_ns (_accumulator p0)).
  { pose proof (in_fixed _ _ _ _ Hinv) as Hfix. unfold fixed in Hfix. by injection Hfix. }
  rewrite Hslo in Hcounts. assert (Hfr : _frozen (_accumulator p) = true) by (by rewrite Hp). clear Hp. split_and!; try done.
  - unfold summary in Hs. cbv zeta in Hs. do 2 apply raise_if_ok in Hs as [_ Hs]. apply rbind_ok in Hs as (d & Hd & Hs).
    do 2 apply raise_if_ok in Hs as [_ Hs]. do 8 (apply rbind_ok in Hs as (? & _ & Hs)). injection Hs as <-. cbn.
    rewrite (mi_count _ _ (ac_rows _ _ Hacc)). unfold envelopes_of. by rewrite length_fmap.
  - intros r i. unfold append_accepted. case_bool_decide; [done|]. unfold validate_record. by rewrite Hfr.
  - intros r i. unfold seal_oversized. cbv zeta. unfold validate_record. rewrite Hfr. unfold raise_if. by repeat case_match; simplify_eq.
  - intros a. unfold fold_durable_control, on_accumulator, acc_fold_control, acc_validate_control. by rewrite Hfr.
  - intros c r. unfold apply_completion. destruct (_require_owned_claim _ _); [|done]. destruct (negb _); [done|].
    unfold mbind, on_accumulator, acc_completion, check_completion. by rewrite Hfr.
  - unfold freeze_summary. destruct (negb (nil _) || _); [done|]. unfold on_accumulator, acc_freeze, summary. cbv zeta. by rewrite Hfr.
Qed.
End Claims.
