(* ===== verification/ActivePartSamples.v ===== *)
(** A part of two records: the second arrives while the first is being written.  Both are
    synced, the part is retired and frozen. *)
From S2P Require Import Prelude PyDecimal Domain StorageModels PyText CatalogJson PyTime PartPath EnvelopeJson Manifest FrameScan.
From S2P Require Import ScanFacts RecoveryScan CrashRecovery.
From S2P Require Import Durability DurabilityFacts.
From S2P Require StreamFile.
From S2P Require Concrete.
From S2P Require Import ActivePart ActivePartRuns ActivePartInv ActivePartFreeze ActiveParts.

#[local] Existing Instances LineSamples.codec LineSamples.encoders LineSamples.laws.
#[local] Existing Instances CrashSamples.zstd CrashSamples.compressor CrashSamples.zstd_laws CrashSamples.compressor_laws.

(** ** Running a part *)
Section Drive.
Context `{StreamFile.Compressor}.
Definition after_op (o : part_op) (s : PartRun) : PartRun := {| part := (exec o (part s)).1; thread := thread s |}.
Definition after_persist (c : _ClaimedSealedWork) (env : ThreadEnv) (s : PartRun) : PartRun :=
  match _persist_blocking true env (work c) (stream_file (part s)) with
  | (f, StreamFile.Returns r) => {| part := set_file f (part s); thread := Some (c, _await_blocking_outcome (Some r)) |}
  | (_, StreamFile.Dies) => s
  end.
Definition after_settle (c : _ClaimedSealedWork) (o : Persisted) (s : PartRun) : PartRun :=
  {| part := (settle c (reported o) (part s)).1; thread := None |}.

Lemma run_op p0 tr s o : part_runs p0 tr s -> op_made o -> is_ok (exec o (part s)).2 = true -> part_runs p0 (tr ++ event_of o) (after_op o s).
Proof.
  intros Hr Hm Ho. pose proof (part_operation tr s o (exec o (part s)).1 (exec o (part s)).2 Hm (surjective_pairing _)) as Hs.
  rewrite Ho in Hs. by eapply part_more.
Qed.
Lemma run_persist p0 tr s c env : part_runs p0 tr s -> thread s = None -> in_flight_claim (part s) = Ok (Some c) ->
  part_runs p0 tr (after_persist c env s).
Proof.
  intros Hr Ht Hc. unfold after_persist. destruct (_persist_blocking _ _ _ _) as [f [r|]] eqn:Ep; [|done].
  eapply part_more; [exact Hr|by eapply part_persist].
Qed.
Lemma run_settle p0 tr s c o : part_runs p0 tr s -> thread s = Some (c, o) -> is_ok (settle c (reported o) (part s)).2 = true ->
  part_runs p0 (tr ++ [Settled c (reported o)]) (after_settle c o s).
Proof.
  intros Hr Ht Ho. pose proof (part_settle tr s c o _ _ Ht (surjective_pairing _)) as Hs. rewrite Ho in Hs.
  by eapply part_more.
Qed.
End Drive.

(** ** The records *)
Definition line (e : RawEnvelope) : string := encode_json (wire e) +:+ newline.
Definition record (n : Z) : AcceptedRecord := {| envelope := CrashSamples.trade n; encoded_jsonl := line (CrashSamples.trade n) |}.
Definition identity (n : Z) : AcceptedRecordIdentityV1 := {|
  i_exchange := BINANCE; i_market := Some SPOT; i_instrument_key := Some "BTC/USDT"; i_logical_stream := "trade";
  i_worker_instance_id := "w"; i_writer_sequence := n; acceptance_ordinal := n;
  i_config_sha256 := config_sha256 (CrashSamples.trade n); i_config_generation := 1 |}.
Definition association : StorageControlAssociationV1 := {|
  a_control_kind := "gap_detected"; a_control_event_id := "gap-1";
  a_targets := [{| StorageModels.generation_id := "g"; StorageModels.data_relative_path := PartSamples.trade_path |}];
  a_acceptance_ordinal := 4; a_config_generation := 1 |}.
Definition env (from to : Z) : ThreadEnv := {|
  clock_before := from; responses := [StreamFile.Wrote 10; StreamFile.Interrupted; StreamFile.Wrote 100000]; sync := Ok tt;
  after_data_sync := Ok tt; clock_after := to |}.

(** ** The run *)
Definition made : result _ActivePart :=
  allocate (record 3) (identity 3) "g" 1709208000000000000 4 3 100000 40 None 5.
Definition dummy : _ActivePart := {|
  stream_file := CrashSamples.file0; partial_path := ""; p_data_relative_path := ""; p_manifest_relative_path := ""; part_start_ns := 0;
  part_sequence := 0; p_created_at_ns := 0; p_received_hour := 0;
  _accumulator := {| _seed := seed_of (CrashSamples.trade 3) 1; _durability_slo_ns := 1; a_rows := no_rows; a_syncs := no_syncs;
    a_controls := no_controls; _frozen := false |};
  _pending_claims := []; _claimed := ∅; _batch_task_by_claim_id := ∅; _next_claim_id := 0; p_close_reason := None; p_closed_at_ns := None |}.
Definition p0 : _ActivePart := match made with Ok p => p | Err _ => dummy end.
Lemma p0_made : made = Ok p0.
Proof. vm_compute. reflexivity. Qed.

Definition s1 : PartRun := after_op (Append (record 3) (identity 3)) {| part := p0; thread := None |}.
Definition s2 : PartRun := after_op (Seal false) s1.
Definition c1 : _ClaimedSealedWork := default {| claim_id := 0; work := {| StreamFile.generation_id := ""; StreamFile.pending := None; StreamFile.force_sync := true |}; claims := [] |}
  (_claimed (part s2) !! 0).
Definition s3 : PartRun := after_persist c1 (env 10 57) s2.
Definition s4 : PartRun := after_op (Append (record 4) (identity 4)) s3.
Definition report1 : Persisted := inl (expected_result true (work c1) 10 57).
Definition s5 : PartRun := after_settle c1 report1 s4.
Definition s6 : PartRun := after_op (Seal false) s5.
Definition c2 : _ClaimedSealedWork := default c1 (_claimed (part s6) !! 1).
Definition s7 : PartRun := after_persist c2 (env 60 61) s6.
Definition report2 : Persisted := inl (expected_result true (work c2) 60 61).
Definition s8 : PartRun := after_settle c2 report2 s7.
Definition s9 : PartRun := after_op (Fold association) s8.
Definition s10 : PartRun := after_op (Retire Domain.SHUTDOWN 9) s9.

Lemma p0_allocated : allocated p0.
Proof. left. exists (record 3), (identity 3), "g", 1709208000000000000, 4, 3, 100000, 40, None, 5. exact p0_made. Qed.

Lemma trade_made n : envelope_validate (CrashSamples.trade n) = Ok (CrashSamples.trade n) -> envelope_made (CrashSamples.trade n).
Proof. intros Hv. by split. Qed.
Lemma trade3_made : envelope_made (CrashSamples.trade 3).
Proof. apply trade_made. vm_compute. reflexivity. Qed.
Lemma trade4_made : envelope_made (CrashSamples.trade 4).
Proof. apply trade_made. vm_compute. reflexivity. Qed.

Definition tr1 : list event := [Appended (record 3, identity 3)].
Definition tr2 : list event := tr1 ++ [Appended (record 4, identity 4)] ++ [Settled c1 (reported report1)].
Definition tr3 : list event := tr2 ++ [Settled c2 (reported report2)] ++ [Folded association].


Lemma s1_ok : is_ok (exec (Append (record 3) (identity 3)) p0).2 = true.
Proof. vm_compute. reflexivity. Qed.
Lemma s1_runs : part_runs p0 tr1 s1.
Proof. exact (run_op p0 [] {| part := p0; thread := None |} (Append (record 3) (identity 3)) (part_start p0) trade3_made s1_ok). Qed.
Lemma s2_ok : is_ok (exec (Seal false) (part s1)).2 = true.
Proof. vm_compute. reflexivity. Qed.
Lemma s2_runs : part_runs p0 tr1 s2.
Proof. pose proof (run_op p0 tr1 s1 (Seal false) s1_runs Logic.I s2_ok) as Hr. rewrite app_nil_r in Hr. exact Hr. Qed.

Lemma s2_claim : in_flight_claim (part s2) = Ok (Some c1).
Proof. vm_compute. reflexivity. Qed.
Lemma s3_runs : part_runs p0 tr1 s3.
Proof. exact (run_persist p0 tr1 s2 c1 (env 10 57) s2_runs eq_refl s2_claim). Qed.
Lemma s4_ok : is_ok (exec (Append (record 4) (identity 4)) (part s3)).2 = true.
Proof. vm_compute. reflexivity. Qed.
Lemma s4_runs : part_runs p0 (tr1 ++ [Appended (record 4, identity 4)]) s4.
Proof. exact (run_op p0 tr1 s3 (Append (record 4) (identity 4)) s3_runs trade4_made s4_ok). Qed.
Lemma s4_thread : thread s4 = Some (c1, report1).
Proof. vm_compute. reflexivity. Qed.
Lemma s5_ok : is_ok (settle c1 (reported report1) (part s4)).2 = true.
Proof. vm_compute. reflexivity. Qed.
Lemma s5_runs : part_runs p0 tr2 s5.
Proof. unfold tr2. rewrite app_assoc. exact (run_settle p0 _ s4 c1 report1 s4_runs s4_thread s5_ok). Qed.

(** The second record. *)
Lemma s6_ok : is_ok (exec (Seal false) (part s5)).2 = true.
Proof. vm_compute. reflexivity. Qed.
Lemma s6_runs : part_runs p0 tr2 s6.
Proof. pose proof (run_op p0 tr2 s5 (Seal false) s5_runs Logic.I s6_ok) as Hr. rewrite app_nil_r in Hr. exact Hr. Qed.
Lemma s6_claim : in_flight_claim (part s6) = Ok (Some c2).
Proof. vm_compute. reflexivity. Qed.
Lemma s6_thread : thread s6 = None.
Proof. vm_compute. reflexivity. Qed.
Lemma s7_runs : part_runs p0 tr2 s7.
Proof. exact (run_persist p0 tr2 s6 c2 (env 60 61) s6_runs s6_thread s6_claim). Qed.
Lemma s7_thread : thread s7 = Some (c2, report2).
Proof. vm_compute. reflexivity. Qed.
Lemma s8_ok : is_ok (settle c2 (reported report2) (part s7)).2 = true.
Proof. vm_compute. reflexivity. Qed.
Lemma s8_runs : part_runs p0 (tr2 ++ [Settled c2 (reported report2)]) s8.
Proof. exact (run_settle p0 _ s7 c2 report2 s7_runs s7_thread s8_ok). Qed.

(** A control record, and the end. *)
Lemma s9_ok : is_ok (exec (Fold association) (part s8)).2 = true.
Proof. vm_compute. reflexivity. Qed.
Lemma association_made : op_made (Fold association).
Proof. vm_compute. reflexivity. Qed.
Lemma s9_runs : part_runs p0 tr3 s9.
Proof. unfold tr3. rewrite app_assoc. exact (run_op p0 _ s8 (Fold association) s8_runs association_made s9_ok). Qed.
Lemma s10_ok : is_ok (exec (Retire Domain.SHUTDOWN 9) (part s9)).2 = true.
Proof. vm_compute. reflexivity. Qed.
Lemma s10_runs : part_runs p0 tr3 s10.
Proof. pose proof (run_op p0 tr3 s9 (Retire Domain.SHUTDOWN 9) s9_runs Logic.I s10_ok) as Hr. rewrite app_nil_r in Hr. exact Hr. Qed.

Lemma appended3 : appended tr3 = [(record 3, identity 3); (record 4, identity 4)].
Proof. reflexivity. Qed.
Lemma escape_nonempty q : StreamFile.compress q <> "".
Proof. apply zc_nonempty. Qed.

(** ** Witnesses *)
(** While the first record is written the second waits. *)
Lemma records_accounted_witness :
  exists settled flight waiting, appended (tr1 ++ [Appended (record 4, identity 4)]) = concat settled ++ flight ++ waiting /\
    pending_identities (part s4) = [identity 4] /\ snd <$> waiting = [identity 4].
Proof.
  destruct (records_accounted p0 _ s4 escape_nonempty p0_allocated s4_runs) as [(settled & flight & waiting & H1 & _ & _ & H2 & _) _].
  exists settled, flight, waiting. split; [exact H1|]. assert (E : pending_identities (part s4) = [identity 4]) by (vm_compute; reflexivity).
  split; [exact E|]. rewrite <- H2. exact E.
Defined.

Definition froze : _ActivePart * result _PartSummary := freeze_summary (part s10).
Lemma froze_ok : match froze.2 with Ok sm => (ps_record_count sm, ps_sync_count sm, ps_slo_breach_count sm, ps_gap_count sm) = (2, 2, 2, 1) | Err _ => False end.
Proof. vm_compute. reflexivity. Qed.
Lemma freeze_exact_witness :
  is_ok (freeze_summary (part s4)).2 = false /\ is_ok (freeze_summary (part s10)).2 = true /\
  _pending_claims (part s10) = [] /\ appended tr3 <> [].
Proof.
  destruct (freeze_exact p0 _ s10 escape_nonempty p0_allocated s10_runs) as [H _]; [rewrite appended3; cbn; unfold MAX_INT64; lia|].
  split; [vm_compute; reflexivity|]. assert (E : is_ok (freeze_summary (part s10)).2 = true) by (vm_compute; reflexivity).
  split; [exact E|]. apply H in E as (_ & Hp & _ & Hne & _). split; [exact Hp|exact Hne].
Defined.

Lemma ok_value {X A} (m : X * result A) : is_ok m.2 = true -> exists a, m = (m.1, Ok a).
Proof. destruct m as [x [a|e]]; [by exists a|done]. Qed.
