(* ===== verification/PartSet.v ===== *)
(** [_ActivePartSet] of [storage/raw_writer.py]: the part that is active for each logical
    stream, the reservations of parts that are being made, and every way a part is replaced.
    A part is an object that plans and callers share: the set keeps a heap of parts, and a
    reference is a position in it. *)
From S2P Require Import Prelude PyDecimal Domain StorageModels PyText PartPath Durability.
From S2P Require StreamFile.
From S2P Require Manifest.
From S2P Require Import ActivePart.
#[local] Existing Instance Manifest.close_reason_eq_dec.

(** ** Dictionaries, in the order of insertion *)
Section Dict.
Context {K V : Type} `{EqDecision K}.
Definition dict_get (k : K) (d : list (K * V)) : option V := snd <$> find (fun kv => bool_decide (kv.1 = k)) d.
Definition dict_set (k : K) (v : V) (d : list (K * V)) : list (K * V) :=
  if bool_decide (k ∈ d.*1) then (fun kv => if bool_decide (kv.1 = k) then (k, v) else kv) <$> d else d ++ [(k, v)].
Definition dict_del (k : K) (d : list (K * V)) : list (K * V) := filter (fun kv => kv.1 <> k) d.
End Dict.

Definition _LogicalPartKey : Type := (option Market * option string * string)%type.
Definition ref : Type := nat.

Record _ActivePartReservation : Type := {
  key : _LogicalPartKey; v_generation_id : string; v_part_start_ns : Z; v_part_sequence : Z; v_partial_path : string;
  v_data_relative_path : string; v_created_at_ns : Z
}.
#[export] Instance market_eq_dec : EqDecision Market.
Proof. solve_decision. Defined.
#[export] Instance reservation_eq_dec : EqDecision _ActivePartReservation.
Proof. solve_decision. Defined.
Definition v_received_hour (v : _ActivePartReservation) : Z := v_part_start_ns v / _HOUR_NS.

(** [_ActivePart | _ActivePartReservation].  Reservations are compared by value: their
    sequences are never given twice. *)
Inductive _ActivePartEntry : Type := Part (r : ref) | Reservation (v : _ActivePartReservation).
#[export] Instance entry_eq_dec : EqDecision _ActivePartEntry.
Proof. solve_decision. Defined.

Record _ActivePartRotation : Type := {
  current : ref; reservation : _ActivePartReservation; reason : CloseReason; closed_at_ns : Z; seal_acceptance_ordinal : Z
}.
Definition rotation_init (current : ref) (reservation : _ActivePartReservation) (reason : CloseReason)
    (closed_at_ns seal_acceptance_ordinal : Z) : result _ActivePartRotation :=
  let! _ := _nonnegative seal_acceptance_ordinal "seal_acceptance_ordinal" in
  Ok {| PartSet.current := current; PartSet.reservation := reservation; PartSet.reason := reason;
        PartSet.closed_at_ns := closed_at_ns; PartSet.seal_acceptance_ordinal := seal_acceptance_ordinal |}.

(** [uuids] counts the identifiers drawn from [uuid4]. *)
Record _ActivePartSet : Type := {
  _exchange : Exchange; _config_sha256 : string; _config_generation : Z; _zstd_level : Z; _max_plain_frame_bytes : Z;
  _max_compressed_size_bytes : Z; _rotate_interval_ns : Z; _durability_slo_ns : Z;
  _active : list (_LogicalPartKey * _ActivePartEntry); _next_part_sequence : Z; heap : list _ActivePart; uuids : nat
}.
Definition new_set (exchange : Exchange) (config_sha256 : string) (config_generation zstd_level max_plain_frame_bytes
    max_compressed_size_bytes rotate_interval_ns durability_slo_ns initial_part_sequence : Z) : result _ActivePartSet :=
  let! sha := _sha256 config_sha256 "config_sha256" in
  let! generation := _nonnegative config_generation "config_generation" in
  let! level := _nonnegative zstd_level "zstd_level" in
  let! plain := _nonnegative max_plain_frame_bytes "max_plain_frame_bytes" in
  let! compressed := _nonnegative max_compressed_size_bytes "max_compressed_size_bytes" in
  let! interval := _nonnegative rotate_interval_ns "rotate_interval_ns" in
  let! slo := _nonnegative durability_slo_ns "durability_slo_ns" in
  raise ValueError "raw part limits must be positive" when existsb (Z.eqb 0) [level; plain; compressed; interval; slo];;
  let! sequence := _nonnegative initial_part_sequence "initial_part_sequence" in
  Ok {| _exchange := exchange; _config_sha256 := sha; _config_generation := generation; _zstd_level := level;
        _max_plain_frame_bytes := plain; _max_compressed_size_bytes := compressed; _rotate_interval_ns := interval;
        PartSet._durability_slo_ns := slo; _active := []; _next_part_sequence := sequence; heap := []; uuids := 0 |}.

Definition set_active (d : list (_LogicalPartKey * _ActivePartEntry)) (s : _ActivePartSet) : _ActivePartSet := {|
  _exchange := _exchange s; _config_sha256 := _config_sha256 s; _config_generation := _config_generation s;
  _zstd_level := _zstd_level s; _max_plain_frame_bytes := _max_plain_frame_bytes s;
  _max_compressed_size_bytes := _max_compressed_size_bytes s; _rotate_interval_ns := _rotate_interval_ns s;
  PartSet._durability_slo_ns := _durability_slo_ns s; _active := d; _next_part_sequence := _next_part_sequence s;
  heap := heap s; uuids := uuids s |}.
Definition set_heap (h : list _ActivePart) (s : _ActivePartSet) : _ActivePartSet := {|
  _exchange := _exchange s; _config_sha256 := _config_sha256 s; _config_generation := _config_generation s;
  _zstd_level := _zstd_level s; _max_plain_frame_bytes := _max_plain_frame_bytes s;
  _max_compressed_size_bytes := _max_compressed_size_bytes s; _rotate_interval_ns := _rotate_interval_ns s;
  PartSet._durability_slo_ns := _durability_slo_ns s; _active := _active s; _next_part_sequence := _next_part_sequence s;
  heap := h; uuids := uuids s |}.
(** The next sequence and identifier. *)
Definition draw (s : _ActivePartSet) : _ActivePartSet := {|
  _exchange := _exchange s; _config_sha256 := _config_sha256 s; _config_generation := _config_generation s;
  _zstd_level := _zstd_level s; _max_plain_frame_bytes := _max_plain_frame_bytes s;
  _max_compressed_size_bytes := _max_compressed_size_bytes s; _rotate_interval_ns := _rotate_interval_ns s;
  PartSet._durability_slo_ns := _durability_slo_ns s; _active := _active s; _next_part_sequence := _next_part_sequence s + 1;
  heap := heap s; uuids := S (uuids s) |}.
Definition set_config (sha : string) (generation : Z) (s : _ActivePartSet) : _ActivePartSet := {|
  _exchange := _exchange s; _config_sha256 := sha; _config_generation := generation; _zstd_level := _zstd_level s;
  _max_plain_frame_bytes := _max_plain_frame_bytes s; _max_compressed_size_bytes := _max_compressed_size_bytes s;
  _rotate_interval_ns := _rotate_interval_ns s; PartSet._durability_slo_ns := _durability_slo_ns s; _active := _active s;
  _next_part_sequence := _next_part_sequence s; heap := heap s; uuids := uuids s |}.

(** ** Parts of the heap *)
Definition NO_PART : exn := AssertionError "no such part".
Definition part_at (s : _ActivePartSet) (r : ref) : result _ActivePart := match heap s !! r with Some p => Ok p | None => Err NO_PART end.
(** Running an operation of a part. *)
Definition on_part {A} (r : ref) (m : M _ActivePart A) : M _ActivePartSet A := fun s =>
  match heap s !! r with
  | Some p => let '(p, x) := m p in (set_heap (<[r := p]> (heap s)) s, x)
  | None => (s, Err NO_PART)
  end.
(** A new object, if making it succeeded. *)
Definition keep_part (p : result _ActivePart) : M _ActivePartSet ref := fun s =>
  match p with Ok p => (set_heap (heap s ++ [p]) s, Ok (length (heap s))) | Err e => (s, Err e) end.
(** [opened] is the outcome of making the file exclusively, the descriptor if it succeeds.  An
    error of the arguments comes first. *)
Definition opening (opened : result Z) (make : Z -> result _ActivePart) : result _ActivePart :=
  match opened with Ok fd => make fd | Err e => let! _ := make 0 in Err e end.
Fixpoint each {A} (f : A -> M _ActivePartSet unit) (l : list A) : M _ActivePartSet unit :=
  match l with [] => mret tt | a :: l => do! _ := f a in each f l end.
(** A check of the state; it changes nothing. *)
Definition checking {A} (f : _ActivePartSet -> result A) : M _ActivePartSet A := fun s => (s, f s).
Definition check (b : bool) (message : string) : M _ActivePartSet unit :=
  mlift (raise ValueError message when b;; Ok tt).
Definition assign (k : _LogicalPartKey) (e : _ActivePartEntry) : M _ActivePartSet unit := fun s =>
  (set_active (dict_set k e (_active s)) s, Ok tt).
Definition entry_is (s : _ActivePartSet) (k : _LogicalPartKey) (e : _ActivePartEntry) : bool :=
  bool_decide (dict_get k (_active s) = Some e).
Definition path_of (s : _ActivePartSet) (r : ref) : string := default "" (p_data_relative_path <$> heap s !! r).
Definition by_path (s : _ActivePartSet) (l : list ref) : list ref := py_sorted (on_key (path_of s) string_leb) l.

(** [await run_storage(...)]: the task resumes with what the thread returned, or it is
    cancelled, before the thread runs or while it does; the thread is not interrupted. *)
Inductive Awaited : Type := Resumed | CancelledBefore | CancelledAfter.
Definition run_storage {A} (awaited : Awaited) (m : M _ActivePartSet A) : M _ActivePartSet A := fun s =>
  match awaited with
  | Resumed => m s
  | CancelledBefore => (s, Err asyncio_CancelledError)
  | CancelledAfter => ((m s).1, Err asyncio_CancelledError)
  end.

(** ** [_ActivePartSet] *)
Section Set_.
Context (uuid4 : nat -> string).

Definition _key (e : RawEnvelope) : _LogicalPartKey := (market (base e), instrument_key (base e), logical_stream (base e)).

Definition reserve_part (record : AcceptedRecord) : M _ActivePartSet _ActivePartReservation := fun s =>
  let e := envelope record in
  if negb (bool_decide (exchange (base e) = _exchange s)) then (s, Err (ValueError "record exchange does not match active part set"))
  else
    let sequence := _next_part_sequence s in
    let part_start_ns := received_at_ns e / _HOUR_NS * _HOUR_NS in
    (draw s,
     let! partial_path := raw_partial_path e part_start_ns sequence in
     Ok {| key := _key e; v_generation_id := uuid4 (uuids s); v_part_start_ns := part_start_ns; v_part_sequence := sequence;
           v_partial_path := partial_path; v_data_relative_path := removesuffix ".partial" partial_path;
           v_created_at_ns := received_at_ns e |}).

Definition begin_initial_reservation (record : AcceptedRecord) : M _ActivePartSet _ActivePartReservation := fun s =>
  let k := _key (envelope record) in
  (do! _ := check (bool_decide (is_Some (dict_get k (_active s)))) "logical identity already has an active raw part" in
   do! reservation := reserve_part record in
   do! _ := assign k (Reservation reservation) in mret reservation) s.

Definition matches_reservation (v : _ActivePartReservation) (p : _ActivePart) : bool :=
  String.eqb (generation_id p) (v_generation_id v) && String.eqb (partial_path p) (v_partial_path v).

Definition check_materialized (m : _ActivePartReservation * ref) : M _ActivePartSet unit := fun s =>
  let '(v, r) := m in
  (do! _ := check (negb (entry_is s (key v) (Reservation v))) "initial reservation is no longer logical-active" in
   do! p := checking (fun s => part_at s r) in
   check (negb (matches_reservation v p) || negb (p_received_hour p =? v_received_hour v) || negb (p_record_count p =? 0))
     "materialized part does not match its reservation") s.
Definition commit_reserved_batch (materialized : list (_ActivePartReservation * ref)) : M _ActivePartSet unit :=
  do! _ := check (bool_decide (materialized = [])) "materialized reservation batch must be nonempty" in
  do! _ := each check_materialized materialized in
  do! _ := check (negb (bool_decide (NoDup ((fun m => key m.1) <$> materialized)))) "materialized reservation batch has duplicate identities" in
  each (fun m => assign (key m.1) (Part m.2)) materialized.

Definition rollback_reserved_batch (reservations : list _ActivePartReservation) : M _ActivePartSet unit :=
  do! _ := check (bool_decide (reservations = [])) "reservation rollback batch must be nonempty" in
  do! _ := each (fun v s => check (negb (entry_is s (key v) (Reservation v))) "initial reservation is no longer logical-active" s) reservations in
  do! _ := check (negb (bool_decide (NoDup (key <$> reservations)))) "reservation rollback batch has duplicate identities" in
  each (fun v s => (set_active (dict_del (key v) (_active s)) s, Ok tt)) reservations.

Definition _reserve_replacement (k : _LogicalPartKey) (p : _ActivePart) (created_at_ns : Z)
    : M _ActivePartSet _ActivePartReservation := fun s =>
  let sequence := _next_part_sequence s in
  let partial_path := with_name (partial_path p) (part_filename (part_start_ns p) sequence +:+ ".partial") in
  (draw s,
   let! created := _nonnegative created_at_ns "created_at_ns" in
   Ok {| key := k; v_generation_id := uuid4 (uuids s); v_part_start_ns := part_start_ns p; v_part_sequence := sequence;
         v_partial_path := partial_path; v_data_relative_path := removesuffix ".partial" partial_path; v_created_at_ns := created |}).

(** Why a part is due, if it is. *)
Definition due_reason (s : _ActivePartSet) (now : Z) (p : _ActivePart) : option CloseReason :=
  if _max_compressed_size_bytes s <=? StreamFile.compressed_size (stream_file p) then Some ROTATE_SIZE
  else if _rotate_interval_ns s <=? now - p_created_at_ns p then Some ROTATE_TIME
  else None.
Definition plan_entry (now seal_ordinal : Z) (ke : _LogicalPartKey * _ActivePartEntry) : M _ActivePartSet (list _ActivePartRotation) := fun s =>
  match ke.2 with
  | Reservation _ => (s, Ok [])
  | Part r =>
      match heap s !! r with
      | None => (s, Err NO_PART)
      | Some p =>
          if p_record_count p =? 0 then (s, Ok [])
          else match due_reason s now p with
          | None => (s, Ok [])
          | Some reason =>
              (do! _ := mlift (validate_retirement reason now p) in
               do! reservation := _reserve_replacement ke.1 p now in
               mlift (let! plan := rotation_init r reservation reason now seal_ordinal in Ok [plan])) s
          end
      end
  end.
Fixpoint plan_entries (now seal_ordinal : Z) (l : list (_LogicalPartKey * _ActivePartEntry)) : M _ActivePartSet (list _ActivePartRotation) :=
  match l with
  | [] => mret []
  | ke :: l => do! plan := plan_entry now seal_ordinal ke in do! plans := plan_entries now seal_ordinal l in mret (plan ++ plans)
  end.
Definition plan_due_rotations (now_ns seal_acceptance_ordinal : Z) : M _ActivePartSet (list _ActivePartRotation) :=
  do! now := mlift (_nonnegative now_ns "now_ns") in
  do! seal_ordinal := mlift (_nonnegative seal_acceptance_ordinal "seal_acceptance_ordinal") in
  do! entries := checking (fun s => Ok (_active s)) in
  do! plans := plan_entries now seal_ordinal entries in
  checking (fun s => Ok (py_sorted (on_key (fun plan => path_of s (current plan)) string_leb) plans)).

Definition check_rotation (plan : _ActivePartRotation) : M _ActivePartSet unit := fun s =>
  (do! _ := check (negb (entry_is s (key (reservation plan)) (Part (current plan)))) "rotation current part is no longer logical-active" in
   do! p := checking (fun s => part_at s (current plan)) in
   do! _ := mlift (validate_retirement (reason plan) (closed_at_ns plan) p) in mret tt) s.
Definition begin_rotations (plans : list _ActivePartRotation) : M _ActivePartSet unit :=
  do! _ := check (negb (bool_decide (NoDup ((fun plan => key (reservation plan)) <$> plans)))) "rotation plans must have unique logical identities" in
  do! _ := each check_rotation plans in
  each (fun plan => do! _ := on_part (current plan) (retire (reason plan) (closed_at_ns plan)) in
                    assign (key (reservation plan)) (Reservation (reservation plan))) plans.

Definition materialize_rotation (plan : _ActivePartRotation) (opened : result Z) : M _ActivePartSet ref :=
  do! p := checking (fun s => part_at s (current plan)) in
  fun s => keep_part (opening opened (allocate_empty_replacement p (v_generation_id (reservation plan)) (v_partial_path (reservation plan))
    (v_part_start_ns (reservation plan)) (v_part_sequence (reservation plan)) (_zstd_level s) (_max_plain_frame_bytes s)
    (_durability_slo_ns s) (v_created_at_ns (reservation plan)))) s.

Definition check_committed (m : _ActivePartRotation * ref) : M _ActivePartSet unit := fun s =>
  let '(plan, r) := m in
  (do! _ := check (negb (entry_is s (key (reservation plan)) (Reservation (reservation plan)))) "rotation reservation is no longer logical-active" in
   do! p := checking (fun s => part_at s r) in
   do! c := checking (fun s => part_at s (current plan)) in
   do! _ := check (negb (matches_reservation (reservation plan) p) || negb (p_record_count p =? 0) || negb (p_received_hour p =? p_received_hour c))
     "rotation replacement does not match its plan" in
   do! _ := mlift (validate_retirement (reason plan) (closed_at_ns plan) c) in mret tt) s.
Definition replaced (why : CloseReason) (materialized : list (_ActivePartRotation * ref)) : list ref :=
  (fun m => current m.1) <$> filter (fun m => reason m.1 = why) materialized.
Definition commit_rotations (materialized : list (_ActivePartRotation * ref)) : M _ActivePartSet (list ref * list ref) :=
  do! _ := each check_committed materialized in
  do! _ := each (fun m => assign (key (reservation m.1)) (Part m.2)) materialized in
  mret (replaced ROTATE_SIZE materialized, replaced ROTATE_TIME materialized).

Definition _validate_current_config (record : AcceptedRecord) (identity : AcceptedRecordIdentityV1) (s : _ActivePartSet) : result unit :=
  raise ValueError "record exchange does not match active part set" when negb (bool_decide (exchange (base (envelope record)) = _exchange s));;
  raise ValueError "record config does not match active part set"
    when negb (String.eqb (config_sha256 (envelope record)) (_config_sha256 s)) || negb (String.eqb (i_config_sha256 identity) (_config_sha256 s))
         || negb (i_config_generation identity =? _config_generation s);;
  Ok tt.

Definition materialize_reserved (v : _ActivePartReservation) (record : AcceptedRecord) (identity : AcceptedRecordIdentityV1)
    (created_at_ns : option Z) (opened : result Z) : M _ActivePartSet ref := fun s =>
  (do! _ := checking (_validate_current_config record identity) in
   do! _ := check (negb (bool_decide (key v = _key (envelope record)))) "reservation logical identity does not match record" in
   do! expected_path := mlift (raw_partial_path (envelope record) (v_part_start_ns v) (v_part_sequence v)) in
   do! _ := check (negb (String.eqb expected_path (v_partial_path v))) "reservation path does not match its record" in
   keep_part (opening opened (allocate record identity (v_generation_id v) (v_part_start_ns v) (v_part_sequence v) (_zstd_level s)
     (_max_plain_frame_bytes s) (_durability_slo_ns s) created_at_ns))) s.

Definition install_reserved (v : _ActivePartReservation) (r : ref) : M _ActivePartSet unit := fun s =>
  (do! _ := check (bool_decide (is_Some (dict_get (key v) (_active s))) && negb (entry_is s (key v) (Reservation v)))
     "logical identity already has an active raw part" in
   do! p := checking (fun s => part_at s r) in
   do! _ := check (negb (matches_reservation v p)) "materialized part does not match its reservation" in
   assign (key v) (Part r)) s.

Definition entry_hour (s : _ActivePartSet) (e : _ActivePartEntry) : result Z :=
  match e with Part r => let! p := part_at s r in Ok (p_received_hour p) | Reservation v => Ok (v_received_hour v) end.
Definition replace_reserved_for_hour (v : _ActivePartReservation) (r : ref) (closed_at_ns : Z) : M _ActivePartSet (option ref) := fun s =>
  match dict_get (key v) (_active s) with
  | None => (s, Err (ValueError "hour replacement requires an active raw part"))
  | Some entry =>
      (do! p := checking (fun s => part_at s r) in
       do! _ := check (negb (matches_reservation v p)) "materialized part does not match its reservation" in
       do! hour := checking (fun s => entry_hour s entry) in
       do! _ := check (hour =? p_received_hour p) "hour replacement must change the received UTC hour" in
       match entry with
       | Reservation _ => do! _ := assign (key v) (Part r) in mret None
       | Part c =>
           do! _ := on_part c (retire ROTATE_TIME closed_at_ns) in
           do! _ := assign (key v) (Part r) in mret (Some c)
       end) s
  end.

Definition _allocate (record : AcceptedRecord) (identity : AcceptedRecordIdentityV1) (opened : result Z) : M _ActivePartSet ref :=
  do! reservation := reserve_part record in materialize_reserved reservation record identity None opened.

Definition active_entry_for (record : AcceptedRecord) (s : _ActivePartSet) : option _ActivePartEntry :=
  dict_get (_key (envelope record)) (_active s).
Definition active_part_for (record : AcceptedRecord) (s : _ActivePartSet) : option ref :=
  match active_entry_for record s with Some (Part r) => Some r | _ => None end.
Definition active_part_for_logical_identity (market : option Market) (instrument_key : option string) (logical_stream : string)
    (s : _ActivePartSet) : option _ActivePartEntry := dict_get (market, instrument_key, logical_stream) (_active s).
Definition parts_of (d : list (_LogicalPartKey * _ActivePartEntry)) : list ref :=
  omap (fun ke => match ke.2 with Part r => Some r | Reservation _ => None end) d.
Definition active_parts (s : _ActivePartSet) : list ref := by_path s (parts_of (_active s)).
Definition active_logical_generation_count (s : _ActivePartSet) : Z := Z.of_nat (length (_active s)).

Definition part_for_generation (gid : string) (s : _ActivePartSet) : result (option ref) :=
  let! generation := _nonempty gid "generation_id" in
  let matches := filter (fun r => generation_id <$> heap s !! r = Some generation) (parts_of (_active s)) in
  raise AssertionError "active generation ID is not unique" when (1 <? length matches)%nat;;
  Ok (head matches).
Definition reservation_for_generation (gid : string) (s : _ActivePartSet) : result (option _ActivePartReservation) :=
  let! generation := _nonempty gid "generation_id" in
  let matches := filter (fun v => v_generation_id v = generation)
    (omap (fun ke => match ke.2 with Reservation v => Some v | Part _ => None end) (_active s)) in
  raise AssertionError "active reservation generation ID is not unique" when (1 <? length matches)%nat;;
  Ok (head matches).

(** The record goes to the part of its stream and hour, which is made if there is none. *)
Definition part_append (record : AcceptedRecord) (identity : AcceptedRecordIdentityV1) (r : ref) : M _ActivePartSet unit :=
  on_part r (append_accepted record identity).
Definition close_part (r : ref) : M _ActivePartSet unit := on_part r (fun p => (set_file (StreamFile.close_fd (stream_file p)) p, Ok tt)).
Definition replace_hour (k : _LogicalPartKey) (c : ref) (record : AcceptedRecord) (identity : AcceptedRecordIdentityV1)
    (opened : result Z) : M _ActivePartSet (list ref) :=
  let closed := received_at_ns (envelope record) in
  do! p := checking (fun s => part_at s c) in
  do! _ := mlift (validate_retirement ROTATE_TIME closed p) in
  do! replacement := _allocate record identity opened in
  do! _ := (fun s => match part_append record identity replacement s with
                     | (s, Err e) => ((close_part replacement s).1, Err e)
                     | ok => ok
                     end) in
  do! _ := on_part c (retire ROTATE_TIME closed) in
  do! _ := assign k (Part replacement) in mret [c].
Definition set_append_accepted (record : AcceptedRecord) (identity : AcceptedRecordIdentityV1) (opened : result Z)
    : M _ActivePartSet (list ref) := fun s =>
  let k := _key (envelope record) in
  let received_hour := received_at_ns (envelope record) / _HOUR_NS in
  let append r := do! _ := part_append record identity r in mret [] in
  (do! _ := checking (_validate_current_config record identity) in
   match dict_get k (_active s) with
   | Some (Part c) =>
       do! p := checking (fun s => part_at s c) in
       if negb (p_received_hour p =? received_hour) then replace_hour k c record identity opened else append c
   | Some (Reservation v) =>
       do! r := (if v_received_hour v =? received_hour then materialize_reserved v record identity None opened
                 else _allocate record identity opened) in
       do! _ := assign k (Part r) in append r
   | None => do! r := _allocate record identity opened in do! _ := assign k (Part r) in append r
   end) s.

Definition check_retirement (why : CloseReason) (closed : Z) (r : ref) : M _ActivePartSet unit :=
  do! p := checking (fun s => part_at s r) in do! _ := mlift (validate_retirement why closed p) in mret tt.
Definition detach_all (why : CloseReason) (closed_at_ns : Z) : M _ActivePartSet (list ref) :=
  do! closed := mlift (_nonnegative closed_at_ns "closed_at_ns") in
  do! parts := checking (fun s => Ok (active_parts s)) in
  do! _ := each (check_retirement why closed) parts in
  do! _ := each (fun r => on_part r (retire why closed)) parts in
  fun s => (set_active [] s, Ok parts).

Definition prepare_config_rotation (config_sha256 : string) (config_generation closed_at_ns : Z) : M _ActivePartSet (list ref) :=
  do! _ := mlift (_sha256 config_sha256 "config_sha256") in
  do! next_generation := mlift (_nonnegative config_generation "config_generation") in
  do! _ := (fun s => check (next_generation <=? _config_generation s) "config_generation must be strictly greater" s) in
  detach_all CONFIG_RELOAD closed_at_ns.
Definition commit_config_rotation (config_sha256 : string) (config_generation : Z) : M _ActivePartSet unit :=
  do! next_sha256 := mlift (_sha256 config_sha256 "config_sha256") in
  do! next_generation := mlift (_nonnegative config_generation "config_generation") in
  do! _ := (fun s => check (next_generation <=? _config_generation s) "config_generation must be strictly greater" s) in
  do! _ := (fun s => check (negb (bool_decide (_active s = []))) "config rotation commit requires no old active parts" s) in
  fun s => (set_config next_sha256 next_generation s, Ok tt).
Definition rotate_for_config (config_sha256 : string) (config_generation closed_at_ns : Z) : M _ActivePartSet (list ref) :=
  do! retired := prepare_config_rotation config_sha256 config_generation closed_at_ns in
  do! _ := commit_config_rotation config_sha256 config_generation in mret retired.

(** Detaching the parts that are due, each for a reservation of its replacement. *)
Definition due (s : _ActivePartSet) (is_due : _ActivePart -> bool) : list (_LogicalPartKey * ref) :=
  omap (fun ke => match ke.2 with
                  | Part r => match heap s !! r with Some p => if is_due p then Some (ke.1, r) else None | None => None end
                  | Reservation _ => None
                  end) (_active s).
Fixpoint reserve_replacements (l : list (_LogicalPartKey * ref)) (created_at_ns : Z) : M _ActivePartSet (list (_LogicalPartKey * _ActivePartReservation)) :=
  match l with
  | [] => mret []
  | (k, r) :: l =>
      do! p := checking (fun s => part_at s r) in
      do! v := _reserve_replacement k p created_at_ns in
      do! vs := reserve_replacements l created_at_ns in mret ((k, v) :: vs)
  end.
Definition detach_due (why : CloseReason) (closed : Z) (is_due : _ActivePartSet -> _ActivePart -> bool) : M _ActivePartSet (list ref) :=
  do! found := checking (fun s => Ok (due s (is_due s))) in
  do! _ := each (check_retirement why closed) found.*2 in
  do! replacements := reserve_replacements found closed in
  do! _ := each (fun r => on_part r (retire why closed)) found.*2 in
  do! _ := each (fun kv => assign kv.1 (Reservation kv.2)) replacements in
  checking (fun s => Ok (by_path s found.*2)).
Definition detach_size_due (closed_at_ns : Z) : M _ActivePartSet (list ref) :=
  do! closed := mlift (_nonnegative closed_at_ns "closed_at_ns") in
  detach_due ROTATE_SIZE closed (fun s p => _max_compressed_size_bytes s <=? StreamFile.compressed_size (stream_file p)).
Definition detach_interval_due (now_ns : Z) : M _ActivePartSet (list ref) :=
  do! now := mlift (_nonnegative now_ns "now_ns") in
  detach_due ROTATE_TIME now (fun s p => _rotate_interval_ns s <=? now - p_created_at_ns p).

(** [_ensure_part] of the service: the part a record goes to, and the part of another hour it
    replaces, which the caller enters into [_retiring].  The part is made by a thread that is
    awaited; no other operation of the set runs meanwhile. *)
Definition _sample_wall (clock : result Z) : result Z := let! now := clock in _nonnegative now "clock.time_ns()".
Definition entry_created (s : _ActivePartSet) (e : _ActivePartEntry) : result Z :=
  match e with Part r => let! p := part_at s r in Ok (p_created_at_ns p) | Reservation v => Ok (v_created_at_ns v) end.
Definition _ensure_part (record : AcceptedRecord) (identity : AcceptedRecordIdentityV1) (opened : result Z) (awaited : Awaited)
    (clock : result Z) : M _ActivePartSet (ref * option ref) := fun s =>
  let received_hour := received_at_ns (envelope record) / _HOUR_NS in
  let current := active_entry_for record s in
  let make v := run_storage awaited (materialize_reserved v record identity (Some (v_created_at_ns v)) opened) in
  let replace entry :=
    do! v := reserve_part record in
    do! r := make v in
    do! wall := mlift (_sample_wall clock) in
    do! created := checking (fun s => entry_created s entry) in
    do! retired := replace_reserved_for_hour v r (Z.max wall created) in mret (r, retired) in
  match current with
  | None => (do! v := reserve_part record in do! r := make v in do! _ := install_reserved v r in mret (r, None)) s
  | Some (Reservation v) =>
      if v_received_hour v =? received_hour
      then (do! r := make v in do! _ := install_reserved v r in mret (r, None)) s
      else replace (Reservation v) s
  | Some (Part c) =>
      (do! p := checking (fun s => part_at s c) in
       if p_received_hour p =? received_hour then mret (c, None) else replace (Part c)) s
  end.
End Set_.
