(* ===== verification/PartSetRuns.v ===== *)
(** The parts of a writer over time.  A world is the set with everything around it that the
    writer holds: what the storage threads report, the reservations it was given, the
    rotations it planned.  It moves by the operations of the set, in any order the writer's
    tasks interleave them, and by the operations of the parts themselves. *)
From S2P Require Import Prelude PyDecimal Domain StorageModels PyText CatalogJson PyTime PartPath EnvelopeJson FrameScan RowFacts.
From S2P Require Import Durability.
From S2P Require StreamFile.
From S2P Require Import ActivePart ActivePartRuns ActivePartInv ActiveParts PartSet.

(** ** The operations of the set *)
Inductive set_op : Type :=
| Reserve (record : AcceptedRecord)
| BeginInitial (record : AcceptedRecord)
| MaterializeReserved (v : _ActivePartReservation) (record : AcceptedRecord) (identity : AcceptedRecordIdentityV1)
    (created_at_ns : option Z) (opened : result Z)
| CommitReserved (materialized : list (_ActivePartReservation * ref))
| RollbackReserved (reservations : list _ActivePartReservation)
| InstallReserved (v : _ActivePartReservation) (r : ref)
| ReplaceForHour (v : _ActivePartReservation) (r : ref) (closed_at_ns : Z)
| PlanDue (now_ns seal_acceptance_ordinal : Z)
| BeginRotations (plans : list _ActivePartRotation)
| MaterializeRotation (plan : _ActivePartRotation) (opened : result Z)
| CommitRotations (materialized : list (_ActivePartRotation * ref))
| AppendAccepted (record : AcceptedRecord) (identity : AcceptedRecordIdentityV1) (opened : result Z)
| DetachAll (why : CloseReason) (closed_at_ns : Z)
| PrepareConfig (config_sha256 : string) (config_generation closed_at_ns : Z)
| CommitConfig (config_sha256 : string) (config_generation : Z)
| RotateConfig (config_sha256 : string) (config_generation closed_at_ns : Z)
| DetachSizeDue (closed_at_ns : Z)
| DetachIntervalDue (now_ns : Z).

(** What an operation hands to its caller: parts that are to be finished, reservations, plans. *)
Record Effect : Type := { handed : list ref; given : list _ActivePartReservation; planned : list _ActivePartRotation }.
Definition nothing : Effect := {| handed := []; given := []; planned := [] |}.
Definition hands (l : list ref) : Effect := {| handed := l; given := []; planned := [] |}.
Definition gives (v : _ActivePartReservation) : Effect := {| handed := []; given := [v]; planned := [] |}.
Definition yields {A} (f : A -> Effect) (m : M _ActivePartSet A) : M _ActivePartSet Effect := do! x := m in mret (f x).

Section Sets.
Context (uuid4 : nat -> string).

(** The caller of [begin_rotations] finishes the parts of its plans. *)
Definition exec_set (o : set_op) : M _ActivePartSet Effect :=
  match o with
  | Reserve record => yields gives (reserve_part uuid4 record)
  | BeginInitial record => yields gives (begin_initial_reservation uuid4 record)
  | MaterializeReserved v record identity created opened => yields (fun _ => nothing) (materialize_reserved v record identity created opened)
  | CommitReserved l => yields (fun _ => nothing) (commit_reserved_batch l)
  | RollbackReserved l => yields (fun _ => nothing) (rollback_reserved_batch l)
  | InstallReserved v r => yields (fun _ => nothing) (install_reserved v r)
  | ReplaceForHour v r closed => yields (fun o => hands (option_list o)) (replace_reserved_for_hour v r closed)
  | PlanDue now ordinal => yields (fun l => {| handed := []; given := reservation <$> l; planned := l |}) (plan_due_rotations uuid4 now ordinal)
  | BeginRotations l => yields (fun _ => hands (current <$> l)) (begin_rotations l)
  | MaterializeRotation plan opened => yields (fun _ => nothing) (materialize_rotation plan opened)
  | CommitRotations l => yields (fun _ => nothing) (commit_rotations l)
  | AppendAccepted record identity opened => yields hands (set_append_accepted uuid4 record identity opened)
  | DetachAll why closed => yields hands (detach_all why closed)
  | PrepareConfig sha generation closed => yields hands (prepare_config_rotation sha generation closed)
  | CommitConfig sha generation => yields (fun _ => nothing) (commit_config_rotation sha generation)
  | RotateConfig sha generation closed => yields hands (rotate_for_config sha generation closed)
  | DetachSizeDue closed => yields hands (detach_size_due uuid4 closed)
  | DetachIntervalDue now => yields hands (detach_interval_due uuid4 now)
  end.

(** ** Worlds *)
(** [activated] are the parts that were ever active, [finishing] those that were handed out,
    [dropped] the replacements whose first record failed: no reference to them remains. *)
Record World : Type := {
  parts : _ActivePartSet; threads : gmap ref (_ClaimedSealedWork * Persisted);
  reservations : list _ActivePartReservation; plans : list _ActivePartRotation;
  activated : list ref; finishing : list ref; dropped : list ref
}.
Definition active_refs (s : _ActivePartSet) : list ref := parts_of (_active s).

(** The parts an operation made and left to nobody. *)
Definition abandoned (o : set_op) (s s' : _ActivePartSet) (x : result Effect) : list ref :=
  match o, x with
  | AppendAccepted _ _ _, Err _ => filter (fun r => r ∉ active_refs s') (seq (length (heap s)) (length (heap s') - length (heap s)))
  | _, _ => []
  end.
Definition after (w : World) (o : set_op) (s' : _ActivePartSet) (x : result Effect) : World :=
  let e := match x with Ok e => e | Err _ => nothing end in {|
  parts := s'; threads := threads w; reservations := reservations w ++ given e; plans := plans w ++ planned e;
  activated := activated w ++ filter (fun r => r ∉ active_refs (parts w)) (active_refs s');
  finishing := finishing w ++ handed e; dropped := dropped w ++ abandoned o (parts w) s' x |}.

Section Lines.
Context `{StreamFile.Compressor} (lines : AcceptedRecord -> Prop).

(** What the callers of the set see to.  A record passed its checks; reservations and plans
    are those the set gave; a part is installed after it was made, once. *)
Definition record_made (record : AcceptedRecord) : Prop :=
  envelope_made (envelope record) /\ scoped (base (envelope record)) = true /\
  opt_ok is_text (instrument_key (base (envelope record))) = true /\ lines record.
Definition fresh (w : World) (r : ref) : Prop :=
  r ∉ active_refs (parts w) /\ r ∉ dropped w /\ exists p, heap (parts w) !! r = Some p /\ p_close_reason p = None.
Definition asked (w : World) (o : set_op) : Prop :=
  match o with
  | Reserve record | BeginInitial record | AppendAccepted record _ _ => record_made record
  | MaterializeReserved v record _ _ _ => v ∈ reservations w /\ record_made record
  | CommitReserved l => Forall (fresh w) l.*2 /\ NoDup l.*2
  | InstallReserved _ r | ReplaceForHour _ r _ => fresh w r
  | BeginRotations l => Forall (fun plan => plan ∈ plans w) l
  | MaterializeRotation plan _ => plan ∈ plans w
  | CommitRotations l => Forall (fresh w) l.*2 /\ NoDup l.*2 /\ NoDup ((fun m => key (reservation m.1)) <$> l)
  | _ => True
  end.

(** A record of the part's hour, with its line. *)
Definition of_hour (p : _ActivePart) (x : item) : Prop := received_at_ns (envelope x.1) / _HOUR_NS = p_received_hour p /\ lines x.1.

(** An operation of the set, or one of a part that the writer holds: it appends the records
    that [_ensure_part] directs to the part, and leaves it to the set to retire an active one. *)
Inductive world_step : World -> World -> Prop :=
| world_set w o s' x : asked w o -> exec_set o (parts w) = (s', x) -> world_step w (after w o s' x)
| world_part w r p ev p' th : heap (parts w) !! r = Some p -> r ∉ dropped w ->
    part_step [] {| part := p; thread := threads w !! r |} ev {| part := p'; thread := th |} ->
    Forall (of_hour p) (appended ev) -> (r ∈ active_refs (parts w) -> p_close_reason p' = None) ->
    world_step w {| parts := set_heap (<[r := p']> (heap (parts w))) (parts w); threads := partial_alter (fun _ => th) r (threads w);
                    reservations := reservations w; plans := plans w; activated := activated w; finishing := finishing w; dropped := dropped w |}.
Definition start (s : _ActivePartSet) : World :=
  {| parts := s; threads := ∅; reservations := []; plans := []; activated := []; finishing := []; dropped := [] |}.
Definition empty_set (s : _ActivePartSet) : Prop := _active s = [] /\ heap s = [] /\ 0 <= _next_part_sequence s.
Inductive world_runs (s0 : _ActivePartSet) : World -> Prop :=
| world_start : world_runs s0 (start s0)
| world_more w w' : world_runs s0 w -> world_step w w' -> world_runs s0 w'.

(** ** The invariant *)
(** Where a path of the hour that starts at [start] is. *)
Definition in_hour (dirs : list string) (start : Z) : Prop :=
  exists scope h, dirs = scope ++ hour_segments h /\ parse_storage_hour (hour_segments h) = Ok h /\
    start = timestamp h * _NS_PER_SECOND /\ 0 <= start /\ forallb component dirs = true.
Definition at_dirs (dirs : list string) (start : Z) (path : string) : Prop :=
  exists sequence, 0 <= sequence /\ path = join_with "/" (dirs ++ [part_filename start sequence]) +:+ ".partial".
Definition located (path : string) (start : Z) : Prop := exists dirs, in_hour dirs start /\ at_dirs dirs start path.

(** Where a part is; and a part as it is made. *)
Definition part_placed (p : _ActivePart) : Prop :=
  located (partial_path p) (part_start_ns p) /\ p_data_relative_path p = removesuffix ".partial" (partial_path p) /\ exists id, placed id p.
Definition part_made (p : _ActivePart) : Prop := new_part p /\ part_placed p.
Definition story (th : option (_ClaimedSealedWork * Persisted)) (p : _ActivePart) : Prop :=
  exists p0 tr, part_made p0 /\ part_runs p0 tr {| part := p; thread := th |} /\ Forall (of_hour p0) (appended tr).

(** A rotation's reservation is next to the part it replaces. *)
Definition plan_ok (s : _ActivePartSet) (plan : _ActivePartRotation) : Prop :=
  exists p, heap s !! current plan = Some p /\ v_part_start_ns (reservation plan) = part_start_ns p /\
  forall dirs, in_hour dirs (part_start_ns p) -> at_dirs dirs (part_start_ns p) (partial_path p) ->
    at_dirs dirs (part_start_ns p) (v_partial_path (reservation plan)).
Definition reservation_ok (v : _ActivePartReservation) : Prop := located (v_partial_path v) (v_part_start_ns v).

(** The dictionary: its keys are its own, and no part is active under two. *)
Record set_ok (s : _ActivePartSet) : Prop := {
  so_keys : NoDup (_active s).*1;
  so_one k k' r : dict_get k (_active s) = Some (Part r) -> dict_get k' (_active s) = Some (Part r) -> k = k';
  so_open k r : dict_get k (_active s) = Some (Part r) -> exists p, heap s !! r = Some p /\ p_close_reason p = None;
  so_reserved k v : dict_get k (_active s) = Some (Reservation v) -> reservation_ok v;
  so_sequence : 0 <= _next_part_sequence s
}.
Record world_ok (w : World) : Prop := {
  wo_set : set_ok (parts w);
  wo_story r p : heap (parts w) !! r = Some p -> r ∉ dropped w -> story (threads w !! r) p;
  wo_reservations : Forall reservation_ok (reservations w);
  wo_plans : Forall (plan_ok (parts w)) (plans w) /\ Forall (fun plan => current plan ∉ dropped w) (plans w);
  wo_planned : Forall (fun plan => reservation_ok (reservation plan)) (plans w);
  wo_activated : NoDup (activated w) /\ (forall r, r ∈ activated w <-> r ∈ finishing w \/ r ∈ active_refs (parts w));
  wo_finishing : NoDup (finishing w) /\ (forall r, r ∈ finishing w -> exists p, heap (parts w) !! r = Some p /\ is_Some (p_close_reason p));
  wo_dropped r : r ∈ dropped w -> r ∉ activated w /\ (r < length (heap (parts w)))%nat;
  wo_threads r : is_Some (threads w !! r) -> (r < length (heap (parts w)))%nat
}.
End Lines.
End Sets.
