(* ===== verification/PartSetSteps.v ===== *)
(** The dictionary of the active parts, how the set's operations run, and how they change the
    set: parts grow by operations of their own, no active part disappears without being handed
    out, and what is handed out is retired. *)
From S2P Require Import Prelude PyDecimal Domain StorageModels PyText PyTime CatalogJson PartPath EnvelopeJson Durability FrameScan RowFacts ActivePart.
From S2P Require Import ActivePartRuns ActivePartSteps ActivePartInv ActiveParts PartSet PartSetRuns.
From S2P Require StreamFile.

(** ** Dictionaries *)
Section Dict.
Context {K V : Type} `{EqDecision K}.
Implicit Types (k : K) (v : V) (d : list (K * V)).

Lemma dict_get_cons k k' v d : dict_get k ((k', v) :: d) = if decide (k' = k) then Some v else dict_get k d.
Proof. unfold dict_get. cbn. by case_bool_decide; case_decide. Qed.
Lemma dict_get_none k d : dict_get k d = None <-> k ∉ d.*1.
Proof.
  induction d as [|[k' v] d IH]; [cbn; split; [set_solver|done]|]. rewrite dict_get_cons, fmap_cons, not_elem_of_cons. cbn [fst].
  case_decide as Hk; [subst; naive_solver|]. rewrite IH. naive_solver.
Qed.
Lemma dict_get_in k v d : NoDup d.*1 -> dict_get k d = Some v <-> (k, v) ∈ d.
Proof.
  induction d as [|[k' v'] d IH]; [cbn; set_solver|]. rewrite fmap_cons, NoDup_cons. cbn [fst]. intros [Hn Hd].
  rewrite dict_get_cons, elem_of_cons. case_decide as Hk.
  - subst k'. split; [intros [= ->]; by left|]. intros [[= ->]|Hin]; [done|]. destruct Hn. apply list_elem_of_fmap. by exists (k, v).
  - rewrite IH by done. naive_solver.
Qed.

Lemma dict_get_map k k' v d : dict_get k ((fun kv => if bool_decide (kv.1 = k') then (k', v) else kv) <$> d) =
  if decide (k = k' /\ k' ∈ d.*1) then Some v else dict_get k d.
Proof.
  induction d as [|[k1 v1] d IH].
  - cbn. case_decide as Hk; [set_solver|done].
  - rewrite !fmap_cons. cbn [fst]. case_bool_decide as H1; rewrite !dict_get_cons, IH; clear IH; repeat case_decide; subst; try done;
      exfalso; set_solver.
Qed.
Lemma dict_get_app k d d' : dict_get k (d ++ d') = match dict_get k d with Some v => Some v | None => dict_get k d' end.
Proof. induction d as [|[k1 v1] d IH]; [done|]. cbn [app]. rewrite !dict_get_cons, IH. by case_decide. Qed.
Lemma dict_get_set k k' v d : dict_get k (dict_set k' v d) = if decide (k = k') then Some v else dict_get k d.
Proof.
  unfold dict_set. case_bool_decide as Hin.
  - rewrite dict_get_map. repeat case_decide; subst; naive_solver.
  - rewrite dict_get_app, dict_get_cons. case_decide as Hk.
    + subst. rewrite (proj2 (dict_get_none _ _) Hin), decide_True by done. done.
    + rewrite decide_False by congruence. by destruct (dict_get k d).
Qed.
Lemma dict_set_keys k v d : NoDup d.*1 -> NoDup (dict_set k v d).*1.
Proof.
  unfold dict_set. intros Hd. case_bool_decide as Hin.
  - assert (((fun kv => if bool_decide (kv.1 = k) then (k, v) else kv) <$> d).*1 = d.*1) as ->; [|done].
    rewrite <- list_fmap_compose. apply list_fmap_ext. intros i [k1 v1] _. cbn. by case_bool_decide.
  - rewrite fmap_app. apply NoDup_app. split_and!; [done| |apply NoDup_singleton]. intros x Hx Hk. cbn in Hk. apply list_elem_of_singleton in Hk as ->. done.
Qed.
Lemma dict_get_del k k' d : dict_get k (dict_del k' d) = if decide (k = k') then None else dict_get k d.
Proof.
  unfold dict_del. induction d as [|[k1 v1] d IH]; [by case_decide|]. rewrite filter_cons. cbn [fst].
  destruct (decide (k1 <> k')) as [Hk|Hk].
  - rewrite !dict_get_cons, IH. repeat case_decide; subst; done.
  - apply dec_stable in Hk. subst k1. rewrite IH, dict_get_cons. repeat case_decide; subst; done.
Qed.
Lemma dict_del_keys k d : NoDup d.*1 -> NoDup (dict_del k d).*1.
Proof.
  unfold dict_del. induction d as [|[k1 v1] d IH]; [done|]. rewrite fmap_cons, NoDup_cons, filter_cons. cbn. intros [Hn Hd].
  case_decide; [|by apply IH]. rewrite fmap_cons, NoDup_cons. split; [|by apply IH]. intros Hin. destruct Hn.
  apply list_elem_of_fmap in Hin as (x & E & Hx). apply list_elem_of_filter in Hx as [_ Hx]. apply list_elem_of_fmap. by exists x.
Qed.
End Dict.

Lemma elem_of_parts d r : NoDup d.*1 -> r ∈ parts_of d <-> exists k, dict_get k d = Some (Part r).
Proof.
  intros Hd. unfold parts_of. rewrite list_elem_of_omap. split.
  - intros ([k [r'|v]] & Hin & [= ->]). exists k. by apply dict_get_in.
  - intros (k & Hk%dict_get_in); [|done]. by exists (k, Part r).
Qed.

(** ** Running *)
Lemma check_ok b m s s' u : check b m s = (s', Ok u) <-> b = false /\ s' = s.
Proof. unfold check, mlift. destruct b; cbn; destruct u; naive_solver. Qed.
Lemma check_err b m s s' e : check b m s = (s', Err e) -> s' = s.
Proof. unfold check, mlift. intros [= ->]. done. Qed.

(** Operations that only look. *)
Definition reads {A} (m : M _ActivePartSet A) : Prop := forall s, (m s).1 = s.
Lemma reads_run {A} (m : M _ActivePartSet A) s s' r : reads m -> m s = (s', r) -> s' = s.
Proof. intros Hm E. specialize (Hm s). by rewrite E in Hm. Qed.
Lemma reads_bind {A B} (m : M _ActivePartSet A) (k : A -> M _ActivePartSet B) : reads m -> (forall a, reads (k a)) -> reads (mbind m k).
Proof.
  intros Hm Hk s. specialize (Hm s). unfold mbind. destruct (m s) as [s1 [a|e]]; cbn in Hm; subst s1; [apply Hk|done].
Qed.
Lemma reads_check b m : reads (check b m).
Proof. done. Qed.
Lemma reads_checking {A} (f : _ActivePartSet -> result A) : reads (checking f).
Proof. done. Qed.
Lemma reads_lift {A} (x : result A) : reads (mlift x).
Proof. done. Qed.
Lemma reads_ret {A} (x : A) : reads (mret x).
Proof. done. Qed.
Lemma reads_each {A} (f : A -> M _ActivePartSet unit) l : (forall a, reads (f a)) -> reads (each f l).
Proof. intros Hf. induction l as [|a l IH]; [apply reads_ret|]. apply reads_bind; [apply Hf|intros _; apply IH]. Qed.
Create HintDb part_set discriminated.
#[export] Hint Resolve reads_bind reads_check reads_checking reads_lift reads_ret reads_each : part_set.
#[export] Hint Extern 0 (reads (fun s => check _ _ s)) => (intros ?; reflexivity) : part_set.

(** The checks of a list, all of one state. *)
Lemma each_reads_ok {A} (f : A -> M _ActivePartSet unit) l s s' u : (forall a, reads (f a)) -> each f l s = (s', Ok u) ->
  s' = s /\ Forall (fun a => f a s = (s, Ok tt)) l.
Proof.
  intros Hf. revert s. induction l as [|a l IH]; intros s E; [by injection E as <-|]. apply mbind_ok in E as (s1 & [] & Ha & E).
  pose proof (reads_run _ _ _ _ (Hf a) Ha) as ->. apply IH in E as [-> Hl]. by repeat constructor.
Qed.

Lemma checking_ok {A} (f : _ActivePartSet -> result A) s s' a : checking f s = (s', Ok a) <-> f s = Ok a /\ s' = s.
Proof. unfold checking. split; [by intros [= -> ->]|by intros [-> ->]]. Qed.
Lemma part_at_ok s r p : part_at s r = Ok p <-> heap s !! r = Some p.
Proof. unfold part_at. destruct (heap s !! r); split; intros [=]; by subst. Qed.
Lemma lift_ok {A} (x : result A) s s' a : mlift (S := _ActivePartSet) x s = (s', Ok a) <-> x = Ok a /\ s' = s.
Proof. unfold mlift. split; [by intros [= -> ->]|by intros [-> ->]]. Qed.

(** Splits a run that returned along its steps. *)
Ltac run_ok H :=
  repeat first
  [ apply mbind_ok in H as (? & ? & ?Hrun & H)
  | match goal with
    | H0 : check _ _ _ = (_, Ok _) |- _ => apply check_ok in H0 as [? ->]
    | H0 : checking _ _ = (_, Ok _) |- _ => apply checking_ok in H0 as [? ->]
    | H0 : mlift _ _ = (_, Ok _) |- _ => apply lift_ok in H0 as [? ->]
    | H0 : part_at _ _ = Ok _ |- _ => apply part_at_ok in H0
    end ].


(** A run whose first step only looks. *)
Lemma reads_bind_run {A B} (m : M _ActivePartSet A) (k : A -> M _ActivePartSet B) s s' x : reads m -> mbind m k s = (s', x) ->
  (s' = s /\ exists e, x = Err e) \/ exists a, m s = (s, Ok a) /\ k a s = (s', x).
Proof.
  intros Hm E. specialize (Hm s). unfold mbind in E. destruct (m s) as [s1 [a|e]]; cbn in Hm; subst s1.
  - right. by exists a.
  - left. injection E as <- <-. split; [done|by eexists].
Qed.
Ltac look E :=
  match type of E with
  | mbind ?m ?k ?s = _ =>
      let R := fresh in let E' := fresh in assert (R : reads m) by (auto with part_set);
      destruct (reads_bind_run m k s _ _ R E) as [[-> [? ->]]|(? & ?Hrun & E')]; clear R E; [|rename E' into E; cbv beta in *;
      match goal with
      | H0 : check _ _ _ = (_, Ok _) |- _ => apply check_ok in H0 as [H0 _]
      | H0 : checking _ _ = (_, Ok _) |- _ => apply checking_ok in H0 as [H0 _]; try apply part_at_ok in H0
      | H0 : mlift _ _ = (_, Ok _) |- _ => apply lift_ok in H0 as [H0 _]
      | H0 : each _ _ _ = (_, Ok _) |- _ => apply each_reads_ok in H0 as [_ H0]
      end]
  end.

Section Steps.
Context `{StreamFile.Compressor} (lines : AcceptedRecord -> Prop).

(** ** A part that changes *)
(** A part that is retired stays so, for the same reason. *)
Definition closing_kept (p p' : _ActivePart) : Prop :=
  is_Some (p_close_reason p) -> p_close_reason p' = p_close_reason p /\ p_closed_at_ns p' = p_closed_at_ns p.
Definition becomes (p p' : _ActivePart) : Prop :=
  fixed p' = fixed p /\ closing_kept p p' /\ exists ev, Forall (of_hour lines p) (appended ev) /\
  forall p0 tr th, part_runs p0 tr {| part := p; thread := th |} -> part_runs p0 (tr ++ ev) {| part := p'; thread := th |}.

Lemma fixed_hour p p' : fixed p' = fixed p -> p_received_hour p' = p_received_hour p.
Proof. unfold fixed. congruence. Qed.
Lemma of_hour_fixed p p' l : fixed p' = fixed p -> Forall (of_hour lines p') l -> Forall (of_hour lines p) l.
Proof. intros Hf Hl. eapply Forall_impl; [exact Hl|]. unfold of_hour. intros x. by rewrite (fixed_hour _ _ Hf). Qed.
Lemma becomes_refl p : becomes p p.
Proof. split_and!; [done|done|]. exists []. split; [constructor|]. intros p0 tr th Hr. by rewrite app_nil_r. Qed.
Lemma becomes_trans p1 p2 p3 : becomes p1 p2 -> becomes p2 p3 -> becomes p1 p3.
Proof.
  intros (F1 & C1 & ev1 & A1 & R1) (F2 & C2 & ev2 & A2 & R2). split_and!; [congruence| |].
  - intros Hc. destruct (C1 Hc) as [E1 E2]. rewrite <- E1 in Hc. destruct (C2 Hc) as [E3 E4]. split; congruence.
  - exists (ev1 ++ ev2). rewrite appended_app. split; [apply Forall_app; split; [done|by eapply of_hour_fixed]|].
    intros p0 tr th Hr. rewrite app_assoc. auto.
Qed.
Lemma becomes_op o p p' x : op_made o -> exec o p = (p', x) -> fixed p' = fixed p -> closing_kept p p' ->
  (x = Ok tt -> Forall (of_hour lines p) (appended (event_of o))) -> becomes p p'.
Proof.
  intros Hm He Hf Hc Ha. split_and!; [done|done|]. exists (if is_ok x then event_of o else []). split.
  - destruct x as [[]|]; [by apply Ha|constructor].
  - intros p0 tr th Hr. eapply part_more; [done|]. assert ((tr ++ if is_ok x then event_of o else []) = if is_ok x then tr ++ event_of o else tr) as ->.
    { destruct (is_ok x); [done|by rewrite app_nil_r]. }
    by apply (part_operation tr {| part := p; thread := th |}).
Qed.

Definition may_retire (why : CloseReason) (closed : Z) : Prop := why <> Domain.RECOVERY /\ 0 <= closed.
Lemma validate_ok_may why closed p c : validate_retirement why closed p = Ok c -> may_retire why closed /\ c = closed.
Proof.
  unfold validate_retirement, _nonnegative. intros E. apply raise_if_ok in E as [E1 E]. apply rbind_ok in E as (c' & E2 & E).
  apply raise_if_ok in E2 as [E2 [= <-]]. apply raise_if_ok in E as [_ [= <-]]. by bool_prop.
Qed.
Lemma validate_open why closed p : may_retire why closed -> p_close_reason p = None -> validate_retirement why closed p = Ok closed.
Proof.
  intros [Hw Hc] Hp. unfold validate_retirement, _nonnegative. rewrite Hp, (bool_decide_eq_false_2 _ Hw), (proj2 (Z.ltb_ge _ _)) by done.
  cbn. done.
Qed.
Lemma retire_open why closed p : may_retire why closed -> p_close_reason p = None -> retire why closed p = (set_closed why closed p, Ok tt).
Proof. intros Hm Hp. unfold retire. rewrite validate_open, Hp by done. done. Qed.
Lemma becomes_retire why closed p p' x : retire why closed p = (p', x) -> becomes p p'.
Proof.
  intros E. apply (becomes_op (Retire why closed) p p' x); [done|done| | |constructor].
  - unfold retire in E. destruct (validate_retirement _ _ _); [|by injection E as <- _]. by case_bool_decide; injection E as <- _.
  - intros Hc. unfold retire in E. destruct (validate_retirement _ _ _); [|by injection E as <- _].
    rewrite bool_decide_eq_true_2 in E by done. by injection E as <- _.
Qed.
Lemma becomes_append r i p p' x : envelope_made (envelope r) -> lines r -> received_at_ns (envelope r) / _HOUR_NS = p_received_hour p ->
  append_accepted r i p = (p', x) -> becomes p p' /\ p_close_reason p' = p_close_reason p.
Proof.
  intros Hm Hl Hh E.
  assert (fixed p' = fixed p /\ p_close_reason p' = p_close_reason p /\ p_closed_at_ns p' = p_closed_at_ns p) as (Hf & Hc & Hc').
  { unfold append_accepted in E. case_bool_decide; [by injection E as <- _|]. destruct (validate_record _ _ _); [|by injection E as <- _].
    unfold mbind, on_file, on_accumulator, add_claim in E. destruct (StreamFile.append _ _ _) as [f [u|e]] eqn:Ef; apply file_append in Ef.
    - destruct Ef as [n ->]. destruct (append_validated r _) as [a [u'|e]] eqn:Ea; injection E as <- _;
        (split; [|done]); unfold append_validated in Ea; repeat case_match; injection Ea as <- _; done.
    - subst f. by injection E as <- _. }
  split; [|done]. apply (becomes_op (Append r i) p p' x); try done. intros _. by repeat constructor.
Qed.

(** ** A set that grows *)
(** Parts only change so, and new ones are made so; [D] are the parts that are dropped. *)
Record grown (D : list ref) (s s' : _ActivePartSet) : Prop := {
  gr_parts r p : heap s !! r = Some p -> r ∉ D -> exists p', heap s' !! r = Some p' /\ becomes p p';
  gr_new r p' : heap s !! r = None -> heap s' !! r = Some p' -> r ∉ D -> exists p, part_made p /\ becomes p p';
  gr_length : (length (heap s) <= length (heap s'))%nat;
  gr_sequence : _next_part_sequence s <= _next_part_sequence s'
}.
Lemma grown_same D s s' : heap s' = heap s -> _next_part_sequence s <= _next_part_sequence s' -> grown D s s'.
Proof.
  intros E Hq. split; rewrite ?E; try done.
  - intros r p Hp _. exists p. split; [done|apply becomes_refl].
  - congruence.
Qed.
Lemma grown_refl s : grown [] s s.
Proof. by apply grown_same. Qed.
Lemma grown_trans D D' s1 s2 s3 : grown D s1 s2 -> grown D' s2 s3 -> grown (D ++ D') s1 s3.
Proof.
  intros [P1 N1 L1 Q1] [P2 N2 L2 Q2]. split; [| |lia|lia].
  - intros r p Hp Hd. apply not_elem_of_app in Hd as [Hd Hd']. destruct (P1 r p Hp Hd) as (p2 & Hp2 & B1).
    destruct (P2 r p2 Hp2 Hd') as (p3 & Hp3 & B2). exists p3. split; [done|by eapply becomes_trans].
  - intros r p3 Hn Hp3 Hd. apply not_elem_of_app in Hd as [Hd Hd']. destruct (heap s2 !! r) as [p2|] eqn:Hp2.
    + destruct (N1 r p2 Hn Hp2 Hd) as (p & Hm & B1). destruct (P2 r p2 Hp2 Hd') as (p3' & Hp3' & B2). rewrite Hp3 in Hp3'. injection Hp3' as <-.
      exists p. split; [done|by eapply becomes_trans].
    + by apply N2 with (r := r).
Qed.
Lemma grown_trans' D s1 s2 s3 : grown [] s1 s2 -> grown D s2 s3 -> grown D s1 s3.
Proof. intros H1 H2. exact (grown_trans [] D _ _ _ H1 H2). Qed.
Lemma grown_write r p p' s : heap s !! r = Some p -> becomes p p' -> grown [] s (set_heap (<[r := p']> (heap s)) s).
Proof.
  intros Hp Hb. assert (Hlt := lookup_lt_Some _ _ _ Hp). split; cbn [heap set_heap _next_part_sequence]; rewrite ?length_insert; try done.
  - intros r' q Hq _. destruct (decide (r' = r)) as [->|Hne].
    + rewrite Hp in Hq. injection Hq as <-. exists p'. by rewrite list_lookup_insert_eq.
    + exists q. rewrite list_lookup_insert_ne by done. split; [done|apply becomes_refl].
  - intros r' q Hn Hq _. destruct (decide (r' = r)) as [->|Hne]; [congruence|]. rewrite list_lookup_insert_ne in Hq by done. congruence.
Qed.
Lemma grown_keep p s : part_made p -> grown [] s (set_heap (heap s ++ [p]) s).
Proof.
  intros Hm. split; cbn [heap set_heap _next_part_sequence]; rewrite ?length_app; try done; [| |lia].
  - intros r q Hq _. exists q. split; [by apply lookup_app_l_Some|apply becomes_refl].
  - intros r q Hn Hq _. apply lookup_app_Some in Hq as [Hq|[_ Hq]]; [congruence|]. apply list_lookup_singleton_Some in Hq as [_ Hq].
    exists p. rewrite <- Hq. split; [done|apply becomes_refl].
Qed.
Lemma grown_closed D s s' r p : grown D s s' -> heap s !! r = Some p -> r ∉ D -> is_Some (p_close_reason p) ->
  exists p', heap s' !! r = Some p' /\ is_Some (p_close_reason p').
Proof.
  intros Hg Hp Hd Hc. destruct (gr_parts _ _ _ Hg r p Hp Hd) as (p' & Hp' & _ & Hk & _). exists p'. split; [done|].
  by destruct (Hk Hc) as [-> _].
Qed.

(** ** A set whose active parts change *)
(** The parts that may become active. *)
Context (may : ref -> Prop).

(** An operation that takes the parts of [out] out of the set; the rest stay. *)
Record moves (D out : list ref) (s s' : _ActivePartSet) : Prop := {
  mo_grown : grown D s s';
  mo_ok : set_ok s';
  mo_kept r : r ∈ active_refs s -> r ∈ active_refs s' \/ r ∈ out;
  mo_out r : r ∈ out -> r ∈ active_refs s /\ exists p, heap s' !! r = Some p /\ is_Some (p_close_reason p);
  mo_nodup : NoDup out;
  mo_new r : r ∈ active_refs s' -> r ∈ active_refs s \/ may r
}.
Lemma active_refs_elem s r : set_ok s -> r ∈ active_refs s <-> exists k, dict_get k (_active s) = Some (Part r).
Proof. intros Hs. apply elem_of_parts, Hs. Qed.
Lemma active_open s r : set_ok s -> r ∈ active_refs s -> exists p, heap s !! r = Some p /\ p_close_reason p = None.
Proof. intros Hs (k & Hk)%active_refs_elem; [|done]. by eapply so_open. Qed.
Lemma moves_gone D out s s' r : moves D out s s' -> r ∈ out -> r ∉ active_refs s'.
Proof.
  intros Hm Ho Ha. destruct (mo_out _ _ _ _ Hm r Ho) as (_ & p & Hp & Hc). destruct (active_open _ _ (mo_ok _ _ _ _ Hm) Ha) as (q & Hq & Hn).
  rewrite Hp in Hq. injection Hq as <-. rewrite Hn in Hc. by destruct Hc.
Qed.

Lemma moves_trans D out out' s1 s2 s3 : moves [] out s1 s2 -> moves D out' s2 s3 -> Forall (fun r => r ∉ D) out ->
  Forall (fun r => r ∈ active_refs s1) out' -> moves D (out ++ out') s1 s3.
Proof.
  intros H1 H2 HD Hin. split.
  - eapply grown_trans'; [apply H1|apply H2].
  - apply H2.
  - intros r Hr. destruct (mo_kept _ _ _ _ H1 r Hr) as [Hr'|Ho]; [|right; apply elem_of_app; by left].
    destruct (mo_kept _ _ _ _ H2 r Hr') as [?|Ho]; [by left|right; apply elem_of_app; by right].
  - intros r [Ho|Ho]%elem_of_app.
    + destruct (mo_out _ _ _ _ H1 r Ho) as (Ha & p & Hp & Hc). split; [done|].
      eapply grown_closed; [apply H2|done| |done]. exact (proj1 (Forall_forall _ _) HD r Ho).
    + split; [exact (proj1 (Forall_forall _ _) Hin r Ho)|apply (mo_out _ _ _ _ H2 r Ho)].
  - apply NoDup_app. split_and!; [apply H1| |apply H2]. intros r Ho Ho'. destruct (mo_out _ _ _ _ H2 r Ho') as [Ha _].
    by apply (moves_gone _ _ _ _ _ H1 Ho).
  - intros r Hr. destruct (mo_new _ _ _ _ H2 r Hr) as [Hr'|?]; [|by right]. by apply (mo_new _ _ _ _ H1).
Qed.
Lemma moves_trans' out s1 s2 s3 : moves [] out s1 s2 -> moves [] [] s2 s3 -> moves [] out s1 s3.
Proof. intros H1 H2. rewrite <- (app_nil_r out). apply (moves_trans [] out [] s1 s2 s3 H1 H2); [|constructor]. apply Forall_forall. set_solver. Qed.

(** Nothing but the heap changes. *)
Lemma moves_grown D s s' : set_ok s -> grown D s s' -> _active s' = _active s ->
  (forall r p, r ∈ active_refs s -> heap s !! r = Some p -> exists p', heap s' !! r = Some p' /\ p_close_reason p' = p_close_reason p) ->
  moves D [] s s'.
Proof.
  intros [O1 O2 O3 O4 O5] Hg Ha Hopen. split; [done| | |set_solver|constructor|].
  - split; rewrite ?Ha; try done; [|destruct Hg; lia]. intros k r Hk. destruct (O3 k r Hk) as (p & Hp & Hn).
    destruct (Hopen r p) as (p' & Hp' & E); [|done|].
    + apply elem_of_parts; [done|by exists k].
    + exists p'. by rewrite E.
  - intros r Hr. left. unfold active_refs in *. by rewrite Ha.
  - intros r Hr. left. unfold active_refs in *. by rewrite <- Ha.
Qed.
Lemma moves_refl s : set_ok s -> moves [] [] s s.
Proof. intros Hs. apply moves_grown; [done|apply grown_refl|done|]. intros r p _ Hp. by exists p. Qed.

(** An entry that is no part gets a reservation, or a part that is open and nowhere active. *)
Definition no_part (k : _LogicalPartKey) (s : _ActivePartSet) : Prop := forall r, dict_get k (_active s) <> Some (Part r).
Definition installable (e : _ActivePartEntry) (s : _ActivePartSet) : Prop :=
  match e with
  | Reservation v => reservation_ok v
  | Part r => may r /\ r ∉ active_refs s /\ exists p, heap s !! r = Some p /\ p_close_reason p = None
  end.
Lemma set_ok_assign k e s : set_ok s -> installable e s -> set_ok (set_active (dict_set k e (_active s)) s).
Proof.
  intros Hs Hi. destruct Hs as [O1 O2 O3 O4 O5]. split; cbn [_active set_active heap _next_part_sequence]; try done.
  - by apply dict_set_keys.
  - intros k1 k2 r. rewrite !dict_get_set. assert (Hn : Part r = e -> forall k', dict_get k' (_active s) <> Some (Part r)).
    { intros <- k' Hk'. destruct Hi as (_ & Hi & _). apply Hi. apply elem_of_parts; [done|by exists k']. }
    repeat case_decide; subst; intros E1 E2; try done.
    + injection E1 as ->. by destruct (Hn eq_refl k2).
    + injection E2 as ->. by destruct (Hn eq_refl k1).
    + by eapply O2.
  - intros k1 r. rewrite dict_get_set. case_decide; [|by apply O3]. intros [= ->]. apply Hi.
  - intros k1 v. rewrite dict_get_set. case_decide; [|by apply O4]. by intros [= ->].
Qed.
Lemma moves_assign k e s : set_ok s -> no_part k s -> installable e s -> moves [] [] s (set_active (dict_set k e (_active s)) s).
Proof.
  intros Hs Hk Hi. pose proof (set_ok_assign k e s Hs Hi) as Hs'. split; [by apply grown_same|done| |set_solver|constructor|].
  - intros r (k' & Hk')%active_refs_elem; [|done]. left. apply active_refs_elem; [done|]. exists k'. cbn [_active set_active].
    rewrite dict_get_set, decide_False; [done|]. intros ->. by destruct (Hk r).
  - intros r (k' & Hk')%active_refs_elem; [|done]. cbn [_active set_active] in Hk'. rewrite dict_get_set in Hk'. case_decide.
    + injection Hk' as ->. right. apply Hi.
    + left. apply active_refs_elem; [done|by exists k'].
Qed.
Lemma moves_del k s : set_ok s -> no_part k s -> moves [] [] s (set_active (dict_del k (_active s)) s).
Proof.
  intros Hs Hk. destruct Hs as [O1 O2 O3 O4 O5].
  assert (Hget : forall k' e, dict_get k' (dict_del k (_active s)) = Some e -> dict_get k' (_active s) = Some e).
  { intros k' e. rewrite dict_get_del. by case_decide. }
  assert (Hs' : set_ok (set_active (dict_del k (_active s)) s)).
  { split; cbn [_active set_active heap _next_part_sequence]; try done; eauto. by apply dict_del_keys. }
  split; [by apply grown_same|done| |set_solver|constructor|].
  - intros r Hr. left. apply active_refs_elem; [done|]. apply elem_of_parts in Hr as (k' & Hk'); [|done]. exists k'. cbn [_active set_active].
    rewrite dict_get_del, decide_False; [done|]. intros ->. by destruct (Hk r).
  - intros r (k' & Hk')%active_refs_elem; [|done]. left. apply elem_of_parts; [done|]. exists k'. by apply Hget.
Qed.

(** Retiring an active part and giving its key to another entry. *)
Lemma moves_replace k c e why closed p s : set_ok s -> dict_get k (_active s) = Some (Part c) -> heap s !! c = Some p ->
  may_retire why closed -> installable e s ->
  let s1 := set_heap (<[c := set_closed why closed p]> (heap s)) s in
  moves [] [c] s (set_active (dict_set k e (_active s1)) s1).
Proof.
  intros Hs Hk Hp Hm Hi s1. pose proof Hs as [O1 O2 O3 O4 O5]. destruct (O3 k c Hk) as (p' & Hp' & Ho). rewrite Hp in Hp'. injection Hp' as <-.
  assert (Hg : grown [] s s1).
  { apply grown_write with (p := p); [done|]. eapply (becomes_retire why closed). by apply retire_open. }
  assert (Hat : forall r q, r <> c -> heap s !! r = Some q -> heap s1 !! r = Some q).
  { intros r q Hr Hq. unfold s1. cbn [heap set_heap]. by rewrite list_lookup_insert_ne. }
  assert (Hget : forall k' r, dict_get k' (dict_set k e (_active s)) = Some (Part r) -> k' = k /\ e = Part r \/ k' <> k /\ r <> c /\ dict_get k' (_active s) = Some (Part r)).
  { intros k' r. rewrite dict_get_set. case_decide as Hd; [intros [= ->]; by left|]. intros Hr. right. split_and!; try done. intros ->. apply Hd. by eapply O2. }
  assert (Hs' : set_ok (set_active (dict_set k e (_active s1)) s1)).
  { split; cbn [_active set_active s1 set_heap _next_part_sequence]; try done.
    - by apply dict_set_keys.
    - intros k1 k2 r H1%Hget H2%Hget. destruct H1 as [[-> He]|(N1 & _ & H1)], H2 as [[-> He']|(N2 & _ & H2)]; try done; [| |by eapply O2].
      all: subst e; destruct Hi as (_ & Hi & _); destruct Hi; apply elem_of_parts; [done|by eexists].
    - intros k1 r H1%Hget. destruct H1 as [[-> ->]|(_ & Hr & H1)].
      + destruct Hi as (_ & Hi & q & Hq & Hn). exists q. split; [|done]. apply Hat; [|done]. intros ->. apply Hi. apply elem_of_parts; [done|by exists k].
      + destruct (O3 k1 r H1) as (q & Hq & Hn). exists q. split; [by apply Hat|done].
    - intros k1 v. rewrite dict_get_set. case_decide; [|by apply O4]. intros [= ->]. exact Hi. }
  split; [|done| | |apply NoDup_singleton|].
  - eapply grown_trans'; [exact Hg|]. by apply grown_same.
  - intros r (k' & Hk')%active_refs_elem; [|done]. destruct (decide (k' = k)) as [->|Hne].
    + right. apply list_elem_of_singleton. rewrite Hk in Hk'. by injection Hk' as <-.
    + left. apply active_refs_elem; [done|]. exists k'. cbn [_active set_active s1 set_heap]. by rewrite dict_get_set, decide_False.
  - intros r ->%list_elem_of_singleton. split; [apply active_refs_elem; [done|by exists k]|]. exists (set_closed why closed p). split; [|by eexists].
    cbn [heap set_active s1 set_heap]. rewrite list_lookup_insert_eq; [done|]. by apply lookup_lt_Some in Hp.
  - intros r (k' & Hk')%active_refs_elem; [|done]. apply Hget in Hk' as [[-> ->]|(_ & _ & Hk')]; [right; apply Hi|left].
    apply active_refs_elem; [done|by exists k'].
Qed.
End Steps.
