(* ===== verification/PartSetOps.v ===== *)
(** Where reservations and parts are (a reservation is in the directory of its hour, the part
    made for it is there, and a replacement is next to the part it replaces), and what the
    operations of the set on them do to it. *)
From S2P Require Import Prelude PyDecimal Domain StorageModels PyText PyTime CatalogJson PartPath EnvelopeJson Durability FrameScan ScanFacts.
From S2P Require Import RecoveryScan PathFacts RowFacts ActivePart ActivePartRuns ActivePartSteps ActivePartInv ActiveParts PartSet PartSetRuns.
From S2P Require Import PartSetSteps.
From S2P Require StreamFile.

Lemma removesuffix_join l f w : removesuffix w (join_with "/" (l ++ [f +:+ w])) = join_with "/" (l ++ [f]).
Proof. rewrite join_last. apply removesuffix_app. Qed.
Lemma at_dirs_split dirs start path : in_hour dirs start -> at_dirs dirs start path ->
  exists q, 0 <= q /\ path = join_with "/" (dirs ++ [part_filename start q +:+ ".partial"]) /\
    split_on slash path = dirs ++ [part_filename start q +:+ ".partial"] /\
    split_on slash (removesuffix ".partial" path) = dirs ++ [part_filename start q].
Proof.
  intros (scope & h & -> & _ & _ & Hs & Hc) (q & Hq & ->). exists q. rewrite <- join_last, removesuffix_join.
  destruct (parse_segments scope h start q ".partial" (or_intror eq_refl) Hc Hs Hq) as (_ & Hsp & _).
  destruct (parse_segments scope h start q "" (or_introl eq_refl) Hc Hs Hq) as (_ & Hsp' & _). rewrite append_nil in Hsp'.
  rewrite !app_assoc in *. done.
Qed.

(** A file next to a part. *)
Lemma sibling_path dirs start path q : in_hour dirs start -> at_dirs dirs start path -> 0 <= q ->
  at_dirs dirs start (with_name path (part_filename start q +:+ ".partial")).
Proof.
  intros Hd Hat Hq. destruct (at_dirs_split _ _ _ Hd Hat) as (q0 & _ & _ & Hsp & _). exists q. split; [done|].
  unfold with_name. by rewrite Hsp, removelast_last, join_last.
Qed.

(** The path of a record's reservation. *)
Lemma record_located r seq path : envelope_made (envelope r) -> opt_ok is_text (instrument_key (base (envelope r))) = true ->
  raw_partial_path (envelope r) (received_at_ns (envelope r) / _HOUR_NS * _HOUR_NS) seq = Ok path ->
  exists h, received_hour (received_at_ns (envelope r)) = Some h /\
    received_at_ns (envelope r) / _HOUR_NS * _HOUR_NS = timestamp h * _NS_PER_SECOND /\
    located path (received_at_ns (envelope r) / _HOUR_NS * _HOUR_NS).
Proof.
  intros [Hm _] Ht Hp. assert (exists h, received_hour (received_at_ns (envelope r)) = Some h) as [h Hh].
  { unfold raw_partial_path in Hp. apply rbind_ok in Hp as (? & _ & Hp). apply rbind_ok in Hp as (? & _ & Hp).
    destruct (received_hour _) as [h|]; [by exists h|done]. }
  exists h. assert (Hts : received_at_ns (envelope r) / _HOUR_NS * _HOUR_NS = timestamp h * _NS_PER_SECOND).
  { rewrite (timestamp_of_hour _ _ Hh). unfold _HOUR_NS, _NS_PER_SECOND. rewrite Z.div_div by done. change (1000000000 * 3600) with 3600000000000. ring. }
  split_and!; [done|done|].
  destruct (partial_path_segments _ _ _ _ _ Hm Ht Hh Hp) as (scope & _ & Hs & Hq & Hpos & Hc & ->).
  exists (scope ++ hour_segments h). split.
  - exists scope, h. split_and!; try done. apply (hour_segments_ok _ _ Hh). apply Z.div_pos; [lia|done].
  - exists seq. split; [done|]. by rewrite <- (assoc_L (++)).
Qed.

(** A record whose path is that of a reservation is of its hour. *)
Lemma same_path_hour r start seq path : envelope_made (envelope r) -> opt_ok is_text (instrument_key (base (envelope r))) = true ->
  raw_partial_path (envelope r) start seq = Ok path -> located path start -> start = received_at_ns (envelope r) / _HOUR_NS * _HOUR_NS.
Proof.
  intros [Hm _] Ht Hp (dirs & Hd & Hat). destruct (at_dirs_split _ _ _ Hd Hat) as (q & _ & _ & Hsp & _).
  assert (exists h, received_hour (received_at_ns (envelope r)) = Some h) as [h Hh].
  { unfold raw_partial_path in Hp. apply rbind_ok in Hp as (? & _ & Hp). apply rbind_ok in Hp as (? & _ & Hp).
    destruct (received_hour _) as [h|]; [by exists h|done]. }
  destruct (partial_path_segments _ _ _ _ _ Hm Ht Hh Hp) as (scope & _ & Hs & Hq & Hpos & Hc & ->).
  destruct (parse_segments scope h start seq ".partial" (or_intror eq_refl) Hc Hs Hq) as (_ & Hsp' & _).
  rewrite app_assoc, <- join_last, <- app_assoc, Hsp' in Hsp. destruct Hd as (scope' & h' & -> & Hh' & -> & _).
  rewrite !app_assoc in Hsp. apply app_inj_2 in Hsp as [Hsp _]; [|done]. apply app_inj_2 in Hsp as [_ Hsp]; [|done].
  destruct (hour_segments_ok _ _ Hh) as [_ Hh'']; [by apply Z.div_pos; [lia|]|]. rewrite Hsp, Hh' in Hh''. injection Hh'' as ->.
  rewrite (timestamp_of_hour _ _ Hh). unfold _HOUR_NS, _NS_PER_SECOND. rewrite Z.div_div by done. change (1000000000 * 3600) with 3600000000000. ring.
Qed.

Lemma part_init_path stream path a start seq hour created p : part_init stream path a start seq hour created = Ok p ->
  partial_path p = path /\ part_start_ns p = start.
Proof.
  unfold part_init. intros Ha. apply rbind_ok in Ha as (m & _ & Ha). apply rbind_ok in Ha as (c & _ & Ha). by apply rbind_ok in Ha as (h & _ & [= <-]).
Qed.

Lemma filename_plain start q : removesuffix ".partial" (part_filename start q) = part_filename start q.
Proof.
  pose proof (filename_suffix start q) as [t Ht]%suffix_iff. rewrite Ht. unfold removesuffix. by rewrite (proj1 (suffix_zst _)).
Qed.

Section Made.
Context `{StreamFile.Compressor} (lines : AcceptedRecord -> Prop) (Hcompress : forall q, StreamFile.compress q <> "").

(** A part made for a reservation of its record. *)
Lemma allocated_part r i gid start seq level max slo created fd p : record_made lines r -> located (partial_path p) start ->
  allocate r i gid start seq level max slo created fd = Ok p ->
  part_made p /\ generation_id p = gid /\ p_received_hour p = received_at_ns (envelope r) / _HOUR_NS /\ p_record_count p = 0 /\
  p_close_reason p = None /\ part_start_ns p = start.
Proof.
  intros (Hm & Hs & Ht & _) Hl Ha. pose proof Ha as (stream & a & Hp & Hst & _ & Hacc & Hi)%allocate_inv.
  pose proof (same_path_hour _ _ _ _ Hm Ht Hp Hl) as Hstart. rewrite Hstart in Hp. destruct (record_located _ _ _ Hm Ht Hp) as (h & Hh & _ & _).
  pose proof (allocate_new _ _ _ _ _ _ _ _ _ _ _ Hcompress Ha) as Hnew. rewrite Hstart in Ha.
  pose proof (allocate_placed _ _ _ _ _ _ _ _ _ _ _ Hcompress Hm Hs Ht Hh Ha) as Hpl.
  destruct (part_init_path _ _ _ _ _ _ _ _ Hi) as [_ E]. destruct (stream_new _ _ _ _ _ Hcompress Hst) as (_ & _ & Hgid & _).
  apply part_init_inv in Hi as (E1 & _ & E3 & _ & E5 & _ & _ & _ & E6 & _). split_and!; try done.
  - split; [done|]. unfold part_placed. rewrite E. split_and!; [done|done|by eexists].
  - unfold generation_id. by rewrite E1.
  - destruct Hnew as (_ & _ & _ & Hr & _). unfold p_record_count, record_count. by rewrite Hr.
Qed.

(** Where a part is does not change. *)
Lemma placed_fixed id p p' : fixed p' = fixed p -> placed id p -> placed id p'.
Proof.
  unfold fixed. intros [= F1 F2 F3 F4 F5 F6 F7 F8 F9 F10 F11 F12] [P1 P2 P3 P4 P5 P6 P7 P8].
  split; rewrite ?F1, ?F2, ?F3, ?F4, ?F5, ?F6, ?F7, ?F8, ?F9, ?F10, ?F11, ?F12; done.
Qed.
Lemma part_placed_fixed p p' : fixed p' = fixed p -> part_placed p -> part_placed p'.
Proof.
  intros Hf (H1 & H2 & id & Hid). pose proof (placed_fixed id _ _ Hf Hid) as Hpl. unfold fixed in Hf. injection Hf as F1 F2 F3 F4 F5 F6 F7 _ _ _ _ _.
  split_and!; [by rewrite F1, F4|by rewrite F1, F2|by exists id].
Qed.

(** The replacement of a part, next to it. *)
Lemma replacement_part c gid path seq level max slo created fd p : part_placed c ->
  (forall dirs, in_hour dirs (part_start_ns c) -> at_dirs dirs (part_start_ns c) (partial_path c) -> at_dirs dirs (part_start_ns c) path) ->
  allocate_empty_replacement c gid path (part_start_ns c) seq level max slo created fd = Ok p -> part_made p.
Proof.
  intros ((dirs & Hd & Hat) & Hdata & id & Hpl) Hbeside Ha. pose proof (Hbeside _ Hd Hat) as Hat'.
  destruct (at_dirs_split _ _ _ Hd Hat) as (q & Hq & _ & _ & Hspc). destruct (at_dirs_split _ _ _ Hd Hat') as (q' & Hq' & Hpath & _ & Hspp).
  unfold allocate_empty_replacement in Ha. apply rbind_ok in Ha as (g & Hg & Ha). unfold _nonempty in Hg. apply raise_if_ok in Hg as [_ [= <-]].
  apply rbind_ok in Ha as (st & Hst & Ha). apply rbind_ok in Ha as (a & Hacc & Hi).
  pose proof (new_part_made _ _ _ _ _ _ _ _ _ _ _ _ _ _ Hcompress Hst Hacc Hi) as Hnew.
  destruct (part_init_path _ _ _ _ _ _ _ _ Hi) as [E1 E2]. destruct (stream_new _ _ _ _ _ Hcompress Hst) as (_ & _ & _ & _ & F1 & F2).
  apply initialize_inv in Hacc as (Hseed & _). apply part_init_inv in Hi as (I1 & I2 & I3 & I4 & I5 & I6 & _).
  split; [done|]. unfold part_placed. rewrite E1, E2. split_and!; [by exists dirs|done|]. exists id.
  destruct (parse_path_inv _ _ (pl_path _ _ Hpl)) as (dirs' & f & start0 & q0 & Hsrc).
  pose proof (sa_split _ _ _ _ _ _ Hsrc) as E. rewrite Hdata, Hspc in E. apply app_inj_2 in E as [<- E]; [|done]. injection E as <-.
  assert (Hpos : 0 <= part_start_ns c) by (by destruct Hd as (? & ? & _ & _ & _ & ? & _)).
  assert (Hstart : start0 = part_start_ns c).
  { pose proof (sa_name _ _ _ _ _ _ Hsrc) as Hn. rewrite filename_plain, part_name_parsed in Hn by done. by injection Hn. }
  rewrite Hstart in Hsrc. assert (Hpd : p_data_relative_path p = join_with "/" (dirs ++ [part_filename (part_start_ns c) q'])).
  { by rewrite I3, Hpath, removesuffix_join. }
  destruct (fresh_name Hsrc q' Hq') as [Hcomp Hname]. pose proof Hpl as [_ _ _ P4 P5 P6 _ _].
  split; rewrite ?I1, ?I2, ?I5, ?Hseed; try done.
  - rewrite Hpd. apply (sa_siblings _ _ _ _ _ _ Hsrc _ q'); [done|]. by rewrite filename_plain.
  - rewrite Hpd, suffix_join by done. apply filename_suffix.
Qed.
End Made.

Section Ops.
Context (uuid4 : nat -> string) `{StreamFile.Compressor} (lines : AcceptedRecord -> Prop) (may : ref -> Prop) (Hcompress : forall q, StreamFile.compress q <> "").
#[local] Abbreviation moves := (moves lines may).
#[local] Abbreviation installable := (installable may).
#[local] Abbreviation record_made := (record_made lines).

(** ** Reservations *)
Lemma moves_draw s : set_ok s -> moves [] [] s (draw s).
Proof.
  intros Hs. apply moves_grown; [done|apply grown_same; [done|cbn; lia]|done|]. intros r p _ Hp. by exists p.
Qed.

Lemma reserve_part_spec r s s' x : set_ok s -> record_made r -> reserve_part uuid4 r s = (s', x) ->
  moves [] [] s s' /\ _active s' = _active s /\ heap s' = heap s /\
  forall v, x = Ok v -> reservation_ok v /\ key v = _key (envelope r) /\ v_received_hour v = received_at_ns (envelope r) / _HOUR_NS.
Proof.
  intros Hs (Hm & _ & Ht & _) E. unfold reserve_part in E. destruct (negb _); [injection E as <- <-; split_and!; [by apply moves_refl|done..]|].
  injection E as <- <-. split_and!; [by apply moves_draw|done|done|].
  intros v Hv. apply rbind_ok in Hv as (path & Hp & [= <-]). destruct (record_located _ _ _ Hm Ht Hp) as (_ & _ & _ & Hl).
  split_and!; [exact Hl|done|]. unfold v_received_hour. cbn. by rewrite Z.div_mul.
Qed.

(** A part made for a reservation. *)
Lemma opening_ok opened make p : opening opened make = Ok p -> exists fd, make fd = Ok p.
Proof. unfold opening. destruct opened; [by eexists|]. intros Hm. by apply rbind_ok in Hm as (? & _ & Hm). Qed.
Definition made_at (s : _ActivePartSet) (r : ref) (p : _ActivePart) (s' : _ActivePartSet) : Prop :=
  r = length (heap s) /\ s' = set_heap (heap s ++ [p]) s.
Lemma materialize_reserved_spec v r i created opened s s' x : set_ok s -> reservation_ok v -> record_made r ->
  materialize_reserved v r i created opened s = (s', x) ->
  match x with
  | Ok c => exists p, made_at s c p s' /\ part_made p /\ matches_reservation v p = true /\ p_record_count p = 0 /\ p_close_reason p = None /\
      p_received_hour p = received_at_ns (envelope r) / _HOUR_NS /\ key v = _key (envelope r)
  | Err _ => s' = s
  end.
Proof.
  intros Hs Hv Hr E. unfold materialize_reserved in E. look E; [done|]. look E; [done|]. look E; [done|]. look E; [done|].
  unfold keep_part in E. destruct (opening _ _) as [p|] eqn:Ho; injection E as <- <-; [|done].
  bool_prop. apply opening_ok in Ho as [fd Ha]. exists p. pose proof Ha as (? & ? & Hp & _)%allocate_inv.
  assert (Hpath : partial_path p = v_partial_path v).
  { match goal with E1 : raw_partial_path _ _ _ = Ok ?y, E2 : String.eqb ?y _ = true |- _ =>
      apply String.eqb_eq in E2; rewrite Hp in E1; injection E1 as E1; congruence end. }
  destruct (allocated_part lines Hcompress r i _ _ _ _ _ _ _ _ p Hr ltac:(by rewrite Hpath) Ha) as (Hmade & Hg & Hh & Hc & Hcl & _).
  split_and!; try done. unfold matches_reservation. by rewrite Hg, Hpath, !String.eqb_refl.
Qed.
Lemma moves_made s c p s' : set_ok s -> part_made p -> made_at s c p s' -> p_close_reason p = None ->
  moves [] [] s s' /\ c ∉ active_refs s' /\ heap s' !! c = Some p /\ heap s !! c = None /\ _active s' = _active s.
Proof.
  intros Hs Hm [-> ->] Hc. assert (Hnone : heap s !! length (heap s) = None) by (by apply lookup_ge_None).
  split_and!; try done.
  - apply moves_grown; [done|by apply grown_keep|done|]. intros r q _ Hq. exists q. split; [|done]. by apply lookup_app_l_Some.
  - intros Hin. destruct (active_open s _ Hs Hin) as (q & Hq & _). discriminate (eq_trans (eq_sym Hnone) Hq).
  - cbn [heap set_heap]. by rewrite lookup_app_r, Nat.sub_diag.
Qed.

(** Giving a key that no part has to a part made for it. *)
Lemma no_part_get k s : no_part k s <-> match dict_get k (_active s) with Some (Part _) => False | _ => True end.
Proof. unfold no_part. destruct (dict_get k (_active s)) as [[r|v]|]; split; try done. intros Hn. by destruct (Hn r). Qed.

Lemma begin_initial_moves r s s' x : set_ok s -> record_made r -> begin_initial_reservation uuid4 r s = (s', x) ->
  moves [] [] s s' /\ forall v, x = Ok v -> reservation_ok v.
Proof.
  intros Hs Hr E. unfold begin_initial_reservation in E. look E; [split; [by apply moves_refl|done]|]. bool_prop.
  unfold mbind in E. destruct (reserve_part uuid4 r s) as [s1 y] eqn:Er.
  destruct (reserve_part_spec r s s1 y Hs Hr Er) as (Hmv & Ha & _ & Hv). destruct y as [v|e]; [|injection E as <- <-; by split].
  injection E as <- <-. destruct (Hv v eq_refl) as (Hok & Hk & _). split; [|by intros v' [= ->]].
  eapply moves_trans'; [exact Hmv|]. apply moves_assign; [apply Hmv| |done]. apply no_part_get. rewrite Ha.
  match goal with Hn : ~ is_Some _ |- _ => apply eq_None_not_Some in Hn; by rewrite Hn end.
Qed.

(** Checks of a list are of the state before the list. *)
Ltac look_through := match goal with |- (mbind ?m ?k _).1 = _ => apply (reads_bind m k); auto 9 with part_set end.
Lemma check_materialized_reads m : reads (check_materialized m).
Proof. intros s. unfold check_materialized. destruct m as [v r]. look_through. Qed.
Lemma check_rotation_reads plan : reads (check_rotation plan).
Proof. intros s. unfold check_rotation. look_through. Qed.
Lemma check_committed_reads m : reads (check_committed m).
Proof. intros s. unfold check_committed. destruct m as [plan r]. look_through. Qed.
Lemma check_retirement_reads why closed r : reads (check_retirement why closed r).
Proof. unfold check_retirement. auto with part_set. Qed.

Lemma entry_is_true s k e : entry_is s k e = true <-> dict_get k (_active s) = Some e.
Proof. unfold entry_is. apply bool_decide_eq_true. Qed.

(** Giving several keys to entries, in order. *)
Lemma assign_all {A} (k : A -> _LogicalPartKey) (e : A -> _ActivePartEntry) l s s' x : set_ok s -> NoDup (k <$> l) ->
  Forall (fun a => no_part (k a) s) l -> Forall (fun a => installable (e a) s) l ->
  NoDup (omap (fun a => match e a with Part r => Some r | Reservation _ => None end) l) ->
  each (fun a => assign (k a) (e a)) l s = (s', x) ->
  moves [] [] s s' /\ x = Ok tt /\ heap s' = heap s.
Proof.
  revert s. induction l as [|a l IH]; intros s Hs Hk Hn Hi Hr E; [injection E as <- <-; split_and!; [by apply moves_refl|done|done]|].
  cbn [each] in E. unfold mbind in E. cbn [assign] in E. rewrite fmap_cons in Hk. apply NoDup_cons in Hk as [Hk0 Hk].
  apply Forall_cons in Hn as [Hn0 Hn]. apply Forall_cons in Hi as [Hi0 Hi]. pose proof (moves_assign lines may (k a) (e a) s Hs Hn0 Hi0) as Hm.
  assert (Hkb : forall b, b ∈ l -> k b <> k a) by (intros b Hb Heq; apply Hk0; rewrite <- Heq; apply list_elem_of_fmap; by exists b).
  set (s1 := set_active (dict_set (k a) (e a) (_active s)) s) in *.
  assert (Hn1 : Forall (fun b => no_part (k b) s1) l).
  { apply Forall_forall. intros b Hb r. unfold s1. cbn [_active set_active]. rewrite dict_get_set, decide_False by (by apply Hkb).
    exact (proj1 (Forall_forall _ _) Hn b Hb r). }
  assert (Hi1 : Forall (fun b => installable (e b) s1) l).
  { apply Forall_forall. intros b Hb. pose proof (proj1 (Forall_forall _ _) Hi b Hb) as Hib. cbn in Hib. destruct (e b) as [r|v] eqn:Eb; [|exact Hib].
    destruct Hib as (Hw & Hnr & Hp). split; [done|]. split; [|done]. intros (k' & Hk')%active_refs_elem; [|apply Hm]. unfold s1 in Hk'. cbn [_active set_active] in Hk'.
    rewrite dict_get_set in Hk'. case_decide; [|apply Hnr; apply active_refs_elem; [done|by exists k']]. injection Hk' as Ea.
    cbn in Hr. rewrite Ea in Hr. apply NoDup_cons in Hr as [Hr _]. apply Hr. apply list_elem_of_omap. exists b. by rewrite Eb. }
  assert (Hr1 : NoDup (omap (fun a => match e a with Part r => Some r | Reservation _ => None end) l)).
  { cbn in Hr. destruct (e a); [by apply NoDup_cons in Hr as [_ Hr]|done]. }
  apply IH in E as (Hm' & -> & Hh); try done; [|apply Hm]. split_and!; [by eapply moves_trans'|done|by rewrite Hh].
Qed.

Lemma commit_reserved_moves l s s' x : set_ok s -> Forall (fun r => installable (Part r) s) l.*2 -> NoDup l.*2 ->
  commit_reserved_batch l s = (s', x) -> moves [] [] s s'.
Proof.
  intros Hs Hf Hd E. unfold commit_reserved_batch in E. look E; [by apply moves_refl|].
  destruct (reads_bind_run _ _ _ _ _ (reads_each _ _ check_materialized_reads) E) as [[-> _]|([] & Hc & E')]; [by apply moves_refl|]. clear E. rename E' into E.
  apply (each_reads_ok _ _ _ _ _ check_materialized_reads) in Hc as [_ Hc]. look E; [by apply moves_refl|]. bool_prop.
  eapply assign_all in E as (Hm & _); try done.
  - eapply Forall_impl; [exact Hc|]. intros [v r] Hcm. cbn. unfold check_materialized in Hcm. run_ok Hcm. bool_prop.
    apply no_part_get. by match goal with Hi : entry_is _ _ _ = true |- _ => apply entry_is_true in Hi; rewrite Hi end.
  - apply Forall_fmap in Hf. exact Hf.
Qed.

Lemma rollback_moves l s s' x : set_ok s -> rollback_reserved_batch l s = (s', x) -> moves [] [] s s'.
Proof.
  intros Hs E. unfold rollback_reserved_batch in E. look E; [by apply moves_refl|].
  assert (Hreads : forall v, reads (fun s => check (negb (entry_is s (key v) (Reservation v))) "initial reservation is no longer logical-active" s)) by done.
  destruct (reads_bind_run _ _ _ _ _ (reads_each _ _ Hreads) E) as [[-> _]|([] & Hc & E')]; [by apply moves_refl|]. clear E. rename E' into E.
  apply (each_reads_ok _ _ _ _ _ Hreads) in Hc as [_ Hc]. look E; [by apply moves_refl|]. bool_prop.
  assert (Hk : NoDup (key <$> l)) by done. assert (Hn : Forall (fun v => no_part (key v) s) l).
  { eapply Forall_impl; [exact Hc|]. intros v Hv. cbn in Hv. apply check_ok in Hv as [Hv _]. bool_prop. apply no_part_get.
    by match goal with Hi : entry_is _ _ _ = true |- _ => apply entry_is_true in Hi; rewrite Hi end. }
  clear Hc Hreads. revert s Hs Hn E. clear - Hk. induction l as [|v l IH]; intros s Hs Hn E; [injection E as <- <-; by apply moves_refl|].
  cbn [each] in E. unfold mbind in E. apply Forall_cons in Hn as [Hn0 Hn]. rewrite fmap_cons in Hk. apply NoDup_cons in Hk as [Hk0 Hk].
  pose proof (moves_del lines may (key v) s Hs Hn0) as Hm. eapply moves_trans'; [exact Hm|]. apply (IH Hk) in E; [done|apply Hm|].
  eapply Forall_impl; [exact Hn|]. intros b Hb r Hr. cbn [_active set_active] in Hr. rewrite dict_get_del in Hr. case_decide; [done|]. by apply (Hb r).
Qed.

Lemma install_moves v r s s' x : set_ok s -> installable (Part r) s -> install_reserved v r s = (s', x) -> moves [] [] s s'.
Proof.
  intros Hs Hi E. unfold install_reserved in E. look E; [by apply moves_refl|]. look E; [by apply moves_refl|]. look E; [by apply moves_refl|].
  injection E as <- _. apply moves_assign; [done| |done]. apply no_part_get. destruct (dict_get _ _) as [[c|v']|] eqn:Eg; try done.
  rewrite bool_decide_eq_true_2 in Hrun by (by eexists). unfold entry_is in Hrun. rewrite Eg, bool_decide_eq_false_2 in Hrun by done. done.
Qed.

Lemma on_retire why closed c p s : heap s !! c = Some p -> may_retire why closed -> p_close_reason p = None ->
  on_part c (retire why closed) s = (set_heap (<[c := set_closed why closed p]> (heap s)) s, Ok tt).
Proof. intros Hp Hm Ho. unfold on_part. by rewrite Hp, retire_open. Qed.
Lemma retire_ok why closed p p' : retire why closed p = (p', Ok tt) -> may_retire why closed.
Proof. unfold retire. destruct (validate_retirement _ _ _) eqn:Ev; [|done]. intros _. by apply validate_ok_may in Ev as [? _]. Qed.
Lemma on_part_same {A} r (m : M _ActivePart A) s s' e : (forall p p' e, m p = (p', Err e) -> p' = p) -> on_part r m s = (s', Err e) -> s' = s.
Proof.
  intros Hm E. unfold on_part in E. destruct (heap s !! r) as [p|] eqn:Hp; [|by injection E as <-]. destruct (m p) as [p' y] eqn:Em. injection E as <- ->.
  rewrite (Hm _ _ _ Em). rewrite list_insert_id by done. by destruct s.
Qed.
Lemma retire_err why closed p p' e : retire why closed p = (p', Err e) -> p' = p.
Proof. unfold retire. destruct (validate_retirement _ _ _); by intros [=]. Qed.

Lemma replace_moves v r closed s s' x : set_ok s -> installable (Part r) s -> replace_reserved_for_hour v r closed s = (s', x) ->
  moves [] (match x with Ok o => option_list o | Err _ => [] end) s s'.
Proof.
  intros Hs Hi E. unfold replace_reserved_for_hour in E. destruct (dict_get (key v) (_active s)) as [e|] eqn:Eg; [|injection E as <- <-; by apply moves_refl].
  look E; [by apply moves_refl|]. look E; [by apply moves_refl|]. look E; [by apply moves_refl|]. look E; [by apply moves_refl|].
  destruct e as [c|v'].
  - destruct (so_open _ Hs _ _ Eg) as (p & Hp & Ho). unfold mbind in E. destruct (on_part c _ s) as [s1 [[]|e]] eqn:Er.
    + unfold on_part in Er. rewrite Hp in Er. destruct (retire _ _ p) as [p' y] eqn:Ep. injection Er as <- ->. pose proof (retire_ok _ _ _ _ Ep) as Hm.
      rewrite retire_open in Ep by done. injection Ep as <-. injection E as <- <-. cbn [option_list]. by apply moves_replace with (why := ROTATE_TIME) (closed := closed).
    + injection E as <- <-. apply on_part_same in Er as ->; [by apply moves_refl|]. apply retire_err.
  - injection E as <- <-. cbn [option_list]. apply moves_assign; [done| |done]. apply no_part_get. by rewrite Eg.
Qed.
End Ops.
