(* ===== verification/PartSetRotations.v ===== *)
(** The rotations of a set (planning them, beginning them, making the replacements and
    committing them), and the operations that detach parts: all of them, when the writer
    closes or its configuration changes, or those that are due. *)
From S2P Require Import Prelude PyDecimal Domain StorageModels PyText PyTime CatalogJson PartPath EnvelopeJson Durability FrameScan RowFacts ActivePart.
From S2P Require Import ActivePartRuns ActivePartSteps ActivePartInv ActiveParts PartSet PartSetRuns PartSetSteps PartSetOps.
From S2P Require StreamFile.

(** An operation that only draws sequences. *)
Definition same_parts (s s' : _ActivePartSet) : Prop :=
  _active s' = _active s /\ heap s' = heap s /\ _next_part_sequence s <= _next_part_sequence s'.

Section Rotations.
Context (uuid4 : nat -> string) `{StreamFile.Compressor} (lines : AcceptedRecord -> Prop) (may : ref -> Prop) (Hcompress : forall q, StreamFile.compress q <> "").
#[local] Abbreviation moves := (moves lines may).
#[local] Abbreviation installable := (installable may).
#[local] Abbreviation record_made := (record_made lines).

Lemma same_parts_refl s : same_parts s s.
Proof. done. Qed.
Lemma same_parts_trans s1 s2 s3 : same_parts s1 s2 -> same_parts s2 s3 -> same_parts s1 s3.
Proof. intros (A1 & H1 & Q1) (A2 & H2 & Q2). split_and!; [congruence|congruence|lia]. Qed.
Lemma same_parts_moves s s' : set_ok s -> same_parts s s' -> moves [] [] s s'.
Proof.
  intros Hs (Ha & Hh & Hq). apply moves_grown; [done|by apply grown_same|done|]. intros r p _ Hp. exists p. by rewrite Hh.
Qed.

(** A reservation next to a part. *)
Lemma reserve_replacement_spec k p created s s' x : 0 <= _next_part_sequence s -> _reserve_replacement uuid4 k p created s = (s', x) ->
  same_parts s s' /\ (0 <= created -> is_ok x = true) /\
  forall v, x = Ok v -> key v = k /\ v_part_start_ns v = part_start_ns p /\
    (forall dirs, in_hour dirs (part_start_ns p) -> at_dirs dirs (part_start_ns p) (partial_path p) -> at_dirs dirs (part_start_ns p) (v_partial_path v)).
Proof.
  intros Hq E. injection E as <- <-. split; [split_and!; [done|done|cbn; lia]|]. split.
  - intros Hc. unfold _nonnegative. by rewrite (proj2 (Z.ltb_ge _ _)).
  - intros v Hv. apply rbind_ok in Hv as (c & _ & [= <-]). split_and!; [done|done|]. intros dirs Hd Hat. by apply sibling_path.
Qed.
Lemma beside_ok v p : part_placed p -> v_part_start_ns v = part_start_ns p ->
  (forall dirs, in_hour dirs (part_start_ns p) -> at_dirs dirs (part_start_ns p) (partial_path p) -> at_dirs dirs (part_start_ns p) (v_partial_path v)) ->
  reservation_ok v.
Proof. intros ((dirs & Hd & Hat) & _) E Hb. exists dirs. rewrite E. auto. Qed.

(** ** Planning *)
Context (s0 : _ActivePartSet) (Hs0 : set_ok s0) (Hplaced : forall r p, r ∈ active_refs s0 -> heap s0 !! r = Some p -> part_placed p).
Definition plan_good (plan : _ActivePartRotation) : Prop :=
  current plan ∈ active_refs s0 /\ plan_ok s0 plan /\ reservation_ok (reservation plan).

Lemma plan_entry_spec now ordinal ke s s' x : ke ∈ _active s0 -> same_parts s0 s -> plan_entry uuid4 now ordinal ke s = (s', x) ->
  same_parts s0 s' /\ forall l, x = Ok l -> Forall plan_good l.
Proof.
  intros Hin Hsame E. unfold plan_entry in E. destruct ke as [k [r|v]]; cbn [fst snd] in E; [|injection E as <- <-; split; [done|by intros l [= <-]]].
  pose proof Hsame as (Ha & Hh & Hq). assert (Hr : r ∈ active_refs s0).
  { apply active_refs_elem; [done|]. exists k. apply dict_get_in; [apply Hs0|done]. }
  rewrite Hh in E. destruct (heap s0 !! r) as [p|] eqn:Hp; [|by injection E as <- <-].
  destruct (p_record_count p =? 0); [injection E as <- <-; split; [done|by intros l [= <-]]|].
  destruct (due_reason s now p) as [why|]; [|injection E as <- <-; split; [done|by intros l [= <-]]].
  look E; [done|]. unfold mbind in E. destruct (_reserve_replacement _ _ _ _ s) as [s1 y] eqn:Er.
  assert (Hpos : 0 <= _next_part_sequence s) by (pose proof (so_sequence _ Hs0); lia).
  destruct (reserve_replacement_spec _ _ _ _ _ _ Hpos Er) as (Hs1 & _ & Hv).
  pose proof (same_parts_trans _ _ _ Hsame Hs1) as Hs2. destruct y as [v|e]; [|by injection E as <- <-]. injection E as <- <-. split; [done|].
  intros l Hl. apply rbind_ok in Hl as (plan & Hpl & [= <-]). unfold rotation_init in Hpl. apply rbind_ok in Hpl as (? & _ & [= <-]).
  destruct (Hv v eq_refl) as (_ & Hst & Hb). repeat constructor; cbn.
  - done.
  - exists p. by split_and!.
  - eapply beside_ok; [by eapply Hplaced|done|done].
Qed.
Lemma plan_entries_spec now ordinal l s s' x : l ⊆ _active s0 -> same_parts s0 s -> plan_entries uuid4 now ordinal l s = (s', x) ->
  same_parts s0 s' /\ forall ps, x = Ok ps -> Forall plan_good ps.
Proof.
  revert s s' x. induction l as [|ke l IH]; intros s s' x Hin Hsame E; [injection E as <- <-; split; [done|intros ps [= <-]; constructor]|].
  cbn [plan_entries] in E. unfold mbind in E. destruct (plan_entry _ _ _ ke s) as [s1 y] eqn:Ee.
  destruct (plan_entry_spec _ _ _ _ _ _ ltac:(apply Hin; by left) Hsame Ee) as [Hs1 Hl]. destruct y as [l1|e]; [|by injection E as <- <-].
  destruct (plan_entries _ _ _ l s1) as [s2 z] eqn:Es. apply IH in Es as [Hs2 Hps]; [|set_solver|done].
  destruct z as [l2|e]; injection E as <- <-; (split; [done|]); [|done]. intros ps [= <-]. apply Forall_app. auto.
Qed.
Lemma plan_due_spec now ordinal s' x : plan_due_rotations uuid4 now ordinal s0 = (s', x) ->
  same_parts s0 s' /\ forall ps, x = Ok ps -> Forall plan_good ps.
Proof.
  intros E. unfold plan_due_rotations in E. look E; [done|]. look E; [done|]. look E; [done|].
  unfold mbind in E. destruct (plan_entries _ _ _ _ s0) as [s1 y] eqn:Ep. 
  match goal with Ha : Ok (_active s0) = Ok ?a |- _ => injection Ha as Ha; subst a end.
  apply plan_entries_spec in Ep as [Hs1 Hps]; [|done|done]. destruct y as [ps|e]; injection E as <- <-; (split; [done|]); [|done].
  intros ps' [= <-]. rewrite py_sorted_perm. by apply Hps.
Qed.

(** ** Beginning and committing *)
Definition startable (s : _ActivePartSet) (plan : _ActivePartRotation) : Prop :=
  dict_get (key (reservation plan)) (_active s) = Some (Part (current plan)) /\ may_retire (reason plan) (closed_at_ns plan) /\
  reservation_ok (reservation plan).
Lemma begin_all l s s' x : set_ok s -> NoDup ((fun plan => key (reservation plan)) <$> l) -> Forall (startable s) l ->
  each (fun plan => do! _ := on_part (current plan) (retire (reason plan) (closed_at_ns plan)) in
                    assign (key (reservation plan)) (Reservation (reservation plan))) l s = (s', x) ->
  x = Ok tt /\ moves [] (current <$> l) s s'.
Proof.
  revert s. induction l as [|plan l IH]; intros s Hs Hk Hl E; [injection E as <- <-; split; [done|by apply moves_refl]|].
  apply Forall_cons in Hl as [(Hg & Hm & Hv) Hl]. rewrite fmap_cons in Hk. apply NoDup_cons in Hk as [Hk0 Hk].
  destruct (so_open _ Hs _ _ Hg) as (p & Hp & Ho). cbn [each] in E. unfold mbind in E. rewrite (on_retire _ _ _ _ _ Hp Hm Ho) in E.
  cbn [assign] in E. pose proof (moves_replace lines may _ _ (Reservation (reservation plan)) _ _ p s Hs Hg Hp Hm Hv) as Hmv.
  cbv zeta in Hmv. match type of Hmv with PartSetSteps.moves _ _ _ _ _ ?t => set (s1 := t) in * end.
  assert (Hl1 : Forall (startable s1) l).
  { apply Forall_forall. intros b Hb. destruct (proj1 (Forall_forall _ _) Hl b Hb) as (Hb1 & Hb2). split; [|done].
    unfold s1. cbn [_active set_active set_heap]. rewrite dict_get_set, decide_False; [done|]. intros Heq. apply Hk0. rewrite <- Heq.
    by apply (list_elem_of_fmap_2 (fun plan => key (reservation plan))). }
  apply IH in E as [-> Hm']; try done; [|apply Hmv]. split; [done|]. rewrite fmap_cons. apply (moves_trans lines may [] [current plan]) with (s2 := s1); try done.
  - apply Forall_forall. intros r _. apply not_elem_of_nil.
  - apply Forall_fmap, Forall_forall. intros b Hb. destruct (proj1 (Forall_forall _ _) Hl b Hb) as (Hb1 & _).
    apply active_refs_elem; [done|by eexists].
Qed.

Lemma begin_moves l s s' x : set_ok s -> Forall (fun plan => reservation_ok (reservation plan)) l -> begin_rotations l s = (s', x) ->
  moves [] (match x with Ok _ => current <$> l | Err _ => [] end) s s'.
Proof.
  intros Hs Hl E. unfold begin_rotations in E. look E; [by apply moves_refl|]. bool_prop.
  destruct (reads_bind_run _ _ _ _ _ (reads_each _ _ check_rotation_reads) E) as [[-> [e ->]]|([] & Hc & E')]; [by apply moves_refl|].
  apply (each_reads_ok _ _ _ _ _ check_rotation_reads) in Hc as [_ Hc]. clear E. apply begin_all in E' as [-> Hm]; try done.
  apply Forall_forall. intros plan Hp. pose proof (proj1 (Forall_forall _ _) Hc plan Hp) as Hcp. cbv beta in Hcp.
  unfold check_rotation in Hcp. run_ok Hcp. bool_prop.
  split_and!; [by apply entry_is_true|by eapply validate_ok_may|exact (proj1 (Forall_forall _ _) Hl plan Hp)].
Qed.

Lemma materialize_rotation_spec plan opened s s' x : set_ok s -> plan_ok s plan ->
  (forall p, heap s !! current plan = Some p -> part_placed p) -> materialize_rotation plan opened s = (s', x) ->
  match x with
  | Ok c => exists p, made_at s c p s' /\ part_made p /\ p_close_reason p = None
  | Err _ => s' = s
  end.
Proof.
  intros Hs (p & Hp & Hst & Hb) Hpl E. unfold materialize_rotation in E. look E; [done|].
  match goal with Hc : heap s !! current plan = Some ?c |- _ => rewrite Hp in Hc; injection Hc as Hc; subst c end.
  unfold keep_part in E. destruct (opening _ _) as [q|] eqn:Ho; injection E as <- <-; [|done].
  apply opening_ok in Ho as [fd Ha]. exists q. rewrite Hst in Ha. pose proof (replacement_part Hcompress p _ _ _ _ _ _ _ _ _ (Hpl p Hp) Hb Ha) as Hm.
  split; [done|]. split; [done|]. by destruct Hm as [(_ & _ & _ & _ & _ & _ & _ & _ & _ & Hn & _) _].
Qed.

Lemma commit_moves l s s' x : set_ok s -> Forall (fun r => installable (Part r) s) l.*2 -> NoDup l.*2 ->
  NoDup ((fun m => key (reservation m.1)) <$> l) -> commit_rotations l s = (s', x) -> moves [] [] s s'.
Proof.
  intros Hs Hf Hd Hk E. unfold commit_rotations in E.
  destruct (reads_bind_run _ _ _ _ _ (reads_each _ _ check_committed_reads) E) as [[-> _]|([] & Hc & E')]; [by apply moves_refl|]. clear E.
  apply (each_reads_ok _ _ _ _ _ check_committed_reads) in Hc as [_ Hc].
  unfold mbind in E'. destruct (each _ l s) as [s1 y] eqn:E. eapply assign_all in E as (Hm & -> & _); try done.
  - by injection E' as <- _.
  - eapply Forall_impl; [exact Hc|]. intros [plan r] Hcm. cbn. unfold check_committed in Hcm. run_ok Hcm. bool_prop.
    apply no_part_get. by match goal with Hi : entry_is _ _ _ = true |- _ => apply entry_is_true in Hi; rewrite Hi end.
  - apply Forall_fmap in Hf. exact Hf.
Qed.
End Rotations.

Section Detach.
Context (uuid4 : nat -> string) `{StreamFile.Compressor} (lines : AcceptedRecord -> Prop) (may : ref -> Prop).
#[local] Abbreviation moves := (moves lines may).
#[local] Abbreviation installable := (installable may).

(** Retiring parts for one reason: those of the list, and no others. *)
Lemma retire_all why closed l s s' x : may_retire why closed ->
  Forall (fun r => exists p, heap s !! r = Some p /\ p_close_reason p = None) l -> NoDup l ->
  each (fun r => on_part r (retire why closed)) l s = (s', x) ->
  x = Ok tt /\ s' = set_heap (heap s') s /\ grown lines [] s s' /\
  (forall r, r ∈ l -> exists p, heap s' !! r = Some p /\ is_Some (p_close_reason p)) /\
  (forall r, r ∉ l -> heap s' !! r = heap s !! r).
Proof.
  intros Hm. revert s. induction l as [|r l IH]; intros s Hl Hd E.
  { injection E as <- <-. split_and!; [done|by destruct s|apply grown_refl|set_solver|done]. }
  apply Forall_cons in Hl as [(p & Hp & Ho) Hl]. apply NoDup_cons in Hd as [Hr Hd]. cbn [each] in E. unfold mbind in E.
  rewrite (on_retire _ _ _ _ _ Hp Hm Ho) in E. set (s1 := set_heap _ s) in *.
  assert (Hat : forall r', r' <> r -> heap s1 !! r' = heap s !! r') by (intros r' Hne; unfold s1; cbn [heap set_heap]; by rewrite list_lookup_insert_ne).
  assert (Hg1 : grown lines [] s s1) by (eapply grown_write; [done|eapply (becomes_retire lines why closed); by apply retire_open]).
  assert (Hl1 : Forall (fun r => exists p, heap s1 !! r = Some p /\ p_close_reason p = None) l).
  { apply Forall_forall. intros r' Hr'. destruct (proj1 (Forall_forall _ _) Hl r' Hr') as (p' & Hp' & Ho'). exists p'.
    rewrite Hat; [done|]. by intros ->. }
  apply IH in E as (-> & Ha & Hg & Hc & Hsame); try done. split_and!; [done|by rewrite Ha at 1|by eapply grown_trans'| |].
  - intros r' [->|Hr']%elem_of_cons; [|by apply Hc]. rewrite Hsame by done. exists (set_closed why closed p). split; [|by eexists].
    unfold s1. cbn [heap set_heap]. rewrite list_lookup_insert_eq; [done|]. by apply lookup_lt_Some in Hp.
  - intros r' [Hne Hn]%not_elem_of_cons. by rewrite Hsame, Hat.
Qed.

Lemma checks_may_retire why closed l s : Forall (fun r => check_retirement why closed r s = (s, Ok tt)) l -> l <> [] -> may_retire why closed.
Proof.
  intros Hl Hne. destruct l as [|r l]; [done|]. apply Forall_cons in Hl as [Hr _]. unfold check_retirement in Hr. run_ok Hr. by eapply validate_ok_may.
Qed.
Lemma active_parts_perm s : active_parts s ≡ₚ active_refs s.
Proof. apply py_sorted_perm. Qed.
Lemma active_refs_nodup s : set_ok s -> NoDup (active_refs s).
Proof.
  intros Hs. unfold active_refs, parts_of. destruct Hs as [Hk Hone _ _ _]. 
  assert (Hin : forall k r, (k, Part r) ∈ _active s -> dict_get k (_active s) = Some (Part r)) by (intros k r; by apply dict_get_in).
  revert Hk Hin. generalize (_active s) at 1 2 4. intros d. induction d as [|[k [r|v]] d IH]; intros Hk Hin; [constructor| |].
  - cbn. apply NoDup_cons in Hk as [Hk0 Hk]. constructor; [|apply IH; [done|intros k' r' Hd; apply Hin; by right]].
    intros ([k' [r'|v']] & Hd & [= ->])%list_elem_of_omap. assert (k = k') as <-.
    { eapply Hone; apply Hin; [by left|by right]. }
    apply Hk0. apply list_elem_of_fmap. by exists (k, Part r).
  - cbn. apply NoDup_cons in Hk as [_ Hk]. apply IH; [done|]. intros k' r' Hd. apply Hin. by right.
Qed.
Lemma moves_clear l s s1 : set_ok s -> l ≡ₚ active_refs s -> _active s1 = _active s -> grown lines [] s s1 ->
  (forall r, r ∈ l -> exists p, heap s1 !! r = Some p /\ is_Some (p_close_reason p)) -> moves [] l s (set_active [] s1).
Proof.
  intros Hs Hl Ha Hg Hc. split.
  - eapply grown_trans'; [exact Hg|]. by apply grown_same.
  - split; cbn [_active set_active]; try done; [constructor|]. pose proof (gr_sequence _ _ _ _ Hg). pose proof (so_sequence _ Hs). cbn. lia.
  - intros r Hr. right. by rewrite Hl.
  - intros r Hr. split; [by rewrite <- Hl|by apply Hc].
  - rewrite Hl. by apply active_refs_nodup.
  - intros r Hr. by apply elem_of_nil in Hr.
Qed.
Lemma detach_all_moves why closed s s' x : set_ok s -> detach_all why closed s = (s', x) ->
  moves [] (match x with Ok l => l | Err _ => [] end) s s' /\ (is_ok x = true -> exists h, s' = set_active [] (set_heap h s)).
Proof.
  intros Hs E. unfold detach_all in E. look E; [split; [by apply moves_refl|done]|]. look E; [split; [by apply moves_refl|done]|].
  match goal with Ha : Ok (active_parts s) = Ok ?a |- _ => injection Ha as Ha; subst a end.
  destruct (reads_bind_run _ _ _ _ _ (reads_each _ _ (check_retirement_reads _ _)) E) as [[-> [e ->]]|([] & Hc & E')]; [split; [by apply moves_refl|done]|].
  apply (each_reads_ok _ _ _ _ _ (check_retirement_reads _ _)) in Hc as [_ Hc]. clear E.
  unfold mbind in E'. destruct (each _ (active_parts s) s) as [s1 y] eqn:E.
  destruct (decide (active_parts s = [])) as [Hnil|Hne].
  { rewrite Hnil in E. injection E as <- <-. rewrite Hnil in E'. injection E' as <- <-. split; [|intros _; exists (heap s); by destruct s].
    apply (moves_clear [] s s); try done; [|apply grown_refl|set_solver]. by rewrite <- active_parts_perm, Hnil. }
  pose proof (checks_may_retire _ _ _ _ Hc Hne) as Hm. apply retire_all in E as (-> & Ha & Hg & Hcl & _); try done.
  - injection E' as <- <-. split; [|intros _; exists (heap s1); by rewrite Ha at 1]. apply moves_clear; try done; [apply active_parts_perm|by rewrite Ha].
  - rewrite active_parts_perm. apply Forall_forall. intros r Hr. by apply active_open.
  - rewrite active_parts_perm. by apply active_refs_nodup.
Qed.

(** ** A new configuration *)
Lemma set_config_moves sha generation s : set_ok s -> moves [] [] s (set_config sha generation s).
Proof. intros Hs. apply moves_grown; [done|by apply grown_same|done|]. intros r p _ Hp. by exists p. Qed.
Lemma prepare_moves sha generation closed s s' x : set_ok s -> prepare_config_rotation sha generation closed s = (s', x) ->
  moves [] (match x with Ok l => l | Err _ => [] end) s s' /\
  (is_ok x = true -> (exists h, s' = set_active [] (set_heap h s)) /\ is_ok (_sha256 sha "config_sha256") = true /\ _config_generation s < generation /\ 0 <= generation).
Proof.
  intros Hs E. unfold prepare_config_rotation in E. look E; [split; [by apply moves_refl|done]|]. look E; [split; [by apply moves_refl|done]|].
  look E; [split; [by apply moves_refl|done]|]. apply detach_all_moves in E as [Hm Ha]; [|done]. split; [done|]. intros Hx.
  unfold _nonnegative in *. inv_ok. bool_prop.
  match goal with Hs : _sha256 _ _ = Ok _ |- _ => rewrite Hs end. split_and!; first [done|by apply Ha|lia].
Qed.
Lemma commit_config_moves sha generation s s' x : set_ok s -> commit_config_rotation sha generation s = (s', x) -> moves [] [] s s'.
Proof.
  intros Hs E. unfold commit_config_rotation in E. do 4 (look E; [by apply moves_refl|]). injection E as <- _. by apply set_config_moves.
Qed.
(** A rotation that has detached the old parts commits. *)
Lemma rotate_moves sha generation closed s s' x : set_ok s -> rotate_for_config sha generation closed s = (s', x) ->
  moves [] (match x with Ok l => l | Err _ => [] end) s s'.
Proof.
  intros Hs E. unfold rotate_for_config, mbind in E. destruct (prepare_config_rotation _ _ _ s) as [s1 y] eqn:Ep.
  pose proof Ep as [Hm Hy]%prepare_moves; [|done]. destruct y as [l|e]; [|by injection E as <- <-]. destruct (Hy eq_refl) as ([h Ha] & Hsha & Hg & Hpos).
  destruct (commit_config_rotation _ _ s1) as [s2 z] eqn:Ec. pose proof (commit_config_moves _ _ _ _ _ (mo_ok _ _ _ _ _ _ Hm) Ec) as Hm2.
  destruct z as [u|e]; [injection E as <- <-; by eapply moves_trans'|]. exfalso.
  unfold commit_config_rotation, _nonnegative in Ec. destruct (_sha256 sha _) as [a|]; [|done]. rewrite (proj2 (Z.ltb_ge generation 0)) in Ec by done.
  rewrite Ha in Ec. cbn in Ec. rewrite (proj2 (Z.leb_gt _ _)) in Ec by done. done.
Qed.

(** ** The parts that are due *)
Lemma moves_perm D l l' s s' : l ≡ₚ l' -> moves D l s s' -> moves D l' s s'.
Proof.
  intros Hp [G O K T N W]. split; [done|done| | |by rewrite <- Hp|done].
  - intros r Hr. rewrite <- Hp. by apply K.
  - intros r Hr. apply T. by rewrite Hp.
Qed.
Lemma due_parts s is_due k r : set_ok s -> (k, r) ∈ due s is_due -> dict_get k (_active s) = Some (Part r).
Proof.
  intros Hs Hin. unfold due in Hin. apply list_elem_of_omap in Hin as ([k' [r'|v]] & Hd & Hx); [|done]. cbn in Hx.
  destruct (heap s !! r') as [p|]; [|done]. destruct (is_due p); [|done]. injection Hx as -> ->. by apply dict_get_in; [apply Hs|].
Qed.
Lemma omap_keys {K V W : Type} (f : K * V -> option (K * W)) d : (forall kv kw, f kv = Some kw -> kw.1 = kv.1) -> NoDup d.*1 -> NoDup (omap f d).*1.
Proof.
  intros Hf. induction d as [|kv d IH]; [done|]. rewrite fmap_cons, NoDup_cons. intros [Hk0 Hk]. cbn. destruct (f kv) as [kw|] eqn:E; [|by apply IH].
  rewrite fmap_cons, NoDup_cons. split; [|by apply IH]. rewrite (Hf _ _ E). intros Hin. apply Hk0.
  apply list_elem_of_fmap in Hin as (kw' & -> & Hin). apply list_elem_of_omap in Hin as (kv' & Hd & E'). rewrite (Hf _ _ E').
  apply list_elem_of_fmap. by exists kv'.
Qed.
Lemma due_nodup s is_due : set_ok s -> NoDup (due s is_due).*1.
Proof.
  intros Hs. apply omap_keys; [|apply Hs]. intros [k [r|v]] kw; [|done]. cbn. destruct (heap s !! r) as [p|]; [|done].
  destruct (is_due p); [|done]. by intros [= <-].
Qed.
Lemma due_refs_nodup s is_due : set_ok s -> NoDup (due s is_due).*2.
Proof.
  intros Hs. pose proof (due_nodup s is_due Hs) as Hk. assert (Hin : forall k r, (k, r) ∈ due s is_due -> dict_get k (_active s) = Some (Part r)) by (intros k r; by apply due_parts).
  revert Hk Hin. generalize (due s is_due). induction l as [|[k r] l IH]; intros Hk Hin; [constructor|]. rewrite fmap_cons in *.
  apply NoDup_cons in Hk as [Hk0 Hk]. apply NoDup_cons. split; [|apply IH; [done|intros k' r' Hl; apply Hin; by right]].
  intros Hr. apply list_elem_of_fmap in Hr as ([k' r'] & E & Hl). cbn in E. subst r'. apply Hk0. apply list_elem_of_fmap. exists (k', r). split; [|done].
  cbn. eapply (so_one _ Hs); apply Hin; [by left|right; exact Hl].
Qed.

Lemma assign_reservations l s s' x : each (fun kv => assign kv.1 (Reservation kv.2)) l s = (s', x) ->
  x = Ok tt /\ exists d, s' = set_active d s /\ (NoDup (_active s).*1 -> NoDup d.*1) /\
  forall k, (k ∉ l.*1 -> dict_get k d = dict_get k (_active s)) /\
            (k ∈ l.*1 -> exists v, dict_get k d = Some (Reservation v) /\ (k, v) ∈ l).
Proof.
  revert s. induction l as [|[k0 v0] l IH]; intros s E.
  { injection E as <- <-. split; [done|]. exists (_active s). split_and!; [by destruct s|done|]. intros k. split; [done|set_solver]. }
  cbn [each] in E. unfold mbind in E. cbn [assign fst snd] in E. apply IH in E as (-> & d & -> & Hd & Hget). split; [done|]. exists d. split_and!; [done| |].
  - intros Hk. apply Hd. cbn. by apply dict_set_keys.
  - intros k. destruct (Hget k) as [G1 G2]. cbn [_active set_active] in G1. rewrite fmap_cons, not_elem_of_cons, elem_of_cons. cbn [fst]. split.
    + intros [Hne Hn]. rewrite G1 by done. by rewrite dict_get_set, decide_False.
    + intros Hin. destruct (decide (k ∈ l.*1)) as [Hl|Hl].
      * destruct (G2 Hl) as (v & Hv & Hv'). exists v. split; [done|by right].
      * destruct Hin as [->|?]; [|done]. exists v0. rewrite G1, dict_get_set, decide_True by done. split; [done|by left].
Qed.

Lemma reserve_replacements_spec l created s s' x : 0 <= created -> 0 <= _next_part_sequence s ->
  Forall (fun kr => exists p, heap s !! kr.2 = Some p /\ part_placed p) l -> reserve_replacements uuid4 l created s = (s', x) ->
  same_parts s s' /\ exists vs, x = Ok vs /\ vs.*1 = l.*1 /\ Forall (fun kv => reservation_ok kv.2) vs.
Proof.
  intros Hc. revert s s' x. induction l as [|[k r] l IH]; intros s s' x Hq Hl E; [injection E as <- <-; split; [done|by exists []]|].
  apply Forall_cons in Hl as [(p & Hp & Hpl) Hl]. cbn [reserve_replacements] in E. cbn [snd] in Hp.
  unfold mbind, checking, part_at in E. rewrite Hp in E. destruct (_reserve_replacement _ _ _ _ s) as [s1 y] eqn:Er.
  destruct (reserve_replacement_spec _ _ _ _ _ _ _ Hq Er) as (Hs1 & Hy & Hv). pose proof Hs1 as (_ & Hh & Hq1).
  destruct y as [v|e]; [|by specialize (Hy Hc)]. destruct (Hv v eq_refl) as (_ & Hst & Hb).
  destruct (reserve_replacements _ l created s1) as [s2 z] eqn:Es. apply IH in Es as (Hs2 & vs & -> & Hk & Hvs); [|lia|by rewrite Hh].
  injection E as <- <-. split; [by eapply same_parts_trans|]. exists ((k, v) :: vs). split_and!; [done|by rewrite !fmap_cons, Hk|].
  constructor; [|done]. by eapply beside_ok.
Qed.

(** The parts that are due have made way for reservations. *)
Lemma moves_detached (l : list (_LogicalPartKey * ref)) s s2 d :
  set_ok s -> (forall k r, (k, r) ∈ l -> dict_get k (_active s) = Some (Part r)) -> NoDup l.*2 ->
  grown lines [] s s2 -> _active s2 = _active s ->
  (forall r, r ∈ l.*2 -> exists p, heap s2 !! r = Some p /\ is_Some (p_close_reason p)) -> (forall r, r ∉ l.*2 -> heap s2 !! r = heap s !! r) ->
  (NoDup (_active s2).*1 -> NoDup d.*1) ->
  (forall k, (k ∉ l.*1 -> dict_get k d = dict_get k (_active s2)) /\ (k ∈ l.*1 -> exists v, dict_get k d = Some (Reservation v) /\ reservation_ok v)) ->
  moves [] l.*2 s (set_active d s2).
Proof.
  intros Hs Hl Hnd Hg Ha Hcl Hsame Hd Hget. rewrite Ha in *. destruct Hs as [O1 O2 O3 O4 O5] eqn:EHs. clear EHs.
  assert (Hpart : forall k r, dict_get k d = Some (Part r) -> dict_get k (_active s) = Some (Part r) /\ r ∉ l.*2).
  { intros k r Hk. destruct (decide (k ∈ l.*1)) as [Hin|Hn].
    - apply (proj2 (Hget k)) in Hin as (v & Hv & _). congruence.
    - rewrite (proj1 (Hget k) Hn) in Hk. split; [done|]. intros ([k' r'] & -> & Hin)%list_elem_of_fmap. cbn in Hk. pose proof (Hl _ _ Hin) as Hk'.
      apply Hn. apply list_elem_of_fmap. exists (k', r'). split; [|done]. cbn. by eapply O2. }
  assert (Hok : set_ok (set_active d s2)).
  { split; cbn [_active set_active heap _next_part_sequence].
    - by apply Hd.
    - intros k k' r [H1 _]%Hpart [H2 _]%Hpart. by eapply O2.
    - intros k r [H1 Hn]%Hpart. change (heap (set_active d s2)) with (heap s2). rewrite Hsame by done. by eapply O3.
    - intros k v Hk. destruct (decide (k ∈ l.*1)) as [Hin|Hn].
      + apply (proj2 (Hget k)) in Hin as (v' & Hv & Hv'). rewrite Hk in Hv. by injection Hv as ->.
      + rewrite (proj1 (Hget k) Hn) in Hk. by eapply O4.
    - pose proof (gr_sequence _ _ _ _ Hg). lia. }
  split; [eapply grown_trans'; [exact Hg|by apply grown_same]|done| | |done|].
  - intros r (k & Hk)%active_refs_elem; [|done]. destruct (decide (r ∈ l.*2)) as [?|Hn]; [by right|left]. apply active_refs_elem; [done|].
    exists k. cbn [_active set_active]. rewrite (proj1 (Hget k)); [done|]. intros ([k' r'] & -> & Hin)%list_elem_of_fmap. cbn in Hk.
    rewrite (Hl _ _ Hin) in Hk. injection Hk as ->. apply Hn. apply list_elem_of_fmap. by exists (k', r).
  - intros r Hr. split; [|by apply Hcl]. apply list_elem_of_fmap in Hr as ([k r'] & -> & Hin). apply active_refs_elem; [done|]. exists k. by apply Hl.
  - intros r (k & [Hk _]%Hpart)%active_refs_elem; [|done]. left. apply active_refs_elem; [done|by exists k].
Qed.

Lemma detach_due_moves why closed is_due s s' x : set_ok s -> 0 <= closed ->
  (forall r p, r ∈ active_refs s -> heap s !! r = Some p -> part_placed p) -> detach_due uuid4 why closed is_due s = (s', x) ->
  moves [] (match x with Ok l => l | Err _ => [] end) s s'.
Proof.
  intros Hs Hpos Hpl E. unfold detach_due in E. look E; [by apply moves_refl|].
  match goal with Ha : Ok (due s _) = Ok ?a |- _ => injection Ha as Ha; subst a end. set (l := due s (is_due s)) in *.
  destruct (reads_bind_run _ _ _ _ _ (reads_each _ _ (check_retirement_reads _ _)) E) as [[-> [e ->]]|([] & Hc & E')]; [by apply moves_refl|].
  apply (each_reads_ok _ _ _ _ _ (check_retirement_reads _ _)) in Hc as [_ Hc]. clear E.
  assert (Hl : forall k r, (k, r) ∈ l -> dict_get k (_active s) = Some (Part r)) by (intros k r; by apply due_parts).
  assert (Hopen : forall r, r ∈ l.*2 -> r ∈ active_refs s).
  { intros r ([k r'] & -> & Hin)%list_elem_of_fmap. apply active_refs_elem; [done|]. exists k. by apply Hl. }
  unfold mbind in E'. destruct (reserve_replacements _ l closed s) as [s1 y] eqn:Er.
  apply reserve_replacements_spec in Er as ((Ha1 & Hh1 & Hq1) & vs & -> & Hk & Hvs); [|done|apply Hs|].
  2: { apply Forall_forall. intros [k r] Hin. assert (Hr : r ∈ active_refs s) by (apply Hopen, list_elem_of_fmap; by exists (k, r)).
       destruct (active_open _ _ Hs Hr) as (p & Hp & _). exists p. split; [done|]. by eapply Hpl. }
  destruct (each _ l.*2 s1) as [s2 z] eqn:Et. destruct (decide (l = [])) as [Hnil|Hne].
  { rewrite Hnil in *. injection Et as <- <-. assert (vs = []) as -> by (by destruct vs). injection E' as <- <-. cbn. by apply same_parts_moves. }
  assert (Hne2 : l.*2 <> []) by (by destruct l). pose proof (checks_may_retire _ _ _ _ Hc Hne2) as Hm.
  apply retire_all in Et as (-> & Es2 & Hg & Hcl & Hsame); try done; [| |by apply due_refs_nodup].
  2: { apply Forall_forall. intros r Hr. rewrite Hh1. by apply active_open; [|apply Hopen]. }
  destruct (each _ vs s2) as [s3 w] eqn:Ew. apply assign_reservations in Ew as (-> & d & -> & Hd & Hget).
  injection E' as <- <-. eapply moves_perm; [symmetry; apply py_sorted_perm|].
  assert (Ha2 : _active s2 = _active s) by (rewrite Es2; exact Ha1).
  apply moves_detached; try done.
  - by apply due_refs_nodup.
  - eapply grown_trans'; [|exact Hg]. apply grown_same; [done|lia].
  - intros r Hr. rewrite <- Hh1. by apply Hsame.
  - intros k. destruct (Hget k) as [G1 G2]. rewrite <- Hk. split; [done|]. intros Hin. destruct (G2 Hin) as (v & Hv & Hin'). exists v. split; [done|].
    exact (proj1 (Forall_forall _ _) Hvs _ Hin').
Qed.
End Detach.
