(* ===== verification/PartSetAppend.v ===== *)
(** Appending a record through the set, and finding the part of a record, made if there is
    none: what changes, and that nothing else does. *)
From S2P Require Import Prelude PyDecimal Domain StorageModels PyText PyTime CatalogJson PartPath EnvelopeJson Durability FrameScan RowFacts ActivePart.
From S2P Require Import ActivePartRuns ActivePartSteps ActivePartInv ActiveParts PartSet PartSetRuns PartSetSteps PartSetOps.
From S2P Require StreamFile.

Section Append.
Context (uuid4 : nat -> string) `{StreamFile.Compressor} (lines : AcceptedRecord -> Prop) (may : ref -> Prop) (Hcompress : forall q, StreamFile.compress q <> "").
#[local] Abbreviation moves := (moves lines may).
#[local] Abbreviation installable := (installable may).
#[local] Abbreviation record_made := (record_made lines).
#[local] Abbreviation hour_of r := (received_at_ns (envelope r) / _HOUR_NS).

Lemma grown_weaken D D' s s' : D ⊆ D' -> grown lines D s s' -> grown lines D' s s'.
Proof. intros HD [P N L Q]. split; try done; intros; eauto. Qed.
Lemma moves_weaken D D' out s s' : D ⊆ D' -> moves D out s s' -> moves D' out s s'.
Proof. intros HD [G O K T N W]. split; try done. by eapply grown_weaken. Qed.

(** ** A part made for a record *)
Record made_for (r : AcceptedRecord) (s : _ActivePartSet) (c : ref) (p : _ActivePart) (s' : _ActivePartSet) : Prop := {
  mf_moves : moves [] [] s s';
  mf_ref : c = length (heap s);
  mf_new : c ∉ active_refs s';
  mf_part : heap s' !! c = Some p;
  mf_rest c' : c' <> c -> heap s' !! c' = heap s !! c';
  mf_made : part_made p;
  mf_open : p_close_reason p = None;
  mf_hour : p_received_hour p = hour_of r;
  mf_empty : p_record_count p = 0;
  mf_active : _active s' = _active s;
  mf_length : length (heap s') = S (length (heap s))
}.
Lemma made_at_rest s c p s' c' : made_at s c p s' -> c' <> c -> heap s' !! c' = heap s !! c'.
Proof.
  intros [-> ->] Hne. cbn [heap set_heap]. destruct (decide (c' < length (heap s))%nat) as [Hlt|Hge]; [by rewrite lookup_app_l|].
  rewrite (lookup_ge_None_2 (heap s)) by lia. apply lookup_ge_None_2. rewrite length_app. cbn. lia.
Qed.
Lemma materialize_made v r i created opened s s' x : set_ok s -> reservation_ok v -> record_made r ->
  materialize_reserved v r i created opened s = (s', x) ->
  match x with
  | Ok c => exists p, made_for r s c p s' /\ matches_reservation v p = true /\ key v = _key (envelope r)
  | Err _ => s' = s
  end.
Proof.
  intros Hs Hv Hr E. apply (materialize_reserved_spec lines Hcompress) in E; try done. destruct x as [c|e]; [|done].
  destruct E as (p & Hat & Hm & Hv' & Hc & Ho & Hh & Hk). exists p. split; [|done].
  destruct (moves_made lines may s c p s' Hs Hm Hat Ho) as (M1 & M2 & M3 & M4 & M5). split; try done; [apply Hat| |].
  - intros c' Hne. by eapply made_at_rest.
  - destruct Hat as [_ ->]. cbn [heap set_heap]. rewrite length_app. cbn. lia.
Qed.
Lemma allocate_made r i opened s s' x : set_ok s -> record_made r -> _allocate uuid4 r i opened s = (s', x) ->
  match x with
  | Ok c => exists p, made_for r s c p s'
  | Err _ => moves [] [] s s' /\ heap s' = heap s /\ _active s' = _active s
  end.
Proof.
  intros Hs Hr E. unfold _allocate, mbind in E. destruct (reserve_part uuid4 r s) as [s1 y] eqn:Er.
  destruct (reserve_part_spec uuid4 lines may r s s1 y Hs Hr Er) as (Hm & Ha & Hh & Hv). destruct y as [v|e]; [|by injection E as <- <-].
  destruct (Hv v eq_refl) as (Hok & _). apply materialize_made in E; [|apply Hm|done|done]. destruct x as [c|e]; [|by subst s'].
  destruct E as (p & [M1 M2 M3 M4 M5 M6 M7 M8 M9 M10 M11] & _). exists p. split; try done.
  - by eapply moves_trans'.
  - by rewrite <- Hh.
  - intros c' Hne. rewrite <- Hh. by apply M5.
  - by rewrite <- Ha.
  - by rewrite <- Hh.
Qed.

(** ** A record in a part *)
Lemma append_moves r i c p s s' x : set_ok s -> record_made r -> heap s !! c = Some p -> p_received_hour p = hour_of r ->
  part_append r i c s = (s', x) ->
  moves [] [] s s' /\ _active s' = _active s /\ (forall c', c' <> c -> heap s' !! c' = heap s !! c') /\
  exists p', heap s' !! c = Some p' /\ append_accepted r i p = (p', x) /\ length (heap s') = length (heap s).
Proof.
  intros Hs (Hm & _ & _ & Hl) Hp Hh E. unfold part_append, on_part in E. rewrite Hp in E. destruct (append_accepted r i p) as [p' y] eqn:Ea. injection E as <- <-.
  destruct (becomes_append lines _ _ _ _ _ Hm Hl (eq_sym Hh) Ea) as [Hb Ho]. assert (Hlt := lookup_lt_Some _ _ _ Hp). split_and!.
  - apply moves_grown; [done|by eapply grown_write|done|]. intros r' q _ Hq. cbn [heap set_heap]. destruct (decide (r' = c)) as [->|Hne].
    + exists p'. rewrite list_lookup_insert_eq by done. split; [done|]. by rewrite Ho; rewrite Hp in Hq; injection Hq as ->.
    + exists q. by rewrite list_lookup_insert_ne.
  - done.
  - intros c' Hne. cbn [heap set_heap]. by rewrite list_lookup_insert_ne.
  - exists p'. cbn [heap set_heap]. by rewrite list_lookup_insert_eq, length_insert.
Qed.

(** A new part that failed is closed. *)
Lemma close_same c s : length (heap (close_part c s).1) = length (heap s) /\ _active (close_part c s).1 = _active s.
Proof. unfold close_part, on_part. destruct (heap s !! c); [|done]. cbn. by rewrite length_insert. Qed.
Lemma close_moves c s : set_ok s -> c ∉ active_refs s -> moves [c] [] s (close_part c s).1.
Proof.
  intros Hs Hc. unfold close_part, on_part. destruct (heap s !! c) as [p|] eqn:Hp; [|apply (moves_weaken []); [set_solver|by apply moves_refl]].
  cbn [fst]. apply moves_grown; [done| |done|].
  - split; cbn [heap set_heap _next_part_sequence]; rewrite ?length_insert; try done.
    + intros r q Hq Hr. exists q. rewrite list_lookup_insert_ne by set_solver. split; [done|apply becomes_refl].
    + intros r q Hn Hq Hr. rewrite list_lookup_insert_ne in Hq by set_solver. congruence.
  - intros r q Hr Hq. exists q. cbn [heap set_heap]. rewrite list_lookup_insert_ne; [done|]. by intros ->.
Qed.

(** ** Appending through the set *)
Lemma made_installable r s c p s' : may (length (heap s)) -> made_for r s c p s' -> installable (Part c) s'.
Proof. intros Hmay Hm. split; [by rewrite (mf_ref _ _ _ _ _ Hm)|]. split; [apply Hm|]. exists p. split; apply Hm. Qed.
Lemma abandoned_err r i opened s s' e c : length (heap s') = S (length (heap s)) -> c = length (heap s) -> c ∉ active_refs s' ->
  [c] ⊆ abandoned (AppendAccepted r i opened) s s' (Err e).
Proof.
  intros Hlen -> Hn c' ->%list_elem_of_singleton. cbn [abandoned]. apply list_elem_of_filter. split; [done|]. apply elem_of_seq. lia.
Qed.

Lemma replace_hour_moves k c r i opened s s' x : set_ok s -> may (length (heap s)) -> record_made r -> dict_get k (_active s) = Some (Part c) ->
  replace_hour uuid4 k c r i opened s = (s', x) ->
  match x with
  | Ok l => l = [c] /\ moves [] [c] s s'
  | Err e => moves (abandoned (AppendAccepted r i opened) s s' (Err e)) [] s s'
  end.
Proof.
  intros Hs Hmay Hr Hk E. destruct (so_open _ Hs _ _ Hk) as (p & Hp & Ho). unfold replace_hour in E.
  assert (Hrefl : forall D, moves D [] s s) by (intros D; apply (moves_weaken []); [set_solver|by apply moves_refl]).
  look E; [done|]. look E; [done|].
  match goal with Hv : validate_retirement _ _ _ = Ok _ |- _ => apply validate_ok_may in Hv as [Hm _] end.
  unfold mbind in E. destruct (_allocate _ r i opened s) as [s1 [a|e]] eqn:Ea; apply allocate_made in Ea; try done; cycle 1.
  { injection E as <- <-. eapply (moves_weaken []); [set_solver|apply Ea]. }
  destruct Ea as (q & Hq). pose proof (mf_moves _ _ _ _ _ Hq) as M1. destruct (part_append r i a s1) as [s2 [[]|e]] eqn:Ep.
  - destruct (append_moves _ _ _ _ _ _ _ (mo_ok _ _ _ _ _ _ M1) Hr (mf_part _ _ _ _ _ Hq) (mf_hour _ _ _ _ _ Hq) Ep) as (M2 & A2 & R2 & q' & Hq' & Hap & _).
    assert (Hca : c <> a) by (intros ->; rewrite (mf_ref _ _ _ _ _ Hq) in Hp; by rewrite lookup_ge_None_2 in Hp).
    assert (Hp2 : heap s2 !! c = Some p) by (by rewrite R2, (mf_rest _ _ _ _ _ Hq)).
    assert (Hk2 : dict_get k (_active s2) = Some (Part c)) by (by rewrite A2, (mf_active _ _ _ _ _ Hq)).
    assert (Hi2 : installable (Part a) s2).
    { split; [by rewrite (mf_ref _ _ _ _ _ Hq)|]. split; [unfold active_refs; rewrite A2; apply Hq|]. exists q'. split; [done|].
      destruct Hr as (Hr1 & _ & _ & Hr2). destruct (becomes_append lines _ _ _ _ _ Hr1 Hr2 (eq_sym (mf_hour _ _ _ _ _ Hq)) Hap) as [_ ->]. apply Hq. }
    rewrite (on_retire _ _ _ _ _ Hp2 Hm Ho) in E. injection E as <- <-. split; [done|].
    eapply (moves_trans lines may [] [] [c]); [|apply (moves_replace lines may k c (Part a) ROTATE_TIME _ p s2); try done; apply M2|constructor|].
    + by eapply moves_trans'.
    + apply Forall_forall. intros c' ->%list_elem_of_singleton. apply active_refs_elem; [done|by exists k].
  - destruct (append_moves _ _ _ _ _ _ _ (mo_ok _ _ _ _ _ _ M1) Hr (mf_part _ _ _ _ _ Hq) (mf_hour _ _ _ _ _ Hq) Ep) as (M2 & A2 & R2 & q' & Hq' & Hap & Hlen).
    injection E as <- <-. assert (Ha2 : a ∉ active_refs s2) by (unfold active_refs; rewrite A2; apply Hq).
    pose proof (close_moves a s2 (mo_ok _ _ _ _ _ _ M2) Ha2) as M3. eapply moves_weaken.
    { apply (abandoned_err r i opened _ _ e a); [|apply Hq|].
      - by rewrite (proj1 (close_same a s2)), Hlen, (mf_length _ _ _ _ _ Hq).
      - unfold active_refs. by rewrite (proj2 (close_same a s2)). }
    eapply (moves_trans lines may [a] [] []); [|exact M3|constructor|constructor]. by eapply moves_trans'.
Qed.

Lemma set_append_moves r i opened s s' x : set_ok s -> may (length (heap s)) -> record_made r -> set_append_accepted uuid4 r i opened s = (s', x) ->
  match x with
  | Ok l => moves [] l s s'
  | Err e => moves (abandoned (AppendAccepted r i opened) s s' (Err e)) [] s s'
  end.
Proof.
  intros Hs Hmay Hr E. unfold set_append_accepted in E.
  assert (Hrefl : forall D, moves D [] s s) by (intros D; apply (moves_weaken []); [set_solver|by apply moves_refl]).
  look E; [done|].
  assert (Hnew : forall k m sx, (forall s1 y, m s = (s1, y) -> match y with Ok a => exists p, made_for r s a p s1 | Err _ => moves [] [] s s1 end) ->
    no_part k s -> (do! a := m in do! _ := assign k (Part a) in do! _ := part_append r i a in mret []) s = (sx, x) ->
    moves [] [] s sx /\ (forall l, x = Ok l -> l = [])).
  { intros k m sx Hm Hk E'. unfold mbind in E'. destruct (m s) as [s1 [a|e]] eqn:Em; pose proof (Hm _ _ eq_refl) as Hy; [|by injection E' as <- <-].
    destruct Hy as (p & Hp). cbn [assign] in E'. set (s2 := set_active _ s1) in *.
    assert (M2 : moves [] [] s1 s2).
    { apply moves_assign; [apply Hp| |by eapply made_installable]. unfold no_part in *. by rewrite (mf_active _ _ _ _ _ Hp). }
    destruct (part_append r i a s2) as [s3 z] eqn:Ep.
    destruct (append_moves _ _ _ p _ _ _ (mo_ok _ _ _ _ _ _ M2) Hr (mf_part _ _ _ _ _ Hp) (mf_hour _ _ _ _ _ Hp) Ep) as (M3 & _).
    assert (moves [] [] s s3) by (eapply moves_trans'; [eapply moves_trans'; [apply Hp|exact M2]|exact M3]).
    destruct z as [[]|e]; injection E' as <- <-; (split; [done|]); [by intros l [= <-]|done]. }
  assert (Hfin : moves [] [] s s' /\ (forall l, x = Ok l -> l = []) -> match x with Ok l => moves [] l s s' | Err e => moves (abandoned (AppendAccepted r i opened) s s' (Err e)) [] s s' end).
  { intros [Hm Hl]. destruct x as [l|e]; [by rewrite (Hl l eq_refl)|]. eapply moves_weaken; [|exact Hm]. set_solver. }
  assert (Hall : forall s1 y, _allocate uuid4 r i opened s = (s1, y) -> match y with Ok a => exists p, made_for r s a p s1 | Err _ => moves [] [] s s1 end).
  { intros s1 y Ey. apply allocate_made in Ey; [|done|done]. by destruct y; [|apply Ey]. }
  destruct (dict_get _ _) as [[c|v]|] eqn:Eg.
  - destruct (so_open _ Hs _ _ Eg) as (p & Hp & Ho). look E; [done|].
    match goal with Hc : heap s !! c = Some ?q |- _ => rewrite Hp in Hc; injection Hc as Hc; subst q end.
    destruct (negb _) eqn:Eh.
    + apply replace_hour_moves in E; try done. destruct x as [l|e]; [|done]. by destruct E as [-> E].
    + apply Hfin. unfold mbind in E. destruct (part_append r i c s) as [s1 z] eqn:Ep. bool_prop.
      destruct (append_moves _ _ _ p _ _ _ Hs Hr Hp ltac:(done) Ep) as (M & _).
      destruct z as [[]|e]; injection E as <- <-; (split; [done|]); [by intros l [= <-]|done].
  - apply Hfin. eapply Hnew; [|by apply no_part_get; rewrite Eg|exact E]. intros s1 y Ey. destruct (_ =? _); [|by apply Hall].
    apply materialize_made in Ey; [|done|by eapply so_reserved|done]. destruct y as [a|e]; [|by subst; apply moves_refl]. destruct Ey as (p & Hp & _). by exists p.
  - apply Hfin. eapply Hnew; [exact Hall|by apply no_part_get; rewrite Eg|exact E].
Qed.
End Append.

Section Ensure.
Context (uuid4 : nat -> string) `{StreamFile.Compressor} (lines : AcceptedRecord -> Prop) (Hcompress : forall q, StreamFile.compress q <> "").
#[local] Abbreviation record_made := (record_made lines).
#[local] Abbreviation made_for := (made_for lines (fun _ => True)).
#[local] Abbreviation hour_of r := (received_at_ns (envelope r) / _HOUR_NS).

(** The result of finding a part: it is active for the record's stream, open, of its hour;
    what was active of another hour is retired; nothing else changes. *)
Record ensured (r : AcceptedRecord) (clock : result Z) (s : _ActivePartSet) (c : ref) (retired : option ref) (s' : _ActivePartSet) : Prop := {
  en_active : dict_get (_key (envelope r)) (_active s') = Some (Part c);
  en_part : exists p, heap s' !! c = Some p /\ p_received_hour p = hour_of r /\ p_close_reason p = None;
  en_keys k : k <> _key (envelope r) -> dict_get k (_active s') = dict_get k (_active s);
  en_parts c' : (c' < length (heap s))%nat -> retired <> Some c' -> heap s' !! c' = heap s !! c';
  en_retired : match retired with
    | Some c' => dict_get (_key (envelope r)) (_active s) = Some (Part c') /\ exists p now, heap s !! c' = Some p /\ p_received_hour p <> hour_of r /\
        clock = Ok now /\ 0 <= now /\ heap s' !! c' = Some (set_closed ROTATE_TIME (Z.max now (p_created_at_ns p)) p)
    | None => forall c', dict_get (_key (envelope r)) (_active s) = Some (Part c') -> c' = c /\ s' = s
    end
}.
(** What is left if it fails: no entry and no part has changed; the part that was made, if
    any, is nowhere active and empty. *)
Definition left_behind (r : AcceptedRecord) (s s' : _ActivePartSet) : Prop := _active s' = _active s /\
  (heap s' = heap s \/ exists p, heap s' = heap s ++ [p] /\ p_record_count p = 0 /\ p_close_reason p = None /\ p_received_hour p = hour_of r).
(** Making a part for a reservation, but for the creation of the file. *)
Definition making (r : AcceptedRecord) (i : AcceptedRecordIdentityV1) (v : _ActivePartReservation) (fd : Z) (s : _ActivePartSet) : result _ActivePart :=
  let! _ := _validate_current_config r i s in
  raise ValueError "reservation logical identity does not match record" when negb (bool_decide (key v = _key (envelope r)));;
  let! path := raw_partial_path (envelope r) (v_part_start_ns v) (v_part_sequence v) in
  raise ValueError "reservation path does not match its record" when negb (String.eqb path (v_partial_path v));;
  allocate r i (v_generation_id v) (v_part_start_ns v) (v_part_sequence v) (_zstd_level s) (_max_plain_frame_bytes s) (_durability_slo_ns s)
    (Some (v_created_at_ns v)) fd.
(** Why it can fail: the record can not get a reservation, or no part for the one it has; the
    file can not be created; the task is cancelled; or the clock, which is read if an entry of
    another hour is replaced, is not valid. *)
Inductive ensure_error (r : AcceptedRecord) (i : AcceptedRecordIdentityV1) (opened : result Z) (awaited : Awaited) (clock : result Z)
    (s : _ActivePartSet) : exn -> Prop :=
| error_reserve s1 e : reserve_part uuid4 r s = (s1, Err e) -> ensure_error r i opened awaited clock s e
| error_make v fd e : (dict_get (_key (envelope r)) (_active s) = Some (Reservation v) /\ v_received_hour v = hour_of r) \/
      (exists s1, reserve_part uuid4 r s = (s1, Ok v)) -> making r i v fd s = Err e -> ensure_error r i opened awaited clock s e
| error_open e : opened = Err e -> ensure_error r i opened awaited clock s e
| error_cancelled : awaited <> Resumed -> ensure_error r i opened awaited clock s asyncio_CancelledError
| error_clock entry hour e : dict_get (_key (envelope r)) (_active s) = Some entry -> entry_hour s entry = Ok hour -> hour <> hour_of r ->
    _sample_wall clock = Err e -> ensure_error r i opened awaited clock s e.

Lemma materialize_error v r i opened s s' e :
  materialize_reserved v r i (Some (v_created_at_ns v)) opened s = (s', Err e) -> opened = Err e \/ exists fd, making r i v fd s = Err e.
Proof.
  intros E. unfold materialize_reserved, checking, check, mlift in E. unfold making.
  unfold mbind at 1 in E. destruct (_validate_current_config r i s) as [u|e1]; [|right; exists 0; injection E as <- <-; done].
  unfold mbind at 1 in E. cbn [rbind]. destruct (negb (bool_decide _)); cbn [raise_if rbind] in E |- *; [right; exists 0; by injection E as <- <-|].
  unfold mbind at 1 in E. destruct (raw_partial_path _ _ _) as [path|e1]; [|right; exists 0; by injection E as <- <-].
  unfold mbind at 1 in E. cbn [rbind]. destruct (negb _); cbn [raise_if] in E |- *; [right; exists 0; by injection E as <- <-|].
  unfold keep_part, opening in E. destruct opened as [fd|e1].
  - right. exists fd. destruct (allocate _ _ _ _ _ _ _ _ _ fd); [done|]. by injection E as <- <-.
  - destruct (allocate _ _ _ _ _ _ _ _ _ 0) as [p|e2] eqn:Ea; cbn [rbind] in E; injection E as <- <-; [by left|]. right. by exists 0.
Qed.

(** Awaiting the thread that makes the part. *)
Lemma awaited_make v r i opened awaited s s1 y : set_ok s -> reservation_ok v -> record_made r ->
  run_storage awaited (materialize_reserved v r i (Some (v_created_at_ns v)) opened) s = (s1, y) ->
  match y with
  | Ok c => awaited = Resumed /\ exists p, made_for r s c p s1 /\ matches_reservation v p = true /\ key v = _key (envelope r)
  | Err e => left_behind r s s1 /\ (opened = Err e \/ (exists fd, making r i v fd s = Err e) \/ (awaited <> Resumed /\ e = asyncio_CancelledError))
  end.
Proof.
  intros Hs Hv Hr E. assert (Hsame : left_behind r s s) by (by split; [|left]). unfold run_storage in E. destruct awaited.
  - pose proof E as Em. apply (materialize_made lines (fun _ => True) Hcompress) in Em; [|done..]. destruct y as [c|e].
    + split; [done|]. destruct Em as (p & Hm & Hv' & Hk). by exists p.
    + subst s1. split; [done|]. destruct (materialize_error _ _ _ _ _ _ _ E) as [?|?]; [by left|right; by left].
  - injection E as <- <-. split; [done|]. right. by right.
  - destruct (materialize_reserved _ _ _ _ _ s) as [s2 z] eqn:Em. injection E as <- <-. cbn [fst]. split; [|right; by right].
    pose proof Em as Ex. apply (materialize_reserved_spec lines Hcompress) in Em; [|done..].
    destruct z as [c|e]; [|by subst s2]. destruct Em as (p & [_ ->] & _ & _ & Hz & Ho & Hh & _). split; [done|]. right. by exists p.
Qed.

Lemma left_behind_from r s s0 s1 : _active s0 = _active s -> heap s0 = heap s -> left_behind r s0 s1 -> left_behind r s s1.
Proof. unfold left_behind. by intros -> ->. Qed.
Lemma made_left r s c p s1 : made_for r s c p s1 -> left_behind r s s1.
Proof.
  intros Hm. split; [apply Hm|]. right. exists p. split; [|by split_and!; apply Hm].
  apply list_eq. intros n. destruct (decide (n = length (heap s))) as [->|Hn].
  - rewrite list_lookup_middle by done. rewrite <- (mf_ref _ _ _ _ _ _ _ Hm). apply Hm.
  - rewrite (mf_rest _ _ _ _ _ _ _ Hm) by (by rewrite (mf_ref _ _ _ _ _ _ _ Hm)).
    destruct (decide (n < length (heap s))%nat); [by rewrite lookup_app_l|]. rewrite !lookup_ge_None_2; [done|rewrite length_app; cbn; lia|lia].
Qed.

Lemma ensured_new r clock s c p s1 : made_for r s c p s1 -> no_part (_key (envelope r)) s ->
  ensured r clock s c None (set_active (dict_set (_key (envelope r)) (Part c) (_active s1)) s1).
Proof.
  intros Hm Hn. pose proof (mf_ref _ _ _ _ _ _ _ Hm) as Hc. split; cbn [_active set_active heap].
  - by rewrite dict_get_set, decide_True.
  - exists p. split_and!; apply Hm.
  - intros k Hk. rewrite dict_get_set, decide_False by done. by rewrite (mf_active _ _ _ _ _ _ _ Hm).
  - intros c' Hlt _. apply Hm. lia.
  - intros c' Hc'. by destruct (Hn c').
Qed.

(** The part made for a reservation is installed, or replaces the entry of another hour. *)
Lemma install_new v r s c p s1 : made_for r s c p s1 -> matches_reservation v p = true -> key v = _key (envelope r) ->
  dict_get (_key (envelope r)) (_active s) = None \/ dict_get (_key (envelope r)) (_active s) = Some (Reservation v) ->
  install_reserved v c s1 = (set_active (dict_set (_key (envelope r)) (Part c) (_active s1)) s1, Ok tt).
Proof.
  intros Hm Hv Hk He. unfold install_reserved, entry_is, mbind, check, mlift, checking, part_at. rewrite Hk, (mf_part _ _ _ _ _ _ _ Hm), Hv.
  unfold assign. rewrite (mf_active _ _ _ _ _ _ _ Hm). destruct He as [->| ->]; [done|].
  by rewrite !bool_decide_eq_true_2 by (done || by eexists).
Qed.
Lemma replace_new v r s c p s1 closed e : made_for r s c p s1 -> set_ok s -> matches_reservation v p = true -> key v = _key (envelope r) ->
  dict_get (_key (envelope r)) (_active s) = Some e ->
  match e with
  | Reservation v' => v_received_hour v' <> hour_of r ->
      replace_reserved_for_hour v c closed s1 = (set_active (dict_set (_key (envelope r)) (Part c) (_active s1)) s1, Ok None)
  | Part c' => forall p', heap s !! c' = Some p' -> p_received_hour p' <> hour_of r -> may_retire ROTATE_TIME closed ->
      let s2 := set_heap (<[c' := set_closed ROTATE_TIME closed p']> (heap s1)) s1 in
      replace_reserved_for_hour v c closed s1 = (set_active (dict_set (_key (envelope r)) (Part c) (_active s2)) s2, Ok (Some c'))
  end.
Proof.
  intros Hm Hs Hv Hk Hg.
  assert (Hrun : replace_reserved_for_hour v c closed s1 = (do! hour := checking (fun s => entry_hour s e) in
    do! _ := check (hour =? hour_of r) "hour replacement must change the received UTC hour" in
    match e with
    | Reservation _ => do! _ := assign (key v) (Part c) in mret None
    | Part c' => do! _ := on_part c' (retire ROTATE_TIME closed) in do! _ := assign (key v) (Part c) in mret (Some c')
    end) s1).
  { unfold replace_reserved_for_hour. rewrite Hk, (mf_active _ _ _ _ _ _ _ Hm), Hg. unfold mbind at 1. unfold checking at 1, part_at.
    rewrite (mf_part _ _ _ _ _ _ _ Hm). unfold mbind at 1. unfold check at 1, mlift. rewrite Hv. cbn [negb raise_if].
    by rewrite (mf_hour _ _ _ _ _ _ _ Hm). }
  rewrite Hrun. destruct e as [c'|v'].
  - intros p' Hp' Hne Hr. destruct (so_open _ Hs _ _ Hg) as (p1 & Hp1 & Ho). rewrite Hp' in Hp1. injection Hp1 as <-.
    assert (Hc : c' <> c) by (intros ->; rewrite (mf_ref _ _ _ _ _ _ _ Hm) in Hp'; by rewrite lookup_ge_None_2 in Hp').
    assert (Hp1 : heap s1 !! c' = Some p') by (by rewrite (mf_rest _ _ _ _ _ _ _ Hm)).
    unfold mbind at 1, checking, entry_hour, part_at. rewrite Hp1. cbn [rbind]. unfold mbind at 1, check, mlift. rewrite (proj2 (Z.eqb_neq _ _) Hne). cbn [raise_if].
    unfold mbind at 1. rewrite (on_retire _ _ _ _ _ Hp1 Hr Ho). by rewrite Hk.
  - intros Hne. unfold mbind at 1, checking, entry_hour. unfold mbind at 1, check, mlift. rewrite (proj2 (Z.eqb_neq _ _) Hne). cbn [raise_if]. by rewrite Hk.
Qed.

(** The entry of another hour is replaced by the part of a new reservation. *)
Lemma ensured_replaced r now s c c' p p' s1 : 0 <= now -> made_for r s c p s1 -> set_ok s ->
  dict_get (_key (envelope r)) (_active s) = Some (Part c') -> heap s !! c' = Some p' -> p_received_hour p' <> hour_of r ->
  let closed := Z.max now (p_created_at_ns p') in
  let s2 := set_heap (<[c' := set_closed ROTATE_TIME closed p']> (heap s1)) s1 in
  ensured r (Ok now) s c (Some c') (set_active (dict_set (_key (envelope r)) (Part c) (_active s2)) s2).
Proof.
  intros Hnow Hm Hs Hg Hp' Hne closed s2. pose proof (mf_ref _ _ _ _ _ _ _ Hm) as Hc. pose proof (lookup_lt_Some _ _ _ Hp') as Hlt.
  assert (Hcc : c' <> c) by (rewrite Hc; intros ->; lia).
  assert (Hat : forall a, a <> c' -> heap s2 !! a = heap s1 !! a) by (intros a Ha; unfold s2; cbn [heap set_heap]; by rewrite list_lookup_insert_ne).
  split; cbn [_active set_active heap].
  - by rewrite dict_get_set, decide_True.
  - exists p. change (heap (set_active _ s2)) with (heap s2). rewrite Hat by done. split_and!; apply Hm.
  - intros k Hk. rewrite dict_get_set, decide_False by done. unfold s2. cbn [_active set_heap]. by rewrite (mf_active _ _ _ _ _ _ _ Hm).
  - intros a Ha Hr. change (heap (set_active _ s2)) with (heap s2). rewrite Hat by (by intros ->). apply Hm. lia.
  - split; [done|]. exists p', now. split_and!; [done..|]. unfold s2. cbn [heap set_heap]. rewrite list_lookup_insert_eq; [done|].
    rewrite (mf_length _ _ _ _ _ _ _ Hm). lia.
Qed.
(** A part made for a new reservation. *)
Lemma reserve_materialize {B} r i opened awaited clock (k : _ActivePartReservation -> ref -> M _ActivePartSet B) s s' x : set_ok s -> record_made r ->
  (do! v := reserve_part uuid4 r in
   do! c := run_storage awaited (materialize_reserved v r i (Some (v_created_at_ns v)) opened) in k v c) s = (s', x) ->
  (left_behind r s s' /\ exists e, x = Err e /\ ensure_error r i opened awaited clock s e) \/
  exists v c p s1, made_for r s c p s1 /\ matches_reservation v p = true /\ key v = _key (envelope r) /\ k v c s1 = (s', x).
Proof.
  intros Hs Hr E. unfold mbind at 1 in E. destruct (reserve_part uuid4 r s) as [s0 y] eqn:Er.
  destruct (reserve_part_spec uuid4 lines (fun _ => True) r s s0 y Hs Hr Er) as (Hm0 & Ha0 & Hh0 & Hv).
  destruct y as [v|e']; [|injection E as <- <-; left; split; [by split; [|left]|exists e'; split; [done|by eapply error_reserve]]].
  destruct (Hv v eq_refl) as (Hok & Hk & _). clear Hv.
  assert (Hfields : forall fd, making r i v fd s0 = making r i v fd s).
  { intros fd. unfold reserve_part in Er. destruct (negb _); [done|]. by injection Er as <- _. }
  unfold mbind at 1 in E. destruct (run_storage _ _ s0) as [s1 y] eqn:Em. apply awaited_make in Em; [|apply Hm0|done..].
  destruct y as [c|e'].
  - destruct Em as (_ & p & Hm & Hmatch & _). right. exists v, c, p, s1. split; [|done].
    destruct Hm as [M1 M2 M3 M4 M5 M6 M7 M8 M9 M10 M11]. rewrite Ha0, Hh0 in *. split; try done. by eapply moves_trans'.
  - injection E as <- <-. destruct Em as [Hl He]. left. split; [by eapply left_behind_from|]. exists e'. split; [done|].
    destruct He as [He|[[fd He]|[He ->]]]; [by apply error_open| |by apply error_cancelled]. rewrite Hfields in He.
    eapply error_make; [|exact He]. right. by exists s0.
Qed.

Lemma sample_wall_ok clock now : _sample_wall clock = Ok now -> clock = Ok now /\ 0 <= now.
Proof.
  unfold _sample_wall, _nonnegative. intros E. apply rbind_ok in E as (t & -> & E). apply raise_if_ok in E as [Ht [= ->]]. split; [done|lia].
Qed.

(** An entry of another hour is replaced. *)
Definition of_other_hour (r : AcceptedRecord) (s : _ActivePartSet) (e : _ActivePartEntry) : Prop :=
  match e with
  | Part c' => exists p, heap s !! c' = Some p /\ 0 <= p_created_at_ns p /\ p_received_hour p <> hour_of r
  | Reservation v' => v_received_hour v' <> hour_of r
  end.
Lemma replace_run r i opened awaited clock s s' x e : set_ok s -> record_made r -> dict_get (_key (envelope r)) (_active s) = Some e ->
  (do! v := reserve_part uuid4 r in
   do! c := run_storage awaited (materialize_reserved v r i (Some (v_created_at_ns v)) opened) in
   do! wall := mlift (_sample_wall clock) in
   do! created := checking (fun s => entry_created s e) in
   do! retired := replace_reserved_for_hour v c (Z.max wall created) in mret (c, retired)) s = (s', x) ->
  of_other_hour r s e ->
  match x with
  | Ok (c, retired) => ensured r clock s c retired s'
  | Err er => left_behind r s s' /\ ensure_error r i opened awaited clock s er
  end.
Proof.
  intros Hs Hr Hg E He.
  apply (reserve_materialize r i opened awaited clock) in E as [(Hu & e' & -> & Hx)|(v & c & p & s1 & Hm' & Hmatch & Hk & E)]; [done| |done|done].
  unfold mbind at 1, mlift in E. destruct (_sample_wall clock) as [now|e'] eqn:Ew.
  2: { injection E as <- <-. split; [by eapply made_left|]. destruct e as [c'|v'].
       - destruct He as (p' & Hp' & _ & Hne). eapply error_clock; [exact Hg| |exact Hne|done]. unfold entry_hour, part_at. by rewrite Hp'.
       - by eapply error_clock; [exact Hg| |exact He|]. }
  apply sample_wall_ok in Ew as [-> Hnow]. destruct e as [c'|v'].
  - destruct He as (p' & Hp' & Hpos & Hne). assert (Hp1 : heap s1 !! c' = Some p').
    { rewrite (mf_rest _ _ _ _ _ _ _ Hm'); [done|]. rewrite (mf_ref _ _ _ _ _ _ _ Hm'). apply lookup_lt_Some in Hp'. lia. }
    unfold mbind at 1, checking, entry_created, part_at in E. rewrite Hp1 in E. cbn [rbind] in E.
    assert (Hmay : may_retire ROTATE_TIME (Z.max now (p_created_at_ns p'))) by (split; [done|lia]).
    pose proof (replace_new _ _ _ _ _ _ _ _ Hm' Hs Hmatch Hk Hg p' Hp' Hne Hmay) as Hrun. cbv zeta in Hrun. unfold mbind in E. rewrite Hrun in E.
    injection E as <- <-. by apply ensured_replaced with (p := p).
  - unfold mbind at 1, checking, entry_created in E.
    assert (Hrun : forall closed, replace_reserved_for_hour v c closed s1 = (set_active (dict_set (_key (envelope r)) (Part c) (_active s1)) s1, Ok None)).
    { intros closed. exact (replace_new _ _ _ _ _ _ closed _ Hm' Hs Hmatch Hk Hg He). }
    unfold mbind in E. rewrite Hrun in E. injection E as <- <-. eapply ensured_new; [done|]. apply no_part_get. by rewrite Hg.
Qed.

(** No part of the record's hour is active. *)
Definition none_of_hour (r : AcceptedRecord) (s : _ActivePartSet) : Prop :=
  forall c p, dict_get (_key (envelope r)) (_active s) = Some (Part c) -> heap s !! c = Some p -> p_received_hour p <> hour_of r.

Lemma ensure_part_spec r i opened awaited clock s s' x : set_ok s -> record_made r ->
  (forall c p, c ∈ active_refs s -> heap s !! c = Some p -> 0 <= p_created_at_ns p) ->
  _ensure_part uuid4 r i opened awaited clock s = (s', x) ->
  match x with
  | Ok (c, retired) => ensured r clock s c retired s'
  | Err e => left_behind r s s' /\ none_of_hour r s /\ ensure_error r i opened awaited clock s e
  end.
Proof.
  intros Hs Hr Hpos E. unfold _ensure_part, active_entry_for in E.
  assert (Hcase : none_of_hour r s ->
    match x with Ok (c, retired) => ensured r clock s c retired s' | Err er => left_behind r s s' /\ ensure_error r i opened awaited clock s er end ->
    match x with Ok (c, retired) => ensured r clock s c retired s' | Err e => left_behind r s s' /\ none_of_hour r s /\ ensure_error r i opened awaited clock s e end).
  { destruct x as [[]|]; [done|]. by intros Hn []. }
  destruct (dict_get _ _) as [[c|v]|] eqn:Hg.
  - destruct (so_open _ Hs _ _ Hg) as (p & Hp & Ho). unfold mbind at 1, checking at 1, part_at in E. rewrite Hp in E.
    destruct (p_received_hour p =? hour_of r) eqn:Eh; bool_prop.
    + injection E as <- <-. split; try done; [by exists p|]. intros c' Hc'. split; [|done]. rewrite Hg in Hc'. by injection Hc'.
    + apply Hcase; [intros c' p' Hc' Hp'; rewrite Hg in Hc'; injection Hc' as <-; congruence|].
      eapply replace_run; try done. exists p. split_and!; try done. apply (Hpos c); [|done]. apply active_refs_elem; [done|by eexists].
  - apply Hcase; [by intros c' p' Hc'; rewrite Hg in Hc'|].
    destruct (v_received_hour v =? hour_of r) eqn:Eh; bool_prop; [|by eapply replace_run].
    pose proof (so_reserved _ Hs _ _ Hg) as Hok.
    unfold mbind at 1 in E. destruct (run_storage _ _ s) as [s1 y] eqn:Em. apply awaited_make in Em; [|done..].
    destruct y as [c|e].
    + destruct Em as (_ & p & Hm & Hv & Hk). unfold mbind in E. rewrite (install_new _ _ _ _ _ _ Hm Hv Hk (or_intror Hg)) in E. injection E as <- <-.
      eapply ensured_new; [done|]. apply no_part_get. by rewrite Hg.
    + injection E as <- <-. destruct Em as [Hl He]. split; [done|].
      destruct He as [He|[[fd He]|[He ->]]]; [by apply error_open| |by apply error_cancelled]. eapply error_make; [left|exact He]. by split.
  - apply Hcase; [by intros c' p' Hc'; rewrite Hg in Hc'|].
    apply (reserve_materialize r i opened awaited clock) in E as [(Hu & e' & -> & Hx)|(v & c & p & s1 & Hm' & Hmatch & Hk & E)]; [done| |done|done].
    unfold mbind in E. rewrite (install_new _ _ _ _ _ _ Hm' Hmatch Hk (or_introl Hg)) in E. injection E as <- <-.
    eapply ensured_new; [done|]. apply no_part_get. by rewrite Hg.
Qed.
End Ensure.
