(* ===== verification/PartSetInv.v ===== *)
(** Every step of a world keeps the invariant of [PartSetRuns]. *)
From S2P Require Import Prelude PyDecimal Domain StorageModels PyText CatalogJson PyTime PartPath EnvelopeJson FrameScan RowFacts.
From S2P Require Import Durability.
From S2P Require StreamFile.
From S2P Require Import ActivePart ActivePartRuns ActivePartSteps ActivePartInv ActiveParts PartSet PartSetSteps PartSetRuns PartSetOps.
From S2P Require Import PartSetRotations PartSetAppend.

(** ** The close of a part *)
Definition closing (p : _ActivePart) : option CloseReason * option Z := (p_close_reason p, p_closed_at_ns p).
Definition keeps {A} (m : M _ActivePart A) : Prop := forall p, closing (m p).1 = closing p.
Lemma keeps_bind {A B} (m : M _ActivePart A) (k : A -> M _ActivePart B) : keeps m -> (forall a, keeps (k a)) -> keeps (mbind m k).
Proof.
  intros Hm Hk p. specialize (Hm p). unfold mbind. destruct (m p) as [p1 [a|e]]; cbn in Hm; [|done]. rewrite <- Hm. apply Hk.
Qed.
Lemma keeps_ret {A} (a : A) : keeps (mret a).
Proof. done. Qed.
Lemma keeps_raise {A} e : keeps (mraise (A := A) e).
Proof. done. Qed.
Lemma keeps_accumulator {A} (m : M _PartAccumulator A) : keeps (on_accumulator m).
Proof. intros p. unfold on_accumulator. by destruct (m _). Qed.
Lemma keeps_file {A} (m : M StreamFile.StreamFile A) : keeps (on_file m).
Proof. intros p. unfold on_file. by destruct (m _). Qed.
Lemma keeps_drop c : keeps (drop_claim c).
Proof. done. Qed.
Lemma keeps_claim w l l' : keeps (claim_work w l l').
Proof. done. Qed.
Lemma keeps_add c : keeps (add_claim c).
Proof. done. Qed.
Create HintDb keeps discriminated.
#[export] Hint Resolve keeps_bind keeps_ret keeps_raise keeps_accumulator keeps_file keeps_drop keeps_claim keeps_add : keeps.
Ltac keep :=
  match goal with
  | |- closing (mbind ?m ?k ?p).1 = _ => apply (keeps_bind m k)
  | |- closing (match ?x with _ => _ end _).1 = _ => destruct x
  | |- closing (match ?x with _ => _ end).1 = _ => destruct x
  | |- keeps (match ?x with _ => _ end) => destruct x
  | |- keeps _ => solve [auto with keeps]
  | |- keeps (mbind _ _) => apply keeps_bind
  | |- keeps _ => intros ?; cbv beta zeta
  | |- forall _, _ => intros ?
  | |- _ => done
  end.

Lemma keeps_append r i : keeps (append_accepted r i).
Proof. intros p. unfold append_accepted. repeat keep. Qed.
Lemma keeps_seal force : keeps (discard_value (seal_for_sync force)).
Proof. apply keeps_bind; [|auto with keeps]. intros p. unfold seal_for_sync. repeat keep. Qed.
Lemma keeps_oversized r i : keeps (discard_value (seal_oversized r i)).
Proof. apply keeps_bind; [|auto with keeps]. intros p. unfold seal_oversized. cbv zeta. repeat keep. Qed.
Lemma keeps_settle c o : keeps (settle c o).
Proof.
  intros p. destruct o as [r|e]; unfold settle, apply_completion, apply_failure; repeat keep. 
Qed.

(** Once a part is retired, nothing changes why or when. *)
Lemma exec_closing o p : closing_kept p (exec o p).1.
Proof.
  intros Hc. assert (closing (exec o p).1 = closing p) as [= -> ->]; [|done]. destruct o; cbn [exec].
  - apply keeps_append.
  - apply keeps_seal.
  - apply keeps_oversized.
  - unfold bind_claim_batch_task. by destruct (rbind _ _).
  - apply keeps_accumulator.
  - unfold retire. destruct (validate_retirement _ _ _); [|done]. by rewrite bool_decide_eq_true_2.
  - unfold discard_value. apply keeps_bind; [|auto with keeps]. intros q. unfold freeze_summary. destruct (_ || _); [done|apply keeps_accumulator].
Qed.
Lemma part_step_closing `{StreamFile.Compressor} tr s tr' s' : part_step tr s tr' s' -> closing_kept (part s) (part s').
Proof.
  intros Hst Hc. destruct Hst as [tr s o p' r _ He|tr s c env f r _ _ _|tr s c o p' r _ He|tr s c e p' r _ _ He]; cbn [part].
  - pose proof (exec_closing o (part s) Hc) as Hk. by rewrite He in Hk.
  - done.
  - pose proof (keeps_settle c (reported o) (part s)) as Hk. rewrite He in Hk. cbn in Hk. by injection Hk.
  - pose proof (keeps_settle c (inr e) (part s)) as Hk. rewrite He in Hk. cbn in Hk. by injection Hk.
Qed.
Lemma part_step_more `{StreamFile.Compressor} p0 tr s ev s' : part_runs p0 tr s -> part_step [] s ev s' -> part_runs p0 (tr ++ ev) s'.
Proof.
  intros Hr Hst. eapply part_more; [exact Hr|]. remember [] as nil eqn:En.
  destruct Hst as [tr0 s o p' r Hm He|tr0 s c env f r Ht Hi Hp|tr0 s c o p' r Ht He|tr0 s c e p' r Ht Hi He]; subst tr0;
    rewrite ?app_nil_l, ?app_nil_r.
  - assert ((tr ++ if is_ok r then event_of o else []) = if is_ok r then tr ++ event_of o else tr) as -> by (destruct (is_ok r); by rewrite ?app_nil_r).
    by apply part_operation.
  - by eapply part_persist.
  - assert ((tr ++ if is_ok r then [Settled c (reported o)] else []) = if is_ok r then tr ++ [Settled c (reported o)] else tr) as ->
      by (destruct (is_ok r); by rewrite ?app_nil_r). by apply part_settle.
  - assert ((tr ++ if is_ok r then [Settled c (inr e)] else []) = if is_ok r then tr ++ [Settled c (inr e)] else tr) as ->
      by (destruct (is_ok r); by rewrite ?app_nil_r). by apply part_unstarted.
Qed.

Section Inv.
Context (uuid4 : nat -> string) `{StreamFile.Compressor} (lines : AcceptedRecord -> Prop) (Hcompress : forall q, StreamFile.compress q <> "").
#[local] Abbreviation world_ok := (world_ok lines).
#[local] Abbreviation asked := (asked lines).

(** ** What an operation does to the set of a world *)
Section Operation.
Context (w : World) (Hw : world_ok w).
#[local] Abbreviation s := (parts w).
Definition not_dropped (r : ref) : Prop := r ∉ dropped w.
#[local] Abbreviation moves := (moves lines not_dropped).

Lemma dropped_old r : r ∈ dropped w -> (r < length (heap s))%nat.
Proof. intros Hr. by destruct (wo_dropped _ _ Hw r Hr). Qed.
Lemma next_not_dropped : not_dropped (length (heap s)).
Proof. intros Hr. apply dropped_old in Hr. lia. Qed.
Lemma activated_old r : r ∈ activated w -> (r < length (heap s))%nat.
Proof.
  intros Hr. apply (proj2 (wo_activated _ _ Hw)) in Hr as [Hr|Hr].
  - destruct (proj2 (wo_finishing _ _ Hw) r Hr) as (p & Hp & _). by apply lookup_lt_Some in Hp.
  - destruct (active_open _ _ (wo_set _ _ Hw) Hr) as (p & Hp & _). by apply lookup_lt_Some in Hp.
Qed.
Lemma active_activated r : r ∈ active_refs s -> r ∈ activated w.
Proof. intros Hr. apply (proj2 (wo_activated _ _ Hw)). by right. Qed.
Lemma activated_not_dropped r : r ∈ activated w -> r ∉ dropped w.
Proof. intros Hr Hd. by destruct (wo_dropped _ _ Hw r Hd). Qed.
Lemma story_placed r p : heap s !! r = Some p -> r ∉ dropped w -> part_placed p.
Proof.
  intros Hp Hd. destruct (wo_story _ _ Hw r p Hp Hd) as (p0 & tr & [Hnew Hpl] & Hr & _). destruct (part_runs_inv Hcompress _ _ _ Hnew Hr) as [L Hinv].
  eapply part_placed_fixed; [exact (in_fixed _ _ _ _ Hinv)|done].
Qed.
Lemma active_placed r p : r ∈ active_refs s -> heap s !! r = Some p -> part_placed p.
Proof. intros Hr Hp. eapply story_placed; [done|]. by apply activated_not_dropped, active_activated. Qed.
Lemma fresh_one r : fresh w r -> installable not_dropped (Part r) s.
Proof. intros (F1 & F2 & F3). by split_and!. Qed.
Lemma fresh_installable l : Forall (fresh w) l -> Forall (fun r => installable not_dropped (Part r) s) l.
Proof. intros Hl. eapply Forall_impl; [exact Hl|]. apply fresh_one. Qed.

Record op_effect (o : set_op) (s' : _ActivePartSet) (x : result Effect) : Prop := {
  oe_moves : moves (abandoned o s s' x) (match x with Ok e => handed e | Err _ => [] end) s s';
  oe_given e : x = Ok e -> Forall reservation_ok (given e);
  oe_planned e : x = Ok e -> Forall (fun plan => current plan ∈ active_refs s /\ plan_ok s plan /\ reservation_ok (reservation plan)) (planned e)
}.
(** An operation that gives out no reservation. *)
Lemma yields_effect {A} (f : A -> Effect) (m : M _ActivePartSet A) o s' x : (forall a, given (f a) = [] /\ planned (f a) = []) ->
  (forall s' x, abandoned o s s' x = []) -> yields f m s = (s', x) ->
  (forall s1 y, m s = (s1, y) -> moves [] (match y with Ok a => handed (f a) | Err _ => [] end) s s1) -> op_effect o s' x.
Proof.
  intros Hf Ho E Hm. unfold yields, mbind in E. destruct (m s) as [s1 [a|e]]; specialize (Hm _ _ eq_refl); injection E as <- <-; split; rewrite ?Ho; try done;
    intros e' [= <-]; destruct (Hf a) as [Hg Hp]; rewrite ?Hg, ?Hp; constructor.
Qed.

(** The operations that append nothing. *)
Lemma exec_effect o s' x : asked w o -> exec_set uuid4 o s = (s', x) -> op_effect o s' x.
Proof.
  pose proof (wo_set _ _ Hw) as Hs. pose proof (so_sequence _ Hs) as Hq.
  destruct o; intros Ha E; cbn [exec_set] in E; cbn [PartSetRuns.asked] in Ha.
  - (* Reserve *)
    unfold yields, mbind in E. destruct (reserve_part _ _ s) as [s1 y] eqn:Er.
    destruct (reserve_part_spec uuid4 lines not_dropped _ _ _ _ Hs Ha Er) as (Hm & _ & _ & Hv).
    destruct y as [v|e]; injection E as <- <-; split; try done; intros e' [= <-]; [|constructor]. constructor; [|constructor]. by apply Hv.
  - (* BeginInitial *)
    unfold yields, mbind in E. destruct (begin_initial_reservation _ _ s) as [s1 y] eqn:Er.
    destruct (begin_initial_moves uuid4 lines not_dropped _ _ _ _ Hs Ha Er) as (Hm & Hv).
    destruct y as [v|e]; injection E as <- <-; split; try done; intros e' [= <-]; [|constructor]. constructor; [|constructor]. by apply Hv.
  - (* MaterializeReserved *)
    destruct Ha as [Hv Hr]. eapply yields_effect; [| |exact E|]; try done. intros s1 y Ey.
    apply (materialize_made lines not_dropped Hcompress) in Ey; try done; [|exact (proj1 (Forall_forall _ _) (wo_reservations _ _ Hw) _ Hv)].
    destruct y as [c|e]; [by destruct Ey as (p & Hp & _); apply Hp|subst; by apply moves_refl].
  - destruct Ha as [Hf Hd]. eapply yields_effect; [| |exact E|]; try done. intros s1 y Ey.
    apply (commit_reserved_moves lines not_dropped) in Ey; try done; [by destruct y|by apply fresh_installable].
  - eapply yields_effect; [| |exact E|]; try done. intros s1 y Ey. apply (rollback_moves lines not_dropped) in Ey; [by destruct y|done].
  - eapply yields_effect; [| |exact E|]; try done. intros s1 y Ey. apply (install_moves lines not_dropped) in Ey; [by destruct y|done|].
    by apply fresh_one.
  - eapply yields_effect; [| |exact E|]; try done. intros s1 y Ey. apply (replace_moves lines not_dropped) in Ey; [by destruct y|done|].
    by apply fresh_one.
  - (* PlanDue *)
    unfold yields, mbind in E. destruct (plan_due_rotations _ _ _ s) as [s1 y] eqn:Ep.
    apply (plan_due_spec uuid4 Hcompress s Hs active_placed) in Ep as [Hsame Hps]. pose proof (same_parts_moves lines not_dropped _ _ Hs Hsame) as Hm.
    destruct y as [ps|e]; injection E as <- <-; split; try done; intros e' [= <-]; specialize (Hps ps eq_refl); cbn.
    + apply Forall_fmap. eapply Forall_impl; [exact Hps|]. by intros plan (_ & _ & ?).
    + exact Hps.
  - eapply yields_effect; [| |exact E|]; try done. intros s1 y Ey. apply (begin_moves lines not_dropped) in Ey; [by destruct y|done|].
    eapply Forall_impl; [exact Ha|]. intros plan Hp. exact (proj1 (Forall_forall _ _) (wo_planned _ _ Hw) plan Hp).
  - (* MaterializeRotation *)
    eapply yields_effect; [| |exact E|]; try done. intros s1 y Ey.
    apply (materialize_rotation_spec Hcompress) in Ey; try done.
    + destruct y as [c|e]; [|subst; by apply moves_refl]. destruct Ey as (p & Hat & Hm & Ho). by eapply moves_made.
    + by apply (proj1 (Forall_forall _ _) (proj1 (wo_plans _ _ Hw))).
    + intros p Hp. eapply story_placed; [done|]. by apply (proj1 (Forall_forall _ _) (proj2 (wo_plans _ _ Hw)) plan).
  - destruct Ha as (Hf & Hd & Hk). eapply yields_effect; [| |exact E|]; try done. intros s1 y Ey.
    apply (commit_moves lines not_dropped) in Ey; try done; [by destruct y|by apply fresh_installable].
  - (* AppendAccepted *)
    unfold yields, mbind in E. destruct (set_append_accepted _ _ _ _ s) as [s1 y] eqn:Ep.
    apply (set_append_moves uuid4 lines not_dropped Hcompress) in Ep; [|done|apply next_not_dropped|done].
    destruct y as [l|e]; injection E as <- <-; split; try done; intros e' [= <-]; constructor.
  - eapply yields_effect; [| |exact E|]; try done. intros s1 y Ey. by apply (detach_all_moves lines not_dropped) in Ey as [Hm _].
  - eapply yields_effect; [| |exact E|]; try done. intros s1 y Ey. by apply (prepare_moves lines not_dropped) in Ey as [Hm _].
  - eapply yields_effect; [| |exact E|]; try done. intros s1 y Ey. apply (commit_config_moves lines not_dropped) in Ey; [by destruct y|done].
  - eapply yields_effect; [| |exact E|]; try done. intros s1 y Ey. by apply (rotate_moves lines not_dropped) in Ey.
  - eapply yields_effect; [| |exact E|]; try done. intros s1 y Ey. unfold detach_size_due in Ey. look Ey; [by apply moves_refl|].
    unfold _nonnegative in *. inv_ok. bool_prop. eapply detach_due_moves in Ey; try done. apply active_placed.
  - eapply yields_effect; [| |exact E|]; try done. intros s1 y Ey. unfold detach_interval_due in Ey. look Ey; [by apply moves_refl|].
    unfold _nonnegative in *. inv_ok. bool_prop. eapply detach_due_moves in Ey; try done. apply active_placed.
Qed.
End Operation.

(** ** The world after an operation *)
Section After.
Context (w : World) (Hw : world_ok w) (o : set_op) (s' : _ActivePartSet) (x : result Effect).
Context (He : op_effect w o s' x).
#[local] Abbreviation s := (parts w).
#[local] Abbreviation out := (match x with Ok e => handed e | Err _ => [] end).
#[local] Abbreviation D := (abandoned o s s' x).

Lemma abandoned_new r : r ∈ D -> (length (heap s) <= r < length (heap s'))%nat /\ r ∉ active_refs s'.
Proof.
  unfold abandoned. destruct o; try set_solver. destruct x; [set_solver|]. intros [Hn Hin]%list_elem_of_filter. apply elem_of_seq in Hin.
  split; [lia|done].
Qed.
Lemma old_not_abandoned r p : heap s !! r = Some p -> r ∉ D.
Proof. intros Hp%lookup_lt_Some Hd. apply abandoned_new in Hd as [? _]. lia. Qed.
Lemma out_handed : handed (match x with Ok e => e | Err _ => nothing end) = out.
Proof. by destruct x. Qed.

Lemma finishing_closed r : r ∈ finishing w -> exists p, heap s' !! r = Some p /\ is_Some (p_close_reason p).
Proof.
  intros Hr. destruct (proj2 (wo_finishing _ _ Hw) r Hr) as (p & Hp & Hc). eapply grown_closed; [apply (oe_moves _ _ _ _ He)|done|by eapply old_not_abandoned|done].
Qed.
Lemma finishing_inactive r : r ∈ finishing w -> r ∉ active_refs s'.
Proof.
  intros (p & Hp & Hc)%finishing_closed Ha. destruct (active_open _ _ (mo_ok _ _ _ _ _ _ (oe_moves _ _ _ _ He)) Ha) as (q & Hq & Hn).
  rewrite Hp in Hq. injection Hq as <-. rewrite Hn in Hc. by destruct Hc.
Qed.

Lemma after_story r p : heap s' !! r = Some p -> r ∉ dropped w ++ D -> story lines (threads w !! r) p.
Proof.
  intros Hp [Hd Hd']%not_elem_of_app. pose proof (mo_grown _ _ _ _ _ _ (oe_moves _ _ _ _ He)) as Hg. destruct (heap s !! r) as [q|] eqn:Hq.
  - destruct (gr_parts _ _ _ _ Hg r q Hq Hd') as (p' & Hp' & Hf & _ & ev & Hev & Hrun). rewrite Hp in Hp'. injection Hp' as <-.
    destruct (wo_story _ _ Hw r q Hq Hd) as (p0 & tr & Hm & Hr & Hl). destruct (part_runs_inv Hcompress _ _ _ (proj1 Hm) Hr) as [L Hinv].
    exists p0, (tr ++ ev). split; [done|]. split; [by apply Hrun|]. rewrite appended_app. apply Forall_app. split; [done|].
    eapply of_hour_fixed; [|exact Hev]. exact (in_fixed _ _ _ _ Hinv).
  - destruct (gr_new _ _ _ _ Hg r p Hq Hp Hd') as (p0 & Hm & Hf & _ & ev & Hev & Hrun). exists p0, ev. split; [done|]. split; [|done].
    assert (threads w !! r = None) as ->.
    { destruct (threads w !! r) eqn:Ht; [|done]. apply lookup_ge_None in Hq. pose proof (wo_threads _ _ Hw r ltac:(by eexists)). lia. }
    apply (Hrun p0 [] None). constructor.
Qed.

Lemma after_activated : NoDup (activated (after w o s' x)) /\
  (forall r, r ∈ activated (after w o s' x) <-> r ∈ finishing (after w o s' x) \/ r ∈ active_refs s').
Proof.
  destruct (wo_activated _ _ Hw) as [Hn Hiff]. pose proof (oe_moves _ _ _ _ He) as Hm. cbn [after activated finishing]. rewrite out_handed. split.
  - apply NoDup_app. split_and!; [done| |apply NoDup_filter, active_refs_nodup, Hm].
    intros r Hr [Hna Ha]%list_elem_of_filter. apply Hiff in Hr as [Hr|Hr]; [|done]. by apply (finishing_inactive r).
  - intros r. rewrite !elem_of_app, list_elem_of_filter, Hiff. split.
    + intros [[Hr|Hr]|[_ Hr]]; [by left; left| |by right]. destruct (mo_kept _ _ _ _ _ _ Hm r Hr) as [?|?]; [by right|left; by right].
    + intros [[Hr|Hr]|Hr]; [by left; left|left; right; by apply Hm|]. destruct (decide (r ∈ active_refs s)); [left; by right|by right].
Qed.
Lemma after_finishing : NoDup (finishing (after w o s' x)) /\
  (forall r, r ∈ finishing (after w o s' x) -> exists p, heap s' !! r = Some p /\ is_Some (p_close_reason p)).
Proof.
  destruct (wo_finishing _ _ Hw) as [Hn Hc]. pose proof (oe_moves _ _ _ _ He) as Hm. cbn [after finishing]. rewrite out_handed. split.
  - apply NoDup_app. split_and!; [done| |apply Hm]. intros r Hr Ho. destruct (mo_out _ _ _ _ _ _ Hm r Ho) as [Ha _].
    destruct (Hc r Hr) as (p & Hp & Hcl). destruct (active_open _ _ (wo_set _ _ Hw) Ha) as (q & Hq & Hno). rewrite Hp in Hq. injection Hq as <-.
    rewrite Hno in Hcl. by destruct Hcl.
  - intros r [Hr|Hr]%elem_of_app; [by apply finishing_closed|]. apply (mo_out _ _ _ _ _ _ Hm r Hr).
Qed.
Lemma after_dropped r : r ∈ dropped w ++ D -> r ∉ activated (after w o s' x) /\ (r < length (heap s'))%nat.
Proof.
  pose proof (oe_moves _ _ _ _ He) as Hm. pose proof (gr_length _ _ _ _ (mo_grown _ _ _ _ _ _ Hm)) as Hlen.
  cbn [after activated]. rewrite not_elem_of_app, list_elem_of_filter. intros [Hr|Hr]%elem_of_app.
  - destruct (wo_dropped _ _ Hw r Hr) as [Hn Hlt]. split; [|lia]. split; [done|]. intros [Hna Ha].
    by destruct (mo_new _ _ _ _ _ _ Hm r Ha).
  - apply abandoned_new in Hr as [Hlt Hna]. split; [|lia]. split; [|naive_solver]. intros Hin%(activated_old w Hw). lia.
Qed.
Lemma plan_ok_after plan : plan_ok s plan -> plan_ok s' plan.
Proof.
  intros (p & Hp & Hst & Hb). pose proof (mo_grown _ _ _ _ _ _ (oe_moves _ _ _ _ He)) as Hg.
  destruct (gr_parts _ _ _ _ Hg _ p Hp ltac:(by eapply old_not_abandoned)) as (p' & Hp' & Hf & _). exists p'. unfold fixed in Hf.
  injection Hf as F1 F2 F3 F4 F5 F6 F7 _ _ _ _ _. rewrite F1, F4. by split_and!.
Qed.

Lemma after_ok : world_ok (after w o s' x).
Proof.
  pose proof (oe_moves _ _ _ _ He) as Hm. destruct (wo_plans _ _ Hw) as [Hpl Hpd].
  assert (Hgiven : Forall reservation_ok (given (match x with Ok e => e | Err _ => nothing end))) by (destruct x; [by eapply oe_given|constructor]).
  assert (Hnew : Forall (fun plan => current plan ∈ active_refs s /\ plan_ok s plan /\ reservation_ok (reservation plan)) (planned (match x with Ok e => e | Err _ => nothing end)))
    by (destruct x; [by eapply oe_planned|constructor]).
  split; cbn [after parts threads reservations plans dropped].
  - apply Hm.
  - exact after_story.
  - apply Forall_app. split; [apply Hw|done].
  - assert (Hd : forall r p, heap s !! r = Some p -> r ∉ dropped w -> r ∉ dropped w ++ D).
    { intros r p Hp Hn. apply not_elem_of_app. split; [done|by eapply old_not_abandoned]. }
    split; apply Forall_app; split; apply Forall_forall; intros plan Hp.
    + apply plan_ok_after. exact (proj1 (Forall_forall _ _) Hpl plan Hp).
    + apply plan_ok_after. apply (proj1 (Forall_forall _ _) Hnew plan Hp).
    + destruct (proj1 (Forall_forall _ _) Hpl plan Hp) as (p & Hc & _). eapply Hd; [done|]. exact (proj1 (Forall_forall _ _) Hpd plan Hp).
    + destruct (proj1 (Forall_forall _ _) Hnew plan Hp) as (Ha & (p & Hc & _) & _). eapply Hd; [done|]. by apply (activated_not_dropped w Hw), active_activated.
  - apply Forall_app. split; [apply Hw|]. eapply Forall_impl; [exact Hnew|]. by intros plan (_ & _ & ?).
  - exact after_activated.
  - exact after_finishing.
  - exact after_dropped.
  - intros r Hr. pose proof (wo_threads _ _ Hw r Hr). pose proof (gr_length _ _ _ _ (mo_grown _ _ _ _ _ _ Hm)). lia.
Qed.
End After.

(** ** The world after a step of a part *)
Section Part.
Context (w : World) (Hw : world_ok w) (r : ref) (p p' : _ActivePart) (ev : list event) (th : option (_ClaimedSealedWork * Persisted)).
Context (Hp : heap (parts w) !! r = Some p) (Hd : r ∉ dropped w).
Context (Hst : part_step [] {| part := p; thread := threads w !! r |} ev {| part := p'; thread := th |}).
Context (Hev : Forall (of_hour lines p) (appended ev)) (Hopen : r ∈ active_refs (parts w) -> p_close_reason p' = None).
#[local] Abbreviation s' := (set_heap (<[r := p']> (heap (parts w))) (parts w)).

Lemma part_at_step c : heap s' !! c = if decide (c = r) then Some p' else heap (parts w) !! c.
Proof.
  cbn [heap set_heap]. case_decide as Hc; [subst; apply list_lookup_insert_eq; by apply lookup_lt_Some in Hp|by apply list_lookup_insert_ne].
Qed.
Lemma part_story : story lines th p' /\ fixed p' = fixed p.
Proof.
  destruct (wo_story _ _ Hw r p Hp Hd) as (p0 & tr & Hm & Hr & Hl). destruct (part_runs_inv Hcompress _ _ _ (proj1 Hm) Hr) as [L Hinv].
  pose proof (part_step_more _ _ _ _ _ Hr Hst) as Hr'. destruct (part_runs_inv Hcompress _ _ _ (proj1 Hm) Hr') as [L' Hinv'].
  pose proof (in_fixed _ _ _ _ Hinv) as F. pose proof (in_fixed _ _ _ _ Hinv') as F'. cbn [part] in F, F'. split; [|congruence].
  exists p0, (tr ++ ev). split; [done|]. split; [done|]. rewrite appended_app. apply Forall_app. split; [done|]. eapply of_hour_fixed; [exact F|done].
Qed.
Lemma part_set_ok : set_ok s'.
Proof.
  destruct (wo_set _ _ Hw) as [O1 O2 O3 O4 O5]. split; try done. intros k c Hk. rewrite part_at_step.
  case_decide as Hc; [subst|by eapply O3]. exists p'. split; [done|]. apply Hopen. apply elem_of_parts; [done|by exists k].
Qed.
Lemma part_plan_ok plan : plan_ok (parts w) plan -> plan_ok s' plan.
Proof.
  intros (q & Hq & Hs & Hb). destruct part_story as [_ Hf]. unfold plan_ok. rewrite part_at_step. case_decide as Hc; [|by exists q].
  subst r. rewrite Hp in Hq. injection Hq as <-. exists p'. unfold fixed in Hf. injection Hf as F1 F2 F3 F4 F5 F6 F7 _ _ _ _ _.
  rewrite F1, F4. by split_and!.
Qed.
Lemma part_ok : world_ok {| parts := s'; threads := partial_alter (fun _ => th) r (threads w); reservations := reservations w;
  plans := plans w; activated := activated w; finishing := finishing w; dropped := dropped w |}.
Proof.
  destruct Hw as [W1 W2 W3 [W4 W4'] W5 W6 [W7 W7'] W8 W9].
  split; cbn [parts threads reservations plans activated finishing dropped]; try done.
  - exact part_set_ok.
  - intros c q. rewrite part_at_step. case_decide as Hc.
    + intros [= <-] _. subst c. rewrite lookup_partial_alter_eq. apply part_story.
    + intros Hq Hn. rewrite lookup_partial_alter_ne by done. by apply W2.
  - split; [|done]. eapply Forall_impl; [exact W4|]. exact part_plan_ok.
  - split; [done|]. intros c Hc. destruct (W7' c Hc) as (q & Hq & Hcl). rewrite part_at_step. case_decide as Heq; [|by exists q].
    subst c. exists p'. split; [done|]. rewrite Hp in Hq. injection Hq as <-. destruct (part_step_closing _ _ _ _ Hst Hcl) as [E _]. cbn [part] in E. by rewrite E.
  - intros c Hc. cbn [heap set_heap]. rewrite length_insert. by apply W8.
  - intros c Hc. cbn [heap set_heap]. rewrite length_insert. destruct (decide (c = r)) as [->|Hne]; [by apply lookup_lt_Some in Hp|].
    rewrite lookup_partial_alter_ne in Hc by done. by apply W9.
Qed.
End Part.

(** ** Every world *)
Lemma start_ok s0 : empty_set s0 -> world_ok (start s0).
Proof.
  intros (Ha & Hh & Hq). assert (Hr : active_refs s0 = []) by (unfold active_refs; by rewrite Ha).
  split; cbn [start parts threads reservations plans activated finishing dropped]; rewrite ?Hr.
  - split; rewrite ?Ha; try done. constructor.
  - intros r p. by rewrite Hh.
  - constructor.
  - by split; constructor.
  - constructor.
  - split; [constructor|]. set_solver.
  - split; [constructor|]. set_solver.
  - set_solver.
  - intros r [x Hx]. by rewrite lookup_empty in Hx.
Qed.
Lemma world_step_ok w w' : world_ok w -> world_step uuid4 lines w w' -> world_ok w'.
Proof.
  intros Hw Hst. destruct Hst as [w o s' x Ha He|w r p ev p' th Hp Hd Hst Hev Hopen]; [|by eapply part_ok].
  apply after_ok; [done|by apply exec_effect].
Qed.
Lemma world_runs_ok s0 w : empty_set s0 -> world_runs uuid4 lines s0 w -> world_ok w.
Proof. intros Hs. induction 1; [by apply start_ok|by eapply world_step_ok]. Qed.
End Inv.
