(* ===== verification/PartSetClaims.v ===== *)
(** What holds of the parts of a writer over every interleaving of its operations. *)
From S2P Require Import Prelude PyDecimal Domain StorageModels PyText CatalogJson PyTime PartPath EnvelopeJson Manifest FrameScan.
From S2P Require Import ScanFacts RecoveryScan CrashRecovery PathFacts RowFacts PlanFacts.
From S2P Require Import Durability DurabilityFacts.
From S2P Require StreamFile.
From S2P Require Histogram.
From S2P Require Import ActivePart ActivePartRuns ActivePartInv ActivePartFreeze ActiveParts.
From S2P Require Import PartSet PartSetSteps PartSetRuns PartSetOps PartSetRotations PartSetInv PartSetAppend.

(** The line of a record is its envelope, encoded. *)
Definition line_of {A : Type} `{Encoders A} (r : AcceptedRecord) : Prop :=
  row_for {| StreamFile.data := encoded_jsonl r; StreamFile.accepted_monotonic_ns := accepted_monotonic_ns r |} (envelope r).

Section Sets.
Context (uuid4 : nat -> string) `{StreamFile.Compressor} (lines : AcceptedRecord -> Prop) (Hcompress : forall q, StreamFile.compress q <> "").

(** C20: No part is ever lost.  Take a set without parts and any run of its operations and of
    the operations of its parts, in any interleaving and with any failures, by callers who keep
    the protocol of the set: records are scoped as their streams demand, a part is installed
    once, for the reservation it was made for, and reservations and plans are those the set
    gave.  Every part that was ever active is then either still active, under exactly one
    logical stream and open, or it was handed out exactly once to be finished and is retired,
    for a normal reason and at a time; and each stream has at most one entry. *)
Theorem parts_accounted (s0 : _ActivePartSet) (w : World) : empty_set s0 -> world_runs uuid4 lines s0 w ->
  NoDup (activated w) /\ activated w ≡ₚ finishing w ++ active_parts (parts w) /\
  NoDup (_active (parts w)).*1 /\
  (forall r, r ∈ active_parts (parts w) -> exists k p, dict_get k (_active (parts w)) = Some (Part r) /\
     (forall k', dict_get k' (_active (parts w)) = Some (Part r) -> k' = k) /\
     heap (parts w) !! r = Some p /\ p_close_reason p = None) /\
  (forall r, r ∈ finishing w -> exists p why closed, heap (parts w) !! r = Some p /\
     p_close_reason p = Some why /\ p_closed_at_ns p = Some closed /\ why <> Domain.RECOVERY /\ 0 <= closed).
Proof.
  intros Hs0 Hruns. pose proof (world_runs_ok _ _ Hcompress _ _ Hs0 Hruns) as Hw. destruct (wo_activated _ _ Hw) as [Hn Hiff].
  pose proof (wo_set _ _ Hw) as Hs. split_and!; [done| |apply Hs| |].
  - apply NoDup_Permutation; [done| |].
    + apply NoDup_app. split_and!; [apply (wo_finishing _ _ Hw)| |rewrite active_parts_perm; by apply active_refs_nodup].
      intros r Hf Ha. rewrite active_parts_perm in Ha. destruct (proj2 (wo_finishing _ _ Hw) r Hf) as (p & Hp & Hc).
      destruct (active_open _ _ Hs Ha) as (q & Hq & Ho). rewrite Hp in Hq. injection Hq as <-. rewrite Ho in Hc. by destruct Hc.
    + intros r. by rewrite elem_of_app, active_parts_perm, Hiff.
  - intros r Ha. rewrite active_parts_perm in Ha. apply active_refs_elem in Ha as [k Hk]; [|done].
    destruct (so_open _ Hs _ _ Hk) as (p & Hp & Ho). exists k, p. split_and!; try done. intros k' Hk'. by eapply so_one.
  - intros r Hf. destruct (proj2 (wo_finishing _ _ Hw) r Hf) as (p & Hp & [why Hwhy]).
    assert (Hd : r ∉ dropped w) by (apply (activated_not_dropped lines w Hw), Hiff; by left).
    destruct (wo_story _ _ Hw r p Hp Hd) as (p0 & tr & Hm & Hr & _). destruct (part_runs_inv Hcompress _ _ _ (proj1 Hm) Hr) as [L Hinv].
    pose proof (in_closed _ _ _ _ Hinv) as Hcl. unfold closed_ok in Hcl. cbn [part] in Hcl. rewrite Hwhy in Hcl.
    destruct (p_closed_at_ns p) as [closed|] eqn:Ec; [|done]. exists p, why, closed. destruct Hcl as [Hw1 Hw2]. by split_and!.
Qed.

(** C21: A record finds the part of its stream and hour.  Take any world, any outcome of
    making the file and of awaiting the thread that makes the part (the task may be cancelled
    before or after the thread has run), and any clock; no other operation of the set runs
    during the await.  If [_ensure_part] returns, it returns the part that is now active for the
    record's stream, which is open and of the record's hour: the one that was active if it is of
    that hour, and then nothing changes, otherwise a new one.  A part of another hour that was
    active is returned too, retired for its hour at the time of the clock, but not before its
    creation; no other stream or part changes.  If it fails, no part of the record's hour was
    active, no entry and no part has changed, and at most one empty open part that no entry
    names was left behind; the error is that of the reservation, of the part's checks, of the
    creation of the file, the cancellation, or, only if an entry of another hour was to be
    replaced, that of the clock. *)
Theorem ensure_part_exact (s0 : _ActivePartSet) (w : World) (r : AcceptedRecord) (i : AcceptedRecordIdentityV1) (opened : result Z)
    (awaited : Awaited) (clock : result Z) (s' : _ActivePartSet) (x : result (ref * option ref)) :
  empty_set s0 -> world_runs uuid4 lines s0 w -> record_made lines r -> _ensure_part uuid4 r i opened awaited clock (parts w) = (s', x) ->
  match x with
  | Ok (c, retired) => ensured r clock (parts w) c retired s'
  | Err e => left_behind r (parts w) s' /\ none_of_hour r (parts w) /\ ensure_error uuid4 r i opened awaited clock (parts w) e
  end.
Proof.
  intros Hs0 Hruns Hr E. pose proof (world_runs_ok _ _ Hcompress _ _ Hs0 Hruns) as Hw.
  eapply ensure_part_spec; [done|apply Hw|exact Hr| |exact E]. intros c p Hc Hp.
  destruct (active_placed lines Hcompress w Hw c p Hc Hp) as (_ & _ & id & Hid). apply Hid.
Qed.
End Sets.

(** C19: The manifest says what recovery would say, for the parts a writer finishes.  Take any
    run of a set whose records passed their constructors, are scoped as their streams demand
    (a market-scoped record names no instrument), hold no JSON decimals, and come with the line
    of their envelope; the callers keep the protocol of the set.  Take a part that was handed
    out in it, is frozen and holds no more rows than a 64-bit integer counts.  Then the manifest
    built for the file as it is passes every check of its constructor, and recovery, reading the
    file under the path of the manifest in chunks of any size, finds no invalid byte, exactly
    the accepted records in order, the size and digest of the manifest, and from them the very
    facts about the rows that the manifest states.  (The writer also takes a market-scoped
    record that names an instrument; the manifest of its part fails its
    constructor.) *)
Theorem finished_parts_recover {A : Type} `{EnvelopeCodecLaws A} `{CompressorLaws} {Hzstd : ZstdLaws} (uuid4 : nat -> string)
    (sha256 : string -> string) (s0 : _ActivePartSet) (w : World) (r : ref) (p p' : _ActivePart) (sm : _PartSummary) (chunks : list string) :
  (forall x, config_sha256_ok (sha256 x) = true) -> empty_set s0 -> world_runs uuid4 (line_of (A := A)) s0 w ->
  r ∈ finishing w -> heap (parts w) !! r = Some p -> freeze_summary p = (p', Ok sm) -> p_record_count p <= MAX_INT64 ->
  String.concat "" chunks = StreamFile.contents (stream_file p') ->
  let file := StreamFile.contents (stream_file p') in
  exists p0 tr m scan, part_made p0 /\ part_runs p0 tr {| part := p; thread := threads w !! r |} /\
    build_manifest p' sm (len file) (sha256 file) = Ok m /\
    _scan_recovery_chunks sha256 chunks (m_data_relative_path m) = Ok scan /\
    row_facts scan = Some (manifest_facts m) /\
    (ss_source_size_bytes scan, ss_valid_prefix_size_bytes scan, source_sha256 scan, m_record_count m)
    = (file_size_bytes m, file_size_bytes m, Manifest.file_sha256 m, Z.of_nat (length (appended tr))) /\
    exists whole_scan, scan_recovery_frames file (m_data_relative_path m) = Ok whole_scan /\
      concat (envelopes <$> FrameScan.frames whole_scan) = envelopes_of (appended tr).
Proof.
  intros Hsha Hs0 Hruns Hf Hp Hz Hcount Hchunks. cbv zeta. assert (Hcz : forall q, StreamFile.compress q <> "") by apply zc_nonempty.
  pose proof (world_runs_ok _ _ Hcz _ _ Hs0 Hruns) as Hw. destruct (proj2 (wo_finishing _ _ Hw) r Hf) as (q & Hq & [why Hwhy]).
  rewrite Hp in Hq. injection Hq as <-.
  assert (Hd : r ∉ dropped w) by (apply (activated_not_dropped _ w Hw), (proj2 (wo_activated _ _ Hw)); by left).
  destruct (wo_story _ _ Hw r p Hp Hd) as (p0 & tr & Hm & Hr & Hl). destruct (part_runs_inv Hcz _ _ _ (proj1 Hm) Hr) as [L Hinv].
  pose proof (in_closed _ _ _ _ Hinv) as Hcl. unfold closed_ok in Hcl. cbn [part] in Hcl. rewrite Hwhy in Hcl.
  destruct (p_closed_at_ns p) as [closed|] eqn:Ec; [|done].
  assert (Hbound : Z.of_nat (length (appended tr)) <= MAX_INT64).
  { pose proof (mi_count _ _ (ac_rows _ _ (in_accumulator _ _ _ _ Hinv))) as E. unfold p_record_count, record_count in Hcount. cbn [part] in E. rewrite E in Hcount.
    unfold envelopes_of in Hcount. by rewrite length_fmap in Hcount. }
  destruct (proj2 (proj2 (proj2 Hm))) as [id Hid].
  destruct (freeze_quiescent Hinv _ _ Hz) as (_ & _ & _ & _ & Hp').
  edestruct (manifest_of_part sha256 id p0 p' tr _ sm why closed chunks Hsha Hid (proj1 Hm) Hr Hbound) as (m & scan & Hman); try done.
  - by rewrite Hp'.
  - by rewrite Hp'.
  - exists p0, tr, m, scan. by split; [|split].
Qed.
