(* ===== verification/PartSetSamples.v ===== *)
(** A writer with one stream: its first record makes a part, which is synced and, when the
    writer closes, detached and finished; and the record of the next hour. *)
From S2P Require Import Prelude PyDecimal Domain StorageModels PyText CatalogJson PyTime PartPath EnvelopeJson Manifest FrameScan.
From S2P Require Import ScanFacts RecoveryScan CrashRecovery.
From S2P Require Import Durability DurabilityFacts.
From S2P Require StreamFile.
From S2P Require Concrete.
From S2P Require Import ActivePart ActivePartRuns ActivePartInv ActivePartFreeze ActiveParts ActivePartSamples.
From S2P Require Import PartSet PartSetRuns PartSetSteps PartSetAppend PartSetClaims.

#[local] Existing Instances LineSamples.codec LineSamples.encoders LineSamples.laws.
#[local] Existing Instances CrashSamples.zstd CrashSamples.compressor CrashSamples.zstd_laws CrashSamples.compressor_laws.

Definition uuid4 (n : nat) : string := "g".
Definition lines : AcceptedRecord -> Prop := line_of (A := StorageControlAssociationV1).

(** ** Running a world *)
Section Drive.
Context (s0 : _ActivePartSet).
#[local] Abbreviation world_runs := (world_runs uuid4 lines s0).
Definition after_set (o : set_op) (w : World) : World :=
  after w o (exec_set uuid4 o (parts w)).1 (exec_set uuid4 o (parts w)).2.
Definition after_part (r : ref) (s : PartRun) (w : World) : World := {|
  parts := set_heap (<[r := part s]> (heap (parts w))) (parts w); threads := partial_alter (fun _ => thread s) r (threads w);
  reservations := reservations w; plans := plans w; activated := activated w; finishing := finishing w; dropped := dropped w |}.
Lemma run_set w o : world_runs w -> asked lines w o -> world_runs (after_set o w).
Proof. intros Hw Ho. eapply world_more; [exact Hw|]. apply world_set; [exact Ho|apply surjective_pairing]. Qed.
Lemma run_part w r s ev s' : world_runs w -> heap (parts w) !! r = Some (part s) -> threads w !! r = thread s -> dropped w = [] ->
  part_step [] s ev s' -> appended ev = [] -> p_close_reason (part s') = None -> world_runs (after_part r s' w).
Proof.
  intros Hw Hp Ht Hd Hst He Hc. eapply world_more; [exact Hw|]. destruct s as [p th], s' as [p' th']. cbn in *. subst th.
  eapply world_part; [exact Hp|by rewrite Hd; apply not_elem_of_nil|exact Hst|by rewrite He|done].
Qed.
Lemma step_op s o : op_made o -> is_ok (exec o (part s)).2 = true -> part_step [] s (event_of o) (after_op o s).
Proof.
  intros Hm Ho. pose proof (part_operation [] s o (exec o (part s)).1 (exec o (part s)).2 Hm (surjective_pairing _)) as Hs. by rewrite Ho in Hs.
Qed.
Lemma step_persist s c env : thread s = None -> in_flight_claim (part s) = Ok (Some c) ->
  is_ok (match _persist_blocking true env (work c) (stream_file (part s)) with (_, StreamFile.Returns _) => Ok tt | _ => Err NO_PART end) = true ->
  part_step [] s [] (after_persist c env s).
Proof.
  intros Ht Hc. unfold after_persist. destruct (_persist_blocking _ _ _ _) as [f [r|]] eqn:Ep; [|done]. intros _. by eapply part_persist.
Qed.
Lemma step_settle s c o : thread s = Some (c, o) -> is_ok (settle c (reported o) (part s)).2 = true ->
  part_step [] s [Settled c (reported o)] (after_settle c o s).
Proof.
  intros Ht Ho. pose proof (part_settle [] s c o _ _ Ht (surjective_pairing _)) as Hs. by rewrite Ho in Hs.
Qed.
End Drive.

(** ** The writer *)
Definition made_set : result _ActivePartSet := new_set BINANCE (config_sha256 (CrashSamples.trade 3)) 1 3 100000 1000000 3600000000000 40 4.
Definition set0 : _ActivePartSet := match made_set with Ok s => s | Err _ =>
  {| _exchange := BINANCE; _config_sha256 := ""; _config_generation := 0; _zstd_level := 0; _max_plain_frame_bytes := 0; _max_compressed_size_bytes := 0;
     _rotate_interval_ns := 0; PartSet._durability_slo_ns := 0; _active := []; _next_part_sequence := 0; heap := []; uuids := 0 |} end.
Lemma set0_made : made_set = Ok set0.
Proof. vm_compute. reflexivity. Qed.
Lemma set0_empty : empty_set set0.
Proof. vm_compute. split; [reflexivity|]. split; [reflexivity|discriminate]. Qed.

Lemma line_of_record n : envelope_made (CrashSamples.trade n) -> CatalogJson.plain (wire (CrashSamples.trade n)) = true -> lines (record n).
Proof. intros Hm Hp. split; [exact Hm|]. split; [exact Hp|]. right. reflexivity. Qed.
Lemma record3_made : record_made lines (record 3).
Proof.
  split; [exact trade3_made|]. split; [vm_compute; reflexivity|]. split; [vm_compute; reflexivity|].
  apply line_of_record; [exact trade3_made|vm_compute; reflexivity].
Qed.

Definition first : set_op := AppendAccepted (record 3) (identity 3) (Ok 5).
Definition w1 : World := after_set first (start set0).
Definition w2 : World := after_part 0%nat s2 w1.
Definition w3 : World := after_part 0%nat s3 w2.
Definition done_run : PartRun := after_settle c1 report1 s3.
Definition w4 : World := after_part 0%nat done_run w3.
Definition w5 : World := after_set (DetachAll Domain.SHUTDOWN 9) w4.

Lemma w1_runs : world_runs uuid4 lines set0 w1.
Proof. apply run_set; [apply world_start|exact record3_made]. Qed.
Lemma w1_part : heap (parts w1) !! 0%nat = Some (part s1).
Proof. vm_compute. reflexivity. Qed.
Lemma w2_runs : world_runs uuid4 lines set0 w2.
Proof.
  apply (run_part set0 w1 0%nat s1 [] s2 w1_runs w1_part); [reflexivity|reflexivity| |reflexivity|vm_compute; reflexivity].
  exact (step_op s1 (Seal false) Logic.I s2_ok).
Qed.
Lemma w2_part : heap (parts w2) !! 0%nat = Some (part s2).
Proof. vm_compute. reflexivity. Qed.
Lemma s3_persisted :
  is_ok (match _persist_blocking true (env 10 57) (work c1) (stream_file (part s2)) with (_, StreamFile.Returns _) => Ok tt | _ => Err NO_PART end) = true.
Proof. vm_compute. reflexivity. Qed.
Lemma s3_step : part_step [] s2 [] s3.
Proof. exact (step_persist s2 c1 (env 10 57) eq_refl s2_claim s3_persisted). Qed.
Lemma w3_runs : world_runs uuid4 lines set0 w3.
Proof. apply (run_part set0 w2 0%nat s2 [] s3 w2_runs w2_part); [reflexivity|reflexivity|exact s3_step|reflexivity|vm_compute; reflexivity]. Qed.
Lemma w3_part : heap (parts w3) !! 0%nat = Some (part s3).
Proof. vm_compute. reflexivity. Qed.
Lemma w3_thread : threads w3 !! 0%nat = thread s3.
Proof. vm_compute. reflexivity. Qed.
Lemma s3_thread : thread s3 = Some (c1, report1).
Proof. vm_compute. reflexivity. Qed.
Lemma done_ok : is_ok (settle c1 (reported report1) (part s3)).2 = true.
Proof. vm_compute. reflexivity. Qed.
Lemma w4_runs : world_runs uuid4 lines set0 w4.
Proof.
  apply (run_part set0 w3 0%nat s3 [Settled c1 (reported report1)] done_run w3_runs w3_part w3_thread); [reflexivity| |reflexivity|vm_compute; reflexivity].
  exact (step_settle s3 c1 report1 s3_thread done_ok).
Qed.
Lemma w5_runs : world_runs uuid4 lines set0 w5.
Proof. apply run_set; [exact w4_runs|exact Logic.I]. Qed.

Definition finished : _ActivePart := set_closed Domain.SHUTDOWN 9 (part done_run).
Lemma w5_part : heap (parts w5) !! 0%nat = Some finished.
Proof. vm_compute. reflexivity. Qed.
Lemma w5_finishing : finishing w5 = [0%nat].
Proof. vm_compute. reflexivity. Qed.
Lemma finished_freezes : is_ok (freeze_summary finished).2 = true.
Proof. vm_compute. reflexivity. Qed.
Lemma finished_count : p_record_count finished = 1.
Proof. vm_compute. reflexivity. Qed.

Definition digest (x : string) : string := Concrete.hex 64 (len x).
Lemma sample_digest_ok x : config_sha256_ok (digest x) = true.
Proof. unfold config_sha256_ok, digest. destruct (Concrete.hex_ok 64 (len x)) as [-> ->]. done. Qed.
Lemma concat_one x : String.concat "" [x] = x.
Proof. reflexivity. Qed.

(** ** Witnesses *)
Lemma parts_accounted_witness : activated w5 = [0%nat] /\ finishing w5 = [0%nat] /\ active_parts (parts w5) = [] /\
  exists p, heap (parts w5) !! 0%nat = Some p /\ exists why, p_close_reason p = Some why.
Proof.
  destruct (parts_accounted uuid4 lines escape_nonempty set0 w5 set0_empty w5_runs) as (_ & _ & _ & _ & H).
  split; [vm_compute; reflexivity|]. split; [exact w5_finishing|]. split; [vm_compute; reflexivity|].
  destruct (H 0%nat) as (p & why & closed & H1 & H2 & _).
  - rewrite w5_finishing. apply list_elem_of_singleton. reflexivity.
  - exists p. split; [exact H1|]. exists why. exact H2.
Defined.

Definition frozen : _ActivePart * result _PartSummary := freeze_summary finished.
Lemma finished_parts_recover_witness :
  exists sm m scan, build_manifest frozen.1 sm (len (StreamFile.contents (stream_file frozen.1)))
      (digest (StreamFile.contents (stream_file frozen.1))) = Ok m /\
    _scan_recovery_chunks digest [StreamFile.contents (stream_file frozen.1)] (m_data_relative_path m) = Ok scan /\
    row_facts scan = Some (manifest_facts m).
Proof.
  destruct (ok_value (freeze_summary finished) finished_freezes) as [sm Hsm]. exists sm.
  destruct (finished_parts_recover (A := StorageControlAssociationV1) uuid4 digest set0 w5 0%nat finished frozen.1 sm [StreamFile.contents (stream_file frozen.1)])
    as (p0' & tr & m & scan & _ & _ & H1 & H2 & H3 & _).
  - exact sample_digest_ok.
  - exact set0_empty.
  - exact w5_runs.
  - rewrite w5_finishing. apply list_elem_of_singleton. reflexivity.
  - exact w5_part.
  - exact Hsm.
  - rewrite finished_count. unfold MAX_INT64. lia.
  - exact (concat_one _).
  - exists m, scan. split; [exact H1|]. split; [exact H2|exact H3].
Defined.

(** A record of the next hour, while the first part is active. *)
Definition later : AcceptedRecord :=
  let e := PartSamples.envelope (PartSamples.draft "trade" (Some SPOT) (Some "BTC/USDT")) 1709213696000000000 4 in
  {| envelope := e; encoded_jsonl := line e |}.
Lemma later_made : record_made lines later.
Proof.
  assert (Hm : envelope_made (envelope later)) by (split; [vm_compute; reflexivity|exact Logic.I]).
  split; [exact Hm|]. split; [vm_compute; reflexivity|]. split; [vm_compute; reflexivity|].
  split; [exact Hm|]. split; [vm_compute; reflexivity|]. right. reflexivity.
Qed.
Definition ensuring : _ActivePartSet * result (ref * option ref) := _ensure_part uuid4 later (identity 4) (Ok 6) Resumed (Ok 0) (parts w1).
Lemma ensuring_ok : ensuring.2 = Ok (1%nat, Some 0%nat).
Proof. vm_compute. reflexivity. Qed.
Lemma ensuring_run : _ensure_part uuid4 later (identity 4) (Ok 6) Resumed (Ok 0) (parts w1) = (ensuring.1, Ok (1%nat, Some 0%nat)).
Proof. rewrite <- ensuring_ok. exact (surjective_pairing ensuring). Qed.
Lemma ensure_part_exact_witness :
  dict_get (_key (envelope later)) (_active ensuring.1) = Some (Part 1%nat) /\
  exists p now, heap (parts w1) !! 0%nat = Some p /\ Ok 0 = Ok now /\ heap ensuring.1 !! 0%nat = Some (set_closed ROTATE_TIME (Z.max now (p_created_at_ns p)) p).
Proof.
  pose proof (ensure_part_exact uuid4 lines escape_nonempty set0 w1 later (identity 4) (Ok 6) Resumed (Ok 0) ensuring.1 (Ok (1%nat, Some 0%nat))
    set0_empty w1_runs later_made ensuring_run) as H.
  split; [exact (en_active _ _ _ _ _ _ H)|]. destruct (en_retired _ _ _ _ _ _ H) as (_ & p & now & H1 & _ & H3 & _ & H2).
  exists p, now. split; [exact H1|]. split; [exact H3|exact H2].
Defined.
