(* ===== verification/IntervalIngress.v ===== *)
(** The publisher of interval changes and the raw ingress composed: the control sink of
    the publisher is the ingress of the exchange. *)
From S2P Require IntervalObs.
From S2P Require Import Prelude PyDecimal Domain.
From S2P Require Import StorageModels Ingress IngressRuns.

(** The world of the publisher: the ingress, what the log and the metric have received,
    and the entries into the critical state. *)
Record World : Type := {
  w_ingress : RawIngress; w_logs : list (list (string * Json));
  w_metrics : list IntervalObs.IntervalChange; w_critical : list (string * string)
}.

Definition status_value (s : EnqueueStatus) : string :=
  match s with
  | ACCEPTED => "accepted" | ACCEPTED_HIGH_WATER => "accepted_high_water" | OVERFLOW => "overflow"
  | CONTROL_OVERFLOW => "control_overflow" | NOT_ACCEPTING => "not_accepting"
  end.

Section Composed.
Context `{Encoders StorageControlAssociationV1}.

(** [try_accept] as the control sink, called at the times [t] and [m]. *)
Definition ingress_sinks (t m : Z) : IntervalObs.IntervalSinks World := {|
  IntervalObs.logs_emit := fun r w => ({| w_ingress := w_ingress w; w_logs := w_logs w ++ [r];
    w_metrics := w_metrics w; w_critical := w_critical w |}, Ok tt);
  IntervalObs.controls_try_emit := fun draft source shard w =>
    let '(s, r) := try_accept None draft source shard t m (w_ingress w) in
    ({| w_ingress := s; w_logs := w_logs w; w_metrics := w_metrics w; w_critical := w_critical w |},
     match r with
     | Ok r => Ok (IntervalObs.Like (Some (status_value (r_status r))) (Some (accepted r)))
     | Err e => Err e
     end);
  IntervalObs.metrics_observe := fun c w => ({| w_ingress := w_ingress w; w_logs := w_logs w;
    w_metrics := w_metrics w ++ [c]; w_critical := w_critical w |}, Ok tt);
  IntervalObs.critical_enter := fun reason e w => ({| w_ingress := w_ingress w; w_logs := w_logs w;
    w_metrics := w_metrics w; w_critical := w_critical w ++ [(reason, e)] |}, Ok tt)
|}.

(** The payload of an interval change has a [type] but no [kind]. *)
Lemma change_has_no_kind c draft : IntervalObs._control_record c = Ok draft ->
  validate_control_draft draft = Err (StorageScopeError "control payload requires a normalized kind").
Proof. intros Hd. unfold IntervalObs._control_record in Hd. cbn in Hd. injection Hd as <-. reflexivity. Qed.

(** What the ingress makes of the control record, superseded or not. *)
Lemma change_not_accepted c draft t m s : IntervalObs._control_record c = Ok draft ->
  try_accept None draft internal "_control" t m s
  = (s, if _superseded s then result_init NOT_ACCEPTING None None
        else Err (StorageScopeError "control payload requires a normalized kind")).
Proof.
  intros Hd. unfold try_accept. destruct (_superseded s); [done|].
  unfold candidate. replace (_validate_shard "_control") with (Ok "_control") by (vm_compute; reflexivity). cbn [rbind].
  unfold _classify. replace (String.eqb (logical_stream draft) "_control") with true.
  - by rewrite (change_has_no_kind _ _ Hd).
  - destruct (IntervalObs.control_record_ok c) as (d & Hd' & _ & Hs & _). rewrite Hd in Hd'. injection Hd' as <-. by rewrite Hs.
Qed.

(** C29: an interval change is never published to the ingress.  The ingress takes only
    control records whose payload has a [kind], and the publisher's record has none: for
    every valid change of an allowed series and every state of the ingress, publication
    enters the critical state, raises [IntervalPublicationError], accepts no record and
    emits neither log nor metric. *)
Theorem interval_control_refused (allowed : list IntervalObs.MetricSeries) (c : IntervalObs.IntervalChange) (t m : Z) (w : World) :
  (IntervalObs.exchange c, IntervalObs.endpoint c) ∈ allowed ->
  exists msg, IntervalObs.publish (H := ingress_sinks t m) allowed c w
  = ({| w_ingress := w_ingress w; w_logs := w_logs w; w_metrics := w_metrics w;
        w_critical := w_critical w ++ [(IntervalObs.enqueue_failed, IntervalObs.event_id c)] |},
     Err (IntervalPublicationError msg)).
Proof.
  intros Hin. destruct (IntervalObs.control_record_ok c) as (draft & Hd & _ & _).
  unfold IntervalObs.publish. rewrite (bool_decide_eq_true_2 _ Hin). cbn [negb]. rewrite Hd.
  cbn [IntervalObs.controls_try_emit ingress_sinks]. rewrite (change_not_accepted c) by done.
  destruct (_superseded (w_ingress w)); cbn; by eexists.
Qed.
End Composed.

Module IntervalIngressSamples.
#[local] Existing Instance IngressSamples.sample_encoders.
Definition world : World := {| w_ingress := IngressSamples.sample_s0; w_logs := []; w_metrics := []; w_critical := [] |}.
Lemma interval_control_refused_witness :
  exists msg, (IntervalObs.publish (H := ingress_sinks 5 6) [(KRAKEN, "depth")] IntervalObs.Samples.change world).2
  = Err (IntervalPublicationError msg) /\ IntervalObs.change_init IntervalObs.Samples.change = Ok IntervalObs.Samples.change.
Proof.
  destruct (interval_control_refused [(KRAKEN, "depth")] IntervalObs.Samples.change 5 6 world) as [msg Hm]; [left|].
  exists msg. split; [by rewrite Hm|vm_compute; reflexivity].
Defined.
End IntervalIngressSamples.
